(* ===== verification/_CoqProject ===== *)
-Q . S2P
Prelude.v
Text.v
LiveTail.v
AppState.v
Session.v
E2ee.v
SlidingSync.v
SessionStatus.v
HistoryExport.v
Reducer.v
SessionProps.v
StatusProps.v
ExportProps.v
E2eeProps.v
AccountWork.v
Ledger.v
Grants.v
DeliverySettings.v
DeliverySettingsProps.v
Delivery.v
DeliveryChannel.v
DwellProps.v
DigestProps.v
DeliveryProps.v
DeliveryRuns.v
ReceiptIndex.v
ReceiptProps.v
Markdown.v
MarkdownProps.v
ComposerDocument.v
ComposerProps.v
DraftStore.v
DraftPersistence.v
DraftProps.v
DraftEviction.v
DraftPersistProps.v
DraftPayload.v
DraftPayloadProps.v
Staging.v
StagingProps.v
Panes.v
Conversation.v
TimelinePane.v
ThreadPane.v
PaneActions.v
DraftLeases.v
LeaseProps.v
DraftActor.v
DraftActorProps.v
PaneProps.v
SubmissionProps.v
Profiles.v
TimelineItem.v
DisplayRope.v
DisplayRopeProps.v
DisplayRows.v
DisplayDiffs.v
DisplayDiffsProps.v
DisplayRowsProps.v
BoundedWindow.v
DisplayBatch.v
BoundedWindowProps.v
DisplayBatchProps.v
LiveSignals.v
LocaleProfile.v
Rooms.v
NativeAttention.v
SpaceMembers.v
People.v
ProfileActions.v
AttentionActions.v
SpaceMemberActions.v
SpaceMemberSource.v
SpaceMembersProps.v
SpaceMemberRefreshProps.v
AttentionProps.v
PeopleProps.v
GapRepair.v
GapActor.v
GapProps.v
