(* ===== verification/Prelude.v ===== *)
(** Koushi verification library.

    Koushi is a Matrix client.  Its Rust crates keep all decisions out of the user interface:
    [koushi-state] holds one [AppState] and a pure reducer
    [reduce : &mut AppState -> AppAction -> Vec<AppEffect>]; [koushi-core] runs the actors that
    execute effects against the Matrix SDK and feed their outcomes back as actions, with a
    number of synchronous policy engines (work scheduling, live-tail refresh, gap repair,
    notification delivery, retry ledger, receipt index, the displayed window of a timeline);
    [koushi-mcp-host] keeps the grants of connected assistants.  This library models the
    reducer's session, trust, composer, draft, conversation, people, attention and space-member
    parts and those engines, one file per component, and proves what makes them correct.  Paths
    below are relative to [src/crates/].

    * The parts and where they are modelled

    Shared:
    - [Prelude.v]: record update, 64-bit arithmetic, list searches, runs of a step function;
    - [Text.v]: what is used of Rust [str], [sort_by] and [BTreeMap] iteration; trimming twice is
      trimming once.

    The session half of the reducer ([koushi-state/src]):
    - [AppState.v]: the data of [state/session.rs], [e2ee.rs], [sliding_sync.rs],
      [session_status.rs], [history_export.rs], [sync.rs], [errors.rs], the [AppState] record
      and [clear_session_views] of [reducer/mod.rs];
    - [Session.v], [E2ee.v] (with [reducer/account.rs]), [SlidingSync.v], [SessionStatus.v]
      (with [reducer/sync.rs]), [HistoryExport.v]: every handler of the reducer file of that
      name; [Reducer.v]: the arms of [reduce_action] that reach them, and runs;
    - [SessionProps.v], [StatusProps.v], [E2eeProps.v], [ExportProps.v]: a session becomes
      ready only after its device was proved, a gated session never syncs, admissions strictly
      increase, a running status check is single and its timer alive, verification and export
      refine their state machines, and where the secure-backup gate of a sign-in is inherited
      by a recovery.

    The conversation half of the reducer ([koushi-state/src]):
    - [Markdown.v]: [composer_shortcuts.rs]; [ComposerDocument.v]: [composer_document.rs],
      [composer_revision.rs], [submission.rs];
    - [DraftStore.v], [DraftPersistence.v]: [ComposerDraftStore] of [state/timeline.rs];
    - [Staging.v]: upload staging, scheduled sends and media gallery of [state/timeline.rs],
      with the dispatch of due messages of [koushi-core/src/runtime/scheduled_send.rs] and, in
      [Module MediaStaging], the service that stages, prepares, selects, retries and removes
      uploads ([koushi-core/src/media_staging.rs] and the items of [media_preparation.rs]; its
      registry of bytes is not modelled);
    - [Panes.v]: the fields of [AppState] these reducers use, the submission registry, and the
      functions of [reducer/mod.rs] that select, clear and retire the active room;
    - [Conversation.v] (composers, submissions), [TimelinePane.v], [ThreadPane.v]: the handlers
      of [reducer/timeline.rs], [thread.rs], [submission.rs] and of the main pane in
      [reducer/navigation.rs]; [PaneActions.v]: their arms of [reduce_action] and the steps of
      a run.
    - [MarkdownProps.v]: formatting ends and its markup is well nested over fixed elements;
      [ComposerProps.v]: the wire form of revisions, truncation, mention markers;
      [DraftProps.v], [DraftEviction.v], [DraftPersistProps.v]: the store refines one abstract
      slot per composer, its runs stay well formed, tombstones are bounded, an accepted send
      stays ahead of delayed writes, and drafts survive a restart; [StagingProps.v]: what is
      sendable is what is shown and what was selected last, and the outbox drains in order
      whichever messages are taken; [PaneProps.v], [SubmissionProps.v]: the invariant of the
      panes, the release of the composers that wait while the session is ready to hear of
      them, how an outcome is lost during an authentication lock, and a submission is sent
      once.

    People, rooms and attention ([koushi-state/src]):
    - [Profiles.v]: [state/profile.rs] and the thumbnails of [reducer/avatar.rs];
      [LiveSignals.v]: receipts, typing and presence of [state/live_signals.rs];
      [LocaleProfile.v]: [locale_profile.rs]; [Rooms.v]: summaries, attention and list order of
      [state/room.rs], [state/navigation.rs] and [state/room_activity.rs];
      [NativeAttention.v]: the badge, the alert and the delivery candidates of
      [state/native_attention.rs]; [SpaceMembers.v]: the member lists of
      [state/space_members.rs];
    - [People.v]: the fields of [AppState] of this group and the refreshes its handlers share;
      [ProfileActions.v], [AttentionActions.v], [SpaceMemberActions.v]: the handlers of
      [reducer/profile.rs], [live_signals.rs], [native_attention.rs], [space_members.rs] and of
      the notification modes in [settings.rs];
    - [SpaceMemberSource.v]: where the member lists come from and when they are read again,
      [koushi-sdk/src/room_projection.rs] and [koushi-core/src/room/space_members.rs].
    - [PeopleProps.v]: compact receipts are the newest of at most three other users, a local
      alias is shown everywhere it should be, and a failed request to ignore a user is taken
      back; [AttentionProps.v]: alerts are raised only where they are wanted and keep one
      identity per room over any run within one session, the badge counts each room once, the delivery channel counts the
      badge's rooms, and stale notification modes are ignored; [SpaceMembersProps.v]: a user is
      in one member list, projections built from the SDK's facts are well formed, and offered
      roles are below one's own; [SpaceMemberRefreshProps.v]: the answer of a lookup is used at
      most once, and how an explicit reload strands a running refresh.

    Drafts between the reducer and the disk ([koushi-core/src], [koushi-state/src]):
    - [DraftPayload.v]: the saved file of [store/composer_drafts.rs], its three schemas and its
      encrypted envelope; [DraftLeases.v]: the leases and permits of
      [composer_draft_lifecycle.rs];
      [DraftActor.v]: the actor's side of drafts ([runtime/composer.rs],
      [runtime/reducer_support.rs], [runtime.rs]) and the local-encryption reducer that makes
      it load them.
    - [DraftPayloadProps.v], [LeaseProps.v], [DraftActorProps.v]: older files are imported,
      lease answers count exactly the guards alive, every permit belongs to work that is still
      to be done, drafts that could not be read are never overwritten, and an edited draft is
      there again after a restart.

    The displayed window of a timeline ([koushi-core/src/timeline/display_projection.rs] and
    [display_projection/bounded_window.rs]):
    - [TimelineItem.v]: items, rows and updates of [koushi-protocol/src/event/timeline.rs];
    - [DisplayRope.v]: the treap over the canonical run that follows positional updates;
      [DisplayRows.v]: the projection state and [project_display_items]; [DisplayDiffs.v]: the
      updates sent to the desktop, their check, and how the desktop's store applies them
      ([apps/desktop/src/domain/timelineStore.ts] of the repository, which keeps one row per
      message id; its index of timestamps is left out); [BoundedWindow.v]: every operation that
      chooses the slots; [DisplayBatch.v]: [project_sdk_batch], which joins them.
    - [DisplayRopeProps.v]: the treap refines the sequence of memberships, the live edge is
      bounded; [DisplayRowsProps.v]: every message has one row; [DisplayDiffsProps.v]: the
      published updates take the desktop's store from one display to the next, and the message
      it loses when one becomes the root of a thread; [BoundedWindowProps.v], [DisplayBatchProps.v]:
      slots stay aligned with the canonical list and bounded under every operation and run,
      batches always give a result, and what is read is not trimmed.

    The engines:
    - [LiveTail.v]: [koushi-core/src/live_tail_freshness.rs] and [causal_projection.rs], with
      the refinement to an abstract single-flight scheduler;
    - [GapRepair.v]: the policies of [koushi-core/src/timeline/gap_repair.rs] and
      [live_catchup.rs]: correlated projections, budgets, committed responses and the choice of
      a gap; [GapActor.v]: the handlers that use them, with the gap part of [actor.rs],
      [relay.rs] and [navigation.rs] of that directory, and the actor's steps; [GapProps.v]: one
      piece of gap work at a time, a queued inspection waits only for what it depends on unless
      a delivery is refused, a page is cancelled or the expected generation is replaced, and a
      committed gap is held until it is handled, with the newest response behind it;
    - [AccountWork.v]: [koushi-core/src/account_work.rs]; the mutual exclusion of shared work,
      wake-ups, priorities, preemption;
    - [Ledger.v]: [koushi-core/src/account/direct_action_ledger.rs], [direct_operations.rs];
      a retried message action never acts twice while it is unsettled, replays are genuine;
    - [Grants.v]: [koushi-mcp-host/src/grants.rs] and the write of [consent.rs] that replaces the
      file; loading fails closed, a file that was not understood is never written over, and
      round trips;
    - [DeliverySettings.v], [Delivery.v], [DeliveryChannel.v]: notification delivery
      ([koushi-state/src/state/notification_delivery/], [notification_text.rs],
      [koushi-core/src/notification_delivery/], [runtime/notification_delivery.rs]), with
      [DeliverySettingsProps.v], [DwellProps.v], [DigestProps.v], [DeliveryProps.v],
      [DeliveryRuns.v]: credentials and consents cannot be forged by the renderer, the dwell
      timer is one automaton per room, message text needs consent and cannot forge a line, one
      payload per idempotency key, bounded attempts, held rooms are released;
    - [ReceiptIndex.v], [ReceiptProps.v]: [koushi-core/src/timeline/receipt_index.rs]; an
      incremental update equals a rebuild, and windows are slices.

    * How the parts interact

    A handler is a function from the state to the new state and its effects, in the order the
    code pushes them.  [Reducer.reduce_action] and [PaneActions.reduce_pane_action] dispatch
    actions as [reduce_action] does.  [AppState.AppState] and [Panes.Panes] are two views of
    the same Rust record: the session reducers touch the conversation fields only through
    [clear_session_views], which in [AppState.v] resets opaque [views] and in [Panes.v] is
    [retire_panes]; the conversation reducers read of the session only whether it is ready.
    [PaneActions.pane_step] joins them: its steps are a conversation action followed by the
    marker pass of [reduce], and the functions by which the room, navigation and session
    reducers select a room, clear it, lock or gate the session, and sign in, with the two that
    leave [Ready] without retiring its views: the lock after an authentication failure of the
    sync and the block after a revalidation without sliding sync.  [Panes.v] uses
    [DraftStore.v] and [Staging.v] for the stores a pane is refreshed from.  [DraftActor.v] runs
    the draft store of [DraftStore.v], its persisted form and the leases together: an action of
    the reducer schedules a write, a lease's permits protect its targets until the write or the
    acceptance is done, and loading merges the file with what was typed meanwhile.
    [DisplayBatch.v] runs the rope, the window and the update builder on one SDK batch; its
    lease comes from the actor's generation gate.  [People.People] is a third view of [AppState]:
    a handler of the group that changes a profile ends with [refresh_after_profile_change], which
    refreshes room labels, the published alert, typing lines, receipts and member lists in the
    order of the code; the room actor of [SpaceMemberSource.v] emits the actions that
    [SpaceMemberActions.v] reduces.  [GapActor.v] puts out the continuity actions that
    [TimelinePane.v] reduces, takes its budgets from the policies of [AccountWork.v] and its
    serials from [LiveTail.v]; the SDK's inspections and repairs, the timer of a repair's last
    batch and the batches of the relay come back to it as messages.  [LiveTail.v],
    [AccountWork.v], [Ledger.v], [DeliveryChannel.v] and [ReceiptIndex.v] stand alone; each has
    a type of operations whose runs are the interleavings the actor that owns it can produce.

    * Conventions

    A Rust enum [E::V] is an inductive [E] with a constructor ending in [V]; a struct is a
    record, an assignment a record update.  A [u64] or [u128] is a [Z]; wrapping, saturating
    and checked operations are written out where the code can reach the bound
    ([u64_wrapping_add], [u64_saturating_add], [checked_successor]); a [usize] that counts or
    indexes what is in memory is a [nat].  A [String] is the
    sequence of its UTF-8 bytes; [Markdown.v] works on the list of characters of one.  A
    [BTreeMap] is a [gmap], iterated by sorting its keys in byte order; a [HashMap] is a
    [gmap] too.  An [Instant] is a number ([Delivery.v]: nanoseconds, elsewhere
    milliseconds) passed to the operation that reads the clock.  A mutex's critical section
    is one step.  Debug formatting and serialisation attributes are not modelled unless a
    definition says so.

    * Fuel

    Loops that are not structural carry fuel and give [None] when it runs out: the Markdown
    scanner and line loops (fuel: the length of the body; [formatting_terminates]; the same [None]
    stands for a panic on an index, a slice or a subtraction of line numbers), the search
    for a mention marker (the longest inline; [mention_marker_is_fresh]), and the eviction of
    draft tombstones (the length of the queue; [tombstones_are_bounded]), the treap's
    construction and its in-order walk (the number of nodes; [from_cells_spec],
    [materialize_slots_spec]) and the check of display updates (the number of updates).  [StagingProps.drain]
    repeats the run loop of the timer once more than there are due messages, which
    [outbox_drains_in_order] shows is enough.

    * Parameters

    Code that is not in the repository is a parameter: parsing and printing of JSON text
    ([Grants.v]), grapheme segmentation and the last representable instant ([Delivery.v]), the
    SDK's receipt snapshots and the persistent vector's binary search, with the laws used of
    them ([ReceiptIndex.v]), [char::is_alphanumeric] ([Markdown.v]), the availability of a
    semaphore permit ([Ledger.v]), the cipher, the key derivation, the JSON text of drafts and the
    outcome of file accesses ([DraftPayload.v], [DraftActor.v]), holders of a permit outside the
    actor ([elsewhere]), the iteration order of a [HashSet] of indices ([hash_order]), the
    actor's generation lease and the edit an overlay makes of pending items
    ([BoundedWindow.v], [DisplayBatch.v]), [str::to_lowercase] ([to_lowercase] in [Rooms.v] and
    its users), grapheme clusters ([graphemes] in [NativeAttention.v]), the order of power levels
    ([power_le] in [SpaceMemberSource.v]), the SDK's description of a gap with its revision and
    the events beside it ([Descriptor], [revision_of], [older_of] and [newer_of] in [GapActor.v]),
    what the image codecs answer ([Codecs] and [PreparedImageVariant] in [Staging.v]), and the
    payloads of requests and responses.

    * Not modelled

    How the room list, spaces and invites are updated from sync and the choice of a replacement
    room; activity, search, contact, mention and directory reducers and the settings other than
    the notification modes; thread root projections, the observation of unread thread roots and
    the reconciliation of the open scheduled-sends panel; the verification-busy mirror of
    [reduce].  The actors of [koushi-core] apart from the parts
    named above (of the timeline actor: sending, media, read receipts, item projection and the
    diagnostics of gap repair), the SDK adapter, the credential store, the key vault, the search
    index, the export writers, the MCP transport, the notification clients, media decoding, the Tauri shell and the TypeScript frontend (but for the store the display
    updates are applied to) are asynchronous glue or calls into third-party libraries; of them only the pure policies named
    above are modelled. *)

From stdpp Require Import base list gmap strings sets fin_maps sorting.
From Stdlib Require Import ZArith Lia.

(** * Notations *)

Declare Scope koushi_scope.
Delimit Scope koushi_scope with koushi.
Local Open Scope Z_scope.
Local Set Warnings "-clear-no-such-hyp".

(** * Functional record update

    [s <| field := v |>] is the Rust assignment [s.field = v] and
    [s <| field ::= f |>] is [s.field = f(s.field)].  A record type opts in with
    an [Updatable] instance that rebuilds the record from its own projections;
    the [Field] instance of a projection is computed from it by abstracting the
    projection out of that rebuilding function. *)

Class Updatable (R : Type) := rebuild : R -> R.
Class Field {R E : Type} (proj : R -> E) := update : (E -> E) -> R -> R.
Arguments update {R E} proj {Field} _ _.

Ltac derive_field R proj :=
  let inst := constr:(_ : Updatable R) in
  let body := eval hnf in inst in
  match eval pattern proj in body with
  | ?k _ =>
      let u := eval cbv beta in (fun g => k (fun r => g (proj r))) in
      exact u
  end.

#[export] Hint Extern 1 (@Field ?R _ ?proj) => derive_field R proj : typeclass_instances.

Notation "s <| f ::= g |>" := (update f g s)
  (at level 1, f at level 0, left associativity) : koushi_scope.
Notation "s <| f := v |>" := (update f (fun _ => v) s)
  (at level 1, f at level 0, left associativity) : koushi_scope.
#[global] Open Scope koushi_scope.

(** * Machine integers

    A [u64] is a [Z] kept in range by the operations below, each named after the
    Rust method it models. *)

Definition U64_MAX : Z := 2 ^ 64 - 1.
Definition U32_MAX : Z := 2 ^ 32 - 1.
Definition u64 (x : Z) : Prop := 0 <= x <= U64_MAX.
Definition u32 (x : Z) : Prop := 0 <= x <= U32_MAX.

Definition u64_wrapping_add (x y : Z) : Z := (x + y) mod 2 ^ 64.
Definition u64_saturating_add (x y : Z) : Z := Z.min (x + y) U64_MAX.
Definition u64_saturating_mul (x y : Z) : Z := Z.min (x * y) U64_MAX.
Definition u64_checked_add (x y : Z) : option Z :=
  if decide (x + y <= U64_MAX) then Some (x + y) else None.
Definition u32_saturating_add (x y : Z) : Z := Z.min (x + y) U32_MAX.
Definition u32_saturating_sub (x y : Z) : Z := Z.max (x - y) 0.

Lemma u64_wrapping_add_range x y : u64 (u64_wrapping_add x y).
Proof.
  unfold u64, u64_wrapping_add, U64_MAX.
  pose proof (Z.mod_pos_bound (x + y) (2 ^ 64) ltac:(lia)); lia.
Qed.

Lemma u64_wrapping_add_small x y : 0 <= x + y <= U64_MAX -> u64_wrapping_add x y = x + y.
Proof. unfold u64_wrapping_add, U64_MAX; intros; apply Z.mod_small; lia. Qed.

Lemma u64_wrapping_succ_ne x : u64 x -> u64_wrapping_add x 1 ≠ x.
Proof.
  unfold u64, U64_MAX, u64_wrapping_add; intros Hx.
  destruct (decide (x = 2 ^ 64 - 1)) as [->|].
  - replace ((2 ^ 64 - 1 + 1)) with (2 ^ 64) by lia. rewrite Z.mod_same by lia. lia.
  - rewrite Z.mod_small; lia.
Qed.

Lemma u64_saturating_add_range x y : u64 x -> u64 y -> u64 (u64_saturating_add x y).
Proof. unfold u64, u64_saturating_add; lia. Qed.

(** * Strings

    A Rust [String] is its UTF-8 byte sequence.  [trim_is_empty] is
    [s.trim().is_empty()]: every character has the Unicode property
    [White_Space], whose UTF-8 encodings are listed. *)

Fixpoint blank_bytes (l : list Z) : bool :=
  match l with
  | [] => true
  | 194 :: 133 :: l | 194 :: 160 :: l => blank_bytes l
  | 225 :: 154 :: 128 :: l => blank_bytes l
  | 226 :: 128 :: b :: l =>
      (((128 <=? b) && (b <=? 138)) || (b =? 168) || (b =? 169) || (b =? 175))
      && blank_bytes l
  | 226 :: 129 :: 159 :: l => blank_bytes l
  | 227 :: 128 :: 128 :: l => blank_bytes l
  | b :: l => (((9 <=? b) && (b <=? 13)) || (b =? 32)) && blank_bytes l
  end.

Definition string_bytes (s : string) : list Z :=
  (fun a => Z.of_N (Ascii.N_of_ascii a)) <$> String.list_ascii_of_string s.

Definition trim_is_empty (s : string) : bool := blank_bytes (string_bytes s).

(** * Iterator helpers

    [position p l] is [l.iter().position(p)]; [update_first p f l] is the effect
    of [if let Some(x) = l.iter_mut().find(p) { *x = f(x) }]. *)

Fixpoint position {A} (p : A -> bool) (l : list A) : option nat :=
  match l with
  | [] => None
  | x :: l => if p x then Some 0%nat else S <$> position p l
  end.

Fixpoint update_first {A} (p : A -> bool) (f : A -> A) (l : list A) : list A :=
  match l with
  | [] => []
  | x :: l => if p x then f x :: l else x :: update_first p f l
  end.

(** [find_first p l] is [l.iter().find(p)]. *)
Fixpoint find_first {A} (p : A -> bool) (l : list A) : option A :=
  match l with
  | [] => None
  | x :: l => if p x then Some x else find_first p l
  end.

(** [is_some_and o p] is [o.is_some_and(p)]; [is_none_or o p] is [o.is_none_or(p)]. *)
Definition is_some_and {A} (o : option A) (p : A -> bool) : bool :=
  match o with Some x => p x | None => false end.
Definition is_none_or {A} (o : option A) (p : A -> bool) : bool :=
  match o with Some x => p x | None => true end.
(** [then_some b x] is [b.then_some(x)]. *)
Definition then_some {A} (b : bool) (x : A) : option A := if b then Some x else None.
(** [or_else o p] is [o.or(p)]; [or_else] with a pure fallback is [o.or_else(|| p)]. *)
Definition or_else {A} (o p : option A) : option A :=
  match o with Some _ => o | None => p end.
(** [find_map f l] is [l.iter().find_map(f)]. *)
Fixpoint find_map {A B} (f : A -> option B) (l : list A) : option B :=
  match l with [] => None | x :: l => match f x with Some y => Some y | None => find_map f l end end.
(** [then_with c d] is [c.then_with(|| d)] on orderings. *)
Definition then_with (c d : comparison) : comparison := match c with Eq => d | c => c end.
(** [o.into_iter().collect()] of an option. *)
Definition opt_list {A} (o : option A) : list A :=
  match o with Some x => [x] | None => [] end.

Section lists.
Context {A : Type}.
Implicit Types (p : A -> bool) (l : list A).

Lemma find_first_Some p l x :
  find_first p l = Some x ->
  exists l1 l2, l = l1 ++ x :: l2 /\ p x = true /\ Forall (fun y => p y = false) l1.
Proof.
  induction l as [|y l IH]; simpl; [done|].
  destruct (p y) eqn:Hy.
  - intros [= ->]. exists [], l. auto.
  - intros (l1 & l2 & -> & ? & ?)%IH. exists (y :: l1), l2. auto.
Qed.

Lemma find_first_elem p l x : find_first p l = Some x -> x ∈ l /\ p x = true.
Proof. intros (l1 & l2 & -> & ? & _)%find_first_Some. split; [set_solver|done]. Qed.

Lemma find_first_None p l : find_first p l = None <-> Forall (fun y => p y = false) l.
Proof.
  induction l as [|y l IH]; simpl; [by split|].
  rewrite Forall_cons, <-IH. destruct (p y); naive_solver.
Qed.

Lemma position_Some p l i :
  position p l = Some i ->
  exists x, l !! i = Some x /\ p x = true
    /\ forall j y, (j < i)%nat -> l !! j = Some y -> p y = false.
Proof.
  revert i; induction l as [|y l IH]; simpl; intros i Hi; [done|].
  destruct (p y) eqn:Hy; simplify_eq/=.
  - exists y; split_and!; [done|done|lia].
  - destruct (position p l) as [k|] eqn:Hk; simplify_eq/=.
    destruct (IH k eq_refl) as (x & ? & ? & Hb). exists x; split_and!; [done|done|].
    intros [|j] z ??; simplify_eq/=; [done|]. by apply (Hb j); [lia|].
Qed.

Lemma position_None p l : position p l = None <-> Forall (fun y => p y = false) l.
Proof.
  induction l as [|y l IH]; simpl; [by split|].
  rewrite Forall_cons, <-IH. destruct (p y); [naive_solver|].
  rewrite fmap_None. naive_solver.
Qed.

Lemma update_first_length p f l : length (update_first p f l) = length l.
Proof. induction l as [|y l IH]; simpl; [done|]. destruct (p y); simpl; auto. Qed.

Lemma update_first_lookup p f l i x :
  l !! i = Some x ->
  update_first p f l !! i = Some (if bool_decide (position p l = Some i) then f x else x).
Proof.
  revert i; induction l as [|y l IH]; intros i Hi; [done|].
  cbn [update_first position]. destruct (p y) eqn:Hy; destruct i as [|i]; simplify_eq/=.
  - done.
  - done.
  - rewrite bool_decide_eq_false_2; [done|]. by destruct (position p l).
  - rewrite (IH i Hi). f_equal.
    destruct (position p l) as [k|]; simpl; repeat case_bool_decide; naive_solver.
Qed.

Lemma update_first_map {B} (g : A -> B) p f l :
  (forall x, g (f x) = g x) -> g <$> update_first p f l = g <$> l.
Proof.
  intros Hg. induction l as [|y l IH]; simpl; [done|].
  destruct (p y); csimpl; [by rewrite Hg|by rewrite IH].
Qed.

Lemma Forall_update_first (P : A -> Prop) p f l :
  (forall x, P x -> p x = true -> P (f x)) -> Forall P l -> Forall P (update_first p f l).
Proof.
  intros Hf. induction 1 as [|y l Hy Hl IH]; simpl; [done|].
  destruct (p y) eqn:E; constructor; auto.
Qed.

(** [update_first] relates the list to its update wherever the found element is related. *)
Lemma Forall2_update_first (R : A -> A -> Prop) `{!Reflexive R} p f l x :
  find_first p l = Some x -> R x (f x) -> Forall2 R l (update_first p f l).
Proof.
  intros Hx HR. induction l as [|y l IH]; simpl in *; [constructor|].
  destruct (p y); simplify_eq; constructor; auto; reflexivity.
Qed.

(** Remove the found element from a list whose keys are distinct. *)
Lemma find_first_remove (f : A -> Z) k l x :
  NoDup (f <$> l) -> find_first (fun y => f y =? k) l = Some x ->
  f x = k /\ f <$> l ≡ₚ k :: (f <$> List.filter (fun y => negb (f y =? k)) l).
Proof.
  induction l as [|y l IH]; [done|]. rewrite fmap_cons. cbn [find_first List.filter].
  intros [Hy Hl]%NoDup_cons Hx. destruct (f y =? k) eqn:E; cbn [negb].
  - apply Z.eqb_eq in E. injection Hx as ->. split; [done|]. rewrite E. constructor.
    replace (List.filter (fun y => negb (f y =? k)) l) with l; [done|].
    clear IH Hl. induction l as [|z l IHl]; [done|]. cbn.
    rewrite fmap_cons, not_elem_of_cons in Hy. destruct Hy as [Hz Hy].
    rewrite (proj2 (Z.eqb_neq (f z) k)) by congruence. cbn. f_equal. auto.
  - destruct (IH Hl Hx) as [Hk HP]. split; [done|]. rewrite fmap_cons, HP. constructor.
Qed.

(** A finite list has a minimal element for a strict order. *)
Lemma exists_minimal (lt : A -> A -> bool) l x0 :
  (forall x, lt x x = false) ->
  (forall x y z, lt x y = true -> lt y z = true -> lt x z = true) ->
  x0 ∈ l -> exists x, x ∈ l /\ forall y, y ∈ l -> lt y x = false.
Proof.
  intros Hirr Htrans. revert x0; induction l as [|x l IH]; intros x0 Hx0.
  { by apply elem_of_nil in Hx0. }
  destruct l as [|z l].
  { exists x. split; [constructor|]. by intros y ->%list_elem_of_singleton. }
  destruct (IH z) as (m & Hm & Hmin); [constructor|].
  destruct (lt x m) eqn:E.
  - exists x. split; [constructor|]. intros y [->|Hy]%elem_of_cons; [done|].
    destruct (lt y x) eqn:E'; [|done]. rewrite <-(Hmin y Hy). symmetry. by eapply Htrans.
  - exists m. split; [by constructor|]. intros y [->|Hy]%elem_of_cons; auto.
Qed.

End lists.

(** * Machines: runs of a step function that emits effects *)

Section machine.
Context {S A E : Type} (step : S -> A -> S * list E).

Fixpoint run (s : S) (acts : list A) : S * list E :=
  match acts with
  | [] => (s, [])
  | a :: acts =>
      let '(s1, e1) := step s a in
      let '(s2, e2) := run s1 acts in (s2, e1 ++ e2)
  end.

Lemma run_cons s a acts : (run s (a :: acts)).1 = (run (step s a).1 acts).1.
Proof. simpl. destruct (step s a) as [s1 e1], (run s1 acts) eqn:E'; simpl. by rewrite E'. Qed.

Lemma run_app s l1 l2 : (run s (l1 ++ l2)).1 = (run (run s l1).1 l2).1.
Proof.
  revert s; induction l1 as [|a l1 IH]; intros s; [done|].
  change ((a :: l1) ++ l2) with (a :: (l1 ++ l2)). by rewrite !run_cons, IH.
Qed.

Lemma run_effects_cons s a acts :
  (run s (a :: acts)).2 = (step s a).2 ++ (run (step s a).1 acts).2.
Proof. simpl. destruct (step s a) as [s1 e1], (run s1 acts) eqn:E'; simpl. by rewrite E'. Qed.

Lemma run_invariant (I : S -> Prop) s acts :
  (forall s a, I s -> I (step s a).1) -> I s -> I (run s acts).1.
Proof.
  intros Hstep. revert s; induction acts as [|a acts IH]; intros s Hs; [done|].
  rewrite run_cons. auto.
Qed.

Lemma run_invariant_in (I : S -> Prop) (P : A -> Prop) s acts :
  (forall s a, P a -> I s -> I (step s a).1) -> Forall P acts -> I s -> I (run s acts).1.
Proof.
  intros Hstep Hacts. revert s; induction Hacts as [|a acts Ha Hacts IH]; intros s Hs; [done|].
  rewrite run_cons. auto.
Qed.

(** A property of steps that is a preorder lifts to runs. *)
Lemma run_preorder (R : S -> S -> Prop) `{!Reflexive R, !Transitive R} s acts :
  (forall s a, R s (step s a).1) -> R s (run s acts).1.
Proof.
  intros Hstep. revert s; induction acts as [|a acts IH]; intros s; [by simpl|].
  rewrite run_cons. etrans; [apply Hstep|apply IH].
Qed.

End machine.

(** * Tactics and hint databases *)

Create HintDb koushi.

(** Case on the guards of a handler and simplify what each branch gives. *)
Ltac step_cases :=
  repeat (case_match || case_decide); simplify_eq/=.

(** Close the routine branches of a handler lemma. *)
Ltac step_solve := step_cases; try done; try lia; try naive_solver.

(** Turn the boolean guards in the context into propositions. *)
Ltac split_guards :=
  repeat match goal with
  | H : (_ || _)%bool = false |- _ => apply orb_false_iff in H as [? ?]
  | H : (_ && _)%bool = true |- _ => apply andb_true_iff in H as [? ?]
  | H : negb _ = false |- _ => apply negb_false_iff in H
  | H : negb _ = true |- _ => apply negb_true_iff in H
  | H : (_ =? _) = true |- _ => apply Z.eqb_eq in H
  | H : (_ =? _) = false |- _ => apply Z.eqb_neq in H
  | H : (_ <=? _) = true |- _ => apply Z.leb_le in H
  | H : (_ <=? _) = false |- _ => apply Z.leb_gt in H
  | H : (_ <? _) = true |- _ => apply Z.ltb_lt in H
  | H : (_ <? _) = false |- _ => apply Z.ltb_ge in H
  | H : bool_decide _ = true |- _ => apply bool_decide_eq_true in H
  | H : bool_decide _ = false |- _ => apply bool_decide_eq_false in H
  end.

(** Decompose the membership of an effect in a literal list. *)
Ltac elem_cases :=
  repeat match goal with
  | H : _ ∈ [] |- _ => by apply elem_of_nil in H
  | H : _ ∈ _ :: _ |- _ => apply elem_of_cons in H as [H|H]; [try discriminate H|]
  end.
