(* ===== verification/Text.v ===== *)
(** Text and ordered containers: what the notification components use of the Rust
    standard library ([str], [slice::sort_by], [BTreeMap] iteration).

    A [String] is the sequence of its UTF-8 bytes.  [chars] groups the bytes into
    characters, and the character classes list the UTF-8 encodings of the Unicode
    properties [White_Space] and [Cc], so [trim] and [is_control] are exact on
    well-formed text. *)

From stdpp Require Import base list strings gmap pretty sorting.
From Stdlib Require Import ZArith Lia Ascii.
From S2P Require Import Prelude.
Local Open Scope string_scope.
Local Open Scope list_scope.
Local Set Warnings "-clear-no-such-hyp".

(** * Characters *)

Definition byte_of (a : ascii) : N := N_of_ascii a.

(** A UTF-8 continuation byte, [10xxxxxx]. *)
Definition is_continuation (a : ascii) : bool :=
  (128 <=? byte_of a)%N && (byte_of a <? 192)%N.

Definition cons_nonempty (k : string) (cs : list string) : list string :=
  match k with EmptyString => cs | _ => k :: cs end.

(** The continuation bytes at the front, and the characters after them.  An ASCII byte is
    a character of its own. *)
Fixpoint split_chars (s : string) : string * list string :=
  match s with
  | EmptyString => (EmptyString, [])
  | String a s =>
      let '(k, cs) := split_chars s in
      if is_continuation a then (String a k, cs)
      else if (byte_of a <? 128)%N then (EmptyString, String a EmptyString :: cons_nonempty k cs)
      else (EmptyString, String a k :: cs)
  end.

(** [s.chars()], each character as its bytes. *)
Definition chars (s : string) : list string :=
  let '(k, cs) := split_chars s in cons_nonempty k cs.

Definition concat_str (l : list string) : string := foldr String.append "" l.

(** [char::is_whitespace] *)
Definition is_whitespace (c : string) : bool :=
  match string_bytes c with
  | [b] => (((9 <=? b) && (b <=? 13)) || (b =? 32))%Z
  | [194; b] => ((b =? 133) || (b =? 160))%Z
  | [225; 154; 128] => true
  | [226; 128; b] =>
      (((128 <=? b) && (b <=? 138)) || (b =? 168) || (b =? 169) || (b =? 175))%Z
  | [226; 129; 159] | [227; 128; 128] => true
  | _ => false
  end%Z.

(** [char::is_control] *)
Definition is_control (c : string) : bool :=
  match string_bytes c with
  | [b] => ((b <=? 31) || (b =? 127))%Z
  | [194; b] => ((128 <=? b) && (b <=? 159))%Z
  | _ => false
  end%Z.

(** U+2028 and U+2029 *)
Definition is_line_separator (c : string) : bool :=
  match string_bytes c with
  | [226; 128; b] => ((b =? 168) || (b =? 169))%Z
  | _ => false
  end%Z.

Fixpoint drop_while {A} (p : A -> bool) (l : list A) : list A :=
  match l with
  | [] => []
  | x :: l' => if p x then drop_while p l' else l
  end.

Definition trim_end_matches {A} (p : A -> bool) (l : list A) : list A :=
  reverse (drop_while p (reverse l)).

(** [s.trim()] and [s.trim_end()] *)
Definition trim_end (s : string) : string :=
  concat_str (trim_end_matches is_whitespace (chars s)).
Definition trim (s : string) : string :=
  concat_str (trim_end_matches is_whitespace (drop_while is_whitespace (chars s))).

Definition is_empty (s : string) : bool := match s with EmptyString => true | _ => false end.

(** * ASCII *)

Definition in_range (a : ascii) (lo hi : N) : bool := (lo <=? byte_of a)%N && (byte_of a <=? hi)%N.

Definition is_ascii_lowercase (a : ascii) : bool := in_range a 97 122.
Definition is_ascii_digit (a : ascii) : bool := in_range a 48 57.
Definition is_ascii_hexdigit (a : ascii) : bool :=
  is_ascii_digit a || in_range a 97 102 || in_range a 65 70.
Definition is_ascii_punctuation (a : ascii) : bool :=
  in_range a 33 47 || in_range a 58 64 || in_range a 91 96 || in_range a 123 126.

Definition lower_char (a : ascii) : ascii :=
  if in_range a 65 90 then ascii_of_N (byte_of a + 32) else a.

Fixpoint map_str (f : ascii -> ascii) (s : string) : string :=
  match s with EmptyString => EmptyString | String a s => String (f a) (map_str f s) end.

Fixpoint all_str (p : ascii -> bool) (s : string) : bool :=
  match s with EmptyString => true | String a s => p a && all_str p s end.

(** [s.to_ascii_lowercase()] *)
Definition to_ascii_lowercase (s : string) : string := map_str lower_char s.

(** [s.strip_prefix(p)] *)
Fixpoint strip_prefix (p s : string) : option string :=
  match p, s with
  | EmptyString, _ => Some s
  | String a p, String b s => if Ascii.eqb a b then strip_prefix p s else None
  | String _ _, EmptyString => None
  end.

(** [l.join(sep)] *)
Fixpoint join (sep : string) (l : list string) : string :=
  match l with
  | [] => ""
  | [x] => x
  | x :: l => x +:+ sep +:+ join sep l
  end.

Definition newline : ascii := ascii_of_nat 10.
Definition nl : string := String newline "".

(** The pieces of a text between its newlines; there is always one. *)
Fixpoint split_lines (s : string) : string * list string :=
  match s with
  | EmptyString => (EmptyString, [])
  | String a s =>
      let '(x, xs) := split_lines s in
      if Ascii.eqb a newline then (EmptyString, x :: xs) else (String a x, xs)
  end.

(** [s.lines()] of a text without carriage returns: an empty last piece is not a line. *)
Definition lines (s : string) : list string :=
  let '(x, xs) := split_lines s in
  let all := x :: xs in
  match last all with
  | Some EmptyString => take (length all - 1) all
  | _ => all
  end.

(** Decimal rendering of an unsigned integer. *)
Definition display (n : Z) : string := pretty (Z.to_N n).

(** * Stable sorting and ordered containers *)

Section sort_by.
Context {A : Type} (le : A -> A -> bool).

Fixpoint insert_by (x : A) (l : list A) : list A :=
  match l with
  | [] => [x]
  | y :: l' => if le x y then x :: l else y :: insert_by x l'
  end.

(** [v.sort_by(cmp)], where [le x y] is [cmp(x, y) != Greater]: the stable sort. *)
Definition sort_by (l : list A) : list A := foldr insert_by [] l.

Lemma insert_by_Permutation x l : insert_by x l ≡ₚ x :: l.
Proof.
  induction l as [|y l IH]; simpl; [done|].
  destruct (le x y); [done|]. rewrite IH. constructor.
Qed.

Lemma sort_by_Permutation l : sort_by l ≡ₚ l.
Proof.
  induction l as [|x l IH]; simpl; [done|].
  by rewrite insert_by_Permutation, IH.
Qed.

Lemma elem_of_sort_by x l : x ∈ sort_by l <-> x ∈ l.
Proof. by rewrite sort_by_Permutation. Qed.

Context (le_total : forall x y, le x y = true \/ le y x = true)
        (le_trans : forall x y z, le x y = true -> le y z = true -> le x z = true).

Lemma insert_by_sorted x l :
  StronglySorted (fun a b => le a b = true) l ->
  StronglySorted (fun a b => le a b = true) (insert_by x l).
Proof.
  induction 1 as [|y l Hl IH Hy]; simpl; [by repeat constructor|].
  destruct (le x y) eqn:E.
  - constructor; [by constructor|]. constructor; [done|].
    eapply Forall_impl; [exact Hy|]. intros z Hz. by eapply le_trans.
  - constructor; [done|]. rewrite insert_by_Permutation. constructor; [|done].
    destruct (le_total x y); congruence.
Qed.

Lemma sort_by_sorted l : StronglySorted (fun a b => le a b = true) (sort_by l).
Proof. induction l as [|x l IH]; simpl; [constructor|]. by apply insert_by_sorted. Qed.

End sort_by.

Lemma string_leb_total x y : String.leb x y = true \/ String.leb y x = true.
Proof. apply String.leb_total. Qed.

Lemma string_leb_trans x y z :
  String.leb x y = true -> String.leb y z = true -> String.leb x z = true.
Proof.
  intros Hx Hy.
  assert (H : String.le x z); [|unfold String.le in H; by apply Is_true_true].
  etrans; [apply (Is_true_true_2 (String.leb x y))|]; [done|].
  by apply Is_true_true_2.
Qed.

(** Iteration of a [BTreeMap<String, _>]: the entries in ascending key order. *)
Definition key_leb {A} (x y : string * A) : bool := String.leb x.1 y.1.
Definition btree_iter {A} (m : gmap string A) : list (string * A) :=
  sort_by key_leb (map_to_list m).
(** Iteration of a [BTreeSet<String>]. *)
Definition btree_set_iter (X : gset string) : list string := sort_by String.leb (elements X).
Lemma elem_of_btree_set X r : r ∈ btree_set_iter X <-> r ∈ X.
Proof. unfold btree_set_iter. by rewrite elem_of_sort_by, elem_of_elements. Qed.
Lemma NoDup_btree_set X : NoDup (btree_set_iter X).
Proof. unfold btree_set_iter. rewrite sort_by_Permutation. apply NoDup_elements. Qed.

Lemma btree_iter_elem {A} (m : gmap string A) k x : (k, x) ∈ btree_iter m <-> m !! k = Some x.
Proof. unfold btree_iter. by rewrite elem_of_sort_by, elem_of_map_to_list. Qed.

Lemma btree_iter_NoDup {A} (m : gmap string A) : NoDup (btree_iter m).*1.
Proof.
  unfold btree_iter. rewrite sort_by_Permutation. apply NoDup_fst_map_to_list.
Qed.

Lemma elem_of_btree_keys {A} (m : gmap string A) k : k ∈ (btree_iter m).*1 <-> is_Some (m !! k).
Proof.
  rewrite list_elem_of_fmap. split.
  - intros ([k' x] & -> & H%btree_iter_elem). by eexists.
  - intros [x Hx]. exists (k, x). split; [done|]. by apply btree_iter_elem.
Qed.

Lemma btree_iter_ascending {A} (m : gmap string A) :
  StronglySorted (fun x y => String.leb x y = true) (btree_iter m).*1.
Proof.
  apply StronglySorted_fmap with (R1 := fun x y => key_leb x y = true); [done|].
  apply sort_by_sorted.
  - intros x y. apply string_leb_total.
  - intros x y z. apply string_leb_trans.
Qed.

(** [v.retain(|x| seen.insert(key(x)))] with an empty [BTreeSet]: the first element of
    each key. *)
Fixpoint retain_first {A} (key : A -> string) (seen : gset string) (l : list A) : list A :=
  match l with
  | [] => []
  | x :: l =>
      if bool_decide (key x ∈ seen) then retain_first key seen l
      else x :: retain_first key ({[key x]} ∪ seen) l
  end.

(** * Lines *)

Definition physical_lines (s : string) : list string :=
  let '(x, xs) := split_lines s in x :: xs.

Definition no_newline (s : string) : bool := all_str (fun a => negb (Ascii.eqb a newline)) s.

Lemma all_str_app p s t : all_str p (s +:+ t) = all_str p s && all_str p t.
Proof.
  induction s as [|a s IH]; [done|].
  change (p a && all_str p (s +:+ t) = p a && all_str p s && all_str p t).
  rewrite IH. apply andb_assoc.
Qed.

Lemma all_str_concat p l : Forall (fun c => all_str p c = true) l -> all_str p (concat_str l) = true.
Proof.
  induction 1 as [|c l Hc Hl IH]; [done|].
  change (concat_str (c :: l)) with (c +:+ concat_str l). by rewrite all_str_app, Hc, IH.
Qed.

Lemma no_newline_app s t : no_newline (s +:+ t) = no_newline s && no_newline t.
Proof. apply all_str_app. Qed.

Lemma split_lines_app s t :
  no_newline s = true ->
  split_lines (s +:+ t) = (s +:+ (split_lines t).1, (split_lines t).2).
Proof.
  induction s as [|a s IH]; intros Hs; [exact (surjective_pairing (split_lines t))|].
  cbn in Hs. apply andb_true_iff in Hs as [Ha Hs]. apply negb_true_iff in Ha.
  change (String a s +:+ t) with (String a (s +:+ t)). cbn [split_lines].
  rewrite (IH Hs), Ha. done.
Qed.

Lemma append_nil_r s : s +:+ "" = s.
Proof. induction s as [|a s IH]; [done|]. change (String a (s +:+ "") = String a s). by rewrite IH. Qed.

Lemma append_assoc s t u : (s +:+ t) +:+ u = s +:+ t +:+ u.
Proof.
  induction s as [|a s IH]; [done|].
  change (String a ((s +:+ t) +:+ u) = String a (s +:+ t +:+ u)). by rewrite IH.
Qed.

Lemma physical_lines_single s : no_newline s = true -> physical_lines s = [s].
Proof.
  intros Hs. unfold physical_lines. rewrite <-(append_nil_r s) at 1.
  rewrite split_lines_app by done. cbn. by rewrite append_nil_r.
Qed.

(** Lines of concatenated blocks that are separated by a newline. *)
Lemma physical_lines_newline s t :
  physical_lines (s +:+ nl +:+ t) = physical_lines s ++ physical_lines t.
Proof.
  unfold physical_lines. induction s as [|a s IH].
  - change ("" +:+ nl +:+ t) with (String newline t). cbn. by destruct (split_lines t).
  - change (String a s +:+ nl +:+ t) with (String a (s +:+ nl +:+ t)). cbn [split_lines].
    destruct (split_lines (s +:+ nl +:+ t)) as [x xs], (split_lines s) as [y ys].
    cbn [app] in *. injection IH as -> ->. by destruct (Ascii.eqb a newline).
Qed.

Lemma physical_lines_join l :
  l ≠ [] -> Forall (fun s => no_newline s = true) l -> physical_lines (join nl l) = l.
Proof.
  intros Hne Hl. induction Hl as [|s l Hs Hl IH]; [done|].
  destruct l as [|t l]; [by apply physical_lines_single|].
  change (join nl (s :: t :: l)) with (s +:+ nl +:+ join nl (t :: l)).
  rewrite physical_lines_newline, physical_lines_single by done. by rewrite IH.
Qed.

Lemma split_lines_no_newline s :
  no_newline (split_lines s).1 = true /\ Forall (fun x => no_newline x = true) (split_lines s).2.
Proof.
  induction s as [|a s [IH1 IH2]]; [done|]. cbn [split_lines].
  destruct (split_lines s) as [x xs]; cbn [fst snd] in *.
  destruct (Ascii.eqb a newline) eqn:E; cbn [fst snd]; [by split; [|constructor]|].
  split; [|done]. change (negb (Ascii.eqb a newline) && no_newline x = true). by rewrite E, IH1.
Qed.

Lemma lines_no_newline s : Forall (fun x => no_newline x = true) (lines s).
Proof.
  pose proof (split_lines_no_newline s) as [H1 H2]. unfold lines.
  destruct (split_lines s) as [x xs]; cbn in H1, H2.
  assert (H : Forall (fun x => no_newline x = true) (x :: xs)) by (by constructor).
  destruct (last (x :: xs)) as [[]|]; auto using Forall_take.
Qed.

(** ** Texts built from characters *)

Lemma chars_newline s : Forall (fun c => c = nl \/ no_newline c = true) (chars s).
Proof.
  unfold chars.
  assert (H : no_newline (split_chars s).1 = true
    /\ Forall (fun c => c = nl \/ no_newline c = true) (split_chars s).2).
  { induction s as [|a s [IH1 IH2]]; [done|]. cbn [split_chars].
    destruct (split_chars s) as [k cs]; cbn [fst snd] in *.
    assert (Ha : a = newline \/ negb (Ascii.eqb a newline) = true)
      by (destruct (Ascii.eqb_spec a newline); [by left|by right]).
    destruct (is_continuation a) eqn:Ec; cbn [fst snd].
    { split; [|done]. destruct Ha as [->|Ha]; [by vm_compute in Ec|].
      change (negb (Ascii.eqb a newline) && no_newline k = true). by rewrite Ha. }
    destruct (byte_of a <? 128)%N eqn:E128; cbn [fst snd]; (split; [done|]).
    - constructor.
      + destruct Ha as [->|Ha]; [by left|right].
        change (negb (Ascii.eqb a newline) && no_newline "" = true). by rewrite Ha.
      + destruct k; [done|]. constructor; [by right|done].
    - constructor; [|done]. right. destruct Ha as [->|Ha]; [by vm_compute in E128|].
      change (negb (Ascii.eqb a newline) && no_newline k = true). by rewrite Ha. }
  destruct (split_chars s) as [k cs]; cbn in H. destruct H as [Hk Hcs].
  destruct k; [done|]. constructor; [by right|done].
Qed.

Lemma drop_while_Forall {A} (P : A -> Prop) p l : Forall P l -> Forall P (drop_while p l).
Proof. induction 1 as [|x l Hx Hl IH]; cbn; [constructor|]. destruct (p x); [done|by constructor]. Qed.

Lemma trim_end_matches_Forall {A} (P : A -> Prop) p l : Forall P l -> Forall P (trim_end_matches p l).
Proof.
  intros Hl. unfold trim_end_matches. apply Forall_reverse, drop_while_Forall. by apply Forall_reverse.
Qed.

Lemma concat_str_app l1 l2 : concat_str (l1 ++ l2) = concat_str l1 +:+ concat_str l2.
Proof.
  induction l1 as [|c l1 IH]; [done|].
  change (c +:+ concat_str (l1 ++ l2) = (c +:+ concat_str l1) +:+ concat_str l2).
  by rewrite IH, append_assoc.
Qed.

Lemma chars_concat s : concat_str (chars s) = s.
Proof.
  unfold chars.
  assert (H : (split_chars s).1 +:+ concat_str (split_chars s).2 = s).
  { induction s as [|a s IH]; [done|]. cbn [split_chars].
    destruct (split_chars s) as [k cs]; cbn [fst snd] in *.
    destruct (is_continuation a); cbn [fst snd].
    { change (String a (k +:+ concat_str cs) = String a s). by rewrite IH. }
    destruct (byte_of a <? 128)%N; cbn [fst snd].
    - destruct k; cbn [cons_nonempty].
      + change (String a (concat_str cs) = String a s). f_equal. exact IH.
      + change (String a (String a0 k +:+ concat_str cs) = String a s). by f_equal.
    - change (String a (k +:+ concat_str cs) = String a s). by rewrite IH. }
  destruct (split_chars s) as [k cs]; cbn in H. by destruct k.
Qed.

(** A text all of whose bytes satisfy [p] keeps that through [chars] and [trim]. *)
Lemma all_str_concat_inv p l : all_str p (concat_str l) = true -> Forall (fun c => all_str p c = true) l.
Proof.
  induction l as [|c l IH]; [constructor|].
  change (concat_str (c :: l)) with (c +:+ concat_str l). rewrite all_str_app.
  intros [? ?]%andb_true_iff. constructor; auto.
Qed.

Lemma all_str_chars p s : all_str p s = true -> Forall (fun c => all_str p c = true) (chars s).
Proof. intros Hs. apply all_str_concat_inv. by rewrite chars_concat. Qed.

Lemma all_str_trim_end p s : all_str p s = true -> all_str p (trim_end s) = true.
Proof. intros Hs. apply all_str_concat, trim_end_matches_Forall. by apply all_str_chars. Qed.

Lemma all_str_trim p s : all_str p s = true -> all_str p (trim s) = true.
Proof.
  intros Hs. apply all_str_concat, trim_end_matches_Forall, drop_while_Forall. by apply all_str_chars.
Qed.

(** ** Trimming twice *)

(** The lists [chars] makes: single ASCII bytes, lead bytes with their continuations, and runs of
    continuation bytes where no lead byte takes them. *)
Definition is_run (c : string) : bool := negb (is_empty c) && all_str is_continuation c.
Definition no_run (l : list string) : bool :=
  match l with c :: _ => negb (is_run c) | [] => true end.
Inductive grouped : list string -> Prop :=
  | grouped_nil : grouped []
  | grouped_ascii a l : is_continuation a = false -> (byte_of a <? 128)%N = true ->
      grouped l -> grouped (String a "" :: l)
  | grouped_lead a k l : is_continuation a = false -> (byte_of a <? 128)%N = false ->
      all_str is_continuation k = true -> no_run l = true ->
      grouped l -> grouped (String a k :: l)
  | grouped_run c l : is_run c = true -> no_run l = true -> grouped l -> grouped (c :: l).

Lemma split_chars_run k s :
  all_str is_continuation k = true ->
  split_chars (k +:+ s) = (k +:+ (split_chars s).1, (split_chars s).2).
Proof.
  induction k as [|a k IH]; intros H; [apply (surjective_pairing (split_chars s))|].
  cbn in H. apply andb_true_iff in H as [Ha Hk].
  change (split_chars (String a (k +:+ s)) = (String a (k +:+ (split_chars s).1), (split_chars s).2)).
  cbn [split_chars]. by rewrite (IH Hk), Ha.
Qed.

Lemma split_chars_grouped l :
  grouped l ->
  split_chars (concat_str l) = match l with
                               | c :: l' => if is_run c then (c, l') else (EmptyString, l)
                               | [] => (EmptyString, []) end.
Proof.
  induction 1 as [|a l Ha H128 Hl IH|a k l Ha H128 Hk Hn Hl IH|c l Hc Hn Hl IH]; [done|..].
  - change (concat_str (String a "" :: l)) with (String a (concat_str l)). cbn [split_chars].
    rewrite IH. assert (E : is_run (String a "") = false) by (cbn; by rewrite Ha). rewrite E.
    destruct l as [|c l]; [by rewrite Ha, H128|].
    destruct (is_run c) eqn:Ec; rewrite Ha, H128; [|done]. destruct c; [done|]. done.
  - change (concat_str (String a k :: l)) with (String a (k +:+ concat_str l)). cbn [split_chars].
    rewrite (split_chars_run _ _ Hk), IH.
    assert (E : is_run (String a k) = false) by (cbn; by rewrite Ha). rewrite E.
    assert (E' : (match l with c :: l' => if is_run c then (c, l') else ("", l) | [] => ("", []) end)
                 = ("", l)).
    { destruct l as [|c l]; [done|]. cbn in Hn. by destruct (is_run c). }
    rewrite E'. cbn [fst snd]. by rewrite Ha, H128, append_nil_r.
  - change (concat_str (c :: l)) with (c +:+ concat_str l). rewrite Hc.
    rewrite split_chars_run by (by apply andb_true_iff in Hc as [_ ?]). rewrite IH.
    assert (E' : (match l with c :: l' => if is_run c then (c, l') else ("", l) | [] => ("", []) end)
                 = ("", l)).
    { destruct l as [|c' l]; [done|]. cbn in Hn. by destruct (is_run c'). }
    rewrite E'. cbn [fst snd]. by rewrite append_nil_r.
Qed.

Lemma chars_grouped l : grouped l -> chars (concat_str l) = l.
Proof.
  intros H. unfold chars. rewrite (split_chars_grouped _ H). destruct l as [|c l]; [done|].
  destruct (is_run c) eqn:E; [by destruct c|done].
Qed.

Lemma split_chars_are_grouped s :
  all_str is_continuation (split_chars s).1 = true /\ no_run (split_chars s).2 = true
  /\ grouped (split_chars s).2.
Proof.
  induction s as [|a s (Hk & Hn & Hg)]; [by repeat constructor|]. cbn [split_chars].
  destruct (split_chars s) as [k cs]; cbn [fst snd] in *.
  destruct (is_continuation a) eqn:Ha; cbn [fst snd].
  { split; [|done]. cbn. by rewrite Ha. }
  destruct (byte_of a <? 128)%N eqn:H128; cbn [fst snd]; (split_and!; [done|cbn; by rewrite Ha|]).
  - constructor; [done..|]. destruct k; [done|]. by apply grouped_run.
  - by constructor.
Qed.

Lemma chars_are_grouped s : grouped (chars s).
Proof.
  unfold chars. destruct (split_chars_are_grouped s) as (Hk & Hn & Hg).
  destruct (split_chars s) as [k cs]; cbn [fst snd] in *. destruct k; [done|]. by apply grouped_run.
Qed.

Lemma grouped_suffix l k : grouped (l ++ k) -> grouped k.
Proof. induction l as [|c l IH]; [done|]. intros H. apply IH. by inversion H. Qed.
Lemma grouped_prefix l k : grouped (l ++ k) -> grouped l.
Proof.
  induction l as [|c l IH]; [constructor|].
  intros H. inversion H; subst; constructor; auto; by destruct l.
Qed.

Lemma drop_while_suffix {A} p (l : list A) : exists k, l = k ++ drop_while p l.
Proof.
  induction l as [|x l [k IH]]; [by exists []|]. cbn. destruct (p x); [|by exists []].
  exists (x :: k). cbn. by f_equal.
Qed.
Lemma drop_while_head {A} p (l : list A) x k : drop_while p l = x :: k -> p x = false.
Proof. induction l as [|y l IH]; [done|]. cbn. destruct (p y) eqn:E; [done|]. by intros [= <- _]. Qed.
Lemma drop_while_id {A} p (l : list A) :
  (forall x k, l = x :: k -> p x = false) -> drop_while p l = l.
Proof. destruct l as [|x l]; [done|]. intros H. cbn. by rewrite (H x l). Qed.
Lemma drop_while_twice {A} p (l : list A) : drop_while p (drop_while p l) = drop_while p l.
Proof. apply drop_while_id. intros x k H. by eapply drop_while_head. Qed.
Lemma trim_end_prefix {A} p (l : list A) : exists k, l = trim_end_matches p l ++ k.
Proof.
  destruct (drop_while_suffix p (reverse l)) as [k Hk]. exists (reverse k).
  unfold trim_end_matches. by rewrite <- reverse_app, <- Hk, reverse_involutive.
Qed.

Lemma trim_trim s : trim (trim s) = trim s.
Proof.
  unfold trim at 1 3. set (l := drop_while is_whitespace (chars s)).
  destruct (drop_while_suffix is_whitespace (chars s)) as [pre Hpre]. fold l in Hpre.
  destruct (trim_end_prefix is_whitespace l) as [post Hpost].
  assert (Hc : chars (trim s) = trim_end_matches is_whitespace l).
  { apply chars_grouped. apply (grouped_prefix _ post). rewrite <- Hpost.
    apply (grouped_suffix pre). rewrite <- Hpre. apply chars_are_grouped. }
  rewrite Hc. f_equal. rewrite drop_while_id.
  - unfold trim_end_matches. by rewrite reverse_involutive, drop_while_twice.
  - intros x k E. rewrite E in Hpost. by eapply drop_while_head.
Qed.

(** ** Decimal numbers *)

Lemma display_digits n : all_str is_ascii_digit (display n) = true.
Proof.
  assert (Hgo : forall x s, all_str is_ascii_digit s = true ->
            all_str is_ascii_digit (pretty_N_go x s) = true).
  { intros x; induction (N.lt_wf_0 x) as [x _ IH]; intros s Hs.
    destruct (decide (x = 0)%N) as [->|Hx]; [by rewrite pretty_N_go_0|].
    rewrite pretty_N_go_step by lia. apply IH; [by apply N.div_lt; lia|].
    cbn [all_str]. rewrite Hs, andb_true_r. unfold pretty_N_char.
    by repeat case_match. }
  unfold display, pretty, pretty_N. case_decide; [done|]. by apply Hgo.
Qed.

Lemma all_str_impl (p q : ascii -> bool) s :
  (forall a, p a = true -> q a = true) -> all_str p s = true -> all_str q s = true.
Proof.
  intros Hpq. induction s as [|a s IH]; [done|]. cbn. intros [? ?]%andb_true_iff.
  apply andb_true_iff. auto.
Qed.

Lemma display_no_newline n : no_newline (display n) = true.
Proof.
  apply (all_str_impl is_ascii_digit); [|apply display_digits].
  intros a Ha. destruct (Ascii.eqb_spec a newline) as [->|]; [by vm_compute in Ha|done].
Qed.

Lemma append_inj_r s t u : s +:+ t = s +:+ u -> t = u.
Proof.
  induction s as [|a s IH]; [done|].
  change (String a (s +:+ t) = String a (s +:+ u) -> t = u). intros [= H]. auto.
Qed.

Lemma display_inj (n m : Z) : (0 <= n)%Z -> (0 <= m)%Z -> display n = display m -> n = m.
Proof. unfold display. intros Hn Hm H. apply (inj pretty) in H. lia. Qed.

Lemma join_no_newline sep l :
  no_newline sep = true -> Forall (fun s => no_newline s = true) l -> no_newline (join sep l) = true.
Proof.
  intros Hsep. induction 1 as [|s l Hs Hl IH]; [done|]. destruct l as [|t l]; [exact Hs|].
  change (join sep (s :: t :: l)) with (s +:+ sep +:+ join sep (t :: l)).
  rewrite !no_newline_app, Hs, Hsep. exact IH.
Qed.

(** * Sorting and mapping commute when the order reads nothing the map changes *)

Lemma sort_by_map {A} (le : A -> A -> bool) (f : A -> A) l :
  (forall x y, le (f x) (f y) = le x y) -> sort_by le (f <$> l) = f <$> sort_by le l.
Proof.
  intros Hle. induction l as [|x l IH]; [done|]. cbn. fold (sort_by le (f <$> l)).
  change (foldr (insert_by le) [] (f <$> l)) with (sort_by le (f <$> l)). rewrite IH.
  change (foldr (insert_by le) [] l) with (sort_by le l).
  clear IH. induction (sort_by le l) as [|y ys IHy]; [done|]. cbn. rewrite Hle.
  destruct (le x y); [done|]. rewrite fmap_cons. f_equal. exact IHy.
Qed.

Lemma retain_first_map {A} (key : A -> string) (f : A -> A) seen l :
  (forall x, key (f x) = key x) -> retain_first key seen (f <$> l) = f <$> retain_first key seen l.
Proof.
  intros Hkey. revert seen; induction l as [|x l IH]; intros seen; [done|]. cbn. rewrite Hkey.
  case_bool_decide; [apply IH|]. cbn. by rewrite IH.
Qed.

Lemma retain_first_elem {A} (key : A -> string) seen l x :
  x ∈ retain_first key seen l -> x ∈ l /\ key x ∉ seen.
Proof.
  revert seen; induction l as [|y l IH]; intros seen; cbn; [by intros ?%elem_of_nil|].
  case_bool_decide as Hy.
  - intros [? ?]%IH. split; [by right|done].
  - intros [->|[? Hx]%IH]%elem_of_cons; [split; [by left|done]|].
    split; [by right|set_solver].
Qed.

Lemma retain_first_NoDup {A} (key : A -> string) seen l : NoDup (key <$> retain_first key seen l).
Proof.
  revert seen; induction l as [|y l IH]; intros seen; cbn; [constructor|].
  case_bool_decide as Hy; [apply IH|]. rewrite fmap_cons. constructor; [|apply IH].
  intros (x & Hk & Hx)%list_elem_of_fmap. apply retain_first_elem in Hx as [_ Hx]. set_solver.
Qed.

Lemma retain_first_covers {A} (key : A -> string) seen l x :
  x ∈ l -> key x ∉ seen -> key x ∈ key <$> retain_first key seen l.
Proof.
  revert seen; induction l as [|y l IH]; intros seen; cbn; [by intros ?%elem_of_nil|].
  intros [->|Hx]%elem_of_cons Hk.
  - rewrite bool_decide_eq_false_2 by done. rewrite fmap_cons. by left.
  - case_bool_decide as Hy; [by apply IH|]. rewrite fmap_cons.
    destruct (decide (key x = key y)) as [->|]; [by left|]. right. apply IH; [done|set_solver].
Qed.
