(* ===== verification/LiveTail.v ===== *)
(** Live-tail refresh coordinator.

    Models [crates/koushi-core/src/live_tail_freshness.rs] (the scheduler that
    decides which room's live tail is refreshed over the network, one at a time)
    and the serial arithmetic of [crates/koushi-core/src/causal_projection.rs] it
    uses.  The room key type [K] is a parameter, as in the source. *)

From stdpp Require Import base list gmap sets fin_maps.
From Stdlib Require Import ZArith Lia.
From S2P Require Import Prelude.
Local Open Scope Z_scope.
Local Set Warnings "-clear-no-such-hyp".

(** ** Causal projection serials *)

Definition CAUSAL_PROJECTION_DOMAIN_BIT : Z := Z.shiftl 1 63.
Definition CAUSAL_PROJECTION_SERIAL_MAX : Z := CAUSAL_PROJECTION_DOMAIN_BIT - 1.

Inductive CausalProjectionDomain := HistoricalGap | LiveTail.

Record CausalProjectionOperationId := {
  cp_domain : CausalProjectionDomain;
  cp_serial : Z;
}.

Definition CausalProjectionOperationId_new (domain : CausalProjectionDomain) (serial : Z)
  : option CausalProjectionOperationId :=
  then_some (serial <=? CAUSAL_PROJECTION_SERIAL_MAX)
    {| cp_domain := domain; cp_serial := serial |}.

Definition encode_transport (id : CausalProjectionOperationId) : Z :=
  match cp_domain id with
  | HistoricalGap => cp_serial id
  | LiveTail => Z.lor CAUSAL_PROJECTION_DOMAIN_BIT (cp_serial id)
  end.

Definition decode_transport (encoded : Z) : CausalProjectionOperationId :=
  {| cp_domain :=
       if Z.land encoded CAUSAL_PROJECTION_DOMAIN_BIT =? 0 then HistoricalGap else LiveTail;
     cp_serial := Z.land encoded CAUSAL_PROJECTION_SERIAL_MAX |}.

Definition next_causal_projection_serial (current : Z) : option Z :=
  match u64_checked_add current 1 with
  | Some next => then_some (next <=? CAUSAL_PROJECTION_SERIAL_MAX) next
  | None => None
  end.

(** ** The coordinator *)

Definition FOREGROUND_LIVE_TAIL_LIMIT : Z := 128.

Inductive LiveTailFreshnessState :=
  | Unproven (epoch : Z)
  | Refreshing (epoch operation_generation : Z)
  | Fresh (epoch : Z)
  | Deferred (epoch : Z)
  | Retryable (epoch : Z).

Definition freshness_epoch (st : LiveTailFreshnessState) : Z :=
  match st with
  | Unproven e | Refreshing e _ | Fresh e | Deferred e | Retryable e => e
  end.

Inductive LiveTailRefreshOutcome :=
  | Cancelled
  | Unchanged
  | Advanced (events : Z)
  | Detached (events : Z) (historical_gap_remaining : bool)
  | Stale
  | Failed.

#[export] Instance freshness_eq_dec : EqDecision LiveTailFreshnessState.
Proof. solve_decision. Defined.
#[export] Instance outcome_eq_dec : EqDecision LiveTailRefreshOutcome.
Proof. solve_decision. Defined.

Section coordinator.
Context {K : Type} `{Countable K}.

Inductive LiveTailSchedulerAction :=
  | Start (key : K) (epoch operation_generation limit : Z)
  | CancelNetwork (key : K) (operation_generation : Z).

Record RunningLiveTailRefresh := {
  r_key : K;
  r_epoch : Z;
  r_generation : Z;
}.

Record LiveTailRefreshCoordinator := {
  active : option K;
  states : gmap K LiveTailFreshnessState;
  running : option RunningLiveTailRefresh;
  delayed : list K;
  delayed_members : gset K;
  cancelled_active : option K;
  operation_generation : Z;
}.

#[export] Instance coordinator_updatable : Updatable LiveTailRefreshCoordinator := fun c =>
  {| active := active c; states := states c; running := running c; delayed := delayed c;
     delayed_members := delayed_members c; cancelled_active := cancelled_active c;
     operation_generation := operation_generation c |}.

Abbreviation coord := LiveTailRefreshCoordinator.

Definition new : coord :=
  {| active := None; states := ∅; running := None; delayed := []; delayed_members := ∅;
     cancelled_active := None; operation_generation := 0 |}.

Definition freshness (c : coord) (key : K) : option LiveTailFreshnessState := states c !! key.

Definition known_epoch_is_newer (c : coord) (key : K) (epoch : Z) : bool :=
  is_some_and (states c !! key) (fun st => epoch <? freshness_epoch st).

Definition recoverable_epoch (c : coord) (key : K) : option Z :=
  match states c !! key with
  | Some (Unproven e) | Some (Deferred e) | Some (Retryable e) => Some e
  | _ => None
  end.

Definition unproven_epoch (c : coord) (key : K) : option Z :=
  match states c !! key with Some (Unproven e) => Some e | _ => None end.

Definition deferred_epoch (c : coord) (key : K) : option Z :=
  match states c !! key with Some (Deferred e) => Some e | _ => None end.

Definition is_running (c : coord) (key : K) : bool :=
  is_some_and (running c) (fun r => bool_decide (r_key r = key)).

Definition queue_delayed (c : coord) (key : K) : coord :=
  if decide (key ∈ delayed_members c) then c
  else c <| delayed_members ::= fun m => {[key]} ∪ m |> <| delayed ::= fun q => q ++ [key] |>.

Definition clear_cancelled_active (c : coord) (key : K) : coord :=
  if decide (cancelled_active c = Some key) then c <| cancelled_active := None |> else c.

Definition remove_delayed (c : coord) (key : K) : coord :=
  if decide (key ∈ delayed_members c) then
    c <| delayed_members ::= fun m => m ∖ {[key]} |>
      <| delayed ::= List.filter (fun queued => negb (bool_decide (queued = key))) |>
  else c.

Definition set_freshness (c : coord) (key : K) (st : LiveTailFreshnessState) : coord :=
  c <| states ::= insert key st |>.

Definition cancel_of (r : RunningLiveTailRefresh) : LiveTailSchedulerAction :=
  CancelNetwork (r_key r) (r_generation r).

Definition fence_replaced_running (c : coord) (key : K) (epoch : Z)
  : coord * option LiveTailSchedulerAction :=
  match running c with
  | Some r =>
      if decide (r_key r = key /\ r_epoch r ≠ epoch)
      then (c <| running := None |>, Some (cancel_of r))
      else (c, None)
  | None => (c, None)
  end.

Definition defer_if_pending (c : coord) (key : K) : coord :=
  match recoverable_epoch c key with
  | None => c
  | Some epoch =>
      queue_delayed (clear_cancelled_active (set_freshness c key (Deferred epoch)) key) key
  end.

Definition preempt_running (c : coord) : coord * option LiveTailSchedulerAction :=
  match running c with
  | None => (c, None)
  | Some r =>
      let c := c <| running := None |> in
      let c :=
        if is_some_and (states c !! r_key r) (fun st => freshness_epoch st =? r_epoch r) then
          let c := set_freshness c (r_key r) (Deferred (r_epoch r)) in
          queue_delayed (clear_cancelled_active c (r_key r)) (r_key r)
        else c in
      (c, Some (cancel_of r))
  end.

Definition start (c : coord) (key : K) (epoch : Z) : coord * option LiveTailSchedulerAction :=
  let c := clear_cancelled_active (remove_delayed c key) key in
  match next_causal_projection_serial (operation_generation c) with
  | None => (set_freshness c key (Retryable epoch), None)
  | Some g =>
      let c := c <| operation_generation := g |> in
      let c := set_freshness c key (Refreshing epoch g) in
      let c := c <| running := Some {| r_key := key; r_epoch := epoch; r_generation := g |} |> in
      (c, Some (Start key epoch g FOREGROUND_LIVE_TAIL_LIMIT))
  end.

(** The [for _ in 0..delayed_count] loop of [schedule_next].  Popping an empty
    queue would panic; [schedule_loop_no_panic] shows that branch is dead. *)
Fixpoint schedule_loop (panic : coord * list LiveTailSchedulerAction) (n : nat)
    (c : coord) (skip : option K) : coord * list LiveTailSchedulerAction :=
  match n with
  | O => (c, [])
  | S n =>
      match delayed c with
      | [] => panic
      | key :: rest =>
          let c := c <| delayed := rest |> <| delayed_members ::= fun m => m ∖ {[key]} |> in
          if decide (skip = Some key) then schedule_loop panic n (queue_delayed c key) skip
          else if decide (active c = Some key) then schedule_loop panic n c skip
          else match deferred_epoch c key with
               | None => schedule_loop panic n c skip
               | Some epoch => let '(c, a) := start c key epoch in (c, opt_list a)
               end
      end
  end.

Definition startable_active (c : coord) (skip : option K) : option (K * Z) :=
  match active c with
  | Some a =>
      if decide (skip ≠ Some a /\ cancelled_active c ≠ Some a)
      then match unproven_epoch c a with Some e => Some (a, e) | None => None end
      else None
  | None => None
  end.

Definition schedule_next (c : coord) (skip : option K) : coord * list LiveTailSchedulerAction :=
  match running c with
  | Some _ => (c, [])
  | None =>
      match startable_active c skip with
      | Some (a, epoch) => let '(c, act) := start c a epoch in (c, opt_list act)
      | None => schedule_loop (c, []) (length (delayed c)) c skip
      end
  end.

Definition serial_exhausted (c : coord) : bool :=
  match next_causal_projection_serial (operation_generation c) with
  | None => true | Some _ => false
  end.

(** The three parts of [activate]: the freshness the newly active key gets, the
    preemption of a refresh in flight for something else, and the deferral of the
    previously active key. *)
Definition activate_freshness (c : coord) (key : K) (epoch : Z) : coord :=
  let preserve_exhausted_retryable :=
    serial_exhausted c && bool_decide (states c !! key = Some (Retryable epoch)) in
  let already_known :=
    match states c !! key with
    | Some (Unproven e) | Some (Refreshing e _) | Some (Fresh e) => e =? epoch
    | _ => false
    end in
  let c :=
    if negb preserve_exhausted_retryable && negb already_known
    then set_freshness c key (Unproven epoch) else c in
  clear_cancelled_active c key.

Definition activate_preempt (c : coord) (key : K) (epoch : Z)
  : coord * option LiveTailSchedulerAction :=
  if bool_decide (is_Some (unproven_epoch c key))
     && is_some_and (running c)
          (fun r => negb (bool_decide (r_key r = key)) || negb (r_epoch r =? epoch))
  then preempt_running c else (c, None).

Definition activate_defer (c : coord) (old_active : option K) (key : K) : coord :=
  match old_active with
  | Some old =>
      if negb (bool_decide (old = key)) && negb (is_running c old)
      then defer_if_pending c old else c
  | None => c
  end.

Definition activate (c : coord) (key : K) (epoch : Z) : coord * list LiveTailSchedulerAction :=
  if known_epoch_is_newer c key epoch then (c, [])
  else
    let old_active := active c in
    let c := remove_delayed (c <| active := Some key |>) key in
    let c := activate_freshness c key epoch in
    let '(c, cancel) := activate_preempt c key epoch in
    let c := activate_defer c old_active key in
    let '(c, acts) := schedule_next c None in
    (c, opt_list cancel ++ acts).

Definition mark_fresh (c : coord) (key : K) (epoch : Z) : coord * list LiveTailSchedulerAction :=
  if known_epoch_is_newer c key epoch then (c, [])
  else
    let c := set_freshness c key (Fresh epoch) in
    let c := clear_cancelled_active (remove_delayed c key) key in
    let '(c, cancel) :=
      match running c with
      | Some r =>
          if decide (r_key r = key /\ r_epoch r <= epoch)
          then (c <| running := None |>, Some (cancel_of r)) else (c, None)
      | None => (c, None)
      end in
    let '(c, acts) := schedule_next c None in
    (c, opt_list cancel ++ acts).

Definition finish_state (outcome : LiveTailRefreshOutcome) (is_active : bool) (epoch : Z)
  : LiveTailFreshnessState :=
  match outcome with
  | Unchanged | Advanced _ | Detached _ _ => Fresh epoch
  | Cancelled => if is_active then Unproven epoch else Deferred epoch
  | Stale | Failed => if is_active then Retryable epoch else Deferred epoch
  end.

Definition finish (c : coord) (key : K) (epoch generation : Z) (outcome : LiveTailRefreshOutcome)
  : coord * list LiveTailSchedulerAction :=
  if negb (is_some_and (running c) (fun r =>
       bool_decide (r_key r = key) && (r_epoch r =? epoch) && (r_generation r =? generation)))
  then (c, [])
  else
    let c := c <| running := None |> in
    let is_active := bool_decide (active c = Some key) in
    let c := set_freshness c key (finish_state outcome is_active epoch) in
    let c := clear_cancelled_active (remove_delayed c key) key in
    let c := if bool_decide (outcome = Cancelled) && is_active
             then c <| cancelled_active := Some key |> else c in
    schedule_next c None.

Definition invalidate_epoch (c : coord) (key : K) (epoch : Z)
  : coord * list LiveTailSchedulerAction :=
  if known_epoch_is_newer c key epoch
     || is_some_and (states c !! key) (fun st => freshness_epoch st =? epoch)
  then (c, [])
  else
    let is_active := bool_decide (active c = Some key) in
    let c := clear_cancelled_active c key in
    let '(c, fenced) := fence_replaced_running c key epoch in
    let c := set_freshness c key (if is_active then Unproven epoch else Deferred epoch) in
    if is_active then
      let '(c, cancel) := preempt_running c in
      let '(c, acts) := schedule_next (remove_delayed c key) None in
      (c, opt_list fenced ++ opt_list cancel ++ acts)
    else
      let '(c, acts) := schedule_next (queue_delayed c key) (Some key) in
      (c, opt_list fenced ++ acts).

(** ** Operations as steps *)

Inductive Op :=
  | OpActivate (key : K) (epoch : Z)
  | OpMarkFresh (key : K) (epoch : Z)
  | OpFinish (key : K) (epoch generation : Z) (outcome : LiveTailRefreshOutcome)
  | OpInvalidate (key : K) (epoch : Z).

Definition step (c : coord) (op : Op) : coord * list LiveTailSchedulerAction :=
  match op with
  | OpActivate k e => activate c k e
  | OpMarkFresh k e => mark_fresh c k e
  | OpFinish k e g o => finish c k e g o
  | OpInvalidate k e => invalidate_epoch c k e
  end.

(** ** Invariant

    [wf_with oa c] is the invariant in the middle of [activate], when [oa] is the
    key that was active before and may still be marked cancelled; [wf] is the
    invariant between operations. *)

Record wf_with {oa : option K} (c : coord) : Prop := {
  wf_nodup : NoDup (delayed c);
  wf_members k : k ∈ delayed_members c <-> k ∈ delayed c;
  wf_deferred k : k ∈ delayed c -> exists e, states c !! k = Some (Deferred e);
  wf_not_active k : k ∈ delayed c -> active c ≠ Some k;
  wf_running r : running c = Some r ->
    states c !! r_key r = Some (Refreshing (r_epoch r) (r_generation r))
    /\ 0 < r_generation r <= operation_generation c;
  wf_refreshing k e g : states c !! k = Some (Refreshing e g) ->
    running c = Some {| r_key := k; r_epoch := e; r_generation := g |};
  wf_cancelled k : cancelled_active c = Some k ->
    (active c = Some k \/ oa = Some k) /\ exists e, states c !! k = Some (Unproven e);
  wf_generation : 0 <= operation_generation c <= CAUSAL_PROJECTION_SERIAL_MAX;
}.
Abbreviation wf := (@wf_with None).

Implicit Types (c : coord) (k key : K).

Lemma wf_new : wf new.
Proof. split; simpl; try (apply NoDup_nil_2 || set_solver || done). Qed.

Lemma next_serial_Some g g' :
  0 <= g -> next_causal_projection_serial g = Some g' ->
  g' = g + 1 /\ g' <= CAUSAL_PROJECTION_SERIAL_MAX.
Proof.
  unfold next_causal_projection_serial, u64_checked_add, then_some. intros ?.
  case_decide; [|done]. destruct (Z.leb_spec (g + 1) CAUSAL_PROJECTION_SERIAL_MAX); naive_solver.
Qed.

Lemma remove_delayed_fields c k :
  active (remove_delayed c k) = active c /\ states (remove_delayed c k) = states c
  /\ running (remove_delayed c k) = running c
  /\ cancelled_active (remove_delayed c k) = cancelled_active c
  /\ operation_generation (remove_delayed c k) = operation_generation c.
Proof. unfold remove_delayed; by case_decide. Qed.

Lemma queue_delayed_fields c k :
  active (queue_delayed c k) = active c /\ states (queue_delayed c k) = states c
  /\ running (queue_delayed c k) = running c
  /\ cancelled_active (queue_delayed c k) = cancelled_active c
  /\ operation_generation (queue_delayed c k) = operation_generation c.
Proof. unfold queue_delayed; by case_decide. Qed.

(** Normal forms of the queue helpers: one unconditional record update each. *)
Lemma clear_cancelled_eq c k :
  clear_cancelled_active c k
  = c <| cancelled_active ::= fun o => if decide (o = Some k) then None else o |>.
Proof. unfold clear_cancelled_active, update. destruct c; simpl. by case_decide. Qed.

Lemma filter_ne_elem k k' (l : list K) :
  k' ∈ List.filter (fun q => negb (bool_decide (q = k))) l <-> k' ∈ l /\ k' ≠ k.
Proof.
  rewrite !list_elem_of_In, List.filter_In, negb_true_iff, bool_decide_eq_false. done.
Qed.

Lemma filter_ne_nodup k (l : list K) :
  NoDup l -> NoDup (List.filter (fun q => negb (bool_decide (q = k))) l).
Proof. rewrite !NoDup_ListNoDup. apply List.NoDup_filter. Qed.

Lemma filter_ne_notin k (l : list K) :
  k ∉ l -> List.filter (fun q => negb (bool_decide (q = k))) l = l.
Proof.
  induction l as [|q l IH]; simpl; [done|]. intros [??]%not_elem_of_cons.
  rewrite bool_decide_eq_false_2 by done. simpl. by rewrite IH.
Qed.

Lemma remove_delayed_eq c k :
  (k ∈ delayed_members c <-> k ∈ delayed c) ->
  remove_delayed c k
  = c <| delayed_members ::= fun m => m ∖ {[k]} |>
      <| delayed ::= List.filter (fun q => negb (bool_decide (q = k))) |>.
Proof.
  intros Hk. unfold remove_delayed. case_decide as Hin; [done|].
  destruct c as [a st r q m ca g]; simpl in *. unfold update; simpl.
  f_equal; [by rewrite filter_ne_notin by tauto|set_solver].
Qed.


Lemma queue_delayed_elem c k k' :
  (k ∈ delayed_members c <-> k ∈ delayed c) ->
  k' ∈ delayed (queue_delayed c k) <-> k' ∈ delayed c \/ k' = k.
Proof. intros ?. unfold queue_delayed. case_decide; simpl; set_solver. Qed.

(** Queuing a deferred key that is not the active one keeps the invariant. *)
Lemma wf_queue_delayed c k e :
  wf c -> states c !! k = Some (Deferred e) -> active c ≠ Some k -> wf (queue_delayed c k).
Proof.
  intros Hc Hk Ha. unfold queue_delayed. case_decide as Hin; [done|].
  rewrite wf_members in Hin by done. destruct Hc.
  split; simpl; try done.
  - apply NoDup_app; split_and!; [done| |apply NoDup_singleton].
    by intros ? ? ->%list_elem_of_singleton.
  - intros k'. rewrite elem_of_union, elem_of_singleton, elem_of_app, list_elem_of_singleton,
      wf_members0. tauto.
  - intros k' [?| ->%list_elem_of_singleton]%elem_of_app; eauto.
  - intros k' [?| ->%list_elem_of_singleton]%elem_of_app; eauto.
Qed.

(** Unqueuing a key keeps the invariant. *)
Lemma wf_remove_delayed c k : wf c -> wf (remove_delayed c k).
Proof.
  intros Hc. rewrite remove_delayed_eq by (by eapply wf_members). destruct Hc.
  split; simpl; try done; [by apply filter_ne_nodup|..]; intros k'; rewrite ?filter_ne_elem.
  - rewrite elem_of_difference, not_elem_of_singleton, wf_members0. done.
  - intros [??]; auto.
  - intros [??]; auto.
Qed.

Lemma wf_clear_cancelled c k : wf c -> wf (clear_cancelled_active c k).
Proof.
  intros Hc. rewrite clear_cancelled_eq. destruct Hc. split; simpl; try done.
  intros k'. case_decide; naive_solver.
Qed.

(** Starting a refresh: the outcome is one [Start] with the next generation, or,
    when the serials are exhausted, a [Retryable] key and no action. *)
Lemma start_spec c k st e :
  wf c -> running c = None -> states c !! k = Some st -> freshness_epoch st = e ->
  let '(c', a) := start c k e in
  wf c' /\ active c' = active c
  /\ match a with
     | Some act =>
         let g := operation_generation c + 1 in
         act = Start k e g FOREGROUND_LIVE_TAIL_LIMIT
         /\ running c' = Some {| r_key := k; r_epoch := e; r_generation := g |}
         /\ operation_generation c' = g
         /\ states c' = <[k := Refreshing e g]> (states c)
     | None =>
         serial_exhausted c = true /\ running c' = None
         /\ operation_generation c' = operation_generation c
         /\ states c' = <[k := Retryable e]> (states c)
     end.
Proof.
  intros Hc Hr Hk He. unfold start, serial_exhausted.
  rewrite clear_cancelled_eq, remove_delayed_eq by (by eapply wf_members). simpl.
  pose proof (wf_refreshing _ Hc) as Href. rewrite Hr in Href.
  pose proof (wf_generation _ Hc) as Hgen.
  destruct (next_causal_projection_serial (operation_generation c)) as [g|] eqn:Hg; simpl.
  - destruct (next_serial_Some _ _ (proj1 Hgen) Hg) as [-> Hmax].
    split_and!; try done. destruct Hc.
    split; simpl; try done; [by apply filter_ne_nodup|..].
    + intros k'. by rewrite filter_ne_elem, elem_of_difference, not_elem_of_singleton, wf_members0.
    + intros k' [??]%filter_ne_elem. rewrite lookup_insert_ne by done. eauto.
    + intros k' [??]%filter_ne_elem. eauto.
    + intros r [= <-]; simpl. rewrite lookup_insert_eq. split; [done|lia].
    + intros k' e' g'. rewrite lookup_insert. case_decide; naive_solver.
    + intros k'. case_decide as Hca; [done|]. intros Hk'.
      rewrite lookup_insert_ne by congruence. eauto.
    + lia.
  - split_and!; try done. destruct Hc.
    split; simpl; try done; [by apply filter_ne_nodup|..].
    + intros k'. by rewrite filter_ne_elem, elem_of_difference, not_elem_of_singleton, wf_members0.
    + intros k' [??]%filter_ne_elem. rewrite lookup_insert_ne by done. eauto.
    + intros k' [??]%filter_ne_elem. eauto.
    + by rewrite Hr.
    + intros k' e' g'. rewrite lookup_insert. case_decide; naive_solver.
    + intros k'. case_decide as Hca; [done|]. intros Hk'.
      rewrite lookup_insert_ne by congruence. eauto.
Qed.

(** ** Scheduling *)

(** [same_epochs c c']: no key's freshness epoch differs between [c] and [c']. *)
Definition same_epochs c c' : Prop :=
  forall k, freshness_epoch <$> states c !! k = freshness_epoch <$> states c' !! k.

#[export] Instance same_epochs_preorder : PreOrder same_epochs.
Proof. split; [done|]. intros c1 c2 c3 H12 H23 k. by rewrite H12. Qed.

(** What one scheduling pass may do: nothing, or one [Start] with the next
    generation when nothing was running. *)
Record scheduled c c' (acts : list LiveTailSchedulerAction) : Prop := {
  sch_wf : wf c';
  sch_active : active c' = active c;
  sch_epochs : same_epochs c c';
  sch_kept k st : states c !! k = Some st -> (forall e, st ≠ Unproven e /\ st ≠ Deferred e) ->
    states c' !! k = Some st;
  sch_acts :
    (acts = [] /\ running c' = running c /\ operation_generation c' = operation_generation c)
    \/ exists k e, running c = None
       /\ acts = [Start k e (operation_generation c + 1) FOREGROUND_LIVE_TAIL_LIMIT]
       /\ running c' = Some {| r_key := k; r_epoch := e;
                               r_generation := operation_generation c + 1 |}
       /\ operation_generation c' = operation_generation c + 1;
}.

Lemma scheduled_nil c : wf c -> scheduled c c [].
Proof. intros. split; [done..|]. by left. Qed.

Lemma start_scheduled c k st e :
  wf c -> running c = None -> states c !! k = Some st -> st = Unproven e \/ st = Deferred e ->
  scheduled c (start c k e).1 (opt_list (start c k e).2).
Proof.
  intros Hc Hr Hk Hue. assert (freshness_epoch st = e) as He by naive_solver.
  pose proof (start_spec c k st e Hc Hr Hk He) as Hs.
  destruct (start c k e) as [c' a]. destruct Hs as (Hwf & Hact & Ha).
  assert (forall st', freshness_epoch st' = e -> states c' = <[k := st']> (states c) ->
    same_epochs c c') as Hep.
  { intros st' He' Hst k'. rewrite Hst, lookup_insert. case_decide; subst; [|done].
    rewrite Hk. simpl. by f_equal. }
  assert (forall st', states c' = <[k := st']> (states c) -> forall k' st0,
    states c !! k' = Some st0 -> (forall e, st0 ≠ Unproven e /\ st0 ≠ Deferred e) ->
    states c' !! k' = Some st0) as Hkept.
  { intros st' -> k' st0 Hk' Hst0. destruct (decide (k = k')) as [<-|].
    - assert (st0 = st) as -> by congruence. destruct (Hst0 e); naive_solver.
    - by rewrite lookup_insert_ne. }
  destruct a as [act|]; simpl; split; try done.
  - apply (Hep (Refreshing e (operation_generation c + 1))); naive_solver.
  - eapply Hkept. naive_solver.
  - right. destruct Ha as (-> & ? & ? & ?). eauto 10.
  - apply (Hep (Retryable e)); naive_solver.
  - eapply Hkept. naive_solver.
  - left. destruct Ha as (? & -> & ? & ?). by rewrite Hr.
Qed.

Lemma start_progress c k e :
  serial_exhausted c = false -> (start c k e).2 ≠ None.
Proof.
  unfold start, serial_exhausted. intros Hex.
  rewrite clear_cancelled_eq. unfold remove_delayed. case_decide; simpl; by case_match.
Qed.

Lemma wf_pop c key rest :
  wf c -> delayed c = key :: rest ->
  wf (c <| delayed := rest |> <| delayed_members ::= fun m => m ∖ {[key]} |>).
Proof.
  intros Hc Hd. destruct Hc. rewrite Hd in *.
  apply NoDup_cons in wf_nodup0 as [Hnin Hnd].
  split; simpl; try done.
  - intros k. rewrite elem_of_difference, not_elem_of_singleton, wf_members0, elem_of_cons.
    split; [tauto|]. intros. split; [tauto|]. by intros ->.
  - intros k ?. apply wf_deferred0. by right.
  - intros k ?. apply wf_not_active0. by right.
Qed.

Lemma schedule_loop_spec panic n c skip :
  wf c -> running c = None -> (n <= length (delayed c))%nat ->
  scheduled c (schedule_loop panic n c skip).1 (schedule_loop panic n c skip).2
  /\ (serial_exhausted c = false -> (exists k, k ∈ take n (delayed c) /\ skip ≠ Some k) ->
      (schedule_loop panic n c skip).2 ≠ []).
Proof.
  revert c; induction n as [|n IH]; intros c Hc Hr Hlen.
  { split; [by apply scheduled_nil|]. intros _ (k & Hk & _). by apply elem_of_nil in Hk. }
  simpl. destruct (delayed c) as [|key rest] eqn:Hd; simpl in Hlen; [lia|].
  assert (key ∈ delayed c) as Hin by (rewrite Hd; left).
  destruct (wf_deferred c Hc key Hin) as [e He].
  pose proof (wf_not_active c Hc key Hin) as Hna.
  pose proof (wf_pop c key rest Hc Hd) as Hpop.
  set (c1 := c <| delayed := rest |> <| delayed_members ::= fun m => m ∖ {[key]} |>) in *.
  case_decide as Hskip.
  - assert (key ∉ delayed_members c1) as Hnin by (simpl; set_solver).
    assert (queue_delayed c1 key = c1 <| delayed_members ::= fun m => {[key]} ∪ m |>
              <| delayed ::= fun q => q ++ [key] |>) as Hq
      by (unfold queue_delayed; by rewrite decide_False).
    destruct (IH (queue_delayed c1 key)) as [Hs Hp].
    + by eapply wf_queue_delayed.
    + by rewrite Hq.
    + rewrite Hq; simpl. rewrite length_app; simpl; lia.
    + split.
      * destruct Hs as [?? Hep Hkept Hacts]. rewrite Hq in Hep, Hkept, Hacts. rewrite Hq in *.
        by split.
      * intros Hex (k & Hk & Hne). apply Hp; [by rewrite Hq|]. exists k. split; [|done].
        rewrite Hq; simpl. apply elem_of_cons in Hk as [->|Hk]; [congruence|].
        rewrite take_app. set_solver.
  - rewrite decide_False by done.
    unfold deferred_epoch. change (states c1) with (states c). rewrite He.
    pose proof (start_scheduled c1 key (Deferred e) e Hpop Hr He (or_intror eq_refl)) as Hs.
    pose proof (start_progress c1 key e) as Hp.
    destruct (start c1 key e) as [c' a]; simpl in *.
    split; [by destruct Hs; split|]. intros Hex _. specialize (Hp Hex). by destruct a.
Qed.

(** The panic branch of the loop is dead: with as much fuel as the queue is long,
    the value it would return does not matter. *)
Lemma schedule_loop_no_panic p1 p2 n c skip :
  (n <= length (delayed c))%nat -> schedule_loop p1 n c skip = schedule_loop p2 n c skip.
Proof.
  revert c; induction n as [|n IH]; intros c Hlen; [done|].
  simpl. destruct (delayed c) as [|key rest] eqn:Hd; simpl in Hlen; [lia|].
  case_decide; [|case_decide; [|case_match; [done|]]]; apply IH; simpl; try lia.
  unfold queue_delayed. case_decide; simpl; rewrite ?length_app; simpl; lia.
Qed.

Lemma startable_active_Some c skip a e :
  startable_active c skip = Some (a, e) <->
  active c = Some a /\ skip ≠ Some a /\ cancelled_active c ≠ Some a
  /\ states c !! a = Some (Unproven e).
Proof.
  unfold startable_active, unproven_epoch. destruct (active c) as [b|]; [|naive_solver].
  case_decide; [|naive_solver]. destruct (states c !! b) as [[]|] eqn:?; naive_solver.
Qed.

Lemma schedule_next_spec c skip :
  wf c -> scheduled c (schedule_next c skip).1 (schedule_next c skip).2.
Proof.
  intros Hc. unfold schedule_next.
  destruct (running c) eqn:Hr; [by apply scheduled_nil|].
  destruct (startable_active c skip) as [[a e]|] eqn:Hsa.
  - apply startable_active_Some in Hsa as (_ & _ & _ & Ha).
    pose proof (start_scheduled c a (Unproven e) e Hc Hr Ha (or_introl eq_refl)) as Hs.
    by destruct (start c a e).
  - by apply schedule_loop_spec.
Qed.

(** A pass that leaves the network idle had nothing it could start. *)
Lemma schedule_next_conserving c skip :
  wf c -> running c = None -> serial_exhausted c = false ->
  (is_Some (startable_active c skip) \/ exists k, k ∈ delayed c /\ skip ≠ Some k) ->
  (schedule_next c skip).2 ≠ [].
Proof.
  intros Hc Hr Hex Hsome. unfold schedule_next. rewrite Hr.
  destruct (startable_active c skip) as [[a e]|] eqn:Hsa.
  - pose proof (start_progress c a e Hex). by destruct (start c a e) as [? []].
  - destruct Hsome as [[]|(k & Hk & Hne)]; [done|].
    apply schedule_loop_spec; [done..|]. exists k. by rewrite take_ge.
Qed.

Lemma schedule_next_active c a e :
  wf c -> running c = None -> serial_exhausted c = false ->
  startable_active c None = Some (a, e) ->
  exists g, running (schedule_next c None).1
            = Some {| r_key := a; r_epoch := e; r_generation := g |}.
Proof.
  intros Hc Hr Hex Hsa. unfold schedule_next. rewrite Hr, Hsa.
  apply startable_active_Some in Hsa as (_ & _ & _ & Ha).
  pose proof (start_progress c a e Hex) as Hp.
  pose proof (start_spec c a (Unproven e) e Hc Hr Ha eq_refl) as Hs.
  destruct (start c a e) as [c' [act|]]; [|done]. simpl. naive_solver.
Qed.

(** ** Replacing the freshness of a key *)

(** Forget the refresh in flight if it is for [key]. *)
Definition drop_running_on c key : coord :=
  if is_running c key then c <| running := None |> else c.

Lemma is_running_true c k :
  is_running c k = true <-> exists r, running c = Some r /\ r_key r = k.
Proof.
  unfold is_running, is_some_and. destruct (running c) as [r|]; [|naive_solver].
  rewrite bool_decide_eq_true. naive_solver.
Qed.

Lemma wf_overwrite oa c key st :
  @wf_with oa c -> (forall e g, st ≠ Refreshing e g) ->
  (key ∈ delayed c -> exists e, st = Deferred e) ->
  cancelled_active c ≠ Some key ->
  @wf_with oa (drop_running_on (set_freshness c key st) key).
Proof.
  intros Hc Hst Hq Hca. unfold drop_running_on. change (is_running (set_freshness c key st) key)
    with (is_running c key).
  destruct Hc. destruct (is_running c key) eqn:Hrun.
  - apply is_running_true in Hrun as (r & Hr & <-).
    destruct (wf_running0 r Hr) as [Hrs Hrg].
    split; simpl; try done.
    + intros k Hk. rewrite lookup_insert. case_decide; naive_solver.
    + intros k e g. rewrite lookup_insert. case_decide as Hk; [naive_solver|].
      intros Hkr%wf_refreshing0. rewrite Hr in Hkr. naive_solver.
    + intros k Hk. rewrite lookup_insert_ne by congruence. eauto.
  - split; simpl; try done.
    + intros k Hk. rewrite lookup_insert. case_decide; naive_solver.
    + intros r Hr. destruct (decide (r_key r = key)) as [E|].
      * apply not_true_iff_false in Hrun. destruct Hrun. apply is_running_true. eauto.
      * rewrite lookup_insert_ne by done. eauto.
    + intros k e g. rewrite lookup_insert. case_decide as Hk; [naive_solver|]. eauto.
    + intros k Hk. rewrite lookup_insert_ne by congruence. eauto.
Qed.

(** Preempting the refresh in flight defers its key and cancels its request. *)
Lemma preempt_spec oa c :
  @wf_with oa c -> (forall r, running c = Some r -> active c ≠ Some (r_key r)) ->
  let c' := (preempt_running c).1 in
  @wf_with oa c' /\ running c' = None /\ active c' = active c
  /\ operation_generation c' = operation_generation c /\ same_epochs c c'
  /\ (preempt_running c).2 = cancel_of <$> running c
  /\ (forall k, is_running c k = false -> states c' !! k = states c !! k)
  /\ cancelled_active c' = cancelled_active c.
Proof.
  intros Hc Hna. unfold preempt_running.
  destruct (running c) as [r|] eqn:Hr; [|by split_and!]. specialize (Hna r eq_refl).
  destruct (wf_running _ Hc r Hr) as [Hrs Hrg]. simpl. rewrite Hrs; simpl. rewrite Z.eqb_refl.
  assert (cancelled_active c ≠ Some (r_key r)) as Hnc.
  { intros [_ [e He]]%(wf_cancelled _ Hc). congruence. }
  assert (r_key r ∉ delayed c) as Hnd.
  { intros [e He]%(wf_deferred _ Hc). congruence. }
  set (c1 := set_freshness (c <| running := None |>) (r_key r) (Deferred (r_epoch r))).
  assert (clear_cancelled_active c1 (r_key r) = c1) as ->
    by (unfold clear_cancelled_active; by rewrite decide_False).
  assert (queue_delayed c1 (r_key r) = c1 <| delayed_members ::= fun m => {[r_key r]} ∪ m |>
    <| delayed ::= fun q => q ++ [r_key r] |>) as ->.
  { unfold queue_delayed. rewrite decide_False; [done|]. simpl. by rewrite (wf_members _ Hc). }
  split_and!; simpl; try done.
  - destruct Hc. split; simpl; try done.
    + apply NoDup_app; split_and!; [done| |apply NoDup_singleton].
      by intros ? ? ->%list_elem_of_singleton.
    + intros k. rewrite elem_of_union, elem_of_singleton, elem_of_app, list_elem_of_singleton,
        wf_members0. tauto.
    + intros k. rewrite elem_of_app, list_elem_of_singleton, lookup_insert.
      case_decide; naive_solver.
    + intros k. rewrite elem_of_app, list_elem_of_singleton. naive_solver.
    + intros k e g. rewrite lookup_insert. case_decide as Hk; [done|].
      intros Hkr%wf_refreshing0. naive_solver.
    + intros k Hk. rewrite lookup_insert_ne by congruence. eauto.
  - intros k; simpl. rewrite lookup_insert. case_decide; subst; [|done]. by rewrite Hrs.
  - intros k Hk. rewrite lookup_insert_ne; [done|]. intros <-.
    apply not_true_iff_false in Hk. destruct Hk. apply is_running_true. eauto.
Qed.

(** ** The network the coordinator drives

    The specification of what the actions mean to their consumer: at most one
    refresh is in flight, [Start] needs an idle network and [CancelNetwork] must
    name the refresh in flight; [None] is a protocol error. *)

Definition net_apply (n : option (K * Z)) (a : LiveTailSchedulerAction)
  : option (option (K * Z)) :=
  match a, n with
  | Start k _ g _, None => Some (Some (k, g))
  | CancelNetwork k g, Some (k', g') =>
      if decide (k = k' /\ g = g') then Some None else None
  | _, _ => None
  end.

Fixpoint net_run (n : option (K * Z)) (acts : list LiveTailSchedulerAction)
  : option (option (K * Z)) :=
  match acts with
  | [] => Some n
  | a :: acts => n' ← net_apply n a; net_run n' acts
  end.

Definition inflight c : option (K * Z) := (fun r => (r_key r, r_generation r)) <$> running c.

Definition matches_running c key epoch generation : bool :=
  is_some_and (running c) (fun r =>
    bool_decide (r_key r = key) && (r_epoch r =? epoch) && (r_generation r =? generation)).

(** The network as an operation finds it: an accepted [finish] reports that the
    refresh in flight has ended. *)
Definition net_before c (op : Op) : option (K * Z) :=
  match op with
  | OpFinish k e g _ => if matches_running c k e g then None else inflight c
  | _ => inflight c
  end.

Definition started_generations (acts : list LiveTailSchedulerAction) : list Z :=
  omap (fun a => match a with Start _ _ g _ => Some g | _ => None end) acts.

(** No key's freshness epoch goes back. *)
Definition epochs_le c c' : Prop :=
  forall k st, states c !! k = Some st ->
  exists st', states c' !! k = Some st' /\ freshness_epoch st <= freshness_epoch st'.

#[export] Instance epochs_le_preorder : PreOrder epochs_le.
Proof.
  split; [intros c k st ?; exists st; split; [done|lia]|]. intros c1 c2 c3 H12 H23 k st Hk.
  destruct (H12 k st Hk) as (st2 & Hk2 & ?). destruct (H23 k st2 Hk2) as (st3 & ? & ?).
  exists st3. split; [done|lia].
Qed.

Lemma same_epochs_le c c' : same_epochs c c' -> epochs_le c c'.
Proof.
  intros Hs k st Hk. specialize (Hs k). rewrite Hk in Hs; simpl in Hs.
  destruct (states c' !! k) as [st'|]; simplify_eq/=. exists st'. split; [done|lia].
Qed.

Record op_effect (n : option (K * Z)) c c' (acts : list LiveTailSchedulerAction) : Prop := {
  oe_wf : wf c';
  oe_net : net_run n acts = Some (inflight c');
  oe_epochs : epochs_le c c';
  oe_generation :
    (started_generations acts = [] /\ operation_generation c' = operation_generation c)
    \/ (started_generations acts = [operation_generation c + 1]
        /\ operation_generation c' = operation_generation c + 1);
}.

Lemma op_effect_refl c : wf c -> op_effect (inflight c) c c [].
Proof. intros. split; [done..|]. by left. Qed.

Lemma net_run_app n l1 l2 :
  net_run n (l1 ++ l2) = n' ← net_run n l1; net_run n' l2.
Proof.
  revert n; induction l1 as [|a l1 IH]; intros n; [done|]. simpl.
  destruct (net_apply n a); simpl; [apply IH|done].
Qed.

(** Every operation is a first phase that only cancels, then a scheduling pass. *)
Lemma op_effect_schedule n c c1 cancels skip :
  wf c1 -> net_run n cancels = Some (inflight c1) -> epochs_le c c1 ->
  started_generations cancels = [] -> operation_generation c1 = operation_generation c ->
  op_effect n c (schedule_next c1 skip).1 (cancels ++ (schedule_next c1 skip).2).
Proof.
  intros Hwf Hnet Hep Hst Hog. destruct (schedule_next_spec c1 skip Hwf) as [Hwf' _ Hep' _ Hacts].
  destruct (schedule_next c1 skip) as [c2 acts]; simpl in *. split; [done|..].
  - rewrite net_run_app, Hnet; simpl. unfold inflight in *.
    destruct Hacts as [(-> & -> & _)|(k & e & Hr & -> & -> & _)]; simpl; [done|]. by rewrite Hr.
  - etrans; [done|]. by apply same_epochs_le.
  - unfold started_generations in *. rewrite omap_app, Hst, <-Hog; simpl.
    destruct Hacts as [(-> & _ & ?)|(k & e & _ & -> & _ & ?)]; auto.
Qed.

Lemma not_newer_le c key epoch st :
  known_epoch_is_newer c key epoch = false -> states c !! key = Some st ->
  freshness_epoch st <= epoch.
Proof.
  unfold known_epoch_is_newer, is_some_and. intros Hn Hst. rewrite Hst in Hn.
  apply Z.ltb_ge in Hn. lia.
Qed.

Lemma epochs_le_set c key st :
  (forall st0, states c !! key = Some st0 -> freshness_epoch st0 <= freshness_epoch st) ->
  epochs_le c (set_freshness c key st).
Proof.
  intros Hle k st0 Hk. simpl. rewrite lookup_insert. case_decide; subst; eauto with lia.
Qed.

(** The state of a coordinator after the phase that all of [mark_fresh], [finish]
    and [invalidate_epoch] share: [key] gets a settled freshness, leaves the
    queue, and a refresh in flight for it is forgotten. *)
Definition settle c key st : coord :=
  drop_running_on (set_freshness (clear_cancelled_active (remove_delayed c key) key) key st) key.

Lemma settle_spec c key st :
  wf c -> (forall e g, st ≠ Refreshing e g) ->
  (forall st0, states c !! key = Some st0 -> freshness_epoch st0 <= freshness_epoch st) ->
  wf (settle c key st) /\ epochs_le c (settle c key st)
  /\ operation_generation (settle c key st) = operation_generation c
  /\ active (settle c key st) = active c
  /\ states (settle c key st) = <[key := st]> (states c)
  /\ running (settle c key st) = (if is_running c key then None else running c)
  /\ key ∉ delayed (settle c key st).
Proof.
  intros Hc Hst Hle. unfold settle.
  assert (wf (clear_cancelled_active (remove_delayed c key) key)) as Hc1
    by (apply wf_clear_cancelled, wf_remove_delayed, Hc).
  rewrite clear_cancelled_eq, remove_delayed_eq in * by (by eapply wf_members).
  assert (key ∉ List.filter (fun q => negb (bool_decide (q = key))) (delayed c)) as Hnin
    by (rewrite filter_ne_elem; tauto).
  pose proof (wf_overwrite None _ key st Hc1 Hst ltac:(done)) as Hwf. simpl in Hwf.
  unfold drop_running_on in *.
  match goal with |- context [is_running (set_freshness ?c1 key st) key] =>
    change (is_running (set_freshness c1 key st) key) with (is_running c key) in * end.
  split_and!; [apply Hwf; by case_decide|..]; destruct (is_running c key); simpl; try done;
    apply (epochs_le_set c key st Hle).
Qed.

Lemma cancel_inflight c r :
  running c = Some r -> net_run (inflight c) [cancel_of r] = Some None.
Proof. unfold inflight. intros ->; simpl. by rewrite decide_True. Qed.

Lemma running_epoch_le c key epoch r :
  wf c -> known_epoch_is_newer c key epoch = false -> running c = Some r -> r_key r = key ->
  r_epoch r <= epoch.
Proof.
  intros Hc Hn Hr <-. destruct (wf_running _ Hc r Hr) as [Hs _].
  by apply (not_newer_le c _ _ _ Hn Hs).
Qed.

(** [set_freshness] commutes with the queue helpers. *)
Lemma remove_delayed_set c k k' st :
  remove_delayed (set_freshness c k st) k' = set_freshness (remove_delayed c k') k st.
Proof. unfold remove_delayed. simpl. by case_decide. Qed.

Lemma clear_cancelled_set c k k' st :
  clear_cancelled_active (set_freshness c k st) k' = set_freshness (clear_cancelled_active c k') k st.
Proof. unfold clear_cancelled_active. simpl. by case_decide. Qed.

Lemma helpers_running c k :
  running (clear_cancelled_active (remove_delayed c k) k) = running c.
Proof. unfold clear_cancelled_active, remove_delayed. by repeat case_decide. Qed.

Ltac by_schedule cancels :=
  match goal with
  | |- op_effect ?n ?c ?l _ =>
      match l with
      | context [schedule_next ?c1 ?sk] =>
          let Hs := fresh in
          pose proof (op_effect_schedule n c c1 cancels sk) as Hs;
          rewrite <-?app_assoc in Hs;
          destruct (schedule_next c1 sk); simpl in *; apply Hs; clear Hs; try done
      end
  end.

Lemma mark_fresh_effect c key epoch :
  wf c -> op_effect (inflight c) c (mark_fresh c key epoch).1 (mark_fresh c key epoch).2.
Proof.
  intros Hc. unfold mark_fresh. destruct (known_epoch_is_newer c key epoch) eqn:Hn.
  { by apply op_effect_refl. }
  destruct (settle_spec c key (Fresh epoch) Hc) as (Hwf & Hep & Hog & Hact & _ & Hrun & _);
    [done|by intros ? ?%(not_newer_le c key epoch _ Hn)|].
  rewrite remove_delayed_set, clear_cancelled_set. simpl. rewrite helpers_running.
  unfold settle, drop_running_on, is_running in *; simpl in *. rewrite helpers_running in *.
  destruct (running c) as [r|] eqn:Hr; simpl in *.
  - case_bool_decide as Hk.
    + rewrite decide_True by eauto using running_epoch_le.
      by_schedule [cancel_of r]. exact (cancel_inflight c r Hr).
    + rewrite decide_False by naive_solver.
      by_schedule (@nil LiveTailSchedulerAction).
      unfold inflight; simpl. by rewrite helpers_running.
  - by_schedule (@nil LiveTailSchedulerAction).
    unfold inflight; simpl. by rewrite helpers_running, Hr.
Qed.

Lemma finish_state_epoch outcome b e : freshness_epoch (finish_state outcome b e) = e.
Proof. by destruct outcome, b. Qed.

Lemma finish_settle c key st :
  is_running c key = true ->
  clear_cancelled_active (remove_delayed (set_freshness (c <| running := None |>) key st) key) key
  = settle c key st.
Proof.
  intros Hr. unfold settle, drop_running_on.
  rewrite remove_delayed_set, clear_cancelled_set. unfold is_running in *; simpl.
  rewrite helpers_running, Hr. unfold remove_delayed. simpl.
  case_decide; unfold clear_cancelled_active; simpl; by case_decide.
Qed.

Lemma wf_set_cancelled c key e :
  wf c -> active c = Some key -> states c !! key = Some (Unproven e) ->
  wf (c <| cancelled_active := Some key |>).
Proof. intros [] Ha Hs. split; simpl; try done. intros k [= <-]. eauto. Qed.

Lemma finish_effect c key epoch generation outcome :
  wf c ->
  op_effect (net_before c (OpFinish key epoch generation outcome)) c
    (finish c key epoch generation outcome).1 (finish c key epoch generation outcome).2.
Proof.
  intros Hc. unfold finish, net_before, matches_running.
  destruct (is_some_and (running c) _) eqn:Hm; simpl; [|by apply op_effect_refl].
  destruct (running c) as [r|] eqn:Hr; [|done]. simpl in Hm.
  apply andb_true_iff in Hm as [[Hkey%bool_decide_eq_true Hep%Z.eqb_eq]%andb_true_iff _].
  destruct (wf_running _ Hc r Hr) as [Hrs _]. rewrite Hkey, Hep in Hrs.
  assert (is_running c key = true) as Hrun by (apply is_running_true; eauto).
  rewrite finish_settle by done.
  set (st := finish_state outcome (bool_decide (active c = Some key)) epoch).
  destruct (settle_spec c key st Hc) as (Hwf & Hle & Hog & Hact & Hst & Hrun' & _).
  { intros e g. unfold st, finish_state. by repeat case_match. }
  { intros st0. rewrite Hrs. intros [= <-]. unfold st. rewrite finish_state_epoch. simpl; lia. }
  rewrite Hrun in Hrun'.
  destruct (bool_decide (outcome = Cancelled)) eqn:Ho; simpl.
  2:{ by_schedule (@nil LiveTailSchedulerAction). unfold inflight. by rewrite Hrun'. }
  destruct (bool_decide (active c = Some key)) eqn:Ha; simpl.
  2:{ by_schedule (@nil LiveTailSchedulerAction). unfold inflight. by rewrite Hrun'. }
  apply bool_decide_eq_true in Ho, Ha.
  by_schedule (@nil LiveTailSchedulerAction).
  - eapply wf_set_cancelled; [done|congruence|]. rewrite Hst, lookup_insert_eq.
    unfold st. by rewrite Ho.
  - unfold inflight; simpl. by rewrite Hrun'.
Qed.

(** The phase [invalidate_epoch] starts with: a refresh of the replaced epoch is
    fenced and [key] gets its new freshness. *)
Definition replace c key st : coord :=
  drop_running_on (set_freshness (clear_cancelled_active c key) key st) key.

Lemma fence_replace c key epoch st :
  (forall r, running c = Some r -> r_key r = key -> r_epoch r ≠ epoch) ->
  set_freshness (fence_replaced_running (clear_cancelled_active c key) key epoch).1 key st
  = replace c key st
  /\ (fence_replaced_running (clear_cancelled_active c key) key epoch).2
    = (if is_running c key then cancel_of <$> running c else None).
Proof.
  intros Hne. unfold fence_replaced_running, replace, drop_running_on, is_running.
  rewrite clear_cancelled_eq; simpl.
  destruct (running c) as [r|]; simpl; [|done].
  case_bool_decide as Hk; case_decide; naive_solver.
Qed.

Lemma replace_spec c key st :
  wf c -> (forall e g, st ≠ Refreshing e g) ->
  (forall st0, states c !! key = Some st0 -> freshness_epoch st0 <= freshness_epoch st) ->
  (key ∈ delayed c -> exists e, st = Deferred e) ->
  wf (replace c key st) /\ epochs_le c (replace c key st)
  /\ operation_generation (replace c key st) = operation_generation c
  /\ active (replace c key st) = active c
  /\ states (replace c key st) = <[key := st]> (states c)
  /\ running (replace c key st) = (if is_running c key then None else running c).
Proof.
  intros Hc Hst Hle Hq. unfold replace.
  pose proof (wf_clear_cancelled c key Hc) as Hc1. rewrite clear_cancelled_eq in *.
  pose proof (wf_overwrite None _ key st Hc1 Hst Hq) as Hwf. simpl in Hwf.
  unfold drop_running_on in *.
  match goal with |- context [is_running (set_freshness ?c1 key st) key] =>
    change (is_running (set_freshness c1 key st) key) with (is_running c key) in * end.
  split_and!; [apply Hwf; by case_decide|..]; destruct (is_running c key); simpl; try done;
    apply (epochs_le_set c key st Hle).
Qed.

Lemma invalidate_effect c key epoch :
  wf c ->
  op_effect (inflight c) c (invalidate_epoch c key epoch).1 (invalidate_epoch c key epoch).2.
Proof.
  intros Hc. unfold invalidate_epoch. destruct (_ || _) eqn:Hg; [by apply op_effect_refl|].
  apply orb_false_iff in Hg as [Hn Hne].
  set (st := if bool_decide (active c = Some key) then Unproven epoch else Deferred epoch).
  destruct (fence_replace c key epoch st) as [Hf1 Hf2].
  { intros r Hr <- <-. destruct (wf_running _ Hc r Hr) as [Hrs _].
    rewrite Hrs in Hne. simpl in Hne. lia. }
  destruct (replace_spec c key st Hc) as (Hwf & Hle & Hog & Hact & Hst & Hrun).
  { intros e g. unfold st. by case_bool_decide. }
  { intros ? ?%(not_newer_le c key epoch _ Hn). unfold st. case_bool_decide; simpl; lia. }
  { intros Hq. unfold st. rewrite bool_decide_eq_false_2 by (by eapply wf_not_active). eauto. }
  destruct (fence_replaced_running (clear_cancelled_active c key) key epoch) as [c2 fenced].
  simpl in Hf1, Hf2. subst fenced.
  destruct (bool_decide (active c = Some key)) eqn:Ha; unfold st in *; rewrite Hf1; clear Hf1.
  - apply bool_decide_eq_true in Ha.
    destruct (preempt_spec None (replace c key (Unproven epoch)) Hwf)
      as (Hwf' & Hr' & Hact' & Hog' & Hep' & Hcan & _).
    { rewrite Hact, Hrun, Ha. intros r. destruct (is_running c key) eqn:E; [done|].
      intros Hr [= Hk]. apply not_true_iff_false in E. destruct E. apply is_running_true; eauto. }
    pose proof (wf_remove_delayed _ key Hwf') as Hwf3.
    destruct (remove_delayed_fields (preempt_running (replace c key (Unproven epoch))).1 key)
      as (_ & Hst3 & Hr3 & _ & Hog3).
    destruct (preempt_running _) as [c3 cancel]; simpl in *. subst cancel.
    by_schedule (opt_list (if is_running c key then cancel_of <$> running c else None)
      ++ opt_list (cancel_of <$> running (replace c key (Unproven epoch)))).
    + rewrite Hrun. unfold inflight at 2. rewrite Hr3, Hr'.
      destruct (running c) as [r|] eqn:Hr.
      * destruct (is_running c key); exact (cancel_inflight c r Hr).
      * unfold inflight. rewrite Hr. by destruct (is_running c key).
    + etrans; [done|]. apply same_epochs_le. intros k. by rewrite Hst3.
    + by destruct (is_running c key), (running c), (running (replace c key (Unproven epoch))).
    + congruence.
  - apply bool_decide_eq_false in Ha.
    assert (wf (queue_delayed (replace c key (Deferred epoch)) key)) as Hwf'.
    { eapply wf_queue_delayed; [done| |congruence]. by rewrite Hst, lookup_insert_eq. }
    destruct (queue_delayed_fields (replace c key (Deferred epoch)) key)
      as (_ & Hst3 & Hr3 & _ & Hog3).
    by_schedule (opt_list (if is_running c key then cancel_of <$> running c else None)).
    + unfold inflight at 2. rewrite Hr3, Hrun.
      destruct (is_running c key) eqn:E; [|done].
      apply is_running_true in E as (r & Hr & _). rewrite Hr. exact (cancel_inflight c r Hr).
    + etrans; [done|]. apply same_epochs_le. intros k. by rewrite Hst3.
    + by destruct (is_running c key), (running c).
    + congruence.
Qed.

(** ** Activation *)

Lemma wf_with_weaken oa c : wf c -> @wf_with oa c.
Proof. intros []. split; try done. naive_solver. Qed.

(** The previously active key may be forgotten once it cannot be marked cancelled. *)
Lemma wf_with_strengthen oa c :
  @wf_with oa c -> (forall k, oa = Some k -> active c ≠ Some k -> cancelled_active c ≠ Some k) ->
  wf c.
Proof.
  intros [] Hoa. split; try done. intros k Hk. destruct (wf_cancelled0 k Hk) as [[?|Ho] ?]; [eauto|].
  destruct (decide (active c = Some k)); [eauto|]. by destruct (Hoa k Ho).
Qed.

(** First phase of [activate]: [key] becomes active and leaves the queue. *)
Lemma wf_activate_key c key :
  wf c -> @wf_with (active c) (remove_delayed (c <| active := Some key |>) key).
Proof.
  intros Hc. rewrite remove_delayed_eq by (by apply (wf_members _ Hc)). destruct Hc.
  split; simpl; try done; [by apply filter_ne_nodup|..].
  - intros k. by rewrite filter_ne_elem, elem_of_difference, not_elem_of_singleton, wf_members0.
  - intros k [??]%filter_ne_elem. eauto.
  - intros k [??]%filter_ne_elem. congruence.
  - naive_solver.
Qed.

(** Last phase of [activate]: the previously active key is deferred. *)
Lemma defer_spec c old key :
  @wf_with (Some old) c -> old ≠ key -> active c = Some key -> is_running c old = false ->
  let c' := defer_if_pending c old in
  wf c' /\ active c' = Some key /\ running c' = running c /\ same_epochs c c'
  /\ operation_generation c' = operation_generation c
  /\ states c' !! key = states c !! key
  /\ (cancelled_active c ≠ Some key -> cancelled_active c' ≠ Some key).
Proof.
  intros Hc Hne Ha Hnr c'. unfold c', defer_if_pending.
  destruct (recoverable_epoch c old) as [e|] eqn:Hrec.
  - set (c1 := clear_cancelled_active (set_freshness c old (Deferred e)) old).
    assert (exists st, states c !! old = Some st /\ freshness_epoch st = e) as (st & Hst & He).
    { unfold recoverable_epoch in Hrec. step_cases; eauto. }
    assert (wf c1) as Hwf.
    { unfold c1. rewrite clear_cancelled_set.
      assert (@wf_with (Some old) (clear_cancelled_active c old)) as Hc1.
      { rewrite clear_cancelled_eq. destruct Hc. split; simpl; try done.
        intros k. case_decide; naive_solver. }
      apply (wf_overwrite _ _ old (Deferred e)) in Hc1; [|done|eauto|].
      2:{ rewrite clear_cancelled_eq; simpl. by case_decide. }
      unfold drop_running_on in Hc1. rewrite clear_cancelled_eq in *. simpl in *.
      unfold is_running in *; simpl in *. rewrite Hnr in Hc1.
      eapply wf_with_strengthen; [done|]. intros k [= <-] _. simpl. by case_decide. }
    destruct (queue_delayed_fields c1 old) as (-> & -> & -> & -> & ->).
    assert (states c1 !! old = Some (Deferred e) /\ active c1 = Some key) as [Hd Ha'].
    { unfold c1. rewrite clear_cancelled_set, clear_cancelled_eq; simpl.
      by rewrite lookup_insert_eq. }
    split_and!; [eapply wf_queue_delayed; [done..|congruence]|done|..];
      unfold c1; rewrite clear_cancelled_set, clear_cancelled_eq; simpl; try done.
    + intros k. rewrite (proj1 (proj2 (queue_delayed_fields _ _))); simpl. rewrite lookup_insert.
      case_decide; subst; [|done]. by rewrite Hst.
    + by rewrite lookup_insert_ne.
    + by case_decide.
  - split_and!; try done. eapply wf_with_strengthen; [done|].
    intros k [= <-] _ [_ [e He]]%(wf_cancelled _ Hc).
    unfold recoverable_epoch in Hrec. by rewrite He in Hrec.
Qed.

(** After the freshness and preemption phases, the active key is settled: it is
    fresh, or it is being refreshed, or it is unproven with the network idle, or
    no serial is left. *)
Definition key_settled c key epoch : Prop :=
  states c !! key = Some (Fresh epoch)
  \/ (exists g, states c !! key = Some (Refreshing epoch g))
  \/ (states c !! key = Some (Unproven epoch) /\ running c = None)
  \/ (serial_exhausted c = true /\ states c !! key = Some (Retryable epoch)).

Record activating oa c0 key epoch c (cancel : option LiveTailSchedulerAction) : Prop := {
  ac_wf : @wf_with oa c;
  ac_active : active c = Some key;
  ac_og : operation_generation c = operation_generation c0;
  ac_epochs : epochs_le c0 c;
  ac_cancelled : cancelled_active c ≠ Some key;
  ac_net : net_run (inflight c0) (opt_list cancel) = Some (inflight c);
  ac_started : started_generations (opt_list cancel) = [];
  ac_settled : key_settled c key epoch;
}.

Lemma activate_overwrite oa c key epoch :
  @wf_with oa c -> active c = Some key -> key ∉ delayed c ->
  (forall st0, states c !! key = Some st0 -> freshness_epoch st0 <= epoch) ->
  (forall r, running c = Some r -> r_key r = key -> r_epoch r ≠ epoch) ->
  let c1 := clear_cancelled_active (set_freshness c key (Unproven epoch)) key in
  let '(c2, cancel) := activate_preempt c1 key epoch in
  activating oa c key epoch c2 cancel.
Proof.
  intros Hc Ha Hq Hle Hre c1.
  assert (@wf_with oa (clear_cancelled_active c key)) as Hcl.
  { rewrite clear_cancelled_eq. destruct Hc. split; simpl; try done.
    intros k. case_decide; naive_solver. }
  assert (@wf_with oa (drop_running_on c1 key)) as Hwf.
  { unfold c1. rewrite clear_cancelled_set. apply wf_overwrite; [done|done|..];
      rewrite clear_cancelled_eq; simpl; [done|by case_decide]. }
  assert (epochs_le c c1 /\ running c1 = running c /\ active c1 = Some key
    /\ operation_generation c1 = operation_generation c
    /\ states c1 = <[key := Unproven epoch]> (states c)
    /\ cancelled_active c1 ≠ Some key) as (Hep & Hr1 & Ha1 & Hog & Hst & Hnc).
  { unfold c1. rewrite clear_cancelled_eq. split_and!; simpl; try done.
    - by apply (epochs_le_set c key (Unproven epoch)).
    - by case_decide. }
  clearbody c1. unfold activate_preempt, unproven_epoch. rewrite Hst, lookup_insert_eq, Hr1.
  rewrite bool_decide_eq_true_2 by eauto. simpl.
  assert (key_settled (c1 <| running := None |>) key epoch) as Hks.
  { right; right; left. simpl. by rewrite Hst, lookup_insert_eq. }
  unfold drop_running_on, is_running in Hwf. rewrite Hr1 in Hwf.
  destruct (running c) as [r|] eqn:Hr; simpl in *.
  2:{ split; try done; unfold inflight.
      - by rewrite Hr1, Hr.
      - unfold key_settled in *. naive_solver. }
  case_bool_decide as Hk; simpl.
  - destruct (Z.eqb_spec (r_epoch r) epoch) as [?|Hne]; [by destruct (Hre r)|]. simpl.
    unfold preempt_running. rewrite Hr1; simpl. rewrite Hst, Hk, lookup_insert_eq; simpl.
    destruct (Z.eqb_spec epoch (r_epoch r)) as [?|_]; [congruence|].
    split; try done. simpl. exact (cancel_inflight c r Hr).
  - destruct (preempt_spec oa c1 Hwf) as (Hwf' & Hr' & Ha' & Hog' & Hep' & Hcan & Hsame & Hca').
    { rewrite Hr1. intros ? [= <-]. congruence. }
    destruct (preempt_running c1) as [c2 cancel]; simpl in *. subst cancel. rewrite Hr1.
    assert (states c2 !! key = Some (Unproven epoch)) as Hk2.
    { rewrite Hsame, Hst; [apply lookup_insert_eq|].
      unfold is_running. rewrite Hr1. simpl. by apply bool_decide_eq_false. }
    split; try done; try congruence.
    + etrans; [done|by apply same_epochs_le].
    + unfold inflight at 2. rewrite Hr'. exact (cancel_inflight c r Hr).
    + right; right; left. done.
Qed.

(** A key whose freshness is kept only loses a cancellation mark. *)
Lemma activate_keep oa c key epoch :
  @wf_with oa c -> active c = Some key ->
  (states c !! key = Some (Unproven epoch) \/ states c !! key = Some (Fresh epoch)
   \/ (exists g, states c !! key = Some (Refreshing epoch g))
   \/ (serial_exhausted c = true /\ states c !! key = Some (Retryable epoch))) ->
  let '(c2, cancel) := activate_preempt (clear_cancelled_active c key) key epoch in
  activating oa c key epoch c2 cancel.
Proof.
  intros Hc Ha Hst. rewrite clear_cancelled_eq.
  set (c1 := c <| cancelled_active ::= _ |>).
  assert (@wf_with oa c1) as Hwf.
  { destruct Hc. split; simpl; try done. intros k. case_decide; naive_solver. }
  assert (cancelled_active c1 ≠ Some key) as Hnc by (simpl; by case_decide).
  unfold activate_preempt, unproven_epoch. simpl.
  destruct Hst as [Hst|[Hst|[[g Hst]|[Hex Hst]]]]; rewrite Hst; simpl.
  2-4: split; try done; try (by apply same_epochs_le);
    unfold key_settled, serial_exhausted in *; simpl; eauto 6.
  destruct (running c) as [r|] eqn:Hr; simpl.
  2:{ split; try done; [by apply same_epochs_le|]. unfold key_settled; simpl. auto. }
  destruct (wf_running _ Hc r Hr) as [Hrs _].
  assert (r_key r ≠ key) as Hk by congruence.
  rewrite bool_decide_eq_false_2 by done. simpl.
  destruct (preempt_spec oa c1 Hwf) as (Hwf' & Hr' & Ha' & Hog' & Hep' & Hcan & Hsame & Hca').
  { simpl. rewrite Hr, Ha. intros ? [= <-]. congruence. }
  destruct (preempt_running c1) as [c2 cancel]; simpl in *. subst cancel. rewrite Hr.
  assert (states c2 !! key = Some (Unproven epoch)) as Hk2.
  { rewrite Hsame; [done|]. unfold is_running; simpl. rewrite Hr; simpl.
    by apply bool_decide_eq_false. }
  split; try done; try congruence.
  - by apply same_epochs_le.
  - unfold inflight at 2. rewrite Hr'. exact (cancel_inflight c r Hr).
  - right; right; left. done.
Qed.

Lemma activate_phases oa c key epoch :
  @wf_with oa c -> active c = Some key -> key ∉ delayed c ->
  (forall st0, states c !! key = Some st0 -> freshness_epoch st0 <= epoch) ->
  let '(c2, cancel) := activate_preempt (activate_freshness c key epoch) key epoch in
  activating oa c key epoch c2 cancel.
Proof.
  intros Hc Ha Hq Hle. unfold activate_freshness.
  destruct (serial_exhausted c && bool_decide (states c !! key = Some (Retryable epoch))) eqn:Hp.
  { simpl. apply andb_true_iff in Hp as [? ?%bool_decide_eq_true].
    apply activate_keep; auto 6. }
  simpl. destruct (states c !! key) as [st|] eqn:Hst.
  2:{ apply activate_overwrite; try done.
      - by rewrite Hst.
      - intros r Hr <- _. destruct (wf_running _ Hc r Hr) as [Hrs _]. congruence. }
  assert (forall r, running c = Some r -> r_key r = key -> freshness_epoch st ≠ epoch ->
    r_epoch r ≠ epoch) as Hre.
  { intros r Hr <- Hne. destruct (wf_running _ Hc r Hr) as [Hrs _].
    rewrite Hrs in Hst. by simplify_eq/=. }
  assert (forall r, running c = Some r -> r_key r = key -> exists e g, st = Refreshing e g) as Hrs.
  { intros r Hr <-. destruct (wf_running _ Hc r Hr) as [Hrs _]. naive_solver. }
  rewrite <-Hst in Hle.
  destruct st; simpl; try (destruct (Z.eqb_spec epoch0 epoch) as [->|]; simpl);
    first [apply activate_keep; by eauto 6 | apply activate_overwrite; try done;
      intros r Hr Hk; first [by apply (Hre r) | by destruct (Hrs r Hr Hk) as (?&?&?)]].
Qed.

Lemma activate_defer_spec c0 c key epoch cancel oa :
  activating oa c0 key epoch c cancel ->
  activating None c0 key epoch (activate_defer c oa key) cancel.
Proof.
  intros Hac. unfold activate_defer. destruct oa as [old|]; [|done].
  case_bool_decide as Hk; simpl.
  { subst. destruct Hac. split; try done. eapply wf_with_strengthen; [done|]. naive_solver. }
  destruct Hac. destruct (is_running c old) eqn:Hr; simpl.
  - split; try done. eapply wf_with_strengthen; [done|].
    intros k [= <-] _ [_ [e He]]%(wf_cancelled _ ac_wf0).
    apply is_running_true in Hr as (r & Hr & <-).
    destruct (wf_running _ ac_wf0 r Hr) as [? _]. congruence.
  - destruct (defer_spec c old key) as (Hwf & Ha & Hrn & Hep & Hog & Hst & Hca); [done..|].
    split; try done; try congruence.
    + etrans; [done|by apply same_epochs_le].
    + by apply Hca.
    + unfold inflight in *. by rewrite Hrn.
    + unfold key_settled, serial_exhausted in *. by rewrite Hst, Hrn, Hog.
Qed.

(** [activate], up to its scheduling pass. *)
Lemma activate_split c key epoch :
  wf c -> known_epoch_is_newer c key epoch = false ->
  exists c1 cancel,
    activate c key epoch = ((schedule_next c1 None).1, opt_list cancel ++ (schedule_next c1 None).2)
    /\ activating None c key epoch c1 cancel.
Proof.
  intros Hc Hn. unfold activate. rewrite Hn.
  set (c0 := remove_delayed (c <| active := Some key |>) key).
  assert ((key ∉ delayed c0) /\ states c0 = states c /\ running c0 = running c
    /\ operation_generation c0 = operation_generation c /\ active c0 = Some key)
    as (Hq & Hst & Hr & Hog & Ha).
  { unfold c0. rewrite remove_delayed_eq by (by apply (wf_members _ Hc)). simpl.
    rewrite filter_ne_elem. naive_solver. }
  pose proof (activate_phases (active c) c0 key epoch) as Hph.
  destruct (activate_preempt (activate_freshness c0 key epoch) key epoch) as [c1 cancel].
  exists (activate_defer c1 (active c) key), cancel. split; [by destruct (schedule_next _ _)|].
  apply activate_defer_spec. destruct Hph; try done.
  - by apply wf_activate_key.
  - intros st0. rewrite Hst. by apply not_newer_le.
  - split; try done; try congruence.
    + transitivity c0; [|done]. apply same_epochs_le. intros k. by rewrite Hst.
    + unfold inflight in *. by rewrite <-Hr.
Qed.

Lemma activate_effect c key epoch :
  wf c -> op_effect (inflight c) c (activate c key epoch).1 (activate c key epoch).2.
Proof.
  intros Hc. destruct (known_epoch_is_newer c key epoch) eqn:Hn.
  { unfold activate. rewrite Hn. by apply op_effect_refl. }
  destruct (activate_split c key epoch Hc Hn) as (c1 & cancel & -> & []).
  by apply op_effect_schedule.
Qed.

Lemma step_effect c op :
  wf c -> op_effect (net_before c op) c (step c op).1 (step c op).2.
Proof.
  intros Hc. destruct op; simpl;
    auto using activate_effect, mark_fresh_effect, invalidate_effect.
  by apply finish_effect.
Qed.

Lemma run_wf c ops : wf c -> wf (run step c ops).1.
Proof. apply run_invariant. intros. by eapply oe_wf, step_effect. Qed.

(** ** Properties of every run *)

(** C3: in every state the coordinator can reach, the actions an operation emits
    follow the one-refresh-at-a-time protocol of the network they drive: a [Start]
    is only emitted to an idle network, a [CancelNetwork] names exactly the refresh
    in flight, and the refresh the coordinator then records as running is the one
    the network is left with. *)
Theorem livetail_single_flight (ops : list Op) (op : Op) :
  let c := (run step new ops).1 in
  net_run (net_before c op) (step c op).2 = Some (inflight (step c op).1).
Proof. simpl. eapply oe_net, step_effect, run_wf, wf_new. Qed.

Lemma run_generations c ops :
  wf c ->
  started_generations (run step c ops).2
  = seqZ (operation_generation c + 1)
      (operation_generation (run step c ops).1 - operation_generation c)
  /\ operation_generation c <= operation_generation (run step c ops).1.
Proof.
  revert c; induction ops as [|op ops IH]; intros c Hc.
  { simpl. rewrite Z.sub_diag. split; [done|lia]. }
  rewrite run_effects_cons, run_cons.
  destruct (step_effect c op Hc) as [Hwf _ _ Hg]. destruct (IH _ Hwf) as [IH1 IH2].
  unfold started_generations in *. rewrite omap_app, IH1.
  destruct Hg as [[-> Hog]|[-> Hog]]; rewrite Hog in *; simpl; [by split|]. split; [|lia].
  symmetry. rewrite seqZ_cons by lia. do 2 f_equal; lia.
Qed.

(** the refreshes started over any run carry the generations 1, 2, 3, ... up
    to the coordinator's counter, each once and in order, and the counter never
    enters the domain bit: a refresh identity is never reused. *)
Theorem livetail_generations_unique (ops : list Op) :
  started_generations (run step new ops).2
  = seqZ 1 (operation_generation (run step new ops).1)
  /\ operation_generation (run step new ops).1 <= CAUSAL_PROJECTION_SERIAL_MAX.
Proof.
  split; [|apply (wf_generation _ (run_wf _ ops wf_new))].
  rewrite (proj1 (run_generations new ops wf_new)). simpl. f_equal; lia.
Qed.

(** no operation makes the known freshness epoch of a room go back, nor
    forgets a room. *)
Theorem livetail_epochs_monotone (ops more : list Op) (k : K) (st : LiveTailFreshnessState) :
  states (run step new ops).1 !! k = Some st ->
  exists st', states (run step new (ops ++ more)).1 !! k = Some st'
              /\ freshness_epoch st <= freshness_epoch st'.
Proof.
  intros Hk. rewrite run_app. pose proof (run_wf _ ops wf_new) as Hwf.
  revert Hk Hwf. generalize (run step new ops).1 as c. intros c Hk Hwf.
  cut (epochs_le c (run step c more).1); [by intros Hle; apply Hle|].
  clear Hk. revert c Hwf. induction more as [|op more IH]; intros c Hwf; [done|].
  rewrite run_cons. destruct (step_effect c op Hwf) as [? _ ? _]. etrans; [done|by apply IH].
Qed.

(** activating a room is never lost: unless a newer epoch is known or the 63
    bits of serials are used up, afterwards the room is fresh at that epoch or its
    refresh at that epoch is the one in flight, whatever was active, queued,
    cancelled or in flight before. *)
Theorem livetail_activate_progress (ops : list Op) (key : K) (epoch : Z) :
  let c := (run step new ops).1 in
  known_epoch_is_newer c key epoch = false -> serial_exhausted c = false ->
  let c' := (activate c key epoch).1 in
  states c' !! key = Some (Fresh epoch)
  \/ exists g, running c' = Some {| r_key := key; r_epoch := epoch; r_generation := g |}.
Proof.
  intros c Hn Hex. pose proof (run_wf _ ops wf_new) as Hc. fold c in Hc.
  destruct (activate_split c key epoch Hc Hn) as (c1 & cancel & -> & Hac). simpl.
  destruct Hac. pose proof (schedule_next_spec c1 None ac_wf0) as [Hwf _ _ Hkept _].
  destruct ac_settled0 as [Hf|[[g Hg]|[[Hu Hr]|[Hx _]]]].
  - left. by apply Hkept.
  - right. exists g. apply (wf_refreshing _ Hwf). by apply Hkept.
  - right. apply schedule_next_active; try done.
    + unfold serial_exhausted in *. by rewrite ac_og0.
    + by apply startable_active_Some.
  - unfold serial_exhausted in *. rewrite ac_og0 in Hx. congruence.
Qed.

End coordinator.

(** ** Witnesses and examples *)

(** A run in which room 1 is refreshing, room 2 preempts it, finishes, and room 1
    is picked up again with a new generation. *)
Definition demo_ops : list (@Op nat) :=
  [OpActivate 1%nat 1; OpActivate 2%nat 1; OpFinish 2%nat 1 2 Unchanged].

Example demo_actions :
  (run step new demo_ops).2
  = [Start 1%nat 1 1 128; CancelNetwork 1%nat 1; Start 2%nat 1 2 128; Start 1%nat 1 3 128].
Proof. vm_compute. reflexivity. Qed.

Lemma livetail_epochs_monotone_witness :
  exists st', states (run step new (demo_ops ++ [OpInvalidate 2%nat 5])).1 !! 2%nat = Some st'
              /\ 1 <= freshness_epoch st'.
Proof.
  apply (livetail_epochs_monotone demo_ops [OpInvalidate 2%nat 5] 2%nat (Fresh 1)).
  vm_compute. reflexivity.
Defined.

Lemma livetail_activate_progress_witness :
  let c' := (activate (run step new demo_ops).1 3%nat 4).1 in
  states c' !! 3%nat = Some (Fresh 4)
  \/ exists g, running c' = Some {| r_key := 3%nat; r_epoch := 4; r_generation := g |}.
Proof.
  apply (livetail_activate_progress demo_ops 3%nat 4); vm_compute; reflexivity.
Defined.

(** ** The transport envelope *)

Lemma domain_bit_eq : CAUSAL_PROJECTION_DOMAIN_BIT = 2 ^ 63.
Proof. reflexivity. Qed.

Lemma lor_domain_bit x :
  0 <= x < 2 ^ 63 -> Z.lor CAUSAL_PROJECTION_DOMAIN_BIT x = 2 ^ 63 + x.
Proof.
  intros Hx. rewrite domain_bit_eq, <-Z.add_lor_land.
  assert (Z.land (2 ^ 63) x = 0) as ->; [|lia].
  apply Z.bits_inj'. intros n Hn. rewrite Z.land_spec, Z.bits_0, Z.pow2_bits_eqb by lia.
  destruct (Z.eqb_spec 63 n) as [<-|]; [|done].
  rewrite andb_true_l, Z.testbit_eqb, Z.div_small by lia. done.
Qed.

Lemma land_serial_max x : Z.land x CAUSAL_PROJECTION_SERIAL_MAX = x mod 2 ^ 63.
Proof. apply (Z.land_ones x 63). lia. Qed.

Lemma land_domain_bit x :
  0 <= x < 2 ^ 64 -> (Z.land x CAUSAL_PROJECTION_DOMAIN_BIT =? 0) = (x <? 2 ^ 63).
Proof.
  intros Hx.
  assert (Z.land x CAUSAL_PROJECTION_DOMAIN_BIT = if x <? 2 ^ 63 then 0 else 2 ^ 63) as ->.
  2:{ by destruct (x <? 2 ^ 63). }
  rewrite domain_bit_eq. apply Z.bits_inj'. intros n Hn.
  rewrite Z.land_spec, Z.pow2_bits_eqb by lia.
  destruct (Z.eqb_spec 63 n) as [<-|Hne].
  - rewrite andb_true_r, Z.testbit_eqb by lia. destruct (Z.ltb_spec x (2 ^ 63)).
    + by rewrite Z.div_small by lia.
    + rewrite Z.pow2_bits_true by lia. replace (x / 2 ^ 63) with 1; [done|].
      apply Z.div_unique with (x - 2 ^ 63); lia.
  - rewrite andb_false_r. destruct (x <? 2 ^ 63); [by rewrite Z.bits_0|].
    by rewrite Z.pow2_bits_false by lia.
Qed.

(** the transport word of a repair operation is a bijection between the
    operation identities whose serial fits 63 bits and the 64-bit words: decoding
    an encoded identity gives it back, encoding a decoded word gives it back, and
    so the two serial namespaces can never collide on the wire. *)
Theorem causal_transport_bijective (id : CausalProjectionOperationId) (word : Z) :
  0 <= cp_serial id <= CAUSAL_PROJECTION_SERIAL_MAX -> u64 word ->
  u64 (encode_transport id) /\ decode_transport (encode_transport id) = id
  /\ 0 <= cp_serial (decode_transport word) <= CAUSAL_PROJECTION_SERIAL_MAX
  /\ encode_transport (decode_transport word) = word.
Proof.
  unfold CAUSAL_PROJECTION_SERIAL_MAX at 1 2. rewrite domain_bit_eq.
  unfold u64, U64_MAX. intros Hs Hw.
  unfold decode_transport, encode_transport. rewrite !land_serial_max.
  pose proof (Z.mod_pos_bound word (2 ^ 63) ltac:(lia)) as Hm.
  destruct id as [d s]; cbn [cp_domain cp_serial] in *.
  split; [|split; [|split]].
  - destruct d; cbv iota; rewrite ?lor_domain_bit by lia; lia.
  - destruct d; cbv iota; rewrite ?lor_domain_bit by lia; rewrite land_domain_bit by lia.
    + destruct (Z.ltb_spec s (2 ^ 63)); [|lia]. by rewrite Z.mod_small by lia.
    + destruct (Z.ltb_spec (2 ^ 63 + s) (2 ^ 63)); [lia|].
      by rewrite <-(Z.mod_unique (2 ^ 63 + s) (2 ^ 63) 1 s) by lia.
  - lia.
  - rewrite land_domain_bit by lia. destruct (Z.ltb_spec word (2 ^ 63)).
    + rewrite Z.mod_small; lia.
    + rewrite lor_domain_bit by lia.
      rewrite <-(Z.mod_unique word (2 ^ 63) 1 (word - 2 ^ 63)); lia.
Qed.

Lemma causal_transport_bijective_witness :
  decode_transport (encode_transport {| cp_domain := LiveTail; cp_serial := 7 |})
  = {| cp_domain := LiveTail; cp_serial := 7 |}.
Proof.
  apply (causal_transport_bijective {| cp_domain := LiveTail; cp_serial := 7 |} 12).
  - vm_compute. split; discriminate.
  - vm_compute. split; discriminate.
Defined.
