(* ===== verification/AppState.v ===== *)
(** Application state of [crates/koushi-state].

    The data types of [state/session.rs], [state/sliding_sync.rs], [state/sync.rs],
    [state/session_status.rs], [state/e2ee.rs], [state/history_export.rs] and
    [state/errors.rs], the effects of [effect.rs], the [AppState] record of
    [state/mod.rs], and the helpers of [reducer/mod.rs] that several reducers share,
    [clear_session_views] above all.

    A Rust enum [E] with variant [V] is the inductive [E] with constructor
    [<prefix>_V]; a [u64] is a [Z], a [String] a [string].  A slice of the state that
    no modelled handler reads beyond comparing it with its default is represented by
    its serialised content in [views], absent when it is the default. *)

From stdpp Require Import base list strings gmap.
From Stdlib Require Import ZArith.
From S2P Require Import Prelude.
Local Open Scope string_scope.
Local Open Scope list_scope.
Local Open Scope Z_scope.

(** ** Session types ([state/session.rs]) *)

Inductive SessionLockReason := Lock_UnknownToken (soft_logout : bool).

Record LoginAttemptId := { connection_id : Z; sequence : Z }.

Inductive CurrentDeviceTrustState := Trust_Unknown | Trust_Verified | Trust_Unverified.

Inductive VerificationMethodCapability :=
  | Capability_ExistingDeviceSas | Capability_RecoveryKey
  | Capability_SecurityPhrase | Capability_Bootstrap.

Inductive VerificationMethod :=
  | Method_ExistingDeviceSas | Method_RecoveryKey | Method_SecurityPhrase | Method_Bootstrap.

Inductive VerificationAccountKind := Account_ExistingIdentity | Account_NewIdentity | Account_Unknown.

Inductive VerificationGateFailureKind :=
  | GateFailure_Network | GateFailure_Cancelled | GateFailure_Mismatch | GateFailure_Forbidden
  | GateFailure_Timeout | GateFailure_Sdk | GateFailure_NoProofMethod.

Inductive VerificationGateRejectReason :=
  | Reject_ExistingIdentityWithoutProof | Reject_UserRejected.

Inductive RecoveryMethod := Recovery_RecoveryKey | Recovery_SecurityPhrase.

Inductive ProvisionalPhase :=
  | Phase_CheckingTrust
  | Phase_DiscoveringMethods
  | Phase_RecheckingTrust (failure : option VerificationGateFailureKind).

Record VerificationGateState := {
  methods : list VerificationMethodCapability;
  account_kind : VerificationAccountKind;
  gate_failure : option VerificationGateFailureKind;
}.

Inductive SessionAuthenticationMethod := Auth_Password | Auth_Sso | Auth_OAuth | Auth_Token | Auth_Unknown.

Record SessionInfo := {
  homeserver : string;
  user_id : string;
  device_id : string;
  authentication_method : SessionAuthenticationMethod;
}.

Record SasEmoji := { symbol : string; description : string }.

(** *** Sliding sync ([state/sliding_sync.rs]) *)

Record SlidingSyncPositiveEvidence := { observed_at_ms : Z }.

Inductive SlidingSyncCapabilityFailureKind :=
  | CapFailure_Unsupported | CapFailure_Unreachable | CapFailure_InvalidResponse.

Inductive SlidingSyncCapabilityResult :=
  | CapResult_Supported (evidence : SlidingSyncPositiveEvidence)
  | CapResult_Unsupported | CapResult_Unreachable | CapResult_InvalidResponse.

Inductive SlidingSyncAdmission :=
  | NewLogin (attempt_id : LoginAttemptId)
  | StoredSessionRestore (info : SessionInfo).

Inductive SlidingSyncAdmissionKind := Kind_NewLogin | Kind_StoredSessionRestore.

Definition admission_kind (a : SlidingSyncAdmission) : SlidingSyncAdmissionKind :=
  match a with
  | NewLogin _ => Kind_NewLogin
  | StoredSessionRestore _ => Kind_StoredSessionRestore
  end.

Inductive SlidingSyncAdmissionSource := Source_Network | Source_PositiveCache.

Inductive SlidingSyncRevalidationState :=
  | Reval_NotRequired
  | Reval_Pending (failure : SlidingSyncCapabilityFailureKind)
  | Reval_Checking (request_id : Z).

Inductive SlidingSyncCapabilityState :=
  | Cap_Unknown
  | Cap_Checking (account_epoch request_id : Z) (admission : SlidingSyncAdmission)
      (positive_evidence : option SlidingSyncPositiveEvidence)
  | Cap_Supported (account_epoch request_id : Z) (admission : SlidingSyncAdmission)
      (evidence : SlidingSyncPositiveEvidence) (revalidation : SlidingSyncRevalidationState)
  | Cap_Blocked (account_epoch request_id : Z) (admission : SlidingSyncAdmission)
      (failure : SlidingSyncCapabilityFailureKind)
      (positive_evidence : option SlidingSyncPositiveEvidence).

(** *** The session state machine *)

Inductive SessionState :=
  | Session_SignedOut
  | Session_Restoring
  | Session_SwitchingAccount (info : SessionInfo)
  | Session_Authenticating (homeserver : string) (attempt_id : LoginAttemptId)
  | Session_Provisional (info : SessionInfo) (phase : ProvisionalPhase)
  | Session_AwaitingVerification (info : SessionInfo) (gate : VerificationGateState)
  | Session_Verifying (info : SessionInfo) (gate : VerificationGateState)
      (method : VerificationMethod) (flow_id : Z) (sas_emojis : list SasEmoji)
  | Session_AwaitingBootstrapConfirmation (info : SessionInfo) (gate : VerificationGateState)
      (flow_id : Z)
  | Session_Rejecting (info : SessionInfo) (reason : VerificationGateRejectReason)
  | Session_Ready (info : SessionInfo)
  | Session_Locked (info : SessionInfo)
  | Session_CapabilityBlocked (info : SessionInfo) (failure : SlidingSyncCapabilityFailureKind)
  | Session_LoggingOut.

(** *** Secure backup gate *)

Inductive SecureBackupSetupIntent :=
  | Intent_InitialSetup
  | Intent_Reenable (confirmed : bool)
  | Intent_ResetRecoveryKey (confirmed : bool).

Inductive SecureBackupSetupAdmission :=
  | Admission_Allowed | Admission_ConfirmationRequired | Admission_FailedNoOp.

Inductive SecureBackupGateFailureKind :=
  | SBFailure_Network | SBFailure_RateLimited | SBFailure_InvalidRecoveryKey
  | SBFailure_BackupKeyMismatch | SBFailure_SecretStorageIncomplete | SBFailure_ArtifactDelivery
  | SBFailure_Forbidden | SBFailure_Timeout | SBFailure_Sdk | SBFailure_ServerResponse
  | SBFailure_Unauthorized.

Inductive SecureBackupFailureStage :=
  | Stage_InspectServerTrust | Stage_RoomKeyCounts | Stage_RecoveryKeyDelivery
  | Stage_CrossSigningStatus | Stage_InspectionDeadline | Stage_FirstSync | Stage_Unknown.

Inductive SecureBackupFailureTransport :=
  | Transport_NoResponse | Transport_HttpResponse | Transport_Timeout | Transport_Local.

Inductive SecureBackupMatrixErrorKind :=
  | Matrix_Forbidden | Matrix_UnknownToken | Matrix_MissingToken | Matrix_LimitExceeded
  | Matrix_Unrecognized | Matrix_BadJson | Matrix_NotFound | Matrix_Unknown.

Record SecureBackupFailureDetail := {
  stage : SecureBackupFailureStage;
  transport : SecureBackupFailureTransport;
  http_status : option Z;
  matrix_error_kind : option SecureBackupMatrixErrorKind;
  retryable : bool;
}.

Inductive PendingKeyCountBucket :=
  | Bucket_Zero | Bucket_One | Bucket_TwoToTen | Bucket_ElevenToOneHundred
  | Bucket_OverOneHundred | Bucket_Unknown.

Inductive SecureBackupGateState :=
  | SBGate_Inactive
  | SBGate_Checking
  | SBGate_ExistingBackupNeedsRecovery (failure : option SecureBackupGateFailureKind)
  | SBGate_SecureStorageIncomplete
  | SBGate_SetupRequired
  | SBGate_ExplicitlyDisabledRequiresSetup
  | SBGate_CreatingBackup
  | SBGate_RecoveryKeyDeliveryRequired
  | SBGate_UploadingExistingKeys (pending : PendingKeyCountBucket)
  | SBGate_DegradedRetrying (failure : SecureBackupGateFailureKind)
      (detail : option SecureBackupFailureDetail)
  | SBGate_BlockedFailed (failure : SecureBackupGateFailureKind)
      (detail : option SecureBackupFailureDetail)
  | SBGate_Ready.

(** [SecureBackupSetupIntent::admission] *)
Definition setup_intent_admission (intent : SecureBackupSetupIntent) (gate : SecureBackupGateState)
  : SecureBackupSetupAdmission :=
  match intent, gate with
  | Intent_InitialSetup, SBGate_SetupRequired => Admission_Allowed
  | Intent_ResetRecoveryKey true, SBGate_RecoveryKeyDeliveryRequired => Admission_Allowed
  | Intent_ResetRecoveryKey false, SBGate_RecoveryKeyDeliveryRequired =>
      Admission_ConfirmationRequired
  | Intent_Reenable true, SBGate_ExplicitlyDisabledRequiresSetup => Admission_Allowed
  | Intent_Reenable false, SBGate_ExplicitlyDisabledRequiresSetup =>
      Admission_ConfirmationRequired
  | _, _ => Admission_FailedNoOp
  end.

Definition secure_backup_failure_is_retryable (kind : SecureBackupGateFailureKind)
    (detail : option SecureBackupFailureDetail) : bool :=
  match detail with
  | Some detail => retryable detail
  | None =>
      match kind with
      | SBFailure_Network | SBFailure_RateLimited | SBFailure_Timeout => true
      | _ => false
      end
  end.

Definition backup_is_ready (gate : SecureBackupGateState) : bool :=
  match gate with
  | SBGate_Ready | SBGate_UploadingExistingKeys _ | SBGate_DegradedRetrying _ _ => true
  | _ => false
  end.

Definition admits_cached_reading (gate : SecureBackupGateState) : bool :=
  match gate with
  | SBGate_Inactive | SBGate_Checking | SBGate_Ready | SBGate_UploadingExistingKeys _ => true
  | SBGate_DegradedRetrying _ _ => true
  | SBGate_BlockedFailed failure detail => secure_backup_failure_is_retryable failure detail
  | SBGate_ExistingBackupNeedsRecovery _ | SBGate_SecureStorageIncomplete | SBGate_SetupRequired
  | SBGate_ExplicitlyDisabledRequiresSetup | SBGate_CreatingBackup
  | SBGate_RecoveryKeyDeliveryRequired => false
  end.

(** [SecureBackupGateState::failure] *)
Definition secure_backup_gate_failure (gate : SecureBackupGateState)
  : option (SecureBackupGateFailureKind * option SecureBackupFailureDetail) :=
  match gate with
  | SBGate_ExistingBackupNeedsRecovery failure => (fun kind => (kind, None)) <$> failure
  | SBGate_DegradedRetrying failure detail | SBGate_BlockedFailed failure detail =>
      Some (failure, detail)
  | _ => None
  end.

(** *** Device cleanup *)

Inductive DeviceCleanupAuthMode := Cleanup_Legacy | Cleanup_OAuth | Cleanup_Unknown.
Inductive DeviceCleanupOfferReason := Offer_RecoveryFailed | Offer_NoProofMethod.
Inductive DeviceCleanupRemoteOutcome := Remote_Success | Remote_AlreadyAbsent.
Inductive DeviceCleanupFailureKind :=
  | CleanupFailure_Network | CleanupFailure_Forbidden | CleanupFailure_Timeout
  | CleanupFailure_Sdk | CleanupFailure_LocalData.
Inductive DeviceCleanupLocalMode :=
  | Local_RemoteRemoved (outcome : DeviceCleanupRemoteOutcome)
  | Local_RemoteMayRemain.

Inductive DeviceCleanupState :=
  | Cleanup_Idle
  | Cleanup_Offered (reason : DeviceCleanupOfferReason)
  | Cleanup_ResolvingRemote (request_id : Z)
  | Cleanup_RemovingRemote (request_id : Z) (auth_mode : DeviceCleanupAuthMode)
  | Cleanup_AwaitingUia (request_id flow_id : Z)
  | Cleanup_RemoteFailed (request_id : Z) (auth_mode : DeviceCleanupAuthMode)
      (failure : DeviceCleanupFailureKind)
  | Cleanup_ResettingLocal (request_id : Z) (mode : DeviceCleanupLocalMode)
  | Cleanup_LocalResetFailed (request_id : Z) (mode : DeviceCleanupLocalMode)
      (failure : DeviceCleanupFailureKind)
  | Cleanup_ErasingLocalAnyway (request_id : Z).

(** *** Authentication and account management *)

Inductive AuthFailureKind :=
  | AuthFailure_Network | AuthFailure_Unsupported | AuthFailure_Cancelled | AuthFailure_Forbidden
  | AuthFailure_Timeout | AuthFailure_Sdk | AuthFailure_InvalidCredentials
  | AuthFailure_RateLimited | AuthFailure_Store.

Inductive LoginFlowKind :=
  | Flow_Password | Flow_Sso | Flow_Oidc | Flow_Token | Flow_Unknown (kind : string).

Record LoginFlow := {
  flow_kind : LoginFlowKind;
  delegated_oidc_compatibility : bool;
  flow_display_name : option string;
}.

Record DelegatedAuthLinks := { registration_url : option string }.

Inductive AuthDiscoveryState :=
  | Discovery_Unknown
  | Discovery_Discovering (homeserver : string)
  | Discovery_Ready (homeserver : string) (flows : list LoginFlow) (delegated : DelegatedAuthLinks)
  | Discovery_Failed (homeserver : string) (kind : AuthFailureKind).

Inductive AccountManagementOperation := Op_ChangePassword | Op_DeactivateAccount.

Inductive AccountManagementState :=
  | Account_Idle
  | Account_Working (request_id : Z) (operation : AccountManagementOperation)
  | Account_AwaitingUia (request_id flow_id : Z) (operation : AccountManagementOperation)
  | Account_Succeeded (request_id : Z) (operation : AccountManagementOperation)
  | Account_Failed (request_id : Z) (operation : AccountManagementOperation)
      (kind : AuthFailureKind).

Inductive CapabilityState := CapabilityState_Unknown | CapabilityState_Enabled | CapabilityState_Disabled.

Record AccountManagementCapabilities := {
  change_password : CapabilityState;
  deactivate_account : CapabilityState;
}.

Inductive QrLoginState :=
  | Qr_Idle
  | Qr_CheckingCapability (request_id : Z)
  | Qr_Unavailable
  | Qr_Displaying (request_id : Z)
  | Qr_Scanning (request_id : Z)
  | Qr_Verified (request_id : Z)
  | Qr_Failed (request_id : Z) (kind : AuthFailureKind).

Inductive SoftLogoutReauthState :=
  | Reauth_Idle
  | Reauth_Authenticating (request_id : Z)
  | Reauth_Succeeded (request_id : Z)
  | Reauth_Failed (request_id : Z) (kind : AuthFailureKind).

Record ConversationAccess := {
  readable : bool;
  list_authoritative : bool;
  send_admitted : bool;
}.

(** *** Sync and errors ([state/sync.rs], [state/errors.rs]) *)

Inductive SyncState :=
  | Sync_Stopped | Sync_Starting | Sync_Running
  | Sync_Failed (reason : string) | Sync_Reconnecting (reason : string).

Inductive SyncLifecycleStatus :=
  | Status_Stopped | Status_Starting | Status_Running
  | Status_Failed (reason : string) | Status_Reconnecting (reason : string).

Record AppError := {
  error_code : string;
  error_message : string;
  recoverable : bool;
  error_reason : option AuthFailureKind;
}.

(** [LoginRequest] and [RecoveryRequest] of [action.rs]; an [AuthSecret] is its string. *)
Record LoginRequest := {
  login_homeserver : string;
  login_username : string;
  login_password : string;
  device_display_name : option string;
}.
Record RecoveryRequest := { recovery_secret : string }.

(** ** Current-session status ([state/session_status.rs]) *)

Definition SESSION_STATUS_FRESHNESS_MS : Z := 6 * 60 * 60 * 1000.
Definition SESSION_STATUS_FAILURE_BACKOFF_BASE_MS : Z := 60 * 1000.
Definition SESSION_STATUS_FAILURE_BACKOFF_CAP_MS : Z := 30 * 60 * 1000.
Definition SESSION_STATUS_SCHEDULED_REQUEST_ID_BASE : Z := Z.shiftl 1 62.

Definition session_status_failure_backoff_ms (consecutive_failures : Z) : Z :=
  let exponent := Z.min (u32_saturating_sub consecutive_failures 1) 16 in
  Z.min (u64_saturating_mul SESSION_STATUS_FAILURE_BACKOFF_BASE_MS (Z.shiftl 1 exponent))
    SESSION_STATUS_FAILURE_BACKOFF_CAP_MS.

Inductive SessionStatusRefreshTrigger :=
  | Trigger_Open | Trigger_Manual | Trigger_Scheduled | Trigger_Recovery.

Definition is_frontend_submittable (t : SessionStatusRefreshTrigger) : bool :=
  match t with Trigger_Open | Trigger_Manual => true | _ => false end.

Inductive SessionStatusCheckDecision :=
  | Decision_Started | Decision_Joined | Decision_Deferred | Decision_Dropped.

Record SessionStatusCheckStats := {
  stat_started : Z;
  stat_joined : Z;
  stat_deferred : Z;
  stat_dropped : Z;
  stat_succeeded : Z;
  stat_failed : Z;
}.
#[export] Instance stats_updatable : Updatable SessionStatusCheckStats := fun s =>
  {| stat_started := stat_started s; stat_joined := stat_joined s;
     stat_deferred := stat_deferred s; stat_dropped := stat_dropped s;
     stat_succeeded := stat_succeeded s; stat_failed := stat_failed s |}.

Record ArmedSessionStatusCheck := {
  armed_token : Z;
  armed_due_at_ms : Z;
  armed_trigger : SessionStatusRefreshTrigger;
}.

Record SessionStatusSchedule := {
  token : Z;
  armed : option ArmedSessionStatusCheck;
  next_request_seq : Z;
  stats : SessionStatusCheckStats;
  last_trigger : option SessionStatusRefreshTrigger;
  last_decision : option SessionStatusCheckDecision;
}.
#[export] Instance schedule_updatable : Updatable SessionStatusSchedule := fun s =>
  {| token := token s; armed := armed s; next_request_seq := next_request_seq s;
     stats := stats s; last_trigger := last_trigger s; last_decision := last_decision s |}.

(** [SessionStatusSchedule::retire] *)
Definition retire (s : SessionStatusSchedule) : SessionStatusSchedule :=
  s <| token ::= fun t => u64_wrapping_add t 1 |> <| armed := None |>.

(** [SessionStatusSchedule::next_request_id]: the advanced schedule and the id. *)
Definition next_request_id (s : SessionStatusSchedule) : SessionStatusSchedule * Z :=
  let s := s <| next_request_seq ::= fun n => u64_wrapping_add n 1 |> in
  (s, Z.lor SESSION_STATUS_SCHEDULED_REQUEST_ID_BASE
        (Z.land (next_request_seq s) (SESSION_STATUS_SCHEDULED_REQUEST_ID_BASE - 1))).

(** [SessionStatusSchedule::record] *)
Definition record (s : SessionStatusSchedule) (trigger : SessionStatusRefreshTrigger)
    (decision : SessionStatusCheckDecision) : SessionStatusSchedule :=
  let bump n := u64_saturating_add n 1 in
  let stats' :=
    match decision with
    | Decision_Started => (stats s) <| stat_started ::= bump |>
    | Decision_Joined => (stats s) <| stat_joined ::= bump |>
    | Decision_Deferred => (stats s) <| stat_deferred ::= bump |>
    | Decision_Dropped => (stats s) <| stat_dropped ::= bump |>
    end in
  s <| stats := stats' |> <| last_trigger := Some trigger |> <| last_decision := Some decision |>.

Inductive CurrentSessionSyncState :=
  | StatusSync_Stopped | StatusSync_Starting | StatusSync_Running | StatusSync_Error.
Inductive OwnIdentityVerification := Own_Missing | Own_Unverified | Own_Verified.
Inductive CurrentSessionBackupState := Backup_Ready | Backup_Disabled | Backup_Unknown.
Inductive CurrentSessionStatusFailureKind :=
  | StatusFailure_Sdk | StatusFailure_TimedOut | StatusFailure_Unavailable
  | StatusFailure_ConnectivityUnavailable | StatusFailure_Authentication
  | StatusFailure_Network | StatusFailure_Server.

Record CurrentSessionStatusDetails := {
  details_device_display_name : option string;
  details_device_id : string;
  details_authentication_method : SessionAuthenticationMethod;
  details_sync_state : CurrentSessionSyncState;
  is_cross_signed_by_owner : bool;
  own_identity_verification : OwnIdentityVerification;
  details_key_backup : CurrentSessionBackupState;
  details_verification : CurrentDeviceTrustState;
  checked_at_ms : Z;
}.

Inductive CurrentSessionStatusState :=
  | SessStatus_Idle
  | SessStatus_Checking (request_id : Z) (trigger : SessionStatusRefreshTrigger)
      (last_known_details : option CurrentSessionStatusDetails) (consecutive_failures : Z)
  | SessStatus_Ready (request_id : Z) (details : CurrentSessionStatusDetails)
  | SessStatus_Failed (request_id : Z) (kind : CurrentSessionStatusFailureKind) (checked_at : Z)
      (last_known_details : option CurrentSessionStatusDetails) (consecutive_failures : Z).

(** ** End-to-end encryption trust ([state/e2ee.rs]) *)

Inductive E2eeRecoveryState :=
  | E2eeRecovery_Unknown | E2eeRecovery_Enabled | E2eeRecovery_Disabled | E2eeRecovery_Incomplete.

Inductive TrustOperationFailureKind :=
  | TrustFailure_Cancelled | TrustFailure_Mismatch | TrustFailure_InvalidPassphrase
  | TrustFailure_Network | TrustFailure_Forbidden | TrustFailure_Timeout | TrustFailure_Sdk.

Inductive VerificationCancelReason := Cancel_User | Cancel_Mismatch.

Inductive RoomKeyExportState :=
  | Export_Idle
  | Export_Exporting (request_id : Z)
  | Export_Exported (request_id : Z) (exported_sessions : option Z)
  | Export_Failed (request_id : Z) (kind : TrustOperationFailureKind).

Inductive RoomKeyImportState :=
  | Import_Idle
  | Import_Importing (request_id : Z)
  | Import_Imported (request_id imported_count total_count : Z)
  | Import_Failed (request_id : Z) (kind : TrustOperationFailureKind).

Inductive RecoveryKeyDeliveryState := Delivery_NotWritten | Delivery_Written | Delivery_WriteFailed.

Inductive RecoveryKeyMaterial := RecoveryKey (secret : string).

Inductive SecureBackupSetupState :=
  | Setup_Idle
  | Setup_SettingUp (request_id : Z)
  | Setup_RecoveryKeyReady (request_id : Z) (recovery_key : RecoveryKeyMaterial)
      (delivery : RecoveryKeyDeliveryState) (confirmation_failed : bool)
  | Setup_Enabled (request_id : Z)
  | Setup_Failed (request_id : Z) (kind : TrustOperationFailureKind).

Inductive SecureBackupPassphraseChangeState :=
  | Passphrase_Idle
  | Passphrase_Changing (request_id : Z)
  | Passphrase_Changed (request_id : Z) (recovery_key : RecoveryKeyMaterial)
      (delivery : RecoveryKeyDeliveryState)
  | Passphrase_Failed (request_id : Z) (kind : TrustOperationFailureKind).

Inductive VerificationInitiator := Initiator_Us | Initiator_Them.

Record VerificationTarget := { target_user_id : string; target_device_id : string }.

Inductive VerificationFlowState :=
  | Verification_Idle
  | Verification_Requested (request_id : Z) (target : VerificationTarget)
      (initiator : VerificationInitiator)
  | Verification_Accepted (request_id : Z) (target : VerificationTarget)
      (initiator : VerificationInitiator)
  | Verification_SasPresented (request_id : Z) (target : VerificationTarget)
      (emojis : list SasEmoji)
  | Verification_Confirming (request_id : Z) (target : VerificationTarget)
      (emojis : list SasEmoji)
  | Verification_Done (request_id : Z) (target : VerificationTarget)
  | Verification_Failed (request_id : Z) (target : VerificationTarget)
      (kind : TrustOperationFailureKind).

(** [VerificationFlowState::is_in_progress] *)
Definition is_in_progress (v : VerificationFlowState) : bool :=
  match v with
  | Verification_Requested _ _ _ | Verification_Accepted _ _ _
  | Verification_SasPresented _ _ _ | Verification_Confirming _ _ _ => true
  | _ => false
  end.

Inductive CrossSigningStatus :=
  | CrossSigning_Unknown | CrossSigning_Missing
  | CrossSigning_Bootstrapping (request_id : Z)
  | CrossSigning_Trusted | CrossSigning_NotTrusted
  | CrossSigning_Failed (request_id : Z) (kind : TrustOperationFailureKind).

Inductive KeyBackupStatus :=
  | KeyBackup_Unknown | KeyBackup_Disabled
  | KeyBackup_Enabling (request_id : Z)
  | KeyBackup_Enabled (version : string)
  | KeyBackup_Restoring (request_id : Z) (version : option string) (restored_rooms : Z)
      (total_rooms : option Z)
  | KeyBackup_Failed (request_id : Z) (kind : TrustOperationFailureKind).

Inductive IdentityResetAuthType := ResetAuth_Uiaa | ResetAuth_OAuth | ResetAuth_Unknown.

Inductive IdentityResetState :=
  | Reset_Idle
  | Reset_Resetting (request_id : Z)
  | Reset_AwaitingAuth (request_id : Z) (auth_type : IdentityResetAuthType)
  | Reset_Failed (request_id : Z) (kind : TrustOperationFailureKind).

Inductive DeviceTrustLevel := Level_Unknown | Level_Unverified | Level_Verified | Level_Blocked.

Record DeviceTrustSummary := {
  summary_user_id : string;
  summary_device_id : string;
  trust_level : DeviceTrustLevel;
  summary_display_name : option string;
  last_seen_ts : option Z;
  is_current : bool;
}.

Record UnverifiedOwnSessionsAlert := { total_sessions : Z; unverified_sessions : Z }.

Record E2eeKeyManagementState := {
  room_key_export : RoomKeyExportState;
  room_key_import : RoomKeyImportState;
  secure_backup_setup : SecureBackupSetupState;
  passphrase_change : SecureBackupPassphraseChangeState;
}.
#[export] Instance key_management_updatable : Updatable E2eeKeyManagementState := fun k =>
  {| room_key_export := room_key_export k; room_key_import := room_key_import k;
     secure_backup_setup := secure_backup_setup k; passphrase_change := passphrase_change k |}.

Record E2eeTrustState := {
  verification : VerificationFlowState;
  cross_signing : CrossSigningStatus;
  key_backup : KeyBackupStatus;
  identity_reset : IdentityResetState;
  key_management : E2eeKeyManagementState;
  devices : list DeviceTrustSummary;
  own_sessions_alert : option UnverifiedOwnSessionsAlert;
}.
#[export] Instance e2ee_trust_updatable : Updatable E2eeTrustState := fun e =>
  {| verification := verification e; cross_signing := cross_signing e;
     key_backup := key_backup e; identity_reset := identity_reset e;
     key_management := key_management e; devices := devices e;
     own_sessions_alert := own_sessions_alert e |}.

Definition E2eeKeyManagementState_default : E2eeKeyManagementState :=
  {| room_key_export := Export_Idle; room_key_import := Import_Idle;
     secure_backup_setup := Setup_Idle; passphrase_change := Passphrase_Idle |}.

Definition E2eeTrustState_default : E2eeTrustState :=
  {| verification := Verification_Idle; cross_signing := CrossSigning_Unknown;
     key_backup := KeyBackup_Unknown; identity_reset := Reset_Idle;
     key_management := E2eeKeyManagementState_default; devices := [];
     own_sessions_alert := None |}.

Definition OWN_SESSION_CHECK_INTERVAL_MS : Z := 24 * 60 * 60 * 1000.
Definition OWN_SESSION_CHECK_RETRY_MS : Z := 30 * 60 * 1000.

Definition own_session_check_due_at_ms (last_checked_at_ms : option Z) : Z :=
  match last_checked_at_ms with
  | Some last => u64_saturating_add last OWN_SESSION_CHECK_INTERVAL_MS
  | None => 0
  end.

(** [u32::try_from(n).unwrap_or(u32::MAX)] of a length *)
Definition u32_of_count (n : nat) : Z := Z.min (Z.of_nat n) U32_MAX.

Definition counts_as_unverified (device : DeviceTrustSummary) : bool :=
  negb (is_current device)
  && negb (match trust_level device with Level_Verified => true | _ => false end).

Definition unverified_own_sessions_alert (devices : list DeviceTrustSummary)
    (current_session_verified : bool) : option UnverifiedOwnSessionsAlert :=
  if negb current_session_verified then None
  else
    let unverified := length (List.filter counts_as_unverified devices) in
    then_some (bool_decide (0 < unverified)%nat)
      {| total_sessions := u32_of_count (length devices);
         unverified_sessions := u32_of_count unverified |}.

(** ** History export ([state/history_export.rs]) *)

Inductive HistoryExportRange :=
  | Range_AllAvailable
  | Range_Period (start_ms end_exclusive_ms : Z) (time_zone : string).

(** [HistoryExportRange::is_valid] *)
Definition range_is_valid (range : HistoryExportRange) : bool :=
  match range with
  | Range_AllAvailable => true
  | Range_Period start_ms end_exclusive_ms time_zone =>
      (start_ms <? end_exclusive_ms) && negb (trim_is_empty time_zone)
  end.

(** [HistoryExportRange::contains] *)
Definition range_contains (range : HistoryExportRange) (origin_server_ts : Z) : bool :=
  match range with
  | Range_AllAvailable => true
  | Range_Period start_ms end_exclusive_ms _ =>
      (start_ms <=? origin_server_ts) && (origin_server_ts <? end_exclusive_ms)
  end.

Inductive HistoryExportScope := Scope_Room (room_id : string) | Scope_Space (space_id : string).

Record HistoryExportRoomCounts := {
  fetched_events : Z;
  exported_events : Z;
  undecryptable_events : Z;
  attachments_total : Z;
  attachments_done : Z;
  attachments_failed : Z;
}.

Inductive HistoryExportRoomPhase :=
  | RoomPhase_Pending | RoomPhase_Fetching | RoomPhase_Attachments | RoomPhase_Rendering
  | RoomPhase_Completed | RoomPhase_Skipped | RoomPhase_Failed.

(** [HistoryExportRoomPhase::is_settled] *)
Definition is_settled (p : HistoryExportRoomPhase) : bool :=
  match p with RoomPhase_Completed | RoomPhase_Skipped | RoomPhase_Failed => true | _ => false end.

(** The derived [Ord] of the phases: the position of the variant. *)
Definition phase_rank (p : HistoryExportRoomPhase) : Z :=
  match p with
  | RoomPhase_Pending => 0 | RoomPhase_Fetching => 1 | RoomPhase_Attachments => 2
  | RoomPhase_Rendering => 3 | RoomPhase_Completed => 4 | RoomPhase_Skipped => 5
  | RoomPhase_Failed => 6
  end.

Inductive HistoryExportRoomSkipReason := Skip_NotJoined.
Inductive HistoryExportRoomFailureKind := RoomFailure_Network | RoomFailure_Sdk | RoomFailure_Write.

Record HistoryExportRoom := {
  export_room_id : string;
  export_display_name : string;
  phase : HistoryExportRoomPhase;
  counts : HistoryExportRoomCounts;
  skip_reason : option HistoryExportRoomSkipReason;
  failure_kind : option HistoryExportRoomFailureKind;
}.
#[export] Instance export_room_updatable : Updatable HistoryExportRoom := fun r =>
  {| export_room_id := export_room_id r; export_display_name := export_display_name r;
     phase := phase r; counts := counts r; skip_reason := skip_reason r;
     failure_kind := failure_kind r |}.

Inductive HistoryExportFailureKind :=
  | ExportFailure_InvalidRange | ExportFailure_RoomNotFound | ExportFailure_SpaceNotFound
  | ExportFailure_DestinationUnavailable | ExportFailure_ManifestMismatch | ExportFailure_Write
  | ExportFailure_NoSpace | ExportFailure_Network | ExportFailure_Sdk.

Inductive HistoryExportState :=
  | HistExport_Idle
  | HistExport_Preparing (request_id : Z) (scope : HistoryExportScope)
      (range : HistoryExportRange) (stop_requested : bool)
  | HistExport_Running (request_id : Z) (scope : HistoryExportScope)
      (range : HistoryExportRange) (rooms : list HistoryExportRoom) (stop_requested : bool)
  | HistExport_Completed (request_id : Z) (scope : HistoryExportScope)
      (range : HistoryExportRange) (rooms : list HistoryExportRoom)
  | HistExport_Stopped (request_id : Z) (scope : HistoryExportScope)
      (range : HistoryExportRange) (rooms : list HistoryExportRoom)
  | HistExport_Failed (request_id : Z) (scope : HistoryExportScope)
      (range : HistoryExportRange) (rooms : list HistoryExportRoom)
      (kind : HistoryExportFailureKind).

(** [HistoryExportState::active_request_id] *)
Definition active_request_id (h : HistoryExportState) : option Z :=
  match h with
  | HistExport_Preparing request_id _ _ _ | HistExport_Running request_id _ _ _ _ =>
      Some request_id
  | _ => None
  end.

(** [HistoryExportState::request_id] *)
Definition export_request_id (h : HistoryExportState) : option Z :=
  match h with
  | HistExport_Idle => None
  | HistExport_Preparing request_id _ _ _ | HistExport_Running request_id _ _ _ _
  | HistExport_Completed request_id _ _ _ | HistExport_Stopped request_id _ _ _
  | HistExport_Failed request_id _ _ _ _ => Some request_id
  end.

(** ** Effects ([effect.rs]): those the modelled handlers emit *)

Record ProfileDisplayChange := { user_ids : list string }.

Inductive UiEvent :=
  | SessionChanged | AuthChanged | SettingsChanged | LinkPreviewSettingsChanged
  | ProfileChanged (change : ProfileDisplayChange) | RoomListChanged | InviteWorkflowChanged
  | FocusedContextChanged | SpaceChildrenChanged | SpaceMembersChanged
  | TimelineChanged (room_id : string) | ThreadChanged | ThreadsListChanged | SearchChanged
  | SearchCrawlerChanged | FilesViewChanged | HistoryExportChanged | LiveSignalsChanged
  | E2eeTrustChanged | E2eeKeyManagementChanged | AccountManagementChanged
  | AccountManagementCapabilitiesChanged | AccountNotificationsChanged | ContactSecurityChanged
  | SenderDeviceAdvisoriesChanged | SoftLogoutReauthChanged | QrLoginChanged
  | RoomInteractionsChanged | DirectoryChanged | ActivityChanged | RoomManagementChanged
  | MentionCandidatesChanged | LocalEncryptionChanged | NativeAttentionChanged
  | CjkTextPolicyChanged | RoomNotificationSettingsChanged | ErrorChanged.

Inductive AppEffect :=
  | RestoreSession
  | DiscoverLogin (homeserver : string)
  | ContinueSlidingSyncAdmission (account_epoch request_id : Z)
      (admission : SlidingSyncAdmissionKind) (source : SlidingSyncAdmissionSource)
  | RetrySlidingSyncCapabilityDiscovery (account_epoch blocked_request_id request_id : Z)
  | ScheduleSlidingSyncCapabilityRevalidation (account_epoch : Z)
  | SettleSlidingSyncCapabilityRevalidation (account_epoch request_id : Z)
      (result : SlidingSyncCapabilityResult)
  | Login (attempt_id : LoginAttemptId) (request : LoginRequest)
  | CheckCurrentDeviceTrust
  | InspectSecureBackup
  | SyncConnectivityChanged (proven : bool)
  | RefreshCurrentSessionStatus (request_id : Z) (trigger : SessionStatusRefreshTrigger)
  | ArmCurrentSessionStatusCheck (token due_at_ms : Z)
  | DiscoverVerificationMethods
  | BeginSessionVerification (method : VerificationMethod) (flow_id : Z)
  | RejectProvisionalSession
  | RecoverE2ee (request : RecoveryRequest)
  | RequestVerification (request_id : Z) (target : VerificationTarget)
  | AcceptVerification (request_id : Z)
  | ConfirmSasVerification (request_id : Z)
  | CancelVerification (request_id : Z) (reason : VerificationCancelReason)
  | BootstrapCrossSigning (request_id : Z)
  | EnableKeyBackup (request_id : Z)
  | RestoreKeyBackup (request_id : Z) (version : option string)
  | ResetIdentity (request_id : Z)
  | PersistSession (info : SessionInfo)
  | StartSync
  | StopSync
  | EmitUiEvent (event : UiEvent).

(** ** The application state ([state/mod.rs]) *)

Inductive RoomListSource := ListSource_Cache | ListSource_Live.
Inductive RoomListFailureKind := ListFailure_Connectivity | ListFailure_Service | ListFailure_Stopped.
Inductive RoomListReadiness :=
  | List_Uninitialized
  | List_Loading (source : RoomListSource) (generation : Z)
  | List_Ready (source : RoomListSource) (generation : Z)
  | List_Failed (source : RoomListSource) (generation : Z) (kind : RoomListFailureKind).

(** A room or Space entry: its id and its other fields, serialised. *)
Record RoomSummary := { room_id : string; room_rest : string }.
Record SpaceSummary := { space_id : string; space_rest : string }.

(** [TimelinePaneState]; [None] is the default of the registry and of the other fields. *)
Record TimelinePaneState := {
  timeline_room_id : option string;
  submission_registry : option string;
  timeline_rest : option string;
}.
#[export] Instance timeline_updatable : Updatable TimelinePaneState := fun t =>
  {| timeline_room_id := timeline_room_id t; submission_registry := submission_registry t;
     timeline_rest := timeline_rest t |}.
Definition TimelinePaneState_default : TimelinePaneState :=
  {| timeline_room_id := None; submission_registry := None; timeline_rest := None |}.

(** The remaining slices of [AppState].  [ActivityState] is split into its open part and
    the tab its [Closed] variant remembers; [SpaceChildrenState] into the offer, the other
    three fields [clear_session_suggestions] drops, and the rest. *)
Inductive ViewSlice :=
  | V_thread_delivery | V_thread_unread | V_locally_read_activity | V_account_notifications
  | V_contact_security | V_sender_device_advisories | V_notification_delivery
  | V_link_preview_settings | V_room_preferences | V_room_activity | V_profile
  | V_space_children_rest | V_space_children_session | V_space_children_suggested_offer
  | V_space_members | V_navigation | V_invites | V_invite_workflow | V_room_list_rest
  | V_room_notification_settings | V_room_notification_awaiting_echo | V_room_interactions
  | V_room_access | V_room_access_observed | V_room_access_pre_send | V_composer_drafts
  | V_scheduled_sends | V_upload_staging | V_media_gallery | V_directory | V_room_management
  | V_mention_candidates | V_activity_open | V_activity_closed_tab | V_thread
  | V_thread_attention | V_threads_list | V_scheduled_sends_list | V_thread_root_projections
  | V_focused_context | V_search | V_search_crawler | V_files_view | V_basic_operation
  | V_space_child_links | V_room_address_availability | V_live_signals | V_local_encryption
  | V_native_attention | V_native_attention_context | V_cjk_text_policy.

Record AppState := {
  session : SessionState;
  session_lock_reason : option SessionLockReason;
  secure_backup_gate : SecureBackupGateState;
  sliding_sync_account_epoch : Z;
  session_disclosure_epoch : Z;
  sliding_sync_capability : SlidingSyncCapabilityState;
  device_cleanup : DeviceCleanupState;
  current_session_status : CurrentSessionStatusState;
  current_session_status_schedule : SessionStatusSchedule;
  auth : AuthDiscoveryState;
  account_management_url : option string;
  account_management : AccountManagementState;
  account_management_capabilities : AccountManagementCapabilities;
  soft_logout_reauth : SoftLogoutReauthState;
  qr_login : QrLoginState;
  settings : option string;
  sync : SyncState;
  sync_generation : Z;
  spaces : list SpaceSummary;
  rooms : list RoomSummary;
  room_list_readiness : RoomListReadiness;
  create_access_session_watermark : Z;
  timeline : TimelinePaneState;
  search_request_connection_id : option Z;
  history_export : HistoryExportState;
  e2ee_trust : E2eeTrustState;
  errors : list AppError;
  views : ViewSlice -> option string;
}.
#[export] Instance app_state_updatable : Updatable AppState := fun s =>
  {| session := session s; session_lock_reason := session_lock_reason s;
     secure_backup_gate := secure_backup_gate s;
     sliding_sync_account_epoch := sliding_sync_account_epoch s;
     session_disclosure_epoch := session_disclosure_epoch s;
     sliding_sync_capability := sliding_sync_capability s;
     device_cleanup := device_cleanup s; current_session_status := current_session_status s;
     current_session_status_schedule := current_session_status_schedule s; auth := auth s;
     account_management_url := account_management_url s;
     account_management := account_management s;
     account_management_capabilities := account_management_capabilities s;
     soft_logout_reauth := soft_logout_reauth s; qr_login := qr_login s;
     settings := settings s; sync := sync s; sync_generation := sync_generation s;
     spaces := spaces s; rooms := rooms s; room_list_readiness := room_list_readiness s;
     create_access_session_watermark := create_access_session_watermark s;
     timeline := timeline s; search_request_connection_id := search_request_connection_id s;
     history_export := history_export s; e2ee_trust := e2ee_trust s; errors := errors s;
     views := views s |}.

Definition SessionStatusCheckStats_default : SessionStatusCheckStats :=
  {| stat_started := 0; stat_joined := 0; stat_deferred := 0; stat_dropped := 0;
     stat_succeeded := 0; stat_failed := 0 |}.

Definition SessionStatusSchedule_default : SessionStatusSchedule :=
  {| token := 0; armed := None; next_request_seq := 0; stats := SessionStatusCheckStats_default;
     last_trigger := None; last_decision := None |}.

Definition AccountManagementCapabilities_default : AccountManagementCapabilities :=
  {| change_password := CapabilityState_Unknown; deactivate_account := CapabilityState_Unknown |}.

Definition AppState_default : AppState :=
  {| session := Session_SignedOut; session_lock_reason := None;
     secure_backup_gate := SBGate_Inactive; sliding_sync_account_epoch := 0;
     session_disclosure_epoch := 0; sliding_sync_capability := Cap_Unknown;
     device_cleanup := Cleanup_Idle; current_session_status := SessStatus_Idle;
     current_session_status_schedule := SessionStatusSchedule_default;
     auth := Discovery_Unknown; account_management_url := None;
     account_management := Account_Idle;
     account_management_capabilities := AccountManagementCapabilities_default;
     soft_logout_reauth := Reauth_Idle; qr_login := Qr_Idle; settings := None;
     sync := Sync_Stopped; sync_generation := 0; spaces := []; rooms := [];
     room_list_readiness := List_Uninitialized; create_access_session_watermark := 0;
     timeline := TimelinePaneState_default; search_request_connection_id := None;
     history_export := HistExport_Idle; e2ee_trust := E2eeTrustState_default;
     errors := []; views := fun _ => None |}.

(** ** Decidable equality (the derived [PartialEq]s the code uses) *)

Local Ltac eq_dec := solve_decision.
#[export] Instance LoginAttemptId_eq : EqDecision LoginAttemptId. Proof. eq_dec. Defined.
#[export] Instance CurrentDeviceTrustState_eq : EqDecision CurrentDeviceTrustState. Proof. eq_dec. Defined.
#[export] Instance Capability_eq : EqDecision VerificationMethodCapability. Proof. eq_dec. Defined.
#[export] Instance Method_eq : EqDecision VerificationMethod. Proof. eq_dec. Defined.
#[export] Instance AccountKind_eq : EqDecision VerificationAccountKind. Proof. eq_dec. Defined.
#[export] Instance AuthMethod_eq : EqDecision SessionAuthenticationMethod. Proof. eq_dec. Defined.
#[export] Instance SessionInfo_eq : EqDecision SessionInfo. Proof. eq_dec. Defined.
#[export] Instance SasEmoji_eq : EqDecision SasEmoji. Proof. eq_dec. Defined.
#[export] Instance SBFailureKind_eq : EqDecision SecureBackupGateFailureKind. Proof. eq_dec. Defined.
#[export] Instance SBStage_eq : EqDecision SecureBackupFailureStage. Proof. eq_dec. Defined.
#[export] Instance SBTransport_eq : EqDecision SecureBackupFailureTransport. Proof. eq_dec. Defined.
#[export] Instance SBMatrix_eq : EqDecision SecureBackupMatrixErrorKind. Proof. eq_dec. Defined.
#[export] Instance SBDetail_eq : EqDecision SecureBackupFailureDetail. Proof. eq_dec. Defined.
#[export] Instance Bucket_eq : EqDecision PendingKeyCountBucket. Proof. eq_dec. Defined.
#[export] Instance SBGate_eq : EqDecision SecureBackupGateState. Proof. eq_dec. Defined.
#[export] Instance CleanupAuthMode_eq : EqDecision DeviceCleanupAuthMode. Proof. eq_dec. Defined.
#[export] Instance AuthFailureKind_eq : EqDecision AuthFailureKind. Proof. eq_dec. Defined.
#[export] Instance AccountOp_eq : EqDecision AccountManagementOperation. Proof. eq_dec. Defined.
#[export] Instance AccountState_eq : EqDecision AccountManagementState. Proof. eq_dec. Defined.
#[export] Instance CapabilityState_eq : EqDecision CapabilityState. Proof. eq_dec. Defined.
#[export] Instance AccountCapabilities_eq : EqDecision AccountManagementCapabilities. Proof. eq_dec. Defined.
#[export] Instance Qr_eq : EqDecision QrLoginState. Proof. eq_dec. Defined.
#[export] Instance Reauth_eq : EqDecision SoftLogoutReauthState. Proof. eq_dec. Defined.
#[export] Instance SyncState_eq : EqDecision SyncState. Proof. eq_dec. Defined.
#[export] Instance Trigger_eq : EqDecision SessionStatusRefreshTrigger. Proof. eq_dec. Defined.
#[export] Instance Decision_eq : EqDecision SessionStatusCheckDecision. Proof. eq_dec. Defined.
#[export] Instance TrustFailure_eq : EqDecision TrustOperationFailureKind. Proof. eq_dec. Defined.
#[export] Instance Export_eq : EqDecision RoomKeyExportState. Proof. eq_dec. Defined.
#[export] Instance Import_eq : EqDecision RoomKeyImportState. Proof. eq_dec. Defined.
#[export] Instance Delivery_eq : EqDecision RecoveryKeyDeliveryState. Proof. eq_dec. Defined.
#[export] Instance RecoveryKey_eq : EqDecision RecoveryKeyMaterial. Proof. eq_dec. Defined.
#[export] Instance Setup_eq : EqDecision SecureBackupSetupState. Proof. eq_dec. Defined.
#[export] Instance Passphrase_eq : EqDecision SecureBackupPassphraseChangeState. Proof. eq_dec. Defined.
#[export] Instance Initiator_eq : EqDecision VerificationInitiator. Proof. eq_dec. Defined.
#[export] Instance Target_eq : EqDecision VerificationTarget. Proof. eq_dec. Defined.
#[export] Instance Verification_eq : EqDecision VerificationFlowState. Proof. eq_dec. Defined.
#[export] Instance CrossSigning_eq : EqDecision CrossSigningStatus. Proof. eq_dec. Defined.
#[export] Instance KeyBackup_eq : EqDecision KeyBackupStatus. Proof. eq_dec. Defined.
#[export] Instance ResetAuth_eq : EqDecision IdentityResetAuthType. Proof. eq_dec. Defined.
#[export] Instance Reset_eq : EqDecision IdentityResetState. Proof. eq_dec. Defined.
#[export] Instance Level_eq : EqDecision DeviceTrustLevel. Proof. eq_dec. Defined.
#[export] Instance DeviceSummary_eq : EqDecision DeviceTrustSummary. Proof. eq_dec. Defined.
#[export] Instance Alert_eq : EqDecision UnverifiedOwnSessionsAlert. Proof. eq_dec. Defined.
#[export] Instance KeyManagement_eq : EqDecision E2eeKeyManagementState. Proof. eq_dec. Defined.
#[export] Instance E2eeTrust_eq : EqDecision E2eeTrustState. Proof. eq_dec. Defined.
#[export] Instance RoomCounts_eq : EqDecision HistoryExportRoomCounts. Proof. eq_dec. Defined.
#[export] Instance RoomPhase_eq : EqDecision HistoryExportRoomPhase. Proof. eq_dec. Defined.
#[export] Instance RoomFailure_eq : EqDecision HistoryExportRoomFailureKind. Proof. eq_dec. Defined.
#[export] Instance SkipReason_eq : EqDecision HistoryExportRoomSkipReason. Proof. eq_dec. Defined.
#[export] Instance ExportRoom_eq : EqDecision HistoryExportRoom. Proof. eq_dec. Defined.
#[export] Instance Range_eq : EqDecision HistoryExportRange. Proof. eq_dec. Defined.
#[export] Instance Scope_eq : EqDecision HistoryExportScope. Proof. eq_dec. Defined.
#[export] Instance ExportFailure_eq : EqDecision HistoryExportFailureKind. Proof. eq_dec. Defined.
#[export] Instance HistExport_eq : EqDecision HistoryExportState. Proof. eq_dec. Defined.
#[export] Instance ViewSlice_eq : EqDecision ViewSlice. Proof. eq_dec. Defined.

(** ** Shared reducer helpers ([reducer/mod.rs]) *)

(** What a handler returns: the state after it and the effects it emits. *)
Abbreviation Reduced := (AppState * list AppEffect)%type.

(** The early return [return Vec::new()]. *)
Definition unchanged (state : AppState) : Reduced := (state, []).

Definition emit (cond : bool) (event : UiEvent) : list AppEffect :=
  if cond then [EmitUiEvent event] else [].

Definition is_session_ready (state : AppState) : bool :=
  match session state with Session_Ready _ => true | _ => false end.

Definition has_verification_gate_projection_context (state : AppState) : bool :=
  match session state with
  | Session_Provisional _ _ | Session_AwaitingVerification _ _ | Session_Verifying _ _ _ _ _
  | Session_AwaitingBootstrapConfirmation _ _ _ | Session_Rejecting _ _ => true
  | _ => false
  end.

Definition current_session_info (state : AppState) : option SessionInfo :=
  match session state with
  | Session_Provisional info _ | Session_AwaitingVerification info _
  | Session_Verifying info _ _ _ _ | Session_AwaitingBootstrapConfirmation info _ _
  | Session_Rejecting info _ | Session_Ready info | Session_Locked info => Some info
  | Session_CapabilityBlocked info _ => Some info
  | Session_SignedOut | Session_Restoring | Session_SwitchingAccount _
  | Session_Authenticating _ _ | Session_LoggingOut => None
  end.

(** [errors.retain(|error| error.code != code)]; the flag says whether one was removed. *)
Definition retain_errors (code : string) (state : AppState) : AppState * bool :=
  let kept := List.filter (fun e => negb (bool_decide (error_code e = code))) (errors state) in
  (state <| errors := kept |>, negb (bool_decide (length kept = length (errors state)))).

Definition clear_login_failed_errors (state : AppState) : AppState * bool :=
  retain_errors "login_failed" state.

Definition SCHEDULED_SEND_PERSISTENCE_FAILED : string := "scheduled_send_persistence_failed".

Definition withdraw_scheduled_send_persistence_failure (state : AppState)
  : AppState * option AppEffect :=
  let '(state, removed) := retain_errors SCHEDULED_SEND_PERSISTENCE_FAILED state in
  (state, then_some removed (EmitUiEvent ErrorChanged)).

Definition push_error (code message : string) (reason : option AuthFailureKind)
    (state : AppState) : AppState :=
  state <| errors ::= fun l =>
    l ++ [{| error_code := code; error_message := message; recoverable := true;
             error_reason := reason |}] |>.

Definition clear_stale_verification_flow (state : AppState) : AppState * bool :=
  if decide (verification (e2ee_trust state) = Verification_Idle) then (state, false)
  else (state <| e2ee_trust ::= fun e => e <| verification := Verification_Idle |> |>, true).

(** [encrypted_messaging_is_admitted] of [lib.rs] *)
Definition encrypted_messaging_is_admitted (state : AppState) : bool :=
  is_session_ready state && backup_is_ready (secure_backup_gate state).

(** [AppState::conversation_access] *)
Definition conversation_access (state : AppState) : ConversationAccess :=
  let readable := is_session_ready state && admits_cached_reading (secure_backup_gate state) in
  {| readable := readable;
     list_authoritative :=
       readable && match room_list_readiness state with List_Ready _ _ => true | _ => false end;
     send_admitted := encrypted_messaging_is_admitted state |}.

(** *** Retiring a session's views *)

(** The opaque slices [clear_session_views] resets to their default. *)
Definition session_view (v : ViewSlice) : bool :=
  match v with
  | V_thread_delivery | V_notification_delivery | V_space_children_rest
  | V_room_access_pre_send | V_scheduled_sends_list | V_thread_root_projections
  | V_native_attention_context | V_cjk_text_policy => false
  | _ => true
  end.

(** The assignments of [clear_session_views]. *)
Definition retire_session_views (state : AppState) : AppState :=
  (withdraw_scheduled_send_persistence_failure state).1
    <| spaces := [] |> <| rooms := [] |> <| room_list_readiness := List_Uninitialized |>
    <| timeline := TimelinePaneState_default |> <| search_request_connection_id := None |>
    <| history_export := HistExport_Idle |> <| e2ee_trust := E2eeTrustState_default |>
    <| account_management_url := None |> <| account_management := Account_Idle |>
    <| account_management_capabilities := AccountManagementCapabilities_default |>
    <| soft_logout_reauth := Reauth_Idle |> <| qr_login := Qr_Idle |>
    <| views ::= fun vs v => if session_view v then None else vs v |>.

(** The events it emits, from the state before the assignments. *)
Definition retired_view_events (state : AppState) : list AppEffect :=
  let had v := bool_decide (views state v ≠ None) in
  let previous_room_id := timeline_room_id (timeline state) in
  let had_thread := had V_thread || had V_thread_attention in
  let had_e2ee_trust := bool_decide (e2ee_trust state ≠ E2eeTrustState_default) in
  let had_e2ee_key_management :=
    bool_decide (key_management (e2ee_trust state) ≠ E2eeKeyManagementState_default) in
  let had_account_management := bool_decide (account_management state ≠ Account_Idle) in
  let had_account_management_capabilities :=
    bool_decide (account_management_capabilities state ≠ AccountManagementCapabilities_default) in
  let had_soft_logout_reauth := bool_decide (soft_logout_reauth state ≠ Reauth_Idle) in
  let had_qr_login := bool_decide (qr_login state ≠ Qr_Idle) in
  let had_history_export := bool_decide (history_export state ≠ HistExport_Idle) in
  let had_link_preview := had V_link_preview_settings || had V_room_preferences in
  let scheduled_send_persistence_effect :=
    (withdraw_scheduled_send_persistence_failure state).2 in
  [EmitUiEvent RoomListChanged]
  ++ emit (had V_invite_workflow) InviteWorkflowChanged
  ++ match previous_room_id with
       | Some room_id => [EmitUiEvent (TimelineChanged room_id)]
       | None => []
       end
  ++ emit had_thread ThreadChanged
  ++ emit (had V_focused_context) FocusedContextChanged
  ++ emit (had V_search) SearchChanged
  ++ emit (had V_search_crawler) SearchCrawlerChanged
  ++ emit had_e2ee_trust E2eeTrustChanged
  ++ emit had_e2ee_key_management E2eeKeyManagementChanged
  ++ emit had_account_management AccountManagementChanged
  ++ emit had_account_management_capabilities AccountManagementCapabilitiesChanged
  ++ emit (had V_account_notifications) AccountNotificationsChanged
  ++ emit (had V_contact_security) ContactSecurityChanged
  ++ emit (had V_sender_device_advisories) SenderDeviceAdvisoriesChanged
  ++ emit had_soft_logout_reauth SoftLogoutReauthChanged
  ++ emit had_qr_login QrLoginChanged
  ++ emit (had V_live_signals) LiveSignalsChanged
  ++ emit (had V_profile) (ProfileChanged {| user_ids := [] |})
  ++ emit (had V_room_interactions) RoomInteractionsChanged
  ++ emit (had V_directory) DirectoryChanged
  ++ emit (had V_activity_open) ActivityChanged
  ++ emit (had V_room_management) RoomManagementChanged
  ++ emit (had V_mention_candidates) MentionCandidatesChanged
  ++ emit (had V_local_encryption) LocalEncryptionChanged
  ++ emit (had V_native_attention) NativeAttentionChanged
  ++ emit (had V_files_view) FilesViewChanged
  ++ emit had_history_export HistoryExportChanged
  ++ emit (had V_threads_list) ThreadsListChanged
  ++ emit had_link_preview LinkPreviewSettingsChanged
  ++ emit (had V_room_notification_settings) RoomNotificationSettingsChanged
  ++ emit (had V_space_members) SpaceMembersChanged
  ++ emit (had V_space_children_suggested_offer) SpaceChildrenChanged
  ++ opt_list scheduled_send_persistence_effect.

Definition clear_session_views (state : AppState) : Reduced :=
  (retire_session_views state, retired_view_events state).

(** ** Automation *)

(** The definitions a proof about a handler unfolds. *)
Create HintDb handlers.

#[export] Hint Unfold
  retain_errors clear_login_failed_errors withdraw_scheduled_send_persistence_failure
  push_error clear_stale_verification_flow clear_session_views unchanged : handlers.
