(* ===== verification/Session.v ===== *)
(** Session life cycle: the handlers of [crates/koushi-state/src/reducer/session.rs].

    A handler takes the state and the action's arguments and returns the state after it
    and its effects; [unchanged] is its early return. *)

From stdpp Require Import base list strings.
From Stdlib Require Import ZArith Lia.
From S2P Require Import Prelude AppState.
Local Open Scope string_scope.
Local Open Scope list_scope.
Local Open Scope Z_scope.

Definition reset_app_state_preserving_account_epoch (state : AppState) : AppState :=
  AppState_default
    <| sliding_sync_account_epoch := sliding_sync_account_epoch state |>
    <| current_session_status_schedule := retire (current_session_status_schedule state) |>
    <| settings := settings state |>.

Definition handle_app_started (state : AppState) : Reduced :=
  (state <| session := Session_Restoring |> <| session_lock_reason := None |>
     <| sliding_sync_capability := Cap_Unknown |>,
   [RestoreSession]).

Definition handle_restore_session_requested (state : AppState) : Reduced :=
  match session state with
  | Session_SignedOut =>
      (state <| session := Session_Restoring |> <| session_lock_reason := None |>
         <| sliding_sync_capability := Cap_Unknown |>,
       [EmitUiEvent SessionChanged])
  | _ => unchanged state
  end.

Definition install_provisional_session (state : AppState) (info : SessionInfo) : Reduced :=
  let '(state, cleared_login_error) := clear_login_failed_errors state in
  (state <| session_lock_reason := None |> <| device_cleanup := Cleanup_Idle |>
     <| session := Session_Provisional info Phase_CheckingTrust |> <| sync := Sync_Stopped |>,
   [CheckCurrentDeviceTrust; EmitUiEvent SessionChanged] ++ emit cleared_login_error ErrorChanged).

Definition handle_restore_session_succeeded (state : AppState) (info : SessionInfo) : Reduced :=
  let expected :=
    match session state with
    | Session_Restoring => true
    | Session_SwitchingAccount target =>
        bool_decide (homeserver target = homeserver info)
        && bool_decide (user_id target = user_id info)
        && bool_decide (device_id target = device_id info)
    | _ => false
    end in
  if expected then install_provisional_session state info else unchanged state.

Definition handle_login_succeeded (state : AppState) (attempt_id : LoginAttemptId)
    (info : SessionInfo) : Reduced :=
  match session state with
  | Session_Authenticating _ active_attempt_id =>
      if decide (active_attempt_id = attempt_id) then install_provisional_session state info
      else unchanged state
  | _ => unchanged state
  end.

Definition promote_verified_session (state : AppState) (info : SessionInfo) : Reduced :=
  (state <| session := Session_Ready info |> <| session_lock_reason := None |>
     <| secure_backup_gate := SBGate_Checking |> <| device_cleanup := Cleanup_Idle |>
     <| sync := Sync_Starting |>,
   [PersistSession info; StartSync; InspectSecureBackup; EmitUiEvent SessionChanged]).

Definition handle_secure_backup_gate_changed (state : AppState) (gate : SecureBackupGateState)
  : Reduced :=
  if negb (is_session_ready state) || bool_decide (secure_backup_gate state = gate)
  then unchanged state
  else (state <| secure_backup_gate := gate |>, [EmitUiEvent SessionChanged]).

Definition gate_ready_session (state : AppState) (phase : ProvisionalPhase) : Reduced :=
  match session state with
  | Session_Ready info =>
      let registry := submission_registry (timeline state) in
      let state :=
        state <| session := Session_Provisional info phase |> <| session_lock_reason := None |>
          <| device_cleanup := Cleanup_Idle |> <| sync := Sync_Stopped |> in
      let '(state, effects) := clear_session_views state in
      (state <| timeline ::= fun t => t <| submission_registry := registry |> |>,
       [StopSync; EmitUiEvent SessionChanged] ++ effects)
  | _ => unchanged state
  end.

Definition lock_ready_session (state : AppState) (reason : SessionLockReason) : Reduced :=
  match session state with
  | Session_Ready info =>
      let registry := submission_registry (timeline state) in
      let state :=
        state <| session := Session_Locked info |> <| session_lock_reason := Some reason |>
          <| sync := Sync_Stopped |> in
      let '(state, effects) := clear_session_views state in
      (state <| timeline ::= fun t => t <| submission_registry := registry |> |>,
       [StopSync; EmitUiEvent SessionChanged] ++ effects)
  | _ => unchanged state
  end.

(** The three branches after the guards of [handle_current_device_trust_changed]. *)
Definition settle_gated_trust (state : AppState) (trust : CurrentDeviceTrustState)
    (info : SessionInfo) : Reduced :=
  match trust with
  | Trust_Verified => promote_verified_session state info
  | Trust_Unverified =>
      (state <| session := Session_Provisional info Phase_DiscoveringMethods |>
         <| device_cleanup := Cleanup_Idle |>,
       [DiscoverVerificationMethods; EmitUiEvent SessionChanged])
  | Trust_Unknown =>
      (state <| session := Session_Provisional info (Phase_RecheckingTrust None) |>
         <| device_cleanup := Cleanup_Idle |>,
       [EmitUiEvent SessionChanged])
  end.

Definition handle_current_device_trust_changed (state : AppState)
    (trust : CurrentDeviceTrustState) : Reduced :=
  match session state with
  | Session_Ready _ =>
      match trust with
      | Trust_Verified => unchanged state
      | Trust_Unverified => gate_ready_session state Phase_DiscoveringMethods
      | Trust_Unknown => gate_ready_session state (Phase_RecheckingTrust None)
      end
  | Session_AwaitingVerification info _ | Session_Verifying info _ _ _ _ =>
      if decide (trust ≠ Trust_Verified) then unchanged state
      else settle_gated_trust state trust info
  | Session_Provisional info _ => settle_gated_trust state trust info
  | _ => unchanged state
  end.

Definition is_persist_session (effect : AppEffect) : bool :=
  match effect with PersistSession _ => true | _ => false end.

Definition handle_authoritative_device_trust_changed (state : AppState)
    (trust : CurrentDeviceTrustState) : Reduced :=
  let '(state, effects) := handle_current_device_trust_changed state trust in
  (state,
   if decide (trust = Trust_Verified)
   then List.filter (fun effect => negb (is_persist_session effect)) effects
   else effects).

(** ** The verification gate *)

Definition handle_verification_methods_discovered (state : AppState)
    (gate : VerificationGateState) : Reduced :=
  match session state with
  | Session_Provisional info Phase_DiscoveringMethods =>
      let '(state, gate) :=
        if bool_decide (account_kind gate = Account_ExistingIdentity)
           && bool_decide (methods gate = [])
        then (state <| device_cleanup := Cleanup_Offered Offer_NoProofMethod |>,
              {| methods := methods gate; account_kind := account_kind gate;
                 gate_failure := Some GateFailure_NoProofMethod |})
        else (state, gate) in
      (state <| session := Session_AwaitingVerification info gate |>,
       [EmitUiEvent SessionChanged])
  | _ => unchanged state
  end.

Definition handle_verification_method_discovery_failed (state : AppState)
    (kind : VerificationGateFailureKind) : Reduced :=
  match session state with
  | Session_Provisional info Phase_DiscoveringMethods =>
      (state <| session := Session_Provisional info (Phase_RecheckingTrust (Some kind)) |>
         <| device_cleanup := Cleanup_Idle |>,
       [EmitUiEvent SessionChanged])
  | _ => unchanged state
  end.

Definition handle_verification_method_discovery_retry_started (state : AppState) : Reduced :=
  match session state with
  | Session_Provisional info Phase_DiscoveringMethods
  | Session_Provisional info (Phase_RecheckingTrust _) =>
      (state <| session := Session_Provisional info Phase_DiscoveringMethods |>
         <| device_cleanup := Cleanup_Idle |>,
       [EmitUiEvent SessionChanged])
  | _ => unchanged state
  end.

Definition method_capability (method : VerificationMethod) : VerificationMethodCapability :=
  match method with
  | Method_ExistingDeviceSas => Capability_ExistingDeviceSas
  | Method_RecoveryKey => Capability_RecoveryKey
  | Method_SecurityPhrase => Capability_SecurityPhrase
  | Method_Bootstrap => Capability_Bootstrap
  end.

Definition set_gate_failure (gate : VerificationGateState)
    (failure : option VerificationGateFailureKind) : VerificationGateState :=
  {| methods := methods gate; account_kind := account_kind gate; gate_failure := failure |}.

Definition handle_verification_method_submitted (state : AppState) (method : VerificationMethod)
    (flow_id : Z) : Reduced :=
  match session state with
  | Session_AwaitingVerification info gate =>
      if negb (bool_decide (method_capability method ∈ methods gate)) then unchanged state
      else if negb (eqb (bool_decide (method = Method_Bootstrap))
                        (bool_decide (account_kind gate = Account_NewIdentity)))
      then unchanged state
      else
        let state :=
          state <| device_cleanup := Cleanup_Idle |>
            <| session := Session_Verifying info (set_gate_failure gate None) method flow_id [] |> in
        let '(state, verification_cleared) := clear_stale_verification_flow state in
        (state,
         [BeginSessionVerification method flow_id; EmitUiEvent SessionChanged]
         ++ emit verification_cleared E2eeTrustChanged)
  | _ => unchanged state
  end.

Definition handle_verification_gate_attempt_failed (state : AppState) (flow_id : Z)
    (kind : VerificationGateFailureKind) : Reduced :=
  match session state with
  | Session_Verifying info gate _ active_flow_id _ =>
      if negb (active_flow_id =? flow_id) then unchanged state
      else
        (state <| device_cleanup := Cleanup_Offered Offer_RecoveryFailed |>
           <| session := Session_AwaitingVerification info (set_gate_failure gate (Some kind)) |>,
         [EmitUiEvent SessionChanged])
  | _ => unchanged state
  end.

(** ** Device cleanup *)

Definition session_changed (state : AppState) (cleanup : DeviceCleanupState) : Reduced :=
  (state <| device_cleanup := cleanup |>, [EmitUiEvent SessionChanged]).

Definition handle_device_cleanup_start_requested (state : AppState) (request_id : Z) : Reduced :=
  match session state with
  | Session_AwaitingVerification _ _ | Session_Provisional _ (Phase_RecheckingTrust _) =>
      match device_cleanup state with
      | Cleanup_Offered _ | Cleanup_RemoteFailed _ _ _ =>
          session_changed state (Cleanup_ResolvingRemote request_id)
      | Cleanup_LocalResetFailed _ (Local_RemoteRemoved outcome) _ =>
          session_changed state (Cleanup_ResettingLocal request_id (Local_RemoteRemoved outcome))
      | Cleanup_LocalResetFailed _ Local_RemoteMayRemain _ =>
          session_changed state (Cleanup_ErasingLocalAnyway request_id)
      | _ => unchanged state
      end
  | _ => unchanged state
  end.

Definition handle_device_cleanup_remote_started (state : AppState) (request_id : Z)
    (auth_mode : DeviceCleanupAuthMode) : Reduced :=
  match device_cleanup state with
  | Cleanup_ResolvingRemote active =>
      if active =? request_id
      then session_changed state (Cleanup_RemovingRemote request_id auth_mode)
      else unchanged state
  | _ => unchanged state
  end.

Definition handle_device_cleanup_uia_required (state : AppState) (request_id flow_id : Z)
  : Reduced :=
  match device_cleanup state with
  | Cleanup_RemovingRemote active Cleanup_Legacy =>
      if active =? request_id
      then session_changed state (Cleanup_AwaitingUia request_id flow_id)
      else unchanged state
  | _ => unchanged state
  end.

Definition handle_device_cleanup_uia_submitted (state : AppState) (request_id flow_id : Z)
  : Reduced :=
  match device_cleanup state with
  | Cleanup_AwaitingUia active active_flow_id =>
      if (active =? request_id) && (active_flow_id =? flow_id)
      then session_changed state (Cleanup_RemovingRemote request_id Cleanup_Legacy)
      else unchanged state
  | _ => unchanged state
  end.

Definition handle_device_cleanup_remote_settled (state : AppState) (request_id : Z)
    (outcome : DeviceCleanupRemoteOutcome) : Reduced :=
  match device_cleanup state with
  | Cleanup_RemovingRemote active _ =>
      if active =? request_id
      then session_changed state (Cleanup_ResettingLocal request_id (Local_RemoteRemoved outcome))
      else unchanged state
  | _ => unchanged state
  end.

Definition handle_device_cleanup_remote_failed (state : AppState) (request_id : Z)
    (auth_mode : DeviceCleanupAuthMode) (kind : DeviceCleanupFailureKind) : Reduced :=
  match device_cleanup state with
  | Cleanup_RemovingRemote active active_auth_mode =>
      if (active =? request_id) && bool_decide (active_auth_mode = auth_mode)
      then session_changed state (Cleanup_RemoteFailed request_id auth_mode kind)
      else unchanged state
  | _ => unchanged state
  end.

Definition handle_device_cleanup_erase_local_anyway_requested (state : AppState) (request_id : Z)
  : Reduced :=
  match device_cleanup state with
  | Cleanup_RemoteFailed _ _ _ => session_changed state (Cleanup_ErasingLocalAnyway request_id)
  | _ => unchanged state
  end.

Definition handle_device_cleanup_local_reset_failed (state : AppState) (request_id : Z)
    (kind : DeviceCleanupFailureKind) : Reduced :=
  match device_cleanup state with
  | Cleanup_ResettingLocal active mode =>
      if active =? request_id
      then session_changed state (Cleanup_LocalResetFailed request_id mode kind)
      else unchanged state
  | Cleanup_ErasingLocalAnyway active =>
      if active =? request_id
      then session_changed state (Cleanup_LocalResetFailed request_id Local_RemoteMayRemain kind)
      else unchanged state
  | _ => unchanged state
  end.

Definition handle_device_cleanup_completed (state : AppState) (request_id : Z) : Reduced :=
  match device_cleanup state with
  | Cleanup_ResettingLocal active _ | Cleanup_ErasingLocalAnyway active =>
      if active =? request_id
      then (reset_app_state_preserving_account_epoch state, [EmitUiEvent SessionChanged])
      else unchanged state
  | _ => unchanged state
  end.

(** ** Identity bootstrap *)

Definition set_secure_backup_setup (state : AppState) (setup : SecureBackupSetupState) : AppState :=
  state <| e2ee_trust ::= fun e =>
    e <| key_management ::= fun k => k <| secure_backup_setup := setup |> |> |>.

Definition handle_bootstrap_recovery_key_ready (state : AppState) (flow_id : Z)
    (recovery_key : RecoveryKeyMaterial) : Reduced :=
  match session state with
  | Session_Verifying info gate Method_Bootstrap active_flow_id _ =>
      if negb (active_flow_id =? flow_id)
         || negb (bool_decide (account_kind gate = Account_NewIdentity))
      then unchanged state
      else
        (set_secure_backup_setup
           (state <| session := Session_AwaitingBootstrapConfirmation info gate flow_id |>)
           (Setup_RecoveryKeyReady flow_id recovery_key Delivery_NotWritten false),
         [EmitUiEvent SessionChanged; EmitUiEvent E2eeTrustChanged;
          EmitUiEvent E2eeKeyManagementChanged])
  | _ => unchanged state
  end.

Definition handle_bootstrap_recovery_key_delivery_failed (state : AppState) (flow_id : Z)
    (kind : VerificationGateFailureKind) : Reduced :=
  match session state with
  | Session_Verifying info gate Method_Bootstrap active_flow_id _ =>
      if negb (active_flow_id =? flow_id)
         || negb (bool_decide (account_kind gate = Account_NewIdentity))
      then unchanged state
      else
        (state <| session := Session_AwaitingVerification info (set_gate_failure gate (Some kind)) |>,
         [EmitUiEvent SessionChanged])
  | _ => unchanged state
  end.

Definition handle_bootstrap_recovery_saved_confirmed (state : AppState) (flow_id : Z) : Reduced :=
  match session state with
  | Session_AwaitingBootstrapConfirmation info _ active_flow_id =>
      if negb (active_flow_id =? flow_id) then unchanged state
      else
        let state := state <| session := Session_Provisional info (Phase_RecheckingTrust None) |> in
        let effects := [CheckCurrentDeviceTrust; EmitUiEvent SessionChanged] in
        match secure_backup_setup (key_management (e2ee_trust state)) with
        | Setup_RecoveryKeyReady request_id _ _ _ =>
            if request_id =? flow_id
            then (set_secure_backup_setup state (Setup_Enabled flow_id),
                  effects ++ [EmitUiEvent E2eeTrustChanged; EmitUiEvent E2eeKeyManagementChanged])
            else (state, effects)
        | _ => (state, effects)
        end
  | _ => unchanged state
  end.

Definition handle_bootstrap_recovery_saved_confirm_failed (state : AppState) (flow_id : Z)
  : Reduced :=
  match session state with
  | Session_AwaitingBootstrapConfirmation _ _ active =>
      if negb (active =? flow_id) then unchanged state
      else
        match secure_backup_setup (key_management (e2ee_trust state)) with
        | Setup_RecoveryKeyReady request_id recovery_key delivery confirmation_failed =>
            if negb (request_id =? flow_id) || confirmation_failed then unchanged state
            else
              (set_secure_backup_setup state
                 (Setup_RecoveryKeyReady request_id recovery_key delivery true),
               [EmitUiEvent E2eeTrustChanged; EmitUiEvent E2eeKeyManagementChanged])
        | _ => unchanged state
        end
  | _ => unchanged state
  end.

Definition handle_verification_session_rejected (state : AppState)
    (reason : VerificationGateRejectReason) : Reduced :=
  match session state with
  | Session_Provisional info _ | Session_AwaitingVerification info _
  | Session_Verifying info _ _ _ _ | Session_AwaitingBootstrapConfirmation info _ _ =>
      let state :=
        state <| session := Session_Rejecting info reason |> <| device_cleanup := Cleanup_Idle |>
          <| sync := Sync_Stopped |> in
      let '(state, effects) := clear_session_views state in
      (state, [RejectProvisionalSession] ++ effects)
  | _ => unchanged state
  end.

Definition handle_provisional_session_discarded (state : AppState) : Reduced :=
  match session state with
  | Session_Rejecting _ _ =>
      (reset_app_state_preserving_account_epoch state, [EmitUiEvent SessionChanged])
  | _ => unchanged state
  end.

(** ** Restore, login and discovery *)

Definition handle_restore_session_not_found (state : AppState) : Reduced :=
  (state <| session := Session_SignedOut |> <| session_lock_reason := None |>
     <| sliding_sync_capability := Cap_Unknown |>,
   [EmitUiEvent SessionChanged]).

Definition handle_restore_session_failed (state : AppState) (message : string) : Reduced :=
  (push_error "restore_failed" message None
     (state <| session := Session_SignedOut |> <| session_lock_reason := None |>
        <| sliding_sync_capability := Cap_Unknown |>),
   [EmitUiEvent SessionChanged; EmitUiEvent ErrorChanged]).

Definition admit_authentication_start (state : AppState) (attempt_id : LoginAttemptId)
    (homeserver : string) : option AppState :=
  match session state with
  | Session_SignedOut | Session_Authenticating _ _ =>
      Some (state <| session := Session_Authenticating homeserver attempt_id |>
              <| session_lock_reason := None |> <| sliding_sync_capability := Cap_Unknown |>)
  | _ => None
  end.

Definition handle_login_submitted (state : AppState) (attempt_id : LoginAttemptId)
    (request : LoginRequest) : Reduced :=
  match admit_authentication_start state attempt_id (login_homeserver request) with
  | Some state => (state, [Login attempt_id request; EmitUiEvent SessionChanged])
  | None => unchanged state
  end.

Definition handle_authentication_started (state : AppState) (attempt_id : LoginAttemptId)
    (homeserver : string) : Reduced :=
  match admit_authentication_start state attempt_id homeserver with
  | Some state => (state, [EmitUiEvent SessionChanged])
  | None => unchanged state
  end.

Definition handle_login_failed (state : AppState) (attempt_id : LoginAttemptId)
    (message : string) (reason : option AuthFailureKind) : Reduced :=
  match session state with
  | Session_Authenticating _ active_attempt_id =>
      if decide (active_attempt_id = attempt_id) then
        (push_error "login_failed" message reason
           (state <| session := Session_SignedOut |> <| session_lock_reason := None |>
              <| sliding_sync_capability := Cap_Unknown |>),
         [EmitUiEvent SessionChanged; EmitUiEvent ErrorChanged])
      else unchanged state
  | _ => unchanged state
  end.

Definition handle_login_discovery_requested (state : AppState) (homeserver : string) : Reduced :=
  (state <| auth := Discovery_Discovering homeserver |>,
   [DiscoverLogin homeserver; EmitUiEvent AuthChanged]).

Definition handle_login_discovery_succeeded (state : AppState) (homeserver : string)
    (flows : list LoginFlow) (delegated : DelegatedAuthLinks) : Reduced :=
  match auth state with
  | Discovery_Discovering active =>
      if decide (active = homeserver)
      then (state <| auth := Discovery_Ready homeserver flows delegated |>, [EmitUiEvent AuthChanged])
      else unchanged state
  | _ => unchanged state
  end.

Definition handle_login_discovery_failed (state : AppState) (homeserver : string)
    (kind : AuthFailureKind) : Reduced :=
  match auth state with
  | Discovery_Discovering active =>
      if decide (active = homeserver)
      then (state <| auth := Discovery_Failed homeserver kind |>, [EmitUiEvent AuthChanged])
      else unchanged state
  | _ => unchanged state
  end.

Definition handle_active_session_account_management_url_resolved (state : AppState)
    (info : SessionInfo) (url : option string) : Reduced :=
  match session state with
  | Session_Ready active =>
      if negb (bool_decide (active = info)) || bool_decide (account_management_url state = url)
      then unchanged state
      else (state <| account_management_url := url |>, [EmitUiEvent SessionChanged])
  | _ => unchanged state
  end.

Definition handle_session_persistence_failed (state : AppState) (message : string) : Reduced :=
  (push_error "session_persistence_failed" message None state, [EmitUiEvent ErrorChanged]).

(** ** Lock, logout, switch and re-authentication *)

Definition handle_session_locked (state : AppState) : Reduced :=
  gate_ready_session state Phase_DiscoveringMethods.

Definition handle_session_authentication_invalidated (state : AppState) (soft_logout : bool)
  : Reduced :=
  lock_ready_session state (Lock_UnknownToken soft_logout).

Definition handle_logout_requested (state : AppState) : Reduced :=
  let state :=
    state <| session := Session_LoggingOut |> <| session_lock_reason := None |>
      <| sliding_sync_capability := Cap_Unknown |> <| device_cleanup := Cleanup_Idle |>
      <| sync := Sync_Stopped |> in
  let '(state, effects) := clear_session_views state in
  (state, [StopSync; EmitUiEvent SessionChanged] ++ effects).

Definition handle_logout_finished (state : AppState) : Reduced :=
  (reset_app_state_preserving_account_epoch state, [EmitUiEvent SessionChanged]).

Definition handle_switch_account_requested (state : AppState) (info : SessionInfo) : Reduced :=
  if decide (current_session_info state = Some info) then unchanged state
  else
    let state :=
      state <| session := Session_SwitchingAccount info |> <| session_lock_reason := None |>
        <| sliding_sync_capability := Cap_Unknown |> <| sync := Sync_Stopped |> in
    let '(state, effects) := clear_session_views state in
    (state, [EmitUiEvent SessionChanged] ++ effects).

Definition handle_soft_logout_reauth_requested (state : AppState) (request_id : Z) : Reduced :=
  let can_reauth :=
    is_session_ready state
    || match session state with Session_Locked _ => true | _ => false end in
  if negb can_reauth || negb (bool_decide (soft_logout_reauth state = Reauth_Idle))
  then unchanged state
  else (state <| soft_logout_reauth := Reauth_Authenticating request_id |>,
        [EmitUiEvent SoftLogoutReauthChanged]).

Definition reauth_active (state : AppState) (request_id : Z) : bool :=
  match soft_logout_reauth state with
  | Reauth_Authenticating active => active =? request_id
  | _ => false
  end.

Definition handle_soft_logout_reauth_session_installed (state : AppState) (request_id : Z)
    (info : SessionInfo) : Reduced :=
  if negb (reauth_active state request_id)
     || negb (match session state with Session_Locked _ => true | _ => false end)
  then unchanged state
  else
    (state <| session_lock_reason := None |>
       <| session := Session_Provisional info Phase_CheckingTrust |> <| sync := Sync_Stopped |>,
     [EmitUiEvent SessionChanged]).

Definition handle_soft_logout_reauth_succeeded (state : AppState) (request_id : Z) : Reduced :=
  if reauth_active state request_id
  then (state <| soft_logout_reauth := Reauth_Succeeded request_id |>,
        [EmitUiEvent SoftLogoutReauthChanged])
  else unchanged state.

Definition handle_soft_logout_reauth_failed (state : AppState) (request_id : Z)
    (kind : AuthFailureKind) : Reduced :=
  if reauth_active state request_id
  then (state <| soft_logout_reauth := Reauth_Failed request_id kind |>,
        [EmitUiEvent SoftLogoutReauthChanged])
  else unchanged state.

(** ** Automation *)

#[export] Hint Unfold
  handle_app_started handle_restore_session_requested install_provisional_session
  handle_restore_session_succeeded handle_login_succeeded promote_verified_session
  handle_secure_backup_gate_changed gate_ready_session lock_ready_session
  settle_gated_trust handle_current_device_trust_changed
  handle_verification_methods_discovered
  handle_verification_method_discovery_failed
  handle_verification_method_discovery_retry_started handle_verification_method_submitted
  handle_verification_gate_attempt_failed session_changed
  handle_device_cleanup_start_requested handle_device_cleanup_remote_started
  handle_device_cleanup_uia_required handle_device_cleanup_uia_submitted
  handle_device_cleanup_remote_settled handle_device_cleanup_remote_failed
  handle_device_cleanup_erase_local_anyway_requested
  handle_device_cleanup_local_reset_failed handle_device_cleanup_completed
  handle_bootstrap_recovery_key_ready handle_bootstrap_recovery_key_delivery_failed
  handle_bootstrap_recovery_saved_confirmed handle_bootstrap_recovery_saved_confirm_failed
  handle_verification_session_rejected handle_provisional_session_discarded
  handle_restore_session_not_found handle_restore_session_failed admit_authentication_start
  handle_login_submitted handle_authentication_started handle_login_failed
  handle_login_discovery_requested handle_login_discovery_succeeded
  handle_login_discovery_failed handle_active_session_account_management_url_resolved
  handle_session_persistence_failed handle_session_locked
  handle_session_authentication_invalidated handle_logout_requested handle_logout_finished
  handle_switch_account_requested handle_soft_logout_reauth_requested
  handle_soft_logout_reauth_session_installed handle_soft_logout_reauth_succeeded
  handle_soft_logout_reauth_failed reset_app_state_preserving_account_epoch
  set_secure_backup_setup : handlers.
