(* ===== verification/E2ee.v ===== *)
(** End-to-end encryption trust: the handlers of
    [crates/koushi-state/src/reducer/e2ee.rs], with the account-management handlers of
    [reducer/account.rs]. *)

From stdpp Require Import base list strings.
From Stdlib Require Import ZArith Lia.
From S2P Require Import Prelude AppState Session.
Local Open Scope string_scope.
Local Open Scope list_scope.
Local Open Scope Z_scope.

(** ** Recovery through the verification gate *)

Definition recovery_gate (methods : list RecoveryMethod)
    (failure : option VerificationGateFailureKind) : VerificationGateState :=
  {| methods := (fun m => match m with
                          | Recovery_RecoveryKey => Capability_RecoveryKey
                          | Recovery_SecurityPhrase => Capability_SecurityPhrase
                          end) <$> methods;
     account_kind := Account_ExistingIdentity;
     gate_failure := failure |}.

Definition handle_e2ee_recovery_required (state : AppState) (info : SessionInfo)
    (methods : list RecoveryMethod) : Reduced :=
  match session state with
  | Session_Provisional current Phase_DiscoveringMethods =>
      if decide (current = info) then
        let '(state, cleared_login_error) := clear_login_failed_errors state in
        let state :=
          state <| session := Session_AwaitingVerification info (recovery_gate methods None) |>
            <| sync := Sync_Stopped |> in
        let '(state, effects) := clear_session_views state in
        (state, [EmitUiEvent SessionChanged] ++ effects ++ emit cleared_login_error ErrorChanged)
      else unchanged state
  | _ => unchanged state
  end.

Definition handle_gate_sas_presented (state : AppState) (flow_id : Z) (emojis : list SasEmoji)
  : Reduced :=
  if negb (bool_decide (length emojis = 7%nat)) then unchanged state
  else
    match session state with
    | Session_Verifying info gate Method_ExistingDeviceSas active_flow_id _ =>
        if negb (active_flow_id =? flow_id) then unchanged state
        else
          (state <| session :=
             Session_Verifying info gate Method_ExistingDeviceSas active_flow_id emojis |>,
           [EmitUiEvent SessionChanged])
    | _ => unchanged state
    end.

Definition recovery_submit_method (gate : VerificationGateState) : option VerificationMethod :=
  if bool_decide (Capability_RecoveryKey ∈ methods gate) then Some Method_RecoveryKey
  else if bool_decide (Capability_SecurityPhrase ∈ methods gate) then Some Method_SecurityPhrase
  else None.

Definition handle_e2ee_recovery_submitted (state : AppState) (flow_id : Z)
    (request : RecoveryRequest) : Reduced :=
  match session state with
  | Session_AwaitingVerification info gate =>
      match recovery_submit_method gate with
      | Some method =>
          let state :=
            state <| device_cleanup := Cleanup_Idle |>
              <| session := Session_Verifying info gate method flow_id [] |> in
          let '(state, verification_cleared) := clear_stale_verification_flow state in
          (state,
           [RecoverE2ee request; EmitUiEvent SessionChanged]
           ++ emit verification_cleared E2eeTrustChanged)
      | None => unchanged state
      end
  | _ => unchanged state
  end.

Definition is_recovery_method (method : VerificationMethod) : bool :=
  match method with Method_RecoveryKey | Method_SecurityPhrase => true | _ => false end.

Definition handle_e2ee_recovery_succeeded (state : AppState) : Reduced :=
  match session state with
  | Session_Verifying info _ method _ _ =>
      if is_recovery_method method then
        (state <| session := Session_Ready info |> <| sync := Sync_Starting |>,
         [PersistSession info; StartSync; EmitUiEvent SessionChanged])
      else unchanged state
  | _ => unchanged state
  end.

Definition handle_e2ee_recovery_failed (state : AppState) (message : string) : Reduced :=
  match session state with
  | Session_Verifying info gate method _ _ =>
      if is_recovery_method method then
        (push_error "e2ee_recovery_failed" message None
           (state <| device_cleanup := Cleanup_Offered Offer_RecoveryFailed |>
              <| session := Session_AwaitingVerification info
                   (set_gate_failure gate (Some GateFailure_Sdk)) |>),
         [EmitUiEvent SessionChanged; EmitUiEvent ErrorChanged])
      else unchanged state
  | _ => unchanged state
  end.

Definition handle_e2ee_recovery_state_changed (state : AppState)
    (recovery_state : E2eeRecoveryState) (methods : list RecoveryMethod) : Reduced :=
  match recovery_state with
  | E2eeRecovery_Unknown => unchanged state
  | E2eeRecovery_Incomplete =>
      match current_session_info state with
      | Some info =>
          if negb (has_verification_gate_projection_context state) then unchanged state
          else
            (state <| session := Session_AwaitingVerification info (recovery_gate methods None) |>,
             [EmitUiEvent SessionChanged])
      | None => unchanged state
      end
  | E2eeRecovery_Enabled | E2eeRecovery_Disabled =>
      match session state with
      | Session_AwaitingVerification info _ =>
          (state <| session := Session_Provisional info (Phase_RecheckingTrust None) |>,
           [CheckCurrentDeviceTrust; EmitUiEvent SessionChanged])
      | _ => unchanged state
      end
  end.

(** ** Device and user verification *)

Definition verification_request_id (v : VerificationFlowState) : option Z :=
  match v with
  | Verification_Idle => None
  | Verification_Requested request_id _ _ | Verification_Accepted request_id _ _
  | Verification_SasPresented request_id _ _ | Verification_Confirming request_id _ _
  | Verification_Done request_id _ | Verification_Failed request_id _ _ => Some request_id
  end.

Definition verification_target (v : VerificationFlowState) : option VerificationTarget :=
  match v with
  | Verification_Idle => None
  | Verification_Requested _ target _ | Verification_Accepted _ target _
  | Verification_SasPresented _ target _ | Verification_Confirming _ target _
  | Verification_Done _ target | Verification_Failed _ target _ => Some target
  end.

Definition verification_emojis (v : VerificationFlowState) : list SasEmoji :=
  match v with
  | Verification_SasPresented _ _ emojis | Verification_Confirming _ _ emojis => emojis
  | _ => []
  end.

Definition verification_is_active (v : VerificationFlowState) : bool :=
  match v with
  | Verification_Requested _ _ _ | Verification_Accepted _ _ _
  | Verification_SasPresented _ _ _ | Verification_Confirming _ _ _ => true
  | _ => false
  end.

Definition set_verification (state : AppState) (v : VerificationFlowState) : AppState :=
  state <| e2ee_trust ::= fun e => e <| verification := v |> |>.

Definition handle_verification_requested (state : AppState) (request_id : Z)
    (target : VerificationTarget) (initiator : VerificationInitiator) : Reduced :=
  if negb (is_session_ready state) || is_in_progress (verification (e2ee_trust state))
  then unchanged state
  else (set_verification state (Verification_Requested request_id target initiator),
        [RequestVerification request_id target; EmitUiEvent E2eeTrustChanged]).

Definition handle_verification_accepted (state : AppState) (request_id : Z) : Reduced :=
  match verification (e2ee_trust state) with
  | Verification_Requested active target initiator =>
      if negb (active =? request_id) then unchanged state
      else (set_verification state (Verification_Accepted request_id target initiator),
            [AcceptVerification request_id; EmitUiEvent E2eeTrustChanged])
  | _ => unchanged state
  end.

Definition handle_verification_sas_presented (state : AppState) (request_id : Z)
    (emojis : list SasEmoji) : Reduced :=
  match verification (e2ee_trust state) with
  | Verification_Requested active target _ | Verification_Accepted active target _
  | Verification_SasPresented active target _ =>
      if negb (active =? request_id) then unchanged state
      else (set_verification state (Verification_SasPresented request_id target emojis),
            [EmitUiEvent E2eeTrustChanged])
  | _ => unchanged state
  end.

Definition handle_verification_confirmed (state : AppState) (request_id : Z) : Reduced :=
  match verification (e2ee_trust state) with
  | Verification_SasPresented active target _ =>
      if negb (active =? request_id) then unchanged state
      else (set_verification state
              (Verification_Confirming request_id target
                 (verification_emojis (verification (e2ee_trust state)))),
            [ConfirmSasVerification request_id; EmitUiEvent E2eeTrustChanged])
  | _ => unchanged state
  end.

(** The guard shared by the settlements of the device-verification flow. *)
Definition verification_admits (state : AppState) (request_id : Z) : bool :=
  verification_is_active (verification (e2ee_trust state))
  && bool_decide (verification_request_id (verification (e2ee_trust state)) = Some request_id).

Definition cancel_flow (state : AppState) (request_id : Z) (reason : VerificationCancelReason)
  : Reduced :=
  if negb (verification_admits state request_id) then unchanged state
  else
    let cancelled v :=
      (set_verification state v,
       [CancelVerification request_id reason; EmitUiEvent E2eeTrustChanged]) in
    match reason, verification (e2ee_trust state) with
    | Cancel_User, _ => cancelled Verification_Idle
    | Cancel_Mismatch, (Verification_SasPresented _ target _ | Verification_Confirming _ target _) =>
        cancelled (Verification_Failed request_id target TrustFailure_Mismatch)
    | Cancel_Mismatch, _ => unchanged state
    end.

Definition handle_verification_cancelled (state : AppState) (request_id : Z)
    (reason : VerificationCancelReason) : Reduced :=
  match session state with
  | Session_Verifying info gate _ flow_id _ =>
      if flow_id =? request_id then
        let failure := match reason with
                       | Cancel_User => GateFailure_Cancelled
                       | Cancel_Mismatch => GateFailure_Mismatch
                       end in
        (state <| session := Session_AwaitingVerification info (set_gate_failure gate (Some failure)) |>,
         [CancelVerification request_id reason; EmitUiEvent SessionChanged])
      else cancel_flow state request_id reason
  | _ => cancel_flow state request_id reason
  end.

Definition complete_flow (state : AppState) (request_id : Z) : Reduced :=
  if negb (verification_admits state request_id) then unchanged state
  else
    match verification_target (verification (e2ee_trust state)) with
    | Some target => (set_verification state (Verification_Done request_id target),
                      [EmitUiEvent E2eeTrustChanged])
    | None => unchanged state
    end.

Definition handle_verification_completed (state : AppState) (request_id : Z) : Reduced :=
  match session state with
  | Session_Verifying info _ Method_ExistingDeviceSas flow_id _ =>
      if flow_id =? request_id then
        (state <| session := Session_Provisional info (Phase_RecheckingTrust None) |>,
         [CheckCurrentDeviceTrust; EmitUiEvent SessionChanged])
      else complete_flow state request_id
  | _ => complete_flow state request_id
  end.

Definition gate_failure_of_trust_failure (kind : TrustOperationFailureKind)
  : VerificationGateFailureKind :=
  match kind with
  | TrustFailure_Cancelled => GateFailure_Cancelled
  | TrustFailure_Mismatch => GateFailure_Mismatch
  | TrustFailure_InvalidPassphrase => GateFailure_Sdk
  | TrustFailure_Network => GateFailure_Network
  | TrustFailure_Forbidden => GateFailure_Forbidden
  | TrustFailure_Timeout => GateFailure_Timeout
  | TrustFailure_Sdk => GateFailure_Sdk
  end.

Definition fail_flow (state : AppState) (request_id : Z) (kind : TrustOperationFailureKind)
  : Reduced :=
  if negb (verification_admits state request_id) then unchanged state
  else
    match verification_target (verification (e2ee_trust state)) with
    | Some target => (set_verification state (Verification_Failed request_id target kind),
                      [EmitUiEvent E2eeTrustChanged])
    | None => unchanged state
    end.

Definition handle_verification_failed (state : AppState) (request_id : Z)
    (kind : TrustOperationFailureKind) : Reduced :=
  match session state with
  | Session_Verifying info gate Method_ExistingDeviceSas flow_id _ =>
      if flow_id =? request_id then
        (state <| session := Session_AwaitingVerification info
                    (set_gate_failure gate (Some (gate_failure_of_trust_failure kind))) |>,
         [EmitUiEvent SessionChanged])
      else fail_flow state request_id kind
  | _ => fail_flow state request_id kind
  end.

(** ** Cross-signing, key backup and identity reset *)

Definition set_cross_signing (state : AppState) (status : CrossSigningStatus) : AppState :=
  state <| e2ee_trust ::= fun e => e <| cross_signing := status |> |>.
Definition set_key_backup (state : AppState) (status : KeyBackupStatus) : AppState :=
  state <| e2ee_trust ::= fun e => e <| key_backup := status |> |>.
Definition set_identity_reset (state : AppState) (reset : IdentityResetState) : AppState :=
  state <| e2ee_trust ::= fun e => e <| identity_reset := reset |> |>.

Definition is_bootstrapping (status : CrossSigningStatus) : bool :=
  match status with CrossSigning_Bootstrapping _ => true | _ => false end.

Definition handle_cross_signing_status_changed (state : AppState) (status : CrossSigningStatus)
  : Reduced :=
  if negb (is_session_ready state) then unchanged state
  else if is_bootstrapping (cross_signing (e2ee_trust state))
          && negb (bool_decide (status = CrossSigning_Trusted))
  then unchanged state
  else (set_cross_signing state status, [EmitUiEvent E2eeTrustChanged]).

Definition handle_bootstrap_cross_signing_requested (state : AppState) (request_id : Z) : Reduced :=
  if negb (is_session_ready state) || is_bootstrapping (cross_signing (e2ee_trust state))
  then unchanged state
  else (set_cross_signing state (CrossSigning_Bootstrapping request_id),
        [BootstrapCrossSigning request_id; EmitUiEvent E2eeTrustChanged]).

Definition handle_bootstrap_cross_signing_failed (state : AppState) (request_id : Z)
    (kind : TrustOperationFailureKind) : Reduced :=
  if decide (cross_signing (e2ee_trust state) = CrossSigning_Bootstrapping request_id)
  then (set_cross_signing state (CrossSigning_Failed request_id kind),
        [EmitUiEvent E2eeTrustChanged])
  else unchanged state.

Definition key_backup_busy (status : KeyBackupStatus) : bool :=
  match status with KeyBackup_Enabling _ | KeyBackup_Restoring _ _ _ _ => true | _ => false end.

Definition key_backup_request_matches (status : KeyBackupStatus) (request_id : Z) : bool :=
  match status with
  | KeyBackup_Enabling current | KeyBackup_Restoring current _ _ _ => current =? request_id
  | _ => false
  end.

Definition key_backup_restore_request_matches (status : KeyBackupStatus) (request_id : Z) : bool :=
  match status with
  | KeyBackup_Restoring current _ _ _ => current =? request_id
  | _ => false
  end.

Definition handle_enable_key_backup_requested (state : AppState) (request_id : Z) : Reduced :=
  if negb (is_session_ready state) || key_backup_busy (key_backup (e2ee_trust state))
  then unchanged state
  else (set_key_backup state (KeyBackup_Enabling request_id),
        [EnableKeyBackup request_id; EmitUiEvent E2eeTrustChanged]).

Definition handle_key_backup_enabled (state : AppState) (request_id : Z) (version : string)
  : Reduced :=
  if decide (key_backup (e2ee_trust state) = KeyBackup_Enabling request_id)
  then (set_key_backup state (KeyBackup_Enabled version), [EmitUiEvent E2eeTrustChanged])
  else unchanged state.

Definition handle_key_backup_failed (state : AppState) (request_id : Z)
    (kind : TrustOperationFailureKind) : Reduced :=
  if key_backup_request_matches (key_backup (e2ee_trust state)) request_id
  then (set_key_backup state (KeyBackup_Failed request_id kind), [EmitUiEvent E2eeTrustChanged])
  else unchanged state.

Definition handle_restore_key_backup_requested (state : AppState) (request_id : Z)
    (version : option string) : Reduced :=
  if negb (is_session_ready state) || key_backup_busy (key_backup (e2ee_trust state))
  then unchanged state
  else (set_key_backup state (KeyBackup_Restoring request_id version 0 None),
        [RestoreKeyBackup request_id version; EmitUiEvent E2eeTrustChanged]).

Definition handle_key_backup_restore_progress (state : AppState) (request_id restored_rooms : Z)
    (total_rooms : option Z) : Reduced :=
  match key_backup (e2ee_trust state) with
  | KeyBackup_Restoring _ version _ _ =>
      if key_backup_request_matches (key_backup (e2ee_trust state)) request_id
      then (set_key_backup state (KeyBackup_Restoring request_id version restored_rooms total_rooms),
            [EmitUiEvent E2eeTrustChanged])
      else unchanged state
  | _ => unchanged state
  end.

Definition handle_key_backup_restored (state : AppState) (request_id : Z)
    (version : option string) : Reduced :=
  if key_backup_restore_request_matches (key_backup (e2ee_trust state)) request_id
  then (set_key_backup state
          match version with
          | Some version => KeyBackup_Enabled version
          | None => KeyBackup_Unknown
          end,
        [EmitUiEvent E2eeTrustChanged])
  else unchanged state.

Definition identity_reset_busy (reset : IdentityResetState) : bool :=
  match reset with Reset_Resetting _ | Reset_AwaitingAuth _ _ => true | _ => false end.

Definition identity_reset_request_matches (reset : IdentityResetState) (request_id : Z) : bool :=
  match reset with
  | Reset_Resetting current | Reset_AwaitingAuth current _ => current =? request_id
  | _ => false
  end.

Definition handle_reset_identity_requested (state : AppState) (request_id : Z) : Reduced :=
  if negb (is_session_ready state) || identity_reset_busy (identity_reset (e2ee_trust state))
  then unchanged state
  else (set_identity_reset state (Reset_Resetting request_id),
        [ResetIdentity request_id; EmitUiEvent E2eeTrustChanged]).

Definition handle_reset_identity_auth_required (state : AppState) (request_id : Z)
    (auth_type : IdentityResetAuthType) : Reduced :=
  if decide (identity_reset (e2ee_trust state) = Reset_Resetting request_id)
  then (set_identity_reset state (Reset_AwaitingAuth request_id auth_type),
        [EmitUiEvent E2eeTrustChanged])
  else unchanged state.

Definition handle_reset_identity_auth_submitted (state : AppState) (request_id : Z) : Reduced :=
  match identity_reset (e2ee_trust state) with
  | Reset_AwaitingAuth current _ =>
      if current =? request_id
      then (set_identity_reset state (Reset_Resetting request_id), [EmitUiEvent E2eeTrustChanged])
      else unchanged state
  | _ => unchanged state
  end.

Definition handle_reset_identity_failed (state : AppState) (request_id : Z)
    (kind : TrustOperationFailureKind) : Reduced :=
  if identity_reset_request_matches (identity_reset (e2ee_trust state)) request_id
  then (set_cross_signing (set_identity_reset state (Reset_Failed request_id kind))
          (CrossSigning_Failed request_id kind),
        [EmitUiEvent E2eeTrustChanged])
  else unchanged state.

Definition handle_reset_identity_cancelled (state : AppState) (request_id : Z) : Reduced :=
  handle_reset_identity_failed state request_id TrustFailure_Cancelled.

Definition handle_reset_identity_timed_out (state : AppState) (request_id : Z) : Reduced :=
  handle_reset_identity_failed state request_id TrustFailure_Timeout.

Definition handle_reset_identity_completed (state : AppState) (request_id : Z) : Reduced :=
  if identity_reset_request_matches (identity_reset (e2ee_trust state)) request_id
  then
    (state <| e2ee_trust ::= fun e =>
       e <| identity_reset := Reset_Idle |> <| verification := Verification_Idle |>
         <| cross_signing := CrossSigning_Missing |> <| key_backup := KeyBackup_Disabled |> |>,
     [EmitUiEvent E2eeTrustChanged])
  else unchanged state.

(** ** Key management *)

Definition e2ee_key_management_events : list AppEffect :=
  [EmitUiEvent E2eeTrustChanged; EmitUiEvent E2eeKeyManagementChanged].

Definition km (state : AppState) : E2eeKeyManagementState := key_management (e2ee_trust state).

Definition set_room_key_export (state : AppState) (x : RoomKeyExportState) : Reduced :=
  (state <| e2ee_trust ::= fun e =>
     e <| key_management ::= fun k => k <| room_key_export := x |> |> |>,
   e2ee_key_management_events).
Definition set_room_key_import (state : AppState) (x : RoomKeyImportState) : Reduced :=
  (state <| e2ee_trust ::= fun e =>
     e <| key_management ::= fun k => k <| room_key_import := x |> |> |>,
   e2ee_key_management_events).
Definition set_setup (state : AppState) (x : SecureBackupSetupState) : Reduced :=
  (set_secure_backup_setup state x, e2ee_key_management_events).
Definition set_passphrase (state : AppState) (x : SecureBackupPassphraseChangeState) : Reduced :=
  (state <| e2ee_trust ::= fun e =>
     e <| key_management ::= fun k => k <| passphrase_change := x |> |> |>,
   e2ee_key_management_events).

Definition handle_room_key_export_requested (state : AppState) (request_id : Z) : Reduced :=
  if negb (is_session_ready state)
     || match room_key_export (km state) with Export_Exporting _ => true | _ => false end
  then unchanged state
  else set_room_key_export state (Export_Exporting request_id).

Definition handle_room_key_exported (state : AppState) (request_id : Z)
    (exported_sessions : option Z) : Reduced :=
  if decide (room_key_export (km state) = Export_Exporting request_id)
  then set_room_key_export state (Export_Exported request_id exported_sessions)
  else unchanged state.

Definition handle_room_key_export_failed (state : AppState) (request_id : Z)
    (kind : TrustOperationFailureKind) : Reduced :=
  if decide (room_key_export (km state) = Export_Exporting request_id)
  then set_room_key_export state (Export_Failed request_id kind)
  else unchanged state.

Definition handle_room_key_import_requested (state : AppState) (request_id : Z) : Reduced :=
  if negb (is_session_ready state)
     || match room_key_import (km state) with Import_Importing _ => true | _ => false end
  then unchanged state
  else set_room_key_import state (Import_Importing request_id).

Definition handle_room_key_imported (state : AppState)
    (request_id imported_count total_count : Z) : Reduced :=
  if decide (room_key_import (km state) = Import_Importing request_id)
  then set_room_key_import state (Import_Imported request_id imported_count total_count)
  else unchanged state.

Definition handle_room_key_import_failed (state : AppState) (request_id : Z)
    (kind : TrustOperationFailureKind) : Reduced :=
  if decide (room_key_import (km state) = Import_Importing request_id)
  then set_room_key_import state (Import_Failed request_id kind)
  else unchanged state.

Definition setup_busy (s : SecureBackupSetupState) : bool :=
  match s with Setup_SettingUp _ | Setup_RecoveryKeyReady _ _ _ _ => true | _ => false end.
Definition passphrase_busy (s : SecureBackupPassphraseChangeState) : bool :=
  match s with Passphrase_Changing _ | Passphrase_Changed _ _ _ => true | _ => false end.

Definition recovery_key_flow_busy (state : AppState) : bool :=
  setup_busy (secure_backup_setup (km state)) || passphrase_busy (passphrase_change (km state)).

Definition handle_secure_backup_setup_requested (state : AppState) (request_id : Z)
    (intent : SecureBackupSetupIntent) : Reduced :=
  if negb (is_session_ready state) || recovery_key_flow_busy state
     || negb (match setup_intent_admission intent (secure_backup_gate state) with
              | Admission_Allowed => true | _ => false end)
  then unchanged state
  else set_setup state (Setup_SettingUp request_id).

Definition handle_secure_backup_recovery_key_ready (state : AppState) (request_id : Z)
    (recovery_key : RecoveryKeyMaterial) : Reduced :=
  if decide (secure_backup_setup (km state) = Setup_SettingUp request_id)
  then set_setup state (Setup_RecoveryKeyReady request_id recovery_key Delivery_NotWritten false)
  else unchanged state.

Definition handle_secure_backup_setup_failed (state : AppState) (request_id : Z)
    (kind : TrustOperationFailureKind) : Reduced :=
  if decide (secure_backup_setup (km state) = Setup_SettingUp request_id)
  then set_setup state (Setup_Failed request_id kind)
  else unchanged state.

Definition handle_secure_backup_passphrase_change_requested (state : AppState) (request_id : Z)
  : Reduced :=
  if negb (is_session_ready state) || recovery_key_flow_busy state then unchanged state
  else set_passphrase state (Passphrase_Changing request_id).

Definition handle_secure_backup_passphrase_changed (state : AppState) (request_id : Z)
    (recovery_key : RecoveryKeyMaterial) : Reduced :=
  if decide (passphrase_change (km state) = Passphrase_Changing request_id)
  then set_passphrase state (Passphrase_Changed request_id recovery_key Delivery_NotWritten)
  else unchanged state.

(** [if *delivery == outcome || *delivery == Written { return }] *)
Definition delivery_settled (delivery outcome : RecoveryKeyDeliveryState) : bool :=
  bool_decide (delivery = outcome) || bool_decide (delivery = Delivery_Written).

Definition save_changed_key (state : AppState) (reveal_request_id : Z)
    (outcome : RecoveryKeyDeliveryState) : Reduced :=
  match passphrase_change (km state) with
  | Passphrase_Changed request_id key delivery =>
      if negb (request_id =? reveal_request_id) || delivery_settled delivery outcome
      then unchanged state
      else set_passphrase state (Passphrase_Changed request_id key outcome)
  | _ => unchanged state
  end.

Definition handle_secure_backup_recovery_key_saved (state : AppState) (reveal_request_id : Z)
    (written : bool) : Reduced :=
  let outcome := if written then Delivery_Written else Delivery_WriteFailed in
  match secure_backup_setup (km state) with
  | Setup_RecoveryKeyReady request_id key delivery confirmation_failed =>
      if request_id =? reveal_request_id then
        if delivery_settled delivery outcome then unchanged state
        else set_setup state (Setup_RecoveryKeyReady request_id key outcome confirmation_failed)
      else save_changed_key state reveal_request_id outcome
  | _ => save_changed_key state reveal_request_id outcome
  end.

Definition confirm_changed_key (state : AppState) (reveal_request_id : Z) : Reduced :=
  match passphrase_change (km state) with
  | Passphrase_Changed request_id _ _ =>
      if request_id =? reveal_request_id then set_passphrase state Passphrase_Idle
      else unchanged state
  | _ => unchanged state
  end.

Definition handle_secure_backup_recovery_key_confirmed (state : AppState)
    (reveal_request_id : Z) : Reduced :=
  match secure_backup_setup (km state) with
  | Setup_RecoveryKeyReady request_id _ _ _ =>
      if request_id =? reveal_request_id then
        let '(state, effects) := set_setup state (Setup_Enabled reveal_request_id) in
        if decide (secure_backup_gate state = SBGate_RecoveryKeyDeliveryRequired)
        then (state <| secure_backup_gate := SBGate_Checking |>,
              effects ++ [EmitUiEvent SessionChanged])
        else (state, effects)
      else confirm_changed_key state reveal_request_id
  | _ => confirm_changed_key state reveal_request_id
  end.

Definition handle_secure_backup_recovery_key_confirm_failed (state : AppState)
    (reveal_request_id : Z) (recovery_key : RecoveryKeyMaterial)
    (delivery : RecoveryKeyDeliveryState) : Reduced :=
  if negb (is_session_ready state) || recovery_key_flow_busy state
     || negb (bool_decide (secure_backup_setup (km state) = Setup_Enabled reveal_request_id))
  then unchanged state
  else
    let '(state, effects) :=
      set_setup state (Setup_RecoveryKeyReady reveal_request_id recovery_key delivery true) in
    if decide (secure_backup_gate state ≠ SBGate_RecoveryKeyDeliveryRequired)
    then (state <| secure_backup_gate := SBGate_RecoveryKeyDeliveryRequired |>,
          effects ++ [EmitUiEvent SessionChanged])
    else (state, effects).

Definition handle_secure_backup_passphrase_change_failed (state : AppState) (request_id : Z)
    (kind : TrustOperationFailureKind) : Reduced :=
  if decide (passphrase_change (km state) = Passphrase_Changing request_id)
  then set_passphrase state (Passphrase_Failed request_id kind)
  else unchanged state.

(** ** QR login *)

Definition set_qr_login (state : AppState) (x : QrLoginState) : Reduced :=
  (state <| qr_login := x |>, [EmitUiEvent QrLoginChanged]).

Definition handle_qr_login_capability_check_requested (state : AppState) (request_id : Z) : Reduced :=
  match qr_login state with
  | Qr_CheckingCapability _ | Qr_Displaying _ | Qr_Scanning _ => unchanged state
  | _ => set_qr_login state (Qr_CheckingCapability request_id)
  end.

Definition handle_qr_login_unavailable (state : AppState) (request_id : Z) : Reduced :=
  match qr_login state with
  | Qr_CheckingCapability active =>
      if active =? request_id then set_qr_login state Qr_Unavailable else unchanged state
  | _ => unchanged state
  end.

Definition handle_qr_login_display_requested (state : AppState) (request_id : Z) : Reduced :=
  match qr_login state with
  | Qr_Displaying _ | Qr_Scanning _ => unchanged state
  | _ => set_qr_login state (Qr_Displaying request_id)
  end.

Definition handle_qr_login_scan_started (state : AppState) (request_id : Z) : Reduced :=
  match qr_login state with
  | Qr_Displaying active =>
      if active =? request_id then set_qr_login state (Qr_Scanning request_id) else unchanged state
  | _ => unchanged state
  end.

Definition handle_qr_login_verified (state : AppState) (request_id : Z) : Reduced :=
  match qr_login state with
  | Qr_Displaying active | Qr_Scanning active =>
      if active =? request_id then set_qr_login state (Qr_Verified request_id) else unchanged state
  | _ => unchanged state
  end.

Definition handle_qr_login_failed (state : AppState) (request_id : Z) (kind : AuthFailureKind)
  : Reduced :=
  match qr_login state with
  | Qr_CheckingCapability active | Qr_Displaying active | Qr_Scanning active =>
      if active =? request_id then set_qr_login state (Qr_Failed request_id kind)
      else unchanged state
  | _ => unchanged state
  end.

(** ** Own-session checks *)

Definition handle_own_sessions_checked (state : AppState) (checked : list DeviceTrustSummary)
    (current_session_verified : bool) : Reduced :=
  if negb (is_session_ready state) then unchanged state
  else
    let alert := unverified_own_sessions_alert checked current_session_verified in
    if bool_decide (devices (e2ee_trust state) = checked)
       && bool_decide (own_sessions_alert (e2ee_trust state) = alert)
    then unchanged state
    else (state <| e2ee_trust ::= fun e =>
            e <| devices := checked |> <| own_sessions_alert := alert |> |>,
          [EmitUiEvent E2eeTrustChanged]).

Definition handle_unverified_own_sessions_alert_dismissed (state : AppState) : Reduced :=
  match own_sessions_alert (e2ee_trust state) with
  | None => unchanged state
  | Some _ => (state <| e2ee_trust ::= fun e => e <| own_sessions_alert := None |> |>,
               [EmitUiEvent E2eeTrustChanged])
  end.

(** ** Account management ([reducer/account.rs]) *)

Definition set_account_management (state : AppState) (x : AccountManagementState) : Reduced :=
  (state <| account_management := x |>, [EmitUiEvent AccountManagementChanged]).

Definition account_management_matches (x : AccountManagementState) (request_id : Z)
    (operation : AccountManagementOperation) : bool :=
  match x with
  | Account_Working active active_operation | Account_AwaitingUia active _ active_operation =>
      (active =? request_id) && bool_decide (active_operation = operation)
  | _ => false
  end.

Definition handle_account_management_requested (state : AppState) (request_id : Z)
    (operation : AccountManagementOperation) : Reduced :=
  if negb (is_session_ready state)
     || match account_management state with
        | Account_Working _ _ | Account_AwaitingUia _ _ _ => true
        | _ => false
        end
  then unchanged state
  else set_account_management state (Account_Working request_id operation).

Definition handle_account_management_uia_required (state : AppState) (request_id flow_id : Z)
    (operation : AccountManagementOperation) : Reduced :=
  match account_management state with
  | Account_Working active active_operation =>
      if (active =? request_id) && bool_decide (active_operation = operation)
      then set_account_management state (Account_AwaitingUia request_id flow_id operation)
      else unchanged state
  | _ => unchanged state
  end.

Definition handle_account_management_succeeded (state : AppState) (request_id : Z)
    (operation : AccountManagementOperation) : Reduced :=
  if account_management_matches (account_management state) request_id operation
  then set_account_management state (Account_Succeeded request_id operation)
  else unchanged state.

Definition handle_account_management_failed (state : AppState) (request_id : Z)
    (operation : AccountManagementOperation) (kind : AuthFailureKind) : Reduced :=
  if account_management_matches (account_management state) request_id operation
  then set_account_management state (Account_Failed request_id operation kind)
  else unchanged state.

Definition handle_account_management_auth_submitted (state : AppState) (request_id flow_id : Z)
  : Reduced :=
  match account_management state with
  | Account_AwaitingUia active active_flow_id operation =>
      if (active =? request_id) && (active_flow_id =? flow_id)
      then set_account_management state (Account_Working request_id operation)
      else unchanged state
  | _ => unchanged state
  end.

Definition set_account_capabilities (state : AppState) (c : AccountManagementCapabilities) : Reduced :=
  (state <| account_management_capabilities := c |>,
   [EmitUiEvent AccountManagementCapabilitiesChanged]).

Definition handle_account_management_capabilities_load_requested (state : AppState) : Reduced :=
  set_account_capabilities state AccountManagementCapabilities_default.

Definition handle_account_management_capabilities_loaded (state : AppState)
    (change deactivate : bool) : Reduced :=
  let capability (enabled : bool) :=
    if enabled then CapabilityState_Enabled else CapabilityState_Disabled in
  set_account_capabilities state
    {| change_password := capability change; deactivate_account := capability deactivate |}.

Definition handle_account_management_capabilities_load_failed (state : AppState) : Reduced :=
  set_account_capabilities state AccountManagementCapabilities_default.

(** ** Automation *)

#[export] Hint Unfold
  handle_e2ee_recovery_required handle_gate_sas_presented handle_e2ee_recovery_submitted
  handle_e2ee_recovery_succeeded handle_e2ee_recovery_failed
  handle_e2ee_recovery_state_changed handle_verification_requested
  handle_verification_accepted handle_verification_sas_presented
  handle_verification_confirmed cancel_flow handle_verification_cancelled complete_flow
  handle_verification_completed fail_flow handle_verification_failed
  handle_cross_signing_status_changed handle_bootstrap_cross_signing_requested
  handle_bootstrap_cross_signing_failed handle_enable_key_backup_requested
  handle_key_backup_enabled handle_key_backup_failed handle_restore_key_backup_requested
  handle_key_backup_restore_progress handle_key_backup_restored
  handle_reset_identity_requested handle_reset_identity_auth_required
  handle_reset_identity_auth_submitted handle_reset_identity_failed
  handle_reset_identity_cancelled handle_reset_identity_timed_out
  handle_reset_identity_completed set_room_key_export set_room_key_import set_setup
  set_passphrase handle_room_key_export_requested handle_room_key_exported
  handle_room_key_export_failed handle_room_key_import_requested handle_room_key_imported
  handle_room_key_import_failed handle_secure_backup_setup_requested
  handle_secure_backup_recovery_key_ready handle_secure_backup_setup_failed
  handle_secure_backup_passphrase_change_requested handle_secure_backup_passphrase_changed
  save_changed_key handle_secure_backup_recovery_key_saved confirm_changed_key
  handle_secure_backup_recovery_key_confirmed
  handle_secure_backup_recovery_key_confirm_failed
  handle_secure_backup_passphrase_change_failed set_qr_login
  handle_qr_login_capability_check_requested handle_qr_login_unavailable
  handle_qr_login_display_requested handle_qr_login_scan_started handle_qr_login_verified
  handle_qr_login_failed handle_own_sessions_checked
  handle_unverified_own_sessions_alert_dismissed set_account_management
  handle_account_management_requested handle_account_management_uia_required
  handle_account_management_succeeded handle_account_management_failed
  handle_account_management_auth_submitted set_account_capabilities
  handle_account_management_capabilities_load_requested
  handle_account_management_capabilities_loaded
  handle_account_management_capabilities_load_failed set_verification set_cross_signing
  set_key_backup set_identity_reset : handlers.
