(* ===== verification/SlidingSync.v ===== *)
(** Sliding-sync capability admission: the handlers of
    [crates/koushi-state/src/reducer/sliding_sync.rs]. *)

From stdpp Require Import base list strings.
From Stdlib Require Import ZArith Lia.
From S2P Require Import Prelude AppState.
Local Open Scope string_scope.
Local Open Scope list_scope.
Local Open Scope Z_scope.

Definition same_session_identity (left right : SessionInfo) : bool :=
  bool_decide (homeserver left = homeserver right)
  && bool_decide (user_id left = user_id right)
  && bool_decide (device_id left = device_id right).

Definition initial_admission_matches_session (state : AppState) (admission : SlidingSyncAdmission)
  : bool :=
  match admission, session state with
  | NewLogin attempt_id, Session_Authenticating _ active => bool_decide (attempt_id = active)
  | StoredSessionRestore _, Session_Restoring => true
  | StoredSessionRestore info, Session_SwitchingAccount target => same_session_identity info target
  | _, _ => false
  end.

Definition blocked_admission_matches_session (state : AppState) (admission : SlidingSyncAdmission)
  : bool :=
  match admission, session state with
  | NewLogin attempt_id, Session_Authenticating _ active => bool_decide (attempt_id = active)
  | StoredSessionRestore info, Session_CapabilityBlocked active _ => bool_decide (info = active)
  | _, _ => false
  end.

Definition revalidation_session_matches (state : AppState) (admission : SlidingSyncAdmission)
  : bool :=
  match admission with
  | StoredSessionRestore info =>
      match session state with
      | Session_Ready active | Session_Locked active => bool_decide (info = active)
      | _ => false
      end
  | NewLogin _ => false
  end.

Definition handle_started (state : AppState) (account_epoch request_id : Z)
    (admission : SlidingSyncAdmission)
    (positive_evidence : option SlidingSyncPositiveEvidence) : Reduced :=
  match sliding_sync_capability state with
  | Cap_Unknown =>
      if (account_epoch <=? sliding_sync_account_epoch state)
         || negb (initial_admission_matches_session state admission)
      then unchanged state
      else
        (state <| sliding_sync_account_epoch := account_epoch |>
           <| sliding_sync_capability :=
                Cap_Checking account_epoch request_id admission positive_evidence |>,
         [EmitUiEvent SessionChanged])
  | _ => unchanged state
  end.

Definition failure_for_result (result : SlidingSyncCapabilityResult)
  : option SlidingSyncCapabilityFailureKind :=
  match result with
  | CapResult_Supported _ => None
  | CapResult_Unsupported => Some CapFailure_Unsupported
  | CapResult_Unreachable => Some CapFailure_Unreachable
  | CapResult_InvalidResponse => Some CapFailure_InvalidResponse
  end.

Definition is_retryable_failure (failure : SlidingSyncCapabilityFailureKind) : bool :=
  match failure with
  | CapFailure_Unreachable | CapFailure_InvalidResponse => true
  | CapFailure_Unsupported => false
  end.

(** The tail of [handle_completed], once the check failed with [failure]. *)
Definition complete_failed (state : AppState) (account_epoch request_id : Z)
    (admission : SlidingSyncAdmission) (positive_evidence : option SlidingSyncPositiveEvidence)
    (failure : SlidingSyncCapabilityFailureKind) : Reduced :=
  let blocked state :=
    (state <| sliding_sync_capability :=
       Cap_Blocked account_epoch request_id admission failure positive_evidence |>,
     [EmitUiEvent SessionChanged]) in
  match admission, positive_evidence, is_retryable_failure failure with
  | StoredSessionRestore _, Some evidence, true =>
      (state <| sliding_sync_capability :=
         Cap_Supported account_epoch request_id admission evidence (Reval_Pending failure) |>,
       [ContinueSlidingSyncAdmission account_epoch request_id (admission_kind admission)
          Source_PositiveCache;
        ScheduleSlidingSyncCapabilityRevalidation account_epoch;
        EmitUiEvent SessionChanged])
  | StoredSessionRestore info, _, _ =>
      blocked (state <| session := Session_CapabilityBlocked info failure |>
                 <| session_lock_reason := None |>)
  | NewLogin _, _, _ => blocked state
  end.

Definition handle_completed (state : AppState) (account_epoch request_id : Z)
    (result : SlidingSyncCapabilityResult) : Reduced :=
  match sliding_sync_capability state with
  | Cap_Checking active_epoch active_request_id admission positive_evidence =>
      if negb (active_epoch =? account_epoch) || negb (active_request_id =? request_id)
         || negb (sliding_sync_account_epoch state =? account_epoch)
         || negb (initial_admission_matches_session state admission)
      then unchanged state
      else
        match result with
        | CapResult_Supported evidence =>
            (state <| sliding_sync_capability :=
               Cap_Supported account_epoch request_id admission evidence Reval_NotRequired |>,
             [ContinueSlidingSyncAdmission account_epoch request_id (admission_kind admission)
                Source_Network;
              EmitUiEvent SessionChanged])
        | _ =>
            (* [failure_for_result(&result).expect(..)]: [None] is the panic *)
            match failure_for_result result with
            | Some failure =>
                complete_failed state account_epoch request_id admission positive_evidence failure
            | None => unchanged state
            end
        end
  | _ => unchanged state
  end.

Definition handle_retry (state : AppState) (account_epoch blocked_request_id request_id : Z)
  : Reduced :=
  match sliding_sync_capability state with
  | Cap_Blocked active_epoch active_request_id admission _ positive_evidence =>
      if negb (active_epoch =? account_epoch)
         || negb (sliding_sync_account_epoch state =? account_epoch)
         || negb (active_request_id =? blocked_request_id)
         || (request_id <=? blocked_request_id)
         || negb (blocked_admission_matches_session state admission)
      then unchanged state
      else
        let state :=
          match admission with
          | StoredSessionRestore _ =>
              state <| session := Session_Restoring |> <| session_lock_reason := None |>
          | NewLogin _ => state
          end in
        (state <| sliding_sync_capability :=
           Cap_Checking account_epoch request_id admission positive_evidence |>,
         [RetrySlidingSyncCapabilityDiscovery account_epoch blocked_request_id request_id;
          EmitUiEvent SessionChanged])
  | _ => unchanged state
  end.

Definition handle_revalidation_started (state : AppState) (account_epoch request_id : Z) : Reduced :=
  match sliding_sync_capability state with
  | Cap_Supported active_epoch latest_request_id admission evidence (Reval_Pending _) =>
      if negb (active_epoch =? account_epoch)
         || negb (sliding_sync_account_epoch state =? account_epoch)
         || (request_id <=? latest_request_id)
         || negb (is_session_ready state)
         || negb (revalidation_session_matches state admission)
      then unchanged state
      else
        (state <| sliding_sync_capability :=
           Cap_Supported active_epoch latest_request_id admission evidence
             (Reval_Checking request_id) |>,
         [EmitUiEvent SessionChanged])
  | _ => unchanged state
  end.

Definition handle_revalidation_completed (state : AppState) (account_epoch request_id : Z)
    (result : SlidingSyncCapabilityResult) : Reduced :=
  match sliding_sync_capability state with
  | Cap_Supported active_epoch latest_request_id admission prior_evidence
      (Reval_Checking active_request_id) =>
      if negb (active_epoch =? account_epoch)
         || negb (sliding_sync_account_epoch state =? account_epoch)
         || negb (active_request_id =? request_id)
         || (request_id <=? latest_request_id)
         || negb (revalidation_session_matches state admission)
      then unchanged state
      else
        match result with
        | CapResult_Supported evidence =>
            (state <| sliding_sync_capability :=
               Cap_Supported account_epoch request_id admission evidence Reval_NotRequired |>,
             [SettleSlidingSyncCapabilityRevalidation account_epoch request_id
                (CapResult_Supported evidence);
              EmitUiEvent SessionChanged])
        | CapResult_Unsupported =>
            match admission with
            | NewLogin _ => unchanged state
            | StoredSessionRestore info =>
                let state :=
                  state <| session := Session_CapabilityBlocked info CapFailure_Unsupported |>
                    <| session_lock_reason := None |> <| sync := Sync_Stopped |>
                    <| sliding_sync_capability :=
                         Cap_Blocked account_epoch request_id admission CapFailure_Unsupported
                           (Some prior_evidence) |> in
                let '(state, effect) := withdraw_scheduled_send_persistence_failure state in
                (state,
                 [SettleSlidingSyncCapabilityRevalidation account_epoch request_id
                    CapResult_Unsupported;
                  EmitUiEvent SessionChanged] ++ opt_list effect)
            end
        | CapResult_Unreachable | CapResult_InvalidResponse =>
            match failure_for_result result with
            | Some failure =>
                (state <| sliding_sync_capability :=
                   Cap_Supported account_epoch request_id admission prior_evidence
                     (Reval_Pending failure) |>,
                 [SettleSlidingSyncCapabilityRevalidation account_epoch request_id result;
                  EmitUiEvent SessionChanged])
            | None => unchanged state
            end
        end
  | _ => unchanged state
  end.

(** ** Automation *)

#[export] Hint Unfold
  handle_started complete_failed handle_completed handle_retry handle_revalidation_started
  handle_revalidation_completed : handlers.
