(* ===== verification/SessionStatus.v ===== *)
(** Current-session status checks: the scheduler of
    [crates/koushi-state/src/reducer/session_status.rs], and the connectivity handlers of
    [reducer/sync.rs] that arm it. *)

From stdpp Require Import base list strings.
From Stdlib Require Import ZArith Lia.
From S2P Require Import Prelude AppState.
Local Open Scope string_scope.
Local Open Scope list_scope.
Local Open Scope Z_scope.

(** ** Due times *)

Definition last_known_details (s : CurrentSessionStatusState)
  : option CurrentSessionStatusDetails :=
  match s with
  | SessStatus_Ready _ details => Some details
  | SessStatus_Checking _ _ last_known _ | SessStatus_Failed _ _ _ last_known _ => last_known
  | SessStatus_Idle => None
  end.

Definition consecutive_failures (s : CurrentSessionStatusState) : Z :=
  match s with
  | SessStatus_Checking _ _ _ failures | SessStatus_Failed _ _ _ _ failures => failures
  | SessStatus_Idle | SessStatus_Ready _ _ => 0
  end.

Definition settled_interval (s : CurrentSessionStatusState) : option (Z * Z) :=
  match s with
  | SessStatus_Idle | SessStatus_Checking _ _ _ _ => None
  | SessStatus_Ready _ details => Some (checked_at_ms details, SESSION_STATUS_FRESHNESS_MS)
  | SessStatus_Failed _ _ checked_at _ failures =>
      Some (checked_at, session_status_failure_backoff_ms failures)
  end.

Definition due_at_ms (s : CurrentSessionStatusState) : Z :=
  match settled_interval s with
  | Some (checked_at, interval) => u64_saturating_add checked_at interval
  | None => 0
  end.

Definition is_due (s : CurrentSessionStatusState) (now_ms : Z) : bool :=
  match settled_interval s with
  | None => match s with SessStatus_Idle => true | _ => false end
  | Some (checked_at, interval) =>
      (now_ms <? checked_at) || (interval <=? now_ms - checked_at)
  end.

Definition connectivity_proven (state : AppState) : bool :=
  match sync state with Sync_Running => true | _ => false end.

Definition is_checking (s : CurrentSessionStatusState) : bool :=
  match s with SessStatus_Checking _ _ _ _ => true | _ => false end.

(** ** Arming and admission *)

Definition arm (state : AppState) (trigger : SessionStatusRefreshTrigger)
  : AppState * option AppEffect :=
  if negb (is_session_ready state) || negb (connectivity_proven state)
     || is_checking (current_session_status state)
  then (state, None)
  else
    let due := due_at_ms (current_session_status state) in
    let next := u64_wrapping_add (token (current_session_status_schedule state)) 1 in
    (state <| current_session_status_schedule ::= fun schedule =>
       schedule <| token := next |>
         <| armed := Some {| armed_token := next; armed_due_at_ms := due;
                             armed_trigger := trigger |} |> |>,
     Some (ArmCurrentSessionStatusCheck next due)).

(** [arm(..).into_iter().collect()] *)
Definition arm_effects (r : AppState * option AppEffect) : Reduced := (r.1, opt_list r.2).

Definition record_decision (state : AppState) (trigger : SessionStatusRefreshTrigger)
    (decision : SessionStatusCheckDecision) : AppState :=
  state <| current_session_status_schedule ::= fun s => record s trigger decision |>.

Definition admit_decision (state : AppState) (trigger : SessionStatusRefreshTrigger) (now_ms : Z)
  : SessionStatusCheckDecision :=
  if negb (is_session_ready state) then Decision_Deferred
  else if is_checking (current_session_status state) then Decision_Joined
  else if negb (bool_decide (trigger = Trigger_Manual))
          && negb (is_due (current_session_status state) now_ms)
  then Decision_Deferred
  else Decision_Started.

Definition admit_check (state : AppState) (request_id : Z) (trigger : SessionStatusRefreshTrigger)
    (now_ms : Z) : Reduced :=
  let decision := admit_decision state trigger now_ms in
  let state := record_decision state trigger decision in
  if decide (decision ≠ Decision_Started) then (state, [])
  else
    (state <| current_session_status ::= fun s =>
       SessStatus_Checking request_id trigger (last_known_details s) (consecutive_failures s) |>
       <| current_session_status_schedule ::= fun s => s <| armed := None |> |>,
     [RefreshCurrentSessionStatus request_id trigger]).

Definition handle_refresh_requested (state : AppState) (request_id : Z)
    (trigger : SessionStatusRefreshTrigger) (now_ms : Z) : Reduced :=
  admit_check state request_id trigger now_ms.

Definition handle_check_due (state : AppState) (tok now_ms : Z) : Reduced :=
  match armed (current_session_status_schedule state) with
  | Some arm_ =>
      if negb (armed_token arm_ =? tok) then unchanged state
      else
        let state :=
          state <| current_session_status_schedule ::= fun s => s <| armed := None |> |> in
        let checking := is_checking (current_session_status state) in
        if negb (is_session_ready state) then (state, [])
        else if negb (connectivity_proven state) && negb checking
        then (record_decision state (armed_trigger arm_) Decision_Dropped, [])
        else if negb checking && negb (is_due (current_session_status state) now_ms)
        then arm_effects (arm (record_decision state (armed_trigger arm_) Decision_Deferred)
                            (armed_trigger arm_))
        else
          let '(schedule, request_id) := next_request_id (current_session_status_schedule state) in
          admit_check (state <| current_session_status_schedule := schedule |>) request_id
            (armed_trigger arm_) now_ms
  | None => unchanged state
  end.

Definition handle_connectivity_proven (state : AppState) : AppState * option AppEffect :=
  let trigger :=
    match current_session_status state with
    | SessStatus_Idle => Trigger_Scheduled
    | _ => Trigger_Recovery
    end in
  arm state trigger.

Definition checking_matches (s : CurrentSessionStatusState) (request_id : Z) : bool :=
  match s with
  | SessStatus_Checking active _ _ _ => active =? request_id
  | _ => false
  end.

Definition bump_stat (state : AppState) (f : SessionStatusCheckStats -> SessionStatusCheckStats)
  : AppState :=
  state <| current_session_status_schedule ::= fun s => s <| stats ::= f |> |>.

Definition handle_refreshed (state : AppState) (request_id : Z)
    (details : CurrentSessionStatusDetails) : Reduced :=
  if negb (checking_matches (current_session_status state) request_id) then unchanged state
  else
    let state := state <| current_session_status := SessStatus_Ready request_id details |> in
    let state := bump_stat state (fun s =>
      s <| stat_succeeded ::= fun n => u64_saturating_add n 1 |>) in
    arm_effects (arm state Trigger_Scheduled).

Definition handle_refresh_failed (state : AppState) (request_id : Z)
    (kind : CurrentSessionStatusFailureKind) (checked_at : Z) : Reduced :=
  if negb (checking_matches (current_session_status state) request_id) then unchanged state
  else
    let state := state <| current_session_status ::= fun s =>
      SessStatus_Failed request_id kind checked_at (last_known_details s)
        (u32_saturating_add (consecutive_failures s) 1) |> in
    let state := bump_stat state (fun s =>
      s <| stat_failed ::= fun n => u64_saturating_add n 1 |>) in
    arm_effects (arm state Trigger_Scheduled).

Definition reset (state : AppState) : AppState :=
  state <| current_session_status := SessStatus_Idle |>
    <| current_session_status_schedule ::= retire |>.

Definition invalidate_if_trust_disagrees (state : AppState) (trust : CurrentDeviceTrustState)
  : AppState * bool :=
  if is_none_or (last_known_details (current_session_status state))
       (fun details => negb (bool_decide (details_verification details = trust)))
  then (reset state, true)
  else (state, false).

Definition arm_after_reset (state : AppState) : AppState * option AppEffect :=
  arm state Trigger_Scheduled.

(** ** Sync connectivity ([reducer/sync.rs]) *)

Definition sync_state_from_status (status : SyncLifecycleStatus) : SyncState :=
  match status with
  | Status_Stopped => Sync_Stopped
  | Status_Starting => Sync_Starting
  | Status_Running => Sync_Running
  | Status_Failed reason => Sync_Failed reason
  | Status_Reconnecting reason => Sync_Reconnecting reason
  end.

Definition is_running_sync (s : SyncState) : bool :=
  match s with Sync_Running => true | _ => false end.

Definition handle_sync_status_changed (state : AppState) (generation : Z)
    (status : SyncLifecycleStatus) : Reduced :=
  if generation <=? sync_generation state then unchanged state
  else
    let state := state <| sync_generation := generation |> in
    let was_proven := is_running_sync (sync state) in
    let next := if is_session_ready state then sync_state_from_status status else Sync_Stopped in
    if decide (sync state = next) then (state, [])
    else
      let is_proven := is_running_sync next in
      let state := state <| sync := next |> in
      let effects :=
        [EmitUiEvent RoomListChanged]
        ++ (if eqb was_proven is_proven then [] else [SyncConnectivityChanged is_proven]) in
      if negb was_proven && is_proven
      then let '(state, effect) := handle_connectivity_proven state in
           (state, effects ++ opt_list effect)
      else (state, effects).

Definition handle_sync_started (state : AppState) : Reduced :=
  if negb (is_session_ready state) then unchanged state
  else
    match sync state with
    | Sync_Starting | Sync_Failed _ | Sync_Reconnecting _ =>
        (state <| sync := Sync_Running |>, [EmitUiEvent RoomListChanged])
    | Sync_Running | Sync_Stopped => unchanged state
    end.

Definition handle_sync_failed (state : AppState) (reason : string) : Reduced :=
  if negb (is_session_ready state) || bool_decide (sync state = Sync_Stopped)
  then unchanged state
  else
    let auth_failure := bool_decide (reason = "sync_failed_auth") in
    let state := state <| sync := Sync_Failed reason |> in
    if auth_failure then
      let state :=
        match current_session_info state with
        | Some info =>
            state <| session := Session_Locked info |> <| session_lock_reason := None |>
        | None => state
        end in
      let state := push_error "sync_auth_required" "sign-in required" None state in
      let '(state, _) := withdraw_scheduled_send_persistence_failure state in
      (state, [EmitUiEvent RoomListChanged; EmitUiEvent SessionChanged; EmitUiEvent ErrorChanged])
    else (state, [EmitUiEvent RoomListChanged; StartSync]).

Definition handle_sync_reconnecting (state : AppState) (reason : string) : Reduced :=
  if negb (is_session_ready state) || bool_decide (sync state = Sync_Stopped)
  then unchanged state
  else (state <| sync := Sync_Reconnecting reason |>, [EmitUiEvent RoomListChanged]).

Definition handle_sync_recovered (state : AppState) : Reduced :=
  if negb (is_session_ready state) then unchanged state
  else
    match sync state with
    | Sync_Failed _ | Sync_Reconnecting _ =>
        (state <| sync := Sync_Running |>, [EmitUiEvent RoomListChanged])
    | _ => unchanged state
    end.

Definition handle_sync_stopped (state : AppState) : Reduced :=
  if decide (sync state = Sync_Stopped) then unchanged state
  else (state <| sync := Sync_Stopped |>, [EmitUiEvent RoomListChanged]).

(** ** Automation *)

#[export] Hint Unfold
  arm arm_effects admit_check handle_refresh_requested handle_check_due
  handle_connectivity_proven handle_refreshed handle_refresh_failed
  invalidate_if_trust_disagrees arm_after_reset handle_sync_status_changed
  handle_sync_started handle_sync_failed handle_sync_reconnecting handle_sync_recovered
  handle_sync_stopped record_decision bump_stat reset : handlers.
