(* ===== verification/HistoryExport.v ===== *)
(** History export: the reducer of [crates/koushi-state/src/reducer/history_export.rs]. *)

From stdpp Require Import base list strings.
From Stdlib Require Import ZArith Lia.
From S2P Require Import Prelude AppState.
Local Open Scope string_scope.
Local Open Scope list_scope.
Local Open Scope Z_scope.

Definition changed : list AppEffect := [EmitUiEvent HistoryExportChanged].

Definition set_export (state : AppState) (h : HistoryExportState) : Reduced :=
  (state <| history_export := h |>, changed).

Definition target_is_known (state : AppState) (scope : HistoryExportScope) : bool :=
  match scope with
  | Scope_Room id => existsb (fun r => bool_decide (room_id r = id)) (rooms state)
  | Scope_Space id => existsb (fun s => bool_decide (space_id s = id)) (spaces state)
  end.

Definition handle_requested (state : AppState) (request_id : Z) (scope : HistoryExportScope)
    (range : HistoryExportRange) : Reduced :=
  if negb (is_session_ready state)
     || bool_decide (active_request_id (history_export state) ≠ None)
     || negb (range_is_valid range) || negb (target_is_known state scope)
  then unchanged state
  else set_export state (HistExport_Preparing request_id scope range false).

Definition handle_retry_requested (state : AppState) (request_id target_request_id : Z) : Reduced :=
  if negb (is_session_ready state) then unchanged state
  else
    match history_export state with
    | HistExport_Completed settled scope range _ | HistExport_Stopped settled scope range _
    | HistExport_Failed settled scope range _ _ =>
        if settled =? target_request_id
        then set_export state (HistExport_Preparing request_id scope range false)
        else unchanged state
    | _ => unchanged state
    end.

Definition handle_prepared (state : AppState) (request_id : Z) (rooms : list HistoryExportRoom)
  : Reduced :=
  match history_export state with
  | HistExport_Preparing active scope range stop_requested =>
      if active =? request_id
      then set_export state (HistExport_Running request_id scope range rooms stop_requested)
      else unchanged state
  | _ => unchanged state
  end.

(** [running_room]: the room a progress report addresses; [update_running_room] writes
    through the [&mut HistoryExportRoom] it returns. *)
Definition running_room (state : AppState) (request_id : Z) (room_id : string)
  : option HistoryExportRoom :=
  match history_export state with
  | HistExport_Running active _ _ rooms _ =>
      if active =? request_id
      then find_first (fun room => bool_decide (export_room_id room = room_id)) rooms
      else None
  | _ => None
  end.

Definition update_running_room (state : AppState) (room_id : string)
    (f : HistoryExportRoom -> HistoryExportRoom) : Reduced :=
  match history_export state with
  | HistExport_Running active scope range rooms stop_requested =>
      set_export state
        (HistExport_Running active scope range
           (update_first (fun room => bool_decide (export_room_id room = room_id)) f rooms)
           stop_requested)
  | _ => unchanged state
  end.

Definition handle_room_progressed (state : AppState) (request_id : Z) (room_id : string)
    (new_phase : HistoryExportRoomPhase) (new_counts : HistoryExportRoomCounts) : Reduced :=
  if is_settled new_phase then unchanged state
  else
    match running_room state request_id room_id with
    | None => unchanged state
    | Some room =>
        if is_settled (phase room) || (phase_rank new_phase <? phase_rank (phase room))
           || (bool_decide (new_phase = phase room) && bool_decide (new_counts = counts room))
        then unchanged state
        else update_running_room state room_id (fun r =>
               r <| phase := new_phase |> <| counts := new_counts |>)
    end.

Definition handle_room_settled (state : AppState) (request_id : Z) (room_id : string)
    (new_phase : HistoryExportRoomPhase) (new_counts : HistoryExportRoomCounts)
    (kind : option HistoryExportRoomFailureKind) : Reduced :=
  match new_phase with
  | RoomPhase_Completed | RoomPhase_Failed =>
      match running_room state request_id room_id with
      | None => unchanged state
      | Some room =>
          if is_settled (phase room) then unchanged state
          else update_running_room state room_id (fun r =>
                 r <| phase := new_phase |> <| counts := new_counts |>
                   <| failure_kind := if decide (new_phase = RoomPhase_Failed) then kind else None |>)
      end
  | _ => unchanged state
  end.

Definition handle_stop_requested (state : AppState) (request_id : Z) : Reduced :=
  match history_export state with
  | HistExport_Preparing active scope range stop_requested =>
      if negb (active =? request_id) || stop_requested then unchanged state
      else set_export state (HistExport_Preparing active scope range true)
  | HistExport_Running active scope range rooms stop_requested =>
      if negb (active =? request_id) || stop_requested then unchanged state
      else set_export state (HistExport_Running active scope range rooms true)
  | _ => unchanged state
  end.

Inductive Settlement :=
  | Settlement_Completed
  | Settlement_Stopped
  | Settlement_Failed (kind : HistoryExportFailureKind).

Definition settle (settlement : Settlement) (request_id : Z) (scope : HistoryExportScope)
    (range : HistoryExportRange) (rooms : list HistoryExportRoom) : HistoryExportState :=
  match settlement with
  | Settlement_Completed => HistExport_Completed request_id scope range rooms
  | Settlement_Stopped => HistExport_Stopped request_id scope range rooms
  | Settlement_Failed kind => HistExport_Failed request_id scope range rooms kind
  end.

Definition handle_settled (state : AppState) (request_id : Z) (settlement : Settlement) : Reduced :=
  match history_export state with
  | HistExport_Preparing active scope range _ =>
      if active =? request_id then set_export state (settle settlement request_id scope range [])
      else unchanged state
  | HistExport_Running active scope range rooms _ =>
      if active =? request_id then set_export state (settle settlement request_id scope range rooms)
      else unchanged state
  | _ => unchanged state
  end.

(** ** Automation *)

#[export] Hint Unfold
  set_export handle_requested handle_retry_requested handle_prepared update_running_room
  handle_room_progressed handle_room_settled handle_stop_requested handle_settled : handlers.
