(* ===== verification/Reducer.v ===== *)
(** The reducer dispatch: the [AppAction]s handled by the modelled reducers and the arms
    of [reduce_action] ([crates/koushi-state/src/reducer/mod.rs]) that handle them, with
    the theorems about runs of the whole machine. *)

From stdpp Require Import base list strings.
From Stdlib Require Import ZArith Lia Sorting.Sorted.
From S2P Require Import Prelude AppState Session E2ee SlidingSync SessionStatus HistoryExport.
Local Open Scope string_scope.
Local Open Scope list_scope.
Local Open Scope Z_scope.
Local Set Warnings "-clear-no-such-hyp".

Inductive AppAction :=
  | AppStarted
  | RestoreSessionRequested
  | SlidingSyncCapabilityCheckStarted (account_epoch request_id : Z)
      (admission : SlidingSyncAdmission) (evidence : option SlidingSyncPositiveEvidence)
  | SlidingSyncCapabilityCheckCompleted (account_epoch request_id : Z)
      (result : SlidingSyncCapabilityResult)
  | SlidingSyncCapabilityRetryAccepted (account_epoch blocked_request_id request_id : Z)
  | SlidingSyncCapabilityRevalidationStarted (account_epoch request_id : Z)
  | SlidingSyncCapabilityRevalidationCompleted (account_epoch request_id : Z)
      (result : SlidingSyncCapabilityResult)
  | RestoreSessionSucceeded (info : SessionInfo)
  | LoginSucceeded (attempt_id : LoginAttemptId) (info : SessionInfo)
  | CurrentDeviceTrustChanged (trust : CurrentDeviceTrustState)
  | SecureBackupGateChanged (gate : SecureBackupGateState)
  | AuthoritativeDeviceTrustChanged (generation transition_id : Z)
      (trust : CurrentDeviceTrustState)
  | VerificationMethodsDiscovered (gate : VerificationGateState)
  | VerificationMethodDiscoveryFailed (generation : Z) (kind : VerificationGateFailureKind)
  | VerificationMethodDiscoveryRetryStarted (generation : Z)
  | VerificationMethodSubmitted (method : VerificationMethod) (flow_id : Z)
  | GateSasPresented (flow_id : Z) (emojis : list SasEmoji)
  | VerificationGateAttemptFailed (flow_id : Z) (kind : VerificationGateFailureKind)
  | DeviceCleanupStartRequested (request_id : Z)
  | DeviceCleanupRemoteStarted (request_id : Z) (auth_mode : DeviceCleanupAuthMode)
  | DeviceCleanupUiaRequired (request_id flow_id : Z)
  | DeviceCleanupUiaSubmitted (request_id flow_id : Z)
  | DeviceCleanupRemoteSettled (request_id : Z) (outcome : DeviceCleanupRemoteOutcome)
  | DeviceCleanupRemoteFailed (request_id : Z) (auth_mode : DeviceCleanupAuthMode)
      (kind : DeviceCleanupFailureKind)
  | DeviceCleanupEraseLocalAnywayRequested (request_id : Z)
  | DeviceCleanupLocalResetFailed (request_id : Z) (kind : DeviceCleanupFailureKind)
  | DeviceCleanupCompleted (request_id : Z)
  | VerificationSessionRejected (reason : VerificationGateRejectReason)
  | BootstrapRecoveryKeyReady (flow_id : Z) (recovery_key : RecoveryKeyMaterial)
  | BootstrapRecoveryKeyDeliveryFailed (flow_id : Z) (kind : VerificationGateFailureKind)
  | BootstrapRecoverySavedConfirmed (flow_id : Z)
  | BootstrapRecoverySavedConfirmFailed (flow_id : Z)
  | ProvisionalSessionDiscarded
  | E2eeRecoveryRequired (info : SessionInfo) (methods : list RecoveryMethod)
  | E2eeRecoverySubmitted (flow_id : Z) (request : RecoveryRequest)
  | E2eeRecoverySucceeded
  | E2eeRecoveryFailed (message : string)
  | E2eeRecoveryStateChanged (recovery_state : E2eeRecoveryState) (methods : list RecoveryMethod)
  | VerificationRequested (request_id : Z) (target : VerificationTarget)
  | VerificationRequestSent (request_id : Z) (target : VerificationTarget)
  | VerificationAccepted (request_id : Z)
  | VerificationSasPresented (request_id : Z) (emojis : list SasEmoji)
  | VerificationConfirmed (request_id : Z)
  | VerificationCancelled (request_id : Z) (reason : VerificationCancelReason)
  | VerificationCompleted (request_id : Z)
  | VerificationFailed (request_id : Z) (kind : TrustOperationFailureKind)
  | CrossSigningStatusChanged (status : CrossSigningStatus)
  | BootstrapCrossSigningRequested (request_id : Z)
  | BootstrapCrossSigningFailed (request_id : Z) (kind : TrustOperationFailureKind)
  | EnableKeyBackupRequested (request_id : Z)
  | KeyBackupEnabled (request_id : Z) (version : string)
  | KeyBackupFailed (request_id : Z) (kind : TrustOperationFailureKind)
  | RestoreKeyBackupRequested (request_id : Z) (version : option string)
  | KeyBackupRestoreProgress (request_id restored_rooms : Z) (total_rooms : option Z)
  | KeyBackupRestored (request_id : Z) (version : option string)
  | ResetIdentityRequested (request_id : Z)
  | ResetIdentityAuthRequired (request_id : Z) (auth_type : IdentityResetAuthType)
  | ResetIdentityAuthSubmitted (request_id : Z)
  | ResetIdentityCancelled (request_id : Z)
  | ResetIdentityTimedOut (request_id : Z)
  | ResetIdentityCompleted (request_id : Z)
  | ResetIdentityFailed (request_id : Z) (kind : TrustOperationFailureKind)
  | RoomKeyExportRequested (request_id : Z)
  | RoomKeyExported (request_id : Z) (exported_sessions : option Z)
  | RoomKeyExportFailed (request_id : Z) (kind : TrustOperationFailureKind)
  | HistoryExportRequested (request_id : Z) (scope : HistoryExportScope)
      (range : HistoryExportRange)
  | HistoryExportRetryRequested (request_id target_request_id : Z)
  | HistoryExportPrepared (request_id : Z) (rooms : list HistoryExportRoom)
  | HistoryExportRoomProgressed (request_id : Z) (room_id : string)
      (phase : HistoryExportRoomPhase) (counts : HistoryExportRoomCounts)
  | HistoryExportRoomSettled (request_id : Z) (room_id : string)
      (phase : HistoryExportRoomPhase) (counts : HistoryExportRoomCounts)
      (kind : option HistoryExportRoomFailureKind)
  | HistoryExportStopRequested (request_id : Z)
  | HistoryExportCompleted (request_id : Z)
  | HistoryExportStopped (request_id : Z)
  | HistoryExportFailed (request_id : Z) (kind : HistoryExportFailureKind)
  | RoomKeyImportRequested (request_id : Z)
  | RoomKeyImported (request_id imported_count total_count : Z)
  | RoomKeyImportFailed (request_id : Z) (kind : TrustOperationFailureKind)
  | SecureBackupSetupRequested (request_id : Z) (intent : SecureBackupSetupIntent)
  | SecureBackupRecoveryKeyReady (request_id : Z) (recovery_key : RecoveryKeyMaterial)
  | SecureBackupSetupFailed (request_id : Z) (kind : TrustOperationFailureKind)
  | SecureBackupPassphraseChangeRequested (request_id : Z)
  | SecureBackupPassphraseChanged (request_id : Z) (recovery_key : RecoveryKeyMaterial)
  | SecureBackupRecoveryKeySaved (reveal_request_id : Z) (written : bool)
  | SecureBackupRecoveryKeyConfirmed (reveal_request_id : Z)
  | SecureBackupRecoveryKeyConfirmFailed (reveal_request_id : Z)
      (recovery_key : RecoveryKeyMaterial) (delivery : RecoveryKeyDeliveryState)
  | SecureBackupPassphraseChangeFailed (request_id : Z) (kind : TrustOperationFailureKind)
  | QrLoginCapabilityCheckRequested (request_id : Z)
  | QrLoginUnavailable (request_id : Z)
  | QrLoginDisplayRequested (request_id : Z)
  | QrLoginScanStarted (request_id : Z)
  | QrLoginVerified (request_id : Z)
  | QrLoginFailed (request_id : Z) (kind : AuthFailureKind)
  | RestoreSessionNotFound
  | RestoreSessionFailed (message : string)
  | LoginSubmitted (attempt_id : LoginAttemptId) (request : LoginRequest)
  | AuthenticationStarted (attempt_id : LoginAttemptId) (homeserver : string)
  | LoginFailed (attempt_id : LoginAttemptId) (message : string)
      (reason : option AuthFailureKind)
  | LoginDiscoveryRequested (homeserver : string)
  | LoginDiscoverySucceeded (homeserver : string) (flows : list LoginFlow)
      (delegated : DelegatedAuthLinks)
  | LoginDiscoveryFailed (homeserver : string) (kind : AuthFailureKind)
  | ActiveSessionAccountManagementUrlResolved (info : SessionInfo) (url : option string)
  | SessionPersistenceFailed (message : string)
  | SessionLocked
  | SessionAuthenticationInvalidated (soft_logout : bool)
  | LogoutRequested
  | LogoutFinished
  | SwitchAccountRequested (info : SessionInfo)
  | SoftLogoutReauthRequested (request_id : Z)
  | SoftLogoutReauthSucceeded (request_id : Z)
  | SoftLogoutReauthSessionInstalled (request_id : Z) (info : SessionInfo)
  | SoftLogoutReauthFailed (request_id : Z) (kind : AuthFailureKind)
  | AccountManagementRequested (request_id : Z) (operation : AccountManagementOperation)
  | AccountManagementUiaRequired (request_id flow_id : Z) (operation : AccountManagementOperation)
  | AccountManagementSucceeded (request_id : Z) (operation : AccountManagementOperation)
  | AccountManagementFailed (request_id : Z) (operation : AccountManagementOperation)
      (kind : AuthFailureKind)
  | AccountManagementAuthSubmitted (request_id flow_id : Z)
  | AccountManagementCapabilitiesLoadRequested
  | AccountManagementCapabilitiesLoaded (change_password deactivate_account : bool)
  | AccountManagementCapabilitiesLoadFailed
  | CurrentSessionStatusRefreshRequested (request_id : Z)
      (trigger : SessionStatusRefreshTrigger) (now_ms : Z)
  | CurrentSessionStatusCheckDue (token now_ms : Z)
  | CurrentSessionStatusRefreshed (request_id : Z) (details : CurrentSessionStatusDetails)
  | CurrentSessionStatusRefreshFailed (request_id : Z)
      (kind : CurrentSessionStatusFailureKind) (checked_at_ms : Z)
  | SyncStarted
  | SyncFailed (reason : string)
  | SyncReconnecting (reason : string)
  | SyncRecovered
  | SyncStopped
  | SyncStatusChanged (generation : Z) (status : SyncLifecycleStatus)
  | OwnSessionsChecked (devices : list DeviceTrustSummary) (current_session_verified : bool)
  | UnverifiedOwnSessionsAlertDismissed.

(** [if matches!(state.session, Ready(_)) { session_status::reset(state) }] *)
Definition reset_if_ready (state : AppState) : AppState :=
  if is_session_ready state then reset state else state.

(** The shared body of the two device-trust arms. *)
Definition reduce_trust_changed
    (handle : AppState -> CurrentDeviceTrustState -> Reduced)
    (state : AppState) (trust : CurrentDeviceTrustState) : Reduced :=
  let '(state, invalidated) :=
    if is_session_ready state then
      match trust with
      | Trust_Unknown | Trust_Unverified => (reset state, false)
      | Trust_Verified => invalidate_if_trust_disagrees state trust
      end
    else (state, false) in
  let '(state, effects) := handle state trust in
  if invalidated : bool then
    let '(state, effect) := arm_after_reset state in (state, effects ++ opt_list effect)
  else (state, effects).

Definition reduce_action (state : AppState) (action : AppAction) : Reduced :=
  match action with
  | AppStarted => handle_app_started state
  | RestoreSessionRequested => handle_restore_session_requested state
  | SlidingSyncCapabilityCheckStarted e r a ev => handle_started state e r a ev
  | SlidingSyncCapabilityCheckCompleted e r res => handle_completed state e r res
  | SlidingSyncCapabilityRetryAccepted e b r => handle_retry state e b r
  | SlidingSyncCapabilityRevalidationStarted e r => handle_revalidation_started state e r
  | SlidingSyncCapabilityRevalidationCompleted e r res =>
      handle_revalidation_completed state e r res
  | RestoreSessionSucceeded info => handle_restore_session_succeeded state info
  | LoginSucceeded a info => handle_login_succeeded state a info
  | CurrentDeviceTrustChanged trust =>
      reduce_trust_changed handle_current_device_trust_changed state trust
  | SecureBackupGateChanged gate => handle_secure_backup_gate_changed state gate
  | AuthoritativeDeviceTrustChanged _ _ trust =>
      reduce_trust_changed handle_authoritative_device_trust_changed state trust
  | VerificationMethodsDiscovered gate => handle_verification_methods_discovered state gate
  | VerificationMethodDiscoveryFailed _ kind =>
      handle_verification_method_discovery_failed state kind
  | VerificationMethodDiscoveryRetryStarted _ =>
      handle_verification_method_discovery_retry_started state
  | VerificationMethodSubmitted method flow_id =>
      handle_verification_method_submitted state method flow_id
  | GateSasPresented flow_id emojis => handle_gate_sas_presented state flow_id emojis
  | VerificationGateAttemptFailed flow_id kind =>
      handle_verification_gate_attempt_failed state flow_id kind
  | DeviceCleanupStartRequested r => handle_device_cleanup_start_requested state r
  | DeviceCleanupRemoteStarted r m => handle_device_cleanup_remote_started state r m
  | DeviceCleanupUiaRequired r f => handle_device_cleanup_uia_required state r f
  | DeviceCleanupUiaSubmitted r f => handle_device_cleanup_uia_submitted state r f
  | DeviceCleanupRemoteSettled r o => handle_device_cleanup_remote_settled state r o
  | DeviceCleanupRemoteFailed r m k => handle_device_cleanup_remote_failed state r m k
  | DeviceCleanupEraseLocalAnywayRequested r =>
      handle_device_cleanup_erase_local_anyway_requested state r
  | DeviceCleanupLocalResetFailed r k => handle_device_cleanup_local_reset_failed state r k
  | DeviceCleanupCompleted r => handle_device_cleanup_completed state r
  | VerificationSessionRejected reason => handle_verification_session_rejected state reason
  | BootstrapRecoveryKeyReady f key => handle_bootstrap_recovery_key_ready state f key
  | BootstrapRecoveryKeyDeliveryFailed f k =>
      handle_bootstrap_recovery_key_delivery_failed state f k
  | BootstrapRecoverySavedConfirmed f => handle_bootstrap_recovery_saved_confirmed state f
  | BootstrapRecoverySavedConfirmFailed f =>
      handle_bootstrap_recovery_saved_confirm_failed state f
  | ProvisionalSessionDiscarded => handle_provisional_session_discarded (reset state)
  | E2eeRecoveryRequired info methods => handle_e2ee_recovery_required state info methods
  | E2eeRecoverySubmitted f request => handle_e2ee_recovery_submitted state f request
  | E2eeRecoverySucceeded => handle_e2ee_recovery_succeeded state
  | E2eeRecoveryFailed message => handle_e2ee_recovery_failed state message
  | E2eeRecoveryStateChanged rs methods => handle_e2ee_recovery_state_changed state rs methods
  | VerificationRequested r t => handle_verification_requested state r t Initiator_Them
  | VerificationRequestSent r t => handle_verification_requested state r t Initiator_Us
  | VerificationAccepted r => handle_verification_accepted state r
  | VerificationSasPresented r emojis => handle_verification_sas_presented state r emojis
  | VerificationConfirmed r => handle_verification_confirmed state r
  | VerificationCancelled r reason => handle_verification_cancelled state r reason
  | VerificationCompleted r => handle_verification_completed state r
  | VerificationFailed r k => handle_verification_failed state r k
  | CrossSigningStatusChanged status => handle_cross_signing_status_changed state status
  | BootstrapCrossSigningRequested r => handle_bootstrap_cross_signing_requested state r
  | BootstrapCrossSigningFailed r k => handle_bootstrap_cross_signing_failed state r k
  | EnableKeyBackupRequested r => handle_enable_key_backup_requested state r
  | KeyBackupEnabled r v => handle_key_backup_enabled state r v
  | KeyBackupFailed r k => handle_key_backup_failed state r k
  | RestoreKeyBackupRequested r v => handle_restore_key_backup_requested state r v
  | KeyBackupRestoreProgress r n t => handle_key_backup_restore_progress state r n t
  | KeyBackupRestored r v => handle_key_backup_restored state r v
  | ResetIdentityRequested r => handle_reset_identity_requested state r
  | ResetIdentityAuthRequired r t => handle_reset_identity_auth_required state r t
  | ResetIdentityAuthSubmitted r => handle_reset_identity_auth_submitted state r
  | ResetIdentityCancelled r => handle_reset_identity_cancelled state r
  | ResetIdentityTimedOut r => handle_reset_identity_timed_out state r
  | ResetIdentityCompleted r => handle_reset_identity_completed state r
  | ResetIdentityFailed r k => handle_reset_identity_failed state r k
  | RoomKeyExportRequested r => handle_room_key_export_requested state r
  | RoomKeyExported r n => handle_room_key_exported state r n
  | RoomKeyExportFailed r k => handle_room_key_export_failed state r k
  | HistoryExportRequested r scope range => handle_requested state r scope range
  | HistoryExportRetryRequested r t => handle_retry_requested state r t
  | HistoryExportPrepared r rooms => handle_prepared state r rooms
  | HistoryExportRoomProgressed r room p c => handle_room_progressed state r room p c
  | HistoryExportRoomSettled r room p c k => handle_room_settled state r room p c k
  | HistoryExportStopRequested r => handle_stop_requested state r
  | HistoryExportCompleted r => handle_settled state r Settlement_Completed
  | HistoryExportStopped r => handle_settled state r Settlement_Stopped
  | HistoryExportFailed r k => handle_settled state r (Settlement_Failed k)
  | RoomKeyImportRequested r => handle_room_key_import_requested state r
  | RoomKeyImported r n t => handle_room_key_imported state r n t
  | RoomKeyImportFailed r k => handle_room_key_import_failed state r k
  | SecureBackupSetupRequested r intent => handle_secure_backup_setup_requested state r intent
  | SecureBackupRecoveryKeyReady r key => handle_secure_backup_recovery_key_ready state r key
  | SecureBackupSetupFailed r k => handle_secure_backup_setup_failed state r k
  | SecureBackupPassphraseChangeRequested r =>
      handle_secure_backup_passphrase_change_requested state r
  | SecureBackupPassphraseChanged r key => handle_secure_backup_passphrase_changed state r key
  | SecureBackupRecoveryKeySaved r w => handle_secure_backup_recovery_key_saved state r w
  | SecureBackupRecoveryKeyConfirmed r => handle_secure_backup_recovery_key_confirmed state r
  | SecureBackupRecoveryKeyConfirmFailed r key d =>
      handle_secure_backup_recovery_key_confirm_failed state r key d
  | SecureBackupPassphraseChangeFailed r k =>
      handle_secure_backup_passphrase_change_failed state r k
  | QrLoginCapabilityCheckRequested r => handle_qr_login_capability_check_requested state r
  | QrLoginUnavailable r => handle_qr_login_unavailable state r
  | QrLoginDisplayRequested r => handle_qr_login_display_requested state r
  | QrLoginScanStarted r => handle_qr_login_scan_started state r
  | QrLoginVerified r => handle_qr_login_verified state r
  | QrLoginFailed r k => handle_qr_login_failed state r k
  | RestoreSessionNotFound => handle_restore_session_not_found state
  | RestoreSessionFailed message => handle_restore_session_failed state message
  | LoginSubmitted a request => handle_login_submitted state a request
  | AuthenticationStarted a h => handle_authentication_started state a h
  | LoginFailed a message reason => handle_login_failed state a message reason
  | LoginDiscoveryRequested h => handle_login_discovery_requested state h
  | LoginDiscoverySucceeded h flows d => handle_login_discovery_succeeded state h flows d
  | LoginDiscoveryFailed h k => handle_login_discovery_failed state h k
  | ActiveSessionAccountManagementUrlResolved info url =>
      handle_active_session_account_management_url_resolved state info url
  | SessionPersistenceFailed message => handle_session_persistence_failed state message
  | SessionLocked => handle_session_locked (reset_if_ready state)
  | SessionAuthenticationInvalidated soft_logout =>
      handle_session_authentication_invalidated (reset_if_ready state) soft_logout
  | LogoutRequested => handle_logout_requested (reset state)
  | LogoutFinished => handle_logout_finished state
  | SwitchAccountRequested info => handle_switch_account_requested (reset state) info
  | SoftLogoutReauthRequested r => handle_soft_logout_reauth_requested state r
  | SoftLogoutReauthSucceeded r => handle_soft_logout_reauth_succeeded state r
  | SoftLogoutReauthSessionInstalled r info =>
      handle_soft_logout_reauth_session_installed state r info
  | SoftLogoutReauthFailed r k => handle_soft_logout_reauth_failed state r k
  | AccountManagementRequested r op => handle_account_management_requested state r op
  | AccountManagementUiaRequired r f op => handle_account_management_uia_required state r f op
  | AccountManagementSucceeded r op => handle_account_management_succeeded state r op
  | AccountManagementFailed r op k => handle_account_management_failed state r op k
  | AccountManagementAuthSubmitted r f => handle_account_management_auth_submitted state r f
  | AccountManagementCapabilitiesLoadRequested =>
      handle_account_management_capabilities_load_requested state
  | AccountManagementCapabilitiesLoaded c d =>
      handle_account_management_capabilities_loaded state c d
  | AccountManagementCapabilitiesLoadFailed =>
      handle_account_management_capabilities_load_failed state
  | CurrentSessionStatusRefreshRequested r t now => handle_refresh_requested state r t now
  | CurrentSessionStatusCheckDue tok now => handle_check_due state tok now
  | CurrentSessionStatusRefreshed r details => handle_refreshed state r details
  | CurrentSessionStatusRefreshFailed r k at_ => handle_refresh_failed state r k at_
  | SyncStarted => handle_sync_started state
  | SyncFailed reason => handle_sync_failed state reason
  | SyncReconnecting reason => handle_sync_reconnecting state reason
  | SyncRecovered => handle_sync_recovered state
  | SyncStopped => handle_sync_stopped state
  | SyncStatusChanged generation status => handle_sync_status_changed state generation status
  | OwnSessionsChecked ds verified => handle_own_sessions_checked state ds verified
  | UnverifiedOwnSessionsAlertDismissed => handle_unverified_own_sessions_alert_dismissed state
  end.

(** ** Automation *)

#[export] Hint Unfold
  reset_if_ready : handlers.

(** Unfold the handler of an action and case on its guards. *)
Ltac handler_cases :=
  cbn [reduce_action]; autounfold with handlers; repeat case_match;
  repeat match goal with
  | H : (_, _) = (?a, ?b) |- _ =>
      apply pair_eq in H as [? ?]; try (is_var a; subst a); try (is_var b; subst b);
      try discriminate
  | H : Some _ = Some _ |- _ => injection H as <-
  | H : Some _ = None |- _ => discriminate H
  | H : None = Some _ |- _ => discriminate H
  end.

(** Evaluate projections of updated states. *)
Ltac eval_state := cbn -[retire_session_views retired_view_events u64_wrapping_add] in *.

(** ** The device-trust arms

    Both arms run the session handler between a reset of the status slice and an arming of
    its timer, so a property kept by those three is kept by the arms. *)

Lemma authoritative_trust_state s trust :
  (handle_authoritative_device_trust_changed s trust).1
  = (handle_current_device_trust_changed s trust).1.
Proof.
  unfold handle_authoritative_device_trust_changed.
  by destruct (handle_current_device_trust_changed s trust).
Qed.

Lemma reduce_trust_changed_state handle s trust :
  exists s0, (s0 = s \/ s0 = reset s)
    /\ ((reduce_trust_changed handle s trust).1 = (handle s0 trust).1
        \/ (reduce_trust_changed handle s trust).1
           = (arm (handle s0 trust).1 Trigger_Scheduled).1).
Proof.
  unfold reduce_trust_changed, arm_after_reset.
  match goal with |- context [let '(_, _) := ?p in _] => set (pre := p) end.
  assert (pre.1 = s \/ pre.1 = reset s) as Hpre.
  { subst pre. unfold invalidate_if_trust_disagrees. repeat case_match; simpl; auto. }
  destruct pre as [s0 invalidated]. exists s0. split; [exact Hpre|].
  destruct (handle s0 trust) as [s1 effects]. destruct invalidated; [|by left].
  right. cbn [fst]. by destruct (arm s1 Trigger_Scheduled).
Qed.

Lemma trust_changed_preserves (I : AppState -> Prop) s trust generation transition_id :
  (forall s, I s -> I (reset s)) ->
  (forall s trigger, I s -> I (arm s trigger).1) ->
  (forall s, I s -> I (handle_current_device_trust_changed s trust).1) ->
  I s ->
  I (reduce_action s (CurrentDeviceTrustChanged trust)).1
  /\ I (reduce_action s (AuthoritativeDeviceTrustChanged generation transition_id trust)).1.
Proof.
  intros Hreset Harm Hhandle Hs. cbn [reduce_action]. split.
  - destruct (reduce_trust_changed_state handle_current_device_trust_changed s trust)
      as (s0 & [-> | ->] & [-> | ->]); auto.
  - destruct (reduce_trust_changed_state handle_authoritative_device_trust_changed s trust)
      as (s0 & [-> | ->] & [-> | ->]); rewrite authoritative_trust_state; auto.
Qed.

(** Apply it to the arm in the goal; fails on any other action. *)
Ltac trust_arm I s :=
  lazymatch goal with
  | |- context [CurrentDeviceTrustChanged ?t] => apply (trust_changed_preserves I s t 0 0)
  | |- context [AuthoritativeDeviceTrustChanged ?g ?i ?t] =>
      apply (trust_changed_preserves I s t g i)
  end.

(** ** Frames

    The session machine is the part of the state the invariants below speak about; most
    actions do not touch it. *)

Definition session_core (s : AppState) :=
  (session s, session_lock_reason s, sync s, sliding_sync_capability s,
   sliding_sync_account_epoch s).

Definition touches_session (a : AppAction) : bool :=
  match a with
  | AppStarted | RestoreSessionRequested
  | SlidingSyncCapabilityCheckStarted _ _ _ _ | SlidingSyncCapabilityCheckCompleted _ _ _
  | SlidingSyncCapabilityRetryAccepted _ _ _ | SlidingSyncCapabilityRevalidationStarted _ _
  | SlidingSyncCapabilityRevalidationCompleted _ _ _ | RestoreSessionSucceeded _
  | LoginSucceeded _ _ | CurrentDeviceTrustChanged _ | AuthoritativeDeviceTrustChanged _ _ _
  | VerificationMethodsDiscovered _ | VerificationMethodDiscoveryFailed _ _
  | VerificationMethodDiscoveryRetryStarted _ | VerificationMethodSubmitted _ _
  | GateSasPresented _ _ | VerificationGateAttemptFailed _ _ | DeviceCleanupCompleted _
  | VerificationSessionRejected _ | BootstrapRecoveryKeyReady _ _
  | BootstrapRecoveryKeyDeliveryFailed _ _ | BootstrapRecoverySavedConfirmed _
  | ProvisionalSessionDiscarded | E2eeRecoveryRequired _ _ | E2eeRecoverySubmitted _ _
  | E2eeRecoverySucceeded | E2eeRecoveryFailed _ | E2eeRecoveryStateChanged _ _
  | VerificationCancelled _ _ | VerificationCompleted _ | VerificationFailed _ _
  | RestoreSessionNotFound | RestoreSessionFailed _ | LoginSubmitted _ _
  | AuthenticationStarted _ _ | LoginFailed _ _ _ | SessionLocked
  | SessionAuthenticationInvalidated _ | LogoutRequested | LogoutFinished
  | SwitchAccountRequested _ | SoftLogoutReauthSessionInstalled _ _
  | SyncStarted | SyncFailed _ | SyncReconnecting _ | SyncRecovered | SyncStopped
  | SyncStatusChanged _ _ => true
  | _ => false
  end.

Lemma session_core_frame s a :
  touches_session a = false -> session_core (reduce_action s a).1 = session_core s.
Proof. destruct a; intros Ha; try discriminate Ha; clear Ha; handler_cases; reflexivity. Qed.

(** The key-management slice, the status slice and the export slice. *)
Definition touches_status (a : AppAction) : bool :=
  match a with
  | CurrentDeviceTrustChanged _ | AuthoritativeDeviceTrustChanged _ _ _
  | DeviceCleanupCompleted _ | ProvisionalSessionDiscarded | SessionLocked
  | SessionAuthenticationInvalidated _ | LogoutRequested | LogoutFinished
  | SwitchAccountRequested _ | CurrentSessionStatusRefreshRequested _ _ _
  | CurrentSessionStatusCheckDue _ _ | CurrentSessionStatusRefreshed _ _
  | CurrentSessionStatusRefreshFailed _ _ _ | SyncStatusChanged _ _ => true
  | _ => false
  end.

Lemma status_frame s a :
  touches_status a = false ->
  current_session_status (reduce_action s a).1 = current_session_status s
  /\ current_session_status_schedule (reduce_action s a).1 = current_session_status_schedule s.
Proof.
  destruct a; intros Ha; try discriminate Ha; clear Ha; handler_cases; split; reflexivity.
Qed.

(** The actions whose handlers may set or clear the export; all the others leave it. *)
Definition touches_export (a : AppAction) : bool :=
  match a with
  | HistoryExportRequested _ _ _ | HistoryExportRetryRequested _ _ | HistoryExportPrepared _ _
  | HistoryExportRoomProgressed _ _ _ _ | HistoryExportRoomSettled _ _ _ _ _
  | HistoryExportStopRequested _ | HistoryExportCompleted _ | HistoryExportStopped _
  | HistoryExportFailed _ _ => true
  | _ => false
  end.

Lemma export_frame s a :
  touches_export a = false ->
  history_export (reduce_action s a).1 = history_export s
  \/ history_export (reduce_action s a).1 = HistExport_Idle.
Proof.
  set (I x := history_export x = history_export s \/ history_export x = HistExport_Idle).
  assert (forall x trigger, I x -> I (arm x trigger).1) by (intros; unfold arm; by case_match).
  assert (forall x t, I x -> I (handle_current_device_trust_changed x t).1) as Htrust.
  { intros; unfold I; autounfold with handlers; repeat case_match;
      (right; reflexivity) || assumption. }
  assert (I s) by by left.
  intros Ha. destruct a; try discriminate Ha; clear Ha;
    first [trust_arm I s; by auto
          | handler_cases; (left; reflexivity) || (right; reflexivity)].
Qed.

(** ** Effects

    Lift a property of single effects to the effects of an action. *)

Lemma Forall_emit (Q : AppEffect -> Prop) b e : Q (EmitUiEvent e) -> Forall Q (emit b e).
Proof. intros. destruct b; simpl; auto. Qed.

Lemma Forall_retired_view_events (Q : AppEffect -> Prop) s :
  (forall e, Q (EmitUiEvent e)) -> Forall Q (retired_view_events s).
Proof.
  intros HQ. unfold retired_view_events, withdraw_scheduled_send_persistence_failure.
  repeat first [apply Forall_app; split | apply Forall_emit; apply HQ].
  - by constructor.
  - case_match; auto.
  - cbn. unfold then_some. case_match; simpl; auto.
Qed.

Lemma Forall_arm_effect (Q : AppEffect -> Prop) s trigger :
  (forall t d, Q (ArmCurrentSessionStatusCheck t d)) -> Forall Q (opt_list (arm s trigger).2).
Proof. intros. unfold arm. case_match; simpl; auto. Qed.

Lemma Forall_filter_effects (Q : AppEffect -> Prop) f l : Forall Q l -> Forall Q (List.filter f l).
Proof. induction 1; simpl; [done|]. case_match; auto. Qed.

Lemma Forall_trust_changed (Q : AppEffect -> Prop) handle s trust :
  (forall t d, Q (ArmCurrentSessionStatusCheck t d)) ->
  (forall s, Forall Q (handle s trust).2) ->
  Forall Q (reduce_trust_changed handle s trust).2.
Proof.
  intros Harm Hh. unfold reduce_trust_changed, arm_after_reset.
  match goal with |- context [let '(_, _) := ?p in _] => destruct p as [s0 invalidated] end.
  specialize (Hh s0). destruct (handle s0 trust) as [s1 effects]. destruct invalidated; [|done].
  pose proof (Forall_arm_effect Q s1 Trigger_Scheduled Harm).
  destruct (arm s1 Trigger_Scheduled). by apply Forall_app.
Qed.

Lemma Forall_authoritative (Q : AppEffect -> Prop) s trust :
  Forall Q (handle_current_device_trust_changed s trust).2 ->
  Forall Q (handle_authoritative_device_trust_changed s trust).2.
Proof.
  unfold handle_authoritative_device_trust_changed.
  destruct (handle_current_device_trust_changed s trust). simpl.
  case_decide; auto using Forall_filter_effects.
Qed.

(** Prove [Forall Q effects] for the literal effect lists of the handlers. *)
Ltac effects_forall :=
  cbn [snd arm_effects];
  repeat first
    [ lazymatch goal with
      | |- Forall _ (retired_view_events _) => apply Forall_retired_view_events; intros
      | |- Forall _ (_ ++ _) => apply Forall_app; split
      | |- Forall _ (emit _ _) => apply Forall_emit
      | |- Forall _ (if ?b then _ else _) => destruct b
      | |- Forall _ (opt_list (then_some ?b _)) => destruct b; cbn [then_some opt_list]
      | |- Forall _ (opt_list (Some _)) => cbn [opt_list]
      | |- Forall _ (opt_list None) => cbn [opt_list]
      | |- Forall _ (opt_list (_, _).2) => cbn [snd]
      | |- Forall _ e2ee_key_management_events => unfold e2ee_key_management_events
      | |- Forall _ changed => unfold changed
      | |- Forall _ [] => apply Forall_nil_2
      | |- Forall _ (_ :: _) => apply Forall_cons_2
      end ].

Lemma Forall_current_trust (Q : AppEffect -> Prop) s trust :
  (forall e, Q (EmitUiEvent e)) -> Q StopSync -> Q StartSync -> Q InspectSecureBackup ->
  Q DiscoverVerificationMethods -> (forall info, Q (PersistSession info)) ->
  Forall Q (handle_current_device_trust_changed s trust).2.
Proof. intros. autounfold with handlers. repeat case_match; effects_forall; auto. Qed.
