(* ===== verification/SessionProps.v ===== *)
(** Session invariants: what every run of the reducer keeps about the session, its lock,
    the sync connection and the sliding-sync admission. *)

From stdpp Require Import base list strings.
From Stdlib Require Import ZArith Lia Sorting.Sorted.
From S2P Require Import Prelude AppState Session E2ee SlidingSync SessionStatus HistoryExport Reducer.
Local Open Scope string_scope.
Local Open Scope list_scope.
Local Open Scope Z_scope.
Local Set Warnings "-clear-no-such-hyp".

(** ** Lock reason, sync and capability epoch *)

Definition is_locked (st : SessionState) : bool :=
  match st with Session_Locked _ => true | _ => false end.

(** Sessions whose device is not trusted yet, or that are being replaced. *)
Definition sync_forbidden (st : SessionState) : bool :=
  match st with
  | Session_Provisional _ _ | Session_AwaitingVerification _ _ | Session_Verifying _ _ _ _ _
  | Session_AwaitingBootstrapConfirmation _ _ _ | Session_Rejecting _ _
  | Session_SwitchingAccount _ | Session_LoggingOut => true
  | _ => false
  end.

Definition capability_epoch (c : SlidingSyncCapabilityState) : option Z :=
  match c with
  | Cap_Unknown => None
  | Cap_Checking e _ _ _ | Cap_Supported e _ _ _ _ | Cap_Blocked e _ _ _ _ => Some e
  end.

Definition core_inv
    (c : SessionState * option SessionLockReason * SyncState * SlidingSyncCapabilityState * Z)
  : Prop :=
  let '(st, lock, sy, cap, epoch) := c in
  (lock = None \/ is_locked st = true)
  /\ (sync_forbidden st = true -> sy = Sync_Stopped)
  /\ (capability_epoch cap = None \/ capability_epoch cap = Some epoch).

Definition session_inv (s : AppState) : Prop := core_inv (session_core s).

(** Compute the session part of the state a branch returns. *)
Ltac eval_core :=
  match goal with
  | |- context [session_core ?x] =>
      let c := eval unfold session_core in (session_core x) in
      let c := eval cbn in c in change (session_core x) with c
  end.

(** Close a branch from the session and capability it found. *)
Ltac core_close s :=
  match goal with H : core_inv (session_core s) |- _ =>
    unfold core_inv, session_core in H |- * end;
  split_guards;
  repeat match goal with
  | H : session s = _ |- _ => rewrite H in *; clear H
  | H : sliding_sync_capability s = _ |- _ => rewrite H in *; clear H
  end;
  cbn in *; solve [intuition congruence].

(** The same when the branch's guard reads the session through a helper. *)
Ltac core_close_by_cases s :=
  unfold is_session_ready, current_session_info, has_verification_gate_projection_context in *;
  repeat match goal with
  | H : context [session (?f ?x)] |- _ => progress cbn in H
  end;
  destruct (session s) eqn:?; try discriminate; core_close s.

Ltac core_branch s := try assumption; eval_core; first [core_close s | core_close_by_cases s].

Lemma session_inv_core s s' : session_core s' = session_core s -> session_inv s -> session_inv s'.
Proof. unfold session_inv. by intros ->. Qed.

Lemma session_inv_reset s : session_inv s -> session_inv (reset s).
Proof. by apply session_inv_core. Qed.

Lemma session_inv_arm s trigger : session_inv s -> session_inv (arm s trigger).1.
Proof. apply session_inv_core. unfold arm. by case_match. Qed.

Lemma session_inv_trust s trust :
  session_inv s -> session_inv (handle_current_device_trust_changed s trust).1.
Proof.
  unfold session_inv. intros Hinv. autounfold with handlers. repeat case_match; core_branch s.
Qed.

Lemma session_inv_step s a : session_inv s -> session_inv (reduce_action s a).1.
Proof.
  destruct (touches_session a) eqn:Ha; [|by apply session_inv_core, session_core_frame].
  intros Hinv. destruct a; try discriminate Ha; clear Ha;
    first [trust_arm session_inv s; by auto using session_inv_trust, session_inv_reset, session_inv_arm
          | unfold session_inv in *; handler_cases; core_branch s].
Qed.

Lemma session_inv_run s acts : session_inv s -> session_inv (run reduce_action s acts).1.
Proof. apply run_invariant, session_inv_step. Qed.

Lemma session_inv_default : session_inv AppState_default.
Proof. repeat split; auto. Qed.

(** C2: in every run from the initial state, a lock reason is kept only while the session
    is locked, and the sync connection is stopped whenever the session is provisional, being
    verified, rejected, switched or logged out: no sync runs for a session whose device has
    not proved its trust. *)
Theorem gated_session_never_syncs acts :
  let s := (run reduce_action AppState_default acts).1 in
  (session_lock_reason s <> None -> exists info, session s = Session_Locked info)
  /\ (sync_forbidden (session s) = true -> sync s = Sync_Stopped).
Proof.
  intros s. pose proof (session_inv_run _ acts session_inv_default) as (Hl & Hs & _).
  split; [|exact Hs]. intros Hr. destruct Hl as [|Hl]; [done|].
  fold s in Hl. destruct (session s); try discriminate Hl. eauto.
Qed.

(** ** Account epochs and sliding-sync admissions *)

Lemma account_epoch_step s a :
  sliding_sync_account_epoch s <= sliding_sync_account_epoch (reduce_action s a).1.
Proof.
  destruct (touches_session a) eqn:Ha.
  - set (I x := sliding_sync_account_epoch s <= sliding_sync_account_epoch x).
    assert (forall x trigger, I x -> I (arm x trigger).1) by (intros; unfold arm; by case_match).
    assert (forall x t, I x -> I (handle_current_device_trust_changed x t).1).
    { intros; unfold I; autounfold with handlers; repeat case_match; assumption. }
    assert (I s) by (unfold I; lia).
    destruct a; try discriminate Ha; clear Ha;
      first [trust_arm I s; by auto
            | handler_cases; split_guards; try reflexivity; apply Z.lt_le_incl; assumption].
  - pose proof (session_core_frame s a Ha) as Hf. unfold session_core in Hf.
    injection Hf as _ _ _ _ ->. reflexivity.
Qed.

(** The admissions a run tells Core to continue, as (account epoch, request id). *)
Definition continued_admission (e : AppEffect) : option (Z * Z) :=
  match e with
  | ContinueSlidingSyncAdmission account_epoch request_id _ _ => Some (account_epoch, request_id)
  | _ => None
  end.
Definition continued_admissions (effects : list AppEffect) : list (Z * Z) :=
  omap continued_admission effects.

Definition lex_lt (p q : Z * Z) : Prop := p.1 < q.1 \/ (p.1 = q.1 /\ p.2 < q.2).

(** [spent s p]: [p] precedes every admission that state [s] can still continue. *)
Definition spent_by (cap : SlidingSyncCapabilityState) (epoch : Z) (p : Z * Z) : Prop :=
  p.1 <= epoch
  /\ match cap with
     | Cap_Unknown => True
     | Cap_Checking e r _ _ => e = epoch -> lex_lt p (e, r)
     | Cap_Supported e r _ _ _ | Cap_Blocked e r _ _ _ => e = epoch -> lex_lt p (e, r + 1)
     end.
Definition spent (s : AppState) : Z * Z -> Prop :=
  spent_by (sliding_sync_capability s) (sliding_sync_account_epoch s).

(** Evaluate the capability and the epoch of the state a branch returns. *)
Ltac eval_capability :=
  match goal with |- spent ?x ?p =>
    let c := eval cbn in (sliding_sync_capability x) in
    let e := eval cbn in (sliding_sync_account_epoch x) in
    change (spent_by c e p)
  end.

Ltac spent_close s :=
  match goal with H : spent s _ |- _ => unfold spent in H end;
  repeat match goal with H : sliding_sync_capability s = _ |- _ => rewrite H in *; clear H end;
  unfold spent_by, lex_lt in *; cbn [fst snd] in *; split_guards; subst; intuition lia.

Lemma spent_trust s trust p :
  spent s p -> spent (handle_current_device_trust_changed s trust).1 p.
Proof. intros. autounfold with handlers. repeat case_match; assumption. Qed.

Lemma spent_arm s trigger p : spent s p -> spent (arm s trigger).1 p.
Proof. intros. unfold arm. by case_match. Qed.

Lemma spent_step s a p : spent s p -> spent (reduce_action s a).1 p.
Proof.
  intros Hs. destruct (touches_session a) eqn:Ha.
  - destruct a; try discriminate Ha; clear Ha;
      first [trust_arm (fun x => spent x p) s; by auto using spent_trust, spent_arm
            | handler_cases; try assumption; eval_capability; spent_close s].
  - pose proof (session_core_frame s a Ha) as Hf. unfold session_core in Hf.
    injection Hf as _ _ _ Hcap Hep. unfold spent. by rewrite Hcap, Hep.
Qed.

Definition not_continue (e : AppEffect) : Prop := continued_admission e = None.

Lemma continued_app l1 l2 :
  continued_admissions (l1 ++ l2) = continued_admissions l1 ++ continued_admissions l2.
Proof. apply omap_app. Qed.

Lemma continued_none l : Forall not_continue l -> continued_admissions l = [].
Proof. induction 1 as [|e l He _ IH]; [done|]. cbn. by rewrite He. Qed.

(** Only a completed capability check continues an admission. *)
Lemma continue_only_from_check s a :
  (forall e r res, a <> SlidingSyncCapabilityCheckCompleted e r res) ->
  Forall not_continue (reduce_action s a).2.
Proof.
  intros Ha.
  assert (forall s t, Forall not_continue (handle_current_device_trust_changed s t).2)
    by (intros; by apply Forall_current_trust).
  destruct a; try (by destruct (Ha _ _ _ eq_refl)); clear Ha;
    first [ apply Forall_trust_changed; by auto using Forall_authoritative
          | handler_cases; effects_forall; reflexivity ].
Qed.

(** A completed check continues at most one admission: the one being checked. *)
Lemma continued_by_check s e r res :
  continued_admissions (handle_completed s e r res).2 = []
  \/ (continued_admissions (handle_completed s e r res).2 = [(e, r)]
      /\ (forall p, spent s p -> lex_lt p (e, r))
      /\ spent (handle_completed s e r res).1 (e, r)).
Proof.
  unfold spent. autounfold with handlers. repeat case_match; try (left; reflexivity);
    right; split_guards; subst;
    (split_and!; [reflexivity| |]; [intros p [_ Hp]; by apply Hp|]);
    cbn; unfold spent_by, lex_lt; cbn; intuition lia.
Qed.

Lemma continued_step s a :
  continued_admissions (reduce_action s a).2 = []
  \/ exists c, continued_admissions (reduce_action s a).2 = [c]
      /\ (forall p, spent s p -> lex_lt p c) /\ spent (reduce_action s a).1 c.
Proof.
  destruct a;
    try (left; apply continued_none, continue_only_from_check; discriminate).
  destruct (continued_by_check s account_epoch request_id result) as [H|(H1 & H2 & H3)];
    [by left|right; eauto].
Qed.

Lemma continued_run s acts :
  StronglySorted lex_lt (continued_admissions (run reduce_action s acts).2)
  /\ Forall (fun c => forall p, spent s p -> lex_lt p c)
       (continued_admissions (run reduce_action s acts).2).
Proof.
  revert s; induction acts as [|a acts IH]; intros s; [split; constructor|].
  rewrite run_effects_cons, continued_app.
  destruct (IH (reduce_action s a).1) as [Hsort Hall].
  assert (forall c p, spent s p -> c ∈ continued_admissions (run reduce_action (reduce_action s a).1 acts).2
            -> lex_lt p c) as Hlater.
  { intros c p Hp Hc. rewrite Forall_forall in Hall. apply (Hall c Hc), spent_step, Hp. }
  destruct (continued_step s a) as [-> | (c & -> & Hbelow & Hspent)]; cbn [app].
  - split; [exact Hsort|]. apply Forall_forall. eauto.
  - split.
    + constructor; [exact Hsort|]. eapply Forall_impl; [exact Hall|]. eauto.
    + constructor; [exact Hbelow|]. apply Forall_forall. eauto.
Qed.

(** along every run, from any state, the sliding-sync admissions Core is told to
    continue are strictly increasing in (account epoch, request id): a check result that is
    repeated, late, or from an earlier account never admits a session a second time. *)
Theorem admissions_strictly_increase s acts :
  StronglySorted lex_lt (continued_admissions (run reduce_action s acts).2).
Proof. apply continued_run. Qed.

(** What continuing an admission requires of the state and the action. *)
Definition admission_justified (s : AppState) (a : AppAction) (e r : Z)
    (kind : SlidingSyncAdmissionKind) (source : SlidingSyncAdmissionSource) : Prop :=
  exists admission evidence result,
    a = SlidingSyncCapabilityCheckCompleted e r result
    /\ sliding_sync_capability s = Cap_Checking e r admission evidence
    /\ sliding_sync_account_epoch s = e
    /\ initial_admission_matches_session s admission = true
    /\ kind = admission_kind admission
    /\ match source with
       | Source_Network => exists ev, result = CapResult_Supported ev
       | Source_PositiveCache =>
           evidence <> None /\ (result = CapResult_Unreachable \/ result = CapResult_InvalidResponse)
           /\ exists info, admission = StoredSessionRestore info
       end.

(** an admission is continued only by the completion of the check in progress, for the
    current account epoch and for the session that is waiting for it; from the network only
    on a supported result, and from the positive cache only for a stored session whose
    earlier positive evidence is at hand, and never on an [Unsupported] answer. *)
Theorem admission_is_justified s a e r kind source :
  ContinueSlidingSyncAdmission e r kind source ∈ (reduce_action s a).2 ->
  admission_justified s a e r kind source.
Proof.
  intros Hin. destruct a;
    try (exfalso; pose proof (continue_only_from_check s) as Hno;
         match goal with H : _ ∈ (reduce_action s ?a).2 |- _ =>
           specialize (Hno a ltac:(discriminate)); rewrite Forall_forall in Hno;
           specialize (Hno _ H); discriminate Hno end).
  revert Hin. cbn [reduce_action]. autounfold with handlers. repeat case_match;
    intros Hin; cbn [snd] in Hin; elem_cases; injection Hin as -> -> -> ->; split_guards; subst;
    (eexists _, _, _; do 5 (split; [first [reflexivity | eassumption | done]|]));
    try (injection H2 as <-; discriminate); eauto 6.
Qed.

(** ** How a session becomes ready *)

(** The action that puts a session under the gate, and the actions that prove its trust. *)
Definition installs (a : AppAction) : option SessionInfo :=
  match a with
  | RestoreSessionSucceeded info | LoginSucceeded _ info
  | SoftLogoutReauthSessionInstalled _ info => Some info
  | _ => None
  end.

Definition proves_trust (a : AppAction) : bool :=
  match a with
  | CurrentDeviceTrustChanged Trust_Verified | AuthoritativeDeviceTrustChanged _ _ Trust_Verified
  | E2eeRecoverySucceeded => true
  | _ => false
  end.

(** The session of [info] has been installed, resp. installed and then proved, in a trace. *)
Definition installed_in (acts : list AppAction) (info : SessionInfo) : Prop :=
  exists l1 a l2, acts = l1 ++ a :: l2 /\ installs a = Some info.
Definition proved_in (acts : list AppAction) (info : SessionInfo) : Prop :=
  exists l1 b l2, acts = l1 ++ b :: l2 /\ proves_trust b = true /\ installed_in l1 info.

Definition provenance (acts : list AppAction) (st : SessionState) : Prop :=
  match st with
  | Session_Provisional info _ | Session_AwaitingVerification info _
  | Session_Verifying info _ _ _ _ | Session_AwaitingBootstrapConfirmation info _ _
  | Session_Rejecting info _ => installed_in acts info
  | Session_Ready info | Session_Locked info => proved_in acts info
  | _ => True
  end.

Lemma installed_snoc acts a info : installed_in acts info -> installed_in (acts ++ [a]) info.
Proof.
  intros (l1 & b & l2 & -> & Hb). exists l1, b, (l2 ++ [a]). split; [|done].
  by rewrite <-app_assoc.
Qed.

Lemma proved_snoc acts a info : proved_in acts info -> proved_in (acts ++ [a]) info.
Proof.
  intros (l1 & b & l2 & -> & Hb & Hi). exists l1, b, (l2 ++ [a]). split; [|done].
  by rewrite <-app_assoc.
Qed.

Lemma installed_now acts a info : installs a = Some info -> installed_in (acts ++ [a]) info.
Proof. intros. by exists acts, a, []. Qed.

Lemma proved_now acts a info :
  proves_trust a = true -> installed_in acts info -> proved_in (acts ++ [a]) info.
Proof. intros. by exists acts, a, []. Qed.

Lemma proved_installed acts info : proved_in acts info -> installed_in acts info.
Proof.
  intros (l1 & b & l2 & -> & _ & l3 & a & l4 & -> & Ha). exists l3, a, (l4 ++ b :: l2).
  split; [|done]. by rewrite <-app_assoc.
Qed.

Create HintDb provenance.
#[local] Hint Resolve installed_snoc proved_snoc installed_now proved_now proved_installed
  : provenance.

Lemma provenance_snoc acts a st : provenance acts st -> provenance (acts ++ [a]) st.
Proof. destruct st; simpl; auto with provenance. Qed.

(** The session a branch returns, given the session it found. *)
Ltac eval_session :=
  match goal with |- provenance _ (session ?x) =>
    let st := eval cbn in (session x) in change (session x) with st end.

Ltac provenance_close s :=
  unfold is_session_ready, current_session_info, has_verification_gate_projection_context in *;
  repeat match goal with
  | H : context [session (?f ?x)] |- _ => progress cbn in H
  end;
  try (destruct (session s) eqn:Hsession; try discriminate;
       repeat match goal with
       | H : Session_Ready _ = _ |- _ => injection H as ->
       | H : session s = _ |- _ => rewrite Hsession in H
       end);
  simplify_eq/=; eauto with provenance.

Lemma provenance_trust s acts a trust :
  (trust = Trust_Verified -> proves_trust a = true) ->
  provenance acts (session s) ->
  provenance (acts ++ [a]) (session (handle_current_device_trust_changed s trust).1).
Proof.
  intros Ha Hs. autounfold with handlers.
  destruct (session s) eqn:E; try (apply provenance_snoc; cbn [fst]; by rewrite E);
    repeat case_match; try (apply provenance_snoc; cbn [fst]; by rewrite E);
    eval_session; simpl in *; auto with provenance.
Qed.

Lemma provenance_arm acts s trigger :
  provenance acts (session s) -> provenance acts (session (arm s trigger).1).
Proof. unfold arm. by case_match. Qed.

Lemma provenance_trust_arm acts s a trust handle :
  (trust = Trust_Verified -> proves_trust a = true) ->
  (forall s, (handle s trust).1 = (handle_current_device_trust_changed s trust).1) ->
  provenance acts (session s) ->
  provenance (acts ++ [a]) (session (reduce_trust_changed handle s trust).1).
Proof.
  intros Ha Hh Hs.
  destruct (reduce_trust_changed_state handle s trust) as (s0 & Hs0 & Hst).
  assert (provenance acts (session s0)) as H0 by (destruct Hs0 as [-> | ->]; exact Hs).
  pose proof (provenance_trust s0 acts a trust Ha H0) as Ht. rewrite <-Hh in Ht.
  destruct Hst as [-> | ->]; [|apply provenance_arm]; exact Ht.
Qed.

Lemma provenance_step acts s a :
  provenance acts (session s) -> provenance (acts ++ [a]) (session (reduce_action s a).1).
Proof.
  intros Hs. destruct (touches_session a) eqn:Ha.
  2:{ pose proof (session_core_frame s a Ha) as Hf. unfold session_core in Hf.
      injection Hf as -> _ _ _ _. by apply provenance_snoc. }
  destruct a; try discriminate Ha; clear Ha;
    lazymatch goal with
    | |- context [CurrentDeviceTrustChanged _] =>
        apply provenance_trust_arm; [by intros ->|done|done]
    | |- context [AuthoritativeDeviceTrustChanged _ _ _] =>
        apply provenance_trust_arm; [by intros ->|by intros; apply authoritative_trust_state|done]
    | _ => handler_cases; try (by apply provenance_snoc); eval_session; provenance_close s
    end.
Qed.

Lemma provenance_run acts :
  provenance acts (session (run reduce_action AppState_default acts).1).
Proof.
  induction acts as [|a acts IH] using rev_ind; [exact I|].
  rewrite run_app, run_cons. by apply provenance_step.
Qed.

(** C1: a session is ready, or locked after having been ready, only when the trace installed
    that very session (a restored, logged-in or re-authenticated one) and later carried a
    proof of this device's trust: an authoritative [Verified] trust or a successful
    recovery.  No order of actions skips the verification gate. *)
Theorem ready_session_was_proved acts info :
  let st := session (run reduce_action AppState_default acts).1 in
  st = Session_Ready info \/ st = Session_Locked info -> proved_in acts info.
Proof.
  intros st Hst. pose proof (provenance_run acts) as Hp. fold st in Hp.
  by destruct Hst as [Hst|Hst]; rewrite Hst in Hp.
Qed.

(** ** Device cleanup *)

Definition cleanup_authorised (acts : list AppAction) (c : DeviceCleanupState) : Prop :=
  match c with
  | Cleanup_ResettingLocal _ Local_RemoteMayRemain => False
  | Cleanup_ResettingLocal _ (Local_RemoteRemoved _)
  | Cleanup_LocalResetFailed _ (Local_RemoteRemoved _) _ =>
      exists r outcome, DeviceCleanupRemoteSettled r outcome ∈ acts
  | Cleanup_ErasingLocalAnyway _ | Cleanup_LocalResetFailed _ Local_RemoteMayRemain _ =>
      exists r, DeviceCleanupEraseLocalAnywayRequested r ∈ acts
  | _ => True
  end.

Lemma cleanup_snoc acts a c : cleanup_authorised acts c -> cleanup_authorised (acts ++ [a]) c.
Proof.
  destruct c as [| | | | | |? []|? [] ?|]; simpl; try done;
    [intros (r & o & H)|intros (r & o & H)|intros (r & H)|intros (r & H)];
    repeat eexists; apply elem_of_app; left; exact H.
Qed.

Lemma elem_of_snoc {A} (l : list A) x : x ∈ l ++ [x].
Proof. apply elem_of_app. right. constructor. Qed.

Ltac eval_cleanup :=
  match goal with |- cleanup_authorised _ (device_cleanup ?x) =>
    let c := eval cbn in (device_cleanup x) in change (device_cleanup x) with c end.

Lemma cleanup_trust_arm acts s a trust handle :
  (forall s, (handle s trust).1 = (handle_current_device_trust_changed s trust).1) ->
  cleanup_authorised acts (device_cleanup s) ->
  cleanup_authorised (acts ++ [a]) (device_cleanup (reduce_trust_changed handle s trust).1).
Proof.
  intros Hh Hs. apply cleanup_snoc.
  destruct (reduce_trust_changed_state handle s trust) as (s0 & Hs0 & Hst).
  assert (cleanup_authorised acts (device_cleanup s0)) as H0 by (destruct Hs0 as [-> | ->]; exact Hs).
  assert (cleanup_authorised acts
            (device_cleanup (handle_current_device_trust_changed s0 trust).1)) as H1.
  { autounfold with handlers. repeat case_match; try exact H0; exact I. }
  rewrite <-Hh in H1.
  destruct Hst as [-> | ->]; [exact H1|]. unfold arm. by case_match.
Qed.

Lemma cleanup_step acts s a :
  cleanup_authorised acts (device_cleanup s) ->
  cleanup_authorised (acts ++ [a]) (device_cleanup (reduce_action s a).1).
Proof.
  intros Hs. destruct a;
    lazymatch goal with
    | |- context [CurrentDeviceTrustChanged _] => by apply cleanup_trust_arm
    | |- context [AuthoritativeDeviceTrustChanged _ _ _] =>
        apply cleanup_trust_arm; [intros; apply authoritative_trust_state|done]
    | _ => handler_cases; try (by apply cleanup_snoc); try exact I; eval_cleanup
    end;
    repeat match goal with H : device_cleanup s = _ |- _ =>
      cbn [fst]; rewrite ?H in Hs; rewrite ?H; clear H end;
    try match goal with mode : DeviceCleanupLocalMode |- _ => destruct mode; [|done] end;
    first [ by (simpl; eauto using elem_of_snoc)
          | apply cleanup_snoc; exact Hs ].
Qed.

(** in every run, completing a device cleanup erases the local data only after the
    server-side removal of the device was settled, or after the user asked to erase the
    local data anyway. *)
Theorem local_erase_is_authorised acts r :
  (reduce_action (run reduce_action AppState_default acts).1 (DeviceCleanupCompleted r)).2 <> [] ->
  (exists q outcome, DeviceCleanupRemoteSettled q outcome ∈ acts)
  \/ (exists q, DeviceCleanupEraseLocalAnywayRequested q ∈ acts).
Proof.
  assert (cleanup_authorised acts (device_cleanup (run reduce_action AppState_default acts).1)) as Hc.
  { induction acts as [|a acts IH] using rev_ind; [exact I|].
    rewrite run_app, run_cons. by apply cleanup_step. }
  cbn [reduce_action]. unfold handle_device_cleanup_completed.
  destruct (device_cleanup _) as [| | | | | |? []|? [] ?|]; try done; simpl in Hc; auto.
Qed.

(** ** Retiring the views of a session *)

(** The event that announces a change of a session view. *)
Definition view_event (v : ViewSlice) : option UiEvent :=
  match v with
  | V_account_notifications => Some AccountNotificationsChanged
  | V_contact_security => Some ContactSecurityChanged
  | V_sender_device_advisories => Some SenderDeviceAdvisoriesChanged
  | V_link_preview_settings | V_room_preferences => Some LinkPreviewSettingsChanged
  | V_profile => Some (ProfileChanged {| user_ids := [] |})
  | V_space_children_suggested_offer => Some SpaceChildrenChanged
  | V_space_members => Some SpaceMembersChanged
  | V_invite_workflow => Some InviteWorkflowChanged
  | V_room_notification_settings => Some RoomNotificationSettingsChanged
  | V_room_interactions => Some RoomInteractionsChanged
  | V_directory => Some DirectoryChanged
  | V_room_management => Some RoomManagementChanged
  | V_mention_candidates => Some MentionCandidatesChanged
  | V_activity_open => Some ActivityChanged
  | V_thread | V_thread_attention => Some ThreadChanged
  | V_threads_list => Some ThreadsListChanged
  | V_focused_context => Some FocusedContextChanged
  | V_search => Some SearchChanged
  | V_search_crawler => Some SearchCrawlerChanged
  | V_files_view => Some FilesViewChanged
  | V_live_signals => Some LiveSignalsChanged
  | V_local_encryption => Some LocalEncryptionChanged
  | V_native_attention => Some NativeAttentionChanged
  | _ => None
  end.

Lemma elem_of_emit b e : b = true -> EmitUiEvent e ∈ emit b e.
Proof. intros ->. constructor. Qed.

Lemma view_event_announced s v e :
  view_event v = Some e -> views s v <> None -> EmitUiEvent e ∈ retired_view_events s.
Proof.
  intros Hv Hs. unfold retired_view_events. destruct v; simplify_eq/=;
    repeat match goal with
    | |- context [bool_decide (views s ?v <> None)] =>
        match type of Hs with views s v <> None =>
          rewrite (bool_decide_eq_true_2 _ Hs) end
    end; rewrite ?orb_true_r, ?orb_true_l;
    repeat lazymatch goal with
    | |- _ ∈ emit true _ ++ _ => apply elem_of_app; left; by apply elem_of_emit
    | |- _ ∈ _ ++ _ => apply elem_of_app; right
    | |- _ ∈ _ :: _ => apply elem_of_cons; right
    end.
Qed.

Lemma view_event_retired s v e :
  view_event v = Some e -> views (retire_session_views s) v = None.
Proof. intros Hv. destruct v; simplify_eq/=; reflexivity. Qed.

Lemma filter_filter {A} (f : A -> bool) l : List.filter f (List.filter f l) = List.filter f l.
Proof.
  induction l as [|x l IH]; simpl; [done|]. destruct (f x) eqn:Hx; simpl; rewrite ?Hx; congruence.
Qed.

Lemma retained_errors_settled s :
  (withdraw_scheduled_send_persistence_failure (retire_session_views s)).2 = None.
Proof.
  unfold withdraw_scheduled_send_persistence_failure, retain_errors, retire_session_views,
    withdraw_scheduled_send_persistence_failure, retain_errors.
  cbn. rewrite filter_filter, bool_decide_eq_true_2 by done. done.
Qed.

Lemma retired_again s : retired_view_events (retire_session_views s) = [EmitUiEvent RoomListChanged].
Proof. unfold retired_view_events. rewrite retained_errors_settled. reflexivity. Qed.

(** clearing the session views is complete: every view that held something is announced
    by its event and is back at its default, and a second clear finds nothing left to
    announce. *)
Theorem clear_session_views_complete s :
  let cleared := clear_session_views s in
  (forall v e, view_event v = Some e -> views s v <> None ->
     EmitUiEvent e ∈ cleared.2 /\ views cleared.1 v = None)
  /\ (forall room, timeline_room_id (timeline s) = Some room ->
        EmitUiEvent (TimelineChanged room) ∈ cleared.2)
  /\ (clear_session_views cleared.1).2 = [EmitUiEvent RoomListChanged].
Proof.
  intros cleared. split_and!.
  - intros v e Hv Hs. split; [by eapply view_event_announced|by eapply view_event_retired].
  - intros room Hr. unfold cleared, clear_session_views, retired_view_events. cbn [snd].
    apply elem_of_app; right. apply elem_of_app; right. rewrite Hr. apply elem_of_app; left.
    constructor.
  - apply retired_again.
Qed.

(** The access conditions read before a send are not among the cleared views, although
    [state/mod.rs] says they are cleared with the room's other access state. *)
Lemma pre_send_access_survives s :
  views (clear_session_views s).1 V_room_access_pre_send = views s V_room_access_pre_send.
Proof. reflexivity. Qed.

(** Logging out resets the editor-session watermark that [state/mod.rs] calls monotonic for
    the process. *)
Lemma logout_resets_watermark s :
  create_access_session_watermark (reduce_action s LogoutFinished).1 = 0.
Proof. reflexivity. Qed.

(** ** Concrete runs *)

Definition alice : SessionInfo :=
  {| homeserver := "https://example.org"; user_id := "@alice:example.org"; device_id := "AAAA";
     authentication_method := Auth_Password |}.
Definition bob : SessionInfo :=
  {| homeserver := "https://example.org"; user_id := "@bob:example.org"; device_id := "BBBB";
     authentication_method := Auth_Password |}.
Definition recovery_gate_state : VerificationGateState :=
  {| methods := [Capability_RecoveryKey]; account_kind := Account_ExistingIdentity;
     gate_failure := None |}.

(** A restored session that passes the gate. *)
Definition restored_run : list AppAction :=
  [RestoreSessionRequested; RestoreSessionSucceeded alice;
   CurrentDeviceTrustChanged Trust_Verified].

Lemma ready_session_was_proved_witness :
  session (run reduce_action AppState_default restored_run).1 = Session_Ready alice
  /\ proved_in restored_run alice.
Proof.
  split; [reflexivity|]. apply (ready_session_was_proved restored_run alice). left. reflexivity.
Defined.

(** A recovery that fails, and the cleanup that follows it. *)
Definition cleanup_run : list AppAction :=
  [RestoreSessionRequested; RestoreSessionSucceeded alice;
   CurrentDeviceTrustChanged Trust_Unverified;
   VerificationMethodsDiscovered recovery_gate_state;
   VerificationMethodSubmitted Method_RecoveryKey 1;
   VerificationGateAttemptFailed 1 GateFailure_Mismatch;
   DeviceCleanupStartRequested 2; DeviceCleanupRemoteStarted 2 Cleanup_Legacy;
   DeviceCleanupRemoteSettled 2 Remote_Success].

Lemma local_erase_is_authorised_witness :
  (exists q outcome, DeviceCleanupRemoteSettled q outcome ∈ cleanup_run)
  \/ (exists q, DeviceCleanupEraseLocalAnywayRequested q ∈ cleanup_run).
Proof. apply (local_erase_is_authorised cleanup_run 2). vm_compute. discriminate. Defined.

Definition checking_state : AppState :=
  (run reduce_action AppState_default
     [RestoreSessionRequested;
      SlidingSyncCapabilityCheckStarted 1 7 (StoredSessionRestore alice)
        (Some {| observed_at_ms := 5 |})]).1.

Lemma admission_is_justified_witness :
  admission_justified checking_state
    (SlidingSyncCapabilityCheckCompleted 1 7 CapResult_Unreachable) 1 7
    Kind_StoredSessionRestore Source_PositiveCache.
Proof. apply admission_is_justified. vm_compute. constructor. Defined.

(** Recovery after an account switch. *)
Definition inherited_gate_run : list AppAction :=
  restored_run ++
  [SecureBackupGateChanged SBGate_Ready; SwitchAccountRequested bob;
   RestoreSessionSucceeded bob; CurrentDeviceTrustChanged Trust_Unverified;
   E2eeRecoveryRequired bob [Recovery_RecoveryKey];
   E2eeRecoverySubmitted 3 {| recovery_secret := "key" |}; E2eeRecoverySucceeded].

(** recovery through [E2eeRecoverySucceeded] keeps the backup gate of the account that was
    signed in before: after a switch from alice, whose gate was ready, bob's session is
    admitted to send although his backup was never inspected. *)
Lemma recovery_inherits_backup_gate :
  let s := (run reduce_action AppState_default inherited_gate_run).1 in
  session s = Session_Ready bob /\ encrypted_messaging_is_admitted s = true
  /\ InspectSecureBackup ∉ (run reduce_action
       (run reduce_action AppState_default restored_run).1
       (drop (length restored_run) inherited_gate_run)).2.
Proof.
  split_and!; [reflexivity|reflexivity|].
  vm_compute. intros Hin.
  inversion Hin as [|? ? ? Hin']; subst. elem_cases.
Qed.
