(* ===== verification/StatusProps.v ===== *)
(** Session-status scheduler: backoff, single check in flight, and the liveness of its
    timer along the runs of the reducer. *)

From stdpp Require Import base list strings.
From Stdlib Require Import ZArith Lia.
From S2P Require Import Prelude AppState Session E2ee SlidingSync SessionStatus HistoryExport Reducer.
Local Open Scope string_scope.
Local Open Scope list_scope.
Local Open Scope Z_scope.
Local Set Warnings "-clear-no-such-hyp".

(** ** Backoff *)

Definition backoff_exponent (n : Z) : Z := Z.min (Z.max (n - 1) 0) 16.

Lemma backoff_unfold n :
  session_status_failure_backoff_ms n = Z.min (60000 * 2 ^ backoff_exponent n) 1800000.
Proof.
  unfold session_status_failure_backoff_ms, u64_saturating_mul, u32_saturating_sub,
    SESSION_STATUS_FAILURE_BACKOFF_BASE_MS, SESSION_STATUS_FAILURE_BACKOFF_CAP_MS, U64_MAX.
  fold (backoff_exponent n).
  assert (0 <= backoff_exponent n <= 16) by (unfold backoff_exponent; lia).
  rewrite Z.shiftl_mul_pow2, Z.mul_1_l by lia.
  assert (2 ^ backoff_exponent n <= 2 ^ 16) by (apply Z.pow_le_mono_r; lia). lia.
Qed.

(** the failure backoff doubles from one minute per consecutive failure, is capped at
    thirty minutes from the sixth failure on, never shrinks as failures accumulate, and no
    64-bit operation of its computation saturates. *)
Theorem failure_backoff_schedule :
  (forall n, n <= 1 -> session_status_failure_backoff_ms n = 60000)
  /\ (forall n, 1 <= n <= 5 -> session_status_failure_backoff_ms n = 60000 * 2 ^ (n - 1))
  /\ (forall n, 6 <= n -> session_status_failure_backoff_ms n = 1800000)
  /\ (forall m n, m <= n ->
        session_status_failure_backoff_ms m <= session_status_failure_backoff_ms n).
Proof.
  assert (forall n, 0 <= backoff_exponent n) by (unfold backoff_exponent; lia).
  split_and!.
  - intros n Hn. rewrite backoff_unfold.
    replace (backoff_exponent n) with 0 by (unfold backoff_exponent; lia). reflexivity.
  - intros n Hn. rewrite backoff_unfold.
    replace (backoff_exponent n) with (n - 1) by (unfold backoff_exponent; lia).
    assert (2 ^ (n - 1) <= 2 ^ 4) by (apply Z.pow_le_mono_r; lia). lia.
  - intros n Hn. rewrite backoff_unfold.
    assert (2 ^ 5 <= 2 ^ backoff_exponent n)
      by (apply Z.pow_le_mono_r; unfold backoff_exponent; lia). lia.
  - intros m n Hmn. rewrite !backoff_unfold.
    assert (2 ^ backoff_exponent m <= 2 ^ backoff_exponent n)
      by (apply Z.pow_le_mono_r; unfold backoff_exponent in *; lia). lia.
Qed.

(** ** The armed timer *)

(** The armed timer is the latest issued one, for the current due time, and no check is in
    flight while it is armed. *)
Definition timer_ok (st : CurrentSessionStatusState) (sch : SessionStatusSchedule) : Prop :=
  match armed sch with
  | Some a => armed_token a = token sch /\ armed_due_at_ms a = due_at_ms st /\ is_checking st = false
  | None => True
  end.
Definition status_inv (s : AppState) : Prop :=
  timer_ok (current_session_status s) (current_session_status_schedule s).

Lemma status_inv_eq s s' :
  current_session_status s' = current_session_status s ->
  current_session_status_schedule s' = current_session_status_schedule s ->
  status_inv s -> status_inv s'.
Proof. unfold status_inv. by intros -> ->. Qed.

Lemma status_inv_reset s : status_inv (reset s).
Proof. exact I. Qed.

Lemma status_inv_arm s trigger : status_inv s -> status_inv (arm s trigger).1.
Proof. intros Hs. unfold arm. case_match; [done|]. split_guards. done. Qed.

(** Recording a decision changes only the statistics. *)
Lemma status_inv_record s trigger d : status_inv s -> status_inv (record_decision s trigger d).
Proof. done. Qed.

Lemma status_inv_admit s r trigger now :
  status_inv s -> status_inv (admit_check s r trigger now).1.
Proof. intros Hs. unfold admit_check. case_decide; [done|exact I]. Qed.

Lemma status_inv_check_due s tok now :
  status_inv s -> status_inv (handle_check_due s tok now).1.
Proof.
  intros Hs. unfold handle_check_due, arm_effects.
  destruct (armed (current_session_status_schedule s)) eqn:Ha; [|done].
  case_match; [done|]. set (s0 := s <| current_session_status_schedule ::= _ |>).
  assert (status_inv s0) as H0 by exact I. cbn [next_request_id].
  repeat case_match; try exact I; [by apply status_inv_arm|]. by apply status_inv_admit.
Qed.

(** A settlement leaves the check, so nothing is armed before it re-arms. *)
Lemma status_inv_settled s st f trigger :
  is_checking (current_session_status s) = true -> status_inv s ->
  status_inv (arm (bump_stat (s <| current_session_status := st |>) f) trigger).1.
Proof.
  intros Hc Hs. apply status_inv_arm. unfold status_inv, timer_ok in *. cbn.
  destruct (armed _); [|done]. destruct Hs as (_ & _ & Hn). congruence.
Qed.

Lemma checking_matches_is_checking st r : checking_matches st r = true -> is_checking st = true.
Proof. by destruct st. Qed.

Lemma status_inv_refreshed s r details : status_inv s -> status_inv (handle_refreshed s r details).1.
Proof.
  intros Hs. unfold handle_refreshed. case_match; [done|]. split_guards.
  eapply status_inv_settled; [eapply checking_matches_is_checking|]; eassumption.
Qed.

Lemma status_inv_failed s r k at_ : status_inv s -> status_inv (handle_refresh_failed s r k at_).1.
Proof.
  intros Hs. unfold handle_refresh_failed. case_match; [done|]. split_guards.
  apply (status_inv_settled s); [eapply checking_matches_is_checking|]; eassumption.
Qed.

Lemma status_inv_sync s g st : status_inv s -> status_inv (handle_sync_status_changed s g st).1.
Proof.
  intros Hs. unfold handle_sync_status_changed, handle_connectivity_proven.
  case_match; [done|]. cbv zeta. case_decide; [done|].
  match goal with |- context [if ?b then (let '(_, _) := arm ?x ?t in _) else _] =>
    pose proof (status_inv_arm x t Hs) as Harm; destruct b; [|exact Hs]; destruct (arm x t) end.
  exact Harm.
Qed.

Lemma status_inv_trust s trust :
  status_inv s -> status_inv (handle_current_device_trust_changed s trust).1.
Proof. intros Hs. autounfold with handlers. repeat case_match; exact Hs. Qed.

Lemma status_inv_step s a : status_inv s -> status_inv (reduce_action s a).1.
Proof.
  intros Hs. destruct (touches_status a) eqn:Ha.
  2:{ destruct (status_frame s a Ha). by eapply status_inv_eq. }
  destruct a; try discriminate Ha; clear Ha;
    lazymatch goal with
    | |- context [CurrentSessionStatusRefreshRequested _ _ _] => by apply status_inv_admit
    | |- context [CurrentSessionStatusCheckDue _ _] => by apply status_inv_check_due
    | |- context [CurrentSessionStatusRefreshed _ _] => by apply status_inv_refreshed
    | |- context [CurrentSessionStatusRefreshFailed _ _ _] => by apply status_inv_failed
    | |- context [SyncStatusChanged _ _] => by apply status_inv_sync
    | _ => first [ trust_arm status_inv s;
                   by auto using status_inv_trust, status_inv_reset, status_inv_arm
                 | handler_cases; first [exact Hs | exact I] ]
    end.
Qed.

Lemma status_inv_run acts : status_inv (run reduce_action AppState_default acts).1.
Proof. apply run_invariant; [apply status_inv_step|exact I]. Qed.

(** ** One check at a time *)

Definition not_refresh (e : AppEffect) : Prop :=
  match e with RefreshCurrentSessionStatus _ _ => False | _ => True end.

Lemma arm_no_refresh s trigger : Forall not_refresh (opt_list (arm s trigger).2).
Proof. by apply Forall_arm_effect. Qed.

(** The guard and the outcome of an admission that starts a check. *)
Definition check_started (s s' : AppState) (r : Z) (trigger : SessionStatusRefreshTrigger) : Prop :=
  is_session_ready s = true
  /\ is_checking (current_session_status s) = false
  /\ current_session_status s'
     = SessStatus_Checking r trigger (last_known_details (current_session_status s))
         (consecutive_failures (current_session_status s)).

Lemma admit_started s r trigger now r' trigger' :
  RefreshCurrentSessionStatus r' trigger' ∈ (admit_check s r trigger now).2 ->
  check_started s (admit_check s r trigger now).1 r' trigger'.
Proof.
  unfold admit_check. case_decide as Hd; intros Hin; cbn [snd] in Hin; elem_cases.
  injection Hin as -> ->. unfold check_started.
  assert (admit_decision s trigger now = Decision_Started) as Hs
    by (destruct (admit_decision s trigger now); try done; exfalso; by apply Hd).
  unfold admit_decision in Hs. repeat case_match; try discriminate. split_guards. done.
Qed.

Lemma check_due_started s tok now r trigger :
  RefreshCurrentSessionStatus r trigger ∈ (handle_check_due s tok now).2 ->
  check_started s (handle_check_due s tok now).1 r trigger.
Proof.
  unfold handle_check_due, unchanged. destruct (armed _) as [a|]; cbn [next_request_id];
    repeat case_match; intros Hin; try (cbn [snd] in Hin; by elem_cases).
  - exfalso. unfold arm_effects in Hin.
    match type of Hin with context [arm ?x ?t] => pose proof (arm_no_refresh x t) as Hno end.
    rewrite Forall_forall in Hno. exact (Hno _ Hin).
  - apply admit_started in Hin. exact Hin.
Qed.

(** Nothing admitted while a check is in flight replaces it. *)
Lemma admit_in_flight s r trigger now :
  is_checking (current_session_status s) = true ->
  current_session_status (admit_check s r trigger now).1 = current_session_status s.
Proof.
  intros Hc. unfold admit_check, admit_decision. rewrite Hc.
  destruct (is_session_ready s); reflexivity.
Qed.

Lemma arm_status s trigger : current_session_status (arm s trigger).1 = current_session_status s.
Proof. unfold arm. by case_match. Qed.

Lemma check_due_in_flight s tok now :
  is_checking (current_session_status s) = true ->
  current_session_status (handle_check_due s tok now).1 = current_session_status s.
Proof.
  intros Hc. unfold handle_check_due, arm_effects. cbn [next_request_id].
  destruct (armed _); repeat case_match; try reflexivity; [cbn [fst]; by rewrite arm_status|].
  by rewrite admit_in_flight.
Qed.

Lemma refresh_only_from_admission s a :
  (forall r t now, a <> CurrentSessionStatusRefreshRequested r t now) ->
  (forall tok now, a <> CurrentSessionStatusCheckDue tok now) ->
  Forall not_refresh (reduce_action s a).2.
Proof.
  intros Ha Hb.
  assert (forall s t, Forall not_refresh (handle_current_device_trust_changed s t).2)
    by (intros; by apply Forall_current_trust).
  destruct a; try (by destruct (Ha _ _ _ eq_refl)); try (by destruct (Hb _ _ eq_refl));
    clear Ha Hb;
    first [ apply Forall_trust_changed; by auto using Forall_authoritative
          | handler_cases; effects_forall; exact I ].
Qed.

(** a status check is started only for a ready session with no check in flight, and the
    started check is the one then in flight, carrying the last known details and the count of
    failures before it; a check in flight is left only by the settlement that carries its own
    request id, or by a reset of the slice.  At most one check is in flight, and no check is
    overwritten. *)
Theorem status_check_single_flight s a :
  (forall r trigger, RefreshCurrentSessionStatus r trigger ∈ (reduce_action s a).2 ->
     check_started s (reduce_action s a).1 r trigger)
  /\ (forall r trigger known failures,
        current_session_status s = SessStatus_Checking r trigger known failures ->
        current_session_status (reduce_action s a).1 = current_session_status s
        \/ current_session_status (reduce_action s a).1 = SessStatus_Idle
        \/ (exists details, a = CurrentSessionStatusRefreshed r details)
        \/ (exists kind at_, a = CurrentSessionStatusRefreshFailed r kind at_)).
Proof.
  split.
  - intros r trigger Hin. destruct a;
      try (exfalso; match goal with H : _ ∈ (reduce_action s ?a).2 |- _ =>
             pose proof (refresh_only_from_admission s a ltac:(discriminate) ltac:(discriminate))
               as Hno; rewrite Forall_forall in Hno; exact (Hno _ H) end).
    + by apply admit_started.
    + by apply check_due_started.
  - intros r trigger known failures Hst.
    destruct (touches_status a) eqn:Ha; [|left; apply (status_frame s a Ha)].
    set (I x := current_session_status x = current_session_status s
                \/ current_session_status x = SessStatus_Idle).
    assert (I s) by by left.
    assert (forall x trigger, I x -> I (arm x trigger).1) by (intros; unfold arm; by case_match).
    assert (forall x, I x -> I (reset x)) by by right.
    assert (forall x t, I x -> I (handle_current_device_trust_changed x t).1).
    { intros; unfold I; autounfold with handlers; repeat case_match; assumption. }
    assert (forall x, I x ->
      I x \/ (exists details, a = CurrentSessionStatusRefreshed r details)
      \/ (exists kind at_, a = CurrentSessionStatusRefreshFailed r kind at_)) as Hweak by auto.
    cut (I (reduce_action s a).1
         \/ (exists details, a = CurrentSessionStatusRefreshed r details)
         \/ (exists kind at_, a = CurrentSessionStatusRefreshFailed r kind at_)).
    { unfold I. intuition. }
    clear Hweak. destruct a; try discriminate Ha; clear Ha;
      try (left; first [ trust_arm I s; by auto
                       | handler_cases; first [by left | by right] ]).
    + left. left. apply admit_in_flight. by rewrite Hst.
    + left. left. apply check_due_in_flight. by rewrite Hst.
    + cbn [reduce_action]. unfold handle_refreshed. rewrite Hst. cbn [checking_matches].
      case_match; [left; by left|]. split_guards. subst. eauto.
    + cbn [reduce_action]. unfold handle_refresh_failed. rewrite Hst. cbn [checking_matches].
      case_match; [left; by left|]. split_guards. subst. eauto.
Qed.

(** ** The timer fires a check, and stays armed *)

Lemma scheduled_request_id_range sch :
  SESSION_STATUS_SCHEDULED_REQUEST_ID_BASE <= (next_request_id sch).2
    < 2 * SESSION_STATUS_SCHEDULED_REQUEST_ID_BASE.
Proof.
  unfold next_request_id, SESSION_STATUS_SCHEDULED_REQUEST_ID_BASE. cbn [snd].
  set (x := next_request_seq _). rewrite Z.shiftl_mul_pow2, Z.mul_1_l by lia.
  replace (2 ^ 62 - 1) with (Z.ones 62) by reflexivity. rewrite Z.land_ones by lia.
  assert (0 <= x mod 2 ^ 62 < 2 ^ 62) as Hr by (apply Z.mod_pos_bound; lia).
  assert (Z.land (2 ^ 62) (x mod 2 ^ 62) = 0) as Hland.
  { apply Z.bits_inj'. intros n Hn. rewrite Z.land_spec, Z.bits_0, Z.pow2_bits_eqb by lia.
    destruct (Z.eqb_spec 62 n) as [<-|]; [|done].
    rewrite Z.mod_pow2_bits_high by lia. done. }
  rewrite <-Z.lxor_lor, <-Z.add_nocarry_lxor by done. lia.
Qed.

Lemma due_when_armed_time_passed st now :
  is_checking st = false -> due_at_ms st <= now -> due_at_ms st < U64_MAX -> is_due st now = true.
Proof.
  unfold due_at_ms, is_due. intros Hc Hnow Hmax. destruct (settled_interval st) as [[c i]|] eqn:E.
  - unfold u64_saturating_add in *. apply orb_true_iff.
    destruct (Z.ltb_spec now c); [by left|right]. apply Z.leb_le. lia.
  - by destruct st.
Qed.

(** in every run, when the timer that is armed fires at or after its due time for a ready,
    connected session, the scheduler starts exactly one check, under a request id of its own
    range (bit 62 set, bit 63 clear), disjoint from the ids of frontend commands below 2^62.
    A notification with any other token changes nothing. *)
Theorem due_timer_starts_check acts a now :
  let s := (run reduce_action AppState_default acts).1 in
  armed (current_session_status_schedule s) = Some a ->
  is_session_ready s = true -> connectivity_proven s = true ->
  armed_due_at_ms a < U64_MAX -> armed_due_at_ms a <= now ->
  (exists r,
     (reduce_action s (CurrentSessionStatusCheckDue (armed_token a) now)).2
     = [RefreshCurrentSessionStatus r (armed_trigger a)]
     /\ SESSION_STATUS_SCHEDULED_REQUEST_ID_BASE <= r
        < 2 * SESSION_STATUS_SCHEDULED_REQUEST_ID_BASE)
  /\ (forall tok, tok <> armed_token a ->
        reduce_action s (CurrentSessionStatusCheckDue tok now) = (s, [])).
Proof.
  intros s Harm Hready Hconn Hmax Hnow.
  pose proof (status_inv_run acts) as Hinv. fold s in Hinv. unfold status_inv, timer_ok in Hinv.
  rewrite Harm in Hinv. destruct Hinv as (_ & Hdue & Hc). rewrite Hdue in Hmax, Hnow.
  pose proof (due_when_armed_time_passed _ now Hc Hnow Hmax) as Hisdue.
  cbn [reduce_action]. unfold handle_check_due. rewrite Harm. split.
  - rewrite Z.eqb_refl. cbn [negb].
    set (s0 := s <| current_session_status_schedule ::= _ |>).
    assert (is_session_ready s0 = true) as -> by exact Hready.
    assert (connectivity_proven s0 = true) as -> by exact Hconn.
    change (current_session_status s0) with (current_session_status s).
    rewrite Hc, Hisdue. cbn [negb andb].
    pose proof (scheduled_request_id_range (current_session_status_schedule s0)) as Hr.
    destruct (next_request_id _) as [sch r]. exists r. split; [|exact Hr].
    set (s1 := s0 <| current_session_status_schedule := sch |>).
    assert (admit_decision s1 (armed_trigger a) now = Decision_Started) as Hd.
    { unfold admit_decision. assert (is_session_ready s1 = true) as -> by exact Hready.
      change (current_session_status s1) with (current_session_status s).
      rewrite Hc, Hisdue, andb_false_r. done. }
    unfold admit_check. by rewrite Hd.
  - intros tok Htok. destruct (Z.eqb_spec (armed_token a) tok); [congruence|]. done.
Qed.

(** The actions that leave a connected, ready session without a timer. *)
Definition keeps_timer (a : AppAction) : bool :=
  match a with
  | SyncStarted | SyncRecovered | ProvisionalSessionDiscarded | SwitchAccountRequested _ => false
  | _ => true
  end.

Definition timer_live (s : AppState) : Prop :=
  is_session_ready s = true -> connectivity_proven s = true ->
  is_checking (current_session_status s) = false ->
  armed (current_session_status_schedule s) <> None.

Lemma timer_live_arm s trigger : timer_live (arm s trigger).1.
Proof.
  unfold arm. case_match eqn:Hg; [|by intros ???].
  intros H1 H2 H3. cbn [fst] in *. by rewrite H1, H2, H3 in Hg.
Qed.

(** Branches that leave the ready session, stop the connection, or change neither. *)
Ltac timer_branch Hs :=
  let H1 := fresh in let H2 := fresh in let H3 := fresh in
  intros H1 H2 H3;
  first [ exact (Hs H1 H2 H3)
        | exfalso; unfold is_session_ready in H1; cbn in H1; discriminate H1
        | exfalso; unfold connectivity_proven in H2; cbn in H2; discriminate H2
        | exfalso; match goal with H : session ?x = _ |- _ =>
            unfold is_session_ready in H1; cbn in H1, H; rewrite H in H1; discriminate H1 end ].

Lemma timer_live_admit s r trigger now :
  timer_live s -> timer_live (admit_check s r trigger now).1.
Proof.
  intros Hs. unfold admit_check. case_decide; [exact Hs|]. intros _ _ Hc. discriminate Hc.
Qed.

Lemma timer_live_check_due s tok now :
  timer_live s -> timer_live (handle_check_due s tok now).1.
Proof.
  intros Hs. unfold handle_check_due, arm_effects. cbn [next_request_id].
  destruct (armed _); [|exact Hs]. case_match; [exact Hs|].
  set (s0 := s <| current_session_status_schedule ::= _ |>).
  destruct (is_session_ready s0) eqn:Hr; cbn [negb]; [|by intros Hx; cbn [fst] in Hx; congruence].
  destruct (is_checking (current_session_status s0)) eqn:Hc; cbn [negb andb];
    rewrite ?andb_false_r.
  - intros _ _ Hx. rewrite admit_in_flight in Hx by exact Hc. exfalso.
    change (is_checking (current_session_status s0) = false) in Hx. congruence.
  - rewrite andb_true_r. destruct (connectivity_proven s0) eqn:Hp; cbn [negb].
    + destruct (is_due _ now) eqn:Hd; cbn [negb]; [|apply timer_live_arm].
      unfold admit_check. set (s1 := s0 <| current_session_status_schedule := _ |>).
      assert (admit_decision s1 (armed_trigger a) now = Decision_Started) as ->.
      { unfold admit_decision. assert (is_session_ready s1 = true) as -> by exact Hr.
        change (current_session_status s1) with (current_session_status s0).
        rewrite Hc, Hd, andb_false_r. done. }
      intros _ _ Hx. discriminate Hx.
    + intros _ Hx. exfalso. change (connectivity_proven s0 = true) in Hx. congruence.
Qed.

Lemma timer_live_sync s g st : timer_live s -> timer_live (handle_sync_status_changed s g st).1.
Proof.
  intros Hs. unfold handle_sync_status_changed, handle_connectivity_proven.
  case_match; [exact Hs|]. cbv zeta. case_decide; [exact Hs|].
  match goal with |- context [if ?b then (let '(_, _) := arm ?x ?t in _) else _] =>
    pose proof (timer_live_arm x t) as Harm; destruct b eqn:Hb; [destruct (arm x t); exact Harm|]
  end.
  intros H1 H2 H3. apply Hs; [exact H1| |exact H3].
  change (is_running_sync (sync s) = true).
  assert (is_running_sync (if is_session_ready s then sync_state_from_status st else Sync_Stopped) = true)
    as Hn by exact H2.
  change (is_session_ready (s <| sync_generation := g |>)) with (is_session_ready s) in Hb.
  rewrite Hn, andb_true_r in Hb. by apply negb_false_iff in Hb.
Qed.

Lemma timer_live_trust s trust :
  timer_live s -> timer_live (handle_current_device_trust_changed s trust).1.
Proof. intros Hs. autounfold with handlers. repeat case_match; timer_branch Hs. Qed.

Lemma unproven_trust_gates s trust :
  is_session_ready s = true -> trust <> Trust_Verified ->
  is_session_ready (handle_current_device_trust_changed s trust).1 = false.
Proof.
  unfold is_session_ready at 1, handle_current_device_trust_changed, gate_ready_session.
  destruct (session s); try done. by destruct trust.
Qed.

(** The trust arms: a reset taken while the session stays ready is followed by an arming. *)
Lemma timer_live_trust_arm handle s trust :
  (forall s, (handle s trust).1 = (handle_current_device_trust_changed s trust).1) ->
  timer_live s -> timer_live (reduce_trust_changed handle s trust).1.
Proof.
  intros Hh Hs. unfold reduce_trust_changed, invalidate_if_trust_disagrees, arm_after_reset.
  destruct (is_session_ready s) eqn:Hr.
  2:{ pose proof (timer_live_trust s trust Hs) as Ht. rewrite <-Hh in Ht.
      destruct (handle s trust). exact Ht. }
  destruct trust.
  - intros Hx. exfalso. revert Hx.
    destruct (handle (reset s) Trust_Unknown) as [s1 e1] eqn:H1.
    pose proof (unproven_trust_gates (reset s) Trust_Unknown Hr ltac:(done)) as Hn.
    rewrite <-Hh, H1 in Hn. cbn [fst] in *. congruence.
  - match goal with |- context [if is_none_or ?o ?f then _ else _] => destruct (is_none_or o f) end.
    + destruct (handle (reset s) Trust_Verified) as [s1 e1].
      pose proof (timer_live_arm s1 Trigger_Scheduled) as Harm.
      destruct (arm s1 Trigger_Scheduled). exact Harm.
    + pose proof (timer_live_trust s Trust_Verified Hs) as Ht. rewrite <-Hh in Ht.
      destruct (handle s Trust_Verified). exact Ht.
  - intros Hx. exfalso. revert Hx.
    destruct (handle (reset s) Trust_Unverified) as [s1 e1] eqn:H1.
    pose proof (unproven_trust_gates (reset s) Trust_Unverified Hr ltac:(done)) as Hn.
    rewrite <-Hh, H1 in Hn. cbn [fst] in *. congruence.
Qed.

Lemma timer_live_settled s r details kind at_ :
  timer_live s ->
  timer_live (handle_refreshed s r details).1 /\ timer_live (handle_refresh_failed s r kind at_).1.
Proof.
  intros Hs. unfold handle_refreshed, handle_refresh_failed, arm_effects.
  case_match; [done|]. split; apply timer_live_arm.
Qed.

Lemma timer_live_core s s' :
  session_core s' = session_core s ->
  current_session_status s' = current_session_status s ->
  current_session_status_schedule s' = current_session_status_schedule s ->
  timer_live s -> timer_live s'.
Proof.
  unfold session_core, timer_live, is_session_ready, connectivity_proven.
  intros [= -> _ -> _ _] -> ->. done.
Qed.

Lemma timer_live_step s a :
  keeps_timer a = true -> timer_live s -> timer_live (reduce_action s a).1.
Proof.
  intros Hk Hs. destruct (touches_session a) eqn:Hses.
  - destruct a; try discriminate Hses; try discriminate Hk; clear Hses Hk;
      lazymatch goal with
      | |- context [SyncStatusChanged _ _] => by apply timer_live_sync
      | |- context [CurrentDeviceTrustChanged _] => by apply timer_live_trust_arm
      | |- context [AuthoritativeDeviceTrustChanged _ _ _] =>
          apply timer_live_trust_arm; [intros; apply authoritative_trust_state|done]
      | _ => handler_cases; timer_branch Hs
      end.
  - destruct (touches_status a) eqn:Hst.
    + destruct a; try discriminate Hst; try discriminate Hses; try discriminate Hk.
      * by apply timer_live_admit.
      * by apply timer_live_check_due.
      * by apply (timer_live_settled s request_id details StatusFailure_Sdk 0).
      * cbn [reduce_action]. unfold handle_refresh_failed, arm_effects.
        case_match; [done|]. apply timer_live_arm.
    + destruct (status_frame s a Hst). by apply (timer_live_core s _ (session_core_frame s a Hses)).
Qed.

(** along every run from the initial state that contains neither the legacy connectivity
    actions nor a reset of a ready session's scheduler, a ready and connected session with no
    check in flight always has a timer armed: automatic checks never stall, through failures,
    reconnects, trust changes and account switches alike. *)
Theorem connected_session_keeps_timer acts :
  Forall (fun a => keeps_timer a = true) acts ->
  timer_live (run reduce_action AppState_default acts).1.
Proof.
  intros Hacts. eapply run_invariant_in; [apply timer_live_step|exact Hacts|].
  intros Hx. discriminate Hx.
Qed.

(** ** Concrete runs *)

Definition carol : SessionInfo :=
  {| homeserver := "https://example.org"; user_id := "@carol:example.org"; device_id := "CCCC";
     authentication_method := Auth_Sso |}.

Definition connected_run : list AppAction :=
  [RestoreSessionRequested; RestoreSessionSucceeded carol;
   CurrentDeviceTrustChanged Trust_Verified; SyncStatusChanged 1 Status_Running].

Lemma connected_session_keeps_timer_witness :
  timer_live (run reduce_action AppState_default connected_run).1.
Proof. apply connected_session_keeps_timer. repeat constructor. Defined.

Definition connected_timer : ArmedSessionStatusCheck :=
  {| armed_token := 1; armed_due_at_ms := 0; armed_trigger := Trigger_Scheduled |}.

Lemma due_timer_starts_check_witness :
  (exists r,
     (reduce_action (run reduce_action AppState_default connected_run).1
        (CurrentSessionStatusCheckDue 1 5)).2 = [RefreshCurrentSessionStatus r Trigger_Scheduled]
     /\ SESSION_STATUS_SCHEDULED_REQUEST_ID_BASE <= r
        < 2 * SESSION_STATUS_SCHEDULED_REQUEST_ID_BASE)
  /\ (forall tok, tok <> 1 ->
        reduce_action (run reduce_action AppState_default connected_run).1
          (CurrentSessionStatusCheckDue tok 5)
        = ((run reduce_action AppState_default connected_run).1, [])).
Proof.
  apply (due_timer_starts_check connected_run connected_timer 5); try reflexivity; done.
Defined.

(** a request to switch to the account that is already active is meant to change nothing, but
    its arm resets the scheduler first: the session stays ready and connected, and no timer is
    armed any more. *)
Lemma switch_to_current_account_stalls_checks :
  let s := (run reduce_action AppState_default
              (connected_run ++ [SwitchAccountRequested carol])).1 in
  is_session_ready s = true /\ connectivity_proven s = true
  /\ current_session_status s = SessStatus_Idle
  /\ armed (current_session_status_schedule s) = None.
Proof. repeat split; reflexivity. Qed.
