(* ===== verification/ExportProps.v ===== *)
(** History export: the reducer refines the export state machine, and the progress of a
    running export only moves forward. *)

From stdpp Require Import base list strings relations.
From Stdlib Require Import ZArith Lia.
From S2P Require Import Prelude AppState Session E2ee SlidingSync SessionStatus HistoryExport Reducer.
Local Open Scope string_scope.
Local Open Scope list_scope.
Local Open Scope Z_scope.
Local Set Warnings "-clear-no-such-hyp".

(** ** The state machine *)

(** Progress of one room: its identity stays, its phase does not go back, and a settled room
    is frozen. *)
Definition room_le (r r' : HistoryExportRoom) : Prop :=
  export_room_id r' = export_room_id r
  /\ export_display_name r' = export_display_name r
  /\ skip_reason r' = skip_reason r
  /\ phase_rank (phase r) <= phase_rank (phase r')
  /\ (is_settled (phase r) = true -> r' = r).

#[export] Instance room_le_refl : Reflexive room_le.
Proof. intros r. repeat split; lia || done. Qed.

#[export] Instance room_le_trans : Transitive room_le.
Proof.
  intros r1 r2 r3 (H1 & H2 & H3 & H4 & H5) (G1 & G2 & G3 & G4 & G5).
  repeat split; try congruence; [lia|].
  intros Hs. specialize (H5 Hs) as ->. by apply G5.
Qed.

(** The transitions of an export, as [docs/architecture/state-machine.md] draws them:
    prepare, run, progress, stop, settle, retry; a session teardown clears it. *)
Inductive export_transition : HistoryExportState -> HistoryExportState -> Prop :=
  | T_request h id scope range :
      active_request_id h = None -> range_is_valid range = true ->
      export_transition h (HistExport_Preparing id scope range false)
  | T_retry h id target scope range rooms :
      (h = HistExport_Completed target scope range rooms
       \/ h = HistExport_Stopped target scope range rooms
       \/ exists kind, h = HistExport_Failed target scope range rooms kind) ->
      export_transition h (HistExport_Preparing id scope range false)
  | T_prepared id scope range stop rooms :
      export_transition (HistExport_Preparing id scope range stop)
        (HistExport_Running id scope range rooms stop)
  | T_progress id scope range stop rooms rooms' :
      Forall2 room_le rooms rooms' ->
      export_transition (HistExport_Running id scope range rooms stop)
        (HistExport_Running id scope range rooms' stop)
  | T_stop_preparing id scope range :
      export_transition (HistExport_Preparing id scope range false)
        (HistExport_Preparing id scope range true)
  | T_stop_running id scope range rooms :
      export_transition (HistExport_Running id scope range rooms false)
        (HistExport_Running id scope range rooms true)
  | T_settle_preparing settlement id scope range stop :
      export_transition (HistExport_Preparing id scope range stop)
        (settle settlement id scope range [])
  | T_settle_running settlement id scope range rooms stop :
      export_transition (HistExport_Running id scope range rooms stop)
        (settle settlement id scope range rooms)
  | T_clear h : export_transition h HistExport_Idle.

(** One action leaves the export, or takes one transition. *)
Definition export_moves (h h' : HistoryExportState) : Prop :=
  h' = h \/ export_transition h h'.

Lemma running_room_found s r id room :
  running_room s r id = Some room ->
  exists scope range rooms stop,
    history_export s = HistExport_Running r scope range rooms stop
    /\ find_first (fun x => bool_decide (export_room_id x = id)) rooms = Some room.
Proof.
  unfold running_room. destruct (history_export s); try done.
  case_match; [|done]. split_guards. subst. intros. eauto 6.
Qed.

(** A report about one room of the running export is a progress transition. *)
Lemma update_room_transition s r id room f :
  running_room s r id = Some room -> room_le room (f room) ->
  export_transition (history_export s) (history_export (update_running_room s id f).1).
Proof.
  intros (scope & range & rooms & stop & Hh & Hf)%running_room_found Hle.
  unfold update_running_room. rewrite Hh. cbn.
  apply T_progress. by eapply Forall2_update_first.
Qed.

Lemma progressed_transition s r id p c :
  export_moves (history_export s) (history_export (handle_room_progressed s r id p c).1).
Proof.
  unfold handle_room_progressed. case_match; [by left|].
  destruct (running_room s r id) as [room|] eqn:Hr; [|by left].
  case_match; [by left|]. right. eapply update_room_transition; [exact Hr|].
  split_guards. repeat split; [|congruence].
  cbn. lia.
Qed.

Lemma room_settled_transition s r id p c k :
  export_moves (history_export s) (history_export (handle_room_settled s r id p c k).1).
Proof.
  unfold handle_room_settled.
  destruct p; try (by left); (destruct (running_room s r id) as [room|] eqn:Hr; [|by left]);
    (destruct (is_settled (phase room)) eqn:Hset; [by left|]); right;
    (eapply update_room_transition; [exact Hr|]);
    (repeat split; [|congruence]); cbn; destruct (phase room); cbn in *; discriminate || lia.
Qed.

Lemma settled_transition s r settlement :
  export_moves (history_export s) (history_export (handle_settled s r settlement).1).
Proof.
  unfold handle_settled. destruct (history_export s) eqn:Hh; try (rewrite <-Hh; by left);
    case_match; try (rewrite <-Hh; by left); split_guards; subst; right; constructor.
Qed.

Lemma export_refines_step s a :
  export_moves (history_export s) (history_export (reduce_action s a).1).
Proof.
  destruct (touches_export a) eqn:Ha.
  2:{ destruct (export_frame s a Ha) as [Hh|Hh]; [by left|right]. rewrite Hh. apply T_clear. }
  destruct a; try discriminate Ha; clear Ha; cbn [reduce_action];
    eauto using progressed_transition, room_settled_transition, settled_transition.
  - unfold handle_requested. case_match; [by left|]. right. split_guards.
    apply T_request; [by apply dec_stable|done].
  - unfold handle_retry_requested. case_match; [by left|].
    destruct (history_export s) eqn:Hh; try (rewrite <-Hh; by left);
      (case_match; [right|rewrite <-Hh; by left]); split_guards; subst;
      eapply T_retry; eauto.
  - unfold handle_prepared. destruct (history_export s) eqn:Hh; try (rewrite <-Hh; by left).
    case_match; [|rewrite <-Hh; by left]. split_guards; subst. right. apply T_prepared.
  - unfold handle_stop_requested. destruct (history_export s) eqn:Hh; try (rewrite <-Hh; by left);
      (case_match; [rewrite <-Hh; by left|]); split_guards; subst; right; constructor.
Qed.

(** the reducer refines the export state machine: whatever the action and the state, the
    export is left alone or takes one of its transitions.  So one export is in flight at a
    time, room phases only move forward and settled rooms are frozen, a stop request is never
    taken back, and reports of another request are ignored. *)
Theorem export_refines_state_machine s a :
  history_export (reduce_action s a).1 = history_export s
  \/ export_transition (history_export s) (history_export (reduce_action s a).1).
Proof.
  apply export_refines_step.
Qed.

(** ** Runs *)

Definition starts_export (a : AppAction) : bool :=
  match a with
  | HistoryExportRequested _ _ _ | HistoryExportRetryRequested _ _ => true
  | _ => false
  end.

Definition is_preparing (h : HistoryExportState) : bool :=
  match h with HistExport_Preparing _ _ _ _ => true | _ => false end.

(** The rooms of a running or settled export. *)
Definition export_rooms (h : HistoryExportState) : option (Z * list HistoryExportRoom) :=
  match h with
  | HistExport_Running id _ _ rooms _ | HistExport_Completed id _ _ rooms
  | HistExport_Stopped id _ _ rooms | HistExport_Failed id _ _ rooms _ => Some (id, rooms)
  | _ => None
  end.

Lemma preparing_only_from_start s a :
  starts_export a = false -> is_preparing (history_export s) = false ->
  is_preparing (history_export (reduce_action s a).1) = false.
Proof.
  intros Ha Hp. destruct (touches_export a) eqn:Ht.
  2:{ destruct (export_frame s a Ht) as [-> | ->]; done. }
  destruct a; try discriminate Ht; try discriminate Ha; cbn [reduce_action];
    unfold handle_prepared, handle_room_progressed, handle_room_settled, handle_stop_requested,
      handle_settled, update_running_room;
    destruct (history_export s) eqn:Hh; try discriminate Hp; repeat case_match;
    cbn; rewrite ?Hh; try done; by destruct kind.
Qed.

(** An export that ran with [rooms] under [id] is gone, or still holds their progress. *)
Definition export_keeps (id : Z) (rooms : list HistoryExportRoom) (h : HistoryExportState) : Prop :=
  h = HistExport_Idle
  \/ exists rooms', export_rooms h = Some (id, rooms') /\ Forall2 room_le rooms rooms'.

Lemma export_keeps_step id rooms s a :
  starts_export a = false ->
  export_keeps id rooms (history_export s) ->
  export_keeps id rooms (history_export (reduce_action s a).1).
Proof.
  intros Ha Hk.
  assert (is_preparing (history_export s) = false) as Hp.
  { destruct Hk as [-> | (? & Hr & _)]; [done|]. by destruct (history_export s). }
  pose proof (preparing_only_from_start s a Ha Hp) as Hp'.
  destruct (export_refines_step s a) as [->|Ht]; [done|].
  destruct Ht; try discriminate Hp; try discriminate Hp'; try (by left);
    destruct Hk as [Hk|(rs & Hrs & Hle)]; try discriminate Hk; injection Hrs as -> ->;
    right; eexists; (split; [try reflexivity|]).
  - by etrans.
  - done.
  - by destruct settlement.
  - done.
Qed.

(** once an export is running, every later report before another export is started
    keeps its request id and its rooms in place and in order, with phases that never go back
    and settled rooms frozen, also in the settled result, whatever the order of the reports. *)
Theorem export_progress_is_monotone s acts id scope range rooms stop :
  history_export s = HistExport_Running id scope range rooms stop ->
  Forall (fun a => starts_export a = false) acts ->
  export_keeps id rooms (history_export (run reduce_action s acts).1).
Proof.
  intros Hs Hacts.
  apply (run_invariant_in reduce_action (fun s => export_keeps id rooms (history_export s))
           (fun a => starts_export a = false)); [|done|].
  - intros. by apply export_keeps_step.
  - right. rewrite Hs. by exists rooms.
Qed.

(** ** Concrete run *)

Definition export_room (id : string) (p : HistoryExportRoomPhase) : HistoryExportRoom :=
  {| export_room_id := id; export_display_name := id; phase := p;
     counts := {| fetched_events := 0; exported_events := 0; undecryptable_events := 0;
                  attachments_total := 0; attachments_done := 0; attachments_failed := 0 |};
     skip_reason := None; failure_kind := None |}.

Definition exporting_state : AppState :=
  AppState_default <| history_export :=
    HistExport_Running 4 (Scope_Space "!s") Range_AllAvailable
      [export_room "!a" RoomPhase_Pending; export_room "!b" RoomPhase_Fetching] false |>.

Definition export_reports : list AppAction :=
  [HistoryExportRoomProgressed 4 "!a" RoomPhase_Rendering (counts (export_room "!a" RoomPhase_Pending));
   HistoryExportRoomProgressed 4 "!a" RoomPhase_Fetching (counts (export_room "!a" RoomPhase_Pending));
   HistoryExportRoomSettled 4 "!b" RoomPhase_Failed (counts (export_room "!b" RoomPhase_Pending))
     (Some RoomFailure_Network);
   HistoryExportCompleted 4].

Lemma export_progress_is_monotone_witness :
  export_keeps 4 [export_room "!a" RoomPhase_Pending; export_room "!b" RoomPhase_Fetching]
    (history_export (run reduce_action exporting_state export_reports).1)
  /\ (phase <$> (export_rooms (history_export (run reduce_action exporting_state export_reports).1)
        ≫= fun x => last x.2)) = Some RoomPhase_Failed.
Proof.
  split; [|reflexivity].
  eapply export_progress_is_monotone; [reflexivity|repeat constructor].
Defined.
