(* ===== verification/E2eeProps.v ===== *)
(** End-to-end encryption trust: the exclusion of recovery-key flows, and the device
    verification state machine. *)

From stdpp Require Import base list strings.
From Stdlib Require Import ZArith Lia.
From S2P Require Import Prelude AppState Session E2ee SlidingSync SessionStatus HistoryExport Reducer.
Local Open Scope string_scope.
Local Open Scope list_scope.
Local Open Scope Z_scope.
Local Set Warnings "-clear-no-such-hyp".

(** ** Recovery-key flows *)

(** Actions after which the session may have left [Ready] with its key flows still open. *)
Definition leaves_flows_open (a : AppAction) : bool :=
  match a with
  | AppStarted | RestoreSessionNotFound | RestoreSessionFailed _ | SyncFailed _
  | SlidingSyncCapabilityRevalidationCompleted _ _ CapResult_Unsupported => true
  | _ => false
  end.

(** The session and the two flows that hold a revealed key. *)
Definition key_core (s : AppState) :=
  (session s, secure_backup_setup (km s), passphrase_change (km s)).

Definition key_exclusive
    (c : SessionState * SecureBackupSetupState * SecureBackupPassphraseChangeState) : Prop :=
  let '(st, setup, passphrase) := c in
  passphrase_busy passphrase = true ->
  setup_busy setup = false /\ exists info, st = Session_Ready info.

Definition key_inv (s : AppState) : Prop := key_exclusive (key_core s).

Ltac eval_key_core :=
  match goal with
  | |- context [key_core ?x] =>
      let c := eval unfold key_core, km in (key_core x) in
      let c := eval cbn in c in change (key_core x) with c
  end.

(** Rewrite what the branch found into the invariant it started from, and close it. *)
Ltac key_close s :=
  match goal with H : key_exclusive (key_core s) |- _ =>
    unfold key_exclusive, key_core in H |- * end;
  unfold recovery_key_flow_busy, is_session_ready, current_session_info,
    has_verification_gate_projection_context, km in *;
  split_guards;
  repeat match goal with
  | H : session s = _ |- _ => rewrite H in *; clear H
  | H : secure_backup_setup (key_management (e2ee_trust s)) = _ |- _ => rewrite H in *; clear H
  | H : passphrase_change (key_management (e2ee_trust s)) = _ |- _ => rewrite H in *; clear H
  end;
  cbn in *; intros; destruct_and?;
  repeat match goal with
  | H : match session ?s with _ => _ end = _ |- _ =>
      destruct (session s) eqn:?; try discriminate H; clear H
  | H : ?P -> _, H' : ?P |- _ => specialize (H H')
  end;
  destruct_and?;
  solve [discriminate | congruence | split; [congruence || done|eauto] | naive_solver].

Lemma key_inv_reset s : key_inv s -> key_inv (reset s).
Proof. done. Qed.

Lemma key_inv_arm s trigger : key_inv s -> key_inv (arm s trigger).1.
Proof. unfold arm. by case_match. Qed.
Lemma key_inv_trust s trust :
  key_inv s -> key_inv (handle_current_device_trust_changed s trust).1.
Proof.
  unfold key_inv. intros Hinv. autounfold with handlers.
  repeat case_match; try assumption; eval_key_core; key_close s.
Qed.

Lemma key_inv_step s a :
  leaves_flows_open a = false -> key_inv s -> key_inv (reduce_action s a).1.
Proof.
  intros Ha Hinv. destruct a; try discriminate Ha;
    first [trust_arm key_inv s; by auto using key_inv_trust, key_inv_reset, key_inv_arm
          | unfold key_inv in *; handler_cases; try assumption; eval_key_core; key_close s].
Qed.

(** at most one recovery-key flow is busy at a time: in a run from the initial state
    whose session never leaves [Ready] through a path that keeps the flows open, a setup that
    is in progress or waiting for its key to be saved excludes a passphrase change, and a
    passphrase change is only busy while the session is ready. *)
Theorem one_recovery_key_flow acts
    (Hacts : Forall (fun a => leaves_flows_open a = false) acts) :
  let s := (run reduce_action AppState_default acts).1 in
  ~ (setup_busy (secure_backup_setup (km s)) = true
     /\ passphrase_busy (passphrase_change (km s)) = true)
  /\ (passphrase_busy (passphrase_change (km s)) = true -> is_session_ready s = true).
Proof.
  intros s.
  assert (key_inv s) as Hinv.
  { apply (run_invariant_in _ key_inv (fun a => leaves_flows_open a = false));
      [exact key_inv_step|exact Hacts|done]. }
  unfold key_inv, key_core, key_exclusive in Hinv. split.
  - intros [Hs Hp]. destruct (Hinv Hp). congruence.
  - intros Hp. destruct (Hinv Hp) as [_ [info Hi]]. unfold is_session_ready. by rewrite Hi.
Qed.

(** ** Device verification

    What one action may do to the verification flow, with the requests it sends to the
    verification machine. *)

Definition is_verification_effect (e : AppEffect) : bool :=
  match e with
  | RequestVerification _ _ | AcceptVerification _ | ConfirmSasVerification _
  | CancelVerification _ _ => true
  | _ => false
  end.

Definition verification_effects (effects : list AppEffect) : list AppEffect :=
  List.filter is_verification_effect effects.

(** The transitions of the flow, with the action that takes each one: every one names the
    request the action is about, and a report of another request takes none. *)
Inductive verification_transition
    : VerificationFlowState -> AppAction -> list AppEffect -> VerificationFlowState -> Prop :=
  | V_requested v r target :
      is_in_progress v = false ->
      verification_transition v (VerificationRequested r target) [RequestVerification r target]
        (Verification_Requested r target Initiator_Them)
  | V_request_sent v r target :
      is_in_progress v = false ->
      verification_transition v (VerificationRequestSent r target) [RequestVerification r target]
        (Verification_Requested r target Initiator_Us)
  | V_accept r target initiator :
      verification_transition (Verification_Requested r target initiator)
        (VerificationAccepted r) [AcceptVerification r] (Verification_Accepted r target initiator)
  | V_sas v r target emojis :
      verification_request_id v = Some r -> verification_target v = Some target ->
      match v with
      | Verification_Requested _ _ _ | Verification_Accepted _ _ _
      | Verification_SasPresented _ _ _ => True
      | _ => False
      end ->
      verification_transition v (VerificationSasPresented r emojis) []
        (Verification_SasPresented r target emojis)
  | V_confirm r target emojis :
      verification_transition (Verification_SasPresented r target emojis)
        (VerificationConfirmed r) [ConfirmSasVerification r] (Verification_Confirming r target emojis)
  | V_cancel v r :
      is_in_progress v = true -> verification_request_id v = Some r ->
      verification_transition v (VerificationCancelled r Cancel_User)
        [CancelVerification r Cancel_User] Verification_Idle
  | V_mismatch v r target emojis :
      v = Verification_SasPresented r target emojis \/ v = Verification_Confirming r target emojis ->
      verification_transition v (VerificationCancelled r Cancel_Mismatch)
        [CancelVerification r Cancel_Mismatch] (Verification_Failed r target TrustFailure_Mismatch)
  | V_done v r target :
      is_in_progress v = true -> verification_request_id v = Some r ->
      verification_target v = Some target ->
      verification_transition v (VerificationCompleted r) [] (Verification_Done r target)
  | V_failed v r target kind :
      is_in_progress v = true -> verification_request_id v = Some r ->
      verification_target v = Some target ->
      verification_transition v (VerificationFailed r kind) [] (Verification_Failed r target kind).

(** A new verification needs a ready session. *)
Definition may_verify (s : AppState) (a : AppAction) : bool :=
  match a with
  | VerificationRequested _ _ | VerificationRequestSent _ _ => is_session_ready s
  | _ => true
  end.

(** The action reports the verification the session gate is waiting for. *)
Definition settles_gate (s : AppState) (a : AppAction) : bool :=
  match session s with
  | Session_Verifying _ _ method flow _ =>
      match a with
      | VerificationCancelled r _ => flow =? r
      | VerificationCompleted r | VerificationFailed r _ =>
          bool_decide (method = Method_ExistingDeviceSas) && (flow =? r)
      | _ => false
      end
  | _ => false
  end.

(** The actions that end the session, send it back to its verification gate or start a
    verification there, and the reset of the identity: the flow is dropped with them. *)
Definition drops_flow (a : AppAction) : bool :=
  match a with
  | CurrentDeviceTrustChanged _ | AuthoritativeDeviceTrustChanged _ _ _
  | VerificationMethodSubmitted _ _ | E2eeRecoverySubmitted _ _ | E2eeRecoveryRequired _ _
  | DeviceCleanupCompleted _ | VerificationSessionRejected _ | ProvisionalSessionDiscarded
  | ResetIdentityCompleted _ | SessionLocked | SessionAuthenticationInvalidated _
  | LogoutRequested | LogoutFinished | SwitchAccountRequested _ => true
  | _ => false
  end.

(** What an action does to the flow: a report for the session gate leaves it alone and only
    passes a cancellation on; otherwise the transition of the action is taken exactly when
    there is one, and without one the flow stays as it is or is dropped with its session. *)
Definition verification_moves (s : AppState) (a : AppAction) (out : Reduced) : Prop :=
  let v := verification (e2ee_trust s) in
  let v' := verification (e2ee_trust out.1) in
  let effects := verification_effects out.2 in
  if settles_gate s a then
    v' = v /\ effects = match a with
                       | VerificationCancelled r reason => [CancelVerification r reason]
                       | _ => []
                       end
  else
    (may_verify s a = true /\ verification_transition v a effects v')
    \/ ((may_verify s a = true -> forall e w, ~ verification_transition v a e w)
       /\ effects = []
       /\ (v' = v \/ (drops_flow a = true /\ v' = Verification_Idle))).

(** Actions that reach the verification handlers. *)
Definition touches_verification (a : AppAction) : bool :=
  match a with
  | VerificationRequested _ _ | VerificationRequestSent _ _ | VerificationAccepted _
  | VerificationSasPresented _ _ | VerificationConfirmed _ | VerificationCancelled _ _
  | VerificationCompleted _ | VerificationFailed _ _ => true
  | _ => false
  end.

Definition not_verification (e : AppEffect) : Prop := is_verification_effect e = false.

Lemma verification_effects_nil l : Forall not_verification l -> verification_effects l = [].
Proof. induction 1 as [|e l He _ IH]; [done|]. cbn. by rewrite He. Qed.

Lemma verification_effects_frame s a :
  touches_verification a = false -> Forall not_verification (reduce_action s a).2.
Proof.
  intros Ha.
  assert (forall s t, Forall not_verification (handle_current_device_trust_changed s t).2)
    by (intros; by apply Forall_current_trust).
  destruct a; try discriminate Ha; clear Ha;
    first [ apply Forall_trust_changed; by auto using Forall_authoritative
          | handler_cases; effects_forall; reflexivity ].
Qed.

Lemma verification_frame s a :
  touches_verification a = false ->
  verification (e2ee_trust (reduce_action s a).1) = verification (e2ee_trust s)
  \/ (drops_flow a = true
     /\ verification (e2ee_trust (reduce_action s a).1) = Verification_Idle).
Proof.
  set (I x := verification (e2ee_trust x) = verification (e2ee_trust s)
              \/ verification (e2ee_trust x) = Verification_Idle).
  assert (forall x trigger, I x -> I (arm x trigger).1) by (intros; unfold arm; by case_match).
  assert (forall x t, I x -> I (handle_current_device_trust_changed x t).1) as Htrust.
  { intros; unfold I; autounfold with handlers; repeat case_match;
      try assumption; (by left) || (by right) || assumption. }
  assert (drops_flow a = true -> I (reduce_action s a).1 ->
          verification (e2ee_trust (reduce_action s a).1) = verification (e2ee_trust s)
          \/ (drops_flow a = true
             /\ verification (e2ee_trust (reduce_action s a).1) = Verification_Idle)) as Hdrop.
  { intros Hd [Hv|Hv]; [by left|by right]. }
  intros Ha. destruct a; try discriminate Ha; clear Ha;
    first [ solve [clear Hdrop; handler_cases; left; reflexivity]
          | apply Hdrop; [reflexivity|];
            first [ trust_arm I s; by auto; by left
                  | clear Hdrop; handler_cases; (left; reflexivity) || (right; reflexivity)]].
Qed.

Lemma is_in_progress_active v : verification_is_active v = is_in_progress v.
Proof. by destruct v. Qed.

Lemma verification_admitted s r :
  verification_admits s r = true ->
  is_in_progress (verification (e2ee_trust s)) = true
  /\ verification_request_id (verification (e2ee_trust s)) = Some r.
Proof. unfold verification_admits. rewrite is_in_progress_active. intros. by split_guards. Qed.

(** No transition, nothing changed. *)
Lemma moves_unchanged s a :
  settles_gate s a = false ->
  (may_verify s a = true -> forall e w, ~ verification_transition (verification (e2ee_trust s)) a e w) ->
  verification_moves s a (unchanged s).
Proof. intros Hg Hno. unfold verification_moves. rewrite Hg. right. split; [done|]. by auto. Qed.

(** The transition of the action was taken. *)
Lemma moves_step s a out :
  settles_gate s a = false -> may_verify s a = true ->
  verification_transition (verification (e2ee_trust s)) a (verification_effects out.2)
    (verification (e2ee_trust out.1)) -> verification_moves s a out.
Proof. intros Hg Hm Ht. unfold verification_moves. rewrite Hg. by left. Qed.

Lemma no_gate s a :
  match a with
  | VerificationCancelled _ _ | VerificationCompleted _ | VerificationFailed _ _ => false
  | _ => true
  end = true -> settles_gate s a = false.
Proof. unfold settles_gate. destruct (session s); try done. by destruct a. Qed.

Lemma requested_moves s r target :
  verification_moves s (VerificationRequested r target)
    (handle_verification_requested s r target Initiator_Them).
Proof.
  unfold handle_verification_requested. destruct (is_session_ready s) eqn:Hr; cbn [negb orb].
  - destruct (is_in_progress _) eqn:Hp.
    + apply moves_unchanged; [by apply no_gate|]. intros _ e w Ht. inversion Ht. congruence.
    + apply moves_step; [by apply no_gate|done|by apply V_requested].
  - apply moves_unchanged; [by apply no_gate|]. cbn. congruence.
Qed.

Lemma request_sent_moves s r target :
  verification_moves s (VerificationRequestSent r target)
    (handle_verification_requested s r target Initiator_Us).
Proof.
  unfold handle_verification_requested. destruct (is_session_ready s) eqn:Hr; cbn [negb orb].
  - destruct (is_in_progress _) eqn:Hp.
    + apply moves_unchanged; [by apply no_gate|]. intros _ e w Ht. inversion Ht. congruence.
    + apply moves_step; [by apply no_gate|done|by apply V_request_sent].
  - apply moves_unchanged; [by apply no_gate|]. cbn. congruence.
Qed.

(** A report of another request, or in another phase, takes no transition. *)
Ltac no_transition :=
  apply moves_unchanged; [first [by apply no_gate|assumption]|];
  let Ht := fresh "Ht" in intros _ ? ? Ht;
  try match goal with H : verification _ = _ |- _ => rewrite H in Ht end; inversion Ht;
  repeat match goal with H : _ \/ _ |- _ => destruct H end; subst; simplify_eq/=; try done; lia.

Lemma accepted_moves s r :
  verification_moves s (VerificationAccepted r) (handle_verification_accepted s r).
Proof.
  unfold handle_verification_accepted.
  destruct (verification (e2ee_trust s)) eqn:Hv; try no_transition.
  case_match; split_guards; subst; [no_transition|].
  apply moves_step; [by apply no_gate|done|]. rewrite Hv. constructor.
Qed.

Lemma sas_moves s r emojis :
  verification_moves s (VerificationSasPresented r emojis) (handle_verification_sas_presented s r emojis).
Proof.
  unfold handle_verification_sas_presented.
  destruct (verification (e2ee_trust s)) eqn:Hv; try no_transition;
    (case_match; split_guards; subst; [no_transition|]);
    (apply moves_step; [by apply no_gate|done|]); rewrite Hv; by constructor.
Qed.

Lemma confirmed_moves s r :
  verification_moves s (VerificationConfirmed r) (handle_verification_confirmed s r).
Proof.
  unfold handle_verification_confirmed.
  destruct (verification (e2ee_trust s)) eqn:Hv; try no_transition.
  case_match; split_guards; subst; [no_transition|].
  apply moves_step; [by apply no_gate|done|]. rewrite Hv. constructor.
Qed.

(** The settlements of the flow, when the gate does not wait for them. *)
Lemma not_admitted s r :
  verification_admits s r = false ->
  ~ (is_in_progress (verification (e2ee_trust s)) = true
     /\ verification_request_id (verification (e2ee_trust s)) = Some r).
Proof.
  unfold verification_admits. rewrite is_in_progress_active. intros H [Hp Hr].
  rewrite Hp, bool_decide_eq_true_2 in H; done.
Qed.

Lemma cancel_flow_moves s r reason :
  settles_gate s (VerificationCancelled r reason) = false ->
  verification_moves s (VerificationCancelled r reason) (cancel_flow s r reason).
Proof.
  intros Hg. unfold cancel_flow. destruct (verification_admits s r) eqn:Ha; cbn [negb].
  - apply verification_admitted in Ha as [Hp Hr]. destruct reason.
    + apply moves_step; [done|done|]. by apply V_cancel.
    + destruct (verification (e2ee_trust s)) eqn:Hv; try no_transition;
        (apply moves_step; [done|done|]); rewrite Hv; simplify_eq/=; eapply V_mismatch; eauto.
  - apply not_admitted in Ha. apply moves_unchanged; [done|]. intros _ e w Ht.
    apply Ha. inversion Ht as [| | | | | |v q t em [Hv|Hv]| |]; subst; try rewrite Hv; done.
Qed.

Lemma complete_flow_moves s r :
  settles_gate s (VerificationCompleted r) = false ->
  verification_moves s (VerificationCompleted r) (complete_flow s r).
Proof.
  intros Hg. unfold complete_flow. destruct (verification_admits s r) eqn:Ha; cbn [negb].
  - apply verification_admitted in Ha as [Hp Hr].
    destruct (verification_target _) eqn:Ht; [|no_transition].
    apply moves_step; [done|done|]. by apply V_done.
  - apply not_admitted in Ha. apply moves_unchanged; [done|]. intros _ e w Ht.
    apply Ha. by inversion Ht.
Qed.

Lemma fail_flow_moves s r kind :
  settles_gate s (VerificationFailed r kind) = false ->
  verification_moves s (VerificationFailed r kind) (fail_flow s r kind).
Proof.
  intros Hg. unfold fail_flow. destruct (verification_admits s r) eqn:Ha; cbn [negb].
  - apply verification_admitted in Ha as [Hp Hr].
    destruct (verification_target _) eqn:Ht; [|no_transition].
    apply moves_step; [done|done|]. by apply V_failed.
  - apply not_admitted in Ha. apply moves_unchanged; [done|]. intros _ e w Ht.
    apply Ha. by inversion Ht.
Qed.

(** The session-gate branches of the settlements leave the flow alone. *)
Lemma cancelled_moves s r reason :
  verification_moves s (VerificationCancelled r reason) (handle_verification_cancelled s r reason).
Proof.
  unfold handle_verification_cancelled.
  destruct (session s) eqn:Hs; try (apply cancel_flow_moves; unfold settles_gate; by rewrite Hs).
  case_match eqn:Hr.
  - unfold verification_moves, settles_gate. rewrite Hs, Hr. done.
  - apply cancel_flow_moves. unfold settles_gate. by rewrite Hs.
Qed.

Lemma completed_moves s r :
  verification_moves s (VerificationCompleted r) (handle_verification_completed s r).
Proof.
  unfold handle_verification_completed.
  destruct (session s) eqn:Hs; try (apply complete_flow_moves; unfold settles_gate; by rewrite Hs).
  destruct (decide (method = Method_ExistingDeviceSas)) as [->|Hm].
  - case_match eqn:Hr.
    + unfold verification_moves, settles_gate. by rewrite Hs, Hr, bool_decide_eq_true_2.
    + apply complete_flow_moves. unfold settles_gate. by rewrite Hs, Hr, andb_false_r.
  - assert (settles_gate s (VerificationCompleted r) = false) as Hg.
    { unfold settles_gate. by rewrite Hs, bool_decide_eq_false_2. }
    destruct method; first [done|by apply complete_flow_moves].
Qed.

Lemma failed_moves s r kind :
  verification_moves s (VerificationFailed r kind) (handle_verification_failed s r kind).
Proof.
  unfold handle_verification_failed.
  destruct (session s) eqn:Hs; try (apply fail_flow_moves; unfold settles_gate; by rewrite Hs).
  destruct (decide (method = Method_ExistingDeviceSas)) as [->|Hm].
  - case_match eqn:Hr.
    + unfold verification_moves, settles_gate. by rewrite Hs, Hr, bool_decide_eq_true_2.
    + apply fail_flow_moves. unfold settles_gate. by rewrite Hs, Hr, andb_false_r.
  - assert (settles_gate s (VerificationFailed r kind) = false) as Hg.
    { unfold settles_gate. by rewrite Hs, bool_decide_eq_false_2. }
    destruct method; first [done|by apply fail_flow_moves].
Qed.

(** C40: the reducer refines the device-verification state machine: whatever the action, a
    report about the verification the session gate waits for leaves the flow alone (a
    cancellation is passed on with the reason it was given); any other action takes its
    transition of the flow exactly when there is one, and sends exactly that transition's
    requests.  Every transition names the request the action is about.  So a request is not
    sent while another is in progress, a verification of the flow is only confirmed and only
    reported as a mismatch after its emojis were shown, reports of another request change
    nothing, and the flow is dropped without a transition only by the listed actions that end
    or gate the session or reset the identity. *)
Theorem verification_refines_state_machine s a :
  verification_moves s a (reduce_action s a).
Proof.
  destruct (touches_verification a) eqn:Ha.
  - destruct a; try discriminate Ha; cbn [reduce_action];
      eauto using requested_moves, request_sent_moves, accepted_moves, sas_moves, confirmed_moves,
        cancelled_moves, completed_moves, failed_moves.
  - assert (settles_gate s a = false) as Hg by (apply no_gate; by destruct a).
    unfold verification_moves. rewrite Hg.
    rewrite (verification_effects_nil _ (verification_effects_frame s a Ha)).
    right. split; [intros _ e w Ht; by inversion Ht; subst|].
    split; [done|]. by apply verification_frame.
Qed.

(** ** Concrete runs *)

Definition dave : SessionInfo :=
  {| homeserver := "https://example.org"; user_id := "@dave:example.org"; device_id := "DDDD";
     authentication_method := Auth_Password |}.

Definition bootstrap_gate : VerificationGateState :=
  {| methods := [Capability_Bootstrap]; account_kind := Account_NewIdentity;
     gate_failure := None |}.

(** A passphrase change that excludes a setup. *)
Definition passphrase_run : list AppAction :=
  [RestoreSessionRequested; RestoreSessionSucceeded dave;
   CurrentDeviceTrustChanged Trust_Verified;
   SecureBackupPassphraseChangeRequested 9; SecureBackupPassphraseChanged 9 (RecoveryKey "key");
   SecureBackupSetupRequested 10 Intent_InitialSetup].

Lemma one_recovery_key_flow_witness :
  let s := (run reduce_action AppState_default passphrase_run).1 in
  passphrase_change (km s) = Passphrase_Changed 9 (RecoveryKey "key") Delivery_NotWritten
  /\ is_session_ready s = true.
Proof.
  intros s. split; [reflexivity|].
  refine (proj2 (one_recovery_key_flow passphrase_run _) _); [|reflexivity].
  repeat constructor.
Defined.

(** Losing sliding sync while a passphrase change is running. *)
Definition two_flows_run : list AppAction :=
  [RestoreSessionRequested;
   SlidingSyncCapabilityCheckStarted 1 1 (StoredSessionRestore dave)
     (Some {| observed_at_ms := 5 |});
   SlidingSyncCapabilityCheckCompleted 1 1 CapResult_Unreachable;
   RestoreSessionSucceeded dave; CurrentDeviceTrustChanged Trust_Verified;
   SecureBackupPassphraseChangeRequested 9;
   SlidingSyncCapabilityRevalidationStarted 1 2;
   SlidingSyncCapabilityRevalidationCompleted 1 2 CapResult_Unsupported;
   SlidingSyncCapabilityRetryAccepted 1 2 3;
   SlidingSyncCapabilityCheckCompleted 1 3 (CapResult_Supported {| observed_at_ms := 6 |});
   RestoreSessionSucceeded dave; CurrentDeviceTrustChanged Trust_Unverified;
   VerificationMethodsDiscovered bootstrap_gate; VerificationMethodSubmitted Method_Bootstrap 4;
   BootstrapRecoveryKeyReady 4 (RecoveryKey "second")].

(** the exclusion fails on a path that leaves [Ready] with its flows open: the server loses
    sliding sync while a passphrase change is running, the retried check restores the session
    into the verification gate, and bootstrapping there reveals a second key. *)
Lemma two_recovery_key_flows :
  let s := (run reduce_action AppState_default two_flows_run).1 in
  setup_busy (secure_backup_setup (km s)) = true
  /\ passphrase_busy (passphrase_change (km s)) = true.
Proof. split; reflexivity. Qed.
