(* ===== verification/AccountWork.v ===== *)
(** The account-wide work scheduler ([crates/koushi-core/src/account_work.rs]): priority
    bands, admission of scheduled work, cooperative preemption and wake-ups.

    Every critical section of the scheduler's mutex is one step; the two atomic counters are
    read by steps of their own, so the steps of several callers interleave as their threads
    may.  A waiter's loop in [acquire] is a sequence of [OpPoll] steps; an [Instant] is a
    number of milliseconds passed to the step that reads the clock. *)

From stdpp Require Import base list strings.
From Stdlib Require Import ZArith Lia.
From S2P Require Import Prelude.
Local Open Scope string_scope.
Local Open Scope list_scope.
Local Open Scope Z_scope.
Local Set Warnings "-clear-no-such-hyp".

(** ** Policy *)

Definition SHARED_WORK_CONCURRENCY : nat := 1.

Inductive AccountWorkKind :=
  | MessageSend | UserRoomOperation | VisibleGapRepair | ExplicitPagination
  | OffscreenGapRepair | SearchCrawl | MediaPrefetch | Maintenance.

Inductive AccountWorkClass := Interactive | Foreground | Background.

Record AccountWorkPolicy := {
  priority : Z; class : AccountWorkClass; preemptible : bool;
  max_concurrency : nat; batch_limit : Z }.

Definition policy (kind : AccountWorkKind) : AccountWorkPolicy :=
  match kind with
  | MessageSend =>
      {| priority := 0; class := Interactive; preemptible := false; max_concurrency := 1;
         batch_limit := 0 |}
  | UserRoomOperation =>
      {| priority := 16; class := Interactive; preemptible := false; max_concurrency := 1;
         batch_limit := 0 |}
  | VisibleGapRepair =>
      {| priority := 32; class := Foreground; preemptible := true; max_concurrency := 1;
         batch_limit := 64 |}
  | ExplicitPagination =>
      {| priority := 40; class := Foreground; preemptible := true; max_concurrency := 1;
         batch_limit := 64 |}
  | OffscreenGapRepair =>
      {| priority := 96; class := Background; preemptible := true; max_concurrency := 1;
         batch_limit := 64 |}
  | MediaPrefetch =>
      {| priority := 112; class := Background; preemptible := false; max_concurrency := 1;
         batch_limit := 1 |}
  | SearchCrawl =>
      {| priority := 128; class := Background; preemptible := true; max_concurrency := 1;
         batch_limit := 64 |}
  | Maintenance =>
      {| priority := 192; class := Background; preemptible := true; max_concurrency := 1;
         batch_limit := 32 |}
  end.

Definition is_interactive (kind : AccountWorkKind) : bool :=
  match class (policy kind) with Interactive => true | _ => false end.

Definition is_background (kind : AccountWorkKind) : bool :=
  match class (policy kind) with Background => true | _ => false end.

Definition uses_shared_background_budget (kind : AccountWorkKind) : bool :=
  match kind with SearchCrawl | MediaPrefetch => true | _ => false end.

Inductive SearchCrawlerSpeed := Speed_Standard | Speed_Fast | Speed_Slow | Speed_Paused.

Definition background_interval (speed : SearchCrawlerSpeed) : Z :=
  match speed with
  | Speed_Fast => 0 | Speed_Standard => 100 | Speed_Slow => 500 | Speed_Paused => 0
  end.

#[export] Instance AccountWorkKind_eq : EqDecision AccountWorkKind.
Proof. solve_decision. Defined.
#[export] Instance SearchCrawlerSpeed_eq : EqDecision SearchCrawlerSpeed.
Proof. solve_decision. Defined.

(** *** Ranks: class, then account, then priority; lower is more important *)

Definition rank : Type := Z * Z * Z.

Definition work_rank (selected_account_tab_id : option string) (kind : AccountWorkKind)
    (account_tab_id : option string) : rank :=
  let class_rank :=
    match class (policy kind) with Interactive => 0 | Foreground => 1 | Background => 2 end in
  let account_priority :=
    if is_background kind && bool_decide (is_Some selected_account_tab_id)
       && bool_decide (account_tab_id ≠ selected_account_tab_id)
    then 1 else 0 in
  (class_rank, account_priority, priority (policy kind)).

(** The lexicographic [<] of tuples. *)
Definition rank_ltb (p q : rank) : bool :=
  let '(a, b, c) := p in let '(a', b', c') := q in
  (a <? a') || ((a =? a') && ((b <? b') || ((b =? b') && (c <? c')))).

(** [Iterator::min] *)
Definition min_rank (l : list rank) : option rank :=
  foldr (fun r m => match m with
                    | Some q => Some (if rank_ltb q r then q else r)
                    | None => Some r
                    end) None l.

(** ** State *)

Record ActiveWork := {
  a_id : Z; a_kind : AccountWorkKind; a_tab : option string; a_priority : Z;
  a_preemptible : bool; a_preempted : bool }.

Record WaitingWork := {
  w_id : Z; w_kind : AccountWorkKind; w_tab : option string; w_seq : Z }.

Record InteractiveWork := { i_id : Z; i_kind : AccountWorkKind; i_tab : option string }.

(** A caller that has drawn its work id, and its queue position if it has drawn that too, but
    has not taken the lock yet. *)
Record Ticket := {
  t_id : Z; t_kind : AccountWorkKind; t_tab : option string; t_seq : option Z }.

Record SchedulerState := {
  active : list ActiveWork; waiting : list WaitingWork; interactive : list InteractiveWork;
  selected_account_tab_id : option string; search_crawler_speed : SearchCrawlerSpeed;
  last_background_completed : option Z;
  next_id : Z; next_seq : Z; tickets : list Ticket }.

#[export] Instance Updatable_active : Updatable ActiveWork := fun a =>
  {| a_id := a_id a; a_kind := a_kind a; a_tab := a_tab a; a_priority := a_priority a;
     a_preemptible := a_preemptible a; a_preempted := a_preempted a |}.
#[export] Instance Updatable_ticket : Updatable Ticket := fun t =>
  {| t_id := t_id t; t_kind := t_kind t; t_tab := t_tab t; t_seq := t_seq t |}.
#[export] Instance Updatable_scheduler : Updatable SchedulerState := fun s =>
  {| active := active s; waiting := waiting s; interactive := interactive s;
     selected_account_tab_id := selected_account_tab_id s;
     search_crawler_speed := search_crawler_speed s;
     last_background_completed := last_background_completed s;
     next_id := next_id s; next_seq := next_seq s; tickets := tickets s |}.

(** [SchedulerInner::default] *)
Definition SchedulerState_default : SchedulerState :=
  {| active := []; waiting := []; interactive := []; selected_account_tab_id := None;
     search_crawler_speed := Speed_Standard; last_background_completed := None;
     next_id := 0; next_seq := 0; tickets := [] |}.

(** What a step does outside the state: wake every sleeping waiter, ask one work to yield,
    grant a permit, or put a waiter to sleep (until the deadline, or a wake-up). *)
Inductive Effect :=
  | NotifyWaiters
  | CancelWork (id : Z)
  | PermitGranted (id : Z)
  | Sleep (id : Z) (wait_until : option Z).

(** ** Decisions under the lock *)

Definition paused_budget_waiter (s : SchedulerState) (kind : AccountWorkKind) : bool :=
  uses_shared_background_budget kind && bool_decide (search_crawler_speed s = Speed_Paused).

Definition waiting_rank (s : SchedulerState) (w : WaitingWork) : rank :=
  work_rank (selected_account_tab_id s) (w_kind w) (w_tab w).
Definition interactive_rank (s : SchedulerState) (e : InteractiveWork) : rank :=
  work_rank (selected_account_tab_id s) (i_kind e) (i_tab e).
Definition active_rank (s : SchedulerState) (a : ActiveWork) : rank :=
  work_rank (selected_account_tab_id s) (a_kind a) (a_tab a).

(** The closure of [waiting.iter().any(..)]: [other] is ahead of [waiting]. *)
Definition outranks (s : SchedulerState) (waiting other : WaitingWork) : bool :=
  if (w_id other =? w_id waiting) || paused_budget_waiter s (w_kind other) then false
  else
    rank_ltb (waiting_rank s other) (waiting_rank s waiting)
    || (bool_decide (waiting_rank s other = waiting_rank s waiting)
        && (w_seq other <? w_seq waiting)).

Definition can_admit_locked (s : SchedulerState) (kind : AccountWorkKind) (w : WaitingWork)
  : bool :=
  if bool_decide (SHARED_WORK_CONCURRENCY <= length (active s))%nat then false
  else
    let same_kind := length (List.filter (fun a => bool_decide (a_kind a = kind)) (active s)) in
    if bool_decide (max_concurrency (policy kind) <= same_kind)%nat then false
    else if existsb (outranks s w) (waiting s) then false
    else if is_background kind
            && existsb (fun e => rank_ltb (interactive_rank s e) (waiting_rank s w))
                 (interactive s)
    then false
    else true.

Definition best_pending_rank (s : SchedulerState) : option rank :=
  min_rank
    ((waiting_rank s <$>
        List.filter (fun w => negb (paused_budget_waiter s (w_kind w))) (waiting s))
     ++ (interactive_rank s <$> interactive s)).

(** The loop of [preempt_locked] over the active work. *)
Fixpoint preempt_active (s : SchedulerState) (best_pending : rank) (l : list ActiveWork)
  : list ActiveWork * list Effect :=
  match l with
  | [] => ([], [])
  | a :: l =>
      let '(l, effects) := preempt_active s best_pending l in
      if a_preemptible a && rank_ltb best_pending (active_rank s a) && negb (a_preempted a)
      then (a <| a_preempted := true |> :: l, CancelWork (a_id a) :: effects)
      else (a :: l, effects)
  end.

Definition preempt_locked (s : SchedulerState) : SchedulerState * list Effect :=
  match best_pending_rank s with
  | None => (s, [])
  | Some best_pending =>
      let '(l, effects) := preempt_active s best_pending (active s) in
      (s <| active := l |>, effects)
  end.

(** [preempt_locked], followed by the effects of the caller. *)
Definition preempt_then (s : SchedulerState) (effects : list Effect)
  : SchedulerState * list Effect :=
  ((preempt_locked s).1, (preempt_locked s).2 ++ effects).

(** ** Operations *)

(** [next_id.fetch_add(1)]: the caller draws its work id. *)
Definition take_id (s : SchedulerState) (kind : AccountWorkKind) (tab : option string)
  : SchedulerState :=
  s <| next_id := u64_wrapping_add (next_id s) 1 |>
    <| tickets ::= fun l =>
         l ++ [{| t_id := next_id s; t_kind := kind; t_tab := tab; t_seq := None |}] |>.

Definition find_ticket (s : SchedulerState) (id : Z) : option Ticket :=
  find_first (fun t => t_id t =? id) (tickets s).

Definition drop_ticket (s : SchedulerState) (id : Z) : SchedulerState :=
  s <| tickets ::= List.filter (fun t => negb (t_id t =? id)) |>.

(** [next_seq.fetch_add(1)]: a caller of [acquire] draws its queue position. *)
Definition take_seq (s : SchedulerState) (id : Z) : SchedulerState :=
  match find_ticket s id with
  | Some {| t_seq := None |} =>
      s <| next_seq := u64_wrapping_add (next_seq s) 1 |>
        <| tickets ::= update_first (fun t => t_id t =? id)
             (fun t => t <| t_seq := Some (next_seq s) |>) |>
  | _ => s
  end.

(** [WaitingSlot::enter] *)
Definition enter (s : SchedulerState) (id : Z) : SchedulerState * list Effect :=
  match find_ticket s id with
  | Some {| t_kind := kind; t_tab := tab; t_seq := Some seq |} =>
      let s := drop_ticket s id in
      let s := s <| waiting ::= fun l =>
                 l ++ [{| w_id := id; w_kind := kind; w_tab := tab; w_seq := seq |}] |> in
      preempt_then s [NotifyWaiters]
  | _ => (s, [])
  end.

(** The critical section of [begin_interactive]. *)
Definition begin_interactive (s : SchedulerState) (id : Z) : SchedulerState * list Effect :=
  match find_ticket s id with
  | Some {| t_kind := kind; t_tab := tab; t_seq := None |} =>
      let s := drop_ticket s id in
      preempt_locked
        (s <| interactive ::= fun l => l ++ [{| i_id := id; i_kind := kind; i_tab := tab |}] |>)
  | _ => (s, [])
  end.

Definition find_waiting (s : SchedulerState) (id : Z) : option WaitingWork :=
  find_first (fun w => w_id w =? id) (waiting s).

Definition rate_limit (s : SchedulerState) (kind : AccountWorkKind) : option Z :=
  if uses_shared_background_budget kind then
    (fun last => last + background_interval (search_crawler_speed s))
      <$> last_background_completed s
  else None.

(** The condition under which [acquire] takes its slot. *)
Definition admissible (s : SchedulerState) (w : WaitingWork) (now : Z) : bool :=
  negb (paused_budget_waiter s (w_kind w))
  && is_none_or (rate_limit s (w_kind w)) (fun deadline => deadline <=? now)
  && can_admit_locked s (w_kind w) w.

(** One iteration of the loop of [acquire], with [WaitingSlot::admit]. *)
Definition poll (s : SchedulerState) (id now : Z) : SchedulerState * list Effect :=
  match find_waiting s id with
  | None => (s, [])
  | Some w =>
      if admissible s w now then
        (s <| active ::= fun l =>
                l ++ [{| a_id := id; a_kind := w_kind w; a_tab := w_tab w;
                         a_priority := priority (policy (w_kind w));
                         a_preemptible := preemptible (policy (w_kind w));
                         a_preempted := false |}] |>
           <| waiting ::= List.filter (fun w => negb (w_id w =? id)) |>,
         [PermitGranted id])
      else
        preempt_then s
          [Sleep id (match rate_limit s (w_kind w) with
                     | Some deadline => then_some (now <? deadline) deadline
                     | None => None
                     end)]
  end.

(** [Drop for WaitingSlot]: the waiting future is dropped before admission. *)
Definition drop_waiter (s : SchedulerState) (id : Z) : SchedulerState * list Effect :=
  match find_waiting s id with
  | None => (s, [])
  | Some _ => (s <| waiting ::= List.filter (fun w => negb (w_id w =? id)) |>, [NotifyWaiters])
  end.

(** [Drop for AccountWorkPermit]; only the holder of a permit can drop it. *)
Definition release (s : SchedulerState) (id now : Z) : SchedulerState * list Effect :=
  match find_first (fun a => a_id a =? id) (active s) with
  | None => (s, [])
  | Some permit =>
      let s := s <| active ::= List.filter (fun a => negb (a_id a =? id)) |> in
      let s := if uses_shared_background_budget (a_kind permit)
               then s <| last_background_completed := Some now |> else s in
      preempt_then s [NotifyWaiters]
  end.

(** [Drop for InteractiveWorkGuard] *)
Definition end_interactive (s : SchedulerState) (id : Z) : SchedulerState * list Effect :=
  match find_first (fun e => i_id e =? id) (interactive s) with
  | None => (s, [])
  | Some _ =>
      (s <| interactive ::= List.filter (fun e => negb (i_id e =? id)) |>, [NotifyWaiters])
  end.

Definition set_selected_account (s : SchedulerState) (tab : option string)
  : SchedulerState * list Effect :=
  preempt_then (s <| selected_account_tab_id := tab |>) [NotifyWaiters].

Definition set_search_crawler_speed (s : SchedulerState) (speed : SearchCrawlerSpeed)
  : SchedulerState * list Effect :=
  if decide (search_crawler_speed s = speed) then (s, [])
  else (s <| search_crawler_speed := speed |>, [NotifyWaiters]).

Inductive SchedulerOp :=
  | OpTakeId (kind : AccountWorkKind) (tab : option string)
  | OpTakeSeq (id : Z)
  | OpEnter (id : Z)
  | OpBeginInteractive (id : Z)
  | OpPoll (id now : Z)
  | OpDropWaiter (id : Z)
  | OpRelease (id now : Z)
  | OpEndInteractive (id : Z)
  | OpSelectAccount (tab : option string)
  | OpSetSpeed (speed : SearchCrawlerSpeed).

Definition scheduler_step (s : SchedulerState) (op : SchedulerOp)
  : SchedulerState * list Effect :=
  match op with
  | OpTakeId kind tab => (take_id s kind tab, [])
  | OpTakeSeq id => (take_seq s id, [])
  | OpEnter id => enter s id
  | OpBeginInteractive id => begin_interactive s id
  | OpPoll id now => poll s id now
  | OpDropWaiter id => drop_waiter s id
  | OpRelease id now => release s id now
  | OpEndInteractive id => end_interactive s id
  | OpSelectAccount tab => set_selected_account s tab
  | OpSetSpeed speed => set_search_crawler_speed s speed
  end.

(** The run of a list of operations from the empty scheduler. *)
Definition scheduler_run (ops : list SchedulerOp) : SchedulerState * list Effect :=
  run scheduler_step SchedulerState_default ops.

(** ** Ranks *)

Lemma rank_ltb_irrefl r : rank_ltb r r = false.
Proof. destruct r as [[a b] c]. unfold rank_ltb. rewrite !Z.ltb_irrefl, !Z.eqb_refl. done. Qed.

Lemma rank_ltb_spec p q :
  rank_ltb p q = true <->
  p.1.1 < q.1.1 \/ (p.1.1 = q.1.1 /\ (p.1.2 < q.1.2 \/ (p.1.2 = q.1.2 /\ p.2 < q.2))).
Proof.
  destruct p as [[a b] c], q as [[a' b'] c']. unfold rank_ltb. cbn.
  rewrite orb_true_iff, andb_true_iff, orb_true_iff, andb_true_iff, !Z.ltb_lt, !Z.eqb_eq. done.
Qed.

Lemma rank_ltb_trans p q r : rank_ltb p q = true -> rank_ltb q r = true -> rank_ltb p r = true.
Proof. rewrite !rank_ltb_spec. lia. Qed.

Lemma rank_ltb_false p q : rank_ltb p q = false <-> p = q \/ rank_ltb q p = true.
Proof.
  rewrite <-not_true_iff_false, !rank_ltb_spec.
  destruct p as [[a b] c], q as [[a' b'] c']. cbn. split.
  - intros H. destruct (decide (a = a' /\ b = b' /\ c = c')) as [(-> & -> & ->)|]; [by left|].
    right. lia.
  - intros [[= -> -> ->]|H]; lia.
Qed.

Lemma min_rank_Some l r :
  min_rank l = Some r -> r ∈ l /\ forall q, q ∈ l -> rank_ltb q r = false.
Proof.
  revert r; induction l as [|p l IH]; intros r Hr; [done|].
  cbn in Hr. fold (min_rank l) in Hr. destruct (min_rank l) as [m|] eqn:Hm; simplify_eq.
  - destruct (IH m eq_refl) as [Hin Hle]. destruct (rank_ltb m p) eqn:E.
    + split; [by constructor|]. intros q [->|Hq]%elem_of_cons; [|auto].
      apply rank_ltb_false. by right.
    + split; [constructor|]. intros q [->|Hq]%elem_of_cons; [apply rank_ltb_irrefl|].
      specialize (Hle q Hq). apply rank_ltb_false in E, Hle. apply rank_ltb_false.
      destruct E as [->|E], Hle as [->|Hle]; eauto using rank_ltb_trans.
  - split; [constructor|]. intros q [->|Hq]%elem_of_cons; [apply rank_ltb_irrefl|].
    destruct l as [|x l]; [by apply elem_of_nil in Hq|].
    cbn in Hm. by destruct (foldr _ _ _).
Qed.

Lemma min_rank_None l : min_rank l = None -> l = [].
Proof. destruct l as [|p l]; [done|]. cbn. by case_match. Qed.

(** ** Preemption *)

(** [a'] is [a], perhaps asked to yield. *)
Definition same_work (a a' : ActiveWork) : Prop :=
  a' = a \/ (a_preempted a = false /\ a' = a <| a_preempted := true |>).

Lemma preempt_active_spec s best l :
  let r := preempt_active s best l in
  Forall2 same_work l r.1
  /\ (forall a, a ∈ r.1 -> a_preemptible a = true -> rank_ltb best (active_rank s a) = true ->
        a_preempted a = true)
  /\ (forall id, CancelWork id ∈ r.2 -> exists a, a ∈ l /\ a_id a = id
        /\ a_preempted a = false /\ a_preemptible a = true
        /\ rank_ltb best (active_rank s a) = true /\ a <| a_preempted := true |> ∈ r.1)
  /\ (forall e, e ∈ r.2 -> exists id, e = CancelWork id).
Proof.
  induction l as [|a l IH]; cbn [preempt_active].
  { split_and!; [constructor|..]; intros ? H; by apply elem_of_nil in H. }
  destruct (preempt_active s best l) as [l' eff]. cbn in IH.
  destruct IH as (Hsame & Hdone & Hjust & Honly).
  destruct (a_preemptible a && rank_ltb best (active_rank s a) && negb (a_preempted a)) eqn:Hg;
    cbn [fst snd].
  - split_guards. split_and!.
    + constructor; [|done]. by right.
    + intros b [->|Hb]%elem_of_cons; auto.
    + intros id [[= ->]|Hin]%elem_of_cons.
      * exists a. split_and!; try done; constructor.
      * destruct (Hjust id Hin) as (b & ? & ? & ? & ? & ? & ?).
        exists b. split_and!; try done; by constructor.
    + intros e [->|He]%elem_of_cons; eauto.
  - split_and!.
    + constructor; [by left|done].
    + intros b [->|Hb]%elem_of_cons; [|by auto]. intros Hp Hr. rewrite Hp, Hr in Hg.
      by destruct (a_preempted a).
    + intros id Hin. destruct (Hjust id Hin) as (b & ? & ? & ? & ? & ? & ?).
      exists b. split_and!; try done; by constructor.
    + done.
Qed.

Definition pending_better (s : SchedulerState) (r : rank) : Prop :=
  (exists w, w ∈ waiting s /\ paused_budget_waiter s (w_kind w) = false
     /\ rank_ltb (waiting_rank s w) r = true)
  \/ (exists e, e ∈ interactive s /\ rank_ltb (interactive_rank s e) r = true).

Lemma best_pending_better s best r :
  best_pending_rank s = Some best -> rank_ltb best r = true <-> pending_better s r.
Proof.
  unfold best_pending_rank. intros [Hin Hmin]%min_rank_Some. split.
  - intros Hr. apply elem_of_app in Hin as [Hin|Hin].
    + apply list_elem_of_fmap in Hin as (w & -> & Hw). left. exists w.
      apply list_elem_of_In, filter_In in Hw as [Hw Hp]. apply list_elem_of_In in Hw.
      apply negb_true_iff in Hp. auto.
    + apply list_elem_of_fmap in Hin as (e & -> & He). right. eauto.
  - intros Hr.
    assert (exists q, q ∈ (waiting_rank s <$> List.filter
              (fun w => negb (paused_budget_waiter s (w_kind w))) (waiting s))
              ++ (interactive_rank s <$> interactive s) /\ rank_ltb q r = true) as (q & Hq & Hqr).
    { destruct Hr as [(w & Hw & Hp & Hr)|(e & He & Hr)]; eexists; (split; [|exact Hr]);
        apply elem_of_app; [left|right]; apply list_elem_of_fmap; eexists; (split; [done|]).
      - apply list_elem_of_In, filter_In. rewrite Hp. split; [by apply list_elem_of_In|done].
      - done. }
    specialize (Hmin q Hq). apply rank_ltb_false in Hmin as [->|H]; eauto using rank_ltb_trans.
Qed.

Lemma no_pending s r : best_pending_rank s = None -> ~ pending_better s r.
Proof.
  unfold best_pending_rank. intros Hn%min_rank_None Hr.
  apply app_eq_nil in Hn as [Hw He]. destruct Hr as [(w & Hin & Hp & _)|(e & Hin & _)].
  - apply fmap_nil_inv in Hw.
    assert (w ∈ List.filter (fun w => negb (paused_budget_waiter s (w_kind w))) (waiting s)) as H.
    { apply list_elem_of_In, filter_In. rewrite Hp. split; [by apply list_elem_of_In|done]. }
    rewrite Hw in H. by apply elem_of_nil in H.
  - apply fmap_nil_inv in He. rewrite He in Hin. by apply elem_of_nil in Hin.
Qed.

(** What [preempt_locked] does: only the flags of active work change, and work is asked to
    yield exactly when something better is pending and it was not asked before. *)
Lemma preempt_locked_spec s :
  let r := preempt_locked s in
  (exists l, r.1 = s <| active := l |> /\ Forall2 same_work (active s) l)
  /\ (forall a, a ∈ active r.1 -> a_preemptible a = true -> pending_better s (active_rank s a) ->
        a_preempted a = true)
  /\ (forall id, CancelWork id ∈ r.2 -> exists a, a ∈ active s /\ a_id a = id
        /\ a_preempted a = false /\ a_preemptible a = true
        /\ pending_better s (active_rank s a) /\ a <| a_preempted := true |> ∈ active r.1)
  /\ (forall e, e ∈ r.2 -> exists id, e = CancelWork id).
Proof.
  unfold preempt_locked. destruct (best_pending_rank s) as [best|] eqn:Hb; cbn [fst snd].
  - pose proof (preempt_active_spec s best (active s)) as Hspec.
    destruct (preempt_active s best (active s)) as [l eff]. cbn in Hspec.
    destruct Hspec as (Hs & Hd & Hj & Ho). cbn. split_and!.
    + eauto.
    + intros a Ha Hp Hr. apply Hd; [done..|]. by apply (best_pending_better s best).
    + intros id Hin. destruct (Hj id Hin) as (a & ? & ? & ? & ? & Hr & ?).
      exists a. split_and!; try done. by apply (best_pending_better s best) in Hr.
    + done.
  - split_and!.
    + exists (active s). split; [by destruct s|]. apply Forall2_same_length_lookup. split; [done|].
      intros. simplify_eq. by left.
    + intros a _ _ Hr. by apply no_pending in Hr.
    + intros id Hin. by apply elem_of_nil in Hin.
    + intros e Hin. by apply elem_of_nil in Hin.
Qed.

(** ** Admission *)

Lemma find_waiting_Some s id w :
  find_waiting s id = Some w -> w ∈ waiting s /\ w_id w = id.
Proof. intros [Hw Hid]%find_first_elem. by apply Z.eqb_eq in Hid. Qed.

(** Only a poll admits, and only when the condition of [acquire] holds. *)
Lemma admitted_by_poll s op id :
  PermitGranted id ∈ (scheduler_step s op).2 ->
  exists now w, op = OpPoll id now /\ find_waiting s id = Some w /\ admissible s w now = true.
Proof.
  assert (forall s0, PermitGranted id ∉ (preempt_locked s0).2) as Hpre.
  { intros s0 Hin. destruct (preempt_locked_spec s0) as (_ & _ & _ & Ho). by destruct (Ho _ Hin). }
  assert (forall s0 l, PermitGranted id ∉ l -> PermitGranted id ∉ (preempt_then s0 l).2) as Happ.
  { intros s0 l Hl. specialize (Hpre s0). unfold preempt_then. cbn.
    rewrite elem_of_app. tauto. }
  assert (PermitGranted id ∉ [NotifyWaiters]) as Hn by (intros H; elem_cases).
  assert (forall P : Prop, PermitGranted id ∈ [] -> P) as Hnil
    by (intros P H; by apply elem_of_nil in H).
  destruct op; cbn [scheduler_step snd]; try (by apply Hnil); intros Hin.
  - unfold enter in Hin. repeat case_match; first [by apply Hnil|by apply Happ in Hin].
  - unfold begin_interactive in Hin. repeat case_match; first [by apply Hnil|by apply Hpre in Hin].
  - unfold poll in Hin. destruct (find_waiting s id0) as [w|] eqn:Hw; [|by apply Hnil].
    destruct (admissible s w now) eqn:Ha.
    + cbn in Hin. elem_cases. injection Hin as ->. eauto.
    + apply Happ in Hin; [done|]. intros H; elem_cases.
  - unfold drop_waiter in Hin. case_match; [|by apply Hnil]. destruct (Hn Hin).
  - unfold release in Hin. case_match; [|by apply Hnil]. case_match; by apply Happ in Hin.
  - unfold end_interactive in Hin. case_match; [|by apply Hnil]. destruct (Hn Hin).
  - unfold set_selected_account in Hin. by apply Happ in Hin.
  - unfold set_search_crawler_speed in Hin. case_decide; [by apply Hnil|]. destruct (Hn Hin).
Qed.

Lemma can_admit_spec s kind w :
  can_admit_locked s kind w = true ->
  active s = []
  /\ (forall other, other ∈ waiting s -> outranks s w other = false)
  /\ (is_background kind = true -> forall e, e ∈ interactive s ->
        rank_ltb (interactive_rank s e) (waiting_rank s w) = false).
Proof.
  unfold can_admit_locked, SHARED_WORK_CONCURRENCY. intros H.
  repeat (case_match; try discriminate).
  repeat match goal with
  | H : bool_decide _ = false |- _ => apply bool_decide_eq_false in H
  | H : existsb _ _ = false |- _ => apply not_true_iff_false in H; rewrite existsb_exists in H
  end.
  split_and!.
  - destruct (active s); [done|]. cbn in *. lia.
  - intros other Ho. apply not_true_iff_false. intros Hr.
    match goal with H : ~ exists x, In x (waiting s) /\ _ |- _ => apply H end.
    exists other. split; [by apply list_elem_of_In|done].
  - intros Hb e He. apply not_true_iff_false. intros Hr.
    match goal with H : (is_background kind && _)%bool = false |- _ =>
      rewrite Hb in H; cbn in H; apply not_true_iff_false in H; apply H end.
    apply existsb_exists. exists e. split; [by apply list_elem_of_In|done].
Qed.

(** at most one scheduled work runs at a time across all accounts: every reachable
    state holds at most one permit, and a permit is granted only when none is held. *)
Theorem one_permit_at_a_time ops :
  let s := (scheduler_run ops).1 in
  (length (active s) <= 1)%nat
  /\ forall op id, PermitGranted id ∈ (scheduler_step s op).2 ->
       active s = [] /\ a_id <$> active (scheduler_step s op).1 = [id].
Proof.
  intros s. split.
  - subst s. unfold scheduler_run.
    apply (run_invariant _ (fun s => length (active s) <= 1)%nat); [|cbn; lia].
    clear ops. intros s op Hs.
    assert (forall s0, length (active (preempt_locked s0).1) = length (active s0)) as Hpre.
    { intros s0. destruct (preempt_locked_spec s0) as ((l & -> & Hl) & _).
      cbn. symmetry. by eapply Forall2_length. }
    assert (forall s0 l, length (active (preempt_then s0 l).1) = length (active s0)) as Happ
      by (intros s0 l; apply Hpre).
    destruct op; cbn [scheduler_step fst]; try done.
    + unfold take_seq. by repeat case_match.
    + unfold enter. repeat case_match; try done. rewrite Happ. done.
    + unfold begin_interactive. repeat case_match; try done. by rewrite Hpre.
    + unfold poll. destruct (find_waiting s id) as [w|]; [|done].
      destruct (admissible s w now) eqn:Ha; [|by rewrite Happ].
      unfold admissible in Ha. apply andb_true_iff in Ha as [_ [He _]%can_admit_spec].
      cbn. by rewrite He.
    + unfold drop_waiter. by case_match.
    + unfold release. case_match; [|done].
      assert (length (List.filter (fun a => negb (a_id a =? id)%Z) (active s)) <= 1)%nat.
      { pose proof (filter_length_le (fun a => negb (a_id a =? id)) (active s)). lia. }
      case_match; rewrite Happ; done.
    + unfold end_interactive. by case_match.
    + unfold set_selected_account. by rewrite Happ.
    + unfold set_search_crawler_speed. by case_decide.
  - intros op id (now & w & -> & Hw & Ha)%admitted_by_poll. cbn [scheduler_step].
    unfold poll. rewrite Hw, Ha. unfold admissible in Ha. split_guards.
    match goal with H : can_admit_locked _ _ _ = true |- _ =>
      apply can_admit_spec in H as [He _] end.
    cbn. by rewrite He.
Qed.

(** a permit goes to the best waiter: nothing that the paused budget does not hold back
    is ahead of the admitted work in rank, or in queue order at the same rank; background work
    is not admitted while a more important interactive operation is being enqueued; the paused
    budget and the rate limit of the background budget are respected. *)
Theorem admission_takes_the_best s op id
    (Hadm : PermitGranted id ∈ (scheduler_step s op).2) :
  exists now w,
    op = OpPoll id now /\ w ∈ waiting s /\ w_id w = id
    /\ (forall other, other ∈ waiting s -> w_id other <> id ->
          paused_budget_waiter s (w_kind other) = true
          \/ rank_ltb (waiting_rank s w) (waiting_rank s other) = true
          \/ (waiting_rank s other = waiting_rank s w /\ w_seq w <= w_seq other))
    /\ (is_background (w_kind w) = true -> forall e, e ∈ interactive s ->
          rank_ltb (interactive_rank s e) (waiting_rank s w) = false)
    /\ paused_budget_waiter s (w_kind w) = false
    /\ forall deadline, rate_limit s (w_kind w) = Some deadline -> deadline <= now.
Proof.
  destruct (admitted_by_poll s op id Hadm) as (now & w & -> & [Hw Hid]%find_waiting_Some & Ha).
  exists now, w. unfold admissible in Ha. split_guards.
  match goal with H : can_admit_locked _ _ _ = true |- _ =>
    apply can_admit_spec in H as (_ & Ho & Hi) end.
  split_and!; try done.
  - intros other Hin Hne. specialize (Ho other Hin). unfold outranks in Ho.
    rewrite Hid, (proj2 (Z.eqb_neq _ _) Hne), orb_false_l in Ho.
    destruct (paused_budget_waiter s (w_kind other)); [by left|right]. split_guards.
    match goal with H : rank_ltb (waiting_rank s other) _ = false |- _ =>
      apply rank_ltb_false in H as [He|He] end; [right|by left].
    split; [done|]. rewrite (bool_decide_eq_true_2 _ He), andb_true_l in *. by apply Z.ltb_ge.
  - intros deadline Hd.
    match goal with H : is_none_or _ _ = true |- _ => rewrite Hd in H; cbn in H end. lia.
Qed.

(** ** Wake-ups *)

(** The admission decision only reads these parts of the state. *)
Lemma preempt_fields s :
  let s' := (preempt_locked s).1 in
  waiting s' = waiting s /\ interactive s' = interactive s
  /\ selected_account_tab_id s' = selected_account_tab_id s
  /\ search_crawler_speed s' = search_crawler_speed s
  /\ last_background_completed s' = last_background_completed s
  /\ next_id s' = next_id s /\ next_seq s' = next_seq s /\ tickets s' = tickets s
  /\ Forall2 same_work (active s) (active s').
Proof. destruct (preempt_locked_spec s) as ((l & -> & Hl) & _). by split_and!. Qed.

Lemma same_work_kinds kind l l' :
  Forall2 same_work l l' ->
  length (List.filter (fun a => bool_decide (a_kind a = kind)) l')
  = length (List.filter (fun a => bool_decide (a_kind a = kind)) l).
Proof.
  induction 1 as [|a a' l l' Ha _ IH]; [done|].
  assert (a_kind a' = a_kind a) as Hk by (destruct Ha as [->|[_ ->]]; done).
  cbn. rewrite Hk. case_bool_decide; cbn; by rewrite IH.
Qed.

Lemma existsb_le {A} (f : A -> bool) l l' :
  (forall x, x ∈ l -> x ∈ l') -> existsb f l = true -> existsb f l' = true.
Proof.
  intros Hl. rewrite !existsb_exists. intros (x & Hx%list_elem_of_In & Hf).
  exists x. split; [by apply list_elem_of_In, Hl|done].
Qed.

(** More interactive entries and asked-to-yield flags never admit a waiter. *)
Lemma admissible_anti s s' w now :
  waiting s' = waiting s -> (forall e, e ∈ interactive s -> e ∈ interactive s') ->
  selected_account_tab_id s' = selected_account_tab_id s ->
  search_crawler_speed s' = search_crawler_speed s ->
  last_background_completed s' = last_background_completed s ->
  Forall2 same_work (active s) (active s') ->
  admissible s' w now = true -> admissible s w now = true.
Proof.
  intros Hw Hi Hsel Hsp Hl Hact.
  assert (waiting_rank s' = waiting_rank s) as Hr by (unfold waiting_rank; by rewrite Hsel).
  assert (interactive_rank s' = interactive_rank s) as Hir
    by (unfold interactive_rank; by rewrite Hsel).
  assert (forall k, paused_budget_waiter s' k = paused_budget_waiter s k) as Hp
    by (intros k; unfold paused_budget_waiter; by rewrite Hsp).
  assert (forall o, outranks s' w o = outranks s w o) as Ho.
  { intros o. unfold outranks. by rewrite Hp, Hr. }
  unfold admissible, rate_limit, can_admit_locked.
  rewrite Hp, Hsp, Hl, Hw, Hir, Hr, (same_work_kinds (w_kind w) _ _ Hact).
  rewrite <-(Forall2_length _ _ _ Hact).
  replace (existsb (outranks s' w) (waiting s)) with (existsb (outranks s w) (waiting s)).
  2:{ clear Hw. induction (waiting s) as [|o l IH]; cbn [existsb]; [done|]. by rewrite Ho, IH. }
  rewrite !andb_true_iff. intros [? Hc]. split; [done|].
  do 3 (case_match; [done|]).
  destruct (is_background (w_kind w)); [|done]. cbn in *.
  destruct (existsb _ (interactive s)) eqn:E; [|done].
  by rewrite (existsb_le _ _ _ Hi E) in Hc.
Qed.

(** C38: no wake-up is lost: when a step makes a waiting caller admissible that was not, at
    the same instant, it wakes the sleeping waiters.  So a waiter that re-checks when it is
    woken, and at the deadline it was given, never sleeps on while its slot is free. *)
Theorem no_lost_wakeup s op w now
    (Hnot : admissible s w now = false)
    (Hnow : admissible (scheduler_step s op).1 w now = true) :
  NotifyWaiters ∈ (scheduler_step s op).2.
Proof.
  assert (forall s', waiting s' = waiting s -> (forall e, e ∈ interactive s -> e ∈ interactive s') ->
    selected_account_tab_id s' = selected_account_tab_id s ->
    search_crawler_speed s' = search_crawler_speed s ->
    last_background_completed s' = last_background_completed s ->
    Forall2 same_work (active s) (active s') ->
    admissible s' w now = true -> NotifyWaiters ∈ (scheduler_step s op).2) as Hanti.
  { intros s' ?????? Hs'. by rewrite (admissible_anti s s') in Hnot. }
  assert (admissible s w now = true -> NotifyWaiters ∈ (scheduler_step s op).2) as Hsame
    by congruence.
  assert (Forall2 same_work (active s) (active s)) as Hrefl.
  { apply Forall2_same_length_lookup. split; [done|]. intros. simplify_eq. by left. }
  assert (forall s0, NotifyWaiters ∈ (preempt_then s0 [NotifyWaiters]).2) as Hthen.
  { intros s0. apply elem_of_app. right. constructor. }
  destruct op; cbn [scheduler_step fst snd] in *.
  - by apply (Hanti (take_id s kind tab)).
  - apply (Hanti (take_seq s id)); try done; unfold take_seq; by repeat case_match.
  - unfold enter in *. repeat case_match; try (by apply Hsame); apply Hthen.
  - unfold begin_interactive in *. repeat case_match; try (by apply Hsame).
    match type of Hnow with context [preempt_locked ?x] =>
      pose proof (preempt_fields x) as (? & Hi & ? & ? & ? & _ & _ & _ & ?) end.
    eapply Hanti; [..|exact Hnow]; try done.
    intros e He. rewrite Hi. cbn. apply elem_of_app. by left.
  - unfold poll in *. destruct (find_waiting s id) as [w'|]; [|by apply Hsame].
    destruct (admissible s w' now0).
    + unfold admissible in Hnow. apply andb_true_iff in Hnow as [_ [He _]%can_admit_spec].
      cbn in He. by destruct (active s).
    + pose proof (preempt_fields s) as (? & Hi & ? & ? & ? & _ & _ & _ & ?).
      eapply Hanti; [..|exact Hnow]; try done. intros e. cbn. by rewrite Hi.
  - unfold drop_waiter in *. case_match; [constructor|by apply Hsame].
  - unfold release in *. case_match; [apply Hthen|by apply Hsame].
  - unfold end_interactive in *. case_match; [constructor|by apply Hsame].
  - apply Hthen.
  - unfold set_search_crawler_speed in *. case_decide; [by apply Hsame|constructor].
Qed.

(** the scheduler never deadlocks: when no permit is held and something is waiting that
    the paused budget does not hold back, one of those waiters is admitted as soon as the rate
    limit of its own kind has passed and no more important interactive operation is being
    enqueued. *)
Theorem some_waiter_is_admissible s w0
    (Hidle : active s = [])
    (Hwait : w0 ∈ waiting s)
    (Hbudget : paused_budget_waiter s (w_kind w0) = false) :
  exists w, w ∈ waiting s /\ paused_budget_waiter s (w_kind w) = false
    /\ forall now,
         (forall deadline, rate_limit s (w_kind w) = Some deadline -> deadline <= now) ->
         (is_background (w_kind w) = true -> forall e, e ∈ interactive s ->
            rank_ltb (interactive_rank s e) (waiting_rank s w) = false) ->
         admissible s w now = true.
Proof.
  set (lt x y := rank_ltb (waiting_rank s x) (waiting_rank s y)
                 || (bool_decide (waiting_rank s x = waiting_rank s y) && (w_seq x <? w_seq y))).
  set (l := List.filter (fun w => negb (paused_budget_waiter s (w_kind w))) (waiting s)).
  assert (forall w, w ∈ l <-> w ∈ waiting s /\ paused_budget_waiter s (w_kind w) = false) as Hl.
  { intros w. subst l. rewrite !list_elem_of_In, filter_In, negb_true_iff. done. }
  destruct (exists_minimal lt l w0) as (w & [Hw Hp]%Hl & Hmin).
  - intros x. subst lt. cbn beta. rewrite rank_ltb_irrefl, Z.ltb_irrefl, andb_false_r. done.
  - intros x y z. subst lt. cbn beta. rewrite !orb_true_iff, !andb_true_iff.
    rewrite !bool_decide_eq_true, !Z.ltb_lt.
    intros [H1|[H1 H1']] [H2|[H2 H2']]; rewrite ?H1, <-?H2; eauto using rank_ltb_trans.
    right. split; [congruence|lia].
  - by apply Hl.
  - exists w. split_and!; [done|done|]. intros now Hrate Hint.
    unfold admissible, can_admit_locked. rewrite Hp, Hidle.
    replace (is_none_or (rate_limit s (w_kind w)) (fun deadline => deadline <=? now)) with true.
    2:{ destruct (rate_limit s (w_kind w)) as [d|]; [|done]. symmetry. apply Z.leb_le. auto. }
    assert (existsb (outranks s w) (waiting s) = false) as ->.
    { apply not_true_iff_false. rewrite existsb_exists. intros (o & Ho%list_elem_of_In & Hr).
      unfold outranks in Hr. case_match; [done|]. split_guards.
      assert (lt o w = false) as Hlt by (apply Hmin, Hl; done). subst lt. cbn beta in Hlt.
      congruence. }
    destruct (is_background (w_kind w)); [|by destruct (w_kind w)].
    assert (existsb (fun e => rank_ltb (interactive_rank s e) (waiting_rank s w))
              (interactive s) = false) as ->.
    { apply not_true_iff_false. rewrite existsb_exists. intros (e & He%list_elem_of_In & Hr).
      rewrite Hint in Hr; done. }
    by destruct (w_kind w).
Qed.

(** ** Asking work to yield *)

(** Each step asks for yields through one call of [preempt_locked] at most, on the state it
    leaves. *)
Lemma cancels_of_step s op :
  (forall id, CancelWork id ∉ (scheduler_step s op).2)
  \/ exists s0, (scheduler_step s op).1 = (preempt_locked s0).1
       /\ forall id, CancelWork id ∈ (scheduler_step s op).2 <-> CancelWork id ∈ (preempt_locked s0).2.
Proof.
  assert (forall id, CancelWork id ∉ []) as Hnil by (intros id H; by apply elem_of_nil in H).
  assert (forall id, CancelWork id ∉ [NotifyWaiters]) as Hn by (intros id H; elem_cases).
  assert (forall s0 e, (forall id, CancelWork id ∉ [e]) ->
    exists s1, (preempt_then s0 [e]).1 = (preempt_locked s1).1
      /\ forall id, CancelWork id ∈ (preempt_then s0 [e]).2 <-> CancelWork id ∈ (preempt_locked s1).2)
    as Hthen.
  { intros s0 e He. exists s0. split; [done|]. intros id. unfold preempt_then. cbn [snd].
    rewrite elem_of_app. specialize (He id). tauto. }
  destruct op; cbn [scheduler_step].
  - by left.
  - by left.
  - unfold enter. repeat case_match; try (by left). right. by apply Hthen.
  - unfold begin_interactive. repeat case_match; try (by left). right. by eexists.
  - unfold poll. destruct (find_waiting s id) as [w|]; [|by left]. destruct (admissible s w now).
    + left. intros id' H; cbn in H; elem_cases.
    + right. apply Hthen. intros id' H; elem_cases.
  - unfold drop_waiter. left. by case_match.
  - unfold release. case_match; [|by left]. right. by apply Hthen.
  - unfold end_interactive. left. by case_match.
  - right. by apply Hthen.
  - unfold set_search_crawler_speed. left. by case_decide.
Qed.

(** A pending rank is judged alike before and after [preempt_locked]. *)
Lemma pending_better_preempt s r :
  pending_better (preempt_locked s).1 r <-> pending_better s r.
Proof.
  pose proof (preempt_fields s) as (Hw & Hi & Hsel & Hsp & _).
  unfold pending_better, waiting_rank, interactive_rank, paused_budget_waiter.
  by rewrite Hw, Hi, Hsel, Hsp.
Qed.

(** work is asked to yield only for something better: the work that a step asks to yield
    holds a permit, is preemptible, and something of a better rank is pending after the step:
    a waiter that the paused budget does not hold back, or an interactive operation being
    enqueued. *)
Theorem preemption_is_justified s op id
    (Hcancel : CancelWork id ∈ (scheduler_step s op).2) :
  let s' := (scheduler_step s op).1 in
  exists a, a ∈ active s' /\ a_id a = id /\ a_preemptible a = true /\ a_preempted a = true
    /\ pending_better s' (active_rank s' a).
Proof.
  destruct (cancels_of_step s op) as [Hno|(s0 & -> & Hs0)]; [by destruct (Hno id)|].
  apply Hs0 in Hcancel.
  destruct (preempt_locked_spec s0) as (_ & _ & Hj & _).
  destruct (Hj id Hcancel) as (a & _ & Hid & _ & Hp & Hb & Hin).
  exists (a <| a_preempted := true |>). split_and!; try done.
  apply pending_better_preempt. pose proof (preempt_fields s0) as (_ & _ & Hsel & _).
  unfold active_rank. rewrite Hsel. exact Hb.
Qed.

(** urgent work is never ignored: once a caller has queued its work or entered an
    interactive operation, every preemptible work in flight of a worse rank has been asked to
    yield. *)
Theorem better_work_asks_to_yield s op
    (Hop : match op with
           | OpEnter id => exists t seq, find_ticket s id = Some t /\ t_seq t = Some seq
           | OpBeginInteractive id => exists t, find_ticket s id = Some t /\ t_seq t = None
           | _ => False
           end) :
  let s' := (scheduler_step s op).1 in
  forall a, a ∈ active s' -> a_preemptible a = true -> pending_better s' (active_rank s' a) ->
    a_preempted a = true.
Proof.
  assert (exists s0, (scheduler_step s op).1 = (preempt_locked s0).1) as [s0 ->].
  { destruct op; try done; cbn [scheduler_step].
    - destruct Hop as ([tid kind tab tseq] & seq & Ht & Hs). cbn in Hs. subst tseq.
      unfold enter. rewrite Ht. by eexists.
    - destruct Hop as ([tid kind tab tseq] & Ht & Hs). cbn in Hs. subst tseq.
      unfold begin_interactive. rewrite Ht. by eexists. }
  intros s' a Ha Hp Hb. destruct (preempt_locked_spec s0) as (_ & Hd & _).
  subst s'. rewrite pending_better_preempt in Hb.
  pose proof (preempt_fields s0) as (_ & _ & Hsel & _).
  apply Hd; [done..|]. unfold active_rank in *. by rewrite Hsel in Hb.
Qed.

(** ** Identities *)

Definition admissions (effects : list Effect) : list Z :=
  omap (fun e => match e with PermitGranted id => Some id | _ => None end) effects.
Definition cancels (effects : list Effect) : list Z :=
  omap (fun e => match e with CancelWork id => Some id | _ => None end) effects.

(** The work ids of callers that have not been admitted yet. *)
Definition pre_ids (s : SchedulerState) : list Z :=
  (t_id <$> tickets s) ++ (w_id <$> waiting s).
Definition ids (s : SchedulerState) : list Z :=
  pre_ids s ++ (a_id <$> active s) ++ (i_id <$> interactive s).

(** Ids are distinct and drawn; the permits granted and the yields asked for so far were so
    once, and a work that was asked to yield remembers it. *)
Record trace_ok (granted asked : list Z) (s : SchedulerState) : Prop := {
  ok_nodup : NoDup (ids s);
  ok_drawn : Forall (fun id => id < next_id s) (ids s);
  ok_granted : NoDup granted;
  ok_asked : NoDup asked;
  ok_past : Forall (fun id => id < next_id s /\ id ∉ pre_ids s) (granted ++ asked);
  ok_flag : forall a, a ∈ active s -> a_id a ∈ asked -> a_preempted a = true }.

Lemma cancels_of_preempt s :
  NoDup (a_id <$> active s) ->
  NoDup (cancels (preempt_locked s).2) /\ admissions (preempt_locked s).2 = [].
Proof.
  unfold preempt_locked. destruct (best_pending_rank s) as [best|]; [|split; constructor].
  cut (forall l, NoDup (a_id <$> l) ->
    NoDup (cancels (preempt_active s best l).2) /\ admissions (preempt_active s best l).2 = []
    /\ forall id, id ∈ cancels (preempt_active s best l).2 -> id ∈ a_id <$> l).
  { intros H Hn. destruct (H _ Hn) as (? & ? & _). by destruct (preempt_active _ _ _). }
  induction l as [|a l IH]; rewrite ?fmap_cons; cbn [preempt_active].
  { intros _; split_and!; [constructor|done|]. intros id H. by apply elem_of_nil in H. }
  intros [Ha Hl]%NoDup_cons. destruct (IH Hl) as (Hn & He & Hsub).
  destruct (preempt_active s best l) as [l' eff]. cbn [fst snd] in Hn, He, Hsub.
  destruct (a_preemptible a && rank_ltb best (active_rank s a) && negb (a_preempted a));
    cbn [fst snd].
  - change (cancels (CancelWork (a_id a) :: eff)) with (a_id a :: cancels eff). split_and!.
    + constructor; auto.
    + done.
    + intros id [->|H']%elem_of_cons; [constructor|]. constructor. auto.
  - split_and!; [done|done|]. intros id H'. constructor. auto.
Qed.

Lemma elem_of_cancels id l : id ∈ cancels l <-> CancelWork id ∈ l.
Proof.
  unfold cancels. rewrite list_elem_of_omap. split.
  - intros (e & He & Hid). destruct e; by simplify_eq.
  - intros H. by exists (CancelWork id).
Qed.

Lemma same_work_ids l l' : Forall2 same_work l l' -> a_id <$> l' = a_id <$> l.
Proof.
  induction 1 as [|a a' l l' Ha _ IH]; [done|]. rewrite !fmap_cons, IH.
  destruct Ha as [->|[_ ->]]; done.
Qed.

(** [preempt_locked] keeps the trace invariant, with its yields added. *)
Lemma trace_preempt granted asked s :
  trace_ok granted asked s ->
  trace_ok granted (asked ++ cancels (preempt_locked s).2) (preempt_locked s).1.
Proof.
  intros [Hn Hd Hg Ha Hp Hf].
  pose proof (preempt_fields s) as (Hw & Hi & _ & _ & _ & Hid & _ & Ht & Hs).
  pose proof (preempt_locked_spec s) as (_ & _ & Hj & _).
  assert (ids (preempt_locked s).1 = ids s) as Hids.
  { unfold ids, pre_ids. by rewrite Hw, Ht, Hi, (same_work_ids _ _ Hs). }
  assert (pre_ids (preempt_locked s).1 = pre_ids s) as Hpre by (unfold pre_ids; by rewrite Hw, Ht).
  assert (NoDup (a_id <$> active s)) as Hna.
  { unfold ids in Hn. apply NoDup_app in Hn as (_ & _ & Hn). by apply NoDup_app in Hn as (? & _). }
  destruct (cancels_of_preempt s Hna) as [Hc _].
  assert (forall id, id ∈ cancels (preempt_locked s).2 ->
    id ∈ a_id <$> active s /\ (forall a, a ∈ active s -> a_id a = id -> a_preempted a = false))
    as Hcs.
  { intros id (a & Ha' & <- & Hf' & _)%elem_of_cancels%Hj.
    split; [by apply list_elem_of_fmap_2|].
    intros b Hb Heq. replace b with a; [done|].
    apply list_elem_of_lookup in Ha' as [i Hi'], Hb as [j Hj'].
    assert (i = j) as ->; [|congruence].
    eapply NoDup_lookup; [exact Hna|by rewrite list_lookup_fmap, Hi'|].
    rewrite list_lookup_fmap, Hj'. cbn. by rewrite Heq. }
  split.
  - by rewrite Hids.
  - by rewrite Hids, Hid.
  - done.
  - apply NoDup_app. split_and!; [done| |done]. intros id Hin [Hact Hfl]%Hcs.
    apply list_elem_of_fmap in Hact as (a & -> & Hact).
    specialize (Hf a Hact Hin). rewrite (Hfl a Hact eq_refl) in Hf. done.
  - rewrite Hid, Hpre, app_assoc. apply Forall_app. split; [done|].
    apply Forall_forall. intros id [Hact _]%Hcs. split.
    + rewrite Forall_forall in Hd. apply Hd. unfold ids. rewrite !elem_of_app. tauto.
    + unfold ids in Hn. apply NoDup_app in Hn as (_ & Hdis & _). intros Hin.
      apply (Hdis id Hin). rewrite elem_of_app. by left.
  - intros a Hact Hin.
    apply list_elem_of_lookup in Hact as [i Hi'].
    destruct (Forall2_lookup_r _ _ _ i a Hs Hi') as (b & Hb & Hsame).
    destruct Hsame as [->|[_ ->]]; [|done].
    apply elem_of_app in Hin as [Hin|Hin].
    + apply Hf; [by eapply list_elem_of_lookup_2|done].
    + apply elem_of_cancels, Hj in Hin as (c & Hc1 & Hc2 & Hc3 & _ & _ & Hc6).
      apply list_elem_of_lookup in Hc6 as [j Hj'].
      assert (i = j) as ->.
      { eapply (NoDup_lookup (a_id <$> active (preempt_locked s).1)).
        - by rewrite (same_work_ids _ _ Hs).
        - rewrite list_lookup_fmap, Hi'. cbn. done.
        - rewrite list_lookup_fmap, Hj'. cbn. by rewrite Hc2. }
      rewrite Hi' in Hj'. injection Hj' as ->. done.
Qed.

(** A step before [preempt_locked] that only forgets ids, or moves them onwards. *)
Lemma trace_forget granted asked s s' k :
  ids s ≡ₚ ids s' ++ k -> (forall id, id ∈ pre_ids s' -> id ∈ pre_ids s) ->
  next_id s' = next_id s -> (forall a, a ∈ active s' -> a ∈ active s) ->
  trace_ok granted asked s -> trace_ok granted asked s'.
Proof.
  intros HP Hpre Hid Hact [Hn Hd Hg Ha Hp Hf]. rewrite HP in Hn, Hd. split.
  - by apply NoDup_app in Hn as (? & _).
  - rewrite Hid. by apply Forall_app in Hd as [? _].
  - done.
  - done.
  - rewrite Hid. eapply Forall_impl; [exact Hp|]. intros id [? Hin]. cbn. auto.
  - auto.
Qed.

Lemma find_ticket_id s id t : find_ticket s id = Some t -> t_id t = id /\ t ∈ tickets s.
Proof. intros [Ht Hid]%find_first_elem. by apply Z.eqb_eq in Hid. Qed.

Lemma nodup_parts s :
  NoDup (ids s) ->
  NoDup (t_id <$> tickets s) /\ NoDup (w_id <$> waiting s) /\ NoDup (a_id <$> active s)
  /\ NoDup (i_id <$> interactive s).
Proof. unfold ids, pre_ids. rewrite !NoDup_app. naive_solver. Qed.

Lemma trace_take_id granted asked s kind tab :
  0 <= next_id s < 2 ^ 64 - 1 -> trace_ok granted asked s ->
  trace_ok granted asked (take_id s kind tab).
Proof.
  intros Hb [Hn Hd Hg Ha Hp Hf].
  assert (ids (take_id s kind tab) ≡ₚ next_id s :: ids s) as HP.
  { unfold ids, pre_ids, take_id. cbn. rewrite fmap_app. cbn. solve_Permutation. }
  assert (next_id (take_id s kind tab) = next_id s + 1) as Hid.
  { unfold take_id. cbn. apply u64_wrapping_add_small. unfold U64_MAX. lia. }
  rewrite Forall_forall in Hd.
  split; try done.
  - rewrite HP. apply NoDup_cons. split; [|done]. intros Hin. specialize (Hd _ Hin). cbn in Hd. lia.
  - rewrite HP, Hid. constructor; [lia|]. apply Forall_forall. intros x Hx.
    specialize (Hd _ Hx). cbn in Hd. lia.
  - rewrite Hid. eapply Forall_impl; [exact Hp|]. cbn. intros id [Hlt Hin]. split; [lia|].
    unfold pre_ids, take_id in *. cbn. rewrite fmap_app, !elem_of_app in *. cbn.
    rewrite list_elem_of_singleton. intuition lia.
Qed.

Lemma trace_take_seq granted asked s id :
  trace_ok granted asked s -> trace_ok granted asked (take_seq s id).
Proof.
  intros Hok. unfold take_seq. destruct (find_ticket s id) as [[? ? ? [?|]]|]; try done.
  eapply (trace_forget _ _ s _ []); [..|exact Hok]; try done;
    unfold ids, pre_ids; cbn; rewrite update_first_map by done; rewrite ?app_nil_r; done.
Qed.

(** Leaving the tickets for the waiting or the interactive list. *)
Lemma trace_ticket granted asked s s' id t l1 l2 :
  find_ticket s id = Some t ->
  (w_id <$> l1) ++ (i_id <$> l2) = [id] ->
  tickets s' = tickets (drop_ticket s id) -> waiting s' = waiting s ++ l1 ->
  interactive s' = interactive s ++ l2 -> active s' = active s -> next_id s' = next_id s ->
  trace_ok granted asked s -> trace_ok granted asked s'.
Proof.
  intros Ht Hl Htk Hw Hi Hact Hnid Hok. pose proof (ok_nodup _ _ _ Hok) as Hn.
  apply nodup_parts in Hn as (Hnt & _).
  destruct (find_first_remove t_id id (tickets s) t Hnt Ht) as [Hid HP].
  change (List.filter (fun y => negb (t_id y =? id)) (tickets s))
    with (tickets (drop_ticket s id)) in HP. rewrite <-Htk in HP.
  eapply (trace_forget _ _ s _ []); [..|exact Hok]; [| |done|by rewrite Hact].
  - unfold ids, pre_ids. rewrite HP, Hact, Hw, Hi, app_nil_r, !fmap_app.
    transitivity ([id] ++ (t_id <$> tickets s')
                  ++ (w_id <$> waiting s) ++ (a_id <$> active s) ++ (i_id <$> interactive s)).
    { cbn. by rewrite <-app_assoc. }
    rewrite <-Hl. solve_Permutation.
  - intros x. unfold pre_ids. rewrite HP, Hw, fmap_app, !elem_of_app.
    intros [Hx|[Hx|Hx]].
    + left. by constructor.
    + by right.
    + left. assert (x ∈ [id]) as ->%list_elem_of_singleton; [|constructor].
      rewrite <-Hl. apply elem_of_app. by left.
Qed.

Lemma trace_drop granted asked s id w :
  find_waiting s id = Some w -> trace_ok granted asked s ->
  trace_ok granted asked (s <| waiting ::= List.filter (fun w => negb (w_id w =? id)) |>).
Proof.
  intros Hw Hok. pose proof (ok_nodup _ _ _ Hok) as Hn.
  apply nodup_parts in Hn as (_ & Hnw & _).
  destruct (find_first_remove w_id id (waiting s) w Hnw Hw) as [_ HP].
  eapply (trace_forget _ _ s _ [id]); [..|exact Hok]; try done.
  - unfold ids, pre_ids. cbn. rewrite HP. solve_Permutation.
  - intros x. unfold pre_ids. cbn. rewrite HP, !elem_of_app.
    intros [Hx|Hx]; [by left|right]. by constructor.
Qed.

Lemma trace_admit granted asked s id w a :
  find_waiting s id = Some w -> a_id a = id -> trace_ok granted asked s ->
  trace_ok (granted ++ [id]) asked
    (s <| active ::= fun l => l ++ [a] |>
       <| waiting ::= List.filter (fun w => negb (w_id w =? id)) |>).
Proof.
  intros Hw Ha [Hn Hd Hg Has Hp Hf].
  destruct (nodup_parts s Hn) as (_ & Hnw & _).
  destruct (find_first_remove w_id id (waiting s) w Hnw Hw) as [_ HP].
  assert (id ∈ pre_ids s) as Hpre.
  { unfold pre_ids. rewrite HP, elem_of_app. right. constructor. }
  assert (forall x, x ∈ granted ++ asked -> x < next_id s /\ x ∉ pre_ids s) as Hpast
    by (by apply Forall_forall).
  match goal with |- trace_ok _ _ ?x => set (s' := x) end.
  assert (ids s ≡ₚ ids s') as Hids.
  { subst s'. unfold ids, pre_ids. cbn. rewrite HP, fmap_app. cbn. rewrite Ha.
    solve_Permutation. }
  assert (pre_ids s ≡ₚ id :: pre_ids s') as Hpre'.
  { subst s'. unfold pre_ids. cbn. rewrite HP. solve_Permutation. }
  split.
  - by rewrite <-Hids.
  - change (next_id s') with (next_id s). by rewrite <-Hids.
  - apply NoDup_app. split_and!; [done| |apply NoDup_singleton].
    intros x Hx ->%list_elem_of_singleton. destruct (Hpast id) as [_ Hni]; [|done].
    apply elem_of_app. by left.
  - done.
  - change (next_id s') with (next_id s). apply Forall_forall. intros x Hx.
    assert (NoDup (pre_ids s)) as Hnp by (unfold ids in Hn; by apply NoDup_app in Hn as (? & _)).
    rewrite Hpre' in Hnp. apply NoDup_cons in Hnp as [Hnid _].
    rewrite !elem_of_app, list_elem_of_singleton in Hx.
    assert (x = id \/ x ∈ granted ++ asked) as [->|Hx'] by (rewrite elem_of_app; tauto).
    + split; [|done]. rewrite Forall_forall in Hd. apply Hd. unfold ids.
      apply elem_of_app. by left.
    + destruct (Hpast x Hx') as [? Hni]. split; [done|]. rewrite Hpre' in Hni.
      apply not_elem_of_cons in Hni. tauto.
  - intros b Hb Hin. subst s'. cbn in Hb. apply elem_of_app in Hb as [Hb|Hb]; [auto|].
    apply list_elem_of_singleton in Hb as ->. rewrite Ha in Hin.
    destruct (Hpast id) as [_ Hni]; [|done]. apply elem_of_app. by right.
Qed.

Lemma next_id_step s op :
  next_id (scheduler_step s op).1 = next_id s
  \/ next_id (scheduler_step s op).1 = u64_wrapping_add (next_id s) 1.
Proof.
  assert (forall s0, next_id (preempt_locked s0).1 = next_id s0) as Hp.
  { intros s0. pose proof (preempt_fields s0) as (_ & _ & _ & _ & _ & ? & _). done. }
  destruct op; cbn [scheduler_step].
  - by right.
  - left. unfold take_seq. by repeat case_match.
  - left. unfold enter. repeat case_match; try done. unfold preempt_then. cbn [fst]. by rewrite Hp.
  - left. unfold begin_interactive. repeat case_match; try done. by rewrite Hp.
  - left. unfold poll. destruct (find_waiting s id); [|done].
    destruct (admissible _ _ _); [done|]. apply Hp.
  - left. unfold drop_waiter. by case_match.
  - left. unfold release. case_match; [|done]. unfold preempt_then. cbn [fst].
    rewrite Hp. by case_match.
  - left. unfold end_interactive. by case_match.
  - left. unfold set_selected_account, preempt_then. cbn [fst]. by rewrite Hp.
  - left. unfold set_search_crawler_speed. by case_decide.
Qed.

(** A state followed by [preempt_locked] and an effect of another kind. *)
Lemma trace_then granted asked s e :
  admissions [e] = [] -> cancels [e] = [] -> trace_ok granted asked s ->
  trace_ok (granted ++ admissions (preempt_then s [e]).2) (asked ++ cancels (preempt_then s [e]).2)
    (preempt_then s [e]).1.
Proof.
  intros He Hc Hok. pose proof (ok_nodup _ _ _ Hok) as Hn. apply nodup_parts in Hn as (_ & _ & Hna & _).
  destruct (cancels_of_preempt s Hna) as [_ Hadm].
  unfold preempt_then, admissions, cancels in *. cbn [fst snd].
  rewrite !omap_app, Hadm, He, Hc, !app_nil_r. by apply trace_preempt.
Qed.

Lemma trace_silent granted asked s (effects : list Effect) :
  admissions effects = [] -> cancels effects = [] -> trace_ok granted asked s ->
  trace_ok (granted ++ admissions effects) (asked ++ cancels effects) s.
Proof. intros -> ->. by rewrite !app_nil_r. Qed.

Lemma trace_step granted asked s op :
  0 <= next_id s < 2 ^ 64 - 1 -> trace_ok granted asked s ->
  trace_ok (granted ++ admissions (scheduler_step s op).2)
    (asked ++ cancels (scheduler_step s op).2) (scheduler_step s op).1.
Proof.
  intros Hb Hok. destruct op; cbn [scheduler_step].
  - apply trace_silent; [done..|]. by apply trace_take_id.
  - apply trace_silent; [done..|]. by apply trace_take_seq.
  - unfold enter. destruct (find_ticket s id) as [[tid kind tab [seq|]]|] eqn:Ht;
      try (by apply trace_silent).
    apply trace_then; [done..|].
    eapply (trace_ticket _ _ s _ id _ [{| w_id := id; w_kind := kind; w_tab := tab; w_seq := seq |}]
              []); [exact Ht|reflexivity..| |done|done|exact Hok]. by rewrite app_nil_r.
  - unfold begin_interactive. destruct (find_ticket s id) as [[tid kind tab [seq|]]|] eqn:Ht;
      try (by apply trace_silent).
    match goal with |- context [preempt_locked ?x] => assert (trace_ok granted asked x) as Hx end.
    { eapply (trace_ticket _ _ s _ id _ [] [{| i_id := id; i_kind := kind; i_tab := tab |}]);
        [exact Ht|reflexivity|reflexivity| |done..|exact Hok]. by rewrite app_nil_r. }
    pose proof (ok_nodup _ _ _ Hx) as Hn. apply nodup_parts in Hn as (_ & _ & Hna & _).
    destruct (cancels_of_preempt _ Hna) as [_ ->]. rewrite app_nil_r. by apply trace_preempt.
  - unfold poll. destruct (find_waiting s id) as [w|] eqn:Hw; [|by apply trace_silent].
    destruct (admissible s w now).
    + cbn [fst snd]. change (cancels [PermitGranted id]) with (@nil Z). rewrite app_nil_r.
      by eapply trace_admit.
    + by apply trace_then.
  - unfold drop_waiter. destruct (find_waiting s id) as [w|] eqn:Hw; apply trace_silent; try done.
    by eapply trace_drop.
  - unfold release. destruct (find_first _ (active s)) as [a|] eqn:Ha; [|by apply trace_silent].
    apply trace_then; [done..|].
    pose proof (ok_nodup _ _ _ Hok) as Hn. apply nodup_parts in Hn as (_ & _ & Hna & _).
    destruct (find_first_remove a_id id _ a Hna Ha) as [_ HP].
    assert (forall b, b ∈ List.filter (fun a => negb (a_id a =? id)) (active s) -> b ∈ active s).
    { intros b Hin. apply list_elem_of_In, filter_In in Hin as [? _]. by apply list_elem_of_In. }
    eapply (trace_forget _ _ s _ [id]); [..|exact Hok]; try (by destruct (uses_shared_background_budget _)).
    destruct (uses_shared_background_budget _); unfold ids, pre_ids; cbn; rewrite HP; solve_Permutation.
  - unfold end_interactive. destruct (find_first _ (interactive s)) as [e|] eqn:He;
      apply trace_silent; try done.
    pose proof (ok_nodup _ _ _ Hok) as Hn. apply nodup_parts in Hn as (_ & _ & _ & Hni).
    destruct (find_first_remove i_id id _ e Hni He) as [_ HP].
    eapply (trace_forget _ _ s _ [id]); [..|exact Hok]; try done.
    unfold ids, pre_ids. cbn. rewrite HP. solve_Permutation.
  - apply trace_then; [done..|].
    eapply (trace_forget _ _ s _ []); [..|exact Hok]; try done. by rewrite app_nil_r.
  - unfold set_search_crawler_speed. case_decide; apply trace_silent; try done.
    eapply (trace_forget _ _ s _ []); [..|exact Hok]; try done. by rewrite app_nil_r.
Qed.

Lemma trace_run granted asked s ops :
  0 <= next_id s -> next_id s + Z.of_nat (length ops) < 2 ^ 64 -> trace_ok granted asked s ->
  trace_ok (granted ++ admissions (run scheduler_step s ops).2)
    (asked ++ cancels (run scheduler_step s ops).2) (run scheduler_step s ops).1.
Proof.
  revert granted asked s; induction ops as [|op ops IH]; intros granted asked s H0 Hb Hok.
  { by apply trace_silent. }
  cbn [length] in Hb. rewrite run_effects_cons, run_cons. unfold admissions, cancels.
  rewrite !omap_app, !app_assoc. apply IH; [..|apply trace_step; [lia|done]].
  - destruct (next_id_step s op) as [->| ->]; [done|]. apply u64_wrapping_add_range.
  - destruct (next_id_step s op) as [->| ->]; [lia|].
    rewrite u64_wrapping_add_small by (unfold U64_MAX; lia). lia.
Qed.

(** identities are exact: over any run of fewer than 2^64 steps, all work ids in the
    system are distinct, every work is granted a permit at most once and asked to yield at
    most once. *)
Theorem work_is_granted_and_asked_once ops
    (Hlen : Z.of_nat (length ops) < 2 ^ 64) :
  NoDup (ids (scheduler_run ops).1)
  /\ NoDup (admissions (scheduler_run ops).2) /\ NoDup (cancels (scheduler_run ops).2).
Proof.
  assert (trace_ok [] [] SchedulerState_default) as H0.
  { split; try constructor. intros a Ha. by apply elem_of_nil in Ha. }
  pose proof (trace_run [] [] SchedulerState_default ops ltac:(done) Hlen H0) as H.
  unfold scheduler_run. split_and!; [eapply ok_nodup|eapply ok_granted|eapply ok_asked]; exact H.
Qed.

(** ** Concrete runs *)

(** A crawl is running when a visible gap repair queues; it is asked to yield. *)
Definition crawl_then_repair : list SchedulerOp :=
  [OpTakeId SearchCrawl None; OpTakeSeq 0; OpEnter 0; OpPoll 0 1000;
   OpTakeId VisibleGapRepair None; OpTakeSeq 1].

Definition crawling : SchedulerState := (scheduler_run crawl_then_repair).1.

Lemma work_is_granted_and_asked_once_witness :
  admissions (scheduler_run (crawl_then_repair ++ [OpEnter 1; OpPoll 1 1001; OpRelease 0 1002;
     OpPoll 1 1003])).2 = [0; 1]
  /\ NoDup [0; 1].
Proof.
  split; [reflexivity|].
  apply (work_is_granted_and_asked_once (crawl_then_repair ++
           [OpEnter 1; OpPoll 1 1001; OpRelease 0 1002; OpPoll 1 1003])).
  reflexivity.
Defined.

Lemma preemption_is_justified_witness :
  exists a, a ∈ active (scheduler_step crawling (OpEnter 1)).1 /\ a_id a = 0
    /\ a_preemptible a = true /\ a_preempted a = true
    /\ pending_better (scheduler_step crawling (OpEnter 1)).1
         (active_rank (scheduler_step crawling (OpEnter 1)).1 a).
Proof. apply (preemption_is_justified crawling (OpEnter 1) 0). vm_compute. constructor. Defined.

(** The crawl, after the repair queued. *)
Definition crawl : ActiveWork :=
  {| a_id := 0; a_kind := SearchCrawl; a_tab := None; a_priority := 128;
     a_preemptible := true; a_preempted := true |}.

Lemma better_work_asks_to_yield_witness :
  active (scheduler_step crawling (OpEnter 1)).1 = [crawl] /\ a_preempted crawl = true.
Proof.
  split; [reflexivity|].
  apply (better_work_asks_to_yield crawling (OpEnter 1)).
  - eexists _, 1. split; reflexivity.
  - vm_compute. constructor.
  - reflexivity.
  - left. eexists. split_and!; [vm_compute; constructor|reflexivity|reflexivity].
Defined.

Definition queued : SchedulerState :=
  (scheduler_run (crawl_then_repair ++ [OpEnter 1; OpPoll 1 1001])).1.
Definition repair : WaitingWork :=
  {| w_id := 1; w_kind := VisibleGapRepair; w_tab := None; w_seq := 1 |}.

Lemma no_lost_wakeup_witness :
  NotifyWaiters ∈ (scheduler_step queued (OpRelease 0 1002)).2.
Proof. apply (no_lost_wakeup queued (OpRelease 0 1002) repair 1002); reflexivity. Defined.

Definition idle : SchedulerState := (scheduler_step queued (OpRelease 0 1002)).1.

Lemma admission_takes_the_best_witness :
  exists now w, OpPoll 1 1003 = OpPoll 1 now /\ w ∈ waiting idle /\ w_id w = 1.
Proof.
  destruct (admission_takes_the_best idle (OpPoll 1 1003) 1) as (now & w & H1 & H2 & H3 & _).
  - vm_compute. constructor.
  - exists now, w. auto.
Defined.

Lemma some_waiter_is_admissible_witness :
  exists w, w ∈ waiting idle /\ paused_budget_waiter idle (w_kind w) = false.
Proof.
  destruct (some_waiter_is_admissible idle repair) as (w & H1 & H2 & _);
    [reflexivity|vm_compute; constructor|reflexivity|eauto].
Defined.
