(* ===== verification/Ledger.v ===== *)
(** The retry ledger of direct message actions
    ([crates/koushi-core/src/account/direct_action_ledger.rs], with the request and failure
    types of [direct_operations.rs]).

    The ledger's map is a [gmap], its queue a list; an [Instant] is a number of milliseconds
    passed to the operation that reads the clock.  The payloads of requests and responses
    are type parameters, which the ledger never inspects. *)

From stdpp Require Import base list strings gmap fin_maps.
From Stdlib Require Import ZArith Lia.
From S2P Require Import Prelude.
Local Open Scope string_scope.
Local Open Scope list_scope.
Local Open Scope Z_scope.
Local Set Warnings "-clear-no-such-hyp".

(** [Duration::from_secs(600)], in milliseconds *)
Definition LEDGER_TTL : Z := 600000.
Definition LEDGER_LIMIT : nat := 128.

Inductive ActionKind := Action_Edit | Action_ThreadReply.

Record DirectRetryKey := { retry_client : string; retry_client_request_id : string }.

Record DirectActionKey := {
  client : string; kind : ActionKind; room_id : string; target_event_id : string;
  client_request_id : string }.

#[export] Instance ActionKind_eq : EqDecision ActionKind. Proof. solve_decision. Defined.
#[export] Instance DirectActionKey_eq : EqDecision DirectActionKey.
Proof. solve_decision. Defined.
#[export] Instance DirectActionKey_countable : Countable DirectActionKey.
Proof.
  refine (inj_countable'
    (fun k => (client k, bool_decide (kind k = Action_Edit), room_id k, target_event_id k,
               client_request_id k))
    (fun '(c, e, r, t, i) =>
       {| client := c; kind := if e : bool then Action_Edit else Action_ThreadReply;
          room_id := r; target_event_id := t; client_request_id := i |}) _).
  by intros [? [] ? ? ?].
Defined.

Inductive DirectMessageFailure :=
  | AccountInactive | SendNotAdmitted | RoomNotFound | EventNotFound | NotAuthor | NotAMessage
  | Redacted | NotThreadRoot | NotInThread (thread_root_event_id : option string)
  | RelationsUnavailable | Capacity | DuplicatePending | Unavailable.

#[export] Instance DirectMessageFailure_eq : EqDecision DirectMessageFailure.
Proof. solve_decision. Defined.

Section ledger.
(** The response views and the formatting options. *)
Context {Response Formatting : Type}.

Inductive DirectMessageRequest :=
  | Request_Read (room event : string)
  | Request_React (room event key : string)
  | Request_Unreact (room event key : string)
  | Request_Edit (room event body : string) (formatting : Formatting)
      (retry : option DirectRetryKey)
  | Request_Delete (room event : string)
  | Request_ThreadReply (room root : string) (reply_to : option string) (body : string)
      (formatting : Formatting) (retry : option DirectRetryKey).

(** [DirectActionKey::for_request] *)
Definition for_request (request : DirectMessageRequest) : option DirectActionKey :=
  let key k room target retry :=
    (fun r => {| client := retry_client r; kind := k; room_id := room;
                 target_event_id := target; client_request_id := retry_client_request_id r |})
      <$> retry in
  match request with
  | Request_Edit room event _ _ retry => key Action_Edit room event retry
  | Request_ThreadReply room root _ _ _ retry => key Action_ThreadReply room root retry
  | _ => None
  end.

(** [DirectOutcome]: [Result<DirectMessageResponse, DirectMessageFailure>] *)
Definition DirectOutcome : Type := Response + DirectMessageFailure.

Inductive Begin :=
  | Begin_Fresh (token : Z)
  | Begin_Replay (response : Response)
  | Begin_Pending
  | Begin_Full.

Inductive EntryState :=
  | Entry_Running
  | Entry_Settled (response : Response)
  | Entry_Ambiguous.

Record Entry := { entry_state : EntryState; token : Z; expires_at : Z }.

Record DirectActionLedger := {
  entries : gmap DirectActionKey Entry;
  order : list DirectActionKey;
  action_deadline : Z;
  next_token : Z }.

#[export] Instance Updatable_entry : Updatable Entry := fun e =>
  {| entry_state := entry_state e; token := token e; expires_at := expires_at e |}.
#[export] Instance Updatable_ledger : Updatable DirectActionLedger := fun l =>
  {| entries := entries l; order := order l; action_deadline := action_deadline l;
     next_token := next_token l |}.

Definition new (deadline : Z) : DirectActionLedger :=
  {| entries := ∅; order := []; action_deadline := deadline; next_token := 0 |}.

Definition contains_key (m : gmap DirectActionKey Entry) (k : DirectActionKey) : bool :=
  match m !! k with Some _ => true | None => false end.

Definition expire (l : DirectActionLedger) (now : Z) : DirectActionLedger :=
  let m := filter (fun kv => now < expires_at kv.2) (entries l) in
  l <| entries := m |> <| order ::= List.filter (contains_key m) |>.

Definition is_settled (e : Entry) : bool :=
  match entry_state e with Entry_Settled _ => true | _ => false end.

Definition settled_key (l : DirectActionLedger) (k : DirectActionKey) : bool :=
  is_some_and (entries l !! k) is_settled.

(** [VecDeque::remove(position)] of the first settled key, and of its entry. *)
Definition evict_oldest_settled (l : DirectActionLedger) : DirectActionLedger * bool :=
  match position (settled_key l) (order l) with
  | None => (l, false)
  | Some i =>
      match order l !! i with
      | Some oldest =>
          (l <| order := delete i (order l) |> <| entries ::= delete oldest |>, true)
      | None => (l, true)
      end
  end.

Definition remove (l : DirectActionLedger) (k : DirectActionKey) : DirectActionLedger :=
  l <| entries ::= delete k |>
    <| order ::= List.filter (fun existing => negb (bool_decide (existing = k))) |>.

(** The end of [begin], once there is room. *)
Definition claim (l : DirectActionLedger) (k : DirectActionKey) (now : Z)
  : DirectActionLedger * Begin :=
  (l <| next_token := u64_wrapping_add (next_token l) 1 |>
     <| entries ::= insert k
          {| entry_state := Entry_Running; token := next_token l;
             expires_at := now + action_deadline l + LEDGER_TTL |} |>
     <| order ::= fun o => o ++ [k] |>,
   Begin_Fresh (next_token l)).

Definition begin (l : DirectActionLedger) (k : DirectActionKey) (now : Z)
  : DirectActionLedger * Begin :=
  let l := expire l now in
  match entry_state <$> entries l !! k with
  | Some (Entry_Settled response) => (l, Begin_Replay response)
  | Some (Entry_Running | Entry_Ambiguous) => (l, Begin_Pending)
  | None =>
      if bool_decide (LEDGER_LIMIT <= size (entries l))%nat then
        let '(l, evicted) := evict_oldest_settled l in
        if evicted : bool then claim l k now else (l, Begin_Full)
      else claim l k now
  end.

Definition finish (l : DirectActionLedger) (k : DirectActionKey) (tok : Z)
    (outcome : DirectOutcome) (now : Z) : DirectActionLedger :=
  match entries l !! k with
  | None => l
  | Some entry =>
      if negb (token entry =? tok) then l
      else
        match outcome with
        | inl response =>
            l <| entries ::= insert k
                   (entry <| entry_state := Entry_Settled response |>
                          <| expires_at := now + LEDGER_TTL |>) |>
        | inr Unavailable =>
            l <| entries ::= insert k
                   (entry <| entry_state := Entry_Ambiguous |>
                          <| expires_at := now + LEDGER_TTL |>) |>
        | inr _ => remove l k
        end
  end.

(** [admit]; [slot] is the answer of the semaphore's [try_acquire_owned].  The result is the
    claim of an admitted request, or the answer given at once. *)
Definition admit_request (l : DirectActionLedger) (slot : bool)
    (request : DirectMessageRequest) (now : Z)
  : DirectActionLedger * (option (DirectActionKey * Z) + DirectOutcome) :=
  match for_request request with
  | None => (l, if slot then inl None else inr (inr Capacity))
  | Some key =>
      match begin l key now with
      | (l, Begin_Fresh tok) =>
          if slot then (l, inl (Some (key, tok)))
          else (finish l key tok (inr Capacity) now, inr (inr Capacity))
      | (l, Begin_Replay response) => (l, inr (inl response))
      | (l, Begin_Pending) => (l, inr (inr DuplicatePending))
      | (l, Begin_Full) => (l, inr (inr Capacity))
      end
  end.

(** What [run_claimed] reports: [None] is the elapsed deadline. *)
Definition settle_claimed (l : DirectActionLedger) (claimed : option (DirectActionKey * Z))
    (result : option DirectOutcome) (now : Z) : DirectActionLedger * DirectOutcome :=
  let outcome := default (inr Unavailable) result in
  match claimed with
  | Some (key, tok) => (finish l key tok outcome now, outcome)
  | None => (l, outcome)
  end.

(** The mutex serialises the operations; a begun action settles at any later time, or never
    (its task was aborted). *)
Inductive LedgerOp :=
  | OpBegin (k : DirectActionKey) (now : Z)
  | OpFinish (k : DirectActionKey) (tok : Z) (outcome : DirectOutcome) (now : Z).

Definition op_time (op : LedgerOp) : Z :=
  match op with OpBegin _ now => now | OpFinish _ _ _ now => now end.

Definition ledger_step (l : DirectActionLedger) (op : LedgerOp)
  : DirectActionLedger * list (DirectActionKey * Begin) :=
  match op with
  | OpBegin k now => let '(l, b) := begin l k now in (l, [(k, b)])
  | OpFinish k tok outcome now => (finish l k tok outcome now, [])
  end.

End ledger.

Arguments DirectMessageRequest : clear implicits.
Arguments DirectActionLedger : clear implicits.
Arguments DirectOutcome : clear implicits.
Arguments LedgerOp : clear implicits.

Section ledger_props.
Context {Response : Type}.
Implicit Types (l : DirectActionLedger Response) (k : DirectActionKey) (e : @Entry Response).

(** ** Well-formedness *)

Record wf l : Prop := {
  wf_nodup : NoDup (order l);
  wf_order : forall k, k ∈ order l <-> is_Some (entries l !! k);
  wf_size : (size (entries l) <= LEDGER_LIMIT)%nat }.

Lemma elem_of_List_filter {A} (f : A -> bool) (x : A) xs :
  x ∈ List.filter f xs <-> x ∈ xs /\ f x = true.
Proof. by rewrite !list_elem_of_In, filter_In. Qed.

Lemma NoDup_List_filter {A} (f : A -> bool) (xs : list A) : NoDup xs -> NoDup (List.filter f xs).
Proof. rewrite !NoDup_ListNoDup. apply List.NoDup_filter. Qed.

Lemma expire_lookup l now k e :
  entries (expire l now) !! k = Some e <-> entries l !! k = Some e /\ now < expires_at e.
Proof. unfold expire. cbn. rewrite map_lookup_filter_Some. done. Qed.

Lemma wf_expire l now : wf l -> wf (expire l now).
Proof.
  intros [Hn Ho Hs]. split.
  - by apply NoDup_List_filter.
  - intros k. unfold expire at 1. cbn. rewrite elem_of_List_filter, Ho.
    unfold contains_key. fold (entries (expire l now)).
    change (filter _ (entries l)) with (entries (expire l now)).
    destruct (entries (expire l now) !! k) as [e|] eqn:He; split; try done; try naive_solver.
    intros _. apply expire_lookup in He as [He _]. rewrite He. eauto.
  - etrans; [|exact Hs]. unfold expire. cbn. by apply map_subseteq_size, map_filter_subseteq.
Qed.

(** What evicting finds and removes. *)
Lemma evict_spec l :
  wf l ->
  (exists k e, entries l !! k = Some e /\ is_settled e = true
     /\ entries (evict_oldest_settled l).1 = delete k (entries l)
     /\ (evict_oldest_settled l).2 = true /\ next_token (evict_oldest_settled l).1 = next_token l
     /\ action_deadline (evict_oldest_settled l).1 = action_deadline l
     /\ wf (evict_oldest_settled l).1)
  \/ (evict_oldest_settled l = (l, false)
      /\ forall k e, entries l !! k = Some e -> is_settled e = false).
Proof.
  intros [Hn Ho Hs]. unfold evict_oldest_settled.
  destruct (position (settled_key l) (order l)) as [i|] eqn:Hi.
  - left. apply position_Some in Hi as (k & Hk & Hset & _). rewrite Hk.
    unfold settled_key, is_some_and in Hset.
    destruct (entries l !! k) as [e|] eqn:He; [|done].
    exists k, e. split_and!; try done. cbn.
    assert (order l ≡ₚ k :: delete i (order l)) as HP by (by apply delete_Permutation).
    assert (NoDup (k :: delete i (order l))) as [Hnk Hnd]%NoDup_cons by (by rewrite <-HP).
    split; cbn.
    + done.
    + intros k'. rewrite lookup_delete_is_Some, <-Ho.
      assert (k' ∈ order l <-> k' = k \/ k' ∈ delete i (order l)) as ->
        by (rewrite HP at 1; apply elem_of_cons).
      split; [|naive_solver]. intros Hin. split; [|by right]. by intros ->.
    + rewrite map_size_delete, He. lia.
  - right. split; [done|]. intros k e He. apply position_None in Hi.
    rewrite Forall_forall in Hi. specialize (Hi k).
    unfold settled_key, is_some_and in Hi. rewrite He in Hi. apply Hi, Ho. eauto.
Qed.

Lemma wf_claim l k now :
  wf l -> entries l !! k = None -> (size (entries l) < LEDGER_LIMIT)%nat -> wf (claim l k now).1.
Proof.
  intros [Hn Ho Hs] Hk Hlt. split; cbn.
  - apply NoDup_app. split_and!; [done| |apply NoDup_singleton].
    intros k' Hin ->%list_elem_of_singleton. apply Ho in Hin as [e He]. congruence.
  - intros k'. rewrite elem_of_app, Ho, list_elem_of_singleton.
    destruct (decide (k' = k)) as [->|Hne].
    + rewrite lookup_insert_eq. naive_solver.
    + rewrite lookup_insert_ne by done. naive_solver.
  - rewrite map_size_insert_None by done. lia.
Qed.

(** The cases of [begin]. *)
Lemma begin_cases l k now :
  wf l ->
  (exists e r, entries (expire l now) !! k = Some e /\ entry_state e = Entry_Settled r
     /\ begin l k now = (expire l now, Begin_Replay r))
  \/ (exists e, entries (expire l now) !! k = Some e /\ is_settled e = false
     /\ begin l k now = (expire l now, Begin_Pending))
  \/ (entries (expire l now) !! k = None /\ begin l k now = (expire l now, Begin_Full)
      /\ (LEDGER_LIMIT <= size (entries (expire l now)))%nat
      /\ forall k' e, entries (expire l now) !! k' = Some e -> is_settled e = false)
  \/ (exists l', entries (expire l now) !! k = None /\ begin l k now = claim l' k now
      /\ wf l' /\ entries l' !! k = None /\ (size (entries l') < LEDGER_LIMIT)%nat
      /\ next_token l' = next_token l /\ action_deadline l' = action_deadline l
      /\ (entries l' = entries (expire l now)
          \/ exists k' e', entries (expire l now) !! k' = Some e' /\ is_settled e' = true
               /\ entries l' = delete k' (entries (expire l now))
               /\ (LEDGER_LIMIT <= size (entries (expire l now)))%nat)).
Proof.
  intros Hwf%(wf_expire l now). unfold begin.
  assert (next_token (expire l now) = next_token l) as Ht by done.
  assert (action_deadline (expire l now) = action_deadline l) as Hd by done.
  set (l0 := expire l now) in *. clearbody l0.
  destruct (entries l0 !! k) as [[[|r|] tok ex]|] eqn:He; cbn [fmap option_fmap option_map entry_state].
  - right; left. eexists. split_and!; [done|done|done].
  - left. eexists _, r. split_and!; done.
  - right; left. eexists. split_and!; [done|done|done].
  - right; right. case_bool_decide as Hsz.
    + destruct (evict_spec l0 Hwf) as [(k' & e' & Hk' & Hset & Hent & Hev & Hnt & Had & Hwf')|[-> Hall]].
      * destruct (evict_oldest_settled l0) as [l' ev]. cbn in *. subst ev.
        right. exists l'. split_and!; try congruence.
        -- by rewrite Hent, lookup_delete_None; right.
        -- rewrite Hent, map_size_delete, Hk'. destruct Hwf as [_ _ Hle].
           assert (size (entries l0) ≠ 0)%nat.
           { rewrite map_size_ne_0_lookup. eauto. }
           lia.
        -- right. exists k', e'. done.
      * left. done.
    + right. exists l0. split_and!; try done; [lia|by left].
Qed.

Lemma wf_begin l k now : wf l -> wf (begin l k now).1.
Proof.
  intros Hwf. pose proof (wf_expire l now Hwf).
  destruct (begin_cases l k now Hwf)
    as [(? & ? & _ & _ & ->)|[(? & _ & _ & ->)|[(_ & -> & _)|(l' & _ & -> & ? & ? & ? & _)]]];
    try done. by apply wf_claim.
Qed.

Lemma wf_remove l k : wf l -> wf (remove l k).
Proof.
  intros [Hn Ho Hs]. split; cbn.
  - by apply NoDup_List_filter.
  - intros k'. rewrite elem_of_List_filter, Ho, lookup_delete_is_Some, negb_true_iff,
      bool_decide_eq_false. naive_solver.
  - rewrite map_size_delete. destruct (entries l !! k); unfold id; lia.
Qed.

Lemma ledger_wf_overwrite l k e e' :
  wf l -> entries l !! k = Some e -> wf (l <| entries ::= insert k e' |>).
Proof.
  intros [Hn Ho Hs] He. split; cbn.
  - done.
  - intros k'. rewrite Ho. destruct (decide (k' = k)) as [->|].
    + rewrite lookup_insert_eq, He. split; eauto.
    + by rewrite lookup_insert_ne.
  - rewrite map_size_insert, He. done.
Qed.

Lemma wf_finish l k tok out now : wf l -> wf (finish l k tok out now).
Proof.
  intros Hwf. unfold finish. destruct (entries l !! k) as [e|] eqn:He; [|done].
  destruct (negb (token e =? tok)); [done|].
  destruct out as [r|[]]; eauto using ledger_wf_overwrite, wf_remove.
Qed.

Lemma wf_step l op : wf l -> wf (ledger_step l op).1.
Proof.
  intros Hwf. destruct op as [k now|k tok out now]; cbn; [|by apply wf_finish].
  pose proof (wf_begin l k now Hwf). by destruct (begin l k now).
Qed.

Lemma wf_run l ops : wf l -> wf (run ledger_step l ops).1.
Proof. apply run_invariant, wf_step. Qed.

Lemma ledger_wf_new deadline : wf (new deadline).
Proof.
  split; cbn; [constructor| |].
  - intros k. rewrite lookup_empty, elem_of_nil, is_Some_alt. done.
  - rewrite map_size_empty. unfold LEDGER_LIMIT. lia.
Qed.

(** the ledger is bounded and consistent in every reachable state: it remembers at most
    128 requests, its queue lists exactly the remembered keys, each once, and an expired entry
    is never consulted: a begun request only meets entries that have not reached their
    deadline. *)
Theorem ledger_bounded deadline (ops : list (LedgerOp Response)) k now :
  let l := (run ledger_step (new deadline) ops).1 in
  (size (entries l) <= LEDGER_LIMIT)%nat /\ NoDup (order l)
  /\ (forall k', k' ∈ order l <-> is_Some (entries l !! k'))
  /\ forall k' e, entries (begin l k now).1 !! k' = Some e -> k' <> k -> now < expires_at e.
Proof.
  intros l. pose proof (wf_run (new deadline) ops (ledger_wf_new deadline)) as Hwf.
  split_and!; try apply Hwf. intros k' e He Hne.
  assert (entries (expire l now) !! k' = Some e) as [_ ?]%expire_lookup; [|done].
  destruct (begin_cases l k now Hwf)
    as [(? & ? & _ & _ & Hb)|[(? & _ & _ & Hb)|[(_ & Hb & _)|(l' & _ & Hb & _ & _ & _ & _ & _ & Hl)]]];
    rewrite Hb in He; cbn in He; [done..|].
  rewrite lookup_insert_ne in He by done.
  destruct Hl as [Hl|(k1 & e1 & _ & _ & Hl & _)]; rewrite Hl in He; [done|].
  by apply lookup_delete_Some in He as [_ ?].
Qed.

(** ** What [begin] answers *)

(** [begin] decides by what is remembered and not expired: a settled request is replayed
    with its own response, a running or ambiguous one is refused; otherwise the request is
    claimed with a fresh token until its action's deadline and the retention time have passed,
    forgetting at most one request, a settled one, and that only at the bound; it is refused
    for capacity exactly when the bound is reached and no remembered request is settled. *)
Theorem begin_decides l k now (Hwf : wf l) :
  let live := entries (expire l now) in
  let l' := (begin l k now).1 in
  match (begin l k now).2 with
  | Begin_Replay r => exists e, live !! k = Some e /\ entry_state e = Entry_Settled r
  | Begin_Pending => exists e, live !! k = Some e /\ is_settled e = false
  | Begin_Full =>
      live !! k = None /\ (LEDGER_LIMIT <= size live)%nat
      /\ forall k' e, live !! k' = Some e -> is_settled e = false
  | Begin_Fresh tok =>
      live !! k = None /\ tok = next_token l
      /\ entries l' !! k
         = Some {| entry_state := Entry_Running; token := tok;
                   expires_at := now + action_deadline l + LEDGER_TTL |}
      /\ ((size live < LEDGER_LIMIT)%nat
          \/ exists k' e', live !! k' = Some e' /\ is_settled e' = true)
      /\ exists forgotten, (forall k', k' <> k -> k' <> forgotten -> entries l' !! k' = live !! k')
          /\ (live !! forgotten = None \/ (LEDGER_LIMIT <= size live)%nat
                /\ exists e, live !! forgotten = Some e /\ is_settled e = true)
  end.
Proof.
  intros live l'. subst l'. pose proof (begin_cases l k now Hwf) as Hcases.
  fold live in Hcases. clearbody live.
  destruct Hcases
    as [(e & r & He & Hs & ->)|[(e & He & Hs & ->)|[(He & -> & Hf)
       |(l1 & He & -> & Hwf1 & Hk1 & Hsz & Ht & Hd & Hl)]]]; cbn [fst snd]; [by eauto..|by eauto|].
  unfold claim. cbn. rewrite Ht, Hd, lookup_insert_eq. split_and!; try done.
  - destruct Hl as [Hl|(k' & e' & Hk' & Hs' & _)]; [left; by rewrite <-Hl|right; by eauto].
  - destruct Hl as [Hl|(k' & e' & Hk' & Hs' & Hl & Hfull)].
    + exists k. split; [|by left]. intros k' Hne _. rewrite lookup_insert_ne by done. by rewrite Hl.
    + exists k'. split; [|by right; eauto]. intros k2 Hne Hne'.
      rewrite lookup_insert_ne, Hl, lookup_delete_ne by congruence. done.
Qed.

(** ** A claim holds its key *)

(** One operation keeps an unsettled entry until it expires or its own token settles it. *)
Lemma held_step l op k e :
  wf l -> entries l !! k = Some e -> is_settled e = false -> op_time op < expires_at e ->
  (forall out now, op <> OpFinish k (token e) out now) ->
  entries (ledger_step l op).1 !! k = Some e.
Proof.
  intros Hwf He Hs Ht Hop. destruct op as [k' now|k' tok out now]; cbn [op_time] in Ht; cbn.
  - assert (entries (expire l now) !! k = Some e) as Hx by (by apply expire_lookup).
    destruct (begin_cases l k' now Hwf)
      as [(? & ? & _ & _ & ->)|[(? & _ & _ & ->)|[(_ & -> & _)|(l' & Hk' & -> & _ & Hn & _ & _ & _ & Hl)]]];
      [done..|]. cbn.
    assert (k' <> k) by (intros ->; congruence).
    rewrite lookup_insert_ne by done.
    destruct Hl as [->|(k1 & e1 & Hk1 & Hs1 & -> & _)]; [done|].
    rewrite lookup_delete_ne; [done|]. intros ->. congruence.
  - unfold finish. destruct (decide (k' = k)) as [->|Hne].
    + rewrite He. destruct (Z.eqb_spec (token e) tok) as [<-|]; [|done].
      by destruct (Hop out now).
    + destruct (entries l !! k') as [e'|]; [|done]. destruct (negb _); [done|].
      destruct out as [r|[]]; cbn; by rewrite ?lookup_insert_ne, ?lookup_delete_ne by done.
Qed.

(** an unsettled claim is exclusive: from the moment a request is claimed, or ended
    ambiguously, until its entry expires, every repeat of it is refused, whatever other
    requests come, settle, are evicted or present stale tokens meanwhile, unless the claim's own
    action settles it.  So a retry never acts while the first attempt may still act. *)
Theorem unsettled_claim_is_exclusive l k e ops now
    (Hwf : wf l)
    (He : entries l !! k = Some e)
    (Hunsettled : is_settled e = false)
    (Htimes : Forall (fun op => op_time op < expires_at e) ops)
    (Hnow : now < expires_at e)
    (Hown : Forall (fun op => forall out t, op <> OpFinish k (token e) out t) ops) :
  (begin (run ledger_step l ops).1 k now).2 = Begin_Pending.
Proof.
  revert l Hwf He. induction ops as [|op ops IH]; intros l Hwf He.
  - cbn. destruct (begin_cases l k now Hwf)
      as [(e' & r & H & Hr & _)|[(? & _ & _ & ->)|[(H & _)|(l' & H & _)]]]; [|done|..];
      rewrite (proj2 (expire_lookup l now k e)) in H by done; [|done..].
    injection H as <-. unfold is_settled in Hunsettled. by rewrite Hr in Hunsettled.
  - apply Forall_cons in Htimes as [Ht Htimes], Hown as [Ho Hown].
    rewrite run_cons. apply IH; auto using wf_step, held_step.
Qed.

(** a failure that submitted nothing frees its key at once: once the claim's own action
    reports any failure but [Unavailable], the next repeat is claimed again, whatever the load
    of the ledger and however soon it comes. *)
Theorem failed_action_frees_key l k e failure now now'
    (Hwf : wf l)
    (He : entries l !! k = Some e)
    (Hf : failure <> Unavailable) :
  exists tok, (begin (finish l k (token e) (inr failure) now) k now').2 = Begin_Fresh tok.
Proof.
  assert (finish l k (token e) (inr failure) now = remove l k) as ->.
  { unfold finish. rewrite He, Z.eqb_refl. cbn. by destruct failure. }
  pose proof (wf_remove l k Hwf) as Hwf'.
  assert (entries (remove l k) !! k = None) as Hk by (apply lookup_delete_eq).
  assert (size (entries (expire (remove l k) now')) < LEDGER_LIMIT)%nat as Hsz.
  { eapply Nat.le_lt_trans; [apply map_subseteq_size, map_filter_subseteq|].
    change (entries (remove l k)) with (delete k (entries l)).
    rewrite map_size_delete, He. destruct Hwf as [_ _ Hs].
    assert (size (entries l) ≠ 0)%nat by (rewrite map_size_ne_0_lookup; eauto). lia. }
  destruct (begin_cases (remove l k) k now' Hwf')
    as [(e' & r & [H _]%expire_lookup & _)|[(e' & [H _]%expire_lookup & _)|[(_ & _ & H & _)|(l' & _ & -> & _)]]];
    [congruence..|lia|]. by eexists.
Qed.

(** ** Replays *)

(** Every settled entry was settled by a reported success of its key, within the retention. *)
Definition settlements_recorded (past : list (LedgerOp Response)) l : Prop :=
  forall k e r, entries l !! k = Some e -> entry_state e = Entry_Settled r ->
    exists tok now, OpFinish k tok (inl r) now ∈ past /\ expires_at e = now + LEDGER_TTL.

Lemma settlements_step past l op :
  wf l -> settlements_recorded past l ->
  settlements_recorded (past ++ [op]) (ledger_step l op).1.
Proof.
  intros Hwf Hrec.
  assert (settlements_recorded (past ++ [op]) l) as Hrec'.
  { intros k e r He Hs. destruct (Hrec k e r He Hs) as (tok & now & ? & ?).
    exists tok, now. rewrite elem_of_app. auto. }
  destruct op as [k' now|k' tok out now]; cbn; intros k e r He Hs.
  - assert (entries (expire l now) !! k = Some e) as [He' _]%expire_lookup; [|by eapply Hrec'].
    destruct (begin_cases l k' now Hwf)
      as [(? & ? & _ & _ & Hb)|[(? & _ & _ & Hb)|[(_ & Hb & _)|(l' & _ & Hb & _ & _ & _ & _ & _ & Hl)]]];
      rewrite Hb in He; cbn in He; [done..|].
    apply lookup_insert_Some in He as [[_ <-]|[_ He]]; [done|].
    destruct Hl as [Hl|(k1 & e1 & _ & _ & Hl & _)]; rewrite Hl in He; [done|].
    by apply lookup_delete_Some in He as [_ ?].
  - unfold finish in He. destruct (entries l !! k') as [e'|] eqn:He'; [|by eapply Hrec'].
    destruct (negb (token e' =? tok)); [by eapply Hrec'|].
    destruct out as [r'|[]]; cbn in He;
      try (apply lookup_delete_Some in He as [_ ?]; by eapply Hrec');
      (apply lookup_insert_Some in He as [[<- <-]|[_ ?]]; [|by eapply Hrec']); cbn in Hs; simplify_eq.
    exists tok, now. rewrite elem_of_app. split; [right; constructor|done].
Qed.

(** a replay is genuine: along every run of the ledger, a repeat is only answered with a
    response that an earlier action of that very key reported as its success, and only within
    the retention time after that report. *)
Theorem replay_is_genuine deadline (ops : list (LedgerOp Response)) k now r
    (Hreplay : (begin (run ledger_step (new deadline) ops).1 k now).2 = Begin_Replay r) :
  exists tok settled_at, OpFinish k tok (inl r) settled_at ∈ ops /\ now < settled_at + LEDGER_TTL.
Proof.
  set (l := (run ledger_step (new deadline) ops).1) in *.
  assert (wf l /\ settlements_recorded ops l) as [Hwf Hrec].
  { subst l. clear Hreplay. induction ops as [|op ops IH] using rev_ind.
    - split; [apply ledger_wf_new|]. intros ? ? ? H. cbn in H. by rewrite lookup_empty in H.
    - rewrite run_app. destruct IH as [Hwf Hrec]. rewrite run_cons. cbn [run fst].
      split; [by apply wf_step|by apply settlements_step]. }
  destruct (begin_cases l k now Hwf)
    as [(e & r' & [He Ht]%expire_lookup & Hs & Hb)|[(? & _ & _ & Hb)|[(_ & Hb & _)|(l' & _ & Hb & _)]]];
    rewrite Hb in Hreplay; cbn in Hreplay; simplify_eq.
  destruct (Hrec k e r He Hs) as (tok & at_ & Hin & Hex). exists tok, at_. split; [done|lia].
Qed.

(** a request that finds no slot leaves no claim behind: [admit] answers it with
    [Capacity] and its key is free again, while a replay or a refusal of a repeated request does
    not depend on the slots. *)
Theorem admission_without_slot (Formatting : Type) l (request : @DirectMessageRequest Formatting)
    k now (Hwf : wf l) (Hk : for_request request = Some k) :
  let without := admit_request l false request now in
  let with_slot := admit_request l true request now in
  match (begin l k now).2 with
  | Begin_Fresh tok =>
      with_slot = ((begin l k now).1, inl (Some (k, tok)))
      /\ without.2 = inr (inr Capacity) /\ entries without.1 !! k = None
  | Begin_Replay r => without = with_slot /\ without.2 = inr (inl r)
  | Begin_Pending => without = with_slot /\ without.2 = inr (inr DuplicatePending)
  | Begin_Full => without = with_slot /\ without.2 = inr (inr Capacity)
  end.
Proof.
  intros without with_slot. subst without with_slot. unfold admit_request. rewrite Hk.
  pose proof (begin_decides l k now Hwf) as Hb.
  destruct (begin l k now) as [l' []]; cbn [fst snd] in *; try done.
  destruct Hb as (_ & _ & He & _). split_and!; [done|done|].
  unfold finish. rewrite He. cbn. rewrite Z.eqb_refl. cbn. apply lookup_delete_eq.
Qed.

End ledger_props.

(** ** Concrete runs *)

Definition edit_key : DirectActionKey :=
  {| client := "assistant"; kind := Action_Edit; room_id := "!r:example.org";
     target_event_id := "$e"; client_request_id := "1" |}.
Definition other_key : DirectActionKey :=
  {| client := "assistant"; kind := Action_ThreadReply; room_id := "!r:example.org";
     target_event_id := "$e"; client_request_id := "2" |}.
Definition edit_request : DirectMessageRequest bool :=
  Request_Edit "!r:example.org" "$e" "new text" true
    (Some {| retry_client := "assistant"; retry_client_request_id := "1" |}).

Definition claimed : DirectActionLedger string := (begin (new 45000) edit_key 0).1.

Lemma wf_claimed : wf claimed.
Proof. apply wf_begin, ledger_wf_new. Defined.

Definition running_entry : @Entry string :=
  {| entry_state := Entry_Running; token := 0; expires_at := 645000 |}.

Lemma begin_decides_witness :
  exists e, entries (expire claimed 10) !! edit_key = Some e /\ is_settled e = false.
Proof. exact (begin_decides claimed edit_key 10 wf_claimed). Defined.

Lemma unsettled_claim_is_exclusive_witness :
  (begin (run ledger_step claimed [OpBegin other_key 20; OpFinish other_key 1 (inl "done") 30]).1
     edit_key 600000).2 = Begin_Pending.
Proof.
  apply (unsettled_claim_is_exclusive claimed edit_key running_entry);
    [exact wf_claimed|reflexivity|reflexivity| |reflexivity|]; repeat constructor; discriminate.
Defined.

Lemma failed_action_frees_key_witness :
  exists tok, (begin (finish claimed edit_key 0 (inr EventNotFound) 10) edit_key 11).2
    = Begin_Fresh tok.
Proof.
  apply (failed_action_frees_key claimed edit_key running_entry EventNotFound);
    [exact wf_claimed|reflexivity|discriminate].
Defined.

Lemma replay_is_genuine_witness :
  exists tok settled_at,
    OpFinish edit_key tok (inl "done") settled_at
      ∈ [OpBegin edit_key 0; OpFinish edit_key 0 (inl "done") 10]
    /\ 20 < settled_at + LEDGER_TTL.
Proof.
  apply (replay_is_genuine 45000 [OpBegin edit_key 0; OpFinish edit_key 0 (inl "done") 10]).
  reflexivity.
Defined.

Lemma admission_without_slot_witness :
  (admit_request claimed false edit_request 10).2 = inr (inr DuplicatePending).
Proof.
  exact (proj2 (admission_without_slot bool claimed edit_request edit_key 10 wf_claimed
                  ltac:(reflexivity))).
Defined.
