(* ===== verification/Grants.v ===== *)
(** The grant store of the MCP host ([crates/koushi-mcp-host/src/grants.rs]): which
    permissions each assistant holds for each account, how they are changed, and how they are
    read from and written to [mcp/connections.json].

    A JSON value is an inductive type and a JSON object a finite map; parsing and printing the
    bytes of a value are [serde_json]'s and parameters here. *)

From stdpp Require Import base list strings gmap fin_maps.
From Stdlib Require Import ZArith Lia.
From S2P Require Import Prelude.
Local Open Scope string_scope.
Local Open Scope list_scope.
Local Open Scope Z_scope.
Local Set Warnings "-clear-no-such-hyp,-register-all".

(** ** JSON values *)

(** [serde_json::Number]: a [u64], a negative [i64], or a finite float. *)
Inductive JsonNumber := PosInt (n : Z) | NegInt (n : Z) | Float (digits : string).

Inductive Value :=
  | Null
  | Bool (b : bool)
  | Number (n : JsonNumber)
  | Str (s : string)
  | Array (l : list Value)
  | Object (m : gmap string Value).

(** [Value::as_u64] *)
Definition as_u64 (v : Value) : option Z :=
  match v with Number (PosInt n) => Some n | _ => None end.

(** ** The store *)

Definition SCHEMA : Z := 3.

Inductive Need := Need_Read | Need_Send | Need_Attachments | Need_MessageActions | Need_Draft.

#[export] Instance Need_eq : EqDecision Need. Proof. solve_decision. Defined.

(** [Need::ALL] *)
Definition Need_ALL : list Need :=
  [Need_Read; Need_Send; Need_Attachments; Need_MessageActions; Need_Draft].

Definition field (n : Need) : string :=
  match n with
  | Need_Read => "read" | Need_Send => "send" | Need_Attachments => "attachments"
  | Need_MessageActions => "message_actions" | Need_Draft => "draft"
  end.

Inductive StoreStatus :=
  | Status_Ok | Status_Missing | Status_Malformed | Status_Unreadable
  | Status_UnsupportedSchema | Status_WriteFailed.

Record AccountGrant := {
  account_id : string; read : bool; send : bool; attachments : bool; message_actions : bool;
  draft : bool; account_extra : gmap string Value }.

Definition grant_allows (g : AccountGrant) (n : Need) : bool :=
  match n with
  | Need_Read => read g | Need_Send => send g | Need_Attachments => attachments g
  | Need_MessageActions => message_actions g | Need_Draft => draft g
  end.

#[export] Instance Updatable_grant : Updatable AccountGrant := fun g =>
  {| account_id := account_id g; read := read g; send := send g; attachments := attachments g;
     message_actions := message_actions g; draft := draft g; account_extra := account_extra g |}.

Definition grant_set (g : AccountGrant) (n : Need) (allowed : bool) : AccountGrant :=
  match n with
  | Need_Read => g <| read := allowed |>
  | Need_Send => g <| send := allowed |>
  | Need_Attachments => g <| attachments := allowed |>
  | Need_MessageActions => g <| message_actions := allowed |>
  | Need_Draft => g <| draft := allowed |>
  end.

(** [AccountGrant { account_id, ..AccountGrant::default() }] *)
Definition grant_default (id : string) : AccountGrant :=
  {| account_id := id; read := false; send := false; attachments := false;
     message_actions := false; draft := false; account_extra := ∅ |}.

Record ClientGrant := {
  client_name : string; accounts : list AccountGrant; client_extra : gmap string Value }.

#[export] Instance Updatable_client : Updatable ClientGrant := fun g =>
  {| client_name := client_name g; accounts := accounts g; client_extra := client_extra g |}.

Inductive Entry :=
  | Client (g : ClientGrant)
  | Raw (v : Value).

Record Store := { entries : list Entry; store_extra : gmap string Value }.

#[export] Instance Updatable_store : Updatable Store := fun s =>
  {| entries := entries s; store_extra := store_extra s |}.

(** [Store::default()] *)
Definition Store_default : Store := {| entries := []; store_extra := ∅ |}.

(** ** Queries and changes *)

Definition clients (s : Store) : list ClientGrant :=
  omap (fun e => match e with Client g => Some g | Raw _ => None end) (entries s).

Definition store_client (s : Store) (name : string) : option ClientGrant :=
  find_first (fun g => bool_decide (client_name g = name)) (clients s).

Definition store_account (s : Store) (name id : string) : option AccountGrant :=
  g ← store_client s name;
  find_first (fun a => bool_decide (account_id a = id)) (accounts g).

Definition allows (s : Store) (name id : string) (n : Need) : bool :=
  is_some_and (store_account s name id) (fun g => grant_allows g n).

(** [matches!(entry, Entry::Client(grant) if grant.client_name == client_name)] *)
Definition entry_named (name : string) (e : Entry) : bool :=
  match e with Client g => bool_decide (client_name g = name) | Raw _ => false end.

(** The second half of [set]: the account's flag, in a new row if there is none. *)
Definition set_account (g : ClientGrant) (id : string) (n : Need) (allowed : bool) : ClientGrant :=
  let p := fun a => bool_decide (account_id a = id) in
  match find_first p (accounts g) with
  | Some _ => g <| accounts ::= update_first p (fun a => grant_set a n allowed) |>
  | None => g <| accounts ::= fun l => l ++ [grant_set (grant_default id) n allowed] |>
  end.

Definition set (s : Store) (name id : string) (n : Need) (allowed : bool) : Store :=
  let s :=
    match position (entry_named name) (entries s) with
    | Some _ => s
    | None => s <| entries ::= fun l =>
                  l ++ [Client {| client_name := name; accounts := []; client_extra := ∅ |}] |>
    end in
  s <| entries ::= update_first (entry_named name)
         (fun e => match e with
                   | Client g => Client (set_account g id n allowed)
                   | Raw v => Raw v
                   end) |>.

Definition remove (s : Store) (name : string) : Store * bool :=
  let kept := List.filter (fun e => negb (entry_named name e)) (entries s) in
  (s <| entries := kept |>, negb (bool_decide (length (entries s) = length kept))).

(** ** Writing *)

Definition account_json (a : AccountGrant) : Value :=
  Object (foldl (fun m n => <[field n := Bool (grant_allows a n)]> m)
            (<["account_id" := Str (account_id a)]> (account_extra a)) Need_ALL).

Definition entry_json (e : Entry) : Value :=
  match e with
  | Raw v => v
  | Client g =>
      Object (<["accounts" := Array (account_json <$> accounts g)]>
                (<["client_name" := Str (client_name g)]> (client_extra g)))
  end.

Definition to_json (s : Store) : Value :=
  Object (<["connections" := Array (entry_json <$> entries s)]>
            (<["schema" := Number (PosInt SCHEMA)]> (store_extra s))).

(** ** Reading *)

(** [take_flag]: the flag and the object without it; [None] is the error. *)
Definition take_flag (m : gmap string Value) (key : string) : option (bool * gmap string Value) :=
  match m !! key with
  | None => Some (false, delete key m)
  | Some (Bool flag) => Some (flag, delete key m)
  | Some _ => None
  end.

(** [take_name]: a name that is not blank, and the object without it. *)
Definition take_name (m : gmap string Value) : option (string * gmap string Value) :=
  match m !! "client_name" with
  | Some (Str name) =>
      if negb (trim_is_empty name) then Some (name, delete "client_name" m) else None
  | _ => None
  end.

(** [object.remove(key)] of an array, absent being empty; [None] is the error. *)
Definition take_array (m : gmap string Value) (key : string)
  : option (list Value * gmap string Value) :=
  match m !! key with
  | None => Some ([], delete key m)
  | Some (Array l) => Some (l, delete key m)
  | Some _ => None
  end.

(** The account loop of [parse_v1]. *)
Fixpoint v1_accounts (read send attachments : bool) (seen : list AccountGrant) (ids : list Value)
  : option (list AccountGrant) :=
  match ids with
  | [] => Some seen
  | Str id :: ids =>
      if trim_is_empty id || existsb (fun a => bool_decide (account_id a = id)) seen
      then v1_accounts read send attachments seen ids
      else v1_accounts read send attachments
             (seen ++ [{| account_id := id; read := read; send := send;
                          attachments := attachments; message_actions := false; draft := false;
                          account_extra := ∅ |}]) ids
  | _ :: _ => None
  end.

Definition parse_v1 (v : Value) : option Entry :=
  match v with
  | Object m =>
      match take_name m with
      | None => Some (Raw (Object m))
      | Some (name, m) =>
          '(ids, m) ← take_array m "accounts";
          '(r, m) ← take_flag m "allow_read";
          '(s, m) ← take_flag m "allow_send";
          '(a, m) ← take_flag m "allow_attachments";
          accounts ← v1_accounts r s a [] ids;
          Some (Client {| client_name := name; accounts := accounts; client_extra := m |})
      end
  | _ => None
  end.

Definition parse_row (v : Value) : option AccountGrant :=
  match v with
  | Object m =>
      match m !! "account_id" with
      | Some (Str id) =>
          let m := delete "account_id" m in
          '(r, m) ← take_flag m "read";
          '(s, m) ← take_flag m "send";
          '(a, m) ← take_flag m "attachments";
          '(ma, m) ← take_flag m "message_actions";
          '(d, m) ← take_flag m "draft";
          Some {| account_id := id; read := r; send := s; attachments := a;
                  message_actions := ma; draft := d; account_extra := m |}
      | _ => None
      end
  | _ => None
  end.

Definition parse_v2 (v : Value) : option Entry :=
  match v with
  | Object m =>
      match take_name m with
      | None => Some (Raw (Object m))
      | Some (name, m) =>
          '(rows, m) ← take_array m "accounts";
          accounts ← mapM parse_row rows;
          Some (Client {| client_name := name; accounts := accounts; client_extra := m |})
      end
  | _ => None
  end.

Record Loaded := { status : StoreStatus; store : Store }.

Definition failed (st : StoreStatus) : Loaded := {| status := st; store := Store_default |}.

Definition writable (l : Loaded) : bool :=
  match status l with Status_Ok | Status_Missing => true | _ => false end.

(** [load], from the parsed value on; [None] is a file that is not JSON. *)
Definition load_value (v : option Value) : Loaded :=
  match v with
  | Some (Object root) =>
      match (match root !! "schema" with None => Some 1 | Some v => as_u64 v end) with
      | None => failed Status_Malformed
      | Some schema =>
          let root := delete "schema" root in
          if negb ((1 <=? schema) && (schema <=? SCHEMA)) then failed Status_UnsupportedSchema
          else
            match take_array root "connections" with
            | None => failed Status_Malformed
            | Some (connections, root) =>
                match mapM (if schema =? 1 then parse_v1 else parse_v2) connections with
                | None => failed Status_Malformed
                | Some entries =>
                    {| status := Status_Ok;
                       store := {| entries := entries; store_extra := root |} |}
                end
            end
      end
  | _ => failed Status_Malformed
  end.

(** What [std::fs::read] of the file gives. *)
Inductive FileRead := File_NotFound | File_Error | File_Bytes (bytes : list Z).

Section files.
(** [serde_json::from_slice] and [serde_json::to_vec_pretty] *)
Context (from_slice : list Z -> option Value) (to_vec_pretty : Value -> list Z).

Definition load (file : FileRead) : Loaded :=
  match file with
  | File_NotFound => {| status := Status_Missing; store := Store_default |}
  | File_Error => failed Status_Unreadable
  | File_Bytes bytes => load_value (from_slice bytes)
  end.

(** The bytes [save] writes: the printed value and a newline. *)
Definition saved_bytes (s : Store) : list Z := to_vec_pretty (to_json s) ++ [10].

(** [ConsentBroker::write_store] ([consent.rs]): the file afterwards, and the store that was written
    or why none was.  [saved] is whether the temporary file could be written and renamed. *)
Definition write_store (change : Store -> Store) (saved : bool) (file : FileRead)
    : FileRead * (Store + StoreStatus) :=
  let loaded := load file in
  if negb (writable loaded) then (file, inr (status loaded))
  else
    let s := change (store loaded) in
    if saved then (File_Bytes (saved_bytes s), inl s) else (file, inr Status_WriteFailed).

End files.

(** ** Permission changes *)

Lemma grant_set_allows g n b n' :
  grant_allows (grant_set g n b) n' = if decide (n' = n) then b else grant_allows g n'.
Proof. destruct n, n'; done. Qed.

Lemma grant_set_id g n b : account_id (grant_set g n b) = account_id g.
Proof. by destruct n. Qed.

(** [find_first] through an update of the first match, and through an append. *)
Lemma find_first_update_first {A} (p : A -> bool) f l :
  (forall x, p (f x) = p x) -> find_first p (update_first p f l) = f <$> find_first p l.
Proof.
  intros Hf. induction l as [|x l IH]; [done|]. cbn.
  destruct (p x) eqn:E; cbn; [by rewrite Hf, E|by rewrite E, IH].
Qed.

Lemma find_first_update_other {A} (p q : A -> bool) f l :
  (forall x, q x = true -> p x = false /\ p (f x) = false) ->
  find_first p (update_first q f l) = find_first p l.
Proof.
  intros Hf. induction l as [|x l IH]; [done|]. cbn.
  destruct (q x) eqn:E; cbn; [|by rewrite IH]. destruct (Hf x E) as [-> ->]. done.
Qed.

Lemma find_first_app {A} (p : A -> bool) l1 l2 :
  find_first p (l1 ++ l2) = match find_first p l1 with Some x => Some x | None => find_first p l2 end.
Proof. induction l1 as [|x l1 IH]; [done|]. cbn. by destruct (p x). Qed.

(** The account an assistant's row list has, after one flag was set. *)
Lemma set_account_spec g id n b id' :
  let find g := find_first (fun a => bool_decide (account_id a = id')) (accounts g) in
  find (set_account g id n b)
  = if decide (id' = id)
    then Some (grant_set (default (grant_default id) (find g)) n b)
    else find g.
Proof.
  intros find. subst find. unfold set_account.
  destruct (find_first (fun a => bool_decide (account_id a = id)) (accounts g)) as [a|] eqn:Hf; cbn.
  - case_decide as Hid.
    + subst id'. rewrite find_first_update_first, Hf; [done|].
      intros x. by rewrite grant_set_id.
    + apply find_first_update_other. intros x Hx%bool_decide_eq_true.
      rewrite grant_set_id, Hx. split; apply bool_decide_eq_false; congruence.
  - rewrite find_first_app. cbn. rewrite grant_set_id. cbn. case_decide as Hid.
    + subst id'. rewrite Hf. cbn. by rewrite bool_decide_eq_true_2.
    + rewrite bool_decide_eq_false_2 by congruence. by destruct (find_first (fun a => bool_decide (account_id a = id')) (accounts g)).
Qed.

(** The entry list seen through [client]. *)
Lemma store_client_entries s name :
  store_client s name
  = match find_first (entry_named name) (entries s) with Some (Client g) => Some g | _ => None end.
Proof.
  unfold store_client, clients. induction (entries s) as [|[g|v] l IH]; [done|..]; cbn; [|exact IH].
  case_bool_decide; [done|exact IH].
Qed.

Lemma entry_named_other name name' e :
  name' <> name -> entry_named name e = true -> entry_named name' e = false.
Proof.
  intros Hne. destruct e as [g|v]; [|done]. cbn. intros Hn%bool_decide_eq_true.
  apply bool_decide_eq_false. congruence.
Qed.

Lemma store_client_set s name id n b name' :
  store_client (set s name id n b) name'
  = if decide (name' = name)
    then Some (set_account (default {| client_name := name; accounts := []; client_extra := ∅ |}
                              (store_client s name)) id n b)
    else store_client s name'.
Proof.
  rewrite !store_client_entries. unfold set.
  set (f e := match e with Client g => Client (set_account g id n b) | Raw v => Raw v end).
  set (fresh := Client {| client_name := name; accounts := []; client_extra := ∅ |}).
  assert (forall e m, entry_named m (f e) = entry_named m e) as Hf.
  { intros [g|v] m; [|done]. cbn. unfold set_account. by case_match. }
  set (l := entries (match position (entry_named name) (entries s) with
                     | Some _ => s | None => s <| entries ::= fun l => l ++ [fresh] |> end)).
  assert (forall m, find_first (entry_named m) l
            = match find_first (entry_named m) (entries s) with
              | Some e => Some e
              | None => if decide (m = name) then Some fresh else None
              end) as Hl.
  { intros m. subst l. destruct (position (entry_named name) (entries s)) as [i|] eqn:Hi.
    - destruct (find_first (entry_named m) (entries s)) eqn:Hm; [done|].
      case_decide; [|done]. subst m. apply position_Some in Hi as (x & Hx & Hp & _).
      apply find_first_None in Hm. rewrite Forall_forall in Hm.
      by rewrite (Hm x) in Hp by (by eapply list_elem_of_lookup_2).
    - cbn. rewrite find_first_app. destruct (find_first (entry_named m) (entries s)); [done|].
      cbn. repeat case_decide; try done; case_bool_decide; congruence. }
  change (entries (_ <| entries ::= update_first (entry_named name) f |>))
    with (update_first (entry_named name) f l).
  case_decide as Hn.
  - subst name'. rewrite find_first_update_first, Hl by (intros; apply Hf).
    destruct (find_first (entry_named name) (entries s)) as [[g|v]|] eqn:He; cbn.
    + done.
    + apply find_first_elem in He as [_ He]. done.
    + rewrite decide_True by done. done.
  - rewrite find_first_update_other, Hl.
    + destruct (find_first (entry_named name') (entries s)); [done|]. by rewrite decide_False.
    + intros x Hx. rewrite Hf. split; by eapply entry_named_other.
Qed.

(** a permission change is exact: setting one flag of one assistant for one account
    changes that permission and no other, of any assistant, account or kind; and removing an
    assistant revokes all its permissions, leaves every other assistant's, and reports whether
    it had an entry. *)
Theorem permission_changes_are_exact s name id n b name' id' n' :
  allows (set s name id n b) name' id' n'
  = (if decide (name' = name /\ id' = id /\ n' = n) then b else allows s name' id' n')
  /\ allows (remove s name).1 name' id' n'
     = (if decide (name' = name) then false else allows s name' id' n')
  /\ (remove s name).2 = bool_decide (is_Some (store_client s name)).
Proof.
  assert (forall m, m <> name ->
    find_first (entry_named m) (List.filter (fun e => negb (entry_named name e)) (entries s))
    = find_first (entry_named m) (entries s)) as Hother.
  { intros m Hm. induction (entries s) as [|e l IH]; [done|]. cbn.
    destruct (entry_named name e) eqn:E; cbn; [|by rewrite IH].
    by rewrite (entry_named_other name m e Hm E). }
  split_and!.
  - unfold allows, store_account. rewrite store_client_set.
    destruct (decide (name' = name)) as [->|Hn].
    + cbn. rewrite set_account_spec. destruct (decide (id' = id)) as [->|Hid].
      * cbn. rewrite grant_set_allows. destruct (decide (n' = n)) as [->|Hneed].
        { by rewrite decide_True. }
        rewrite decide_False by tauto.
        destruct (store_client s name) as [g|]; cbn; [|by destruct n'].
        destruct (find_first _ (accounts g)); cbn; [done|by destruct n'].
      * rewrite decide_False by tauto. by destruct (store_client s name).
    + rewrite decide_False by tauto. done.
  - unfold allows, store_account. rewrite !store_client_entries. unfold remove. cbn [fst].
    change (entries (_ <| entries := ?l |>)) with l.
    destruct (decide (name' = name)) as [->|Hn]; [|by rewrite Hother].
    replace (find_first _ _) with (@None Entry); [done|]. symmetry. apply find_first_None.
    apply Forall_forall. intros e He. apply list_elem_of_In, filter_In in He as [_ He].
    by apply negb_true_iff in He.
  - unfold remove. cbn [snd]. rewrite store_client_entries.
    assert (forall l, length l = length (List.filter (fun e => negb (entry_named name e)) l)
              <-> find_first (entry_named name) l = None) as Hlen.
    { intros l. rewrite find_first_None. induction l as [|e l IH]; [by split|]. cbn.
      rewrite Forall_cons. destruct (entry_named name e); cbn; [|rewrite <-IH; intuition lia].
      pose proof (filter_length_le (fun e => negb (entry_named name e)) l).
      split; [lia|]. by intros [? _]. }
    specialize (Hlen (entries s)). case_bool_decide as Hb; cbn.
    + apply Hlen in Hb. rewrite Hb. done.
    + destruct (find_first (entry_named name) (entries s)) as [[g|v]|] eqn:He.
      * symmetry. apply bool_decide_eq_true. eauto.
      * by apply find_first_elem in He as [_ ?].
      * by destruct Hb; apply Hlen.
Qed.

(** ** Writing and reading back *)

Definition row_keys : list string := "account_id" :: (field <$> Need_ALL).

Record row_ok (a : AccountGrant) : Prop := {
  row_extra : Forall (fun k => account_extra a !! k = None) row_keys }.

Definition entry_ok (e : Entry) : Prop :=
  match e with
  | Client g =>
      trim_is_empty (client_name g) = false
      /\ client_extra g !! "client_name" = None /\ client_extra g !! "accounts" = None
      /\ Forall row_ok (accounts g)
  | Raw v => exists m, v = Object m /\ take_name m = None
  end.

Record store_ok (s : Store) : Prop := {
  ok_entries : Forall entry_ok (entries s);
  ok_schema : store_extra s !! "schema" = None;
  ok_connections : store_extra s !! "connections" = None }.

Lemma take_flag_Some m k b : m !! k = Some (Bool b) -> take_flag m k = Some (b, delete k m).
Proof. intros Hk. unfold take_flag. by rewrite Hk. Qed.

(** Look a literal key up, and delete it, in a chain of insertions of literal keys. *)
Ltac map_key :=
  repeat first [ rewrite lookup_insert_eq | rewrite lookup_insert_ne by done
               | rewrite lookup_delete_ne by done
               | rewrite delete_insert_eq | rewrite delete_insert_ne by done
               | rewrite delete_id by (rewrite ?lookup_delete_ne by done; assumption) ].

(** The object of a row, outermost key first. *)
Lemma account_json_object a :
  account_json a =
  Object (<["draft" := Bool (draft a)]> (<["message_actions" := Bool (message_actions a)]>
    (<["attachments" := Bool (attachments a)]> (<["send" := Bool (send a)]>
      (<["read" := Bool (read a)]> (<["account_id" := Str (account_id a)]> (account_extra a))))))).
Proof. reflexivity. Qed.

Lemma parse_row_json a : row_ok a -> parse_row (account_json a) = Some a.
Proof.
  intros [Hex]. repeat (apply Forall_cons in Hex as [? Hex]). rewrite account_json_object.
  destruct a as [id r se at_ ma d x].
  cbn [account_id read send attachments message_actions draft account_extra field] in *.
  unfold parse_row. map_key.
  do 5 (erewrite take_flag_Some by (map_key; reflexivity); cbn [mbind option_bind]).
  by map_key.
Qed.

Lemma mapM_fmap_id {A B} (f : A -> B) (g : B -> option A) l :
  (forall x, x ∈ l -> g (f x) = Some x) -> mapM g (f <$> l) = Some l.
Proof.
  induction l as [|x l IH]; intros H; [done|]. rewrite fmap_cons. cbn.
  rewrite H by constructor. cbn. rewrite IH by (intros; apply H; by constructor). done.
Qed.

Lemma parse_v2_json e : entry_ok e -> parse_v2 (entry_json e) = Some e.
Proof.
  destruct e as [[name l x]|v]; cbn [entry_ok entry_json client_name accounts client_extra].
  - intros (Hname & Hcn & Hacc & Hrows). unfold parse_v2, take_name. map_key.
    rewrite Hname. cbn [negb]. unfold take_array. map_key. cbn [mbind option_bind].
    rewrite mapM_fmap_id.
    + cbn. by map_key.
    + intros a Ha. apply parse_row_json. by eapply Forall_forall in Hrows.
  - intros (m & -> & Hm). unfold parse_v2. by rewrite Hm.
Qed.

Lemma load_to_json s :
  store_ok s -> load_value (Some (to_json s)) = {| status := Status_Ok; store := s |}.
Proof.
  intros [He Hs Hc]. unfold to_json, load_value. destruct s as [l x]. cbn in He, Hs, Hc |- *.
  map_key. cbn [as_u64]. change (negb ((1 <=? SCHEMA) && (SCHEMA <=? SCHEMA))) with false. cbn iota.
  unfold take_array. map_key. change (SCHEMA =? 1) with false. cbn iota.
  rewrite mapM_fmap_id; [done|]. intros e Hin. apply parse_v2_json. by eapply Forall_forall in He.
Qed.

(** *** What is read is well formed *)

Lemma take_flag_keeps m k b m' :
  take_flag m k = Some (b, m') -> m' = delete k m.
Proof. unfold take_flag. repeat case_match; by intros [= <- <-]. Qed.

Lemma v1_accounts_ok r s a seen ids l :
  v1_accounts r s a seen ids = Some l -> Forall row_ok seen -> Forall row_ok l.
Proof.
  revert seen; induction ids as [|v ids IH]; intros seen; cbn; [by intros [= ->]|].
  destruct v; try done. case_match; [apply IH|]. intros Hl Hseen. eapply IH; [exact Hl|].
  apply Forall_app. split; [done|]. constructor; [|constructor]. split. cbn.
  repeat constructor; apply lookup_empty.
Qed.

Lemma take_name_Some m name m' :
  take_name m = Some (name, m') -> trim_is_empty name = false /\ m' = delete "client_name" m
    /\ m !! "client_name" = Some (Str name).
Proof.
  unfold take_name. repeat case_match; try done. intros [= <- <-]. by split_guards.
Qed.

Lemma take_array_Some m k l m' :
  take_array m k = Some (l, m') -> m' = delete k m
    /\ (m !! k = Some (Array l) \/ (m !! k = None /\ l = [])).
Proof. unfold take_array. repeat case_match; intros [= <- <-]; auto. Qed.

Lemma parse_v1_ok v e : parse_v1 v = Some e -> entry_ok e.
Proof.
  unfold parse_v1. destruct v; try done.
  destruct (take_name m) as [[name m1]|] eqn:Hn; [|intros [= <-]; by eexists].
  intros H. do 4 (apply bind_Some in H as ([? ?] & ? & H)). apply bind_Some in H as (rows & Hl & H).
  injection H as <-. apply take_name_Some in Hn as (Hn & -> & _).
  repeat match goal with
  | H : take_flag _ _ = Some _ |- _ => apply take_flag_keeps in H; subst
  | H : take_array _ _ = Some _ |- _ => apply take_array_Some in H as [-> _]
  end.
  cbn. split_and!; [done| | |by eapply v1_accounts_ok];
    rewrite !lookup_delete_ne by done; [apply lookup_delete_eq|].
  apply lookup_delete_eq.
Qed.

Lemma parse_row_ok v a : parse_row v = Some a -> row_ok a.
Proof.
  unfold parse_row. destruct v; try done. destruct (m !! "account_id") as [[]|]; try done.
  intros H. repeat (apply bind_Some in H as ([? ?] & ? & H)). injection H as <-.
  repeat match goal with H : take_flag _ _ = Some _ |- _ => apply take_flag_keeps in H; subst end.
  split. cbn. repeat constructor; rewrite ?lookup_delete_ne by done; apply lookup_delete_eq.
Qed.

Lemma mapM_Forall {A B} (f : A -> option B) (P : B -> Prop) l k :
  (forall x y, f x = Some y -> P y) -> mapM f l = Some k -> Forall P k.
Proof.
  intros Hf Hk. apply mapM_Some_1 in Hk. induction Hk; constructor; eauto.
Qed.

Lemma parse_v2_ok v e : parse_v2 v = Some e -> entry_ok e.
Proof.
  unfold parse_v2. destruct v; try done.
  destruct (take_name m) as [[name m1]|] eqn:Hn; [|intros [= <-]; by eexists].
  intros H. apply bind_Some in H as ([rows m2] & Ha & H). apply bind_Some in H as (l & Hl & H).
  injection H as <-. apply take_name_Some in Hn as (Hn & -> & _).
  apply take_array_Some in Ha as [-> _]. cbn. split_and!; [done|..].
  - rewrite lookup_delete_ne by done. apply lookup_delete_eq.
  - apply lookup_delete_eq.
  - eapply mapM_Forall; [|exact Hl]. exact parse_row_ok.
Qed.

Lemma load_value_ok v : store_ok (store (load_value v)).
Proof.
  assert (store_ok Store_default) as Hdef by (split; [constructor|done|done]).
  unfold load_value. destruct v as [[]|]; try done.
  destruct (match m !! "schema" with None => Some 1 | Some v => as_u64 v end) as [schema|]; [|done].
  case_match; [done|].
  destruct (take_array (delete "schema" m) "connections") as [[l root]|] eqn:Ha; [|done].
  apply take_array_Some in Ha as [-> _].
  destruct (mapM _ l) as [k|] eqn:Hk; [|done]. split; cbn.
  - eapply mapM_Forall; [|exact Hk]. intros x y. case_match; [apply parse_v1_ok|apply parse_v2_ok].
  - rewrite lookup_delete_ne by done. apply lookup_delete_eq.
  - apply lookup_delete_eq.
Qed.

(** *** Changes keep it well formed *)

Inductive StoreOp :=
  | OpSet (name id : string) (n : Need) (allowed : bool)
  | OpRemove (name : string).

Definition store_step (s : Store) (op : StoreOp) : Store * list bool :=
  match op with
  | OpSet name id n b => (set s name id n b, [])
  | OpRemove name => let '(s, found) := remove s name in (s, [found])
  end.

(** The host only sets permissions of assistants whose name is not blank. *)
Definition named (op : StoreOp) : Prop :=
  match op with OpSet name _ _ _ => trim_is_empty name = false | OpRemove _ => True end.

Lemma row_ok_set a n b : row_ok a -> row_ok (grant_set a n b).
Proof. intros [H]. split. by destruct n. Qed.

Lemma row_ok_default id : row_ok (grant_default id).
Proof. split. cbn. repeat constructor; apply lookup_empty. Qed.

Lemma entry_ok_set_account g id n b : entry_ok (Client g) -> entry_ok (Client (set_account g id n b)).
Proof.
  intros (? & ? & ? & Hr). unfold set_account. case_match; cbn; split_and!; try done.
  - apply Forall_update_first; [|done]. intros; by apply row_ok_set.
  - apply Forall_app. split; [done|]. constructor; [|constructor].
    apply row_ok_set, row_ok_default.
Qed.

Lemma store_ok_step s op : named op -> store_ok s -> store_ok (store_step s op).1.
Proof.
  intros Hop [He Hs Hc]. destruct op as [name id n b|name]; cbn in Hop |- *.
  - assert (forall l, Forall entry_ok l -> Forall entry_ok
      (update_first (entry_named name)
         (fun e => match e with Client g => Client (set_account g id n b) | Raw v => Raw v end) l))
      as Hup.
    { intros l. apply Forall_update_first. intros [g|v] Hx _; [|done]. by apply entry_ok_set_account. }
    unfold set. case_match; split; try done; apply Hup; [done|].
    apply Forall_app. split; [done|]. constructor; [|constructor]. cbn. split_and!; try done.
  - split; [|done..]. cbn. apply Forall_forall. intros e Hin.
    apply list_elem_of_In, filter_In in Hin as [Hin%list_elem_of_In _].
    by eapply Forall_forall in He.
Qed.

(** the file is lossless: whatever was read from disk, of any schema, and however it was
    changed since, the bytes the host writes read back as exactly the store in memory, with
    every permission and every unknown key a newer build or a person added; the one thing
    asked of [serde_json] is that it parses the value it printed, with a newline appended. *)
Theorem saved_store_loads_back from_slice to_vec_pretty v ops
    (Hnamed : Forall named ops)
    (s := (run store_step (store (load_value v)) ops).1)
    (Hserde : from_slice (saved_bytes to_vec_pretty s) = Some (to_json s)) :
  load from_slice (File_Bytes (saved_bytes to_vec_pretty s))
  = {| status := Status_Ok; store := s |}.
Proof.
  unfold load. rewrite Hserde. apply load_to_json.
  apply (run_invariant_in _ store_ok named); [|done|apply load_value_ok].
  intros ? ?. apply store_ok_step.
Qed.

(** ** Fail closed *)

Ltac undelete H := repeat rewrite lookup_delete_ne in H by done.

Definition v1_field (n : Need) : option string :=
  match n with
  | Need_Read => Some "allow_read" | Need_Send => Some "allow_send"
  | Need_Attachments => Some "allow_attachments"
  | Need_MessageActions | Need_Draft => None
  end.

(** The connection object of the file that grants [n] to [name] for [id]. *)
Definition connection_grants (schema : Z) (m : gmap string Value) (name id : string) (n : Need)
  : Prop :=
  m !! "client_name" = Some (Str name) /\ trim_is_empty name = false
  /\ if schema =? 1 then
       exists ids k, m !! "accounts" = Some (Array ids) /\ Str id ∈ ids
         /\ v1_field n = Some k /\ m !! k = Some (Bool true)
     else
       exists rows row, m !! "accounts" = Some (Array rows) /\ Object row ∈ rows
         /\ row !! "account_id" = Some (Str id) /\ row !! field n = Some (Bool true).

Lemma take_flag_true m k b m' :
  take_flag m k = Some (b, m') -> b = true -> m !! k = Some (Bool true).
Proof. unfold take_flag. repeat case_match; intros [= <- _]; congruence. Qed.

Lemma v1_accounts_rows r s a seen ids l g :
  v1_accounts r s a seen ids = Some l -> g ∈ l ->
  g ∈ seen \/ (Str (account_id g) ∈ ids /\ read g = r /\ send g = s /\ attachments g = a
               /\ message_actions g = false /\ draft g = false).
Proof.
  revert seen; induction ids as [|v ids IH]; intros seen; cbn; [intros [= ->]; auto|].
  destruct v as [| | |id| |]; try done. intros Hl Hg. case_match.
  - destruct (IH _ Hl Hg) as [?|(? & ?)]; [by left|right]. split; [by constructor|done].
  - destruct (IH _ Hl Hg) as [Hin|(? & ?)].
    + apply elem_of_app in Hin as [?| ->%list_elem_of_singleton]; [by left|right]. cbn.
      split_and!; [constructor|done..].
    + right. split; [by constructor|done].
Qed.

Lemma v1_client_grants m g id n :
  parse_v1 (Object m) = Some (Client g) ->
  is_some_and (find_first (fun a => bool_decide (account_id a = id)) (accounts g))
    (fun a => grant_allows a n) = true ->
  connection_grants 1 m (client_name g) id n.
Proof.
  unfold parse_v1. destruct (take_name m) as [[name m1]|] eqn:Hn; [|done].
  intros H. apply bind_Some in H as ([ids m2] & Hids & H). apply bind_Some in H as ([r m3] & Hr & H).
  apply bind_Some in H as ([s m4] & Hs & H). apply bind_Some in H as ([a m5] & Ha & H).
  apply bind_Some in H as (rows & Hrows & H). injection H as <-.
  apply take_name_Some in Hn as (Hn & -> & Hcn). cbn [client_name accounts].
  destruct (find_first _ rows) as [g|] eqn:Hg; [|done]. cbn. intros Hallow.
  apply find_first_elem in Hg as [Hg Hid%bool_decide_eq_true].
  destruct (v1_accounts_rows _ _ _ _ _ _ _ Hrows Hg)
    as [Hnil|(Hin & Hgr & Hgs & Hga & Hgm & Hgd)]; [by apply elem_of_nil in Hnil|].
  rewrite Hid in Hin.
  pose proof (take_flag_true _ _ _ _ Hr) as Tr. pose proof (take_flag_true _ _ _ _ Hs) as Ts.
  pose proof (take_flag_true _ _ _ _ Ha) as Ta.
  apply take_flag_keeps in Hr as ->, Hs as ->.
  apply take_array_Some in Hids as [-> [Harr|[_ ->]]]; [|by apply elem_of_nil in Hin].
  undelete Tr; undelete Ts; undelete Ta; undelete Harr.
  split_and!; [done|done|]. cbn. exists ids.
  destruct n; cbn in Hallow |- *; try congruence; eexists; split_and!; try done;
    [apply Tr|apply Ts|apply Ta]; congruence.
Qed.

Lemma v2_client_grants schema m g id n :
  (schema =? 1) = false ->
  parse_v2 (Object m) = Some (Client g) ->
  is_some_and (find_first (fun a => bool_decide (account_id a = id)) (accounts g))
    (fun a => grant_allows a n) = true ->
  connection_grants schema m (client_name g) id n.
Proof.
  intros Hschema. unfold parse_v2. destruct (take_name m) as [[name m1]|] eqn:Hn; [|done].
  intros H. apply bind_Some in H as ([rows m2] & Hrows & H).
  apply bind_Some in H as (l & Hl & H). injection H as <-.
  apply take_name_Some in Hn as (Hn & -> & Hcn). cbn [client_name accounts].
  destruct (find_first _ l) as [g|] eqn:Hg; [|done]. cbn. intros Hallow.
  apply find_first_elem in Hg as [Hg Hid%bool_decide_eq_true].
  apply mapM_Some_1 in Hl. apply list_elem_of_lookup in Hg as [i Hg].
  destruct (Forall2_lookup_r _ _ _ i g Hl Hg) as (v & Hv & Hp).
  apply take_array_Some in Hrows as [-> [Harr|[_ ->]]]; [|done].
  rewrite lookup_delete_ne in Harr by done.
  unfold parse_row in Hp. destruct v as [| | | | |row]; try done.
  destruct (row !! "account_id") as [[| | |aid| |]|] eqn:Haid; try done.
  apply bind_Some in Hp as ([r m3] & Hr & Hp). apply bind_Some in Hp as ([s m4] & Hs & Hp).
  apply bind_Some in Hp as ([a m5] & Ha & Hp). apply bind_Some in Hp as ([ma m6] & Hma & Hp).
  apply bind_Some in Hp as ([d m7] & Hd & Hp). injection Hp as <-. cbn in Hid. subst aid.
  unfold connection_grants. rewrite Hschema. split_and!; [done|done|].
  exists rows, row. split_and!; [done|by eapply list_elem_of_lookup_2|done|].
  pose proof (take_flag_true _ _ _ _ Hr) as Tr. pose proof (take_flag_true _ _ _ _ Hs) as Ts.
  pose proof (take_flag_true _ _ _ _ Ha) as Ta. pose proof (take_flag_true _ _ _ _ Hma) as Tm.
  pose proof (take_flag_true _ _ _ _ Hd) as Td.
  apply take_flag_keeps in Hr as ->, Hs as ->, Ha as ->, Hma as ->.
  undelete Tr; undelete Ts; undelete Ta; undelete Tm; undelete Td.
  destruct n; cbn in Hallow |- *; auto.
Qed.

(** *** The files that are understood *)

Definition flag_valid (m : gmap string Value) (k : string) : Prop :=
  forall v, m !! k = Some v -> exists b, v = Bool b.
Definition array_valid (valid : Value -> Prop) (m : gmap string Value) (k : string) : Prop :=
  forall v, m !! k = Some v -> exists l, v = Array l /\ forall x, x ∈ l -> valid x.
Definition row_valid (v : Value) : Prop :=
  exists row id, v = Object row /\ row !! "account_id" = Some (Str id)
    /\ forall n, flag_valid row (field n).
(** A connection of a file: an object, which has the fields of its schema if it has a name. *)
Definition connection_valid (schema : Z) (v : Value) : Prop :=
  exists m, v = Object m /\
  forall name, m !! "client_name" = Some (Str name) -> trim_is_empty name = false ->
    if schema =? 1
    then array_valid (fun x => exists id, x = Str id) m "accounts"
         /\ flag_valid m "allow_read" /\ flag_valid m "allow_send" /\ flag_valid m "allow_attachments"
    else array_valid row_valid m "accounts".
Definition understood (from_slice : list Z -> option Value) (file : FileRead) : Prop :=
  exists bytes root schema,
    file = File_Bytes bytes /\ from_slice bytes = Some (Object root)
    /\ match root !! "schema" with None => Some 1 | Some v => as_u64 v end = Some schema
    /\ 1 <= schema <= SCHEMA /\ array_valid (connection_valid schema) root "connections".

Lemma take_flag_take m k : flag_valid m k -> exists b, take_flag m k = Some (b, delete k m).
Proof.
  unfold take_flag, flag_valid. destruct (m !! k) as [v|]; [|by eexists].
  intros H. destruct (H v eq_refl) as [b ->]. by eexists.
Qed.
Lemma take_flag_valid m k x : take_flag m k = Some x -> flag_valid m k.
Proof.
  unfold take_flag, flag_valid. destruct (m !! k) as [[]|]; try done. intros _ v [= <-]. by eexists.
Qed.
Lemma flag_valid_delete m j k : j <> k -> flag_valid (delete j m) k <-> flag_valid m k.
Proof. intros. unfold flag_valid. by rewrite lookup_delete_ne. Qed.
Ltac undeleted H := repeat (rewrite flag_valid_delete in H by done).
Lemma array_valid_delete valid m j k : j <> k -> array_valid valid (delete j m) k <-> array_valid valid m k.
Proof. intros. unfold array_valid. by rewrite lookup_delete_ne. Qed.
Lemma take_array_valid valid m k l m' :
  take_array m k = Some (l, m') -> array_valid valid m k <-> forall x, x ∈ l -> valid x.
Proof.
  intros H. apply take_array_Some in H as [_ [H|[H ->]]]; unfold array_valid; rewrite H.
  - split; [intros Hv; by destruct (Hv _ eq_refl) as (? & [= <-] & ?)|]. intros Hv v [= <-]. by exists l.
  - split; [by intros _ x ?%elem_of_nil|done].
Qed.
Lemma take_array_take valid m k :
  array_valid valid m k -> exists l, take_array m k = Some (l, delete k m).
Proof.
  unfold take_array, array_valid. destruct (m !! k) as [v|]; [|by eexists].
  intros H. destruct (H v eq_refl) as (l & -> & _). by eexists.
Qed.
(** A flag that is taken from an object with other keys deleted. *)
Ltac take_valid_flag H :=
  let b := fresh "b" in let E := fresh "E" in
  destruct (take_flag_take _ _ H) as [b E]; rewrite E; clear E; cbn [mbind option_bind].

Lemma parse_row_valid v : is_Some (parse_row v) <-> row_valid v.
Proof.
  unfold parse_row, row_valid. split.
  - destruct v as [| | | | |m]; try (by intros []). destruct (m !! "account_id") as [[| | |id| |]|] eqn:Hid;
      try (by intros []). intros [a H].
    apply bind_Some in H as ([r m3] & Hr & H). apply bind_Some in H as ([s m4] & Hs & H).
    apply bind_Some in H as ([at_ m5] & Ha & H). apply bind_Some in H as ([ma m6] & Hma & H).
    apply bind_Some in H as ([d m7] & Hd & _). exists m, id. split; [done|]. split; [done|].
    pose proof (take_flag_valid _ _ _ Hr) as Vr. pose proof (take_flag_valid _ _ _ Hs) as Vs.
    pose proof (take_flag_valid _ _ _ Ha) as Va. pose proof (take_flag_valid _ _ _ Hma) as Vm.
    pose proof (take_flag_valid _ _ _ Hd) as Vd.
    apply take_flag_keeps in Hr as ->, Hs as ->, Ha as ->, Hma as ->.
    undeleted Vr; undeleted Vs; undeleted Va; undeleted Vm; undeleted Vd. intros []; assumption.
  - intros (m & id & -> & -> & H).
    assert (forall n, flag_valid m (field n)) as V by exact H.
    pose proof (V Need_Read) as Vr. pose proof (V Need_Send) as Vs. pose proof (V Need_Attachments) as Va.
    pose proof (V Need_MessageActions) as Vm. pose proof (V Need_Draft) as Vd. cbn [field] in *.
    rewrite <-(flag_valid_delete m "account_id") in Vr, Vs, Va, Vm, Vd by done. take_valid_flag Vr.
    rewrite <-(flag_valid_delete _ "read") in Vs, Va, Vm, Vd by done. take_valid_flag Vs.
    rewrite <-(flag_valid_delete _ "send") in Va, Vm, Vd by done. take_valid_flag Va.
    rewrite <-(flag_valid_delete _ "attachments") in Vm, Vd by done. take_valid_flag Vm.
    rewrite <-(flag_valid_delete _ "message_actions") in Vd by done. take_valid_flag Vd. by eexists.
Qed.

Lemma v1_accounts_valid r s a seen ids :
  is_Some (v1_accounts r s a seen ids) <-> forall x, x ∈ ids -> exists id, x = Str id.
Proof.
  revert seen. induction ids as [|v ids IH]; intros seen; cbn [v1_accounts].
  { split; [by intros _ x ?%elem_of_nil|by eexists]. }
  assert ((forall x, x ∈ v :: ids -> exists id, x = Str id)
    <-> (exists id, v = Str id) /\ forall x, x ∈ ids -> exists id, x = Str id) as ->.
  { split; [intros H; split; [apply H; by left|intros x Hx; apply H; by right]|].
    intros [H1 H2] x [->|Hx]%elem_of_cons; [done|by apply H2]. }
  destruct v; try (split; [by intros []|by intros [[? ?] _]]).
  destruct (_ || _); rewrite IH; (split; [intros H; split; [by eexists|done]|by intros [_ H]]).
Qed.
Lemma mapM_valid {A B} (f : A -> option B) (P : A -> Prop) l :
  (forall x, is_Some (f x) <-> P x) -> is_Some (mapM f l) <-> forall x, x ∈ l -> P x.
Proof. intros Hf. rewrite mapM_is_Some, Forall_forall. by setoid_rewrite Hf. Qed.

Lemma take_name_unnamed m name :
  take_name m = None -> m !! "client_name" = Some (Str name) -> trim_is_empty name = false -> False.
Proof. unfold take_name. intros H Hn E. by rewrite Hn, E in H. Qed.

Lemma parse_v1_valid v : is_Some (parse_v1 v) <-> connection_valid 1 v.
Proof.
  unfold parse_v1, connection_valid. change (1 =? 1) with true. cbv iota. split.
  - destruct v as [| | | | |m]; try (by intros []). intros [e H]. exists m. split; [done|].
    intros name Hname Hblank. destruct (take_name m) as [[n m1]|] eqn:Hn.
    2: { by destruct (take_name_unnamed m name). }
    apply take_name_Some in Hn as (_ & -> & _).
    apply bind_Some in H as ([ids m2] & Hids & H). apply bind_Some in H as ([r m3] & Hr & H).
    apply bind_Some in H as ([s m4] & Hs & H). apply bind_Some in H as ([a m5] & Ha & H).
    apply bind_Some in H as (rows & Hrows & _).
    pose proof (take_flag_valid _ _ _ Hr) as Vr. pose proof (take_flag_valid _ _ _ Hs) as Vs.
    pose proof (take_flag_valid _ _ _ Ha) as Va.
    pose proof (take_array_valid (fun x => exists id, x = Str id) _ _ _ _ Hids) as Vi.
    apply take_flag_keeps in Hr as ->, Hs as ->. apply take_array_Some in Hids as [-> _].
    undeleted Vr; undeleted Vs; undeleted Va. rewrite array_valid_delete in Vi by done.
    split_and!; [|done..]. apply Vi. apply (v1_accounts_valid r s a []). by eexists.
  - intros (m & -> & H). destruct (take_name m) as [[n m1]|] eqn:Hn; [|by eexists].
    apply take_name_Some in Hn as (Hblank & -> & Hname). destruct (H n Hname Hblank) as (Vi & Vr & Vs & Va).
    rewrite <-(array_valid_delete _ m "client_name") in Vi by done.
    rewrite <-(flag_valid_delete m "client_name") in Vr, Vs, Va by done.
    destruct (take_array_take _ _ _ Vi) as [ids Eids]. pose proof (proj1 (take_array_valid _ _ _ _ _ Eids) Vi) as Hids.
    rewrite Eids. cbn [mbind option_bind].
    rewrite <-(flag_valid_delete _ "accounts") in Vr, Vs, Va by done. take_valid_flag Vr.
    rewrite <-(flag_valid_delete _ "allow_read") in Vs, Va by done. take_valid_flag Vs.
    rewrite <-(flag_valid_delete _ "allow_send") in Va by done. take_valid_flag Va.
    match goal with |- context [v1_accounts ?r ?s ?a [] ids] =>
      destruct (proj2 (v1_accounts_valid r s a [] ids) Hids) as [l ->] end.
    by eexists.
Qed.
Lemma parse_v2_valid schema v : schema <> 1 -> is_Some (parse_v2 v) <-> connection_valid schema v.
Proof.
  intros Hs. unfold parse_v2, connection_valid. rewrite (proj2 (Z.eqb_neq schema 1) Hs). split.
  - destruct v as [| | | | |m]; try (by intros []). intros [e H]. exists m. split; [done|].
    intros name Hname Hblank. destruct (take_name m) as [[n m1]|] eqn:Hn.
    2: { by destruct (take_name_unnamed m name). }
    apply take_name_Some in Hn as (_ & -> & _). apply bind_Some in H as ([rows m2] & Hrows & H).
    apply bind_Some in H as (l & Hl & _). pose proof (take_array_valid row_valid _ _ _ _ Hrows) as Vi.
    rewrite array_valid_delete in Vi by done. apply Vi. apply (mapM_valid parse_row); [exact parse_row_valid|].
    by eexists.
  - intros (m & -> & H). destruct (take_name m) as [[n m1]|] eqn:Hn; [|by eexists].
    apply take_name_Some in Hn as (Hblank & -> & Hname). pose proof (H n Hname Hblank) as Vi.
    rewrite <-(array_valid_delete _ m "client_name") in Vi by done.
    destruct (take_array_take _ _ _ Vi) as [rows Erows].
    pose proof (proj1 (take_array_valid _ _ _ _ _ Erows) Vi) as Hrows. rewrite Erows. cbn [mbind option_bind].
    apply (mapM_valid parse_row) in Hrows as [l ->]; [by eexists|exact parse_row_valid].
Qed.
Lemma load_understood from_slice file :
  status (load from_slice file) = Status_Ok <-> understood from_slice file.
Proof.
  unfold load, understood. split.
  - destruct file as [| |bytes]; try done. destruct (from_slice bytes) as [[| | | | |root]|] eqn:Hb; try done.
    unfold load_value.
    destruct (match root !! "schema" with None => Some 1 | Some v => as_u64 v end)
      as [schema|] eqn:Hschema; [|done].
    destruct (negb ((1 <=? schema) && (schema <=? SCHEMA))) eqn:Hrange; [done|].
    destruct (take_array (delete "schema" root) "connections") as [[conns root']|] eqn:Hc; [|done].
    destruct (mapM _ conns) as [es|] eqn:Hes; [|done]. intros _.
    exists bytes, root, schema. apply negb_false_iff in Hrange. split_guards. split_and!; try done.
    rewrite <-(array_valid_delete _ root "schema") by done. rewrite (take_array_valid _ _ _ _ _ Hc).
    destruct (Z.eqb_spec schema 1) as [->|Hne].
    + apply (mapM_valid parse_v1); [exact parse_v1_valid|by eexists].
    + apply (mapM_valid parse_v2); [by intros; apply parse_v2_valid|by eexists].
  - intros (bytes & root & schema & -> & -> & Hschema & Hrange & V). unfold load_value. rewrite Hschema.
    rewrite (proj2 (Z.leb_le 1 schema)), (proj2 (Z.leb_le schema SCHEMA)) by lia. cbn [andb negb].
    rewrite <-(array_valid_delete _ root "schema") in V by done.
    destruct (take_array_take _ _ _ V) as [conns Ec]. pose proof (proj1 (take_array_valid _ _ _ _ _ Ec) V) as Hc.
    rewrite Ec. destruct (Z.eqb_spec schema 1) as [->|Hne].
    + apply (mapM_valid parse_v1) in Hc as [l ->]; [done|exact parse_v1_valid].
    + apply (mapM_valid parse_v2) in Hc as [l ->]; [done|by intros; apply parse_v2_valid].
Qed.

(** C29: the store fails closed: a permission is only granted when the file was read, is a
    JSON object of a known schema, and has a connection of that assistant whose object grants
    exactly that permission for exactly that account (a row with the flag set, or, in schema 1,
    a listed account under the connection's flag, which never covers message actions or
    drafts).  The host writes where there was no file, or over a file it understood in full:
    an object of schema 1 to 3 whose connections are objects with the fields of that schema.  A file
    that is there and was not understood grants nothing, and whatever change is asked for, the host
    refuses it, says why, and leaves the file as it is; a write that fails leaves it as it is
    too. *)
Theorem grants_fail_closed from_slice to_vec_pretty file change saved :
  let l := load from_slice file in
  let written := write_store from_slice to_vec_pretty change saved file in
  (forall name id n, allows (store l) name id n = true ->
     exists bytes root connections schema m,
       file = File_Bytes bytes /\ from_slice bytes = Some (Object root)
       /\ root !! "connections" = Some (Array connections)
       /\ match root !! "schema" with None => Some 1 | Some v => as_u64 v end = Some schema
       /\ 1 <= schema <= SCHEMA
       /\ Object m ∈ connections /\ connection_grants schema m name id n)
  /\ (file = File_NotFound \/ understood from_slice file ->
      written = if saved
                then (File_Bytes (saved_bytes to_vec_pretty (change (store l))), inl (change (store l)))
                else (file, inr Status_WriteFailed))
  /\ (file <> File_NotFound -> ~ understood from_slice file ->
      (forall name id n, allows (store l) name id n = false)
      /\ status l <> Status_Ok /\ written = (file, inr (status l))).
Proof.
  intros l written.
  assert (writable l = true <-> file = File_NotFound \/ understood from_slice file) as Hw.
  { rewrite <-load_understood. subst l. split.
    - unfold load. destruct file; [by left|done|]. intros Hw. right. unfold writable in Hw.
      unfold load_value in *. repeat case_match; done.
    - intros [-> | Hs]; [done|]. unfold writable. by rewrite Hs. }
  split; [|split].
  - intros name id n. subst l. unfold load. destruct file as [| |bytes]; try done.
    destruct (from_slice bytes) as [[| | | | |root]|] eqn:Hb; try done. unfold load_value.
    destruct (match root !! "schema" with None => Some 1 | Some v => as_u64 v end)
      as [schema|] eqn:Hschema; [|done].
    destruct (negb ((1 <=? schema) && (schema <=? SCHEMA))) eqn:Hrange; [done|].
    destruct (take_array (delete "schema" root) "connections") as [[conns root']|] eqn:Hc; [|done].
    destruct (mapM _ conns) as [es|] eqn:Hes; [|done]. cbn [store].
    unfold allows, store_account. rewrite store_client_entries. cbn [entries].
    destruct (find_first (entry_named name) es) as [[g|v]|] eqn:Hg; try done. cbn [mbind option_bind].
    apply find_first_elem in Hg as [Hg Hname%bool_decide_eq_true]. intros Hallow.
    apply mapM_Some_1 in Hes. apply list_elem_of_lookup in Hg as [i Hg].
    destruct (Forall2_lookup_r _ _ _ i _ Hes Hg) as (v & Hv & Hp).
    apply take_array_Some in Hc as [_ [Harr|[_ ->]]]; [|done].
    rewrite lookup_delete_ne in Harr by done. apply negb_false_iff in Hrange. split_guards.
    assert (exists m, v = Object m) as [m ->].
    { destruct (schema =? 1), v; try done; eauto. }
    exists bytes, root, conns, schema, m. split_and!; try done; [by eapply list_elem_of_lookup_2|].
    subst name. destruct (schema =? 1) eqn:E.
    + apply Z.eqb_eq in E as ->. by apply v1_client_grants.
    + by apply v2_client_grants.
  - intros Hf. apply Hw in Hf. subst written. unfold write_store. fold l. by rewrite Hf.
  - intros Hne Hu.
    assert (writable l = false) as Hf.
    { apply not_true_iff_false. rewrite Hw. by intros [?|?]. }
    split; [|split].
    + intros name id n. subst l. unfold load in *. destruct file as [| |bytes]; try done.
      unfold load_value in *. repeat case_match; done.
    + intros Hs. by apply Hu, load_understood.
    + subst written. unfold write_store. fold l. by rewrite Hf.
Qed.

(** ** Concrete runs *)

(** A schema 1 file with an unknown key. *)
Definition one_value : Value :=
  Object (<["connections" := Array
    [Object (<["client_name" := Str "assistant"]> (<["note" := Null]>
       (<["allow_read" := Bool true]> (<["accounts" := Array [Str "@a:example.org"]]> ∅))))]]> ∅).

Definition one_store : Store := store (load_value (Some one_value)).

(** A parser and a printer that agree on one file. *)
Definition one_printer (v : Value) : list Z := [123; 125].
Definition one_parser (s : Store) (bytes : list Z) : option Value :=
  if decide (bytes = [123; 125; 10]) then Some (to_json s) else None.

Lemma saved_store_loads_back_witness :
  let s := (run store_step one_store [OpSet "assistant" "@b:example.org" Need_Draft true]).1 in
  allows s "assistant" "@a:example.org" Need_Read = true
  /\ load (one_parser s) (File_Bytes (saved_bytes one_printer s))
     = {| status := Status_Ok; store := s |}.
Proof.
  intros s. split; [reflexivity|].
  apply (saved_store_loads_back (one_parser s) one_printer (Some one_value)
           [OpSet "assistant" "@b:example.org" Need_Draft true]);
    [repeat constructor|reflexivity].
Defined.

(** A file with a connection that is no object. *)
Lemma grants_fail_closed_witness :
  let parser (_ : list Z) := Some (Object (<["connections" := Array [Null]]> ∅)) in
  let l := load parser (File_Bytes [1]) in
  status l = Status_Malformed /\ status l <> Status_Ok
  /\ write_store parser one_printer (fun s => set s "assistant" "@b:example.org" Need_Draft true) true
       (File_Bytes [1]) = (File_Bytes [1], inr (status l)).
Proof.
  intros parser l. split; [reflexivity|].
  destruct (grants_fail_closed parser one_printer (File_Bytes [1])
    (fun s => set s "assistant" "@b:example.org" Need_Draft true) true) as (_ & _ & H).
  apply H; [discriminate|]. intros (bytes & root & schema & _ & E & _ & _ & V).
  injection E as <-. destruct (V _ eq_refl) as (conns & [= <-] & Hc).
  destruct (Hc Null ltac:(by left)) as (m & Hm & _). discriminate.
Defined.
