(* ===== verification/DeliverySettings.v ===== *)
(** Settings of the device-local notification delivery
    ([crates/koushi-state/src/state/notification_delivery/mod.rs]): the destinations
    ("sinks") a device may deliver through, what each may be sent, and the
    canonicalization that every load and every patch runs.

    Text is UTF-8 bytes (see Text.v); the two [u64] timings and the [u16] port are
    integers the canonicalization bounds. *)

From stdpp Require Import base list strings gmap.
From Stdlib Require Import ZArith Lia Ascii.
From S2P Require Import Prelude Text.
Local Open Scope string_scope.
Local Open Scope list_scope.
Local Open Scope Z_scope.
Local Set Warnings "-clear-no-such-hyp".

(** * Constants *)

Definition MAX_NOTIFICATION_DELIVERY_DWELL_SECS : Z := 86400.
Definition MAX_NOTIFICATION_DELIVERY_MIN_INTERVAL_SECS : Z := 86400.
Definition MAX_NOTIFICATION_DELIVERY_PREFIX_GRAPHEMES : Z := 500.
Definition NOTIFICATION_DELIVERY_MAIL_TEXT_BUDGET : nat := 4000.
Definition NOTIFICATION_DELIVERY_SERVERCHAN_TEXT_BUDGET : nat := 1000.
Definition MAX_NOTIFICATION_DELIVERY_SINKS : nat := 8.
Definition MAX_NOTIFICATION_DELIVERY_WATCHED_TARGETS : nat := 64.
Definition MAX_NOTIFICATION_DELIVERY_FIELD_CHARS : nat := 320.
Definition MAX_NOTIFICATION_CREDENTIAL_REVISION_CHARS : nat := 32.
Definition MAX_NOTIFICATION_SINK_ID_BYTES : nat := 64.
Definition DEFAULT_RESEND_ENDPOINT : string := "https://api.resend.com/emails".
Definition DEFAULT_RESEND_FROM_ADDRESS : string := "onboarding@resend.dev".
Definition DEFAULT_NOTIFICATION_SENDER_NAME : string := "Koushi".
Definition DEFAULT_SERVERCHAN_ENDPOINT : string := "https://sctapi.ftqq.com".

(** * Data *)

Inductive NotificationDeliveryTarget :=
  | Target_Room (room_id : string)
  | Target_Space (space_id : string).

Record NotificationDeliveryTargets := {
  direct_messages : bool; mentions : bool; keywords : bool;
  watched : list NotificationDeliveryTarget }.

Inductive NotificationDeliveryContent :=
  | NamesOnly | Prefix (graphemes : Z) | Full.

Inductive NotificationDeliveryPartnerLabel := LocalAlias | MatrixId.

Record NotificationDeliveryContentConsent := {
  sink_kind : string; consent_endpoint : string; recipient : string; accepted_at_ms : Z }.

Record NotificationDeliveryTiming := {
  dwell_secs : Z; min_interval_secs : Z; only_when_unfocused : bool }.

Inductive SmtpTls := Implicit | StartTls.

Inductive NotificationSinkConfig :=
  | Resend (endpoint : string)
  | Smtp (preset : option string) (host : string) (port : Z) (tls : SmtpTls) (username : string)
  | ServerChan (endpoint : string).

Record NotificationSinkSettings := {
  id : string; destination : string; from_address : string; sender_name : string;
  config : NotificationSinkConfig; secret_binding : option string;
  targets : NotificationDeliveryTargets; content : NotificationDeliveryContent;
  content_consent : option NotificationDeliveryContentConsent;
  timing : NotificationDeliveryTiming;
  direct_partner_label : NotificationDeliveryPartnerLabel }.

Record NotificationDeliverySettings := { sinks : list NotificationSinkSettings }.

#[export] Instance NotificationDeliveryTarget_eq : EqDecision NotificationDeliveryTarget.
Proof. solve_decision. Defined.
#[export] Instance NotificationDeliveryContent_eq : EqDecision NotificationDeliveryContent.
Proof. solve_decision. Defined.

#[export] Instance Targets_updatable : Updatable NotificationDeliveryTargets := fun t =>
  {| direct_messages := direct_messages t; mentions := mentions t; keywords := keywords t;
     watched := watched t |}.
#[export] Instance Timing_updatable : Updatable NotificationDeliveryTiming := fun t =>
  {| dwell_secs := dwell_secs t; min_interval_secs := min_interval_secs t;
     only_when_unfocused := only_when_unfocused t |}.
#[export] Instance Sink_updatable : Updatable NotificationSinkSettings := fun s =>
  {| id := id s; destination := destination s; from_address := from_address s;
     sender_name := sender_name s; config := config s; secret_binding := secret_binding s;
     targets := targets s; content := content s; content_consent := content_consent s;
     timing := timing s; direct_partner_label := direct_partner_label s |}.

(** * Fields and targets *)

Definition trimmed_field (value : string) : string :=
  let trimmed := trim value in
  if (MAX_NOTIFICATION_DELIVERY_FIELD_CHARS <? length (chars trimmed))%nat
  then concat_str (take MAX_NOTIFICATION_DELIVERY_FIELD_CHARS (chars trimmed))
  else trimmed.

Definition target_id (t : NotificationDeliveryTarget) : string :=
  match t with Target_Room r => r | Target_Space s => s end.

Definition kind_and_id (t : NotificationDeliveryTarget) : string * string :=
  match t with Target_Room r => ("room", r) | Target_Space s => ("space", s) end.

Definition canonicalize_target (t : NotificationDeliveryTarget) : NotificationDeliveryTarget :=
  let id := trimmed_field (target_id t) in
  match t with Target_Room _ => Target_Room id | Target_Space _ => Target_Space id end.

Definition target_is_usable (t : NotificationDeliveryTarget) : bool :=
  let id := target_id t in
  (match head (chars id) with Some c => String.eqb c "!" || String.eqb c "#" | None => false end)
  && (1 <? length (chars id))%nat
  && (String.length id <=? MAX_NOTIFICATION_DELIVERY_FIELD_CHARS)%nat
  && negb (existsb is_control (chars id)).

Definition targets_none : NotificationDeliveryTargets :=
  {| direct_messages := false; mentions := false; keywords := false; watched := [] |}.

Definition has_any (t : NotificationDeliveryTargets) : bool :=
  direct_messages t || mentions t || keywords t || negb (bool_decide (watched t = [])).

Definition watches_room (t : NotificationDeliveryTargets) (room_id : string) : bool :=
  existsb (fun w => match w with Target_Room r => String.eqb r room_id | _ => false end)
    (watched t).

Definition watches_space (t : NotificationDeliveryTargets) (space_id : string) : bool :=
  existsb (fun w => match w with Target_Space s => String.eqb s space_id | _ => false end)
    (watched t).

(** The loop of [NotificationDeliveryTargets::canonicalize]: keep usable targets not seen
    before, stopping at the cap. *)
Fixpoint canonical_watched (kept input : list NotificationDeliveryTarget)
    : list NotificationDeliveryTarget :=
  match input with
  | [] => kept
  | target :: input =>
      let target := canonicalize_target target in
      if negb (target_is_usable target)
         || existsb (fun e => bool_decide (kind_and_id e = kind_and_id target)) kept
      then canonical_watched kept input
      else
        let kept := kept ++ [target] in
        if (length kept =? MAX_NOTIFICATION_DELIVERY_WATCHED_TARGETS)%nat then kept
        else canonical_watched kept input
  end.

Definition canonicalize_targets (t : NotificationDeliveryTargets) : NotificationDeliveryTargets :=
  t <| watched := canonical_watched [] (watched t) |>.

(** * Content and timing *)

Definition carries_text (c : NotificationDeliveryContent) : bool :=
  match c with NamesOnly => false | _ => true end.

Definition canonicalize_content (c : NotificationDeliveryContent) : NotificationDeliveryContent :=
  match c with
  | Prefix graphemes =>
      let graphemes := Z.min graphemes MAX_NOTIFICATION_DELIVERY_PREFIX_GRAPHEMES in
      if graphemes =? 0 then NamesOnly else Prefix graphemes
  | c => c
  end.

Definition canonicalize_timing (t : NotificationDeliveryTiming) : NotificationDeliveryTiming :=
  t <| dwell_secs ::= fun d => Z.min d MAX_NOTIFICATION_DELIVERY_DWELL_SECS |>
    <| min_interval_secs ::= fun d => Z.min d MAX_NOTIFICATION_DELIVERY_MIN_INTERVAL_SECS |>.

(** * Destinations: credential binding and content consent *)

Definition config_kind (c : NotificationSinkConfig) : string :=
  match c with Resend _ => "resend" | Smtp _ _ _ _ _ => "smtp" | ServerChan _ => "serverChan" end.

Definition is_serverchan (c : NotificationSinkConfig) : bool :=
  match c with ServerChan _ => true | _ => false end.

Definition endpoint (s : NotificationSinkSettings) : string :=
  match config s with
  | Resend endpoint | ServerChan endpoint => endpoint
  | Smtp _ host port _ _ => host +:+ ":" +:+ display port
  end.

Definition credential_identity (s : NotificationSinkSettings) : string :=
  match config s with
  | Resend _ => "resend:" +:+ endpoint s
  | ServerChan _ => "serverchan:" +:+ endpoint s
  | Smtp _ host port _ username =>
      "smtp:" +:+ host +:+ ":" +:+ display port +:+ ":" +:+ username
  end.

Definition credential_binding (s : NotificationSinkSettings) (revision : string) : string :=
  credential_identity s +:+ "#" +:+ revision.

Definition credential_revision (s : NotificationSinkSettings) : option string :=
  binding ← secret_binding s;
  rest ← strip_prefix (credential_identity s) binding;
  if is_empty rest then Some ""
  else
    revision ← strip_prefix "#" rest;
    then_some
      (negb (is_empty revision)
       && (String.length revision <=? MAX_NOTIFICATION_CREDENTIAL_REVISION_CHARS)%nat
       && all_str is_ascii_hexdigit revision) revision.

Definition consent_recipient (s : NotificationSinkSettings) : string :=
  match config s with
  | ServerChan _ =>
      match credential_revision s with
      | Some revision => if is_empty revision then "" else "sendkey#" +:+ revision
      | None => ""
      end
  | _ => destination s
  end.

Definition consent_for_current (s : NotificationSinkSettings) (accepted_at_ms : Z)
    : NotificationDeliveryContentConsent :=
  {| sink_kind := config_kind (config s); consent_endpoint := endpoint s;
     recipient := consent_recipient s; accepted_at_ms := accepted_at_ms |}.

Definition consent_matches (s : NotificationSinkSettings) : bool :=
  is_some_and (content_consent s) (fun consent =>
    String.eqb (sink_kind consent) (config_kind (config s))
    && String.eqb (consent_endpoint consent) (endpoint s)
    && String.eqb (recipient consent) (consent_recipient s)).

Definition effective_content (s : NotificationSinkSettings) : NotificationDeliveryContent :=
  if carries_text (content s) && consent_matches s then content s else NamesOnly.

Definition revoke_content_consent (s : NotificationSinkSettings) : NotificationSinkSettings :=
  s <| content_consent := None |> <| content := NamesOnly |>.

Definition text_budget_graphemes (s : NotificationSinkSettings) : nat :=
  if is_serverchan (config s) then NOTIFICATION_DELIVERY_SERVERCHAN_TEXT_BUDGET
  else NOTIFICATION_DELIVERY_MAIL_TEXT_BUDGET.

(** * Canonicalization *)

(** [trim_end_matches('/')] *)
Definition trim_end_slashes (s : string) : string :=
  concat_str (trim_end_matches (fun c => String.eqb c "/") (chars s)).

(** The [match &mut self.config] of [canonicalize], which may also fill [from_address]. *)
Definition canonicalize_config (s : NotificationSinkSettings) : NotificationSinkSettings :=
  match config s with
  | Resend endpoint =>
      let endpoint := trimmed_field endpoint in
      let s := s <| config :=
        Resend (if is_empty endpoint then DEFAULT_RESEND_ENDPOINT else endpoint) |> in
      if is_empty (from_address s) then s <| from_address := DEFAULT_RESEND_FROM_ADDRESS |> else s
  | ServerChan endpoint =>
      let endpoint := trim_end_slashes (trimmed_field endpoint) in
      s <| config :=
        ServerChan (if is_empty endpoint then DEFAULT_SERVERCHAN_ENDPOINT else endpoint) |>
  | Smtp preset host port tls username =>
      let preset := (fun v => to_ascii_lowercase (trim v)) <$> preset in
      let preset := if bool_decide (preset = Some "") then None else preset in
      s <| config :=
        Smtp preset (trimmed_field host) (Z.max port 1) tls (trimmed_field username) |>
  end.

(** The part of [canonicalize] that normalizes the address fields. *)
Definition canonicalize_addresses (s : NotificationSinkSettings) : NotificationSinkSettings :=
  let s := s <| id ::= fun v => to_ascii_lowercase (trim v) |>
             <| destination ::= trimmed_field |> <| from_address ::= trimmed_field |>
             <| sender_name ::= trimmed_field |> in
  let s := canonicalize_config s in
  let s := if is_empty (sender_name s)
           then s <| sender_name := DEFAULT_NOTIFICATION_SENDER_NAME |> else s in
  if is_serverchan (config s)
  then s <| destination := "" |> <| from_address := "" |> <| sender_name := "" |>
  else s.

(** The part of [canonicalize] that drops what no longer names this destination. *)
Definition canonicalize_credential (s : NotificationSinkSettings) : NotificationSinkSettings :=
  let s := match credential_revision s with
           | None => s <| secret_binding := None |>
           | Some _ => s
           end in
  let s := s <| targets ::= canonicalize_targets |> <| timing ::= canonicalize_timing |>
             <| content ::= canonicalize_content |> in
  let serverchan_without_key := is_serverchan (config s) && is_empty (consent_recipient s) in
  if negb (consent_matches s) || serverchan_without_key then revoke_content_consent s else s.

Definition canonicalize_sink (s : NotificationSinkSettings) : NotificationSinkSettings :=
  canonicalize_credential (canonicalize_addresses s).

Definition is_valid_notification_sink_id (id : string) : bool :=
  negb (is_empty id) && (String.length id <=? MAX_NOTIFICATION_SINK_ID_BYTES)%nat
  && all_str (fun a => is_ascii_lowercase a || is_ascii_digit a
                       || Ascii.eqb a "-" || Ascii.eqb a "_") id.

Definition is_usable (s : NotificationSinkSettings) : bool :=
  is_valid_notification_sink_id (id s)
  && match config s with
     | Resend endpoint =>
         negb (is_empty endpoint) && negb (is_empty (destination s))
         && negb (is_empty (from_address s))
     | Smtp _ host port _ _ =>
         negb (is_empty host) && (0 <? port) && negb (is_empty (destination s))
         && negb (is_empty (from_address s))
     | ServerChan endpoint => negb (is_empty endpoint)
     end.

(** The loop of [NotificationDeliverySettings::canonicalize]. *)
Fixpoint canonical_sinks (canonical input : list NotificationSinkSettings)
    : list NotificationSinkSettings :=
  match input with
  | [] => canonical
  | sink :: input =>
      let sink := canonicalize_sink sink in
      if negb (is_usable sink) || existsb (fun e => String.eqb (id e) (id sink)) canonical
      then canonical_sinks canonical input
      else
        let canonical := canonical ++ [sink] in
        if (length canonical =? MAX_NOTIFICATION_DELIVERY_SINKS)%nat then canonical
        else canonical_sinks canonical input
  end.

Definition canonicalize (d : NotificationDeliverySettings) : NotificationDeliverySettings :=
  {| sinks := canonical_sinks [] (sinks d) |}.

Definition sink (d : NotificationDeliverySettings) (sink_id : string)
    : option NotificationSinkSettings :=
  find_first (fun s => String.eqb (id s) sink_id) (sinks d).

(** [apply_patch]: the patched block, before it replaces [self]. *)
Definition apply_patch (self incoming : NotificationDeliverySettings)
    (bindings_from_core : bool) : NotificationDeliverySettings :=
  let patched := canonicalize incoming in
  if bindings_from_core then patched
  else
    canonicalize
      {| sinks := (fun s => s <| secret_binding := sink self (id s) ≫= secret_binding |>)
                  <$> sinks patched |}.

(** * Migration of the channel-wide settings ([migration.rs])

    [serde] turns the file into the wire records; an absent field is [None] or the
    field's default. *)

Definition DEFAULT_NOTIFICATION_DELIVERY_DWELL_SECS : Z := 300.
Definition DEFAULT_NOTIFICATION_DELIVERY_MIN_INTERVAL_SECS : Z := 900.
Definition DEFAULT_NOTIFICATION_DELIVERY_PREFIX_GRAPHEMES : Z := 80.
Definition LEGACY_MAX_PREFIX_CHARS : Z := 200.

Record LegacyPrefixConsent := {
  legacy_sink_id : string; legacy_destination : string; legacy_endpoint : string;
  legacy_accepted_at_ms : Z }.

Record NotificationSinkWire := {
  wire_id : string; wire_destination : string; wire_from_address : string;
  wire_sender_name : string; wire_config : NotificationSinkConfig;
  wire_secret_binding : option string; wire_targets : option NotificationDeliveryTargets;
  wire_content : option NotificationDeliveryContent;
  wire_content_consent : option NotificationDeliveryContentConsent;
  wire_timing : option NotificationDeliveryTiming;
  wire_direct_partner_label : NotificationDeliveryPartnerLabel;
  wire_enabled : option bool }.

Record NotificationDeliverySettingsWire := {
  wire_sinks : list NotificationSinkWire;
  channel_enabled : option bool; channel_direct_messages : option bool;
  channel_mentions : option bool; channel_keywords : option bool;
  channel_only_when_unfocused : option bool; channel_dwell_secs : option Z;
  channel_min_interval_secs : option Z; prefix_chars : option Z;
  prefix_consent : option LegacyPrefixConsent;
  channel_watched : option (list NotificationDeliveryTarget) }.

Definition Targets_default : NotificationDeliveryTargets :=
  {| direct_messages := true; mentions := true; keywords := true; watched := [] |}.
Definition Timing_default : NotificationDeliveryTiming :=
  {| dwell_secs := DEFAULT_NOTIFICATION_DELIVERY_DWELL_SECS;
     min_interval_secs := DEFAULT_NOTIFICATION_DELIVERY_MIN_INTERVAL_SECS;
     only_when_unfocused := true |}.

Definition eq_ignore_ascii_case (x y : string) : bool :=
  String.eqb (to_ascii_lowercase x) (to_ascii_lowercase y).

Definition consent_names_this_sink (consent : LegacyPrefixConsent)
    (s : NotificationSinkSettings) : bool :=
  eq_ignore_ascii_case (trim (legacy_sink_id consent)) (trim (id s))
  && String.eqb (trim (legacy_destination consent)) (trim (destination s))
  && String.eqb (trim (legacy_endpoint consent)) (trim (endpoint s)).

Definition migrate_legacy_sink (s : NotificationSinkSettings) (was_sending : bool)
    (legacy_targets : NotificationDeliveryTargets) (legacy_timing : NotificationDeliveryTiming)
    (legacy_prefix : Z) (legacy_consent : option LegacyPrefixConsent)
    : NotificationSinkSettings :=
  let s := s <| targets := if was_sending then legacy_targets else targets_none |>
             <| timing := legacy_timing |> <| content := NamesOnly |>
             <| content_consent := None |> in
  match legacy_consent with
  | Some consent =>
      if consent_names_this_sink consent s && (0 <? legacy_prefix)
      then s <| content := Prefix legacy_prefix |>
             <| content_consent := Some
                  {| sink_kind := config_kind (config s);
                     consent_endpoint := trim (legacy_endpoint consent);
                     recipient := trim (legacy_destination consent);
                     accepted_at_ms := legacy_accepted_at_ms consent |} |>
      else s
  | None => s
  end.

Definition or_default {A} (d : A) (o : option A) : A := match o with Some x => x | None => d end.

Definition legacy_timing_of (w : NotificationDeliverySettingsWire) : NotificationDeliveryTiming :=
  {| dwell_secs := or_default DEFAULT_NOTIFICATION_DELIVERY_DWELL_SECS (channel_dwell_secs w);
     min_interval_secs :=
       or_default DEFAULT_NOTIFICATION_DELIVERY_MIN_INTERVAL_SECS (channel_min_interval_secs w);
     only_when_unfocused := or_default true (channel_only_when_unfocused w) |}.

Definition legacy_targets_of (w : NotificationDeliverySettingsWire) : NotificationDeliveryTargets :=
  {| direct_messages := or_default true (channel_direct_messages w);
     mentions := or_default true (channel_mentions w);
     keywords := or_default true (channel_keywords w);
     watched := or_default [] (channel_watched w) |}.

Definition legacy_prefix_of (w : NotificationDeliverySettingsWire) : Z :=
  Z.min (or_default DEFAULT_NOTIFICATION_DELIVERY_PREFIX_GRAPHEMES (prefix_chars w))
    LEGACY_MAX_PREFIX_CHARS.

Definition sink_of_wire (wire : NotificationSinkWire) : NotificationSinkSettings :=
  {| id := wire_id wire; destination := wire_destination wire;
     from_address := wire_from_address wire; sender_name := wire_sender_name wire;
     config := wire_config wire; secret_binding := wire_secret_binding wire;
     targets := or_default Targets_default (wire_targets wire);
     content := or_default NamesOnly (wire_content wire);
     content_consent := wire_content_consent wire;
     timing := or_default Timing_default (wire_timing wire);
     direct_partner_label := wire_direct_partner_label wire |}.

Definition migrate_wire (w : NotificationDeliverySettingsWire) (wire : NotificationSinkWire)
    : NotificationSinkSettings :=
  match wire_targets wire with
  | Some _ => sink_of_wire wire
  | None =>
      migrate_legacy_sink (sink_of_wire wire)
        (or_default false (channel_enabled w) && or_default false (wire_enabled wire))
        (legacy_targets_of w) (legacy_timing_of w) (legacy_prefix_of w) (prefix_consent w)
  end.

Definition into_settings (w : NotificationDeliverySettingsWire) : NotificationDeliverySettings :=
  {| sinks := migrate_wire w <$> wire_sinks w |}.

(** [deserialize_notification_delivery], after [serde]. *)
Definition deserialize_notification_delivery (w : NotificationDeliverySettingsWire)
    : NotificationDeliverySettings :=
  canonicalize (into_settings w).
