(* ===== verification/DeliverySettingsProps.v ===== *)
(** What canonical delivery settings guarantee, what a renderer's patch cannot change, and
    what the migration of older settings can only narrow. *)

From stdpp Require Import base list strings gmap.
From Stdlib Require Import ZArith Lia Ascii.
From S2P Require Import Prelude Text DeliverySettings.
Local Open Scope string_scope.
Local Open Scope list_scope.
Local Open Scope Z_scope.
Local Set Warnings "-clear-no-such-hyp".

(** * Well-formed settings *)

Definition sink_wf (s : NotificationSinkSettings) : Prop :=
  is_usable s = true
  /\ dwell_secs (timing s) <= MAX_NOTIFICATION_DELIVERY_DWELL_SECS
  /\ min_interval_secs (timing s) <= MAX_NOTIFICATION_DELIVERY_MIN_INTERVAL_SECS
  /\ (forall g, content s = Prefix g -> g ≠ 0 /\ g <= MAX_NOTIFICATION_DELIVERY_PREFIX_GRAPHEMES)
  /\ ((length (watched (targets s)) <= MAX_NOTIFICATION_DELIVERY_WATCHED_TARGETS)%nat
      /\ NoDup (kind_and_id <$> watched (targets s))
      /\ Forall (fun t => target_is_usable t = true) (watched (targets s)))
  /\ (is_Some (secret_binding s) -> is_Some (credential_revision s))
  /\ (is_Some (content_consent s) \/ carries_text (content s) = true ->
      consent_matches s = true
      /\ (is_serverchan (config s) = true -> consent_recipient s ≠ "")).

Definition settings_wf (d : NotificationDeliverySettings) : Prop :=
  (length (sinks d) <= MAX_NOTIFICATION_DELIVERY_SINKS)%nat
  /\ NoDup (id <$> sinks d) /\ Forall sink_wf (sinks d).

Lemma existsb_key {A B} `{EqDecision B} (key : A -> B) (eqb : B -> B -> bool) l x :
  (forall a b, eqb a b = true <-> a = b) ->
  existsb (fun e => eqb (key e) (key x)) l = false -> key x ∉ key <$> l.
Proof.
  intros Heqb H (y & E & Hy)%list_elem_of_fmap.
  apply Bool.not_true_iff_false in H. apply H, existsb_exists. exists y.
  split; [by apply list_elem_of_In|]. by apply Heqb.
Qed.

Lemma canonical_watched_wf kept input :
  (length kept < MAX_NOTIFICATION_DELIVERY_WATCHED_TARGETS)%nat ->
  NoDup (kind_and_id <$> kept) -> Forall (fun t => target_is_usable t = true) kept ->
  let out := canonical_watched kept input in
  (length out <= MAX_NOTIFICATION_DELIVERY_WATCHED_TARGETS)%nat
  /\ NoDup (kind_and_id <$> out) /\ Forall (fun t => target_is_usable t = true) out.
Proof.
  revert kept; induction input as [|t input IH]; intros kept Hlen Hnd Hus; cbn [canonical_watched].
  { cbn. split_and!; [lia|done|done]. }
  destruct (negb (target_is_usable (canonicalize_target t)) || existsb _ kept) eqn:E; [by apply IH|].
  apply orb_false_iff in E as [Eu Ex]. apply negb_false_iff in Eu.
  set (t' := canonicalize_target t) in *.
  assert (Hnd' : NoDup (kind_and_id <$> kept ++ [t'])).
  { rewrite fmap_app. apply NoDup_app. split_and!; [done| |by repeat constructor; apply not_elem_of_nil].
    intros x Hx ->%list_elem_of_singleton. revert Hx.
    apply (existsb_key kind_and_id (fun a b => bool_decide (a = b))); [|done].
    intros a b. by rewrite bool_decide_eq_true. }
  assert (Hus' : Forall (fun t => target_is_usable t = true) (kept ++ [t']))
    by (apply Forall_app; by repeat constructor).
  destruct (Nat.eqb_spec (length (kept ++ [t'])) MAX_NOTIFICATION_DELIVERY_WATCHED_TARGETS) as [El|El].
  - cbn. split_and!; [lia|done|done].
  - apply IH; [|done|done]. rewrite length_app in El |- *. cbn in El |- *. lia.
Qed.

Lemma credential_revision_unbound s : credential_revision (s <| secret_binding := None |>) = None.
Proof. done. Qed.

Lemma canonicalize_credential_wf s :
  let s' := canonicalize_credential s in
  dwell_secs (timing s') <= MAX_NOTIFICATION_DELIVERY_DWELL_SECS
  /\ min_interval_secs (timing s') <= MAX_NOTIFICATION_DELIVERY_MIN_INTERVAL_SECS
  /\ (forall g, content s' = Prefix g -> g ≠ 0 /\ g <= MAX_NOTIFICATION_DELIVERY_PREFIX_GRAPHEMES)
  /\ ((length (watched (targets s')) <= MAX_NOTIFICATION_DELIVERY_WATCHED_TARGETS)%nat
      /\ NoDup (kind_and_id <$> watched (targets s'))
      /\ Forall (fun t => target_is_usable t = true) (watched (targets s')))
  /\ (is_Some (secret_binding s') -> is_Some (credential_revision s'))
  /\ (is_Some (content_consent s') \/ carries_text (content s') = true ->
      consent_matches s' = true
      /\ (is_serverchan (config s') = true -> consent_recipient s' ≠ "")).
Proof.
  unfold canonicalize_credential.
  set (s1 := match credential_revision s with None => _ | Some _ => _ end).
  assert (H1 : is_Some (secret_binding s1) -> is_Some (credential_revision s1)).
  { unfold s1. destruct (credential_revision s) eqn:E; [by rewrite E|by intros []]. }
  clearbody s1.
  set (s2 := s1 <| targets ::= _ |> <| timing ::= _ |> <| content ::= _ |>).
  assert (H2 : is_Some (secret_binding s2) -> is_Some (credential_revision s2)) by exact H1.
  assert (Hwatch := canonical_watched_wf [] (watched (targets s1)) ltac:(by apply Nat.ltb_lt)
    ltac:(constructor) ltac:(constructor)).
  assert (Hpre : forall g, content s2 = Prefix g ->
    g ≠ 0 /\ g <= MAX_NOTIFICATION_DELIVERY_PREFIX_GRAPHEMES).
  { cbn. intros g. unfold canonicalize_content. destruct (content s1) as [|g'|]; [done| |done].
    destruct (Z.eqb_spec (Z.min g' MAX_NOTIFICATION_DELIVERY_PREFIX_GRAPHEMES) 0) as [|Hne]; [done|].
    intros [= <-]. split; [done|lia]. }
  destruct (negb (consent_matches s2) || (is_serverchan (config s2) && is_empty (consent_recipient s2)))
    eqn:E.
  - split_and!; try (cbn; lia); try apply Hwatch; [done|exact H2|]. intros [[]|]; done.
  - split_and!; try (cbn; lia); try apply Hwatch; [exact Hpre|exact H2|]. intros _.
    apply orb_false_iff in E as [E1 E2]. apply negb_false_iff in E1. split; [exact E1|].
    intros Hsc Hr. rewrite Hsc, Hr in E2. done.
Qed.

Lemma canonicalize_sink_consent s :
  is_Some (content_consent (canonicalize_sink s)) \/ carries_text (content (canonicalize_sink s)) = true ->
  consent_matches (canonicalize_sink s) = true
  /\ (is_serverchan (config (canonicalize_sink s)) = true -> consent_recipient (canonicalize_sink s) ≠ "").
Proof. apply (canonicalize_credential_wf (canonicalize_addresses s)). Qed.

Lemma canonical_sinks_spec canonical input :
  (length canonical < MAX_NOTIFICATION_DELIVERY_SINKS)%nat ->
  NoDup (id <$> canonical) ->
  let out := canonical_sinks canonical input in
  (length out <= MAX_NOTIFICATION_DELIVERY_SINKS)%nat /\ NoDup (id <$> out)
  /\ (forall s, s ∈ out ->
        s ∈ canonical \/ exists raw, raw ∈ input /\ s = canonicalize_sink raw /\ is_usable s = true).
Proof.
  revert canonical; induction input as [|raw input IH]; intros canonical Hlen Hnd; cbn [canonical_sinks].
  { cbn. split_and!; [lia|done|auto]. }
  destruct (negb (is_usable (canonicalize_sink raw)) || existsb _ canonical) eqn:E.
  { destruct (IH canonical Hlen Hnd) as (H1 & H2 & H3). split_and!; [done|done|].
    intros s Hs. destruct (H3 s Hs) as [|(r & ? & ?)]; [by left|right]. exists r. split; [by right|done]. }
  apply orb_false_iff in E as [Eu Ex]. apply negb_false_iff in Eu.
  set (s' := canonicalize_sink raw) in *.
  assert (Hnd' : NoDup (id <$> canonical ++ [s'])).
  { rewrite fmap_app. apply NoDup_app. split_and!; [done| |by repeat constructor; apply not_elem_of_nil].
    intros x Hx ->%list_elem_of_singleton. revert Hx.
    apply (existsb_key id String.eqb); [apply String.eqb_eq|done]. }
  assert (Hnew : forall s, s ∈ canonical ++ [s'] ->
    s ∈ canonical \/ exists r, r ∈ raw :: input /\ s = canonicalize_sink r /\ is_usable s = true).
  { intros s [Hs| ->%list_elem_of_singleton]%elem_of_app; [by left|right].
    exists raw. split; [by left|done]. }
  destruct (Nat.eqb_spec (length (canonical ++ [s'])) MAX_NOTIFICATION_DELIVERY_SINKS) as [El|El].
  - cbn. split_and!; [lia|done|exact Hnew].
  - destruct (IH (canonical ++ [s'])) as (H1 & H2 & H3); [|done|].
    { rewrite length_app in El |- *. cbn in El |- *. lia. }
    split_and!; [done|done|]. intros s Hs. destruct (H3 s Hs) as [Hs'|(r & ? & ?)]; [by apply Hnew|].
    right. exists r. split; [by right|done].
Qed.

Lemma canonicalize_elem d s :
  s ∈ sinks (canonicalize d) ->
  exists raw, raw ∈ sinks d /\ s = canonicalize_sink raw /\ is_usable s = true.
Proof.
  intros Hs. destruct (canonical_sinks_spec [] (sinks d)) as (_ & _ & H);
    [by apply Nat.ltb_lt|constructor|]. destruct (H s Hs) as [Hn|?]; [by apply elem_of_nil in Hn|done].
Qed.

(** whatever a settings file or a patch holds, the canonical settings are well
    formed: at most eight destinations with distinct, valid ids, each complete enough to be
    attempted; bounded timings, prefix and watch list, with usable and distinct watch
    targets; a credential binding only when it names the present configuration; and a
    content consent, or a mode that carries text, only when the consent names this
    destination and, for ServerChan, a SendKey revision. *)
Theorem canonical_settings_are_well_formed d : settings_wf (canonicalize d).
Proof.
  destruct (canonical_sinks_spec [] (sinks d)) as (H1 & H2 & H3); [by apply Nat.ltb_lt|constructor|].
  split_and!; [exact H1|exact H2|]. apply Forall_forall. intros s Hs.
  destruct (canonicalize_elem d s Hs) as (raw & _ & -> & Hu). split; [done|].
  apply canonicalize_credential_wf.
Qed.

(** * Identifiers are fixed by canonicalization *)

Definition id_char (a : ascii) : bool :=
  is_ascii_lowercase a || is_ascii_digit a || Ascii.eqb a "-" || Ascii.eqb a "_".

Lemma id_char_facts a :
  id_char a = true -> is_continuation a = false /\ (byte_of a <? 128)%N = true
  /\ lower_char a = a /\ is_whitespace (String a "") = false.
Proof. destruct a as [[][][][][][][][]]; vm_compute; intros H; try discriminate H; done. Qed.

Lemma id_split_chars s :
  all_str id_char s = true ->
  (split_chars s).1 = "" /\ Forall (fun c => is_whitespace c = false) (split_chars s).2.
Proof.
  induction s as [|a s IH]; [by split; [|constructor]|]. cbn [all_str split_chars].
  intros [Ha Hs]%andb_true_iff. destruct (IH Hs) as [H1 H2].
  destruct (split_chars s) as [k cs]. cbn in H1, H2. subst k.
  destruct (id_char_facts a Ha) as (-> & -> & _ & Hw). cbn. split; [done|by constructor].
Qed.

Lemma drop_while_none {A} (p : A -> bool) l : Forall (fun x => p x = false) l -> drop_while p l = l.
Proof. destruct 1 as [|x l Hx Hl]; cbn; [done|by rewrite Hx]. Qed.

Lemma canonical_id_fixed s : all_str id_char s = true -> to_ascii_lowercase (trim s) = s.
Proof.
  intros Hs. destruct (id_split_chars s Hs) as [H1 H2].
  assert (Ht : trim s = s).
  { unfold trim, trim_end_matches. rewrite <-(chars_concat s) at 2. f_equal. unfold chars.
    destruct (split_chars s) as [k cs]. cbn in H1, H2. subst k. cbn [cons_nonempty].
    rewrite (drop_while_none _ cs H2), drop_while_none by by apply Forall_reverse.
    apply reverse_involutive. }
  rewrite Ht. clear Ht H1 H2. unfold to_ascii_lowercase. induction s as [|a s IH]; [done|].
  cbn in Hs |- *. apply andb_true_iff in Hs as [Ha Hs].
  destruct (id_char_facts a Ha) as (_ & _ & -> & _). by rewrite IH.
Qed.

Lemma usable_id s : is_usable s = true -> to_ascii_lowercase (trim (id s)) = id s.
Proof.
  unfold is_usable, is_valid_notification_sink_id. rewrite !andb_true_iff. intros [[_ H] _].
  by apply canonical_id_fixed.
Qed.

Lemma canonicalize_config_keeps s :
  id (canonicalize_config s) = id s /\ secret_binding (canonicalize_config s) = secret_binding s.
Proof.
  unfold canonicalize_config. destruct (config s); cbn; [|done..]. by destruct (is_empty _).
Qed.

Lemma canonicalize_sink_keeps s :
  id (canonicalize_sink s) = to_ascii_lowercase (trim (id s))
  /\ (secret_binding (canonicalize_sink s) = None
     \/ secret_binding (canonicalize_sink s) = secret_binding s).
Proof.
  assert (Haddr : id (canonicalize_addresses s) = to_ascii_lowercase (trim (id s))
                  /\ secret_binding (canonicalize_addresses s) = secret_binding s).
  { unfold canonicalize_addresses.
    set (s0 := s <| id ::= _ |> <| destination ::= _ |> <| from_address ::= _ |>
                 <| sender_name ::= _ |>).
    destruct (canonicalize_config_keeps s0) as [H1 H2].
    destruct (is_empty (sender_name (canonicalize_config s0)));
      destruct (is_serverchan _); (split; [exact H1|exact H2]). }
  unfold canonicalize_sink. destruct Haddr as [<- <-].
  generalize (canonicalize_addresses s) as a. intros a. unfold canonicalize_credential.
  set (a1 := match credential_revision a with None => _ | Some _ => _ end).
  assert (H : id a1 = id a /\ (secret_binding a1 = None \/ secret_binding a1 = secret_binding a)).
  { unfold a1. destruct (credential_revision a); auto. }
  destruct (negb _ || _); exact H.
Qed.

(** * Credential bindings *)

Lemma strip_prefix_Some p s rest : strip_prefix p s = Some rest -> s = p +:+ rest.
Proof.
  revert s; induction p as [|a p IH]; intros [|b s]; cbn; try done; [by intros [= <-]..|].
  destruct (Ascii.eqb_spec a b) as [->|]; [|done]. intros ->%IH. done.
Qed.

Lemma is_empty_true s : is_empty s = true -> s = "".
Proof. by destruct s. Qed.

Lemma credential_revision_binding s rev :
  credential_revision s = Some rev -> rev ≠ "" ->
  secret_binding s = Some (credential_binding s rev).
Proof.
  unfold credential_revision. intros (b & Hb & H)%bind_Some Hne.
  apply bind_Some in H as (rest & Hrest & H). apply strip_prefix_Some in Hrest as ->.
  destruct (is_empty rest); [by injection H as <-|].
  apply bind_Some in H as (r & Hr & H). apply strip_prefix_Some in Hr as ->.
  unfold then_some in H. case_match; [|done]. injection H as <-. exact Hb.
Qed.

(** A ServerChan consent names the revision of the bound SendKey. *)
Lemma sendkey_consent s :
  is_serverchan (config s) = true -> consent_matches s = true -> consent_recipient s ≠ "" ->
  exists rev, rev ≠ "" /\ secret_binding s = Some (credential_binding s rev)
    /\ recipient <$> content_consent s = Some ("sendkey#" +:+ rev).
Proof.
  intros Hsc Hmatch Hrec.
  assert (exists rev, credential_revision s = Some rev /\ rev ≠ ""
                      /\ consent_recipient s = "sendkey#" +:+ rev) as (rev & Hrev & Hne & Hr).
  { unfold consent_recipient in *. unfold is_serverchan in Hsc.
    destruct (config s); [done|done|].
    destruct (credential_revision s) as [rev|]; [|done]. exists rev.
    destruct rev; [done|]. by split_and!. }
  exists rev. split_and!; [done|by apply credential_revision_binding|].
  unfold consent_matches in Hmatch. destruct (content_consent s) as [k|]; [|done]. cbn in Hmatch |- *.
  apply andb_true_iff in Hmatch as [_ Hk]. apply String.eqb_eq in Hk. by rewrite Hk, Hr.
Qed.

(** The canonical form of a rebound sink keeps only the core's binding. *)
Lemma rebound_sink self incoming s :
  s ∈ sinks (apply_patch self incoming false) ->
  (secret_binding s = None \/ secret_binding s = sink self (id s) ≫= secret_binding)
  /\ (is_serverchan (config s) = true -> carries_text (content s) = true ->
      consent_matches s = true /\ consent_recipient s ≠ "").
Proof.
  intros Hs. destruct (canonicalize_elem _ s Hs) as (raw & Hraw & -> & _).
  apply list_elem_of_fmap in Hraw as (p & -> & Hp).
  destruct (canonicalize_elem _ p Hp) as (_ & _ & _ & Hup).
  pose proof (canonicalize_sink_keeps (p <| secret_binding := sink self (id p) ≫= secret_binding |>))
    as [Hid Hb].
  pose proof (canonicalize_sink_consent (p <| secret_binding := sink self (id p) ≫= secret_binding |>))
    as Hcons.
  revert Hid Hb Hcons.
  generalize (canonicalize_sink (p <| secret_binding := sink self (id p) ≫= secret_binding |>)) as s.
  intros s Hid Hb Hcons.
  assert (E : id s = id p) by (rewrite Hid; exact (usable_id p Hup)).
  rewrite E. split; [exact Hb|]. intros Hsc Htext. destruct (Hcons (or_intror Htext)) as [H1 H2]. auto.
Qed.

(** A revision the core mints. *)
Definition minted (rev : string) : Prop := rev ≠ "" /\ all_str is_ascii_hexdigit rev = true.
Lemma minted_no_hash x rev : minted (x +:+ "#" +:+ rev) -> False.
Proof. intros [_ H]. rewrite all_str_app in H. apply andb_true_iff in H as [_ H]. done. Qed.
(** The last hash of a binding separates its identity from its revision. *)
Lemma binding_split x y rev rev' :
  minted rev -> minted rev' -> x +:+ "#" +:+ rev = y +:+ "#" +:+ rev' -> x = y.
Proof.
  intros Hr Hr'. revert y. induction x as [|a x IH]; intros [|b y] E.
  - done.
  - change (String "#" rev = String b (y +:+ "#" +:+ rev')) in E. injection E as _ ->.
    by destruct (minted_no_hash y rev' Hr).
  - change (String a (x +:+ "#" +:+ rev) = String "#" rev') in E. injection E as _ <-.
    by destruct (minted_no_hash x rev Hr').
  - change (String a (x +:+ "#" +:+ rev) = String b (y +:+ "#" +:+ rev')) in E. injection E as -> E.
    by rewrite (IH y E).
Qed.
(** A binding that is kept names the destination it is kept for. *)
Lemma bound_names_destination s b :
  secret_binding s = Some b -> is_Some (credential_revision s) ->
  b = credential_identity s \/ exists rev, minted rev /\ b = credential_binding s rev.
Proof.
  intros Hb [r H]. unfold credential_revision in H. rewrite Hb in H. cbn [mbind option_bind] in H.
  apply bind_Some in H as (rest & Hrest & H). apply strip_prefix_Some in Hrest as ->.
  destruct rest as [|c rest]; [left|right].
  { clear H Hb. induction (credential_identity s) as [|x t IH]; [done|].
    change (String x (t +:+ "") = String x t). by rewrite IH. }
  cbn [is_empty] in H. apply bind_Some in H as (rev & Hrev & H). apply strip_prefix_Some in Hrev as E.
  exists rev. unfold then_some in H. destruct (_ && _ && _) eqn:Ev; [|done].
  rewrite !andb_true_iff in Ev. destruct Ev as [[E1 _] E3]. split.
  - split; [|exact E3]. intros ->. done.
  - by rewrite E.
Qed.
Lemma rebound_names_destination self incoming s :
  s ∈ sinks (apply_patch self incoming false) -> is_Some (secret_binding s) -> is_Some (credential_revision s).
Proof.
  intros Hs. destruct (canonicalize_elem _ s Hs) as (raw & _ & -> & _).
  by destruct (canonicalize_credential_wf (canonicalize_addresses raw)) as (_ & _ & _ & _ & H & _).
Qed.

(** C31: only the core names a credential, and it stays with the server it was entered for.  After a
    patch from the renderer, a destination's binding is the one the core last wrote for that id or
    none at all, whatever the patch claims.  A binding that is kept names the destination as it is
    now: its identity, the kind, server address and user name as one string, is that of the binding,
    so an edit of any of them drops the credential — but for an edit that appends the binding's own revision to the address or
    user name, which is taken for a binding without a revision.  And a ServerChan destination carries
    message text only under a consent that names the very SendKey revision that binding holds: a
    consent given for a replaced SendKey is not revived. *)
Theorem renderer_cannot_bind_a_credential self incoming s :
  s ∈ sinks (apply_patch self incoming false) ->
  (forall b, secret_binding s = Some b ->
     (exists cur, sink self (id s) = Some cur /\ secret_binding cur = Some b)
     /\ (b = credential_identity s \/ exists rev, minted rev /\ b = credential_binding s rev))
  /\ (forall cur entered rev,
        sink self (id s) = Some cur -> minted rev ->
        secret_binding cur = Some (credential_binding entered rev) ->
        credential_identity s ≠ credential_identity entered ->
        credential_identity s ≠ credential_binding entered rev ->
        secret_binding s = None)
  /\ (is_serverchan (config s) = true -> carries_text (content s) = true ->
      exists cur rev, sink self (id s) = Some cur /\ rev ≠ ""
        /\ secret_binding cur = Some (credential_binding s rev)
        /\ recipient <$> content_consent s = Some ("sendkey#" +:+ rev)).
Proof.
  intros Hs. destruct (rebound_sink self incoming s Hs) as [Hb Hcons].
  assert (Hbind : forall b, secret_binding s = Some b ->
    exists cur, sink self (id s) = Some cur /\ secret_binding cur = Some b).
  { intros b Hbs. destruct Hb as [E|E]; rewrite Hbs in E; [done|].
    symmetry in E. by apply bind_Some in E. }
  assert (Hnames : forall b, secret_binding s = Some b ->
    b = credential_identity s \/ exists rev, minted rev /\ b = credential_binding s rev).
  { intros b Hbs. apply bound_names_destination; [exact Hbs|].
    apply (rebound_names_destination self incoming s Hs). rewrite Hbs. by eexists. }
  split; [|split].
  - intros b Hbs. split; [by apply Hbind|by apply Hnames].
  - intros cur entered rev Hc Hr Hcb Hne Hne'. destruct (secret_binding s) as [b|] eqn:Hbs; [|done].
    destruct (Hbind b eq_refl) as (cur' & Hc' & Hcb'). assert (cur' = cur) as -> by congruence.
    assert (b = credential_binding entered rev) as -> by congruence.
    destruct (Hnames _ eq_refl) as [E|(rev' & Hr' & E)]; [congruence|].
    destruct Hne. symmetry. exact (binding_split _ _ _ _ Hr Hr' E).
  - intros Hsc Htext. destruct (Hcons Hsc Htext) as [Hmatch Hrec].
    destruct (sendkey_consent s Hsc Hmatch Hrec) as (rev & Hne & Hbs & Hr).
    destruct (Hbind _ Hbs) as (cur & ? & ?). by exists cur, rev.
Qed.

(** A renderer that echoes an old binding and the consent given for its SendKey. *)
Lemma renderer_cannot_bind_a_credential_witness :
  let base := {| id := "wechat"; destination := ""; from_address := ""; sender_name := "";
                 config := ServerChan "https://sctapi.ftqq.com"; secret_binding := None;
                 targets := Targets_default; content := Full; content_consent := None;
                 timing := Timing_default; direct_partner_label := MatrixId |} in
  let bound rev := base <| secret_binding := Some (credential_binding base rev) |> in
  let consented rev := (bound rev) <| content_consent := Some (consent_for_current (bound rev) 0) |> in
  let self := {| sinks := [consented "b2"] |} in
  let patched := apply_patch self {| sinks := [consented "a1"] |} false in
  let moved := apply_patch self
    {| sinks := [(consented "b2") <| config := ServerChan "https://elsewhere.org" |>] |} false in
  (content <$> sinks patched) = [NamesOnly]
  /\ (exists s, s ∈ sinks patched /\ exists cur, sink self (id s) = Some cur
                /\ secret_binding cur = Some (credential_binding base "b2"))
  /\ exists s, s ∈ sinks moved /\ secret_binding s = None.
Proof.
  intros base bound consented self patched moved. split; [vm_compute; reflexivity|]. split.
  - set (s := default base (head (sinks patched))).
    assert (Hs : s ∈ sinks patched).
    { assert (E : sinks patched = [s]) by (vm_compute; reflexivity). rewrite E. left. }
    exists s. split; [exact Hs|].
    apply (proj1 (renderer_cannot_bind_a_credential self {| sinks := [consented "a1"] |} s Hs)).
    vm_compute. reflexivity.
  - set (s := default base (head (sinks moved))).
    assert (Hs : s ∈ sinks moved).
    { assert (E : sinks moved = [s]) by (vm_compute; reflexivity). rewrite E. left. }
    exists s. split; [exact Hs|].
    apply (proj1 (proj2 (renderer_cannot_bind_a_credential self
      {| sinks := [(consented "b2") <| config := ServerChan "https://elsewhere.org" |>] |} s Hs))
      (consented "b2") base "b2").
    + vm_compute. reflexivity.
    + split; [discriminate|reflexivity].
    + reflexivity.
    + vm_compute. discriminate.
    + vm_compute. discriminate.
Defined.

(** Appended to the endpoint, the revision of a binding passes for part of the address: the
    credential stays with a destination the core never entered it for. *)
Example appended_revision_keeps_the_credential :
  let base := {| id := "wechat"; destination := ""; from_address := ""; sender_name := "";
                 config := ServerChan "https://sctapi.ftqq.com"; secret_binding := None;
                 targets := Targets_default; content := NamesOnly; content_consent := None;
                 timing := Timing_default; direct_partner_label := MatrixId |} in
  let bound := base <| secret_binding := Some (credential_binding base "b2") |> in
  let patched := apply_patch {| sinks := [bound] |}
    {| sinks := [base <| config := ServerChan "https://sctapi.ftqq.com#b2" |>] |} false in
  (endpoint <$> sinks patched) = ["https://sctapi.ftqq.com#b2"]
  /\ (secret_binding <$> sinks patched) = [Some (credential_binding base "b2")].
Proof. split; vm_compute; reflexivity. Qed.

(** * Migration *)

Lemma canonicalize_addresses_keeps s :
  content (canonicalize_addresses s) = content s /\ targets (canonicalize_addresses s) = targets s.
Proof.
  unfold canonicalize_addresses.
  set (s0 := s <| id ::= _ |> <| destination ::= _ |> <| from_address ::= _ |> <| sender_name ::= _ |>).
  assert (H : content (canonicalize_config s0) = content s /\ targets (canonicalize_config s0) = targets s).
  { unfold canonicalize_config. destruct (config s0); cbn; [|done..]. by destruct (is_empty _). }
  by destruct (is_empty (sender_name (canonicalize_config s0))); destruct (is_serverchan _).
Qed.

Lemma canonicalize_sink_content s :
  content (canonicalize_sink s) = NamesOnly
  \/ content (canonicalize_sink s) = canonicalize_content (content s).
Proof.
  unfold canonicalize_sink. destruct (canonicalize_addresses_keeps s) as [<- _].
  generalize (canonicalize_addresses s) as a. intros a. unfold canonicalize_credential.
  destruct (negb _ || _); [by left|right]. by destruct (credential_revision a).
Qed.

Lemma canonicalize_sink_no_targets s : targets s = targets_none -> targets (canonicalize_sink s) = targets_none.
Proof.
  unfold canonicalize_sink. destruct (canonicalize_addresses_keeps s) as [_ <-].
  generalize (canonicalize_addresses s) as a. intros a Ha. unfold canonicalize_credential.
  assert (H : forall b : bool, targets ((if b then revoke_content_consent else (fun s => s))
    ((match credential_revision a with None => a <| secret_binding := None |> | Some _ => a end)
       <| targets ::= canonicalize_targets |> <| timing ::= canonicalize_timing |>
       <| content ::= canonicalize_content |>)) = targets_none).
  { intros []; cbn; destruct (credential_revision a); cbn; by rewrite Ha. }
  destruct (negb _ || _) eqn:E; [exact (H true)|exact (H false)].
Qed.

(** loading settings written before destinations had targets of their own can only
    narrow what leaves the device: a destination that was switched off, or whose channel
    was, is loaded with no target at all; and one that still carries message text was
    named by the old consent, in the prefix mode and with at most 200 characters, never
    more than the file asked for. *)
Theorem migration_only_narrows w wire :
  wire_targets wire = None ->
  let s := canonicalize_sink (migrate_wire w wire) in
  (channel_enabled w ≠ Some true \/ wire_enabled wire ≠ Some true -> has_any (targets s) = false)
  /\ (carries_text (content s) = true ->
      exists consent g, prefix_consent w = Some consent
        /\ consent_names_this_sink consent (sink_of_wire wire) = true
        /\ content s = Prefix g /\ g <= LEGACY_MAX_PREFIX_CHARS
        /\ g <= or_default DEFAULT_NOTIFICATION_DELIVERY_PREFIX_GRAPHEMES (prefix_chars w)).
Proof.
  intros Hlegacy s. subst s. unfold migrate_wire. rewrite Hlegacy.
  set (sending := or_default false (channel_enabled w) && or_default false (wire_enabled wire)).
  split.
  - intros Hoff. assert (sending = false) as ->.
    { unfold sending. destruct (channel_enabled w) as [[]|], (wire_enabled wire) as [[]|]; try done.
      by destruct Hoff. }
    rewrite canonicalize_sink_no_targets; [done|].
    unfold migrate_legacy_sink. destruct (prefix_consent w); [|done]. by destruct (_ && _).
  - intros Htext. destruct (canonicalize_sink_content
      (migrate_legacy_sink (sink_of_wire wire) sending (legacy_targets_of w) (legacy_timing_of w)
         (legacy_prefix_of w) (prefix_consent w))) as [E|E]; [by rewrite E in Htext|].
    rewrite E in Htext |- *. unfold migrate_legacy_sink in *.
    destruct (prefix_consent w) as [consent|]; [|done].
    change (consent_names_this_sink consent (_ <| content_consent := None |>))
      with (consent_names_this_sink consent (sink_of_wire wire)) in *.
    destruct (consent_names_this_sink consent (sink_of_wire wire)) eqn:En; cbn [andb] in *; [|done].
    destruct (0 <? legacy_prefix_of w) eqn:Ep; [|done]. cbn in Htext |- *.
    unfold legacy_prefix_of in *.
    destruct (Z.min (Z.min _ _) _ =? 0) eqn:E0; [done|].
    eexists consent, _. split_and!; [done|done|reflexivity|lia|lia].
Qed.

Lemma migration_only_narrows_witness :
  let wire := {| wire_id := "Mail"; wire_destination := "me@x.org"; wire_from_address := "";
                 wire_sender_name := ""; wire_config := Resend "https://api";
                 wire_secret_binding := None; wire_targets := None; wire_content := Some Full;
                 wire_content_consent := None; wire_timing := None;
                 wire_direct_partner_label := MatrixId; wire_enabled := Some true |} in
  let w := {| wire_sinks := [wire]; channel_enabled := Some true; channel_direct_messages := None;
              channel_mentions := None; channel_keywords := None;
              channel_only_when_unfocused := None; channel_dwell_secs := None;
              channel_min_interval_secs := None; prefix_chars := Some 450;
              prefix_consent := Some {| legacy_sink_id := "mail"; legacy_destination := "me@x.org";
                legacy_endpoint := "https://api"; legacy_accepted_at_ms := 7 |};
              channel_watched := None |} in
  content (canonicalize_sink (migrate_wire w wire)) = Prefix 200
  /\ exists consent g, prefix_consent w = Some consent
       /\ consent_names_this_sink consent (sink_of_wire wire) = true
       /\ content (canonicalize_sink (migrate_wire w wire)) = Prefix g /\ g <= LEGACY_MAX_PREFIX_CHARS
       /\ g <= or_default DEFAULT_NOTIFICATION_DELIVERY_PREFIX_GRAPHEMES (prefix_chars w).
Proof.
  intros wire w. split; [vm_compute; reflexivity|].
  apply (proj2 (migration_only_narrows w wire eq_refl)). vm_compute. reflexivity.
Defined.
