(* ===== verification/Delivery.v ===== *)
(** The device-local notification delivery engine of [crates/koushi-core]:
    which rooms qualify ([notification_delivery/qualifying.rs]), how long they wait
    ([dwell.rs]), what a message says ([digest.rs], with the wording of
    [koushi-state/src/notification_text.rs]) and the state of the lanes
    ([channel.rs]).

    An [Instant] and a [Duration] are integers, in nanoseconds.  Two things are not in the
    repository and are parameters: [graphemes] (the [unicode_segmentation] crate) and
    [INSTANT_MAX], the last instant the platform's clock can represent. *)

From stdpp Require Import base list strings gmap sorting.
From Stdlib Require Import ZArith Lia Ascii.
From S2P Require Import Prelude Text DeliverySettings.
Local Open Scope string_scope.
Local Open Scope list_scope.
Local Open Scope Z_scope.
Local Set Warnings "-clear-no-such-hyp".

(** * Wording *)

Inductive CatalogLocale := Locale_En | Locale_Ja | Locale_ZhHans | Locale_ZhHant | Locale_Ko
  | Locale_Pseudo.

Inductive NotificationText :=
  | MentionFrom (name : string) | DirectMessageFrom (name : string)
  | MentionIn (place : string) | DirectMessageIn (place : string) | MessageIn (place : string)
  | RoomFallback
  | SubjectMoreRooms (headline : string) (count : Z)
  | BodyMoreRooms (count : Z) | MentionCount (count : Z) | UnreadCount (count : Z)
  | TestDeliverySubject | TestDeliveryBody.

Inductive Lang := En | Ja | ZhHans | ZhHant | Ko.

Definition lang (locale : CatalogLocale) : Lang :=
  match locale with
  | Locale_En | Locale_Pseudo => En
  | Locale_Ja => Ja
  | Locale_ZhHans => ZhHans
  | Locale_ZhHant => ZhHant
  | Locale_Ko => Ko
  end.

Inductive NotificationPlural := One | Other.

Definition notification_plural (locale : CatalogLocale) (count : Z) : NotificationPlural :=
  match lang locale with
  | En => if count =? 1 then One else Other
  | _ => Other
  end.

Definition notification_list_separator (locale : CatalogLocale) : string :=
  match lang locale with
  | En | Ko => ", "
  | Ja => "、"
  | ZhHans | ZhHant => "，"
  end.

Definition notification_label_separator (locale : CatalogLocale) : string :=
  match lang locale with
  | En | Ja | Ko => ": "
  | ZhHans | ZhHant => "："
  end.

Definition notification_text (locale : CatalogLocale) (text : NotificationText) : string :=
  let one count := match notification_plural locale count with One => true | Other => false end in
  match lang locale, text with
  | En, MentionFrom name => "Mention from " +:+ name
  | Ja, MentionFrom name => name +:+ " からのメンション"
  | ZhHans, MentionFrom name => "来自 " +:+ name +:+ " 的提及"
  | ZhHant, MentionFrom name => "來自 " +:+ name +:+ " 的提及"
  | Ko, MentionFrom name => name +:+ "님의 멘션"
  | En, DirectMessageFrom name => "Direct message from " +:+ name
  | Ja, DirectMessageFrom name => name +:+ " からのダイレクトメッセージ"
  | ZhHans, DirectMessageFrom name => "来自 " +:+ name +:+ " 的私信"
  | ZhHant, DirectMessageFrom name => "來自 " +:+ name +:+ " 的私訊"
  | Ko, DirectMessageFrom name => name +:+ "님의 다이렉트 메시지"
  | En, MentionIn place => "Mention in " +:+ place
  | Ja, MentionIn place => place +:+ " でのメンション"
  | ZhHans, MentionIn place => place +:+ " 中的提及"
  | ZhHant, MentionIn place => place +:+ " 中的提及"
  | Ko, MentionIn place => place +:+ "의 멘션"
  | En, DirectMessageIn place => "Direct message in " +:+ place
  | Ja, DirectMessageIn place => place +:+ " のダイレクトメッセージ"
  | ZhHans, DirectMessageIn place => place +:+ " 中的私信"
  | ZhHant, DirectMessageIn place => place +:+ " 中的私訊"
  | Ko, DirectMessageIn place => place +:+ "의 다이렉트 메시지"
  | En, MessageIn place => "Message in " +:+ place
  | Ja, MessageIn place => place +:+ " のメッセージ"
  | ZhHans, MessageIn place => place +:+ " 中的消息"
  | ZhHant, MessageIn place => place +:+ " 中的訊息"
  | Ko, MessageIn place => place +:+ "의 메시지"
  | En, RoomFallback => "Room"
  | Ja, RoomFallback => "ルーム"
  | ZhHans, RoomFallback => "房间"
  | ZhHant, RoomFallback => "聊天室"
  | Ko, RoomFallback => "방"
  | En, SubjectMoreRooms headline count =>
      headline +:+ " and " +:+ display count +:+ (if one count then " more room" else " more rooms")
  | Ja, SubjectMoreRooms headline count => headline +:+ " ほか " +:+ display count +:+ " 件のルーム"
  | ZhHans, SubjectMoreRooms headline count =>
      headline +:+ " 及另外 " +:+ display count +:+ " 个房间"
  | ZhHant, SubjectMoreRooms headline count =>
      headline +:+ " 及另外 " +:+ display count +:+ " 個聊天室"
  | Ko, SubjectMoreRooms headline count => headline +:+ " 외 방 " +:+ display count +:+ "개"
  | En, BodyMoreRooms count => "and " +:+ display count +:+ " more"
  | Ja, BodyMoreRooms count => "ほか " +:+ display count +:+ " 件"
  | ZhHans, BodyMoreRooms count => "及另外 " +:+ display count +:+ " 个"
  | ZhHant, BodyMoreRooms count => "及另外 " +:+ display count +:+ " 個"
  | Ko, BodyMoreRooms count => "외 " +:+ display count +:+ "개"
  | En, MentionCount count => display count +:+ (if one count then " mention" else " mentions")
  | Ja, MentionCount count => "メンション " +:+ display count +:+ " 件"
  | ZhHans, MentionCount count => display count +:+ " 条提及"
  | ZhHant, MentionCount count => display count +:+ " 則提及"
  | Ko, MentionCount count => "멘션 " +:+ display count +:+ "개"
  | En, UnreadCount count => display count +:+ " unread"
  | Ja, UnreadCount count => "未読 " +:+ display count +:+ " 件"
  | ZhHans, UnreadCount count => display count +:+ " 条未读"
  | ZhHant, UnreadCount count => display count +:+ " 則未讀"
  | Ko, UnreadCount count => "읽지 않음 " +:+ display count +:+ "개"
  | En, TestDeliverySubject => "Koushi test notification"
  | Ja, TestDeliverySubject => "Koushi のテスト通知"
  | ZhHans, TestDeliverySubject => "Koushi 测试通知"
  | ZhHant, TestDeliverySubject => "Koushi 測試通知"
  | Ko, TestDeliverySubject => "Koushi 테스트 알림"
  | En, TestDeliveryBody =>
      "This is a test notification from Koushi." +:+ nl
      +:+ "If you can read it, this device can reach this delivery sink. No room, message, "
      +:+ "or account data is included in a test send."
  | Ja, TestDeliveryBody =>
      "これは Koushi からのテスト通知です。" +:+ nl
      +:+ "これが読めれば、この端末からこの通知先に届けられます。テスト送信にはルーム、"
      +:+ "メッセージ、アカウントの情報は含まれません。"
  | ZhHans, TestDeliveryBody =>
      "这是来自 Koushi 的测试通知。" +:+ nl
      +:+ "如果你能看到它，说明此设备可以送达这个通知目标。测试发送不包含任何房间、消息或账户数据。"
  | ZhHant, TestDeliveryBody =>
      "這是來自 Koushi 的測試通知。" +:+ nl
      +:+ "如果你能看到它，表示此裝置可以送達這個通知目標。測試傳送不包含任何聊天室、訊息或帳號資料。"
  | Ko, TestDeliveryBody =>
      "Koushi에서 보낸 테스트 알림입니다." +:+ nl
      +:+ "이 알림이 보이면 이 기기에서 이 알림 대상으로 전달할 수 있습니다. 테스트 전송에는 방, "
      +:+ "메시지, 계정 정보가 포함되지 않습니다."
  end.

Definition notification_counts (locale : CatalogLocale) (mention_count unread_count : Z) : string :=
  join (notification_list_separator locale)
    ((if 0 <? mention_count then [notification_text locale (MentionCount mention_count)] else [])
     ++ (if 0 <? unread_count then [notification_text locale (UnreadCount unread_count)] else [])).

(** * Rooms *)

Inductive RoomAttentionKind := Kind_Mention | Kind_Dm | Kind_Message.

Record DirectPartner := { user_id : string; local_alias : option string }.

Record BoundedNotificationDeliveryText := { text : string; truncated_at_source : bool }.

Record RoomAttentionCandidate := {
  cand_room_id : string; cand_display_label : string; cand_kind : RoomAttentionKind;
  cand_unread : Z; cand_mentions : Z; parent_space_ids : list string;
  parent_space_labels : list string;
  newest_message_text : option BoundedNotificationDeliveryText;
  cand_direct_partner : option DirectPartner }.

Record QualifyingRoom := {
  room_id : string; display_label : string; space_labels : list string;
  room_kind : RoomAttentionKind; direct_partner : option DirectPartner;
  room_unread : Z; room_mentions : Z;
  message_text : option BoundedNotificationDeliveryText }.

#[export] Instance QualifyingRoom_updatable : Updatable QualifyingRoom := fun r =>
  {| room_id := room_id r; display_label := display_label r; space_labels := space_labels r;
     room_kind := room_kind r; direct_partner := direct_partner r;
     room_unread := room_unread r; room_mentions := room_mentions r;
     message_text := message_text r |}.

(** ** [qualifying.rs] *)

Definition qualifies_by_trigger (s : NotificationSinkSettings) (c : RoomAttentionCandidate)
    : bool :=
  let targets := targets s in
  if watches_room targets (cand_room_id c)
     || existsb (watches_space targets) (parent_space_ids c)
  then true
  else match cand_kind c with
       | Kind_Mention => mentions targets || keywords targets
       | Kind_Dm => direct_messages targets
       | Kind_Message => false
       end.

Definition qualifying_room (text_allowed : bool) (c : RoomAttentionCandidate) : QualifyingRoom :=
  {| room_id := cand_room_id c; display_label := cand_display_label c;
     space_labels := parent_space_labels c; room_kind := cand_kind c;
     direct_partner := cand_direct_partner c; room_unread := cand_unread c;
     room_mentions := cand_mentions c;
     message_text := if text_allowed then newest_message_text c else None |}.

Definition qualifying_rooms (s : NotificationSinkSettings)
    (candidates : list RoomAttentionCandidate) (focused : bool) : list QualifyingRoom :=
  if negb (has_any (targets s)) then []
  else if only_when_unfocused (timing s) && focused then []
  else qualifying_room (carries_text (effective_content s))
         <$> List.filter (qualifies_by_trigger s) candidates.

(** ** [dwell.rs] *)

Record DwellTracker := {
  dwell : Z; pending : gmap string Z; delivered : gset string }.

#[export] Instance DwellTracker_updatable : Updatable DwellTracker := fun t =>
  {| dwell := dwell t; pending := pending t; delivered := delivered t |}.

Definition DwellTracker_new (dwell : Z) : DwellTracker :=
  {| dwell := dwell; pending := ∅; delivered := ∅ |}.

(** [now.checked_duration_since(anchor)] *)
Definition checked_duration_since (now anchor : Z) : option Z :=
  if anchor <=? now then Some (now - anchor) else None.

(** The [BTreeMap] of the observation: the first entry of each room id. *)
Definition observed_rooms (qualifying : list QualifyingRoom) : gmap string QualifyingRoom :=
  foldl (fun observed room =>
           match observed !! room_id room with
           | Some _ => observed
           | None => <[room_id room := room]> observed
           end) ∅ qualifying.

(** One turn of the loop of [observe], for an observed room. *)
Definition observe_room (now : Z) (t : DwellTracker) (due : list QualifyingRoom)
    (entry : string * QualifyingRoom) : DwellTracker * list QualifyingRoom :=
  let '(room_id, room) := entry in
  if bool_decide (room_id ∈ delivered t) then (t, due)
  else
    let '(anchor, t) :=
      match pending t !! room_id with
      | Some anchor => (anchor, t)
      | None => (now, t <| pending ::= <[room_id := now]> |>)
      end in
    if is_some_and (checked_duration_since now anchor) (fun elapsed => dwell t <=? elapsed)
    then (t <| pending ::= delete room_id |> <| delivered ::= fun d => {[room_id]} ∪ d |>,
          due ++ [room])
    else (t, due).

Definition observe (t : DwellTracker) (now : Z) (qualifying : list QualifyingRoom)
    : DwellTracker * list QualifyingRoom :=
  let observed := observed_rooms qualifying in
  let t := t <| pending ::= filter (fun e => is_Some (observed !! e.1)) |>
             <| delivered ::= filter (fun r => is_Some (observed !! r)) |> in
  foldl (fun '(t, due) entry => observe_room now t due entry) (t, []) (btree_iter observed).

Definition is_pending (t : DwellTracker) (room_id : string) : bool :=
  bool_decide (is_Some (pending t !! room_id)).

(** * The message ([digest.rs]) *)

Definition MAX_NOTIFICATION_DIGEST_ROOMS : nat := 5.
Definition MAX_NOTIFICATION_SUBJECT_GRAPHEMES : nat := 200.
Definition MAX_SERVERCHAN_TITLE_GRAPHEMES : nat := 32.
Definition NOTIFICATION_TEXT_TRUNCATED_MARKER : string := "[truncated]".
Definition MAX_NOTIFICATION_DELIVERY_MESSAGE_SOURCE_CHARS : nat := 4000.

Record NotificationDeliveryIntent := {
  intent_sink_id : string; intent_destination : string; intent_from_address : string;
  intent_sender_name : string; subject : string; body : string; idempotency_key : string }.

#[export] Instance Intent_updatable : Updatable NotificationDeliveryIntent := fun i =>
  {| intent_sink_id := intent_sink_id i; intent_destination := intent_destination i;
     intent_from_address := intent_from_address i; intent_sender_name := intent_sender_name i;
     subject := subject i; body := body i; idempotency_key := idempotency_key i |}.

Inductive BodyFormat := PlainText | Markdown.

Definition attention_kind_priority (k : RoomAttentionKind) : Z :=
  match k with Kind_Mention => 3 | Kind_Dm => 2 | Kind_Message => 1 end.

(** The comparator of [ordered_rooms]. *)
Definition room_cmp (left right : QualifyingRoom) : comparison :=
  then_with (attention_kind_priority (room_kind right) ?= attention_kind_priority (room_kind left))
 (then_with (room_mentions right ?= room_mentions left)
 (then_with (room_unread right ?= room_unread left)
 (then_with (String.compare (display_label left) (display_label right))
            (String.compare (room_id left) (room_id right))))).

Definition ordered_rooms (due : list QualifyingRoom) : list QualifyingRoom :=
  retain_first room_id ∅
    (sort_by (fun l r => match room_cmp l r with Gt => false | _ => true end) due).

Definition single_line (t : string) : string :=
  concat_str ((fun c => if is_control c || is_line_separator c then " " else c) <$> chars t).

Definition safe_lines (t : string) : string :=
  concat_str ((fun c => if String.eqb c nl || is_line_separator c then nl
                        else if is_control c then " " else c) <$> chars t).

Fixpoint escape_markdown (t : string) : string :=
  match t with
  | EmptyString => EmptyString
  | String a t =>
      if is_ascii_punctuation a then String "\" (String a (escape_markdown t))
      else String a (escape_markdown t)
  end.

Definition safe_label (label : string) : option string :=
  let label := trim (single_line label) in
  then_some (negb (is_empty label)) label.

Definition partner_name (partner : DirectPartner) (names : NotificationDeliveryPartnerLabel)
    : option string :=
  let alias := match names with
               | LocalAlias => local_alias partner ≫= safe_label
               | MatrixId => None
               end in
  match alias with Some a => Some a | None => safe_label (user_id partner) end.

Definition room_headline (room : QualifyingRoom) (names : NotificationDeliveryPartnerLabel)
    (locale : CatalogLocale) : string :=
  match direct_partner room ≫= (fun p => partner_name p names) with
  | Some name =>
      notification_text locale
        (match room_kind room with
         | Kind_Mention => MentionFrom name
         | Kind_Dm | Kind_Message => DirectMessageFrom name
         end)
  | None =>
      let label := match safe_label (display_label room) with
                   | Some l => l
                   | None => notification_text locale RoomFallback
                   end in
      let place := match find_map safe_label (space_labels room) with
                   | Some space => label +:+ " · " +:+ space
                   | None => label
                   end in
      notification_text locale
        (match room_kind room with
         | Kind_Mention => MentionIn place
         | Kind_Dm => DirectMessageIn place
         | Kind_Message => MessageIn place
         end)
  end.

Definition room_line (room : QualifyingRoom) (names : NotificationDeliveryPartnerLabel)
    (locale : CatalogLocale) : string :=
  let headline := room_headline room names locale in
  let counts := notification_counts locale (room_mentions room) (room_unread room) in
  if is_empty counts then headline
  else headline +:+ notification_label_separator locale +:+ counts.

Definition text_cap_graphemes (c : NotificationDeliveryContent) (budget : nat) : nat :=
  match c with
  | NamesOnly => 0
  | Prefix graphemes => Nat.min (Z.to_nat graphemes) budget
  | Full => budget
  end.

Definition sink_is_deliverable (s : NotificationSinkSettings) : bool :=
  if is_empty (trim (id s)) || is_empty (trim (endpoint s)) then false
  else match config s with
       | ServerChan _ => true
       | _ => negb (is_empty (trim (destination s))) && negb (is_empty (trim (from_address s)))
       end.

Definition idempotency_key_of (sink_id window_id : string) : string :=
  "koushi-notification/" +:+ sink_id +:+ "/" +:+ window_id.

(** [Duration::from_secs] *)
Definition from_secs (secs : Z) : Z := secs * 1000000000.

Definition coalesce_window (min_interval : Z) (last_attempt_at : option Z) (now : Z) : bool :=
  match last_attempt_at with
  | None => true
  | Some last =>
      is_some_and (checked_duration_since now last) (fun elapsed => min_interval <=? elapsed)
  end.

Section digest.
(** The grapheme clusters of a text, in order. *)
Context (graphemes : string -> list string).

Definition capped_graphemes (t : string) (max_graphemes : nat) : string :=
  let gs := graphemes t in
  if (max_graphemes <? length gs)%nat then concat_str (take max_graphemes gs) else t.

(** The loop of [bounded_notification_delivery_message_source]: the clusters kept so far,
    their characters, and what is left. *)
Fixpoint bound_source (t kept : string) (kept_chars : nat) (rest : list string)
    : BoundedNotificationDeliveryText :=
  match rest with
  | [] => {| text := t; truncated_at_source := false |}
  | g :: rest =>
      let kept_chars := (kept_chars + length (chars g))%nat in
      if (MAX_NOTIFICATION_DELIVERY_MESSAGE_SOURCE_CHARS <? kept_chars)%nat
      then {| text := kept; truncated_at_source := true |}
      else bound_source t (kept +:+ g) kept_chars rest
  end.

Definition bounded_notification_delivery_message_source (t : string)
    : option BoundedNotificationDeliveryText :=
  if is_empty t then None else Some (bound_source t "" 0 (graphemes t)).

Definition ellipsize (t : string) (cap : nat) : string :=
  let line := trim (single_line t) in
  let capped := capped_graphemes line (cap - 1) in
  if (length (graphemes line) <=? cap)%nat then line else trim_end capped +:+ "…".

Definition quote_line (format : BodyFormat) (line : string) : string :=
  match format with
  | PlainText => "> " +:+ line
  | Markdown => "> " +:+ escape_markdown line +:+ "  "
  end.

Definition room_text (room : QualifyingRoom) (cap : nat) (format : BodyFormat) : option string :=
  if (cap =? 0)%nat then None
  else
    source ← message_text room;
    let trimmed := trim (safe_lines (text source)) in
    if is_empty trimmed then None
    else
      let capped := capped_graphemes trimmed cap in
      let truncated := truncated_at_source source
                       || (String.length capped <? String.length trimmed)%nat in
      Some (join nl ((quote_line format <$> lines (trim_end capped))
                     ++ (if truncated then ["> " +:+ NOTIFICATION_TEXT_TRUNCATED_MARKER] else []))).

Definition digest_subject (first : QualifyingRoom) (room_count : nat) (cap : nat)
    (names : NotificationDeliveryPartnerLabel) (locale : CatalogLocale) : string :=
  let headline := room_headline first names locale in
  let subject := match (room_count - 1)%nat with
                 | O => headline
                 | more => notification_text locale (SubjectMoreRooms headline (Z.of_nat more))
                 end in
  ellipsize subject cap.

(** One room's block of the body. *)
Definition room_block (text_cap : nat) (format : BodyFormat)
    (names : NotificationDeliveryPartnerLabel) (locale : CatalogLocale) (room : QualifyingRoom)
    : string :=
  let block := match format with
               | PlainText => room_line room names locale
               | Markdown => escape_markdown (room_line room names locale)
               end in
  match room_text room text_cap format with
  | Some t => block +:+ nl +:+ t
  | None => block
  end.

Definition digest_body (rooms : list QualifyingRoom) (text_cap : nat) (format : BodyFormat)
    (names : NotificationDeliveryPartnerLabel) (locale : CatalogLocale) : string :=
  let blocks := room_block text_cap format names locale
                  <$> take MAX_NOTIFICATION_DIGEST_ROOMS rooms in
  let remaining := (length rooms - MAX_NOTIFICATION_DIGEST_ROOMS)%nat in
  join (nl +:+ nl)
    (blocks ++ (if (0 <? remaining)%nat
                then [notification_text locale (BodyMoreRooms (Z.of_nat remaining))] else [])).

Definition render_digest (s : NotificationSinkSettings) (c : NotificationDeliveryContent)
    (rooms : list QualifyingRoom) (locale : CatalogLocale) : option (string * string) :=
  let rooms := ordered_rooms rooms in
  first ← head rooms;
  let format := if is_serverchan (config s) then Markdown else PlainText in
  let subject_cap := match format with
                     | Markdown => MAX_SERVERCHAN_TITLE_GRAPHEMES
                     | PlainText => MAX_NOTIFICATION_SUBJECT_GRAPHEMES
                     end in
  let names := direct_partner_label s in
  let text_cap := text_cap_graphemes c (text_budget_graphemes s) in
  Some (digest_subject first (length rooms) subject_cap names locale,
        digest_body rooms text_cap format names locale).

Definition render_intent (s : NotificationSinkSettings) (rooms : list QualifyingRoom)
    (window_id : string) (locale : CatalogLocale) : option NotificationDeliveryIntent :=
  if negb (sink_is_deliverable s) then None
  else
    '(subject, body) ← render_digest s (effective_content s) rooms locale;
    Some {| intent_sink_id := id s; intent_destination := destination s;
            intent_from_address := from_address s; intent_sender_name := sender_name s;
            subject := subject; body := body;
            idempotency_key := idempotency_key_of (id s) window_id |}.

Record NotificationDeliveryPreviewSample := {
  partner_user_id : string; partner_alias : string; sample_message_text : string }.

Record NotificationDeliveryPreview := {
  preview_sender_name : string; preview_subject : string; preview_body : string }.

(** The sample conversation [preview_digest] renders. *)
Definition preview_room (sample : NotificationDeliveryPreviewSample) : QualifyingRoom :=
  let alias := trim (partner_alias sample) in
  {| room_id := ""; display_label := ""; space_labels := []; room_kind := Kind_Dm;
     direct_partner := Some {| user_id := partner_user_id sample;
                               local_alias := then_some (negb (is_empty alias)) alias |};
     room_unread := 1; room_mentions := 0;
     message_text := bounded_notification_delivery_message_source (sample_message_text sample) |}.

Definition preview_digest (s : NotificationSinkSettings)
    (sample : NotificationDeliveryPreviewSample) (locale : CatalogLocale)
    : NotificationDeliveryPreview :=
  let '(subject, body) :=
    or_default ("", "") (render_digest s (content s) [preview_room sample] locale) in
  {| preview_sender_name :=
       if is_serverchan (config s) then ""
       else if is_empty (sender_name s) then DEFAULT_NOTIFICATION_SENDER_NAME
       else sender_name s;
     preview_subject := subject; preview_body := body |}.

Definition test_delivery_intent (s : NotificationSinkSettings) (window_id : string)
    (locale : CatalogLocale) : NotificationDeliveryIntent :=
  {| intent_sink_id := id s; intent_destination := destination s;
     intent_from_address := from_address s; intent_sender_name := sender_name s;
     subject := notification_text locale TestDeliverySubject;
     body := notification_text locale TestDeliveryBody;
     idempotency_key := idempotency_key_of (id s) window_id |}.

End digest.
