(* ===== verification/DeliveryChannel.v ===== *)
(** The lanes of the notification delivery channel
    ([crates/koushi-core/src/notification_delivery/channel.rs], with the outcome types of
    [koushi-notify/src/lib.rs]): one lane per destination, with its dwell tracker, the
    rooms it holds for the next window, its send in flight and its retry. *)

From stdpp Require Import base list strings gmap.
From Stdlib Require Import ZArith Lia Ascii.
From S2P Require Import Prelude Text DeliverySettings Delivery.
Local Open Scope string_scope.
Local Open Scope list_scope.
Local Open Scope Z_scope.
Local Set Warnings "-clear-no-such-hyp".

Definition MAX_HELD_NOTIFICATION_ROOMS : nat := 128.
Definition MAX_NOTIFICATION_DELIVERY_ATTEMPTS : Z := 3.
Definition NOTIFICATION_DELIVERY_RETRY_FLOOR : Z := from_secs 30.
Definition MAX_NOTIFICATION_DELIVERY_RETRY : Z := from_secs (60 * 60).

Inductive NotificationDeliveryFailure :=
  | Failure_InvalidSecret | Failure_NotPermitted | Failure_Rejected
  | Failure_RateLimited (retry_after_secs : option Z) | Failure_Transport.

Inductive NotificationDeliveryOutcome :=
  | Outcome_Accepted | Outcome_Failed (f : NotificationDeliveryFailure).

Definition failure (o : NotificationDeliveryOutcome) : option NotificationDeliveryFailure :=
  match o with Outcome_Accepted => None | Outcome_Failed f => Some f end.

(** The verdict the frontend renders, with the time it was observed. *)
Inductive NotificationDeliveryOutcomeState :=
  | Accepted (at_ms : Z) | InvalidSecret (at_ms : Z) | NotPermitted (at_ms : Z)
  | Rejected (at_ms : Z) | RateLimited (at_ms : Z) (retry_after_secs : option Z)
  | Transport (at_ms : Z).

Record NotificationDeliveryJob := { job_sink_id : string; job_intent : NotificationDeliveryIntent }.

Record LaneAttempt := { attempt_rooms : gset string; attempt_intent : NotificationDeliveryIntent }.

Record LaneRetry := { attempt : LaneAttempt; not_before : Z }.

Record NotificationDeliveryLane := {
  lane_dwell : Z; tracker : DwellTracker; current : list QualifyingRoom;
  held : gset string; last_attempt_at : option Z; window_sequence : Z; attempts : Z;
  inflight : option LaneAttempt; retry : option LaneRetry }.

Record SinkCredential := { binding : option string; configured : bool }.

Record NotificationDeliveryChannel := {
  nonce : string; test_sequence : Z; pending_tests : gmap string string;
  lanes : gmap string NotificationDeliveryLane; credentials : gmap string SinkCredential;
  retired : gset string; outcomes : gmap string NotificationDeliveryOutcomeState }.

Record NotificationDeliverySinkState := {
  state_sink_id : string; secret_configured : bool;
  last_outcome : option NotificationDeliveryOutcomeState; secret_retired : bool }.

#[export] Instance Lane_updatable : Updatable NotificationDeliveryLane := fun l =>
  {| lane_dwell := lane_dwell l; tracker := tracker l; current := current l; held := held l;
     last_attempt_at := last_attempt_at l; window_sequence := window_sequence l;
     attempts := attempts l; inflight := inflight l; retry := retry l |}.
#[export] Instance Channel_updatable : Updatable NotificationDeliveryChannel := fun c =>
  {| nonce := nonce c; test_sequence := test_sequence c; pending_tests := pending_tests c;
     lanes := lanes c; credentials := credentials c; retired := retired c;
     outcomes := outcomes c |}.
#[export] Instance Attempt_updatable : Updatable LaneAttempt := fun a =>
  {| attempt_rooms := attempt_rooms a; attempt_intent := attempt_intent a |}.
#[export] Instance Retry_updatable : Updatable LaneRetry := fun r =>
  {| attempt := attempt r; not_before := not_before r |}.

Definition Lane_new (dwell : Z) : NotificationDeliveryLane :=
  {| lane_dwell := dwell; tracker := DwellTracker_new dwell; current := []; held := ∅;
     last_attempt_at := None; window_sequence := 0; attempts := 0; inflight := None;
     retry := None |}.

Definition with_nonce (nonce : string) : NotificationDeliveryChannel :=
  {| nonce := nonce; test_sequence := 0; pending_tests := ∅; lanes := ∅; credentials := ∅;
     retired := ∅; outcomes := ∅ |}.

(** * Verdicts and delays *)

Definition outcome_state (o : NotificationDeliveryOutcome) (at_ms : Z)
    : NotificationDeliveryOutcomeState :=
  match failure o with
  | None => Accepted at_ms
  | Some Failure_InvalidSecret => InvalidSecret at_ms
  | Some Failure_NotPermitted => NotPermitted at_ms
  | Some Failure_Rejected => Rejected at_ms
  | Some (Failure_RateLimited retry_after_secs) => RateLimited at_ms retry_after_secs
  | Some Failure_Transport => Transport at_ms
  end.

Definition bounded_retry_delay (s : NotificationSinkSettings) (f : NotificationDeliveryFailure)
    : option Z :=
  provider ←
    match f with
    | Failure_RateLimited retry_after_secs => Some (from_secs (or_default 0 retry_after_secs))
    | Failure_Transport => Some NOTIFICATION_DELIVERY_RETRY_FLOOR
    | Failure_InvalidSecret | Failure_NotPermitted | Failure_Rejected => None
    end;
  Some (Z.min (Z.max (Z.max provider (from_secs (min_interval_secs (timing s))))
                     NOTIFICATION_DELIVERY_RETRY_FLOOR)
              MAX_NOTIFICATION_DELIVERY_RETRY).

Section channel.
Context (graphemes : string -> list string) (INSTANT_MAX : Z).

(** [t.checked_add(d)] *)
Definition checked_add (t d : Z) : option Z :=
  if t + d <=? INSTANT_MAX then Some (t + d) else None.

Definition min_opt (l : list Z) : option Z :=
  match l with [] => None | x :: l => Some (foldl Z.min x l) end.

(** [DwellTracker::next_due_at] *)
Definition next_due_at (t : DwellTracker) : option Z :=
  min_opt (omap (fun e => checked_add e.2 (dwell t)) (map_to_list (pending t))).

(** * One lane *)

Definition lane_has_pending_work (l : NotificationDeliveryLane) : bool :=
  negb (bool_decide (held l = ∅)) || bool_decide (is_Some (retry l))
  || bool_decide (is_Some (next_due_at (tracker l))).

Definition reset_dwell (s : NotificationSinkSettings) (l : NotificationDeliveryLane)
    : NotificationDeliveryLane :=
  let dwell := from_secs (dwell_secs (timing s)) in
  if bool_decide (dwell = lane_dwell l) then l
  else l <| lane_dwell := dwell |> <| tracker := DwellTracker_new dwell |>.

(** Drop from the lane what is no longer in the qualifying set. *)
Definition retain_live (live : gset string) (l : NotificationDeliveryLane)
    : NotificationDeliveryLane :=
  let l := l <| held ::= filter (fun r => r ∈ live) |> in
  match retry l with
  | None => l
  | Some r =>
      let rooms := filter (fun x => x ∈ live) (attempt_rooms (attempt r)) in
      if bool_decide (rooms = ∅) then l <| retry := None |> <| attempts := 0 |>
      else l <| retry := Some (r <| attempt ::= fun a => a <| attempt_rooms := rooms |> |>) |>
  end.

(** The loop that holds the rooms that came due, up to the cap. *)
Fixpoint hold_due (due : list QualifyingRoom) (held : gset string) : gset string :=
  match due with
  | [] => held
  | room :: due =>
      if (MAX_HELD_NOTIFICATION_ROOMS <=? size held)%nat then held
      else hold_due due ({[room_id room]} ∪ held)
  end.

Definition lane_observe (s : NotificationSinkSettings) (now : Z)
    (qualifying : list QualifyingRoom) (l : NotificationDeliveryLane)
    : NotificationDeliveryLane :=
  let l := reset_dwell s l in
  let '(tracker', due) := observe (tracker l) now qualifying in
  let l := l <| tracker := tracker' |> in
  let l := retain_live (list_to_set (room_id <$> qualifying)) l in
  l <| held ::= hold_due due |> <| current := qualifying |>.

Definition current_rooms (l : NotificationDeliveryLane) (room_ids : gset string)
    : list QualifyingRoom :=
  filter (fun r => room_id r ∈ room_ids) (current l).

Definition coalescing_deadline (l : NotificationDeliveryLane) (s : NotificationSinkSettings)
    : option Z :=
  t ← last_attempt_at l; checked_add t (from_secs (min_interval_secs (timing s))).

Definition next_window_id (l : NotificationDeliveryLane) (nonce : string)
    : NotificationDeliveryLane * string :=
  let l := l <| window_sequence ::= fun n => u64_wrapping_add n 1 |> in
  (l, nonce +:+ "-" +:+ display (window_sequence l)).

(** * Credentials *)

Definition has_pending_work (c : NotificationDeliveryChannel) : bool :=
  existsb (fun e => lane_has_pending_work e.2) (map_to_list (lanes c)).

Definition configured_sinks_match (c : NotificationDeliveryChannel)
    (d : NotificationDeliverySettings) : bool :=
  (size (credentials c) =? length (sinks d))%nat
  && forallb (fun s => is_some_and (credentials c !! id s)
                         (fun k => bool_decide (binding k = secret_binding s))) (sinks d).

Definition record_credential (s : NotificationSinkSettings) (configured : bool)
    (c : NotificationDeliveryChannel) : NotificationDeliveryChannel :=
  let c :=
    if is_some_and (credentials c !! id s)
         (fun k => negb (bool_decide (binding k = secret_binding s)))
    then c <| lanes ::= delete (id s) |> <| pending_tests ::= delete (id s) |>
    else c in
  c <| credentials ::=
    <[id s := {| binding := secret_binding s; configured := configured |}]> |>.

Definition is_configured (c : NotificationDeliveryChannel) (s : NotificationSinkSettings) : bool :=
  is_some_and (credentials c !! id s)
    (fun k => configured k && bool_decide (binding k = secret_binding s)).

(** * Observation *)

Definition observe_sink (now : Z) (candidates : list RoomAttentionCandidate) (focused : bool)
    (c : NotificationDeliveryChannel) (s : NotificationSinkSettings)
    : NotificationDeliveryChannel :=
  let qualifying := if is_configured c s then qualifying_rooms s candidates focused else [] in
  match lanes c !! id s with
  | None =>
      if bool_decide (qualifying = []) then c
      else c <| lanes ::=
             <[id s := lane_observe s now qualifying
                         (Lane_new (from_secs (dwell_secs (timing s))))]> |>
  | Some l => c <| lanes ::= <[id s := lane_observe s now qualifying l]> |>
  end.

Definition channel_observe (d : NotificationDeliverySettings) (now : Z)
    (candidates : list RoomAttentionCandidate) (focused : bool)
    (c : NotificationDeliveryChannel) : NotificationDeliveryChannel :=
  foldl (observe_sink now candidates focused) c (sinks d).

(** The deadlines [next_wake_at] considers for one sink. *)
Definition sink_deadlines (c : NotificationDeliveryChannel) (s : NotificationSinkSettings)
    : list Z :=
  match lanes c !! id s with
  | None => []
  | Some l =>
      opt_list (next_due_at (tracker l)) ++ opt_list (not_before <$> retry l)
      ++ (if negb (bool_decide (held l = ∅)) && bool_decide (inflight l = None)
             && is_configured c s
          then opt_list (coalescing_deadline l s) else [])
  end.

Definition next_wake_at (c : NotificationDeliveryChannel) (d : NotificationDeliverySettings)
    : option Z :=
  min_opt (mjoin (sink_deadlines c <$> sinks d)).

(** * Sending *)

(** The lane a new window leaves, and the intent it sends, when the lane may send.  The
    payload covers the held rooms and those a retry still covers. *)
Definition open_window (nonce : string) (s : NotificationSinkSettings) (now : Z)
    (locale : CatalogLocale) (l : NotificationDeliveryLane)
    : NotificationDeliveryLane * option NotificationDeliveryIntent :=
  let room_ids := held l ∪ match retry l with
                           | Some r => attempt_rooms (attempt r)
                           | None => ∅
                           end in
  let l := l <| held := ∅ |> <| retry := None |> in
  let rooms := current_rooms l room_ids in
  let '(l, window_id) := next_window_id l nonce in
  match render_intent graphemes s rooms window_id locale with
  | None => (l <| attempts := 0 |>, None)
  | Some intent =>
      (l <| last_attempt_at := Some now |> <| attempts := 1 |>
         <| inflight := Some {| attempt_rooms := list_to_set (room_id <$> rooms);
                                attempt_intent := intent |} |>,
       Some intent)
  end.

(** Whether [take_send_jobs] opens a window for this lane. *)
Definition may_open (s : NotificationSinkSettings) (now : Z) (l : NotificationDeliveryLane)
    : bool :=
  negb (bool_decide (held l = ∅) || bool_decide (is_Some (inflight l))
        || negb (coalesce_window (from_secs (min_interval_secs (timing s)))
                                 (last_attempt_at l) now)).

Definition send_job (now : Z) (locale : CatalogLocale) (c : NotificationDeliveryChannel)
    (s : NotificationSinkSettings)
    : NotificationDeliveryChannel * list NotificationDeliveryJob :=
  if negb (is_configured c s) then (c, [])
  else
    match lanes c !! id s with
    | None => (c, [])
    | Some l =>
        if negb (may_open s now l) then (c, [])
        else
          let '(l, intent) := open_window (nonce c) s now locale l in
          (c <| lanes ::= <[id s := l]> |>,
           (fun i => {| job_sink_id := id s; job_intent := i |}) <$> opt_list intent)
    end.

(** The sinks in order, collecting the jobs. *)
Fixpoint each_sink {J}
    (f : NotificationDeliveryChannel -> NotificationSinkSettings ->
         NotificationDeliveryChannel * list J)
    (c : NotificationDeliveryChannel) (l : list NotificationSinkSettings)
    : NotificationDeliveryChannel * list J :=
  match l with
  | [] => (c, [])
  | s :: l =>
      let '(c, j1) := f c s in
      let '(c, j2) := each_sink f c l in
      (c, j1 ++ j2)
  end.

Definition take_send_jobs (d : NotificationDeliverySettings) (now : Z) (locale : CatalogLocale)
    (c : NotificationDeliveryChannel)
    : NotificationDeliveryChannel * list NotificationDeliveryJob :=
  each_sink (send_job now locale) c (sinks d).

(** Whether the rebuilt payload is the one the attempt sent. *)
Definition same_payload (intent previous : NotificationDeliveryIntent) : bool :=
  String.eqb (subject intent) (subject previous) && String.eqb (body intent) (body previous)
  && String.eqb (intent_destination intent) (intent_destination previous).

(** The lane a due retry leaves, and the intent it sends, if any room still qualifies. *)
Definition resend (nonce : string) (s : NotificationSinkSettings) (now : Z)
    (locale : CatalogLocale) (r : LaneRetry) (l : NotificationDeliveryLane)
    : NotificationDeliveryLane * option NotificationDeliveryIntent :=
  let rooms := current_rooms l (attempt_rooms (attempt r)) in
  let previous := attempt_intent (attempt r) in
  match render_intent graphemes s rooms "retry" locale with
  | None => (l <| attempts := 0 |>, None)
  | Some intent =>
      let '(l, intent) :=
        if same_payload intent previous
        then (l, intent <| idempotency_key := idempotency_key previous |>)
        else
          let '(l, window_id) := next_window_id l nonce in
          (l, or_default intent (render_intent graphemes s rooms window_id locale)) in
      (l <| last_attempt_at := Some now |>
         <| inflight := Some {| attempt_rooms := list_to_set (room_id <$> rooms);
                                attempt_intent := intent |} |>,
       Some intent)
  end.

Definition retry_job (now : Z) (locale : CatalogLocale) (c : NotificationDeliveryChannel)
    (s : NotificationSinkSettings)
    : NotificationDeliveryChannel * list NotificationDeliveryJob :=
  match lanes c !! id s with
  | None => (c, [])
  | Some l =>
      match retry l with
      | Some r =>
          if negb (not_before r <=? now) || bool_decide (is_Some (inflight l)) then (c, [])
          else
            let taken := l <| retry := None |> in
            if negb (is_configured c s)
            then (c <| lanes ::= <[id s := taken <| attempts := 0 |>]> |>, [])
            else
              let '(l, intent) := resend (nonce c) s now locale r taken in
              (c <| lanes ::= <[id s := l]> |>,
               (fun i => {| job_sink_id := id s; job_intent := i |}) <$> opt_list intent)
      | None => (c, [])
      end
  end.

Definition take_due_retries (d : NotificationDeliverySettings) (now : Z) (locale : CatalogLocale)
    (c : NotificationDeliveryChannel)
    : NotificationDeliveryChannel * list NotificationDeliveryJob :=
  each_sink (retry_job now locale) c (sinks d).

(** * Settling *)

(** [lane.inflight.take_if(|attempt| attempt.intent.idempotency_key == key)] *)
Definition take_inflight (key : string) (l : NotificationDeliveryLane) : option LaneAttempt :=
  a ← inflight l;
  then_some (String.eqb (idempotency_key (attempt_intent a)) key) a.

Definition take_pending_test (sink_id key : string) (c : NotificationDeliveryChannel)
    : option NotificationDeliveryChannel :=
  if is_some_and (pending_tests c !! sink_id) (fun k => String.eqb k key)
  then Some (c <| pending_tests ::= delete sink_id |>) else None.

Definition record_test_outcome (sink_id : string) (o : NotificationDeliveryOutcome) (at_ms : Z)
    (c : NotificationDeliveryChannel) : NotificationDeliveryChannel :=
  c <| outcomes ::= <[sink_id := outcome_state o at_ms]> |>.

(** The lane after its attempt settled with this outcome. *)
Definition settle_attempt (s : NotificationSinkSettings) (now : Z)
    (o : NotificationDeliveryOutcome) (a : LaneAttempt) (l : NotificationDeliveryLane)
    : NotificationDeliveryLane :=
  let l := l <| inflight := None |> in
  match failure o ≫= bounded_retry_delay s with
  | Some delay =>
      if attempts l <? MAX_NOTIFICATION_DELIVERY_ATTEMPTS
      then l <| attempts ::= Z.add 1 |>
             <| retry := Some {| attempt := a; not_before := now + delay |} |>
      else l <| attempts := 0 |>
  | None => l <| attempts := 0 |>
  end.

Definition record_outcome (d : NotificationDeliverySettings) (now : Z) (sink_id key : string)
    (o : NotificationDeliveryOutcome) (at_ms : Z) (c : NotificationDeliveryChannel)
    : NotificationDeliveryChannel :=
  match sink d sink_id with
  | None => c
  | Some s =>
      match take_pending_test sink_id key c with
      | Some c => record_test_outcome sink_id o at_ms c
      | None =>
          match lanes c !! sink_id with
          | None => c
          | Some l =>
              match take_inflight key l with
              | None => c
              | Some a =>
                  c <| outcomes ::= <[sink_id := outcome_state o at_ms]> |>
                    <| lanes ::= <[sink_id := settle_attempt s now o a l]> |>
              end
          end
      end
  end.

Definition abandon_inflight (sink_id key : string) (c : NotificationDeliveryChannel)
    : NotificationDeliveryChannel :=
  match take_pending_test sink_id key c with
  | Some c => c
  | None =>
      match lanes c !! sink_id with
      | None => c
      | Some l =>
          match take_inflight key l with
          | None => c
          | Some _ =>
              c <| lanes ::= <[sink_id := l <| inflight := None |> <| attempts := 0 |>]> |>
          end
      end
  end.

Definition next_test_window_id (sink_id : string) (c : NotificationDeliveryChannel)
    : NotificationDeliveryChannel * string :=
  let c := c <| test_sequence ::= fun n => u64_wrapping_add n 1 |> in
  let window_id := "test-" +:+ nonce c +:+ "-" +:+ display (test_sequence c) in
  (c <| pending_tests ::= <[sink_id := idempotency_key_of sink_id window_id]> |>, window_id).

(** * Sinks that come and go *)

Definition retain_sinks (d : NotificationDeliverySettings) (c : NotificationDeliveryChannel)
    : NotificationDeliveryChannel :=
  let known : gset string := list_to_set (id <$> sinks d) in
  c <| outcomes ::= filter (fun e => e.1 ∈ known) |>
    <| credentials ::= filter (fun e => e.1 ∈ known) |>
    <| lanes ::= filter (fun e => e.1 ∈ known) |>
    <| pending_tests ::= filter (fun e => e.1 ∈ known) |>
    <| retired ::= filter (fun r => r ∈ known) |>.

Definition mark_credential_retired (sink_id : string) (c : NotificationDeliveryChannel)
    : NotificationDeliveryChannel := c <| retired ::= fun r => {[sink_id]} ∪ r |>.

Definition clear_credential_retired (sink_id : string) (c : NotificationDeliveryChannel)
    : NotificationDeliveryChannel := c <| retired ::= fun r => r ∖ {[sink_id]} |>.

(** The sinks of [projection]. *)
Definition projection_sinks (d : NotificationDeliverySettings) (c : NotificationDeliveryChannel)
    : list NotificationDeliverySinkState :=
  (fun s => {| state_sink_id := id s; secret_configured := is_configured c s;
               last_outcome := outcomes c !! id s;
               secret_retired := bool_decide (id s ∈ retired c) |}) <$> sinks d.

(** * The actor's drive of the channel ([runtime/notification_delivery.rs])

    [stored sink_id] is what the credential store answers; a failed read is [false]. *)

Definition refresh_sink (stored : string -> bool) (c : NotificationDeliveryChannel)
    (s : NotificationSinkSettings) : NotificationDeliveryChannel :=
  let bound := bool_decide (is_Some (secret_binding s)) in
  let configured := stored (id s) && bound in
  let deleted := stored (id s) && negb bound in
  let c := record_credential s configured c in
  if deleted then mark_credential_retired (id s) c
  else if configured then clear_credential_retired (id s) c
  else c.

Definition refresh_configured (stored : string -> bool) (d : NotificationDeliverySettings)
    (c : NotificationDeliveryChannel) : NotificationDeliveryChannel :=
  foldl (refresh_sink stored) c (sinks d).

(** [observe_notification_delivery], for an account whose settings are loaded. *)
Definition observe_notification_delivery (stored : string -> bool)
    (d : NotificationDeliverySettings) (now : Z) (candidates : list RoomAttentionCandidate)
    (focused : bool) (locale : CatalogLocale) (c : NotificationDeliveryChannel)
    : NotificationDeliveryChannel * list NotificationDeliveryJob :=
  let c := retain_sinks d c in
  let c := if configured_sinks_match c d then c else refresh_configured stored d c in
  if negb (existsb (fun s => has_any (targets s)) (sinks d)) && negb (has_pending_work c)
  then (c, [])
  else
    let c := channel_observe d now candidates focused c in
    let '(c, retries) := take_due_retries d now locale c in
    let '(c, sends) := take_send_jobs d now locale c in
    (c, retries ++ sends).

(** * Runs of the channel *)

Inductive ChannelOp :=
  | Op_Drive (stored : string -> bool) (d : NotificationDeliverySettings) (now : Z)
      (candidates : list RoomAttentionCandidate) (focused : bool) (locale : CatalogLocale)
  | Op_Refresh (stored : string -> bool) (d : NotificationDeliverySettings)
  | Op_RecordCredential (s : NotificationSinkSettings) (configured : bool)
  | Op_RecordOutcome (d : NotificationDeliverySettings) (now : Z) (sink_id key : string)
      (o : NotificationDeliveryOutcome) (at_ms : Z)
  | Op_AbandonInflight (sink_id key : string)
  | Op_TestWindow (sink_id : string)
  | Op_TestOutcome (sink_id : string) (o : NotificationDeliveryOutcome) (at_ms : Z)
  | Op_ClearRetired (sink_id : string).

Definition channel_step (c : NotificationDeliveryChannel) (op : ChannelOp)
    : NotificationDeliveryChannel * list NotificationDeliveryJob :=
  match op with
  | Op_Drive stored d now candidates focused locale =>
      observe_notification_delivery stored d now candidates focused locale c
  | Op_Refresh stored d => (refresh_configured stored d c, [])
  | Op_RecordCredential s configured => (record_credential s configured c, [])
  | Op_RecordOutcome d now sink_id key o at_ms =>
      (record_outcome d now sink_id key o at_ms c, [])
  | Op_AbandonInflight sink_id key => (abandon_inflight sink_id key c, [])
  | Op_TestWindow sink_id => ((next_test_window_id sink_id c).1, [])
  | Op_TestOutcome sink_id o at_ms => (record_test_outcome sink_id o at_ms c, [])
  | Op_ClearRetired sink_id => (clear_credential_retired sink_id c, [])
  end.

End channel.
