(* ===== verification/DwellProps.v ===== *)
(** The dwell timer implements one small automaton per room.

    [RoomState] is what the tracker knows about a room and [room_step] one observation
    of it; [observe] is shown to be that step for every room at once, with the released
    rooms in ascending order. *)

From stdpp Require Import base list strings gmap sorting.
From Stdlib Require Import ZArith Lia.
From S2P Require Import Prelude Text DeliverySettings Delivery DeliveryChannel.
Local Open Scope string_scope.
Local Open Scope list_scope.
Local Open Scope Z_scope.
Local Set Warnings "-clear-no-such-hyp".

(** * The automaton of one room *)

Inductive RoomState := Idle | Armed (anchor : Z) | Released.

Definition room_state (t : DwellTracker) (r : string) : RoomState :=
  if bool_decide (r ∈ delivered t) then Released
  else match pending t !! r with Some a => Armed a | None => Idle end.

(** One observation at [now]: the next state, and whether the room is released by it. *)
Definition room_step (dwell now : Z) (present : bool) (st : RoomState) : RoomState * bool :=
  if negb present then (Idle, false)
  else
    let fire anchor :=
      if (anchor <=? now) && (dwell <=? now - anchor) then (Released, true)
      else (Armed anchor, false) in
    match st with
    | Released => (Released, false)
    | Armed anchor => fire anchor
    | Idle => fire now
    end.

(** A room is armed or released, not both. *)
Definition tracker_wf (t : DwellTracker) : Prop :=
  forall r, r ∈ delivered t -> pending t !! r = None.

(** * The observation as a map *)

Lemma observed_rooms_fold q (m : gmap string QualifyingRoom) r :
  foldl (fun (observed : gmap string QualifyingRoom) room =>
           match observed !! room_id room with
           | Some _ => observed
           | None => <[room_id room := room]> observed
           end) m q !! r
  = match m !! r with
    | Some x => Some x
    | None => find_first (fun x => String.eqb (room_id x) r) q
    end.
Proof.
  revert m; induction q as [|x q IH]; intros m; cbn; [by destruct (m !! r)|].
  rewrite IH. destruct (String.eqb_spec (room_id x) r) as [<-|Hne].
  - destruct (m !! room_id x) eqn:E; [by rewrite E|]. by rewrite lookup_insert_eq.
  - destruct (m !! room_id x) eqn:E; [done|]. by rewrite lookup_insert_ne.
Qed.

Lemma observed_rooms_lookup q r :
  observed_rooms q !! r = find_first (fun x => String.eqb (room_id x) r) q.
Proof. unfold observed_rooms. rewrite observed_rooms_fold, lookup_empty. done. Qed.

Lemma observed_rooms_id q r x : observed_rooms q !! r = Some x -> room_id x = r /\ x ∈ q.
Proof.
  rewrite observed_rooms_lookup. intros [Hx E]%find_first_elem.
  by apply String.eqb_eq in E.
Qed.

Lemma observed_rooms_present q r :
  is_Some (observed_rooms q !! r) <-> r ∈ room_id <$> q.
Proof.
  rewrite observed_rooms_lookup. split.
  - intros [x [Hx E]%find_first_elem]. apply String.eqb_eq in E as <-.
    by apply list_elem_of_fmap_2.
  - intros (x & -> & Hx)%list_elem_of_fmap.
    destruct (find_first _ q) eqn:E; [done|]. apply find_first_None in E.
    rewrite Forall_forall in E. apply E in Hx. by rewrite String.eqb_refl in Hx.
Qed.

(** * What the elementary changes do to the rooms *)

Lemma room_state_release t r r' :
  room_state (t <| pending ::= delete r |> <| delivered ::= fun d => {[r]} ∪ d |>) r'
  = if decide (r' = r) then Released else room_state t r'.
Proof.
  unfold room_state; cbn. case_decide as E; [subst|].
  - rewrite bool_decide_eq_true_2; [done|set_solver].
  - rewrite lookup_delete_ne by done.
    by rewrite (bool_decide_ext (r' ∈ {[r]} ∪ delivered t) (r' ∈ delivered t)) by set_solver.
Qed.

Lemma room_state_arm t r r' a :
  r ∉ delivered t ->
  room_state (t <| pending ::= <[r := a]> |>) r'
  = if decide (r' = r) then Armed a else room_state t r'.
Proof.
  intros Hr. unfold room_state; cbn. case_decide as E; [subst|].
  - by rewrite bool_decide_eq_false_2, lookup_insert_eq.
  - by rewrite lookup_insert_ne.
Qed.

Lemma tracker_wf_release t r :
  tracker_wf t ->
  tracker_wf (t <| pending ::= delete r |> <| delivered ::= fun d => {[r]} ∪ d |>).
Proof.
  intros Hwf r'; cbn. rewrite elem_of_union, elem_of_singleton. intros [->|Hr'].
  - apply lookup_delete_eq.
  - destruct (decide (r' = r)) as [->|]; [apply lookup_delete_eq|].
    rewrite lookup_delete_ne by done. auto.
Qed.

Lemma tracker_wf_arm t r a :
  r ∉ delivered t -> tracker_wf t -> tracker_wf (t <| pending ::= <[r := a]> |>).
Proof.
  intros Hr Hwf r' Hr'; cbn in *. rewrite lookup_insert_ne by (intros ->; done). auto.
Qed.

(** * One turn of the loop *)

(** What a turn for [r] must give. *)
Definition turn_ok (now : Z) (t : DwellTracker) (due : list QualifyingRoom) (r : string)
    (x : QualifyingRoom) (out : DwellTracker * list QualifyingRoom) : Prop :=
  let st := room_step (dwell t) now true (room_state t r) in
  tracker_wf out.1 /\ dwell out.1 = dwell t
  /\ (forall r', room_state out.1 r' = if decide (r' = r) then st.1 else room_state t r')
  /\ out.2 = due ++ (if st.2 then [x] else []).

Lemma observe_room_turn now t due r x :
  tracker_wf t -> turn_ok now t due r x (observe_room now t due (r, x)).
Proof.
  intros Hwf. unfold turn_ok, observe_room, checked_duration_since.
  destruct (bool_decide_reflect (r ∈ delivered t)) as [Hd|Hd].
  { assert (E : room_state t r = Released)
      by (unfold room_state; by rewrite bool_decide_eq_true_2).
    rewrite E; cbn. split_and!; [done|done| |by rewrite app_nil_r].
    intros r'. case_decide as Hr; [by subst|done]. }
  destruct (pending t !! r) as [a|] eqn:Hp; cbn.
  - assert (E : room_state t r = Armed a)
      by (unfold room_state; by rewrite bool_decide_eq_false_2, Hp).
    rewrite E; cbn. destruct (a <=? now); cbn; [destruct (dwell t <=? now - a); cbn|].
    + split_and!; auto using tracker_wf_release. intros r'. apply room_state_release.
    + split_and!; [done..| |by rewrite app_nil_r]. intros r'. by case_decide as Hr; [subst|].
    + split_and!; [done..| |by rewrite app_nil_r]. intros r'. by case_decide as Hr; [subst|].
  - assert (E : room_state t r = Idle)
      by (unfold room_state; by rewrite bool_decide_eq_false_2, Hp).
    rewrite E; cbn. rewrite Z.leb_refl; cbn. destruct (dwell t <=? now - now); cbn.
    + split_and!; [by apply tracker_wf_release, tracker_wf_arm|done| |done].
      intros r'. rewrite room_state_release, room_state_arm by done.
      by case_decide.
    + split_and!; [by apply tracker_wf_arm|done| |by rewrite app_nil_r].
      intros r'. by apply room_state_arm.
Qed.

Arguments room_step : simpl never.

(** * The loop *)

(** The entries whose room is released by this observation. *)
Definition released_by (t : DwellTracker) (now : Z) (entries : list (string * QualifyingRoom))
    : list QualifyingRoom :=
  snd <$> List.filter (fun e => (room_step (dwell t) now true (room_state t e.1)).2) entries.

Arguments released_by : simpl never.

Lemma observe_loop now entries t due :
  NoDup entries.*1 -> tracker_wf t ->
  let out := foldl (fun '(t, due) entry => observe_room now t due entry) (t, due) entries in
  tracker_wf out.1 /\ dwell out.1 = dwell t
  /\ (forall r, room_state out.1 r
        = if decide (r ∈ entries.*1) then (room_step (dwell t) now true (room_state t r)).1
          else room_state t r)
  /\ out.2 = due ++ released_by t now entries.
Proof.
  revert t due; induction entries as [|[r x] entries IH]; intros t due Hnd Hwf; cbn [foldl].
  { cbn. split_and!; [done|done| |by rewrite app_nil_r].
    intros r. rewrite decide_False; [done|set_solver]. }
  apply NoDup_cons in Hnd as [Hr Hnd]; fold (entries.*1) in Hr, Hnd.
  destruct (observe_room_turn now t due r x Hwf) as (Hwf1 & Hdw & Hst & Hdue).
  destruct (observe_room now t due (r, x)) as [t1 due1]; cbn in *.
  destruct (IH t1 due1 Hnd Hwf1) as (Hwf2 & Hdw2 & Hst2 & Hdue2).
  split_and!; [done|congruence| |].
  - intros r'. rewrite Hst2, Hst, Hdw.
    destruct (decide (r' = r)) as [->|Hne].
    + rewrite decide_False, decide_True by (done || set_solver). done.
    + destruct (decide (r' ∈ entries.*1)).
      * rewrite decide_True by set_solver. done.
      * rewrite decide_False by set_solver. done.
  - rewrite Hdue2, Hdue, <-app_assoc. f_equal. unfold released_by. cbn.
    assert (E : List.filter (fun e => (room_step (dwell t1) now true (room_state t1 e.1)).2) entries
              = List.filter (fun e => (room_step (dwell t) now true (room_state t e.1)).2) entries).
    { apply filter_ext_in. intros [r' y] Hy%list_elem_of_In. cbn. rewrite Hdw, Hst, decide_False; [done|].
      intros ->. apply Hr. by apply (list_elem_of_fmap_2 fst _ (r, y)). }
    rewrite E. cbn [List.filter fst]. by destruct (room_step (dwell t) now true (room_state t r)).2.
Qed.

(** The tracker after the rooms that no longer qualify are dropped. *)
Lemma room_state_retained t (observed : gmap string QualifyingRoom) r :
  room_state (t <| pending ::= filter (fun e => is_Some (observed !! e.1)) |>
                <| delivered ::= filter (fun r => is_Some (observed !! r)) |>) r
  = if decide (is_Some (observed !! r)) then room_state t r else Idle.
Proof.
  unfold room_state; cbn. case_decide as E.
  - rewrite (bool_decide_ext (r ∈ filter _ (delivered t)) (r ∈ delivered t))
      by (rewrite elem_of_filter; tauto).
    destruct (pending t !! r) as [a|] eqn:Hp.
    + by rewrite (map_lookup_filter_Some_2 _ _ r a).
    + by rewrite map_lookup_filter_None_2 by (left; done).
  - rewrite bool_decide_eq_false_2 by (rewrite elem_of_filter; tauto).
    rewrite map_lookup_filter_None_2; [done|]. right. by intros a _ ?.
Qed.

Lemma tracker_wf_retained t (observed : gmap string QualifyingRoom) :
  tracker_wf t ->
  tracker_wf (t <| pending ::= filter (fun e => is_Some (observed !! e.1)) |>
                <| delivered ::= filter (fun r => is_Some (observed !! r)) |>).
Proof.
  intros Hwf r; cbn. rewrite elem_of_filter. intros [_ Hr].
  apply map_lookup_filter_None_2. left. auto.
Qed.

Lemma map_fst_filter {A B} (p : A -> bool) (l : list (A * B)) :
  fst <$> List.filter (fun e => p e.1) l = List.filter p l.*1.
Proof. induction l as [|[a b] l IH]; cbn; [done|]. destruct (p a); cbn; by rewrite IH. Qed.

Lemma StronglySorted_filter {A} (R : relation A) (p : A -> bool) l :
  StronglySorted R l -> StronglySorted R (List.filter p l).
Proof.
  induction 1 as [|x l Hl IH Hx]; cbn; [constructor|]. destruct (p x); [|done].
  constructor; [done|]. apply Forall_forall. intros y Hy.
  rewrite Forall_forall in Hx. apply Hx. apply list_elem_of_In in Hy. apply filter_In in Hy as [Hy _].
  by apply list_elem_of_In.
Qed.

Lemma released_ids (p : string -> bool) (entries : list (string * QualifyingRoom)) :
  Forall (fun e => room_id e.2 = e.1) entries ->
  room_id <$> (snd <$> List.filter (fun e => p e.1) entries)
  = fst <$> List.filter (fun e => p e.1) entries.
Proof.
  induction 1 as [|[r x] entries Hx Hall IH]; [done|]. cbn in Hx |- *.
  destruct (p r); cbn; [by rewrite IH, Hx|done].
Qed.

(** one observation of the dwell tracker is one step of every room's own automaton
    (idle, armed at an anchor, released): each room's new state is the automaton's, the
    rooms returned are exactly those the automaton releases, each as its first entry of
    this observation, each once and in ascending order of room id.  The step of a room
    reads nothing but its own state, so neither the order of the qualifying set nor the
    other rooms can change when a room comes due. *)
Theorem observe_refines_room_automata t now qualifying :
  tracker_wf t ->
  let '(t', due) := observe t now qualifying in
  let present r := bool_decide (r ∈ room_id <$> qualifying) in
  let step r := room_step (dwell t) now (present r) (room_state t r) in
  tracker_wf t' /\ dwell t' = dwell t
  /\ (forall r, room_state t' r = (step r).1)
  /\ (forall x, x ∈ due <->
        (step (room_id x)).2 = true
        /\ find_first (fun y => String.eqb (room_id y) (room_id x)) qualifying = Some x)
  /\ NoDup (room_id <$> due)
  /\ StronglySorted (fun a b => String.leb a b = true) (room_id <$> due).
Proof.
  intros Hwf. unfold observe. set (observed := observed_rooms qualifying).
  set (t0 := t <| pending ::= _ |> <| delivered ::= _ |>).
  destruct (observe_loop now (btree_iter observed) t0 []) as (Hwf' & Hdw & Hst & Hdue);
    [apply btree_iter_NoDup|by apply tracker_wf_retained|].
  destruct (foldl _ (t0, []) (btree_iter observed)) as [t' due]; cbn in Hwf', Hdw, Hst, Hdue.
  assert (Hkeys : forall r, r ∈ (btree_iter observed).*1 <-> is_Some (observed !! r)).
  { intros r. rewrite list_elem_of_fmap. split.
    - intros ([r' x] & -> & Hx). apply btree_iter_elem in Hx. eauto.
    - intros [x Hx]. exists (r, x). split; [done|]. by apply btree_iter_elem. }
  assert (Hids : Forall (fun e => room_id e.2 = e.1) (btree_iter observed)).
  { apply Forall_forall. intros [r x] Hx%btree_iter_elem. cbn.
    by apply observed_rooms_id in Hx as [??]. }
  assert (Hmap : room_id <$> due
    = List.filter (fun r => (room_step (dwell t0) now true (room_state t0 r)).2)
        (btree_iter observed).*1).
  { rewrite Hdue, <-map_fst_filter.
    apply (released_ids (fun r => (room_step (dwell t0) now true (room_state t0 r)).2) _ Hids). }
  assert (Hpresent : forall r, bool_decide (r ∈ room_id <$> qualifying)
                               = bool_decide (is_Some (observed !! r))).
  { intros r. apply bool_decide_ext. symmetry. apply observed_rooms_present. }
  assert (Hstep : forall r,
    room_step (dwell t) now (bool_decide (r ∈ room_id <$> qualifying)) (room_state t r)
    = if decide (is_Some (observed !! r)) then room_step (dwell t0) now true (room_state t0 r)
      else (Idle, false)).
  { intros r. rewrite Hpresent. unfold t0 at 2. rewrite room_state_retained.
    case_decide as E; [by rewrite bool_decide_eq_true_2|by rewrite bool_decide_eq_false_2]. }
  cbv zeta. split_and!; [done|done| | | |].
  - intros r. rewrite Hst, Hstep. case_decide as E1; case_decide as E2; try done.
    + by apply Hkeys in E1.
    + by apply Hkeys in E2.
    + unfold t0. rewrite room_state_retained. by rewrite decide_False.
  - intros x. rewrite Hstep, <-observed_rooms_lookup. fold observed.
    rewrite Hdue. cbn [app]. unfold released_by. rewrite list_elem_of_fmap. split.
    + intros ([r y] & -> & [Hy Hf]%list_elem_of_In%filter_In). cbn in Hf |- *.
      apply list_elem_of_In, btree_iter_elem in Hy.
      destruct (observed_rooms_id _ _ _ Hy) as [-> _]. rewrite decide_True by eauto. done.
    + case_decide as E; [|naive_solver]. intros [Hf Hx]. exists (room_id x, x). split; [done|].
      apply list_elem_of_In, filter_In. split; [|done]. by apply list_elem_of_In, btree_iter_elem.
  - rewrite Hmap. apply NoDup_ListNoDup, List.NoDup_filter, NoDup_ListNoDup, btree_iter_NoDup.
  - rewrite Hmap. apply StronglySorted_filter, btree_iter_ascending.
Qed.

(** A fresh tracker with a dwell of ten: the room is armed, then released once. *)
Lemma observe_refines_room_automata_witness :
  let room n := {| room_id := n; display_label := n; space_labels := []; room_kind := Kind_Dm;
                   direct_partner := None; room_unread := 1; room_mentions := 0;
                   message_text := None |} in
  let t := (observe (DwellTracker_new 10) 0 [room "b"; room "a"]).1 in
  tracker_wf t /\ room_id <$> (observe t 10 [room "b"; room "a"]).2 = ["a"; "b"].
Proof.
  intros room t.
  assert (Hwf : tracker_wf t).
  { refine (match observe_refines_room_automata (DwellTracker_new 10) 0 [room "b"; room "a"] _ with
            | conj H _ => H end). by intros r Hr%elem_of_empty. }
  split; [exact Hwf|vm_compute; reflexivity].
Defined.

(** * The wake-up instant *)

Lemma min_opt_Some l m :
  min_opt l = Some m <-> m ∈ l /\ Forall (fun x => m <= x) l.
Proof.
  assert (Hfold : forall l x, (foldl Z.min x l = x \/ foldl Z.min x l ∈ l)
                    /\ foldl Z.min x l <= x /\ Forall (fun y => foldl Z.min x l <= y) l).
  { clear l. induction l as [|y l IH]; intros x; cbn; [split_and!; [by left|lia|constructor]|].
    destruct (IH (Z.min x y)) as (Hin & Hle & Hall). split_and!.
    - destruct Hin as [->|Hin]; [|by right; right].
      destruct (Z.min_spec x y) as [[_ ->]|[_ ->]]; [by left|right; constructor].
    - lia.
    - constructor; [lia|done]. }
  destruct l as [|x l]; cbn; [split; [done|intros [H _]; by apply elem_of_nil in H]|].
  destruct (Hfold l x) as (Hin & Hle & Hall). split.
  - intros [= <-]. split; [|by constructor].
    destruct Hin as [->|Hin]; [constructor|by right].
  - intros [Hm Hall2]. f_equal. rewrite Forall_cons in Hall2. destruct Hall2 as [Hmx Hml].
    apply Z.le_antisymm.
    + apply elem_of_cons in Hm as [->|Hm]; [done|]. rewrite Forall_forall in Hall. auto.
    + destruct Hin as [->|Hin]; [done|]. rewrite Forall_forall in Hml. auto.
Qed.

Lemma min_opt_None l : min_opt l = None <-> l = [].
Proof. by destruct l. Qed.

(** A timer the wake-up instant accounts for is due no earlier than it. *)
Lemma next_due_at_le IMAX t r a :
  pending t !! r = Some a -> a + dwell t <= IMAX ->
  exists m, next_due_at IMAX t = Some m /\ m <= a + dwell t.
Proof.
  intros Hp HI. unfold next_due_at.
  assert (Hin : a + dwell t
    ∈ omap (fun e => checked_add IMAX e.2 (dwell t)) (map_to_list (pending t))).
  { apply list_elem_of_omap. exists (r, a). split; [by apply elem_of_map_to_list|].
    unfold checked_add; cbn. by rewrite (proj2 (Z.leb_le _ _) HI). }
  destruct (min_opt _) as [m|] eqn:E.
  - exists m. split; [done|]. apply min_opt_Some in E as [_ E]. rewrite Forall_forall in E. auto.
  - apply min_opt_None in E. rewrite E in Hin. by apply elem_of_nil in Hin.
Qed.

Lemma next_due_at_timer IMAX t m :
  next_due_at IMAX t = Some m -> exists r a, pending t !! r = Some a /\ m = a + dwell t.
Proof.
  unfold next_due_at. intros [Hm _]%min_opt_Some.
  apply list_elem_of_omap in Hm as ([r a] & Hra%elem_of_map_to_list & Hm). exists r, a.
  unfold checked_add in Hm; cbn in Hm. case_match; by simplify_eq.
Qed.

Lemma armed_pending t r a : room_state t r = Armed a -> pending t !! r = Some a.
Proof. unfold room_state. intros. by repeat case_match; simplify_eq. Qed.

Lemma pending_armed t r a : tracker_wf t -> pending t !! r = Some a -> room_state t r = Armed a.
Proof.
  intros Hwf Hp. unfold room_state. case_bool_decide as E; [|by rewrite Hp].
  apply Hwf in E. congruence.
Qed.

Lemma fires_when_due dwell now a :
  0 <= dwell -> (room_step dwell now true (Armed a)).2 = true <-> a + dwell <= now.
Proof.
  intros Hd. unfold room_step; cbn.
  destruct (a <=? now) eqn:E1, (dwell <=? now - a) eqn:E2; cbn; split_guards; split; (done || lia).
Qed.

(** the instant the tracker asks to be woken at is exact: when the qualifying set is
    unchanged since the last observation, an observation at [now] releases a room if and
    only if that instant exists and has been reached.  A caller that wakes early delivers
    nothing, and one that wakes late delivers what a punctual one would have. *)
Theorem wake_instant_is_exact IMAX t now qualifying :
  tracker_wf t -> 0 <= dwell t -> now <= IMAX ->
  (forall r, r ∈ room_id <$> qualifying <-> room_state t r ≠ Idle) ->
  (observe t now qualifying).2 ≠ [] <-> exists m, next_due_at IMAX t = Some m /\ m <= now.
Proof.
  intros Hwf Hd HI Hq.
  pose proof (observe_refines_room_automata t now qualifying Hwf) as Hobs.
  destruct (observe t now qualifying) as [t' due]. cbn zeta in Hobs. cbn [snd].
  destruct Hobs as (_ & _ & _ & Hdue & _).
  split.
  - intros Hne. destruct due as [|x due]; [done|].
    destruct (proj1 (Hdue x) ltac:(constructor)) as [Hfire Hx].
    destruct (decide (room_id x ∈ room_id <$> qualifying)) as [Hin|Hout];
      [|by rewrite bool_decide_eq_false_2 in Hfire].
    rewrite bool_decide_eq_true_2 in Hfire by done.
    pose proof (proj1 (Hq _) Hin) as Hidle.
    destruct (room_state t (room_id x)) as [|a|] eqn:Est; [done| |done].
    apply fires_when_due in Hfire; [|done].
    destruct (next_due_at_le IMAX t (room_id x) a) as (m & Hm & ?);
      [by apply armed_pending|lia|]. exists m. split; [done|lia].
  - intros (m & Hm & Hle). apply next_due_at_timer in Hm as (r & a & Hp & ->).
    pose proof (pending_armed t r a Hwf Hp) as Harmed.
    assert (Hr : r ∈ room_id <$> qualifying) by (apply Hq; by rewrite Harmed).
    destruct (proj2 (observed_rooms_present qualifying r) Hr) as [x Hx].
    destruct (observed_rooms_id _ _ _ Hx) as [<- _]. rewrite observed_rooms_lookup in Hx.
    intros ->. apply (elem_of_nil x), Hdue. split; [|done].
    rewrite bool_decide_eq_true_2, Harmed by done. by apply fires_when_due.
Qed.

(** A room armed at 0 with a dwell of ten, observed early and on time. *)
Lemma wake_instant_is_exact_witness :
  let room n := {| room_id := n; display_label := n; space_labels := []; room_kind := Kind_Dm;
                   direct_partner := None; room_unread := 1; room_mentions := 0;
                   message_text := None |} in
  let t := {| dwell := 10; pending := {["a" := 0]}; delivered := ∅ |} in
  (observe t 9 [room "a"]).2 = [] /\ (observe t 10 [room "a"]).2 ≠ [].
Proof.
  intros room t.
  assert (Hwf : tracker_wf t) by (by intros r Hr%elem_of_empty).
  assert (Hq : forall r, r ∈ room_id <$> [room "a"] <-> room_state t r ≠ Idle).
  { intros r. unfold room_state, t; cbn. rewrite list_elem_of_singleton. split.
    - intros ->. by vm_compute.
    - intros Hr. destruct (decide (r = "a")) as [|Hne]; [done|].
      rewrite lookup_singleton_ne in Hr by done. done. }
  split; [vm_compute; reflexivity|].
  apply (wake_instant_is_exact 1000 t 10 [room "a"] Hwf); [by vm_compute..|exact Hq|].
  exists 10. split; [by vm_compute|lia].
Defined.
