(* ===== verification/DigestProps.v ===== *)
(** The message a destination receives: what text it can carry, how that text is quoted,
    and in which order the rooms appear. *)

From stdpp Require Import base list strings gmap sorting.
From Stdlib Require Import ZArith Lia Ascii.
From S2P Require Import Prelude Text DeliverySettings Delivery.
Local Open Scope string_scope.
Local Open Scope list_scope.
Local Open Scope Z_scope.
Local Set Warnings "-clear-no-such-hyp".

(** * Message text and consent *)

Definition erase_text (r : QualifyingRoom) : QualifyingRoom := r <| message_text := None |>.

Lemma ordered_rooms_erase rooms :
  ordered_rooms (erase_text <$> rooms) = erase_text <$> ordered_rooms rooms.
Proof. unfold ordered_rooms. by rewrite sort_by_map, retain_first_map. Qed.

Lemma room_block_erase g fmt names locale r :
  room_block g 0 fmt names locale (erase_text r) = room_block g 0 fmt names locale r.
Proof. reflexivity. Qed.

Lemma digest_body_erase g rooms fmt names locale :
  digest_body g (erase_text <$> rooms) 0 fmt names locale = digest_body g rooms 0 fmt names locale.
Proof.
  unfold digest_body. rewrite length_fmap, <-fmap_take, <-list_fmap_compose.
  do 2 f_equal.
Qed.

Lemma render_digest_erase g s rooms locale :
  render_digest g s NamesOnly (erase_text <$> rooms) locale = render_digest g s NamesOnly rooms locale.
Proof.
  unfold render_digest. rewrite ordered_rooms_erase.
  destruct (ordered_rooms rooms) as [|first rest]; [done|].
  rewrite fmap_cons. cbn [head mbind option_bind]. rewrite <-fmap_cons.
  rewrite length_fmap, digest_body_erase. done.
Qed.

(** C39: no message text leaves the device without a consent that still matches.  When the
    stored consent does not name the destination's kind, endpoint and recipient - or the
    destination was never set to carry text - the message rendered from the rooms is the
    one rendered from the same rooms with every message text removed: subject, body and
    key cannot depend on what anybody wrote. *)
Theorem text_needs_matching_consent graphemes s rooms window locale :
  content s = NamesOnly \/ consent_matches s = false ->
  render_intent graphemes s rooms window locale
  = render_intent graphemes s (erase_text <$> rooms) window locale.
Proof.
  intros Hs.
  assert (E : effective_content s = NamesOnly).
  { unfold effective_content. destruct Hs as [->| ->]; [done|]. by rewrite andb_false_r. }
  unfold render_intent. by rewrite E, render_digest_erase.
Qed.

Lemma text_needs_matching_consent_witness :
  let s := {| id := "mail"; destination := "me@example.org"; from_address := "me@example.org";
              sender_name := ""; config := Resend "https://api"; secret_binding := None;
              targets := Targets_default; content := Full; content_consent := None;
              timing := Timing_default; direct_partner_label := MatrixId |} in
  let room := {| room_id := "!a"; display_label := "A"; space_labels := []; room_kind := Kind_Dm;
                 direct_partner := None; room_unread := 1; room_mentions := 0;
                 message_text := Some {| text := "secret"; truncated_at_source := false |} |} in
  body <$> render_intent (fun t => chars t) s [room] "w" Locale_En
  = Some "Direct message in A: 1 unread".
Proof.
  intros s room.
  rewrite (text_needs_matching_consent (fun t => chars t) s [room] "w" Locale_En); [|by right].
  vm_compute. reflexivity.
Defined.

(** * Quoting *)

Lemma single_line_no_newline t : no_newline (single_line t) = true.
Proof.
  apply all_str_concat, Forall_fmap. eapply Forall_impl; [apply chars_newline|].
  intros c [->|Hc]; [by vm_compute|]. cbn. by destruct (is_control c || is_line_separator c).
Qed.

Lemma safe_label_no_newline label l : safe_label label = Some l -> no_newline l = true.
Proof.
  unfold safe_label, then_some. case_match; [|done]. intros [= <-].
  apply all_str_trim, single_line_no_newline.
Qed.

Lemma escape_no_newline t : no_newline t = true -> no_newline (escape_markdown t) = true.
Proof.
  induction t as [|a t IH]; [done|]. intros [Ha Ht]%andb_true_iff. cbn [escape_markdown].
  assert (H : no_newline (String a (escape_markdown t)) = true)
    by (apply andb_true_iff; auto).
  by destruct (is_ascii_punctuation a).
Qed.

(** Split the newline-freedom of a concatenation into its pieces. *)
Ltac no_newlines :=
  rewrite ?no_newline_app, ?andb_true_iff; repeat split;
  first [assumption|apply display_no_newline|reflexivity].

Definition names_line (t : NotificationText) : bool :=
  match t with
  | MentionFrom x | DirectMessageFrom x | MentionIn x | DirectMessageIn x | MessageIn x =>
      no_newline x
  | SubjectMoreRooms x _ => no_newline x
  | TestDeliveryBody => false
  | _ => true
  end.

Lemma notification_text_no_newline locale t :
  names_line t = true -> no_newline (notification_text locale t) = true.
Proof.
  destruct t; cbn [names_line]; intros Ht; try discriminate Ht;
    destruct locale; cbn [notification_text lang]; try no_newlines;
    unfold notification_plural; cbn [lang]; destruct (count =? 1); no_newlines.
Qed.

Lemma find_map_Some {A B} (f : A -> option B) l y : find_map f l = Some y -> exists x, f x = Some y.
Proof.
  induction l as [|x l IH]; cbn; [done|]. destruct (f x) eqn:E; [intros [= <-]; eauto|auto].
Qed.

Lemma partner_name_no_newline p names n : partner_name p names = Some n -> no_newline n = true.
Proof.
  unfold partner_name. destruct (match names with LocalAlias => _ | MatrixId => _ end) eqn:E.
  - intros [= <-]. destruct names; [|done]. apply bind_Some in E as (a & _ & E).
    by eapply safe_label_no_newline.
  - apply safe_label_no_newline.
Qed.

Lemma room_headline_no_newline r names locale : no_newline (room_headline r names locale) = true.
Proof.
  unfold room_headline. destruct (direct_partner r ≫= _) as [n|] eqn:E.
  - apply bind_Some in E as (p & _ & E). apply notification_text_no_newline.
    apply partner_name_no_newline in E. by destruct (room_kind r).
  - set (label := match safe_label _ with Some l => l | None => _ end).
    assert (Hl : no_newline label = true).
    { unfold label. destruct (safe_label (display_label r)) eqn:El;
        [by eapply safe_label_no_newline|by apply notification_text_no_newline]. }
    clearbody label. apply notification_text_no_newline.
    set (place := match find_map _ _ with Some _ => _ | None => _ end).
    assert (Hp : no_newline place = true).
    { unfold place. destruct (find_map safe_label (space_labels r)) as [sp|] eqn:Es; [|done].
      apply find_map_Some in Es as [x Hx%safe_label_no_newline]. no_newlines. }
    clearbody place. by destruct (room_kind r).
Qed.

Lemma room_line_no_newline r names locale : no_newline (room_line r names locale) = true.
Proof.
  unfold room_line. pose proof (room_headline_no_newline r names locale) as Hh.
  destruct (is_empty _); [done|].
  assert (Hc : no_newline (notification_counts locale (room_mentions r) (room_unread r)) = true).
  { unfold notification_counts. apply join_no_newline; [by destruct locale|].
    apply Forall_app; split; case_match; repeat constructor; by apply notification_text_no_newline. }
  assert (Hs : no_newline (notification_label_separator locale) = true) by by destruct locale.
  no_newlines.
Qed.

Lemma quote_line_quoted fmt l : String.prefix "> " (quote_line fmt l) = true.
Proof.
  destruct fmt; unfold quote_line.
  - change (String.prefix "" l = true). by destruct l.
  - change (String.prefix "" (escape_markdown l +:+ "  ") = true). by destruct (_ +:+ _).
Qed.

Lemma quote_line_no_newline fmt l : no_newline l = true -> no_newline (quote_line fmt l) = true.
Proof.
  intros Hl. destruct fmt; unfold quote_line; [no_newlines|].
  pose proof (escape_no_newline l Hl). no_newlines.
Qed.

Lemma room_text_lines g r cap fmt t x :
  room_text g r cap fmt = Some t -> x ∈ physical_lines t -> x = "" \/ String.prefix "> " x = true.
Proof.
  unfold room_text. destruct (cap =? 0)%nat; [done|]. intros (source & _ & H)%bind_Some.
  destruct (is_empty _); [done|]. injection H as <-.
  set (ls := (quote_line fmt <$> lines _) ++ _).
  assert (Hq : Forall (fun l => no_newline l = true /\ String.prefix "> " l = true) ls).
  { apply Forall_app; split.
    - apply Forall_fmap. eapply Forall_impl; [apply lines_no_newline|]. intros l Hl. cbn.
      split; [by apply quote_line_no_newline|apply quote_line_quoted].
    - case_match; repeat constructor. }
  clearbody ls. destruct ls as [|l ls]; [intros ->%list_elem_of_singleton; by left|].
  rewrite physical_lines_join; [|done|].
  - rewrite Forall_forall in Hq. intros Hx. right. by apply Hq.
  - eapply Forall_impl; [exact Hq|]. by intros ? [? _].
Qed.

(** A room's heading in a body. *)
Definition heading (fmt : BodyFormat) (line : string) : string :=
  match fmt with PlainText => line | Markdown => escape_markdown line end.

Lemma room_block_lines g cap fmt names locale r x :
  x ∈ physical_lines (room_block g cap fmt names locale r) ->
  x = "" \/ String.prefix "> " x = true \/ x = heading fmt (room_line r names locale).
Proof.
  assert (Hh : no_newline (heading fmt (room_line r names locale)) = true).
  { destruct fmt; [|apply escape_no_newline]; apply room_line_no_newline. }
  unfold room_block. fold (heading fmt (room_line r names locale)).
  destruct (room_text g r cap fmt) as [t|] eqn:E.
  - rewrite physical_lines_newline, physical_lines_single by done. cbn [app].
    intros [->|Hx]%elem_of_cons; [by auto|]. destruct (room_text_lines g r cap fmt t x E Hx); auto.
  - rewrite physical_lines_single by done. intros ->%list_elem_of_singleton. auto.
Qed.

Lemma physical_lines_blocks l x :
  x ∈ physical_lines (join (nl +:+ nl) l) -> x = "" \/ exists b, b ∈ l /\ x ∈ physical_lines b.
Proof.
  induction l as [|b l IH]; [intros ->%list_elem_of_singleton; by left|].
  destruct l as [|c l]; [intros Hx; right; exists b; split; [by left|done]|].
  change (join (nl +:+ nl) (b :: c :: l)) with (b +:+ (nl +:+ nl) +:+ join (nl +:+ nl) (c :: l)).
  rewrite append_assoc, physical_lines_newline.
  change (nl +:+ join (nl +:+ nl) (c :: l)) with ("" +:+ nl +:+ join (nl +:+ nl) (c :: l)).
  rewrite physical_lines_newline. intros [Hx|[Hx|Hx]%elem_of_app]%elem_of_app.
  - right. exists b. split; [by left|done].
  - apply list_elem_of_singleton in Hx. by left.
  - destruct (IH Hx) as [->|(d & Hd & Hx')]; [by left|]. right. exists d. split; [by right|done].
Qed.

(** message text cannot forge a line of the digest.  Whatever the labels, aliases and
    messages contain, every line of the body is empty, a quote marked [> ], the heading of
    one of the rooms, or the counted tail: text reaches the body only behind the quote
    mark, and a label never breaks out of its heading. *)
Theorem message_text_cannot_forge_a_line graphemes rooms cap fmt names locale line :
  line ∈ physical_lines (digest_body graphemes rooms cap fmt names locale) ->
  line = "" \/ String.prefix "> " line = true
  \/ (exists r, r ∈ rooms /\ line = heading fmt (room_line r names locale))
  \/ line = notification_text locale
              (BodyMoreRooms (Z.of_nat (length rooms - MAX_NOTIFICATION_DIGEST_ROOMS))).
Proof.
  unfold digest_body. intros [->|(b & Hb & Hx)]%physical_lines_blocks; [by left|].
  apply elem_of_app in Hb as [Hb|Hb].
  - apply list_elem_of_fmap in Hb as (r & -> & Hr).
    destruct (room_block_lines _ _ _ _ _ _ _ Hx) as [?|[?| -> ]]; auto.
    right; right; left. exists r. split; [|done].
    apply elem_of_take in Hr as (i & Hi & _). by eapply list_elem_of_lookup_2.
  - destruct (0 <? _)%nat; [|by apply elem_of_nil in Hb].
    apply list_elem_of_singleton in Hb as ->.
    rewrite physical_lines_single in Hx by by apply notification_text_no_newline.
    apply list_elem_of_singleton in Hx. auto.
Qed.

(** A message that tries to forge the heading of another room. *)
Lemma message_text_cannot_forge_a_line_witness :
  let room := {| room_id := "!a"; display_label := "A"; space_labels := []; room_kind := Kind_Dm;
                 direct_partner := None; room_unread := 1; room_mentions := 0;
                 message_text := Some {| text := "hi" +:+ nl +:+ "Mention in Boss: 9 mentions";
                                         truncated_at_source := false |} |} in
  let b := digest_body chars [room] 4000 PlainText MatrixId Locale_En in
  physical_lines b
    = ["Direct message in A: 1 unread"; "> hi"; "> Mention in Boss: 9 mentions"]
  /\ String.prefix "> " "> Mention in Boss: 9 mentions" = true.
Proof.
  intros room b. assert (E : physical_lines b
    = ["Direct message in A: 1 unread"; "> hi"; "> Mention in Boss: 9 mentions"])
    by (vm_compute; reflexivity).
  split; [exact E|].
  destruct (message_text_cannot_forge_a_line chars [room] 4000 PlainText MatrixId Locale_En
              "> Mention in Boss: 9 mentions") as [H|[H|[(r & Hr & H)|H]]].
  - fold b. rewrite E. right. right. left.
  - discriminate H.
  - exact H.
  - apply list_elem_of_singleton in Hr as ->. vm_compute in H. discriminate H.
  - vm_compute in H. discriminate H.
Defined.
