(* ===== verification/DeliveryProps.v ===== *)
(** The lanes of the notification delivery channel: attempts per window, idempotency
    keys, what a drive may send, late outcomes and held rooms.

    A lane is driven by the operations of [LaneOp]; [lane_step] is the part of the
    channel's own operations that touches one lane. *)

From stdpp Require Import base list strings gmap.
From Stdlib Require Import ZArith Lia.
From S2P Require Import Prelude Text DeliverySettings Delivery DeliveryChannel.
Local Open Scope string_scope.
Local Open Scope list_scope.
Local Open Scope Z_scope.
Local Set Warnings "-clear-no-such-hyp".

(** * What observing a lane leaves alone *)

Lemma lane_observe_fields s now q l :
  let l' := lane_observe s now q l in
  inflight l' = inflight l /\ last_attempt_at l' = last_attempt_at l
  /\ window_sequence l' = window_sequence l /\ current l' = q
  /\ match retry l with
     | None => retry l' = None /\ attempts l' = attempts l
     | Some r =>
         (retry l' = None /\ attempts l' = 0)
         \/ (exists r', retry l' = Some r' /\ attempts l' = attempts l
                        /\ not_before r' = not_before r
                        /\ attempt_intent (attempt r') = attempt_intent (attempt r)
                        /\ attempt_rooms (attempt r') ⊆ attempt_rooms (attempt r)
                        /\ attempt_rooms (attempt r') ⊆ list_to_set (room_id <$> q)
                        /\ attempt_rooms (attempt r') ≠ ∅)
     end.
Proof.
  unfold lane_observe.
  assert (Hr : inflight (reset_dwell s l) = inflight l
    /\ last_attempt_at (reset_dwell s l) = last_attempt_at l
    /\ window_sequence (reset_dwell s l) = window_sequence l
    /\ retry (reset_dwell s l) = retry l /\ attempts (reset_dwell s l) = attempts l).
  { unfold reset_dwell. by case_bool_decide. }
  revert Hr. generalize (reset_dwell s l) as l1. intros l1 (H1 & H2 & H3 & H4 & H5).
  destruct (observe (tracker l1) now q) as [t' due]. unfold retain_live. cbn. rewrite <-H4.
  destruct (retry l1) as [r|] eqn:Er; [|cbn; rewrite Er; by split_and!].
  case_bool_decide as E; cbn; split_and!; auto.
  right. eexists. split_and!; [done..| | |done]; cbn;
    intros x Hx; apply elem_of_filter in Hx; tauto.
Qed.

Section lanes.
Context (graphemes : string -> list string) (nonce_ : string).

(** * One lane as a machine *)

Inductive LaneOp :=
  | Lane_Observe (s : NotificationSinkSettings) (now : Z) (qualifying : list QualifyingRoom)
  | Lane_Send (s : NotificationSinkSettings) (now : Z) (locale : CatalogLocale)
  | Lane_Retry (s : NotificationSinkSettings) (now : Z) (locale : CatalogLocale)
      (configured : bool)
  | Lane_Settle (s : NotificationSinkSettings) (now : Z) (key : string)
      (o : NotificationDeliveryOutcome)
  | Lane_Abandon (key : string).

(** What a lane sends: the first message of a window, or a retry of it. *)
Inductive LaneEvent :=
  | Sent_Window (i : NotificationDeliveryIntent)
  | Sent_Retry (i : NotificationDeliveryIntent).

Definition sent_intent (e : LaneEvent) : NotificationDeliveryIntent :=
  match e with Sent_Window i | Sent_Retry i => i end.

Definition lane_step (l : NotificationDeliveryLane) (op : LaneOp)
    : NotificationDeliveryLane * list LaneEvent :=
  match op with
  | Lane_Observe s now qualifying => (lane_observe s now qualifying l, [])
  | Lane_Send s now locale =>
      if negb (may_open s now l) then (l, [])
      else let '(l, i) := open_window graphemes nonce_ s now locale l in
           (l, Sent_Window <$> opt_list i)
  | Lane_Retry s now locale configured =>
      match retry l with
      | Some r =>
          if negb (not_before r <=? now) || bool_decide (is_Some (inflight l)) then (l, [])
          else
            let taken := l <| retry := None |> in
            if negb configured then (taken <| attempts := 0 |>, [])
            else let '(l, i) := resend graphemes nonce_ s now locale r taken in
                 (l, Sent_Retry <$> opt_list i)
      | None => (l, [])
      end
  | Lane_Settle s now key o =>
      match take_inflight key l with
      | None => (l, [])
      | Some a => (settle_attempt s now o a l, [])
      end
  | Lane_Abandon key =>
      match take_inflight key l with
      | None => (l, [])
      | Some _ => (l <| inflight := None |> <| attempts := 0 |>, [])
      end
  end.

(** * Attempts of a window *)

Definition attempts_ok (l : NotificationDeliveryLane) : Prop :=
  match inflight l, retry l with
  | Some _, Some _ => False
  | Some _, None => 1 <= attempts l <= MAX_NOTIFICATION_DELIVERY_ATTEMPTS
  | None, Some _ => 2 <= attempts l <= MAX_NOTIFICATION_DELIVERY_ATTEMPTS
  | None, None => attempts l = 0
  end.

Definition lane_inv (l : NotificationDeliveryLane) : Prop :=
  attempts_ok l /\ (size (held l) <= MAX_HELD_NOTIFICATION_ROOMS)%nat
  /\ (forall r, r ∈ held l -> r ∈ room_id <$> current l).

(** The retries sent since the last window was opened. *)
Definition count_retry (n : Z) (e : LaneEvent) : Z :=
  match e with Sent_Window _ => 0 | Sent_Retry _ => n + 1 end.
Definition retries_since_window (evs : list LaneEvent) : Z := foldl count_retry 0 evs.

(** The attempts of the lane's window are the messages it has sent. *)
Definition counted (l : NotificationDeliveryLane) (n : Z) : Prop :=
  0 <= n <= 2
  /\ (is_Some (inflight l) -> attempts l = n + 1)
  /\ (is_Some (retry l) -> attempts l = n + 2).

Lemma lane_inv_new d : lane_inv (Lane_new d).
Proof.
  split_and!; [done|cbn [held Lane_new]; rewrite size_empty; lia|]. intros r Hr. by apply elem_of_empty in Hr.
Qed.

Lemma hold_due_spec due h :
  (size h <= MAX_HELD_NOTIFICATION_ROOMS)%nat ->
  (size (hold_due due h) <= MAX_HELD_NOTIFICATION_ROOMS)%nat
  /\ (forall r, r ∈ hold_due due h -> r ∈ h \/ r ∈ room_id <$> due).
Proof.
  revert h; induction due as [|x due IH]; intros h Hh; cbn [hold_due]; [split; auto|].
  destruct (Nat.leb_spec MAX_HELD_NOTIFICATION_ROOMS (size h)) as [|Hlt]; [split; auto|].
  destruct (IH ({[room_id x]} ∪ h)) as [H1 H2].
  { rewrite size_union_alt, size_singleton.
    assert (size (h ∖ {[room_id x]}) <= size h)%nat by (apply subseteq_size; set_solver). lia. }
  split; [done|]. intros r Hr. rewrite fmap_cons.
  destruct (H2 r Hr) as [Hr'|Hr']; [|by right; right].
  apply elem_of_union in Hr' as [->%elem_of_singleton|]; [by right; left|by left].
Qed.

(** The rooms a dwell tracker releases come from the observation. *)
Lemma observe_due_observed t now q : forall x, x ∈ (observe t now q).2 -> x ∈ q.
Proof.
  unfold observe. generalize (t <| pending ::= filter (fun e => is_Some (observed_rooms q !! e.1)) |>
    <| delivered ::= filter (fun r => is_Some (observed_rooms q !! r)) |>) as t0.
  assert (Hm : Forall (fun e => e.2 ∈ q) (btree_iter (observed_rooms q))).
  { apply Forall_forall. intros [r y] Hy%btree_iter_elem. cbn.
    assert (G : forall l (m : gmap string QualifyingRoom) r y,
      foldl (fun (o : gmap string QualifyingRoom) room =>
        match o !! room_id room with Some _ => o | None => <[room_id room := room]> o end) m l !! r
        = Some y -> m !! r = Some y \/ y ∈ l).
    { clear. induction l as [|x l IH]; intros m r y; cbn; [by left|].
      intros [H|H]%IH; [|by right; right]. case_match; [by left|].
      apply lookup_insert_Some in H as [[_ <-]|[_ H]]; [right; left|by left]. }
    destruct (G q ∅ r y Hy) as [H|H]; [by rewrite lookup_empty in H|done]. }
  intros t0. assert (G : forall es t0 due, Forall (fun e => e.2 ∈ q) es -> Forall (fun x => x ∈ q) due ->
    Forall (fun x => x ∈ q)
      (foldl (fun '(t, due) entry => observe_room now t due entry) (t0, due) es).2).
  { clear. induction es as [|[r y] es IH]; intros t0 due Hes Hdue; [done|]. cbn [foldl].
    apply Forall_cons in Hes as [Hy Hes].
    destruct (observe_room now t0 due (r, y)) as [t1 due1] eqn:E. apply IH; [done|].
    unfold observe_room in E. repeat case_match; simplify_eq; try done;
      (apply Forall_app; split; [done|by repeat constructor]). }
  rewrite <-Forall_forall. by apply G.
Qed.

Lemma lane_observe_held s now q l :
  held (lane_observe s now q l)
  = hold_due (observe (tracker (reset_dwell s l)) now q).2
      (filter (fun r => r ∈ list_to_set (C:=gset string) (room_id <$> q)) (held l)).
Proof.
  unfold lane_observe.
  assert (Hh : held (reset_dwell s l) = held l) by (unfold reset_dwell; by case_bool_decide).
  destruct (observe (tracker (reset_dwell s l)) now q) as [t' due]. cbn. rewrite <-Hh.
  unfold retain_live. by repeat case_match.
Qed.

Lemma lane_inv_observe s now q l : lane_inv l -> lane_inv (lane_observe s now q l).
Proof.
  intros (Ha & Hsz & Hcur).
  destruct (lane_observe_fields s now q l) as (Hi & _ & _ & Hc & Hret).
  destruct (hold_due_spec (observe (tracker (reset_dwell s l)) now q).2
    (filter (fun r => r ∈ list_to_set (C:=gset string) (room_id <$> q)) (held l))) as [H1 H2].
  { etrans; [|exact Hsz]. apply subseteq_size. intros r Hr. by apply elem_of_filter in Hr as [_ ?]. }
  split_and!.
  - unfold attempts_ok in *. rewrite Hi. destruct (inflight l), (retry l); try done.
    + destruct Hret as [-> ->]. done.
    + destruct Hret as [[-> ->]|(r' & -> & -> & _)]; done.
    + by destruct Hret as [-> ->].
  - by rewrite lane_observe_held.
  - rewrite Hc, lane_observe_held. intros r [Hr|Hr]%H2.
    + apply elem_of_filter in Hr as [Hr _]. by apply elem_of_list_to_set in Hr.
    + apply list_elem_of_fmap in Hr as (x & -> & Hx). apply list_elem_of_fmap_2.
      by apply observe_due_observed in Hx.
Qed.

(** ** The other operations of a lane *)

(** The window id only names the key. *)
Lemma render_intent_window s rooms w w' locale i :
  render_intent graphemes s rooms w locale = Some i ->
  idempotency_key i = idempotency_key_of (id s) w
  /\ render_intent graphemes s rooms w' locale
     = Some (i <| idempotency_key := idempotency_key_of (id s) w' |>).
Proof.
  unfold render_intent. destruct (sink_is_deliverable s); [|done]. cbn [negb].
  destruct (render_digest _ _ _ _ _) as [[sub bod]|]; [|done]. cbn. by intros [= <-].
Qed.

Lemma same_payload_rekey i j k : same_payload (i <| idempotency_key := k |>) j = same_payload i j.
Proof. done. Qed.

Lemma same_payload_refl i : same_payload i i = true.
Proof. unfold same_payload. by rewrite !String.eqb_refl. Qed.

Lemma same_payload_sym i j : same_payload i j = same_payload j i.
Proof.
  unfold same_payload. by rewrite (String.eqb_sym (subject i)), (String.eqb_sym (body i)),
    (String.eqb_sym (intent_destination i)).
Qed.

Lemma same_payload_trans i j k :
  same_payload i j = true -> same_payload j k = true -> same_payload i k = true.
Proof.
  unfold same_payload. rewrite !andb_true_iff, !String.eqb_eq. intuition congruence.
Qed.

Lemma current_rooms_current l ids : current_rooms l ids ⊆ current l.
Proof. intros x Hx. by apply list_elem_of_filter in Hx as [_ Hx]. Qed.

Lemma open_window_cases s now locale l :
  let '(l', i) := open_window graphemes nonce_ s now locale l in
  held l' = ∅ /\ retry l' = None /\ current l' = current l
  /\ window_sequence l' = u64_wrapping_add (window_sequence l) 1
  /\ match i with
     | None => attempts l' = 0 /\ inflight l' = inflight l
     | Some i =>
         attempts l' = 1 /\ last_attempt_at l' = Some now
         /\ (exists a, inflight l' = Some a /\ attempt_intent a = i)
         /\ (exists rooms, rooms ⊆ current l /\ render_intent graphemes s rooms
               (nonce_ +:+ "-" +:+ display (window_sequence l')) locale = Some i)
     end.
Proof.
  unfold open_window.
  pose proof (current_rooms_current (l <| held := ∅ |> <| retry := None |>)
    (held l ∪ match retry l with Some r => attempt_rooms (attempt r) | None => ∅ end)) as Hrooms.
  revert Hrooms. generalize (current_rooms (l <| held := ∅ |> <| retry := None |>)
    (held l ∪ match retry l with Some r => attempt_rooms (attempt r) | None => ∅ end)).
  intros rooms Hrooms. cbn.
  destruct (render_intent graphemes s rooms _ locale) as [i|] eqn:E; cbn; [|by split_and!].
  split_and!; [done..|by eexists|]. exists rooms. split; [exact Hrooms|exact E].
Qed.

Lemma resend_cases s now locale r l :
  let '(l', i) := resend graphemes nonce_ s now locale r l in
  held l' = held l /\ retry l' = retry l /\ current l' = current l
  /\ match i with
     | None => attempts l' = 0 /\ inflight l' = inflight l /\ window_sequence l' = window_sequence l
     | Some i =>
         attempts l' = attempts l /\ last_attempt_at l' = Some now
         /\ (exists a, inflight l' = Some a /\ attempt_intent a = i)
         /\ exists rooms j, rooms ⊆ current l
              /\ render_intent graphemes s rooms "retry" locale = Some j
              /\ same_payload i j = true
              /\ (let previous := attempt_intent (attempt r) in
                  if same_payload j previous
                  then idempotency_key i = idempotency_key previous
                       /\ window_sequence l' = window_sequence l
                  else idempotency_key i
                       = idempotency_key_of (id s) (nonce_ +:+ "-" +:+ display (window_sequence l'))
                       /\ window_sequence l' = u64_wrapping_add (window_sequence l) 1)
     end.
Proof.
  unfold resend. pose proof (current_rooms_current l (attempt_rooms (attempt r))) as Hrooms.
  revert Hrooms. generalize (current_rooms l (attempt_rooms (attempt r))). intros rooms Hrooms.
  destruct (render_intent graphemes s rooms "retry" locale) as [j|] eqn:E; [|by split_and!].
  destruct (same_payload j (attempt_intent (attempt r))) eqn:Ep; cbn.
  - split_and!; [done..|by eexists|]. exists rooms, j. rewrite Ep.
    split_and!; try done. exact (same_payload_refl j).
  - rewrite (proj2 (render_intent_window s rooms _ _ locale j E)). cbn.
    split_and!; [done..|by eexists|]. exists rooms, j. rewrite Ep.
    split_and!; try done. exact (same_payload_refl j).
Qed.

(** ** The invariant and the count of sends *)

Lemma settle_attempt_cases s now o a l :
  let l' := settle_attempt s now o a l in
  held l' = held l /\ current l' = current l /\ inflight l' = None
  /\ window_sequence l' = window_sequence l /\ last_attempt_at l' = last_attempt_at l
  /\ (attempts l' = 0 /\ retry l' = retry l
      \/ (exists d, attempts l' = attempts l + 1 /\ attempts l < MAX_NOTIFICATION_DELIVERY_ATTEMPTS
           /\ failure o ≫= bounded_retry_delay s = Some d
           /\ retry l' = Some {| attempt := a; not_before := now + d |})).
Proof.
  unfold settle_attempt. cbn. destruct (failure o ≫= bounded_retry_delay s) as [d|] eqn:E.
  - destruct (attempts l <? _) eqn:Ea; cbn; (split_and!; [done..|]).
    + right. exists d. split_guards. split_and!; [lia|done..].
    + by left.
  - cbn. split_and!; try done. by left.
Qed.

Lemma take_inflight_Some key l a : take_inflight key l = Some a -> inflight l = Some a.
Proof.
  unfold take_inflight, then_some. intros (b & Hb & H)%bind_Some. case_match; by simplify_eq.
Qed.

(** Close the counter bounds of a lane whose fields are known. *)
Ltac lane_solve :=
  unfold MAX_NOTIFICATION_DELIVERY_ATTEMPTS in *; split_and!; try lia; try done; try set_solver; intros [? ?]; solve [done|lia].

Lemma lane_step_inv l op n :
  lane_inv l -> counted l n ->
  let '(l', evs) := lane_step l op in lane_inv l' /\ counted l' (foldl count_retry n evs).
Proof.
  intros Hinv Hn. pose proof Hinv as (Ha & Hsz & Hcur). pose proof Hn as (Hn0 & Hni & Hnr).
  destruct op as [s now q|s now locale|s now locale conf|s now key o|key]; cbn [lane_step].
  - split; [by apply lane_inv_observe|].
    destruct (lane_observe_fields s now q l) as (Hi & _ & _ & _ & Hret).
    unfold counted. rewrite Hi. cbn [foldl]. unfold attempts_ok in Ha.
    destruct (retry l) as [r|] eqn:Er.
    + destruct (inflight l) eqn:Ei; [done|]. specialize (Hnr ltac:(done)).
      destruct Hret as [[-> ->]|(r' & -> & -> & _)]; lane_solve.
    + destruct Hret as [-> ->]. lane_solve.
  - destruct (may_open s now l) eqn:Em; cbn [negb]; [|by split].
    assert (Hfree : inflight l = None).
    { unfold may_open in Em. apply negb_true_iff, orb_false_iff in Em as [Em _].
      apply orb_false_iff in Em as [_ Em]. apply bool_decide_eq_false in Em.
      by apply eq_None_not_Some. }
    pose proof (open_window_cases s now locale l) as H.
    destruct (open_window graphemes nonce_ s now locale l) as [l' [i|]].
    + destruct H as (Hh & Hr & Hc & _ & Hat & _ & (a & Hi & _) & _). unfold lane_inv, counted, attempts_ok.
      rewrite Hh, Hr, Hi, Hat, size_empty. cbn. lane_solve.
    + destruct H as (Hh & Hr & Hc & _ & Hat & Hi). unfold lane_inv, counted, attempts_ok.
      rewrite Hh, Hr, Hi, Hfree, Hat, size_empty. cbn. lane_solve.
  - destruct (retry l) as [r|] eqn:Er; [|by split].
    destruct (negb (not_before r <=? now) || bool_decide (is_Some (inflight l))) eqn:Eg; [by split|].
    apply orb_false_iff in Eg as [_ Eg]. apply bool_decide_eq_false, eq_None_not_Some in Eg.
    unfold attempts_ok in Ha. rewrite Eg, Er in Ha. specialize (Hnr ltac:(done)).
    destruct conf; cbn [negb].
    + pose proof (resend_cases s now locale r (l <| retry := None |>)) as H.
      destruct (resend graphemes nonce_ s now locale r (l <| retry := None |>)) as [l' [i|]];
        unfold lane_inv, counted, attempts_ok.
      * destruct H as (Hh & Hr & Hc & Hat & _ & (a & Hi & _) & _).
        rewrite Hh, Hr, Hc, Hi, Hat. cbn. lane_solve.
      * destruct H as (Hh & Hr & Hc & Hat & Hi & _).
        rewrite Hh, Hr, Hc, Hi, Hat. cbn. rewrite Eg. lane_solve.
    + unfold lane_inv, counted, attempts_ok. cbn. rewrite Eg. lane_solve.
  - destruct (take_inflight key l) as [a|] eqn:Et; [|by split]. apply take_inflight_Some in Et.
    destruct (settle_attempt_cases s now o a l) as (Hh & Hc & Hi & _ & _ & Hcase).
    unfold attempts_ok in Ha. rewrite Et in Ha. specialize (Hni ltac:(by rewrite Et)).
    destruct (retry l) eqn:Er; [done|]. unfold lane_inv, counted, attempts_ok.
    rewrite Hh, Hc, Hi. cbn [foldl].
    destruct Hcase as [[-> ->]|(d & -> & ? & _ & ->)]; lane_solve.
  - destruct (take_inflight key l) as [a|] eqn:Et; [|by split]. apply take_inflight_Some in Et.
    unfold attempts_ok in Ha. rewrite Et in Ha. destruct (retry l) eqn:Er; [done|].
    unfold lane_inv, counted, attempts_ok. cbn. rewrite Er.
    lane_solve.
Qed.

(** a lane sends at most three messages for one window, one at a time.  However
    observations, sends, retries, outcomes and abandonments interleave, a lane never has a
    send in flight and a retry armed together, its attempt counter is within bounds and
    zero exactly when nothing is under way, at most two retries follow a window's first
    send, and it holds at most 128 rooms, all of them qualifying now. *)
Theorem lane_attempts_are_bounded dwell ops :
  let '(l, evs) := run lane_step (Lane_new dwell) ops in
  lane_inv l /\ 0 <= retries_since_window evs <= 2.
Proof.
  assert (G : forall ops l n, lane_inv l -> counted l n ->
    let '(l', evs) := run lane_step l ops in lane_inv l' /\ counted l' (foldl count_retry n evs)).
  { clear. induction ops as [|op ops IH]; intros l n Hl Hn; cbn [run]; [by split|].
    pose proof (lane_step_inv l op n Hl Hn) as Hstep.
    destruct (lane_step l op) as [l1 e1]. destruct Hstep as [Hl1 Hn1].
    specialize (IH l1 _ Hl1 Hn1). destruct (run lane_step l1 ops) as [l2 e2].
    by rewrite foldl_app. }
  specialize (G ops (Lane_new dwell) 0 (lane_inv_new dwell)).
  destruct (run lane_step (Lane_new dwell) ops) as [l evs].
  destruct G as [Hl (Hn & _)]; [split_and!; [lia|lia|by intros []..]|]. split; [done|exact Hn].
Qed.

(** * Idempotency keys *)

Definition op_sink (op : LaneOp) : option NotificationSinkSettings :=
  match op with
  | Lane_Observe s _ _ | Lane_Send s _ _ | Lane_Retry s _ _ _ | Lane_Settle s _ _ _ => Some s
  | Lane_Abandon _ => None
  end.

Definition window_key (sink_id : string) (k : Z) : string :=
  idempotency_key_of sink_id (nonce_ +:+ "-" +:+ display k).

Lemma window_key_inj sink_id j k :
  0 <= j -> 0 <= k -> window_key sink_id j = window_key sink_id k -> j = k.
Proof.
  unfold window_key, idempotency_key_of. intros Hj Hk H.
  do 5 apply append_inj_r in H. by apply display_inj.
Qed.

(** Every key sent so far names a window of this lane, a key always carries one payload,
    and what may be retried was sent. *)
Definition keys_inv (sink_id : string) (l : NotificationDeliveryLane)
    (sent : list NotificationDeliveryIntent) (steps : Z) : Prop :=
  0 <= window_sequence l <= steps
  /\ (forall i, i ∈ sent -> exists k, 1 <= k <= window_sequence l /\ idempotency_key i = window_key sink_id k)
  /\ (forall i j, i ∈ sent -> j ∈ sent -> idempotency_key i = idempotency_key j ->
        same_payload i j = true)
  /\ (forall a, inflight l = Some a -> attempt_intent a ∈ sent)
  /\ (forall r, retry l = Some r -> attempt_intent (attempt r) ∈ sent).

(** Sending under a fresh key keeps one payload per key. *)
Lemma keys_fresh sink_id l sent steps l' i :
  keys_inv sink_id l sent steps -> steps < U64_MAX ->
  window_sequence l' = u64_wrapping_add (window_sequence l) 1 ->
  idempotency_key i = window_key sink_id (window_sequence l') ->
  (exists a, inflight l' = Some a /\ attempt_intent a = i) -> retry l' = None ->
  keys_inv sink_id l' (sent ++ [i]) (steps + 1).
Proof.
  intros (Hw & Hk & Hp & _ & _) Hs Hw' Hi (a & Ha & <-) Hr.
  rewrite u64_wrapping_add_small in Hw' by lia.
  assert (Hnew : forall j, j ∈ sent -> idempotency_key j ≠ idempotency_key (attempt_intent a)).
  { intros j Hj E. destruct (Hk j Hj) as (k & Hk1 & Ek). rewrite Ek, Hi in E.
    apply window_key_inj in E; lia. }
  split_and!; [lia|lia| | | |].
  - intros j [Hj| ->%list_elem_of_singleton]%elem_of_app.
    + destruct (Hk j Hj) as (k & ? & ?). exists k. split; [lia|done].
    + exists (window_sequence l'). split; [lia|done].
  - intros j1 j2 [H1| ->%list_elem_of_singleton]%elem_of_app
      [H2| ->%list_elem_of_singleton]%elem_of_app E; [by apply Hp|..].
    + by apply Hnew in H1.
    + symmetry in E. by apply Hnew in H2.
    + apply same_payload_refl.
  - rewrite Ha. intros ? [= <-]. apply elem_of_app. right. by left.
  - by rewrite Hr.
Qed.

(** Sending an unchanged payload under its old key keeps one payload per key. *)
Lemma keys_repeat sink_id l sent steps l' i previous :
  keys_inv sink_id l sent steps -> previous ∈ sent ->
  idempotency_key i = idempotency_key previous -> same_payload i previous = true ->
  window_sequence l' = window_sequence l ->
  (exists a, inflight l' = Some a /\ attempt_intent a = i) -> retry l' = None ->
  keys_inv sink_id l' (sent ++ [i]) (steps + 1).
Proof.
  intros (Hw & Hk & Hp & _ & _) Hprev Hi Hpay Hw' (a & Ha & <-) Hr.
  assert (Hsame : forall j, j ∈ sent -> idempotency_key j = idempotency_key (attempt_intent a) ->
    same_payload (attempt_intent a) j = true).
  { intros j Hj E. eapply same_payload_trans; [exact Hpay|]. apply Hp; [done|done|congruence]. }
  split_and!; [lia|lia| | | |].
  - rewrite Hw'. intros j [Hj| ->%list_elem_of_singleton]%elem_of_app; [by apply Hk|].
    rewrite Hi. by apply Hk.
  - intros j1 j2 [H1| ->%list_elem_of_singleton]%elem_of_app
      [H2| ->%list_elem_of_singleton]%elem_of_app E; [by apply Hp|..].
    + rewrite same_payload_sym. by apply Hsame.
    + by apply Hsame.
    + apply same_payload_refl.
  - rewrite Ha. intros ? [= <-]. apply elem_of_app. right. by left.
  - by rewrite Hr.
Qed.

(** A step that sends nothing. *)
Lemma keys_quiet sink_id l sent steps l' :
  keys_inv sink_id l sent steps ->
  (window_sequence l' = window_sequence l \/
   (steps < U64_MAX /\ window_sequence l' = u64_wrapping_add (window_sequence l) 1)) ->
  (forall a, inflight l' = Some a -> attempt_intent a ∈ sent) ->
  (forall r, retry l' = Some r -> attempt_intent (attempt r) ∈ sent) ->
  keys_inv sink_id l' (sent ++ []) (steps + 1).
Proof.
  intros (Hw & Hk & Hp & Hi & Hr) Hw' Hi' Hr'. rewrite app_nil_r.
  assert (window_sequence l <= window_sequence l' <= window_sequence l + 1).
  { destruct Hw' as [->|[? ->]]; [lia|]. rewrite u64_wrapping_add_small; lia. }
  split_and!; try done; try lia. intros i (k & ? & ?)%Hk. exists k. split; [lia|done].
Qed.

Definition op_for (sink_id : string) (op : LaneOp) : Prop :=
  match op_sink op with Some s => id s = sink_id | None => True end.

Lemma keys_step sink_id l sent steps op :
  keys_inv sink_id l sent steps -> steps < U64_MAX -> op_for sink_id op ->
  let '(l', evs) := lane_step l op in keys_inv sink_id l' (sent ++ (sent_intent <$> evs)) (steps + 1).
Proof.
  intros Hinv Hs Hid. pose proof Hinv as (Hw & Hk & Hp & Hi & Hr). unfold op_for in Hid.
  assert (Hquiet : keys_inv sink_id l (sent ++ []) (steps + 1)).
  { apply (keys_quiet sink_id l); auto. }
  destruct op as [s now q|s now locale|s now locale conf|s now key o|key];
    cbn [lane_step op_sink] in *.
  - destruct (lane_observe_fields s now q l) as (Hi' & _ & Hw' & _ & Hret).
    apply (keys_quiet sink_id l); [done|by left|by rewrite Hi'|].
    destruct (retry l) as [r|]; [|by destruct Hret as [-> _]].
    destruct Hret as [[-> _]|(r' & -> & _ & _ & E & _)]; [done|].
    intros ? [= <-]. rewrite E. by apply Hr.
  - destruct (may_open s now l); [|done]. cbn [negb].
    pose proof (open_window_cases s now locale l) as H.
    destruct (open_window graphemes nonce_ s now locale l) as [l' [i|]].
    + destruct H as (_ & Hr' & _ & Hw' & _ & _ & Ha & (rooms & _ & Hi')).
      destruct (render_intent_window _ _ _ "" _ _ Hi') as [Hkey _].
      apply (keys_fresh sink_id l sent steps l' i); [done|done|done| |done|done].
      unfold window_key. by rewrite Hkey, Hid.
    + destruct H as (_ & Hr' & _ & Hw' & _ & Hi'). apply (keys_quiet sink_id l);
        [done|by right|by rewrite Hi'|by rewrite Hr'].
  - destruct (retry l) as [r|] eqn:Er; [|done].
    destruct (negb (not_before r <=? now) || bool_decide (is_Some (inflight l))); [done|].
    destruct conf; cbn [negb]; [|by apply (keys_quiet sink_id l); auto].
    pose proof (resend_cases s now locale r (l <| retry := None |>)) as H.
    destruct (resend graphemes nonce_ s now locale r (l <| retry := None |>)) as [l' [i|]].
    + destruct H as (_ & Hr' & _ & _ & _ & Ha & (rooms & j & _ & Hj & Hpay & Hkey)).
      cbn zeta in Hkey. destruct (same_payload j (attempt_intent (attempt r))) eqn:Ej.
      * destruct Hkey as [Hkey Hw']. apply (keys_repeat sink_id l sent steps l' i (attempt_intent (attempt r)));
          [done|by apply Hr|done|by eapply same_payload_trans|done..].
      * destruct Hkey as [Hkey Hw']. apply (keys_fresh sink_id l sent steps); try done.
        unfold window_key. by rewrite <-Hid.
    + destruct H as (_ & Hr' & _ & _ & Hi' & Hw'). apply (keys_quiet sink_id l);
        [done|by left|by rewrite Hi'|by rewrite Hr'].
  - destruct (take_inflight key l) as [a|] eqn:Et; [|done]. apply take_inflight_Some in Et.
    destruct (settle_attempt_cases s now o a l) as (_ & _ & Hi' & Hw' & _ & Hcase).
    apply (keys_quiet sink_id l); [done|by left|by rewrite Hi'|].
    destruct Hcase as [[_ ->]|(d & _ & _ & _ & ->)]; [done|]. intros ? [= <-]. by apply Hi.
  - destruct (take_inflight key l) as [a|] eqn:Et; [|done].
    apply (keys_quiet sink_id l); [done|by left|done|done].
Qed.

(** within the life of a lane an idempotency key names one message.  Whatever the
    sequence of observations, windows, retries and outcomes (fewer than 2^64 of them), any
    two messages the lane sends under the same key have the same subject, body and
    destination: a retry repeats its key only for an unchanged payload, and every other
    message gets a key of its own. *)
Theorem one_payload_per_key sink_id dwell ops :
  Forall (op_for sink_id) ops -> Z.of_nat (length ops) < U64_MAX ->
  let sent := sent_intent <$> (run lane_step (Lane_new dwell) ops).2 in
  forall i j, i ∈ sent -> j ∈ sent -> idempotency_key i = idempotency_key j -> same_payload i j = true.
Proof.
  assert (G : forall ops l sent steps, Forall (op_for sink_id) ops ->
    steps + Z.of_nat (length ops) <= U64_MAX -> keys_inv sink_id l sent steps ->
    keys_inv sink_id (run lane_step l ops).1 (sent ++ (sent_intent <$> (run lane_step l ops).2))
      (steps + Z.of_nat (length ops))).
  { clear. induction ops as [|op ops IH]; intros l sent steps Hops Hlen Hinv.
    { cbn. by rewrite app_nil_r, Z.add_0_r. }
    apply Forall_cons in Hops as [Hop Hops]. cbn [length] in *.
    pose proof (keys_step sink_id l sent steps op Hinv ltac:(lia) Hop) as Hstep.
    rewrite run_cons, run_effects_cons, fmap_app, app_assoc.
    destruct (lane_step l op) as [l1 e1]. cbn [fst snd].
    replace (steps + Z.of_nat (S (length ops))) with ((steps + 1) + Z.of_nat (length ops)) by lia.
    apply IH; [done|lia|exact Hstep]. }
  intros Hops Hlen sent. specialize (G ops (Lane_new dwell) [] 0 Hops ltac:(lia)).
  destruct G as (_ & _ & Hp & _); [|exact Hp].
  split_and!; [done|done|by intros ? ?%elem_of_nil|by intros ? ? ?%elem_of_nil|done|done].
Qed.
End lanes.

(** * A concrete destination and room, for the witnesses *)

Definition demo_sink (revision : string) : NotificationSinkSettings :=
  let s := {| id := "mail"; destination := "me@example.org"; from_address := "me@example.org";
              sender_name := "Koushi"; config := Resend "https://api"; secret_binding := None;
              targets := Targets_default; content := NamesOnly; content_consent := None;
              timing := {| dwell_secs := 0; min_interval_secs := 60; only_when_unfocused := true |};
              direct_partner_label := MatrixId |} in
  s <| secret_binding := Some (credential_binding s revision) |>.

Definition demo_candidate (name : string) : RoomAttentionCandidate :=
  {| cand_room_id := "!" +:+ name; cand_display_label := name; cand_kind := Kind_Dm;
     cand_unread := 1; cand_mentions := 0; parent_space_ids := []; parent_space_labels := [];
     newest_message_text := None; cand_direct_partner := None |}.

Definition demo_settings (revision : string) : NotificationDeliverySettings :=
  {| sinks := [demo_sink revision] |}.

(** A rate-limited window retried unchanged repeats its key. *)
Lemma one_payload_per_key_witness :
  let s := demo_sink "a1" in
  let q := qualifying_rooms s [demo_candidate "A"] false in
  let ops := [Lane_Observe s 0 q; Lane_Send s 0 Locale_En;
              Lane_Settle s 1 "koushi-notification/mail/n-1" (Outcome_Failed (Failure_RateLimited None));
              Lane_Retry s (from_secs 3600) Locale_En true] in
  let sent := sent_intent <$> (run (lane_step chars "n") (Lane_new 0) ops).2 in
  exists i j, sent = [i; j] /\ idempotency_key i = "koushi-notification/mail/n-1"
    /\ idempotency_key j = "koushi-notification/mail/n-1" /\ same_payload i j = true.
Proof.
  intros s q ops sent.
  set (i := default (test_delivery_intent s "" Locale_En) (sent !! 0%nat)).
  set (j := default (test_delivery_intent s "" Locale_En) (sent !! 1%nat)).
  assert (E : sent = [i; j]) by (vm_compute; reflexivity).
  exists i, j. split; [exact E|]. split; [vm_compute; reflexivity|]. split; [vm_compute; reflexivity|].
  apply (one_payload_per_key chars "n" "mail" 0 ops).
  - repeat constructor.
  - vm_compute; reflexivity.
  - fold sent. rewrite E. left.
  - fold sent. rewrite E. right. left.
  - vm_compute; reflexivity.
Defined.
