(* ===== verification/DeliveryRuns.v ===== *)
(** Whole drives of the notification delivery channel: what a drive may send, when held
    rooms are released, and what a late outcome can settle. *)

From stdpp Require Import base list strings gmap.
From Stdlib Require Import ZArith Lia.
From S2P Require Import Prelude Text DeliverySettings Delivery DeliveryChannel DwellProps DeliveryProps.
Local Open Scope string_scope.
Local Open Scope list_scope.
Local Open Scope Z_scope.
Local Set Warnings "-clear-no-such-hyp".

Section drives.
Context (graphemes : string -> list string) (INSTANT_MAX : Z).
Implicit Types (c : NotificationDeliveryChannel) (s : NotificationSinkSettings).

(** * Sinks in turn *)

Lemma each_sink_ind {J} (P : NotificationDeliveryChannel -> Prop) (Q : J -> Prop) f c l :
  (forall c s, s ∈ l -> P c -> P (f c s).1 /\ Forall Q (f c s).2) ->
  P c -> P (each_sink f c l).1 /\ Forall Q (each_sink f c l).2.
Proof.
  revert c; induction l as [|s l IH]; intros c Hf Hc; cbn [each_sink]; [done|].
  destruct (Hf c s ltac:(by left) Hc) as [H1 H2]. destruct (f c s) as [c1 j1].
  destruct (IH c1) as [H3 H4]; [intros; apply Hf; [by right|done]|done|].
  destruct (each_sink f c1 l) as [c2 j2]. split; [done|]. by apply Forall_app.
Qed.

(** What a lane may send about: the rooms that qualify now, if the sink is configured. *)
Definition sendable (cred : gmap string SinkCredential) (candidates : list RoomAttentionCandidate)
    (focused : bool) (s : NotificationSinkSettings) : list QualifyingRoom :=
  if is_some_and (cred !! id s)
       (fun k => configured k && bool_decide (binding k = secret_binding s))
  then qualifying_rooms s candidates focused else [].

(** Every lane of these sinks holds the current observation. *)
Definition observed_lanes (cred : gmap string SinkCredential)
    (candidates : list RoomAttentionCandidate) (focused : bool)
    (l : list NotificationSinkSettings) (c : NotificationDeliveryChannel) : Prop :=
  credentials c = cred
  /\ forall s lane, s ∈ l -> lanes c !! id s = Some lane ->
       current lane = sendable cred candidates focused s.

Lemma lane_observe_current s now q l : current (lane_observe s now q l) = q.
Proof. by destruct (lane_observe_fields s now q l) as (_ & _ & _ & H & _). Qed.

Lemma observe_sink_spec now cands focused c s :
  let c' := observe_sink now cands focused c s in
  credentials c' = credentials c
  /\ (forall i, i ≠ id s -> lanes c' !! i = lanes c !! i)
  /\ (forall lane, lanes c' !! id s = Some lane ->
        current lane = sendable (credentials c) cands focused s).
Proof.
  unfold observe_sink, is_configured. fold (sendable (credentials c) cands focused s).
  generalize (sendable (credentials c) cands focused s) as q. intros q.
  destruct (lanes c !! id s) as [lane|] eqn:El; [|case_bool_decide as Eq]; cbn;
    (split_and!; [done|intros i Hi; by rewrite ?lookup_insert_ne|intros lane']).
  - rewrite lookup_insert_eq. intros [= <-]. by apply lane_observe_current.
  - by rewrite El.
  - rewrite lookup_insert_eq. intros [= <-]. by apply lane_observe_current.
Qed.

Lemma channel_observe_spec d now cands focused c :
  NoDup (id <$> sinks d) ->
  observed_lanes (credentials c) cands focused (sinks d) (channel_observe d now cands focused c).
Proof.
  unfold channel_observe.
  assert (G : forall l c, NoDup (id <$> l) ->
    let c' := foldl (observe_sink now cands focused) c l in
    credentials c' = credentials c
    /\ (forall i, i ∉ id <$> l -> lanes c' !! i = lanes c !! i)
    /\ (forall s lane, s ∈ l -> lanes c' !! id s = Some lane ->
          current lane = sendable (credentials c) cands focused s)).
  { clear. induction l as [|s l IH]; intros c Hnd.
    { cbn. split_and!; [done|done|]. by intros ? ? ?%elem_of_nil. }
    rewrite fmap_cons in Hnd. apply NoDup_cons in Hnd as [Hs Hnd]. cbn [foldl].
    destruct (observe_sink_spec now cands focused c s) as (H1 & H2 & H3).
    destruct (IH (observe_sink now cands focused c s) Hnd) as (H4 & H5 & H6). split_and!.
    - congruence.
    - intros i Hi. rewrite fmap_cons, not_elem_of_cons in Hi. destruct Hi as [Hi1 Hi2].
      rewrite H5 by done. by apply H2.
    - intros s' lane [->|Hs']%elem_of_cons Hl.
      + rewrite H5 in Hl by done. by apply H3.
      + rewrite <-H1. by apply H6. }
  intros Hnd. destruct (G (sinks d) c Hnd) as (H1 & _ & H3). by split.
Qed.

Lemma observed_lanes_update cred cands focused l c s lane lane' :
  NoDup (id <$> l) -> s ∈ l -> lanes c !! id s = Some lane -> current lane' = current lane ->
  observed_lanes cred cands focused l c ->
  observed_lanes cred cands focused l (c <| lanes ::= <[id s := lane']> |>).
Proof.
  intros Hnd Hs Hlane Hcur [H1 H2]. split; [done|]. cbn. intros s' lane'' Hs' Hl.
  apply lookup_insert_Some in Hl as [[Hid <-]|[Hne Hl]]; [|by apply H2].
  rewrite Hcur. apply H2; [done|congruence].
Qed.

(** * What is sent *)

(** A message justified now: for a configured sink, rendered from rooms that qualify. *)
Definition justified (cred : gmap string SinkCredential) (d : NotificationDeliverySettings)
    (candidates : list RoomAttentionCandidate) (focused : bool) (locale : CatalogLocale)
    (j : NotificationDeliveryJob) : Prop :=
  exists s rooms window i,
    s ∈ sinks d /\ job_sink_id j = id s
    /\ (exists k, cred !! id s = Some k /\ configured k = true /\ binding k = secret_binding s)
    /\ rooms ⊆ qualifying_rooms s candidates focused /\ rooms ≠ []
    /\ render_intent graphemes s rooms window locale = Some i
    /\ same_payload (job_intent j) i = true.

Lemma render_intent_nonempty s window locale : render_intent graphemes s [] window locale = None.
Proof. unfold render_intent. by destruct (sink_is_deliverable s). Qed.

Lemma justified_intro cred d cands focused locale s lane rooms window i j :
  s ∈ sinks d -> current lane = sendable cred cands focused s -> rooms ⊆ current lane ->
  render_intent graphemes s rooms window locale = Some i -> same_payload (job_intent j) i = true ->
  job_sink_id j = id s -> justified cred d cands focused locale j.
Proof.
  intros Hs Hcur Hrooms Hi Hp Hj. rewrite Hcur in Hrooms.
  assert (Hne : rooms ≠ []) by (intros ->; by rewrite render_intent_nonempty in Hi).
  exists s, rooms, window, i. unfold sendable in Hrooms.
  destruct (cred !! id s) as [k|] eqn:Ek; cbn [is_some_and] in Hrooms.
  2: { destruct rooms as [|x rooms]; [done|]. exfalso. eapply elem_of_nil. apply (Hrooms x). by left. }
  destruct (configured k && bool_decide (binding k = secret_binding s)) eqn:E.
  2: { destruct rooms as [|x rooms]; [done|]. exfalso. eapply elem_of_nil. apply (Hrooms x). by left. }
  split_guards. split_and!; try done. exists k. auto.
Qed.

Lemma find_by_id (l : list NotificationSinkSettings) s s' :
  NoDup (id <$> l) -> s ∈ l -> s' ∈ l -> id s = id s' -> s = s'.
Proof.
  induction l as [|x l IH]; [by intros _ ?%elem_of_nil|]. rewrite fmap_cons.
  intros [Hx Hl]%NoDup_cons [->|Hs]%elem_of_cons [->|Hs']%elem_of_cons E; auto.
  - exfalso. apply Hx. rewrite E. by apply list_elem_of_fmap_2.
  - exfalso. apply Hx. rewrite <-E. by apply list_elem_of_fmap_2.
Qed.

Section one_drive.
Context (d : NotificationDeliverySettings) (cred : gmap string SinkCredential)
  (candidates : list RoomAttentionCandidate) (focused : bool) (locale : CatalogLocale).
Context (Hids : NoDup (id <$> sinks d)).

Lemma retry_job_justified now c s :
  s ∈ sinks d -> observed_lanes cred candidates focused (sinks d) c ->
  observed_lanes cred candidates focused (sinks d) (retry_job graphemes now locale c s).1
  /\ Forall (justified cred d candidates focused locale) (retry_job graphemes now locale c s).2.
Proof.
  intros Hs Hc. unfold retry_job. destruct (lanes c !! id s) as [l|] eqn:El; [|done].
  pose proof (proj2 Hc s l Hs El) as Hcur.
  destruct (retry l) as [r|]; [|done].
  destruct (negb (not_before r <=? now) || bool_decide (is_Some (inflight l))); [done|].
  destruct (is_configured c s); cbn [negb].
  2: { split; [|done]. by apply (observed_lanes_update _ _ _ _ _ _ l). }
  pose proof (resend_cases graphemes (nonce c) s now locale r (l <| retry := None |>)) as H.
  destruct (resend graphemes (nonce c) s now locale r (l <| retry := None |>)) as [l' [i|]].
  - destruct H as (_ & _ & Hcur' & _ & _ & _ & (rooms & j & Hrooms & Hj & Hpay & _)).
    split; [by apply (observed_lanes_update _ _ _ _ _ _ l)|]. repeat constructor.
    by apply (justified_intro _ _ _ _ _ s l rooms "retry" j).
  - destruct H as (_ & _ & Hcur' & _). split; [|by constructor].
    by apply (observed_lanes_update _ _ _ _ _ _ l).
Qed.

Lemma send_job_justified now c s :
  s ∈ sinks d -> observed_lanes cred candidates focused (sinks d) c ->
  observed_lanes cred candidates focused (sinks d) (send_job graphemes now locale c s).1
  /\ Forall (justified cred d candidates focused locale) (send_job graphemes now locale c s).2.
Proof.
  intros Hs Hc. unfold send_job. destruct (is_configured c s); [|done]. cbn [negb].
  destruct (lanes c !! id s) as [l|] eqn:El; [|done].
  pose proof (proj2 Hc s l Hs El) as Hcur.
  destruct (may_open s now l); [|done]. cbn [negb].
  pose proof (open_window_cases graphemes (nonce c) s now locale l) as H.
  destruct (open_window graphemes (nonce c) s now locale l) as [l' [i|]].
  - destruct H as (_ & _ & Hcur' & _ & _ & _ & _ & (rooms & Hrooms & Hi)).
    split; [by apply (observed_lanes_update _ _ _ _ _ _ l)|]. repeat constructor.
    eapply (justified_intro _ _ _ _ _ s l rooms _ i); try done. apply same_payload_refl.
  - destruct H as (_ & _ & Hcur' & _). split; [|by constructor].
    by apply (observed_lanes_update _ _ _ _ _ _ l).
Qed.

Lemma jobs_justified now c :
  observed_lanes cred candidates focused (sinks d) c ->
  let '(c1, retries) := take_due_retries graphemes d now locale c in
  let '(c2, sends) := take_send_jobs graphemes d now locale c1 in
  Forall (justified cred d candidates focused locale) (retries ++ sends).
Proof.
  intros Hc. unfold take_due_retries, take_send_jobs.
  destruct (each_sink_ind (observed_lanes cred candidates focused (sinks d))
    (justified cred d candidates focused locale) (retry_job graphemes now locale) c (sinks d)) as [H1 H2];
    [intros; by apply retry_job_justified|done|].
  destruct (each_sink (retry_job graphemes now locale) c (sinks d)) as [c1 retries].
  destruct (each_sink_ind (observed_lanes cred candidates focused (sinks d))
    (justified cred d candidates focused locale) (send_job graphemes now locale) c1 (sinks d)) as [H3 H4];
    [intros; by apply send_job_justified|done|].
  destruct (each_sink (send_job graphemes now locale) c1 (sinks d)) as [c2 sends].
  by apply Forall_app.
Qed.
End one_drive.

(** The credentials a drive decides by. *)
Definition drive_credentials (stored : string -> bool) (d : NotificationDeliverySettings) c
    : gmap string SinkCredential :=
  let c := retain_sinks d c in
  credentials (if configured_sinks_match c d then c else refresh_configured stored d c).

(** C30: a drive sends only what is justified at that moment.  Every message it hands out,
    first send or retry, goes to a destination whose stored credential was confirmed for
    the binding the destination has now, and says exactly what the message of some rooms
    that qualify in this very observation says: a room read, muted, focused or no longer
    targeted is not sent about, whatever was held or was to be retried. *)
Theorem drive_sends_only_what_qualifies stored d now candidates focused locale c :
  NoDup (id <$> sinks d) ->
  Forall (justified (drive_credentials stored d c) d candidates focused locale)
    (observe_notification_delivery graphemes INSTANT_MAX stored d now candidates focused locale c).2.
Proof.
  intros Hids. unfold observe_notification_delivery, drive_credentials.
  generalize (if configured_sinks_match (retain_sinks d c) d then retain_sinks d c
              else refresh_configured stored d (retain_sinks d c)) as c1. intros c1.
  destruct (negb (existsb (fun s => has_any (targets s)) (sinks d))
            && negb (has_pending_work INSTANT_MAX c1)); [constructor|].
  pose proof (channel_observe_spec d now candidates focused c1 Hids) as Hobs.
  pose proof (jobs_justified d (credentials c1) candidates focused locale Hids now _ Hobs) as H.
  destruct (take_due_retries graphemes d now locale (channel_observe d now candidates focused c1))
    as [c2 retries].
  by destruct (take_send_jobs graphemes d now locale c2) as [c3 sends].
Qed.

(** * Held rooms *)

Lemma ordered_rooms_nonempty rooms : rooms ≠ [] -> ordered_rooms rooms ≠ [].
Proof.
  intros Hne E. destruct rooms as [|x rooms]; [done|].
  assert (H : room_id x ∈ room_id <$> ordered_rooms (x :: rooms)).
  { apply retain_first_covers; [|set_solver]. apply elem_of_sort_by. by left. }
  rewrite E in H. by apply elem_of_nil in H.
Qed.

Lemma render_intent_sends s rooms window locale :
  sink_is_deliverable s = true -> rooms ≠ [] ->
  is_Some (render_intent graphemes s rooms window locale).
Proof.
  intros Hs Hne. unfold render_intent, render_digest. rewrite Hs. cbn [negb].
  destruct (ordered_rooms rooms) as [|first rest] eqn:E; [by apply ordered_rooms_nonempty in E|].
  cbn. by eexists.
Qed.

Lemma send_job_other now locale c s i :
  i ≠ id s ->
  lanes (send_job graphemes now locale c s).1 !! i = lanes c !! i
  /\ credentials (send_job graphemes now locale c s).1 = credentials c.
Proof.
  intros Hi. unfold send_job. destruct (is_configured c s); [|done]. cbn [negb].
  destruct (lanes c !! id s) as [l|]; [|done]. destruct (may_open s now l); [|done]. cbn [negb].
  destruct (open_window graphemes (nonce c) s now locale l) as [l' o]. cbn.
  by rewrite lookup_insert_ne.
Qed.

(** A lane that may open a window and holds a live room sends. *)
Lemma send_job_sends now locale c s l :
  is_configured c s = true -> sink_is_deliverable s = true -> lanes c !! id s = Some l ->
  may_open s now l = true -> (exists r, r ∈ held l /\ r ∈ room_id <$> current l) ->
  exists j, (send_job graphemes now locale c s).2 = [j] /\ job_sink_id j = id s.
Proof.
  intros Hconf Hdel Hl Hmay (r & Hr & (x & -> & Hx)%list_elem_of_fmap).
  unfold send_job. rewrite Hconf, Hl, Hmay. cbn [negb]. unfold open_window.
  match goal with |- context [current_rooms ?a ?b] =>
    assert (Hne : current_rooms a b ≠ []);
    [|revert Hne; generalize (current_rooms a b); intros rooms Hne] end.
  { intros E. apply (elem_of_nil x). rewrite <-E. apply list_elem_of_filter. split; [set_solver|done]. }
  cbn. match goal with |- context [render_intent graphemes s rooms ?w locale] =>
    destruct (render_intent_sends s rooms w locale Hdel Hne) as [i Hi] end.
  rewrite Hi. cbn. by eexists.
Qed.

Lemma take_send_jobs_reaches now locale l1 l2 c s l :
  NoDup (id <$> l1 ++ s :: l2) ->
  is_configured c s = true -> sink_is_deliverable s = true -> lanes c !! id s = Some l ->
  may_open s now l = true -> (exists r, r ∈ held l /\ r ∈ room_id <$> current l) ->
  exists j, j ∈ (each_sink (send_job graphemes now locale) c (l1 ++ s :: l2)).2
            /\ job_sink_id j = id s.
Proof.
  revert c; induction l1 as [|s1 l1 IH]; intros c Hnd Hconf Hdel Hl Hmay Hr; cbn [app each_sink].
  - destruct (send_job_sends now locale c s l Hconf Hdel Hl Hmay Hr) as (j & Hj & Hid).
    destruct (send_job graphemes now locale c s) as [c1 j1]. cbn in Hj. subst j1.
    destruct (each_sink _ c1 l2) as [c2 j2]. exists j. split; [by left|done].
  - cbn [app] in Hnd. rewrite fmap_cons in Hnd. apply NoDup_cons in Hnd as [Hs1 Hnd].
    assert (Hne : id s ≠ id s1).
    { intros E. apply Hs1. rewrite <-E. apply list_elem_of_fmap_2. set_solver. }
    destruct (send_job_other now locale c s1 (id s) Hne) as [H1 H2].
    destruct (send_job graphemes now locale c s1) as [c1 j1]; cbn in H1, H2.
    destruct (IH c1 Hnd) as (j & Hj & Hid); [by unfold is_configured in *; rewrite H2|done|by rewrite H1|done|done|].
    destruct (each_sink _ c1 (l1 ++ s :: l2)) as [c2 j2]. cbn in Hj |- *.
    exists j. split; [|done]. apply elem_of_app. by right.
Qed.

Lemma next_wake_at_le d c s t :
  s ∈ sinks d -> t ∈ sink_deadlines INSTANT_MAX c s ->
  exists w, next_wake_at INSTANT_MAX c d = Some w /\ w <= t.
Proof.
  intros Hs Ht. unfold next_wake_at.
  assert (Hin : t ∈ mjoin (sink_deadlines INSTANT_MAX c <$> sinks d)).
  { apply list_elem_of_join. eexists. split; [exact Ht|]. by apply list_elem_of_fmap_2. }
  destruct (min_opt _) as [w|] eqn:E.
  - exists w. split; [done|]. apply min_opt_Some in E as [_ E]. rewrite Forall_forall in E. auto.
  - apply min_opt_None in E. rewrite E in Hin. by apply elem_of_nil in Hin.
Qed.

(** rooms held behind the minimum interval are released on time.  For a configured
    destination whose lane holds a room that still qualifies and has no send in flight,
    the channel asks to be woken no later than the end of the interval since the lane's
    last attempt, and from that instant on (or at once, when it never sent) taking the
    send jobs sends for it: a held batch never waits for an unrelated event. *)
Theorem held_rooms_are_released d c s l locale :
  let interval := from_secs (min_interval_secs (timing s)) in
  NoDup (id <$> sinks d) -> s ∈ sinks d -> lanes c !! id s = Some l ->
  is_configured c s = true -> sink_is_deliverable s = true -> 0 <= interval ->
  inflight l = None -> (exists r, r ∈ held l /\ r ∈ room_id <$> current l) ->
  (forall last, last_attempt_at l = Some last -> last + interval <= INSTANT_MAX ->
     exists w, next_wake_at INSTANT_MAX c d = Some w /\ w <= last + interval)
  /\ (forall now, (forall last, last_attempt_at l = Some last -> last + interval <= now) ->
       exists j, j ∈ (take_send_jobs graphemes d now locale c).2 /\ job_sink_id j = id s).
Proof.
  intros interval Hids Hs Hl Hconf Hdel Hm Hfree Hr.
  assert (Hheld : bool_decide (held l = ∅) = false).
  { apply bool_decide_eq_false. destruct Hr as (r & Hr & _). set_solver. }
  split.
  - intros last Hlast Hmax. apply (next_wake_at_le d c s); [done|].
    unfold sink_deadlines. rewrite Hl, Hheld, Hfree, Hconf. cbn [negb andb].
    rewrite bool_decide_eq_true_2 by done. cbn [andb]. apply elem_of_app. right. apply elem_of_app. right.
    unfold coalescing_deadline, checked_add. rewrite Hlast. cbn. fold interval.
    rewrite (proj2 (Z.leb_le _ _) Hmax). cbn. by left.
  - intros now Hnow. unfold take_send_jobs.
    destruct (list_elem_of_split _ _ Hs) as (l1 & l2 & E). rewrite E in Hids |- *.
    apply (take_send_jobs_reaches now locale l1 l2 c s l); try done.
    unfold may_open. rewrite Hheld, Hfree, bool_decide_eq_false_2 by by intros []. cbn [orb].
    fold interval. unfold coalesce_window, checked_duration_since.
    destruct (last_attempt_at l) as [last|]; [|done]. specialize (Hnow last eq_refl).
    rewrite (proj2 (Z.leb_le last now)) by lia. cbn.
    by rewrite (proj2 (Z.leb_le interval (now - last))) by lia.
Qed.

(** * Late outcomes *)

(** an outcome settles only the attempt it belongs to.  An outcome whose key is
    neither the destination's pending test send nor the lane's attempt in flight changes
    nothing, and once a destination's credential is recorded for another binding no outcome
    at all settles anything for it until it sends again. *)
Theorem late_outcome_settles_nothing d now s key o at_ms c :
  pending_tests c !! id s ≠ Some key ->
  (forall l a, lanes c !! id s = Some l -> inflight l = Some a ->
     idempotency_key (attempt_intent a) ≠ key) ->
  record_outcome d now (id s) key o at_ms c = c
  /\ forall k conf key', credentials c !! id s = Some k -> binding k ≠ secret_binding s ->
       record_outcome d now (id s) key' o at_ms (record_credential s conf c)
       = record_credential s conf c.
Proof.
  intros Ht Hl. split.
  - unfold record_outcome. destruct (sink d (id s)) as [s'|]; [|done].
    unfold take_pending_test. destruct (pending_tests c !! id s) as [k|] eqn:Ek; cbn.
    + destruct (String.eqb_spec k key) as [->|Hne]; [done|].
      destruct (lanes c !! id s) as [l|] eqn:El; [|done]. unfold take_inflight, then_some.
      destruct (inflight l) as [a|] eqn:Ea; [|done]. cbn.
      destruct (String.eqb_spec (idempotency_key (attempt_intent a)) key) as [E|]; [|done].
      by destruct (Hl l a).
    + destruct (lanes c !! id s) as [l|] eqn:El; [|done]. unfold take_inflight, then_some.
      destruct (inflight l) as [a|] eqn:Ea; [|done]. cbn.
      destruct (String.eqb_spec (idempotency_key (attempt_intent a)) key) as [E|]; [|done].
      by destruct (Hl l a).
  - intros k conf key' Hk Hb. unfold record_outcome, record_credential. rewrite Hk. cbn [is_some_and].
    rewrite bool_decide_eq_false_2 by done. cbn [negb].
    destruct (sink d (id s)) as [s'|]; [|done]. unfold take_pending_test. cbn.
    by rewrite !lookup_delete_eq.
Qed.
End drives.

(** * Concrete runs *)

Definition demo_run : list ChannelOp :=
  let stored := fun _ => true in
  [Op_Drive stored (demo_settings "a1") 0 [demo_candidate "A"] false Locale_En;
   Op_RecordCredential (demo_sink "b2") true;
   Op_Drive stored (demo_settings "b2") 1 [demo_candidate "B"] false Locale_En].

Definition demo_channel (ops : list ChannelOp) : NotificationDeliveryChannel :=
  (run (channel_step chars 1000000000000) (with_nonce "n") ops).1.

Lemma drive_sends_only_what_qualifies_witness :
  let d := demo_settings "a1" in
  let jobs := (observe_notification_delivery chars 1000000000000 (fun _ => true) d 0
                 [demo_candidate "A"] false Locale_En (with_nonce "n")).2 in
  length jobs = 1%nat
  /\ Forall (justified chars (drive_credentials (fun _ => true) d (with_nonce "n")) d
               [demo_candidate "A"] false Locale_En) jobs.
Proof.
  intros d jobs. split; [vm_compute; reflexivity|].
  apply (drive_sends_only_what_qualifies chars 1000000000000 (fun _ => true) d 0
           [demo_candidate "A"] false Locale_En (with_nonce "n")).
  vm_compute. repeat constructor. apply not_elem_of_nil.
Defined.

(** After a first message, a room held behind the minimum interval of sixty seconds. *)
Lemma held_rooms_are_released_witness :
  let d := demo_settings "a1" in
  let stored := fun _ : string => true in
  let c := demo_channel
    [Op_Drive stored d 0 [demo_candidate "A"] false Locale_En;
     Op_RecordOutcome d 1 "mail" "koushi-notification/mail/n-1" Outcome_Accepted 1;
     Op_Drive stored d 2 [demo_candidate "A"; demo_candidate "B"] false Locale_En] in
  exists j, j ∈ (take_send_jobs chars d (from_secs 60) Locale_En c).2 /\ job_sink_id j = "mail".
Proof.
  intros d stored c.
  set (l := default (Lane_new 0) (lanes c !! "mail")).
  refine (proj2 (held_rooms_are_released chars 1000000000000 d c (demo_sink "a1") l Locale_En
                   _ _ _ _ _ _ _ _) (from_secs 60) _).
  - vm_compute. repeat constructor. apply not_elem_of_nil.
  - left.
  - vm_compute. reflexivity.
  - vm_compute. reflexivity.
  - vm_compute. reflexivity.
  - vm_compute. discriminate.
  - vm_compute. reflexivity.
  - exists "!B". split; [|right; left].
    vm_compute. reflexivity.
  - intros last Hlast. vm_compute in Hlast. injection Hlast as <-. vm_compute. discriminate.
Defined.

(** A rejection for another key, and any outcome once the credential was replaced. *)
Lemma late_outcome_settles_nothing_witness :
  let d := demo_settings "b2" in
  let c := demo_channel (take 1 demo_run) in
  let o := Outcome_Failed Failure_Rejected in
  record_outcome d 1 "mail" "other" o 1 c = c
  /\ record_outcome d 1 "mail" "koushi-notification/mail/n-1" o 1
       (record_credential (demo_sink "b2") true c) = record_credential (demo_sink "b2") true c.
Proof.
  intros d c o.
  destruct (late_outcome_settles_nothing d 1 (demo_sink "b2") "other" o 1 c) as [H1 H2].
  - vm_compute. discriminate.
  - intros l a Hl Ha. vm_compute in Hl. injection Hl as <-. vm_compute in Ha. injection Ha as <-.
    vm_compute. discriminate.
  - split; [exact H1|].
    apply (H2 {| binding := secret_binding (demo_sink "a1"); configured := true |} true).
    + vm_compute. reflexivity.
    + vm_compute. discriminate.
Defined.

(** replacing a credential makes the channel repeat an idempotency key for a different
    message.  The lane is dropped with the old credential and its successor counts windows
    from one again, so the first message under the new credential carries the key the old
    one already used, with another subject; and the late rejection of the old message then
    settles the new one. *)
Theorem replaced_credential_repeats_a_key :
  let '(c, jobs) := run (channel_step chars 1000000000000) (with_nonce "n") demo_run in
  let key := "koushi-notification/mail/n-1" in
  (idempotency_key ∘ job_intent <$> jobs) = [key; key]
  /\ (subject ∘ job_intent <$> jobs) = ["Direct message in A"; "Direct message in B"]
  /\ (exists l a, lanes c !! "mail" = Some l /\ inflight l = Some a)
  /\ (exists l, lanes (record_outcome (demo_settings "b2") 2 "mail" key
                         (Outcome_Failed Failure_Rejected) 2 c) !! "mail" = Some l
                /\ inflight l = None /\ retry l = None).
Proof. vm_compute. split_and!; try reflexivity; repeat eexists. Qed.
