(* ===== verification/ReceiptIndex.v ===== *)
(** The ordered index of read receipts of one event
    ([crates/koushi-core/src/timeline/receipt_index.rs]).

    The index keeps the readers of a message sorted by newest receipt, then user id, next
    to the receipts themselves, and updates both from the change set between two
    snapshots.  The epoch of a window is a mutex shared through weak pointers: the model
    keeps the epochs in a store and a handle is an address, so a handle taken before an
    update sees what the update writes.

    [ReadReceiptSnapshot] and the persistent vector's [binary_search] are third-party
    code; [ReceiptSnapshot] and [Context binary_search] state what is used of them. *)

From stdpp Require Import base list strings gmap sorting.
From Stdlib Require Import ZArith Lia.
From S2P Require Import Prelude Text.
Local Open Scope string_scope.
Local Open Scope list_scope.
Local Open Scope Z_scope.
Local Set Warnings "-clear-no-such-hyp".

(** * What the index relies on *)

(** A snapshot of the receipts of an event: a finite map that can be compared with an
    older one.  [changes_since after before] lists every user whose receipt differs, once,
    with the receipt in [after]. *)
Class ReceiptSnapshot (Snapshot Receipt : Type) := {
  snapshot_iter : Snapshot -> list (string * Receipt);
  snapshot_get : Snapshot -> string -> option Receipt;
  changes_since : Snapshot -> Snapshot -> list (string * option Receipt);
}.

Class ReceiptSnapshotLaws (Snapshot Receipt : Type) `{!ReceiptSnapshot Snapshot Receipt} : Prop := {
  iter_users_distinct s : NoDup (snapshot_iter s).*1;
  iter_get s u r : (u, r) ∈ snapshot_iter s <-> snapshot_get s u = Some r;
  changes_distinct after before : NoDup (changes_since after before).*1;
  changes_current after before u o :
    (u, o) ∈ changes_since after before -> o = snapshot_get after u;
  changes_complete after before u :
    u ∉ (changes_since after before).*1 -> snapshot_get after u = snapshot_get before u;
}.

(** [(Reverse<u64>, OwnedUserId)] in its derived order. *)
Definition ReaderKey : Type := Z * string.

Definition key_le (x y : ReaderKey) : bool :=
  (y.1 <? x.1) || ((x.1 =? y.1) && String.leb x.2 y.2).

Definition key_lt (x y : ReaderKey) : Prop := key_le x y = true /\ x ≠ y.

(** [binary_search] on a strictly sorted vector: the position of the key, or the position
    where inserting it keeps the order. *)
Definition binary_search_law (binary_search : list ReaderKey -> ReaderKey -> nat + nat) : Prop :=
  forall l k, StronglySorted key_lt l ->
    match binary_search l k with
    | inl i => l !! i = Some k
    | inr i => ~ (k ∈ l) /\ (i <= length l)%nat
               /\ Forall (fun x => key_lt x k) (take i l) /\ Forall (key_lt k) (drop i l)
    end.

(** * Epochs *)

Record ReceiptEpoch := { valid : bool; revision : option Z }.

(** The process-wide revision counter and the epochs behind the shared mutexes. *)
Record World := { next_receipt_revision : Z; epochs : list ReceiptEpoch }.

#[export] Instance World_updatable : Updatable World := fun w =>
  {| next_receipt_revision := next_receipt_revision w; epochs := epochs w |}.

Definition next_source_revision (counter : Z) : Z * option Z :=
  match u64_checked_add counter 1 with
  | Some next => (next, Some next)
  | None => (counter, None)
  end.

(** [Arc::new(Mutex::new(ReceiptEpoch::new()))]: a fresh address. *)
Definition ReceiptEpoch_new (w : World) : World * nat :=
  let '(counter, revision) := next_source_revision (next_receipt_revision w) in
  ({| next_receipt_revision := counter;
      epochs := epochs w ++ [{| valid := bool_decide (is_Some revision); revision := revision |}] |},
   length (epochs w)).

(** [lock().valid = false] *)
Definition invalidate (e : nat) (w : World) : World :=
  w <| epochs ::= alter (fun ep => {| valid := false; revision := revision ep |}) e |>.

Section index.
Context {Snapshot Receipt : Type} `{!ReceiptSnapshot Snapshot Receipt}.
(** The [ts] field of a receipt. *)
Context (ts : Receipt -> option Z).
Context (binary_search : list ReaderKey -> ReaderKey -> nat + nat).

Record ReceiptReaderIndex := {
  receipts : Snapshot; order : list ReaderKey; window_epoch : nat }.

Definition sort_timestamp (r : Receipt) : Z := match ts r with Some t => t | None => 0 end.

Definition reader_key (user : string) (r : Receipt) : ReaderKey := (sort_timestamp r, user).

Definition keys_of (s : Snapshot) : list ReaderKey :=
  (fun e => reader_key e.1 e.2) <$> snapshot_iter s.

Definition new (s : Snapshot) (w : World) : ReceiptReaderIndex * World :=
  let '(w, e) := ReceiptEpoch_new w in
  ({| receipts := s; order := sort_by key_le (keys_of s); window_epoch := e |}, w).

(** [vector.insert(i, k)] and [vector.remove(i)], for an index in range. *)
Definition vec_insert {A} (i : nat) (x : A) (l : list A) : list A := take i l ++ x :: drop i l.
Definition vec_remove {A} (i : nat) (l : list A) : list A := take i l ++ drop (S i) l.

(** The effect of one change on the order; [None] where the source panics. *)
Definition apply_change (before : Snapshot) (order : list ReaderKey)
    (change : string * option Receipt) : option (list ReaderKey) :=
  let '(user, replacement) := change in
  let previous := snapshot_get before user in
  if bool_decide (sort_timestamp <$> previous = sort_timestamp <$> replacement) then Some order
  else
    order ← match previous with
            | Some previous =>
                match binary_search order (reader_key user previous) with
                | inl position => Some (vec_remove position order)
                | inr _ => None
                end
            | None => Some order
            end;
    match replacement with
    | Some replacement =>
        match binary_search order (reader_key user replacement) with
        | inl _ => None
        | inr position => Some (vec_insert position (reader_key user replacement) order)
        end
    | None => Some order
    end.

Fixpoint apply_changes (before : Snapshot) (order : list ReaderKey)
    (changes : list (string * option Receipt)) : option (list ReaderKey) :=
  match changes with
  | [] => Some order
  | change :: changes => order ← apply_change before order change; apply_changes before order changes
  end.

Definition update (ix : ReceiptReaderIndex) (after : Snapshot) (w : World)
    : option (ReceiptReaderIndex * World) :=
  let changes := changes_since after (receipts ix) in
  let w := match changes with [] => w | _ => invalidate (window_epoch ix) w end in
  order ← apply_changes (receipts ix) (order ix) changes;
  let '(e, w) := match changes with
                 | [] => (window_epoch ix, w)
                 | _ => let '(w, e) := ReceiptEpoch_new w in (e, w)
                 end in
  Some ({| receipts := after; order := order; window_epoch := e |}, w).

Definition total (ix : ReceiptReaderIndex) (own_user : option string) : nat :=
  length (order ix)
  - Nat.b2n (is_some_and own_user (fun u => bool_decide (is_Some (snapshot_get (receipts ix) u)))).

(** The own user's position in the order, if they have a receipt; [None] outside is the
    panic of a receipt without a key. *)
Definition own_position (ix : ReceiptReaderIndex) (own_user : option string)
    : option (option nat) :=
  match own_user ≫= (fun u => (fun r => reader_key u r) <$> snapshot_get (receipts ix) u) with
  | None => Some None
  | Some k => match binary_search (order ix) k with inl i => Some (Some i) | inr _ => None end
  end.

(** [saturating_add] on [usize], whose range the indices never leave. *)
Definition window (ix : ReceiptReaderIndex) (start limit : nat) (own_user : option string)
    : option (list (string * Receipt)) :=
  own ← own_position ix own_user;
  let total := (length (order ix) - Nat.b2n (bool_decide (is_Some own)))%nat in
  let start := Nat.min start total in
  let end_ := Nat.min (start + limit) total in
  mapM (fun index =>
    let source_index :=
      (index + Nat.b2n (is_some_and own (fun own => (own <=? index)%nat)))%nat in
    k ← order ix !! source_index;
    r ← snapshot_get (receipts ix) k.2;
    Some (k.2, r)) (seq start (end_ - start)).

(** [Drop] *)
Definition drop_index (ix : ReceiptReaderIndex) (w : World) : World :=
  invalidate (window_epoch ix) w.
End index.
