(* ===== verification/ReceiptProps.v ===== *)
(** The receipt index equals the index built from scratch, its windows are slices of the
    readers, and its epochs are never valid again once replaced. *)

From stdpp Require Import base list strings gmap sorting.
From Stdlib Require Import ZArith Lia.
From S2P Require Import Prelude Text ReceiptIndex.
Local Open Scope string_scope.
Local Open Scope list_scope.
Local Open Scope Z_scope.
Local Set Warnings "-clear-no-such-hyp".

(** * The order of the keys *)

Lemma key_le_total x y : key_le x y = true \/ key_le y x = true.
Proof.
  unfold key_le. destruct (Z.lt_trichotomy x.1 y.1) as [H|[H|H]].
  - right. by rewrite (proj2 (Z.ltb_lt _ _) H).
  - rewrite H, Z.eqb_refl, Z.ltb_irrefl. cbn. apply string_leb_total.
  - left. by rewrite (proj2 (Z.ltb_lt _ _) H).
Qed.

Lemma key_le_spec x y :
  key_le x y = true <-> y.1 < x.1 \/ (x.1 = y.1 /\ String.leb x.2 y.2 = true).
Proof.
  unfold key_le. rewrite orb_true_iff, andb_true_iff, Z.ltb_lt, Z.eqb_eq. done.
Qed.

Lemma key_le_trans x y z : key_le x y = true -> key_le y z = true -> key_le x z = true.
Proof.
  rewrite !key_le_spec. intros [?|[? H1]] [?|[? H2]]; try (left; lia).
  right. split; [lia|]. by eapply string_leb_trans.
Qed.

Lemma key_le_antisym x y : key_le x y = true -> key_le y x = true -> x = y.
Proof.
  rewrite !key_le_spec. intros [?|[? H1]] [?|[? H2]]; try lia.
  destruct x, y; cbn in *. f_equal; [done|by apply String.leb_antisym].
Qed.

Lemma key_lt_trans x y z : key_lt x y -> key_lt y z -> key_lt x z.
Proof.
  intros [H1 Hne] [H2 _]. split; [by eapply key_le_trans|]. intros ->.
  by apply Hne, key_le_antisym.
Qed.

#[export] Instance key_lt_antisym : AntiSymm (=) key_lt.
Proof. intros x y [H1 _] [H2 _]. by apply key_le_antisym. Qed.

Lemma sorted_NoDup l : StronglySorted key_lt l -> NoDup l.
Proof.
  induction 1 as [|x l Hl IH Hx]; constructor; [|done]. intros Hin.
  rewrite Forall_forall in Hx. by destruct (Hx x Hin).
Qed.

Lemma sorted_unique l1 l2 :
  StronglySorted key_lt l1 -> StronglySorted key_lt l2 -> (forall x, x ∈ l1 <-> x ∈ l2) -> l1 = l2.
Proof.
  intros H1 H2 Hel. apply (StronglySorted_unique key_lt); [done|done|].
  apply NoDup_Permutation; [by apply sorted_NoDup..|done].
Qed.

Lemma le_sorted_strict l :
  StronglySorted (fun a b => key_le a b = true) l -> NoDup l -> StronglySorted key_lt l.
Proof.
  induction 1 as [|x l Hl IH Hx]; intros Hnd; [constructor|].
  apply NoDup_cons in Hnd as [Hn Hnd]. constructor; [auto|].
  rewrite Forall_forall in Hx |- *. intros y Hy. split; [by apply Hx|]. intros ->. done.
Qed.

Lemma vec_remove_spec l i k :
  StronglySorted key_lt l -> l !! i = Some k ->
  StronglySorted key_lt (vec_remove i l) /\ (forall x, x ∈ vec_remove i l <-> x ∈ l /\ x ≠ k).
Proof.
  intros Hl Hi. unfold vec_remove. pose proof (sorted_NoDup l Hl) as Hnd.
  rewrite <-(take_drop_middle l i k Hi) in Hl, Hnd.
  assert (Hel : forall x, x ∈ l <-> x ∈ take i l \/ x = k \/ x ∈ drop (S i) l).
  { intros x. rewrite <-(take_drop_middle l i k Hi) at 1. rewrite elem_of_app, elem_of_cons. done. }
  apply NoDup_app in Hnd as (_ & Hd & Hnd). apply NoDup_cons in Hnd as [Hk _]. split.
  - apply StronglySorted_app_2.
    + intros x y Hx Hy. eapply StronglySorted_app_1_elem_of; [exact Hl|done|by right].
    + by eapply StronglySorted_app_1_l.
    + apply StronglySorted_app_1_r in Hl. by apply StronglySorted_inv in Hl as [? _].
  - intros x. rewrite elem_of_app, Hel. split.
    + intros [Hx|Hx]; (split; [tauto|]); intros ->; [|done].
      apply (Hd k); [done|by left].
    + tauto.
Qed.

Lemma vec_insert_spec l i k :
  StronglySorted key_lt l ->
  Forall (fun x => key_lt x k) (take i l) -> Forall (key_lt k) (drop i l) ->
  StronglySorted key_lt (vec_insert i k l) /\ (forall x, x ∈ vec_insert i k l <-> x ∈ l \/ x = k).
Proof.
  intros Hl Hb Ha. unfold vec_insert.
  assert (Hel : forall x, x ∈ l <-> x ∈ take i l \/ x ∈ drop i l).
  { intros x. rewrite <-(take_drop i l) at 1. by rewrite elem_of_app. }
  rewrite <-(take_drop i l) in Hl. rewrite Forall_forall in Ha, Hb. split.
  - apply StronglySorted_app_2.
    + intros x y Hx [->|Hy]%elem_of_cons; [by apply Hb|].
      eapply StronglySorted_app_1_elem_of; [exact Hl|done|done].
    + by eapply StronglySorted_app_1_l.
    + constructor; [by eapply StronglySorted_app_1_r|]. apply Forall_forall. auto.
  - intros x. rewrite elem_of_app, elem_of_cons, Hel. tauto.
Qed.

Section props.
Context {Snapshot Receipt : Type} `{!ReceiptSnapshot Snapshot Receipt}
  `{!ReceiptSnapshotLaws Snapshot Receipt}.
Context (ts : Receipt -> option Z).
Context (binary_search : list ReaderKey -> ReaderKey -> nat + nat)
  (Hsearch : binary_search_law binary_search).

(** * The order indexes the receipts *)

Definition index_of (g : string -> option Receipt) (order : list ReaderKey) : Prop :=
  StronglySorted key_lt order
  /\ forall t u, (t, u) ∈ order <-> exists r, g u = Some r /\ sort_timestamp ts r = t.

Definition index_wf (ix : ReceiptReaderIndex) : Prop :=
  index_of (snapshot_get (receipts ix)) (order ix).

Lemma index_of_ext g g' order :
  (forall u, g u = g' u) -> index_of g order -> index_of g' order.
Proof. intros Hg [H1 H2]. split; [done|]. intros t u. rewrite H2. by rewrite Hg. Qed.

Lemma keys_of_index s : index_of (snapshot_get s) (sort_by key_le (keys_of ts s)).
Proof.
  assert (Hel : forall t u, (t, u) ∈ keys_of ts s <->
    exists r, snapshot_get s u = Some r /\ sort_timestamp ts r = t).
  { intros t u. unfold keys_of. rewrite list_elem_of_fmap. split.
    - intros ([u' r] & [= -> ->] & Hr). exists r. split; [|done]. by apply iter_get.
    - intros (r & Hr & <-). exists (u, r). split; [done|]. by apply iter_get. }
  split.
  - apply le_sorted_strict.
    + apply sort_by_sorted; [apply key_le_total|apply key_le_trans].
    + rewrite sort_by_Permutation. unfold keys_of.
      assert (H : NoDup (snd <$> ((fun e => reader_key ts e.1 e.2) <$> snapshot_iter s))).
      { rewrite <-list_fmap_compose. exact (iter_users_distinct s). }
      by apply NoDup_fmap_1 in H.
  - intros t u. by rewrite elem_of_sort_by.
Qed.

Definition set_user (g : string -> option Receipt) (u : string) (o : option Receipt)
    : string -> option Receipt := fun v => if decide (v = u) then o else g v.

Lemma found_position order k :
  StronglySorted key_lt order -> k ∈ order ->
  exists i, binary_search order k = inl i /\ order !! i = Some k.
Proof.
  intros Hs Hk. pose proof (Hsearch order k Hs) as H.
  destruct (binary_search order k) as [i|i]; [by exists i|]. by destruct H.
Qed.

Lemma missing_position order k :
  StronglySorted key_lt order -> k ∉ order ->
  exists i, binary_search order k = inr i
    /\ Forall (fun x => key_lt x k) (take i order) /\ Forall (key_lt k) (drop i order).
Proof.
  intros Hs Hk. pose proof (Hsearch order k Hs) as H.
  destruct (binary_search order k) as [i|i]; [by apply list_elem_of_lookup_2 in H|].
  exists i. tauto.
Qed.

(** One change never panics and keeps the order the index of the changed receipts. *)
Lemma apply_change_index before g order user o :
  index_of g order -> g user = snapshot_get before user ->
  exists order', apply_change ts binary_search before order (user, o) = Some order'
    /\ index_of (set_user g user o) order'.
Proof.
  intros [Hs Hel] Hg. unfold apply_change. rewrite <-Hg.
  case_bool_decide as Ets.
  { exists order. split; [done|]. split; [done|]. intros t u. rewrite Hel. unfold set_user.
    case_decide as Eu; [subst u|done].
    destruct (g user) as [p|], o as [r|]; cbn in Ets; simplify_eq; [|done].
    split; intros (x & [= <-] & <-); eauto. }
  assert (Hremoved : exists order1,
    (match g user with
     | Some previous =>
         match binary_search order (reader_key ts user previous) with
         | inl position => Some (vec_remove position order)
         | inr _ => None
         end
     | None => Some order
     end) = Some order1 /\ index_of (set_user g user None) order1).
  { destruct (g user) as [p|] eqn:Ep.
    - destruct (found_position order (reader_key ts user p) Hs) as (i & -> & Hi).
      { apply Hel. eauto. }
      eexists. split; [done|].
      destruct (vec_remove_spec order i _ Hs Hi) as [H1 H2]. split; [done|].
      intros t u. rewrite H2, Hel. unfold set_user, reader_key.
      case_decide as Eu; [subst u|]; split.
      + intros [(r & Hr & <-) Hne]. rewrite Ep in Hr. by simplify_eq.
      + by intros (r & ? & _).
      + by intros [? _].
      + intros H. split; [done|]. intros [= -> ->]. done.
    - exists order. split; [done|]. split; [done|]. intros t u. rewrite Hel. unfold set_user.
      case_decide as Eu; [subst u; rewrite Ep|]; done. }
  destruct Hremoved as (order1 & -> & Hs1 & Hel1). cbn.
  destruct o as [r|]; [|by exists order1; split].
  destruct (missing_position order1 (reader_key ts user r) Hs1) as (i & -> & Hb & Ha).
  { intros (x & Hx & _)%Hel1. unfold set_user in Hx. by rewrite decide_True in Hx. }
  eexists. split; [done|].
  destruct (vec_insert_spec order1 i (reader_key ts user r) Hs1 Hb Ha) as [H1 H2]. split; [done|].
  intros t u. rewrite H2, Hel1. unfold set_user, reader_key. case_decide as Eu; [subst u|]; split.
  - intros [(x & ? & _)|[= ->]]; [done|]. eauto.
  - intros (x & [= <-] & <-). by right.
  - intros [H|[= ? ->]]; [done|done].
  - by left.
Qed.

Lemma apply_changes_index before changes g order :
  index_of g order -> NoDup changes.*1 ->
  (forall u, u ∈ changes.*1 -> g u = snapshot_get before u) ->
  exists order', apply_changes ts binary_search before order changes = Some order'
    /\ index_of (foldl (fun g c => set_user g c.1 c.2) g changes) order'.
Proof.
  revert g order; induction changes as [|[u o] changes IH]; intros g order Hix Hnd Hg.
  { by exists order. }
  rewrite fmap_cons in Hnd. apply NoDup_cons in Hnd as [Hu Hnd]. cbn [apply_changes foldl fst snd].
  destruct (apply_change_index before g order u o Hix) as (order1 & -> & Hix1).
  { apply Hg. rewrite fmap_cons. left. }
  cbn. apply IH; [done|done|]. intros v Hv. unfold set_user. rewrite decide_False.
  - apply Hg. rewrite fmap_cons. by right.
  - intros ->. done.
Qed.

Lemma set_users_final after g (changes : list (string * option Receipt)) u :
  (forall v o, (v, o) ∈ changes -> o = snapshot_get after v) ->
  foldl (fun g c => set_user g c.1 c.2) g changes u
  = if decide (u ∈ changes.*1) then snapshot_get after u else g u.
Proof.
  revert g; induction changes as [|[v o] changes IH]; intros g Hc; cbn [foldl fst snd].
  { rewrite decide_False; [done|]. apply not_elem_of_nil. }
  rewrite IH by (intros; apply Hc; by right). rewrite fmap_cons.
  destruct (decide (u ∈ changes.*1)) as [Hu|Hu].
  - by rewrite decide_True by (by right).
  - unfold set_user. cbn. destruct (decide (u = v)) as [->|Hne].
    + rewrite decide_True by left. apply Hc. left.
    + rewrite decide_False; [done|]. by intros [?|?]%elem_of_cons.
Qed.

(** updating the index is building it again.  From any index whose order matches its
    receipts - every index that [new] or [update] made - the incremental update never
    panics, whatever the new snapshot is, and leaves the order that [new] would compute
    from the new snapshot. *)
Theorem update_is_rebuild ix after w :
  index_wf ix ->
  exists ix' w', update ts binary_search ix after w = Some (ix', w')
    /\ receipts ix' = after /\ order ix' = order (new ts after w).1 /\ index_wf ix'.
Proof.
  intros Hix. unfold update.
  destruct (apply_changes_index (receipts ix) (changes_since after (receipts ix))
              (snapshot_get (receipts ix)) (order ix)) as (order' & -> & Hord);
    [done|apply changes_distinct|done|].
  assert (Hfin : index_of (snapshot_get after) order').
  { eapply index_of_ext; [|exact Hord]. intros u. cbn.
    rewrite (set_users_final after) by apply changes_current.
    case_decide as Hu; [done|]. symmetry. by apply changes_complete. }
  assert (Heq : order' = order (new ts after w).1).
  { unfold new. destruct (ReceiptEpoch_new w). cbn.
    apply sorted_unique; [apply Hfin|apply keys_of_index|]. intros [t u].
    rewrite (proj2 Hfin), (proj2 (keys_of_index after)). done. }
  cbn. destruct (changes_since after (receipts ix)) as [|c cs].
  - eexists _, _. split; [done|]. by split_and!.
  - destruct (ReceiptEpoch_new (invalidate (window_epoch ix) w)) as [w' e].
    eexists _, _. split; [done|]. by split_and!.
Qed.

Lemma new_wf s w : index_wf (new ts s w).1.
Proof. unfold new. destruct (ReceiptEpoch_new w). apply keys_of_index. Qed.

(** * Windows *)

(** The readers a window may show, newest first. *)
Definition readers (ix : ReceiptReaderIndex) (own_user : option string)
    : list (string * Receipt) :=
  omap (fun k => (fun r => (k.2, r)) <$> snapshot_get (receipts ix) k.2)
    (filter (fun k => Some k.2 ≠ own_user) (order ix)).

Lemma mapM_seq_slice {A B} (f : nat -> option A) (g : A -> option B) (l : list A) start n :
  (start + n <= length l)%nat ->
  (forall i, (start <= i < start + n)%nat -> f i = l !! i) ->
  mapM (fun i => x ← f i; g x) (seq start n) = mapM g (take n (drop start l)).
Proof.
  revert start; induction n as [|n IH]; intros start Hlen Hf; [done|].
  destruct (lookup_lt_is_Some_2 l start) as [x Hx]; [lia|].
  rewrite (drop_S l x start Hx). cbn [seq take mapM].
  rewrite (Hf start) by lia. rewrite Hx. cbn.
  rewrite (IH (S start)) by (lia || intros; apply Hf; lia). done.
Qed.

Lemma mapM_omap {A B} (g : A -> option B) l : Forall (fun x => is_Some (g x)) l -> mapM g l = Some (omap g l).
Proof.
  induction 1 as [|x l [y Hy] Hl IH]; [done|]. cbn [mapM]. rewrite Hy. cbn. rewrite IH. cbn. by rewrite Hy.
Qed.

Lemma omap_slice {A B} (g : A -> option B) (l : list A) start n :
  Forall (fun x => is_Some (g x)) l ->
  omap g (take n (drop start l)) = take n (drop start (omap g l)).
Proof.
  intros Hl. revert start n; induction Hl as [|x l [y Hy] Hl IH]; intros start n.
  { change (omap g []) with (@nil B). by rewrite !drop_nil, !take_nil. }
  cbn [omap list_omap]. rewrite Hy. destruct start as [|start]; cbn [drop]; [|apply IH].
  destruct n as [|n]; [done|]. cbn [take omap list_omap]. rewrite Hy. f_equal. apply (IH 0%nat).
Qed.

Lemma own_position_spec ix own_user :
  index_wf ix ->
  exists own, own_position ts binary_search ix own_user = Some own
    /\ bool_decide (is_Some own)
       = is_some_and own_user (fun u => bool_decide (is_Some (snapshot_get (receipts ix) u)))
    /\ match own with
       | None => filter (fun k => Some k.2 ≠ own_user) (order ix) = order ix
       | Some i => exists k, order ix !! i = Some k
           /\ filter (fun k => Some k.2 ≠ own_user) (order ix) = take i (order ix) ++ drop (S i) (order ix)
       end.
Proof.
  intros [Hs Hel]. unfold own_position.
  assert (Hall : forall l : list ReaderKey, (forall k, k ∈ l -> Some k.2 ≠ own_user) ->
            filter (fun k => Some k.2 ≠ own_user) l = l).
  { induction l as [|x l IH]; intros Hl; [done|]. rewrite filter_cons_True by (apply Hl; left).
    f_equal. apply IH. intros k Hk. apply Hl. by right. }
  destruct own_user as [u|]; cbn [mbind option_bind]; [|exists None; split_and!; try done; by apply Hall].
  destruct (snapshot_get (receipts ix) u) as [r|] eqn:Er; cbn.
  2: { exists None. rewrite Er. split_and!; [done|done|]. apply Hall. intros [t v] Hk [= ->].
       apply Hel in Hk as (x & Hx & _). congruence. }
  destruct (found_position (order ix) (reader_key ts u r) Hs) as (i & -> & Hi).
  { apply Hel. eauto. }
  exists (Some i). rewrite Er. split_and!; [done|by rewrite !bool_decide_eq_true_2|].
  exists (reader_key ts u r). split; [done|].
  assert (Hother : forall j k, order ix !! j = Some k -> j ≠ i -> Some k.2 ≠ Some u).
  { intros j [t v] Hj Hne [= ->]. apply Hne.
    assert (Hk : (t, u) ∈ order ix) by by eapply list_elem_of_lookup_2.
    apply Hel in Hk as (x & Hx & <-). rewrite Er in Hx. injection Hx as <-.
    eapply NoDup_lookup; [by apply sorted_NoDup|exact Hj|exact Hi]. }
  rewrite <-(take_drop_middle (order ix) i _ Hi) at 1.
  rewrite filter_app, filter_cons_False by (cbn; tauto).
  f_equal.
  - apply Hall. intros k Hk. apply list_elem_of_lookup_1 in Hk as [j Hj].
    apply lookup_take_Some in Hj as [Hj Hlt]. apply (Hother j k); [done|lia].
  - apply Hall. intros k Hk. apply list_elem_of_lookup_1 in Hk as [j Hj].
    rewrite lookup_drop in Hj. apply (Hother (S i + j)%nat k); [done|lia].
Qed.

(** a window is a slice of the readers.  For every index that matches its receipts,
    every start, limit and own user, a window never panics and shows the readers from
    [start] on, at most [limit] of them, newest first and each with their own receipt,
    with the own user left out; and [total] is the number of readers there are. *)
Theorem window_is_a_slice ix start limit own_user :
  index_wf ix ->
  window ts binary_search ix start limit own_user
    = Some (take limit (drop start (readers ix own_user)))
  /\ total ix own_user = length (readers ix own_user).
Proof.
  intros Hix. destruct (own_position_spec ix own_user Hix) as (own & Hown & Hb & Hfil).
  unfold window, total, readers. rewrite Hown, <-Hb. cbn [mbind option_bind].
  set (visible := filter (fun k => Some k.2 ≠ own_user) (order ix)) in *.
  set (g := fun k : ReaderKey => (fun r => (k.2, r)) <$> snapshot_get (receipts ix) k.2).
  assert (Hg : Forall (fun k => is_Some (g k)) visible).
  { apply Forall_forall. intros [t u] [_ Hk]%list_elem_of_filter.
    apply (proj2 Hix) in Hk as (r & Hr & _). unfold g; cbn. rewrite Hr. by eexists. }
  assert (Hlen : (length (order ix) - Nat.b2n (bool_decide (is_Some own)))%nat = length visible).
  { destruct own as [i|]; cbn.
    - destruct Hfil as (k & Hk & ->). apply lookup_lt_Some in Hk.
      rewrite length_app, length_take, length_drop. lia.
    - rewrite Hfil. lia. }
  assert (Homap : length (omap g visible) = length visible).
  { clear -Hg. induction Hg as [|x l [y Hy] Hl IH]; [done|]. cbn. rewrite Hy. cbn. by f_equal. }
  rewrite Hlen. split; [|exact (eq_sym Homap)].
  set (s := Nat.min start (length visible)). set (e := Nat.min (s + limit) (length visible)).
  transitivity (mapM g (take (e - s) (drop s visible))).
  - etrans; [|apply (mapM_seq_slice (fun index => order ix !! (index
      + Nat.b2n (is_some_and own (fun own => (own <=? index)%nat)))%nat) g visible s (e - s)); [lia|]].
    + apply mapM_ext. intros index. destruct (order ix !! _) as [k|]; [|done]. cbn. unfold g.
      by destruct (snapshot_get (receipts ix) k.2).
    + intros i Hi. destruct own as [o|]; cbn [is_some_and].
      * destruct Hfil as (k & Hk & ->). apply lookup_lt_Some in Hk.
        destruct (Nat.leb_spec o i) as [Hle|Hlt]; cbn.
        { rewrite lookup_app_r by (rewrite length_take; lia).
          rewrite lookup_drop, length_take. f_equal. lia. }
        rewrite lookup_app_l by (rewrite length_take; lia).
        rewrite lookup_take_lt by lia. f_equal. lia.
      * rewrite Hfil. f_equal. cbn. lia.
  - rewrite mapM_omap.
    + rewrite omap_slice by done. f_equal.
      subst s e. rewrite <-Homap.
      match goal with |- ?l = take limit (drop start _) =>
        change (l = take limit (drop start (omap g visible))) end.
      generalize (omap g visible). clear. intros rs.
      destruct (Nat.le_gt_cases start (length rs)) as [Hle|Hgt].
      * rewrite (Nat.min_l start) by done.
        destruct (Nat.le_gt_cases (start + limit) (length rs)) as [Hl|Hl].
        { rewrite (Nat.min_l (start + limit)) by done.
          by replace (start + limit - start)%nat with limit by lia. }
        rewrite !take_ge; [done|rewrite length_drop; lia|rewrite length_drop; lia].
      * rewrite (Nat.min_r start) by lia. rewrite !drop_ge by lia. by rewrite !take_nil.
    + apply Forall_take, Forall_drop, Hg.
Qed.

(** * Epochs *)

(** a window resolved against an epoch is never mistaken for a current one.  When the
    new snapshot differs, an update marks the epoch the windows hold invalid and gives the
    index a new epoch whose revision is the next of the process-wide counter - or, when
    the counter is exhausted, an epoch without a revision that is not valid either - and
    touches no other epoch; when nothing changed, the epochs are left alone. *)
Theorem update_retires_windows ix after w ix' w' :
  (window_epoch ix < length (epochs w))%nat -> 0 <= next_receipt_revision w ->
  update ts binary_search ix after w = Some (ix', w') ->
  (changes_since after (receipts ix) = [] -> window_epoch ix' = window_epoch ix /\ w' = w)
  /\ ((exists u, snapshot_get after u ≠ snapshot_get (receipts ix) u) ->
      valid <$> epochs w' !! window_epoch ix = Some false
      /\ window_epoch ix' = length (epochs w)
      /\ epochs w' !! window_epoch ix'
         = Some (if decide (next_receipt_revision w < U64_MAX)
                 then {| valid := true; revision := Some (next_receipt_revision w + 1) |}
                 else {| valid := false; revision := None |})
      /\ (forall e, (e < length (epochs w))%nat -> e ≠ window_epoch ix ->
            epochs w' !! e = epochs w !! e)).
Proof.
  intros He Hc Hup. unfold update in Hup.
  apply bind_Some in Hup as (order' & _ & Hup).
  destruct (changes_since after (receipts ix)) as [|c cs] eqn:Ech.
  { injection Hup as <- <-. split; [done|]. intros [u Hu]. exfalso. apply Hu, changes_complete.
    rewrite Ech. apply not_elem_of_nil. }
  split; [done|]. intros _. revert Hup.
  unfold ReceiptEpoch_new, next_source_revision, u64_checked_add, invalidate. cbn.
  rewrite length_alter.
  destruct (lookup_lt_is_Some_2 _ _ He) as [ep Hep].
  assert (Hold : forall e x, (e < length (epochs w))%nat ->
    (alter (fun ep => {| valid := false; revision := revision ep |}) (window_epoch ix) (epochs w)
       ++ [x]) !! e
    = alter (fun ep => {| valid := false; revision := revision ep |}) (window_epoch ix) (epochs w) !! e).
  { intros e x Hlt. apply lookup_app_l. by rewrite length_alter. }
  assert (Hnew : forall x,
    (alter (fun ep => {| valid := false; revision := revision ep |}) (window_epoch ix) (epochs w)
       ++ [x]) !! length (epochs w) = Some x).
  { intros x. rewrite lookup_app_r; rewrite length_alter; [|done]. by rewrite Nat.sub_diag. }
  case_decide as E1; cbn; intros [= <- <-]; cbn; rewrite Hnew, Hold by done;
    rewrite list_lookup_alter_eq, Hep; (split_and!; [done|done| |]).
  - by rewrite decide_True by lia.
  - intros e Hlt Hne. rewrite Hold by done. by rewrite list_lookup_alter_ne.
  - by rewrite decide_False by lia.
  - intros e Hlt Hne. rewrite Hold by done. by rewrite list_lookup_alter_ne.
Qed.
End props.

(** * A concrete snapshot and search, for the witnesses *)

#[export] Instance gmap_snapshot : ReceiptSnapshot (gmap string (option Z)) (option Z) := {
  snapshot_iter := map_to_list;
  snapshot_get s u := s !! u;
  changes_since after before :=
    (fun u => (u, after !! u)) <$>
      filter (fun u => after !! u ≠ before !! u) (elements (dom after ∪ dom before));
}.

#[export] Instance gmap_snapshot_laws : ReceiptSnapshotLaws (gmap string (option Z)) (option Z).
Proof.
  split; cbn.
  - intros s. apply NoDup_fst_map_to_list.
  - intros s u r. apply elem_of_map_to_list.
  - intros after before. rewrite <-list_fmap_compose.
    replace (fst ∘ (fun u : string => (u, after !! u))) with (@id string) by done.
    rewrite list_fmap_id. apply NoDup_filter, NoDup_elements.
  - intros after before u o (v & [= -> ->] & _)%list_elem_of_fmap. done.
  - intros after before u Hu. destruct (decide (after !! u = before !! u)) as [|Hne]; [done|].
    exfalso. apply Hu. rewrite <-list_fmap_compose. apply list_elem_of_fmap. exists u. split; [done|].
    apply list_elem_of_filter. split; [done|]. apply elem_of_elements.
    rewrite elem_of_union, !elem_of_dom. destruct (after !! u), (before !! u); naive_solver.
Qed.

Fixpoint linear_search (l : list ReaderKey) (k : ReaderKey) : nat + nat :=
  match l with
  | [] => inr 0%nat
  | x :: l =>
      if bool_decide (x = k) then inl 0%nat
      else if key_le x k then match linear_search l k with inl i => inl (S i) | inr i => inr (S i) end
      else inr 0%nat
  end.

Lemma linear_search_law : binary_search_law linear_search.
Proof.
  intros l k. induction 1 as [|x l Hl IH Hx]; cbn.
  { split_and!; [apply not_elem_of_nil|lia|constructor|constructor]. }
  case_bool_decide as E; [by subst|]. destruct (key_le x k) eqn:Ele.
  - destruct (linear_search l k) as [i|i]; [done|]. destruct IH as (H1 & H2 & H3 & H4).
    split_and!; [by intros [?|?]%elem_of_cons|cbn; lia|constructor; [by split|done]|done].
  - assert (Hkx : key_lt k x).
    { split; [|done]. destruct (key_le_total k x); congruence. }
    cbn. split_and!; [|lia|constructor|].
    + intros [->|Hk]%elem_of_cons; [done|]. rewrite Forall_forall in Hx.
      destruct (Hx k Hk). congruence.
    + constructor; [done|]. eapply Forall_impl; [exact Hx|]. intros y Hy. by eapply key_lt_trans.
Qed.

Definition demo_world : World := {| next_receipt_revision := 0; epochs := [] |}.
Definition demo_before : gmap string (option Z) := {["@a" := Some 5]} ∪ {["@b" := Some 9]}.
Definition demo_after : gmap string (option Z) := {["@b" := Some 4]} ∪ {["@c" := None]}.
Definition demo_index : @ReceiptReaderIndex (gmap string (option Z)) * World :=
  new (fun r => r) demo_before demo_world.

Lemma update_is_rebuild_witness :
  order demo_index.1 = [(9, "@b"); (5, "@a")]
  /\ exists ix' w', update (fun r => r) linear_search demo_index.1 demo_after demo_index.2 = Some (ix', w')
       /\ order ix' = [(4, "@b"); (0, "@c")].
Proof.
  split; [vm_compute; reflexivity|].
  destruct (update_is_rebuild (fun r => r) linear_search linear_search_law demo_index.1 demo_after
              demo_index.2 (new_wf (fun r => r) demo_before demo_world)) as (ix' & w' & H1 & _ & H2 & _).
  exists ix', w'. split; [exact H1|]. rewrite H2. vm_compute. reflexivity.
Defined.

Lemma window_is_a_slice_witness :
  window (fun r => r) linear_search demo_index.1 0 10 (Some "@b") = Some [("@a", Some 5)]
  /\ total demo_index.1 (Some "@b") = 1%nat.
Proof.
  destruct (window_is_a_slice (fun r => r) linear_search linear_search_law demo_index.1 0 10 (Some "@b")
              (new_wf (fun r => r) demo_before demo_world)) as [H1 H2].
  split; [rewrite H1|rewrite H2]; vm_compute; reflexivity.
Defined.

Lemma update_retires_windows_witness :
  exists ix' w', update (fun r => r) linear_search demo_index.1 demo_after demo_index.2 = Some (ix', w')
    /\ valid <$> epochs w' !! window_epoch demo_index.1 = Some false.
Proof.
  set (out := update (fun r => r) linear_search demo_index.1 demo_after demo_index.2).
  destruct out as [[ix' w']|] eqn:E; [|vm_compute in E; discriminate E].
  exists ix', w'. split; [reflexivity|].
  apply (update_retires_windows (fun r => r) linear_search demo_index.1 demo_after demo_index.2 ix' w').
  - vm_compute. lia.
  - vm_compute. discriminate.
  - exact E.
  - exists "@c". vm_compute. discriminate.
Defined.
