(* ===== verification/Markdown.v ===== *)
(** Composer shortcuts ([crates/koushi-state/src/composer_shortcuts.rs]): the key
    resolver, slash commands, and the Markdown subset a message body is rendered with.

    A [&str] is the list of its characters here (see [chars]); byte offsets of the scanner
    become the characters before and after the offset.  A function that pushes to an output
    [String] is modelled by the text it pushes.  The scanner loops carry fuel and give
    [None] when it runs out or when the code would panic: an index or a slice of the lines
    out of range, a line number that underflows, a failed [expect]; MarkdownProps.v proves
    that neither happens.  A text slice is one side of the split its search returns, so its
    range is not a separate question here.

    [char::is_alphanumeric] depends on the Unicode tables and is a parameter. *)

From stdpp Require Import base list strings gmap.
From Stdlib Require Import ZArith Lia Ascii.
From S2P Require Import Prelude Text.
Local Open Scope string_scope.
Local Open Scope list_scope.
Local Set Warnings "-clear-no-such-hyp".

(** * Key events *)

Inductive ComposerSendShortcut := Shortcut_Enter | Shortcut_ModEnter.
Inductive ComposerSurface := Surface_Main | Surface_Thread | Surface_Edit.
Inductive ComposerKey := Key_Enter | Key_Escape | Key_Other.
Record ComposerKeyModifiers := { ctrl : bool; meta : bool; shift : bool; alt : bool }.
Record ComposerKeyEvent := {
  key : ComposerKey; modifiers : ComposerKeyModifiers; is_composing : bool;
  selection : option (nat * nat) }.
Record ComposerResolverContext := {
  surface : ComposerSurface; send_shortcut : ComposerSendShortcut;
  autocomplete_open : bool; send_enabled : bool }.
Inductive ComposerResolvedAction :=
  | Action_Send | Action_InsertNewline | Action_AcceptAutocomplete | Action_CloseAutocomplete
  | Action_Cancel | Action_CommitImeCandidate | Action_Noop.

Definition resolve_enter_key (modifiers : ComposerKeyModifiers)
    (context : ComposerResolverContext) : ComposerResolvedAction :=
  if shift modifiers || alt modifiers then Action_InsertNewline
  else if autocomplete_open context then Action_AcceptAutocomplete
  else
    let wants_send :=
      match send_shortcut context with
      | Shortcut_Enter => true
      | Shortcut_ModEnter => ctrl modifiers || meta modifiers
      end in
    if wants_send then if send_enabled context then Action_Send else Action_Noop
    else Action_InsertNewline.

Definition resolve_composer_key_action (event : ComposerKeyEvent)
    (context : ComposerResolverContext) : ComposerResolvedAction :=
  if is_composing event then Action_CommitImeCandidate
  else
    match key event with
    | Key_Escape =>
        if autocomplete_open context then Action_CloseAutocomplete else Action_Cancel
    | Key_Other => Action_Noop
    | Key_Enter => resolve_enter_key (modifiers event) context
    end.

(** * Mentions *)

Inductive MentionTarget :=
  | Mention_User (user_id display_label : string)
  | Mention_Room (room_id display_label : string)
  | Mention_RoomMention (display_label : string).
Record MentionIntent := { targets : list MentionTarget }.

#[export] Instance MentionTarget_eq : EqDecision MentionTarget.
Proof. solve_decision. Defined.

Definition user_ids (m : MentionIntent) : list string :=
  omap (fun t => match t with Mention_User u _ => Some u | _ => None end) (targets m).
Definition room_ids (m : MentionIntent) : list string :=
  omap (fun t => match t with Mention_Room r _ => Some r | _ => None end) (targets m).
Definition mentions_room (m : MentionIntent) : bool :=
  existsb (fun t => match t with Mention_RoomMention _ => true | _ => false end) (targets m).

(** * Slices of text *)

(** [l.strip_prefix(p)] *)
Fixpoint strip_chars (p l : list string) : option (list string) :=
  match p, l with
  | [], _ => Some l
  | c :: p, d :: l => if String.eqb c d then strip_chars p l else None
  | _ :: _, [] => None
  end.

(** [l.find(p)], as the slices before and after the first occurrence. *)
Fixpoint split_find (p l : list string) : option (list string * list string) :=
  match strip_chars p l with
  | Some after => Some ([], after)
  | None =>
      match l with
      | [] => None
      | c :: l => (fun '(a, b) => (c :: a, b)) <$> split_find p l
      end
  end.

(** [s.trim().is_empty()] *)
Definition blank (l : list string) : bool := forallb is_whitespace l.

Definition starts_with (s p : string) : bool := bool_decide (is_Some (strip_prefix p s)).

Definition quote : string := String (ascii_of_nat 34) "".
Definition backslash : string := String (ascii_of_nat 92) "".
Definition apostrophe : string := String (ascii_of_nat 39) "".

(** * Slash commands *)

Inductive SlashCommandIntent :=
  | Slash_Join (room_alias : string)
  | Slash_Invite (user_id : string)
  | Slash_Me (body : string)
  | Slash_PlainText (body : string)
  | Slash_Unsupported (command argument : string).

(** [s.splitn(2, char::is_whitespace)] *)
Fixpoint split_whitespace_once (l : list string) : list string * option (list string) :=
  match l with
  | [] => ([], None)
  | c :: l =>
      if is_whitespace c then ([], Some l)
      else let '(a, b) := split_whitespace_once l in (c :: a, b)
  end.

Definition parse_slash_command (body : string) : SlashCommandIntent :=
  match strip_chars ["/"] (chars body) with
  | None => Slash_PlainText body
  | Some command_body =>
      match strip_chars ["/"; "/"] (chars body) with
      | Some escaped => Slash_PlainText ("/" +:+ concat_str escaped)
      | None =>
          let '(first, second) := split_whitespace_once command_body in
          let command := to_ascii_lowercase (concat_str first) in
          let argument := trim (concat_str (default [] second)) in
          if String.eqb command "join" then Slash_Join argument
          else if String.eqb command "invite" then Slash_Invite argument
          else if String.eqb command "me" then Slash_Me argument
          else Slash_PlainText body
      end
  end.

(** * Escaping *)

Definition push_escaped_html_char (ch : string) : string :=
  if String.eqb ch "&" then "&amp;"
  else if String.eqb ch "<" then "&lt;"
  else if String.eqb ch ">" then "&gt;"
  else if String.eqb ch quote then "&quot;"
  else if String.eqb ch apostrophe then "&#39;"
  else ch.

Definition push_escaped_html (value : list string) : string :=
  concat_str (push_escaped_html_char <$> value).

Definition push_math_html (tag : string) (latex : list string) : string :=
  "<" +:+ tag +:+ " data-mx-maths=" +:+ quote +:+ push_escaped_html latex +:+ quote +:+ ">"
  +:+ push_escaped_html latex +:+ "</" +:+ tag +:+ ">".

(** * Inline markup *)

Record ComposerFormattingOptions := { math_mode : bool }.
Definition ComposerFormattingOptions_default : ComposerFormattingOptions := {| math_mode := true |}.

(** The slices before and after the terminating backslash sequence. *)
Fixpoint find_latex_close (closing : string) (value : list string) :
    option (list string * list string) :=
  match value with
  | [] => None
  | ch :: value =>
      if negb (String.eqb ch backslash) then
        (fun '(a, b) => (ch :: a, b)) <$> find_latex_close closing value
      else
        match value with
        | [] => None
        | next :: value =>
            if String.eqb next closing then Some ([], value)
            else (fun '(a, b) => (ch :: next :: a, b)) <$> find_latex_close closing value
        end
  end.

(** The slices before and after the first unescaped dollar sign. *)
Fixpoint find_unescaped_math_close_from (escaped : bool) (value : list string) :
    option (list string * list string) :=
  match value with
  | [] => None
  | ch :: value =>
      let skip e := (fun '(a, b) => (ch :: a, b)) <$> find_unescaped_math_close_from e value in
      if escaped then skip false
      else if String.eqb ch backslash then skip true
      else if String.eqb ch "$" then Some ([], value)
      else skip false
  end.
Definition find_unescaped_math_close (value : list string) := find_unescaped_math_close_from false value.

(** The link text, the link target and what follows the link. *)
Definition markdown_link (rest : list string) : option (list string * list string * list string) :=
  after_open ← strip_chars ["["] rest;
  '(text, after_bracket) ← split_find ["]"] after_open;
  if bool_decide (text = []) || existsb (fun c => String.eqb c "[" || String.eqb c nl) text then None
  else
    after_text ← strip_chars ["("] after_bracket;
    '(url, remaining) ← split_find [")"] after_text;
    if bool_decide (url = []) || existsb is_whitespace url then None
    else
      let lower := to_ascii_lowercase (concat_str url) in
      if existsb (starts_with lower) ["https://"; "http://"; "mailto:"]
      then Some (text, url, remaining) else None.

Section inline.
Context (is_alphanumeric : string -> bool) (options : ComposerFormattingOptions).

(** The search for the closing underscore: [inner] is what was already passed over. *)
Fixpoint underscore_close (inner rest : list string) : option (list string * list string) :=
  match rest with
  | [] => None
  | c :: rest =>
      if String.eqb c "_" then
        if negb (bool_decide (inner = []))
           && negb (is_some_and (head inner) is_whitespace)
           && negb (is_some_and (last inner) is_whitespace)
           && negb (existsb (String.eqb nl) inner)
           && negb (is_some_and (head rest) is_alphanumeric)
        then Some (inner, rest)
        else underscore_close (inner ++ [c]) rest
      else underscore_close (inner ++ [c]) rest
  end.

Definition underscore_emphasis (before rest : list string) : option (list string * list string) :=
  after ← strip_chars ["_"] rest;
  if is_some_and (last before) is_alphanumeric then None else underscore_close [] after.

(** [rest.strip_prefix(open)] up to the first [close]. *)
Definition delimited (open close : list string) (rest : list string) :
    option (list string * list string) :=
  after ← strip_chars open rest; split_find close after.

Definition latex_inline (rest : list string) : option (list string * list string) :=
  if negb (math_mode options) then None
  else
    '(after, closing) ←
      match strip_chars [backslash; "("] rest with
      | Some after => Some (after, ")")
      | None => (fun after => (after, "]")) <$> strip_chars [backslash; "["] rest
      end;
    '(latex, remaining) ← find_latex_close closing after;
    if blank latex then None else Some (latex, remaining).

Definition dollar_math (rest : list string) : option (list string * list string) :=
  if negb (math_mode options) then None
  else
    after ← strip_chars ["$"] rest;
    '(latex, remaining) ← find_unescaped_math_close after;
    if bool_decide (latex = []) || blank latex then None else Some (latex, remaining).

(** What the scanner recognizes at an offset, in the order it tries. *)
Inductive Span :=
  | Span_Spoiler (inner : list string)
  | Span_EscapedDollar
  | Span_Math (latex : list string)
  | Span_Link (text url : list string)
  | Span_Emphasis (inner : list string)
  | Span_Strong (inner : list string)
  | Span_Code (inner : list string)
  | Span_StarEmphasis (inner : list string)
  | Span_Char (ch : string).

Definition next_span (before : list string) (ch : string) (tail : list string) : Span * list string :=
  let rest := ch :: tail in
  match delimited ["|"; "|"] ["|"; "|"] rest with
  | Some (inner, remaining) => (Span_Spoiler inner, remaining)
  | None =>
  match strip_chars [backslash; "$"] rest with
  | Some remaining => (Span_EscapedDollar, remaining)
  | None =>
  match latex_inline rest with
  | Some (latex, remaining) => (Span_Math latex, remaining)
  | None =>
  match markdown_link rest with
  | Some (text, url, remaining) => (Span_Link text url, remaining)
  | None =>
  match underscore_emphasis before rest with
  | Some (inner, remaining) => (Span_Emphasis inner, remaining)
  | None =>
  match delimited ["*"; "*"] ["*"; "*"] rest with
  | Some (inner, remaining) => (Span_Strong inner, remaining)
  | None =>
  match delimited ["`"] ["`"] rest with
  | Some (inner, remaining) => (Span_Code inner, remaining)
  | None =>
  match delimited ["*"] ["*"] rest with
  | Some (inner, remaining) => (Span_StarEmphasis inner, remaining)
  | None =>
  match dollar_math rest with
  | Some (latex, remaining) => (Span_Math latex, remaining)
  | None => (Span_Char ch, tail)
  end end end end end end end end end.

(** The characters a step consumed. *)
Definition consumed (rest remaining : list string) : list string :=
  take (length rest - length remaining) rest.

Fixpoint inline_loop (fuel : nat) (before rest : list string) : option (string * bool) :=
  match fuel with
  | O => None
  | S fuel =>
      match rest with
      | [] => Some ("", false)
      | ch :: tail =>
          let '(span, remaining) := next_span before ch tail in
          pushed ←
            match span with
            | Span_Spoiler inner =>
                Some ("<span data-mx-spoiler>" +:+ push_escaped_html inner +:+ "</span>")
            | Span_EscapedDollar => Some "$"
            | Span_Math latex => Some (push_math_html "span" latex)
            | Span_Link text url =>
                '(inner, _) ← inline_loop fuel [] text;
                Some ("<a href=" +:+ quote +:+ push_escaped_html url +:+ quote +:+ ">"
                      +:+ inner +:+ "</a>")
            | Span_Emphasis text =>
                '(inner, _) ← inline_loop fuel [] text; Some ("<em>" +:+ inner +:+ "</em>")
            | Span_Strong inner => Some ("<strong>" +:+ push_escaped_html inner +:+ "</strong>")
            | Span_Code inner => Some ("<code>" +:+ push_escaped_html inner +:+ "</code>")
            | Span_StarEmphasis inner => Some ("<em>" +:+ push_escaped_html inner +:+ "</em>")
            | Span_Char ch => Some (push_escaped_html_char ch)
            end;
          let marked := match span with Span_Char _ => false | _ => true end in
          '(html, changed) ← inline_loop fuel (before ++ consumed rest remaining) remaining;
          Some (pushed +:+ html, marked || changed)
      end
  end.

Definition push_inline_markdown_subset (body : list string) : option (string * bool) :=
  inline_loop (S (length body)) [] body.

End inline.

(** * Blocks *)

Definition leading_spaces (l : list string) : nat :=
  length l - length (drop_while (String.eqb " ") l).

(** The indentation and the text of a list item. *)
Definition unordered_list_item_body (line : string) : option (nat * list string) :=
  let leading_space_count := leading_spaces (chars line) in
  let trimmed := drop leading_space_count (chars line) in
  body ←
    match strip_chars ["-"; " "] trimmed with
    | Some body => Some body
    | None => strip_chars ["*"; " "] trimmed
    end;
  Some (leading_space_count, body).

(** The first line from [index] on whose trimmed text is [marker]. *)
Fixpoint closing_line (marker : string) (index : nat) (lines : list string) : option nat :=
  match lines with
  | [] => None
  | line :: lines =>
      if String.eqb (trim line) marker then Some index else closing_line marker (S index) lines
  end.

(** [&l[from..to]], which panics ([None]) when the range is reversed or past the end. *)
Definition slice {A} (l : list A) (from to : nat) : option (list A) :=
  if (from <=? to)%nat && (to <=? length l)%nat then Some (take (to - from) (drop from l)) else None.
(** [x - y] on [usize], which panics when it underflows. *)
Definition usize_sub (x y : nat) : option nat := if (y <=? x)%nat then Some (x - y)%nat else None.

(** The lines strictly between a fence and its closing line.  In this function and the two
    that follow the outer [None] is a panic, the inner one the [None] of the code. *)
Definition fenced_body (marker : string) (lines : list string) (start_index : nat) :
    option (option (string * nat)) :=
  match closing_line marker (S start_index) (drop (S start_index) lines) with
  | None => Some None
  | Some closing_index =>
      if (closing_index =? S start_index)%nat then Some None
      else body ← slice lines (S start_index) closing_index; Some (Some (join nl body, closing_index))
  end.

Definition math_block_body (lines : list string) (start_index : nat) :
    option (option (string * nat)) :=
  match lines !! start_index with
  | None => Some None
  | Some line =>
      if negb (String.eqb (trim line) "$$") then Some None else fenced_body "$$" lines start_index
  end.

Definition latex_display_block (lines : list string) (start_index : nat) :
    option (option (string * nat)) :=
  match (line ← lines !! start_index; strip_chars [backslash; "["] (chars (trim line))) with
  | None => Some None
  | Some after =>
      match find_latex_close "]" after with
      | Some (body, remaining) =>
          if negb (blank remaining) then Some None
          else Some (if blank body then None else Some (concat_str body, start_index))
      | None =>
          if negb (blank after) then Some None
          else fenced_body (backslash +:+ "]") lines start_index
      end
  end.

(** [s] pushed [n] times *)
Definition times (n : nat) (s : string) : string := concat_str (replicate n s).

Definition push_chunk_boundary (previous_chunk : option (nat * bool)) (current_start : nat)
    (current_is_block : bool) : option string :=
  match previous_chunk with
  | None => Some (times current_start "<br>")
  | Some (previous_end, previous_is_block) =>
      newline_count ← usize_sub current_start previous_end;
      Some ((if previous_is_block then nl else "")
            +:+ times (newline_count - Nat.b2n (previous_is_block || current_is_block)) "<br>"
            +:+ (if current_is_block && negb previous_is_block then nl else ""))
  end.

(** [v.iter().rposition(p)] *)
Definition rposition {A} (p : A -> bool) (l : list A) : option nat :=
  i ← position p (reverse l); Some (length l - 1 - i)%nat.

Section blocks.
Context (is_alphanumeric : string -> bool) (options : ComposerFormattingOptions).

(** What an item at [indent] does to the open lists, and the markup it pushes before its
    text. *)
Definition open_item (indentation_stack : list nat) (indent : nat) : option (string * list nat) :=
  current_indent ← last indentation_stack;
  if (current_indent <? indent)%nat then Some ("<ul><li>", indentation_stack ++ [indent])
  else if (indent =? current_indent)%nat then Some ("</li><li>", indentation_stack)
  else
    let target := default 0%nat (rposition (fun opened_indent => opened_indent <=? indent)%nat
                                   indentation_stack) in
    Some (times (length indentation_stack - S target) "</li></ul>" +:+ "</li><li>",
          take (S target) indentation_stack).

(** The items after the first one: the markup, the open lists and the line after them. *)
Fixpoint list_items (fuel : nat) (lines : list string) (line_index : nat)
    (indentation_stack : list nat) : option (string * list nat * nat) :=
  match fuel with
  | O => None
  | S fuel =>
      if (line_index <? length lines)%nat then
        line ← lines !! line_index;
        match unordered_list_item_body line with
        | None => Some ("", indentation_stack, line_index)
        | Some (indent, item_body) =>
            '(markup, indentation_stack) ← open_item indentation_stack indent;
            '(html, _) ← push_inline_markdown_subset is_alphanumeric options item_body;
            '(rest, stack, next) ← list_items fuel lines (S line_index) indentation_stack;
            Some (markup +:+ html +:+ rest, stack, next)
        end
      else Some ("", indentation_stack, line_index)
  end.

Definition list_block (lines : list string) (line_index : nat) (root_indent : nat)
    (item_body : list string) : option (string * nat) :=
  '(html, _) ← push_inline_markdown_subset is_alphanumeric options item_body;
  '(items, stack, next) ← list_items (S (length lines)) lines (S line_index) [root_indent];
  Some ("<ul><li>" +:+ html +:+ items +:+ times (length stack) "</li></ul>", next).

Fixpoint format_lines (fuel : nat) (lines : list string) (line_index : nat)
    (previous_chunk : option (nat * bool)) : option (string * bool) :=
  match fuel with
  | O => None
  | S fuel =>
      if (line_index <? length lines)%nat then
        line ← lines !! line_index;
        if is_empty line then format_lines fuel lines (S line_index) previous_chunk
        else
          block ←
            (if math_mode options then
               math ← math_block_body lines line_index;
               match math with
               | Some b => Some (Some b)
               | None => latex_display_block lines line_index
               end
             else Some None);
          match block with
          | Some (block_body, closing_index) =>
              boundary ← push_chunk_boundary previous_chunk line_index true;
              '(html, _) ← format_lines fuel lines (S closing_index) (Some (closing_index, true));
              Some (boundary +:+ push_math_html "div" (chars block_body) +:+ html, true)
          | None =>
              match unordered_list_item_body line with
              | Some (root_indent, item_body) =>
                  boundary ← push_chunk_boundary previous_chunk line_index true;
                  '(items, next) ← list_block lines line_index root_indent item_body;
                  last_item ← usize_sub next 1;
                  '(html, _) ← format_lines fuel lines next (Some (last_item, true));
                  Some (boundary +:+ items +:+ html, true)
              | None =>
                  boundary ← push_chunk_boundary previous_chunk line_index false;
                  '(pushed, marked) ← push_inline_markdown_subset is_alphanumeric options (chars line);
                  '(html, changed) ← format_lines fuel lines (S line_index) (Some (line_index, false));
                  Some (boundary +:+ pushed +:+ html, marked || changed)
              end
          end
      else
        match previous_chunk with
        | Some (previous_end, _) =>
            last_line ← usize_sub (length lines) 1;
            Some (times (last_line - previous_end) "<br>", false)
        | None => Some ("", false)
        end
  end.

Definition format_markdown_subset_html (body : string) : option (string * bool) :=
  let lines := physical_lines body in
  format_lines (S (length lines)) lines 0 None.

Definition format_markdown_subset (body : string) : option (option string) :=
  '(html, changed) ← format_markdown_subset_html body; Some (then_some changed html).

Record FormattedMessageDraft := {
  plain_body : string; formatted_body : option string; mentions : MentionIntent }.

Definition build_formatted_message_draft_with_options (body : string) (mentions : MentionIntent) :
    option FormattedMessageDraft :=
  formatted ← format_markdown_subset body;
  Some {| plain_body := body; formatted_body := formatted; mentions := mentions |}.

Inductive ComposerSendIntent :=
  | Intent_Message (draft : FormattedMessageDraft)
  | Intent_SlashCommand (command : SlashCommandIntent)
  | Intent_LocalFailure (command : SlashCommandIntent).

Definition resolve_composer_send_intent_with_options (body : string) (mentions : MentionIntent) :
    option ComposerSendIntent :=
  match parse_slash_command body with
  | Slash_PlainText body => Intent_Message <$> build_formatted_message_draft_with_options body mentions
  | Slash_Unsupported command argument => Some (Intent_LocalFailure (Slash_Unsupported command argument))
  | command => Some (Intent_SlashCommand command)
  end.

End blocks.

(** The [math_mode] default of the wrappers that take no options. *)
Definition build_formatted_message_draft is_alphanumeric :=
  build_formatted_message_draft_with_options is_alphanumeric ComposerFormattingOptions_default.
Definition resolve_composer_send_intent is_alphanumeric :=
  resolve_composer_send_intent_with_options is_alphanumeric ComposerFormattingOptions_default.
