(* ===== verification/MarkdownProps.v ===== *)
(** Rendering a message body: the scanner ends, and the markup it emits is well nested over
    a fixed set of elements whatever the body says. *)

From stdpp Require Import base list strings gmap.
From Stdlib Require Import ZArith Lia Ascii.
From S2P Require Import Prelude Text Markdown.
Local Open Scope string_scope.
Local Open Scope list_scope.
Local Set Warnings "-clear-no-such-hyp".

(** * Slices are shorter *)

Lemma strip_chars_app p l after : strip_chars p l = Some after -> l = p ++ after.
Proof.
  revert l; induction p as [|c p IH]; intros l; [by intros [= ->]|].
  destruct l as [|d l]; [done|]. cbn. destruct (String.eqb_spec c d) as [->|]; [|done].
  intros ->%IH. done.
Qed.

Lemma split_find_app p l a b : split_find p l = Some (a, b) -> l = a ++ p ++ b.
Proof.
  revert a b; induction l as [|c l IH]; intros a b; cbn [split_find];
    (destruct (strip_chars p _) as [after|] eqn:E;
     [intros [= <- <-]; by apply strip_chars_app in E|]); [done|].
  destruct (split_find p l) as [[a' b']|] eqn:E'; [|done]. intros [= <- <-].
  cbn. f_equal. by apply IH.
Qed.

Lemma delimited_app open close l a b :
  delimited open close l = Some (a, b) -> l = open ++ a ++ close ++ b.
Proof.
  unfold delimited. intros (after & E & Hf)%bind_Some.
  apply strip_chars_app in E as ->. by apply split_find_app in Hf as ->.
Qed.

Lemma find_latex_close_app closing l a b :
  find_latex_close closing l = Some (a, b) -> l = a ++ [backslash; closing] ++ b.
Proof.
  assert (H : forall n l a b, length l <= n -> find_latex_close closing l = Some (a, b) ->
            l = a ++ [backslash; closing] ++ b); [|by apply (H (length l))].
  clear l a b; intros n; induction n as [|n IH]; intros [|c l] a b Hn; cbn in *; try done; try lia.
  destruct (String.eqb_spec c backslash) as [->|]; cbn.
  - destruct l as [|d l]; [done|]. destruct (String.eqb_spec d closing) as [->|].
    + by intros [= <- <-].
    + intros ([a' b'] & E & [= -> ->])%fmap_Some. cbn in Hn. apply IH in E as ->; [done|lia].
  - intros ([a' b'] & E & [= -> ->])%fmap_Some. apply IH in E as ->; [done|lia].
Qed.

Lemma find_unescaped_math_close_app e l a b :
  find_unescaped_math_close_from e l = Some (a, b) -> l = a ++ ["$"] ++ b.
Proof.
  revert a b e; induction l as [|c l IH]; intros a b e; [done|]. cbn.
  assert (Hskip : forall e' a b,
            (fun '(a, b) => (c :: a, b)) <$> find_unescaped_math_close_from e' l = Some (a, b) ->
            c :: l = a ++ ["$"] ++ b).
  { intros e' a0 b0 ([a' b'] & E & [= -> ->])%fmap_Some. apply IH in E. by rewrite E. }
  destruct e; [apply Hskip|]. destruct (String.eqb c backslash); [apply Hskip|].
  destruct (String.eqb_spec c "$") as [->|]; [by intros [= <- <-]|apply Hskip].
Qed.

Definition allowed_scheme (url : list string) : bool :=
  existsb (starts_with (to_ascii_lowercase (concat_str url))) ["https://"; "http://"; "mailto:"].

Lemma markdown_link_app l text url remaining :
  markdown_link l = Some (text, url, remaining) ->
  l = ["["] ++ text ++ ["]"; "("] ++ url ++ [")"] ++ remaining /\ allowed_scheme url = true.
Proof.
  unfold markdown_link. intros (l1 & E1 & H)%bind_Some.
  apply bind_Some in H as ([t l2] & E2 & H). destruct (_ || _); [done|].
  apply bind_Some in H as (l3 & E3 & H). apply bind_Some in H as ([u r] & E4 & H).
  destruct (_ || _); [done|]. destruct (existsb _ _) eqn:Hs; [|done]. injection H as <- <- <-.
  apply strip_chars_app in E1 as ->. apply split_find_app in E2 as ->.
  apply strip_chars_app in E3 as ->. apply split_find_app in E4 as ->. done.
Qed.

Section scanner.
Context (an : string -> bool) (options : ComposerFormattingOptions).

Lemma underscore_close_app inner rest a b :
  underscore_close an inner rest = Some (a, b) -> inner ++ rest = a ++ ["_"] ++ b.
Proof.
  revert inner; induction rest as [|c rest IH]; intros inner; [done|]. cbn.
  destruct (String.eqb_spec c "_") as [->|].
  - destruct (_ && _); [by intros [= <- <-]|]. intros H%IH. by rewrite <-app_assoc in H.
  - intros H%IH. by rewrite <-app_assoc in H.
Qed.

Lemma underscore_emphasis_app before rest a b :
  underscore_emphasis an before rest = Some (a, b) -> rest = ["_"] ++ a ++ ["_"] ++ b.
Proof.
  unfold underscore_emphasis. intros (l & ->%strip_chars_app & H)%bind_Some.
  destruct (is_some_and _ _); [done|]. apply underscore_close_app in H. cbn in H. by rewrite H.
Qed.

Lemma latex_inline_app rest a b :
  latex_inline options rest = Some (a, b) ->
  exists open close, rest = [backslash; open] ++ a ++ [backslash; close] ++ b.
Proof.
  unfold latex_inline. destruct (negb _); [done|].
  intros ([after closing] & E & H)%bind_Some. apply bind_Some in H as ([l r] & H & Hb).
  destruct (blank l); [done|]. injection Hb as <- <-. apply find_latex_close_app in H.
  destruct (strip_chars [backslash; "("] rest) as [x|] eqn:E1.
  - apply strip_chars_app in E1. simplify_eq. eexists _, _. reflexivity.
  - apply fmap_Some in E as (x & Ex%strip_chars_app & E). simplify_eq. eexists _, _. reflexivity.
Qed.

Lemma dollar_math_app rest a b :
  dollar_math options rest = Some (a, b) -> rest = ["$"] ++ a ++ ["$"] ++ b.
Proof.
  unfold dollar_math. destruct (negb _); [done|].
  intros (after & ->%strip_chars_app & H)%bind_Some. apply bind_Some in H as ([l r] & H & Hb).
  destruct (_ || _); [done|]. injection Hb as <- <-. apply find_unescaped_math_close_app in H.
  by subst.
Qed.

(** Every step consumes a character, and the texts it renders recursively are shorter. *)
Lemma next_span_shorter before ch tail span remaining :
  next_span an options before ch tail = (span, remaining) ->
  (length remaining <= length tail)%nat
  /\ match span with
     | Span_Link text url => (length text <= length tail)%nat /\ allowed_scheme url = true
     | Span_Emphasis text => (length text <= length tail)%nat
     | Span_Char c => c = ch /\ remaining = tail
     | _ => True
     end.
Proof.
  unfold next_span. intros H.
  repeat match type of H with
  | match ?x with _ => _ end = _ => destruct x as [?|] eqn:?; [|]
  end;
  repeat match goal with p : (_ * _)%type |- _ => destruct p end; simplify_eq;
  repeat match goal with
  | E : delimited _ _ _ = Some _ |- _ => apply delimited_app in E
  | E : latex_inline _ _ = Some _ |- _ => apply latex_inline_app in E as (? & ? & E)
  | E : markdown_link _ = Some _ |- _ => apply markdown_link_app in E as [E ?]
  | E : underscore_emphasis _ _ _ = Some _ |- _ => apply underscore_emphasis_app in E
  | E : dollar_math _ _ = Some _ |- _ => apply dollar_math_app in E
  | E : strip_chars _ _ = Some _ |- _ => apply strip_chars_app in E
  | E : ch :: tail = _ |- _ => apply (f_equal length) in E; rewrite ?length_app in E; cbn in E;
                               rewrite ?length_app in E; cbn in E; rewrite ?length_app in E; cbn in E
  end; repeat split; auto; lia.
Qed.

(** ** Termination *)

(** Fuel beyond the length of the text is enough, and more of it changes nothing. *)
Lemma inline_loop_total n : forall before rest, length rest <= n ->
  exists r, forall fuel, length rest < fuel -> inline_loop an options fuel before rest = Some r.
Proof.
  induction n as [|n IH]; intros before [|ch tail] Hn; cbn in Hn; try lia;
    try (exists ("", false); intros [|f] Hf; cbn in Hf; [lia|done]).
  destruct (next_span an options before ch tail) as [span remaining] eqn:E.
  pose proof (next_span_shorter _ _ _ _ _ E) as [Hr Hs].
  destruct (IH (before ++ consumed (ch :: tail) remaining) remaining) as [[html changed] Hrest]; [lia|].
  assert (Hpush : forall text, length text <= length tail ->
            exists inner c, forall fuel, length tail < fuel ->
              inline_loop an options fuel [] text = Some (inner, c)).
  { intros text Ht. destruct (IH [] text) as [[inner c] H]; [lia|].
    exists inner, c. intros fuel Hf. apply H. lia. }
  destruct span as [inner| |latex|text url|text|inner|inner|inner|c].
  4: destruct (Hpush text) as (inner & c & Hi); [lia|].
  5: destruct (Hpush text) as (inner & c & Hi); [lia|].
  all: eexists; intros [|fuel] Hf; cbn in Hf; [lia|]; cbn [inline_loop]; rewrite E.
  all: rewrite ?Hi by lia; cbn; rewrite Hrest by lia; cbn; reflexivity.
Qed.

Lemma push_inline_total body :
  exists html changed, push_inline_markdown_subset an options body = Some (html, changed).
Proof.
  destruct (inline_loop_total (length body) [] body) as [[html changed] H]; [done|].
  exists html, changed. apply H. lia.
Qed.

Lemma open_item_stack stack indent markup stack' :
  open_item stack indent = Some (markup, stack') -> stack' <> [].
Proof.
  unfold open_item. intros (c & Hc & H)%bind_Some.
  assert (Hs : stack <> []) by by intros ->.
  destruct (c <? indent)%nat; [injection H as _ <-; by destruct stack|].
  destruct (indent =? c)%nat; [by injection H as _ <-|].
  injection H as _ <-. by destruct stack.
Qed.

Lemma open_item_total stack indent : stack <> [] -> is_Some (open_item stack indent).
Proof.
  intros Hs. unfold open_item. destruct (last stack) as [c|] eqn:El; [|by apply last_None in El].
  cbn [mbind option_bind]. destruct (c <? indent)%nat, (indent =? c)%nat; eauto.
Qed.

Lemma list_items_total fuel lines i stack :
  stack <> [] -> (length lines <= fuel + i)%nat ->
  exists html stack' j, list_items an options (S fuel) lines i stack = Some (html, stack', j)
    /\ (i <= j)%nat /\ (j <= length lines \/ j = i)%nat.
Proof.
  revert i stack; induction fuel as [|fuel IH]; intros i stack Hs Hf;
    (destruct (i <? length lines)%nat eqn:Hi;
     [apply Nat.ltb_lt in Hi|cbn [list_items]; rewrite Hi; exists "", stack, i; repeat split; lia]).
  { lia. }
  destruct (lookup_lt_is_Some_2 lines i Hi) as [line Hl].
  assert (Hnext : forall j st, st <> [] -> (i < j)%nat -> exists html stack' j',
            list_items an options (S fuel) lines j st = Some (html, stack', j')
            /\ (j <= j')%nat /\ (j' <= length lines \/ j' = j)%nat) by (intros; apply IH; [done|lia]).
  remember (S fuel) as fuel' eqn:Ef. cbn [list_items]. rewrite (proj2 (Nat.ltb_lt _ _) Hi), Hl. cbn [mbind option_bind].
  destruct (unordered_list_item_body line) as [[indent body]|]; [|exists "", stack, i; repeat split; lia].
  destruct (open_item_total stack indent Hs) as [[markup stack'] Ho]. rewrite Ho. cbn [mbind option_bind].
  destruct (push_inline_total body) as (html & c & ->). cbn [mbind option_bind].
  destruct (Hnext (S i) stack') as (rest & stack'' & j & -> & ? & ?); [by eapply open_item_stack|lia|].
  eexists _, _, _. split; [done|]. lia.
Qed.

Lemma list_block_total lines i indent body :
  (i < length lines)%nat ->
  exists html j, list_block an options lines i indent body = Some (html, j)
    /\ (i < j <= length lines)%nat.
Proof.
  intros Hi. unfold list_block. destruct (push_inline_total body) as (html & c & ->). cbn [mbind option_bind].
  destruct (list_items_total (length lines) lines (S i) [indent])
    as (items & stack & j & -> & ? & ?); [done|lia|].
  eexists _, _. split; [done|]. lia.
Qed.

Lemma closing_line_range marker i lines j : closing_line marker i lines = Some j -> (i <= j < i + length lines)%nat.
Proof.
  revert i; induction lines as [|line lines IH]; intros i; [done|]. cbn.
  destruct (String.eqb _ _); [intros [= ->]; lia|]. intros ?%IH. lia.
Qed.

(** A block search never panics, and the block it finds ends inside the body. *)
Lemma fenced_body_range marker lines i :
  exists r, fenced_body marker lines i = Some r
    /\ forall body j, r = Some (body, j) -> (i < j < length lines)%nat.
Proof.
  unfold fenced_body. destruct (closing_line _ _ _) as [k|] eqn:Hk; [|by exists None].
  apply closing_line_range in Hk. rewrite length_drop in Hk.
  destruct (k =? S i)%nat; [by exists None|]. unfold slice.
  rewrite (proj2 (Nat.leb_le _ _)), (proj2 (Nat.leb_le _ _)) by lia. cbn.
  eexists. split; [done|]. intros body j [= _ <-]. lia.
Qed.

Lemma math_block_range lines i :
  exists r, math_block_body lines i = Some r
    /\ forall body j, r = Some (body, j) -> (i <= j < length lines)%nat.
Proof.
  unfold math_block_body. destruct (lines !! i); [|by exists None].
  destruct (negb _); [by exists None|].
  destruct (fenced_body_range "$$" lines i) as (r & -> & Hr). exists r. split; [done|].
  intros body j Hbj. specialize (Hr body j Hbj). lia.
Qed.

Lemma latex_block_range lines i :
  exists r, latex_display_block lines i = Some r
    /\ forall body j, r = Some (body, j) -> (i <= j < length lines)%nat.
Proof.
  unfold latex_display_block. destruct (lines !! i) as [line|] eqn:Hl; cbn [mbind option_bind];
    [|by exists None]. apply lookup_lt_Some in Hl.
  destruct (strip_chars _ _) as [after|]; [|by exists None].
  destruct (find_latex_close "]" after) as [[b r]|].
  - destruct (negb _); [by exists None|]. eexists. split; [done|].
    intros body j. destruct (blank b); [done|]. intros [= _ <-]. lia.
  - destruct (negb _); [by exists None|].
    destruct (fenced_body_range (backslash +:+ "]") lines i) as (r & -> & Hr). exists r.
    split; [done|]. intros body j Hbj. specialize (Hr body j Hbj). lia.
Qed.

(** The block at a line, as the line loop looks for it. *)
Lemma block_range lines i :
  exists block,
    (if math_mode options then
       math ← math_block_body lines i;
       match math with Some b => Some (Some b) | None => latex_display_block lines i end
     else Some None) = Some block
    /\ forall body j, block = Some (body, j) -> (i <= j < length lines)%nat.
Proof.
  destruct (math_mode options); [|by exists None].
  destruct (math_block_range lines i) as (r & -> & Hr). cbn [mbind option_bind].
  destruct r as [b|]; [exists (Some b); split; [done|]; intros body j [= ->]; by eapply Hr|].
  destruct (latex_block_range lines i) as (r & -> & Hr'). by exists r.
Qed.

Lemma usize_sub_total x y : (y <= x)%nat -> usize_sub x y = Some (x - y)%nat.
Proof. intros H. unfold usize_sub. by rewrite (proj2 (Nat.leb_le _ _) H). Qed.

Lemma boundary_total previous i block :
  (forall e b, previous = Some (e, b) -> e <= i)%nat ->
  exists s, push_chunk_boundary previous i block = Some s.
Proof.
  intros Hp. unfold push_chunk_boundary. destruct previous as [[e b]|]; [|by eexists].
  rewrite usize_sub_total by (by eapply Hp). by eexists.
Qed.

(** The line loop ends within one step per line. *)
Lemma format_lines_total fuel lines i previous :
  (length lines <= fuel + i)%nat -> lines <> [] ->
  (forall e b, previous = Some (e, b) -> e <= i)%nat ->
  exists html changed, format_lines an options (S fuel) lines i previous = Some (html, changed).
Proof.
  intros Hf Hne. revert i previous Hf.
  assert (0 < length lines)%nat as Hlen by (destruct lines; [done|cbn; lia]).
  induction fuel as [|fuel IH]; intros i previous Hf Hp;
    (destruct (i <? length lines)%nat eqn:Hi;
     [apply Nat.ltb_lt in Hi|cbn [format_lines]; rewrite Hi;
      destruct previous as [[e b]|]; rewrite ?usize_sub_total by lia; by eexists _, _]); [lia|].
  assert (Hnext : forall j e b, (i < j)%nat -> (e <= j)%nat ->
            exists html changed, format_lines an options (S fuel) lines j (Some (e, b)) = Some (html, changed)).
  { intros j e b Hj He. apply IH; [lia|]. by intros e' b' [= <- <-]. }
  destruct (lookup_lt_is_Some_2 lines i Hi) as [line Hl].
  assert (is_empty line = true -> exists html changed,
            format_lines an options (S fuel) lines (S i) previous = Some (html, changed)) as Hskip.
  { intros _. apply IH; [lia|]. intros e b H. specialize (Hp e b H). lia. }
  remember (S fuel) as fuel' eqn:Ef. cbn [format_lines].
  rewrite (proj2 (Nat.ltb_lt _ _) Hi), Hl. cbn [mbind option_bind].
  destruct (is_empty line); [by apply Hskip|].
  destruct (block_range lines i) as (block & Hb & Hr). rewrite Hb.
  cbn [mbind option_bind].
  destruct block as [[body j]|].
  { destruct (boundary_total previous i true Hp) as [s ->].
    specialize (Hr body j eq_refl).
    destruct (Hnext (S j) j true) as (html & c & ->); [lia..|]. by eexists _, _. }
  destruct (unordered_list_item_body line) as [[indent body]|].
  { destruct (boundary_total previous i true Hp) as [s ->].
    destruct (list_block_total lines i indent body Hi) as (items & j & -> & ?).
    cbn [mbind option_bind]. rewrite usize_sub_total by lia. cbn [mbind option_bind].
    destruct (Hnext j (j - 1)%nat true) as (html & c & ->); [lia..|]. by eexists _, _. }
  destruct (boundary_total previous i false Hp) as [s ->].
  destruct (push_inline_total (chars line)) as (html & c & ->). cbn [mbind option_bind].
  destruct (Hnext (S i) i false) as (html' & c' & ->); [lia..|]. by eexists _, _.
Qed.

Lemma physical_lines_ne body : physical_lines body <> [].
Proof. unfold physical_lines. by destruct (split_lines body). Qed.

(** C37: Formatting a message body always ends with a result: the character scanner, the
    list loop and the line loop all stop within the fuel the length of the body gives, no
    index or slice of the lines is out of range ([lines[start_index + 1..closing_index]] of a
    fenced block in particular), no line number underflows and no [expect] fails. *)
Theorem formatting_terminates body :
  exists html changed, format_markdown_subset_html an options body = Some (html, changed).
Proof.
  unfold format_markdown_subset_html. apply format_lines_total; [lia|apply physical_lines_ne|done].
Qed.

End scanner.

(** * Well-nested markup *)

(** Text and attribute values that cannot start or end a tag or an attribute. *)
Definition inert_byte (a : ascii) : bool :=
  negb (Ascii.eqb a "<" || Ascii.eqb a ">" || Ascii.eqb a (ascii_of_nat 34)
        || Ascii.eqb a (ascii_of_nat 39)).
Definition inert (s : string) : bool := all_str inert_byte s.

Definition attribute (tag name value : string) : string :=
  "<" +:+ tag +:+ " " +:+ name +:+ "=" +:+ quote +:+ value +:+ quote +:+ ">".

(** The opening tags the formatter may emit. *)
Inductive opening : string -> string -> Prop :=
  | Opening_plain tag : tag ∈ ["ul"; "li"; "em"; "strong"; "code"] -> opening tag ("<" +:+ tag +:+ ">")
  | Opening_spoiler : opening "span" "<span data-mx-spoiler>"
  | Opening_math tag value :
      tag ∈ ["span"; "div"] -> inert value = true -> opening tag (attribute tag "data-mx-maths" value)
  | Opening_link url :
      allowed_scheme url = true -> inert (push_escaped_html url) = true ->
      opening "a" (attribute "a" "href" (push_escaped_html url)).

(** [markup st s st']: [s] is text and tags that take the open elements from [st] to [st']. *)
Inductive markup : list string -> string -> list string -> Prop :=
  | Markup_text st s : inert s = true -> markup st s st
  | Markup_break st : markup st "<br>" st
  | Markup_open st tag s : opening tag s -> markup st s (tag :: st)
  | Markup_close st tag : markup (tag :: st) ("</" +:+ tag +:+ ">") st
  | Markup_app st s st' t st'' : markup st s st' -> markup st' t st'' -> markup st (s +:+ t) st''.

Lemma markup_nil st : markup st "" st.
Proof. by apply Markup_text. Qed.

(** ** Characters and their escapes *)

(** One ASCII byte, or bytes that are not ASCII. *)
Definition char_ok (c : string) : Prop :=
  (exists a, c = String a "") \/ all_str (fun a => 128 <=? byte_of a)%N c = true.

Lemma inert_app s t : inert (s +:+ t) = inert s && inert t.
Proof. apply all_str_app. Qed.

Lemma chars_ok s : Forall char_ok (chars s).
Proof.
  assert (H : all_str (fun a => 128 <=? byte_of a)%N (split_chars s).1 = true
              /\ Forall char_ok (split_chars s).2).
  { induction s as [|a s [IH1 IH2]]; [done|]. cbn [split_chars].
    destruct (split_chars s) as [k cs]; cbn [fst snd] in *.
    destruct (is_continuation a) eqn:Ea; cbn [fst snd].
    - split; [|done]. unfold is_continuation in Ea. apply andb_true_iff in Ea as [Ea _].
      cbn [all_str]. by rewrite Ea.
    - destruct (byte_of a <? 128)%N eqn:E; cbn [fst snd]; (split; [done|]).
      + constructor; [left; by exists a|]. destruct k; [done|]. constructor; [by right|done].
      + constructor; [|done]. right. cbn [all_str].
        apply N.ltb_ge in E. by rewrite (proj2 (N.leb_le _ _) E). }
  unfold chars. destruct (split_chars s) as [k cs]; cbn in H. destruct H as [Hk Hcs].
  destruct k; [done|]. constructor; [by right|done].
Qed.

Lemma high_byte_inert a : (128 <=? byte_of a)%N = true -> inert_byte a = true.
Proof. destruct a as [[] [] [] [] [] [] [] []]; by vm_compute. Qed.

Lemma escaped_char_inert c : char_ok c -> inert (push_escaped_html_char c) = true.
Proof.
  intros [[a ->]|Hc].
  - destruct a as [[] [] [] [] [] [] [] []]; by vm_compute.
  - assert (Hin : inert c = true) by (eapply all_str_impl; [apply high_byte_inert|done]).
    unfold push_escaped_html_char. by repeat case_match.
Qed.

Lemma escaped_inert value : Forall char_ok value -> inert (push_escaped_html value) = true.
Proof.
  intros H. apply all_str_concat. rewrite Forall_fmap. eapply Forall_impl; [exact H|].
  intros c. apply escaped_char_inert.
Qed.

Lemma markup_escaped st value : Forall char_ok value -> markup st (push_escaped_html value) st.
Proof. intros. by apply Markup_text, escaped_inert. Qed.

Lemma markup_element st tag open inner :
  opening tag open -> markup (tag :: st) inner (tag :: st) ->
  markup st (open +:+ inner +:+ "</" +:+ tag +:+ ">") st.
Proof.
  intros Ho Hi. eapply Markup_app; [by apply Markup_open|].
  eapply Markup_app; [exact Hi|]. apply Markup_close.
Qed.

Lemma markup_math st tag latex :
  tag ∈ ["span"; "div"] -> Forall char_ok latex -> markup st (push_math_html tag latex) st.
Proof.
  intros Ht Hl.
  replace (push_math_html tag latex) with
    (attribute tag "data-mx-maths" (push_escaped_html latex) +:+ push_escaped_html latex
     +:+ "</" +:+ tag +:+ ">").
  - apply markup_element; [|by apply markup_escaped]. apply Opening_math; [done|].
    by apply escaped_inert.
  - unfold push_math_html, attribute. by rewrite !append_assoc.
Qed.

Lemma markup_link st url inner :
  allowed_scheme url = true -> inert (push_escaped_html url) = true ->
  markup ("a" :: st) inner ("a" :: st) ->
  markup st ("<a href=" +:+ quote +:+ push_escaped_html url +:+ quote +:+ ">" +:+ inner +:+ "</a>") st.
Proof.
  intros Hu Hi Hin.
  replace ("<a href=" +:+ quote +:+ push_escaped_html url +:+ quote +:+ ">" +:+ inner +:+ "</a>")
    with (attribute "a" "href" (push_escaped_html url) +:+ inner +:+ "</" +:+ "a" +:+ ">").
  - apply markup_element; [by apply Opening_link|done].
  - unfold attribute. by rewrite !append_assoc.
Qed.

Lemma markup_times st n s : markup st s st -> markup st (times n s) st.
Proof.
  intros Hs. unfold times. induction n as [|n IH]; [apply markup_nil|].
  change (concat_str (replicate (S n) s)) with (s +:+ concat_str (replicate n s)).
  by eapply Markup_app.
Qed.

Lemma markup_boundary st previous i block s :
  push_chunk_boundary previous i block = Some s -> markup st s st.
Proof.
  unfold push_chunk_boundary. destruct previous as [[j b]|];
    [|intros [= <-]; apply markup_times, Markup_break].
  intros (n & _ & [= <-])%bind_Some.
  assert (Hn : forall x : bool, markup st (if x then nl else "") st) by (intros []; by apply Markup_text).
  eapply Markup_app; [apply Hn|]. eapply Markup_app; [apply markup_times, Markup_break|apply Hn].
Qed.

Section safety.
Context (an : string -> bool) (options : ComposerFormattingOptions).

(** Each slice a step takes is part of the text. *)
Lemma next_span_ok before ch tail span remaining :
  next_span an options before ch tail = (span, remaining) -> Forall char_ok (ch :: tail) ->
  Forall char_ok remaining
  /\ match span with
     | Span_Spoiler l | Span_Math l | Span_Emphasis l | Span_Strong l | Span_Code l
     | Span_StarEmphasis l => Forall char_ok l
     | Span_Link text url => Forall char_ok text /\ Forall char_ok url
     | Span_EscapedDollar => True
     | Span_Char c => char_ok c
     end.
Proof.
  unfold next_span. intros H Hok.
  repeat match type of H with
  | match ?x with _ => _ end = _ => destruct x as [?|] eqn:?; [|]
  end;
  repeat match goal with p : (_ * _)%type |- _ => destruct p end; simplify_eq;
  repeat match goal with
  | E : delimited _ _ _ = Some _ |- _ => apply delimited_app in E
  | E : latex_inline _ _ = Some _ |- _ => apply latex_inline_app in E as (? & ? & E)
  | E : markdown_link _ = Some _ |- _ => apply markdown_link_app in E as [E ?]
  | E : underscore_emphasis _ _ _ = Some _ |- _ => apply underscore_emphasis_app in E
  | E : dollar_math _ _ = Some _ |- _ => apply dollar_math_app in E
  | E : strip_chars _ _ = Some _ |- _ => apply strip_chars_app in E
  | E : ch :: tail = _ |- _ =>
      rewrite E in Hok; rewrite ?Forall_app in Hok; clear E
  end; rewrite ?Forall_cons in Hok; tauto.
Qed.

Lemma inline_loop_markup fuel before rest html changed st :
  Forall char_ok rest -> inline_loop an options fuel before rest = Some (html, changed) ->
  markup st html st.
Proof.
  revert before rest html changed st; induction fuel as [|fuel IH];
    intros before [|ch tail] html changed st Hok H; try done.
  { injection H as <- <-. apply markup_nil. }
  cbn [inline_loop] in H.
  destruct (next_span an options before ch tail) as [span remaining] eqn:E.
  pose proof (next_span_ok _ _ _ _ _ E Hok) as [Hrest Hs].
  pose proof (next_span_shorter _ _ _ _ _ _ _ E) as [_ Hu].
  apply bind_Some in H as (pushed & Hp & H). apply bind_Some in H as ([html' c] & Hh & H).
  injection H as <- _. eapply Markup_app; [|by eapply IH].
  destruct span as [l| |l|text url|text|l|l|l|c']; cbn in Hp;
    try (apply bind_Some in Hp as ([inner c'] & Hi & Hp)); injection Hp as <-.
  - apply (markup_element _ "span"); [constructor|by apply markup_escaped].
  - by apply Markup_text.
  - apply markup_math; [by repeat constructor|done].
  - destruct Hs as [Ht Hurl], Hu as [_ Hu].
    apply markup_link; [done|by apply escaped_inert|by eapply IH, Hi].
  - apply (markup_element _ "em"); [|by eapply IH, Hi]. apply (Opening_plain "em"). set_solver.
  - apply (markup_element _ "strong"); [|by apply markup_escaped].
    apply (Opening_plain "strong"). set_solver.
  - apply (markup_element _ "code"); [|by apply markup_escaped].
    apply (Opening_plain "code"). set_solver.
  - apply (markup_element _ "em"); [|by apply markup_escaped].
    apply (Opening_plain "em"). set_solver.
  - by apply Markup_text, escaped_char_inert.
Qed.

Lemma push_inline_markup body html changed st :
  Forall char_ok body -> push_inline_markdown_subset an options body = Some (html, changed) ->
  markup st html st.
Proof. apply inline_loop_markup. Qed.

(** ** Lists *)

(** The open elements inside [n] nested lists. *)
Fixpoint nested (n : nat) (st : list string) : list string :=
  match n with O => st | S n => "li" :: "ul" :: nested n st end.

Lemma markup_open_list n st : markup (nested n st) "<ul><li>" (nested (S n) st).
Proof.
  apply (Markup_app _ "<ul>" ("ul" :: nested n st)); apply Markup_open; apply Opening_plain; set_solver.
Qed.

Lemma markup_next_item n st : markup (nested (S n) st) "</li><li>" (nested (S n) st).
Proof.
  apply (Markup_app _ "</li>" ("ul" :: nested n st)); [apply (Markup_close _ "li")|].
  apply Markup_open, (Opening_plain "li"). set_solver.
Qed.

Lemma markup_close_list n st : markup (nested (S n) st) "</li></ul>" (nested n st).
Proof.
  apply (Markup_app _ "</li>" ("ul" :: nested n st)); [apply (Markup_close _ "li")|apply (Markup_close _ "ul")].
Qed.

Lemma markup_close_lists k n st : markup (nested (k + n) st) (times k "</li></ul>") (nested n st).
Proof.
  induction k as [|k IH]; [apply markup_nil|].
  change (times (S k) "</li></ul>") with ("</li></ul>" +:+ times k "</li></ul>").
  eapply Markup_app; [apply (markup_close_list (k + n))|done].
Qed.

Lemma open_item_markup stack indent markup' stack' st :
  open_item stack indent = Some (markup', stack') ->
  markup (nested (length stack) st) markup' (nested (length stack') st).
Proof.
  unfold open_item. intros (c & Hc & H)%bind_Some.
  destruct stack as [|i stack]; [done|]. cbn [length] in *.
  destruct (c <? indent)%nat.
  { injection H as <- <-.
    replace (length (i :: stack ++ [indent])) with (S (S (length stack)))
      by (cbn; rewrite length_app; cbn; lia).
    apply (markup_open_list (S (length stack))). }
  destruct (indent =? c)%nat; [injection H as <- <-; apply markup_next_item|].
  revert H. generalize (default 0%nat (rposition (fun o => (o <=? indent)%nat) (i :: stack))) as k.
  intros k [= <- Hst].
  assert (Hlen : length stack' = S (k `min` length stack))
    by (rewrite <-Hst; cbn [length]; by rewrite length_take).
  rewrite Hlen. eapply Markup_app; [|apply markup_next_item].
  replace (nested (S (length stack)) st) with
    (nested (S (length stack) - S k + S (k `min` length stack)) st) by (f_equal; lia).
  apply markup_close_lists.
Qed.

Lemma list_item_ok line indent body :
  unordered_list_item_body line = Some (indent, body) -> Forall char_ok body.
Proof.
  unfold unordered_list_item_body. intros (b & Hb & [= _ <-])%bind_Some.
  assert (Hl : Forall char_ok (drop (leading_spaces (chars line)) (chars line)))
    by apply Forall_drop, chars_ok.
  revert Hl Hb. generalize (drop (leading_spaces (chars line)) (chars line)) as l. intros l Hl Hb.
  destruct (strip_chars ["-"; " "] l) as [x|] eqn:E.
  - injection Hb as <-. apply strip_chars_app in E as ->. rewrite Forall_app in Hl. tauto.
  - apply strip_chars_app in Hb as ->. rewrite Forall_app in Hl. tauto.
Qed.

Lemma list_items_markup fuel lines i stack html stack' j st :
  list_items an options fuel lines i stack = Some (html, stack', j) ->
  markup (nested (length stack) st) html (nested (length stack') st).
Proof.
  revert i stack html stack' j; induction fuel as [|fuel IH]; intros i stack html stack' j H; [done|].
  cbn [list_items] in H.
  destruct (i <? length lines)%nat; [|injection H as <- <- <-; apply markup_nil].
  apply bind_Some in H as (line & _ & H).
  destruct (unordered_list_item_body line) as [[indent body]|] eqn:E;
    [|injection H as <- <- <-; apply markup_nil].
  apply bind_Some in H as ([m stack1] & Ho & H). apply bind_Some in H as ([h c] & Hb & H).
  apply bind_Some in H as ([[rest stack2] next] & Hr & H). injection H as <- <- _.
  eapply Markup_app; [by eapply open_item_markup|].
  eapply Markup_app; [|by eapply IH]. eapply push_inline_markup; [by eapply list_item_ok|done].
Qed.

Lemma list_block_markup lines i indent body html j st :
  Forall char_ok body -> list_block an options lines i indent body = Some (html, j) ->
  markup st html st.
Proof.
  unfold list_block. intros Hok ([h c] & Hh & H)%bind_Some.
  apply bind_Some in H as ([[items stack] next] & Hi & H). injection H as <- _.
  eapply (Markup_app _ "<ul><li>"); [apply (markup_open_list 0)|].
  eapply Markup_app; [by eapply push_inline_markup|].
  eapply Markup_app; [exact (list_items_markup _ _ _ _ _ _ _ st Hi)|].
  pose proof (markup_close_lists (length stack) 0 st) as Hc. by rewrite Nat.add_0_r in Hc.
Qed.

Lemma format_lines_markup fuel lines i previous html changed st :
  format_lines an options fuel lines i previous = Some (html, changed) -> markup st html st.
Proof.
  revert i previous html changed; induction fuel as [|fuel IH]; intros i previous html changed H; [done|].
  cbn [format_lines] in H. destruct (i <? length lines)%nat.
  2: { destruct previous as [[]|]; [|injection H as <- <-; apply markup_nil].
       apply bind_Some in H as (k & _ & H). injection H as <- <-. apply markup_times, Markup_break. }
  apply bind_Some in H as (line & _ & H). destruct (is_empty line); [by eapply IH|].
  apply bind_Some in H as ([[body j]|] & _ & H).
  { apply bind_Some in H as (s & Hs & H). apply bind_Some in H as ([h c] & Hh & H).
    injection H as <- <-.
    eapply Markup_app; [by eapply markup_boundary|]. eapply Markup_app; [|by eapply IH].
    apply markup_math; [by repeat constructor|apply chars_ok]. }
  destruct (unordered_list_item_body line) as [[indent body]|] eqn:E.
  { apply bind_Some in H as (s & Hs & H). apply bind_Some in H as ([items next] & Hi & H).
    apply bind_Some in H as (k & _ & H). apply bind_Some in H as ([h c] & Hh & H).
    injection H as <- <-. eapply Markup_app; [by eapply markup_boundary|].
    eapply Markup_app; [|by eapply IH]. eapply list_block_markup; [by eapply list_item_ok|done]. }
  apply bind_Some in H as (s & Hs & H).
  apply bind_Some in H as ([pushed marked] & Hp & H). apply bind_Some in H as ([h c] & Hh & H).
  injection H as <- <-. eapply Markup_app; [by eapply markup_boundary|].
  eapply Markup_app; [|by eapply IH]. eapply push_inline_markup; [apply chars_ok|done].
Qed.

(** C32: Whatever a message body says, formatting it gives markup that is well nested over
    the fixed elements the formatter knows, whose text and attribute values contain no
    character that could open or close a tag or an attribute, and whose link targets use
    http, https or mailto: a body cannot inject markup of its own. *)
Theorem formatted_markup_is_well_nested body :
  exists html changed,
    format_markdown_subset_html an options body = Some (html, changed) /\ markup [] html [].
Proof.
  destruct (format_lines_total an options (length (physical_lines body)) (physical_lines body) 0 None)
    as (html & changed & H); [lia|apply physical_lines_ne|done|].
  exists html, changed. split; [exact H|]. by eapply format_lines_markup.
Qed.

End safety.

(** * Text without markup *)

Section plain.
Context (an : string -> bool) (options : ComposerFormattingOptions).

Definition escaped_line (line : string) : string := push_escaped_html (chars line).

Lemma inline_loop_plain fuel before rest html :
  inline_loop an options fuel before rest = Some (html, false) -> html = push_escaped_html rest.
Proof.
  revert before rest html; induction fuel as [|fuel IH]; intros before [|ch tail] html H; try done.
  { by injection H as <-. }
  cbn [inline_loop] in H.
  destruct (next_span an options before ch tail) as [span remaining] eqn:E.
  pose proof (next_span_shorter _ _ _ _ _ _ _ E) as [_ Hs].
  apply bind_Some in H as (pushed & Hp & H). apply bind_Some in H as ([html' c] & Hh & H).
  destruct span; try done. destruct Hs as [-> ->]. destruct c; [done|].
  injection H as <-. injection Hp as <-. by rewrite (IH _ _ _ Hh).
Qed.

(** What is still to come after line [p] was written: each line behind a break. *)
Definition broken_lines (lines : list string) : string :=
  concat_str ((fun line => "<br>" +:+ escaped_line line) <$> lines).

Lemma broken_lines_cons line lines :
  broken_lines (line :: lines) = "<br>" +:+ escaped_line line +:+ broken_lines lines.
Proof.
  change (broken_lines (line :: lines)) with (("<br>" +:+ escaped_line line) +:+ broken_lines lines).
  by rewrite append_assoc.
Qed.

Lemma broken_lines_empty k lines rest :
  Forall (fun line => line = "") lines -> length lines = k ->
  broken_lines (lines ++ rest) = times k "<br>" +:+ broken_lines rest.
Proof.
  intros H. revert k; induction H as [|line lines -> H IH]; intros [|k] Hk; try done.
  injection Hk as Hk. change ((""%string :: lines) ++ rest) with (""%string :: (lines ++ rest)).
  rewrite broken_lines_cons, (IH k Hk).
  change (times (S k) "<br>") with ("<br>" +:+ times k "<br>"). by rewrite append_assoc.
Qed.

Lemma join_breaks line lines :
  join "<br>" (escaped_line <$> line :: lines) = escaped_line line +:+ broken_lines lines.
Proof.
  revert line; induction lines as [|line' lines IH]; intros line.
  - symmetry. apply append_nil_r.
  - rewrite fmap_cons. change (escaped_line <$> line' :: lines) with (escaped_line line' :: (escaped_line <$> lines)).
    change (join "<br>" (escaped_line line :: escaped_line line' :: (escaped_line <$> lines)))
      with (escaped_line line +:+ "<br>" +:+ join "<br>" (escaped_line <$> line' :: lines)).
    by rewrite IH, broken_lines_cons.
Qed.

(** A step of the line loop on a line that is not a block. *)
Lemma format_lines_plain_step fuel lines i previous line html :
  lines !! i = Some line ->
  format_lines an options (S fuel) lines i previous = Some (html, false) ->
  (line = "" /\ format_lines an options fuel lines (S i) previous = Some (html, false))
  \/ (line <> "" /\ exists html' s,
        format_lines an options fuel lines (S i) (Some (i, false)) = Some (html', false)
        /\ push_chunk_boundary previous i false = Some s
        /\ html = s +:+ escaped_line line +:+ html').
Proof.
  intros Hl H. cbn [format_lines] in H.
  rewrite (proj2 (Nat.ltb_lt _ _) (lookup_lt_Some _ _ _ Hl)), Hl in H. cbn [mbind option_bind] in H.
  destruct line as [|a line]; [by left|right; split; [done|]]. cbn [is_empty] in H.
  apply bind_Some in H as ([[body j]|] & _ & H).
  { apply bind_Some in H as (s & _ & H). by apply bind_Some in H as ([h c] & _ & H). }
  destruct (unordered_list_item_body (String a line)) as [[indent body]|].
  { apply bind_Some in H as (s & _ & H). apply bind_Some in H as ([items next] & _ & H).
    apply bind_Some in H as (k & _ & H). by apply bind_Some in H as ([h c] & _ & H). }
  apply bind_Some in H as (s & Hs & H).
  apply bind_Some in H as ([pushed marked] & Hp & H). apply bind_Some in H as ([h c] & Hh & H).
  destruct marked, c; try done. injection H as <-. exists h, s. split; [done|]. split; [done|].
  by apply inline_loop_plain in Hp as ->.
Qed.

Lemma times_snoc n s : times (S n) s = times n s +:+ s.
Proof.
  induction n as [|n IH]; [by apply append_nil_r|].
  change (times (S (S n)) s) with (s +:+ times (S n) s). rewrite IH at 1.
  change (times (S n) s) with (s +:+ times n s). by rewrite append_assoc.
Qed.

(** [p] is the last line written and the lines between it and [i] are empty. *)
Lemma format_lines_plain fuel lines i p html :
  (p < i <= length lines)%nat -> Forall (fun line => line = "") (take (i - S p) (drop (S p) lines)) ->
  format_lines an options fuel lines i (Some (p, false)) = Some (html, false) ->
  html = broken_lines (drop (S p) lines).
Proof.
  revert i p html; induction fuel as [|fuel IH]; intros i p html Hi Hempty H; [done|].
  assert (Hsplit : drop (S p) lines = take (i - S p) (drop (S p) lines) ++ drop i lines).
  { rewrite <-(take_drop (i - S p) (drop (S p) lines)) at 1. rewrite drop_drop. do 2 f_equal. lia. }
  assert (Hlen : length (take (i - S p) (drop (S p) lines)) = (i - S p)%nat)
    by (rewrite length_take, length_drop; lia).
  rewrite Hsplit, (broken_lines_empty (i - S p)) by done.
  destruct (lines !! i) as [line|] eqn:Hl.
  - pose proof (lookup_lt_Some _ _ _ Hl). rewrite (drop_S _ _ _ Hl).
    apply (format_lines_plain_step _ _ _ _ line) in H as [[-> H]|(_ & html' & s & H & Hs & ->)]; [| |done].
    + apply IH in H; [|lia|].
      * rewrite H, Hsplit, (broken_lines_empty (i - S p)), (drop_S _ _ _ Hl) by done. done.
      * replace (S i - S p)%nat with (S (i - S p)) by lia.
        rewrite (take_S_r _ _ ""), Forall_app; [by repeat constructor|].
        rewrite lookup_drop. rewrite <-Hl. f_equal. lia.
    + apply IH in H as ->; [|lia|by rewrite Nat.sub_diag].
      rewrite broken_lines_cons, <-(append_assoc (times _ _) "<br>"), <-times_snoc.
      unfold push_chunk_boundary in Hs. rewrite usize_sub_total in Hs by lia.
      change (Some (times (i - p - 0) "<br>" +:+ "") = Some s) in Hs. injection Hs as <-.
      rewrite append_nil_r. do 2 f_equal. lia.
  - apply lookup_ge_None in Hl. cbn [format_lines] in H.
    rewrite (proj2 (Nat.ltb_ge _ _) Hl) in H. rewrite usize_sub_total in H by lia.
    cbn [mbind option_bind] in H. injection H as <-.
    rewrite (drop_ge lines i) by lia. symmetry. rewrite append_nil_r. f_equal. lia.
Qed.

Lemma format_lines_plain_start fuel lines i html :
  (i <= length lines)%nat -> Forall (fun line => line = "") (take i lines) ->
  Exists (fun line => line <> "") lines ->
  format_lines an options fuel lines i None = Some (html, false) ->
  html = join "<br>" (escaped_line <$> lines).
Proof.
  revert i html; induction fuel as [|fuel IH]; intros i html Hi Hempty Hex H; [done|].
  assert (Hlt : (i < length lines)%nat).
  { destruct (decide (i < length lines)%nat); [done|]. exfalso.
    rewrite take_ge in Hempty by lia. apply Exists_exists in Hex as (x & Hx & Hne).
    rewrite Forall_forall in Hempty. by apply Hne, Hempty. }
  destruct (lookup_lt_is_Some_2 lines i Hlt) as [line Hl].
  apply (format_lines_plain_step _ _ _ _ line) in H as [[-> H]|(_ & html' & s & H & Hs & ->)]; [| |done].
  - apply IH in H; [done|lia| |done].
    rewrite (take_S_r _ _ ""), Forall_app by done. by repeat constructor.
  - apply format_lines_plain in H as ->; [|lia|by rewrite Nat.sub_diag].
    rewrite <-(take_drop i lines) at 2. rewrite (drop_S _ _ _ Hl).
    change (Some (times i "<br>") = Some s) in Hs. injection Hs as <-.
    assert (Hlen : length (take i lines) = i) by (rewrite length_take; lia).
    revert Hlen Hempty. generalize (take i lines) as empties. intros empties <- Hempty.
    destruct Hempty as [|e empties -> Hempty]; [by rewrite app_nil_l, join_breaks|].
    change ((""%string :: empties) ++ line :: drop (S (length (""%string :: empties))) lines)
      with (""%string :: (empties ++ line :: drop (S (length (""%string :: empties))) lines)).
    rewrite join_breaks, (broken_lines_empty (length empties)), broken_lines_cons by done.
    cbn [length]. rewrite times_snoc, append_assoc. done.
Qed.

(** A body in which the formatter recognizes no markup is rendered as itself: every
    line escaped, and a line break between two lines, so such a message needs no formatted
    body (a body of empty lines alone is rendered as nothing). *)
Theorem unformatted_text_is_only_escaped body html :
  Exists (fun line => line <> "") (physical_lines body) ->
  format_markdown_subset_html an options body = Some (html, false) ->
  html = join "<br>" (escaped_line <$> physical_lines body).
Proof. intros Hex H. eapply (format_lines_plain_start _ _ 0); [lia|constructor|done|exact H]. Qed.

End plain.

Definition ascii_alphanumeric (c : string) : bool :=
  match c with
  | String a "" => is_ascii_digit a || in_range a 65 90 || in_range a 97 122
  | _ => false
  end.

Lemma unformatted_text_is_only_escaped_witness :
  "snake_case<br>&lt;b&gt;" = join "<br>" (escaped_line <$> physical_lines ("snake_case" +:+ nl +:+ "<b>")).
Proof.
  apply (unformatted_text_is_only_escaped ascii_alphanumeric ComposerFormattingOptions_default).
  - left. discriminate.
  - vm_compute. reflexivity.
Defined.
