(* ===== verification/ComposerDocument.v ===== *)
(** Composer documents, draft revisions and composer targets
    ([crates/koushi-state/src/composer_document.rs], [composer_revision.rs],
    [submission.rs]).

    A revision is a [u128]; [checked_add] is written out.  [serde] reads and writes the wire
    form outside the model: [deserialize_document] starts from the record it has read. *)

From stdpp Require Import base list strings gmap.
From Stdlib Require Import ZArith Lia Ascii.
From S2P Require Import Prelude Text Markdown.
Local Open Scope string_scope.
Local Open Scope list_scope.
Local Set Warnings "-clear-no-such-hyp".

(** * Revisions *)

Definition U128_MAX : Z := 2 ^ 128 - 1.
Definition ComposerDraftRevision : Type := Z.
Definition revision_ok (r : ComposerDraftRevision) : Prop := (0 <= r <= U128_MAX)%Z.
Definition ZERO : ComposerDraftRevision := 0%Z.
Definition MAX : ComposerDraftRevision := U128_MAX.

Inductive ComposerDraftRevisionError := InvalidWire | Exhausted.

Definition is_zero (r : ComposerDraftRevision) : bool := (r =? 0)%Z.

Definition checked_successor (authoritative submitted : ComposerDraftRevision) :
    ComposerDraftRevision + ComposerDraftRevisionError :=
  let next := (Z.max authoritative submitted + 1)%Z in
  if decide (next <= U128_MAX)%Z then inl next else inr Exhausted.

Definition to_wire_string (r : ComposerDraftRevision) : string := display r.

(** [value.parse::<u128>()] of a text of digits: an overflow is an error. *)
Fixpoint digits_value (acc : Z) (s : string) : Z :=
  match s with
  | EmptyString => acc
  | String a s => digits_value (acc * 10 + (Z.of_N (byte_of a) - 48))%Z s
  end.
Definition parse_u128 (s : string) : option Z :=
  if all_str is_ascii_digit s && negb (is_empty s) then
    let n := digits_value 0 s in if decide (n <= U128_MAX)%Z then Some n else None
  else None.

Definition parse_wire (value : string) : ComposerDraftRevision + ComposerDraftRevisionError :=
  let canonical :=
    String.eqb value "0"
    || (negb (is_empty value)
        && (String.length value <=? 39)%nat
        && negb (starts_with value "0")
        && all_str is_ascii_digit value) in
  if negb canonical then inr InvalidWire
  else match parse_u128 value with Some n => inl n | None => inr InvalidWire end.

(** * Targets and submissions *)

Inductive ComposerTarget :=
  | Main (room_id : string)
  | Thread (room_id root_event_id : string).

#[export] Instance ComposerTarget_eq : EqDecision ComposerTarget.
Proof. solve_decision. Defined.
#[export] Instance ComposerTarget_countable : Countable ComposerTarget.
Proof.
  refine (inj_countable'
    (fun t => match t with Main r => inl r | Thread r e => inr (r, e) end)
    (fun x => match x with inl r => Main r | inr (r, e) => Thread r e end) _).
  by intros [].
Defined.

Definition target_room_id (t : ComposerTarget) : string :=
  match t with Main r | Thread r _ => r end.

Inductive ComposerSubmissionTerminalOutcome :=
  | Outcome_Succeeded | Outcome_Failed (message : string) | Outcome_Cancelled.

(** * Documents *)

Inductive ComposerInline :=
  | Inline_Text (text : string)
  | Inline_Mention (target : MentionTarget) (display_label : string).

#[export] Instance ComposerInline_eq : EqDecision ComposerInline.
Proof. solve_decision. Defined.

Record Document := { version : Z; inlines : list ComposerInline }.

#[export] Instance Document_eq : EqDecision Document.
Proof. solve_decision. Defined.

Definition VERSION : Z := 2.

(** One turn of the loop: [normalized] is what was pushed so far. *)
Definition normalize_push (normalized : list ComposerInline) (inline : ComposerInline) :
    list ComposerInline :=
  match inline with
  | Inline_Text text =>
      if is_empty text then normalized
      else
        match last normalized with
        | Some (Inline_Text previous) =>
            take (length normalized - 1) normalized ++ [Inline_Text (previous +:+ text)]
        | _ => normalized ++ [Inline_Text text]
        end
  | Inline_Mention _ _ => normalized ++ [inline]
  end.
Definition normalize_inlines (inlines : list ComposerInline) : list ComposerInline :=
  foldl normalize_push [] inlines.

Definition Document_new (inlines : list ComposerInline) : Document :=
  {| version := VERSION; inlines := normalize_inlines inlines |}.
Definition Document_default : Document := Document_new [].

Definition from_plain_text (text : string) : Document :=
  Document_new (opt_list (then_some (negb (is_empty text)) (Inline_Text text))).

Definition inline_body (i : ComposerInline) : string :=
  match i with
  | Inline_Text text => text
  | Inline_Mention _ display_label => "@" +:+ display_label
  end.
Definition document_plain_body (d : Document) : string := concat_str (inline_body <$> inlines d).

Definition same_mention_identity (l r : MentionTarget) : bool :=
  match l, r with
  | Mention_User l _, Mention_User r _ => String.eqb l r
  | Mention_Room l _, Mention_Room r _ => String.eqb l r
  | Mention_RoomMention _, Mention_RoomMention _ => true
  | _, _ => false
  end.

Definition mention_intent (d : Document) : MentionIntent :=
  {| targets :=
       foldl (fun ts i =>
         match i with
         | Inline_Mention target _ =>
             if existsb (fun existing => same_mention_identity existing target) ts then ts
             else ts ++ [target]
         | Inline_Text _ => ts
         end) [] (inlines d) |}.

Definition document_is_empty (d : Document) : bool := bool_decide (inlines d = []).

Definition inline_len (i : ComposerInline) : nat :=
  match i with
  | Inline_Text text => String.length text
  | Inline_Mention _ display_label => S (String.length display_label)
  end.
Definition document_len (d : Document) : nat := list_sum (inline_len <$> inlines d).

(** [text.char_indices()]: the offset of each character. *)
Fixpoint char_starts (offset : nat) (cs : list string) : list nat :=
  match cs with
  | [] => []
  | c :: cs => offset :: char_starts (offset + String.length c) cs
  end.

Fixpoint take_while {A} (p : A -> bool) (l : list A) : list A :=
  match l with
  | [] => []
  | x :: l => if p x then x :: take_while p l else []
  end.

(** The inlines kept within [remaining] bytes. *)
Fixpoint truncate_inlines (remaining : nat) (l : list ComposerInline) : list ComposerInline :=
  match l with
  | [] => []
  | Inline_Text text :: l =>
      let end_ := default 0%nat
                    (last (take_while (fun index => (index <=? remaining)%nat)
                             (char_starts 0 (chars text)))) in
      let end_ := if (String.length text <=? remaining)%nat then String.length text else end_ in
      (if (0 <? end_)%nat then [Inline_Text (String.substring 0 end_ text)] else [])
      ++ (if (end_ <? String.length text)%nat then []
          else truncate_inlines (if (0 <? end_)%nat then remaining - end_ else remaining) l)
  | (Inline_Mention _ display_label as mention) :: l =>
      let bytes := S (String.length display_label) in
      if (remaining <? bytes)%nat then []
      else mention :: truncate_inlines (remaining - bytes) l
  end.
Definition truncated_to_plain_bytes (d : Document) (maximum : nat) : Document :=
  Document_new (truncate_inlines maximum (inlines d)).

(** [Deserialize] after serde has read the wire record. *)
Definition deserialize_document (wire : Document) : option Document :=
  if (version wire =? VERSION)%Z then Some (Document_new (inlines wire)) else None.

(** * Formatted body *)

(** U+FDD0, a Unicode noncharacter, as UTF-8. *)
Definition noncharacter : string :=
  String (ascii_of_nat 239) (String (ascii_of_nat 183) (String (ascii_of_nat 144) "")).

Fixpoint contains_str (s p : string) : bool :=
  bool_decide (is_Some (strip_prefix p s))
  || match s with EmptyString => false | String _ s => contains_str s p end.

Definition prefix_is_taken (d : Document) (prefix : string) : bool :=
  existsb (fun i => match i with
                    | Inline_Text text => contains_str text prefix
                    | Inline_Mention _ display_label => contains_str display_label prefix
                    end) (inlines d).

(** The [while] loop that lengthens the prefix. *)
Fixpoint lengthen_prefix (fuel : nat) (d : Document) (prefix : string) : option string :=
  match fuel with
  | O => None
  | S fuel =>
      if prefix_is_taken d prefix then lengthen_prefix fuel d (prefix +:+ "x") else Some prefix
  end.

Definition longest_inline (d : Document) : nat := foldr Nat.max 0%nat (inline_len <$> inlines d).
Definition mention_marker_prefix (d : Document) : option string :=
  lengthen_prefix (S (longest_inline d)) d (noncharacter +:+ "koushi-mention-").

Definition hex_digit (n : N) : string :=
  String (ascii_of_N (if (n <? 10)%N then 48 + n else 55 + n)) "".

Definition is_ascii_alphanumeric (a : ascii) : bool :=
  is_ascii_digit a || in_range a 65 90 || is_ascii_lowercase a.

Definition percent_encode_byte (a : ascii) : string :=
  if is_ascii_alphanumeric a
     || Ascii.eqb a "-" || Ascii.eqb a "." || Ascii.eqb a "_" || Ascii.eqb a "~"
  then String a ""
  else "%" +:+ hex_digit (byte_of a / 16) +:+ hex_digit (byte_of a mod 16).
Definition percent_encode_matrix_identifier (value : string) : string :=
  concat_str (percent_encode_byte <$> String.list_ascii_of_string value).

Definition escaped_html (value : string) : string := push_escaped_html (chars value).

Definition mention_html (target : MentionTarget) (display_label : string) : string :=
  let escaped_label := escaped_html ("@" +:+ display_label) in
  let link id :=
    "<a href=" +:+ quote +:+ "https://matrix.to/#/" +:+ percent_encode_matrix_identifier id
    +:+ quote +:+ ">" +:+ escaped_label +:+ "</a>" in
  match target with
  | Mention_User user_id _ => link user_id
  | Mention_Room room_id _ => link room_id
  | Mention_RoomMention _ => "<span data-mx-mention>" +:+ escaped_label +:+ "</span>"
  end.

(** [s.replace(p, r)] for a non-empty [p]: every occurrence, from the left. *)
Fixpoint replace_go (fuel : nat) (p r s : string) : string :=
  match fuel with
  | O => s
  | S fuel =>
      match s with
      | EmptyString => ""
      | String a s' =>
          match strip_prefix p s with
          | Some rest => r +:+ replace_go fuel p r rest
          | None => String a (replace_go fuel p r s')
          end
      end
  end.
Definition replace (p r s : string) : string := replace_go (String.length s) p r s.

Section formatted.
Context (is_alphanumeric : string -> bool).

(** The source text with a marker for each mention, and the mentions in order. *)
Fixpoint mention_source (prefix : string) (count : nat) (l : list ComposerInline) :
    string * list (string * MentionTarget * string) :=
  match l with
  | [] => ("", [])
  | Inline_Text text :: l =>
      let '(source, mentions) := mention_source prefix count l in (text +:+ source, mentions)
  | Inline_Mention target display_label :: l =>
      let marker := prefix +:+ display (Z.of_nat count) +:+ ";" in
      let '(source, mentions) := mention_source prefix (S count) l in
      (marker +:+ source, (marker, target, display_label) :: mentions)
  end.

Definition formatted_body_with_options (d : Document) (options : ComposerFormattingOptions) :
    option (option string) :=
  marker_prefix ← mention_marker_prefix d;
  let '(source, mentions) := mention_source marker_prefix 0 (inlines d) in
  '(html, markdown_changed) ← format_markdown_subset_html is_alphanumeric options source;
  let html := foldl (fun html '(marker, target, display_label) =>
                       replace marker (mention_html target display_label) html) html mentions in
  Some (then_some (markdown_changed || negb (bool_decide (mentions = []))) html).

Definition document_formatted_body (d : Document) : option (option string) :=
  formatted_body_with_options d ComposerFormattingOptions_default.

End formatted.
