(* ===== verification/ComposerProps.v ===== *)
(** Composer documents and revisions: wire round trip, truncation, mention markers. *)

From stdpp Require Import base list strings gmap pretty.
From Stdlib Require Import ZArith Lia Ascii.
From S2P Require Import Prelude Text Markdown MarkdownProps ComposerDocument.
Local Open Scope string_scope.
Local Open Scope list_scope.
Local Set Warnings "-clear-no-such-hyp".

(** * Decimal wire form *)

Lemma digit_of_char a : is_ascii_digit a = true ->
  pretty_N_char (byte_of a - 48) = a /\ (48 <= byte_of a <= 57)%N.
Proof. destruct a as [[] [] [] [] [] [] [] []]; vm_compute; intros; split; done. Qed.

Lemma char_of_digit d : (d < 10)%N -> byte_of (pretty_N_char d) = (48 + d)%N.
Proof.
  intros Hd. assert (H : d ∈ [0;1;2;3;4;5;6;7;8;9]%N).
  { rewrite !elem_of_cons. lia. }
  rewrite !elem_of_cons in H. destruct_or! H; subst; try done. by apply elem_of_nil in H.
Qed.

Lemma digits_value_pretty x : forall s, digits_value 0 (pretty_N_go x s) = digits_value (Z.of_N x) s.
Proof.
  induction (N.lt_wf_0 x) as [x _ IH]; intros s.
  destruct (decide (x = 0)%N) as [->|Hx]; [by rewrite pretty_N_go_0|].
  rewrite pretty_N_go_step by lia. rewrite IH by (apply N.div_lt; lia).
  cbn [digits_value]. rewrite char_of_digit by (apply N.mod_lt; lia). f_equal.
  pose proof (N.div_mod x 10 ltac:(lia)). lia.
Qed.

Lemma pretty_digits_value s : forall acc t, all_str is_ascii_digit s = true -> (0 < acc)%Z ->
  pretty_N_go (Z.to_N (digits_value acc s)) t = pretty_N_go (Z.to_N acc) (s +:+ t).
Proof.
  induction s as [|a s IH]; intros acc t Hs Hacc; [done|]. cbn [all_str] in Hs.
  apply andb_true_iff in Hs as [Ha Hs]. destruct (digit_of_char a Ha) as [Hc Hb].
  cbn [digits_value]. rewrite IH by (done || lia).
  rewrite pretty_N_go_step by lia.
  replace (Z.to_N (acc * 10 + (Z.of_N (byte_of a) - 48))) with
    (byte_of a - 48 + Z.to_N acc * 10)%N by lia.
  rewrite N.div_add, N.Div0.mod_add, (N.div_small), (N.mod_small) by lia.
  rewrite Hc. done.
Qed.

Lemma digits_value_nonneg s acc : all_str is_ascii_digit s = true -> (0 <= acc)%Z -> (acc <= digits_value acc s)%Z.
Proof.
  revert acc; induction s as [|a s IH]; intros acc; [done|]. cbn.
  intros [Ha Hs]%andb_true_iff Hacc. destruct (digit_of_char a Ha) as [_ Hb].
  etrans; [|apply IH; [done|lia]]. lia.
Qed.

Lemma display_digits_value s :
  all_str is_ascii_digit s = true -> is_empty s = false -> starts_with s "0" = false ->
  display (digits_value 0 s) = s /\ (0 < digits_value 0 s)%Z.
Proof.
  destruct s as [|a s]; [done|]. cbn [all_str]. intros [Ha Hs]%andb_true_iff _ Hz.
  destruct (digit_of_char a Ha) as [Hc Hb]. cbn [digits_value].
  assert (Hpos : (0 < 0 * 10 + (Z.of_N (byte_of a) - 48))%Z).
  { enough (byte_of a ≠ 48%N) by lia. intros Hx. rewrite Hx in Hc. change (pretty_N_char 0 = a) in Hc.
    subst a. unfold starts_with in Hz. by cbn in Hz. }
  pose proof (digits_value_nonneg s _ Hs (Z.lt_le_incl _ _ Hpos)) as Hge.
  split; [|lia]. unfold display, pretty, pretty_N. rewrite decide_False by lia.
  rewrite pretty_digits_value by done. rewrite append_nil_r.
  rewrite pretty_N_go_step by lia.
  replace (Z.to_N (0 * 10 + (Z.of_N (byte_of a) - 48))) with (byte_of a - 48)%N by lia.
  rewrite N.div_small, N.mod_small by lia. by rewrite pretty_N_go_0, Hc.
Qed.

Lemma pretty_go_length k : forall x s, (x < 10 ^ N.of_nat k)%N ->
  (String.length (pretty_N_go x s) <= k + String.length s)%nat.
Proof.
  induction k as [|k IH]; intros x s Hx.
  - change (x < 1)%N in Hx. assert (x = 0)%N as -> by lia. by rewrite pretty_N_go_0.
  - destruct (decide (x = 0)%N) as [->|Hx0]; [rewrite pretty_N_go_0; lia|].
    rewrite pretty_N_go_step by lia. etrans; [apply IH|cbn; lia].
    apply N.Div0.div_lt_upper_bound. rewrite Nat2N.inj_succ, N.pow_succ_r' in Hx. lia.
Qed.

Lemma pretty_go_leading x : forall s, (0 < x)%N -> starts_with (pretty_N_go x s) "0" = false.
Proof.
  induction (N.lt_wf_0 x) as [x _ IH]; intros s Hx. rewrite pretty_N_go_step by lia.
  destruct (decide (x < 10)%N).
  - rewrite N.div_small, N.mod_small by done. rewrite pretty_N_go_0.
    assert (H : x ∈ [1;2;3;4;5;6;7;8;9]%N) by (rewrite !elem_of_cons; lia).
    rewrite !elem_of_cons in H. destruct_or! H; subst; try done. by apply elem_of_nil in H.
  - apply IH; [apply N.div_lt; lia|]. apply N.div_str_pos. lia.
Qed.

(** Draft revisions survive the wire: printing a revision and reading it back gives the
    same 128-bit number, and the reader accepts a text only if it is the one canonical
    decimal form of a revision in range, so no two texts denote the same revision. *)
Theorem revision_wire_round_trip :
  (forall r, revision_ok r -> parse_wire (to_wire_string r) = inl r)
  /\ (forall s r, parse_wire s = inl r -> revision_ok r /\ to_wire_string r = s).
Proof.
  split.
  - intros r Hr. unfold revision_ok, U128_MAX in Hr.
    destruct (decide (r = 0)%Z) as [->|Hr0]; [done|].
    unfold parse_wire, to_wire_string.
    pose proof (display_digits r) as Hd. unfold display, pretty, pretty_N in *.
    rewrite decide_False in * by lia.
    set (t := pretty_N_go (Z.to_N r) "") in *.
    assert (Hlen : (String.length t <=? 39)%nat = true).
    { apply Nat.leb_le, (pretty_go_length 39). change (10 ^ N.of_nat 39)%N with (10 ^ 39)%N. lia. }
    assert (Hlead : starts_with t "0" = false) by (apply pretty_go_leading; lia).
    assert (Hval : digits_value 0 t = r).
    { unfold t. rewrite digits_value_pretty. cbn. lia. }
    assert (Hne : is_empty t = false).
    { destruct t; [|done]. cbn in Hval. lia. }
    unfold parse_u128. rewrite Hne, Hlen, Hlead, Hd, Hval. cbn. rewrite orb_true_r. cbn.
    rewrite decide_True by (unfold U128_MAX; lia). done.
  - intros s r. unfold parse_wire.
    destruct (String.eqb_spec s "0") as [->|Hs0].
    { cbn [orb negb]. change (parse_u128 "0") with (Some 0%Z). intros [= <-].
      by split; [split|]. }
    cbn [orb]. destruct (negb _ && _ && _ && _)%bool eqn:E; [|done]. cbn [negb].
    repeat (apply andb_true_iff in E as [E ?]).
    unfold parse_u128. rewrite H, E. cbn. case_decide; [|done]. intros [= <-].
    apply negb_true_iff in E, H0.
    destruct (display_digits_value s H E H0) as [Hd Hpos].
    split; [split; [lia|done]|exact Hd].
Qed.

(** * Truncation *)

Lemma length_append s t : String.length (s +:+ t) = (String.length s + String.length t)%nat.
Proof. induction s as [|a s IH]; [done|]. change (String a s +:+ t) with (String a (s +:+ t)). cbn. by rewrite IH. Qed.

Lemma substring_prefix s t : String.substring 0 (String.length s) (s +:+ t) = s.
Proof.
  induction s as [|a s IH]; [by destruct t|].
  change (String a s +:+ t) with (String a (s +:+ t)). cbn. by rewrite IH.
Qed.

Lemma substring_whole s : String.substring 0 (String.length s) s = s.
Proof. rewrite <-(append_nil_r s) at 2. apply substring_prefix. Qed.

(** The cut falls between two characters, within the budget. *)
Lemma last_char_start r cs : forall offset e,
  last (take_while (fun i => (i <=? r)%nat) (char_starts offset cs)) = Some e ->
  exists k, (k <= length cs)%nat /\ e = (offset + String.length (concat_str (take k cs)))%nat /\ (e <= r)%nat.
Proof.
  induction cs as [|c cs IH]; intros offset e; [done|]. cbn [char_starts take_while].
  destruct (offset <=? r)%nat eqn:E; [|done]. apply Nat.leb_le in E.
  destruct (last (take_while (fun i => (i <=? r)%nat) (char_starts (offset + String.length c) cs)))
    as [e'|] eqn:El.
  - intros H. rewrite last_cons, El in H. injection H as <-.
    destruct (IH _ _ El) as (k & Hk & -> & ?). exists (S k). cbn [length take].
    change (concat_str (c :: take k cs)) with (c +:+ concat_str (take k cs)).
    rewrite length_append. split_and!; lia.
  - intros H. rewrite last_cons, El in H. injection H as <-. exists 0%nat. cbn. lia.
Qed.

Definition text_end (remaining : nat) (text : string) : nat :=
  if (String.length text <=? remaining)%nat then String.length text
  else default 0%nat (last (take_while (fun i => (i <=? remaining)%nat) (char_starts 0 (chars text)))).

Lemma text_end_spec remaining text :
  exists k, String.substring 0 (text_end remaining text) text = concat_str (take k (chars text))
    /\ text_end remaining text = String.length (concat_str (take k (chars text)))
    /\ (text_end remaining text <= remaining)%nat
    /\ ((String.length text <= remaining)%nat -> concat_str (take k (chars text)) = text).
Proof.
  unfold text_end. destruct (String.length text <=? remaining)%nat eqn:E.
  - apply Nat.leb_le in E. exists (length (chars text)).
    rewrite firstn_all, chars_concat, substring_whole. auto.
  - apply Nat.leb_gt in E.
    assert (H : exists k, default 0%nat (last (take_while (fun i => (i <=? remaining)%nat) (char_starts 0 (chars text))))
              = String.length (concat_str (take k (chars text)))
              /\ (String.length (concat_str (take k (chars text))) <= remaining)%nat).
    { destruct (last (take_while (fun i => (i <=? remaining)%nat) (char_starts 0 (chars text))))
        as [e|] eqn:El; [|by exists 0%nat; split; [|apply Nat.le_0_l]].
      apply last_char_start in El as (k & _ & -> & ?). exists k. cbn. auto. }
    destruct H as (k & -> & Hle). exists k. split_and!; [|done|done|lia].
    rewrite <-(chars_concat text) at 2. rewrite <-(take_drop k (chars text)) at 2.
    rewrite concat_str_app. apply substring_prefix.
Qed.

(** What is kept of a list of inlines. *)
Inductive kept : list ComposerInline -> list ComposerInline -> Prop :=
  | Kept_nil l : kept [] l
  | Kept_cons i l l' : kept l l' -> kept (i :: l) (i :: l')
  | Kept_skip_empty l l' : kept l l' -> kept l (Inline_Text "" :: l')
  | Kept_cut text k l' :
      kept [Inline_Text (concat_str (take k (chars text)))] (Inline_Text text :: l').

Definition inlines_body (l : list ComposerInline) : string := concat_str (inline_body <$> l).

Lemma inlines_body_cons i l : inlines_body (i :: l) = inline_body i +:+ inlines_body l.
Proof. done. Qed.

Lemma inline_len_body i : inline_len i = String.length (inline_body i).
Proof. by destruct i. Qed.

Lemma document_len_body d : document_len d = String.length (document_plain_body d).
Proof.
  unfold document_len, document_plain_body. induction (inlines d) as [|i l IH]; [done|].
  change (concat_str (inline_body <$> i :: l)) with (inline_body i +:+ concat_str (inline_body <$> l)).
  rewrite length_append, <-IH, <-inline_len_body. done.
Qed.

Lemma truncate_inlines_spec l : forall remaining,
  kept (truncate_inlines remaining l) l
  /\ (String.length (inlines_body (truncate_inlines remaining l)) <= remaining)%nat
  /\ (exists rest, inlines_body l = inlines_body (truncate_inlines remaining l) +:+ rest)
  /\ ((String.length (inlines_body l) <= remaining)%nat ->
      Forall (fun i => i <> Inline_Text "") l -> truncate_inlines remaining l = l).
Proof.
  induction l as [|i l IH]; intros remaining.
  { split_and!; [constructor|cbn; lia|by exists ""|done]. }
  destruct i as [text|target label].
  - cbn [truncate_inlines].
    change (if (String.length text <=? remaining)%nat then _ else _) with (text_end remaining text).
    destruct (text_end_spec remaining text) as (k & Hsub & Hlen & Hle & Hall).
    rewrite Hsub. destruct (text_end remaining text <? String.length text)%nat eqn:Ecut.
    + apply Nat.ltb_lt in Ecut. rewrite app_nil_r.
      assert (Hshort : ~ (String.length text <= remaining)%nat).
      { intros H. apply Hall in H. rewrite <-H in Ecut at 2. lia. }
      assert (Hrest : exists rest, text = concat_str (take k (chars text)) +:+ rest).
      { exists (concat_str (drop k (chars text))). by rewrite <-concat_str_app, take_drop, chars_concat. }
      destruct Hrest as [rest Hrest]. split_and!.
      * destruct (0 <? _)%nat; [apply Kept_cut|constructor].
      * destruct (0 <? _)%nat; cbn; rewrite ?append_nil_r; lia.
      * rewrite inlines_body_cons. cbn [inline_body]. destruct (0 <? _)%nat.
        -- exists (rest +:+ inlines_body l). rewrite Hrest at 1.
           change (inlines_body [Inline_Text (concat_str (take k (chars text)))])
             with (concat_str (take k (chars text)) +:+ "").
           by rewrite append_nil_r, append_assoc.
        -- by eexists.
      * rewrite inlines_body_cons, length_append. cbn [inline_body]. lia.
    + apply Nat.ltb_ge in Ecut.
      assert (Hwhole : concat_str (take k (chars text)) = text).
      { pose proof (f_equal concat_str (take_drop k (chars text))) as H.
        rewrite concat_str_app, chars_concat in H.
        destruct (concat_str (drop k (chars text))) eqn:Ed; [by rewrite append_nil_r in H|].
        apply (f_equal String.length) in H. rewrite length_append in H. cbn in H. lia. }
      rewrite Hwhole in *.
      destruct (0 <? text_end remaining text)%nat eqn:Epos; cbn [app].
      * destruct (IH (remaining - text_end remaining text)%nat) as (IHk & IHl & [rest IHr] & IHa).
        rewrite Hlen in *. split_and!.
        -- by constructor.
        -- rewrite inlines_body_cons, length_append. cbn [inline_body]. lia.
        -- exists rest. by rewrite !inlines_body_cons, IHr, append_assoc.
        -- rewrite inlines_body_cons, length_append. cbn [inline_body].
           intros Hb [_ Hl]%Forall_cons. rewrite IHa; [done|lia|done].
      * apply Nat.ltb_ge in Epos. assert (text = "") as -> by (destruct text; [done|cbn in *; lia]).
        destruct (IH remaining) as (IHk & IHl & IHr & IHa). split_and!; [by constructor|done|exact IHr|].
        by intros _ [? _]%Forall_cons.
  - cbn [truncate_inlines]. destruct (remaining <? _)%nat eqn:E.
    + apply Nat.ltb_lt in E. split_and!; [constructor|cbn; lia|by eexists|].
      rewrite inlines_body_cons, length_append.
      change (String.length (inline_body _)) with (S (String.length label)). intros; lia.
    + apply Nat.ltb_ge in E.
      destruct (IH (remaining - S (String.length label))%nat) as (IHk & IHl & [rest IHr] & IHa).
      split_and!.
      * by constructor.
      * rewrite inlines_body_cons, length_append.
        change (String.length (inline_body _)) with (S (String.length label)). lia.
      * exists rest. by rewrite !inlines_body_cons, IHr, append_assoc.
      * rewrite inlines_body_cons, length_append.
        change (String.length (inline_body _)) with (S (String.length label)).
        intros Hb [_ Hl]%Forall_cons. rewrite IHa; [done|lia|done].
Qed.

(** ** Normal form *)

(** No empty text and no two texts in a row. *)
Fixpoint normal (l : list ComposerInline) : Prop :=
  match l with
  | [] => True
  | Inline_Text t :: l =>
      t <> "" /\ normal l /\ (match l with Inline_Text _ :: _ => False | _ => True end)
  | Inline_Mention _ _ :: l => normal l
  end.

Lemma normal_snoc l i :
  normal l -> i <> Inline_Text "" ->
  (forall t t', i = Inline_Text t -> last l <> Some (Inline_Text t')) -> normal (l ++ [i]).
Proof.
  intros Hl Hi Hlast. induction l as [|j l IH]; cbn [app].
  - destruct i as [t|]; [|done]. cbn. split_and!; [congruence|done|done].
  - assert (Hn : normal l) by (destruct j; cbn in Hl; tauto).
    assert (IH' : normal (l ++ [i])).
    { apply IH; [done|]. intros t t' -> E. apply (Hlast t t' eq_refl). by rewrite last_cons, E. }
    destruct j as [t|]; [|done]. cbn in Hl. destruct Hl as (Ht & _ & Hadj).
    cbn. split_and!; [done|done|]. destruct l as [|k l]; [|done]. cbn.
    destruct i as [t'|]; [|done]. by apply (Hlast t' t eq_refl).
Qed.

Lemma last_split {A} (l : list A) x : last l = Some x -> l = take (length l - 1) l ++ [x].
Proof.
  intros H. apply last_Some in H as [l' ->]. rewrite length_app. cbn.
  by rewrite Nat.add_sub, take_app_length.
Qed.

Lemma normal_prefix l i : normal (l ++ [i]) -> normal l.
Proof.
  induction l as [|j l IH]; [done|]. destruct j; cbn; [|done].
  intros (? & ? & Hadj). split_and!; [done|auto|]. by destruct l.
Qed.

Lemma normal_replace l t t' : normal (l ++ [Inline_Text t]) -> t' <> "" -> normal (l ++ [Inline_Text t']).
Proof.
  induction l as [|j l IH]; cbn; [tauto|]. destruct j; [|auto].
  intros (? & ? & Hadj) Ht. split_and!; [done|auto|]. by destruct l.
Qed.

Lemma append_nonempty s t : s <> "" -> s +:+ t <> "".
Proof. by destruct s. Qed.

Lemma normalize_push_normal l i : normal l -> normal (normalize_push l i).
Proof.
  intros Hl. destruct i as [t|target label]; cbn [normalize_push].
  - destruct t as [|a t]; [done|]. cbn [is_empty].
    destruct (last l) as [[t'|]|] eqn:E.
    + pose proof (last_split _ _ E) as Hs. rewrite Hs in Hl.
      eapply normal_replace; [exact Hl|].
      assert (t' <> ""); [|by apply append_nonempty].
      clear Hs E. induction (take (length l - 1) l) as [|[] x IH]; cbn in Hl; tauto.
    + apply normal_snoc; [done|done|]. intros ??. by rewrite E.
    + apply normal_snoc; [done|done|]. intros ??. by rewrite E.
  - apply normal_snoc; [done|done|]. done.
Qed.

Lemma normalize_inlines_normal l : normal (normalize_inlines l).
Proof.
  unfold normalize_inlines. assert (H : normal []) by done. revert H. generalize (@nil ComposerInline).
  induction l as [|i l IH]; intros acc H; [done|]. cbn. by apply IH, normalize_push_normal.
Qed.

Lemma normalize_push_body l i :
  inlines_body (normalize_push l i) = inlines_body l +:+ inline_body i.
Proof.
  assert (Happ : forall a b, inlines_body (a ++ b) = inlines_body a +:+ inlines_body b).
  { intros a b. unfold inlines_body. by rewrite fmap_app, concat_str_app. }
  assert (Hone : forall j, inlines_body [j] = inline_body j) by (intros j; apply append_nil_r).
  destruct i as [t|target label]; cbn [normalize_push]; [|by rewrite Happ, Hone].
  destruct t as [|a t]; [symmetry; apply append_nil_r|]. cbn [is_empty].
  destruct (last l) as [[t'|]|] eqn:E; try by rewrite Happ, Hone.
  rewrite (last_split _ _ E) at 3. rewrite !Happ, !Hone. cbn [inline_body]. by rewrite append_assoc.
Qed.

Lemma normalize_inlines_body l : inlines_body (normalize_inlines l) = inlines_body l.
Proof.
  unfold normalize_inlines.
  assert (H : forall acc, inlines_body (foldl normalize_push acc l) = inlines_body acc +:+ inlines_body l).
  { induction l as [|i l IH]; intros acc; [symmetry; apply append_nil_r|]. cbn [foldl].
    rewrite IH, normalize_push_body, inlines_body_cons. by rewrite append_assoc. }
  apply (H []).
Qed.

Lemma normalize_inlines_id l : normal l -> normalize_inlines l = l.
Proof.
  intros Hl. unfold normalize_inlines.
  assert (H : forall acc, normal (acc ++ l) -> foldl normalize_push acc l = acc ++ l); [|by apply (H [])].
  clear Hl. induction l as [|i l IH]; intros acc Hn; [by rewrite app_nil_r|]. cbn [foldl].
  assert (Hp : normalize_push acc i = acc ++ [i]).
  { destruct i as [t|]; [|done]. cbn [normalize_push].
    assert (Ht : t <> "" /\ forall t', last acc <> Some (Inline_Text t')).
    { clear IH. induction acc as [|j acc IHa].
      - cbn in Hn. split; [tauto|done].
      - assert (Hn' : normal (acc ++ Inline_Text t :: l)) by (destruct j; cbn in Hn; tauto).
        destruct (IHa Hn') as [? Hl]. split; [done|]. intros t' E. rewrite last_cons in E.
        destruct (last acc) as [x|] eqn:Ex; [injection E as ->; by apply (Hl t')|].
        apply last_None in Ex as ->. injection E as ->. cbn in Hn. tauto. }
    destruct Ht as [Ht Hl]. destruct t as [|a t]; [done|]. cbn [is_empty].
    destruct (last acc) as [[]|] eqn:E; [by edestruct Hl|done|done]. }
  rewrite Hp, IH; by rewrite <-app_assoc.
Qed.

Lemma normal_no_empty l : normal l -> Forall (fun i => i <> Inline_Text "") l.
Proof.
  induction l as [|[t|] l IH]; cbn; [constructor| |]; intros H; constructor;
    first [done | (intros [= ->]; tauto) | (apply IH; tauto)].
Qed.

Lemma truncated_fits d maximum :
  version d = VERSION -> normal (inlines d) -> (document_len d <= maximum)%nat ->
  truncated_to_plain_bytes d maximum = d.
Proof.
  destruct d as [v l]. intros Hv Hn Hl. cbn in Hv, Hn. subst v.
  unfold truncated_to_plain_bytes, Document_new. cbn [inlines]. rewrite document_len_body in Hl.
  destruct (truncate_inlines_spec l maximum) as (_ & _ & _ & Ha).
  rewrite Ha, normalize_inlines_id; [done|done|exact Hl|by apply normal_no_empty].
Qed.

Lemma truncated_body d maximum :
  document_plain_body (truncated_to_plain_bytes d maximum) = inlines_body (truncate_inlines maximum (inlines d)).
Proof. apply normalize_inlines_body. Qed.

Lemma truncated_len d maximum : (document_len (truncated_to_plain_bytes d maximum) <= maximum)%nat.
Proof. rewrite document_len_body, truncated_body. apply truncate_inlines_spec. Qed.

Lemma truncated_normal d maximum : normal (inlines (truncated_to_plain_bytes d maximum)).
Proof. apply normalize_inlines_normal. Qed.

Lemma truncated_idem d maximum :
  truncated_to_plain_bytes (truncated_to_plain_bytes d maximum) maximum = truncated_to_plain_bytes d maximum.
Proof. apply truncated_fits; [done|apply truncated_normal|apply truncated_len]. Qed.

(** Cutting a draft for storage keeps a prefix of it: the plain body of the stored
    document is a prefix of the original of at most the given number of bytes, mentions are
    kept whole, a text is cut only between two characters, the result is in normal form,
    and a document that already fits is stored unchanged, so storing again changes nothing. *)
Theorem truncation_keeps_a_prefix d maximum :
  let t := truncated_to_plain_bytes d maximum in
  (document_len t <= maximum)%nat
  /\ (exists rest, document_plain_body d = document_plain_body t +:+ rest)
  /\ kept (truncate_inlines maximum (inlines d)) (inlines d)
  /\ inlines t = normalize_inlines (truncate_inlines maximum (inlines d))
  /\ normal (inlines t)
  /\ (version d = VERSION /\ normal (inlines d) /\ (document_len d <= maximum)%nat -> t = d)
  /\ truncated_to_plain_bytes t maximum = t.
Proof.
  intros t. destruct (truncate_inlines_spec (inlines d) maximum) as (Hk & _ & [rest Hr] & _).
  split_and!; [apply truncated_len| |done|done|apply truncated_normal
              |by intros (? & ? & ?); apply truncated_fits|apply truncated_idem].
  exists rest. unfold t. by rewrite truncated_body.
Qed.

(** * Mention markers *)

Lemma strip_prefix_app p s r : strip_prefix p s = Some r -> s = p +:+ r.
Proof.
  revert s; induction p as [|a p IH]; intros s; [by intros [= ->]|]. destruct s as [|b s]; [done|].
  cbn. destruct (Ascii.eqb_spec a b) as [->|]; [|done]. intros ->%IH. done.
Qed.

Lemma contains_length s p : contains_str s p = true -> (String.length p <= String.length s)%nat.
Proof.
  induction s as [|a s IH]; cbn [contains_str]; intros [H|H]%orb_true_iff; try done.
  - apply bool_decide_eq_true in H as [r H%strip_prefix_app]. rewrite H, length_append. lia.
  - apply bool_decide_eq_true in H as [r H%strip_prefix_app]. rewrite H, length_append. lia.
  - apply IH in H. cbn. lia.
Qed.

Lemma taken_length d p : prefix_is_taken d p = true -> (String.length p <= longest_inline d)%nat.
Proof.
  unfold prefix_is_taken, longest_inline. intros (i & Hi & H)%existsb_exists.
  assert (Hl : (String.length p <= inline_len i)%nat).
  { destruct i; apply contains_length in H; cbn; lia. }
  clear H. induction (inlines d) as [|j l IH]; [done|]. rewrite fmap_cons. cbn [foldr].
  destruct Hi as [->|Hi]; [lia|]. specialize (IH Hi). lia.
Qed.

Lemma lengthen_prefix_fresh d fuel : forall p,
  (longest_inline d < String.length p + fuel)%nat ->
  exists p', lengthen_prefix (S fuel) d p = Some p' /\ prefix_is_taken d p' = false.
Proof.
  induction fuel as [|fuel IH]; intros p Hf; remember (S _) as n eqn:En;
    (destruct (prefix_is_taken d p) eqn:E; [pose proof (taken_length _ _ E)|]);
    subst n; cbn [lengthen_prefix]; rewrite E; try lia; try by eexists.
  apply IH. rewrite length_append. change (String.length "x") with 1%nat. lia.
Qed.

(** The search for a mention marker ends, and the marker it finds occurs in no text and
    in no label of the document, so replacing the markers later touches nothing the user
    wrote. *)
Theorem mention_marker_is_fresh d :
  exists p, mention_marker_prefix d = Some p
    /\ Forall (fun i => contains_str (match i with Inline_Text s | Inline_Mention _ s => s end) p = false)
         (inlines d).
Proof.
  destruct (lengthen_prefix_fresh d (longest_inline d) (noncharacter +:+ "koushi-mention-"))
    as (p & Hp & Hfresh).
  { change (String.length (noncharacter +:+ "koushi-mention-")) with 18%nat. lia. }
  exists p. split; [exact Hp|]. apply Forall_forall. intros i Hi.
  unfold prefix_is_taken in Hfresh. destruct (contains_str _ p) eqn:E; [|done].
  rewrite <-Hfresh. symmetry. apply existsb_exists. exists i. split; [by apply list_elem_of_In|].
  by destruct i.
Qed.

(** * A mention inside an attribute *)

Inductive HtmlState := Outside | InTag | InValue.

(** Reads tags and quoted attribute values; stuck on a bracket or quote out of place. *)
Fixpoint html_scan (st : HtmlState) (s : string) : option HtmlState :=
  match s with
  | EmptyString => Some st
  | String a s =>
      let quote := Ascii.eqb a (ascii_of_nat 34) in
      match st with
      | Outside =>
          if Ascii.eqb a "<" then html_scan InTag s
          else if Ascii.eqb a ">" || quote then None else html_scan Outside s
      | InTag =>
          if quote then html_scan InValue s
          else if Ascii.eqb a ">" then html_scan Outside s
          else if Ascii.eqb a "<" then None else html_scan InTag s
      | InValue =>
          if quote then html_scan InTag s
          else if Ascii.eqb a "<" || Ascii.eqb a ">" then None else html_scan InValue s
      end
  end.

Lemma html_scan_app s t st st' : html_scan st s = Some st' -> html_scan st (s +:+ t) = html_scan st' t.
Proof.
  revert st; induction s as [|a s IH]; intros st; [by intros [= ->]|].
  change (String a s +:+ t) with (String a (s +:+ t)). cbn [html_scan].
  destruct st; repeat case_match; auto; done.
Qed.

Lemma html_scan_inert st s : st <> InTag -> inert s = true -> html_scan st s = Some st.
Proof.
  intros Hst. induction s as [|a s IH]; [done|]. cbn [html_scan].
  change (inert (String a s)) with (inert_byte a && inert s). intros [Ha Hs]%andb_true_iff.
  unfold inert_byte in Ha. rewrite !negb_orb in Ha. repeat (apply andb_true_iff in Ha as [Ha ?]).
  apply negb_true_iff in Ha, H0, H1. rewrite Ha, H0, H1. destruct st; [|done|]; by apply IH.
Qed.

(** Case on the member of a literal list. *)
Ltac each_elem H :=
  repeat (apply elem_of_cons in H as [->|H]); [..|by apply elem_of_nil in H].

Lemma html_scan_attribute tag name value :
  tag ∈ ["span"; "div"; "a"] -> name ∈ ["data-mx-maths"; "href"] -> inert value = true ->
  html_scan Outside (attribute tag name value) = Some Outside.
Proof.
  intros Ht Hn Hv. unfold attribute.
  assert (Hopen : html_scan Outside ("<" +:+ tag +:+ " " +:+ name +:+ "=" +:+ quote) = Some InValue).
  { each_elem Ht; each_elem Hn; done. }
  replace ("<" +:+ tag +:+ " " +:+ name +:+ "=" +:+ quote +:+ value +:+ quote +:+ ">")
    with (("<" +:+ tag +:+ " " +:+ name +:+ "=" +:+ quote) +:+ value +:+ quote +:+ ">")
    by (by rewrite !append_assoc).
  rewrite (html_scan_app _ _ _ _ Hopen).
  assert (Hval : html_scan InValue value = Some InValue) by (by apply html_scan_inert).
  by rewrite (html_scan_app _ _ _ _ Hval).
Qed.

Lemma opening_scan tag s :
  opening tag s -> html_scan Outside s = Some Outside /\ html_scan Outside ("</" +:+ tag +:+ ">") = Some Outside.
Proof.
  intros [t Ht| |t v Ht Hv|url Hu Hv].
  - each_elem Ht; done.
  - done.
  - split; [apply html_scan_attribute; [set_solver|set_solver|done]|].
    each_elem Ht; done.
  - split; [|done]. apply html_scan_attribute; [set_solver|set_solver|done].
Qed.

Definition closable (tag : string) : Prop := html_scan Outside ("</" +:+ tag +:+ ">") = Some Outside.

(** Well-nested markup never has a tag inside an attribute value. *)
Lemma markup_scan st s st' :
  markup st s st' -> Forall closable st -> html_scan Outside s = Some Outside /\ Forall closable st'.
Proof.
  induction 1 as [st s Hs|st|st tag s Ho|st tag|st s st' t st'' _ IH1 _ IH2]; intros Hst.
  - split; [by apply html_scan_inert|done].
  - done.
  - destruct (opening_scan _ _ Ho). split; [done|by constructor].
  - by apply Forall_cons in Hst.
  - destruct (IH1 Hst) as [H1 Hst']. destruct (IH2 Hst') as [H2 ?].
    split; [|done]. by rewrite (html_scan_app _ _ _ _ H1).
Qed.

Definition math_with_mention : Document :=
  Document_new [Inline_Text "$x + "; Inline_Mention (Mention_User "@bob:x" "bob") "bob"; Inline_Text "$"].

(** The safety of the markup does not extend to mentions: a mention typed between two
    dollar signs is replaced inside the attribute that carries the formula as well, and the
    formatted body then holds an anchor element, with its own quotes, inside an attribute
    value. *)
Theorem mention_breaks_an_attribute :
  exists html,
    document_formatted_body ascii_alphanumeric math_with_mention = Some (Some html)
    /\ html = "<span data-mx-maths=" +:+ quote +:+ "x + "
              +:+ mention_html (Mention_User "@bob:x" "bob") "bob" +:+ quote +:+ ">x + "
              +:+ mention_html (Mention_User "@bob:x" "bob") "bob" +:+ "</span>"
    /\ ~ markup [] html [].
Proof.
  eexists. split_and!; [vm_compute; reflexivity|vm_compute; reflexivity|].
  intros H. apply markup_scan in H as [H _]; [|constructor]. vm_compute in H. discriminate H.
Qed.
