(* ===== verification/DraftStore.v ===== *)
(** The composer draft store ([crates/koushi-state/src/state/timeline.rs],
    [ComposerDraftStore], and [state/composer_draft.rs]): drafts of rooms and threads, the
    revisions that fence delayed writes, tombstones of emptied drafts with their eviction,
    and the persisted projection.

    A [BTreeMap] is a [gmap]; where the code iterates one the model sorts its keys.  A
    [VecDeque] is a list.  The eviction loops carry fuel and give [None] when it runs out;
    DraftProps.v proves that it never does. *)

From stdpp Require Import base list strings gmap.
From Stdlib Require Import ZArith Lia.
From S2P Require Import Prelude Text Markdown ComposerDocument.
Local Open Scope string_scope.
Local Open Scope list_scope.
Local Set Warnings "-clear-no-such-hyp".

(** * Data *)

Definition MAX_LIVE_COMPOSER_ROOM_TOMBSTONES : nat := 128.
Definition MAX_LIVE_COMPOSER_THREAD_TOMBSTONES : nat := 256.
Definition MAX_PERSISTED_COMPOSER_DRAFT_BYTES : nat := N.to_nat 16384.
Definition MAX_PERSISTED_COMPOSER_DRAFT_ROOM_COUNT : nat := 128.
Definition MAX_PERSISTED_COMPOSER_DRAFT_THREAD_COUNT : nat := 256.

Record ComposerDraftProtection := {
  active : gset ComposerTarget; leased : gset ComposerTarget; store_pending : gset ComposerTarget }.

Record AssistantDraftMarker := { client_name : string; marker_revision : ComposerDraftRevision }.

Abbreviation Nested A := (gmap string (gmap string A)).
Definition ThreadKey : Type := string * string.

Record ComposerDraftStore := {
  rooms : gmap string Document;
  threads : Nested Document;
  room_revisions : gmap string ComposerDraftRevision;
  thread_revisions : Nested ComposerDraftRevision;
  room_last_accepted_clear_revisions : gmap string ComposerDraftRevision;
  thread_last_accepted_clear_revisions : Nested ComposerDraftRevision;
  quiescent_room_lru : list string;
  quiescent_thread_lru : list ThreadKey;
  room_assistant_markers : gmap string AssistantDraftMarker;
  thread_assistant_markers : Nested AssistantDraftMarker }.

#[export] Instance ComposerDraftStore_updatable : Updatable ComposerDraftStore := fun s =>
  {| rooms := rooms s; threads := threads s; room_revisions := room_revisions s;
     thread_revisions := thread_revisions s;
     room_last_accepted_clear_revisions := room_last_accepted_clear_revisions s;
     thread_last_accepted_clear_revisions := thread_last_accepted_clear_revisions s;
     quiescent_room_lru := quiescent_room_lru s; quiescent_thread_lru := quiescent_thread_lru s;
     room_assistant_markers := room_assistant_markers s;
     thread_assistant_markers := thread_assistant_markers s |}.

Definition ComposerDraftStore_default : ComposerDraftStore :=
  {| rooms := ∅; threads := ∅; room_revisions := ∅; thread_revisions := ∅;
     room_last_accepted_clear_revisions := ∅; thread_last_accepted_clear_revisions := ∅;
     quiescent_room_lru := []; quiescent_thread_lru := [];
     room_assistant_markers := ∅; thread_assistant_markers := ∅ |}.

Inductive PendingComposerSendKind :=
  | Pending_Plain | Pending_Reply (in_reply_to_event_id : string).
Inductive ComposerMode :=
  | Mode_Plain | Mode_Reply (in_reply_to_event_id : string).

#[export] Instance ComposerMode_eq : EqDecision ComposerMode.
Proof. solve_decision. Defined.

Record ComposerState := {
  composer_accepted_ids : list string;
  pending_submission_id : option string;
  pending_transaction_id : option string;
  pending_send_kind : option PendingComposerSendKind;
  draft_revision : ComposerDraftRevision;
  last_accepted_clear_revision : ComposerDraftRevision;
  draft : string;
  document : Document;
  mode : ComposerMode;
  assistant_draft : option AssistantDraftMarker }.

#[export] Instance ComposerState_updatable : Updatable ComposerState := fun c =>
  {| composer_accepted_ids := composer_accepted_ids c;
     pending_submission_id := pending_submission_id c;
     pending_transaction_id := pending_transaction_id c;
     pending_send_kind := pending_send_kind c; draft_revision := draft_revision c;
     last_accepted_clear_revision := last_accepted_clear_revision c; draft := draft c;
     document := document c; mode := mode c; assistant_draft := assistant_draft c |}.

Definition ComposerState_default : ComposerState :=
  {| composer_accepted_ids := []; pending_submission_id := None; pending_transaction_id := None;
     pending_send_kind := None; draft_revision := ZERO; last_accepted_clear_revision := ZERO;
     draft := ""; document := Document_default; mode := Mode_Plain; assistant_draft := None |}.

(** * Nested maps *)

(** [m.get(room).and_then(|t| t.get(root))] *)
Definition nested_get {A} (m : Nested A) (room_id root_event_id : string) : option A :=
  room_threads ← m !! room_id; room_threads !! root_event_id.
(** [m.entry(room).or_default().insert(root, x)] *)
Definition nested_insert {A} (m : Nested A) (room_id root_event_id : string) (x : A) : Nested A :=
  <[room_id := <[root_event_id := x]> (default ∅ (m !! room_id))]> m.

Definition remove_nested_entry {A} (values : Nested A) (room_id root_event_id : string) : Nested A :=
  match values !! room_id with
  | Some room_values =>
      let room_values := delete root_event_id room_values in
      if decide (room_values = ∅) then delete room_id values
      else <[room_id := room_values]> values
  | None => values
  end.

Definition contains_key {A} (m : gmap string A) (k : string) : bool := bool_decide (is_Some (m !! k)).
Definition nested_contains {A} (m : Nested A) (room_id root_event_id : string) : bool :=
  bool_decide (is_Some (nested_get m room_id root_event_id)).

(** * Reading *)

Definition room_revision (s : ComposerDraftStore) (room_id : string) : ComposerDraftRevision :=
  default ZERO (room_revisions s !! room_id).
Definition thread_revision (s : ComposerDraftStore) (room_id root_event_id : string) :
    ComposerDraftRevision :=
  default ZERO (nested_get (thread_revisions s) room_id root_event_id).

Definition room_assistant_marker (s : ComposerDraftStore) (room_id : string) :
    option AssistantDraftMarker :=
  _ ← then_some (contains_key (rooms s) room_id) ();
  room_assistant_markers s !! room_id.
Definition thread_assistant_marker (s : ComposerDraftStore) (room_id root_event_id : string) :
    option AssistantDraftMarker :=
  _ ← then_some (nested_contains (threads s) room_id root_event_id) ();
  nested_get (thread_assistant_markers s) room_id root_event_id.

Definition composer_for_room (s : ComposerDraftStore) (room_id : string) : ComposerState :=
  let composer :=
    match rooms s !! room_id with
    | Some doc =>
        ComposerState_default <| document := doc |> <| draft := document_plain_body doc |>
    | None => ComposerState_default
    end in
  composer <| draft_revision := room_revision s room_id |>
           <| last_accepted_clear_revision :=
                default ZERO (room_last_accepted_clear_revisions s !! room_id) |>
           <| assistant_draft := room_assistant_marker s room_id |>.

Definition composer_for_thread (s : ComposerDraftStore) (room_id root_event_id : string) :
    ComposerState :=
  let composer :=
    match nested_get (threads s) room_id root_event_id with
    | Some doc =>
        ComposerState_default <| document := doc |> <| draft := document_plain_body doc |>
    | None => ComposerState_default
    end in
  composer <| draft_revision := thread_revision s room_id root_event_id |>
           <| last_accepted_clear_revision :=
                default ZERO (nested_get (thread_last_accepted_clear_revisions s)
                                room_id root_event_id) |>
           <| assistant_draft := thread_assistant_marker s room_id root_event_id |>.

Definition target_is_empty (s : ComposerDraftStore) (target : ComposerTarget) : bool :=
  match target with
  | Main room_id => negb (contains_key (rooms s) room_id)
  | Thread room_id root_event_id => negb (nested_contains (threads s) room_id root_event_id)
  end.

(** * The tombstone queues *)

Definition remove_room_from_lru (s : ComposerDraftStore) (room_id : string) : ComposerDraftStore :=
  s <| quiescent_room_lru ::= filter (fun candidate => candidate <> room_id) |>.
Definition touch_quiescent_room (s : ComposerDraftStore) (room_id : string) : ComposerDraftStore :=
  (remove_room_from_lru s room_id) <| quiescent_room_lru ::= fun l => l ++ [room_id] |>.
Definition remove_thread_from_lru (s : ComposerDraftStore) (room_id root_event_id : string) :
    ComposerDraftStore :=
  s <| quiescent_thread_lru ::= filter (fun candidate => candidate <> (room_id, root_event_id)) |>.
Definition touch_quiescent_thread (s : ComposerDraftStore) (room_id root_event_id : string) :
    ComposerDraftStore :=
  (remove_thread_from_lru s room_id root_event_id)
    <| quiescent_thread_lru ::= fun l => l ++ [(room_id, root_event_id)] |>.

(** The end of a write that may have emptied a room: content leaves the queue, a tombstone
    moves to its end. *)
Definition settle_room_lru (s : ComposerDraftStore) (room_id : string) : ComposerDraftStore :=
  if contains_key (rooms s) room_id then remove_room_from_lru s room_id
  else touch_quiescent_room s room_id.
Definition settle_thread_lru (s : ComposerDraftStore) (room_id root_event_id : string) :
    ComposerDraftStore :=
  if nested_contains (threads s) room_id root_event_id
  then remove_thread_from_lru s room_id root_event_id
  else touch_quiescent_thread s room_id root_event_id.

(** * Writing *)

Definition remove_thread_assistant_marker (s : ComposerDraftStore) (room_id root_event_id : string) :
    ComposerDraftStore * bool :=
  (s <| thread_assistant_markers ::= fun m => remove_nested_entry m room_id root_event_id |>,
   nested_contains (thread_assistant_markers s) room_id root_event_id).

Definition remove_thread_content (s : ComposerDraftStore) (room_id root_event_id : string) :
    ComposerDraftStore :=
  (remove_thread_assistant_marker s room_id root_event_id).1
    <| threads ::= fun m => remove_nested_entry m room_id root_event_id |>.

Definition Result : Type := ComposerDraftStore * (bool + ComposerDraftRevisionError).

Definition apply_room_draft (s : ComposerDraftStore) (room_id : string) (document : Document)
    (revision : ComposerDraftRevision) : Result :=
  if (revision <=? room_revision s room_id)%Z then (s, inl false)
  else
    let s := s <| room_revisions ::= <[room_id := revision]> |> in
    let s :=
      if document_is_empty document then
        touch_quiescent_room
          (s <| rooms ::= delete room_id |> <| room_assistant_markers ::= delete room_id |>) room_id
      else remove_room_from_lru (s <| rooms ::= <[room_id := document]> |>) room_id in
    (s, inl true).

Definition apply_thread_draft (s : ComposerDraftStore) (room_id root_event_id : string)
    (document : Document) (revision : ComposerDraftRevision) : Result :=
  if (revision <=? thread_revision s room_id root_event_id)%Z then (s, inl false)
  else
    let s := s <| thread_revisions ::= fun m => nested_insert m room_id root_event_id revision |> in
    let s :=
      if document_is_empty document then
        touch_quiescent_thread (remove_thread_content s room_id root_event_id) room_id root_event_id
      else
        remove_thread_from_lru
          (s <| threads ::= fun m => nested_insert m room_id root_event_id document |>)
          room_id root_event_id in
    (s, inl true).

Definition set_room_draft (s : ComposerDraftStore) (room_id : string) (document : Document) :
    ComposerDraftStore :=
  match checked_successor (room_revision s room_id) ZERO with
  | inl revision => (apply_room_draft s room_id document revision).1
  | inr _ => s
  end.
Definition set_thread_draft (s : ComposerDraftStore) (room_id root_event_id : string)
    (document : Document) : ComposerDraftStore :=
  match checked_successor (thread_revision s room_id root_event_id) ZERO with
  | inl revision => (apply_thread_draft s room_id root_event_id document revision).1
  | inr _ => s
  end.

Definition Advance : Type := ComposerDraftStore * (ComposerDraftRevision + ComposerDraftRevisionError).

Definition advance_room_revision (s : ComposerDraftStore) (room_id : string)
    (submitted_revision : ComposerDraftRevision) : Advance :=
  let current_revision := room_revision s room_id in
  match checked_successor current_revision submitted_revision with
  | inr e => (s, inr e)
  | inl revision =>
      let s :=
        if (current_revision <=? submitted_revision)%Z then
          s <| rooms ::= delete room_id |> <| room_assistant_markers ::= delete room_id |>
            <| room_last_accepted_clear_revisions ::= <[room_id := revision]> |>
        else s in
      (settle_room_lru (s <| room_revisions ::= <[room_id := revision]> |>) room_id, inl revision)
  end.

Definition advance_thread_revision (s : ComposerDraftStore) (room_id root_event_id : string)
    (submitted_revision : ComposerDraftRevision) : Advance :=
  let current_revision := thread_revision s room_id root_event_id in
  match checked_successor current_revision submitted_revision with
  | inr e => (s, inr e)
  | inl revision =>
      let s :=
        if (current_revision <=? submitted_revision)%Z then
          (remove_thread_content s room_id root_event_id)
            <| thread_last_accepted_clear_revisions ::=
                 fun m => nested_insert m room_id root_event_id revision |>
        else s in
      (settle_thread_lru
         (s <| thread_revisions ::= fun m => nested_insert m room_id root_event_id revision |>)
         room_id root_event_id, inl revision)
  end.

Definition settle_room_revision (s : ComposerDraftStore) (room_id : string)
    (submitted_revision : ComposerDraftRevision) : Advance :=
  match checked_successor (room_revision s room_id) submitted_revision with
  | inr e => (s, inr e)
  | inl revision =>
      (settle_room_lru (s <| room_revisions ::= <[room_id := revision]> |>) room_id, inl revision)
  end.

Definition settle_thread_revision (s : ComposerDraftStore) (room_id root_event_id : string)
    (submitted_revision : ComposerDraftRevision) : Advance :=
  match checked_successor (thread_revision s room_id root_event_id) submitted_revision with
  | inr e => (s, inr e)
  | inl revision =>
      (settle_thread_lru
         (s <| thread_revisions ::= fun m => nested_insert m room_id root_event_id revision |>)
         room_id root_event_id, inl revision)
  end.

Definition clear_room_draft (s : ComposerDraftStore) (room_id : string) : ComposerDraftStore :=
  remove_room_from_lru
    (s <| rooms ::= delete room_id |> <| room_assistant_markers ::= delete room_id |>
       <| room_revisions ::= delete room_id |>
       <| room_last_accepted_clear_revisions ::= delete room_id |>) room_id.

Definition clear_thread_draft (s : ComposerDraftStore) (room_id root_event_id : string) :
    ComposerDraftStore :=
  remove_thread_from_lru
    ((remove_thread_content s room_id root_event_id)
       <| thread_revisions ::= fun m => remove_nested_entry m room_id root_event_id |>
       <| thread_last_accepted_clear_revisions ::=
            fun m => remove_nested_entry m room_id root_event_id |>)
    room_id root_event_id.

Definition stage_assistant_draft (s : ComposerDraftStore) (target : ComposerTarget)
    (document : Document) (client_name : string) :
    ComposerDraftStore * option ComposerDraftRevision :=
  if document_is_empty document || negb (target_is_empty s target) then (s, None)
  else
    let current :=
      match target with
      | Main room_id => room_revision s room_id
      | Thread room_id root_event_id => thread_revision s room_id root_event_id
      end in
    match checked_successor current ZERO with
    | inr _ => (s, None)
    | inl revision =>
        let marker := {| client_name := client_name; marker_revision := revision |} in
        match target with
        | Main room_id =>
            match apply_room_draft s room_id document revision with
            | (s, inl true) => (s <| room_assistant_markers ::= <[room_id := marker]> |>, Some revision)
            | (s, _) => (s, None)
            end
        | Thread room_id root_event_id =>
            match apply_thread_draft s room_id root_event_id document revision with
            | (s, inl true) =>
                (s <| thread_assistant_markers ::=
                        fun m => nested_insert m room_id root_event_id marker |>, Some revision)
            | (s, _) => (s, None)
            end
        end
    end.

Definition dismiss_assistant_marker (s : ComposerDraftStore) (target : ComposerTarget) :
    ComposerDraftStore * bool :=
  match target with
  | Main room_id =>
      (s <| room_assistant_markers ::= delete room_id |>,
       contains_key (room_assistant_markers s) room_id)
  | Thread room_id root_event_id => remove_thread_assistant_marker s room_id root_event_id
  end.

Definition retain_keys {A} (room_ids : gset string) (m : gmap string A) : gmap string A :=
  filter (fun kv => kv.1 ∈ room_ids) m.
Definition retain_nested {A} (room_ids : gset string) (m : Nested A) : Nested A :=
  filter (fun kv => kv.1 ∈ room_ids /\ kv.2 <> ∅) m.

Definition retain_rooms (s : ComposerDraftStore) (room_ids : gset string) : ComposerDraftStore :=
  {| rooms := retain_keys room_ids (rooms s);
     threads := retain_nested room_ids (threads s);
     room_revisions := retain_keys room_ids (room_revisions s);
     thread_revisions := retain_nested room_ids (thread_revisions s);
     room_last_accepted_clear_revisions := retain_keys room_ids (room_last_accepted_clear_revisions s);
     thread_last_accepted_clear_revisions :=
       retain_nested room_ids (thread_last_accepted_clear_revisions s);
     quiescent_room_lru := filter (fun r => r ∈ room_ids) (quiescent_room_lru s);
     quiescent_thread_lru := filter (fun t => t.1 ∈ room_ids) (quiescent_thread_lru s);
     room_assistant_markers := retain_keys room_ids (room_assistant_markers s);
     thread_assistant_markers := retain_nested room_ids (thread_assistant_markers s) |}.

(** * Eviction of tombstones *)

Definition target_is_touch_protected (p : ComposerDraftProtection) (t : ComposerTarget) : bool :=
  bool_decide (t ∈ active p) || bool_decide (t ∈ leased p).
Definition target_is_protected (p : ComposerDraftProtection) (t : ComposerTarget) : bool :=
  target_is_touch_protected p t || bool_decide (t ∈ store_pending p).

Section evict.
Context {K S : Type} (is_protected : K -> bool) (maximum : nat).
Context (lru : S -> list K) (set_lru : list K -> S -> S) (forget : K -> S -> S).

Definition unprotected (l : list K) : list K := filter (fun k => is_protected k = false) l.

(** [while unprotected > maximum { remove the first unprotected; forget it }] *)
Fixpoint evict_loop (fuel : nat) (s : S) : option S :=
  match fuel with
  | O => None
  | Datatypes.S fuel =>
      if (maximum <? length (unprotected (lru s)))%nat then
        match position (fun k => negb (is_protected k)) (lru s) with
        | None => Some s
        | Some index =>
            match lru s !! index with
            | None => Some s
            | Some k => evict_loop fuel (forget k (set_lru (delete index (lru s)) s))
            end
        end
      else Some s
  end.
End evict.

Definition forget_room (room_id : string) (s : ComposerDraftStore) : ComposerDraftStore :=
  if contains_key (rooms s) room_id then s
  else s <| room_revisions ::= delete room_id |>
         <| room_last_accepted_clear_revisions ::= delete room_id |>.
Definition forget_thread (t : ThreadKey) (s : ComposerDraftStore) : ComposerDraftStore :=
  if nested_contains (threads s) t.1 t.2 then s
  else s <| thread_revisions ::= fun m => remove_nested_entry m t.1 t.2 |>
         <| thread_last_accepted_clear_revisions ::= fun m => remove_nested_entry m t.1 t.2 |>.

(** The keys of a nested map in the order the code iterates them. *)
Definition nested_keys {A} (m : Nested A) : list ThreadKey :=
  mjoin ((fun '(room_id, values) => (fun root => (room_id, root)) <$> (btree_iter values).*1)
         <$> btree_iter m).

Definition thread_target (t : ThreadKey) : ComposerTarget := Thread t.1 t.2.

(** Drop queue entries that are no tombstones and append the tombstones that are missing. *)
Definition reconcile_queues (s : ComposerDraftStore) (protection : ComposerDraftProtection) :
    ComposerDraftStore :=
  let s := s <| quiescent_room_lru ::= filter (fun room_id =>
                  contains_key (room_revisions s) room_id = true
                  /\ contains_key (rooms s) room_id = false
                  /\ target_is_touch_protected protection (Main room_id) = false) |> in
  let s := s <| quiescent_thread_lru ::= filter (fun t =>
                  nested_contains (thread_revisions s) t.1 t.2 = true
                  /\ nested_contains (threads s) t.1 t.2 = false
                  /\ target_is_touch_protected protection (thread_target t) = false) |> in
  let missing_rooms := filter (fun room_id =>
    contains_key (rooms s) room_id = false /\ (room_id ∉ quiescent_room_lru s)
    /\ target_is_touch_protected protection (Main room_id) = false)
    ((btree_iter (room_revisions s)).*1) in
  let s := s <| quiescent_room_lru ::= fun l => l ++ missing_rooms |> in
  let missing_threads := filter (fun t =>
    nested_contains (threads s) t.1 t.2 = false /\ (t ∉ quiescent_thread_lru s)
    /\ target_is_touch_protected protection (thread_target t) = false)
    (nested_keys (thread_revisions s)) in
  s <| quiescent_thread_lru ::= fun l => l ++ missing_threads |>.

Definition evict_rooms (s : ComposerDraftStore) (protection : ComposerDraftProtection) :
    option ComposerDraftStore :=
  evict_loop (fun room_id => target_is_protected protection (Main room_id))
    MAX_LIVE_COMPOSER_ROOM_TOMBSTONES quiescent_room_lru
    (fun l s => s <| quiescent_room_lru := l |>) forget_room
    (S (length (quiescent_room_lru s))) s.
Definition evict_threads (s : ComposerDraftStore) (protection : ComposerDraftProtection) :
    option ComposerDraftStore :=
  evict_loop (fun t => target_is_protected protection (thread_target t))
    MAX_LIVE_COMPOSER_THREAD_TOMBSTONES quiescent_thread_lru
    (fun l s => s <| quiescent_thread_lru := l |>) forget_thread
    (S (length (quiescent_thread_lru s))) s.

Definition reconcile_lifecycle (s : ComposerDraftStore) (protection : ComposerDraftProtection) :
    option ComposerDraftStore :=
  s ← evict_rooms (reconcile_queues s protection) protection;
  evict_threads s protection.

Definition quiescent_room_tombstone_count (s : ComposerDraftStore) : nat :=
  length (filter (fun room_id => contains_key (rooms s) room_id = false)
            ((btree_iter (room_revisions s)).*1)).
Definition quiescent_thread_tombstone_count (s : ComposerDraftStore) : nat :=
  length (filter (fun t => nested_contains (threads s) t.1 t.2 = false)
            (nested_keys (thread_revisions s))).
