(* ===== verification/DraftPersistence.v ===== *)
(** Persisting composer drafts ([crates/koushi-state/src/state/timeline.rs],
    [persisted_projection] and [from_persisted_projection]): what a store exports, and the
    validation and import of an exported projection.

    Loops that fill a map under the keys of another map are written as maps over it. *)

From stdpp Require Import base list strings gmap.
From Stdlib Require Import ZArith Lia.
From S2P Require Import Prelude Text Markdown ComposerDocument DraftStore.
Local Open Scope string_scope.
Local Open Scope list_scope.
Local Set Warnings "-clear-no-such-hyp".

Record ComposerDraftPersistenceEntry := {
  content : option Document;
  revision : ComposerDraftRevision;
  entry_clear_revision : ComposerDraftRevision;
  assistant : option AssistantDraftMarker }.

Record ComposerDraftPersistenceProjection := {
  projected_rooms : gmap string ComposerDraftPersistenceEntry;
  projected_threads : Nested ComposerDraftPersistenceEntry;
  quiescent_room_order : list string;
  quiescent_thread_order : list ThreadKey;
  protected_empty_rooms : list string;
  protected_empty_threads : list ThreadKey }.

Inductive ComposerDraftPersistenceImportError := InvalidProjection.

(** * Ordered sets of thread keys *)

Definition thread_key_leb (x y : ThreadKey) : bool :=
  if String.eqb x.1 y.1 then String.leb x.2 y.2 else String.leb x.1 y.1.
Definition thread_set_iter (X : gset ThreadKey) : list ThreadKey := sort_by thread_key_leb (elements X).

(** * Trimming *)

Section trim.
Context {K : Type}.

Definition retain_newest (items : list K) (maximum : nat) : list K :=
  if (maximum <? length items)%nat then drop (length items - maximum) items else items.

Fixpoint retain_newest_eligible_loop (fuel : nat) (items : list K) (maximum : nat)
    (is_protected : K -> bool) : option (list K) :=
  match fuel with
  | O => None
  | S fuel =>
      if (maximum <? length (unprotected is_protected items))%nat then
        match position (fun item => negb (is_protected item)) items with
        | None => Some items
        | Some index => retain_newest_eligible_loop fuel (delete index items) maximum is_protected
        end
      else Some items
  end.
Definition retain_newest_eligible (items : list K) (maximum : nat) (is_protected : K -> bool) :
    option (list K) :=
  retain_newest_eligible_loop (S (length items)) items maximum is_protected.

(** The first pass over the queue and the second over the set of all keys: what qualifies
    and was not seen, in order. *)
Definition quiescent_order `{Countable K} (all : list K) (lru : list K) (eligible : K -> bool) : list K :=
  let first := foldl (fun order k =>
    if bool_decide (k ∈ all) && eligible k && negb (bool_decide (k ∈ order)) then order ++ [k] else order)
    [] lru in
  foldl (fun order k =>
    if eligible k && negb (bool_decide (k ∈ order)) then order ++ [k] else order)
    first all.
End trim.

(** * Export *)

Definition main_rooms (ts : gset ComposerTarget) : gset string :=
  list_to_set (omap (fun t => match t with Main r => Some r | Thread _ _ => None end) (elements ts)).
Definition thread_targets (ts : gset ComposerTarget) : gset ThreadKey :=
  list_to_set (omap (fun t => match t with Main _ => None | Thread r e => Some (r, e) end) (elements ts)).

Definition room_has_content (s : ComposerDraftStore) (room_id : string) : bool :=
  is_some_and (rooms s !! room_id) (fun content => negb (document_is_empty content)).
Definition thread_has_content (s : ComposerDraftStore) (t : ThreadKey) : bool :=
  is_some_and (nested_get (threads s) t.1 t.2) (fun content => negb (document_is_empty content)).

Definition persisted_content (o : option Document) : option Document :=
  content ← o;
  if document_is_empty content then None
  else Some (truncated_to_plain_bytes content MAX_PERSISTED_COMPOSER_DRAFT_BYTES).

Definition room_entry (s : ComposerDraftStore) (room_id : string) : ComposerDraftPersistenceEntry :=
  {| content := persisted_content (rooms s !! room_id);
     revision := room_revision s room_id;
     entry_clear_revision := default ZERO (room_last_accepted_clear_revisions s !! room_id);
     assistant := room_assistant_marker s room_id |}.
Definition thread_entry (s : ComposerDraftStore) (t : ThreadKey) : ComposerDraftPersistenceEntry :=
  {| content := persisted_content (nested_get (threads s) t.1 t.2);
     revision := thread_revision s t.1 t.2;
     entry_clear_revision :=
       default ZERO (nested_get (thread_last_accepted_clear_revisions s) t.1 t.2);
     assistant := thread_assistant_marker s t.1 t.2 |}.

Definition nested_key_set {A} (m : Nested A) : gset ThreadKey := list_to_set (nested_keys m).

(** [threads.entry(room).or_default().insert(root, f(room, root))] over a list of keys. *)
Definition nested_of_keys {A} (f : ThreadKey -> A) (keys : list ThreadKey) : Nested A :=
  foldl (fun m t => nested_insert m t.1 t.2 (f t)) ∅ keys.

Definition persisted_projection (s : ComposerDraftStore) (protection : ComposerDraftProtection) :
    option ComposerDraftPersistenceProjection :=
  let touch_protected_targets := active protection ∪ leased protection in
  let protected_rooms := main_rooms touch_protected_targets in
  let protected_threads := thread_targets touch_protected_targets in
  let store_pending_rooms := main_rooms (store_pending protection) in
  let store_pending_threads := thread_targets (store_pending protection) in
  let all_room_ids :=
    dom (rooms s) ∪ dom (room_revisions s) ∪ dom (room_last_accepted_clear_revisions s)
    ∪ protected_rooms ∪ store_pending_rooms in
  quiescent_room_order ←
    retain_newest_eligible
      (quiescent_order (btree_set_iter all_room_ids) (quiescent_room_lru s) (fun room_id =>
         negb (room_has_content s room_id) && negb (bool_decide (room_id ∈ protected_rooms))))
      MAX_PERSISTED_COMPOSER_DRAFT_ROOM_COUNT
      (fun room_id => bool_decide (room_id ∈ store_pending_rooms));
  let protected_empty_rooms :=
    filter (fun room_id => room_has_content s room_id = false) (btree_set_iter protected_rooms) in
  let retained_rooms : gset string :=
    list_to_set (filter (fun room_id => room_has_content s room_id = true) ((btree_iter (rooms s)).*1)
                 ++ quiescent_room_order ++ protected_empty_rooms) in
  let all_thread_targets :=
    nested_key_set (threads s) ∪ nested_key_set (thread_revisions s)
    ∪ nested_key_set (thread_last_accepted_clear_revisions s)
    ∪ protected_threads ∪ store_pending_threads in
  quiescent_thread_order ←
    retain_newest_eligible
      (quiescent_order (thread_set_iter all_thread_targets) (quiescent_thread_lru s) (fun t =>
         negb (thread_has_content s t) && negb (bool_decide (t ∈ protected_threads))))
      MAX_PERSISTED_COMPOSER_DRAFT_THREAD_COUNT
      (fun t => bool_decide (t ∈ store_pending_threads));
  let protected_empty_threads :=
    filter (fun t => thread_has_content s t = false) (thread_set_iter protected_threads) in
  let retained_threads : gset ThreadKey :=
    list_to_set (filter (fun t => thread_has_content s t = true) (nested_keys (threads s))
                 ++ quiescent_thread_order ++ protected_empty_threads) in
  Some {| projected_rooms := set_to_map (fun room_id => (room_id, room_entry s room_id)) retained_rooms;
          projected_threads := nested_of_keys (thread_entry s) (thread_set_iter retained_threads);
          quiescent_room_order := quiescent_room_order;
          quiescent_thread_order := quiescent_thread_order;
          protected_empty_rooms := protected_empty_rooms;
          protected_empty_threads := protected_empty_threads |}.

(** * Validation and import *)

Definition entry_is_malformed (e : ComposerDraftPersistenceEntry) : bool :=
  (revision e <? entry_clear_revision e)%Z || is_some_and (content e) document_is_empty.
Definition entry_is_empty (e : ComposerDraftPersistenceEntry) : bool :=
  bool_decide (content e = None).

(** The two orders name every empty key exactly once. *)
Definition orders_are_exact `{Countable K} (quiescent protected : list K) (empty : gset K) : bool :=
  let quiescent_set : gset K := list_to_set quiescent in
  let protected_set : gset K := list_to_set protected in
  bool_decide (size quiescent_set = length quiescent)
  && bool_decide (size protected_set = length protected)
  && bool_decide (quiescent_set ## protected_set)
  && bool_decide (quiescent_set ∪ protected_set = empty).

Definition validate_persisted_projection (p : ComposerDraftPersistenceProjection) :
    option ComposerDraftPersistenceImportError :=
  let empty_rooms : gset string :=
    dom (filter (fun kv => entry_is_malformed kv.2 = false /\ entry_is_empty kv.2 = true)
           (projected_rooms p)) in
  if existsb (fun kv => entry_is_malformed kv.2) (map_to_list (projected_rooms p))
  then Some InvalidProjection
  else if negb (orders_are_exact (quiescent_room_order p) (protected_empty_rooms p) empty_rooms)
  then Some InvalidProjection
  else if existsb (fun kv : string * gmap string ComposerDraftPersistenceEntry =>
                     bool_decide (kv.2 = ∅)
                     || existsb (fun kv => entry_is_malformed kv.2) (map_to_list kv.2))
            (map_to_list (projected_threads p))
  then Some InvalidProjection
  else
    let empty_threads : gset ThreadKey :=
      list_to_set (filter (fun t => is_some_and (nested_get (projected_threads p) t.1 t.2)
                                      entry_is_empty = true)
                     (nested_keys (projected_threads p))) in
    if negb (orders_are_exact (quiescent_thread_order p) (protected_empty_threads p) empty_threads)
    then Some InvalidProjection else None.

(** What an entry leaves in the store; nothing for a tombstone that is not retained. *)
Definition keeps_entry (retained : bool) (e : ComposerDraftPersistenceEntry) : bool :=
  negb (entry_is_empty e) || retained.
Definition imported_content (e : ComposerDraftPersistenceEntry) : option Document :=
  (fun c => truncated_to_plain_bytes c MAX_PERSISTED_COMPOSER_DRAFT_BYTES) <$> content e.
Definition imported_marker (e : ComposerDraftPersistenceEntry) : option AssistantDraftMarker :=
  _ ← content e; assistant e.
Definition imported_revision (retained : bool) (e : ComposerDraftPersistenceEntry) :
    option ComposerDraftRevision :=
  if keeps_entry retained e then Some (revision e) else None.
Definition imported_clear_revision (retained : bool) (e : ComposerDraftPersistenceEntry) :
    option ComposerDraftRevision :=
  if keeps_entry retained e && negb (is_zero (entry_clear_revision e))
  then Some (entry_clear_revision e) else None.

(** Fill a nested map under the keys of another; a room with no entry gets no inner map. *)
Definition nested_imap {A B} (f : ThreadKey -> A -> option B) (m : Nested A) : Nested B :=
  map_imap (fun room_id values =>
    let values := map_imap (fun root x => f (room_id, root) x) values in
    if decide (values = ∅) then None else Some values) m.

Definition from_persisted_projection (p : ComposerDraftPersistenceProjection) :
    ComposerDraftStore + ComposerDraftPersistenceImportError :=
  match validate_persisted_projection p with
  | Some e => inr e
  | None =>
      let room_order :=
        retain_newest (quiescent_room_order p ++ sort_by String.leb (protected_empty_rooms p))
          MAX_PERSISTED_COMPOSER_DRAFT_ROOM_COUNT in
      let thread_order :=
        retain_newest (quiescent_thread_order p ++ sort_by thread_key_leb (protected_empty_threads p))
          MAX_PERSISTED_COMPOSER_DRAFT_THREAD_COUNT in
      let room_retained r := bool_decide (r ∈ room_order) in
      let thread_retained t := bool_decide (t ∈ thread_order) in
      inl {| rooms := omap imported_content (projected_rooms p);
             threads := nested_imap (fun _ => imported_content) (projected_threads p);
             room_revisions :=
               map_imap (fun r => imported_revision (room_retained r)) (projected_rooms p);
             thread_revisions :=
               nested_imap (fun t => imported_revision (thread_retained t)) (projected_threads p);
             room_last_accepted_clear_revisions :=
               map_imap (fun r => imported_clear_revision (room_retained r)) (projected_rooms p);
             thread_last_accepted_clear_revisions :=
               nested_imap (fun t => imported_clear_revision (thread_retained t)) (projected_threads p);
             quiescent_room_lru := room_order;
             quiescent_thread_lru := thread_order;
             room_assistant_markers := omap imported_marker (projected_rooms p);
             thread_assistant_markers := nested_imap (fun _ => imported_marker) (projected_threads p) |}
  end.
