(* ===== verification/DraftProps.v ===== *)
(** The draft store against its abstract specification: one slot per composer target.

    A slot holds the content, the revision, the revision of the last accepted clear and the
    assistant marker of a room or thread composer; a queue orders the tombstones.  Every
    operation of the store is an operation on one slot. *)

From stdpp Require Import base list strings gmap.
From Stdlib Require Import ZArith Lia.
From S2P Require Import Prelude Text Markdown ComposerDocument DraftStore.
Local Open Scope string_scope.
Local Open Scope list_scope.
Local Set Warnings "-clear-no-such-hyp".

(** * Nested maps *)

Section nested.
Context {A : Type}.
Implicit Types m : gmap string (gmap string A).

Lemma nested_get_insert m r e r' e' x :
  nested_get (nested_insert m r e x) r' e' = if decide ((r', e') = (r, e)) then Some x else nested_get m r' e'.
Proof.
  unfold nested_get, nested_insert. destruct (decide (r' = r)) as [->|Hr].
  - rewrite lookup_insert_eq. cbn. destruct (decide (e' = e)) as [->|He].
    + rewrite lookup_insert_eq, decide_True by done. done.
    + rewrite lookup_insert_ne, decide_False by congruence. by destruct (m !! r).
  - rewrite lookup_insert_ne, decide_False by congruence. done.
Qed.

Lemma nested_get_remove m r e r' e' :
  nested_get (remove_nested_entry m r e) r' e' = if decide ((r', e') = (r, e)) then None else nested_get m r' e'.
Proof.
  unfold nested_get, remove_nested_entry. destruct (m !! r) as [inner|] eqn:E.
  - destruct (decide (r' = r)) as [->|Hr].
    + rewrite E. cbn. destruct (decide (delete e inner = ∅)) as [Hd|Hd].
      * rewrite lookup_delete_eq. cbn. case_decide; [done|].
        symmetry. destruct (inner !! e') as [x|] eqn:Ex; [|done].
        assert (Hx : delete e inner !! e' = Some x) by (rewrite lookup_delete_ne; congruence).
        by rewrite Hd, lookup_empty in Hx.
      * rewrite lookup_insert_eq. cbn. destruct (decide (e' = e)) as [->|He].
        -- by rewrite lookup_delete_eq, decide_True.
        -- rewrite lookup_delete_ne, decide_False by congruence. done.
    + case_decide; [|].
      all: rewrite ?lookup_delete_ne, ?lookup_insert_ne by done.
      all: by rewrite decide_False by congruence.
  - case_decide; [|done]. simplify_eq. by rewrite E.
Qed.

Lemma nested_get_retain X m r e :
  nested_get (retain_nested X m) r e = if decide (r ∈ X) then nested_get m r e else None.
Proof.
  unfold nested_get, retain_nested. destruct (m !! r) as [inner|] eqn:E.
  - destruct (decide (inner = ∅)) as [->|Hne].
    + rewrite map_lookup_filter_None_2; [by case_decide|]. right. intros x Hx [_ Hne]. by simplify_eq.
    + case_decide.
      * erewrite map_lookup_filter_Some_2; [done|done|done].
      * rewrite map_lookup_filter_None_2; [done|]. right. intros x Hx [? _]. done.
  - rewrite map_lookup_filter_None_2 by (by left). by case_decide.
Qed.

End nested.

Lemma lookup_retain {A} X (m : gmap string A) r :
  retain_keys X m !! r = if decide (r ∈ X) then m !! r else None.
Proof.
  unfold retain_keys. destruct (m !! r) as [x|] eqn:E.
  - case_decide; [by apply map_lookup_filter_Some_2|].
    apply map_lookup_filter_None_2. by right.
  - rewrite map_lookup_filter_None_2 by (by left). by case_decide.
Qed.

(** * Slots *)

Record Slot := {
  slot_content : option Document; slot_revision : option ComposerDraftRevision;
  slot_clear : option ComposerDraftRevision; slot_marker : option AssistantDraftMarker }.

#[export] Instance Slot_updatable : Updatable Slot := fun s =>
  {| slot_content := slot_content s; slot_revision := slot_revision s;
     slot_clear := slot_clear s; slot_marker := slot_marker s |}.

Definition slot_empty : Slot :=
  {| slot_content := None; slot_revision := None; slot_clear := None; slot_marker := None |}.

Definition slot (s : ComposerDraftStore) (t : ComposerTarget) : Slot :=
  match t with
  | Main r =>
      {| slot_content := rooms s !! r; slot_revision := room_revisions s !! r;
         slot_clear := room_last_accepted_clear_revisions s !! r;
         slot_marker := room_assistant_markers s !! r |}
  | Thread r e =>
      {| slot_content := nested_get (threads s) r e;
         slot_revision := nested_get (thread_revisions s) r e;
         slot_clear := nested_get (thread_last_accepted_clear_revisions s) r e;
         slot_marker := nested_get (thread_assistant_markers s) r e |}
  end.

(** The tombstone queues as one list of targets. *)
Definition queue (s : ComposerDraftStore) : list ComposerTarget :=
  (Main <$> quiescent_room_lru s) ++ (thread_target <$> quiescent_thread_lru s).

Definition revision_of (sl : Slot) : ComposerDraftRevision := default ZERO (slot_revision sl).

(** ** The operations on a slot *)

Definition slot_empty_content (sl : Slot) : Slot := sl <| slot_content := None |> <| slot_marker := None |>.

Definition slot_apply (d : Document) (r : ComposerDraftRevision) (sl : Slot) : Slot :=
  if (r <=? revision_of sl)%Z then sl
  else (if document_is_empty d then slot_empty_content sl else sl <| slot_content := Some d |>)
         <| slot_revision := Some r |>.

Definition slot_advance (submitted : ComposerDraftRevision) (sl : Slot) : Slot :=
  match checked_successor (revision_of sl) submitted with
  | inr _ => sl
  | inl r =>
      (if (revision_of sl <=? submitted)%Z
       then (slot_empty_content sl) <| slot_clear := Some r |> else sl) <| slot_revision := Some r |>
  end.

Definition slot_settle (submitted : ComposerDraftRevision) (sl : Slot) : Slot :=
  match checked_successor (revision_of sl) submitted with
  | inr _ => sl
  | inl r => sl <| slot_revision := Some r |>
  end.

Definition slot_stage (d : Document) (client : string) (sl : Slot) : Slot :=
  if document_is_empty d || bool_decide (is_Some (slot_content sl)) then sl
  else
    match checked_successor (revision_of sl) ZERO with
    | inr _ => sl
    | inl r =>
        (slot_apply d r sl) <| slot_marker := Some {| client_name := client; marker_revision := r |} |>
    end.

(** ** The operations of the store, by target *)

Definition apply_draft (s : ComposerDraftStore) (t : ComposerTarget) (d : Document)
    (r : ComposerDraftRevision) : Result :=
  match t with
  | Main room => apply_room_draft s room d r
  | Thread room root => apply_thread_draft s room root d r
  end.
Definition set_draft (s : ComposerDraftStore) (t : ComposerTarget) (d : Document) : ComposerDraftStore :=
  match t with Main room => set_room_draft s room d | Thread room root => set_thread_draft s room root d end.
Definition advance (s : ComposerDraftStore) (t : ComposerTarget) (r : ComposerDraftRevision) : Advance :=
  match t with
  | Main room => advance_room_revision s room r
  | Thread room root => advance_thread_revision s room root r
  end.
Definition settle (s : ComposerDraftStore) (t : ComposerTarget) (r : ComposerDraftRevision) : Advance :=
  match t with
  | Main room => settle_room_revision s room r
  | Thread room root => settle_thread_revision s room root r
  end.
Definition clear_draft (s : ComposerDraftStore) (t : ComposerTarget) : ComposerDraftStore :=
  match t with Main room => clear_room_draft s room | Thread room root => clear_thread_draft s room root end.

(** An operation rewrites the slot of its target with [f] and no other slot. *)
Definition rewrites (s s' : ComposerDraftStore) (t : ComposerTarget) (f : Slot -> Slot) : Prop :=
  forall t', slot s' t' = if decide (t' = t) then f (slot s t) else slot s t'.

Lemma room_revision_slot s r : room_revision s r = revision_of (slot s (Main r)).
Proof. done. Qed.
Lemma thread_revision_slot s r e : thread_revision s r e = revision_of (slot s (Thread r e)).
Proof. done. Qed.

(** The queue operations change no slot. *)
Lemma slot_settle_room_lru s r t : slot (settle_room_lru s r) t = slot s t.
Proof. unfold settle_room_lru. by destruct (contains_key _ _), t. Qed.
Lemma slot_settle_thread_lru s r e t : slot (settle_thread_lru s r e) t = slot s t.
Proof. unfold settle_thread_lru. by destruct (nested_contains _ _ _), t. Qed.

Lemma slot_ext sl sl' :
  slot_content sl = slot_content sl' -> slot_revision sl = slot_revision sl' ->
  slot_clear sl = slot_clear sl' -> slot_marker sl = slot_marker sl' -> sl = sl'.
Proof. destruct sl, sl'; cbn. congruence. Qed.

(** Compare two slots field by field after an update of the maps. *)
Ltac slot_maps :=
  repeat (case_decide; simplify_eq); try done; apply slot_ext; cbn;
  rewrite ?nested_get_insert, ?nested_get_remove;
  rewrite ?lookup_insert_eq, ?lookup_delete_eq;
  rewrite ?lookup_insert_ne, ?lookup_delete_ne by congruence;
  repeat (case_decide; simplify_eq); try congruence; done.

Lemma apply_draft_rewrites s t d r : rewrites s (apply_draft s t d r).1 t (slot_apply d r).
Proof.
  intros t'. unfold slot_apply. destruct t as [room|room root]; cbn [apply_draft].
  - unfold apply_room_draft. rewrite room_revision_slot.
    destruct (r <=? _)%Z; [case_decide; by subst|]. cbn [fst].
    destruct (document_is_empty d), t' as [room'|room' root']; cbn; slot_maps.
  - unfold apply_thread_draft. rewrite thread_revision_slot.
    destruct (r <=? _)%Z; [case_decide; by subst|]. cbn [fst].
    destruct (document_is_empty d), t' as [room'|room' root']; cbn; slot_maps.
Qed.

Lemma set_draft_rewrites s t d :
  rewrites s (set_draft s t d) t (fun sl =>
    match checked_successor (revision_of sl) ZERO with
    | inl r => slot_apply d r sl | inr _ => sl end).
Proof.
  intros t'. destruct t as [room|room root]; cbn [set_draft];
    [unfold set_room_draft; rewrite room_revision_slot
    |unfold set_thread_draft; rewrite thread_revision_slot];
    (destruct (checked_successor _ _) as [r|]; [|case_decide; by subst]);
    [apply (apply_draft_rewrites s (Main room))|apply (apply_draft_rewrites s (Thread room root))].
Qed.

Lemma advance_rewrites s t r : rewrites s (advance s t r).1 t (slot_advance r).
Proof.
  intros t'. unfold slot_advance. destruct t as [room|room root]; cbn [advance].
  - unfold advance_room_revision. rewrite room_revision_slot.
    destruct (checked_successor _ _) as [n|]; cbn [fst]; [|case_decide; by subst].
    rewrite slot_settle_room_lru. destruct (_ <=? _)%Z, t' as [room'|room' root']; cbn; slot_maps.
  - unfold advance_thread_revision. rewrite thread_revision_slot.
    destruct (checked_successor _ _) as [n|]; cbn [fst]; [|case_decide; by subst].
    rewrite slot_settle_thread_lru. destruct (_ <=? _)%Z, t' as [room'|room' root']; cbn; slot_maps.
Qed.

Lemma settle_rewrites s t r : rewrites s (settle s t r).1 t (slot_settle r).
Proof.
  intros t'. unfold slot_settle. destruct t as [room|room root]; cbn [settle].
  - unfold settle_room_revision. rewrite room_revision_slot.
    destruct (checked_successor _ _) as [n|]; cbn [fst]; [|case_decide; by subst].
    rewrite slot_settle_room_lru. destruct t' as [room'|room' root']; cbn; slot_maps.
  - unfold settle_thread_revision. rewrite thread_revision_slot.
    destruct (checked_successor _ _) as [n|]; cbn [fst]; [|case_decide; by subst].
    rewrite slot_settle_thread_lru. destruct t' as [room'|room' root']; cbn; slot_maps.
Qed.

Lemma clear_draft_rewrites s t : rewrites s (clear_draft s t) t (fun _ => slot_empty).
Proof. intros t'. destruct t, t'; cbn; slot_maps. Qed.

Lemma dismiss_rewrites s t :
  rewrites s (dismiss_assistant_marker s t).1 t (fun sl => sl <| slot_marker := None |>).
Proof. intros t'. destruct t, t'; cbn; slot_maps. Qed.

Lemma target_is_empty_slot s t : target_is_empty s t = negb (bool_decide (is_Some (slot_content (slot s t)))).
Proof. by destruct t. Qed.

Lemma apply_draft_fresh s t d r :
  (revision_of (slot s t) < r)%Z -> exists s', apply_draft s t d r = (s', inl true).
Proof.
  intros Hr. destruct t as [room|room root]; cbn [apply_draft].
  - unfold apply_room_draft. rewrite room_revision_slot, (proj2 (Z.leb_gt _ _) Hr). by eexists.
  - unfold apply_thread_draft. rewrite thread_revision_slot, (proj2 (Z.leb_gt _ _) Hr). by eexists.
Qed.

Lemma checked_successor_spec a b n :
  checked_successor a b = inl n -> n = (Z.max a b + 1)%Z /\ (n <= U128_MAX)%Z.
Proof. unfold checked_successor. case_decide; by intros [= <-]. Qed.

Definition set_marker (s : ComposerDraftStore) (t : ComposerTarget) (m : AssistantDraftMarker) :
    ComposerDraftStore :=
  match t with
  | Main room => s <| room_assistant_markers ::= <[room := m]> |>
  | Thread room root => s <| thread_assistant_markers ::= fun ms => nested_insert ms room root m |>
  end.

Lemma set_marker_rewrites s t m : rewrites s (set_marker s t m) t (fun sl => sl <| slot_marker := Some m |>).
Proof. intros t'. destruct t, t'; cbn; slot_maps. Qed.

Lemma stage_by_target s t d client :
  stage_assistant_draft s t d client =
    if document_is_empty d || bool_decide (is_Some (slot_content (slot s t))) then (s, None)
    else
      match checked_successor (revision_of (slot s t)) ZERO with
      | inr _ => (s, None)
      | inl r =>
          match apply_draft s t d r with
          | (s', inl true) =>
              (set_marker s' t {| client_name := client; marker_revision := r |}, Some r)
          | (s', _) => (s', None)
          end
      end.
Proof.
  unfold stage_assistant_draft. rewrite target_is_empty_slot, negb_involutive. by destruct t.
Qed.

Lemma stage_rewrites s t d client :
  rewrites s (stage_assistant_draft s t d client).1 t (slot_stage d client).
Proof.
  intros t'. rewrite stage_by_target. unfold slot_stage.
  destruct (document_is_empty d || _); [case_decide; by subst|].
  destruct (checked_successor _ _) as [n|] eqn:En; [|case_decide; by subst].
  apply checked_successor_spec in En as [Hn _].
  destruct (apply_draft_fresh s t d n) as [s' Hs']; [lia|].
  pose proof (apply_draft_rewrites s t d n) as Hrw. rewrite Hs' in Hrw |- *. cbn [fst] in *.
  rewrite set_marker_rewrites. case_decide; subst; rewrite Hrw;
    [by rewrite decide_True|by rewrite decide_False].
Qed.

(** * Well-formed stores *)

(** A slot without content may be a tombstone; content, a clear and a marker need a
    revision. *)
Record slot_wf (sl : Slot) : Prop := {
  wf_content d : slot_content sl = Some d -> document_is_empty d = false /\ is_Some (slot_revision sl);
  wf_clear c : slot_clear sl = Some c -> exists r, slot_revision sl = Some r /\ (c <= r)%Z;
  wf_marker : is_Some (slot_marker sl) -> is_Some (slot_content sl);
}.

(** Nobody writes an empty text into a document, as [ComposerDocument::new] sees to. *)
Record store_wf (s : ComposerDraftStore) : Prop := {
  wf_slots t : slot_wf (slot s t);
  wf_queue_distinct : NoDup (queue s);
  wf_queue t : t ∈ queue s -> slot_content (slot s t) = None /\ is_Some (slot_revision (slot s t));
}.

Lemma slot_wf_raise sl r :
  slot_wf sl -> (revision_of sl < r)%Z -> slot_wf (sl <| slot_revision := Some r |>).
Proof.
  intros [Hc Hcl Hm] Hr. constructor; cbn.
  - intros d Hd. split; [by apply Hc|eauto].
  - intros c (r0 & Hr0 & Hle)%Hcl. unfold revision_of in Hr. rewrite Hr0 in Hr. cbn in Hr.
    eexists; split; [done|lia].
  - done.
Qed.

Lemma slot_wf_emptied sl : slot_wf sl -> slot_wf (slot_empty_content sl).
Proof. intros [Hc Hcl Hm]. constructor; cbn; [done|done|by intros [? [=]]]. Qed.

Lemma slot_wf_content sl d :
  slot_wf sl -> document_is_empty d = false -> is_Some (slot_revision sl) ->
  slot_wf (sl <| slot_content := Some d |>).
Proof. intros [Hc Hcl Hm] Hd Hr. constructor; cbn; [by intros ? [= <-]|done|eauto]. Qed.

Lemma slot_wf_apply d r sl : slot_wf sl -> slot_wf (slot_apply d r sl).
Proof.
  intros Hw. unfold slot_apply. destruct (r <=? _)%Z eqn:E; [done|]. apply Z.leb_gt in E.
  destruct (document_is_empty d) eqn:Ed.
  - apply slot_wf_raise; [by apply slot_wf_emptied|done].
  - change (slot_wf (sl <| slot_revision := Some r |> <| slot_content := Some d |>)).
    apply slot_wf_content; [by apply slot_wf_raise|done|by eexists].
Qed.

Lemma slot_wf_advance r sl : slot_wf sl -> slot_wf (slot_advance r sl).
Proof.
  intros Hw. unfold slot_advance. destruct (checked_successor _ _) as [n|] eqn:En; [|done].
  apply checked_successor_spec in En as [Hn _].
  destruct (_ <=? r)%Z; [|apply slot_wf_raise; [done|lia]].
  destruct Hw as [Hc Hcl Hm]. constructor; cbn; [done|intros c [= <-]; by eexists|by intros [? [=]]].
Qed.

Lemma slot_wf_settle r sl : slot_wf sl -> slot_wf (slot_settle r sl).
Proof.
  intros Hw. unfold slot_settle. destruct (checked_successor _ _) as [n|] eqn:En; [|done].
  apply checked_successor_spec in En as [Hn _]. apply slot_wf_raise; [done|lia].
Qed.

Lemma slot_wf_stage d client sl : slot_wf sl -> slot_wf (slot_stage d client sl).
Proof.
  intros Hw. unfold slot_stage. destruct (_ || _) eqn:E; [done|]. apply orb_false_iff in E as [Ed _].
  destruct (checked_successor _ _) as [n|] eqn:En; [|done].
  apply checked_successor_spec in En as [Hn _].
  pose proof (slot_wf_apply d n sl Hw) as [Hc Hcl Hm].
  constructor; [exact Hc|exact Hcl|intros _]. cbn. unfold slot_apply. rewrite (proj2 (Z.leb_gt _ _)), Ed by lia.
  by eexists.
Qed.

Lemma slot_wf_empty : slot_wf slot_empty.
Proof. constructor; cbn; [done|done|by intros [? [=]]]. Qed.

Lemma slot_wf_unmarked sl : slot_wf sl -> slot_wf (sl <| slot_marker := None |>).
Proof. intros [Hc Hcl Hm]. constructor; cbn; [done|done|by intros [? [=]]]. Qed.

(** ** The queue *)

Lemma main_thread_disjoint (l : list string) (l' : list ThreadKey) t :
  t ∈ Main <$> l -> t ∉ thread_target <$> l'.
Proof.
  intros (r & -> & _)%list_elem_of_fmap (k & Hk & _)%list_elem_of_fmap. discriminate Hk.
Qed.

Lemma thread_target_inj : Inj (=) (=) thread_target.
Proof. intros [] []. cbn. by intros [= -> ->]. Qed.

Lemma elem_of_queue_main s r : Main r ∈ queue s <-> r ∈ quiescent_room_lru s.
Proof.
  unfold queue. rewrite elem_of_app. split.
  - intros [H|H]; [by apply list_elem_of_fmap in H as (? & [= ->] & ?)|].
    apply list_elem_of_fmap in H as ([] & Hk & _). discriminate Hk.
  - intros H. left. by apply list_elem_of_fmap_2.
Qed.

Lemma elem_of_queue_thread s r e : Thread r e ∈ queue s <-> (r, e) ∈ quiescent_thread_lru s.
Proof.
  unfold queue. rewrite elem_of_app. split.
  - intros [H|H]; [by apply list_elem_of_fmap in H as (? & ? & _)|].
    apply list_elem_of_fmap in H as ([r0 e0] & Hk & ?). by injection Hk as -> ->.
  - intros H. right. by apply (list_elem_of_fmap_2 thread_target _ (r, e)).
Qed.

Lemma NoDup_queue s : NoDup (queue s) <-> NoDup (quiescent_room_lru s) /\ NoDup (quiescent_thread_lru s).
Proof.
  unfold queue. rewrite NoDup_app. split.
  - intros (H1 & _ & H2). split; by eapply NoDup_fmap_1.
  - intros [H1 H2]. split_and!.
    + apply NoDup_fmap_2; [by intros ?? [= ->]|done].
    + intros t. apply main_thread_disjoint.
    + apply NoDup_fmap_2; [apply thread_target_inj|done].
Qed.

Lemma wf_of_queue s :
  (forall t, slot_wf (slot s t)) -> NoDup (quiescent_room_lru s) -> NoDup (quiescent_thread_lru s) ->
  (forall r, r ∈ quiescent_room_lru s -> rooms s !! r = None /\ is_Some (room_revisions s !! r)) ->
  (forall r e, (r, e) ∈ quiescent_thread_lru s ->
     nested_get (threads s) r e = None /\ is_Some (nested_get (thread_revisions s) r e)) ->
  store_wf s.
Proof.
  intros Hs H1 H2 Hr Ht. constructor; [done|by apply NoDup_queue|].
  intros [r|r e]; [rewrite elem_of_queue_main; apply Hr|rewrite elem_of_queue_thread; apply Ht].
Qed.

(** A target leaves the queue, or moves to its end. *)
Definition dequeued (s s' : ComposerDraftStore) (t : ComposerTarget) : Prop :=
  NoDup (queue s) -> NoDup (queue s') /\ forall t', t' ∈ queue s' <-> t' <> t /\ t' ∈ queue s.
Definition touched (s s' : ComposerDraftStore) (t : ComposerTarget) : Prop :=
  NoDup (queue s) -> NoDup (queue s') /\ forall t', t' ∈ queue s' <-> t' = t \/ t' ∈ queue s.

Lemma NoDup_touch {K} `{EqDecision K} (l : list K) k : NoDup l -> NoDup (filter (fun x => x <> k) l ++ [k]).
Proof.
  intros Hl. apply NoDup_app. split_and!; [by apply NoDup_filter| |apply NoDup_singleton].
  intros x [Hx _]%list_elem_of_filter ->%list_elem_of_singleton. done.
Qed.

Lemma elem_of_touch {K} `{EqDecision K} (l : list K) k x : x ∈ filter (fun x => x <> k) l ++ [k] <-> x = k \/ x ∈ l.
Proof.
  rewrite elem_of_app, list_elem_of_filter, list_elem_of_singleton.
  destruct (decide (x = k)); naive_solver.
Qed.

Lemma dequeued_room s r : dequeued s (remove_room_from_lru s r) (Main r).
Proof.
  intros [H1 H2]%NoDup_queue. split; [apply NoDup_queue; split; [by apply NoDup_filter|done]|].
  intros [r'|r' e'].
  - rewrite !elem_of_queue_main. cbn. rewrite list_elem_of_filter. naive_solver.
  - rewrite !elem_of_queue_thread. cbn. naive_solver.
Qed.

Lemma dequeued_thread s r e : dequeued s (remove_thread_from_lru s r e) (Thread r e).
Proof.
  intros [H1 H2]%NoDup_queue. split; [apply NoDup_queue; split; [done|by apply NoDup_filter]|].
  intros [r'|r' e'].
  - rewrite !elem_of_queue_main. cbn. naive_solver.
  - rewrite !elem_of_queue_thread. cbn. rewrite list_elem_of_filter. naive_solver.
Qed.

Lemma touched_room s r : touched s (touch_quiescent_room s r) (Main r).
Proof.
  intros [H1 H2]%NoDup_queue. split; [apply NoDup_queue; split; [by apply NoDup_touch|done]|].
  intros [r'|r' e'].
  - rewrite !elem_of_queue_main. cbn. rewrite elem_of_touch. naive_solver.
  - rewrite !elem_of_queue_thread. cbn. naive_solver.
Qed.

Lemma touched_thread s r e : touched s (touch_quiescent_thread s r e) (Thread r e).
Proof.
  intros [H1 H2]%NoDup_queue. split; [apply NoDup_queue; split; [done|by apply NoDup_touch]|].
  intros [r'|r' e'].
  - rewrite !elem_of_queue_main. cbn. naive_solver.
  - rewrite !elem_of_queue_thread. cbn. rewrite elem_of_touch. naive_solver.
Qed.

(** Only the queue of the store before matters. *)
Lemma touched_from s0 s s' t : queue s0 = queue s -> touched s s' t -> touched s0 s' t.
Proof. unfold touched. by intros ->. Qed.
Lemma dequeued_from s0 s s' t : queue s0 = queue s -> dequeued s s' t -> dequeued s0 s' t.
Proof. unfold dequeued. by intros ->. Qed.

(** Rewriting one slot keeps the store well formed when the queue follows its content. *)
Lemma wf_rewrites s s' t f :
  rewrites s s' t f -> store_wf s -> slot_wf (f (slot s t)) ->
  dequeued s s' t
  \/ (touched s s' t /\ slot_content (f (slot s t)) = None /\ is_Some (slot_revision (f (slot s t)))) ->
  store_wf s'.
Proof.
  intros Hrw [Hs Hd Hq] Hf Hqueue.
  assert (Hslots : forall t', slot_wf (slot s' t')) by (intros t'; rewrite Hrw; by case_decide).
  destruct Hqueue as [Hde|(Hto & Hc & Hr)].
  - destruct (Hde Hd) as [Hd' Hin]. constructor; [done|done|].
    intros t' [Hne H]%Hin. rewrite Hrw, decide_False by done. by apply Hq.
  - destruct (Hto Hd) as [Hd' Hin]. constructor; [done|done|].
    intros t' [->|H]%Hin; rewrite Hrw; [by rewrite decide_True|]. case_decide; [done|by apply Hq].
Qed.

(** Without a change of the queue the slot must keep what the queue relies on. *)
Lemma wf_rewrites_same s s' t f :
  rewrites s s' t f -> store_wf s -> slot_wf (f (slot s t)) -> queue s' = queue s ->
  (t ∈ queue s -> slot_content (f (slot s t)) = None /\ is_Some (slot_revision (f (slot s t)))) ->
  store_wf s'.
Proof.
  intros Hrw [Hs Hd Hq] Hf Hqueue Hkeep. constructor.
  - intros t'. rewrite Hrw. by case_decide.
  - by rewrite Hqueue.
  - intros t'. rewrite Hqueue, Hrw. intros Ht'. case_decide; [subst; by apply Hkeep|by apply Hq].
Qed.

Lemma apply_draft_queue s t d r :
  (revision_of (slot s t) < r)%Z ->
  if document_is_empty d then touched s (apply_draft s t d r).1 t else dequeued s (apply_draft s t d r).1 t.
Proof.
  intros Hr. destruct t as [room|room root]; cbn [apply_draft].
  - unfold apply_room_draft. rewrite room_revision_slot, (proj2 (Z.leb_gt _ _) Hr). cbn [fst].
    destruct (document_is_empty d);
      [eapply touched_from; [|apply touched_room]|eapply dequeued_from; [|apply dequeued_room]]; done.
  - unfold apply_thread_draft. rewrite thread_revision_slot, (proj2 (Z.leb_gt _ _) Hr). cbn [fst].
    destruct (document_is_empty d);
      [eapply touched_from; [|apply touched_thread]|eapply dequeued_from; [|apply dequeued_thread]]; done.
Qed.

Lemma apply_draft_stale s t d r :
  (r <= revision_of (slot s t))%Z -> apply_draft s t d r = (s, inl false).
Proof.
  intros Hr. destruct t as [room|room root]; cbn [apply_draft].
  - unfold apply_room_draft. by rewrite room_revision_slot, (proj2 (Z.leb_le _ _) Hr).
  - unfold apply_thread_draft. by rewrite thread_revision_slot, (proj2 (Z.leb_le _ _) Hr).
Qed.

Lemma store_wf_apply s t d r : store_wf s -> store_wf (apply_draft s t d r).1.
Proof.
  intros Hw. destruct (decide (r <= revision_of (slot s t))%Z) as [Hr|Hr].
  { by rewrite apply_draft_stale. }
  pose proof (apply_draft_queue s t d r ltac:(lia)) as Hq.
  eapply wf_rewrites; [apply apply_draft_rewrites|done|apply slot_wf_apply, Hw|].
  unfold slot_apply. rewrite (proj2 (Z.leb_gt _ _)) by lia.
  destruct (document_is_empty d); [right|by left]. split_and!; [done|done|by eexists].
Qed.

Lemma store_wf_set s t d : store_wf s -> store_wf (set_draft s t d).
Proof.
  intros Hw. destruct t as [room|room root]; cbn [set_draft];
    [unfold set_room_draft|unfold set_thread_draft]; (destruct (checked_successor _ _) as [n|]; [|done]);
    [apply (store_wf_apply s (Main room)), Hw|apply (store_wf_apply s (Thread room root)), Hw].
Qed.

(** The queue after the writes that end in [settle_room_lru] or [settle_thread_lru]. *)
Definition settle_lru (s : ComposerDraftStore) (t : ComposerTarget) : ComposerDraftStore :=
  match t with Main r => settle_room_lru s r | Thread r e => settle_thread_lru s r e end.

Lemma slot_settle_lru s t t' : slot (settle_lru s t) t' = slot s t'.
Proof. destruct t; [apply slot_settle_room_lru|apply slot_settle_thread_lru]. Qed.

Lemma settle_lru_queue s0 s t :
  queue s0 = queue s ->
  (is_Some (slot_content (slot s t)) /\ dequeued s0 (settle_lru s t) t)
  \/ (slot_content (slot s t) = None /\ touched s0 (settle_lru s t) t).
Proof.
  intros Hq. destruct t as [r|r e]; cbn;
    [unfold settle_room_lru, contains_key|unfold settle_thread_lru, nested_contains];
    case_bool_decide as Hc;
    [left; split; [done|eapply dequeued_from; [done|apply dequeued_room]]
    |right; split; [by apply eq_None_not_Some|eapply touched_from; [done|apply touched_room]]
    |left; split; [done|eapply dequeued_from; [done|apply dequeued_thread]]
    |right; split; [by apply eq_None_not_Some|eapply touched_from; [done|apply touched_thread]]].
Qed.

(** Both ways to accept a send end that way. *)
Lemma advance_settles s t r n :
  checked_successor (revision_of (slot s t)) r = inl n ->
  exists s1, queue s1 = queue s /\ advance s t r = (settle_lru s1 t, inl n).
Proof.
  intros Hn. destruct t as [room|room root]; cbn [advance].
  - unfold advance_room_revision. rewrite room_revision_slot, Hn.
    eexists. split; [|reflexivity]. by destruct (_ <=? _)%Z.
  - unfold advance_thread_revision. rewrite thread_revision_slot, Hn.
    eexists. split; [|reflexivity]. by destruct (_ <=? _)%Z.
Qed.

Lemma settle_settles s t r n :
  checked_successor (revision_of (slot s t)) r = inl n ->
  exists s1, queue s1 = queue s /\ settle s t r = (settle_lru s1 t, inl n).
Proof.
  intros Hn. destruct t as [room|room root]; cbn [settle].
  - unfold settle_room_revision. rewrite room_revision_slot, Hn. eexists. by split; [|reflexivity].
  - unfold settle_thread_revision. rewrite thread_revision_slot, Hn. eexists. by split; [|reflexivity].
Qed.

Lemma wf_settled s s1 t f :
  rewrites s (settle_lru s1 t) t f -> queue s1 = queue s -> store_wf s -> slot_wf (f (slot s t)) ->
  is_Some (slot_revision (f (slot s t))) -> store_wf (settle_lru s1 t).
Proof.
  intros Hrw Hq Hw Hf Hr. eapply wf_rewrites; [done|done|done|].
  pose proof (Hrw t) as Ht. rewrite decide_True, slot_settle_lru in Ht by done.
  rewrite <-Ht in *.
  destruct (settle_lru_queue s s1 t) as [[_ H]|[Hc H]]; [done|by left|right; done].
Qed.

Lemma store_wf_advance s t r : store_wf s -> store_wf (advance s t r).1.
Proof.
  intros Hw. pose proof (advance_rewrites s t r) as Hrw.
  destruct (checked_successor (revision_of (slot s t)) r) as [n|] eqn:En.
  - destruct (advance_settles s t r n En) as (s1 & Hq & E). rewrite E in *.
    eapply wf_settled; [exact Hrw|done|done|apply slot_wf_advance, Hw|].
    unfold slot_advance. rewrite En. by eexists.
  - destruct t as [room|room root]; cbn [advance];
      [unfold advance_room_revision; by rewrite room_revision_slot, En
      |unfold advance_thread_revision; by rewrite thread_revision_slot, En].
Qed.

Lemma store_wf_settle s t r : store_wf s -> store_wf (settle s t r).1.
Proof.
  intros Hw. pose proof (settle_rewrites s t r) as Hrw.
  destruct (checked_successor (revision_of (slot s t)) r) as [n|] eqn:En.
  - destruct (settle_settles s t r n En) as (s1 & Hq & E). rewrite E in *.
    eapply wf_settled; [exact Hrw|done|done|apply slot_wf_settle, Hw|].
    unfold slot_settle. rewrite En. by eexists.
  - destruct t as [room|room root]; cbn [settle];
      [unfold settle_room_revision; by rewrite room_revision_slot, En
      |unfold settle_thread_revision; by rewrite thread_revision_slot, En].
Qed.

Lemma store_wf_clear s t : store_wf s -> store_wf (clear_draft s t).
Proof.
  intros Hw. eapply wf_rewrites; [apply clear_draft_rewrites|done|apply slot_wf_empty|left].
  destruct t; cbn [clear_draft]; [eapply dequeued_from; [|apply dequeued_room]|eapply dequeued_from; [|apply dequeued_thread]];
    done.
Qed.

Lemma store_wf_dismiss s t : store_wf s -> store_wf (dismiss_assistant_marker s t).1.
Proof.
  intros Hw. eapply wf_rewrites_same; [apply dismiss_rewrites|done|apply slot_wf_unmarked, Hw|by destruct t|].
  apply Hw.
Qed.

Lemma store_wf_stage s t d client : store_wf s -> store_wf (stage_assistant_draft s t d client).1.
Proof.
  intros Hw. rewrite stage_by_target. destruct (_ || _) eqn:E; [done|].
  apply orb_false_iff in E as [Ed Ec].
  destruct (checked_successor _ _) as [n|] eqn:En; [|done].
  apply checked_successor_spec in En as [Hn _].
  destruct (apply_draft_fresh s t d n) as [s' Hs']; [lia|].
  pose proof (store_wf_apply s t d n Hw) as Hw'.
  pose proof (apply_draft_rewrites s t d n t) as Hrw. rewrite decide_True in Hrw by done.
  pose proof (apply_draft_queue s t d n ltac:(lia)) as Hq. rewrite Ed in Hq.
  rewrite Hs' in *. cbn [fst] in *.
  assert (Hcontent : slot_content (slot s' t) = Some d).
  { rewrite Hrw. unfold slot_apply. by rewrite (proj2 (Z.leb_gt _ _)), Ed by lia. }
  eapply wf_rewrites_same; [apply set_marker_rewrites|done| |by destruct t|].
  - pose proof (wf_slots _ Hw' t) as [Hc Hcl Hm]. constructor; cbn; [done|done|by eexists].
  - intros Ht. apply (wf_queue _ Hw') in Ht. cbn. exact Ht.
Qed.

(** Leaving rooms. *)
#[local] Arguments retain_keys : simpl never.
#[local] Arguments retain_nested : simpl never.
Lemma slot_retain s X t :
  slot (retain_rooms s X) t = if decide (target_room_id t ∈ X) then slot s t else slot_empty.
Proof.
  destruct t as [r|r e]; cbn; apply slot_ext; cbn;
    rewrite ?lookup_retain, ?nested_get_retain; by case_decide.
Qed.

Lemma store_wf_retain s X : store_wf s -> store_wf (retain_rooms s X).
Proof.
  intros [Hs Hd Hq]. apply NoDup_queue in Hd as [H1 H2]. constructor.
  - intros t. rewrite slot_retain. case_decide; [done|apply slot_wf_empty].
  - apply NoDup_queue. split; by apply NoDup_filter.
  - intros t Ht. assert (t ∈ queue s /\ target_room_id t ∈ X) as [Ht' HX].
    { destruct t; rewrite ?elem_of_queue_main, ?elem_of_queue_thread in *;
        cbn in Ht; apply list_elem_of_filter in Ht as [? ?]; done. }
    rewrite slot_retain, decide_True by done. by apply Hq.
Qed.
