(* ===== verification/DraftEviction.v ===== *)
(** The life cycle of drafts: eviction of tombstones ends and is bounded, every run of the
    store stays well formed, and an accepted send stays ahead of delayed writes. *)

From stdpp Require Import base list strings gmap sorting.
From Stdlib Require Import ZArith Lia.
From S2P Require Import Prelude Text Markdown ComposerDocument DraftStore DraftProps.
Local Open Scope string_scope.
Local Open Scope list_scope.
Local Set Warnings "-clear-no-such-hyp".

(** * The eviction loop *)

Section evict.
Context {K S : Type} (is_protected : K -> bool) (maximum : nat).
Context (lru : S -> list K) (set_lru : list K -> S -> S) (forget : K -> S -> S).
Context (lru_set : forall l s, lru (set_lru l s) = l) (lru_forget : forall k s, lru (forget k s) = lru s).

(** The loop stops within one turn per entry, leaves at most [maximum] unprotected entries,
    and keeps whatever each single eviction keeps. *)
Lemma evict_loop_spec (P : S -> Prop) fuel s :
  length (lru s) < fuel -> P s ->
  (forall s index k, P s -> lru s !! index = Some k -> is_protected k = false ->
     P (forget k (set_lru (delete index (lru s)) s))) ->
  exists s', evict_loop is_protected maximum lru set_lru forget fuel s = Some s' /\ P s'
    /\ length (unprotected is_protected (lru s')) <= maximum.
Proof.
  intros Hf HP Hstep. revert s Hf HP; induction fuel as [|fuel IH]; intros s Hf HP; [lia|].
  cbn [evict_loop]. destruct (maximum <? _)%nat eqn:E; [|apply Nat.ltb_ge in E; by eexists].
  apply Nat.ltb_lt in E.
  destruct (position _ (lru s)) as [index|] eqn:Ep.
  - apply position_Some in Ep as (k & Hk & Hp & _). apply negb_true_iff in Hp. rewrite Hk.
    apply IH; [|by apply Hstep].
    rewrite lru_forget, lru_set. pose proof (lookup_lt_Some _ _ _ Hk).
    rewrite (length_delete _ index) by eauto. lia.
  - exfalso. apply position_None in Ep.
    assert (Hnil : unprotected is_protected (lru s) = []); [|rewrite Hnil in E; cbn in E; lia].
    unfold unprotected.
    clear -Ep. induction Ep as [|x l Hx Hl IH]; [done|]. rewrite filter_cons.
    apply negb_false_iff in Hx. by rewrite decide_False by congruence.
Qed.
End evict.

(** * Keys of nested maps *)

Lemma elem_of_nested_keys {A} (m : gmap string (gmap string A)) r e :
  (r, e) ∈ nested_keys m <-> is_Some (nested_get m r e).
Proof.
  unfold nested_keys, nested_get. rewrite list_elem_of_join. split.
  - intros (l & Hl & ([r' inner] & -> & Hr%btree_iter_elem)%list_elem_of_fmap).
    apply list_elem_of_fmap in Hl as (e' & [= -> ->] & He%elem_of_btree_keys). by rewrite Hr.
  - intros [x Hx]. destruct (m !! r) as [inner|] eqn:E; [|done]. cbn in Hx.
    eexists. split; [|apply (list_elem_of_fmap_2 _ _ (r, inner)), btree_iter_elem, E].
    apply list_elem_of_fmap_2, elem_of_btree_keys. by eexists.
Qed.

Lemma NoDup_nested_keys {A} (m : gmap string (gmap string A)) : NoDup (nested_keys m).
Proof.
  unfold nested_keys. pose proof (btree_iter_NoDup m) as Hd. revert Hd.
  generalize (btree_iter m) as l. induction l as [|[r inner] l IH]; [constructor|].
  rewrite !fmap_cons. intros [Hr Hl]%NoDup_cons. cbn. apply NoDup_app. split_and!.
  - apply NoDup_fmap_2; [by intros ?? [= ->]|apply btree_iter_NoDup].
  - intros [r' e] (e' & [= -> ->] & _)%list_elem_of_fmap Hin. apply Hr.
    apply list_elem_of_join in Hin as (l' & Hin & ([r0 inner0] & -> & H0)%list_elem_of_fmap).
    apply list_elem_of_fmap in Hin as (e0 & [= -> ->] & _).
    by apply (list_elem_of_fmap_2 fst _ (r0, inner0)).
  - by apply IH.
Qed.

(** * Reconciling the queues *)

(** Every tombstone that is not in use waits in the queue, and nothing in use does. *)
Definition complete (s : ComposerDraftStore) (p : ComposerDraftProtection) : Prop :=
  forall t, t ∈ queue s <->
    slot_content (slot s t) = None /\ is_Some (slot_revision (slot s t))
    /\ target_is_touch_protected p t = false.

Lemma contains_key_false {A} (m : gmap string A) k : contains_key m k = false <-> m !! k = None.
Proof. unfold contains_key. rewrite bool_decide_eq_false. symmetry. apply eq_None_not_Some. Qed.
Lemma contains_key_true {A} (m : gmap string A) k : contains_key m k = true <-> is_Some (m !! k).
Proof. unfold contains_key. by rewrite bool_decide_eq_true. Qed.
Lemma nested_contains_false {A} (m : gmap string (gmap string A)) r e :
  nested_contains m r e = false <-> nested_get m r e = None.
Proof. unfold nested_contains. rewrite bool_decide_eq_false. symmetry. apply eq_None_not_Some. Qed.
Lemma nested_contains_true {A} (m : gmap string (gmap string A)) r e :
  nested_contains m r e = true <-> is_Some (nested_get m r e).
Proof. unfold nested_contains. by rewrite bool_decide_eq_true. Qed.

(** Keep the entries that qualify and append the keys that are missing. *)
Lemma refill_NoDup {K} (P Q : K -> Prop) `{!forall k, Decision (P k), !forall k, Decision (Q k)} (l keys : list K) :
  NoDup l -> NoDup keys -> (forall k, Q k -> k ∉ filter P l) -> NoDup (filter P l ++ filter Q keys).
Proof.
  intros Hl Hk Hq. apply NoDup_app. split_and!; [by apply NoDup_filter| |by apply NoDup_filter].
  intros k Hin [HQ _]%list_elem_of_filter. by apply (Hq k).
Qed.

Lemma slot_reconcile_queues s p t : slot (reconcile_queues s p) t = slot s t.
Proof. by destruct t. Qed.

Lemma reconcile_queues_rooms s p :
  NoDup (quiescent_room_lru s) ->
  NoDup (quiescent_room_lru (reconcile_queues s p))
  /\ forall r, r ∈ quiescent_room_lru (reconcile_queues s p) <->
       rooms s !! r = None /\ is_Some (room_revisions s !! r)
       /\ target_is_touch_protected p (Main r) = false.
Proof.
  intros Hd. unfold reconcile_queues. cbn [quiescent_room_lru update]. split.
  - apply refill_NoDup; [done|apply btree_iter_NoDup|]. intros r (_ & Hr & _). exact Hr.
  - intros r. rewrite elem_of_app, !list_elem_of_filter, elem_of_btree_keys.
    rewrite contains_key_true, !contains_key_false.
    destruct (decide (r ∈ quiescent_room_lru s)); naive_solver.
Qed.

Lemma reconcile_queues_threads s p :
  NoDup (quiescent_thread_lru s) ->
  NoDup (quiescent_thread_lru (reconcile_queues s p))
  /\ forall r e, (r, e) ∈ quiescent_thread_lru (reconcile_queues s p) <->
       nested_get (threads s) r e = None /\ is_Some (nested_get (thread_revisions s) r e)
       /\ target_is_touch_protected p (Thread r e) = false.
Proof.
  intros Hd. unfold reconcile_queues. cbn [quiescent_thread_lru update]. split.
  - apply refill_NoDup; [done|apply NoDup_nested_keys|]. intros t (_ & Ht & _). exact Ht.
  - intros r e. rewrite elem_of_app, !list_elem_of_filter, elem_of_nested_keys.
    rewrite nested_contains_true, !nested_contains_false. cbn.
    destruct (decide ((r, e) ∈ quiescent_thread_lru s)); naive_solver.
Qed.

Lemma reconcile_queues_spec s p :
  store_wf s -> store_wf (reconcile_queues s p) /\ complete (reconcile_queues s p) p.
Proof.
  intros [Hs [H1 H2]%NoDup_queue _].
  destruct (reconcile_queues_rooms s p H1) as [H1' Hr], (reconcile_queues_threads s p H2) as [H2' Ht].
  assert (Hc : complete (reconcile_queues s p) p).
  { intros [r|r e]; rewrite slot_reconcile_queues;
      [rewrite elem_of_queue_main; apply Hr|rewrite elem_of_queue_thread; apply Ht]. }
  split; [|done]. constructor.
  - intros t. by rewrite slot_reconcile_queues.
  - by apply NoDup_queue.
  - intros t Hin. apply Hc in Hin. tauto.
Qed.

(** ** Forgetting one tombstone *)

Definition forget_target (s : ComposerDraftStore) (t : ComposerTarget) (index : nat) : ComposerDraftStore :=
  match t with
  | Main r => forget_room r (s <| quiescent_room_lru := delete index (quiescent_room_lru s) |>)
  | Thread r e => forget_thread (r, e) (s <| quiescent_thread_lru := delete index (quiescent_thread_lru s) |>)
  end.
Definition queued_at (s : ComposerDraftStore) (t : ComposerTarget) (index : nat) : Prop :=
  match t with
  | Main r => quiescent_room_lru s !! index = Some r
  | Thread r e => quiescent_thread_lru s !! index = Some (r, e)
  end.

Lemma delete_spec {K} (l : list K) i k :
  NoDup l -> l !! i = Some k -> NoDup (delete i l) /\ forall x, x ∈ delete i l <-> x <> k /\ x ∈ l.
Proof.
  intros Hd Hk. pose proof (delete_Permutation _ _ _ Hk) as HP. rewrite HP in Hd.
  apply NoDup_cons in Hd as [Hnin Hd]. split; [done|]. intros x.
  rewrite HP at 2. rewrite elem_of_cons. split; [|naive_solver].
  intros Hx. split; [by intros ->|by right].
Qed.

Lemma queued_at_queue s t index : queued_at s t index -> t ∈ queue s.
Proof.
  destruct t; cbn; intros H%list_elem_of_lookup_2;
    [by rewrite elem_of_queue_main|by rewrite elem_of_queue_thread].
Qed.

Lemma forget_rewrites s t index :
  store_wf s -> queued_at s t index ->
  rewrites s (forget_target s t index) t (fun _ => slot_empty) /\ dequeued s (forget_target s t index) t.
Proof.
  intros Hw Hq. destruct (wf_queue _ Hw t (queued_at_queue _ _ _ Hq)) as [Hc Hr].
  assert (Hm : slot_marker (slot s t) = None).
  { destruct (slot_marker (slot s t)) eqn:E; [|done].
    destruct (wf_marker _ (wf_slots _ Hw t)) as [d Hd]; [by eexists|congruence]. }
  destruct t as [r|r e]; cbn [forget_target]; cbn in Hc, Hm.
  - unfold forget_room. cbn [rooms update]. rewrite (proj2 (contains_key_false _ _) Hc). split.
    + intros [r'|r' e']; cbn; slot_maps.
    + intros [H1 H2]%NoDup_queue. destruct (delete_spec _ _ _ H1 Hq) as [H1' Hin].
      split; [apply NoDup_queue; done|]. intros [r'|r' e'];
        rewrite ?elem_of_queue_main, ?elem_of_queue_thread; cbn; rewrite ?Hin; naive_solver.
  - unfold forget_thread. cbn [threads update fst snd]. rewrite (proj2 (nested_contains_false _ _ _) Hc). split.
    + intros [r'|r' e']; cbn; slot_maps.
    + intros [H1 H2]%NoDup_queue. destruct (delete_spec _ _ _ H2 Hq) as [H2' Hin].
      split; [apply NoDup_queue; done|]. intros [r'|r' e'];
        rewrite ?elem_of_queue_main, ?elem_of_queue_thread; cbn; rewrite ?Hin; naive_solver.
Qed.

(** What eviction may do to the store [s0] it starts from. *)
Record evicted_from (p : ComposerDraftProtection) (s0 s : ComposerDraftStore) : Prop := {
  ev_wf : store_wf s;
  ev_complete : complete s p;
  ev_slot t : slot s t = slot s0 t
              \/ (slot s t = slot_empty /\ slot_content (slot s0 t) = None
                  /\ target_is_protected p t = false);
}.

Lemma evicted_refl p s : store_wf s -> complete s p -> evicted_from p s s.
Proof. intros. constructor; [done|done|by left]. Qed.

Lemma evicted_forget p s0 s t index :
  evicted_from p s0 s -> queued_at s t index -> target_is_protected p t = false ->
  evicted_from p s0 (forget_target s t index).
Proof.
  intros [Hw Hc Hs] Hq Hp. destruct (forget_rewrites s t index Hw Hq) as [Hrw Hd].
  constructor.
  - eapply wf_rewrites; [exact Hrw|done|apply slot_wf_empty|by left].
  - intros t'. rewrite (proj2 (Hd (wf_queue_distinct _ Hw)) t'), Hrw.
    case_decide as E; [|rewrite (Hc t'); tauto]. subst. cbn.
    split; [tauto|]. intros (_ & [? [=]] & _).
  - intros t'. rewrite Hrw. case_decide as E; [|apply Hs]. subst. right. split_and!; [done| |done].
    destruct (wf_queue _ Hw t (queued_at_queue _ _ _ Hq)) as [Hn _].
    destruct (Hs t) as [<-|(_ & H & _)]; done.
Qed.

Lemma evict_rooms_spec p s0 s :
  evicted_from p s0 s ->
  exists s', evict_rooms s p = Some s' /\ evicted_from p s0 s'
    /\ length (unprotected (fun r => target_is_protected p (Main r)) (quiescent_room_lru s'))
       <= MAX_LIVE_COMPOSER_ROOM_TOMBSTONES.
Proof.
  intros Hev. unfold evict_rooms. apply evict_loop_spec; [done| |lia|done|].
  - intros k st. unfold forget_room. by destruct (contains_key _ _).
  - intros st index r Hst Hr Hp. exact (evicted_forget p s0 st (Main r) index Hst Hr Hp).
Qed.

Lemma evict_threads_spec p s0 s :
  evicted_from p s0 s ->
  exists s', evict_threads s p = Some s'
    /\ (evicted_from p s0 s' /\ quiescent_room_lru s' = quiescent_room_lru s)
    /\ length (unprotected (fun t => target_is_protected p (thread_target t)) (quiescent_thread_lru s'))
       <= MAX_LIVE_COMPOSER_THREAD_TOMBSTONES.
Proof.
  intros Hev. unfold evict_threads. apply evict_loop_spec; [done| |lia|done|].
  - intros k st. unfold forget_thread. by destruct (nested_contains _ _ _).
  - intros st index [r e] [Hst Hq] Hr Hp. split.
    + exact (evicted_forget p s0 st (Thread r e) index Hst Hr Hp).
    + rewrite <-Hq. unfold forget_thread. by destruct (nested_contains _ _ _).
Qed.

(** A target whose draft is gone but whose revision still fences late writes, and that
    nothing uses. *)
Definition idle_tombstone (s : ComposerDraftStore) (p : ComposerDraftProtection) (t : ComposerTarget) : Prop :=
  slot_content (slot s t) = None /\ is_Some (slot_revision (slot s t)) /\ target_is_protected p t = false.

Lemma idle_in_queue s p t : complete s p -> idle_tombstone s p t -> t ∈ queue s.
Proof.
  intros Hc (Hn & Hr & Hp). apply Hc. split_and!; [done|done|].
  unfold target_is_protected in Hp. by apply orb_false_iff in Hp as [? _].
Qed.

Lemma unprotected_bound {K} (p : K -> bool) (l : list K) n (l' : list K) :
  NoDup l' -> length (unprotected p l) <= n -> (forall k, k ∈ l' -> k ∈ l /\ p k = false) -> length l' <= n.
Proof.
  intros Hd Hn Hin. etrans; [|exact Hn]. apply submseteq_length, NoDup_submseteq; [done|].
  intros k Hk. unfold unprotected. apply list_elem_of_filter. destruct (Hin k Hk). done.
Qed.

Lemma reconcile_lifecycle_spec s p :
  store_wf s ->
  exists s', reconcile_lifecycle s p = Some s' /\ store_wf s' /\ complete s' p
    /\ (forall t, slot s' t = slot s t \/ (slot s' t = slot_empty /\ idle_tombstone s p t))
    /\ length (unprotected (fun r => target_is_protected p (Main r)) (quiescent_room_lru s'))
         <= MAX_LIVE_COMPOSER_ROOM_TOMBSTONES
    /\ length (unprotected (fun t => target_is_protected p (thread_target t)) (quiescent_thread_lru s'))
         <= MAX_LIVE_COMPOSER_THREAD_TOMBSTONES.
Proof.
  intros Hw. destruct (reconcile_queues_spec s p Hw) as [Hw0 Hc0].
  destruct (evict_rooms_spec p _ _ (evicted_refl p _ Hw0 Hc0)) as (s1 & E1 & Hev1 & Hb1).
  destruct (evict_threads_spec p _ _ Hev1) as (s2 & E2 & [[Hw2 Hc2 Hs2] Hq2] & Hb2).
  exists s2. unfold reconcile_lifecycle. rewrite E1. cbn [mbind option_bind].
  split_and!; [exact E2|exact Hw2|exact Hc2| |by rewrite Hq2|exact Hb2].
  intros t. destruct (Hs2 t) as [E|(E & Hn & Hp)]; rewrite ?slot_reconcile_queues in *; [by left|].
  destruct (slot_revision (slot s t)) as [r|] eqn:Er.
  - right. split; [done|]. split_and!; [done|by rewrite Er; eexists|done].
  - left. rewrite E. symmetry. destruct (wf_slots _ Hw t) as [_ Hcl Hm]. apply slot_ext; cbn; [done|done| |].
    + destruct (slot_clear (slot s t)); [|done]. destruct (Hcl _ eq_refl) as (? & ? & _). congruence.
    + destruct (slot_marker (slot s t)); [|done]. destruct Hm; [by eexists|congruence].
Qed.

(** Reconciling the life cycle of drafts always ends.  It leaves every draft with
    content and every target in use as it was, drops only idle tombstones, and afterwards at
    most 128 rooms and at most 256 threads are idle tombstones, so revisions of emptied
    drafts do not accumulate. *)
Theorem tombstones_are_bounded s p :
  store_wf s ->
  exists s', reconcile_lifecycle s p = Some s' /\ store_wf s'
    /\ (forall t, slot s' t = slot s t \/ (slot s' t = slot_empty /\ idle_tombstone s p t))
    /\ (forall rs, NoDup rs -> Forall (fun r => idle_tombstone s' p (Main r)) rs -> length rs <= 128)
    /\ (forall ts, NoDup ts -> Forall (fun t => idle_tombstone s' p (thread_target t)) ts -> length ts <= 256).
Proof.
  intros Hw. destruct (reconcile_lifecycle_spec s p Hw) as (s' & E & Hw' & Hc & Hs & Hb1 & Hb2).
  exists s'. split_and!; [exact E|exact Hw'|exact Hs| |].
  - intros rs Hd Hidle. apply (unprotected_bound _ _ _ rs Hd Hb1). intros r Hr.
    rewrite Forall_forall in Hidle. specialize (Hidle r Hr). split; [|apply Hidle].
    apply elem_of_queue_main. by eapply idle_in_queue.
  - intros ts Hd Hidle. apply (unprotected_bound _ _ _ ts Hd Hb2). intros [r e] Hr.
    rewrite Forall_forall in Hidle. specialize (Hidle (r, e) Hr). split; [|apply Hidle].
    apply elem_of_queue_thread. by eapply idle_in_queue.
Qed.

(** * Runs of the store *)

Inductive DraftOp :=
  | Op_Apply (t : ComposerTarget) (d : Document) (r : ComposerDraftRevision)
  | Op_Set (t : ComposerTarget) (d : Document)
  | Op_Advance (t : ComposerTarget) (submitted : ComposerDraftRevision)
  | Op_Settle (t : ComposerTarget) (submitted : ComposerDraftRevision)
  | Op_Stage (t : ComposerTarget) (d : Document) (client : string)
  | Op_Dismiss (t : ComposerTarget)
  | Op_Clear (t : ComposerTarget)
  | Op_Retain (rooms : gset string)
  | Op_Reconcile (p : ComposerDraftProtection).

Definition draft_step (s : ComposerDraftStore) (o : DraftOp) : ComposerDraftStore :=
  match o with
  | Op_Apply t d r => (apply_draft s t d r).1
  | Op_Set t d => set_draft s t d
  | Op_Advance t r => (advance s t r).1
  | Op_Settle t r => (settle s t r).1
  | Op_Stage t d client => (stage_assistant_draft s t d client).1
  | Op_Dismiss t => (dismiss_assistant_marker s t).1
  | Op_Clear t => clear_draft s t
  | Op_Retain rooms => retain_rooms s rooms
  | Op_Reconcile p => default s (reconcile_lifecycle s p)
  end.
Definition draft_run (s : ComposerDraftStore) (ops : list DraftOp) : ComposerDraftStore :=
  foldl draft_step s ops.

Lemma store_wf_step s o : store_wf s -> store_wf (draft_step s o).
Proof.
  intros Hw. destruct o; cbn [draft_step].
  - by apply store_wf_apply.
  - by apply store_wf_set.
  - by apply store_wf_advance.
  - by apply store_wf_settle.
  - by apply store_wf_stage.
  - by apply store_wf_dismiss.
  - by apply store_wf_clear.
  - by apply store_wf_retain.
  - by destruct (reconcile_lifecycle_spec s p Hw) as (s' & -> & Hw' & _).
Qed.

Lemma store_wf_default : store_wf ComposerDraftStore_default.
Proof.
  constructor.
  - intros []; apply slot_wf_empty.
  - constructor.
  - intros t H. by apply elem_of_nil in H.
Qed.

Lemma store_wf_run s ops : store_wf s -> store_wf (draft_run s ops).
Proof. revert s; induction ops as [|o ops IH]; intros s Hw; [done|]. apply IH. by apply store_wf_step. Qed.

(** ** Revisions only grow *)

(** The operation gives target [t] up: it deletes the draft, leaves its room, or lets it go
    as a tombstone that nothing uses. *)
Definition gives_up (t : ComposerTarget) (o : DraftOp) : Prop :=
  match o with
  | Op_Clear t' => t' = t
  | Op_Retain rooms => target_room_id t ∉ rooms
  | Op_Reconcile p => target_is_protected p t = false
  | _ => False
  end.

Lemma slot_apply_revision d r sl : (revision_of sl <= revision_of (slot_apply d r sl))%Z.
Proof.
  unfold slot_apply. destruct (r <=? _)%Z eqn:E; [lia|]. apply Z.leb_gt in E.
  unfold revision_of at 2. cbn. lia.
Qed.

Lemma revision_step s o t :
  store_wf s -> ~ gives_up t o -> (revision_of (slot s t) <= revision_of (slot (draft_step s o) t))%Z.
Proof.
  intros Hw Hkeep. destruct o as [t' d r|t' d|t' r|t' r|t' d client|t'|t'|rooms|p]; cbn [draft_step gives_up] in *.
  - rewrite apply_draft_rewrites. case_decide; [subst; apply slot_apply_revision|lia].
  - rewrite set_draft_rewrites. case_decide; [subst|lia].
    destruct (checked_successor _ _); [apply slot_apply_revision|lia].
  - rewrite advance_rewrites. case_decide; [subst|lia]. unfold slot_advance.
    destruct (checked_successor _ _) as [n|] eqn:E; [|lia]. apply checked_successor_spec in E.
    unfold revision_of at 2. cbn. lia.
  - rewrite settle_rewrites. case_decide; [subst|lia]. unfold slot_settle.
    destruct (checked_successor _ _) as [n|] eqn:E; [|lia]. apply checked_successor_spec in E.
    unfold revision_of at 2. cbn. lia.
  - rewrite stage_rewrites. case_decide; [subst|lia]. unfold slot_stage.
    destruct (_ || _); [lia|]. destruct (checked_successor _ _) as [n|] eqn:E; [|lia].
    apply (slot_apply_revision d n (slot s t')).
  - rewrite dismiss_rewrites. case_decide; [subst; done|lia].
  - rewrite clear_draft_rewrites, decide_False by done. lia.
  - rewrite slot_retain, decide_True by (by apply dec_stable). lia.
  - destruct (reconcile_lifecycle_spec s p Hw) as (s' & -> & _ & _ & Hs & _).
    change (default s (Some s')) with s'.
    destruct (Hs t) as [->|(_ & _ & _ & Hp)]; [lia|done].
Qed.

Lemma revision_run s ops t :
  store_wf s -> Forall (fun o => ~ gives_up t o) ops ->
  (revision_of (slot s t) <= revision_of (slot (draft_run s ops) t))%Z.
Proof.
  intros Hw Hops. revert s Hw; induction Hops as [|o ops Ho Hops IH]; intros s Hw; [done|].
  etrans; [by apply revision_step|]. apply IH. by apply store_wf_step.
Qed.

(** C6: An accepted send stays ahead of the writes it overtook.  Accepting a send at a
    revision empties the draft it was made from and returns a higher revision; however the
    store goes on, as long as the target is not deleted and stays in use, a delayed write at
    that revision or below is answered as stale and changes nothing. *)
Theorem accepted_send_fences_delayed_writes s t submitted s' accepted ops d r :
  store_wf s -> advance s t submitted = (s', inl accepted) ->
  Forall (fun o => ~ gives_up t o) ops -> (r <= accepted)%Z ->
  (submitted < accepted)%Z
  /\ ((revision_of (slot s t) <= submitted)%Z ->
      slot_content (slot s' t) = None /\ slot_clear (slot s' t) = Some accepted)
  /\ ((submitted < revision_of (slot s t))%Z -> slot_content (slot s' t) = slot_content (slot s t))
  /\ apply_draft (draft_run s' ops) t d r = (draft_run s' ops, inl false).
Proof.
  intros Hw E Hops Hr.
  assert (Hn : checked_successor (revision_of (slot s t)) submitted = inl accepted).
  { destruct (checked_successor _ _) as [n|] eqn:En.
    - destruct (advance_settles s t submitted n En) as (s1 & _ & E1). congruence.
    - destruct t as [room|room root]; cbn [advance] in E;
        [unfold advance_room_revision in E; by rewrite room_revision_slot, En in E
        |unfold advance_thread_revision in E; by rewrite thread_revision_slot, En in E]. }
  pose proof (advance_rewrites s t submitted t) as Hrw. rewrite decide_True, E in Hrw by done.
  cbn [fst] in Hrw. unfold slot_advance in Hrw. rewrite Hn in Hrw.
  apply checked_successor_spec in Hn as [Hn _].
  assert (Hw' : store_wf s') by (pose proof (store_wf_advance s t submitted Hw) as H; by rewrite E in H).
  split_and!; [lia| | |].
  - intros Hle. rewrite Hrw, (proj2 (Z.leb_le _ _) Hle). done.
  - intros Hlt. rewrite Hrw, (proj2 (Z.leb_gt _ _) Hlt). done.
  - apply apply_draft_stale. etrans; [exact Hr|].
    etrans; [|by apply revision_run]. rewrite Hrw. by unfold revision_of.
Qed.

(** Every store reached from the empty one by any sequence of operations is well
    formed: stored content is never an empty document and always carries a revision, an
    accepted clear is never newer than the revision, a marker never outlives its draft, and
    the two queues hold distinct targets that have a revision but no content. *)
Theorem reachable_stores_are_well_formed ops : store_wf (draft_run ComposerDraftStore_default ops).
Proof. apply store_wf_run, store_wf_default. Qed.

(** C35: Every write operation of the store is the abstract operation on the slot of its
    target, for rooms and threads alike, and leaves all other slots alone. *)
Theorem draft_store_refines_slots s t :
  (forall d r, rewrites s (apply_draft s t d r).1 t (slot_apply d r))
  /\ (forall r, rewrites s (advance s t r).1 t (slot_advance r))
  /\ (forall r, rewrites s (settle s t r).1 t (slot_settle r))
  /\ (forall d client, rewrites s (stage_assistant_draft s t d client).1 t (slot_stage d client))
  /\ rewrites s (dismiss_assistant_marker s t).1 t (fun sl => sl <| slot_marker := None |>)
  /\ rewrites s (clear_draft s t) t (fun _ => slot_empty)
  /\ (forall X t', slot (retain_rooms s X) t' = if decide (target_room_id t' ∈ X) then slot s t' else slot_empty).
Proof.
  split_and!; intros;
    [apply apply_draft_rewrites|apply advance_rewrites|apply settle_rewrites|apply stage_rewrites
    |apply dismiss_rewrites|apply clear_draft_rewrites|apply slot_retain].
Qed.

(** ** A concrete run *)

Definition hello : Document := from_plain_text "hello".
Definition demo_store : ComposerDraftStore :=
  (apply_draft ComposerDraftStore_default (Main "!r") hello 4%Z).1.

Lemma demo_store_wf : store_wf demo_store.
Proof. apply store_wf_apply, store_wf_default. Qed.

Lemma accepted_send_fences_delayed_writes_witness :
  apply_draft (draft_run (advance demo_store (Main "!r") 4%Z).1 [Op_Settle (Thread "!r" "$e") 9%Z])
    (Main "!r") hello 4%Z
  = (draft_run (advance demo_store (Main "!r") 4%Z).1 [Op_Settle (Thread "!r" "$e") 9%Z], inl false).
Proof.
  apply (accepted_send_fences_delayed_writes demo_store (Main "!r") 4%Z (advance demo_store (Main "!r") 4%Z).1 5%Z);
    [apply demo_store_wf|reflexivity| |lia].
  constructor; [by intros []|constructor].
Defined.

Lemma tombstones_are_bounded_witness :
  exists s', reconcile_lifecycle demo_store {| active := ∅; leased := ∅; store_pending := ∅ |} = Some s'
    /\ store_wf s'.
Proof.
  destruct (tombstones_are_bounded demo_store {| active := ∅; leased := ∅; store_pending := ∅ |} demo_store_wf)
    as (s' & E & Hw & _).
  by exists s'.
Defined.
