(* ===== verification/DraftPersistProps.v ===== *)
(** Persisting drafts: what a well-formed store exports always validates, and importing it
    gives every draft back. *)

From stdpp Require Import base list strings gmap sorting.
From Stdlib Require Import ZArith Lia Ascii.
From S2P Require Import Prelude Text Markdown ComposerDocument ComposerProps DraftStore DraftPersistence DraftProps DraftEviction.
Local Open Scope string_scope.
Local Open Scope list_scope.
Local Set Warnings "-clear-no-such-hyp".

(** * Orders *)

Section orders.
Context {K : Type} `{Countable K}.
Implicit Types (l all lru : list K) (p eligible : K -> bool).

Lemma retain_loop_spec fuel l n p :
  (length l < fuel)%nat -> NoDup l ->
  exists l', retain_newest_eligible_loop fuel l n p = Some l' /\ NoDup l' /\ l' ⊆ l.
Proof.
  revert l; induction fuel as [|fuel IH]; intros l Hf Hd; [lia|]. cbn [retain_newest_eligible_loop].
  destruct (n <? _)%nat; [|by exists l].
  destruct (position _ l) as [i|] eqn:Ep; [|by exists l].
  apply position_Some in Ep as (k & Hk & _). destruct (delete_spec l i k Hd Hk) as [Hd' Hin].
  destruct (IH (delete i l)) as (l' & E & Hl' & Hsub); [|done|].
  - pose proof (lookup_lt_Some _ _ _ Hk). rewrite (length_delete _ i) by eauto. lia.
  - exists l'. split_and!; [done|done|]. intros x Hx. by apply Hin, Hsub.
Qed.

Lemma retain_newest_eligible_spec l n p :
  NoDup l -> exists l', retain_newest_eligible l n p = Some l' /\ NoDup l' /\ l' ⊆ l.
Proof. apply retain_loop_spec. lia. Qed.

Lemma retain_newest_spec l n : NoDup l -> NoDup (retain_newest l n) /\ retain_newest l n ⊆ l.
Proof.
  intros Hd. unfold retain_newest. destruct (_ <? _)%nat; [|done].
  rewrite <-(take_drop (length l - n) l) in Hd. apply NoDup_app in Hd as (_ & _ & Hd). split; [done|].
  apply subseteq_drop.
Qed.

(** One pass of the ordering: distinct elements that qualify. *)
Lemma pass_spec (q : K -> bool) l order :
  NoDup order ->
  let order' := foldl (fun order k => if q k && negb (bool_decide (k ∈ order)) then order ++ [k] else order) order l in
  NoDup order' /\ forall k, k ∈ order' -> k ∈ order \/ (k ∈ l /\ q k = true).
Proof.
  revert order; induction l as [|x l IH]; intros order Hd; [by split; [|left]|]. cbn [foldl].
  destruct (q x && negb (bool_decide (x ∈ order))) eqn:E.
  - apply andb_true_iff in E as [Hq Hx]. apply negb_true_iff, bool_decide_eq_false in Hx.
    destruct (IH (order ++ [x])) as [Hd' Hin].
    { apply NoDup_app. split_and!; [done| |apply NoDup_singleton].
      intros y Hy ->%list_elem_of_singleton. done. }
    split; [exact Hd'|]. intros k [[Hk| ->%list_elem_of_singleton]%elem_of_app|[? ?]]%Hin; set_solver.
  - destruct (IH order Hd) as [Hd' Hin]. split; [exact Hd'|]. intros k [Hk|[? ?]]%Hin; set_solver.
Qed.

Lemma quiescent_order_spec all lru eligible :
  NoDup (quiescent_order all lru eligible)
  /\ forall k, k ∈ quiescent_order all lru eligible -> k ∈ all /\ eligible k = true.
Proof.
  unfold quiescent_order.
  destruct (pass_spec (fun k => bool_decide (k ∈ all) && eligible k) lru [] (NoDup_nil_2)) as [H1 Hin1].
  destruct (pass_spec eligible all _ H1) as [H2 Hin2]. split; [exact H2|].
  intros k [Hk|[? ?]]%Hin2; [|done]. apply Hin1 in Hk as [?%elem_of_nil|[_ Hk]]; [done|].
  apply andb_true_iff in Hk as [?%bool_decide_eq_true ?]. done.
Qed.

(** The exported orders name the empty keys exactly. *)
Lemma orders_exact (quiescent protected : list K) (empty : gset K) :
  NoDup quiescent -> NoDup protected -> (forall k, k ∈ quiescent -> k ∉ protected) ->
  (forall k, k ∈ empty <-> k ∈ quiescent \/ k ∈ protected) ->
  orders_are_exact quiescent protected empty = true.
Proof.
  intros Hq Hp Hdis Hempty. unfold orders_are_exact.
  rewrite !size_list_to_set by done. rewrite !bool_decide_eq_true_2; [done|set_solver|set_solver|done|done].
Qed.
End orders.

(** * Projected maps *)

Lemma nested_of_keys_get {A} (f : ThreadKey -> A) keys r e :
  nested_get (nested_of_keys f keys) r e = if decide ((r, e) ∈ keys) then Some (f (r, e)) else None.
Proof.
  unfold nested_of_keys.
  assert (Hgen : forall m, nested_get (foldl (fun m t => nested_insert m t.1 t.2 (f t)) m keys) r e
            = if decide ((r, e) ∈ keys) then Some (f (r, e)) else nested_get m r e).
  { induction keys as [|[r' e'] keys IH]; intros m; [done|]. cbn [foldl]. rewrite IH.
    destruct (decide ((r, e) ∈ keys)); [by rewrite decide_True by set_solver|].
    cbn [fst snd]. rewrite nested_get_insert. case_decide as E.
    - rewrite decide_True by set_solver. congruence.
    - rewrite decide_False; [done|]. set_solver. }
  rewrite Hgen. by case_decide.
Qed.

Lemma nested_of_keys_inner {A} (f : ThreadKey -> A) keys r inner :
  nested_of_keys f keys !! r = Some inner -> inner <> ∅.
Proof.
  unfold nested_of_keys.
  assert (Hgen : forall m : gmap string (gmap string A), (forall r inner, m !! r = Some inner -> inner <> ∅) ->
            forall r inner, foldl (fun m t => nested_insert m t.1 t.2 (f t)) m keys !! r = Some inner -> inner <> ∅);
    [|apply Hgen; by intros ??; rewrite lookup_empty].
  induction keys as [|[r' e'] keys IH]; intros m Hm; [exact Hm|]. cbn [foldl]. apply IH.
  intros r0 inner0. unfold nested_insert. cbn [fst snd].
  destruct (decide (r0 = r')) as [->|]; [|rewrite lookup_insert_ne by done; apply Hm].
  rewrite lookup_insert_eq. intros [= <-]. apply insert_non_empty.
Qed.

Lemma nested_imap_get {A B} (f : ThreadKey -> A -> option B) (m : gmap string (gmap string A)) r e :
  nested_get (nested_imap f m) r e = x ← nested_get m r e; f (r, e) x.
Proof.
  unfold nested_get, nested_imap. rewrite map_lookup_imap. destruct (m !! r) as [inner|]; [|done]. cbn.
  case_decide as E.
  - cbn. destruct (inner !! e) as [x|] eqn:Ex; [|done]. cbn.
    assert (Hx : map_imap (fun root x => f (r, root) x) inner !! e = f (r, e) x)
      by by rewrite map_lookup_imap, Ex.
    by rewrite E, lookup_empty in Hx.
  - cbn. by rewrite map_lookup_imap.
Qed.

Lemma elem_of_thread_set X t : t ∈ thread_set_iter X <-> t ∈ X.
Proof. unfold thread_set_iter. by rewrite elem_of_sort_by, elem_of_elements. Qed.
Lemma NoDup_thread_set X : NoDup (thread_set_iter X).
Proof. unfold thread_set_iter. rewrite sort_by_Permutation. apply NoDup_elements. Qed.

(** * Export *)

(** One half of the projection, rooms or threads, over the keys [K]. *)
Record half_spec {K} (lookup : K -> option ComposerDraftPersistenceEntry) (order protected : list K)
    (entry : K -> ComposerDraftPersistenceEntry) (has : K -> bool) : Prop := {
  half_order : NoDup order;
  half_protected : NoDup protected;
  half_empty_order k : k ∈ order -> ~ (k ∈ protected) /\ has k = false;
  half_empty_protected k : k ∈ protected -> has k = false;
  half_present k : has k = true \/ k ∈ order \/ k ∈ protected -> lookup k = Some (entry k);
  half_lookup k e : lookup k = Some e -> e = entry k /\ (has k = true \/ k ∈ order \/ k ∈ protected);
}.

Lemma export_rooms (s : ComposerDraftStore) (prot : gset string) (all : gset string) pending n :
  exists order,
    retain_newest_eligible
      (quiescent_order (btree_set_iter all) (quiescent_room_lru s) (fun r =>
         negb (room_has_content s r) && negb (bool_decide (r ∈ prot)))) n pending = Some order
    /\ half_spec
         (fun r => set_to_map (M := gmap string _) (fun r => (r, room_entry s r))
            (list_to_set (C := gset string)
               (filter (fun r => room_has_content s r = true) ((btree_iter (rooms s)).*1) ++ order
                ++ filter (fun r => room_has_content s r = false) (btree_set_iter prot))) !! r)
         order (filter (fun r => room_has_content s r = false) (btree_set_iter prot))
         (room_entry s) (room_has_content s).
Proof.
  set (eligible := fun r => negb (room_has_content s r) && negb (bool_decide (r ∈ prot))).
  destruct (quiescent_order_spec (btree_set_iter all) (quiescent_room_lru s) eligible) as [Hd Hin].
  destruct (retain_newest_eligible_spec _ n pending Hd) as (order & E & Hd' & Hsub).
  exists order. split; [exact E|].
  assert (Hel : forall r, r ∈ order -> room_has_content s r = false /\ r ∉ prot).
  { intros r Hr%Hsub. apply Hin in Hr as [_ Hr]. unfold eligible in Hr.
    apply andb_true_iff in Hr as [H1%negb_true_iff H2%negb_true_iff].
    by apply bool_decide_eq_false in H2. }
  assert (Hmem : forall r, r ∈ (list_to_set (C := gset string)
               (filter (fun r => room_has_content s r = true) ((btree_iter (rooms s)).*1) ++ order
                ++ filter (fun r => room_has_content s r = false) (btree_set_iter prot)))
            <-> room_has_content s r = true \/ r ∈ order
                \/ r ∈ filter (fun r => room_has_content s r = false) (btree_set_iter prot)).
  { intros r. rewrite elem_of_list_to_set, !elem_of_app, (list_elem_of_filter _ ((btree_iter (rooms s)).*1)),
      elem_of_btree_keys. split; [tauto|]. intros [Hr|]; [left|tauto]. split; [done|].
    unfold room_has_content, is_some_and in Hr. by destruct (rooms s !! r). }
  constructor.
  - done.
  - apply NoDup_filter, NoDup_btree_set.
  - intros r Hr. destruct (Hel r Hr) as [? Hp]. split; [|done].
    intros [_ Hx]%list_elem_of_filter. by apply elem_of_btree_set in Hx.
  - intros r [Hr _]%list_elem_of_filter. done.
  - intros r Hr. apply lookup_set_to_map; [by intros ???? |]. exists r. split; [by apply Hmem|done].
  - intros r e Hr. apply lookup_set_to_map in Hr as (r' & Hr' & [= -> <-]); [|by intros ????].
    split; [done|by apply Hmem].
Qed.

Lemma export_threads (s : ComposerDraftStore) (prot : gset ThreadKey) (all : gset ThreadKey) pending n :
  exists order,
    retain_newest_eligible
      (quiescent_order (thread_set_iter all) (quiescent_thread_lru s) (fun t =>
         negb (thread_has_content s t) && negb (bool_decide (t ∈ prot)))) n pending = Some order
    /\ half_spec
         (fun t => nested_get (nested_of_keys (thread_entry s)
            (thread_set_iter (list_to_set
               (filter (fun t => thread_has_content s t = true) (nested_keys (threads s)) ++ order
                ++ filter (fun t => thread_has_content s t = false) (thread_set_iter prot))))) t.1 t.2)
         order (filter (fun t => thread_has_content s t = false) (thread_set_iter prot))
         (thread_entry s) (thread_has_content s).
Proof.
  set (eligible := fun t => negb (thread_has_content s t) && negb (bool_decide (t ∈ prot))).
  destruct (quiescent_order_spec (thread_set_iter all) (quiescent_thread_lru s) eligible) as [Hd Hin].
  destruct (retain_newest_eligible_spec _ n pending Hd) as (order & E & Hd' & Hsub).
  exists order. split; [exact E|].
  assert (Hel : forall t, t ∈ order -> thread_has_content s t = false /\ t ∉ prot).
  { intros t Ht%Hsub. apply Hin in Ht as [_ Ht]. unfold eligible in Ht.
    apply andb_true_iff in Ht as [H1%negb_true_iff H2%negb_true_iff].
    by apply bool_decide_eq_false in H2. }
  assert (Hmem : forall t, t ∈ thread_set_iter (list_to_set
               (filter (fun t => thread_has_content s t = true) (nested_keys (threads s)) ++ order
                ++ filter (fun t => thread_has_content s t = false) (thread_set_iter prot)))
            <-> thread_has_content s t = true \/ t ∈ order
                \/ t ∈ filter (fun t => thread_has_content s t = false) (thread_set_iter prot)).
  { intros [r e]. rewrite elem_of_thread_set, elem_of_list_to_set, !elem_of_app,
      (list_elem_of_filter _ (nested_keys (threads s))), elem_of_nested_keys.
    split; [tauto|]. intros [Hr|]; [left|tauto]. split; [done|].
    unfold thread_has_content, is_some_and in Hr. cbn in Hr. by destruct (nested_get (threads s) r e). }
  constructor.
  - done.
  - apply NoDup_filter, NoDup_thread_set.
  - intros t Ht. destruct (Hel t Ht) as [? Hp]. split; [|done].
    intros [_ Hx]%list_elem_of_filter. by apply elem_of_thread_set in Hx.
  - intros t [Ht _]%list_elem_of_filter. done.
  - intros [r e] Ht. rewrite nested_of_keys_get, decide_True; [done|]. by apply Hmem.
  - intros [r e] x Ht. rewrite nested_of_keys_get in Ht. cbn [fst snd] in Ht.
    case_decide as Hin'; [|done]. injection Ht as <-. split; [done|by apply Hmem].
Qed.

(** ** Entries of slots *)

Definition has_content (sl : Slot) : bool :=
  is_some_and (slot_content sl) (fun d => negb (document_is_empty d)).

Definition entry_of (sl : Slot) : ComposerDraftPersistenceEntry :=
  {| content := persisted_content (slot_content sl);
     revision := revision_of sl;
     entry_clear_revision := default ZERO (slot_clear sl);
     assistant := _ ← then_some (bool_decide (is_Some (slot_content sl))) (); slot_marker sl |}.

Lemma room_entry_slot s r : room_entry s r = entry_of (slot s (Main r)).
Proof. done. Qed.
Lemma thread_entry_slot s t : thread_entry s t = entry_of (slot s (thread_target t)).
Proof. done. Qed.
Lemma room_content_slot s r : room_has_content s r = has_content (slot s (Main r)).
Proof. done. Qed.
Lemma thread_content_slot s t : thread_has_content s t = has_content (slot s (thread_target t)).
Proof. done. Qed.

(** A draft that still holds something after it was cut for storage. *)
Definition storable (d : Document) : Prop :=
  document_is_empty (truncated_to_plain_bytes d MAX_PERSISTED_COMPOSER_DRAFT_BYTES) = false.

Record persistable (sl : Slot) : Prop := {
  ps_wf : slot_wf sl;
  ps_storable d : slot_content sl = Some d -> storable d;
  ps_revision : (0 <= revision_of sl)%Z;
}.

#[local] Opaque truncated_to_plain_bytes MAX_PERSISTED_COMPOSER_DRAFT_BYTES.

Lemma entry_of_content sl d : slot_wf sl -> slot_content sl = Some d ->
  content (entry_of sl) = Some (truncated_to_plain_bytes d MAX_PERSISTED_COMPOSER_DRAFT_BYTES).
Proof.
  intros Hw Hd. cbn. rewrite Hd. cbn. destruct (wf_content _ Hw d Hd) as [-> _]. done.
Qed.

Lemma entry_of_empty sl : slot_content sl = None -> content (entry_of sl) = None.
Proof. intros Hd. cbn. by rewrite Hd. Qed.

Lemma has_content_wf sl : slot_wf sl -> has_content sl = bool_decide (is_Some (slot_content sl)).
Proof.
  intros Hw. unfold has_content. destruct (slot_content sl) as [d|] eqn:E; [|done]. cbn.
  by destruct (wf_content _ Hw d E) as [-> _].
Qed.

Lemma entry_is_empty_has sl : slot_wf sl -> entry_is_empty (entry_of sl) = negb (has_content sl).
Proof.
  intros Hw. rewrite has_content_wf by done. unfold entry_is_empty.
  destruct (slot_content sl) as [d|] eqn:E.
  - by rewrite (entry_of_content _ d).
  - by rewrite entry_of_empty.
Qed.

Lemma entry_well_formed sl : persistable sl -> entry_is_malformed (entry_of sl) = false.
Proof.
  intros [Hw Hs Hr]. unfold entry_is_malformed. apply orb_false_iff. split.
  - apply Z.ltb_ge. cbn. destruct (slot_clear sl) as [c|] eqn:E; [|exact Hr].
    destruct (wf_clear _ Hw c E) as (r & Hr' & Hle). unfold revision_of. rewrite Hr'. exact Hle.
  - destruct (slot_content sl) as [d|] eqn:E.
    + rewrite (entry_of_content _ d) by done. by apply Hs.
    + by rewrite entry_of_empty.
Qed.

(** ** Import, slot by slot *)

Definition import_slot (retained : bool) (o : option ComposerDraftPersistenceEntry) : Slot :=
  {| slot_content := e ← o; imported_content e;
     slot_revision := e ← o; imported_revision retained e;
     slot_clear := e ← o; imported_clear_revision retained e;
     slot_marker := e ← o; imported_marker e |}.

(** What a slot looks like after it was exported and imported. *)
Definition survives (sl sl' : Slot) : Prop :=
  match slot_content sl with
  | Some d =>
      slot_content sl' = Some (truncated_to_plain_bytes d MAX_PERSISTED_COMPOSER_DRAFT_BYTES)
      /\ slot_revision sl' = Some (revision_of sl)
      /\ default ZERO (slot_clear sl') = default ZERO (slot_clear sl)
      /\ slot_marker sl' = slot_marker sl
  | None =>
      sl' = slot_empty
      \/ (slot_content sl' = None /\ slot_marker sl' = None /\ slot_revision sl' = Some (revision_of sl)
          /\ default ZERO (slot_clear sl') = default ZERO (slot_clear sl))
  end.

Lemma clear_survives c : default ZERO (if negb (is_zero c) then Some c else None) = c.
Proof. unfold is_zero. by destruct (Z.eqb_spec c 0) as [->|]. Qed.

Lemma import_entry_survives retained sl : slot_wf sl -> survives sl (import_slot retained (Some (entry_of sl))).
Proof.
  intros Hw. unfold survives. destruct (slot_content sl) as [d|] eqn:E.
  - unfold import_slot. cbn [mbind option_bind slot_content slot_revision slot_clear slot_marker].
    unfold imported_content, imported_revision, imported_clear_revision, imported_marker, keeps_entry.
    rewrite entry_is_empty_has, has_content_wf, E by done.
    rewrite (entry_of_content sl d) by done. cbn -[entry_of]. split_and!.
    + by rewrite truncated_idem.
    + done.
    + by apply clear_survives.
    + cbn. by rewrite E.
  - unfold import_slot. cbn [mbind option_bind slot_content slot_revision slot_clear slot_marker].
    unfold imported_content, imported_revision, imported_clear_revision, imported_marker, keeps_entry.
    rewrite entry_is_empty_has, has_content_wf, E by done. rewrite (entry_of_empty sl E). cbn -[entry_of].
    destruct retained; [right|by left]. split_and!; [done|done|done|by apply clear_survives].
Qed.

Lemma import_nothing_survives retained sl : slot_content sl = None -> survives sl (import_slot retained None).
Proof. intros E. unfold survives. rewrite E. by left. Qed.

(** * The round trip *)

Section round_trip.
Context (s : ComposerDraftStore) (p : ComposerDraftPersistenceProjection).
Context (Hslots : forall t, persistable (slot s t)).
Context (Hrooms : half_spec (fun r => projected_rooms p !! r) (quiescent_room_order p)
                    (protected_empty_rooms p) (room_entry s) (room_has_content s)).
Context (Hthreads : half_spec (fun t => nested_get (projected_threads p) t.1 t.2)
                      (quiescent_thread_order p) (protected_empty_threads p) (thread_entry s)
                      (thread_has_content s)).
Context (Hinner : forall r inner, projected_threads p !! r = Some inner -> inner <> ∅).

Lemma empty_entry_keys {K} (lookup : K -> option _) order protected entry has (slot_of : K -> Slot) k :
  half_spec lookup order protected entry has ->
  (forall k, entry k = entry_of (slot_of k)) -> (forall k, has k = has_content (slot_of k)) ->
  (forall k, slot_wf (slot_of k)) ->
  (exists e, lookup k = Some e /\ entry_is_empty e = true) <-> k ∈ order \/ k ∈ protected.
Proof.
  intros H He Hh Hw. split.
  - intros (e & (-> & Hin)%(half_lookup _ _ _ _ _ H) & Hempty).
    rewrite He, entry_is_empty_has, <-Hh in Hempty by done. apply negb_true_iff in Hempty.
    destruct Hin as [Hin|Hin]; [congruence|done].
  - intros Hin. exists (entry k). split; [apply (half_present _ _ _ _ _ H); tauto|].
    rewrite He, entry_is_empty_has, <-Hh by done. apply negb_true_iff.
    destruct Hin as [Hin|Hin]; [by apply (half_empty_order _ _ _ _ _ H)|by apply (half_empty_protected _ _ _ _ _ H)].
Qed.

Lemma slot_ok t : slot_wf (slot s t).
Proof. apply Hslots. Qed.

Lemma room_entries_ok r e : projected_rooms p !! r = Some e -> entry_is_malformed e = false.
Proof. intros [-> _]%(half_lookup _ _ _ _ _ Hrooms). rewrite room_entry_slot. apply entry_well_formed, Hslots. Qed.

Lemma thread_entries_ok r e x : nested_get (projected_threads p) r e = Some x -> entry_is_malformed x = false.
Proof.
  intros H. destruct (half_lookup _ _ _ _ _ Hthreads (r, e) x H) as [-> _].
  rewrite thread_entry_slot. apply entry_well_formed, Hslots.
Qed.

Lemma existsb_map_false {A} (f : string * A -> bool) (m : gmap string A) :
  (forall k x, m !! k = Some x -> f (k, x) = false) -> existsb f (map_to_list m) = false.
Proof.
  intros Hf. apply not_true_iff_false. intros ([k x] & Hin & H)%existsb_exists.
  apply list_elem_of_In, elem_of_map_to_list in Hin. by rewrite Hf in H.
Qed.

Lemma validates : validate_persisted_projection p = None.
Proof.
  unfold validate_persisted_projection.
  rewrite existsb_map_false by apply room_entries_ok.
  rewrite (orders_exact (quiescent_room_order p)); cbn [negb].
  - rewrite existsb_map_false.
    + rewrite (orders_exact (quiescent_thread_order p)); [done|apply Hthreads|apply Hthreads|apply Hthreads|].
      intros [r e]. rewrite elem_of_list_to_set, list_elem_of_filter, elem_of_nested_keys. cbn [fst snd].
      rewrite <-(empty_entry_keys _ _ _ _ _ (fun t => slot s (thread_target t)) (r, e) Hthreads
                  (thread_entry_slot s) (thread_content_slot s) (fun t => slot_ok _)). cbn [fst snd].
      destruct (nested_get (projected_threads p) r e) as [x|]; cbn; [|naive_solver].
      split; [intros [? _]; by eexists|intros (? & [= <-] & ?); done].
    + intros r inner Hr. cbn. rewrite bool_decide_eq_false_2 by (by eapply Hinner).
      apply existsb_map_false. intros e x Hx. apply (thread_entries_ok r e).
      unfold nested_get. by rewrite Hr.
  - apply Hrooms.
  - apply Hrooms.
  - apply Hrooms.
  - intros r. rewrite elem_of_dom.
    rewrite <-(empty_entry_keys _ _ _ _ _ (fun r => slot s (Main r)) r Hrooms
                (room_entry_slot s) (room_content_slot s) (fun r => slot_ok _)).
    split.
    + intros [e (He & _ & ?)%map_lookup_filter_Some]. by exists e.
    + intros (e & He & ?). exists e. apply map_lookup_filter_Some. split_and!; [done|by eapply room_entries_ok|done].
Qed.

(** *** Import *)

Lemma import_slot_wf retained sl : persistable sl -> slot_wf (import_slot retained (Some (entry_of sl))).
Proof.
  intros Hp. pose proof (import_entry_survives retained sl (ps_wf _ Hp)) as Hs.
  unfold survives in Hs. destruct (slot_content sl) as [d|] eqn:E.
  - destruct Hs as (H1 & H2 & H3 & H4). constructor.
    + intros d'. rewrite H1. intros [= <-]. split; [by apply (ps_storable _ Hp)|rewrite H2; by eexists].
    + intros c Hc. rewrite H2. eexists. split; [done|]. rewrite Hc in H3. cbn [default] in H3.
      change (c = default ZERO (slot_clear sl)) in H3. rewrite H3.
      destruct (slot_clear sl) as [c0|] eqn:E0; [|apply Hp].
      destruct (wf_clear _ (ps_wf _ Hp) c0 E0) as (r & Hr & ?). unfold revision_of. by rewrite Hr.
    + rewrite H1. by eexists.
  - destruct Hs as [->|(H1 & H2 & H3 & H4)]; [apply slot_wf_empty|]. constructor.
    + by rewrite H1.
    + intros c Hc. rewrite H3. eexists. split; [done|]. rewrite Hc in H4.
      change (c = default ZERO (slot_clear sl)) in H4. rewrite H4.
      destruct (slot_clear sl) as [c0|] eqn:E0; [|apply Hp].
      destruct (wf_clear _ (ps_wf _ Hp) c0 E0) as (r & Hr & ?). unfold revision_of. by rewrite Hr.
    + rewrite H2. by intros [].
Qed.

Lemma import_none retained : import_slot retained None = slot_empty.
Proof. done. Qed.

(** The queue entries of the import. *)
Lemma imported_order {K} `{EqDecision K} (lookup : K -> option _) order protected entry has
    (slot_of : K -> Slot) (le : K -> K -> bool) n :
  half_spec lookup order protected entry has ->
  (forall k, entry k = entry_of (slot_of k)) -> (forall k, has k = has_content (slot_of k)) ->
  (forall k, slot_wf (slot_of k)) ->
  NoDup (retain_newest (order ++ sort_by le protected) n)
  /\ forall k, k ∈ retain_newest (order ++ sort_by le protected) n ->
       lookup k = Some (entry k) /\ slot_content (slot_of k) = None.
Proof.
  intros H He Hh Hw.
  assert (Hd : NoDup (order ++ sort_by le protected)).
  { apply NoDup_app. split_and!; [apply H| |].
    - intros k Hk. rewrite elem_of_sort_by. by apply (half_empty_order _ _ _ _ _ H).
    - rewrite sort_by_Permutation. apply H. }
  destruct (retain_newest_spec _ n Hd) as [Hd' Hsub]. split; [done|]. intros k Hk%Hsub.
  rewrite elem_of_app, elem_of_sort_by in Hk. split; [apply (half_present _ _ _ _ _ H); tauto|].
  assert (Hno : has k = false).
  { destruct Hk; [by apply (half_empty_order _ _ _ _ _ H)|by apply (half_empty_protected _ _ _ _ _ H)]. }
  rewrite Hh, has_content_wf in Hno by done. apply bool_decide_eq_false in Hno. by apply eq_None_not_Some.
Qed.

Lemma import_content_none retained sl :
  slot_wf sl -> slot_content sl = None ->
  slot_content (import_slot retained (Some (entry_of sl))) = None.
Proof.
  intros Hw E. pose proof (import_entry_survives retained sl Hw) as Hs. unfold survives in Hs.
  rewrite E in Hs. by destruct Hs as [->|(? & _)].
Qed.

Lemma import_revision_retained sl : is_Some (slot_revision (import_slot true (Some (entry_of sl)))).
Proof. cbn. unfold imported_revision, keeps_entry. rewrite orb_true_r. by eexists. Qed.

Lemma imports :
  exists s', from_persisted_projection p = inl s' /\ store_wf s' /\ forall t, survives (slot s t) (slot s' t).
Proof.
  unfold from_persisted_projection. rewrite validates. eexists. split; [reflexivity|].
  set (room_order := retain_newest (quiescent_room_order p ++ sort_by String.leb (protected_empty_rooms p)) _).
  set (thread_order := retain_newest (quiescent_thread_order p ++ sort_by thread_key_leb (protected_empty_threads p)) _).
  destruct (imported_order _ _ _ _ _ (fun r => slot s (Main r)) String.leb MAX_PERSISTED_COMPOSER_DRAFT_ROOM_COUNT
              Hrooms (room_entry_slot s) (room_content_slot s) (fun _ => slot_ok _)) as [Hrd Hrin].
  destruct (imported_order _ _ _ _ _ (fun t => slot s (thread_target t)) thread_key_leb
              MAX_PERSISTED_COMPOSER_DRAFT_THREAD_COUNT
              Hthreads (thread_entry_slot s) (thread_content_slot s) (fun _ => slot_ok _)) as [Htd Htin].
  fold room_order in Hrd, Hrin. fold thread_order in Htd, Htin.
  match goal with |- store_wf ?x /\ _ => set (s' := x) end.
  assert (Hmain : forall r, slot s' (Main r) = import_slot (bool_decide (r ∈ room_order)) (projected_rooms p !! r)).
  { intros r. apply slot_ext; cbn; rewrite ?lookup_omap, ?map_lookup_imap; by destruct (projected_rooms p !! r). }
  assert (Hthread : forall r e, slot s' (Thread r e)
            = import_slot (bool_decide ((r, e) ∈ thread_order)) (nested_get (projected_threads p) r e)).
  { intros r e. apply slot_ext; cbn; rewrite ?nested_imap_get; by destruct (nested_get (projected_threads p) r e). }
  assert (Hboth : forall t, exists retained o, slot s' t = import_slot retained o
            /\ (o = Some (entry_of (slot s t)) \/ (o = None /\ slot_content (slot s t) = None))).
  { intros [r|r e]; [rewrite Hmain|rewrite Hthread]; eexists _, _; (split; [reflexivity|]).
    - destruct (projected_rooms p !! r) as [x|] eqn:E.
      + left. by destruct (half_lookup _ _ _ _ _ Hrooms r x E) as [-> _].
      + right. split; [done|]. apply eq_None_not_Some. intros [d Hd].
        assert (Hh : room_has_content s r = true).
        { rewrite room_content_slot, has_content_wf by apply slot_ok. apply bool_decide_eq_true. by eexists. }
        pose proof (half_present _ _ _ _ _ Hrooms r (or_introl Hh)) as Hp. cbn in Hp. congruence.
    - destruct (nested_get (projected_threads p) r e) as [x|] eqn:E.
      + left. by destruct (half_lookup _ _ _ _ _ Hthreads (r, e) x E) as [-> _].
      + right. split; [done|]. apply eq_None_not_Some. intros [d Hd].
        assert (Hh : thread_has_content s (r, e) = true).
        { rewrite thread_content_slot, has_content_wf by apply slot_ok. apply bool_decide_eq_true. by eexists. }
        pose proof (half_present _ _ _ _ _ Hthreads (r, e) (or_introl Hh)) as Hp. cbn in Hp. congruence. }
  split.
  - apply wf_of_queue; [|exact Hrd|exact Htd| |].
    + intros t. destruct (Hboth t) as (retained & o & -> & [->|[-> _]]);
        [apply import_slot_wf, Hslots|apply slot_wf_empty].
    + intros r Hr. destruct (Hrin r Hr) as [Hl Hn].
      change (slot_content (slot s' (Main r)) = None /\ is_Some (slot_revision (slot s' (Main r)))).
      rewrite Hmain, bool_decide_eq_true_2, Hl, room_entry_slot by done.
      split; [by apply import_content_none; [apply slot_ok|]|apply import_revision_retained].
    + intros r e Hr. destruct (Htin (r, e) Hr) as [Hl Hn]. cbn [fst snd] in Hl.
      change (slot_content (slot s' (Thread r e)) = None /\ is_Some (slot_revision (slot s' (Thread r e)))).
      rewrite Hthread, bool_decide_eq_true_2, Hl, thread_entry_slot by done.
      split; [by apply import_content_none; [apply slot_ok|]|apply import_revision_retained].
  - intros t. destruct (Hboth t) as (retained & o & -> & [->|[-> Hn]]);
      [apply import_entry_survives, slot_ok|by apply import_nothing_survives].
Qed.

End round_trip.

(** The projection a well-formed store exports is always accepted on import, and in the store it
    gives back every draft is there.  The one assumption on the drafts is that cutting them
    leaves something. *)
Lemma projection_imports s protection :
  store_wf s ->
  (forall t d, slot_content (slot s t) = Some d -> storable d) ->
  (forall t, (0 <= revision_of (slot s t))%Z) ->
  exists p s',
    persisted_projection s protection = Some p
    /\ validate_persisted_projection p = None
    /\ from_persisted_projection p = inl s' /\ store_wf s'
    /\ (forall t, survives (slot s t) (slot s' t))
    /\ (forall r e, projected_rooms p !! r = Some e -> e = room_entry s r)
    /\ (forall t e, nested_get (projected_threads p) t.1 t.2 = Some e -> e = thread_entry s t).
Proof.
  intros Hw Hst Hr. unfold persisted_projection.
  match goal with |- context [retain_newest_eligible (quiescent_order (btree_set_iter ?all) _ (fun r => _ && negb (bool_decide (r ∈ ?prot)))) ?n ?pending] =>
    destruct (export_rooms s prot all pending n) as (order & Eo & Hrooms) end.
  rewrite Eo. cbn [mbind option_bind].
  match goal with |- context [retain_newest_eligible (quiescent_order (thread_set_iter ?all) _ (fun r => _ && negb (bool_decide (r ∈ ?prot)))) ?n ?pending] =>
    destruct (export_threads s prot all pending n) as (torder & Et & Hthreads) end.
  rewrite Et. cbn [mbind option_bind].
  assert (Hslots : forall t, persistable (slot s t)) by (intros t; constructor; [apply Hw|apply Hst|apply Hr]).
  match goal with |- exists p s', Some ?x = Some p /\ _ => set (p := x) end.
  assert (Hinner : forall r inner, projected_threads p !! r = Some inner -> inner <> ∅)
    by (intros r inner; apply nested_of_keys_inner).
  destruct (imports s p Hslots Hrooms Hthreads Hinner) as (s' & E & Hw' & Hsv).
  exists p, s'. split_and!; [done|by apply (validates s)|done|done|done| |].
  - intros r e He. by apply (half_lookup _ _ _ _ _ Hrooms).
  - intros t e He. by apply (half_lookup _ _ _ _ _ Hthreads).
Qed.

Lemma storable_small d :
  version d = VERSION -> normal (inlines d) -> inlines d <> [] ->
  (document_len d <= MAX_PERSISTED_COMPOSER_DRAFT_BYTES)%nat -> storable d.
Proof.
  intros Hv Hn Hne Hl. unfold storable. rewrite truncated_fits by done.
  unfold document_is_empty. by apply bool_decide_eq_false.
Qed.

Lemma demo_slot t : t <> Main "!r" -> slot demo_store t = slot_empty.
Proof. intros Ht. unfold demo_store. by rewrite apply_draft_rewrites, decide_False; destruct t. Qed.

Lemma demo_storable t d : slot_content (slot demo_store t) = Some d -> storable d.
Proof.
  destruct (decide (t = Main "!r")) as [->|]; [|by rewrite demo_slot].
  intros [= <-]. apply storable_small; [done|done|done|]. apply Nat.leb_le. vm_compute. reflexivity.
Qed.
Lemma demo_revisions t : (0 <= revision_of (slot demo_store t))%Z.
Proof. destruct (decide (t = Main "!r")) as [->|]; [done|by rewrite demo_slot]. Qed.

(** ** A draft that is not storable *)

Fixpoint long_label (n : nat) : string :=
  match n with O => "" | S n => String (ascii_of_nat 97) (long_label n) end.
(** A draft that starts with a mention whose label does not fit in 16 KiB. *)
Definition oversized : Document :=
  let label := long_label MAX_PERSISTED_COMPOSER_DRAFT_BYTES in
  Document_new [Inline_Mention (Mention_User "@long:x" label) label; Inline_Text " hi"].
Definition oversized_store : ComposerDraftStore :=
  (apply_draft demo_store (Main "!other") oversized 1%Z).1.

(** One draft that starts with a mention whose label is longer than 16 KiB makes the
    whole export unreadable: its stored content is cut down to an empty document, which
    validation refuses, and with it every other draft of the account. *)
Theorem oversized_mention_poisons_the_projection :
  store_wf oversized_store
  /\ slot_content (slot oversized_store (Main "!r")) = Some hello
  /\ exists p, persisted_projection oversized_store {| active := ∅; leased := ∅; store_pending := ∅ |} = Some p
       /\ from_persisted_projection p = inr InvalidProjection.
Proof.
  split_and!; [apply store_wf_apply, demo_store_wf|reflexivity|].
  eexists. split; [vm_compute; reflexivity|]. vm_compute. reflexivity.
Qed.
