(* ===== verification/DraftPayload.v ===== *)
(** The saved form of composer drafts ([crates/koushi-core/src/store/composer_drafts.rs]): the
    three schemas of the payload, their conversion to a projection, and loading and saving an
    account's file, with the envelope of [crates/koushi-store/src/lib.rs].

    [serde_json] turns the bytes of a payload into one of the three records, which is
    [DraftPayload]; that, the cipher of the envelope and the credential store are parameters. *)

From stdpp Require Import base list strings gmap.
From Stdlib Require Import ZArith Lia.
From S2P Require Import Prelude Text Markdown ComposerDocument DraftStore DraftPersistence.
Local Open Scope string_scope.
Local Open Scope list_scope.
Local Set Warnings "-clear-no-such-hyp".

Inductive ComposerDraftPayloadError := Corrupt.

Definition COMPOSER_DRAFT_PAYLOAD_SCHEMA_VERSION : Z := 3.

(** An entry of schema 3 has the fields of the projection's entry. *)
Record PersistedComposerDraftStoreV3 := {
  schema_version : Z;
  v3_rooms : gmap string ComposerDraftPersistenceEntry;
  v3_threads : Nested ComposerDraftPersistenceEntry;
  v3_room_order : list string;
  v3_thread_order : list ThreadKey;
  v3_empty_rooms : list string;
  v3_empty_threads : list ThreadKey }.
Record PersistedComposerDraftEntryV2 := {
  v2_content : option string; v2_revision : ComposerDraftRevision;
  v2_clear_revision : ComposerDraftRevision }.
Record PersistedComposerDraftStoreV2 := {
  v2_rooms : gmap string PersistedComposerDraftEntryV2;
  v2_threads : Nested PersistedComposerDraftEntryV2;
  v2_room_order : list string;
  v2_thread_order : list ThreadKey;
  v2_empty_rooms : list string;
  v2_empty_threads : list ThreadKey }.
Record LegacyComposerDraftStoreV1 := {
  legacy_rooms : gmap string string;
  legacy_threads : Nested string;
  legacy_room_revisions : gmap string Z;
  legacy_thread_revisions : Nested Z;
  legacy_room_clear_revisions : gmap string Z;
  legacy_thread_clear_revisions : Nested Z;
  legacy_room_lru : list string;
  legacy_thread_lru : list ThreadKey }.

(** What serde reads: a record of the schema the payload names, or of schema 1 when it names
    none, with the documents as they are on the wire; an unknown schema or a malformed payload is
    [Payload_Malformed]. *)
Inductive DraftPayload :=
  | Payload_V3 (p : PersistedComposerDraftStoreV3)
  | Payload_V2 (p : PersistedComposerDraftStoreV2)
  | Payload_V1 (p : LegacyComposerDraftStoreV1)
  | Payload_Malformed.

Definition v3_is_empty (p : PersistedComposerDraftStoreV3) : bool :=
  bool_decide (v3_rooms p = ∅) && bool_decide (v3_threads p = ∅).

(** In the order of a set of targets: rooms, then threads. *)
Definition v3_targets (p : PersistedComposerDraftStoreV3) : list ComposerTarget :=
  (Main <$> (btree_iter (v3_rooms p)).*1)
  ++ (thread_target <$> nested_keys (v3_threads p)).

Definition v3_of_projection (p : ComposerDraftPersistenceProjection) : PersistedComposerDraftStoreV3 :=
  {| schema_version := COMPOSER_DRAFT_PAYLOAD_SCHEMA_VERSION; v3_rooms := projected_rooms p;
     v3_threads := projected_threads p; v3_room_order := quiescent_room_order p;
     v3_thread_order := quiescent_thread_order p; v3_empty_rooms := protected_empty_rooms p;
     v3_empty_threads := protected_empty_threads p |}.
Definition projection_of_v3 (p : PersistedComposerDraftStoreV3) : ComposerDraftPersistenceProjection :=
  {| projected_rooms := v3_rooms p; projected_threads := v3_threads p;
     quiescent_room_order := v3_room_order p; quiescent_thread_order := v3_thread_order p;
     protected_empty_rooms := v3_empty_rooms p; protected_empty_threads := v3_empty_threads p |}.

Definition persisted_payload (drafts : ComposerDraftStore) (protection : ComposerDraftProtection) :
    option PersistedComposerDraftStoreV3 := v3_of_projection <$> persisted_projection drafts protection.

Definition entry_of_v2 (e : PersistedComposerDraftEntryV2) : ComposerDraftPersistenceEntry :=
  {| content := from_plain_text <$> v2_content e; revision := v2_revision e;
     entry_clear_revision := v2_clear_revision e; assistant := None |}.
Definition projection_of_v2 (p : PersistedComposerDraftStoreV2) : ComposerDraftPersistenceProjection :=
  {| projected_rooms := entry_of_v2 <$> v2_rooms p;
     projected_threads := (fun m : gmap string _ => entry_of_v2 <$> m) <$> v2_threads p;
     quiescent_room_order := v2_room_order p; quiescent_thread_order := v2_thread_order p;
     protected_empty_rooms := v2_empty_rooms p; protected_empty_threads := v2_empty_threads p |}.

(** * Schema 1 *)

(** [saved_order] must list distinct empty targets; the others follow in order. *)
Definition merge_legacy_order {T} `{Countable T} (leb : T -> T -> bool) (saved_order : list T)
    (empty_targets : gset T) : list T + ComposerDraftPayloadError :=
  if negb (forallb (fun t => bool_decide (t ∈ empty_targets)) saved_order)
     || negb (bool_decide (NoDup saved_order))
  then inr Corrupt
  else inl (saved_order ++ sort_by leb (elements (empty_targets ∖ list_to_set saved_order))).

Definition non_empty_text (s : string) : option string := if is_empty s then None else Some s.
Definition legacy_entry (text : option string) (revision clear_revision : option Z) :
    ComposerDraftPersistenceEntry :=
  {| content := from_plain_text <$> (text ≫= non_empty_text); revision := default ZERO revision;
     entry_clear_revision := default ZERO clear_revision; assistant := None |}.
Definition legacy_room_entry (p : LegacyComposerDraftStoreV1) (room_id : string) :
    ComposerDraftPersistenceEntry :=
  legacy_entry (legacy_rooms p !! room_id) (legacy_room_revisions p !! room_id)
    (legacy_room_clear_revisions p !! room_id).
Definition legacy_thread_entry (p : LegacyComposerDraftStoreV1) (t : ThreadKey) :
    ComposerDraftPersistenceEntry :=
  legacy_entry (nested_get (legacy_threads p) t.1 t.2) (nested_get (legacy_thread_revisions p) t.1 t.2)
    (nested_get (legacy_thread_clear_revisions p) t.1 t.2).

Definition legacy_room_ids (p : LegacyComposerDraftStoreV1) : gset string :=
  dom (legacy_rooms p) ∪ dom (legacy_room_revisions p) ∪ dom (legacy_room_clear_revisions p).
Definition legacy_thread_targets (p : LegacyComposerDraftStoreV1) : gset ThreadKey :=
  nested_key_set (legacy_threads p) ∪ nested_key_set (legacy_thread_revisions p)
  ∪ nested_key_set (legacy_thread_clear_revisions p).
Definition without_content {T} `{Countable T} (entry : T -> ComposerDraftPersistenceEntry) (X : gset T) :
    gset T := filter (fun t => content (entry t) = None) X.

Definition projection_of_v1 (p : LegacyComposerDraftStoreV1) :
    ComposerDraftPersistenceProjection + ComposerDraftPayloadError :=
  let room_ids := legacy_room_ids p in
  let targets := legacy_thread_targets p in
  match merge_legacy_order String.leb (legacy_room_lru p)
          (without_content (legacy_room_entry p) room_ids) with
  | inr e => inr e
  | inl room_order =>
      match merge_legacy_order thread_key_leb (legacy_thread_lru p)
              (without_content (legacy_thread_entry p) targets) with
      | inr e => inr e
      | inl thread_order =>
          inl {| projected_rooms := set_to_map (fun r => (r, legacy_room_entry p r)) room_ids;
                 projected_threads := nested_of_keys (legacy_thread_entry p) (thread_set_iter targets);
                 quiescent_room_order := room_order; quiescent_thread_order := thread_order;
                 protected_empty_rooms := []; protected_empty_threads := [] |}
      end
  end.

(** [Deserialize] of the documents in a record of schema 3. *)
Definition deserialize_entry (e : ComposerDraftPersistenceEntry) : option ComposerDraftPersistenceEntry :=
  match content e with
  | None => Some e
  | Some wire =>
      d ← deserialize_document wire;
      Some {| content := Some d; revision := revision e; entry_clear_revision := entry_clear_revision e;
              assistant := assistant e |}
  end.
(** Every value of a map, or nothing. *)
Definition deserialize_all {A} (f : A -> option A) (m : gmap string A) : option (gmap string A) :=
  if forallb (fun kv => is_some_and (f kv.2) (fun _ => true)) (map_to_list m) then Some (omap f m) else None.
Definition deserialize_v3 (wire : PersistedComposerDraftStoreV3) : option PersistedComposerDraftStoreV3 :=
  entries ← deserialize_all deserialize_entry (v3_rooms wire);
  nested ← deserialize_all (deserialize_all deserialize_entry) (v3_threads wire);
  Some {| schema_version := schema_version wire; v3_rooms := entries; v3_threads := nested;
          v3_room_order := v3_room_order wire; v3_thread_order := v3_thread_order wire;
          v3_empty_rooms := v3_empty_rooms wire; v3_empty_threads := v3_empty_threads wire |}.

Definition import_projection (projection : ComposerDraftPersistenceProjection) :
    ComposerDraftStore + ComposerDraftPayloadError :=
  match from_persisted_projection projection with inl s => inl s | inr _ => inr Corrupt end.
Definition decode_payload (p : DraftPayload) : ComposerDraftStore + ComposerDraftPayloadError :=
  match p with
  | Payload_V3 wire =>
      match deserialize_v3 wire with
      | Some p => import_projection (projection_of_v3 p)
      | None => inr Corrupt
      end
  | Payload_V2 p => import_projection (projection_of_v2 p)
  | Payload_V1 p => match projection_of_v1 p with inl p => import_projection p | inr e => inr e end
  | Payload_Malformed => inr Corrupt
  end.

(** * The encrypted envelope ([crates/koushi-store/src/lib.rs]) *)

Inductive CoreFailure := StoreUnavailable | LocalEncryptionUnavailable.
Inductive EnvelopeError := PayloadTooLarge | Encryption | Decryption | Invalid.

Definition NONCE_LEN : nat := 12.
Definition TAG_LEN : nat := 16.
Definition byte_length (s : string) : Z := Z.of_nat (String.length s).
(** [&s[from..]] and [&s[from..from + n]] *)
Definition bytes_from (s : string) (from : nat) : string :=
  String.substring from (String.length s - from) s.

(** What reading a file gives; [File_Missing] is [ErrorKind::NotFound]. *)
Inductive FileRead := File_Bytes (b : string) | File_Missing | File_Unreadable.

Section file.
(** ChaCha20-Poly1305: key, nonce, text. *)
Context (aead_encrypt : string -> string -> string -> option string).
Context (aead_decrypt : string -> string -> string -> option string).
(** [serde_json::to_vec] of a payload, and reading the bytes of one. *)
Context (encode_json : PersistedComposerDraftStoreV3 -> option string).
Context (decode_json : string -> DraftPayload).
(** The key derived from an account's unlock secret. *)
Context {Secret : Type} (derive_key : Secret -> string).
Context (COMPOSER_DRAFTS_FILE_MAGIC : string).

Definition encrypt_envelope (magic key plaintext : string) (max_payload : Z) (nonce_bytes : string) :
    string + EnvelopeError :=
  if (max_payload <? byte_length plaintext)%Z then inr PayloadTooLarge
  else match aead_encrypt key nonce_bytes plaintext with
       | None => inr Encryption
       | Some ciphertext => inl (magic +:+ nonce_bytes +:+ ciphertext)
       end.
Definition decrypt_envelope (magic key payload : string) (max_payload : Z) : string + EnvelopeError :=
  let header_len := (String.length magic + NONCE_LEN)%nat in
  if (String.length payload <? header_len)%nat
     || (u64_saturating_add (u64_saturating_add (byte_length magic) (Z.of_nat (NONCE_LEN + TAG_LEN)))
           max_payload <? byte_length payload)%Z
     || negb (starts_with payload magic)
  then inr Invalid
  else match aead_decrypt key (String.substring (String.length magic) NONCE_LEN payload)
               (bytes_from payload header_len) with
       | None => inr Decryption
       | Some plaintext => inl plaintext
       end.

Definition encrypt_composer_drafts_payload (secret : Secret) (drafts : PersistedComposerDraftStoreV3)
    (nonce : string) : string + CoreFailure :=
  match encode_json drafts with
  | None => inr StoreUnavailable
  | Some plaintext =>
      match encrypt_envelope COMPOSER_DRAFTS_FILE_MAGIC (derive_key secret) plaintext U64_MAX nonce with
      | inl payload => inl payload
      | inr _ => inr StoreUnavailable
      end
  end.
Definition decrypt_composer_drafts_payload (secret : Secret) (payload : string) :
    ComposerDraftStore + CoreFailure :=
  match decrypt_envelope COMPOSER_DRAFTS_FILE_MAGIC (derive_key secret) payload U64_MAX with
  | inr _ => inr StoreUnavailable
  | inl plaintext =>
      match decode_payload (decode_json plaintext) with
      | inl s => inl s
      | inr Corrupt => inr StoreUnavailable
      end
  end.

(** * The file of an account *)

(** [secret] is what the credential store answers. *)
Definition load_composer_drafts (file : FileRead) (secret : option Secret) :
    ComposerDraftStore + CoreFailure :=
  match file with
  | File_Missing => inl ComposerDraftStore_default
  | File_Unreadable => inr StoreUnavailable
  | File_Bytes bytes =>
      match secret with
      | None => inr LocalEncryptionUnavailable
      | Some secret => decrypt_composer_drafts_payload secret bytes
      end
  end.

(** The file after the save, and the failure; [io_ok] is the outcome of removing or replacing
    the file. *)
Definition save_composer_drafts (file : FileRead) (secret : option Secret)
    (drafts : PersistedComposerDraftStoreV3) (nonce : string) (io_ok : bool) :
    FileRead * option CoreFailure :=
  if v3_is_empty drafts then
    if io_ok then (File_Missing, None) else (file, Some StoreUnavailable)
  else
    match secret with
    | None => (file, Some LocalEncryptionUnavailable)
    | Some secret =>
        match encrypt_composer_drafts_payload secret drafts nonce with
        | inr e => (file, Some e)
        | inl payload => if io_ok then (File_Bytes payload, None) else (file, Some StoreUnavailable)
        end
    end.
End file.
