(* ===== verification/DraftPayloadProps.v ===== *)
(** The saved form of composer drafts ([DraftPayload.v]): what is saved loads back, and the
    drafts of the first schema are imported. *)

From stdpp Require Import base list strings gmap sorting.
From Stdlib Require Import ZArith Lia Ascii.
From S2P Require Import Prelude Text Markdown ComposerDocument ComposerProps DraftStore DraftPersistence DraftProps DraftEviction DraftPersistProps DraftPayload.
Local Open Scope string_scope.
Local Open Scope list_scope.
Local Set Warnings "-clear-no-such-hyp".

#[local] Opaque truncated_to_plain_bytes MAX_PERSISTED_COMPOSER_DRAFT_BYTES.

(** * Strings *)

Lemma substring_all a : String.substring 0 (String.length a) a = a.
Proof. induction a as [|c a IH]; cbn; [done|exact (f_equal (String c) IH)]. Qed.
Lemma substring_skip a b n m : String.substring (String.length a + n) m (a +:+ b) = String.substring n m b.
Proof. by induction a as [|c a IH]. Qed.
Lemma starts_with_append a b : starts_with (a +:+ b) a = true.
Proof.
  unfold starts_with. apply bool_decide_eq_true. exists b.
  induction a as [|c a IH]; [done|].
  change ((if Ascii.eqb c c then strip_prefix a (a +:+ b) else None) = Some b). by rewrite Ascii.eqb_refl.
Qed.

(** * Deserialized documents *)

Lemma deserialize_all_id {A} (f : A -> option A) (m : gmap string A) :
  (forall k x, m !! k = Some x -> f x = Some x) -> deserialize_all f m = Some m.
Proof.
  intros Hf. unfold deserialize_all. rewrite (proj2 (forallb_forall _ _)).
  - f_equal. apply map_eq. intros k. rewrite lookup_omap. destruct (m !! k) as [x|] eqn:E; [|done].
    cbn. by apply (Hf k).
  - intros [k x] Hin. apply list_elem_of_In, elem_of_map_to_list in Hin. cbn. by rewrite (Hf k x Hin).
Qed.
Lemma deserialize_truncated d n :
  deserialize_document (truncated_to_plain_bytes d n) = Some (truncated_to_plain_bytes d n).
Proof.
  pose proof (truncated_normal d n) as Hn. revert Hn.
  #[local] Transparent truncated_to_plain_bytes. unfold truncated_to_plain_bytes, deserialize_document.
  cbn. intros Hn. f_equal. unfold Document_new. cbn in Hn. by rewrite (normalize_inlines_id (normalize_inlines _)).
Qed.
#[local] Opaque truncated_to_plain_bytes.
Lemma deserialize_persisted e o : content e = persisted_content o -> deserialize_entry e = Some e.
Proof.
  intros E. destruct e as [c r a m]. cbn in E. subst c. unfold deserialize_entry. cbn [content].
  destruct (persisted_content o) as [w|] eqn:E; [|done].
  assert (deserialize_document w = Some w) as ->; [|done].
  destruct o as [d|]; [|done]. cbn in E. destruct (document_is_empty d); [done|].
  injection E as <-. apply deserialize_truncated.
Qed.
Lemma deserialize_projection s p :
  (forall r e, projected_rooms p !! r = Some e -> e = room_entry s r) ->
  (forall t e, nested_get (projected_threads p) t.1 t.2 = Some e -> e = thread_entry s t) ->
  deserialize_v3 (v3_of_projection p) = Some (v3_of_projection p).
Proof.
  intros Hr Ht. unfold deserialize_v3, v3_of_projection. cbn [v3_rooms v3_threads].
  rewrite (deserialize_all_id deserialize_entry (projected_rooms p)).
  2: { intros r e ->%Hr. by eapply deserialize_persisted. }
  cbn [mbind option_bind]. rewrite deserialize_all_id; [done|].
  intros r inner E. apply deserialize_all_id. intros e x Ex.
  rewrite (Ht (r, e) x); [by eapply deserialize_persisted|]. unfold nested_get. cbn. by rewrite E.
Qed.

(** * The file *)

Section file_round_trip.
Context (aead_encrypt : string -> string -> string -> option string).
Context (aead_decrypt : string -> string -> string -> option string).
Context (encode_json : PersistedComposerDraftStoreV3 -> option string).
Context (decode_json : string -> DraftPayload).
Context {Secret : Type} (derive_key : Secret -> string) (magic : string).
(** The cipher adds its tag, and decrypts what it encrypted. *)
Context (Htag : forall k n p c, aead_encrypt k n p = Some c -> String.length c = (String.length p + TAG_LEN)%nat).
Context (Hcipher : forall k n p c, aead_encrypt k n p = Some c -> aead_decrypt k n c = Some p).

Lemma envelope_opens key plaintext max nonce payload :
  String.length nonce = NONCE_LEN -> (0 <= max)%Z ->
  encrypt_envelope aead_encrypt magic key plaintext max nonce = inl payload ->
  (byte_length payload <= U64_MAX)%Z ->
  decrypt_envelope aead_decrypt magic key payload max = inl plaintext.
Proof.
  intros Hn Hmax. unfold encrypt_envelope, decrypt_envelope.
  destruct (max <? byte_length plaintext)%Z eqn:Em; [done|]. apply Z.ltb_ge in Em.
  destruct (aead_encrypt key nonce plaintext) as [c|] eqn:Ec; [|done]. intros [= <-] Hfits.
  pose proof (Htag _ _ _ _ Ec) as Hc. unfold byte_length in *.
  assert (Hl : String.length (magic +:+ nonce +:+ c)
               = (String.length magic + NONCE_LEN + String.length c)%nat)
    by (rewrite !length_append, Hn; lia).
  rewrite starts_with_append, Hl. rewrite Hl in Hfits.
  rewrite (proj2 (Nat.ltb_ge _ _)) by lia. rewrite (proj2 (Z.ltb_ge _ _)).
  2: { unfold u64_saturating_add. lia. }
  cbn [orb negb]. rewrite <-(Nat.add_0_r (String.length magic)) at 1. rewrite substring_skip.
  rewrite <-Hn at 1. rewrite substring_prefix.
  unfold bytes_from. rewrite Hl, <-Hn, substring_skip, <-(Nat.add_0_r (String.length nonce)), substring_skip.
  replace (_ - _)%nat with (String.length c) by lia. by rewrite substring_all, (Hcipher _ _ _ _ Ec).
Qed.

(** What a well-formed store exports is saved as a file that loads back.  When there is nothing to
    keep the file is removed, and a missing file loads as an empty store. *)
Lemma saved_drafts_load s protection :
  store_wf s ->
  (forall t d, slot_content (slot s t) = Some d -> storable d) ->
  (forall t, (0 <= revision_of (slot s t))%Z) ->
  exists p, persisted_payload s protection = Some p /\
  forall file file' secret nonce,
    (forall b, encode_json p = Some b -> decode_json b = Payload_V3 p) ->
    String.length nonce = NONCE_LEN ->
    save_composer_drafts aead_encrypt encode_json derive_key magic file (Some secret) p nonce true
      = (file', None) ->
    (forall b, file' = File_Bytes b -> (byte_length b <= U64_MAX)%Z) ->
    exists s', load_composer_drafts aead_decrypt decode_json derive_key magic file' (Some secret) = inl s' /\
      store_wf s' /\ forall t, survives (slot s t) (slot s' t).
Proof.
  intros Hw Hst Hr.
  destruct (projection_imports s protection Hw Hst Hr) as (p & s' & Hp & Hv & Hi & Hw' & Hs & Hpr & Hpt).
  exists (v3_of_projection p). unfold persisted_payload. rewrite Hp. split; [done|].
  intros file file' secret nonce Hjson Hn. unfold save_composer_drafts.
  destruct (v3_is_empty (v3_of_projection p)) eqn:Ee.
  - intros [= <-] _. exists ComposerDraftStore_default. split; [done|split; [apply store_wf_default|]].
    unfold v3_is_empty in Ee. apply andb_true_iff in Ee as [E1%bool_decide_eq_true E2%bool_decide_eq_true].
    cbn in E1, E2. intros t. pose proof (Hs t) as Ht. unfold survives in *.
    destruct (slot_content (slot s t)) as [d|]; [exfalso|left; by destruct t].
    destruct Ht as [Ht _]. revert Ht. unfold from_persisted_projection in Hi. rewrite Hv in Hi.
    injection Hi as <-. destruct t as [r|r e]; cbn; [by rewrite E1, omap_empty, lookup_empty|].
    rewrite nested_imap_get, E2. done.
  - unfold encrypt_composer_drafts_payload. destruct (encode_json _) as [b|] eqn:Eb; [|done].
    destruct (encrypt_envelope _ _ _ _ _ _) as [payload|] eqn:Ep; [|done]. intros [= <-] Hfits.
    exists s'. split; [|done]. cbn. unfold decrypt_composer_drafts_payload.
    rewrite (envelope_opens (derive_key secret) b U64_MAX nonce payload Hn); [|by unfold U64_MAX; lia|done|by apply Hfits].
    rewrite (Hjson b eq_refl).
    cbn [decode_payload]. rewrite (deserialize_projection s p Hpr Hpt).
    unfold import_projection. by replace (projection_of_v3 (v3_of_projection p)) with p
      by (by destruct p); rewrite Hi.
Qed.
End file_round_trip.

Definition no_protection : ComposerDraftProtection := {| active := ∅; leased := ∅; store_pending := ∅ |}.
(** A cipher and its inverse, for examples. *)
Definition tag_of_sixteen : string := "0123456789abcdef".
Definition demo_encrypt (k n p : string) : option string := Some (tag_of_sixteen +:+ p).
Definition demo_decrypt (k n c : string) : option string := strip_prefix tag_of_sixteen c.
Lemma demo_tag k n p c : demo_encrypt k n p = Some c -> String.length c = (String.length p + TAG_LEN)%nat.
Proof. intros [= <-]. rewrite length_append. unfold TAG_LEN. cbn. lia. Qed.
Lemma demo_cipher k n p c : demo_encrypt k n p = Some c -> demo_decrypt k n c = Some p.
Proof. by intros [= <-]. Qed.

(** * The first schema *)

Lemma validate_ok p :
  (forall r e, projected_rooms p !! r = Some e -> entry_is_malformed e = false) ->
  (forall t e, nested_get (projected_threads p) t.1 t.2 = Some e -> entry_is_malformed e = false) ->
  (forall r inner, projected_threads p !! r = Some inner -> inner <> ∅) ->
  NoDup (quiescent_room_order p) -> protected_empty_rooms p = [] ->
  (forall r, r ∈ quiescent_room_order p <->
     exists e, projected_rooms p !! r = Some e /\ entry_is_empty e = true) ->
  NoDup (quiescent_thread_order p) -> protected_empty_threads p = [] ->
  (forall t, t ∈ quiescent_thread_order p <->
     exists e, nested_get (projected_threads p) t.1 t.2 = Some e /\ entry_is_empty e = true) ->
  validate_persisted_projection p = None.
Proof.
  intros Hr Ht Hi Dr Pr Or Dt Pt Ot. unfold validate_persisted_projection.
  rewrite (existsb_map_false (fun kv => entry_is_malformed kv.2) (projected_rooms p)) by apply Hr.
  rewrite Pr, Pt, (orders_exact (quiescent_room_order p) []); [cbn [negb]|done|constructor|by intros k _ ?%elem_of_nil|].
  - rewrite existsb_map_false.
    + rewrite (orders_exact (quiescent_thread_order p) []); [done|done|constructor|by intros k _ ?%elem_of_nil|].
      intros [r e]. rewrite elem_of_list_to_set, list_elem_of_filter, elem_of_nested_keys, Ot. cbn [fst snd].
      destruct (nested_get (projected_threads p) r e) as [x|]; cbn.
      * split; [intros [? _]; left; by exists x|intros [(? & [= <-] & ?)|?%elem_of_nil]; done].
      * split; [intros [_ [? [=]]]|intros [(? & [=] & _)|?%elem_of_nil]; done].
    + intros r inner E. cbn. rewrite bool_decide_eq_false_2 by (by eapply Hi).
      apply existsb_map_false. intros e x Ex. apply (Ht (r, e)). unfold nested_get. cbn. by rewrite E.
  - intros r. rewrite elem_of_dom, Or. split.
    + intros [e (He & _ & ?)%map_lookup_filter_Some]. left. by exists e.
    + intros [(e & He & ?)|?%elem_of_nil]; [|done]. exists e. apply map_lookup_filter_Some.
      split_and!; [done|by eapply Hr|done].
Qed.
Lemma validate_malformed p :
  (exists r e, projected_rooms p !! r = Some e /\ entry_is_malformed e = true) \/
  (exists t e, nested_get (projected_threads p) t.1 t.2 = Some e /\ entry_is_malformed e = true) ->
  validate_persisted_projection p = Some InvalidProjection.
Proof.
  intros H. unfold validate_persisted_projection.
  destruct (existsb _ (map_to_list (projected_rooms p))) eqn:E; [done|].
  destruct (negb _); [done|]. destruct H as [(r & e & He & Hm)|(t & e & He & Hm)].
  - exfalso. apply not_true_iff_false in E. apply E, existsb_exists. exists (r, e).
    split; [by apply list_elem_of_In, elem_of_map_to_list|done].
  - rewrite (proj2 (existsb_exists _ _)); [done|]. unfold nested_get in He.
    destruct (projected_threads p !! t.1) as [inner|] eqn:Ei; [|done]. cbn in He.
    exists (t.1, inner). split; [by apply list_elem_of_In, elem_of_map_to_list|]. cbn.
    apply orb_true_iff. right. apply existsb_exists. exists (t.2, e).
    split; [by apply list_elem_of_In, elem_of_map_to_list|done].
Qed.

Section merge.
Context {T : Type} `{Countable T} (leb : T -> T -> bool).
Implicit Types (saved : list T) (empty : gset T).
Definition order_ok saved empty : Prop := NoDup saved /\ forall t, t ∈ saved -> t ∈ empty.
Lemma merge_ok saved empty : order_ok saved empty ->
  exists order, merge_legacy_order leb saved empty = inl order /\ NoDup order /\ forall t, t ∈ order <-> t ∈ empty.
Proof.
  intros [Hd Hin]. unfold merge_legacy_order. rewrite (bool_decide_eq_true_2 _ Hd).
  rewrite (proj2 (forallb_forall _ _)).
  2: { intros t Ht%list_elem_of_In. by apply bool_decide_eq_true, Hin. }
  cbn. eexists. split; [done|]. split.
  - apply NoDup_app. split_and!; [done| |rewrite sort_by_Permutation; apply NoDup_elements].
    intros t Ht. rewrite elem_of_sort_by, elem_of_elements. set_solver.
  - intros t. rewrite elem_of_app, elem_of_sort_by, elem_of_elements.
    destruct (decide (t ∈ saved)); set_solver.
Qed.
Lemma merge_inl saved empty order : merge_legacy_order leb saved empty = inl order -> order_ok saved empty.
Proof.
  unfold merge_legacy_order. destruct (negb _ || negb _) eqn:E; [done|]. intros _.
  apply orb_false_iff in E as [E1%negb_false_iff E2%negb_false_iff]. split; [by apply bool_decide_eq_true in E2|].
  intros t Ht%list_elem_of_In. rewrite forallb_forall in E1. by apply E1, bool_decide_eq_true in Ht.
Qed.
End merge.

(** What a first-schema payload must satisfy: accepted clears are not newer than the revision,
    and the saved orders name distinct known targets without a text. *)
Definition legacy_room_text (p : LegacyComposerDraftStoreV1) (r : string) : option string :=
  legacy_rooms p !! r ≫= non_empty_text.
Definition legacy_thread_text (p : LegacyComposerDraftStoreV1) (t : ThreadKey) : option string :=
  nested_get (legacy_threads p) t.1 t.2 ≫= non_empty_text.
Record legacy_ok (p : LegacyComposerDraftStoreV1) : Prop := {
  lo_rooms r : (entry_clear_revision (legacy_room_entry p r) <= revision (legacy_room_entry p r))%Z;
  lo_threads t : (entry_clear_revision (legacy_thread_entry p t) <= revision (legacy_thread_entry p t))%Z;
  lo_room_order : NoDup (legacy_room_lru p)
    /\ forall r, r ∈ legacy_room_lru p -> r ∈ legacy_room_ids p /\ legacy_room_text p r = None;
  lo_thread_order : NoDup (legacy_thread_lru p)
    /\ forall t, t ∈ legacy_thread_lru p -> t ∈ legacy_thread_targets p /\ legacy_thread_text p t = None }.

Lemma plain_text_not_empty text : is_empty text = false -> document_is_empty (from_plain_text text) = false.
Proof. intros E. unfold from_plain_text. rewrite E. unfold document_is_empty. cbn. by rewrite E. Qed.
Lemma non_empty_text_some o text : (o ≫= non_empty_text) = Some text -> is_empty text = false.
Proof.
  destruct o as [s|]; [|done]. cbn. unfold non_empty_text. destruct (is_empty s) eqn:E; [done|]. by intros [= <-].
Qed.
Lemma legacy_entry_well_formed o r c : entry_is_malformed (legacy_entry o r c)
  = (revision (legacy_entry o r c) <? entry_clear_revision (legacy_entry o r c))%Z.
Proof.
  unfold entry_is_malformed. cbn. destruct (o ≫= non_empty_text) as [text|] eqn:E; cbn; [|by rewrite orb_false_r].
  rewrite plain_text_not_empty by (by eapply non_empty_text_some). by rewrite orb_false_r.
Qed.
Lemma elem_of_without_content {T} `{Countable T} (entry : T -> ComposerDraftPersistenceEntry) (X : gset T) t :
  t ∈ without_content entry X <-> t ∈ X /\ content (entry t) = None.
Proof. unfold without_content. rewrite elem_of_filter. tauto. Qed.
Lemma legacy_content o r c : content (legacy_entry o r c) = None <-> (o ≫= non_empty_text) = None.
Proof. cbn. by destruct (o ≫= non_empty_text). Qed.
Lemma legacy_room_unknown p r : r ∉ legacy_room_ids p ->
  legacy_rooms p !! r = None /\ legacy_room_revisions p !! r = None /\ legacy_room_clear_revisions p !! r = None.
Proof. unfold legacy_room_ids. rewrite !not_elem_of_union, !not_elem_of_dom. tauto. Qed.
Lemma elem_of_key_set {A} (m : gmap string (gmap string A)) (t : ThreadKey) :
  t ∈ nested_key_set m <-> is_Some (nested_get m t.1 t.2).
Proof. unfold nested_key_set. destruct t. by rewrite elem_of_list_to_set, elem_of_nested_keys. Qed.
Lemma legacy_thread_unknown p t : t ∉ legacy_thread_targets p ->
  nested_get (legacy_threads p) t.1 t.2 = None /\ nested_get (legacy_thread_revisions p) t.1 t.2 = None
  /\ nested_get (legacy_thread_clear_revisions p) t.1 t.2 = None.
Proof.
  unfold legacy_thread_targets. rewrite !not_elem_of_union, !elem_of_key_set, <-!eq_None_not_Some. tauto.
Qed.

Section legacy.
Context (p : LegacyComposerDraftStoreV1).

Lemma legacy_room_lookup r :
  (set_to_map (M := gmap string _) (fun r => (r, legacy_room_entry p r)) (legacy_room_ids p)) !! r
  = if decide (r ∈ legacy_room_ids p) then Some (legacy_room_entry p r) else None.
Proof.
  case_decide as D.
  - apply lookup_set_to_map; [by intros ????|]. by exists r.
  - apply eq_None_not_Some. intros [e He]. apply lookup_set_to_map in He as (r' & Hr' & [= -> _]); [done|by intros ????].
Qed.
Lemma legacy_thread_lookup (t : ThreadKey) :
  nested_get (nested_of_keys (legacy_thread_entry p) (thread_set_iter (legacy_thread_targets p))) t.1 t.2
  = if decide (t ∈ legacy_thread_targets p) then Some (legacy_thread_entry p t) else None.
Proof.
  rewrite nested_of_keys_get. destruct t as [r e]. cbn [fst snd].
  repeat case_decide; rewrite elem_of_thread_set in *; done.
Qed.

(** The two saved orders together. *)
Lemma projection_of_v1_ok : legacy_ok p -> exists q, projection_of_v1 p = inl q /\
  validate_persisted_projection q = None /\
  (forall r, projected_rooms q !! r = if decide (r ∈ legacy_room_ids p) then Some (legacy_room_entry p r) else None) /\
  (forall t, nested_get (projected_threads q) t.1 t.2
     = if decide (t ∈ legacy_thread_targets p) then Some (legacy_thread_entry p t) else None).
Proof.
  intros [Rr Rt [Dr Or] [Dt Ot]]. unfold projection_of_v1.
  destruct (merge_ok String.leb (legacy_room_lru p) (without_content (legacy_room_entry p) (legacy_room_ids p)))
    as (ro & -> & Dro & Hro).
  { split; [done|]. intros r [Hi Hn]%Or. apply elem_of_without_content. by split; [|apply legacy_content]. }
  destruct (merge_ok thread_key_leb (legacy_thread_lru p)
              (without_content (legacy_thread_entry p) (legacy_thread_targets p))) as (to & -> & Dto & Hto).
  { split; [done|]. intros t [Hi Hn]%Ot. apply elem_of_without_content. by split; [|apply legacy_content]. }
  eexists. split; [done|]. split; [|split; [apply legacy_room_lookup|apply legacy_thread_lookup]].
  apply validate_ok; cbn; try done.
  - intros r e. rewrite legacy_room_lookup. case_decide; [|done]. intros [= <-].
    unfold legacy_room_entry. rewrite legacy_entry_well_formed. apply Z.ltb_ge, (Rr r).
  - intros t e. rewrite legacy_thread_lookup. case_decide; [|done]. intros [= <-].
    unfold legacy_thread_entry. rewrite legacy_entry_well_formed. apply Z.ltb_ge, (Rt t).
  - intros r inner. apply nested_of_keys_inner.
  - intros r. rewrite Hro, elem_of_without_content, legacy_room_lookup. unfold entry_is_empty. split.
    + intros [Hi Hn]. rewrite decide_True by done. eexists. split; [done|]. by apply bool_decide_eq_true.
    + intros (e & He & Hn%bool_decide_eq_true). case_decide; [|done]. by injection He as <-.
  - intros t. rewrite Hto, elem_of_without_content, legacy_thread_lookup. unfold entry_is_empty. split.
    + intros [Hi Hn]. rewrite decide_True by done. eexists. split; [done|]. by apply bool_decide_eq_true.
    + intros (e & He & Hn%bool_decide_eq_true). case_decide; [|done]. by injection He as <-.
Qed.
(** And only such payloads pass. *)
Lemma projection_of_v1_inl q :
  projection_of_v1 p = inl q -> validate_persisted_projection q = None -> legacy_ok p.
Proof.
  unfold projection_of_v1.
  destruct (merge_legacy_order String.leb _ _) as [ro|[]] eqn:Er; [|done].
  destruct (merge_legacy_order thread_key_leb _ _) as [to|[]] eqn:Et; [|done].
  intros [= <-] Hv. apply merge_inl in Er as [Dr Or]. apply merge_inl in Et as [Dt Ot]. constructor.
  - intros r. destruct (decide (r ∈ legacy_room_ids p)) as [D|D].
    + apply Z.ltb_ge. unfold legacy_room_entry. rewrite <-legacy_entry_well_formed.
      apply not_true_iff_false. intros M. rewrite validate_malformed in Hv; [done|]. left.
      exists r, (legacy_room_entry p r). cbn. by rewrite legacy_room_lookup, decide_True.
    + destruct (legacy_room_unknown p r D) as (_ & E1 & E2). cbn. by rewrite E1, E2.
  - intros t. destruct (decide (t ∈ legacy_thread_targets p)) as [D|D].
    + apply Z.ltb_ge. unfold legacy_thread_entry. rewrite <-legacy_entry_well_formed.
      apply not_true_iff_false. intros M. rewrite validate_malformed in Hv; [done|]. right.
      exists t, (legacy_thread_entry p t). cbn. by rewrite legacy_thread_lookup, decide_True.
    + destruct (legacy_thread_unknown p t D) as (_ & E1 & E2). cbn. by rewrite E1, E2.
  - split; [done|]. intros r [Hi Hc]%Or%elem_of_without_content. split; [done|]. by apply legacy_content in Hc.
  - split; [done|]. intros t [Hi Hc]%Ot%elem_of_without_content. split; [done|]. by apply legacy_content in Hc.
Qed.
End legacy.

Definition stored_text (text : string) : Document :=
  truncated_to_plain_bytes (from_plain_text text) MAX_PERSISTED_COMPOSER_DRAFT_BYTES.

(** A draft file of the first schema is imported exactly when it is consistent: its accepted
    clears are not newer than the revisions and its saved orders name distinct known targets
    without a text.  Then every non-empty text is the plain-text draft of its room or thread
    (cut at 16 KiB) at its saved revision, and no other target has a draft; otherwise the file
    is refused as corrupt, as a whole. *)
Theorem legacy_drafts_are_imported (p : LegacyComposerDraftStoreV1) :
  match decode_payload (Payload_V1 p) with
  | inl s =>
      legacy_ok p /\
      (forall r, slot_content (slot s (Main r)) = stored_text <$> legacy_room_text p r) /\
      (forall r e, slot_content (slot s (Thread r e)) = stored_text <$> legacy_thread_text p (r, e)) /\
      (forall r, is_Some (legacy_room_text p r) ->
         room_revision s r = default ZERO (legacy_room_revisions p !! r)) /\
      (forall r e, is_Some (legacy_thread_text p (r, e)) ->
         thread_revision s r e = default ZERO (nested_get (legacy_thread_revisions p) r e))
  | inr Corrupt => ~ legacy_ok p
  end.
Proof.
  cbn [decode_payload]. destruct (projection_of_v1 p) as [q|[]] eqn:Eq.
  2: { intros Hok. destruct (projection_of_v1_ok p Hok) as (q & E & _). congruence. }
  unfold import_projection, from_persisted_projection.
  destruct (validate_persisted_projection q) as [[]|] eqn:Ev.
  { intros Hok. destruct (projection_of_v1_ok p Hok) as (q' & E & ? & _). congruence. }
  pose proof (projection_of_v1_inl p q Eq Ev) as Hok. split; [done|].
  destruct (projection_of_v1_ok p Hok) as (q' & E & _ & Hr & Ht'). assert (q' = q) as -> by congruence.
  assert (Ht : forall r e, nested_get (projected_threads q) r e
     = if decide ((r, e) ∈ legacy_thread_targets p) then Some (legacy_thread_entry p (r, e)) else None)
    by (intros r e; apply (Ht' (r, e))).
  unfold room_revision, thread_revision. cbn. split_and!.
  - intros r. rewrite lookup_omap, Hr. unfold legacy_room_text. case_decide as D.
    + cbn. by destruct (legacy_rooms p !! r ≫= non_empty_text).
    + destruct (legacy_room_unknown p r D) as (-> & _). done.
  - intros r e. rewrite nested_imap_get, Ht. unfold legacy_thread_text. cbn [fst snd]. case_decide as D.
    + cbn. by destruct (nested_get (legacy_threads p) r e ≫= non_empty_text).
    + destruct (legacy_thread_unknown p (r, e) D) as (E1 & _). cbn in E1. by rewrite E1.
  - intros r [text Hx]. rewrite map_lookup_imap, Hr. unfold legacy_room_text in Hx. rewrite decide_True.
    + cbn. unfold imported_revision, keeps_entry, entry_is_empty. cbn. by rewrite Hx.
    + apply dec_stable. intros D. destruct (legacy_room_unknown p r D) as (E1 & _). by rewrite E1 in Hx.
  - intros r e [text Hx]. rewrite nested_imap_get, Ht. unfold legacy_thread_text in Hx. cbn [fst snd] in *.
    rewrite decide_True.
    + cbn. unfold imported_revision, keeps_entry, entry_is_empty. cbn. by rewrite Hx.
    + apply dec_stable. intros D. destruct (legacy_thread_unknown p (r, e) D) as (E1 & _). cbn in E1.
      by rewrite E1 in Hx.
Qed.
