(* ===== verification/Staging.v ===== *)
(** What waits to be sent ([crates/koushi-state/src/state/timeline.rs]): staged uploads with
    their prepared outputs ([UploadStagingStore]) and the service that fills it
    ([MediaStaging], [crates/koushi-core/src/media_staging.rs]), scheduled messages ([ScheduledSendStore])
    and the media gallery of a room ([MediaGalleryStore]).

    A [BTreeMap] is a [gmap]; where the code iterates one the model sorts its keys.  An
    operation on an entry that may be missing returns the store with the updated entry, or
    [None] for the code's early return, which changes nothing. *)

From stdpp Require Import base list strings gmap.
From Stdlib Require Import ZArith Lia.
From S2P Require Import Prelude Text ComposerDocument.
Local Open Scope string_scope.
Local Open Scope list_scope.
Local Set Warnings "-clear-no-such-hyp".

(** [iter().min_by(cmp)], where [le x y] is [cmp(x, y) != Greater]: the first minimum. *)
Definition min_by {A} (le : A -> A -> bool) (l : list A) : option A :=
  foldl (fun best x => match best with
                       | None => Some x
                       | Some b => if le b x then Some b else Some x
                       end) None l.

(** * Staged uploads *)

Inductive ImageUploadCompressionMode := Compression_Always | Compression_Ask | Compression_Never.
Inductive StagedUploadKind :=
  | Upload_Image (width height : option Z)
  | Upload_File.
Inductive StagedUploadCompressionChoice :=
  | Choice_NotApplicable | Choice_Ask | Choice_Original
  | Choice_Compressed (mode : ImageUploadCompressionMode).
Inductive MediaPreparationFailureKind :=
  | Media_Empty | Media_Unsupported | Media_Decode | Media_Encode | Media_MissingPreparedBytes.
Inductive PreparedUploadFormat :=
  | PreparedFormat_Original | PreparedFormat_Png | PreparedFormat_Jpeg | PreparedFormat_Webp.
Inductive StagedUploadResizeChoice := Resize_Original | Resize_Half | Resize_Quarter | Resize_Eighth.
Inductive StagedUploadFormatChoice := Format_Keep | Format_Png | Format_Jpeg | Format_Webp.

Record StagedUploadOutputSelection := {
  resize : StagedUploadResizeChoice;
  format : StagedUploadFormatChoice }.

#[export] Instance ResizeChoice_eq : EqDecision StagedUploadResizeChoice.
Proof. solve_decision. Defined.
#[export] Instance FormatChoice_eq : EqDecision StagedUploadFormatChoice.
Proof. solve_decision. Defined.
#[export] Instance OutputSelection_eq : EqDecision StagedUploadOutputSelection.
Proof. solve_decision. Defined.

Record PreparedUploadVariant := {
  variant_id : string;
  variant_resize : StagedUploadResizeChoice;
  format_choice : StagedUploadFormatChoice;
  variant_filename : string;
  variant_mime_type : string;
  variant_byte_count : Z;
  variant_width : option Z;
  variant_height : option Z;
  variant_format : PreparedUploadFormat;
  savings_percent : Z;
  metadata_stripped : bool;
  thumbnail_refreshed : bool }.

Inductive StagedUploadPreparation :=
  | Preparing
  | Prepared (variants : list PreparedUploadVariant) (selected : StagedUploadOutputSelection)
      (pending : option StagedUploadOutputSelection) (generation : Z)
  | Preparation_Failed (failure_kind : MediaPreparationFailureKind) (can_use_original : bool).

Record StagedUploadItem := {
  staged_id : string;
  staged_room_id : string;
  staged_position : Z;
  filename : string;
  mime_type : string;
  byte_count : Z;
  kind : StagedUploadKind;
  caption : option Document;
  compression_choice : StagedUploadCompressionChoice;
  preparation : StagedUploadPreparation }.

#[export] Instance StagedUploadItem_updatable : Updatable StagedUploadItem := fun i =>
  {| staged_id := staged_id i; staged_room_id := staged_room_id i;
     staged_position := staged_position i; filename := filename i; mime_type := mime_type i;
     byte_count := byte_count i; kind := kind i; caption := caption i;
     compression_choice := compression_choice i; preparation := preparation i |}.

Definition selection_of (v : PreparedUploadVariant) : StagedUploadOutputSelection :=
  {| resize := variant_resize v; format := format_choice v |}.
(** [variant.resize == s.resize && variant.format_choice == s.format] *)
Definition is_prepared_for (s : StagedUploadOutputSelection) (v : PreparedUploadVariant) : bool :=
  bool_decide (variant_resize v = resize s) && bool_decide (format_choice v = format s).

(** The assignments that make an item describe a prepared output. *)
Definition adopt (v : PreparedUploadVariant) (i : StagedUploadItem) : StagedUploadItem :=
  i <| filename := variant_filename v |> <| mime_type := variant_mime_type v |>
    <| byte_count := variant_byte_count v |>
    <| kind := Upload_Image (variant_width v) (variant_height v) |>.

Definition staged_upload_send_consumes_composer_draft (items : list StagedUploadItem)
    (draft_document : option Document) : bool :=
  match items with
  | [item] =>
      match draft_document with
      | None => false
      | Some document =>
          if is_empty (trim (document_plain_body document)) then false
          else bool_decide (caption item = Some document)
      end
  | _ => false
  end.

Definition staged_uploads_are_sendable (items : list StagedUploadItem) : bool :=
  forallb (fun item => match preparation item with Prepared _ _ None _ => true | _ => false end)
    items.

Definition staged_upload_item_with_completed_output (item : StagedUploadItem)
    (prepared : PreparedUploadVariant) (completed_generation : Z) : option StagedUploadItem :=
  match preparation item with
  | Prepared variants selected _ generation =>
      if negb (completed_generation =? generation)%Z || negb (is_prepared_for selected prepared)
      then None
      else
        let variants :=
          filter (fun v => is_prepared_for (selection_of prepared) v = false) variants ++ [prepared] in
        Some ((adopt prepared item) <| preparation := Prepared variants selected None generation |>)
  | _ => None
  end.

(** * The staging store *)

Definition StagingKey : Type := ComposerTarget * string.
Record UploadStagingStore := { staged_items : gmap StagingKey StagedUploadItem }.
#[export] Instance UploadStagingStore_updatable : Updatable UploadStagingStore := fun s =>
  {| staged_items := staged_items s |}.
Definition UploadStagingStore_default : UploadStagingStore := {| staged_items := ∅ |}.

(** [position], then [staged_id] *)
Definition staged_leb (x y : StagedUploadItem) : bool :=
  if (staged_position x =? staged_position y)%Z then String.leb (staged_id x) (staged_id y)
  else (staged_position x <=? staged_position y)%Z.

Definition items_for_target (s : UploadStagingStore) (target : ComposerTarget) :
    list StagedUploadItem :=
  let entries : list (string * StagedUploadItem) :=
    omap (fun kv : StagingKey * StagedUploadItem =>
            if decide (kv.1.1 = target) then Some (kv.1.2, kv.2) else None)
      (map_to_list (staged_items s)) in
  sort_by staged_leb (sort_by key_leb entries).*2.
Definition staged_items_for_room (s : UploadStagingStore) (room_id : string) :
    list StagedUploadItem := items_for_target s (Main room_id).

(** [self.items.retain(|(t, _), _| keep(t))] *)
Definition retain_targets (keep : ComposerTarget -> bool) (s : UploadStagingStore) :
    UploadStagingStore :=
  s <| staged_items ::= filter (fun kv : StagingKey * StagedUploadItem => keep kv.1.1 = true) |>.

Definition replace_target_items (s : UploadStagingStore) (target : ComposerTarget)
    (items : list StagedUploadItem) : UploadStagingStore :=
  let s := retain_targets (fun t => negb (bool_decide (t = target))) s in
  foldl (fun s item => s <| staged_items ::= <[(target, staged_id item) := item]> |>) s
    (filter (fun item => staged_room_id item = target_room_id target) items).
Definition replace_room_uploads (s : UploadStagingStore) (room_id : string)
    (items : list StagedUploadItem) : UploadStagingStore :=
  replace_target_items s (Main room_id) items.

(** [let item = self.items.get_mut(key)?; ...; Some(item.clone())] *)
Definition update_item (s : UploadStagingStore) (target : ComposerTarget) (id : string)
    (f : StagedUploadItem -> option StagedUploadItem) :
    option (UploadStagingStore * StagedUploadItem) :=
  item ← staged_items s !! (target, id);
  item ← f item;
  Some (s <| staged_items ::= <[(target, id) := item]> |>, item).

Definition update_caption (s : UploadStagingStore) (target : ComposerTarget) (id : string)
    (new_caption : option Document) :=
  update_item s target id (fun item => Some (item <| caption := new_caption |>)).
Definition update_compression_choice (s : UploadStagingStore) (target : ComposerTarget)
    (id : string) (choice : StagedUploadCompressionChoice) :=
  update_item s target id (fun item => Some (item <| compression_choice := choice |>)).

(** The body of [select_output] on the item it finds. *)
Definition select_item_output (selection : StagedUploadOutputSelection) (item : StagedUploadItem) :
    option StagedUploadItem :=
  match preparation item with
  | Prepared variants _ pending generation =>
      match find_first (is_prepared_for selection) variants with
      | Some prepared =>
          Some ((adopt prepared item) <| preparation := Prepared variants selection None generation |>)
      | None =>
          Some (item <| preparation :=
                  Prepared variants selection (Some selection) (u64_saturating_add generation 1) |>)
      end
  | _ => None
  end.
Definition select_output (s : UploadStagingStore) (target : ComposerTarget) (id : string)
    (selection : StagedUploadOutputSelection) :=
  update_item s target id (select_item_output selection).

(** The body of [complete_output] on the item it finds. *)
Definition complete_item_output (prepared : PreparedUploadVariant) (completed_generation : Z)
    (item : StagedUploadItem) : option StagedUploadItem :=
  match preparation item with
  | Prepared variants selected _ generation =>
      if negb (completed_generation =? generation)%Z then None
      else if negb (is_prepared_for selected prepared) then None
      else
        let item := item <| preparation :=
          Prepared (filter (fun v => is_prepared_for (selection_of prepared) v = false) variants
                    ++ [prepared]) selected None generation |> in
        Some (adopt prepared item)
  | _ => None
  end.
Definition complete_output (s : UploadStagingStore) (target : ComposerTarget) (id : string)
    (prepared : PreparedUploadVariant) (completed_generation : Z) :=
  update_item s target id (complete_item_output prepared completed_generation).

(** [before != after] as the code computes it, from the number of entries. *)
Definition shrunk (before after : UploadStagingStore) : bool :=
  negb (size (staged_items after) =? size (staged_items before))%nat.
Definition clear_target (s : UploadStagingStore) (target : ComposerTarget) :
    UploadStagingStore * bool :=
  let s' := retain_targets (fun t => negb (bool_decide (t = target))) s in (s', shrunk s s').
Definition clear_room (s : UploadStagingStore) (room_id : string) := clear_target s (Main room_id).
Definition clear_thread_targets_for_room (s : UploadStagingStore) (room_id : string) :
    UploadStagingStore * bool :=
  let s' := retain_targets (fun t => match t with
                                     | Thread target_room_id _ => negb (String.eqb target_room_id room_id)
                                     | Main _ => true
                                     end) s in
  (s', shrunk s s').
Definition retain_staging_rooms (s : UploadStagingStore) (room_ids : gset string) :
    UploadStagingStore :=
  retain_targets (fun t => bool_decide (target_room_id t ∈ room_ids)) s.

(** * The media staging service ([crates/koushi-core/src/media_staging.rs])

    How uploads get into the store.  The service serialises the operations on one composer
    ([admit_target]), so an operation's reading of the composer's items and the list it
    publishes are one step here; what happens while it encodes is between two steps.  What the
    decoders and encoders answer ([PreparedImageVariant] or a failure) is an argument, the
    bytes themselves are their number.  An operation returns [None] where the code returns an
    error without publishing anything. *)
Module MediaStaging.

Inductive PreparedImageFormat :=
  | Image_Png | Image_Jpeg | Image_WebP | Image_Gif | Image_Bmp | Image_Heif | Image_Other.
Record PreparedImageVariant := {
  image_filename : string;
  image_mime_type : string;
  image_format : PreparedImageFormat;
  image_bytes : Z;
  image_dimensions : Z * Z;
  image_metadata_stripped : bool;
  image_thumbnail_refreshed : bool }.
Record StageUploadBytesInput := {
  input_staged_id : string;
  input_position : Z;
  input_filename : string;
  input_mime_type : string;
  input_bytes : Z }.
(** What the codecs answer for one source: its HEIF type if it is one, and the output. *)
Record Codecs := {
  heif_mime_type : option string;
  prepared_output : PreparedImageVariant + MediaPreparationFailureKind }.

Definition MAX_PREPARATION_BATCH_SIZE : nat := 16.
Definition MAX_MEDIA_STAGING_BATCH_BYTES : Z := 128 * 1024 * 1024.

Definition normalized_mime (mime : string) : string :=
  let mime := trim mime in if is_empty mime then "application/octet-stream" else mime.

(** [&filename[..index]] for [filename.rfind('.')] *)
Fixpoint before_last_dot (s : string) : option string :=
  match s with
  | EmptyString => None
  | String a s =>
      match before_last_dot s with
      | Some stem => Some (String a stem)
      | None => if String.eqb (String a EmptyString) "." then Some EmptyString else None
      end
  end.
Definition normalized_heif_filename (name mime : string) : string :=
  let extension := if String.eqb mime "image/heic" then "heic" else "heif" in
  let name := trim name in
  if is_empty name then "attachment." +:+ extension
  else match before_last_dot name with
       | Some (String a stem) => String a stem +:+ "." +:+ extension
       | _ => name +:+ "." +:+ extension
       end.

Definition resize_token (r : StagedUploadResizeChoice) : string :=
  match r with
  | Resize_Original => "original" | Resize_Half => "half"
  | Resize_Quarter => "quarter" | Resize_Eighth => "eighth"
  end.
Definition format_token (f : StagedUploadFormatChoice) : string :=
  match f with
  | Format_Keep => "keep" | Format_Png => "png" | Format_Jpeg => "jpeg" | Format_Webp => "webp"
  end.
Definition output_identity (selection : StagedUploadOutputSelection) : string :=
  resize_token (resize selection) +:+ "-" +:+ format_token (format selection).
Definition OutputSelection_default : StagedUploadOutputSelection :=
  {| resize := Resize_Original; format := Format_Keep |}.

Definition descriptor_from_image_variant (v : PreparedImageVariant) (original_len : Z)
    (selection : StagedUploadOutputSelection) : PreparedUploadVariant :=
  {| variant_id := output_identity selection;
     variant_resize := resize selection;
     format_choice := format selection;
     variant_filename := image_filename v;
     variant_mime_type := image_mime_type v;
     variant_byte_count := image_bytes v;
     variant_width := Some (fst (image_dimensions v));
     variant_height := Some (snd (image_dimensions v));
     variant_format := match image_format v with
                       | Image_Png => PreparedFormat_Png
                       | Image_Jpeg => PreparedFormat_Jpeg
                       | Image_WebP => PreparedFormat_Webp
                       | _ => PreparedFormat_Original
                       end;
     savings_percent :=
       (if original_len =? 0 then 0
        else let ratio := u64_saturating_mul (image_bytes v) 100 / original_len in
             100 - (if ratio <? 2 ^ 63 then ratio else 100))%Z;
     metadata_stripped := image_metadata_stripped v;
     thumbnail_refreshed := image_thumbnail_refreshed v |}.

Definition preparing_item (target : ComposerTarget) (input : StageUploadBytesInput) :
    StagedUploadItem :=
  let mime := normalized_mime (input_mime_type input) in
  {| staged_id := input_staged_id input; staged_room_id := target_room_id target;
     staged_position := input_position input; filename := input_filename input; mime_type := mime;
     byte_count := input_bytes input;
     kind := match strip_prefix "image/" (to_ascii_lowercase mime) with
             | Some _ => Upload_Image None None
             | None => Upload_File
             end;
     caption := None; compression_choice := Choice_NotApplicable; preparation := Preparing |}.

Definition staged_failure (target : ComposerTarget) (input : StageUploadBytesInput)
    (failure_kind : MediaPreparationFailureKind) : StagedUploadItem :=
  {| staged_id := input_staged_id input; staged_room_id := target_room_id target;
     staged_position := input_position input; filename := input_filename input;
     mime_type := normalized_mime (input_mime_type input); byte_count := input_bytes input;
     kind := Upload_File; caption := None; compression_choice := Choice_NotApplicable;
     preparation := Preparation_Failed failure_kind (negb (input_bytes input =? 0)%Z) |}.

(** A non-image attachment is only ever its untouched self. *)
Definition store_original_file (target : ComposerTarget) (input : StageUploadBytesInput) :
    StagedUploadItem :=
  let selected := OutputSelection_default in
  let descriptor :=
    {| variant_id := "original"; variant_resize := resize selected;
       format_choice := format selected; variant_filename := input_filename input;
       variant_mime_type := normalized_mime (input_mime_type input);
       variant_byte_count := input_bytes input; variant_width := None; variant_height := None;
       variant_format := PreparedFormat_Original; savings_percent := 0;
       metadata_stripped := false; thumbnail_refreshed := false |} in
  {| staged_id := input_staged_id input; staged_room_id := target_room_id target;
     staged_position := input_position input; filename := variant_filename descriptor;
     mime_type := variant_mime_type descriptor; byte_count := input_bytes input;
     kind := Upload_File; caption := None; compression_choice := Choice_NotApplicable;
     preparation := Prepared [descriptor] selected None 0 |}.

(** The item that shows [descriptor], the selected one of [variants]. *)
Definition image_item (target : ComposerTarget) (input : StageUploadBytesInput)
    (descriptor : PreparedUploadVariant) (variants : list PreparedUploadVariant)
    (selected : StagedUploadOutputSelection) : StagedUploadItem :=
  {| staged_id := input_staged_id input; staged_room_id := target_room_id target;
     staged_position := input_position input; filename := variant_filename descriptor;
     mime_type := variant_mime_type descriptor; byte_count := variant_byte_count descriptor;
     kind := Upload_Image (variant_width descriptor) (variant_height descriptor);
     caption := None; compression_choice := Choice_Original;
     preparation := Prepared variants selected None 0 |}.

Definition prepare_heif_one (target : ComposerTarget) (input : StageUploadBytesInput)
    (mime : string) (output : PreparedImageVariant + MediaPreparationFailureKind) :
    StagedUploadItem :=
  let selected := {| resize := Resize_Original; format := Format_Jpeg |} in
  match output with
  | inr failure_kind => staged_failure target input failure_kind
  | inl converted =>
      let original_selection := OutputSelection_default in
      let original :=
        {| variant_id := output_identity original_selection;
           variant_resize := resize original_selection;
           format_choice := format original_selection;
           variant_filename := normalized_heif_filename (input_filename input) mime;
           variant_mime_type := mime; variant_byte_count := input_bytes input;
           variant_width := Some (fst (image_dimensions converted));
           variant_height := Some (snd (image_dimensions converted));
           variant_format := PreparedFormat_Original; savings_percent := 0;
           metadata_stripped := false; thumbnail_refreshed := false |} in
      let descriptor := descriptor_from_image_variant converted (input_bytes input) selected in
      image_item target input descriptor [original; descriptor] selected
  end.

Definition prepare_one (target : ComposerTarget) (input : StageUploadBytesInput)
    (codecs : Codecs) : StagedUploadItem :=
  match heif_mime_type codecs with
  | Some mime =>
      let input := {| input_staged_id := input_staged_id input;
                      input_position := input_position input;
                      input_filename := input_filename input; input_mime_type := mime;
                      input_bytes := input_bytes input |} in
      prepare_heif_one target input mime (prepared_output codecs)
  | None =>
      let image_candidate :=
        existsb (String.eqb (to_ascii_lowercase (input_mime_type input)))
          ["image/png"; "image/jpeg"; "image/webp"; "image/gif"] in
      if (input_bytes input =? 0)%Z then staged_failure target input Media_Empty
      else if negb image_candidate then store_original_file target input
      else
        let selected := OutputSelection_default in
        match prepared_output codecs with
        | inr failure_kind => staged_failure target input failure_kind
        | inl variant =>
            let descriptor := descriptor_from_image_variant variant (input_bytes input) selected in
            image_item target input descriptor [descriptor] selected
        end
  end.

(** [registry.use_original] on the source it kept; [None] when that has no bytes. *)
Definition original_of (target : ComposerTarget) (input : StageUploadBytesInput) :
    option StagedUploadItem :=
  if (input_bytes input =? 0)%Z then None else Some (store_original_file target input).

(** [validate_batch] and the checks on ids and positions that follow it. *)
Definition batch_admitted (existing : list StagedUploadItem) (inputs : list StageUploadBytesInput) :
    bool :=
  negb (length inputs =? 0)%nat && (length inputs <=? MAX_PREPARATION_BATCH_SIZE)%nat
  && (fold_right Z.add 0 (input_bytes <$> inputs) <=? MAX_MEDIA_STAGING_BATCH_BYTES)%Z
  && bool_decide (NoDup (input_staged_id <$> inputs))
  && forallb (fun i => negb (bool_decide (input_staged_id i ∈ staged_id <$> existing))) inputs
  && forallb (fun i => negb (input_position i =? 0)%Z) inputs
  && bool_decide (NoDup (input_position <$> inputs))
  && forallb (fun i => negb (bool_decide (input_position i ∈ staged_position <$> existing))) inputs.

Definition meaningful_caption_document (document : Document) : bool :=
  negb (is_empty (trim (document_plain_body document))).

(** The first publication: what is there and the new items, still preparing. *)
Definition stage_upload_bytes (s : UploadStagingStore) (target : ComposerTarget)
    (inputs : list StageUploadBytesInput) (composer_document : option Document) :
    option UploadStagingStore :=
  let existing := items_for_target s target in
  if negb (batch_admitted existing inputs) then None
  else
    let caption_seed :=
      if (length existing =? 0)%nat && (length inputs =? 1)%nat
      then d ← composer_document; if meaningful_caption_document d then Some d else None
      else None in
    let preparing_items :=
      existing ++ ((fun input =>
        let preparing := preparing_item target input in
        match caption_seed with
        | Some document => preparing <| caption := Some document |>
        | None => preparing
        end) <$> inputs) in
    Some (replace_target_items s target (sort_by staged_leb preparing_items)).

(** The prepared item in the place of the preparing one: captions and the user's compression
    choice are not preparation output. *)
Definition adopt_preparation (prepared item : StagedUploadItem) : StagedUploadItem :=
  prepared <| caption := caption item |> <| compression_choice := compression_choice item |>.
Definition is_preparing (item : StagedUploadItem) : bool :=
  match preparation item with Preparing => true | _ => false end.

(** The loop over [ready_items], taking items out of [prepared_by_id]. *)
Fixpoint merge_ready (prepared_by_id : gmap string StagedUploadItem)
    (items : list StagedUploadItem) : list StagedUploadItem * gmap string StagedUploadItem :=
  match items with
  | [] => ([], prepared_by_id)
  | item :: items =>
      match prepared_by_id !! staged_id item with
      | Some prepared =>
          let '(ready, rest) := merge_ready (delete (staged_id item) prepared_by_id) items in
          (adopt_preparation prepared item :: ready, rest)
      | None =>
          let '(ready, rest) := merge_ready prepared_by_id items in (item :: ready, rest)
      end
  end.

(** The second publication, when the bytes are prepared: [preparing_ids] are the ids of the
    first one, [prepared] the inputs with what the codecs answered. *)
Definition publish_prepared (s : UploadStagingStore) (target : ComposerTarget)
    (preparing_ids : list string) (prepared : list (StageUploadBytesInput * Codecs)) :
    option UploadStagingStore :=
  let prepared_items := (fun p => prepare_one target (fst p) (snd p)) <$> prepared in
  let current_items := items_for_target s target in
  if negb (bool_decide (staged_id <$> current_items = preparing_ids))
     || existsb (fun p => negb (existsb (fun c =>
          String.eqb (staged_id c) (staged_id p) && is_preparing c) current_items)) prepared_items
  then None
  else
    let prepared_by_id : gmap string StagedUploadItem :=
      foldl (fun m p => <[staged_id p := p]> m) ∅ prepared_items in
    let '(ready_items, rest) := merge_ready prepared_by_id current_items in
    if bool_decide (rest = ∅) then Some (replace_target_items s target ready_items) else None.

Definition staged_item (s : UploadStagingStore) (target : ComposerTarget) (id : string) :
    option StagedUploadItem :=
  find_first (fun i => String.eqb (staged_id i) id) (items_for_target s target).

(** [*items.iter_mut().find(|item| item.staged_id == staged_id)? = replacement] *)
Fixpoint replace_first (id : string) (replacement : StagedUploadItem)
    (items : list StagedUploadItem) : option (list StagedUploadItem) :=
  match items with
  | [] => None
  | item :: items =>
      if String.eqb (staged_id item) id then Some (replacement :: items)
      else cons item <$> replace_first id replacement items
  end.
Definition replace_staged_upload_item (s : UploadStagingStore) (target : ComposerTarget)
    (id : string) (replacement : StagedUploadItem) : option UploadStagingStore :=
  replace_target_items s target <$> replace_first id replacement (items_for_target s target).

(** [select_staged_upload_output] up to the published selection. *)
Definition select_staged_upload_output (s : UploadStagingStore) (target : ComposerTarget)
    (id : string) (selection : StagedUploadOutputSelection) : option UploadStagingStore :=
  item ← staged_item s target id;
  match preparation item, kind item with
  | Prepared _ _ _ _, Upload_Image _ _ => fst <$> select_output s target id selection
  | _, _ => None
  end.

Definition still_pending (item : StagedUploadItem) (selection : StagedUploadOutputSelection)
    (generation : Z) : bool :=
  match preparation item with
  | Prepared _ selected pending current =>
      (current =? generation)%Z && bool_decide (selected = selection)
      && bool_decide (pending = Some selection)
  | _ => false
  end.

(** The rest of it, when the encoder answers: [selection] and [generation] are those it was
    started for, [source_len] is the number of source bytes and [source_kept] says whether the
    source is still there. *)
Definition finish_selected_output (s : UploadStagingStore) (target : ComposerTarget) (id : string)
    (selection : StagedUploadOutputSelection) (generation source_len : Z) (source_kept : bool)
    (encoded : PreparedImageVariant + MediaPreparationFailureKind) : option UploadStagingStore :=
  item ← staged_item s target id;
  match encoded with
  | inl variant =>
      replacement ← staged_upload_item_with_completed_output item
                      (descriptor_from_image_variant variant source_len selection) generation;
      replace_staged_upload_item s target id replacement
  | inr failure_kind =>
      if negb (still_pending item selection generation) then None
      else replace_staged_upload_item s target id
             (item <| preparation := Preparation_Failed failure_kind source_kept |>)
  end.

(** [source] is [registry.source_input(target, staged_id)]: the registry keeps a source under
    its own id. *)
Definition retry_staged_upload_preparation (s : UploadStagingStore) (target : ComposerTarget)
    (source : StageUploadBytesInput) (codecs : Codecs) : option UploadStagingStore :=
  let id := input_staged_id source in
  current_item ← staged_item s target id;
  match preparation current_item with
  | Preparation_Failed _ _ =>
      replace_staged_upload_item s target id
        (adopt_preparation (prepare_one target source codecs) current_item)
  | _ => None
  end.

Definition use_original (s : UploadStagingStore) (target : ComposerTarget)
    (source : StageUploadBytesInput) : option UploadStagingStore :=
  let id := input_staged_id source in
  item ← staged_item s target id;
  replacement ← original_of target source;
  replace_staged_upload_item s target id (replacement <| caption := caption item |>).

(** [send_prepared_uploads], once the upload of [id] is queued. *)
Definition remove_sent_upload (s : UploadStagingStore) (target : ComposerTarget) (id : string) :
    option UploadStagingStore :=
  _ ← staged_item s target id;
  Some (replace_target_items s target
          (filter (fun i => staged_id i <> id) (items_for_target s target))).
End MediaStaging.

(** * Scheduled sends *)

Inductive ScheduledSendHandle := Handle_Local | Handle_Server (delay_id : string).
Inductive ScheduledSendCapability :=
  | Capability_Unknown | ServerDelayedEvents | LocalFallback.
Inductive ScheduledSendsScope := Scheduled_Home | Scheduled_Space (space_id : string).

Record ScheduledSendItem := {
  scheduled_id : string;
  scheduled_room_id : string;
  thread_root_event_id : option string;
  body : string;
  send_at_ms : Z;
  handle : ScheduledSendHandle;
  is_dispatching : bool }.
#[export] Instance ScheduledSendItem_updatable : Updatable ScheduledSendItem := fun i =>
  {| scheduled_id := scheduled_id i; scheduled_room_id := scheduled_room_id i;
     thread_root_event_id := thread_root_event_id i; body := body i; send_at_ms := send_at_ms i;
     handle := handle i; is_dispatching := is_dispatching i |}.

#[export] Instance ScheduledSendHandle_eq : EqDecision ScheduledSendHandle.
Proof. solve_decision. Defined.
#[export] Instance ScheduledSendCapability_eq : EqDecision ScheduledSendCapability.
Proof. solve_decision. Defined.
#[export] Instance ScheduledSendsScope_eq : EqDecision ScheduledSendsScope.
Proof. solve_decision. Defined.
#[export] Instance ScheduledSendItem_eq : EqDecision ScheduledSendItem.
Proof. solve_decision. Defined.

Record ScheduledSendStore := {
  capability : ScheduledSendCapability;
  scheduled_items : gmap string ScheduledSendItem }.
#[export] Instance ScheduledSendStore_updatable : Updatable ScheduledSendStore := fun s =>
  {| capability := capability s; scheduled_items := scheduled_items s |}.
Definition ScheduledSendStore_default : ScheduledSendStore :=
  {| capability := Capability_Unknown; scheduled_items := ∅ |}.
#[export] Instance ScheduledSendStore_eq : EqDecision ScheduledSendStore.
Proof. solve_decision. Defined.

(** [send_at_ms], then [scheduled_id] *)
Definition scheduled_send_order (x y : ScheduledSendItem) : bool :=
  if (send_at_ms x =? send_at_ms y)%Z then String.leb (scheduled_id x) (scheduled_id y)
  else (send_at_ms x <=? send_at_ms y)%Z.

(** [self.items.values()] *)
Definition scheduled_values (s : ScheduledSendStore) : list ScheduledSendItem :=
  (btree_iter (scheduled_items s)).*2.
Definition scheduled_for_room (s : ScheduledSendStore) (room_id : string) : list ScheduledSendItem :=
  sort_by scheduled_send_order (filter (fun i => scheduled_room_id i = room_id) (scheduled_values s)).
Definition items_for_rooms (s : ScheduledSendStore) (room_ids : option (gset string)) :
    list ScheduledSendItem :=
  sort_by scheduled_send_order
    (filter (fun i => is_none_or room_ids (fun ids => bool_decide (scheduled_room_id i ∈ ids)) = true)
       (scheduled_values s)).

Definition insert_scheduled (s : ScheduledSendStore) (item : ScheduledSendItem) : ScheduledSendStore :=
  s <| scheduled_items ::= <[scheduled_id item := item]> |>.
Definition remove_scheduled (s : ScheduledSendStore) (id : string) :
    option (ScheduledSendStore * ScheduledSendItem) :=
  item ← scheduled_items s !! id; Some (s <| scheduled_items ::= delete id |>, item).

(** [let item = self.items.get_mut(id)?; ...; Some(item.clone())] *)
Definition update_scheduled (s : ScheduledSendStore) (id : string)
    (f : ScheduledSendItem -> option ScheduledSendItem) :
    option (ScheduledSendStore * ScheduledSendItem) :=
  item ← scheduled_items s !! id;
  item ← f item;
  Some (s <| scheduled_items ::= <[id := item]> |>, item).
Definition is_local (item : ScheduledSendItem) : bool := bool_decide (handle item = Handle_Local).

Definition reschedule (s : ScheduledSendStore) (id new_body : string) (at_ms : Z)
    (new_handle : ScheduledSendHandle) :=
  update_scheduled s id (fun item =>
    Some (item <| body := new_body |> <| send_at_ms := at_ms |> <| handle := new_handle |>
               <| is_dispatching := false |>)).
Definition start_local_dispatch (s : ScheduledSendStore) (id : string) :=
  update_scheduled s id (fun item =>
    if negb (is_local item) then None else Some (item <| is_dispatching := true |>)).
Definition retry_local_dispatch (s : ScheduledSendStore) (id : string) (retry_at_ms : Z) :=
  update_scheduled s id (fun item =>
    if negb (is_local item) then None
    else Some (item <| is_dispatching := false |> <| send_at_ms := retry_at_ms |>)).

Definition next_due (s : ScheduledSendStore) (now_ms : Z) : option ScheduledSendItem :=
  min_by scheduled_send_order (filter (fun i => (send_at_ms i <= now_ms)%Z) (scheduled_values s)).
(** The items a local timer may dispatch. *)
Definition dispatchable (s : ScheduledSendStore) : list ScheduledSendItem :=
  filter (fun i => is_dispatching i = false)
    (filter (fun i => is_local i = true) (scheduled_values s)).
Definition next_local_due (s : ScheduledSendStore) (now_ms : Z) : option ScheduledSendItem :=
  min_by scheduled_send_order (filter (fun i => (send_at_ms i <= now_ms)%Z) (dispatchable s)).
Definition next_send_at_ms (s : ScheduledSendStore) : option Z :=
  min_by Z.leb (send_at_ms <$> scheduled_values s).
Definition next_local_send_at_ms (s : ScheduledSendStore) : option Z :=
  min_by Z.leb (send_at_ms <$> dispatchable s).
Definition retain_scheduled_rooms (s : ScheduledSendStore) (room_ids : gset string) :
    ScheduledSendStore :=
  s <| scheduled_items ::= filter (fun kv => scheduled_room_id kv.2 ∈ room_ids) |>.

(** ** The local dispatcher ([crates/koushi-core/src/runtime/scheduled_send.rs])

    [ready] and [send_admitted] are the guards on the session and on the conversation
    access, [now_ms] the clock, [accepted] whether the account actor took the message. *)

(** How long the run loop sleeps before it dispatches; [None] arms no timer. *)
Definition scheduled_send_delay (ready send_admitted : bool) (s : ScheduledSendStore) (now_ms : Z) :
    option Z :=
  if negb ready then None
  else if negb send_admitted then None
  else next_at ← next_local_send_at_ms s; Some (Z.max (next_at - now_ms) 0)%Z.

Definition LOCAL_SCHEDULED_SEND_RETRY_DELAY : Z := 30000.
Definition local_scheduled_send_retry_at_ms (now_ms : Z) : Z :=
  u64_saturating_add now_ms LOCAL_SCHEDULED_SEND_RETRY_DELAY.

(** The store afterwards and the item that was handed to the account actor. *)
Definition dispatch_scheduled_send (s : ScheduledSendStore) (item : ScheduledSendItem)
    (accepted : bool) (now_ms : Z) : ScheduledSendStore * option ScheduledSendItem :=
  let s := match start_local_dispatch s (scheduled_id item) with Some (s, _) => s | None => s end in
  if accepted then (s, Some item)
  else
    (match retry_local_dispatch s (scheduled_id item) (local_scheduled_send_retry_at_ms now_ms) with
     | Some (s, _) => s
     | None => s
     end, None).
Definition dispatch_due_scheduled_send (ready send_admitted : bool) (s : ScheduledSendStore)
    (accepted : bool) (now_ms : Z) : ScheduledSendStore * option ScheduledSendItem :=
  if negb ready then (s, None)
  else if negb send_admitted then (s, None)
  else match next_local_due s now_ms with
       | None => (s, None)
       | Some item => dispatch_scheduled_send s item accepted now_ms
       end.

Inductive ScheduledSendsListState :=
  | List_Closed
  | List_Open (scope : ScheduledSendsScope) (list_capability : ScheduledSendCapability)
      (items : list ScheduledSendItem).

(** * The media gallery *)

Inductive TimelineMediaKind := MediaKind_Image | MediaKind_File | MediaKind_Audio | MediaKind_Video.
Record TimelineMediaGallerySource := {
  mxc_uri : string; encrypted : bool; encryption_version : option string }.
Record TimelineMediaGalleryThumbnail := {
  thumbnail_source : TimelineMediaGallerySource; thumbnail_mimetype : option string;
  thumbnail_size : option Z; thumbnail_width : option Z; thumbnail_height : option Z }.
Record TimelineMediaGalleryMedia := {
  media_kind : TimelineMediaKind; media_filename : string; source : TimelineMediaGallerySource;
  mimetype : option string; media_size : option Z; width : option Z; height : option Z;
  thumbnail : option TimelineMediaGalleryThumbnail }.
Record TimelineMediaGalleryItem := {
  event_id : string; gallery_room_id : string; sender : option string;
  sender_label : option string; timestamp_ms : Z; media : TimelineMediaGalleryMedia }.

Record MediaGalleryStore := { gallery_rooms : gmap string (list TimelineMediaGalleryItem) }.
#[export] Instance MediaGalleryStore_updatable : Updatable MediaGalleryStore := fun s =>
  {| gallery_rooms := gallery_rooms s |}.
Definition MediaGalleryStore_default : MediaGalleryStore := {| gallery_rooms := ∅ |}.

(** Newest first, then by event id. *)
Definition gallery_leb (x y : TimelineMediaGalleryItem) : bool :=
  if (timestamp_ms x =? timestamp_ms y)%Z then String.leb (event_id x) (event_id y)
  else (timestamp_ms y <=? timestamp_ms x)%Z.
Definition gallery_for_room (s : MediaGalleryStore) (room_id : string) :
    list TimelineMediaGalleryItem :=
  sort_by gallery_leb (default [] (gallery_rooms s !! room_id)).
Definition replace_room_gallery (s : MediaGalleryStore) (room_id : string)
    (items : list TimelineMediaGalleryItem) : MediaGalleryStore :=
  let items := sort_by gallery_leb (filter (fun i => gallery_room_id i = room_id) items) in
  if bool_decide (length items = 0) then s <| gallery_rooms ::= delete room_id |>
  else s <| gallery_rooms ::= <[room_id := items]> |>.
Definition retain_gallery_rooms (s : MediaGalleryStore) (room_ids : gset string) : MediaGalleryStore :=
  s <| gallery_rooms ::= filter (fun kv => kv.1 ∈ room_ids) |>.
