(* ===== verification/StagingProps.v ===== *)
(** Properties of what waits to be sent: a staged upload that may be sent is the output its
    item shows and the user selected last, whatever the staging service does, both ways of
    adopting a finished encode agree, and the local outbox offers every due message once, in
    order, whichever of them are taken. *)

From stdpp Require Import base list strings gmap sorting.
From Stdlib Require Import ZArith Lia.
From S2P Require Import Prelude Text ComposerDocument Staging.
Import MediaStaging.
Local Open Scope string_scope.
Local Open Scope list_scope.
Local Set Warnings "-clear-no-such-hyp".

(** * Minimum *)

Section min_by.
Context {A : Type} (le : A -> A -> bool).

Let better (best : option A) (x : A) : option A :=
  match best with None => Some x | Some b => if le b x then Some b else Some x end.

Lemma min_by_cons x l : min_by le (x :: l) = foldl better (Some x) l.
Proof. done. Qed.

Lemma min_by_None l : min_by le l = None <-> l = [].
Proof.
  destruct l as [|x l]; [done|]. split; [|done]. rewrite min_by_cons.
  assert (forall l b, is_Some (foldl better (Some b) l)) as H.
  { clear. induction l as [|y l IH]; intros b; [by eexists|]. cbn. destruct (le b y); apply IH. }
  destruct (H l x) as [b ->]. done.
Qed.

Context (le_total : forall x y, le x y = true \/ le y x = true)
  (le_trans : forall x y z, le x y = true -> le y z = true -> le x z = true).

Lemma min_by_Some l x :
  min_by le l = Some x -> x ∈ l /\ forall y, y ∈ l -> le x y = true.
Proof.
  destruct l as [|b l]; [done|]. rewrite min_by_cons.
  revert b; induction l as [|y l IH]; intros b; cbn.
  - intros [= ->]. split; [set_solver|]. intros y ->%list_elem_of_singleton.
    by destruct (le_total x x).
  - intros H. assert (exists c, (c = b \/ c = y) /\ le c b = true /\ le c y = true
                                /\ foldl better (Some c) l = Some x) as (c & Hc & Hcb & Hcy & Hf).
    { destruct (le b y) eqn:E.
      - exists b. destruct (le_total b b); auto.
      - exists y. destruct (le_total b y) as [E'|E']; [by rewrite E in E'|].
        destruct (le_total y y); auto. }
    apply IH in Hf as [Hin Hall].
    assert (le x c = true) as Hxc by (apply Hall; apply list_elem_of_here).
    split.
    { apply elem_of_cons in Hin as [->|Hin]; [|by do 2 apply list_elem_of_further].
      destruct Hc as [->| ->]; [apply list_elem_of_here|].
      apply list_elem_of_further, list_elem_of_here. }
    intros z Hz. apply elem_of_cons in Hz as [->|Hz]; [by apply le_trans with c|].
    apply elem_of_cons in Hz as [->|Hz]; [by apply le_trans with c|].
    apply Hall. by apply list_elem_of_further.
Qed.
End min_by.

(** * Staged uploads *)

(** The item shows the prepared output: its file and, for an image, its dimensions. *)
Definition shows (v : PreparedUploadVariant) (i : StagedUploadItem) : Prop :=
  filename i = variant_filename v /\ mime_type i = variant_mime_type v
  /\ byte_count i = variant_byte_count v
  /\ (kind i = Upload_File \/ kind i = Upload_Image (variant_width v) (variant_height v)).

(** One output per selection; without a pending selection the selected output is prepared
    and shown, with one it is not prepared. *)
Definition item_ok (i : StagedUploadItem) : Prop :=
  match preparation i with
  | Prepared variants selected pending _ =>
      NoDup (selection_of <$> variants)
      /\ match pending with
         | None => exists v, v ∈ variants /\ selection_of v = selected /\ shows v i
         | Some s => s = selected /\ (selected ∉ selection_of <$> variants)
         end
  | _ => True
  end.
Lemma is_prepared_for_spec s v : is_prepared_for s v = true <-> selection_of v = s.
Proof.
  unfold is_prepared_for, selection_of. destruct s as [r f]; cbn.
  rewrite andb_true_iff, !bool_decide_eq_true. split; [by intros [-> ->]|by intros [= -> ->]].
Qed.
Lemma is_prepared_for_false s v : is_prepared_for s v = false <-> selection_of v <> s.
Proof. rewrite <- is_prepared_for_spec. by destruct (is_prepared_for s v). Qed.

Lemma adopt_shows v i p : shows v ((adopt v i) <| preparation := p |>).
Proof. repeat split; by right. Qed.

Lemma selections_filter s (vs : list PreparedUploadVariant) :
  NoDup (selection_of <$> vs) ->
  NoDup (selection_of <$> filter (fun v => is_prepared_for s v = false) vs)
  /\ (s ∉ selection_of <$> filter (fun v => is_prepared_for s v = false) vs).
Proof.
  intros Hnd. split.
  - induction vs as [|v vs IH]; [constructor|]. apply NoDup_cons in Hnd as [Hv Hnd].
    rewrite filter_cons. case_decide; [|by apply IH]. cbn. constructor; [|by apply IH].
    intros Hin. apply Hv. apply list_elem_of_fmap in Hin as (w & -> & [_ Hw]%list_elem_of_filter).
    by apply list_elem_of_fmap_2.
  - intros (v & -> & [Hv _]%list_elem_of_filter)%list_elem_of_fmap.
    by apply is_prepared_for_false in Hv.
Qed.

(** The two functions that adopt a finished encode are the same function. *)
Lemma completed_output_agrees item prepared g :
  staged_upload_item_with_completed_output item prepared g = complete_item_output prepared g item.
Proof.
  unfold staged_upload_item_with_completed_output, complete_item_output.
  destruct (preparation item) as [|vs sel pend gen|]; [done| |done].
  destruct (negb (g =? gen)%Z); [done|]. cbn.
  by destruct (negb (is_prepared_for sel prepared)).
Qed.

Lemma complete_item_output_ok prepared g i i' :
  item_ok i -> complete_item_output prepared g i = Some i' -> item_ok i'.
Proof.
  unfold complete_item_output, item_ok. intros Hi H.
  destruct (preparation i) as [|vs sel pend gen|]; [done| |done].
  destruct (negb (g =? gen)%Z); [done|].
  destruct (is_prepared_for sel prepared) eqn:Hm; cbn in H; [|done]. simplify_eq. cbn.
  apply is_prepared_for_spec in Hm as <-. destruct Hi as [Hnd _].
  destruct (selections_filter (selection_of prepared) vs Hnd) as [Hf Hn].
  split.
  - rewrite fmap_app. apply NoDup_app. split; [done|]. split; [|apply NoDup_singleton].
    intros s Hs ->%list_elem_of_singleton. done.
  - exists prepared. split; [set_solver|]. split; [done|]. repeat split; by right.
Qed.

Lemma select_item_output_ok selection i i' :
  item_ok i -> select_item_output selection i = Some i' -> item_ok i'.
Proof.
  unfold select_item_output, item_ok. intros Hi H.
  destruct (preparation i) as [|vs sel pend gen|]; [done| |done].
  destruct Hi as [Hnd _]. destruct (find_first _ vs) as [v|] eqn:Hf; simplify_eq; cbn.
  - apply find_first_elem in Hf as [Hv Hp]. apply is_prepared_for_spec in Hp.
    split; [done|]. exists v. split; [done|]. split; [done|]. apply adopt_shows.
  - split; [done|]. split; [done|]. rewrite find_first_None, Forall_forall in Hf.
    intros (v & Hs & Hv)%list_elem_of_fmap. specialize (Hf v Hv).
    by apply is_prepared_for_false in Hf.
Qed.

(** Everything the application does to the store: the operations of the service, each in the
    steps it publishes in, and what follows the session and the rooms. *)
Inductive StagingOp :=
  | Op_Stage (target : ComposerTarget) (inputs : list StageUploadBytesInput)
      (composer_document : option Document)
  | Op_Prepared (target : ComposerTarget) (preparing_ids : list string)
      (prepared : list (StageUploadBytesInput * Codecs))
  | Op_Select (target : ComposerTarget) (id : string) (selection : StagedUploadOutputSelection)
  | Op_Encoded (target : ComposerTarget) (id : string) (selection : StagedUploadOutputSelection)
      (generation source_len : Z) (source_kept : bool)
      (encoded : PreparedImageVariant + MediaPreparationFailureKind)
  | Op_Retry (target : ComposerTarget) (source : StageUploadBytesInput) (codecs : Codecs)
  | Op_UseOriginal (target : ComposerTarget) (source : StageUploadBytesInput)
  | Op_Sent (target : ComposerTarget) (id : string)
  | Op_Caption (target : ComposerTarget) (id : string) (new_caption : option Document)
  | Op_Compression (target : ComposerTarget) (id : string) (choice : StagedUploadCompressionChoice)
  | Op_Clear (target : ComposerTarget)
  | Op_ClearThreads (room_id : string)
  | Op_Retain (room_ids : gset string).
Definition staging_step (s : UploadStagingStore) (op : StagingOp) : UploadStagingStore :=
  match op with
  | Op_Stage t inputs doc => default s (stage_upload_bytes s t inputs doc)
  | Op_Prepared t ids prepared => default s (publish_prepared s t ids prepared)
  | Op_Select t id sel => default s (select_staged_upload_output s t id sel)
  | Op_Encoded t id sel g len kept e => default s (finish_selected_output s t id sel g len kept e)
  | Op_Retry t source codecs => default s (retry_staged_upload_preparation s t source codecs)
  | Op_UseOriginal t source => default s (use_original s t source)
  | Op_Sent t id => default s (remove_sent_upload s t id)
  | Op_Caption t id c => default s (fst <$> update_caption s t id c)
  | Op_Compression t id c => default s (fst <$> update_compression_choice s t id c)
  | Op_Clear t => (clear_target s t).1
  | Op_ClearThreads r => (clear_thread_targets_for_room s r).1
  | Op_Retain rooms => retain_staging_rooms s rooms
  end.
Definition staging_run (ops : list StagingOp) : UploadStagingStore :=
  foldl staging_step UploadStagingStore_default ops.

(** The operation neither selects an output of the upload [id] of [target] nor prepares it
    anew. *)
Definition leaves_choice (target : ComposerTarget) (id : string) (op : StagingOp) : bool :=
  match op with
  | Op_Stage t inputs _ => negb (bool_decide (t = target) && bool_decide (id ∈ input_staged_id <$> inputs))
  | Op_Prepared t _ prepared =>
      negb (bool_decide (t = target) && bool_decide (id ∈ input_staged_id <$> prepared.*1))
  | Op_Select t i _ => negb (bool_decide (t = target) && bool_decide (i = id))
  | Op_Retry t source _ | Op_UseOriginal t source =>
      negb (bool_decide (t = target) && bool_decide (input_staged_id source = id))
  | _ => true
  end.

(** What every entry of the store satisfies, for [P] on its key and item. *)
Definition entries_ok (P : ComposerTarget -> StagedUploadItem -> Prop) (s : UploadStagingStore) : Prop :=
  map_Forall (fun k i => staged_id i = k.2 /\ P k.1 i) (staged_items s).

Lemma items_for_target_elem s t i :
  i ∈ items_for_target s t <-> exists id, staged_items s !! (t, id) = Some i.
Proof.
  unfold items_for_target. rewrite elem_of_sort_by, list_elem_of_fmap. split.
  - intros ([id j] & -> & H). rewrite elem_of_sort_by, list_elem_of_omap in H.
    destruct H as ([[u id'] j'] & Hm & Hs). cbn in Hs. case_decide; simplify_eq/=.
    exists id. by apply elem_of_map_to_list.
  - intros [id Hi]. exists (id, i). split; [done|].
    rewrite elem_of_sort_by, list_elem_of_omap. exists ((t, id), i).
    split; [by apply elem_of_map_to_list|]. cbn. by rewrite decide_True.
Qed.

Section entries.
Context (P : ComposerTarget -> StagedUploadItem -> Prop).

Lemma entries_items s t i : entries_ok P s -> i ∈ items_for_target s t -> P t i.
Proof. intros Hs [id Hi]%items_for_target_elem. by apply (Hs (t, id)) in Hi as [_ ?]. Qed.

Lemma entries_retain keep s : entries_ok P s -> entries_ok P (retain_targets keep s).
Proof. intros Hs k i Hi. cbn in Hi. apply map_lookup_filter_Some in Hi as [Hi _]. by apply (Hs k). Qed.

Lemma entries_replace s t items :
  entries_ok P s -> Forall (P t) items -> entries_ok P (replace_target_items s t items).
Proof.
  intros Hs Hitems. unfold replace_target_items.
  assert (Forall (P t) (filter (fun i => staged_room_id i = target_room_id t) items)) as Hall.
  { rewrite Forall_forall in Hitems |- *. intros i [_ Hi]%list_elem_of_filter. by apply Hitems. }
  apply (entries_retain (fun u => negb (bool_decide (u = t)))) in Hs.
  revert Hs. generalize (retain_targets (fun u => negb (bool_decide (u = t))) s).
  induction Hall as [|i l Hi _ IH]; intros s' Hs'; [done|]. cbn. apply IH.
  by apply map_Forall_insert_2.
Qed.

Lemma entries_update s t id f :
  (forall i i', staged_items s !! (t, id) = Some i -> P t i -> f i = Some i' ->
    staged_id i' = staged_id i /\ P t i') ->
  entries_ok P s -> entries_ok P (default s (fst <$> update_item s t id f)).
Proof.
  intros Hf Hs. unfold update_item. destruct (staged_items s !! (t, id)) as [i|] eqn:Hi;
    cbn [mbind option_bind]; [|done].
  destruct (f i) as [i'|] eqn:Hfi; cbn; [|done].
  pose proof (Hs _ _ Hi) as [Hid Hp]. destruct (Hf i i' eq_refl Hp Hfi) as [Hid' Hp'].
  apply map_Forall_insert_2; [|done]. cbn in *. by rewrite Hid'.
Qed.

Lemma replace_first_Forall t id i items items' :
  Forall (P t) items -> P t i -> replace_first id i items = Some items' -> Forall (P t) items'.
Proof.
  intros Hall Hi. revert items'. induction Hall as [|j l Hj Hl IH]; intros items' H; [done|].
  cbn in H. destruct (String.eqb _ _).
  - injection H as <-. by constructor.
  - destruct (replace_first id i l) as [k|]; [|done]. injection H as <-. constructor; [done|].
    by apply IH.
Qed.

Lemma entries_replace_item s t id i :
  P t i -> entries_ok P s -> entries_ok P (default s (replace_staged_upload_item s t id i)).
Proof.
  intros Hi Hs. unfold replace_staged_upload_item.
  destruct (replace_first id i (items_for_target s t)) as [items|] eqn:H; [|done]. cbn.
  apply entries_replace; [done|]. eapply replace_first_Forall, H; [|done].
  apply Forall_forall. intros j Hj. by apply (entries_items s).
Qed.
End entries.

Lemma staged_item_Some s t id i :
  staged_item s t id = Some i -> i ∈ items_for_target s t /\ staged_id i = id.
Proof. intros [Hi Hid]%find_first_elem. split; [done|]. by apply String.eqb_eq. Qed.
Lemma staged_item_lookup P s t id i :
  entries_ok P s -> staged_item s t id = Some i -> staged_items s !! (t, id) = Some i.
Proof.
  intros Hs [[k Hi]%items_for_target_elem <-]%staged_item_Some.
  apply Hs in Hi as Hk. destruct Hk as [-> _]. done.
Qed.

(** ** The operations keep every item consistent *)

Lemma prepare_one_id t input codecs :
  staged_id (prepare_one t input codecs) = input_staged_id input.
Proof.
  unfold prepare_one, prepare_heif_one. destruct (heif_mime_type codecs); [by destruct (prepared_output codecs)|].
  destruct (_ =? 0)%Z; [done|]. destruct (negb _); [done|]. by destruct (prepared_output codecs).
Qed.

Lemma store_original_file_ok t input : item_ok (store_original_file t input).
Proof.
  split; [repeat constructor; set_solver|]. eexists. split; [apply list_elem_of_here|].
  split; [done|]. repeat split. by left.
Qed.

Lemma prepare_one_ok t input codecs : item_ok (prepare_one t input codecs).
Proof.
  unfold prepare_one, prepare_heif_one. destruct (heif_mime_type codecs).
  - destruct (prepared_output codecs) as [v|]; [|done]. split.
    + repeat constructor; [|set_solver]. intros H. by apply list_elem_of_singleton in H.
    + eexists. split; [apply list_elem_of_further, list_elem_of_here|]. split; [done|].
      repeat split. by right.
  - destruct (_ =? 0)%Z; [done|]. destruct (negb _); [apply store_original_file_ok|].
    destruct (prepared_output codecs) as [v|]; [|done].
    split; [repeat constructor; set_solver|]. eexists. split; [apply list_elem_of_here|].
    split; [done|]. repeat split. by right.
Qed.

(** What an operation has to satisfy to keep [P] of every item. *)
Definition op_keeps (P : ComposerTarget -> StagedUploadItem -> Prop) (op : StagingOp) : Prop :=
  match op with
  | Op_Stage t inputs _ =>
      forall input c, input ∈ inputs -> P t ((preparing_item t input) <| caption := c |>)
  | Op_Prepared t _ prepared =>
      forall p item, p ∈ prepared -> P t (adopt_preparation (prepare_one t p.1 p.2) item)
  | Op_Select t id sel =>
      forall i i', staged_id i = id -> P t i -> select_item_output sel i = Some i' -> P t i'
  | Op_Encoded t _ _ g _ _ _ =>
      forall i, P t i ->
        (forall v i', staged_upload_item_with_completed_output i v g = Some i' -> P t i')
        /\ forall k kept, P t (i <| preparation := Preparation_Failed k kept |>)
  | Op_Retry t source codecs => forall item, P t (adopt_preparation (prepare_one t source codecs) item)
  | Op_UseOriginal t source => forall c, P t ((store_original_file t source) <| caption := c |>)
  | Op_Caption t _ c => forall i, P t i -> P t (i <| caption := c |>)
  | Op_Compression t _ c => forall i, P t i -> P t (i <| compression_choice := c |>)
  | _ => True
  end.

Lemma select_item_output_id sel i i' :
  select_item_output sel i = Some i' -> staged_id i' = staged_id i.
Proof.
  unfold select_item_output. destruct (preparation i); [done| |done].
  destruct (find_first _ _); by intros [= <-].
Qed.

(** The items after the merge are the current ones or prepared ones in their place. *)
Lemma merge_ready_elem by_id items j :
  j ∈ (merge_ready by_id items).1 ->
  j ∈ items \/ exists p item, by_id !! staged_id item = Some p /\ item ∈ items /\ j = adopt_preparation p item.
Proof.
  revert by_id. induction items as [|item items IH]; intros by_id; cbn; [by intros ?%elem_of_nil|].
  destruct (by_id !! staged_id item) as [p|] eqn:Hp.
  - destruct (merge_ready (delete _ by_id) items) as [ready rest] eqn:Hm. cbn.
    intros [->|Hj]%elem_of_cons.
    + right. exists p, item. split; [done|]. split; [apply list_elem_of_here|done].
    + specialize (IH (delete (staged_id item) by_id)). rewrite Hm in IH.
      destruct (IH Hj) as [Hin|(q & it & Hq & Hin & ->)]; [left; by constructor|].
      right. exists q, it. apply lookup_delete_Some in Hq as [_ Hq].
      split; [done|]. split; [by constructor|done].
  - destruct (merge_ready by_id items) as [ready rest] eqn:Hm. cbn.
    intros [->|Hj]%elem_of_cons; [left; apply list_elem_of_here|].
    specialize (IH by_id). rewrite Hm in IH.
    destruct (IH Hj) as [Hin|(q & it & Hq & Hin & ->)]; [left; by constructor|].
    right. exists q, it. split; [done|]. split; [by constructor|done].
Qed.

Lemma prepared_by_id_elem (items : list StagedUploadItem) (m : gmap string StagedUploadItem) k p :
  foldl (fun m p => <[staged_id p := p]> m) m items !! k = Some p -> p ∈ items \/ m !! k = Some p.
Proof.
  revert m. induction items as [|i items IH]; intros m; cbn; [by right|].
  intros [H|H]%IH; [left; by constructor|].
  apply lookup_insert_Some in H as [[_ <-]|[_ H]]; [left; apply list_elem_of_here|by right].
Qed.

Lemma publish_prepared_entries P s t ids prepared :
  (forall p item, p ∈ prepared -> P t (adopt_preparation (prepare_one t p.1 p.2) item)) ->
  entries_ok P s -> entries_ok P (default s (publish_prepared s t ids prepared)).
Proof.
  intros Hp Hs. unfold publish_prepared. destruct (_ || _); [done|]. cbn zeta.
  pose proof (merge_ready_elem
    (foldl (fun m p => <[staged_id p := p]> m) ∅ ((fun p => prepare_one t p.1 p.2) <$> prepared))
    (items_for_target s t)) as Hm.
  destruct (merge_ready _ _) as [ready rest]. destruct (bool_decide _); [|done]. cbn.
  apply entries_replace; [done|]. apply Forall_forall. intros j Hj.
  destruct (Hm j Hj) as [Hin|(q & item & Hq & Hin & ->)]; [by apply (entries_items P s)|].
  apply prepared_by_id_elem in Hq as [(p & -> & Hin')%list_elem_of_fmap|Hq]; [by apply Hp|done].
Qed.

Lemma staging_step_entries P s op :
  op_keeps P op -> entries_ok P s -> entries_ok P (staging_step s op).
Proof.
  intros Hop Hs.
  destruct op as [t inputs doc|t ids prepared|t id sel|t id sel g len kept e|t source codecs|t source
                 |t id|t id c|t id c|t|r|rooms]; cbn [staging_step op_keeps] in *.
  - unfold stage_upload_bytes. destruct (negb _); [done|]. cbn.
    apply entries_replace; [done|]. apply Forall_forall. intros j Hj%elem_of_sort_by.
    apply elem_of_app in Hj as [Hj|(input & -> & Hin)%list_elem_of_fmap];
      [by apply (entries_items P s)|].
    match goal with |- context [match ?o with Some _ => _ | None => _ end] => destruct o as [d|] end.
    + by apply Hop.
    + by apply (Hop input None).
  - by apply publish_prepared_entries.
  - unfold select_staged_upload_output. destruct (staged_item s t id) as [i|]; cbn; [|done].
    destruct (preparation i); [done| |done]. destruct (kind i); [|done].
    apply entries_update; [|done]. intros j j' Hj Hpj Hsel. split; [by eapply select_item_output_id|].
    apply (Hop j); [|done..]. by apply Hs in Hj as [? _].
  - unfold finish_selected_output. destruct (staged_item s t id) as [i|] eqn:Hi; cbn; [|done].
    apply staged_item_Some in Hi as [Hi _]. apply (entries_items P s) in Hi; [|done].
    destruct (Hop i Hi) as [Hdone Hfail]. destruct e as [v|k].
    + destruct (staged_upload_item_with_completed_output _ _ _) as [i'|] eqn:He; cbn; [|done].
      apply entries_replace_item; [|done]. by eapply Hdone.
    + destruct (negb _); [done|]. by apply entries_replace_item.
  - unfold retry_staged_upload_preparation. destruct (staged_item _ _ _) as [i|]; cbn; [|done].
    destruct (preparation i); [done|done|]. by apply entries_replace_item.
  - unfold use_original, original_of. destruct (staged_item _ _ _) as [i|]; cbn; [|done].
    destruct (_ =? 0)%Z; [done|]. cbn. by apply entries_replace_item.
  - unfold remove_sent_upload. destruct (staged_item _ _ _) as [i|]; cbn; [|done].
    apply entries_replace; [done|]. apply Forall_forall. intros j [_ Hj]%list_elem_of_filter.
    by apply (entries_items P s).
  - apply entries_update; [|done]. intros i i' _ Hi [= <-]. split; [done|by apply Hop].
  - apply entries_update; [|done]. intros i i' _ Hi [= <-]. split; [done|by apply Hop].
  - by apply entries_retain.
  - by apply entries_retain.
  - by apply entries_retain.
Qed.

Lemma staging_steps_entries P s ops :
  Forall (op_keeps P) ops -> entries_ok P s -> entries_ok P (foldl staging_step s ops).
Proof.
  intros Hops. revert s. induction Hops as [|op ops Hop _ IH]; intros s Hs; [done|].
  cbn. apply IH. by apply staging_step_entries.
Qed.

(** Every operation keeps the items consistent. *)
Lemma ops_keep_items op : op_keeps (fun _ => item_ok) op.
Proof.
  destruct op; cbn; try done.
  - intros p item _. apply (prepare_one_ok _ p.1 p.2).
  - intros i i' _. apply select_item_output_ok.
  - intros i Hi. split; [|done]. intros v i'. rewrite completed_output_agrees.
    by apply complete_item_output_ok.
  - intros item. apply prepare_one_ok.
  - intros c. apply store_original_file_ok.
Qed.

Lemma staging_run_ok ops : entries_ok (fun _ => item_ok) (staging_run ops).
Proof.
  apply staging_steps_entries; [|apply map_Forall_empty].
  apply Forall_forall. intros op _. apply ops_keep_items.
Qed.

(** The output of the upload [id] of [t] is [sel], as long as it has one. *)
Definition chosen (t : ComposerTarget) (id : string) (sel : StagedUploadOutputSelection)
    (u : ComposerTarget) (i : StagedUploadItem) : Prop :=
  u = t -> staged_id i = id ->
  match preparation i with Prepared _ selected _ _ => selected = sel | _ => True end.

Lemma fresh_elsewhere t id sel u (i : StagedUploadItem) :
  negb (bool_decide (u = t) && bool_decide (staged_id i = id)) = true -> chosen t id sel u i.
Proof.
  intros H -> <-. rewrite !bool_decide_eq_true_2 in H by done. done.
Qed.

Lemma leaves_choice_keeps t id sel op : leaves_choice t id op = true -> op_keeps (chosen t id sel) op.
Proof.
  assert (forall u i, negb (bool_decide (u = t) && bool_decide (staged_id i = id)) = true ->
            chosen t id sel u i) as Hfresh by (intros u i; apply fresh_elsewhere).
  destruct op as [u inputs doc|u ids prepared|u j s'|u j s' g len kept e|u source codecs|u source
                 |u j|u j c|u j c|u|r|rooms]; cbn; intros Hop; try done.
  - intros p item Hin -> Hid. exfalso. change (staged_id (prepare_one t p.1 p.2) = id) in Hid.
    rewrite prepare_one_id in Hid. subst id.
    rewrite !bool_decide_eq_true_2 in Hop; [done|do 2 apply list_elem_of_fmap_2; done|done].
  - intros i i' <- _ Hsel. apply Hfresh. by rewrite (select_item_output_id _ _ _ Hsel).
  - intros i Hi. split; [|done]. intros v i' Hc -> Hid.
    unfold staged_upload_item_with_completed_output in Hc.
    destruct (preparation i) as [|vs selected pend gen|] eqn:Hp; [done| |done].
    destruct (_ || _); [done|]. injection Hc as <-. cbn in Hid |- *.
    specialize (Hi eq_refl Hid). by rewrite Hp in Hi.
  - intros item. apply Hfresh.
    change (negb (bool_decide (u = t) && bool_decide (staged_id (prepare_one u source codecs) = id)) = true).
    by rewrite prepare_one_id.
  - intros c. by apply Hfresh.
Qed.

(** A prepared image: the user may select an output of it. *)
Definition selectable (i : StagedUploadItem) : bool :=
  match preparation i, kind i with Prepared _ _ _ _, Upload_Image _ _ => true | _, _ => false end.

Lemma selection_is_chosen s t id sel i :
  entries_ok (fun _ => item_ok) s -> i ∈ items_for_target s t -> staged_id i = id ->
  selectable i = true -> entries_ok (chosen t id sel) (staging_step s (Op_Select t id sel)).
Proof.
  intros Hs Hi Hid Hsel. pose proof Hi as [k Hk]%items_for_target_elem.
  pose proof (Hs _ _ Hk) as [Hkey _]. cbn in Hkey. rewrite Hid in Hkey. subst k.
  cbn [staging_step]. unfold select_staged_upload_output.
  destruct (staged_item s t id) as [j|] eqn:Hj; cbn [mbind option_bind].
  2:{ apply find_first_None in Hj. rewrite Forall_forall in Hj. specialize (Hj i Hi).
      by rewrite Hid, String.eqb_refl in Hj. }
  apply (staged_item_lookup (fun _ => item_ok)) in Hj; [|done].
  assert (j = i) as -> by congruence.
  unfold selectable in Hsel. destruct (preparation i) as [|vs old pend g|] eqn:Hp; [done| |done].
  destruct (kind i); [|done]. unfold select_output, update_item. rewrite Hk. cbn [mbind option_bind].
  assert (exists i', select_item_output sel i = Some i' /\ staged_id i' = id
          /\ exists vs pend g, preparation i' = Prepared vs sel pend g) as (i' & -> & Hid' & vs' & pd & g' & Hp').
  { unfold select_item_output. rewrite Hp. destruct (find_first _ vs); by eauto 10. }
  cbn [mbind option_bind fmap option_fmap option_map fst default].
  intros [u k] j Hlook. cbn in Hlook.
  apply lookup_insert_Some in Hlook as [[[= <- <-] <-]|[Hne Hlook]].
  - split; [done|]. intros _ _. by rewrite Hp'.
  - pose proof (Hs _ _ Hlook) as [Hkey _]. split; [done|]. cbn in *. intros -> Hjid. congruence.
Qed.

(** C34: What may be sent is what is shown.  Whatever sequence of staging, preparing, finished
    and failed encodes (also late ones, of any generation), retrying, captioning, sending and
    clearing the service and the application do: when the attachments of a composer are
    sendable, every one of them has its selected output already prepared, and its name, type,
    size and dimensions are those of that output.  And the selected output is what the user
    selected last: once an output of a prepared image is selected - prepared already or not -
    it stays the selected one until the user selects another or the upload is prepared anew
    under its id (a retry, the original, a new staging).  The store is meant, that the
    registry of bytes keeps the same selection is not modelled. *)
Theorem sendable_uploads_are_what_is_shown (ops : list StagingOp) (target : ComposerTarget) :
  let items := items_for_target (staging_run ops) target in
  (staged_uploads_are_sendable items = true ->
   forall i, i ∈ items ->
   exists variants selected generation v,
     preparation i = Prepared variants selected None generation
     /\ v ∈ variants /\ selection_of v = selected /\ shows v i)
  /\ forall before id selection after i0,
     ops = before ++ Op_Select target id selection :: after ->
     i0 ∈ items_for_target (staging_run before) target -> staged_id i0 = id ->
     selectable i0 = true ->
     forallb (leaves_choice target id) after = true ->
     forall i variants selected pending generation, i ∈ items -> staged_id i = id ->
     preparation i = Prepared variants selected pending generation -> selected = selection.
Proof.
  intros items. split.
  - intros Hsend i Hi. pose proof (entries_items _ _ _ _ (staging_run_ok ops) Hi) as Hok.
    unfold staged_uploads_are_sendable in Hsend. rewrite forallb_forall in Hsend.
    specialize (Hsend i (proj1 (list_elem_of_In _ _) Hi)). unfold item_ok in Hok.
    destruct (preparation i) as [|vs sel [p|] g|]; [done|done| |done].
    destruct Hok as [_ (v & Hv & Hsel & Hsh)]. by exists vs, sel, g, v.
  - intros before id sel after i0 -> Hi0 Hid0 Hsel Hafter i vs selected pend g Hi Hid Hp.
    assert (entries_ok (chosen target id sel) (staging_run (before ++ Op_Select target id sel :: after)))
      as Hrun.
    { unfold staging_run. rewrite foldl_app. cbn [foldl].
      apply staging_steps_entries; [|by apply (selection_is_chosen _ _ _ _ i0); [apply staging_run_ok|..]].
      apply Forall_forall. intros op Hop. rewrite forallb_forall in Hafter.
      apply leaves_choice_keeps, Hafter. by apply list_elem_of_In. }
    pose proof (entries_items _ _ _ _ Hrun Hi eq_refl Hid) as H. by rewrite Hp in H.
Qed.

(** A photograph is staged and prepared as it is; the user selects half size, a late encode of
    another size arrives, then the right one. *)
Definition sample_input : StageUploadBytesInput :=
  {| input_staged_id := "s1"; input_position := 1; input_filename := "cat.png";
     input_mime_type := "image/png"; input_bytes := 10 |}%Z.
Definition sample_output (name : string) : PreparedImageVariant :=
  {| image_filename := name; image_mime_type := "image/png"; image_format := Image_Png;
     image_bytes := 5; image_dimensions := (4, 3); image_metadata_stripped := false;
     image_thumbnail_refreshed := false |}%Z.
Definition half_size : StagedUploadOutputSelection := {| resize := Resize_Half; format := Format_Keep |}.
Definition quarter_size : StagedUploadOutputSelection :=
  {| resize := Resize_Quarter; format := Format_Keep |}.
Definition staged_ops : list StagingOp :=
  [Op_Stage (Main "!a") [sample_input] None;
   Op_Prepared (Main "!a") ["s1"]
     [(sample_input, {| heif_mime_type := None; prepared_output := inl (sample_output "cat.png") |})]].
Definition encoded_ops : list StagingOp :=
  [Op_Encoded (Main "!a") "s1" quarter_size 1 10 true (inl (sample_output "late.png"));
   Op_Encoded (Main "!a") "s1" half_size 1 10 true (inl (sample_output "half.png"))].
Definition sample_ops : list StagingOp :=
  staged_ops ++ Op_Select (Main "!a") "s1" half_size :: encoded_ops.

Lemma sendable_uploads_are_what_is_shown_witness :
  let items := items_for_target (staging_run sample_ops) (Main "!a") in
  filename <$> items = ["half.png"]
  /\ (forall i, i ∈ items ->
      exists variants selected generation v,
        preparation i = Prepared variants selected None generation
        /\ v ∈ variants /\ selection_of v = selected /\ shows v i)
  /\ forall i variants selected pending generation, i ∈ items -> staged_id i = "s1" ->
     preparation i = Prepared variants selected pending generation -> selected = half_size.
Proof.
  destruct (sendable_uploads_are_what_is_shown sample_ops (Main "!a")) as [Hshown Hlast].
  split; [vm_compute; reflexivity|]. split; [apply Hshown; vm_compute; reflexivity|].
  pose (l := items_for_target (staging_run staged_ops) (Main "!a")).
  assert (exists i0, i0 ∈ l /\ staged_id i0 = "s1" /\ selectable i0 = true) as (i0 & Hi0 & Hid & Hsel).
  { assert (exists i0, l = [i0] /\ staged_id i0 = "s1" /\ selectable i0 = true) as (i0 & -> & H).
    { eexists. split; [vm_compute; reflexivity|]. split; reflexivity. }
    exists i0. split; [apply list_elem_of_here|exact H]. }
  exact (Hlast staged_ops "s1" half_size encoded_ops i0 eq_refl Hi0 Hid Hsel eq_refl).
Defined.

(** Selecting an output that is not prepared yet makes the upload unsendable until it is. *)
Example pending_selection_is_not_sendable :
  staged_uploads_are_sendable
    (items_for_target (staging_run (staged_ops ++ [Op_Select (Main "!a") "s1" half_size])) (Main "!a"))
  = false.
Proof. vm_compute. reflexivity. Qed.

(** * The local outbox *)

Definition scheduled_ok (s : ScheduledSendStore) : Prop :=
  map_Forall (fun id i => scheduled_id i = id) (scheduled_items s).
(** What a local timer at [now_ms] should send. *)
Definition due (s : ScheduledSendStore) (now_ms : Z) : list ScheduledSendItem :=
  filter (fun i => (send_at_ms i <= now_ms)%Z) (dispatchable s).

Lemma scheduled_order_total x y :
  scheduled_send_order x y = true \/ scheduled_send_order y x = true.
Proof.
  unfold scheduled_send_order. rewrite (Z.eqb_sym (send_at_ms y)).
  destruct (_ =? _)%Z; [apply string_leb_total|]. rewrite !Z.leb_le. lia.
Qed.
Lemma scheduled_order_trans x y z :
  scheduled_send_order x y = true -> scheduled_send_order y z = true ->
  scheduled_send_order x z = true.
Proof.
  unfold scheduled_send_order.
  destruct (Z.eqb_spec (send_at_ms x) (send_at_ms y)), (Z.eqb_spec (send_at_ms y) (send_at_ms z)),
    (Z.eqb_spec (send_at_ms x) (send_at_ms z)); rewrite ?Z.leb_le; try lia; apply string_leb_trans.
Qed.
Lemma scheduled_order_antisym x y :
  scheduled_send_order x y = true -> scheduled_send_order y x = true ->
  scheduled_id x = scheduled_id y.
Proof.
  unfold scheduled_send_order.
  destruct (Z.eqb_spec (send_at_ms x) (send_at_ms y)), (Z.eqb_spec (send_at_ms y) (send_at_ms x));
    rewrite ?Z.leb_le; try lia. intros. by apply String.leb_antisym.
Qed.

(** The entries of the store, whatever their order. *)
Lemma scheduled_values_elem s i :
  i ∈ scheduled_values s <-> exists id, scheduled_items s !! id = Some i.
Proof.
  unfold scheduled_values. rewrite list_elem_of_fmap. split.
  - intros ([id j] & -> & H%btree_iter_elem). by exists id.
  - intros [id H]. exists (id, i). split; [done|]. by apply btree_iter_elem.
Qed.
Lemma due_elem s now i :
  i ∈ due s now <->
  (exists id, scheduled_items s !! id = Some i)
  /\ handle i = Handle_Local /\ is_dispatching i = false /\ (send_at_ms i <= now)%Z.
Proof.
  unfold due, dispatchable, is_local.
  rewrite !list_elem_of_filter, bool_decide_eq_true, scheduled_values_elem. tauto.
Qed.

Lemma scheduled_values_NoDup s : scheduled_ok s -> NoDup (scheduled_id <$> scheduled_values s).
Proof.
  intros Hok. unfold scheduled_values.
  assert (scheduled_id <$> (btree_iter (scheduled_items s)).*2 = (btree_iter (scheduled_items s)).*1) as ->.
  { rewrite <- list_fmap_compose. apply list_fmap_ext. intros n [id i] Hn.
    apply list_elem_of_lookup_2, btree_iter_elem in Hn. by apply (Hok id). }
  apply btree_iter_NoDup.
Qed.
Lemma NoDup_fmap_filter {A B} (f : A -> B) (P : A -> Prop) `{!forall x, Decision (P x)} l :
  NoDup (f <$> l) -> NoDup (f <$> filter P l).
Proof.
  induction l as [|x l IH]; [done|]. rewrite fmap_cons, filter_cons, NoDup_cons.
  intros [Hx Hnd]. case_decide; [|by apply IH]. rewrite fmap_cons. constructor; [|by apply IH].
  intros (y & Hy & [_ Hin]%list_elem_of_filter)%list_elem_of_fmap. apply Hx. rewrite Hy.
  by apply list_elem_of_fmap_2.
Qed.
Lemma due_NoDup s now : scheduled_ok s -> NoDup (scheduled_id <$> due s now).
Proof. intros Hok. by do 3 apply NoDup_fmap_filter; apply scheduled_values_NoDup. Qed.

(** What becomes of a message that is handed over at [now]: it is on its way when the account
    actor took it, otherwise it waits for the retry delay. *)
Definition handled (takes : ScheduledSendItem -> bool) (now : Z) (m : ScheduledSendItem) :
    ScheduledSendItem :=
  if takes m then m <| is_dispatching := true |>
  else m <| is_dispatching := false |> <| send_at_ms := local_scheduled_send_retry_at_ms now |>.
(** The message is due, by its own fields. *)
Definition is_due (now : Z) (m : ScheduledSendItem) : bool :=
  is_local m && negb (is_dispatching m) && (send_at_ms m <=? now)%Z.
Definition after_drain (takes : ScheduledSendItem -> bool) (now : Z) (m : ScheduledSendItem) :
    ScheduledSendItem := if is_due now m then handled takes now m else m.

Lemma due_is_due s now i :
  i ∈ due s now <-> (exists id, scheduled_items s !! id = Some i) /\ is_due now i = true.
Proof.
  rewrite due_elem. unfold is_due, is_local.
  rewrite !andb_true_iff, bool_decide_eq_true, negb_true_iff, Z.leb_le. tauto.
Qed.

Lemma handled_id takes now m : scheduled_id (handled takes now m) = scheduled_id m.
Proof. unfold handled. by destruct (takes m). Qed.

Lemma handled_waits takes now m : (now < U64_MAX)%Z -> is_due now (handled takes now m) = false.
Proof.
  intros Hnow. unfold handled, is_due. destruct (takes m); cbn.
  - by rewrite andb_false_r.
  - apply andb_false_iff. right. apply Z.leb_gt.
    unfold local_scheduled_send_retry_at_ms, u64_saturating_add, LOCAL_SCHEDULED_SEND_RETRY_DELAY. lia.
Qed.

(** One dispatch writes the handled message over the due one and nothing else. *)
Lemma dispatch_writes_one s now m takes :
  scheduled_ok s -> m ∈ due s now ->
  dispatch_scheduled_send s m (takes m) now
  = (s <| scheduled_items ::= <[scheduled_id m := handled takes now m]> |>,
     if takes m then Some m else None).
Proof.
  intros Hok Hm. pose proof Hm as ([id Hid] & Hl & Hd & Hle)%due_elem.
  pose proof (Hok id m Hid) as Hk. cbn in Hk. subst id.
  assert (is_local m = true) as Hloc by (by apply bool_decide_eq_true).
  unfold dispatch_scheduled_send, start_local_dispatch, update_scheduled, handled.
  rewrite Hid. cbn [mbind option_bind]. rewrite Hloc. cbn [negb mbind option_bind].
  destruct (takes m); [done|].
  unfold retry_local_dispatch, update_scheduled.
  assert (forall (s : ScheduledSendStore) k x,
            scheduled_items (s <| scheduled_items ::= <[k := x]> |>) = <[k := x]> (scheduled_items s))
    as Hput by reflexivity.
  rewrite Hput, lookup_insert_eq. cbn [mbind option_bind].
  assert (is_local (m <| is_dispatching := true |>) = is_local m) as -> by reflexivity.
  rewrite Hloc. cbn [negb mbind option_bind].
  f_equal. destruct s as [cap items], m as [mid mroom mroot mbody mat mh md].
  cbv [update ScheduledSendStore_updatable ScheduledSendItem_updatable]. cbn.
  by rewrite insert_insert_eq.
Qed.

(** A dispatched item is the only one to leave the due items, whether it was taken or not. *)
Lemma dispatch_removes_one s now m takes :
  scheduled_ok s -> (now < U64_MAX)%Z -> m ∈ due s now ->
  let s' := s <| scheduled_items ::= <[scheduled_id m := handled takes now m]> |> in
  scheduled_ok s' /\ due s now ≡ₚ m :: due s' now.
Proof.
  intros Hok Hnow Hm s'. pose proof Hm as ([id Hid] & Hdue)%due_is_due.
  pose proof (Hok id m Hid) as Hk. cbn in Hk. subst id.
  assert (scheduled_ok s') as Hok'.
  { apply map_Forall_insert_2; [apply handled_id|done]. }
  split; [done|].
  apply NoDup_Permutation.
  - eapply NoDup_fmap_1, due_NoDup, Hok.
  - constructor; [|eapply NoDup_fmap_1, due_NoDup, Hok'].
    intros ([id Hi] & Hf)%due_is_due. cbn in Hi.
    apply lookup_insert_Some in Hi as [[_ Heq]|[Hne Hi]].
    + rewrite <- Heq, handled_waits in Hf; done.
    + apply Hne. by apply (Hok id m Hi).
  - intros i. rewrite elem_of_cons, !due_is_due. cbn. split.
    + intros ([id Hi] & Hrest). destruct (decide (id = scheduled_id m)) as [->|Hne].
      * left. congruence.
      * right. split; [|done]. exists id. by rewrite lookup_insert_ne.
    + intros [->|([id Hi] & Hrest)]; [by eauto|].
      apply lookup_insert_Some in Hi as [[_ <-]|[Hne Hi]]; [by rewrite handled_waits in Hrest|].
      by eauto.
Qed.

(** The run loop at one instant: as long as the timer fires at once, dispatch.  [takes] says
    which messages the account actor takes. *)
Fixpoint drain (fuel : nat) (ready send_admitted : bool) (takes : ScheduledSendItem -> bool)
    (now : Z) (s : ScheduledSendStore) : ScheduledSendStore * list ScheduledSendItem :=
  match fuel with
  | O => (s, [])
  | S fuel =>
      match scheduled_send_delay ready send_admitted s now with
      | Some 0%Z =>
          let accepted := from_option takes true (next_local_due s now) in
          let '(s, sent) := dispatch_due_scheduled_send ready send_admitted s accepted now in
          let '(s, more) := drain fuel ready send_admitted takes now s in
          (s, option_list sent ++ more)
      | _ => (s, [])
      end
  end.

Lemma next_local_due_min s now m :
  next_local_due s now = Some m ->
  m ∈ due s now /\ forall i, i ∈ due s now -> scheduled_send_order m i = true.
Proof. apply min_by_Some; [apply scheduled_order_total|apply scheduled_order_trans]. Qed.

(** The least of distinct entries is the head of the sorted list. *)
Lemma sort_by_least l l' m :
  NoDup (scheduled_id <$> l) -> l ≡ₚ m :: l' ->
  (forall i, i ∈ l -> scheduled_send_order m i = true) ->
  sort_by scheduled_send_order l = m :: sort_by scheduled_send_order l'.
Proof.
  intros Hnd Hp Hmin.
  assert (forall x y, x ∈ l -> y ∈ l -> scheduled_id x = scheduled_id y -> x = y) as Hinj.
  { intros x y (i & Hi)%list_elem_of_lookup (j & Hj)%list_elem_of_lookup Hxy.
    assert (i = j) as ->; [|congruence].
    apply (NoDup_lookup _ i j (scheduled_id x) Hnd); rewrite list_lookup_fmap.
    - by rewrite Hi.
    - by rewrite Hj, Hxy. }
  eapply (StronglySorted_unique_strong (fun x y => scheduled_send_order x y = true)).
  - intros x y Hx Hy Hxy Hyx. rewrite elem_of_sort_by in Hx.
    assert (y ∈ l) as Hy' by (rewrite Hp; rewrite elem_of_cons, elem_of_sort_by in Hy; by apply elem_of_cons).
    apply Hinj; [done..|]. by apply scheduled_order_antisym.
  - apply sort_by_sorted; [apply scheduled_order_total|apply scheduled_order_trans].
  - constructor; [apply sort_by_sorted; [apply scheduled_order_total|apply scheduled_order_trans]|].
    rewrite Forall_forall. intros x Hx%elem_of_sort_by. apply Hmin. rewrite Hp. by constructor.
  - by rewrite !sort_by_Permutation.
Qed.

Lemma due_empty s now :
  due s now = [] <-> forall i, i ∈ dispatchable s -> (now < send_at_ms i)%Z.
Proof.
  unfold due. split.
  - intros H i Hi. destruct (decide (send_at_ms i <= now)%Z) as [Hle|]; [|lia].
    assert (i ∈ filter (fun i => (send_at_ms i <= now)%Z) (dispatchable s)) as Hin
      by (by apply list_elem_of_filter).
    rewrite H in Hin. by apply elem_of_nil in Hin.
  - intros H. destruct (filter _ _) as [|i l] eqn:E; [done|].
    assert (i ∈ filter (fun i => (send_at_ms i <= now)%Z) (dispatchable s)) as Hin
      by (rewrite E; apply list_elem_of_here).
    apply list_elem_of_filter in Hin as [Hle Hin]. specialize (H i Hin). lia.
Qed.

(** What the timer should do: fire at once when something is due, sleep until the next local
    message otherwise, and not be armed when there is none. *)
Definition timer_for (s : ScheduledSendStore) (now : Z) (delay : option Z) : Prop :=
  (due s now <> [] -> delay = Some 0%Z)
  /\ (due s now = [] -> forall i, i ∈ dispatchable s ->
      (forall j, j ∈ dispatchable s -> send_at_ms i <= send_at_ms j)%Z ->
      delay = Some (send_at_ms i - now)%Z /\ (0 < send_at_ms i - now)%Z)
  /\ (dispatchable s = [] -> delay = None).

Lemma timer_is_exact s now : timer_for s now (scheduled_send_delay true true s now).
Proof.
  unfold timer_for, scheduled_send_delay, next_local_send_at_ms. cbn [negb].
  destruct (min_by Z.leb (send_at_ms <$> dispatchable s)) as [t|] eqn:Ht;
    cbn [mbind option_bind].
  - apply min_by_Some in Ht as [Hin Hmin];
      [|intros x y; rewrite !Z.leb_le; lia|intros x y z; rewrite !Z.leb_le; lia].
    apply list_elem_of_fmap in Hin as (m & -> & Hm).
    assert (forall j, j ∈ dispatchable s -> send_at_ms m <= send_at_ms j)%Z as Hle.
    { intros j Hj. apply Z.leb_le, Hmin. by apply list_elem_of_fmap_2. }
    split; [|split].
    + intros Hd. destruct (decide (send_at_ms m <= now)%Z) as [|Hgt]; [f_equal; lia|].
      exfalso. apply Hd. apply due_empty. intros i Hi. specialize (Hle i Hi). lia.
    + intros Hd i Hi Hleast. rewrite due_empty in Hd. specialize (Hleast m Hm).
      specialize (Hle i Hi). specialize (Hd m Hm). split; [f_equal|]; lia.
    + intros H. rewrite H in Hm. by apply elem_of_nil in Hm.
  - apply min_by_None, fmap_nil_inv in Ht. unfold due. rewrite Ht. split; [done|]. split; [|done].
    intros _ i Hi. by apply elem_of_nil in Hi.
Qed.

(** The timer fires at once only when something is due. *)
Lemma timer_waits s now : due s now = [] -> scheduled_send_delay true true s now <> Some 0%Z.
Proof.
  intros Hd. destruct (timer_is_exact s now) as (_ & Hwait & Hnone).
  destruct (min_by (fun x y => (send_at_ms x <=? send_at_ms y)%Z) (dispatchable s)) as [m|] eqn:Hm.
  - apply min_by_Some in Hm as [Hin Hmin];
      [|intros x y; rewrite !Z.leb_le; lia|intros x y z; rewrite !Z.leb_le; lia].
    destruct (Hwait Hd m Hin) as [-> Hpos]; [|intros [=]; lia].
    intros j Hj. by apply Z.leb_le, Hmin.
  - apply min_by_None in Hm. by rewrite (Hnone Hm).
Qed.

(** Writing the handled messages one by one or all at once is the same. *)
Lemma after_drain_put takes now s m :
  scheduled_ok s -> (now < U64_MAX)%Z -> m ∈ due s now ->
  after_drain takes now <$> <[scheduled_id m := handled takes now m]> (scheduled_items s)
  = after_drain takes now <$> scheduled_items s.
Proof.
  intros Hok Hnow ([id Hid] & Hdue)%due_is_due.
  pose proof (Hok id m Hid) as Hk. cbn in Hk. subst id.
  rewrite fmap_insert. apply insert_id. rewrite lookup_fmap, Hid. cbn. f_equal.
  unfold after_drain. by rewrite handled_waits, Hdue.
Qed.

Lemma drain_spec fuel takes now s :
  scheduled_ok s -> (now < U64_MAX)%Z -> (length (due s now) < fuel)%nat ->
  let '(s', sent) := drain fuel true true takes now s in
  sent = filter (fun m => takes m = true) (sort_by scheduled_send_order (due s now))
  /\ scheduled_items s' = after_drain takes now <$> scheduled_items s
  /\ due s' now = [].
Proof.
  intros Hok Hnow. revert s Hok. induction fuel as [|fuel IH]; intros s Hok Hf; [lia|].
  cbn [drain]. destruct (timer_is_exact s now) as (Hfire & _).
  destruct (next_local_due s now) as [m|] eqn:Hm.
  - pose proof Hm as [Hin Hmin]%next_local_due_min.
    rewrite Hfire by (intros Hd; rewrite Hd in Hin; by apply elem_of_nil in Hin).
    unfold dispatch_due_scheduled_send. cbn [negb from_option]. rewrite Hm.
    rewrite dispatch_writes_one by done.
    pose proof (dispatch_removes_one s now m takes Hok Hnow Hin) as Hone. cbn zeta in Hone.
    pose proof (after_drain_put takes now s m Hok Hnow Hin) as Hput.
    set (s1 := s <| scheduled_items ::= _ |>) in *.
    assert (scheduled_items s1 = <[scheduled_id m := handled takes now m]> (scheduled_items s))
      as Hs1 by reflexivity.
    clearbody s1. destruct Hone as [Hok1 Hp].
    assert (length (due s1 now) < fuel)%nat as Hl.
    { apply Permutation_length in Hp. cbn in Hp. lia. }
    specialize (IH s1 Hok1 Hl). destruct (drain fuel true true takes now s1) as [s2 l].
    destruct IH as (-> & Hitems & ?). split; [|split; [|done]].
    + rewrite (sort_by_least (due s now) (due s1 now) m); [|by apply due_NoDup|done..].
      rewrite filter_cons. destruct (takes m); [by rewrite decide_True|by rewrite decide_False].
    + by rewrite Hitems, Hs1.
  - apply min_by_None in Hm. change (due s now = []) in Hm.
    pose proof (timer_waits s now Hm) as Hwait.
    assert (match scheduled_send_delay true true s now with
            | Some 0%Z => False | _ => True end) as Hw.
    { destruct (scheduled_send_delay true true s now) as [[]|]; done. }
    assert (scheduled_items s = after_drain takes now <$> scheduled_items s) as Hsame.
    { rewrite <- (map_fmap_id (scheduled_items s)) at 1. apply map_fmap_ext. intros id i Hi.
      unfold after_drain. destruct (is_due now i) eqn:E; [|done].
      assert (i ∈ due s now) as Hin by (apply due_is_due; eauto).
      rewrite Hm in Hin. by apply elem_of_nil in Hin. }
    destruct (scheduled_send_delay true true s now) as [[]|]; try done; by rewrite Hm.
Qed.

(** C33: The local outbox loses no message and sends none twice.  While the session is ready
    and sending is admitted, the timer fires at once whenever something is due, sleeps exactly
    until the next local message otherwise, and is not armed when nothing waits; without them
    it is never armed and nothing is dispatched.  The run loop at one instant - at most one
    dispatch per due message is needed - offers every due local message that is not already on
    its way once, by time and then by id: those the account actor takes ([takes], any choice)
    are sent and marked as on their way, the others wait with their text for the retry delay,
    every other entry is as it was, and nothing is due any more. *)
Theorem outbox_drains_in_order (s : ScheduledSendStore) (takes : ScheduledSendItem -> bool) (now : Z) :
  scheduled_ok s -> (now < U64_MAX)%Z ->
  timer_for s now (scheduled_send_delay true true s now)
  /\ (forall ready send_admitted accepted, ready && send_admitted = false ->
      scheduled_send_delay ready send_admitted s now = None
      /\ dispatch_due_scheduled_send ready send_admitted s accepted now = (s, None))
  /\ let '(s', sent) := drain (S (length (due s now))) true true takes now s in
     sent = filter (fun m => takes m = true) (sort_by scheduled_send_order (due s now))
     /\ NoDup (scheduled_id <$> sent)
     /\ scheduled_items s' = after_drain takes now <$> scheduled_items s
     /\ due s' now = []
     /\ timer_for s' now (scheduled_send_delay true true s' now).
Proof.
  intros Hok Hnow. split; [apply timer_is_exact|]. split.
  { intros [] [] accepted Hr; done. }
  pose proof (drain_spec (S (length (due s now))) takes now s Hok Hnow) as H.
  destruct (drain _ true true takes now s) as [s' sent]. destruct H as (-> & Hitems & Hd); [lia|].
  split; [done|]. split.
  { apply NoDup_fmap_filter. rewrite sort_by_Permutation. by apply due_NoDup. }
  split; [done|]. split; [done|]. apply timer_is_exact.
Qed.

Definition sample_scheduled (id : string) (at_ms : Z) (h : ScheduledSendHandle) : ScheduledSendItem :=
  {| scheduled_id := id; scheduled_room_id := "!a"; thread_root_event_id := None; body := "hello";
     send_at_ms := at_ms; handle := h; is_dispatching := false |}.
Definition sample_store : ScheduledSendStore :=
  foldl insert_scheduled ScheduledSendStore_default
    [sample_scheduled "c" 5 Handle_Local; sample_scheduled "a" 9 Handle_Local;
     sample_scheduled "b" 5 Handle_Local; sample_scheduled "d" 7 (Handle_Server "x");
     sample_scheduled "e" 70 Handle_Local]%Z.

(** The account actor refuses "c": "b" and "a" are sent, "c" waits. *)
Lemma outbox_drains_in_order_witness :
  let takes := fun m => negb (String.eqb (scheduled_id m) "c") in
  scheduled_ok sample_store
  /\ scheduled_id <$> (drain (S (length (due sample_store 10))) true true takes 10 sample_store).2
     = ["b"; "a"]
  /\ timer_for sample_store 10 (scheduled_send_delay true true sample_store 10).
Proof.
  intros takes. assert (scheduled_ok sample_store) as Hok.
  { repeat (apply map_Forall_insert_2; [reflexivity|]). apply map_Forall_empty. }
  split; [exact Hok|]. split; [vm_compute; reflexivity|].
  exact (proj1 (outbox_drains_in_order sample_store takes 10 Hok eq_refl)).
Defined.
