(* ===== verification/Panes.v ===== *)
(** The conversation panes of the application state: the timeline pane with its composer and
    submission registry, the thread pane, the focused context, the navigation they depend on
    ([crates/koushi-state/src/state/timeline.rs], [state/thread.rs], [state/navigation.rs]),
    and the functions of [reducer/mod.rs] that select, replace and clear the active room; with
    the decidable equality of all of it.

    [Panes] is the part of the Rust [AppState] these reducers read and write; [AppState.v]
    models the session part.  Fields that are only carried along are one serialised string.
    An [AppEffect] these reducers emit is a [PaneEffect]. *)

From stdpp Require Import base list strings gmap.
From Stdlib Require Import ZArith Lia.
From S2P Require Import Prelude Text AppState Markdown ComposerDocument DraftStore Staging.
Local Open Scope string_scope.
Local Open Scope list_scope.
Local Set Warnings "-clear-no-such-hyp".

(** * The submission registry *)

Definition MAX_ACCEPTED_SUBMISSION_TOMBSTONES : nat := 128.
Definition SubmissionId : Type := string.

Record ComposerSubmissionRecord := {
  submission_id : SubmissionId; transaction_id : string; submission_target : ComposerTarget }.
#[export] Instance ComposerSubmissionRecord_eq : EqDecision ComposerSubmissionRecord.
Proof. solve_decision. Defined.

Record ComposerSubmissionRegistry := {
  accepted_submission_ids : list SubmissionId;
  queued_submission_ids : list SubmissionId;
  settled_submission_ids : list SubmissionId;
  active_submissions : list ComposerSubmissionRecord }.
#[export] Instance ComposerSubmissionRegistry_updatable : Updatable ComposerSubmissionRegistry :=
  fun r =>
  {| accepted_submission_ids := accepted_submission_ids r;
     queued_submission_ids := queued_submission_ids r;
     settled_submission_ids := settled_submission_ids r;
     active_submissions := active_submissions r |}.
Definition ComposerSubmissionRegistry_default : ComposerSubmissionRegistry :=
  {| accepted_submission_ids := []; queued_submission_ids := []; settled_submission_ids := [];
     active_submissions := [] |}.

(** [while ids.len() >= MAX { ids.pop_front() }] *)
Definition make_room (ids : list SubmissionId) : list SubmissionId :=
  drop (S (length ids) - MAX_ACCEPTED_SUBMISSION_TOMBSTONES) ids.
Definition remember_bounded_id (ids : list SubmissionId) (id : SubmissionId) : list SubmissionId :=
  if bool_decide (id ∈ ids) then ids else make_room ids ++ [id].

Definition remember_queued (r : ComposerSubmissionRegistry) (id : SubmissionId) :
    ComposerSubmissionRegistry :=
  r <| queued_submission_ids ::= fun ids => remember_bounded_id ids id |>.
Definition remember_accepted (r : ComposerSubmissionRegistry) (id : SubmissionId) (tx : string)
    (target : ComposerTarget) : ComposerSubmissionRegistry :=
  if bool_decide (id ∈ accepted_submission_ids r) then r
  else r <| accepted_submission_ids ::= fun ids => ids ++ [id] |>
         <| active_submissions ::= fun l =>
              l ++ [{| submission_id := id; transaction_id := tx; submission_target := target |}] |>.
Definition active_matches (r : ComposerSubmissionRegistry) (id : SubmissionId) (tx : string)
    (target : ComposerTarget) : bool :=
  existsb (fun a => String.eqb (submission_id a) id && String.eqb (transaction_id a) tx
                    && bool_decide (submission_target a = target)) (active_submissions r).
Definition remember_settled (r : ComposerSubmissionRegistry) (id : SubmissionId) :
    ComposerSubmissionRegistry :=
  r <| accepted_submission_ids ::= filter (fun a => a <> id) |>
    <| queued_submission_ids ::= filter (fun q => q <> id) |>
    <| active_submissions ::= filter (fun a => submission_id a <> id) |>
    <| settled_submission_ids ::= fun ids => remember_bounded_id ids id |>.

(** [ComposerState::remember_accepted_submission] *)
Definition remember_accepted_submission (c : ComposerState) (id : SubmissionId) : ComposerState :=
  c <| composer_accepted_ids ::= fun ids => make_room ids ++ [id] |>.

#[export] Instance MentionTarget_eq : EqDecision MentionTarget.
Proof. solve_decision. Defined.
#[export] Instance AssistantDraftMarker_eq : EqDecision AssistantDraftMarker.
Proof. solve_decision. Defined.
#[export] Instance PendingComposerSendKind_eq : EqDecision PendingComposerSendKind.
Proof. solve_decision. Defined.
#[export] Instance ComposerState_eq : EqDecision ComposerState.
Proof. solve_decision. Defined.

(** * Timeline continuity *)

Inductive TimelineGapRepairFailureKind :=
  | Gap_Network | Gap_Timeout | Gap_Sdk | Gap_Cancelled | Gap_UnsupportedAnchor.
Inductive TimelineContinuityInspection :=
  | Inspection_Unknown | Inspection_Gapped (gap_count : Z) | Inspection_Complete.
Inductive TimelineContinuityState :=
  | Continuity_Unknown
  | Continuity_Inspecting (generation known_gap_count : Z)
  | Continuity_Healthy (generation : Z) (authoritative_start : bool)
  | Continuity_Incomplete (generation gap_count : Z)
  | Continuity_Repairing (generation gap_count batches_processed : Z) (minimum_batch_id : option Z)
  | Continuity_FailedIncomplete (generation gap_count batches_processed : Z)
      (failure_kind : TimelineGapRepairFailureKind).

(** * Media downloads *)

Inductive OperationFailureKind :=
  | Failure_Forbidden | Failure_NotFound | Failure_Network | Failure_Timeout | Failure_Invalid
  | Failure_Sdk | Failure_UnsupportedPolicyCondition | Failure_PolicyNotVerified.
Record MediaTransferProgress := { current : Z; total : Z }.
Inductive TimelineMediaDownloadState :=
  | Download_NotRequested
  | Download_Pending (progress : option MediaTransferProgress)
  | Download_Ready (source_ref : string) (width height : option Z) (mime_type : option string)
  | Download_Failed (failure_kind : OperationFailureKind).

(** * The panes *)

Record TimelinePaneState := {
  timeline_room_id : option string;
  timeline_is_subscribed : bool;
  is_paginating_backwards : bool;
  composer : ComposerState;
  submission_registry : ComposerSubmissionRegistry;
  scheduled_send_capability : ScheduledSendCapability;
  timeline_scheduled_sends : list ScheduledSendItem;
  staged_uploads : list StagedUploadItem;
  timeline_media_gallery : list TimelineMediaGalleryItem;
  media_downloads : gmap string TimelineMediaDownloadState;
  reply_quote_thumbnails : gmap string TimelineMediaDownloadState;
  continuity : TimelineContinuityState }.
#[export] Instance TimelinePaneState_updatable : Updatable TimelinePaneState := fun t =>
  {| timeline_room_id := timeline_room_id t; timeline_is_subscribed := timeline_is_subscribed t;
     is_paginating_backwards := is_paginating_backwards t; composer := composer t;
     submission_registry := submission_registry t;
     scheduled_send_capability := scheduled_send_capability t;
     timeline_scheduled_sends := timeline_scheduled_sends t; staged_uploads := staged_uploads t;
     timeline_media_gallery := timeline_media_gallery t; media_downloads := media_downloads t;
     reply_quote_thumbnails := reply_quote_thumbnails t; continuity := continuity t |}.
Definition TimelinePaneState_default : TimelinePaneState :=
  {| timeline_room_id := None; timeline_is_subscribed := false; is_paginating_backwards := false;
     composer := ComposerState_default; submission_registry := ComposerSubmissionRegistry_default;
     scheduled_send_capability := Capability_Unknown; timeline_scheduled_sends := [];
     staged_uploads := []; timeline_media_gallery := []; media_downloads := ∅;
     reply_quote_thumbnails := ∅; continuity := Continuity_Unknown |}.

Inductive ThreadOpenIntent :=
  | ExistingThread | NewThreadDraft | PinnedReply (event_id : string).

(** The fields of [ThreadPaneState::Open]. *)
Record OpenThread := {
  open_room_id : string;
  open_root_event_id : string;
  intent : ThreadOpenIntent;
  is_subscribed : bool;
  thread_composer : ComposerState;
  thread_staged_uploads : list StagedUploadItem }.
#[export] Instance OpenThread_updatable : Updatable OpenThread := fun t =>
  {| open_room_id := open_room_id t; open_root_event_id := open_root_event_id t;
     intent := intent t; is_subscribed := is_subscribed t; thread_composer := thread_composer t;
     thread_staged_uploads := thread_staged_uploads t |}.

Inductive ThreadPaneState :=
  | Thread_Closed
  | Thread_Opening (room_id root_event_id : string) (intent : ThreadOpenIntent)
  | Thread_Open (pane : OpenThread)
  | Thread_Failed (room_id root_event_id : string) (intent : ThreadOpenIntent)
      (failure_kind : OperationFailureKind).
Inductive ThreadAttentionState :=
  | Attention_Closed
  | Attention_Tracking (room_id root_event_id : string)
      (notification_count highlight_count live_event_marker_count : Z).
#[export] Instance ThreadAttentionState_eq : EqDecision ThreadAttentionState.
Proof. solve_decision. Defined.

Inductive FocusedContextState :=
  | Focused_Closed
  | Focused_Opening (room_id event_id : string)
  | Focused_Open (room_id event_id : string) (is_subscribed : bool).
#[export] Instance FocusedContextState_eq : EqDecision FocusedContextState.
Proof. solve_decision. Defined.

(** ** The threads list *)

Record ThreadsListItem := {
  item_room_id : string; item_root_event_id : string; root_sender : string;
  root_sender_label : option string; root_body_preview : option string;
  root_timestamp_ms : option Z; latest_event_id : option string; latest_sender : option string;
  latest_sender_label : option string; latest_body_preview : option string;
  latest_timestamp_ms : option Z; reply_count : Z; unread_count : Z }.
#[export] Instance ThreadsListItem_updatable : Updatable ThreadsListItem := fun i =>
  {| item_room_id := item_room_id i; item_root_event_id := item_root_event_id i;
     root_sender := root_sender i; root_sender_label := root_sender_label i;
     root_body_preview := root_body_preview i; root_timestamp_ms := root_timestamp_ms i;
     latest_event_id := latest_event_id i; latest_sender := latest_sender i;
     latest_sender_label := latest_sender_label i; latest_body_preview := latest_body_preview i;
     latest_timestamp_ms := latest_timestamp_ms i; reply_count := reply_count i;
     unread_count := unread_count i |}.
#[export] Instance ThreadsListItem_eq : EqDecision ThreadsListItem.
Proof. solve_decision. Defined.

Inductive ThreadsListState :=
  | ThreadsList_Closed
  | ThreadsList_Loading (room_id : string) (request_id : Z)
  | ThreadsList_Open (room_id : string) (request_id : Z) (items : list ThreadsListItem)
      (is_paginating end_reached : bool)
  | ThreadsList_Failed (room_id : string) (request_id : Z) (failure_kind : OperationFailureKind)
      (items : list ThreadsListItem).
Inductive ThreadListOrder := Order_LatestReply | Order_RootChronology.
Record ThreadRootAttention := { unread : Z; highlight : Z }.
#[export] Instance ThreadRootAttention_eq : EqDecision ThreadRootAttention.
Proof. solve_decision. Defined.

Definition threads_list_is_closed (l : ThreadsListState) : bool :=
  match l with ThreadsList_Closed => true | _ => false end.
Definition thread_is_closed (t : ThreadPaneState) : bool :=
  match t with Thread_Closed => true | _ => false end.

(** * Navigation *)

Inductive EventNavigationSource :=
  | Source_Activity | Source_Search | Source_Pinned | Source_Notification | Source_ReplyQuote.
Inductive EventNavigationFailureKind :=
  | Navigation_TargetMissing | Navigation_RoomUnavailable | Navigation_SessionUnavailable
  | Navigation_Timeline.
Inductive EventNavigationState :=
  | Navigation_Idle
  | Navigation_Opening (generation : Z) (source : EventNavigationSource)
  | Navigation_Anchored (generation : Z) (source : EventNavigationSource)
  | Navigation_LiveFallback (generation : Z) (source : EventNavigationSource)
  | Navigation_Failed (generation : Z) (source : EventNavigationSource)
      (failure_kind : EventNavigationFailureKind).
Inductive TimelineScrollAnchorEdge := Edge_Top | Edge_Bottom.
Record TimelineScrollAnchor := {
  anchor_event_id : string; edge : TimelineScrollAnchorEdge; offset_px : Z; updated_at_ms : Z }.
#[export] Instance TimelineScrollAnchorEdge_eq : EqDecision TimelineScrollAnchorEdge.
Proof. solve_decision. Defined.
#[export] Instance TimelineScrollAnchor_eq : EqDecision TimelineScrollAnchor.
Proof. solve_decision. Defined.

Record NavigationState := {
  active_space_id : option string;
  active_room_id : option string;
  room_scroll_anchors : gmap string TimelineScrollAnchor;
  main_timeline_anchor : option string;
  revealed_sidebar_section : option string;
  event_navigation : EventNavigationState;
  navigation_rest : string }.
#[export] Instance NavigationState_updatable : Updatable NavigationState := fun n =>
  {| active_space_id := active_space_id n; active_room_id := active_room_id n;
     room_scroll_anchors := room_scroll_anchors n; main_timeline_anchor := main_timeline_anchor n;
     revealed_sidebar_section := revealed_sidebar_section n;
     event_navigation := event_navigation n; navigation_rest := navigation_rest n |}.

(** * The state *)

(** A room or Space entry; the other fields serialised. *)
Record PaneRoom := {
  room_id : string; thread_unread_count : Z; thread_highlight_count : Z; room_rest : string }.
#[export] Instance PaneRoom_updatable : Updatable PaneRoom := fun r =>
  {| room_id := room_id r; thread_unread_count := thread_unread_count r;
     thread_highlight_count := thread_highlight_count r; room_rest := room_rest r |}.
Record PaneSpace := { space_id : string; child_room_ids : list string; space_rest : string }.

Record Panes := {
  session : SessionState;
  spaces : list PaneSpace;
  rooms : list PaneRoom;
  navigation : NavigationState;
  timeline : TimelinePaneState;
  thread : ThreadPaneState;
  thread_attention : ThreadAttentionState;
  threads_list : ThreadsListState;
  thread_list_order : ThreadListOrder;
  thread_unread : gmap ThreadKey ThreadRootAttention;
  focused_context : FocusedContextState;
  composer_drafts : ComposerDraftStore;
  scheduled_sends : ScheduledSendStore;
  scheduled_sends_list : ScheduledSendsListState;
  upload_staging : UploadStagingStore;
  media_gallery : MediaGalleryStore;
  errors : list AppError }.
#[export] Instance Panes_updatable : Updatable Panes := fun s =>
  {| session := session s; spaces := spaces s; rooms := rooms s; navigation := navigation s;
     timeline := timeline s; thread := thread s; thread_attention := thread_attention s;
     threads_list := threads_list s; thread_list_order := thread_list_order s;
     thread_unread := thread_unread s; focused_context := focused_context s;
     composer_drafts := composer_drafts s; scheduled_sends := scheduled_sends s;
     scheduled_sends_list := scheduled_sends_list s; upload_staging := upload_staging s;
     media_gallery := media_gallery s; errors := errors s |}.

Inductive PaneEffect :=
  | SubscribeTimeline (room_id : string)
  | PaginateTimelineBackwards (room_id : string)
  | CancelPendingMainTimelineNavigation (room_id : string)
  | SendText (room_id transaction_id body : string)
  | OpenThreadTimeline (room_id root_event_id : string) (intent : ThreadOpenIntent)
  | OpenFocusedTimeline (room_id event_id : string)
  | SubscribeThreadsList (request_id : Z) (room_id : string)
  | SubscribeThreadsListScoped (request_id : Z) (scope_key : string) (room_ids : list string)
  | PaginateThreadsList (request_id : Z) (room_id : string)
  | UnsubscribeThreadsList
  | EmitUiEvent (event : UiEvent).
Definition Reduced : Type := Panes * list PaneEffect.

Definition is_session_ready (state : Panes) : bool :=
  match session state with Session_Ready _ => true | _ => false end.
Definition room_exists (state : Panes) (id : string) : bool :=
  existsb (fun room => String.eqb (room_id room) id) (rooms state).
(** [state.timeline.room_id.as_deref() == Some(id)] *)
Definition shows_room (state : Panes) (id : string) : bool :=
  bool_decide (timeline_room_id (timeline state) = Some id).
(** The open thread pane when it shows this root. *)
Definition open_thread (state : Panes) (room root : string) : option OpenThread :=
  match thread state with
  | Thread_Open t =>
      if String.eqb (open_room_id t) room && String.eqb (open_root_event_id t) root
      then Some t else None
  | _ => None
  end.
Definition push_error (state : Panes) (code message : string) : Panes :=
  state <| errors ::= fun l => l ++ [{| error_code := code; error_message := message;
                                        recoverable := true; error_reason := None |}] |>.

(** * Refreshing the pane from the stores ([reducer/mod.rs]) *)

Definition refresh_timeline_scheduled_sends (state : Panes) : Panes :=
  state <| timeline ::= fun t =>
    t <| scheduled_send_capability := capability (scheduled_sends state) |>
      <| timeline_scheduled_sends :=
           default [] (scheduled_for_room (scheduled_sends state) <$> timeline_room_id t) |> |>.
Definition refresh_timeline_upload_staging (state : Panes) : Panes :=
  state <| timeline ::= fun t =>
    t <| staged_uploads :=
           default [] (staged_items_for_room (upload_staging state) <$> timeline_room_id t) |> |>.
Definition refresh_timeline_media_gallery (state : Panes) : Panes :=
  state <| timeline ::= fun t =>
    t <| timeline_media_gallery :=
           default [] (gallery_for_room (media_gallery state) <$> timeline_room_id t) |> |>.

(** * Selecting and clearing the active room ([reducer/mod.rs]) *)

(** The [TimelinePaneState] literal of the room selections: the registry is carried over. *)
Definition timeline_of_room (state : Panes) (id : string) : TimelinePaneState :=
  {| timeline_room_id := Some id; timeline_is_subscribed := false; is_paginating_backwards := false;
     composer := composer_for_room (composer_drafts state) id;
     submission_registry := submission_registry (timeline state);
     scheduled_send_capability := capability (scheduled_sends state);
     timeline_scheduled_sends := scheduled_for_room (scheduled_sends state) id;
     staged_uploads := staged_items_for_room (upload_staging state) id;
     timeline_media_gallery := gallery_for_room (media_gallery state) id;
     media_downloads := ∅; reply_quote_thumbnails := ∅; continuity := Continuity_Unknown |}.

Definition had_thread (state : Panes) : bool :=
  negb (thread_is_closed (thread state)) || negb (bool_decide (thread_attention state = Attention_Closed)).
Definition close_thread_pane (state : Panes) : Panes :=
  state <| thread := Thread_Closed |> <| thread_attention := Attention_Closed |>.
Definition event_if (b : bool) (e : UiEvent) : list PaneEffect := if b then [EmitUiEvent e] else [].

Definition select_active_room_after_room_list_update (state : Panes) (id : string) : Reduced :=
  let effects :=
    [SubscribeTimeline id; EmitUiEvent (TimelineChanged id)] ++ event_if (had_thread state) ThreadChanged in
  let state := state <| navigation ::= fun n => n <| active_room_id := Some id |> |> in
  (close_thread_pane (state <| timeline := timeline_of_room state id |>), effects).

Definition reset_main_pane (n : NavigationState) : NavigationState :=
  n <| main_timeline_anchor := None |> <| event_navigation := Navigation_Idle |>.

Definition select_active_room_for_navigation (state : Panes) (id : string) : Reduced :=
  let effects :=
    [SubscribeTimeline id; EmitUiEvent (TimelineChanged id)]
    ++ event_if (had_thread state) ThreadChanged
    ++ event_if (negb (threads_list_is_closed (threads_list state))) ThreadsListChanged in
  let state := state <| navigation ::= fun n => n <| active_room_id := Some id |> |> in
  let state := close_thread_pane (state <| timeline := timeline_of_room state id |>) in
  (state <| threads_list := ThreadsList_Closed |> <| focused_context := Focused_Closed |>
         <| navigation ::= reset_main_pane |>, effects).

Definition clear_active_room_for_navigation (state : Panes) (previous_room_id : string) : Reduced :=
  let effects :=
    [EmitUiEvent (TimelineChanged previous_room_id)]
    ++ event_if (had_thread state) ThreadChanged
    ++ event_if (negb (threads_list_is_closed (threads_list state))) ThreadsListChanged in
  let state := state <| navigation ::= fun n => n <| active_room_id := None |> |> in
  let state := close_thread_pane (state <| timeline := TimelinePaneState_default |>) in
  (state <| threads_list := ThreadsList_Closed |> <| focused_context := Focused_Closed |>
         <| navigation ::= fun n => (reset_main_pane n) <| revealed_sidebar_section := None |> |>,
   effects).

(** * Retiring a session ([reducer/mod.rs], [reducer/session.rs]) *)

Definition SCHEDULED_SEND_PERSISTENCE_FAILED : string := "scheduled_send_persistence_failed".
Definition withdraw_scheduled_send_persistence_failure (state : Panes) : Reduced :=
  let kept := filter (fun e => error_code e <> SCHEDULED_SEND_PERSISTENCE_FAILED) (errors state) in
  (state <| errors := kept |>,
   event_if (negb (length kept =? length (errors state))%nat) ErrorChanged).

(** The default of the fields that are carried along is the empty text. *)
Definition NavigationState_default : NavigationState :=
  {| active_space_id := None; active_room_id := None; room_scroll_anchors := ∅;
     main_timeline_anchor := None; revealed_sidebar_section := None;
     event_navigation := Navigation_Idle; navigation_rest := "" |}.

(** What [clear_session_views] does to these panes. *)
Definition retire_panes (state : Panes) : Panes :=
  (close_thread_pane (withdraw_scheduled_send_persistence_failure state).1)
    <| navigation := NavigationState_default |> <| spaces := [] |> <| rooms := [] |>
    <| composer_drafts := ComposerDraftStore_default |>
    <| scheduled_sends := ScheduledSendStore_default |>
    <| upload_staging := UploadStagingStore_default |>
    <| media_gallery := MediaGalleryStore_default |>
    <| timeline := TimelinePaneState_default |> <| thread_unread := ∅ |>
    <| focused_context := Focused_Closed |> <| threads_list := ThreadsList_Closed |>.

(** What [lock_ready_session] and [gate_ready_session] do to them: only a ready session is
    retired, and the registry outlives it. *)
Definition retire_ready_session (state : Panes) (next : SessionInfo -> SessionState) : Panes :=
  match session state with
  | Session_Ready info =>
      let registry := submission_registry (timeline state) in
      (retire_panes (state <| session := next info |>))
        <| timeline ::= fun t => t <| submission_registry := registry |> |>
  | _ => state
  end.

(** * Decidable equality

    The core actor compares whole states ([derive(Eq, PartialEq)] in the source). *)

#[export] Instance SlidingSyncCapabilityFailureKind_eq_dec : EqDecision SlidingSyncCapabilityFailureKind.
Proof. solve_decision. Defined.
#[export] Instance VerificationGateFailureKind_eq_dec : EqDecision VerificationGateFailureKind.
Proof. solve_decision. Defined.
#[export] Instance VerificationGateRejectReason_eq_dec : EqDecision VerificationGateRejectReason.
Proof. solve_decision. Defined.
#[export] Instance RecoveryMethod_eq_dec : EqDecision RecoveryMethod.
Proof. solve_decision. Defined.
#[export] Instance ProvisionalPhase_eq_dec : EqDecision ProvisionalPhase.
Proof. solve_decision. Defined.
#[export] Instance VerificationGateState_eq_dec : EqDecision VerificationGateState.
Proof. solve_decision. Defined.
#[export] Instance SessionState_eq_dec : EqDecision SessionState.
Proof. solve_decision. Defined.
#[export] Instance AppError_eq_dec : EqDecision AppError.
Proof. solve_decision. Defined.
#[export] Instance ComposerDraftStore_eq_dec : EqDecision ComposerDraftStore.
Proof. solve_decision. Defined.
#[export] Instance ImageUploadCompressionMode_eq_dec : EqDecision ImageUploadCompressionMode.
Proof. solve_decision. Defined.
#[export] Instance StagedUploadKind_eq_dec : EqDecision StagedUploadKind.
Proof. solve_decision. Defined.
#[export] Instance StagedUploadCompressionChoice_eq_dec : EqDecision StagedUploadCompressionChoice.
Proof. solve_decision. Defined.
#[export] Instance MediaPreparationFailureKind_eq_dec : EqDecision MediaPreparationFailureKind.
Proof. solve_decision. Defined.
#[export] Instance PreparedUploadFormat_eq_dec : EqDecision PreparedUploadFormat.
Proof. solve_decision. Defined.
#[export] Instance PreparedUploadVariant_eq_dec : EqDecision PreparedUploadVariant.
Proof. solve_decision. Defined.
#[export] Instance StagedUploadPreparation_eq_dec : EqDecision StagedUploadPreparation.
Proof. solve_decision. Defined.
#[export] Instance StagedUploadItem_eq_dec : EqDecision StagedUploadItem.
Proof. solve_decision. Defined.
#[export] Instance UploadStagingStore_eq_dec : EqDecision UploadStagingStore.
Proof. solve_decision. Defined.
#[export] Instance ScheduledSendsListState_eq_dec : EqDecision ScheduledSendsListState.
Proof. solve_decision. Defined.
#[export] Instance TimelineMediaKind_eq_dec : EqDecision TimelineMediaKind.
Proof. solve_decision. Defined.
#[export] Instance TimelineMediaGallerySource_eq_dec : EqDecision TimelineMediaGallerySource.
Proof. solve_decision. Defined.
#[export] Instance TimelineMediaGalleryThumbnail_eq_dec : EqDecision TimelineMediaGalleryThumbnail.
Proof. solve_decision. Defined.
#[export] Instance TimelineMediaGalleryMedia_eq_dec : EqDecision TimelineMediaGalleryMedia.
Proof. solve_decision. Defined.
#[export] Instance TimelineMediaGalleryItem_eq_dec : EqDecision TimelineMediaGalleryItem.
Proof. solve_decision. Defined.
#[export] Instance MediaGalleryStore_eq_dec : EqDecision MediaGalleryStore.
Proof. solve_decision. Defined.
#[export] Instance ComposerSubmissionTerminalOutcome_eq_dec : EqDecision ComposerSubmissionTerminalOutcome.
Proof. solve_decision. Defined.
#[export] Instance ComposerSubmissionRegistry_eq_dec : EqDecision ComposerSubmissionRegistry.
Proof. solve_decision. Defined.
#[export] Instance TimelineGapRepairFailureKind_eq_dec : EqDecision TimelineGapRepairFailureKind.
Proof. solve_decision. Defined.
#[export] Instance TimelineContinuityInspection_eq_dec : EqDecision TimelineContinuityInspection.
Proof. solve_decision. Defined.
#[export] Instance OperationFailureKind_eq_dec : EqDecision OperationFailureKind.
Proof. solve_decision. Defined.
#[export] Instance TimelineContinuityState_eq_dec : EqDecision TimelineContinuityState.
Proof. solve_decision. Defined.
#[export] Instance MediaTransferProgress_eq_dec : EqDecision MediaTransferProgress.
Proof. solve_decision. Defined.
#[export] Instance TimelineMediaDownloadState_eq_dec : EqDecision TimelineMediaDownloadState.
Proof. solve_decision. Defined.
#[export] Instance TimelinePaneState_eq_dec : EqDecision TimelinePaneState.
Proof. solve_decision. Defined.
#[export] Instance ThreadOpenIntent_eq_dec : EqDecision ThreadOpenIntent.
Proof. solve_decision. Defined.
#[export] Instance OpenThread_eq_dec : EqDecision OpenThread.
Proof. solve_decision. Defined.
#[export] Instance ThreadPaneState_eq_dec : EqDecision ThreadPaneState.
Proof. solve_decision. Defined.
#[export] Instance ThreadsListState_eq_dec : EqDecision ThreadsListState.
Proof. solve_decision. Defined.
#[export] Instance ThreadListOrder_eq_dec : EqDecision ThreadListOrder.
Proof. solve_decision. Defined.
#[export] Instance EventNavigationSource_eq_dec : EqDecision EventNavigationSource.
Proof. solve_decision. Defined.
#[export] Instance EventNavigationFailureKind_eq_dec : EqDecision EventNavigationFailureKind.
Proof. solve_decision. Defined.
#[export] Instance EventNavigationState_eq_dec : EqDecision EventNavigationState.
Proof. solve_decision. Defined.
#[export] Instance NavigationState_eq_dec : EqDecision NavigationState.
Proof. solve_decision. Defined.
#[export] Instance PaneRoom_eq_dec : EqDecision PaneRoom.
Proof. solve_decision. Defined.
#[export] Instance PaneSpace_eq_dec : EqDecision PaneSpace.
Proof. solve_decision. Defined.
#[export] Instance Panes_eq_dec : EqDecision Panes.
Proof. solve_decision. Defined.
