(* ===== verification/Conversation.v ===== *)
(** The composer and submission reducers ([crates/koushi-state/src/reducer/timeline.rs],
    [reducer/thread.rs], [reducer/submission.rs]): drafts, accepted and settled sends, reply
    modes and assistant drafts of the main and the thread composer. *)

From stdpp Require Import base list strings gmap.
From Stdlib Require Import ZArith Lia.
From S2P Require Import Prelude Text AppState Markdown ComposerDocument DraftStore Staging Panes.
Local Open Scope string_scope.
Local Open Scope list_scope.
Local Set Warnings "-clear-no-such-hyp".

Definition unchanged (state : Panes) : Reduced := (state, []).
(** [&mut state.timeline.composer] and the composer of the open thread pane *)
Definition on_composer (f : ComposerState -> ComposerState) (state : Panes) : Panes :=
  state <| timeline ::= fun t => t <| composer ::= f |> |>.
Definition on_registry (f : ComposerSubmissionRegistry -> ComposerSubmissionRegistry)
    (state : Panes) : Panes :=
  state <| timeline ::= fun t => t <| submission_registry ::= f |> |>.
Definition main_composer (state : Panes) : ComposerState := composer (timeline state).
Definition put_thread (t : OpenThread) (state : Panes) : Panes := state <| thread := Thread_Open t |>.
Definition on_thread_composer (t : OpenThread) (f : ComposerState -> ComposerState) (state : Panes) :
    Panes := put_thread (t <| thread_composer ::= f |>) state.

Definition put_drafts (s : ComposerDraftStore) (state : Panes) : Panes :=
  state <| composer_drafts := s |>.

(** Copy the stored draft, its revision and its clear fence into an open composer. *)
Definition copy_accepted (accepted : ComposerState) (c : ComposerState) : ComposerState :=
  c <| draft := draft accepted |> <| document := document accepted |>
    <| draft_revision := draft_revision accepted |>
    <| last_accepted_clear_revision := last_accepted_clear_revision accepted |>.
Definition is_idle (c : ComposerState) : bool :=
  bool_decide (pending_transaction_id c = None) && is_empty (draft c).
Definition pends (c : ComposerState) (id : SubmissionId) (tx : string) : bool :=
  bool_decide (pending_submission_id c = Some id) && bool_decide (pending_transaction_id c = Some tx).

(** The kind of a send captures the composer's mode. *)
Definition pending_send_kind_for (c : ComposerState) : PendingComposerSendKind :=
  match mode c with Mode_Plain => Pending_Plain | Mode_Reply e => Pending_Reply e end.
(** Back to [Plain] when the completed send was a reply to the target that is still current. *)
Definition settle_thread_reply_mode (kind : option PendingComposerSendKind) (c : ComposerState) :
    ComposerState :=
  match kind with
  | Some (Pending_Reply e) => if bool_decide (mode c = Mode_Reply e) then c <| mode := Mode_Plain |> else c
  | _ => c
  end.
(** [take] the pending kind and forget the pending ids. *)
Definition release (c : ComposerState) : ComposerState :=
  c <| pending_send_kind := None |> <| pending_submission_id := None |>
    <| pending_transaction_id := None |>.

(** * Focused context and return to live *)

Definition handle_close_focused_context (state : Panes) : Reduced :=
  if negb (is_session_ready state) then unchanged state
  else
    let anchored := bool_decide (is_Some (main_timeline_anchor (navigation state))) in
    let state := state <| navigation ::= fun n => n <| main_timeline_anchor := None |> |> in
    let state :=
      match active_room_id (navigation state) with
      | Some id =>
          if anchored
          then state <| navigation ::= fun n => n <| room_scroll_anchors ::= delete id |> |>
          else state
      | None => state
      end in
    unchanged (state <| focused_context := Focused_Closed |>).

Definition handle_return_main_timeline_to_live (state : Panes) (id : string) : Reduced :=
  if negb (is_session_ready state) then unchanged state
  else if negb (bool_decide (active_room_id (navigation state) = Some id)) then unchanged state
  else
    let event_navigation_active :=
      match event_navigation (navigation state) with Navigation_Idle => false | _ => true end in
    if bool_decide (main_timeline_anchor (navigation state) = None) && negb event_navigation_active
    then unchanged state
    else unchanged (state <| navigation ::= reset_main_pane |>).

(** The state and the effect of an accepted send in the active room. *)
Definition return_main_pane_to_live_for_accepted_send (state : Panes) (id : string) : Reduced :=
  if negb (bool_decide (active_room_id (navigation state) = Some id)) then unchanged state
  else
    let state :=
      if bool_decide (is_Some (main_timeline_anchor (navigation state))) then
        (handle_return_main_timeline_to_live (handle_close_focused_context state).1 id).1
      else state in
    (state, [CancelPendingMainTimelineNavigation id]).

(** * Drafts *)

Definition handle_composer_drafts_loaded (state : Panes) (drafts : ComposerDraftStore) : Reduced :=
  if negb (is_session_ready state) then unchanged state
  else
    let state := put_drafts drafts state in
    let '(state, effects) :=
      match timeline_room_id (timeline state) with
      | Some id =>
          let hydrated := composer_for_room (composer_drafts state) id in
          if is_idle (main_composer state) && negb (bool_decide (main_composer state = hydrated))
          then (on_composer (fun _ => hydrated) state, [EmitUiEvent (TimelineChanged id)])
          else (state, [])
      | None => (state, [])
      end in
    match thread state with
    | Thread_Open t =>
        let hydrated :=
          composer_for_thread (composer_drafts state) (open_room_id t) (open_root_event_id t) in
        if is_idle (thread_composer t) && negb (bool_decide (thread_composer t = hydrated))
        then (on_thread_composer t (fun _ => hydrated) state, effects ++ [EmitUiEvent ThreadChanged])
        else (state, effects)
    | _ => (state, effects)
    end.

Definition handle_composer_draft_changed (state : Panes) (id : string) (doc : Document)
    (revision : ComposerDraftRevision) : Reduced :=
  if negb (is_session_ready state) || negb (room_exists state id) then unchanged state
  else
    let '(drafts, result) := apply_room_draft (composer_drafts state) id doc revision in
    let state := put_drafts drafts state in
    match result with
    | inl true =>
        if shows_room state id then
          (on_composer (fun c => c <| draft := document_plain_body doc |> <| document := doc |>
                                   <| draft_revision := revision |>) state,
           [EmitUiEvent (TimelineChanged id)])
        else unchanged state
    | _ => unchanged state
    end.

Definition handle_composer_draft_seeded (state : Panes) (id : string) (doc : Document) : Reduced :=
  if negb (is_session_ready state) || document_is_empty doc || negb (room_exists state id)
     || negb (document_is_empty (document (composer_for_room (composer_drafts state) id)))
  then unchanged state
  else
    match checked_successor (room_revision (composer_drafts state) id) ZERO with
    | inr _ => unchanged state
    | inl revision =>
        let '(drafts, result) := apply_room_draft (composer_drafts state) id doc revision in
        let state := put_drafts drafts state in
        match result with
        | inl true =>
            if shows_room state id && is_idle (main_composer state) then
              (on_composer (fun _ => composer_for_room (composer_drafts state) id) state,
               [EmitUiEvent (TimelineChanged id)])
            else unchanged state
        | _ => unchanged state
        end
    end.

Definition hydrate_staged_draft (hydrated : ComposerState) (c : ComposerState) : ComposerState :=
  c <| draft := draft hydrated |> <| document := document hydrated |>
    <| draft_revision := draft_revision hydrated |> <| assistant_draft := assistant_draft hydrated |>.

Definition handle_assistant_draft_staged (state : Panes) (target : ComposerTarget) (doc : Document)
    (client : string) : Reduced :=
  if negb (is_session_ready state) || negb (room_exists state (target_room_id target))
  then unchanged state
  else
    match stage_assistant_draft (composer_drafts state) target doc client with
    | (drafts, None) => unchanged (put_drafts drafts state)
    | (drafts, Some _) =>
        let state := put_drafts drafts state in
        match target with
        | Main id =>
            if shows_room state id && is_idle (main_composer state) then
              (on_composer (hydrate_staged_draft (composer_for_room (composer_drafts state) id)) state,
               [EmitUiEvent (TimelineChanged id)])
            else unchanged state
        | Thread id root =>
            match open_thread state id root with
            | Some t =>
                if is_idle (thread_composer t) then
                  (on_thread_composer t
                     (hydrate_staged_draft (composer_for_thread (composer_drafts state) id root)) state,
                   [EmitUiEvent ThreadChanged])
                else unchanged state
            | None => unchanged state
            end
        end
    end.

Definition handle_assistant_draft_marker_dismissed (state : Panes) (target : ComposerTarget) :
    Reduced :=
  if negb (is_session_ready state) then unchanged state
  else
    let '(drafts, dismissed) := dismiss_assistant_marker (composer_drafts state) target in
    let state := put_drafts drafts state in
    if negb dismissed then unchanged state
    else match target with
         | Main id => if shows_room state id then (state, [EmitUiEvent (TimelineChanged id)])
                      else unchanged state
         | Thread id root =>
             if bool_decide (is_Some (open_thread state id root))
             then (state, [EmitUiEvent ThreadChanged]) else unchanged state
         end.

Definition sync_assistant_draft_markers (state : Panes) : Panes :=
  let main_marker :=
    id ← timeline_room_id (timeline state); room_assistant_marker (composer_drafts state) id in
  let state := on_composer (fun c => c <| assistant_draft := main_marker |>) state in
  match thread state with
  | Thread_Open t =>
      let marker :=
        thread_assistant_marker (composer_drafts state) (open_room_id t) (open_root_event_id t) in
      on_thread_composer t (fun c => c <| assistant_draft := marker |>) state
  | _ => state
  end.

Definition handle_composer_draft_accepted (state : Panes) (target : ComposerTarget)
    (submitted_revision : ComposerDraftRevision) (consumes_draft : bool) : Reduced :=
  if negb (is_session_ready state) then unchanged state
  else match target with
  | Main id =>
      if negb (room_exists state id) then unchanged state
      else
        let '(drafts, settled) :=
          (if consumes_draft then advance_room_revision else settle_room_revision)
            (composer_drafts state) id submitted_revision in
        let state := put_drafts drafts state in
        match settled with
        | inr _ => unchanged state
        | inl _ =>
            if negb (shows_room state id) then unchanged state
            else
              let state := on_composer (fun _ => composer_for_room (composer_drafts state) id) state in
              let '(state, navigation_effect) := return_main_pane_to_live_for_accepted_send state id in
              (state, [EmitUiEvent (TimelineChanged id)] ++ navigation_effect)
        end
  | Thread id root =>
      if negb (room_exists state id) then unchanged state
      else
        let '(drafts, settled) :=
          (if consumes_draft then advance_thread_revision else settle_thread_revision)
            (composer_drafts state) id root submitted_revision in
        let state := put_drafts drafts state in
        match settled with
        | inr _ => unchanged state
        | inl _ =>
            match open_thread state id root with
            | Some t =>
                (on_thread_composer t (fun _ => composer_for_thread (composer_drafts state) id root) state,
                 [EmitUiEvent ThreadChanged])
            | None => unchanged state
            end
        end
  end.

Definition handle_thread_composer_draft_changed (state : Panes) (id root : string) (doc : Document)
    (revision : ComposerDraftRevision) : Reduced :=
  if negb (is_session_ready state) || negb (room_exists state id) then unchanged state
  else
    let '(drafts, result) := apply_thread_draft (composer_drafts state) id root doc revision in
    let state := put_drafts drafts state in
    match result with
    | inl true =>
        match open_thread state id root with
        | Some t =>
            (on_thread_composer t
               (fun c => c <| draft := document_plain_body doc |> <| document := doc |>
                           <| draft_revision := revision |>) state,
             [EmitUiEvent ThreadChanged])
        | None => unchanged state
        end
    | _ => unchanged state
    end.

(** * Sends without a submission id *)

Definition handle_send_text_submitted (state : Panes) (id tx text : string)
    (revision : ComposerDraftRevision) : Reduced :=
  if negb (is_session_ready state) || negb (shows_room state id)
     || bool_decide (is_Some (pending_transaction_id (main_composer state)))
  then unchanged state
  else
    let state := on_composer (fun c => c <| pending_transaction_id := Some tx |>
                                         <| pending_send_kind := Some (pending_send_kind_for c) |>) state in
    let '(drafts, accepted) := advance_room_revision (composer_drafts state) id revision in
    let state := put_drafts drafts state in
    match accepted with
    | inr _ => unchanged state
    | inl accepted_revision =>
        let '(state, navigation_effect) := return_main_pane_to_live_for_accepted_send state id in
        let state := on_composer (fun c =>
          (copy_accepted (composer_for_room (composer_drafts state) id) c)
            <| draft_revision := accepted_revision |>) state in
        (state, [SendText id tx text; EmitUiEvent (TimelineChanged id)] ++ navigation_effect)
    end.

Definition handle_send_text_finished (state : Panes) (id tx : string) : Reduced :=
  if bool_decide (is_Some (pending_submission_id (main_composer state))) then unchanged state
  else if negb (is_session_ready state) || negb (shows_room state id)
          || negb (bool_decide (pending_transaction_id (main_composer state) = Some tx))
  then unchanged state
  else
    let kind := pending_send_kind (main_composer state) in
    (on_composer (fun c => settle_thread_reply_mode kind
        (c <| pending_send_kind := None |> <| pending_transaction_id := None |>)) state,
     [EmitUiEvent (TimelineChanged id)]).

Definition handle_send_text_failed (state : Panes) (id tx message : string) : Reduced :=
  if bool_decide (is_Some (pending_submission_id (main_composer state))) then unchanged state
  else if negb (is_session_ready state) || negb (shows_room state id)
          || negb (bool_decide (pending_transaction_id (main_composer state) = Some tx))
  then unchanged state
  else
    (push_error (on_composer (fun c => c <| pending_transaction_id := None |>
                                         <| pending_send_kind := None |>) state)
       "send_text_failed" message,
     [EmitUiEvent (TimelineChanged id); EmitUiEvent ErrorChanged]).

Definition handle_thread_reply_submitted (state : Panes) (id root tx : string)
    (revision : ComposerDraftRevision) : Reduced :=
  if negb (is_session_ready state) then unchanged state
  else match open_thread state id root with
  | Some t =>
      if bool_decide (is_Some (pending_transaction_id (thread_composer t))) then unchanged state
      else
        let t := t <| thread_composer ::= fun c =>
          c <| pending_transaction_id := Some tx |>
            <| pending_send_kind := Some (pending_send_kind_for c) |> |> in
        let '(drafts, accepted) := advance_thread_revision (composer_drafts state) id root revision in
        let state := put_drafts drafts (put_thread t state) in
        match accepted with
        | inr _ => unchanged state
        | inl accepted_revision =>
            (on_thread_composer t (fun c =>
               (copy_accepted (composer_for_thread (composer_drafts state) id root) c)
                 <| draft_revision := accepted_revision |>) state,
             [EmitUiEvent ThreadChanged])
        end
  | None => unchanged state
  end.

Definition thread_has_submission (state : Panes) : bool :=
  match thread state with
  | Thread_Open t => bool_decide (is_Some (pending_submission_id (thread_composer t)))
  | _ => false
  end.

Definition handle_thread_reply_finished (state : Panes) (id root tx : string) : Reduced :=
  if thread_has_submission state then unchanged state
  else if negb (is_session_ready state) then unchanged state
  else match open_thread state id root with
  | Some t =>
      if negb (bool_decide (pending_transaction_id (thread_composer t) = Some tx)) then unchanged state
      else
        let kind := pending_send_kind (thread_composer t) in
        (on_thread_composer t (fun c => settle_thread_reply_mode kind
           (c <| pending_transaction_id := None |> <| pending_send_kind := None |>)) state,
         [EmitUiEvent ThreadChanged])
  | None => unchanged state
  end.

Definition handle_thread_reply_failed (state : Panes) (id root tx message : string) : Reduced :=
  if thread_has_submission state then unchanged state
  else if negb (is_session_ready state) then unchanged state
  else match open_thread state id root with
  | Some t =>
      if negb (bool_decide (pending_transaction_id (thread_composer t) = Some tx)) then unchanged state
      else
        (push_error (on_thread_composer t (fun c => c <| pending_transaction_id := None |>
                                                      <| pending_send_kind := None |>) state)
           "send_text_failed" message,
         [EmitUiEvent ThreadChanged; EmitUiEvent ErrorChanged])
  | None => unchanged state
  end.

(** * Submissions *)

Definition known_submission (r : ComposerSubmissionRegistry) (id : SubmissionId) : bool :=
  bool_decide (id ∈ accepted_submission_ids r) || bool_decide (id ∈ settled_submission_ids r).

Definition handle_composer_submission_accepted (state : Panes) (submission : SubmissionId)
    (id tx text : string) (revision : ComposerDraftRevision) : Reduced :=
  if negb (is_session_ready state) then unchanged state
  else if known_submission (submission_registry (timeline state)) submission then unchanged state
  else
    let state := on_registry (fun r => remember_accepted r submission tx (Main id)) state in
    match checked_successor (room_revision (composer_drafts state) id) revision with
    | inr _ => unchanged state
    | inl _ =>
        if negb (shows_room state id)
           || bool_decide (is_Some (pending_submission_id (main_composer state)))
           || bool_decide (is_Some (pending_transaction_id (main_composer state)))
           || bool_decide (submission ∈ composer_accepted_ids (main_composer state))
        then unchanged state
        else
          let state := on_composer (fun c => remember_accepted_submission c submission) state in
          let '(state, navigation_effect) := return_main_pane_to_live_for_accepted_send state id in
          let state := on_composer (fun c =>
            c <| pending_submission_id := Some submission |> <| pending_transaction_id := Some tx |>
              <| pending_send_kind := Some (pending_send_kind_for c) |>) state in
          let state :=
            on_composer (copy_accepted (composer_for_room (composer_drafts state) id)) state in
          (state, [SendText id tx text; EmitUiEvent (TimelineChanged id)] ++ navigation_effect)
    end.

Definition handle_composer_submission_finished (state : Panes) (submission : SubmissionId)
    (id tx : string) : Reduced :=
  if negb (bool_decide (pending_submission_id (main_composer state) = Some submission))
  then unchanged state
  else
    let '(state, effects) := handle_send_text_finished state id tx in
    match effects with
    | [] => (state, effects)
    | _ => (on_composer (fun c => c <| pending_submission_id := None |>) state, effects)
    end.

Definition handle_thread_submission_accepted (state : Panes) (submission : SubmissionId)
    (id root tx : string) (revision : ComposerDraftRevision) : Reduced :=
  if negb (is_session_ready state) then unchanged state
  else if known_submission (submission_registry (timeline state)) submission then unchanged state
  else
    let state := on_registry (fun r => remember_accepted r submission tx (Thread id root)) state in
    match checked_successor (thread_revision (composer_drafts state) id root) revision with
    | inr _ => unchanged state
    | inl _ =>
        match open_thread state id root with
        | Some t =>
            if bool_decide (is_Some (pending_submission_id (thread_composer t)))
               || bool_decide (is_Some (pending_transaction_id (thread_composer t)))
               || bool_decide (submission ∈ composer_accepted_ids (thread_composer t))
            then unchanged state
            else
              let accept c :=
                let c := remember_accepted_submission c submission in
                let c := c <| pending_submission_id := Some submission |>
                           <| pending_transaction_id := Some tx |> in
                let c := c <| pending_send_kind := Some (pending_send_kind_for c) |> in
                copy_accepted (composer_for_thread (composer_drafts state) id root) c in
              (put_thread (t <| thread_composer ::= accept |> <| intent := ExistingThread |>) state,
               [EmitUiEvent ThreadChanged])
        | None => unchanged state
        end
    end.

(** SDK enqueue: the durable acceptance point. *)
Definition handle_queued (state : Panes) (submission : SubmissionId) (tx : string)
    (target : ComposerTarget) (revision : ComposerDraftRevision) : Reduced :=
  if negb (active_matches (submission_registry (timeline state)) submission tx target)
  then unchanged state
  else
    let state := on_registry (fun r => remember_queued r submission) state in
    match target with
    | Main id =>
        let was_cleared := (room_revision (composer_drafts state) id <=? revision)%Z in
        let '(drafts, result) := advance_room_revision (composer_drafts state) id revision in
        let state := put_drafts drafts state in
        match result with
        | inr _ => unchanged state
        | inl _ =>
            if negb (shows_room state id) || negb (pends (main_composer state) submission tx)
            then unchanged state
            else
              let accepted := composer_for_room (composer_drafts state) id in
              let kind := pending_send_kind (main_composer state) in
              (on_composer (fun c =>
                 let c := copy_accepted accepted (release c) in
                 if was_cleared then settle_thread_reply_mode kind c else c) state,
               [EmitUiEvent (TimelineChanged id)])
        end
    | Thread id root =>
        let was_cleared := (thread_revision (composer_drafts state) id root <=? revision)%Z in
        let '(drafts, result) := advance_thread_revision (composer_drafts state) id root revision in
        let state := put_drafts drafts state in
        match result with
        | inr _ => unchanged state
        | inl _ =>
            match open_thread state id root with
            | Some t =>
                if negb (pends (thread_composer t) submission tx) then unchanged state
                else
                  let accepted := composer_for_thread (composer_drafts state) id root in
                  let kind := pending_send_kind (thread_composer t) in
                  (on_thread_composer t (fun c =>
                     let c := release c in
                     copy_accepted accepted
                       (if was_cleared then settle_thread_reply_mode kind c else c)) state,
                   [EmitUiEvent ThreadChanged])
            | None => unchanged state
            end
        end
    end.

Definition succeeded (outcome : ComposerSubmissionTerminalOutcome) : bool :=
  match outcome with Outcome_Succeeded => true | _ => false end.
(** The notice of a failed outcome, after the composer was released. *)
Definition report_failure (state : Panes) (changed : UiEvent)
    (outcome : ComposerSubmissionTerminalOutcome) : Reduced :=
  match outcome with
  | Outcome_Failed message => (push_error state "send_text_failed" message,
                       [EmitUiEvent changed; EmitUiEvent ErrorChanged])
  | _ => (state, [EmitUiEvent changed])
  end.

Definition handle_settled (state : Panes) (submission : SubmissionId) (tx : string)
    (target : ComposerTarget) (outcome : ComposerSubmissionTerminalOutcome) : Reduced :=
  if negb (active_matches (submission_registry (timeline state)) submission tx target)
  then unchanged state
  else
    let state := on_registry (fun r => remember_settled r submission) state in
    if negb (is_session_ready state) then unchanged state
    else match target with
    | Main id =>
        if negb (shows_room state id) || negb (pends (main_composer state) submission tx)
        then unchanged state
        else
          let kind := pending_send_kind (main_composer state) in
          report_failure
            (on_composer (fun c => let c := release c in
               if succeeded outcome then settle_thread_reply_mode kind c else c) state)
            (TimelineChanged id) outcome
    | Thread id root =>
        match open_thread state id root with
        | Some t =>
            if negb (pends (thread_composer t) submission tx) then unchanged state
            else
              let kind := pending_send_kind (thread_composer t) in
              report_failure
                (on_thread_composer t (fun c => let c := release c in
                   if succeeded outcome then settle_thread_reply_mode kind c else c) state)
                ThreadChanged outcome
        | None => unchanged state
        end
    end.

(** * Reply modes *)

Definition handle_composer_reply_target_selected (state : Panes) (id event : string) : Reduced :=
  if negb (is_session_ready state) || negb (shows_room state id) then unchanged state
  else (on_composer (fun c => c <| mode := Mode_Reply event |>) state,
        [EmitUiEvent (TimelineChanged id)]).
Definition handle_composer_reply_cancelled (state : Panes) : Reduced :=
  match timeline_room_id (timeline state) with
  | None => unchanged state
  | Some id =>
      if bool_decide (mode (main_composer state) = Mode_Plain) then unchanged state
      else (on_composer (fun c => c <| mode := Mode_Plain |>) state, [EmitUiEvent (TimelineChanged id)])
  end.
Definition handle_thread_composer_reply_target_selected (state : Panes) (id root event : string) :
    Reduced :=
  if negb (is_session_ready state) then unchanged state
  else match open_thread state id root with
  | Some t => (on_thread_composer t (fun c => c <| mode := Mode_Reply event |>) state,
               [EmitUiEvent ThreadChanged])
  | None => unchanged state
  end.
Definition handle_thread_composer_reply_cancelled (state : Panes) (id root : string) : Reduced :=
  match open_thread state id root with
  | Some t =>
      if bool_decide (mode (thread_composer t) = Mode_Plain) then unchanged state
      else (on_thread_composer t (fun c => c <| mode := Mode_Plain |>) state,
            [EmitUiEvent ThreadChanged])
  | None => unchanged state
  end.
