(* ===== verification/TimelinePane.v ===== *)
(** The timeline pane reducers ([crates/koushi-state/src/reducer/timeline.rs],
    [reducer/scheduled_sends.rs], [reducer/navigation.rs]): subscription, continuity and gap
    repair, back-pagination, scheduled sends, upload staging, media, and the navigation of
    the main pane. *)

From stdpp Require Import base list strings gmap.
From Stdlib Require Import ZArith Lia.
From S2P Require Import Prelude Text AppState Markdown ComposerDocument DraftStore Staging Panes Conversation.
Local Open Scope string_scope.
Local Open Scope list_scope.
Local Set Warnings "-clear-no-such-hyp".

(** * Subscription *)

Definition handle_scheduled_send_persistence_failed (state : Panes) (message : string) : Reduced :=
  if negb (is_session_ready state) then unchanged state
  else if existsb (fun e => String.eqb (error_code e) SCHEDULED_SEND_PERSISTENCE_FAILED) (errors state)
  then unchanged state
  else (push_error state SCHEDULED_SEND_PERSISTENCE_FAILED message, [EmitUiEvent ErrorChanged]).

Definition handle_scheduled_send_persisted (state : Panes) : Reduced :=
  if negb (is_session_ready state) then unchanged state
  else withdraw_scheduled_send_persistence_failure state.

Definition active_room_matches (state : Panes) (id : string) : bool :=
  is_session_ready state && shows_room state id.
Definition on_timeline (f : TimelinePaneState -> TimelinePaneState) (state : Panes) (id : string) :
    Reduced := (state <| timeline ::= f |>, [EmitUiEvent (TimelineChanged id)]).

Definition handle_timeline_subscribed (state : Panes) (id : string) : Reduced :=
  if negb (is_session_ready state) || negb (shows_room state id) then unchanged state
  else on_timeline (fun t => t <| timeline_is_subscribed := true |>
                               <| continuity := Continuity_Unknown |>) state id.
Definition handle_timeline_subscription_failed (state : Panes) (id : string) : Reduced :=
  if negb (is_session_ready state) || negb (shows_room state id) then unchanged state
  else (push_error state "timeline_subscription_failed" "Matrix timeline subscription failed",
        [EmitUiEvent (TimelineChanged id); EmitUiEvent ErrorChanged]).

(** * Continuity *)

Definition continuity_gap_count (c : TimelineContinuityState) : Z :=
  match c with
  | Continuity_Inspecting _ known_gap_count => known_gap_count
  | Continuity_Incomplete _ gap_count | Continuity_Repairing _ gap_count _ _
  | Continuity_FailedIncomplete _ gap_count _ _ => gap_count
  | Continuity_Unknown | Continuity_Healthy _ _ => 0
  end.
Definition continuity_generation (c : TimelineContinuityState) : Z :=
  match c with
  | Continuity_Unknown => 0
  | Continuity_Inspecting generation _ | Continuity_Healthy generation _
  | Continuity_Incomplete generation _ | Continuity_Repairing generation _ _ _
  | Continuity_FailedIncomplete generation _ _ _ => generation
  end.

Definition handle_timeline_continuity_inspection_started (state : Panes) (id : string)
    (generation : Z) : Reduced :=
  if negb (active_room_matches state id)
     || (generation <=? continuity_generation (continuity (timeline state)))%Z
  then unchanged state
  else on_timeline (fun t => t <| continuity :=
         Continuity_Inspecting generation (continuity_gap_count (continuity t)) |>) state id.

Definition inspecting (c : TimelineContinuityState) (generation : Z) : bool :=
  match c with Continuity_Inspecting active _ => (active =? generation)%Z | _ => false end.
Definition repairing (c : TimelineContinuityState) (generation : Z) : bool :=
  match c with Continuity_Repairing active _ _ _ => (active =? generation)%Z | _ => false end.

Definition handle_timeline_continuity_inspected (state : Panes) (id : string) (generation : Z)
    (inspection : TimelineContinuityInspection) : Reduced :=
  if negb (active_room_matches state id) || negb (inspecting (continuity (timeline state)) generation)
  then unchanged state
  else on_timeline (fun t => t <| continuity :=
         match inspection with
         | Inspection_Unknown => Continuity_Unknown
         | Inspection_Gapped gap_count => Continuity_Incomplete generation gap_count
         | Inspection_Complete => Continuity_Healthy generation true
         end |>) state id.

Definition handle_timeline_gap_repair_started (state : Panes) (id : string)
    (generation gap_count : Z) : Reduced :=
  if negb (active_room_matches state id)
     || (generation <=? continuity_generation (continuity (timeline state)))%Z
  then unchanged state
  else on_timeline (fun t => t <| continuity := Continuity_Repairing generation gap_count 0 None |>)
         state id.
Definition handle_timeline_gap_repair_progressed (state : Panes) (id : string)
    (generation gap_count batches_processed : Z) (minimum_batch_id : option Z) : Reduced :=
  if negb (active_room_matches state id) || negb (repairing (continuity (timeline state)) generation)
  then unchanged state
  else on_timeline (fun t => t <| continuity :=
         Continuity_Repairing generation gap_count batches_processed minimum_batch_id |>) state id.
Definition handle_timeline_gap_repair_failed (state : Panes) (id : string)
    (generation gap_count batches_processed : Z) (failure_kind : TimelineGapRepairFailureKind) :
    Reduced :=
  if negb (active_room_matches state id) || negb (repairing (continuity (timeline state)) generation)
  then unchanged state
  else on_timeline (fun t => t <| continuity :=
         Continuity_FailedIncomplete generation gap_count batches_processed failure_kind |>) state id.

(** * Back-pagination *)

Definition handle_timeline_back_pagination_requested (state : Panes) (id : string) : Reduced :=
  if negb (is_session_ready state) then unchanged state
  else if negb (shows_room state id) || is_paginating_backwards (timeline state) then unchanged state
  else (state <| timeline ::= fun t => t <| is_paginating_backwards := true |> |>,
        [PaginateTimelineBackwards id; EmitUiEvent (TimelineChanged id)]).
Definition handle_timeline_back_pagination_finished (state : Panes) (id : string) : Reduced :=
  if negb (is_session_ready state) then unchanged state
  else if negb (shows_room state id) || negb (is_paginating_backwards (timeline state))
  then unchanged state
  else on_timeline (fun t => t <| is_paginating_backwards := false |>) state id.

(** * Scheduled sends *)

Definition handle_scheduled_send_capability_changed (state : Panes)
    (new_capability : ScheduledSendCapability) : Reduced :=
  if negb (is_session_ready state) then unchanged state
  else if bool_decide (capability (scheduled_sends state) = new_capability) then unchanged state
  else
    let state := state <| scheduled_sends ::= fun s => s <| capability := new_capability |> |> in
    let state := state <| timeline ::= fun t => t <| scheduled_send_capability := new_capability |> |> in
    (state, match timeline_room_id (timeline state) with
            | Some id => [EmitUiEvent (TimelineChanged id)]
            | None => []
            end).

Definition handle_scheduled_sends_loaded (state : Panes) (loaded : ScheduledSendStore) : Reduced :=
  if negb (is_session_ready state) then unchanged state
  else if bool_decide (scheduled_sends state = loaded) then unchanged state
  else
    let state := state <| scheduled_sends := loaded |> in
    match timeline_room_id (timeline state) with
    | None => unchanged state
    | Some id => (refresh_timeline_scheduled_sends state, [EmitUiEvent (TimelineChanged id)])
    end.

Definition handle_scheduled_send_created_at_revision (state : Panes) (item : ScheduledSendItem)
    (revision : ComposerDraftRevision) : Reduced :=
  if negb (is_session_ready state) || negb (room_exists state (scheduled_room_id item))
  then unchanged state
  else
    let id := scheduled_room_id item in
    let state := state <| scheduled_sends ::= fun s => insert_scheduled s item |> in
    match thread_root_event_id item with
    | Some root =>
        let '(drafts, result) := advance_thread_revision (composer_drafts state) id root revision in
        let state := put_drafts drafts state in
        match result with
        | inr _ => unchanged state
        | inl _ =>
            let '(state, effects) :=
              match open_thread state id root with
              | Some t =>
                  (on_thread_composer t (fun _ => composer_for_thread (composer_drafts state) id root) state,
                   [EmitUiEvent ThreadChanged])
              | None => (state, [])
              end in
            if shows_room state id
            then (refresh_timeline_scheduled_sends state, effects ++ [EmitUiEvent (TimelineChanged id)])
            else (state, effects)
        end
    | None =>
        let '(drafts, result) := advance_room_revision (composer_drafts state) id revision in
        let state := put_drafts drafts state in
        match result with
        | inr _ => unchanged state
        | inl _ =>
            if shows_room state id then
              (refresh_timeline_scheduled_sends
                 (on_composer (fun _ => composer_for_room (composer_drafts state) id) state),
               [EmitUiEvent (TimelineChanged id)])
            else unchanged state
        end
    end.
Definition handle_scheduled_send_created (state : Panes) (item : ScheduledSendItem) : Reduced :=
  handle_scheduled_send_created_at_revision state item
    match thread_root_event_id item with
    | Some root => thread_revision (composer_drafts state) (scheduled_room_id item) root
    | None => room_revision (composer_drafts state) (scheduled_room_id item)
    end.

Definition handle_scheduled_send_dispatch_started (state : Panes) (id : string) : Reduced :=
  if negb (is_session_ready state) then unchanged state
  else match start_local_dispatch (scheduled_sends state) id with
       | Some (s, _) => unchanged (state <| scheduled_sends := s |>)
       | None => unchanged state
       end.
(** The common end of the updates of one scheduled item. *)
Definition scheduled_item_updated (state : Panes)
    (o : option (ScheduledSendStore * ScheduledSendItem)) : Reduced :=
  if negb (is_session_ready state) then unchanged state
  else match o with
       | None => unchanged state
       | Some (s, item) =>
           let state := state <| scheduled_sends := s |> in
           if shows_room state (scheduled_room_id item)
           then (refresh_timeline_scheduled_sends state,
                 [EmitUiEvent (TimelineChanged (scheduled_room_id item))])
           else unchanged state
       end.
Definition handle_scheduled_send_dispatch_failed (state : Panes) (id : string) (retry_at_ms : Z) :
    Reduced := scheduled_item_updated state (retry_local_dispatch (scheduled_sends state) id retry_at_ms).
Definition handle_scheduled_send_rescheduled (state : Panes) (id text : string) (at_ms : Z)
    (h : ScheduledSendHandle) : Reduced :=
  scheduled_item_updated state (reschedule (scheduled_sends state) id text at_ms h).
Definition handle_scheduled_send_cancelled_or_dispatched (state : Panes) (id : string) : Reduced :=
  scheduled_item_updated state (remove_scheduled (scheduled_sends state) id).

(** ** The scheduled-sends panel ([reducer/scheduled_sends.rs]) *)

Definition space_exists (state : Panes) (id : string) : bool :=
  existsb (fun s => String.eqb (space_id s) id) (spaces state).

Definition handle_open_scheduled_sends_list (state : Panes) (scope : ScheduledSendsScope) : Reduced :=
  if negb (is_session_ready state) then unchanged state
  else
    let rejected :=
      match scope with
      | Scheduled_Home => bool_decide (is_Some (active_space_id (navigation state)))
      | Scheduled_Space id =>
          negb (bool_decide (active_space_id (navigation state) = Some id))
          || negb (space_exists state id)
      end in
    if rejected then unchanged state
    else unchanged (state <| scheduled_sends_list :=
                      List_Open scope (capability (scheduled_sends state)) [] |>).
Definition handle_close_scheduled_sends_list (state : Panes) : Reduced :=
  unchanged (state <| scheduled_sends_list := List_Closed |>).

(** * Upload staging *)

Definition composer_target_is_active (state : Panes) (target : ComposerTarget) : bool :=
  match target with
  | Main id => shows_room state id
  | Thread id root => bool_decide (is_Some (open_thread state id root))
  end.

Definition refresh_and_emit_upload_target (state : Panes) (target : ComposerTarget) : Reduced :=
  match target with
  | Main id => (refresh_timeline_upload_staging state, [EmitUiEvent (TimelineChanged id)])
  | Thread _ _ =>
      (match thread state with
       | Thread_Open t =>
           put_thread (t <| thread_staged_uploads := items_for_target (upload_staging state) target |>)
             state
       | _ => state
       end, [EmitUiEvent ThreadChanged])
  end.

Definition staged_compression_choice_is_valid_for_item (item : option StagedUploadItem)
    (choice : StagedUploadCompressionChoice) : bool :=
  match item, choice with
  | Some item, Choice_NotApplicable => match kind item with Upload_File => true | _ => false end
  | Some item, _ => match kind item with Upload_Image _ _ => true | _ => false end
  | None, _ => false
  end.

Definition handle_upload_staging_changed (state : Panes) (target : ComposerTarget)
    (items : list StagedUploadItem) : Reduced :=
  if negb (is_session_ready state) || negb (room_exists state (target_room_id target))
     || negb (composer_target_is_active state target)
  then unchanged state
  else refresh_and_emit_upload_target
         (state <| upload_staging ::= fun s => replace_target_items s target items |>) target.

(** The common shape of the updates of one staged item. *)
Definition staged_item_updated (state : Panes) (target : ComposerTarget)
    (o : option (UploadStagingStore * StagedUploadItem)) : Reduced :=
  if negb (is_session_ready state) || negb (composer_target_is_active state target)
  then unchanged state
  else match o with
       | None => unchanged state
       | Some (s, _) => refresh_and_emit_upload_target (state <| upload_staging := s |>) target
       end.
Definition handle_upload_staging_caption_changed (state : Panes) (target : ComposerTarget)
    (id : string) (new_caption : option Document) : Reduced :=
  staged_item_updated state target (update_caption (upload_staging state) target id new_caption).
Definition handle_upload_staging_compression_changed (state : Panes) (target : ComposerTarget)
    (id : string) (choice : StagedUploadCompressionChoice) : Reduced :=
  if negb (staged_compression_choice_is_valid_for_item
             (staged_items (upload_staging state) !! (target, id)) choice)
  then unchanged state
  else staged_item_updated state target
         (update_compression_choice (upload_staging state) target id choice).
Definition handle_upload_staging_output_selected (state : Panes) (target : ComposerTarget)
    (id : string) (selection : StagedUploadOutputSelection) : Reduced :=
  staged_item_updated state target (select_output (upload_staging state) target id selection).
Definition handle_upload_staging_cleared (state : Panes) (target : ComposerTarget) : Reduced :=
  if negb (is_session_ready state) || negb (composer_target_is_active state target)
  then unchanged state
  else match clear_target (upload_staging state) target with
       | (_, false) => unchanged state
       | (s, true) => refresh_and_emit_upload_target (state <| upload_staging := s |>) target
       end.

(** * Media *)

Definition handle_media_gallery_updated (state : Panes) (id : string)
    (items : list TimelineMediaGalleryItem) : Reduced :=
  if negb (is_session_ready state) || negb (room_exists state id) then unchanged state
  else
    let state := state <| media_gallery ::= fun g => replace_room_gallery g id items |> in
    if shows_room state id
    then (refresh_timeline_media_gallery state, [EmitUiEvent (TimelineChanged id)])
    else unchanged state.

(** A failed refresh does not take a picture away that is ready. *)
Definition preserve_ready (known : option TimelineMediaDownloadState)
    (new : TimelineMediaDownloadState) : bool :=
  match known, new with Some (Download_Ready _ _ _ _), Download_Failed _ => true | _, _ => false end.

Definition handle_media_download_updated (state : Panes) (id event : string)
    (download : TimelineMediaDownloadState) : Reduced :=
  if negb (is_session_ready state) then unchanged state
  else if negb (shows_room state id) then unchanged state
  else if preserve_ready (media_downloads (timeline state) !! event) download
  then (state, [EmitUiEvent (TimelineChanged id)])
  else on_timeline (fun t => t <| media_downloads ::= <[event := download]> |>) state id.
Definition handle_reply_quote_thumbnail_updated (state : Panes) (id event : string)
    (download : TimelineMediaDownloadState) : Reduced :=
  if negb (is_session_ready state) then unchanged state
  else if negb (shows_room state id) then unchanged state
  else if preserve_ready (reply_quote_thumbnails (timeline state) !! event) download
  then (state, [EmitUiEvent (TimelineChanged id)])
  else on_timeline (fun t => t <| reply_quote_thumbnails ::=
         match download with
         | Download_NotRequested => delete event
         | _ => <[event := download]>
         end |>) state id.

(** * Navigation of the main pane ([reducer/navigation.rs]) *)

Definition MAX_ROOM_SCROLL_ANCHORS : nat := 200.
(** [updated_at_ms], then the room id *)
Definition anchor_leb (x y : string * TimelineScrollAnchor) : bool :=
  if (updated_at_ms x.2 =? updated_at_ms y.2)%Z then String.leb x.1 y.1
  else (updated_at_ms x.2 <=? updated_at_ms y.2)%Z.
Definition prune_room_scroll_anchors (anchors : gmap string TimelineScrollAnchor) :
    gmap string TimelineScrollAnchor :=
  if (size anchors <=? MAX_ROOM_SCROLL_ANCHORS)%nat then anchors
  else
    let ordered := sort_by anchor_leb (btree_iter anchors) in
    let overflow := (size anchors - MAX_ROOM_SCROLL_ANCHORS)%nat in
    foldl (fun anchors kv => delete kv.1 anchors) anchors (take overflow ordered).

Definition handle_timeline_scroll_anchor_updated (state : Panes) (id : string)
    (anchor : TimelineScrollAnchor) : Reduced :=
  if negb (is_session_ready state) then unchanged state
  else if bool_decide (room_scroll_anchors (navigation state) !! id = Some anchor)
  then unchanged state
  else unchanged (state <| navigation ::= fun n =>
         n <| room_scroll_anchors ::= fun m => prune_room_scroll_anchors (<[id := anchor]> m) |> |>).

Definition handle_enter_anchored_timeline (state : Panes) (id event : string) : Reduced :=
  if negb (is_session_ready state) then unchanged state
  else if negb (bool_decide (active_room_id (navigation state) = Some id)) then unchanged state
  else if negb (room_exists state id) then unchanged state
  else unchanged (state <| navigation ::= fun n => n <| main_timeline_anchor := Some event |> |>).

Definition navigation_generation (e : EventNavigationState) : Z :=
  match e with
  | Navigation_Idle => 0
  | Navigation_Opening g _ | Navigation_Anchored g _ | Navigation_LiveFallback g _
  | Navigation_Failed g _ _ => g
  end.
Definition put_event_navigation (e : EventNavigationState) (state : Panes) : Reduced :=
  unchanged (state <| navigation ::= fun n => n <| event_navigation := e |> |>).
Definition event_navigation_opening_source (state : Panes) (generation : Z) :
    option EventNavigationSource :=
  match event_navigation (navigation state) with
  | Navigation_Opening current source => if (current =? generation)%Z then Some source else None
  | _ => None
  end.
Definition handle_event_navigation_started (state : Panes) (source : EventNavigationSource) : Reduced :=
  if negb (is_session_ready state) then unchanged state
  else put_event_navigation
         (Navigation_Opening
            (u64_saturating_add (navigation_generation (event_navigation (navigation state))) 1) source)
         state.
Definition handle_event_navigation_anchored (state : Panes) (generation : Z) : Reduced :=
  match event_navigation_opening_source state generation with
  | None => unchanged state
  | Some source => put_event_navigation (Navigation_Anchored generation source) state
  end.
Definition handle_event_navigation_live_fallback (state : Panes) (generation : Z) : Reduced :=
  match event_navigation_opening_source state generation with
  | None => unchanged state
  | Some source => put_event_navigation (Navigation_LiveFallback generation source) state
  end.
Definition handle_event_navigation_failed (state : Panes) (generation : Z)
    (failure : EventNavigationFailureKind) : Reduced :=
  match event_navigation_opening_source state generation with
  | None => unchanged state
  | Some source => put_event_navigation (Navigation_Failed generation source failure) state
  end.
Definition handle_event_navigation_cleared (state : Panes) : Reduced :=
  put_event_navigation Navigation_Idle state.
Definition handle_event_navigation_failure_dismissed (state : Panes) : Reduced :=
  match event_navigation (navigation state) with
  | Navigation_Failed _ _ _ => put_event_navigation Navigation_Idle state
  | _ => unchanged state
  end.
