(* ===== verification/ThreadPane.v ===== *)
(** The thread pane reducers ([crates/koushi-state/src/reducer/thread.rs], [state/thread.rs]):
    opening, subscribing and closing a thread, its attention, the focused context, and the
    threads list with its scopes, ordering, unread roots and pagination. *)

From stdpp Require Import base list strings gmap.
From Stdlib Require Import ZArith Lia.
From S2P Require Import Prelude Text AppState Markdown ComposerDocument DraftStore DraftPersistence Staging Panes Conversation.
Local Open Scope string_scope.
Local Open Scope list_scope.
Local Set Warnings "-clear-no-such-hyp".

(** * Opening and closing a thread *)

Definition clear_room_thread_uploads (state : Panes) (id : string) : Panes :=
  state <| upload_staging ::= fun s => (clear_thread_targets_for_room s id).1 |>.

(** The [ThreadPaneState::Open] literal: the stored draft and the staged uploads. *)
Definition open_pane (state : Panes) (id root : string) (open_intent : ThreadOpenIntent)
    (subscribed : bool) : OpenThread :=
  {| open_room_id := id; open_root_event_id := root; intent := open_intent;
     is_subscribed := subscribed;
     thread_composer := composer_for_thread (composer_drafts state) id root;
     thread_staged_uploads := items_for_target (upload_staging state) (Thread id root) |}.

Definition handle_open_thread (state : Panes) (id root : string) (open_intent : ThreadOpenIntent) :
    Reduced :=
  if negb (is_session_ready state) || negb (shows_room state id) then unchanged state
  else
    let state := clear_room_thread_uploads state id in
    let pane :=
      match open_intent with
      | ExistingThread | PinnedReply _ => Thread_Opening id root open_intent
      | NewThreadDraft => Thread_Open (open_pane state id root open_intent false)
      end in
    (state <| thread := pane |> <| thread_attention := Attention_Tracking id root 0 0 0 |>,
     [OpenThreadTimeline id root open_intent; EmitUiEvent ThreadChanged]).

Definition handle_thread_subscribed (state : Panes) (id root : string) : Reduced :=
  if negb (is_session_ready state) then unchanged state
  else match thread state with
  | Thread_Open t =>
      if negb (String.eqb (open_room_id t) id) || negb (String.eqb (open_root_event_id t) root)
         || is_subscribed t
      then unchanged state
      else (put_thread (t <| is_subscribed := true |>) state, [EmitUiEvent ThreadChanged])
  | Thread_Opening opening_room_id opening_root_event_id open_intent =>
      if negb (String.eqb opening_room_id id) || negb (String.eqb opening_root_event_id root)
      then unchanged state
      else (put_thread (open_pane state id root open_intent true) state, [EmitUiEvent ThreadChanged])
  | _ => unchanged state
  end.

Definition promotes (i : ThreadOpenIntent) : bool :=
  match i with NewThreadDraft => true | ExistingThread | PinnedReply _ => false end.
(** The pane with its intent promoted, when it is a draft of a new thread at this root. *)
Definition promote_matching_thread_intent (t : ThreadPaneState) (id root : string) :
    option ThreadPaneState :=
  match t with
  | Thread_Opening r e i =>
      if String.eqb r id && String.eqb e root && promotes i
      then Some (Thread_Opening r e ExistingThread) else None
  | Thread_Open o =>
      if String.eqb (open_room_id o) id && String.eqb (open_root_event_id o) root && promotes (intent o)
      then Some (Thread_Open (o <| intent := ExistingThread |>)) else None
  | Thread_Closed | Thread_Failed _ _ _ _ => None
  end.
Definition handle_thread_activity_observed (state : Panes) (id root : string) : Reduced :=
  if negb (is_session_ready state) then unchanged state
  else match promote_matching_thread_intent (thread state) id root with
       | None => unchanged state
       | Some t => (state <| thread := t |>, [EmitUiEvent ThreadChanged])
       end.

Definition handle_thread_subscription_failed (state : Panes) (id root : string)
    (failure : OperationFailureKind) : Reduced :=
  if negb (is_session_ready state) then unchanged state
  else
    let pending_subscription :=
      match thread state with
      | Thread_Opening r e i => if String.eqb r id && String.eqb e root then Some i else None
      | Thread_Open t =>
          if String.eqb (open_room_id t) id && String.eqb (open_root_event_id t) root
             && negb (is_subscribed t)
          then Some (intent t) else None
      | Thread_Closed | Thread_Failed _ _ _ _ => None
      end in
    match pending_subscription with
    | None => unchanged state
    | Some i =>
        let state := clear_room_thread_uploads state id in
        (push_error (state <| thread := Thread_Failed id root i failure |>
                           <| thread_attention := Attention_Closed |>)
           "thread_subscription_failed" "Matrix thread subscription failed",
         [EmitUiEvent ThreadChanged; EmitUiEvent ErrorChanged])
    end.

Definition handle_thread_attention_updated (state : Panes) (id root : string)
    (notification_count highlight_count live_event_marker_count : Z) : Reduced :=
  let next :=
    Attention_Tracking id root notification_count highlight_count live_event_marker_count in
  let tracked :=
    match thread_attention state with
    | Attention_Tracking r e _ _ _ => String.eqb r id && String.eqb e root
    | Attention_Closed => false
    end in
  if negb (is_session_ready state) || negb tracked then unchanged state
  else if bool_decide (thread_attention state = next) then unchanged state
  else (state <| thread_attention := next |>, [EmitUiEvent ThreadChanged]).

Definition handle_close_thread (state : Panes) : Reduced :=
  if negb (is_session_ready state) || thread_is_closed (thread state) then unchanged state
  else
    let state :=
      match thread state with
      | Thread_Open t => clear_room_thread_uploads state (open_room_id t)
      | Thread_Opening id _ _ | Thread_Failed id _ _ _ => clear_room_thread_uploads state id
      | Thread_Closed => state
      end in
    (close_thread_pane state, [EmitUiEvent ThreadChanged]).

(** * Focused context *)

Definition handle_open_focused_context (state : Panes) (id event : string) : Reduced :=
  if negb (is_session_ready state) || negb (shows_room state id) then unchanged state
  else (state <| focused_context := Focused_Opening id event |>, [OpenFocusedTimeline id event]).
Definition opens_context (state : Panes) (id event : string) : bool :=
  bool_decide (focused_context state = Focused_Opening id event).
Definition handle_focused_context_subscribed (state : Panes) (id event : string) : Reduced :=
  if negb (is_session_ready state) || negb (opens_context state id event) then unchanged state
  else unchanged (state <| focused_context := Focused_Open id event true |>).
Definition handle_focused_context_subscription_failed (state : Panes) (id event : string) : Reduced :=
  if negb (is_session_ready state) || negb (opens_context state id event) then unchanged state
  else (push_error (state <| focused_context := Focused_Closed |>)
          "focused_context_subscription_failed" "Matrix focused context subscription failed",
        [EmitUiEvent ErrorChanged]).

(** * Scopes of the threads list *)

Inductive ThreadsListScope :=
  | Scope_Room (room_id : string) | Scope_Home | Scope_Space (space_id : string).

Definition scope_key (s : ThreadsListScope) : string :=
  match s with
  | Scope_Room id => id
  | Scope_Home => "home"
  | Scope_Space id => "space:" +:+ id
  end.
Definition from_scope_key (key : string) : ThreadsListScope :=
  if String.eqb key "home" then Scope_Home
  else match strip_prefix "space:" key with Some id => Scope_Space id | None => Scope_Room key end.

Definition threads_list_room_id (l : ThreadsListState) : option string :=
  match l with
  | ThreadsList_Closed => None
  | ThreadsList_Loading id _ | ThreadsList_Open id _ _ _ _ | ThreadsList_Failed id _ _ _ => Some id
  end.
Definition threads_list_request_id (l : ThreadsListState) : option Z :=
  match l with
  | ThreadsList_Closed => None
  | ThreadsList_Loading _ r | ThreadsList_Open _ r _ _ _ | ThreadsList_Failed _ r _ _ => Some r
  end.
Definition is_loading (l : ThreadsListState) : bool :=
  match l with ThreadsList_Loading _ _ => true | _ => false end.

Definition space_children (state : Panes) (id : string) : option (list string) :=
  child_room_ids <$> find_first (fun s => String.eqb (space_id s) id) (spaces state).

Definition handle_open_threads_list (state : Panes) (request_id : Z) (key : string) : Reduced :=
  if negb (is_session_ready state) then unchanged state
  else
    let scope := from_scope_key key in
    let rejected :=
      match scope with
      | Scope_Room target => negb (bool_decide (active_room_id (navigation state) = Some target))
      | Scope_Home => bool_decide (is_Some (active_space_id (navigation state)))
      | Scope_Space id => negb (bool_decide (active_space_id (navigation state) = Some id))
      end in
    if rejected then unchanged state
    else if bool_decide (threads_list_room_id (threads_list state) = Some key)
            && is_loading (threads_list state)
    then unchanged state
    else
      let room_ids :=
        match scope with
        | Scope_Room id => Some [id]
        | Scope_Home => Some (room_id <$> rooms state)
        | Scope_Space id =>
            children ← space_children state id;
            Some (room_id <$> filter (fun r => room_id r ∈ children) (rooms state))
        end in
      match room_ids with
      | None => unchanged state
      | Some room_ids =>
          let subscribe :=
            match scope with
            | Scope_Room _ => SubscribeThreadsList request_id key
            | _ => SubscribeThreadsListScoped request_id key room_ids
            end in
          (state <| threads_list := ThreadsList_Loading key request_id |>,
           [subscribe; EmitUiEvent ThreadsListChanged])
      end.

(** * The items of the list *)

Definition threads_leb (order : ThreadListOrder) (x y : ThreadsListItem) : bool :=
  let by_root := String.leb (item_root_event_id x) (item_root_event_id y) in
  match order with
  | Order_LatestReply =>
      let x_ts := default 0%Z (latest_timestamp_ms x) in let y_ts := default 0%Z (latest_timestamp_ms y) in
      if (x_ts =? y_ts)%Z then by_root else (y_ts <=? x_ts)%Z
  | Order_RootChronology =>
      let x_ts := default 0%Z (root_timestamp_ms x) in let y_ts := default 0%Z (root_timestamp_ms y) in
      if (x_ts =? y_ts)%Z then by_root else (x_ts <=? y_ts)%Z
  end.
Definition sort_threads_list_items (items : list ThreadsListItem) (order : ThreadListOrder) :
    list ThreadsListItem := sort_by (threads_leb order) items.

Definition item_key (i : ThreadsListItem) : ThreadKey := (item_room_id i, item_root_event_id i).

Definition apply_thread_unread (state : Panes) (items : list ThreadsListItem) : list ThreadsListItem :=
  (fun i => i <| unread_count := default 0%Z (unread <$> thread_unread state !! item_key i) |>) <$> items.

(** [state.thread_unread.iter()] *)
Definition unread_iter (m : gmap ThreadKey ThreadRootAttention) :
    list (ThreadKey * ThreadRootAttention) :=
  sort_by (fun x y => thread_key_leb x.1 y.1) (map_to_list m).

Definition in_scope (state : Panes) (scope : ThreadsListScope) (id : string) : bool :=
  match scope with
  | Scope_Room target => String.eqb target id
  | Scope_Home => true
  | Scope_Space space =>
      existsb (fun s => String.eqb (space_id s) space && bool_decide (id ∈ child_room_ids s)) (spaces state)
  end.

(** A row for a root whose metadata the service has not delivered. *)
Definition placeholder_item (t : ThreadKey) (attention : ThreadRootAttention) : ThreadsListItem :=
  {| item_room_id := t.1; item_root_event_id := t.2; root_sender := ""; root_sender_label := None;
     root_body_preview := None; root_timestamp_ms := None; latest_event_id := None;
     latest_sender := None; latest_sender_label := None; latest_body_preview := None;
     latest_timestamp_ms := None; reply_count := 0; unread_count := unread attention |}.

Definition append_observed_unread_roots (state : Panes) (key : string) (items : list ThreadsListItem) :
    list ThreadsListItem :=
  let scope := from_scope_key key in
  let missing := filter (fun kv : ThreadKey * ThreadRootAttention =>
    (0 < unread kv.2)%Z /\ room_exists state kv.1.1 = true /\ in_scope state scope kv.1.1 = true
    /\ (kv.1 ∉ item_key <$> items)) (unread_iter (thread_unread state)) in
  ((fun kv => placeholder_item kv.1 kv.2) <$> missing) ++ items.

(** What the three deliveries of items do. *)
Definition deliver_items (state : Panes) (request_id : Z) (key : string) (items : list ThreadsListItem)
    (paginating end_reached : bool) : Reduced :=
  if negb (is_session_ready state) then unchanged state
  else if negb (bool_decide (threads_list_request_id (threads_list state) = Some request_id))
  then unchanged state
  else
    let items := sort_threads_list_items items (thread_list_order state) in
    let items := append_observed_unread_roots state key (apply_thread_unread state items) in
    (state <| threads_list := ThreadsList_Open key request_id items paginating end_reached |>,
     [EmitUiEvent ThreadsListChanged]).
Definition handle_threads_list_opened (state : Panes) (request_id : Z) (key : string)
    (items : list ThreadsListItem) (end_reached : bool) : Reduced :=
  deliver_items state request_id key items false end_reached.
Definition handle_threads_list_updated (state : Panes) (request_id : Z) (key : string)
    (items : list ThreadsListItem) (paginating end_reached : bool) : Reduced :=
  deliver_items state request_id key items paginating end_reached.
Definition handle_threads_list_pagination_completed (state : Panes) (request_id : Z) (key : string)
    (items : list ThreadsListItem) (end_reached : bool) : Reduced :=
  deliver_items state request_id key items false end_reached.

Definition handle_threads_list_failed (state : Panes) (request_id : Z) (key : string)
    (failure : OperationFailureKind) : Reduced :=
  if negb (is_session_ready state) then unchanged state
  else if negb (bool_decide (threads_list_request_id (threads_list state) = Some request_id))
  then unchanged state
  else
    let items := match threads_list state with ThreadsList_Open _ _ items _ _ => items | _ => [] end in
    let items := append_observed_unread_roots state key (apply_thread_unread state items) in
    (state <| threads_list := ThreadsList_Failed key request_id failure items |>,
     [EmitUiEvent ThreadsListChanged]).

Definition handle_paginate_threads_list (state : Panes) (request_id : Z) (key : string) : Reduced :=
  if negb (is_session_ready state) then unchanged state
  else match threads_list state with
  | ThreadsList_Open open_key open_request_id items paginating end_reached =>
      if String.eqb open_key key && (open_request_id <? request_id)%Z && negb paginating
         && negb end_reached
      then (state <| threads_list := ThreadsList_Open open_key request_id items true end_reached |>,
            [PaginateThreadsList request_id key; EmitUiEvent ThreadsListChanged])
      else unchanged state
  | _ => unchanged state
  end.
Definition handle_close_threads_list (state : Panes) : Reduced :=
  if threads_list_is_closed (threads_list state) then unchanged state
  else (state <| threads_list := ThreadsList_Closed |>,
        [UnsubscribeThreadsList; EmitUiEvent ThreadsListChanged]).

(** * Room badges *)

(** The sums over the roots of a room; [u64] sums of [u32] values of a bounded map. *)
Definition room_thread_totals (m : gmap ThreadKey ThreadRootAttention) (id : string) : Z * Z :=
  foldl (fun '(u, h) kv => if String.eqb kv.1.1 id
                           then (u + unread kv.2, h + highlight kv.2)%Z else (u, h))
    (0, 0)%Z (unread_iter m).
Definition with_totals (totals : Z * Z) (r : PaneRoom) : PaneRoom :=
  r <| thread_unread_count := totals.1 |> <| thread_highlight_count := totals.2 |>.
Definition refresh_room_thread_badge_totals (state : Panes) (id : string) : Panes :=
  state <| rooms ::= update_first (fun r => String.eqb (room_id r) id)
                       (with_totals (room_thread_totals (thread_unread state) id)) |>.
Definition apply_thread_badge_totals (m : gmap ThreadKey ThreadRootAttention) (l : list PaneRoom) :
    list PaneRoom := (fun r => with_totals (room_thread_totals m (room_id r)) r) <$> l.
