(* ===== verification/PaneActions.v ===== *)
(** The dispatch of the conversation actions ([crates/koushi-state/src/action.rs], the arms of
    [reduce_action] in [reducer/mod.rs]) and the steps of a run of the panes: an action
    followed by the marker pass of [reduce], or one of the functions by which the room-list,
    navigation and session reducers replace the room, clear it, or retire the session. *)

From stdpp Require Import base list strings gmap.
From Stdlib Require Import ZArith Lia.
From S2P Require Import Prelude Text AppState ComposerDocument DraftStore Staging Panes Conversation TimelinePane ThreadPane.
Local Open Scope string_scope.
Local Open Scope list_scope.
Local Set Warnings "-clear-no-such-hyp".

Inductive PaneAction :=
  | ComposerDraftsLoaded (drafts : ComposerDraftStore)
  | ComposerDraftChanged (room_id : string) (document : Document)
  | ComposerDraftChangedAtRevision (room_id : string) (document : Document)
      (revision : ComposerDraftRevision)
  | ComposerDraftSeeded (room_id : string) (document : Document)
  | AssistantDraftStaged (target : ComposerTarget) (document : Document) (client_name : string)
  | AssistantDraftMarkerDismissed (target : ComposerTarget)
  | ComposerDraftAccepted (target : ComposerTarget) (submitted_revision : ComposerDraftRevision)
      (consumes_draft : bool)
  | SendTextSubmitted (room_id transaction_id body : string)
  | SendTextSubmittedAtRevision (room_id transaction_id body : string)
      (draft_revision : ComposerDraftRevision)
  | SendTextFinished (room_id transaction_id : string)
  | SendTextFailed (room_id transaction_id message : string)
  | ComposerSubmissionAccepted (submission_id : SubmissionId) (room_id transaction_id body : string)
  | ComposerSubmissionAcceptedAtRevision (submission_id : SubmissionId)
      (room_id transaction_id body : string) (draft_revision : ComposerDraftRevision)
  | ComposerSubmissionFinished (submission_id : SubmissionId) (room_id transaction_id : string)
  | ComposerSubmissionQueued (submission_id : SubmissionId) (transaction_id : string)
      (target : ComposerTarget) (draft_revision : ComposerDraftRevision)
  | ComposerSubmissionSettled (submission_id : SubmissionId) (transaction_id : string)
      (target : ComposerTarget) (outcome : ComposerSubmissionTerminalOutcome)
  | ComposerReplyTargetSelected (room_id event_id : string)
  | ComposerReplyCancelled
  | ThreadComposerReplyTargetSelected (room_id root_event_id event_id : string)
  | ThreadComposerReplyCancelled (room_id root_event_id : string)
  | ThreadComposerDraftChanged (room_id root_event_id : string) (document : Document)
  | ThreadComposerDraftChangedAtRevision (room_id root_event_id : string) (document : Document)
      (revision : ComposerDraftRevision)
  | ThreadReplySubmitted (room_id root_event_id transaction_id : string)
  | ThreadReplySubmittedAtRevision (room_id root_event_id transaction_id : string)
      (draft_revision : ComposerDraftRevision)
  | ThreadReplyFinished (room_id root_event_id transaction_id : string)
  | ThreadReplyFailed (room_id root_event_id transaction_id message : string)
  | ThreadSubmissionAccepted (submission_id : SubmissionId)
      (room_id root_event_id transaction_id : string)
  | ThreadSubmissionAcceptedAtRevision (submission_id : SubmissionId)
      (room_id root_event_id transaction_id : string) (draft_revision : ComposerDraftRevision)
  | Action_OpenThread (room_id root_event_id : string) (intent : ThreadOpenIntent)
  | ThreadSubscribed (room_id root_event_id : string)
  | ThreadSubscriptionFailed (room_id root_event_id : string) (failure_kind : OperationFailureKind)
  | ThreadActivityObserved (room_id root_event_id : string)
  | ThreadAttentionUpdated (room_id root_event_id : string)
      (notification_count highlight_count live_event_marker_count : Z)
  | CloseThread
  | OpenFocusedContext (room_id event_id : string)
  | FocusedContextSubscribed (room_id event_id : string)
  | FocusedContextSubscriptionFailed (room_id event_id : string)
  | CloseFocusedContext
  | OpenThreadsList (request_id : Z) (room_id : string)
  | ThreadsListOpened (request_id : Z) (room_id : string) (items : list ThreadsListItem)
      (end_reached : bool)
  | ThreadsListUpdated (request_id : Z) (room_id : string) (items : list ThreadsListItem)
      (is_paginating end_reached : bool)
  | ThreadsListPaginationCompleted (request_id : Z) (room_id : string)
      (items : list ThreadsListItem) (end_reached : bool)
  | ThreadsListFailed (request_id : Z) (room_id : string) (failure_kind : OperationFailureKind)
  | PaginateThreadsListRequested (request_id : Z) (room_id : string)
  | CloseThreadsList
  | TimelineSubscribed (room_id : string)
  | TimelineSubscriptionFailed (room_id : string)
  | TimelineContinuityInspectionStarted (room_id : string) (generation : Z)
  | TimelineContinuityInspected (room_id : string) (generation : Z)
      (inspection : TimelineContinuityInspection)
  | TimelineGapRepairStarted (room_id : string) (generation gap_count : Z)
  | TimelineGapRepairProgressed (room_id : string) (generation gap_count batches_processed : Z)
      (minimum_batch_id : option Z)
  | TimelineGapRepairFailed (room_id : string) (generation gap_count batches_processed : Z)
      (failure_kind : TimelineGapRepairFailureKind)
  | TimelineBackPaginationRequested (room_id : string)
  | TimelineBackPaginationFinished (room_id : string)
  | ScheduledSendCapabilityChanged (new_capability : ScheduledSendCapability)
  | ScheduledSendsLoaded (store : ScheduledSendStore)
  | ScheduledSendCreated (item : ScheduledSendItem)
  | ScheduledSendCreatedAtRevision (item : ScheduledSendItem) (draft_revision : ComposerDraftRevision)
  | ScheduledSendDispatchStarted (scheduled_id : string)
  | ScheduledSendDispatchFailed (scheduled_id : string) (retry_at_ms : Z)
  | ScheduledSendRescheduled (scheduled_id body : string) (send_at_ms : Z)
      (handle : ScheduledSendHandle)
  | ScheduledSendCancelled (scheduled_id : string)
  | ScheduledSendDispatched (scheduled_id : string)
  | ScheduledSendPersistenceFailed (message : string)
  | ScheduledSendPersisted
  | OpenScheduledSendsList (scope : ScheduledSendsScope)
  | CloseScheduledSendsList
  | UploadStagingChanged (target : ComposerTarget) (items : list StagedUploadItem)
  | UploadStagingCaptionChanged (target : ComposerTarget) (staged_id : string)
      (new_caption : option Document)
  | UploadStagingCompressionChanged (target : ComposerTarget) (staged_id : string)
      (choice : StagedUploadCompressionChoice)
  | UploadStagingOutputSelected (target : ComposerTarget) (staged_id : string)
      (selection : StagedUploadOutputSelection)
  | UploadStagingCleared (target : ComposerTarget)
  | MediaGalleryUpdated (room_id : string) (items : list TimelineMediaGalleryItem)
  | MediaDownloadUpdated (room_id event_id : string) (state : TimelineMediaDownloadState)
  | ReplyQuoteThumbnailUpdated (room_id quoted_event_id : string)
      (state : TimelineMediaDownloadState)
  | TimelineScrollAnchorUpdated (room_id : string) (anchor : TimelineScrollAnchor)
  | EnterAnchoredTimeline (room_id event_id : string)
  | ReturnMainTimelineToLive (room_id : string)
  | EventNavigationStarted (source : EventNavigationSource)
  | EventNavigationAnchored (generation : Z)
  | EventNavigationLiveFallback (generation : Z)
  | EventNavigationFailed (generation : Z) (failure : EventNavigationFailureKind)
  | EventNavigationCleared
  | EventNavigationFailureDismissed.

(** The revision an action without one stands for: the stored one, or its successor. *)
Definition next_room_revision (state : Panes) (id : string) :=
  checked_successor (room_revision (composer_drafts state) id) ZERO.
Definition next_thread_revision (state : Panes) (id root : string) :=
  checked_successor (thread_revision (composer_drafts state) id root) ZERO.

Definition reduce_pane_action (state : Panes) (action : PaneAction) : Reduced :=
  match action with
  | ComposerDraftsLoaded drafts => handle_composer_drafts_loaded state drafts
  | ComposerDraftChanged id doc =>
      match next_room_revision state id with
      | inl revision => handle_composer_draft_changed state id doc revision
      | inr _ => unchanged state
      end
  | ComposerDraftChangedAtRevision id doc revision => handle_composer_draft_changed state id doc revision
  | ComposerDraftSeeded id doc => handle_composer_draft_seeded state id doc
  | AssistantDraftStaged target doc client => handle_assistant_draft_staged state target doc client
  | AssistantDraftMarkerDismissed target => handle_assistant_draft_marker_dismissed state target
  | ComposerDraftAccepted target revision consumes =>
      handle_composer_draft_accepted state target revision consumes
  | SendTextSubmitted id tx text =>
      handle_send_text_submitted state id tx text (room_revision (composer_drafts state) id)
  | SendTextSubmittedAtRevision id tx text revision => handle_send_text_submitted state id tx text revision
  | SendTextFinished id tx => handle_send_text_finished state id tx
  | SendTextFailed id tx message => handle_send_text_failed state id tx message
  | ComposerSubmissionAccepted submission id tx text =>
      handle_composer_submission_accepted state submission id tx text
        (room_revision (composer_drafts state) id)
  | ComposerSubmissionAcceptedAtRevision submission id tx text revision =>
      handle_composer_submission_accepted state submission id tx text revision
  | ComposerSubmissionFinished submission id tx =>
      handle_composer_submission_finished state submission id tx
  | ComposerSubmissionQueued submission tx target revision =>
      handle_queued state submission tx target revision
  | ComposerSubmissionSettled submission tx target outcome =>
      handle_settled state submission tx target outcome
  | ComposerReplyTargetSelected id event => handle_composer_reply_target_selected state id event
  | ComposerReplyCancelled => handle_composer_reply_cancelled state
  | ThreadComposerReplyTargetSelected id root event =>
      handle_thread_composer_reply_target_selected state id root event
  | ThreadComposerReplyCancelled id root => handle_thread_composer_reply_cancelled state id root
  | ThreadComposerDraftChanged id root doc =>
      match next_thread_revision state id root with
      | inl revision => handle_thread_composer_draft_changed state id root doc revision
      | inr _ => unchanged state
      end
  | ThreadComposerDraftChangedAtRevision id root doc revision =>
      handle_thread_composer_draft_changed state id root doc revision
  | ThreadReplySubmitted id root tx =>
      handle_thread_reply_submitted state id root tx (thread_revision (composer_drafts state) id root)
  | ThreadReplySubmittedAtRevision id root tx revision =>
      handle_thread_reply_submitted state id root tx revision
  | ThreadReplyFinished id root tx => handle_thread_reply_finished state id root tx
  | ThreadReplyFailed id root tx message => handle_thread_reply_failed state id root tx message
  | ThreadSubmissionAccepted submission id root tx =>
      handle_thread_submission_accepted state submission id root tx
        (thread_revision (composer_drafts state) id root)
  | ThreadSubmissionAcceptedAtRevision submission id root tx revision =>
      handle_thread_submission_accepted state submission id root tx revision
  | Action_OpenThread id root i => handle_open_thread state id root i
  | ThreadSubscribed id root => handle_thread_subscribed state id root
  | ThreadSubscriptionFailed id root failure => handle_thread_subscription_failed state id root failure
  | ThreadActivityObserved id root => handle_thread_activity_observed state id root
  | ThreadAttentionUpdated id root n h l => handle_thread_attention_updated state id root n h l
  | CloseThread => handle_close_thread state
  | OpenFocusedContext id event => handle_open_focused_context state id event
  | FocusedContextSubscribed id event => handle_focused_context_subscribed state id event
  | FocusedContextSubscriptionFailed id event => handle_focused_context_subscription_failed state id event
  | CloseFocusedContext => handle_close_focused_context state
  | OpenThreadsList request key => handle_open_threads_list state request key
  | ThreadsListOpened request key items end_reached =>
      handle_threads_list_opened state request key items end_reached
  | ThreadsListUpdated request key items paginating end_reached =>
      handle_threads_list_updated state request key items paginating end_reached
  | ThreadsListPaginationCompleted request key items end_reached =>
      handle_threads_list_pagination_completed state request key items end_reached
  | ThreadsListFailed request key failure => handle_threads_list_failed state request key failure
  | PaginateThreadsListRequested request key => handle_paginate_threads_list state request key
  | CloseThreadsList => handle_close_threads_list state
  | TimelineSubscribed id => handle_timeline_subscribed state id
  | TimelineSubscriptionFailed id => handle_timeline_subscription_failed state id
  | TimelineContinuityInspectionStarted id g => handle_timeline_continuity_inspection_started state id g
  | TimelineContinuityInspected id g inspection => handle_timeline_continuity_inspected state id g inspection
  | TimelineGapRepairStarted id g gaps => handle_timeline_gap_repair_started state id g gaps
  | TimelineGapRepairProgressed id g gaps batches minimum =>
      handle_timeline_gap_repair_progressed state id g gaps batches minimum
  | TimelineGapRepairFailed id g gaps batches failure =>
      handle_timeline_gap_repair_failed state id g gaps batches failure
  | TimelineBackPaginationRequested id => handle_timeline_back_pagination_requested state id
  | TimelineBackPaginationFinished id => handle_timeline_back_pagination_finished state id
  | ScheduledSendCapabilityChanged c => handle_scheduled_send_capability_changed state c
  | ScheduledSendsLoaded store => handle_scheduled_sends_loaded state store
  | ScheduledSendCreated item => handle_scheduled_send_created state item
  | ScheduledSendCreatedAtRevision item revision =>
      handle_scheduled_send_created_at_revision state item revision
  | ScheduledSendDispatchStarted id => handle_scheduled_send_dispatch_started state id
  | ScheduledSendDispatchFailed id at_ms => handle_scheduled_send_dispatch_failed state id at_ms
  | ScheduledSendRescheduled id text at_ms h => handle_scheduled_send_rescheduled state id text at_ms h
  | ScheduledSendCancelled id | ScheduledSendDispatched id =>
      handle_scheduled_send_cancelled_or_dispatched state id
  | ScheduledSendPersistenceFailed message => handle_scheduled_send_persistence_failed state message
  | ScheduledSendPersisted => handle_scheduled_send_persisted state
  | OpenScheduledSendsList scope => handle_open_scheduled_sends_list state scope
  | CloseScheduledSendsList => handle_close_scheduled_sends_list state
  | UploadStagingChanged target items => handle_upload_staging_changed state target items
  | UploadStagingCaptionChanged target id c => handle_upload_staging_caption_changed state target id c
  | UploadStagingCompressionChanged target id c =>
      handle_upload_staging_compression_changed state target id c
  | UploadStagingOutputSelected target id sel => handle_upload_staging_output_selected state target id sel
  | UploadStagingCleared target => handle_upload_staging_cleared state target
  | MediaGalleryUpdated id items => handle_media_gallery_updated state id items
  | MediaDownloadUpdated id event download => handle_media_download_updated state id event download
  | ReplyQuoteThumbnailUpdated id event download =>
      handle_reply_quote_thumbnail_updated state id event download
  | TimelineScrollAnchorUpdated id anchor => handle_timeline_scroll_anchor_updated state id anchor
  | EnterAnchoredTimeline id event => handle_enter_anchored_timeline state id event
  | ReturnMainTimelineToLive id => handle_return_main_timeline_to_live state id
  | EventNavigationStarted source => handle_event_navigation_started state source
  | EventNavigationAnchored g => handle_event_navigation_anchored state g
  | EventNavigationLiveFallback g => handle_event_navigation_live_fallback state g
  | EventNavigationFailed g failure => handle_event_navigation_failed state g failure
  | EventNavigationCleared => handle_event_navigation_cleared state
  | EventNavigationFailureDismissed => handle_event_navigation_failure_dismissed state
  end.

(** [reduce]: the action, then the marker pass. *)
Definition reduce_panes (state : Panes) (action : PaneAction) : Reduced :=
  let '(state, effects) := reduce_pane_action state action in
  (sync_assistant_draft_markers state, effects).

(** One step of a run.  Those after the action are what other reducers do to these panes: select a
    room, after a room-list update or by navigation, clear the active room, lock or gate the
    session with its views cleared, and begin a session.  An authentication failure of the sync
    ([reducer/sync.rs]) and an unsupported revalidation ([reducer/sliding_sync.rs]) leave the ready
    session without clearing its views; signing out or switching the account clears them with the
    registry; and the other moves between sessions that are not ready touch nothing else. *)
Inductive PaneStep :=
  | Step_Action (action : PaneAction)
  | Step_Select (room_id : string)
  | Step_ListSelect (room_id : string)
  | Step_Clear (previous_room_id : string)
  | Step_Lock
  | Step_Gate (phase : ProvisionalPhase)
  | Step_Ready (info : SessionInfo) (room_list : list PaneRoom)
  | Step_SyncAuthFailed
  | Step_CapabilityBlocked (info : SessionInfo)
  | Step_Retire (next : SessionState)
  | Step_Session (next : SessionState).
(** What the authentication failure of a sync that is not stopped does to these panes
    ([handle_sync_failed]; its events are those of the session). *)
Definition sync_auth_failed (state : Panes) : Panes :=
  match session state with
  | Session_Ready info =>
      let error := {| error_code := "sync_auth_required"; error_message := "sign-in required";
                      recoverable := true; error_reason := None |} in
      (withdraw_scheduled_send_persistence_failure
         (state <| session := Session_Locked info |> <| errors ::= fun l => l ++ [error] |>)).1
  | _ => state
  end.
(** What a revalidation that finds the homeserver unsupported does to them
    ([handle_revalidation_completed]). *)
Definition capability_blocked (state : Panes) (info : SessionInfo) : Panes :=
  match session state with
  | Session_Ready active | Session_Locked active =>
      if bool_decide (info = active)
      then (withdraw_scheduled_send_persistence_failure
              (state <| session :=
                         Session_CapabilityBlocked info CapFailure_Unsupported |>)).1
      else state
  | _ => state
  end.
Definition pane_step (state : Panes) (step : PaneStep) : Reduced :=
  match step with
  | Step_Action action => reduce_panes state action
  | Step_Select id => select_active_room_for_navigation state id
  | Step_ListSelect id => select_active_room_after_room_list_update state id
  | Step_Clear previous => clear_active_room_for_navigation state previous
  | Step_Lock => (retire_ready_session state Session_Locked, [])
  | Step_Gate phase => (retire_ready_session state (fun info => Session_Provisional info phase), [])
  | Step_Ready info room_list => (state <| session := Session_Ready info |> <| rooms := room_list |>, [])
  | Step_SyncAuthFailed => (sync_auth_failed state, [])
  | Step_CapabilityBlocked info => (capability_blocked state info, [])
  | Step_Retire next => (retire_panes (state <| session := next |>), [])
  | Step_Session next =>
      match next with
      | Session_Ready _ => unchanged state
      | _ => (state <| session := next |>, [])
      end
  end.

Definition Panes_default : Panes :=
  {| session := Session_SignedOut; spaces := []; rooms := []; navigation := NavigationState_default;
     timeline := TimelinePaneState_default; thread := Thread_Closed;
     thread_attention := Attention_Closed; threads_list := ThreadsList_Closed;
     thread_list_order := Order_LatestReply; thread_unread := ∅; focused_context := Focused_Closed;
     composer_drafts := ComposerDraftStore_default; scheduled_sends := ScheduledSendStore_default;
     scheduled_sends_list := List_Closed; upload_staging := UploadStagingStore_default;
     media_gallery := MediaGalleryStore_default; errors := [] |}.
