(* ===== verification/DraftLeases.v ===== *)
(** Leases and permits of composer drafts
    ([crates/koushi-core/src/composer_draft_lifecycle.rs]) and the draft methods of the core
    actor ([crates/koushi-core/src/runtime/composer.rs]): which targets are in use, when a
    store is reconciled, and when drafts are loaded and saved.

    The registry is one mutex-guarded record.  A permit is a reference-counted guard: the
    guards are kept in a store and a permit is an address in it, so cloning a permit shares
    its guard and dropping the last reference releases it.  The [watch] channel is the number
    of notifications sent so far. *)

From stdpp Require Import base list strings gmap.
From Stdlib Require Import ZArith Lia.
From S2P Require Import Prelude Text AppState Markdown ComposerDocument DraftStore DraftPersistence Staging Panes.
Local Open Scope string_scope.
Local Open Scope list_scope.
Local Set Warnings "-clear-no-such-hyp".

(** * Identities *)

Record SessionKeyId := { key_homeserver : string; key_user_id : string; key_device_id : string }.
#[export] Instance SessionKeyId_eq : EqDecision SessionKeyId.
Proof. solve_decision. Defined.
#[export] Instance SessionKeyId_countable : Countable SessionKeyId.
Proof.
  refine (inj_countable'
    (fun k => (key_homeserver k, key_user_id k, key_device_id k))
    (fun '(h, u, d) => {| key_homeserver := h; key_user_id := u; key_device_id := d |}) _).
  by intros [].
Defined.

Record ComposerDraftScope := { scope_account : SessionKeyId; scope_target : ComposerTarget }.
#[export] Instance ComposerDraftScope_eq : EqDecision ComposerDraftScope.
Proof. solve_decision. Defined.
#[export] Instance ComposerDraftScope_countable : Countable ComposerDraftScope.
Proof.
  refine (inj_countable' (fun s => (scope_account s, scope_target s))
    (fun '(a, t) => {| scope_account := a; scope_target := t |}) _).
  by intros [].
Defined.

Definition ComposerRendererGeneration : Type := Z.
Definition ComposerDraftLeaseId : Type := Z.

Inductive ComposerDraftWireError := Wire_Invalid | Wire_NonCanonical | Wire_Zero | Wire_Overflow.
Definition parse_wire_value (wire : string) : Z + ComposerDraftWireError :=
  if is_empty wire || negb (all_str is_ascii_digit wire) then inr Wire_Invalid
  else if (1 <? String.length wire)%nat && starts_with wire "0" then inr Wire_NonCanonical
  else
    let value := digits_value 0 wire in
    if (U64_MAX <? value)%Z then inr Wire_Overflow
    else if (value =? 0)%Z then inr Wire_Zero else inl value.
Definition lease_wire_string (id : Z) : string := display id.

Inductive ComposerDraftLeaseFailure :=
  | CounterExhausted | RendererGenerationRetired | LeaseMismatch.

(** * The registry *)

Inductive ComposerDraftPermitKind := Permit_Command | Permit_Persistence.
#[export] Instance PermitKind_eq : EqDecision ComposerDraftPermitKind.
Proof. solve_decision. Defined.

(** [ComposerDraftPermitGuard] with the count of its references. *)
Record PermitGuard := {
  guard_scope : ComposerDraftScope; guard_kind : ComposerDraftPermitKind; references : nat }.

Record LeaseRecord := { lease_generation : ComposerRendererGeneration; lease_scope : ComposerDraftScope }.
Abbreviation Permits := (gmap ComposerDraftScope Z).

(** [ComposerDraftLeaseRegistryState], the guards that exist and the notifications sent. *)
Record LeaseRegistry := {
  next_generation : Z;
  next_lease_id : Z;
  live_generation : option ComposerRendererGeneration;
  lease_records : gmap ComposerDraftLeaseId LeaseRecord;
  command_permits : Permits;
  persistence_permits : Permits;
  guards : gmap nat PermitGuard;
  changes : nat }.
#[export] Instance LeaseRegistry_updatable : Updatable LeaseRegistry := fun r =>
  {| next_generation := next_generation r; next_lease_id := next_lease_id r;
     live_generation := live_generation r; lease_records := lease_records r;
     command_permits := command_permits r; persistence_permits := persistence_permits r;
     guards := guards r; changes := changes r |}.
Definition LeaseRegistry_new : LeaseRegistry :=
  {| next_generation := 0; next_lease_id := 0; live_generation := None; lease_records := ∅;
     command_permits := ∅; persistence_permits := ∅; guards := ∅; changes := 0 |}.

Definition notify (r : LeaseRegistry) : LeaseRegistry := r <| changes ::= S |>.

(** [usize] *)
Definition USIZE_MAX : Z := U64_MAX.
Definition increment_permit (permits : Permits) (scope : ComposerDraftScope) :
    Permits + ComposerDraftLeaseFailure :=
  let count := default 0%Z (permits !! scope) in
  if (count <? USIZE_MAX)%Z then inl (<[scope := (count + 1)%Z]> permits)
  else inr CounterExhausted.
Definition decrement_permit (permits : Permits) (scope : ComposerDraftScope) : Permits :=
  match permits !! scope with
  | Some count =>
      let count := Z.max 0 (count - 1) in
      if (count =? 0)%Z then delete scope permits else <[scope := count]> permits
  | None => permits
  end.

Definition permits_of (k : ComposerDraftPermitKind) (r : LeaseRegistry) : Permits :=
  match k with Permit_Command => command_permits r | Permit_Persistence => persistence_permits r end.
Definition put_permits (k : ComposerDraftPermitKind) (p : Permits) (r : LeaseRegistry) : LeaseRegistry :=
  match k with
  | Permit_Command => r <| command_permits := p |>
  | Permit_Persistence => r <| persistence_permits := p |>
  end.
(** [Arc::new] of a guard *)
Definition new_guard (k : ComposerDraftPermitKind) (scope : ComposerDraftScope) (r : LeaseRegistry) :
    LeaseRegistry * nat :=
  let id := fresh (dom (guards r)) in
  (r <| guards ::= <[id := {| guard_scope := scope; guard_kind := k; references := 1 |}]> |>, id).

Definition begin_renderer_generation (r : LeaseRegistry) :
    LeaseRegistry * (ComposerRendererGeneration + ComposerDraftLeaseFailure) :=
  match u64_checked_add (next_generation r) 1 with
  | None => (r, inr CounterExhausted)
  | Some next =>
      (notify (r <| next_generation := next |> <| live_generation := Some next |>
                 <| lease_records ::= filter (fun kv => lease_generation kv.2 = next) |>), inl next)
  end.

Definition acquire (r : LeaseRegistry) (generation : ComposerRendererGeneration)
    (scope : ComposerDraftScope) : LeaseRegistry * (ComposerDraftLeaseId + ComposerDraftLeaseFailure) :=
  if negb (bool_decide (live_generation r = Some generation)) then (r, inr RendererGenerationRetired)
  else
    match u64_checked_add (next_lease_id r) 1 with
    | None => (r, inr CounterExhausted)
    | Some next =>
        (notify (r <| next_lease_id := next |>
                   <| lease_records ::=
                        <[next := {| lease_generation := generation; lease_scope := scope |}]> |>),
         inl next)
    end.

Definition try_command_permit (r : LeaseRegistry) (generation : ComposerRendererGeneration)
    (id : ComposerDraftLeaseId) (scope : ComposerDraftScope) :
    LeaseRegistry * (nat + ComposerDraftLeaseFailure) :=
  if negb (bool_decide (live_generation r = Some generation)) then (r, inr RendererGenerationRetired)
  else
    match lease_records r !! id with
    | None => (r, inr LeaseMismatch)
    | Some lease =>
        if negb (lease_generation lease =? generation)%Z || negb (bool_decide (lease_scope lease = scope))
        then (r, inr LeaseMismatch)
        else
          match increment_permit (command_permits r) scope with
          | inr e => (r, inr e)
          | inl p =>
              let '(r, guard) := new_guard Permit_Command scope (notify (r <| command_permits := p |>)) in
              (r, inl guard)
          end
    end.

Definition release (r : LeaseRegistry) (generation : ComposerRendererGeneration)
    (id : ComposerDraftLeaseId) : LeaseRegistry * (unit + ComposerDraftLeaseFailure) :=
  match lease_records r !! id with
  | None => (r, inr LeaseMismatch)
  | Some lease =>
      if negb (lease_generation lease =? generation)%Z then (r, inr LeaseMismatch)
      else (notify (r <| lease_records ::= delete id |>), inl tt)
  end.

Definition retire_leases (generation : ComposerRendererGeneration) (r : LeaseRegistry) : LeaseRegistry :=
  r <| lease_records ::= filter (fun kv => lease_generation kv.2 <> generation) |>.
Definition revoke_generation (r : LeaseRegistry) (generation : ComposerRendererGeneration) :
    LeaseRegistry :=
  let r := if bool_decide (live_generation r = Some generation)
           then r <| live_generation := None |> else r in
  notify (retire_leases generation r).
Definition revoke_live_generation (r : LeaseRegistry) : LeaseRegistry :=
  match live_generation r with
  | None => r
  | Some generation => notify (retire_leases generation (r <| live_generation := None |>))
  end.

(** Increment every scope in order, or none of them. *)
Fixpoint increment_all (permits : Permits) (done scopes : list ComposerDraftScope) :
    Permits * option ComposerDraftLeaseFailure :=
  match scopes with
  | [] => (permits, None)
  | scope :: scopes =>
      match increment_permit permits scope with
      | inl permits => increment_all permits (done ++ [scope]) scopes
      | inr e => (foldl decrement_permit permits done, Some e)
      end
  end.
Fixpoint new_guards (k : ComposerDraftPermitKind) (scopes : list ComposerDraftScope) (r : LeaseRegistry) :
    LeaseRegistry * list nat :=
  match scopes with
  | [] => (r, [])
  | scope :: scopes =>
      let '(r, id) := new_guard k scope r in
      let '(r, ids) := new_guards k scopes r in (r, id :: ids)
  end.
Definition take_persistence_permits (r : LeaseRegistry) (account : SessionKeyId)
    (targets : list ComposerTarget) : LeaseRegistry * (list nat + ComposerDraftLeaseFailure) :=
  let scopes := (fun t => {| scope_account := account; scope_target := t |}) <$> targets in
  match increment_all (persistence_permits r) [] scopes with
  | (p, Some e) => (r <| persistence_permits := p |>, inr e)
  | (p, None) =>
      let '(r, ids) := new_guards Permit_Persistence scopes (notify (r <| persistence_permits := p |>)) in
      (r, inl ids)
  end.

(** [Drop for ComposerDraftPermitGuard] *)
Definition release_permit (r : LeaseRegistry) (scope : ComposerDraftScope) (k : ComposerDraftPermitKind) :
    LeaseRegistry :=
  if bool_decide (is_Some (permits_of k r !! scope))
  then notify (put_permits k (decrement_permit (permits_of k r) scope) r) else r.
Definition clone_permit (r : LeaseRegistry) (id : nat) : LeaseRegistry :=
  match guards r !! id with
  | Some g => r <| guards ::= <[id := {| guard_scope := guard_scope g; guard_kind := guard_kind g;
                                         references := S (references g) |}]> |>
  | None => r
  end.
Definition drop_permit (r : LeaseRegistry) (id : nat) : LeaseRegistry :=
  match guards r !! id with
  | Some g =>
      match references g with
      | S (S n) => r <| guards ::= <[id := {| guard_scope := guard_scope g; guard_kind := guard_kind g;
                                              references := S n |}]> |>
      | _ => release_permit (r <| guards ::= delete id |>) (guard_scope g) (guard_kind g)
      end
  | None => r
  end.

(** ** Which targets are in use *)

Definition lease_scopes (r : LeaseRegistry) : list ComposerDraftScope :=
  (fun kv => lease_scope kv.2) <$> map_to_list (lease_records r).
Definition targets_of (account : SessionKeyId) (scopes : list ComposerDraftScope) : gset ComposerTarget :=
  list_to_set (scope_target <$> filter (fun s => scope_account s = account) scopes).
Definition permit_keys (p : Permits) : list ComposerDraftScope := (map_to_list p).*1.

Definition protected_targets (r : LeaseRegistry) (account : SessionKeyId) : gset ComposerTarget :=
  targets_of account
    (lease_scopes r ++ permit_keys (command_permits r) ++ permit_keys (persistence_permits r)).
Definition has_command_permit (r : LeaseRegistry) (scope : ComposerDraftScope) : bool :=
  bool_decide (is_Some (command_permits r !! scope)).
Definition touch_protected_targets (r : LeaseRegistry) (account : SessionKeyId) : gset ComposerTarget :=
  targets_of account (lease_scopes r ++ permit_keys (command_permits r)).

(** The excluded permits of each scope, each guard counted once. *)
Fixpoint excluded_counts (r : LeaseRegistry) (seen : gset nat) (excluded : list nat) : Permits :=
  match excluded with
  | [] => ∅
  | id :: excluded =>
      match guards r !! id with
      | Some g =>
          match guard_kind g with
          | Permit_Persistence =>
              if bool_decide (id ∈ seen) then excluded_counts r seen excluded
              else
                let counts := excluded_counts r ({[id]} ∪ seen) excluded in
                <[guard_scope g := u64_saturating_add (default 0%Z (counts !! guard_scope g)) 1]> counts
          | Permit_Command => excluded_counts r seen excluded
          end
      | None => excluded_counts r seen excluded
      end
  end.
Definition persistence_held_targets_excluding (r : LeaseRegistry) (account : SessionKeyId)
    (excluded : list nat) : gset ComposerTarget :=
  let counts := excluded_counts r ∅ excluded in
  targets_of account
    (permit_keys (filter (fun kv => (default 0 (counts !! kv.1) < kv.2)%Z) (persistence_permits r))).
