(* ===== verification/LeaseProps.v ===== *)
(** Leases and permits of composer drafts ([DraftLeases.v]): in every run of the registry the
    permit counters are exactly the guards that exist, every lease belongs to the live
    generation, and what the registry answers is therefore exactly who still uses a target. *)

From stdpp Require Import base list strings gmap.
From Stdlib Require Import ZArith Lia.
From S2P Require Import Prelude Text Markdown ComposerDocument DraftStore DraftPersistence DraftLeases.
Local Open Scope string_scope.
Local Open Scope list_scope.
Local Set Warnings "-clear-no-such-hyp".

(** * Runs of the registry *)

(** A call of the registry, a clone of a permit, or the drop of one reference. *)
Inductive LeaseOp :=
  | Op_BeginGeneration
  | Op_Acquire (generation : ComposerRendererGeneration) (scope : ComposerDraftScope)
  | Op_CommandPermit (generation : ComposerRendererGeneration) (id : ComposerDraftLeaseId) (scope : ComposerDraftScope)
  | Op_Release (generation : ComposerRendererGeneration) (id : ComposerDraftLeaseId)
  | Op_RevokeGeneration (generation : ComposerRendererGeneration)
  | Op_RevokeLive
  | Op_PersistencePermits (account : SessionKeyId) (targets : list ComposerTarget)
  | Op_Clone (guard : nat)
  | Op_Drop (guard : nat).

Definition lease_step (r : LeaseRegistry) (op : LeaseOp) : LeaseRegistry :=
  match op with
  | Op_BeginGeneration => (begin_renderer_generation r).1
  | Op_Acquire g s => (acquire r g s).1
  | Op_CommandPermit g id s => (try_command_permit r g id s).1
  | Op_Release g id => (release r g id).1
  | Op_RevokeGeneration g => revoke_generation r g
  | Op_RevokeLive => revoke_live_generation r
  | Op_PersistencePermits a ts => (take_persistence_permits r a ts).1
  | Op_Clone id => clone_permit r id
  | Op_Drop id => drop_permit r id
  end.
Definition lease_run (r : LeaseRegistry) (ops : list LeaseOp) : LeaseRegistry := foldl lease_step r ops.

(** * Counters and what they count *)

Definition guards_of (k : ComposerDraftPermitKind) (s : ComposerDraftScope) (m : gmap nat PermitGuard) :
    gmap nat PermitGuard :=
  filter (fun kv => guard_scope kv.2 = s /\ guard_kind kv.2 = k) m.
Definition guard_count (k : ComposerDraftPermitKind) (r : LeaseRegistry) (s : ComposerDraftScope) : nat :=
  size (guards_of k s (guards r)).
(** A counter is absent for none, and otherwise the number. *)
Definition tally (n : nat) : option Z := if decide (n = 0)%nat then None else Some (Z.of_nat n).
Definition tallies (p : Permits) (f : ComposerDraftScope -> nat) : Prop :=
  forall s, p !! s = tally (f s) /\ (Z.of_nat (f s) <= USIZE_MAX)%Z.
Definition occurrences (s : ComposerDraftScope) (l : list ComposerDraftScope) : nat :=
  length (filter (fun x => x = s) l).

Record registry_wf (r : LeaseRegistry) : Prop := {
  wf_permits : forall k, tallies (permits_of k r) (guard_count k r);
  wf_leases : forall id l, lease_records r !! id = Some l ->
    live_generation r = Some (lease_generation l) /\ (0 < id <= next_lease_id r)%Z;
  wf_live : forall g, live_generation r = Some g -> g = next_generation r /\ (0 < g)%Z;
  wf_next : (0 <= next_generation r <= U64_MAX)%Z /\ (0 <= next_lease_id r <= U64_MAX)%Z }.

Lemma tally_default n : default 0%Z (tally n) = Z.of_nat n.
Proof. unfold tally; case_decide; [by subst|done]. Qed.
Lemma tally_some n : is_Some (tally n) <-> n <> 0%nat.
Proof. unfold tally; case_decide; split; [by intros []|done|done|by eexists]. Qed.
Lemma tallies_ext p f g : (forall s, f s = g s) -> tallies p f -> tallies p g.
Proof. intros E H s; rewrite <- E; apply H. Qed.
Lemma tallies_unique p q f : tallies p f -> tallies q f -> p = q.
Proof. intros H1 H2; apply map_eq; intros s; exact (eq_trans (proj1 (H1 s)) (eq_sym (proj1 (H2 s)))). Qed.

Lemma occurrences_cons s x l :
  occurrences s (x :: l) = ((if decide (x = s) then 1 else 0) + occurrences s l)%nat.
Proof. unfold occurrences; rewrite filter_cons; by case_decide. Qed.
Lemma occurrences_nil s : occurrences s [] = 0%nat.
Proof. done. Qed.
Lemma occurrences_snoc s x l :
  occurrences s (l ++ [x]) = (occurrences s l + if decide (x = s) then 1 else 0)%nat.
Proof.
  unfold occurrences; rewrite filter_app, length_app, filter_cons, filter_nil; by case_decide.
Qed.

Lemma increment_tallies p f s p' : tallies p f -> increment_permit p s = inl p' ->
  tallies p' (fun x => f x + if decide (s = x) then 1 else 0)%nat.
Proof.
  intros H; unfold increment_permit; rewrite (proj1 (H s)), tally_default.
  destruct (_ <? _)%Z eqn:E; [|done]; intros [= <-] x; apply Z.ltb_lt in E.
  destruct (H x) as [Hx Hb]; rewrite lookup_insert; case_decide; subst.
  - split; [|lia]; unfold tally; rewrite decide_False by lia; f_equal; lia.
  - by rewrite Nat.add_0_r.
Qed.
Lemma decrement_tallies p f g s : tallies p f ->
  (forall x, f x = g x + if decide (s = x) then 1 else 0)%nat -> tallies (decrement_permit p s) g.
Proof.
  intros H E x; unfold decrement_permit; rewrite (proj1 (H s)); destruct (H x) as [Hx Hb].
  pose proof (E s) as Es; rewrite decide_True in Es by done; pose proof (E x) as Ex.
  unfold tally at 1; rewrite decide_False by lia; cbv zeta.
  destruct (_ =? 0)%Z eqn:Z0; [apply Z.eqb_eq in Z0|apply Z.eqb_neq in Z0].
  - rewrite lookup_delete; case_decide; subst.
    + split; [unfold tally; by rewrite decide_True by lia|lia].
    + split; [rewrite Hx; f_equal; lia|lia].
  - rewrite lookup_insert; case_decide; subst.
    + split; [unfold tally; rewrite decide_False by lia; f_equal; lia|lia].
    + split; [rewrite Hx; f_equal; lia|lia].
Qed.

Lemma undo_tallies done p f : tallies p (fun x => f x + occurrences x done)%nat ->
  tallies (foldl decrement_permit p done) f.
Proof.
  revert p; induction done as [|s done IH]; intros p H.
  - by apply (tallies_ext _ _ _ (fun x => Nat.add_0_r (f x))).
  - cbn [foldl]; apply IH; eapply decrement_tallies; [exact H|].
    intros x; cbv beta; rewrite occurrences_cons; lia.
Qed.
Lemma increment_all_tallies scopes : forall p done f p' e,
  tallies p (fun x => f x + occurrences x done)%nat -> increment_all p done scopes = (p', e) ->
  match e with
  | None => tallies p' (fun x => f x + occurrences x done + occurrences x scopes)%nat
  | Some _ => tallies p' f
  end.
Proof.
  induction scopes as [|s scopes IH]; intros p done f p' e H; cbn [increment_all].
  - intros [= <- <-]; eapply tallies_ext; [|exact H]; intros x; cbv beta.
    rewrite (occurrences_nil x); lia.
  - destruct (increment_permit p s) as [q|] eqn:E.
    + intros R; apply (IH q (done ++ [s]) f p' e) in R.
      * destruct e; [done|]; eapply tallies_ext; [|exact R].
        intros x; cbv beta; rewrite occurrences_snoc, occurrences_cons; lia.
      * eapply tallies_ext; [|by eapply increment_tallies]; intros x; cbv beta.
        rewrite occurrences_snoc; lia.
    + intros [= <- <-]; by apply undo_tallies.
Qed.

(** ** Guards *)

Lemma guards_of_insert k s m id g : m !! id = None ->
  size (guards_of k s (<[id := g]> m))
  = (size (guards_of k s m) + if decide (guard_scope g = s /\ guard_kind g = k) then 1 else 0)%nat.
Proof.
  intros N; unfold guards_of; case_decide as D.
  - rewrite map_filter_insert_True by done; rewrite map_size_insert_None; [lia|].
    apply map_lookup_filter_None; by left.
  - rewrite map_filter_insert_False, delete_id by done; lia.
Qed.
Lemma guards_of_delete k s m id g : m !! id = Some g ->
  size (guards_of k s m)
  = (size (guards_of k s (delete id m))
     + if decide (guard_scope g = s /\ guard_kind g = k) then 1 else 0)%nat.
Proof.
  intros E; rewrite <- (insert_delete_id m id g E) at 1.
  by rewrite guards_of_insert by apply lookup_delete_eq.
Qed.
(** Changing the count of references of a guard. *)
Lemma guards_of_recount k s m id g n : m !! id = Some g ->
  size (guards_of k s (<[id := {| guard_scope := guard_scope g; guard_kind := guard_kind g;
                                  references := n |}]> m)) = size (guards_of k s m).
Proof.
  intros E; rewrite (guards_of_delete k s m id g E).
  by rewrite <- insert_delete_eq, guards_of_insert by apply lookup_delete_eq.
Qed.

Lemma fresh_guard (m : gmap nat PermitGuard) : m !! fresh (dom m) = None.
Proof. apply not_elem_of_dom, is_fresh. Qed.
Lemma new_guard_count k s r k' x : guard_count k' (new_guard k s r).1 x
  = (guard_count k' r x + if decide (s = x /\ k = k') then 1 else 0)%nat.
Proof. unfold guard_count, new_guard; cbn; apply guards_of_insert, fresh_guard. Qed.

(** Making guards changes nothing else. *)
Definition same_records (r r' : LeaseRegistry) : Prop :=
  next_generation r' = next_generation r /\ next_lease_id r' = next_lease_id r /\
  live_generation r' = live_generation r /\ lease_records r' = lease_records r /\
  (forall k, permits_of k r' = permits_of k r).
Lemma new_guards_spec k scopes : forall r r' ids, new_guards k scopes r = (r', ids) ->
  same_records r r' /\ changes r' = changes r /\
  forall k' x, guard_count k' r' x
             = (guard_count k' r x + if decide (k = k') then occurrences x scopes else 0)%nat.
Proof.
  induction scopes as [|s scopes IH]; intros r r' ids; cbn [new_guards].
  - intros [= <- <-]; split; [by repeat split|split; [done|]].
    intros k' x; rewrite occurrences_nil; case_decide; lia.
  - pose proof (new_guard_count k s r) as C.
    destruct (new_guard k s r) as [r1 id] eqn:E1; cbn [fst] in C.
    destruct (new_guards k scopes r1) as [r2 l] eqn:E2; intros [= <- <-].
    destruct (IH _ _ _ E2) as ((A1 & A2 & A3 & A4 & A5) & B & D).
    injection E1 as E1 _; subst r1; split; [|split].
    + split; [exact A1|split; [exact A2|split; [exact A3|split; [exact A4|]]]].
      intros k'; rewrite A5; by destruct k'.
    + exact B.
    + intros k' x; rewrite D, C, occurrences_cons.
      destruct (decide (k = k')), (decide (s = x)); subst;
        repeat (rewrite decide_True by done) || rewrite decide_False by naive_solver; lia.
Qed.

(** * Every operation keeps the registry well-formed *)

Lemma wf_same r r' : same_records r r' -> (forall k s, guard_count k r' s = guard_count k r s) ->
  registry_wf r -> registry_wf r'.
Proof.
  intros (A1 & A2 & A3 & A4 & A5) C [P L V N]; split.
  - intros k; rewrite A5; eapply tallies_ext; [|apply P]; intros s; by rewrite C.
  - rewrite A3, A4, A2; apply L.
  - rewrite A3, A1; apply V.
  - rewrite A1, A2; apply N.
Qed.

Lemma wf_begin_generation r : registry_wf r -> registry_wf (lease_step r Op_BeginGeneration).
Proof.
  intros H; cbn; unfold begin_renderer_generation, u64_checked_add.
  case_decide as E; cbn; [|done]; destruct H as [P L V N].
  destruct N as [N1 N2]; split; cbn.
  - intros k; destruct k; [apply (P Permit_Command)|apply (P Permit_Persistence)].
  - intros id l [F G]%map_lookup_filter_Some; cbn in G; rewrite G; split; [done|].
    by apply (L id l).
  - intros g [= <-]; lia.
  - lia.
Qed.
Lemma wf_acquire g s r : registry_wf r -> registry_wf (lease_step r (Op_Acquire g s)).
Proof.
  intros H; cbn; unfold acquire; case_bool_decide as E; cbn; [|done].
  unfold u64_checked_add; case_decide as B; cbn; [|done].
  destruct H as [P L V [N1 N2]]; split; cbn.
  - intros k; destruct k; [apply (P Permit_Command)|apply (P Permit_Persistence)].
  - intros id l; rewrite lookup_insert; case_decide; subst.
    + intros [= <-]; cbn; split; [done|lia].
    + intros F; destruct (L id l F); split; [done|lia].
  - apply V.
  - lia.
Qed.
(** Retiring leases leaves a well-formed registry when what is left belongs to the live one. *)
Lemma wf_retire r r' : registry_wf r ->
  next_generation r' = next_generation r -> next_lease_id r' = next_lease_id r ->
  (forall k, permits_of k r' = permits_of k r) -> guards r' = guards r ->
  (forall id l, lease_records r' !! id = Some l ->
     lease_records r !! id = Some l /\ live_generation r' = live_generation r) ->
  (live_generation r' = live_generation r \/ live_generation r' = None) -> registry_wf r'.
Proof.
  intros [P L V N] A1 A2 A3 A4 A5 A6; split.
  - intros k; rewrite A3; eapply tallies_ext; [|apply P]; intros s; unfold guard_count; by rewrite A4.
  - intros id l F; destruct (A5 id l F) as [F' G]; rewrite G, A2; by apply L.
  - intros g F; rewrite A1; apply V; destruct A6 as [A6|A6]; congruence.
  - by rewrite A1, A2.
Qed.
Ltac by_retiring H := eapply wf_retire; [exact H|done|done|by intros []|done|cbn|cbn].
Lemma wf_release g id r : registry_wf r -> registry_wf (lease_step r (Op_Release g id)).
Proof.
  intros H; cbn; unfold release; destruct (lease_records r !! id) as [l|] eqn:E; [|exact H].
  destruct (_ =? _)%Z; cbn; [|exact H]; by_retiring H; [|by left].
  by intros i x [_ F]%lookup_delete_Some.
Qed.
Lemma wf_revoke g r : registry_wf r -> registry_wf (lease_step r (Op_RevokeGeneration g)).
Proof.
  intros H; cbn; unfold revoke_generation; case_bool_decide as E; by_retiring H;
    [|by right| |by left].
  - intros i x [F G]%map_lookup_filter_Some; cbn in G; exfalso; apply G.
    destruct (wf_leases r H i x F) as [L _]; congruence.
  - by intros i x [F _]%map_lookup_filter_Some.
Qed.
Lemma wf_revoke_live r : registry_wf r -> registry_wf (lease_step r Op_RevokeLive).
Proof.
  intros H; cbn; unfold revoke_live_generation; destruct (live_generation r) as [g|] eqn:E; [|exact H].
  by_retiring H; [|by right].
  intros i x [F G]%map_lookup_filter_Some; cbn in G; exfalso; apply G.
  destruct (wf_leases r H i x F) as [L _]; congruence.
Qed.
Lemma wf_command_permit g id s r : registry_wf r -> registry_wf (lease_step r (Op_CommandPermit g id s)).
Proof.
  intros H; cbn; unfold try_command_permit; case_bool_decide; cbn; [|exact H].
  destruct (lease_records r !! id) as [l|]; [|exact H]; destruct (_ || _); cbn; [exact H|].
  destruct (increment_permit _ _) as [p|] eqn:E; cbn; [|exact H].
  pose proof (increment_tallies _ _ _ _ (wf_permits r H Permit_Command) E) as T.
  destruct H as [P L V N]; split; cbn; [|apply L|apply V|apply N].
  intros [].
  - eapply tallies_ext; [|exact T]; intros x; cbv beta.
    unfold guard_count at 2; cbn; rewrite guards_of_insert by apply fresh_guard; cbn.
    unfold guard_count; cbn; f_equal; by do 2 case_decide; naive_solver.
  - eapply tallies_ext; [|apply (P Permit_Persistence)]; intros x.
    unfold guard_count at 2; cbn; rewrite guards_of_insert by apply fresh_guard; cbn.
    rewrite decide_False by naive_solver; unfold guard_count; cbn; lia.
Qed.
Lemma wf_persistence_permits a ts r : registry_wf r ->
  registry_wf (lease_step r (Op_PersistencePermits a ts)).
Proof.
  intros H; cbn; unfold take_persistence_permits.
  set (scopes := _ <$> ts); destruct (increment_all _ [] scopes) as [p e] eqn:E.
  apply (increment_all_tallies scopes _ [] (guard_count Permit_Persistence r)) in E.
  2: { eapply tallies_ext; [|apply (wf_permits r H Permit_Persistence)]; intros x.
       rewrite occurrences_nil; lia. }
  destruct e as [e|]; cbn.
  { destruct H as [P L V N]; split; cbn; [|apply L|apply V|apply N].
    intros []; [apply (P Permit_Command)|exact E]. }
  destruct (new_guards _ _ _) as [r' ids] eqn:G; cbn.
  destruct (new_guards_spec _ _ _ _ _ G) as ((A1 & A2 & A3 & A4 & A5) & _ & C).
  destruct H as [P L V N]; split.
  - intros k; rewrite A5; eapply tallies_ext; [intros s; symmetry; apply C|].
    destruct k; cbn.
    + eapply tallies_ext; [|apply (P Permit_Command)]; intros s; cbv beta.
      rewrite decide_False by done; unfold guard_count; cbn; lia.
    + eapply tallies_ext; [|exact E]; intros s; cbv beta.
      rewrite occurrences_nil, decide_True by done; unfold guard_count; cbn; lia.
  - rewrite A2, A3, A4; apply L.
  - rewrite A1, A3; apply V.
  - rewrite A1, A2; apply N.
Qed.
Lemma wf_clone id r : registry_wf r -> registry_wf (lease_step r (Op_Clone id)).
Proof.
  intros H; cbn; unfold clone_permit; destruct (guards r !! id) as [g|] eqn:E; [|exact H].
  apply (wf_same r); [by split; [|split; [|split; [|split]]]; try intros []| |done].
  intros k s; unfold guard_count; cbn; by apply guards_of_recount.
Qed.
Lemma wf_drop id r : registry_wf r -> registry_wf (lease_step r (Op_Drop id)).
Proof.
  intros H; cbn; unfold drop_permit; destruct (guards r !! id) as [g|] eqn:E; [|exact H].
  assert (D : registry_wf (release_permit (r <| guards ::= delete id |>) (guard_scope g) (guard_kind g))).
  { pose proof (fun k s => guards_of_delete k s (guards r) id g E) as C.
    assert (I : is_Some (permits_of (guard_kind g) r !! guard_scope g)).
    { rewrite (proj1 (wf_permits r H (guard_kind g) (guard_scope g))); apply tally_some.
      unfold guard_count; rewrite C, decide_True by done; lia. }
    unfold release_permit; replace (permits_of (guard_kind g) _) with (permits_of (guard_kind g) r)
      by by destruct (guard_kind g).
    rewrite (bool_decide_eq_true_2 _ I); destruct H as [P L V N].
    assert (X : forall k, permits_of k (notify (put_permits (guard_kind g)
                  (decrement_permit (permits_of (guard_kind g) r) (guard_scope g))
                  (r <| guards ::= delete id |>)))
                = if decide (k = guard_kind g) then decrement_permit (permits_of k r) (guard_scope g)
                  else permits_of k r).
    { intros k; destruct k, (guard_kind g); done. }
    split.
    - intros k; rewrite X; case_decide; subst.
      + eapply decrement_tallies; [apply P|]; intros x; unfold guard_count; rewrite C.
        destruct (guard_kind g); cbn; f_equal; do 2 case_decide; naive_solver.
      + eapply tallies_ext; [|apply P]; intros x; unfold guard_count; rewrite C.
        rewrite decide_False by naive_solver.
        destruct (guard_kind g); cbn; lia.
    - destruct (guard_kind g); apply L.
    - destruct (guard_kind g); apply V.
    - destruct (guard_kind g); apply N. }
  destruct (references g) as [|[|n]]; [exact D|exact D|].
  apply (wf_same r); [by split; [|split; [|split; [|split]]]; try intros []| |done].
  intros k s; unfold guard_count; cbn; by apply guards_of_recount.
Qed.

Lemma lease_step_wf r op : registry_wf r -> registry_wf (lease_step r op).
Proof.
  intros H; destruct op; [apply wf_begin_generation|apply wf_acquire|apply wf_command_permit|apply wf_release
    |apply wf_revoke|apply wf_revoke_live|apply wf_persistence_permits|apply wf_clone|apply wf_drop];
    exact H.
Qed.
Lemma registry_new_wf : registry_wf LeaseRegistry_new.
Proof.
  split; cbn; [|done|done|by unfold U64_MAX; lia].
  intros k s; destruct k; cbn; rewrite lookup_empty; unfold guard_count, guards_of, tally; cbn;
    rewrite map_filter_empty, map_size_empty, decide_True by done; split; [done|by unfold USIZE_MAX, U64_MAX; lia|done|by unfold USIZE_MAX, U64_MAX; lia].
Qed.
Lemma lease_run_wf ops : forall r, registry_wf r -> registry_wf (lease_run r ops).
Proof. induction ops as [|op ops IH]; intros r H; [done|]; apply IH, lease_step_wf, H. Qed.

(** * What the registry answers *)

Lemma elem_of_targets_of a l t : t ∈ targets_of a l <-> {| scope_account := a; scope_target := t |} ∈ l.
Proof.
  unfold targets_of; rewrite elem_of_list_to_set, list_elem_of_fmap; split.
  - intros (s & -> & [E I]%list_elem_of_filter); destruct s; cbn in *; by subst.
  - intros I; eexists; split; [|apply list_elem_of_filter; split; [|exact I]]; done.
Qed.
Lemma elem_of_permit_keys (p : Permits) s : s ∈ permit_keys p <-> is_Some (p !! s).
Proof.
  unfold permit_keys; rewrite list_elem_of_fmap; split.
  - intros ([s' n] & -> & I%elem_of_map_to_list); by eexists.
  - intros [n I]; exists (s, n); split; [done|]; by apply elem_of_map_to_list.
Qed.
Lemma elem_of_lease_scopes r s :
  s ∈ lease_scopes r <-> exists id l, lease_records r !! id = Some l /\ lease_scope l = s.
Proof.
  unfold lease_scopes; rewrite list_elem_of_fmap; split.
  - intros ([id l] & -> & I%elem_of_map_to_list); by exists id, l.
  - intros (id & l & I & <-); exists (id, l); split; [done|]; by apply elem_of_map_to_list.
Qed.

(** A guard of kind [k] on scope [s] outside [out]. *)
Definition guard_outside (k : ComposerDraftPermitKind) (r : LeaseRegistry) (out : gset nat)
    (s : ComposerDraftScope) : Prop :=
  exists id g, guards r !! id = Some g /\ guard_kind g = k /\ guard_scope g = s /\ id ∉ out.

Definition guards_in (X : gset nat) (m : gmap nat PermitGuard) : gmap nat PermitGuard :=
  filter (fun kv => kv.1 ∈ X) m.
Lemma guards_split k s X m : size (guards_of k s m)
  = (size (guards_of k s (guards_in X m)) + size (guards_of k s (filter (fun kv => kv.1 ∉ X) m)))%nat.
Proof.
  unfold guards_of, guards_in.
  rewrite <- (map_size_disj_union (filter _ (filter (fun kv => kv.1 ∈ X) m))).
  - f_equal; apply map_eq; intros id; apply option_eq; intros g.
    rewrite lookup_union_Some, !map_lookup_filter_Some.
    + cbn; destruct (decide (id ∈ X)); naive_solver.
    + apply map_disjoint_spec; intros ???; rewrite !map_lookup_filter_Some; naive_solver.
  - apply map_disjoint_spec; intros ???; rewrite !map_lookup_filter_Some; naive_solver.
Qed.
Lemma guards_in_one k s X id m g : m !! id = Some g -> id ∉ X ->
  size (guards_of k s (guards_in ({[id]} ∪ X) m))
  = (size (guards_of k s (guards_in X m))
     + if decide (guard_scope g = s /\ guard_kind g = k) then 1 else 0)%nat.
Proof.
  intros E N; rewrite <- guards_of_insert with (id := id).
  - f_equal; f_equal; apply map_eq; intros i; apply option_eq; intros x.
    unfold guards_in; rewrite lookup_insert_Some, !map_lookup_filter_Some; cbn.
    rewrite elem_of_union, elem_of_singleton; destruct (decide (i = id)); naive_solver.
  - unfold guards_in; apply map_lookup_filter_None; right; cbn; intros x _; done.
Qed.
Lemma guards_in_other k s X id m : m !! id = None ->
  size (guards_of k s (guards_in ({[id]} ∪ X) m)) = size (guards_of k s (guards_in X m)).
Proof.
  intros E; f_equal; f_equal; apply map_eq; intros i; apply option_eq; intros x.
  unfold guards_in; rewrite !map_lookup_filter_Some; cbn; rewrite elem_of_union, elem_of_singleton.
  naive_solver.
Qed.

(** The excluded counts are those of the excluded guards, each counted once. *)
Lemma excluded_counts_spec r : (forall s, Z.of_nat (guard_count Permit_Persistence r s) <= U64_MAX)%Z ->
  forall ids seen s,
  (Z.of_nat (size (guards_of Permit_Persistence s (guards_in seen (guards r))))
   + default 0 (excluded_counts r seen ids !! s))%Z
  = Z.of_nat (size (guards_of Permit_Persistence s (guards_in (seen ∪ list_to_set ids) (guards r)))).
Proof.
  intros B; induction ids as [|id ids IH]; intros seen s; cbn [excluded_counts].
  { rewrite lookup_empty; cbn [default list_to_set]; rewrite (right_id_L ∅ (∪)); lia. }
  pose proof (guards_split Permit_Persistence s ({[id]} ∪ seen ∪ list_to_set ids) (guards r)) as Bs.
  specialize (B s); unfold guard_count in B.
  pose proof (IH seen s) as IH0; pose proof (IH ({[id]} ∪ seen) s) as IH1; clear IH.
  replace (seen ∪ list_to_set (id :: ids)) with ({[id]} ∪ seen ∪ list_to_set ids : gset nat)
    by (rewrite list_to_set_cons; set_solver).
  set (U := list_to_set ids : gset nat) in *; clearbody U.
  destruct (guards r !! id) as [g|] eqn:E.
  2: { by rewrite IH0, <- (assoc_L (∪)), guards_in_other. }
  destruct (decide (id ∈ seen)) as [I|I].
  { replace ({[id]} ∪ seen) with seen in * by set_solver.
    rewrite (bool_decide_eq_true_2 _ I); destruct (guard_kind g); exact IH0. }
  rewrite (bool_decide_eq_false_2 _ I); rewrite (guards_in_one _ _ _ _ _ _ E I) in IH1.
  destruct (guard_kind g) eqn:K.
  - destruct (decide (id ∈ U)) as [J|J].
    + replace ({[id]} ∪ seen ∪ U) with (seen ∪ U) in * by set_solver. exact IH0.
    + rewrite IH0, <- (assoc_L (∪)), (guards_in_one _ _ _ _ _ _ E) by set_solver.
      rewrite decide_False; [lia|intros [_ F]; congruence].
  - rewrite lookup_insert; destruct (decide (guard_scope g = s)) as [D|D].
    + rewrite decide_True in IH1 by done; rewrite D; cbn [from_option Datatypes.id].
      unfold u64_saturating_add; lia.
    + rewrite decide_False in IH1; [lia|intros [F _]; congruence].
Qed.

Lemma held_spec r a ids t : registry_wf r ->
  t ∈ persistence_held_targets_excluding r a ids <->
  guard_outside Permit_Persistence r (list_to_set ids) {| scope_account := a; scope_target := t |}.
Proof.
  intros H; unfold persistence_held_targets_excluding; rewrite elem_of_targets_of, elem_of_permit_keys.
  set (s := {| scope_account := a; scope_target := t |}).
  destruct (wf_permits r H Permit_Persistence s) as [P B].
  assert (B' : forall s, (Z.of_nat (guard_count Permit_Persistence r s) <= U64_MAX)%Z).
  { intros s'; apply (wf_permits r H Permit_Persistence s'). }
  pose proof (excluded_counts_spec r B' ids ∅ s) as C; rewrite (left_id_L ∅ (∪)) in C.
  replace (guards_in ∅ (guards r)) with (∅ : gmap nat PermitGuard) in C.
  2: { symmetry; apply map_empty; intros i; apply map_lookup_filter_None; right; intros x _; cbn; set_solver. }
  unfold guards_of in C at 1; rewrite map_filter_empty, map_size_empty in C.
  pose proof (guards_split Permit_Persistence s (list_to_set ids) (guards r)) as S.
  transitivity (size (guards_of Permit_Persistence s
     (filter (fun kv => kv.1 ∉ (list_to_set ids : gset nat)) (guards r))) <> 0)%nat.
  - cbn in P; split.
    + intros [n [F L]%map_lookup_filter_Some]; cbn in L; rewrite P in F; unfold tally in F.
      case_decide; [done|]; injection F as <-; unfold guard_count in *; lia.
    + intros N; exists (Z.of_nat (guard_count Permit_Persistence r s)).
      apply map_lookup_filter_Some; cbn; rewrite P; unfold tally, guard_count in *.
      rewrite decide_False by lia; split; [done|lia].
  - rewrite map_size_ne_0_lookup; unfold guards_of, guard_outside; split.
    + intros (id & g & [[F I]%map_lookup_filter_Some [G K]]%map_lookup_filter_Some).
      by exists id, g.
    + intros (id & g & F & K & G & I); exists id, g.
      by apply map_lookup_filter_Some; split; [apply map_lookup_filter_Some|].
Qed.
Lemma command_guard_spec r s : registry_wf r ->
  is_Some (command_permits r !! s) <-> guard_outside Permit_Command r ∅ s.
Proof.
  intros H; rewrite (proj1 (wf_permits r H Permit_Command s) : command_permits r !! s = _), tally_some.
  unfold guard_count; rewrite map_size_ne_0_lookup; unfold guards_of, guard_outside; split.
  - intros (id & g & [F [G K]]%map_lookup_filter_Some); exists id, g; set_solver.
  - intros (id & g & F & K & G & _); exists id, g; by apply map_lookup_filter_Some.
Qed.

(** Someone still edits the target, or a command on it still runs. *)
Definition in_use (r : LeaseRegistry) (s : ComposerDraftScope) : Prop :=
  (exists id l, lease_records r !! id = Some l /\ lease_scope l = s /\
     live_generation r = Some (lease_generation l))
  \/ guard_outside Permit_Command r ∅ s.
Lemma touch_spec r a t : registry_wf r ->
  t ∈ touch_protected_targets r a <-> in_use r {| scope_account := a; scope_target := t |}.
Proof.
  intros H; unfold touch_protected_targets, in_use.
  rewrite elem_of_targets_of, elem_of_app, elem_of_lease_scopes, elem_of_permit_keys.
  rewrite command_guard_spec by done; split; intros [E|E]; [left|by right|left|by right].
  - destruct E as (id & l & F & <-); exists id, l; split; [done|split; [done|]].
    apply (wf_leases r H id l F).
  - destruct E as (id & l & F & <- & _); by exists id, l.
Qed.

(** C28: The registry's answers are exact in every run of renderer generations, leases, command
    permits, persistence permits, clones and drops: a target is protected against eviction
    exactly when a lease of the live generation is on it or a command guard for it still
    exists, and it is held for storage, permits [excluded] aside, exactly when a persistence
    guard for it exists that is not one of them. *)
Theorem lease_answers_are_exact (ops : list LeaseOp) (account : SessionKeyId) (t : ComposerTarget)
    (excluded : list nat) :
  let r := lease_run LeaseRegistry_new ops in
  let s := {| scope_account := account; scope_target := t |} in
  (t ∈ touch_protected_targets r account <-> in_use r s) /\
  (t ∈ persistence_held_targets_excluding r account excluded <->
     guard_outside Permit_Persistence r (list_to_set excluded) s).
Proof.
  intros r s; assert (H : registry_wf r) by apply lease_run_wf, registry_new_wf.
  split; [by apply touch_spec|by apply held_spec].
Qed.

(** * Changes are notified *)

(** A step that notifies nobody leaves every answer as it was. *)
Definition same_answers (r r' : LeaseRegistry) : Prop :=
  lease_records r' = lease_records r /\ live_generation r' = live_generation r /\
  (forall k, permits_of k r' = permits_of k r) /\
  (forall k out s, guard_outside k r' out s <-> guard_outside k r out s).
Lemma same_answers_refl r : same_answers r r.
Proof. by split; [|split; [|split]]. Qed.
Lemma recount_answers r id g n : guards r !! id = Some g ->
  same_answers r (r <| guards ::= <[id := {| guard_scope := guard_scope g; guard_kind := guard_kind g;
                                             references := n |}]> |>).
Proof.
  intros E; split; [done|split; [done|split; [by intros []|]]].
  intros k out s; unfold guard_outside; cbn; split.
  - intros (i & x & F & K & G & I); rewrite lookup_insert in F; case_decide; subst.
    + injection F as <-; exists i, g; naive_solver.
    + by exists i, x.
  - intros (i & x & F & K & G & I); destruct (decide (id = i)); subst.
    + eexists i, _; rewrite lookup_insert_eq; split; [done|cbn; naive_solver].
    + exists i, x; by rewrite lookup_insert_ne.
Qed.

Lemma lease_step_notifies r op : registry_wf r ->
  same_answers r (lease_step r op) \/ changes (lease_step r op) = S (changes r).
Proof.
  intros H; assert (D := same_answers_refl r); destruct op as [|g s|g id s|g id|g| |a ts|id|id]; cbn.
  - unfold begin_renderer_generation; destruct (u64_checked_add _ _); [by right|by left].
  - unfold acquire; case_bool_decide; cbn; [|by left]; destruct (u64_checked_add _ _); [by right|by left].
  - unfold try_command_permit; case_bool_decide; cbn; [|by left].
    destruct (lease_records r !! id); [|by left]; destruct (_ || _); cbn; [by left|].
    destruct (increment_permit _ _); [by right|by left].
  - unfold release; destruct (lease_records r !! id); [|by left]; destruct (negb _); [by left|by right].
  - unfold revoke_generation; case_bool_decide; by right.
  - unfold revoke_live_generation; destruct (live_generation r); [by right|by left].
  - unfold take_persistence_permits; set (scopes := _ <$> ts).
    destruct (increment_all _ [] scopes) as [p e] eqn:E.
    destruct e as [e|]; cbn.
    + left; apply (increment_all_tallies scopes _ [] (guard_count Permit_Persistence r)) in E.
      * assert (p = persistence_permits r) as ->.
        { eapply tallies_unique; [exact E|apply (wf_permits r H Permit_Persistence)]. }
        split; [done|split; [done|split; [by intros []|done]]].
      * eapply tallies_ext; [|apply (wf_permits r H Permit_Persistence)]; intros x.
        rewrite occurrences_nil; lia.
    + destruct (new_guards _ _ _) as [r' ids] eqn:G; cbn; right.
      by destruct (new_guards_spec _ _ _ _ _ G) as (_ & -> & _).
  - unfold clone_permit; destruct (guards r !! id) eqn:E; [|by left]; left; by apply recount_answers.
  - pose proof (wf_drop id r H) as W; cbn in W; unfold drop_permit in *.
    destruct (guards r !! id) as [g|] eqn:E; [|by left].
    assert (I : is_Some (permits_of (guard_kind g) r !! guard_scope g)).
    { rewrite (proj1 (wf_permits r H (guard_kind g) (guard_scope g))); apply tally_some.
      unfold guard_count; rewrite (guards_of_delete _ _ _ _ _ E), decide_True by done; lia. }
    destruct (references g) as [|[|n]]; [right|right|left; by apply recount_answers];
      unfold release_permit;
      (replace (permits_of (guard_kind g) _) with (permits_of (guard_kind g) r)
         by by destruct (guard_kind g));
      rewrite (bool_decide_eq_true_2 _ I); by destruct (guard_kind g).
Qed.

(** Nothing changes silently: a step of the registry either sends exactly one
    notification, or leaves what the registry answers about every account as it was - a refused
    call, a failed batch of persistence permits (whose counters are all taken back), a clone and
    the drop of a reference that is not the last. *)
Theorem lease_changes_are_notified (ops : list LeaseOp) (op : LeaseOp) :
  let r := lease_run LeaseRegistry_new ops in
  let r' := lease_step r op in
  changes r' = S (changes r) \/
  forall account excluded,
    touch_protected_targets r' account = touch_protected_targets r account /\
    protected_targets r' account = protected_targets r account /\
    persistence_held_targets_excluding r' account excluded
      = persistence_held_targets_excluding r account excluded.
Proof.
  intros r r'; assert (H : registry_wf r) by apply lease_run_wf, registry_new_wf.
  assert (H' : registry_wf r') by by apply lease_step_wf.
  destruct (lease_step_notifies r op H) as [(A1 & A2 & A3 & A4)|N]; [right|by left].
  pose proof (A3 Permit_Command) as C; pose proof (A3 Permit_Persistence) as P; cbn in C, P; fold r' in A1, C, P.
  intros a ex; unfold touch_protected_targets, protected_targets, lease_scopes.
  split; [by rewrite A1, C|split; [by rewrite A1, C, P|]].
  apply set_eq; intros t; rewrite !held_spec by done; apply A4.
Qed.

(** * Retired generations *)

Definition retired (g : ComposerRendererGeneration) (r : LeaseRegistry) : Prop :=
  (g <= next_generation r)%Z /\ live_generation r <> Some g.
Lemma lease_step_next r op : registry_wf r ->
  (next_generation (lease_step r op) = next_generation r /\
   (live_generation (lease_step r op) = live_generation r \/ live_generation (lease_step r op) = None))
  \/ (next_generation (lease_step r op) = next_generation r + 1 /\
      live_generation (lease_step r op) = Some (next_generation r + 1))%Z.
Proof.
  intros H; destruct op as [|g s|g id s|g id|g| |a ts|id|id]; cbn.
  - unfold begin_renderer_generation, u64_checked_add; case_decide; cbn; [by right|by left; split; [|left]].
  - left; unfold acquire; case_bool_decide; cbn; [|by split; [|left]].
    destruct (u64_checked_add _ _); by split; [|left].
  - left; unfold try_command_permit; case_bool_decide; cbn; [|by split; [|left]].
    destruct (lease_records r !! id); [|by split; [|left]]; destruct (_ || _); cbn; [by split; [|left]|].
    destruct (increment_permit _ _); by split; [|left].
  - left; unfold release; destruct (lease_records r !! id); [|by split; [|left]].
    destruct (negb _); by split; [|left].
  - left; unfold revoke_generation; case_bool_decide; cbn; [by split; [|right]|by split; [|left]].
  - left; unfold revoke_live_generation; destruct (live_generation r) eqn:E; cbn;
      [by split; [|right]|by split; [|left]].
  - left; unfold take_persistence_permits; set (scopes := _ <$> ts).
    destruct (increment_all _ [] scopes) as [p []]; cbn; [by split; [|left]|].
    destruct (new_guards _ _ _) as [r' ids] eqn:G; cbn.
    destruct (new_guards_spec _ _ _ _ _ G) as ((-> & _ & -> & _) & _ & _); by split; [|left].
  - left; unfold clone_permit; destruct (guards r !! id); by split; [|left].
  - left; unfold drop_permit; destruct (guards r !! id) as [g|]; [|by split; [|left]].
    destruct (references g) as [|[|n]]; [| |by split; [|left]];
      unfold release_permit; case_bool_decide; destruct (guard_kind g); by split; [|left].
Qed.
Lemma retired_run ops : forall g r, registry_wf r -> retired g r -> retired g (lease_run r ops).
Proof.
  induction ops as [|op ops IH]; intros g r H [B R]; [done|]; cbn; apply IH; [by apply lease_step_wf|].
  unfold retired; destruct (lease_step_next r op H) as [[-> [-> | ->]]|[-> ->]]; split; try done; try lia.
  intros [= E]; lia.
Qed.

(** A renderer generation that is not live any more never becomes live again, so a renderer
    that was replaced or revoked can neither take a new lease nor a permit for a command,
    whatever is called in between and however late its request arrives. *)
Theorem retired_generation_is_refused (ops1 ops2 : list LeaseOp) (g : ComposerRendererGeneration) :
  let r1 := lease_run LeaseRegistry_new ops1 in
  let r2 := lease_run r1 ops2 in
  (g <= next_generation r1)%Z -> live_generation r1 <> Some g ->
  (forall s, acquire r2 g s = (r2, inr RendererGenerationRetired)) /\
  (forall id s, try_command_permit r2 g id s = (r2, inr RendererGenerationRetired)) /\
  (forall id l, lease_records r2 !! id = Some l -> lease_generation l <> g).
Proof.
  intros r1 r2 B N; assert (H1 : registry_wf r1) by apply lease_run_wf, registry_new_wf.
  assert (H2 : registry_wf r2) by by apply lease_run_wf.
  destruct (retired_run ops2 g r1 H1 (conj B N)) as [_ L]; fold r2 in L.
  split; [|split].
  - intros s; unfold acquire; by rewrite (bool_decide_eq_false_2 _ L).
  - intros id s; unfold try_command_permit; by rewrite (bool_decide_eq_false_2 _ L).
  - intros id l F E; apply L; rewrite <- E; apply (wf_leases r2 H2 id l F).
Qed.

(** A second renderer takes over; the first one's lease, permit and requests are refused, and its
    command guard still protects the target until it is dropped. *)
Definition example_account : SessionKeyId :=
  {| key_homeserver := "https://h"; key_user_id := "@a:h"; key_device_id := "D" |}.
Definition example_scope : ComposerDraftScope :=
  {| scope_account := example_account; scope_target := Main "!r:h" |}.
Definition takeover_ops : list LeaseOp :=
  [Op_BeginGeneration; Op_Acquire 1%Z example_scope; Op_CommandPermit 1%Z 1%Z example_scope;
   Op_BeginGeneration].
Lemma retired_generation_is_refused_witness :
  touch_protected_targets (lease_run LeaseRegistry_new takeover_ops) example_account = {[Main "!r:h"]} /\
  let r := lease_run (lease_run LeaseRegistry_new takeover_ops) [Op_Acquire 2%Z example_scope; Op_Drop 0] in
  acquire r 1%Z example_scope = (r, inr RendererGenerationRetired).
Proof.
  split; [by vm_compute|].
  apply (retired_generation_is_refused takeover_ops [Op_Acquire 2%Z example_scope; Op_Drop 0] 1%Z); vm_compute; [|]; congruence.
Defined.
