(* ===== verification/DraftActor.v ===== *)
(** The drafts of the core actor ([crates/koushi-core/src/runtime/composer.rs], the draft parts of
    [runtime/reducer_support.rs] and of the loop in [runtime.rs]): when drafts are loaded,
    reconciled, scheduled for saving and saved, and how permits are held meanwhile.

    The application state is the panes and the state of the local encryption.  The files of the
    accounts are part of the state; the outcomes of the blocking store calls (the credential
    store, the nonce, the file system, the join of the task) are a sequence of [StoreOutcome]
    the model is given.  Time is in milliseconds. *)

From stdpp Require Import base list strings gmap.
From Stdlib Require Import ZArith Lia.
From S2P Require Import Prelude Text AppState Markdown ComposerDocument DraftStore DraftPersistence DraftPayload Staging Panes PaneActions DraftLeases LeaseProps.
Local Open Scope string_scope.
Local Open Scope list_scope.
Local Set Warnings "-clear-no-such-hyp".

(** * Local encryption ([crates/koushi-state/src/reducer/local_encryption.rs]) *)

Inductive LocalEncryptionState :=
  | Local_Unknown | Local_Probing (request_id : Z) | Local_Healthy | Local_Unavailable
  | Local_LockedOrInaccessible | Local_MissingCredential | Local_ResetRequired
  | Local_Resetting (request_id : Z).
#[export] Instance LocalEncryptionState_eq : EqDecision LocalEncryptionState.
Proof. solve_decision. Defined.
Inductive LocalEncryptionHealth :=
  | Health_Healthy | Health_Unavailable | Health_LockedOrInaccessible | Health_MissingCredential
  | Health_ResetRequired.
Definition local_of_health (h : LocalEncryptionHealth) : LocalEncryptionState :=
  match h with
  | Health_Healthy => Local_Healthy
  | Health_Unavailable => Local_Unavailable
  | Health_LockedOrInaccessible => Local_LockedOrInaccessible
  | Health_MissingCredential => Local_MissingCredential
  | Health_ResetRequired => Local_ResetRequired
  end.

Definition handle_local_encryption_probe_requested (s : LocalEncryptionState) (request_id : Z) :=
  match s with Local_Resetting _ => s | _ => Local_Probing request_id end.
Definition handle_local_encryption_health_changed (s : LocalEncryptionState) (request_id : Z)
    (health : LocalEncryptionHealth) : LocalEncryptionState :=
  match s with
  | Local_Probing current => if (current =? request_id)%Z then local_of_health health else s
  | _ => s
  end.
Definition handle_reset_local_data_requested (s : LocalEncryptionState) (request_id : Z) :=
  match s with Local_Resetting _ => s | _ => Local_Resetting request_id end.
Definition handle_reset_local_data_completed (s : LocalEncryptionState) (request_id : Z) :=
  match s with
  | Local_Resetting current => if (current =? request_id)%Z then Local_Unknown else s
  | _ => s
  end.
Definition handle_reset_local_data_failed (s : LocalEncryptionState) (request_id : Z) :=
  match s with
  | Local_Resetting current => if (current =? request_id)%Z then Local_ResetRequired else s
  | _ => s
  end.

(** * The application state and its actions *)

Record ActorState := { panes : Panes; local_encryption : LocalEncryptionState }.
#[export] Instance ActorState_updatable : Updatable ActorState := fun s =>
  {| panes := panes s; local_encryption := local_encryption s |}.
Definition drafts_of (s : ActorState) : ComposerDraftStore := composer_drafts (panes s).
Definition put_actor_drafts (d : ComposerDraftStore) (s : ActorState) : ActorState :=
  s <| panes ::= fun p => p <| composer_drafts := d |> |>.
#[export] Instance ActorState_eq : EqDecision ActorState.
Proof. solve_decision. Defined.

Definition current_session_info (p : Panes) : option SessionInfo :=
  match session p with
  | Session_Provisional info _ | Session_AwaitingVerification info _ | Session_Verifying info _ _ _ _
  | Session_AwaitingBootstrapConfirmation info _ _ | Session_Rejecting info _ | Session_Ready info
  | Session_Locked info | Session_CapabilityBlocked info _ => Some info
  | _ => None
  end.

(** The actions that matter to drafts: a step of the panes, and the actions that begin, switch,
    lock and end a session or reset the local data. *)
Inductive AppStep :=
  | App_Panes (step : PaneStep)
  | App_SessionLocked
  | App_AuthenticationInvalidated
  | App_SwitchAccountRequested (info : SessionInfo)
  | App_LogoutRequested
  | App_LogoutFinished
  | App_LocalEncryptionProbeRequested (request_id : Z)
  | App_LocalEncryptionHealthChanged (request_id : Z) (health : LocalEncryptionHealth)
  | App_ResetLocalDataRequested (request_id : Z)
  | App_ResetLocalDataCompleted (request_id : Z)
  | App_ResetLocalDataFailed (request_id : Z).

Definition reduce_app (s : ActorState) (action : AppStep) : ActorState :=
  match action with
  | App_Panes step => s <| panes ::= fun p => (pane_step p step).1 |>
  | App_SessionLocked => s <| panes ::= fun p => (pane_step p (Step_Gate Phase_DiscoveringMethods)).1 |>
  | App_AuthenticationInvalidated => s <| panes ::= fun p => (pane_step p Step_Lock).1 |>
  | App_SwitchAccountRequested info =>
      if decide (current_session_info (panes s) = Some info) then s
      else s <| panes ::= fun p => retire_panes (p <| session := Session_SwitchingAccount info |>) |>
  | App_LogoutRequested =>
      s <| panes ::= fun p => retire_panes (p <| session := Session_LoggingOut |>) |>
  | App_LogoutFinished => {| panes := Panes_default; local_encryption := Local_Unknown |}
  | App_LocalEncryptionProbeRequested r =>
      s <| local_encryption ::= fun l => handle_local_encryption_probe_requested l r |>
  | App_LocalEncryptionHealthChanged r h =>
      s <| local_encryption ::= fun l => handle_local_encryption_health_changed l r h |>
  | App_ResetLocalDataRequested r =>
      s <| local_encryption ::= fun l => handle_reset_local_data_requested l r |>
  | App_ResetLocalDataCompleted r =>
      s <| local_encryption ::= fun l => handle_reset_local_data_completed l r |>
  | App_ResetLocalDataFailed r =>
      s <| local_encryption ::= fun l => handle_reset_local_data_failed l r |>
  end.

Inductive ComposerDraftTransitionPolicy := Policy_Normal | Policy_PreservePrevious | Policy_Discard.
#[export] Instance TransitionPolicy_eq : EqDecision ComposerDraftTransitionPolicy.
Proof. solve_decision. Defined.
Definition composer_draft_transition_policy (action : AppStep) : ComposerDraftTransitionPolicy :=
  match action with
  | App_SessionLocked | App_AuthenticationInvalidated | App_SwitchAccountRequested _ =>
      Policy_PreservePrevious
  | App_LogoutRequested | App_LogoutFinished | App_ResetLocalDataRequested _
  | App_ResetLocalDataCompleted _ => Policy_Discard
  | _ => Policy_Normal
  end.

Definition session_key_id_from_info (info : SessionInfo) : SessionKeyId :=
  {| key_homeserver := homeserver info; key_user_id := user_id info; key_device_id := device_id info |}.
Definition composer_draft_session_key (s : ActorState) : option SessionKeyId :=
  match session (panes s) with
  | Session_Ready info => Some (session_key_id_from_info info)
  | _ => None
  end.
Definition composer_draft_account_matches (s : ActorState) (expected_account : SessionKeyId) : bool :=
  match session (panes s) with
  | Session_Ready info => bool_decide (session_key_id_from_info info = expected_account)
  | _ => false
  end.

Definition active_composer_targets (s : ActorState) : gset ComposerTarget :=
  match timeline_room_id (timeline (panes s)) with Some id => {[Main id]} | None => ∅ end
  ∪ match thread (panes s) with
    | Thread_Opening room root _ => {[Thread room root]}
    | Thread_Open t => {[Thread (open_room_id t) (open_root_event_id t)]}
    | Thread_Failed room root _ _ => {[Thread room root]}
    | Thread_Closed => ∅
    end.

Definition composer_draft_revision_for_target (s : ActorState) (target : ComposerTarget) :
    ComposerDraftRevision :=
  match target with
  | Main id => room_revision (drafts_of s) id
  | Thread id root => thread_revision (drafts_of s) id root
  end.
Definition composer_draft_acceptance_would_exhaust (s : ActorState) (target : ComposerTarget)
    (submitted_revision : ComposerDraftRevision) : bool :=
  match checked_successor (composer_draft_revision_for_target s target) submitted_revision with
  | inr _ => true
  | inl _ => false
  end.

Inductive ComposerAcceptanceIdentity :=
  | Identity_Submission (id : SubmissionId)
  | Identity_ScheduledSend (id : string).
#[export] Instance AcceptanceIdentity_eq : EqDecision ComposerAcceptanceIdentity.
Proof. solve_decision. Defined.
Definition composer_acceptance_identity_for_action (action : AppStep) : option ComposerAcceptanceIdentity :=
  match action with
  | App_Panes (Step_Action (ComposerSubmissionAcceptedAtRevision id _ _ _ _))
  | App_Panes (Step_Action (ThreadSubmissionAcceptedAtRevision id _ _ _ _)) => Some (Identity_Submission id)
  | App_Panes (Step_Action (ScheduledSendCreatedAtRevision item _)) =>
      Some (Identity_ScheduledSend (scheduled_id item))
  | _ => None
  end.

(** * The actor *)

Inductive ComposerDraftLoadStatus :=
  | Load_Unloaded | Load_Loaded (key : SessionKeyId) | Load_Failed (key : SessionKeyId).
#[export] Instance LoadStatus_eq : EqDecision ComposerDraftLoadStatus.
Proof. solve_decision. Defined.
Definition is_settled (status : ComposerDraftLoadStatus) (key : SessionKeyId) : bool :=
  match status with
  | Load_Loaded settled | Load_Failed settled => bool_decide (settled = key)
  | Load_Unloaded => false
  end.
Definition is_loaded (status : ComposerDraftLoadStatus) (key : SessionKeyId) : bool :=
  bool_decide (status = Load_Loaded key).

Definition COMPOSER_DRAFT_PERSIST_DEBOUNCE : Z := 150.
Record PendingComposerDraftPersist := {
  pending_key : SessionKeyId;
  pending_drafts : PersistedComposerDraftStoreV3;
  pending_permits : list nat;
  deadline : Z }.
Record PendingComposerAcceptance := { acceptance_identity : ComposerAcceptanceIdentity; acceptance_permit : nat }.

(** What one blocking store call meets: whether its task is joined, what the credential store
    answers, the nonce drawn, whether reading and whether writing the file works. *)
Record StoreOutcome {Secret : Type} := {
  joined : bool; secret : option Secret; nonce : string; readable : bool; writable : bool }.
Arguments StoreOutcome : clear implicits.

(** What the store was asked, in order, with whether it succeeded. *)
Inductive StoreEvent := Event_Load (key : SessionKeyId) (ok : bool) | Event_Save (key : SessionKeyId).

Record DraftActor := {
  state : ActorState;
  registry : LeaseRegistry;
  load_status : ComposerDraftLoadStatus;
  reload_required : bool;
  pending_persist : option PendingComposerDraftPersist;
  pending_acceptances : gmap Z PendingComposerAcceptance;
  lease_changes_seen : nat;
  files : gmap SessionKeyId FileRead;
  store_calls : nat;
  store_log : list StoreEvent;
  now : Z }.
#[export] Instance DraftActor_updatable : Updatable DraftActor := fun a =>
  {| state := state a; registry := registry a; load_status := load_status a;
     reload_required := reload_required a; pending_persist := pending_persist a;
     pending_acceptances := pending_acceptances a; lease_changes_seen := lease_changes_seen a;
     files := files a; store_calls := store_calls a; store_log := store_log a; now := now a |}.
Definition DraftActor_new (files : gmap SessionKeyId FileRead) : DraftActor :=
  {| state := {| panes := Panes_default; local_encryption := Local_Unknown |};
     registry := LeaseRegistry_new; load_status := Load_Unloaded; reload_required := false;
     pending_persist := None; pending_acceptances := ∅; lease_changes_seen := 0; files := files;
     store_calls := 0; store_log := []; now := 0 |}.

Definition file_of (a : DraftActor) (key : SessionKeyId) : FileRead := default File_Missing (files a !! key).
Definition drop_permits (ids : list nat) (a : DraftActor) : DraftActor :=
  a <| registry ::= fun r => foldl drop_permit r ids |>.

(** The draft effects a reduction leaves for after its publication. *)
Record DeferredReducerSideEffects := {
  composer_drafts_deferred : option (SessionKeyId * ComposerDraftStore);
  composer_drafts_discarded : bool }.
Definition cancel_composer_draft_persist (d : DeferredReducerSideEffects) : DeferredReducerSideEffects :=
  {| composer_drafts_deferred := None; composer_drafts_discarded := composer_drafts_discarded d |}.
Definition has_composer_draft_persist (d : DeferredReducerSideEffects) : bool :=
  match composer_drafts_deferred d with Some _ => true | None => false end.

Definition reconcile_with (protection : ComposerDraftProtection) (a : DraftActor) : DraftActor :=
  a <| state ::= fun s =>
         put_actor_drafts (default (drafts_of s) (reconcile_lifecycle (drafts_of s) protection)) s |>.
Definition lifecycle_protection (a : DraftActor) (active : gset ComposerTarget) : ComposerDraftProtection :=
  match composer_draft_session_key (state a) with
  | Some account =>
      {| active := active; leased := touch_protected_targets (registry a) account;
         store_pending := persistence_held_targets_excluding (registry a) account [] |}
  | None => {| active := active; leased := ∅; store_pending := ∅ |}
  end.
Definition reconcile_composer_draft_lifecycle_with_active (active : gset ComposerTarget) (a : DraftActor) :
    DraftActor := reconcile_with (lifecycle_protection a active) a.

(** The permits of the write this one replaces do not protect. *)
Definition composer_draft_persistence_protection (a : DraftActor) (key_id : SessionKeyId)
    (active : gset ComposerTarget) : ComposerDraftProtection :=
  let excluded_permits :=
    match pending_persist a with
    | Some p => if bool_decide (pending_key p = key_id) then pending_permits p else []
    | None => []
    end in
  {| active := active; leased := touch_protected_targets (registry a) key_id;
     store_pending := persistence_held_targets_excluding (registry a) key_id excluded_permits |}.

Section store.
Context (aead_encrypt : string -> string -> string -> option string).
Context (aead_decrypt : string -> string -> string -> option string).
Context (encode_json : PersistedComposerDraftStoreV3 -> option string).
Context (decode_json : string -> DraftPayload).
Context {Secret : Type} (derive_key : Secret -> string) (magic : string).
Context (outcome : nat -> StoreOutcome Secret).

Definition store_load (a : DraftActor) (key_id : SessionKeyId) : DraftActor * option ComposerDraftStore :=
  let o := outcome (store_calls a) in
  let file := if readable o then file_of a key_id else File_Unreadable in
  let result :=
    if joined o then
      match load_composer_drafts aead_decrypt decode_json derive_key magic file (secret o) with
      | inl drafts => Some drafts
      | inr _ => None
      end
    else None in
  (a <| store_calls ::= S |>
     <| store_log ::= fun l => l ++ [Event_Load key_id (match result with Some _ => true | None => false end)] |>,
   result).
Definition store_save (a : DraftActor) (key_id : SessionKeyId) (drafts : PersistedComposerDraftStoreV3) :
    DraftActor * bool :=
  let o := outcome (store_calls a) in
  let a := a <| store_calls ::= S |> <| store_log ::= fun l => l ++ [Event_Save key_id] |> in
  if joined o then
    let '(file, failure) :=
      save_composer_drafts aead_encrypt encode_json derive_key magic (file_of a key_id) (secret o)
        drafts (nonce o) (writable o) in
    (a <| files ::= <[key_id := file]> |>, match failure with None => true | Some _ => false end)
  else (a, false).

Definition flush_pending_composer_drafts (a : DraftActor) : DraftActor * bool :=
  match pending_persist a with
  | None => (a, true)
  | Some pending =>
      let '(a, ok) := store_save (a <| pending_persist := None |>) (pending_key pending)
                        (pending_drafts pending) in
      (drop_permits (pending_permits pending) a, ok)
  end.

Definition load_composer_drafts_for_current_session (a : DraftActor) : DraftActor :=
  match composer_draft_session_key (state a) with
  | None => a <| load_status := Load_Unloaded |> <| reload_required := false |>
  | Some key_id =>
      if is_settled (load_status a) key_id && negb (reload_required a) then a
      else
        let a := (flush_pending_composer_drafts a).1 in
        match store_load a key_id with
        | (a, None) => a <| load_status := Load_Failed key_id |> <| reload_required := false |>
        | (a, Some drafts) =>
            a <| state ::= fun s => reduce_app s (App_Panes (Step_Action (ComposerDraftsLoaded drafts))) |>
              <| load_status := Load_Loaded key_id |> <| reload_required := false |>
        end
  end.

Definition drop_pending (a : DraftActor) : DraftActor :=
  match pending_persist a with
  | Some pending => drop_permits (pending_permits pending) (a <| pending_persist := None |>)
  | None => a
  end.
Definition schedule_composer_draft_persist (a : DraftActor) (key_id : SessionKeyId)
    (drafts : ComposerDraftStore) : DraftActor :=
  if negb (is_loaded (load_status a) key_id) then a
  else
    let a :=
      match pending_persist a with
      | Some pending =>
          if bool_decide (pending_key pending = key_id) then a else (flush_pending_composer_drafts a).1
      | None => a
      end in
    let active :=
      if bool_decide (composer_draft_session_key (state a) = Some key_id)
      then active_composer_targets (state a) else ∅ in
    match persisted_payload drafts (composer_draft_persistence_protection a key_id active) with
    | None => a
    | Some payload =>
        let '(r, permits) := take_persistence_permits (registry a) key_id (v3_targets payload) in
        let a := a <| registry := r |> in
        match permits with
        | inr _ => a
        | inl permits =>
            (drop_pending a) <| pending_persist :=
              Some {| pending_key := key_id; pending_drafts := payload; pending_permits := permits;
                      deadline := (now a + COMPOSER_DRAFT_PERSIST_DEBOUNCE)%Z |} |>
        end
    end.
Definition composer_draft_persist_delay (a : DraftActor) : option Z :=
  (fun pending => Z.max 0 (deadline pending - now a)) <$> pending_persist a.

Definition reconcile_composer_draft_lifecycle_after_permit_change (a : DraftActor) : DraftActor * bool :=
  let a := a <| lease_changes_seen := changes (registry a) |> in
  let previous_drafts := drafts_of (state a) in
  let a := reconcile_composer_draft_lifecycle_with_active (active_composer_targets (state a)) a in
  if bool_decide (previous_drafts = drafts_of (state a)) then (a, false)
  else
    match composer_draft_session_key (state a) with
    | Some key_id => (schedule_composer_draft_persist a key_id (drafts_of (state a)), true)
    | None => (a, true)
    end.

(** ** Reducing an action *)

(** Which drafts of which account a reduction leaves to be saved. *)
Definition deferred_composer_drafts (policy : ComposerDraftTransitionPolicy)
    (previous_session current_session : option SessionKeyId) (previous_drafts drafts : ComposerDraftStore) :
    option (SessionKeyId * ComposerDraftStore) :=
  if bool_decide (previous_drafts = drafts) then None
  else
    match policy with
    | Policy_Discard => None
    | Policy_PreservePrevious => (fun key_id => (key_id, previous_drafts)) <$> previous_session
    | Policy_Normal =>
        if bool_decide (current_session = previous_session)
        then (fun key_id => (key_id, drafts)) <$> current_session
        else (fun key_id => (key_id, previous_drafts)) <$> previous_session
    end.

(** [elsewhere] tells whether the action changed the fields of the application state that are not
    modelled. *)
Definition reduce_app_action_state (a : DraftActor) (action : AppStep) (elsewhere : bool) :
    DraftActor * DeferredReducerSideEffects :=
  let policy := composer_draft_transition_policy action in
  let destructive_state_before := state a in
  let previous_session := composer_draft_session_key (state a) in
  let previous_drafts := drafts_of (state a) in
  let previous_composer_targets := active_composer_targets (state a) in
  let a := a <| state ::= fun s => reduce_app s action |> in
  let a := if bool_decide (composer_draft_session_key (state a) = previous_session) then a
           else a <| reload_required := true |> in
  let discarded := bool_decide (policy = Policy_Discard)
                   && (elsewhere || negb (bool_decide (destructive_state_before = state a))) in
  let a := if discarded then drop_pending a else a in
  let current_composer_targets := active_composer_targets (state a) in
  let a :=
    if bool_decide (previous_drafts = drafts_of (state a))
       && bool_decide (previous_composer_targets = current_composer_targets) then a
    else reconcile_composer_draft_lifecycle_with_active current_composer_targets a in
  (a, {| composer_drafts_deferred :=
           deferred_composer_drafts policy previous_session (composer_draft_session_key (state a))
             previous_drafts (drafts_of (state a));
         composer_drafts_discarded := discarded |}).
Definition apply_deferred_reducer_side_effects (a : DraftActor) (d : DeferredReducerSideEffects) : DraftActor :=
  match composer_drafts_deferred d with
  | Some (key_id, drafts) => schedule_composer_draft_persist a key_id drafts
  | None => a
  end.
Definition reduce_app_action (a : DraftActor) (action : AppStep) (elsewhere : bool) : DraftActor :=
  let '(a, deferred) := reduce_app_action_state a action elsewhere in
  apply_deferred_reducer_side_effects a deferred.

(** ** Permits of commands on their way to acceptance *)

Definition forward_composer_draft_permit (a : DraftActor) (request_id : Z)
    (identity : ComposerAcceptanceIdentity) (permit : nat) : DraftActor :=
  let a := a <| registry ::= fun r => clone_permit r permit |> in
  let replaced := pending_acceptances a !! request_id in
  let a := a <| pending_acceptances ::= <[request_id :=
                  {| acceptance_identity := identity; acceptance_permit := permit |}]> |> in
  match replaced with Some p => drop_permits [acceptance_permit p] a | None => a end.
Definition remove_acceptance (a : DraftActor) (request_id : Z) : DraftActor :=
  match pending_acceptances a !! request_id with
  | Some p => drop_permits [acceptance_permit p] (a <| pending_acceptances ::= delete request_id |>)
  | None => a
  end.
Definition settle_acceptances (a : DraftActor) (identity : ComposerAcceptanceIdentity) : DraftActor :=
  let settled := filter (fun kv => acceptance_identity kv.2 = identity) (pending_acceptances a) in
  drop_permits ((fun kv => acceptance_permit kv.2) <$> map_to_list settled)
    (a <| pending_acceptances ::= filter (fun kv => acceptance_identity kv.2 <> identity) |>).

(** ** A batch of actions *)

Definition Work : Type := list (DeferredReducerSideEffects * option ComposerAcceptanceIdentity).
Definition batch_action (aw : DraftActor * Work) (step : AppStep * bool) : DraftActor * Work :=
  let '(a, work) := aw in
  let a := if existsb (fun w => has_composer_draft_persist w.1) work then a
           else load_composer_drafts_for_current_session a in
  let acceptance := composer_acceptance_identity_for_action step.1 in
  let '(a, deferred) := reduce_app_action_state a step.1 step.2 in
  let work := if composer_drafts_discarded deferred
              then (fun w => (cancel_composer_draft_persist w.1, w.2)) <$> work else work in
  (a, work ++ [(deferred, acceptance)]).
Definition batch_effect (a : DraftActor) (w : DeferredReducerSideEffects * option ComposerAcceptanceIdentity) :
    DraftActor :=
  let a := apply_deferred_reducer_side_effects a w.1 in
  match w.2 with Some identity => settle_acceptances a identity | None => a end.
Definition commit_action_batch (a : DraftActor) (steps : list (AppStep * bool)) : DraftActor :=
  let '(a, work) := foldl batch_action (a, []) steps in
  load_composer_drafts_for_current_session (foldl batch_effect a work).

(** ** The loop *)

(** What wakes the loop, and what the registry's other users do between two turns.  A
    [Step_Timer] is the wake-up at the deadline, [Step_LeaseChange] the notification. *)
Inductive ActorStep :=
  | Step_Elapse (milliseconds : Z)
  | Step_Timer
  | Step_LeaseChange
  | Step_Rejected (request_id : Z)
  | Step_Forward (request_id : Z) (identity : ComposerAcceptanceIdentity) (permit : nat)
  | Step_Command (action : AppStep) (elsewhere : bool)
  | Step_Batch (steps : list (AppStep * bool))
  | Step_Registry (op : LeaseOp)
  | Step_Shutdown.

(** The references to a guard the actor holds for commands it forwarded. *)
Definition acceptance_refs (acceptances : gmap Z PendingComposerAcceptance) (id : nat) : nat :=
  size (filter (fun kv => acceptance_permit kv.2 = id) acceptances).
Definition is_command_guard (r : LeaseRegistry) (id : nat) : bool :=
  match guards r !! id with Some g => bool_decide (guard_kind g = Permit_Command) | None => false end.
(** Persistence permits are taken and dropped by the actor alone, and nobody drops its references. *)
Definition others_may (a : DraftActor) (op : LeaseOp) : bool :=
  match op with
  | Op_PersistencePermits _ _ => false
  | Op_Clone id => is_command_guard (registry a) id
  | Op_Drop id =>
      is_command_guard (registry a) id
      && match guards (registry a) !! id with
         | Some g => (acceptance_refs (pending_acceptances a) id <? references g)%nat
         | None => false
         end
  | _ => true
  end.
Definition actor_step (a : DraftActor) (step : ActorStep) : DraftActor :=
  match step with
  | Step_Elapse milliseconds => a <| now ::= fun t => (t + Z.max 0 milliseconds)%Z |>
  | Step_Timer =>
      match composer_draft_persist_delay a with
      | Some 0%Z => (flush_pending_composer_drafts a).1
      | _ => a
      end
  | Step_LeaseChange =>
      if (changes (registry a) =? lease_changes_seen a)%nat then a
      else (reconcile_composer_draft_lifecycle_after_permit_change a).1
  | Step_Rejected request_id => remove_acceptance a request_id
  | Step_Forward request_id identity permit =>
      if is_command_guard (registry a) permit then forward_composer_draft_permit a request_id identity permit
      else a
  | Step_Command action elsewhere => reduce_app_action a action elsewhere
  | Step_Batch steps => commit_action_batch a steps
  | Step_Registry op => if others_may a op then a <| registry ::= fun r => lease_step r op |> else a
  | Step_Shutdown => (flush_pending_composer_drafts a).1
  end.
Definition actor_run (a : DraftActor) (steps : list ActorStep) : DraftActor := foldl actor_step a steps.
End store.
