(* ===== verification/DraftActorProps.v ===== *)
(** The drafts of the core actor ([DraftActor.v]): permits held exactly as long as there is work
    behind them, drafts saved only over files that were read, and drafts that survive a restart. *)

From stdpp Require Import base list strings gmap.
From Stdlib Require Import ZArith Lia.
From S2P Require Import Prelude Text AppState Markdown ComposerDocument DraftStore DraftPersistence DraftProps DraftEviction DraftPersistProps DraftPayload DraftPayloadProps Staging Panes Conversation PaneActions DraftLeases LeaseProps DraftActor.
Local Open Scope string_scope.
Local Open Scope list_scope.
Local Set Warnings "-clear-no-such-hyp".

(** * The log of the store *)

(** The outcome of the last load of [key]. *)
Definition last_load (key : SessionKeyId) (log : list StoreEvent) : option bool :=
  foldl (fun last e => match e with
                       | Event_Load k ok => if bool_decide (k = key) then Some ok else last
                       | Event_Save _ => last
                       end) None log.
Definition saves_follow_loads (log : list StoreEvent) : Prop :=
  forall i key, log !! i = Some (Event_Save key) -> last_load key (take i log) = Some true.

Lemma last_load_snoc key log e : last_load key (log ++ [e])
  = match e with
    | Event_Load k ok => if bool_decide (k = key) then Some ok else last_load key log
    | Event_Save _ => last_load key log
    end.
Proof. unfold last_load. rewrite foldl_app. by destruct e. Qed.
Lemma saves_follow_loads_snoc log e :
  saves_follow_loads log ->
  match e with Event_Save key => last_load key log = Some true | Event_Load _ _ => True end ->
  saves_follow_loads (log ++ [e]).
Proof.
  intros H He i key Hi. apply lookup_app_Some in Hi as [Hi|[Hl Hi]].
  - rewrite take_app_le by (apply lookup_lt_Some in Hi; lia). by apply H.
  - apply list_lookup_singleton_Some in Hi as [Hi ->]. rewrite take_app_ge by lia.
    rewrite (proj2 (Nat.sub_0_le _ _)) by lia. by rewrite app_nil_r.
Qed.

Lemma Forall2_impl_in {A B} (P Q : A -> B -> Prop) l k :
  Forall2 P l k -> (forall x y, x ∈ l -> P x y -> Q x y) -> Forall2 Q l k.
Proof.
  induction 1 as [|x y l k Hxy _ IH]; intros H; constructor; [apply H; [left|done]|].
  apply IH. intros a b Ha. apply H. by right.
Qed.

(** * The invariant *)

Section invariant.
Implicit Types (m : gmap nat PermitGuard) (f : nat -> nat).

Definition persistence_guard (key : SessionKeyId) (t : ComposerTarget) : PermitGuard :=
  {| guard_scope := {| scope_account := key; scope_target := t |};
     guard_kind := Permit_Persistence; references := 1 |}.
(** The guards of a pending write: one for each of its targets. *)
Definition holds (m : gmap nat PermitGuard) (key : SessionKeyId) (ids : list nat) (ts : list ComposerTarget) :
    Prop := NoDup ids /\ Forall2 (fun id t => m !! id = Some (persistence_guard key t)) ids ts.
Definition pending_ids (o : option PendingComposerDraftPersist) : list nat :=
  match o with Some p => pending_permits p | None => [] end.
(** Each guard [id] is a command guard with [f id] references at least. *)
Definition backs f m : Prop :=
  forall id, f id = 0%nat \/
    exists g, m !! id = Some g /\ guard_kind g = Permit_Command /\ (f id <= references g)%nat.

Record actor_ok_fields (r : LeaseRegistry) (status : ComposerDraftLoadStatus)
    (o : option PendingComposerDraftPersist) (acc : gmap Z PendingComposerAcceptance)
    (log : list StoreEvent) : Prop := {
  ok_registry : registry_wf r;
  ok_owned : forall id g, guards r !! id = Some g -> guard_kind g = Permit_Persistence -> id ∈ pending_ids o;
  ok_held : forall p, o = Some p ->
    holds (guards r) (pending_key p) (pending_permits p) (v3_targets (pending_drafts p));
  ok_acceptances : backs (acceptance_refs acc) (guards r);
  ok_loaded : forall key, status = Load_Loaded key -> last_load key log = Some true;
  ok_pending : forall p, o = Some p -> last_load (pending_key p) log = Some true;
  ok_log : saves_follow_loads log }.
Definition actor_ok (a : DraftActor) : Prop :=
  actor_ok_fields (registry a) (load_status a) (pending_persist a) (pending_acceptances a) (store_log a).

(** ** Dropping permits *)

Lemma release_permit_guards r s k : guards (release_permit r s k) = guards r.
Proof. unfold release_permit. case_bool_decide; [by destruct k|done]. Qed.
Lemma drop_permit_guards r id :
  guards (drop_permit r id)
  = match guards r !! id with
    | Some g => match references g with
                | S (S n) => <[id := {| guard_scope := guard_scope g; guard_kind := guard_kind g;
                                        references := S n |}]> (guards r)
                | _ => delete id (guards r)
                end
    | None => guards r
    end.
Proof.
  unfold drop_permit. destruct (guards r !! id) as [g|]; [|done].
  destruct (references g) as [|[|n]]; [by rewrite release_permit_guards|by rewrite release_permit_guards|done].
Qed.
Lemma drop_permits_wf ids r : registry_wf r -> registry_wf (foldl drop_permit r ids).
Proof.
  revert r; induction ids as [|id ids IH]; intros r H; [done|]. apply IH. exact (lease_step_wf r (Op_Drop id) H).
Qed.

(** The permits of a write that is done: its guards are gone, the others are as they were. *)
Lemma drop_held ids r key ts : holds (guards r) key ids ts ->
  guards (foldl drop_permit r ids) = filter (fun kv => kv.1 ∉ ids) (guards r).
Proof.
  revert r ts; induction ids as [|id ids IH]; intros r ts [Hd H].
  - symmetry. apply map_filter_id. intros ? ? _. cbn. apply not_elem_of_nil.
  - apply NoDup_cons in Hd as [Hid Hd]. apply Forall2_cons_inv_l in H as (t & ts' & Ht & H & ->).
    assert (E : guards (drop_permit r id) = delete id (guards r)) by by rewrite drop_permit_guards, Ht.
    cbn [foldl]. rewrite (IH _ ts'); rewrite E.
    + apply map_eq. intros i. apply option_eq. intros g.
      rewrite !map_lookup_filter_Some, lookup_delete_Some, not_elem_of_cons. cbn. naive_solver.
    + split; [done|]. eapply Forall2_impl_in; [exact H|]. intros i t' Hi Hg.
      rewrite lookup_delete_ne; [done|]. by intros ->.
Qed.

(** The references of commands that are over: nothing else changes. *)
Definition persistence_part m : gmap nat PermitGuard :=
  filter (fun kv => guard_kind kv.2 = Permit_Persistence) m.
Lemma drop_one f r id : backs f (guards r) -> (0 < f id)%nat ->
  backs (fun i => if decide (i = id) then f i - 1 else f i)%nat (guards (drop_permit r id)) /\
  persistence_part (guards (drop_permit r id)) = persistence_part (guards r).
Proof.
  intros H Hf. destruct (H id) as [|(g & Hg & Hk & Hr)]; [lia|]. rewrite drop_permit_guards, Hg. split.
  - intros i. case_decide as D.
    + subst i. destruct (references g) as [|[|n]] eqn:E; [lia|left; lia|].
      right. eexists. rewrite lookup_insert_eq. split; [done|]. cbn. split; [done|lia].
    + destruct (H i) as [|(g' & Hg' & Hk' & Hr')]; [by left|]. right. exists g'.
      destruct (references g) as [|[|n]]; rewrite ?lookup_delete_ne, ?lookup_insert_ne by done; done.
  - apply map_eq. intros i. apply option_eq. intros x. unfold persistence_part.
    rewrite !map_lookup_filter_Some. cbn [snd]. destruct (decide (id = i)) as [<-|D].
    + rewrite Hg. destruct (references g) as [|[|n]]; rewrite ?lookup_delete_eq, ?lookup_insert_eq;
        (split; [intros [Hx Hp]; first [done|injection Hx as <-]|intros [[= <-] Hp]]); cbn in *; congruence.
    + destruct (references g) as [|[|n]]; by rewrite ?lookup_delete_ne, ?lookup_insert_ne by done.
Qed.
Lemma drop_acceptances ids : forall f f' r, backs f (guards r) ->
  (forall i, f i = f' i + length (filter (fun x => x = i) ids))%nat ->
  backs f' (guards (foldl drop_permit r ids)) /\
  persistence_part (guards (foldl drop_permit r ids)) = persistence_part (guards r).
Proof.
  induction ids as [|id ids IH]; intros f f' r H E; cbn [foldl].
  - split; [|done]. intros i. specialize (E i). rewrite filter_nil in E. cbn [length] in E.
    rewrite Nat.add_0_r in E. rewrite <-E. apply H.
  - destruct (drop_one f r id H) as [H1 H2].
    { rewrite E, filter_cons, decide_True by done. cbn [length]. lia. }
    destruct (IH _ f' (drop_permit r id) H1) as [H3 H4]; [|by rewrite H4].
    intros i. cbv beta. specialize (E i). rewrite filter_cons in E.
    destruct (decide (i = id)) as [->|]; [rewrite decide_True in E by done|rewrite decide_False in E by done];
      cbn [length] in E; lia.
Qed.
(** What is said of persistence guards is said of the persistence part. *)
Lemma persistence_part_lookup m id g :
  persistence_part m !! id = Some g <-> m !! id = Some g /\ guard_kind g = Permit_Persistence.
Proof. apply map_lookup_filter_Some. Qed.
Lemma owned_part m m' (ids : list nat) : persistence_part m' = persistence_part m ->
  (forall id g, m !! id = Some g -> guard_kind g = Permit_Persistence -> id ∈ ids) ->
  forall id g, m' !! id = Some g -> guard_kind g = Permit_Persistence -> id ∈ ids.
Proof.
  intros E H id g Hg Hk. apply (H id g); [|done].
  assert (X : persistence_part m' !! id = Some g) by (apply persistence_part_lookup; by split).
  rewrite E in X. apply persistence_part_lookup in X as [X _]. exact X.
Qed.
Lemma holds_part m m' key (ids : list nat) ts : persistence_part m' = persistence_part m ->
  holds m key ids ts -> holds m' key ids ts.
Proof.
  intros E [Hd H]. split; [done|]. eapply Forall2_impl; [exact H|]. intros id t Hg.
  assert (X : persistence_part m !! id = Some (persistence_guard key t))
    by (apply persistence_part_lookup; by split).
  rewrite <-E in X. apply persistence_part_lookup in X as [X _]. exact X.
Qed.

(** ** Taking and replacing permits *)

Lemma new_guards_held scopes key ts : scopes = (fun t => {| scope_account := key; scope_target := t |}) <$> ts ->
  forall r r' ids, new_guards Permit_Persistence scopes r = (r', ids) ->
  holds (guards r') key ids ts /\ (forall id, id ∈ ids -> guards r !! id = None) /\
  (forall id, id ∉ ids -> guards r' !! id = guards r !! id).
Proof.
  intros ->. induction ts as [|t ts IH]; intros r r' ids; cbn [fmap list_fmap new_guards].
  - intros [= <- <-]. split_and!; [split; [constructor|constructor]|set_solver|done].
  - unfold new_guard. set (id := fresh (dom (guards r))). cbv zeta beta iota.
    destruct (new_guards _ _ _) as [r2 l] eqn:E. intros [= <- <-].
    destruct (IH _ _ _ E) as ([Hd H] & Hf & Ho). cbn [guards] in *.
    assert (Hid : guards r !! id = None) by apply fresh_guard.
    assert (Hl : id ∉ l).
    { intros Hi. specialize (Hf id Hi). cbn in Hf. by rewrite lookup_insert_eq in Hf. }
    split_and!.
    + split; [by constructor|]. constructor; [|exact H]. rewrite (Ho id Hl). cbn. by rewrite lookup_insert_eq.
    + intros i [->|Hi]%elem_of_cons; [done|]. specialize (Hf i Hi). cbn in Hf.
      by apply lookup_insert_None in Hf as [? _].
    + intros i [Hi1 Hi2]%not_elem_of_cons. rewrite (Ho i Hi2). cbn. by rewrite lookup_insert_ne.
Qed.
Lemma take_permits_held r key ts r' ids : take_persistence_permits r key ts = (r', inl ids) ->
  holds (guards r') key ids ts /\ (forall id, id ∈ ids -> guards r !! id = None) /\
  (forall id, id ∉ ids -> guards r' !! id = guards r !! id).
Proof.
  unfold take_persistence_permits. destruct (increment_all _ _ _) as [p [e|]]; [done|].
  destruct (new_guards _ _ _) as [r2 l] eqn:E. intros [= <- <-].
  apply (new_guards_held _ key ts eq_refl _ _ _ E).
Qed.
Lemma take_permits_refused r key ts r' e : take_persistence_permits r key ts = (r', inr e) ->
  guards r' = guards r.
Proof.
  unfold take_persistence_permits. destruct (increment_all _ _ _) as [p [e'|]]; [by intros [= <- _]|].
  by destruct (new_guards _ _ _).
Qed.
Lemma take_permits_wf r key ts : registry_wf r -> registry_wf (take_persistence_permits r key ts).1.
Proof. apply (lease_step_wf r (Op_PersistencePermits key ts)). Qed.

Lemma backs_ext f m m' : (forall id g, m !! id = Some g -> guard_kind g = Permit_Command -> m' !! id = Some g) ->
  backs f m -> backs f m'.
Proof. intros E H id. destruct (H id) as [|(g & Hg & Hk & Hr)]; [by left|]. right. exists g. eauto. Qed.
Lemma holds_lookup m key ids ts id : holds m key ids ts -> id ∈ ids ->
  exists t, m !! id = Some (persistence_guard key t).
Proof.
  intros [_ H] Hi. apply list_elem_of_lookup in Hi as [i Hi].
  destruct (Forall2_lookup_l _ _ _ _ _ H Hi) as (t & _ & Ht). eauto.
Qed.
Lemma holds_ext m m' key (ids : list nat) ts : (forall id, id ∈ ids -> m' !! id = m !! id) ->
  holds m key ids ts -> holds m' key ids ts.
Proof.
  intros E [Hd H]. split; [done|]. eapply Forall2_impl_in; [exact H|]. intros id t Hi Hg. by rewrite E.
Qed.

Lemma holds_pending r status o acc log : actor_ok_fields r status o acc log ->
  exists key ts, holds (guards r) key (pending_ids o) ts.
Proof.
  intros H. destruct o as [p|]; [eexists _, _; by apply (ok_held _ _ _ _ _ H)|].
  exists {| key_homeserver := ""; key_user_id := ""; key_device_id := "" |}, []. split; constructor.
Qed.

(** The pending write is dropped. *)
Lemma ok_dropped r status o acc log : actor_ok_fields r status o acc log ->
  actor_ok_fields (foldl drop_permit r (pending_ids o)) status None acc log.
Proof.
  intros H. destruct (holds_pending _ _ _ _ _ H) as (key & ts & Hh). destruct H as [Hr Ho _ Ha Hl Hp Hg].
  pose proof (drop_held _ _ _ _ Hh) as E. split; [by apply drop_permits_wf| |done| |done|done|done].
  - intros id g. rewrite E. intros [H Hi]%map_lookup_filter_Some Hk. by apply (Ho id g) in H.
  - rewrite E. eapply backs_ext; [|exact Ha]. intros id g H Hk. apply map_lookup_filter_Some. split; [done|].
    cbn. intros Hi. destruct (holds_lookup _ _ _ _ _ Hh Hi) as [t Ht]. rewrite Ht in H. by injection H as <-.
Qed.
(** A new write takes its permits, and then the one it replaces is dropped. *)
Lemma ok_replaced r status o acc log key ts r' ids p :
  actor_ok_fields r status o acc log -> take_persistence_permits r key ts = (r', inl ids) ->
  pending_key p = key -> pending_permits p = ids -> v3_targets (pending_drafts p) = ts ->
  last_load key log = Some true ->
  actor_ok_fields (foldl drop_permit r' (pending_ids o)) status (Some p) acc log.
Proof.
  intros H E Ek Ei Et Hk. destruct (holds_pending _ _ _ _ _ H) as (key0 & ts0 & Hh).
  destruct H as [Hr Ho _ Ha Hl Hp Hg]. destruct (take_permits_held _ _ _ _ _ E) as (Hn & Hf & Hs).
  assert (Hdis : forall id, id ∈ pending_ids o -> id ∉ ids).
  { intros id Hi Hi'. destruct (holds_lookup _ _ _ _ _ Hh Hi) as [t Ht]. rewrite Hf in Ht; done. }
  assert (Hh' : holds (guards r') key0 (pending_ids o) ts0).
  { eapply holds_ext; [|exact Hh]. intros id Hi. apply Hs. by apply Hdis. }
  pose proof (drop_held _ _ _ _ Hh') as D. pose proof (take_permits_wf r key ts Hr) as W. rewrite E in W.
  split; [by apply drop_permits_wf|..|done| |done].
  - intros id g. rewrite D. intros [H Hi]%map_lookup_filter_Some Hk'. cbn in Hi |- *. rewrite Ei.
    destruct (decide (id ∈ ids)); [done|]. rewrite Hs in H by done. by apply (Ho id g) in H.
  - intros p' [= <-]. rewrite Ek, Ei, Et, D. eapply holds_ext; [|exact Hn]. intros id Hi.
    destruct (guards r' !! id) as [g|] eqn:Eg.
    + apply map_lookup_filter_Some. split; [done|]. cbn. intros Hi'. by apply (Hdis id).
    + apply map_lookup_filter_None. by left.
  - rewrite D. eapply backs_ext; [|exact Ha]. intros id g H Hk'. apply map_lookup_filter_Some. cbn.
    rewrite Hs by (intros Hi; rewrite Hf in H; done). split; [done|].
    intros Hi. destruct (holds_lookup _ _ _ _ _ Hh Hi) as [t Ht]. rewrite Ht in H. by injection H as <-.
  - intros p' [= <-]. by rewrite Ek.
Qed.
(** A refused batch of permits changes no guard. *)
Lemma ok_refused r status o acc log key ts r' e :
  actor_ok_fields r status o acc log -> take_persistence_permits r key ts = (r', inr e) ->
  actor_ok_fields r' status o acc log.
Proof.
  intros [Hr Ho Hh Ha Hl Hp Hg] E. pose proof (take_permits_wf r key ts Hr) as W. rewrite E in W.
  pose proof (take_permits_refused _ _ _ _ _ E) as G. split; rewrite ?G; done.
Qed.
(** The log grows by a load. *)
Lemma last_load_save key log e : (forall k ok, e <> Event_Load k ok) -> last_load key (log ++ [e]) = last_load key log.
Proof. intros H. rewrite last_load_snoc. destruct e; [by destruct (H key0 ok)|done]. Qed.
End invariant.

(** ** Acceptances *)

Lemma ok_acceptances_dropped r status o acc acc' log ids :
  actor_ok_fields r status o acc log ->
  (forall i, acceptance_refs acc i = acceptance_refs acc' i + length (filter (fun x => x = i) ids))%nat ->
  actor_ok_fields (foldl drop_permit r ids) status o acc' log.
Proof.
  intros [Hr Ho Hh Ha Hl Hp Hg] E. destruct (drop_acceptances ids _ _ r Ha E) as [Hb Hpart].
  split; [by apply drop_permits_wf|..|done|done|done|done].
  - by apply (owned_part (guards r)).
  - intros p Ep. eapply holds_part; [exact Hpart|by apply Hh].
Qed.
Lemma acceptance_refs_insert acc k p i : acc !! k = None ->
  acceptance_refs (<[k := p]> acc) i
  = (acceptance_refs acc i + if decide (acceptance_permit p = i) then 1 else 0)%nat.
Proof.
  intros N. unfold acceptance_refs. case_decide as D.
  - rewrite map_filter_insert_True by done. rewrite map_size_insert_None; [lia|].
    apply map_lookup_filter_None. by left.
  - rewrite map_filter_insert_False, delete_id by done. lia.
Qed.
Lemma acceptance_refs_delete acc k p i : acc !! k = Some p ->
  acceptance_refs acc i
  = (acceptance_refs (delete k acc) i + if decide (acceptance_permit p = i) then 1 else 0)%nat.
Proof.
  intros E. rewrite <-(insert_delete_id acc k p E) at 1.
  by rewrite acceptance_refs_insert by apply lookup_delete_eq.
Qed.
Lemma filter_one (x i : nat) : length (filter (fun y => y = i) [x]) = if decide (x = i) then 1%nat else 0%nat.
Proof. rewrite filter_cons, filter_nil. by case_decide. Qed.
Lemma acceptance_refs_split acc (P : Z * PendingComposerAcceptance -> Prop) `{!forall kv, Decision (P kv)} i :
  acceptance_refs acc i
  = (acceptance_refs (filter (fun kv => ~ P kv) acc) i
     + length (filter (fun x => x = i) ((fun kv => acceptance_permit kv.2) <$> map_to_list (filter P acc))))%nat.
Proof.
  induction acc as [|k p acc N IH] using map_ind; [done|].
  rewrite acceptance_refs_insert by done. destruct (decide (P (k, p))) as [D|D].
  - rewrite (map_filter_insert_False (fun kv => ~ P kv)), delete_id by (done || tauto).
    rewrite (map_filter_insert_True P) by done. rewrite map_to_list_insert.
    2: { apply map_lookup_filter_None. by left. }
    rewrite fmap_cons, filter_cons. cbn [snd]. rewrite IH. case_decide; cbn [length]; lia.
  - rewrite (map_filter_insert_True (fun kv => ~ P kv)) by done.
    rewrite (map_filter_insert_False P), delete_id by done.
    rewrite acceptance_refs_insert; [rewrite IH; lia|]. apply map_lookup_filter_None. by left.
Qed.

Lemma clone_permit_guards r id g : guards r !! id = Some g ->
  guards (clone_permit r id) = <[id := {| guard_scope := guard_scope g; guard_kind := guard_kind g;
                                          references := S (references g) |}]> (guards r).
Proof. intros E. unfold clone_permit. by rewrite E. Qed.

(** Recounting the references of a command guard. *)
Lemma persistence_part_command m id g g' : m !! id = Some g -> guard_kind g = Permit_Command ->
  guard_kind g' = Permit_Command -> persistence_part (<[id := g']> m) = persistence_part m.
Proof.
  intros E K K'. apply map_eq. intros i. apply option_eq. intros x. rewrite !persistence_part_lookup.
  destruct (decide (id = i)) as [<-|D]; [|by rewrite lookup_insert_ne].
  rewrite lookup_insert_eq, E. split; intros [[= <-] ?]; congruence.
Qed.

Section actor.
Context (aead_encrypt : string -> string -> string -> option string).
Context (aead_decrypt : string -> string -> string -> option string).
Context (encode_json : PersistedComposerDraftStoreV3 -> option string).
Context (decode_json : string -> DraftPayload).
Context {Secret : Type} (derive_key : Secret -> string) (magic : string).
Context (outcome : nat -> StoreOutcome Secret).

Abbreviation flush := (flush_pending_composer_drafts aead_encrypt encode_json derive_key magic outcome).
Abbreviation save := (store_save aead_encrypt encode_json derive_key magic outcome).
Abbreviation load := (load_composer_drafts_for_current_session aead_encrypt aead_decrypt encode_json decode_json
                    derive_key magic outcome).
Abbreviation schedule := (schedule_composer_draft_persist aead_encrypt encode_json derive_key magic outcome).
Abbreviation batch := (commit_action_batch aead_encrypt aead_decrypt encode_json decode_json derive_key magic outcome).
Abbreviation step := (actor_step aead_encrypt aead_decrypt encode_json decode_json derive_key magic outcome).
Abbreviation run := (actor_run aead_encrypt aead_decrypt encode_json decode_json derive_key magic outcome).
Implicit Types (a : DraftActor).

Lemma store_save_fields a key p :
  registry (save a key p).1 = registry a /\ load_status (save a key p).1 = load_status a /\
  pending_persist (save a key p).1 = pending_persist a /\
  pending_acceptances (save a key p).1 = pending_acceptances a /\
  store_log (save a key p).1 = store_log a ++ [Event_Save key] /\ state (save a key p).1 = state a.
Proof.
  unfold store_save. destruct (joined _); [|done]. by destruct (save_composer_drafts _ _ _ _ _ _ _ _ _).
Qed.
Lemma flush_ok a : actor_ok a ->
  actor_ok (flush a).1 /\ pending_persist (flush a).1 = None /\ state (flush a).1 = state a /\
  load_status (flush a).1 = load_status a /\ (forall key, last_load key (store_log (flush a).1) = last_load key (store_log a)).
Proof.
  intros H. unfold flush_pending_composer_drafts. destruct (pending_persist a) as [p|] eqn:E; [|done].
  pose proof (store_save_fields (a <| pending_persist := None |>) (pending_key p) (pending_drafts p)) as F.
  destruct (save _ _ _) as [a' ok]. cbn [fst] in F |- *. cbn in F. destruct F as (Fr & Fl & Fp & Fa & Fg & Fs).
  split_and!; [|exact Fp|exact Fs|exact Fl|].
  - unfold actor_ok. cbn. rewrite Fr, Fl, Fp, Fa, Fg. unfold actor_ok in H. rewrite E in H.
    pose proof (ok_pending _ _ _ _ _ H p eq_refl) as Hk. pose proof (ok_log _ _ _ _ _ H) as Hlog.
    apply ok_dropped in H. cbn in H. destruct H as [Hr Ho Hh Ha Hl Hp Hg]. split; try done.
    + intros key Hkey. rewrite last_load_snoc. by apply Hl.
    + by apply saves_follow_loads_snoc.
  - intros key. change (last_load key (store_log a') = last_load key (store_log a)).
    by rewrite Fg, last_load_snoc.
Qed.

Lemma load_ok a : actor_ok a -> actor_ok (load a).
Proof.
  intros H. unfold load_composer_drafts_for_current_session.
  destruct (composer_draft_session_key (state a)) as [key|].
  2: { destruct H as [Hr Ho Hh Ha Hl Hp Hg]. by split. }
  destruct (_ && _); [done|]. destruct (flush_ok a H) as (H1 & E1 & _). set (a1 := (flush a).1) in *.
  unfold store_load. cbv zeta. set (result := if joined _ then _ else _).
  unfold actor_ok in H1. rewrite E1 in H1. destruct H1 as [Hr Ho Hh Ha Hl Hp Hg].
  destruct result as [drafts|]; unfold actor_ok; cbn; rewrite E1; (split; try done).
  - intros k [= <-]. rewrite last_load_snoc. by rewrite bool_decide_eq_true_2.
  - by apply saves_follow_loads_snoc.
  - by apply saves_follow_loads_snoc.
Qed.

Lemma drop_pending_fields a :
  registry (drop_pending a) = foldl drop_permit (registry a) (pending_ids (pending_persist a)) /\
  load_status (drop_pending a) = load_status a /\ pending_persist (drop_pending a) = None /\
  pending_acceptances (drop_pending a) = pending_acceptances a /\ store_log (drop_pending a) = store_log a.
Proof. unfold drop_pending. destruct (pending_persist a) eqn:E; cbn; [done|]. by rewrite E. Qed.
Lemma drop_pending_ok a : actor_ok a -> actor_ok (drop_pending a).
Proof.
  intros H. destruct (drop_pending_fields a) as (-> & -> & -> & -> & ->)
    || (unfold actor_ok; destruct (drop_pending_fields a) as (E1 & E2 & E3 & E4 & E5); rewrite E1, E2, E3, E4, E5;
        by apply ok_dropped).
Qed.

Lemma schedule_ok a key drafts : actor_ok a -> actor_ok (schedule a key drafts).
Proof.
  intros H. unfold schedule_composer_draft_persist.
  destruct (is_loaded (load_status a) key) eqn:El; cbn [negb]; [|done].
  apply bool_decide_eq_true in El. pose proof (ok_loaded _ _ _ _ _ H key El) as Hk.
  cbv zeta. set (a1 := match pending_persist a with Some _ => _ | None => _ end).
  assert (H1 : actor_ok a1 /\ last_load key (store_log a1) = Some true).
  { subst a1. destruct (pending_persist a) as [p|]; [|done]. case_bool_decide; [done|].
    destruct (flush_ok a H) as (? & _ & _ & _ & E). by rewrite E. }
  clearbody a1. destruct H1 as [H1 Hk1]. clear H Hk El.
  destruct (persisted_payload _ _) as [payload|]; [|done].
  destruct (take_persistence_permits _ _ _) as [r [ids|e]] eqn:E.
  - match goal with |- actor_ok ((drop_pending ?x) <| pending_persist := Some ?p |>) =>
      set (a2 := x); set (w := p) end.
    destruct (drop_pending_fields a2) as (E1 & E2 & E3 & E4 & E5).
    change (actor_ok_fields (registry (drop_pending a2)) (load_status (drop_pending a2)) (Some w)
              (pending_acceptances (drop_pending a2)) (store_log (drop_pending a2))).
    rewrite E1, E2, E4, E5. subst a2. by eapply ok_replaced.
  - unfold actor_ok. cbn. by eapply ok_refused.
Qed.
Lemma reconcile_ok p a : actor_ok a -> actor_ok (reconcile_with p a).
Proof. done. Qed.
Lemma reduce_state_ok a action elsewhere : actor_ok a -> actor_ok (reduce_app_action_state a action elsewhere).1.
Proof.
  intros H. unfold reduce_app_action_state. cbv zeta. cbn [fst].
  repeat match goal with |- context [if ?b then _ else _] => destruct b end;
    try apply reconcile_ok; try apply drop_pending_ok; exact H.
Qed.
Lemma deferred_ok a d : actor_ok a ->
  actor_ok (apply_deferred_reducer_side_effects aead_encrypt encode_json derive_key magic outcome a d).
Proof.
  intros H. unfold apply_deferred_reducer_side_effects.
  destruct (composer_drafts_deferred d) as [[key drafts]|]; [by apply schedule_ok|done].
Qed.
Lemma settle_ok a identity : actor_ok a -> actor_ok (settle_acceptances a identity).
Proof.
  intros H. unfold actor_ok, settle_acceptances. cbn. eapply ok_acceptances_dropped; [exact H|]. intros i.
  apply (acceptance_refs_split (pending_acceptances a) (fun kv => acceptance_identity kv.2 = identity)).
Qed.
Lemma batch_ok a steps : actor_ok a -> actor_ok (batch a steps).
Proof.
  intros H. unfold commit_action_batch.
  assert (H1 : forall aw, actor_ok aw.1 ->
    actor_ok (foldl (batch_action aead_encrypt aead_decrypt encode_json decode_json derive_key magic outcome) aw steps).1).
  { induction steps as [|[action e] steps IH]; intros [a' work] Ha; [done|]. cbn [foldl]. apply IH.
    unfold batch_action. cbv zeta beta iota. set (a1 := if existsb _ _ then _ else _).
    assert (Ha1 : actor_ok a1) by (subst a1; destruct (existsb _ _); [done|by apply load_ok]).
    pose proof (reduce_state_ok a1 action e Ha1) as Ha2. cbn [fst snd].
    by destruct (reduce_app_action_state a1 action e). }
  specialize (H1 (a, []) H). destruct (foldl (batch_action _ _ _ _ _ _ _) (a, []) steps) as [a' work]. cbn [fst] in H1. apply load_ok.
  revert a' H1. induction work as [|[d acc] work IH]; intros a' H1; [done|]. cbn [foldl]. apply IH.
  unfold batch_effect. cbn [fst snd]. destruct acc as [identity|]; [apply settle_ok|]; by apply deferred_ok.
Qed.
Lemma forward_ok a request identity permit : actor_ok a -> is_command_guard (registry a) permit = true ->
  actor_ok (forward_composer_draft_permit a request identity permit).
Proof.
  intros H Hc. unfold is_command_guard in Hc. destruct (guards (registry a) !! permit) as [g|] eqn:Eg; [|done].
  apply bool_decide_eq_true in Hc. unfold forward_composer_draft_permit. cbv zeta.
  change (pending_acceptances (a <| registry ::= fun r => clone_permit r permit |>))
    with (pending_acceptances a).
  pose proof (clone_permit_guards (registry a) permit g Eg) as Eclone.
  pose proof (persistence_part_command (guards (registry a)) permit g
    {| guard_scope := guard_scope g; guard_kind := guard_kind g; references := S (references g) |} Eg Hc Hc) as Epart.
  set (p := {| acceptance_identity := identity; acceptance_permit := permit |}).
  destruct H as [Hr Ho Hh Ha Hl Hp Hg].
  (* with the replaced acceptance still counted *)
  assert (Hb : backs (fun i => acceptance_refs (pending_acceptances a) i + if decide (permit = i) then 1 else 0)%nat
                 (guards (clone_permit (registry a) permit))).
  { intros i. rewrite Eclone. destruct (decide (permit = i)) as [<-|D].
    - right. eexists. rewrite lookup_insert_eq. split; [done|]. cbn. split; [done|].
      destruct (Ha permit) as [->|(g' & Hg' & _ & Hle)]; [lia|]. rewrite Eg in Hg'. injection Hg' as <-. lia.
    - destruct (Ha i) as [E|(g' & Hg' & Hk' & Hle)]; [left; lia|right]. exists g'.
      rewrite lookup_insert_ne by done. split_and!; [done|done|lia]. }
  assert (W : registry_wf (clone_permit (registry a) permit)) by exact (lease_step_wf _ (Op_Clone permit) Hr).
  assert (P : persistence_part (guards (clone_permit (registry a) permit)) = persistence_part (guards (registry a)))
    by by rewrite Eclone.
  assert (Hown := owned_part _ _ (pending_ids (pending_persist a)) P Ho).
  destruct (pending_acceptances a !! request) as [q|] eqn:Eq; unfold actor_ok; cbn.
  - assert (N : delete request (pending_acceptances a) !! request = None) by apply lookup_delete_eq.
    destruct (drop_acceptances [acceptance_permit q] _ (acceptance_refs (<[request := p]> (pending_acceptances a)))
                (clone_permit (registry a) permit) Hb) as [Hb' P'].
    { intros i. rewrite filter_one, <-insert_delete_eq, acceptance_refs_insert by done.
      rewrite (acceptance_refs_delete _ _ _ i Eq). cbn [acceptance_permit p]. lia. }
    cbn [foldl] in Hb', P'.
    split; [exact (lease_step_wf _ (Op_Drop (acceptance_permit q)) W)|..|done|done|done|done].
    + by apply (owned_part _ _ _ P').
    + intros w Ew. eapply holds_part; [exact P'|]. eapply holds_part; [exact P|by apply Hh].
  - split; [done|exact Hown|..|done|done|done].
    + intros w Ew. eapply holds_part; [exact P|by apply Hh].
    + intros i. rewrite acceptance_refs_insert by done. apply Hb.
Qed.
Lemma remove_acceptance_ok a request : actor_ok a -> actor_ok (remove_acceptance a request).
Proof.
  intros H. unfold remove_acceptance. destruct (pending_acceptances a !! request) as [q|] eqn:E; [|done].
  unfold actor_ok. cbn. apply (ok_acceptances_dropped _ _ _ _ _ _ [acceptance_permit q] H). intros i.
  by rewrite filter_one, (acceptance_refs_delete _ _ _ i E).
Qed.

(** What the others do to the registry. *)
Lemma others_ok a op : actor_ok a -> others_may a op = true ->
  actor_ok (a <| registry ::= fun r => lease_step r op |>).
Proof.
  intros H Hm. assert (W := lease_step_wf _ op (ok_registry _ _ _ _ _ H)).
  assert (K : forall r', guards r' = guards (registry a) -> registry_wf r' ->
    actor_ok (a <| registry := r' |>)).
  { intros r' E Wr. destruct H as [Hr Ho Hh Ha Hl Hp Hg].
    unfold actor_ok. cbn. split; rewrite ?E; done. }
  assert (C : forall id g g', guards (registry a) !! id = Some g -> guard_kind g = Permit_Command ->
    guard_kind g' = Permit_Command -> (acceptance_refs (pending_acceptances a) id <= references g')%nat ->
    forall r', guards r' = <[id := g']> (guards (registry a)) -> registry_wf r' ->
    actor_ok (a <| registry := r' |>)).
  { intros id g g' Eg Kg Kg' Hle r' E Wr. destruct H as [Hr Ho Hh Ha Hl Hp Hg].
    pose proof (persistence_part_command _ id g g' Eg Kg Kg') as P.
    split; [done|..|done|done|done]; cbn; rewrite ?E.
    - by apply (owned_part _ _ _ P).
    - intros w Ew. eapply holds_part; [exact P|by apply Hh].
    - intros i. destruct (decide (id = i)) as [<-|D]; [right; exists g'; by rewrite lookup_insert_eq|].
      rewrite lookup_insert_ne by done. apply Ha. }
  change (actor_ok (a <| registry := lease_step (registry a) op |>)).
  destruct op as [|g s|g id s|g id|g| |k ts|id|id]; cbn [others_may] in Hm; try done.
  - apply K; [|done]. cbn. unfold begin_renderer_generation. by destruct (u64_checked_add _ _).
  - apply K; [|done]. cbn. unfold acquire. case_bool_decide; cbn; [|done]. by destruct (u64_checked_add _ _).
  - revert W. cbn [lease_step]. unfold try_command_permit. case_bool_decide; cbn [negb]; [|intros; by apply K].
    destruct (lease_records (registry a) !! id) as [l|]; [|intros; by apply K].
    destruct (_ || _); [intros; by apply K|]. destruct (increment_permit _ _) as [q|]; [|intros; by apply K].
    unfold new_guard. cbv zeta beta iota. cbn [fst]. intros W. set (i := fresh _) in *.
    assert (N : guards (registry a) !! i = None) by apply fresh_guard.
    destruct H as [Hr Ho Hh Ha Hl Hp Hg]. unfold actor_ok. cbn.
    split; [exact W|..|done|done|done]; cbn.
    + intros j g'. rewrite lookup_insert_Some. intros [[_ <-]|[_ Hj]]; [done|by apply Ho].
    + intros w Ew. eapply holds_ext; [|by apply Hh]. intros j Hj. cbn. rewrite lookup_insert_ne; [done|].
      intros <-. destruct (holds_lookup _ _ _ _ _ (Hh w Ew) Hj) as [t Ht]. congruence.
    + eapply backs_ext; [|exact Ha]. intros j g' Hj _. rewrite lookup_insert_ne; [done|]. intros <-. congruence.
  - apply K; [|done]. cbn. unfold release. destruct (lease_records _ !! id); [|done]. by destruct (negb _).
  - apply K; [|done]. cbn. unfold revoke_generation. by case_bool_decide.
  - apply K; [|done]. cbn. unfold revoke_live_generation. by destruct (live_generation _).
  - unfold is_command_guard in Hm. destruct (guards (registry a) !! id) as [g|] eqn:Eg; [|done].
    apply bool_decide_eq_true in Hm. eapply (C id g); [done|done| | |by apply clone_permit_guards|exact W]; [done|].
    destruct (ok_acceptances _ _ _ _ _ H id) as [->|(g' & Hg' & _ & Hle)]; cbn; [lia|].
    rewrite Eg in Hg'. injection Hg' as <-. lia.
  - apply andb_true_iff in Hm as [Hc Hm]. unfold is_command_guard in Hc.
    destruct (guards (registry a) !! id) as [g|] eqn:Eg; [|done].
    apply bool_decide_eq_true in Hc. apply Nat.ltb_lt in Hm.
    pose proof (drop_permit_guards (registry a) id) as D. rewrite Eg in D.
    destruct (references g) as [|[|n]] eqn:En; [lia| |].
    + (* the last reference, and no acceptance has it *)
      destruct H as [Hr Ho Hh Ha Hl Hp Hg]. unfold actor_ok. cbn.
      split; [exact W|..|done|done|done]; cbn [lease_step] in *; rewrite ?D.
      * intros j g'. rewrite lookup_delete_Some. intros [_ Hj]. by apply Ho.
      * intros w Ew. eapply holds_ext; [|by apply Hh]. intros j Hj. rewrite lookup_delete_ne; [done|].
        intros <-. destruct (holds_lookup _ _ _ _ _ (Hh w Ew) Hj) as [t Ht]. rewrite Eg in Ht.
        by injection Ht as ->.
      * intros j. destruct (decide (id = j)) as [<-|]; [left; lia|]. rewrite lookup_delete_ne by done. apply Ha.
    + eapply (C id g); [done|done| | |exact D|exact W]; [done|]. cbn. lia.
Qed.

Lemma step_ok a s : actor_ok a -> actor_ok (step a s).
Proof.
  intros H. destruct s as [ms| | |request|request identity permit|action e|steps|op|]; cbn [actor_step].
  - exact H.
  - destruct (composer_draft_persist_delay a) as [[| |]|]; [by apply flush_ok|done|done|done].
  - destruct (_ =? _)%nat; [done|]. unfold reconcile_composer_draft_lifecycle_after_permit_change. cbv zeta.
    match goal with |- context [reconcile_composer_draft_lifecycle_with_active ?t ?x] =>
      assert (H1 : actor_ok (reconcile_composer_draft_lifecycle_with_active t x)) by exact H;
      set (a1 := reconcile_composer_draft_lifecycle_with_active t x) in * end.
    clearbody a1. case_bool_decide; [done|].
    destruct (composer_draft_session_key (state a1)); [by apply schedule_ok|done].
  - by apply remove_acceptance_ok.
  - destruct (is_command_guard _ _) eqn:E; [by apply forward_ok|done].
  - unfold reduce_app_action. pose proof (reduce_state_ok a action e H) as H1.
    destruct (reduce_app_action_state a action e) as [a1 d]. by apply deferred_ok.
  - by apply batch_ok.
  - destruct (others_may a op) eqn:E; [by apply others_ok|done].
  - by apply flush_ok.
Qed.
Lemma run_ok steps : forall a, actor_ok a -> actor_ok (run a steps).
Proof. induction steps as [|s steps IH]; intros a H; [done|]. apply IH, step_ok, H. Qed.
Lemma new_ok files : actor_ok (DraftActor_new files).
Proof.
  split; cbn; try done; [apply registry_new_wf|]. intros id. left. done.
Qed.

(** C26: Drafts are saved only over a file that was read.  In the order in which the store is asked,
    every save of an account's drafts follows a load of that account that succeeded, with no
    failed load of it in between: while an account's file cannot be read or decrypted, the actor
    never writes it, whatever the user types, however sessions are locked, switched or resumed,
    and whichever store calls fail. *)
Theorem unread_drafts_are_never_overwritten (files : gmap SessionKeyId FileRead) (steps : list ActorStep) :
  let log := store_log (run (DraftActor_new files) steps) in
  forall i key, log !! i = Some (Event_Save key) -> last_load key (take i log) = Some true.
Proof. apply (ok_log _ _ _ _ _ (run_ok steps _ (new_ok files))). Qed.

(** C25: Permits are held exactly as long as there is work behind them.  In every run a persistence
    guard exists exactly for each target of the write that is pending - none is leaked by a
    replaced, flushed, failed or discarded write, and none is dropped early -, and a command that
    was forwarded and not yet accepted or rejected keeps its target protected against eviction. *)
Theorem permits_follow_the_work (files : gmap SessionKeyId FileRead) (steps : list ActorStep) :
  let a := run (DraftActor_new files) steps in
  (forall s, guard_outside Permit_Persistence (registry a) ∅ s <->
     exists p, pending_persist a = Some p /\ scope_account s = pending_key p /\
       scope_target s ∈ v3_targets (pending_drafts p)) /\
  (forall request p, pending_acceptances a !! request = Some p ->
     exists g, guards (registry a) !! acceptance_permit p = Some g /\ guard_kind g = Permit_Command /\
       scope_target (guard_scope g) ∈ touch_protected_targets (registry a) (scope_account (guard_scope g))).
Proof.
  intros a. assert (H : actor_ok a) by apply run_ok, new_ok. clearbody a. split.
  - intros s. split.
    + intros (id & g & Hg & Hk & <- & _). pose proof (ok_owned _ _ _ _ _ H id g Hg Hk) as Hi.
      destruct (pending_persist a) as [p|] eqn:Ep; [|by apply not_elem_of_nil in Hi]. exists p.
      pose proof (ok_held _ _ _ _ _ H p Ep) as [_ Hf]. apply list_elem_of_lookup in Hi as [i Hi].
      destruct (Forall2_lookup_l _ _ _ _ _ Hf Hi) as (t & Ht & E). rewrite Hg in E. injection E as ->.
      split_and!; [done|done|]. by eapply list_elem_of_lookup_2.
    + intros (p & Ep & E1 & [i Ht]%list_elem_of_lookup).
      pose proof (ok_held _ _ _ _ _ H p Ep) as [_ Hf].
      destruct (Forall2_lookup_r _ _ _ _ _ Hf Ht) as (id & Hi & Hg). exists id, (persistence_guard (pending_key p) (scope_target s)).
      split_and!; [done|done| |set_solver]. cbn. destruct s; cbn in *; by subst.
  - intros request p Hp. pose proof (acceptance_refs_delete _ _ _ (acceptance_permit p) Hp) as E.
    rewrite decide_True in E by done.
    destruct (ok_acceptances _ _ _ _ _ H (acceptance_permit p)) as [|(g & Hg & Hk & _)]; [lia|].
    exists g. split_and!; [done|done|]. apply touch_spec; [apply H|]. right.
    exists (acceptance_permit p), g. split_and!; [done|done|by destruct (guard_scope g)|set_solver].
Qed.

(** ** A restart *)

Lemma NoDup_v3_targets p : NoDup (v3_targets p).
Proof.
  unfold v3_targets. apply NoDup_app. split_and!.
  - apply NoDup_fmap_2; [by intros ?? [= ->]|apply btree_iter_NoDup].
  - intros t (r & -> & _)%list_elem_of_fmap (k & E & _)%list_elem_of_fmap. done.
  - apply NoDup_fmap_2; [|apply NoDup_nested_keys]. intros [] [] [= -> ->]. done.
Qed.
Lemma increment_all_ok scopes : forall p done,
  (forall s, s ∈ scopes -> (default 0 (p !! s) + Z.of_nat (occurrences s scopes) <= USIZE_MAX)%Z) ->
  exists p', increment_all p done scopes = (p', None).
Proof.
  induction scopes as [|s scopes IH]; intros p done H; [by eexists|]. cbn [increment_all].
  unfold increment_permit. pose proof (H s ltac:(left)) as Hs. rewrite occurrences_cons, decide_True in Hs by done.
  rewrite (proj2 (Z.ltb_lt _ _)) by lia. apply IH. intros x Hx. pose proof (H x ltac:(by right)) as Hx'.
  rewrite occurrences_cons in Hx'. rewrite lookup_insert. case_decide as D; cbn [from_option] in *; [subst|];
    unfold default in *; cbn [from_option Datatypes.id] in *; lia.
Qed.
Lemma one_guard a s : actor_ok a -> (guard_count Permit_Persistence (registry a) s <= 1)%nat.
Proof.
  intros H. unfold guard_count.
  destruct (map_choose_or_empty (guards_of Permit_Persistence s (guards (registry a))))
    as [(id & g & Hg)| ->]; [|by rewrite map_size_empty; lia].
  replace (guards_of _ _ _) with ({[id := g]} : gmap nat PermitGuard); [by rewrite map_size_singleton|].
  apply map_lookup_filter_Some in Hg as Hg'. destruct Hg' as [Eg [Es Ek]]. cbn in Es, Ek.
  pose proof (ok_owned _ _ _ _ _ H id g Eg Ek) as Hi.
  destruct (pending_persist a) as [p|] eqn:Ep; [|by apply not_elem_of_nil in Hi]. cbn in Hi.
  destruct (ok_held _ _ _ _ _ H p Ep) as [_ Hf].
  assert (Hat : forall j x, guards (registry a) !! j = Some x -> guard_scope x = s -> j ∈ pending_permits p ->
    exists n, pending_permits p !! n = Some j /\ v3_targets (pending_drafts p) !! n = Some (scope_target s)).
  { intros j x Ej Ex [n Hn]%list_elem_of_lookup. exists n. split; [done|].
    destruct (Forall2_lookup_l _ _ _ _ _ Hf Hn) as (t & Ht & E). rewrite Ej in E. injection E as ->.
    by rewrite <-Ex. }
  destruct (Hat id g Eg Es Hi) as (n & Hn & Hnt).
  symmetry. apply map_eq. intros j. destruct (decide (id = j)) as [<-|D]; [by rewrite lookup_singleton_eq|].
  rewrite lookup_singleton_ne by done. apply eq_None_not_Some. intros [x Hx].
  apply map_lookup_filter_Some in Hx as [Ex [Exs Exk]]. cbn in Exs, Exk.
  pose proof (ok_owned _ _ _ _ _ H j x Ex Exk) as Hj. rewrite Ep in Hj.
  destruct (Hat j x Ex Exs Hj) as (m & Hm & Hmt).
  pose proof (NoDup_lookup _ _ _ _ (NoDup_v3_targets (pending_drafts p)) Hnt Hmt) as ->. congruence.
Qed.
(** The actor holds one persistence permit of a target at most, so the batch never overflows. *)
Lemma permits_never_exhausted a key p : actor_ok a ->
  exists r ids, take_persistence_permits (registry a) key (v3_targets p) = (r, inl ids).
Proof.
  intros H. unfold take_persistence_permits.
  set (scopes := (fun t => {| scope_account := key; scope_target := t |}) <$> v3_targets p).
  destruct (increment_all_ok scopes (persistence_permits (registry a)) []) as [p' ->].
  - intros s Hs.
    assert (Hocc : (occurrences s scopes <= 1)%nat).
    { assert (NoDup scopes) as Hd by (apply NoDup_fmap_2; [by intros ?? [= ->]|apply NoDup_v3_targets]).
      unfold occurrences. clear -Hd. induction Hd as [|x l Hx Hd IH]; [cbn; lia|]. rewrite filter_cons.
      case_decide; [|exact IH]. subst. cbn [length]. destruct (filter (fun y => y = s) l) as [|y l'] eqn:E; [done|].
      exfalso. assert (y ∈ filter (fun y => y = s) l) as [-> ?]%list_elem_of_filter by (rewrite E; left). done. }
    destruct (wf_permits _ (ok_registry _ _ _ _ _ H) Permit_Persistence s) as [E _]. cbn in E. rewrite E, tally_default.
    assert (Hc : (guard_count Permit_Persistence (registry a) s <= 1)%nat); [|unfold USIZE_MAX, U64_MAX; lia].
    by apply one_guard.
  - destruct (new_guards _ _ _) as [r ids]. by eexists _, _.
Qed.

Lemma schedule_state a key drafts : state (schedule a key drafts) = state a.
Proof.
  unfold schedule_composer_draft_persist. destruct (negb _); [done|]. cbv zeta.
  set (a1 := match pending_persist a with Some _ => _ | None => _ end).
  assert (E : state a1 = state a).
  { subst a1. destruct (pending_persist a) as [p|] eqn:Ep; [|done]. case_bool_decide; [done|].
    unfold flush_pending_composer_drafts. rewrite Ep.
    pose proof (store_save_fields (a <| pending_persist := None |>) (pending_key p) (pending_drafts p)) as F.
    destruct (save _ _ _) as [a' ok]. cbn in *. by destruct F as (_ & _ & _ & _ & _ & ->). }
  clearbody a1. rewrite <-E. destruct (persisted_payload _ _) as [payload|]; [|done].
  destruct (take_persistence_permits _ _ _) as [r [ids|e]]; [|done].
  cbn. unfold drop_pending. cbn. by destruct (pending_persist a1).
Qed.

(** Scheduling drafts that can be saved leaves their payload pending. *)
Lemma schedule_pending a key drafts : actor_ok a -> load_status a = Load_Loaded key -> store_wf drafts ->
  (forall t d, slot_content (slot drafts t) = Some d -> storable d) ->
  (forall t, (0 <= revision_of (slot drafts t))%Z) ->
  exists protection payload ids time,
    persisted_payload drafts protection = Some payload /\
    pending_persist (schedule a key drafts) = Some
      {| pending_key := key; pending_drafts := payload; pending_permits := ids; deadline := time |} /\
    state (schedule a key drafts) = state a /\ load_status (schedule a key drafts) = load_status a.
Proof.
  intros H Hl Hw Hst Hr. unfold schedule_composer_draft_persist, is_loaded.
  rewrite (bool_decide_eq_true_2 _ Hl). cbn [negb]. cbv zeta.
  set (a1 := match pending_persist a with Some _ => _ | None => _ end).
  assert (H1 : actor_ok a1 /\ state a1 = state a /\ load_status a1 = load_status a).
  { subst a1. destruct (pending_persist a) as [p|]; [|done]. case_bool_decide; [done|].
    by destruct (flush_ok a H) as (? & _ & ? & ? & _). }
  clearbody a1. destruct H1 as (H1 & Es & El).
  match goal with |- context [persisted_payload drafts ?x] => set (protection := x) end.
  destruct (projection_imports drafts protection Hw Hst Hr) as (p & _ & Ep & _).
  assert (E : persisted_payload drafts protection = Some (v3_of_projection p))
    by (unfold persisted_payload; by rewrite Ep).
  rewrite E. destruct (permits_never_exhausted a1 key (v3_of_projection p) H1) as (r & ids & ->).
  exists protection, (v3_of_projection p), ids. eexists. split; [done|].
  match goal with |- context [drop_pending ?x] => set (a2 := x) end.
  destruct (drop_pending_fields a2) as (_ & E2 & _ & _ & _). split; [done|].
  change (state (drop_pending a2) = state a /\ load_status (drop_pending a2) = load_status a).
  rewrite E2. unfold drop_pending. by destruct (pending_persist a2).
Qed.
Lemma reduce_state_status a action e :
  load_status (reduce_app_action_state a action e).1 = load_status a.
Proof.
  unfold reduce_app_action_state. cbv zeta. cbn [fst].
  assert (D : forall x, load_status (drop_pending x) = load_status x) by (intros x; apply drop_pending_fields).
  assert (R : forall t x, load_status (reconcile_composer_draft_lifecycle_with_active t x) = load_status x) by done.
  repeat match goal with |- context [if ?b then _ else _] => destruct b end; by rewrite ?R, ?D.
Qed.

Lemma loaded_drafts p d : is_session_ready p = true ->
  composer_drafts (pane_step p (Step_Action (ComposerDraftsLoaded d))).1 = d.
Proof.
  intros H. cbn. unfold reduce_panes. cbn [reduce_pane_action]. unfold handle_composer_drafts_loaded.
  rewrite H. cbn [negb].
  assert (M : forall q, composer_drafts (sync_assistant_draft_markers q) = composer_drafts q).
  { intros q. unfold sync_assistant_draft_markers. cbn. by destruct (thread q). }
  repeat case_match; simplify_eq; cbn [fst]; by rewrite M.
Qed.

(** An action that changes the drafts of a loaded account leaves them pending. *)
Lemma command_pending a action e key : actor_ok a ->
  composer_draft_transition_policy action = Policy_Normal ->
  composer_draft_session_key (state a) = Some key -> load_status a = Load_Loaded key ->
  let a1 := step a (Step_Command action e) in
  let drafts := drafts_of (state a1) in
  composer_draft_session_key (state a1) = Some key -> drafts_of (state a) <> drafts ->
  store_wf drafts -> (forall t d, slot_content (slot drafts t) = Some d -> storable d) ->
  (forall t, (0 <= revision_of (slot drafts t))%Z) ->
  exists protection payload ids time, persisted_payload drafts protection = Some payload /\
    pending_persist a1 = Some
      {| pending_key := key; pending_drafts := payload; pending_permits := ids; deadline := time |}.
Proof.
  intros H Hpol Hkey Hl. cbn [actor_step]. unfold reduce_app_action.
  pose proof (reduce_state_ok a action e H) as H1. pose proof (reduce_state_status a action e) as L1.
  assert (D : composer_drafts_deferred (reduce_app_action_state a action e).2
    = deferred_composer_drafts (composer_draft_transition_policy action) (composer_draft_session_key (state a))
        (composer_draft_session_key (state (reduce_app_action_state a action e).1))
        (drafts_of (state a)) (drafts_of (state (reduce_app_action_state a action e).1))) by done.
  destruct (reduce_app_action_state a action e) as [b d]. cbn [fst snd] in *.
  assert (S1 : state (apply_deferred_reducer_side_effects aead_encrypt encode_json derive_key magic outcome b d)
               = state b).
  { unfold apply_deferred_reducer_side_effects. destruct (composer_drafts_deferred d) as [[k dr]|]; [|done].
    by apply schedule_state. }
  cbv zeta. rewrite S1. intros Hkey1 Hne Hw Hst Hr.
  unfold apply_deferred_reducer_side_effects. rewrite D, Hpol, Hkey, Hkey1. unfold deferred_composer_drafts.
  rewrite (bool_decide_eq_false_2 _ Hne), (bool_decide_eq_true_2 _ eq_refl). cbn [fmap option_fmap option_map].
  destruct (schedule_pending b key (drafts_of (state b)) H1) as (pr & pl & ids & time & Ep & Epend & _);
    [congruence|done|done|done|]. by exists pr, pl, ids, time.
Qed.
(** The flush writes the file of the pending write's account. *)
Lemma flush_file a p : pending_persist a = Some p -> (flush a).2 = true ->
  exists file, files (flush a).1 !! pending_key p = Some file /\
    save_composer_drafts aead_encrypt encode_json derive_key magic (file_of a (pending_key p))
      (secret (outcome (store_calls a))) (pending_drafts p) (nonce (outcome (store_calls a)))
      (writable (outcome (store_calls a))) = (file, None).
Proof.
  intros Ep. unfold flush_pending_composer_drafts. rewrite Ep. unfold store_save. cbv zeta.
  cbn [store_calls]. change (store_calls (a <| pending_persist := None |>)) with (store_calls a).
  destruct (joined _); [|done].
  change (file_of _ (pending_key p)) with (file_of a (pending_key p)).
  destruct (save_composer_drafts _ _ _ _ _ _ _ _ _) as [file [e|]] eqn:E; cbn; [done|]. intros _.
  exists file. by rewrite lookup_insert_eq.
Qed.
End actor.

Section restart.
Context (aead_encrypt : string -> string -> string -> option string).
Context (aead_decrypt : string -> string -> string -> option string).
Context (encode_json : PersistedComposerDraftStoreV3 -> option string).
Context (decode_json : string -> DraftPayload).
Context {Secret : Type} (derive_key : Secret -> string) (magic : string).
(** The store calls before and after the restart. *)
Context (outcome outcome' : nat -> StoreOutcome Secret).
Context (Htag : forall k n p c, aead_encrypt k n p = Some c -> String.length c = (String.length p + TAG_LEN)%nat).
Context (Hcipher : forall k n p c, aead_encrypt k n p = Some c -> aead_decrypt k n c = Some p).
Context (Hjson : forall p b, encode_json p = Some b -> decode_json b = Payload_V3 p).

Abbreviation run := (actor_run aead_encrypt aead_decrypt encode_json decode_json derive_key magic outcome).
Abbreviation run' := (actor_run aead_encrypt aead_decrypt encode_json decode_json derive_key magic outcome').

Lemma save_writable file unlock p n w file' :
  save_composer_drafts aead_encrypt encode_json derive_key magic file (Some unlock) p n w = (file', None) -> w = true.
Proof.
  unfold save_composer_drafts. destruct w; [done|]. destruct (v3_is_empty p); [done|].
  by destruct (encrypt_composer_drafts_payload _ _ _ _ _ _ _).
Qed.

(** The start of a session whose file loads. *)
Lemma first_load disk info room_list file drafts :
  disk !! session_key_id_from_info info = Some file ->
  joined (outcome' 0) = true -> readable (outcome' 0) = true ->
  load_composer_drafts aead_decrypt decode_json derive_key magic file (secret (outcome' 0)) = inl drafts ->
  let a := run' (DraftActor_new disk) [Step_Batch [(App_Panes (Step_Ready info room_list), false)]] in
  load_status a = Load_Loaded (session_key_id_from_info info) /\ drafts_of (state a) = drafts.
Proof.
  intros Hf Hj Hr Hload. cbn [actor_run foldl actor_step]. unfold commit_action_batch.
  set (s0 := state (DraftActor_new disk)).
  set (a1 := (DraftActor_new disk)
     <| state := reduce_app s0 (App_Panes (Step_Ready info room_list)) |> <| reload_required := true |>).
  assert (E : foldl (batch_action aead_encrypt aead_decrypt encode_json decode_json derive_key magic outcome')
                (DraftActor_new disk, []) [(App_Panes (Step_Ready info room_list), false)]
              = (a1, [({| composer_drafts_deferred := None; composer_drafts_discarded := false |}, None)]))
    by reflexivity.
  rewrite E. cbv beta iota. cbn [foldl batch_effect fst snd apply_deferred_reducer_side_effects composer_drafts_deferred].
  unfold load_composer_drafts_for_current_session.
  change (composer_draft_session_key (state a1)) with (Some (session_key_id_from_info info)). cbv iota beta.
  change (is_settled (load_status a1) _ && negb (reload_required a1)) with false. cbv iota.
  change (flush_pending_composer_drafts aead_encrypt encode_json derive_key magic outcome' a1) with (a1, true).
  cbn [fst]. cbv zeta. unfold store_load. change (store_calls a1) with 0%nat. cbv zeta.
  assert (F : file_of a1 (session_key_id_from_info info) = file).
  { unfold file_of. change (files a1) with disk. by rewrite Hf. }
  rewrite Hj, Hr, F, Hload. split; [done|].
  change (composer_drafts (pane_step (panes (state a1)) (Step_Action (ComposerDraftsLoaded drafts))).1 = drafts).
  by apply loaded_drafts.
Qed.

(** C27: A draft the user edits survives a restart, when the drafts can be stored.  When an action
    changes the drafts of a loaded account, a write of them is pending; once the store reports that
    write done - at the deadline 150 ms later, or when the application shuts down - a newly started
    application that opens the account's session loads drafts in which every draft is there with its
    revision, its accepted-clear revision and its marker (the text cut at 16 KiB), and an emptied
    target with the same revisions or not at all.  What this takes: the action leaves its drafts to
    the next write ([Policy_Normal]; the others belong to a session that ends); the store of drafts is
    well formed, its revisions are not negative, and every draft in it still holds something when its
    text is cut - a single one that does not makes the whole file unreadable,
    [oversized_mention_poisons_the_projection]; the key store gives the same secret for the write and
    for the load, and a nonce of the right length; and the load finds the file readable, with no more
    than 2^64 - 1 bytes. *)
Theorem edited_drafts_survive_a_restart disk steps action elsewhere info room_list unlock :
  let key := session_key_id_from_info info in
  let a := run (DraftActor_new disk) steps in
  let a1 := run a [Step_Command action elsewhere] in
  let drafts := drafts_of (state a1) in
  let closed := flush_pending_composer_drafts aead_encrypt encode_json derive_key magic outcome a1 in
  let reopened := run' (DraftActor_new (files closed.1)) [Step_Batch [(App_Panes (Step_Ready info room_list), false)]] in
  composer_draft_transition_policy action = Policy_Normal ->
  composer_draft_session_key (state a) = Some key -> load_status a = Load_Loaded key ->
  composer_draft_session_key (state a1) = Some key -> drafts_of (state a) <> drafts ->
  store_wf drafts -> (forall t d, slot_content (slot drafts t) = Some d -> storable d) ->
  (forall t, (0 <= revision_of (slot drafts t))%Z) ->
  secret (outcome (store_calls a1)) = Some unlock -> String.length (nonce (outcome (store_calls a1))) = NONCE_LEN ->
  closed.2 = true -> (forall b, files closed.1 !! key = Some (File_Bytes b) -> (byte_length b <= U64_MAX)%Z) ->
  joined (outcome' 0) = true -> readable (outcome' 0) = true -> secret (outcome' 0) = Some unlock ->
  load_status reopened = Load_Loaded key /\
  forall t, survives (slot drafts t) (slot (drafts_of (state reopened)) t).
Proof.
  intros key a a1 drafts closed reopened Hpol Hk Hl Hk1 Hne Hw Hst Hr Hs1 Hn Hsaved Hfits Hj Hrd Hs2.
  destruct (command_pending aead_encrypt aead_decrypt encode_json decode_json derive_key magic outcome
              a action elsewhere key (run_ok _ _ _ _ _ _ _ steps _ (new_ok disk)) Hpol Hk Hl Hk1 Hne Hw Hst Hr)
    as (protection & payload & ids & time & Ep & Epend).
  destruct (flush_file aead_encrypt encode_json derive_key magic outcome a1 _ Epend Hsaved) as (file & Hfile & Hsave).
  cbn [pending_key pending_drafts] in Hfile, Hsave.
  rewrite Hs1 in Hsave. pose proof (save_writable _ _ _ _ _ _ Hsave) as Hwr. rewrite Hwr in Hsave.
  destruct (saved_drafts_load aead_encrypt aead_decrypt encode_json decode_json derive_key magic Htag Hcipher
              drafts protection Hw Hst Hr) as (p & Ep' & H).
  assert (X : Some p = Some payload) by (rewrite <-Ep'; exact Ep). injection X as ->.
  destruct (H _ _ _ _ (Hjson payload) Hn Hsave) as (s' & Hload & _ & Hsv).
  { intros b ->. by apply Hfits. }
  rewrite <-Hs2 in Hload. destruct (first_load (files closed.1) info room_list file s' Hfile Hj Hrd Hload) as [E1 E2].
  split; [exact E1|]. intros t. change (survives (slot drafts t) (slot (drafts_of (state reopened)) t)).
  fold reopened in E2. rewrite E2. apply Hsv.
Qed.
End restart.

(** The account opens a room, types a draft, and the application is closed and started again. *)
Definition demo_info : SessionInfo :=
  {| homeserver := "https://h"; user_id := "@a:h"; device_id := "D"; authentication_method := Auth_Password |}.
Definition demo_room : PaneRoom := {| room_id := "!r"; thread_unread_count := 0; thread_highlight_count := 0; room_rest := "" |}.
Definition demo_outcome (n : nat) : StoreOutcome string :=
  {| joined := true; secret := Some "secret"; nonce := "twelve bytes"; readable := true; writable := true |}.
Definition demo_steps : list ActorStep :=
  [Step_Batch [(App_Panes (Step_Ready demo_info [demo_room]), false)]].
Definition demo_edit : AppStep := App_Panes (Step_Action (ComposerDraftChangedAtRevision "!r" hello 4%Z)).
#[local] Instance PersistedComposerDraftStoreV3_eq : EqDecision PersistedComposerDraftStoreV3.
Proof.
  assert (EqDecision ComposerDraftPersistenceEntry) by solve_decision. solve_decision.
Defined.
(** JSON of the one payload this run saves. *)
Definition demo_payload : option PersistedComposerDraftStoreV3 :=
  pending_drafts <$> pending_persist
    (actor_run demo_encrypt demo_decrypt (fun _ => None) (fun _ => Payload_Malformed) (fun k => k) "MAGIC"
       demo_outcome (DraftActor_new ∅) (demo_steps ++ [Step_Command demo_edit false])).
Definition demo_encode (p : PersistedComposerDraftStoreV3) : option string :=
  if bool_decide (demo_payload = Some p) then Some "json" else None.
Definition demo_decode (b : string) : DraftPayload :=
  match demo_payload with Some p => Payload_V3 p | None => Payload_Malformed end.
Lemma demo_json p b : demo_encode p = Some b -> demo_decode b = Payload_V3 p.
Proof. unfold demo_encode, demo_decode. case_bool_decide as E; [|done]. by rewrite E. Qed.
Lemma edited_drafts_survive_a_restart_witness :
  let run := actor_run demo_encrypt demo_decrypt demo_encode demo_decode (fun k => k) "MAGIC" demo_outcome in
  let a1 := run (run (DraftActor_new ∅) demo_steps) [Step_Command demo_edit false] in
  let closed := flush_pending_composer_drafts demo_encrypt demo_encode (fun k => k) "MAGIC" demo_outcome a1 in
  let reopened := run (DraftActor_new (files closed.1)) demo_steps in
  closed.2 = true /\ slot_content (slot (drafts_of (state a1)) (Main "!r")) = Some hello /\
  slot_content (slot (drafts_of (state reopened)) (Main "!r"))
    = Some (truncated_to_plain_bytes hello MAX_PERSISTED_COMPOSER_DRAFT_BYTES).
Proof.
  intros run a1 closed reopened.
  assert (Ea : drafts_of (state a1) = demo_store) by (vm_compute; reflexivity).
  assert (Hs : closed.2 = true) by (vm_compute; reflexivity).
  split; [exact Hs|]. split; [by rewrite Ea|].
  assert (T : load_status reopened = Load_Loaded (session_key_id_from_info demo_info) /\
    forall t, survives (slot (drafts_of (state a1)) t) (slot (drafts_of (state reopened)) t)).
  { apply (edited_drafts_survive_a_restart demo_encrypt demo_decrypt demo_encode demo_decode (fun k => k) "MAGIC"
      demo_outcome demo_outcome demo_tag demo_cipher demo_json ∅ demo_steps demo_edit false demo_info [demo_room]
      "secret");
      [vm_compute; reflexivity|vm_compute; reflexivity|vm_compute; reflexivity|vm_compute; reflexivity
      | | | | |vm_compute; reflexivity|vm_compute; reflexivity|vm_compute; reflexivity|
      |vm_compute; reflexivity|vm_compute; reflexivity|vm_compute; reflexivity].
    - intros E. assert (X : drafts_of (state (run (DraftActor_new ∅) demo_steps)) = ComposerDraftStore_default)
        by (vm_compute; reflexivity).
      change (drafts_of (state (run (DraftActor_new ∅) demo_steps)) = drafts_of (state a1)) in E.
      rewrite Ea, X in E. discriminate E.
    - change (store_wf (drafts_of (state a1))). rewrite Ea. apply demo_store_wf.
    - change (forall t d, slot_content (slot (drafts_of (state a1)) t) = Some d -> storable d).
      rewrite Ea. apply demo_storable.
    - change (forall t, (0 <= revision_of (slot (drafts_of (state a1)) t))%Z). rewrite Ea. apply demo_revisions.
    - intros b Hb. assert (F : files closed.1 !! session_key_id_from_info demo_info
        = Some (File_Bytes ("MAGIC" +:+ "twelve bytes" +:+ tag_of_sixteen +:+ "json"))) by (vm_compute; reflexivity).
      change (files closed.1 !! session_key_id_from_info demo_info = Some (File_Bytes b)) in Hb.
      rewrite F in Hb. injection Hb as <-. vm_compute. congruence. }
  destruct T as [_ T]. specialize (T (Main "!r")). rewrite Ea in T. apply T.
Defined.
Lemma unread_drafts_are_never_overwritten_witness :
  let log := store_log (actor_run demo_encrypt demo_decrypt demo_encode demo_decode (fun k => k) "MAGIC" demo_outcome
               (DraftActor_new ∅) (demo_steps ++ [Step_Command demo_edit false; Step_Shutdown])) in
  let key := session_key_id_from_info demo_info in
  log = [Event_Load key true; Event_Save key] /\ last_load key (take 1 log) = Some true.
Proof.
  intros log key. assert (E : log = [Event_Load key true; Event_Save key]) by (vm_compute; reflexivity).
  split; [exact E|].
  apply (unread_drafts_are_never_overwritten demo_encrypt demo_decrypt demo_encode demo_decode (fun k => k) "MAGIC"
    demo_outcome ∅ (demo_steps ++ [Step_Command demo_edit false; Step_Shutdown]) 1 key).
  change (log !! 1 = Some (Event_Save key)). by rewrite E.
Defined.
