(* ===== verification/PaneProps.v ===== *)
(** The invariant of the conversation panes: the submission registry is well formed, a composer
    that waits for a submission is registered for it under its own target and transaction.  Every
    step of the panes preserves it but a settlement that is heard without a ready session while a
    composer waits, which keeps only the registry well formed. *)

From stdpp Require Import base list strings gmap.
From Stdlib Require Import ZArith Lia.
From S2P Require Import Prelude Text AppState ComposerDocument DraftStore Staging Panes Conversation TimelinePane ThreadPane PaneActions.
Local Open Scope string_scope.
Local Open Scope list_scope.
Local Set Warnings "-clear-no-such-hyp".

Definition registry (s : Panes) : ComposerSubmissionRegistry := submission_registry (timeline s).

(** * The registry *)

Definition registry_ok (r : ComposerSubmissionRegistry) : Prop :=
  accepted_submission_ids r = submission_id <$> active_submissions r
  /\ NoDup (accepted_submission_ids r)
  /\ (forall id, id ∈ accepted_submission_ids r -> id ∉ settled_submission_ids r)
  /\ (forall id, id ∈ queued_submission_ids r -> id ∈ accepted_submission_ids r)
  /\ NoDup (queued_submission_ids r) /\ NoDup (settled_submission_ids r)
  /\ (length (queued_submission_ids r) <= 128)%nat
  /\ (length (settled_submission_ids r) <= 128)%nat.

Lemma make_room_length ids : (length (make_room ids) <= 127)%nat.
Proof. unfold make_room, MAX_ACCEPTED_SUBMISSION_TOMBSTONES. rewrite length_drop. lia. Qed.
Lemma make_room_sub ids x : x ∈ make_room ids -> x ∈ ids.
Proof.
  unfold make_room. intros (i & Hi)%list_elem_of_lookup. rewrite lookup_drop in Hi.
  by eapply list_elem_of_lookup_2.
Qed.
Lemma remember_bounded_elem ids id x : x ∈ remember_bounded_id ids id -> x ∈ ids \/ x = id.
Proof.
  unfold remember_bounded_id. case_bool_decide; [by left|].
  intros [Hx%make_room_sub|Hx%list_elem_of_singleton]%elem_of_app; [by left|by right].
Qed.
Lemma remember_bounded_in ids id : id ∈ remember_bounded_id ids id.
Proof. unfold remember_bounded_id. case_bool_decide; [done|]. set_solver. Qed.
Lemma remember_bounded_length ids id :
  (length ids <= 128)%nat -> (length (remember_bounded_id ids id) <= 128)%nat.
Proof.
  intros H. unfold remember_bounded_id. case_bool_decide; [done|]. rewrite length_app.
  pose proof (make_room_length ids). cbn [length]. lia.
Qed.
Lemma remember_bounded_NoDup ids id : NoDup ids -> NoDup (remember_bounded_id ids id).
Proof.
  intros H. unfold remember_bounded_id. case_bool_decide; [done|]. apply NoDup_app.
  split; [|split; [|apply NoDup_singleton]].
  - unfold make_room. by eapply sublist_NoDup; [|apply sublist_drop].
  - intros x Hx%make_room_sub ->%list_elem_of_singleton. done.
Qed.

Lemma active_matches_spec r id tx target :
  active_matches r id tx target = true <->
  {| submission_id := id; transaction_id := tx; submission_target := target |} ∈ active_submissions r.
Proof.
  unfold active_matches. rewrite existsb_exists. split.
  - intros ([id' tx' t'] & Hin & H). cbn in H. rewrite !andb_true_iff, !String.eqb_eq in H.
    destruct H as [[-> ->] Ht%bool_decide_eq_true]. subst t'. by apply list_elem_of_In.
  - intros H. eexists. split; [by apply list_elem_of_In|]. cbn.
    by rewrite !String.eqb_refl, bool_decide_eq_true_2.
Qed.

Lemma remember_queued_ok r id :
  registry_ok r -> id ∈ accepted_submission_ids r -> registry_ok (remember_queued r id).
Proof.
  intros (Ha & Hnd & Hs & Hq & Hqn & Hsn & Hql & Hsl) Hid. repeat split; cbn; try done.
  - intros x [Hx| ->]%remember_bounded_elem; auto.
  - by apply remember_bounded_NoDup.
  - by apply remember_bounded_length.
Qed.
Lemma remember_accepted_ok r id tx target :
  registry_ok r -> known_submission r id = false -> registry_ok (remember_accepted r id tx target).
Proof.
  intros (Ha & Hnd & Hs & Hq & Hqn & Hsn & Hql & Hsl) Hk.
  unfold known_submission in Hk. apply orb_false_iff in Hk as [Hk1 Hk2].
  unfold remember_accepted. rewrite Hk1. apply bool_decide_eq_false in Hk1, Hk2.
  repeat split; cbn; try done.
  - by rewrite fmap_app, Ha.
  - apply NoDup_app. split; [done|]. split; [|apply NoDup_singleton].
    intros x Hx ->%list_elem_of_singleton. done.
  - intros x [Hx| ->%list_elem_of_singleton]%elem_of_app; auto.
  - intros x Hx. apply elem_of_app. left. auto.
Qed.
Lemma filter_ids (id : SubmissionId) (l : list ComposerSubmissionRecord) :
  filter (fun a => a <> id) (submission_id <$> l)
  = submission_id <$> filter (fun a => submission_id a <> id) l.
Proof.
  induction l as [|a l IH]; [done|]. rewrite fmap_cons, !filter_cons.
  repeat case_decide; try done. by rewrite fmap_cons, IH.
Qed.
Lemma remember_settled_ok r id : registry_ok r -> registry_ok (remember_settled r id).
Proof.
  intros (Ha & Hnd & Hs & Hq & Hqn & Hsn & Hql & Hsl). repeat split; cbn.
  - by rewrite Ha, filter_ids.
  - by apply NoDup_filter.
  - intros x [Hne Hx]%list_elem_of_filter [Hin|Heq]%remember_bounded_elem; [by apply (Hs x)|done].
  - intros x [Hne Hx]%list_elem_of_filter. apply list_elem_of_filter. auto.
  - by apply NoDup_filter.
  - by apply remember_bounded_NoDup.
  - etrans; [apply length_filter|done].
  - by apply remember_bounded_length.
Qed.

(** * Waiting composers *)

Definition pending_ok (r : ComposerSubmissionRegistry) (target : ComposerTarget) (c : ComposerState) :
    Prop :=
  forall id, pending_submission_id c = Some id ->
  exists tx, pending_transaction_id c = Some tx
    /\ {| submission_id := id; transaction_id := tx; submission_target := target |}
         ∈ active_submissions r.

Definition main_ok (s : Panes) : Prop :=
  match timeline_room_id (timeline s) with
  | Some id => pending_ok (registry s) (Main id) (main_composer s)
  | None => pending_submission_id (main_composer s) = None
  end.
Definition thread_ok (s : Panes) : Prop :=
  match thread s with
  | Thread_Open t =>
      pending_ok (registry s) (Thread (open_room_id t) (open_root_event_id t)) (thread_composer t)
  | _ => True
  end.
Definition panes_ok (s : Panes) : Prop := registry_ok (registry s) /\ main_ok s /\ thread_ok s.
(** No composer waits. *)
Definition nothing_waits (s : Panes) : Prop :=
  pending_submission_id (main_composer s) = None
  /\ match thread s with Thread_Open t => pending_submission_id (thread_composer t) = None | _ => True end.

(** A composer keeps waiting for the same submission, or waits for none. *)
Definition waits_less (c c' : ComposerState) : Prop :=
  (pending_submission_id c' = pending_submission_id c
   /\ pending_transaction_id c' = pending_transaction_id c)
  \/ pending_submission_id c' = None.

(** A step that registers nothing and lets no composer wait that did not wait before. *)
Definition calm (s s' : Panes) : Prop :=
  registry s' = registry s
  /\ session s' = session s
  /\ (timeline_room_id (timeline s') = timeline_room_id (timeline s)
      /\ waits_less (main_composer s) (main_composer s')
      \/ pending_submission_id (main_composer s') = None)
  /\ match thread s' with
     | Thread_Open t' =>
         pending_submission_id (thread_composer t') = None
         \/ match thread s with
            | Thread_Open t =>
                open_room_id t' = open_room_id t /\ open_root_event_id t' = open_root_event_id t
                /\ waits_less (thread_composer t) (thread_composer t')
            | _ => False
            end
     | _ => True
     end.

Lemma waits_less_refl c : waits_less c c.
Proof. by left. Qed.
Lemma pending_ok_less r target c c' : pending_ok r target c -> waits_less c c' -> pending_ok r target c'.
Proof.
  intros H Hw id Hid. destruct Hw as [[Hs Ht]|Hn]; [|congruence].
  rewrite Hs in Hid. rewrite Ht. by apply H.
Qed.
Lemma pending_ok_none r target c : pending_submission_id c = None -> pending_ok r target c.
Proof. intros H id Hid. congruence. Qed.

Lemma calm_ok s s' : calm s s' -> panes_ok s -> panes_ok s'.
Proof.
  intros (Hr & Hse & Hm & Ht) (Hreg & Hmain & Hth).
  unfold panes_ok, main_ok, thread_ok in *. rewrite Hr.
  split; [done|]. split.
  { destruct Hm as [[Hid Hw]|Hn].
    - rewrite Hid. destruct (timeline_room_id (timeline s)); [by eapply pending_ok_less|].
      destruct Hw as [[? _]|?]; congruence.
    - destruct (timeline_room_id (timeline s')); [by apply pending_ok_none|done]. }
  destruct (thread s') as [| |t'|]; try done. destruct Ht as [Hn|Ht]; [by apply pending_ok_none|].
  destruct (thread s) as [| |t|]; try done. destruct Ht as (-> & -> & Hw).
  by eapply pending_ok_less.
Qed.

(** ** Calm steps *)

Lemma calm_refl s : calm s s.
Proof.
  repeat split; [left; split; [done|apply waits_less_refl]|].
  destruct (thread s); try done. right. repeat split. apply waits_less_refl.
Qed.

Lemma settle_mode_submission k c :
  pending_submission_id (settle_thread_reply_mode k c) = pending_submission_id c.
Proof. unfold settle_thread_reply_mode. by repeat case_match. Qed.
Lemma settle_mode_transaction k c :
  pending_transaction_id (settle_thread_reply_mode k c) = pending_transaction_id c.
Proof. unfold settle_thread_reply_mode. by repeat case_match. Qed.
Lemma composer_for_room_idle s id : pending_submission_id (composer_for_room s id) = None.
Proof. unfold composer_for_room. by case_match. Qed.
Lemma composer_for_thread_idle s id root : pending_submission_id (composer_for_thread s id root) = None.
Proof. unfold composer_for_thread. by case_match. Qed.

Lemma close_focused_fields s :
  timeline (handle_close_focused_context s).1 = timeline s
  /\ thread (handle_close_focused_context s).1 = thread s
  /\ session (handle_close_focused_context s).1 = session s
  /\ composer_drafts (handle_close_focused_context s).1 = composer_drafts s.
Proof. unfold handle_close_focused_context. by repeat case_match. Qed.
Lemma return_to_live_fields s id :
  timeline (handle_return_main_timeline_to_live s id).1 = timeline s
  /\ thread (handle_return_main_timeline_to_live s id).1 = thread s
  /\ session (handle_return_main_timeline_to_live s id).1 = session s
  /\ composer_drafts (handle_return_main_timeline_to_live s id).1 = composer_drafts s.
Proof. unfold handle_return_main_timeline_to_live. by repeat case_match. Qed.
Lemma accepted_send_fields s id s' e :
  return_main_pane_to_live_for_accepted_send s id = (s', e) ->
  timeline s' = timeline s /\ thread s' = thread s /\ session s' = session s
  /\ composer_drafts s' = composer_drafts s.
Proof.
  unfold return_main_pane_to_live_for_accepted_send. repeat case_match; intros [= <- _]; try done.
  destruct (return_to_live_fields (handle_close_focused_context s).1 id) as (-> & -> & -> & ->).
  apply close_focused_fields.
Qed.

Lemma open_thread_Some s id root t :
  open_thread s id root = Some t ->
  thread s = Thread_Open t /\ open_room_id t = id /\ open_root_event_id t = root.
Proof.
  unfold open_thread. destruct (thread s) as [| |t'|]; try done.
  destruct (String.eqb_spec (open_room_id t') id), (String.eqb_spec (open_root_event_id t') root);
    cbn; naive_solver.
Qed.

#[local] Arguments composer_for_room : simpl never.
#[local] Arguments composer_for_thread : simpl never.
Create Rewrite HintDb pending.
#[export] Hint Rewrite settle_mode_submission settle_mode_transaction composer_for_room_idle
  composer_for_thread_idle : pending.

Lemma calm_intro s s' :
  registry s' = registry s -> session s' = session s ->
  (timeline_room_id (timeline s') = timeline_room_id (timeline s)
   /\ waits_less (main_composer s) (main_composer s')
   \/ pending_submission_id (main_composer s') = None) ->
  match thread s' with
  | Thread_Open t' =>
      pending_submission_id (thread_composer t') = None
      \/ match thread s with
         | Thread_Open t =>
             open_room_id t' = open_room_id t /\ open_root_event_id t' = open_root_event_id t
             /\ waits_less (thread_composer t) (thread_composer t')
         | _ => False
         end
  | _ => True
  end -> calm s s'.
Proof. repeat split; assumption. Qed.

(** Unfold one calm handler: its branches either keep the state, or rewrite fields. *)
Ltac calm_fields :=
  repeat match goal with
  | H : bool_decide (is_Some _) = false |- _ => apply bool_decide_eq_false, eq_None_not_Some in H
  | H : thread_has_submission ?s = false, Ht : thread ?s = Thread_Open _ |- _ =>
      unfold thread_has_submission in H; rewrite Ht in H
  | H : open_thread _ _ _ = Some _ |- _ => apply open_thread_Some in H as (? & ? & ?); cbn in *
  | H : return_main_pane_to_live_for_accepted_send _ _ = (_, _) |- _ =>
      apply accepted_send_fields in H as (? & ? & ? & ?); cbn in *
  end.
Ltac calm_state :=
  repeat match goal with
  | H : timeline _ = _ |- _ => rewrite H
  | H : session _ = _ |- _ => rewrite H
  | H : thread ?s = _ |- _ => rewrite !H
  end.
Ltac waits :=
  first [ done | right; done | left; done | left; split; done
        | right; autorewrite with pending; done
        | left; split; autorewrite with pending; done ].
Ltac calm_thread :=
  cbn; first
    [ done
    | left; autorewrite with pending; done
    | right; split; [done|split; [done|waits]]
    | match goal with |- context [match thread ?s with _ => _ end] => destruct (thread s) end;
      first [done | left; done | right; split; [done|split; [done|waits]]] ].
Ltac calm_branch :=
  calm_fields; apply calm_intro; unfold registry, main_composer in *; cbn in *; calm_state; cbn;
  [ done | done
  | first [ left; split; [done|waits] | right; autorewrite with pending; done ]
  | calm_thread ].
Ltac calm_handler :=
  repeat (case_match; simplify_eq/=); try apply calm_refl; try calm_branch.

(** A finished submission changes nothing: the send it would finish is refused while the
    submission id it matched is set. *)
Lemma submission_finished_is_inert s submission id tx :
  handle_composer_submission_finished s submission id tx = unchanged s.
Proof.
  unfold handle_composer_submission_finished, handle_send_text_finished.
  case_bool_decide as H; cbn; [|done]. rewrite H, bool_decide_eq_true_2; [done|by eexists].
Qed.

Create HintDb panes.
#[local] Hint Unfold handle_timeline_continuity_inspection_started handle_assistant_draft_marker_dismissed handle_assistant_draft_staged
  handle_close_focused_context handle_close_scheduled_sends_list handle_close_thread
  handle_close_threads_list handle_composer_draft_accepted handle_composer_draft_changed
  handle_composer_draft_seeded handle_composer_drafts_loaded handle_composer_reply_cancelled
  handle_composer_reply_target_selected handle_enter_anchored_timeline
  handle_event_navigation_anchored handle_event_navigation_cleared
  handle_event_navigation_failed handle_event_navigation_failure_dismissed
  handle_event_navigation_live_fallback handle_event_navigation_started
  handle_focused_context_subscribed handle_focused_context_subscription_failed
  handle_media_download_updated handle_media_gallery_updated handle_open_focused_context
  handle_open_scheduled_sends_list handle_open_thread handle_open_threads_list
  handle_paginate_threads_list handle_reply_quote_thumbnail_updated
  handle_return_main_timeline_to_live handle_scheduled_send_cancelled_or_dispatched
  handle_scheduled_send_capability_changed handle_scheduled_send_created_at_revision
  handle_scheduled_send_dispatch_failed handle_scheduled_send_dispatch_started
  handle_scheduled_send_persisted handle_scheduled_send_persistence_failed
  handle_scheduled_send_rescheduled handle_scheduled_sends_loaded handle_send_text_failed
  handle_send_text_finished handle_thread_activity_observed handle_thread_attention_updated
  handle_thread_composer_draft_changed handle_thread_composer_reply_cancelled
  handle_thread_composer_reply_target_selected handle_thread_reply_failed
  handle_thread_reply_finished handle_thread_subscribed handle_thread_subscription_failed
  handle_threads_list_failed handle_threads_list_opened handle_threads_list_updated
  handle_timeline_back_pagination_finished handle_timeline_back_pagination_requested
  handle_timeline_continuity_inspected handle_timeline_gap_repair_failed
  handle_timeline_gap_repair_progressed handle_timeline_gap_repair_started
  handle_timeline_scroll_anchor_updated handle_timeline_subscribed
  handle_timeline_subscription_failed handle_upload_staging_caption_changed
  handle_upload_staging_changed handle_upload_staging_cleared
  handle_upload_staging_compression_changed handle_upload_staging_output_selected
  handle_scheduled_send_created handle_threads_list_pagination_completed open_pane unchanged
  on_timeline scheduled_item_updated staged_item_updated refresh_and_emit_upload_target
  deliver_items put_event_navigation withdraw_scheduled_send_persistence_failure
  close_thread_pane push_error refresh_timeline_upload_staging
  refresh_timeline_scheduled_sends refresh_timeline_media_gallery on_thread_composer
  on_composer put_thread put_drafts promote_matching_thread_intent : panes.

(** The actions that register nothing and let no composer wait. *)
Definition quiet (a : PaneAction) : bool :=
  match a with
  | SendTextSubmitted _ _ _ | SendTextSubmittedAtRevision _ _ _ _
  | ThreadReplySubmitted _ _ _ | ThreadReplySubmittedAtRevision _ _ _ _
  | ComposerSubmissionAccepted _ _ _ _ | ComposerSubmissionAcceptedAtRevision _ _ _ _ _
  | ThreadSubmissionAccepted _ _ _ _ | ThreadSubmissionAcceptedAtRevision _ _ _ _ _
  | ComposerSubmissionQueued _ _ _ _ | ComposerSubmissionSettled _ _ _ _ => false
  | _ => true
  end.
Lemma quiet_is_calm s a : quiet a = true -> calm s (reduce_pane_action s a).1.
Proof.
  destruct a; intros [=]; cbn [reduce_pane_action]; rewrite ?submission_finished_is_inert;
    autounfold with panes; calm_handler.
Qed.
Lemma markers_are_calm s : calm s (sync_assistant_draft_markers s).
Proof. unfold sync_assistant_draft_markers. autounfold with panes. calm_handler. Qed.

(** A send without a submission id waits only where nothing waited. *)
Lemma main_not_waiting s : main_ok s -> pending_transaction_id (main_composer s) = None ->
  pending_submission_id (main_composer s) = None.
Proof.
  unfold main_ok. intros H Hn. destruct (timeline_room_id (timeline s)); [|done].
  destruct (pending_submission_id _) as [id|] eqn:E; [|done].
  destruct (H id E) as (tx & Htx & _). congruence.
Qed.
Lemma thread_not_waiting s t : thread_ok s -> thread s = Thread_Open t ->
  pending_transaction_id (thread_composer t) = None ->
  pending_submission_id (thread_composer t) = None.
Proof.
  unfold thread_ok. intros H Ht Hn. rewrite Ht in H.
  destruct (pending_submission_id _) as [id|] eqn:E; [|done].
  destruct (H id E) as (tx & Htx & _). congruence.
Qed.
Lemma send_text_submitted_is_calm s id tx text r :
  panes_ok s -> calm s (handle_send_text_submitted s id tx text r).1.
Proof.
  intros (_ & Hm & _). pose proof (main_not_waiting s Hm) as Hn.
  unfold handle_send_text_submitted. destruct (_ || _ || _) eqn:G; [apply calm_refl|].
  apply orb_false_elim in G as [_ G%bool_decide_eq_false%eq_None_not_Some]. specialize (Hn G).
  autounfold with panes. unfold main_composer in *. calm_handler.
Qed.
Lemma thread_reply_submitted_is_calm s id root tx r :
  panes_ok s -> calm s (handle_thread_reply_submitted s id root tx r).1.
Proof.
  intros (_ & _ & Hm). unfold handle_thread_reply_submitted.
  destruct (is_session_ready s); [|apply calm_refl].
  destruct (open_thread s id root) as [t|] eqn:Ht; [|apply calm_refl].
  case_bool_decide as G; [apply calm_refl|]. apply eq_None_not_Some in G.
  pose proof (open_thread_Some _ _ _ _ Ht) as (Ht' & _).
  pose proof (thread_not_waiting _ _ Hm Ht' G). cbn.
  autounfold with panes. calm_handler.
Qed.

(** ** Accepting a submission *)

Lemma pending_ok_mono r r' target c :
  (forall x, x ∈ active_submissions r -> x ∈ active_submissions r') ->
  pending_ok r target c -> pending_ok r' target c.
Proof. intros Hsub H id Hid. destruct (H id Hid) as (tx & ? & ?). eauto. Qed.

(** The same panes with another registry. *)
Lemma panes_ok_registry s r :
  registry_ok r ->
  (forall x, x ∈ active_submissions (registry s) -> x ∈ active_submissions r) ->
  panes_ok s -> panes_ok (on_registry (fun _ => r) s).
Proof.
  intros Hr Hsub (_ & Hm & Ht). unfold panes_ok, main_ok, thread_ok, registry in *. cbn.
  split; [done|]. split.
  { change (main_composer (on_registry (fun _ => r) s)) with (main_composer s).
    destruct (timeline_room_id (timeline s)); [by eapply pending_ok_mono|done]. }
  destruct (thread s); try done. by eapply pending_ok_mono.
Qed.
Lemma remember_accepted_active r id tx target x :
  x ∈ active_submissions r -> x ∈ active_submissions (remember_accepted r id tx target).
Proof.
  unfold remember_accepted. case_bool_decide; [done|]. cbn. intros H'. apply elem_of_app. by left.
Qed.
Lemma remember_accepted_new r id tx target :
  known_submission r id = false ->
  {| submission_id := id; transaction_id := tx; submission_target := target |}
    ∈ active_submissions (remember_accepted r id tx target).
Proof.
  intros [H _]%orb_false_elim. unfold remember_accepted. rewrite H. cbn.
  apply elem_of_app. right. by apply list_elem_of_singleton.
Qed.
Lemma accept_registry_ok s id tx target :
  panes_ok s -> known_submission (registry s) id = false ->
  panes_ok (on_registry (fun r => remember_accepted r id tx target) s).
Proof.
  intros Hok Hk.
  apply (panes_ok_registry s (remember_accepted (registry s) id tx target)).
  - apply remember_accepted_ok; [apply Hok|done].
  - apply remember_accepted_active.
  - done.
Qed.

(** A composer that begins to wait for a registered submission of its own target. *)
Lemma main_waits_ok s s' room id tx :
  panes_ok s -> registry s' = registry s -> thread s' = thread s ->
  timeline_room_id (timeline s') = Some room ->
  pending_submission_id (main_composer s') = Some id ->
  pending_transaction_id (main_composer s') = Some tx ->
  {| submission_id := id; transaction_id := tx; submission_target := Main room |}
    ∈ active_submissions (registry s) -> panes_ok s'.
Proof.
  intros (Hr & _ & Ht) Er Eth Eroom Eid Etx Hin.
  unfold panes_ok, main_ok, thread_ok in *.
  rewrite Er, Eth, Eroom. split; [done|]. split; [|done].
  intros id' Hid'. exists tx. rewrite Eid in Hid'. by injection Hid' as <-.
Qed.
Lemma thread_waits_ok s s' t id tx :
  panes_ok s -> registry s' = registry s -> thread s' = Thread_Open t ->
  timeline_room_id (timeline s') = timeline_room_id (timeline s) ->
  main_composer s' = main_composer s ->
  pending_submission_id (thread_composer t) = Some id ->
  pending_transaction_id (thread_composer t) = Some tx ->
  {| submission_id := id; transaction_id := tx;
     submission_target := Thread (open_room_id t) (open_root_event_id t) |}
    ∈ active_submissions (registry s) -> panes_ok s'.
Proof.
  intros (Hr & Hm & _) Er Eth Eroom Em Eid Etx Hin.
  unfold panes_ok, main_ok, thread_ok in *.
  rewrite Er, Eth, Eroom, Em. split; [done|]. split; [done|].
  intros id' Hid'. exists tx. rewrite Eid in Hid'. by injection Hid' as <-.
Qed.

Lemma composer_submission_accepted_ok s id room tx text r :
  panes_ok s -> panes_ok (handle_composer_submission_accepted s id room tx text r).1.
Proof.
  intros Hok. unfold handle_composer_submission_accepted.
  destruct (is_session_ready s) eqn:Hready; [|done]. cbn [negb].
  destruct (known_submission _ id) eqn:Hk; [done|].
  pose proof (accept_registry_ok s id tx (Main room) Hok Hk) as Hok1.
  pose proof (remember_accepted_new _ id tx (Main room) Hk) as Hin.
  set (s1 := on_registry _ s) in *. destruct (checked_successor _ r); [|done].
  destruct (negb (shows_room s1 room)) eqn:Hroom; [done|].
  apply negb_false_iff, bool_decide_eq_true in Hroom.
  cbn [orb]. case_match; [done|]. cbv zeta.
  destruct (return_main_pane_to_live_for_accepted_send _ room) as [s2 e] eqn:E.
  apply accepted_send_fields in E as (Et & Eth & Es & _).
  eapply (main_waits_ok s1 _ room id tx); try done.
  all: unfold registry; cbn; rewrite ?Et; done.
Qed.
Lemma thread_submission_accepted_ok s id room root tx r :
  panes_ok s -> panes_ok (handle_thread_submission_accepted s id room root tx r).1.
Proof.
  intros Hok. unfold handle_thread_submission_accepted.
  destruct (is_session_ready s) eqn:Hready; [|done]. cbn [negb].
  destruct (known_submission _ id) eqn:Hk; [done|].
  pose proof (accept_registry_ok s id tx (Thread room root) Hok Hk) as Hok1.
  pose proof (remember_accepted_new _ id tx (Thread room root) Hk) as Hin.
  set (s1 := on_registry _ s) in *. destruct (checked_successor _ r); [|done].
  destruct (open_thread s1 room root) as [t|] eqn:Ht; [|done].
  apply open_thread_Some in Ht as (Ht & Er & Eroot). case_match; [done|]. cbv zeta.
  eapply (thread_waits_ok s1 _ _ id tx); try done. cbn. by rewrite Er, Eroot.
Qed.

(** ** Outcomes of a submission *)

Lemma calm_trans_registry s s1 s' r :
  s1 = on_registry (fun _ => r) s -> calm s1 s' ->
  calm s (on_registry (fun _ => registry s) s').
Proof.
  intros -> (Hr & Hs & Hm & Ht). repeat split; try done.
Qed.

Lemma queued_is_calm s id tx target rev :
  active_matches (registry s) id tx target = true ->
  calm (on_registry (fun r => remember_queued r id) s) (handle_queued s id tx target rev).1.
Proof.
  intros Ha. unfold handle_queued. unfold registry in Ha. rewrite Ha. cbn [negb].
  set (s1 := on_registry _ s). clearbody s1. autounfold with panes.
  unfold release, copy_accepted. calm_handler.
Qed.
Lemma settled_is_calm s id tx target outcome :
  active_matches (registry s) id tx target = true ->
  calm (on_registry (fun r => remember_settled r id) s) (handle_settled s id tx target outcome).1.
Proof.
  intros Ha. unfold handle_settled. unfold registry in Ha. rewrite Ha. cbn [negb].
  set (s1 := on_registry _ s). clearbody s1. autounfold with panes.
  unfold report_failure, release, push_error. calm_handler.
Qed.

Lemma registered_once r x y :
  registry_ok r -> x ∈ active_submissions r -> y ∈ active_submissions r ->
  submission_id x = submission_id y -> x = y.
Proof.
  intros (Ha & Hnd & _) [i Hx]%list_elem_of_lookup [j Hy]%list_elem_of_lookup E.
  rewrite Ha in Hnd.
  assert (i = j) as ->; [|congruence].
  eapply NoDup_lookup; [done| |]; rewrite list_lookup_fmap, ?Hx, ?Hy; cbn; [done|by f_equal].
Qed.

Section Waiting.
Context (s : Panes) (id : SubmissionId) (tx : string) (target : ComposerTarget).
Context (Hok : panes_ok s) (Hreg : active_matches (registry s) id tx target = true).

(** A composer that waits for a registered submission waits under its target. *)
Lemma waits_under t c :
  pending_ok (registry s) t c -> pending_submission_id c = Some id ->
  t = target /\ pends c id tx = true.
Proof using Hok Hreg.
  intros H Hid. destruct (H id Hid) as (tx' & Htx & Hin).
  apply active_matches_spec in Hreg.
  pose proof (registered_once _ _ _ (proj1 Hok) Hin Hreg eq_refl) as [= -> ->].
  split; [done|]. unfold pends. by rewrite Hid, Htx, !bool_decide_eq_true_2.
Qed.
Lemma main_waits_under :
  pending_submission_id (main_composer s) = Some id ->
  pends (main_composer s) id tx = true
  /\ exists room, target = Main room /\ shows_room s room = true.
Proof using Hok Hreg.
  intros Hid. pose proof Hok as (_ & Hm & _). unfold main_ok in Hm.
  destruct (timeline_room_id (timeline s)) as [room|] eqn:E; [|congruence].
  destruct (waits_under _ _ Hm Hid) as [Ht Hp]. split; [done|]. exists room. split; [done|]. unfold shows_room. by rewrite E, bool_decide_eq_true_2.
Qed.
Lemma thread_waits_under t :
  thread s = Thread_Open t -> pending_submission_id (thread_composer t) = Some id ->
  pends (thread_composer t) id tx = true
  /\ target = Thread (open_room_id t) (open_root_event_id t).
Proof using Hok Hreg.
  intros Et Hid. pose proof Hok as (_ & _ & Hth). unfold thread_ok in Hth. rewrite Et in Hth.
  destruct (waits_under _ _ Hth Hid) as [Ht Hp]. by split.
Qed.
End Waiting.

Lemma open_thread_self s t :
  thread s = Thread_Open t -> open_thread s (open_room_id t) (open_root_event_id t) = Some t.
Proof. unfold open_thread. intros ->. by rewrite !String.eqb_refl. Qed.

(** What settling does to the composer that waits. *)
Lemma settled_main s id tx room outcome :
  active_matches (registry s) id tx (Main room) = true -> is_session_ready s = true ->
  shows_room s room = true -> pends (main_composer s) id tx = true ->
  handle_settled s id tx (Main room) outcome
  = report_failure
      (on_composer (fun c => let c := release c in
         if succeeded outcome then settle_thread_reply_mode (pending_send_kind (main_composer s)) c
         else c) (on_registry (fun r => remember_settled r id) s))
      (TimelineChanged room) outcome.
Proof.
  intros Ha Hr Hroom Hp. unfold handle_settled. unfold registry in Ha. rewrite Ha. cbn [negb].
  change (is_session_ready (on_registry _ s)) with (is_session_ready s). rewrite Hr.
  change (shows_room (on_registry _ s) room) with (shows_room s room). rewrite Hroom.
  change (main_composer (on_registry _ s)) with (main_composer s). by rewrite Hp.
Qed.
Lemma settled_thread s id tx t outcome :
  let target := Thread (open_room_id t) (open_root_event_id t) in
  active_matches (registry s) id tx target = true -> is_session_ready s = true ->
  thread s = Thread_Open t -> pends (thread_composer t) id tx = true ->
  handle_settled s id tx target outcome
  = report_failure
      (on_thread_composer t (fun c => let c := release c in
         if succeeded outcome then settle_thread_reply_mode (pending_send_kind (thread_composer t)) c
         else c) (on_registry (fun r => remember_settled r id) s))
      ThreadChanged outcome.
Proof.
  intros target Ha Hr Ht Hp. unfold handle_settled. unfold registry in Ha. rewrite Ha. cbn [negb].
  change (is_session_ready (on_registry _ s)) with (is_session_ready s). rewrite Hr.
  cbn [negb target]. change (open_thread (on_registry _ s)) with (open_thread s).
  by rewrite (open_thread_self _ _ Ht), Hp.
Qed.
Lemma report_failure_fields s e outcome :
  timeline (report_failure s e outcome).1 = timeline s
  /\ thread (report_failure s e outcome).1 = thread s.
Proof. by destruct outcome. Qed.

Lemma release_outcome (b : bool) k c :
  pending_submission_id (if b then settle_thread_reply_mode k (release c) else release c) = None
  /\ pending_transaction_id (if b then settle_thread_reply_mode k (release c) else release c) = None.
Proof. destruct b; rewrite ?settle_mode_submission, ?settle_mode_transaction; done. Qed.

(** A settlement that is heard: the session is ready, or no composer waits. *)
Definition heard (s : Panes) : Prop := is_session_ready s = true \/ nothing_waits s.
(** No composer waits for a submission whose settlement was heard. *)
Lemma settled_releases s id tx target outcome :
  panes_ok s -> heard s -> active_matches (registry s) id tx target = true ->
  let s' := (handle_settled s id tx target outcome).1 in
  pending_submission_id (main_composer s') <> Some id
  /\ (forall t, thread s' = Thread_Open t -> pending_submission_id (thread_composer t) <> Some id).
Proof.
  intros Hok Hh Ha s'. pose proof (settled_is_calm s id tx target outcome Ha) as (_ & _ & Hm & Ht).
  split.
  - intros Hid. destruct Hm as [[_ [[Hm _]|Hm]]|Hm]; [|by fold s' in Hm; congruence..].
    fold s' in Hm. rewrite Hid in Hm. symmetry in Hm.
    destruct (main_waits_under s id tx target Hok Ha Hm) as (Hp & room & -> & Hroom).
    destruct Hh as [Hr|[Hw _]]; [|pose proof (eq_trans (eq_sym Hw) Hm); done].
    unfold s' in Hid. rewrite (settled_main s id tx room outcome Ha Hr Hroom Hp) in Hid.
    unfold main_composer in Hid. rewrite (proj1 (report_failure_fields _ _ _)) in Hid. cbn in Hid.
    by rewrite (proj1 (release_outcome _ _ _)) in Hid.
  - intros t' Et' Hid. fold s' in Ht. rewrite Et' in Ht.
    destruct Ht as [Ht|Ht]; [congruence|].
    change (thread (on_registry _ s)) with (thread s) in Ht.
    destruct (thread s) as [| |t|] eqn:Et; try done. destruct Ht as (Er & Eroot & [[Hp _]|Hp]); [|congruence].
    rewrite Hid in Hp. symmetry in Hp.
    destruct (thread_waits_under s id tx target Hok Ha t Et Hp) as (Hpe & ->).
    destruct Hh as [Hr|[_ Hw]]; [|by rewrite Et, Hp in Hw].
    unfold s' in Et'. rewrite (settled_thread s id tx t outcome Ha Hr Et Hpe) in Et'.
    rewrite (proj2 (report_failure_fields _ _ _)) in Et'. cbn in Et'. injection Et' as <-.
    cbn in Hid. by rewrite (proj1 (release_outcome _ _ _)) in Hid.
Qed.

Lemma settled_ok s id tx target outcome :
  panes_ok s -> heard s -> panes_ok (handle_settled s id tx target outcome).1.
Proof.
  intros Hok Hh. destruct (active_matches (registry s) id tx target) eqn:Ha.
  2: { unfold handle_settled. unfold registry in Ha. by rewrite Ha. }
  pose proof (settled_is_calm s id tx target outcome Ha) as Hcalm.
  pose proof (settled_releases s id tx target outcome Hok Hh Ha) as [Hnm Hnt].
  assert (Hreg : registry (handle_settled s id tx target outcome).1 = remember_settled (registry s) id)
    by apply Hcalm.
  assert (Hok' : panes_ok (on_registry (fun _ => registry s) (handle_settled s id tx target outcome).1)).
  { eapply calm_ok; [|exact Hok]. by eapply calm_trans_registry; [|exact Hcalm]. }
  set (s' := (handle_settled s id tx target outcome).1) in *. clearbody s'.
  destruct Hok' as (Hr & Hm & Ht).
  assert (Hkeep : forall t c, pending_submission_id c <> Some id -> pending_ok (registry s) t c ->
                  pending_ok (registry s') t c).
  { intros t c Hne H id' Hid'. destruct (H id' Hid') as (tx' & Htx & Hin). exists tx'. split; [done|].
    rewrite Hreg. cbn. apply list_elem_of_filter. split; [|done]. cbn. intros Heq. apply Hne. by rewrite Hid', Heq. }
  split; [rewrite Hreg; apply remember_settled_ok, Hok|]. split.
  - revert Hm. unfold main_ok. cbn. destruct (timeline_room_id (timeline s')); [|done].
    by apply Hkeep.
  - revert Ht. unfold thread_ok. cbn. destruct (thread s') as [| |t|]; try done. apply Hkeep, Hnt. done.
Qed.
Lemma queued_ok s id tx target rev : panes_ok s -> panes_ok (handle_queued s id tx target rev).1.
Proof.
  intros Hok. destruct (active_matches (registry s) id tx target) eqn:Ha.
  2: { unfold handle_queued. unfold registry in Ha. by rewrite Ha. }
  eapply calm_ok; [by apply queued_is_calm|].
  apply (panes_ok_registry s (remember_queued (registry s) id)); [|intros x Hx; exact Hx|exact Hok].
  apply remember_queued_ok; [apply Hok|]. apply active_matches_spec in Ha.
  destruct (proj1 Hok) as (-> & _). apply list_elem_of_fmap. eexists. by split; [|exact Ha].
Qed.

(** * Runs *)

Lemma retire_panes_idle s :
  session (retire_panes s) = session s
  /\ timeline (retire_panes s) = TimelinePaneState_default /\ thread (retire_panes s) = Thread_Closed.
Proof. done. Qed.
Lemma retire_ready_session_ok s next : panes_ok s -> panes_ok (retire_ready_session s next).
Proof.
  intros Hok. unfold retire_ready_session. destruct (session s) eqn:E; try done.
  split; [apply Hok|]. unfold main_ok, thread_ok. by cbn.
Qed.
(** A step to an idle pane with a well-formed registry. *)
Lemma fresh_panes_ok s : registry_ok (registry s) ->
  pending_submission_id (main_composer s) = None -> thread s = Thread_Closed -> panes_ok s.
Proof.
  intros Hr Hm Ht. split; [done|]. unfold main_ok, thread_ok. rewrite Ht.
  split; [|done]. destruct (timeline_room_id (timeline s)); [by apply pending_ok_none|done].
Qed.
Lemma registry_default_ok : registry_ok ComposerSubmissionRegistry_default.
Proof. repeat split; cbn; try apply NoDup_nil_2; try lia; intros x Hx; by apply not_elem_of_nil in Hx. Qed.

(** What the panes hear of an action. *)
Definition hears (s : Panes) (a : PaneAction) : Prop :=
  match a with ComposerSubmissionSettled _ _ _ _ => heard s | _ => True end.
Lemma pane_action_ok s a : panes_ok s -> hears s a -> panes_ok (reduce_pane_action s a).1.
Proof.
  intros Hok Hh. destruct (quiet a) eqn:Hq; [by eapply calm_ok; [apply quiet_is_calm|]|].
  destruct a; try discriminate Hq; cbn [reduce_pane_action].
  all: first [ apply composer_submission_accepted_ok | apply thread_submission_accepted_ok
             | apply queued_ok | apply settled_ok
             | eapply calm_ok; [by first [apply send_text_submitted_is_calm | apply thread_reply_submitted_is_calm]|] ];
    done.
Qed.
(** The panes are as they were but for the session and the errors. *)
Lemma only_session_ok s s' :
  timeline s' = timeline s -> thread s' = thread s -> panes_ok s -> panes_ok s'.
Proof.
  intros Et Eth. unfold panes_ok, main_ok, thread_ok, registry, main_composer. by rewrite Et, Eth.
Qed.
Lemma sync_auth_failed_fields s :
  timeline (sync_auth_failed s) = timeline s /\ thread (sync_auth_failed s) = thread s.
Proof. unfold sync_auth_failed. by destruct (session s). Qed.
Lemma capability_blocked_fields s info :
  timeline (capability_blocked s info) = timeline s /\ thread (capability_blocked s info) = thread s.
Proof. unfold capability_blocked. destruct (session s); try done; by case_bool_decide. Qed.
Lemma step_session_fields s next :
  timeline (pane_step s (Step_Session next)).1 = timeline s
  /\ thread (pane_step s (Step_Session next)).1 = thread s.
Proof. by destruct next. Qed.

Definition step_heard (s : Panes) (step : PaneStep) : Prop :=
  match step with Step_Action a => hears s a | _ => True end.
Lemma pane_step_ok s step : panes_ok s -> step_heard s step -> panes_ok (pane_step s step).1.
Proof.
  intros Hok Hh. destruct step as [a|id|id|previous| |phase|info l| |info|next|next].
  - cbn [pane_step]. unfold reduce_panes.
    destruct (reduce_pane_action s a) as [s' e] eqn:E. cbn [fst].
    eapply calm_ok; [apply markers_are_calm|]. pose proof (pane_action_ok s a Hok Hh) as H.
    by rewrite E in H.
  - apply fresh_panes_ok; [apply Hok|apply composer_for_room_idle|done].
  - apply fresh_panes_ok; [apply Hok|apply composer_for_room_idle|done].
  - apply fresh_panes_ok; [apply registry_default_ok|done..].
  - by apply retire_ready_session_ok.
  - by apply retire_ready_session_ok.
  - by apply (only_session_ok s).
  - apply (only_session_ok s); [apply sync_auth_failed_fields..|done].
  - apply (only_session_ok s); [apply capability_blocked_fields..|done].
  - apply fresh_panes_ok; [apply registry_default_ok|done..].
  - apply (only_session_ok s); [apply step_session_fields..|done].
Qed.

Definition pane_run (s : Panes) (steps : list PaneStep) : Panes :=
  foldl (fun s step => (pane_step s step).1) s steps.
(** Every settlement of the run is heard. *)
Fixpoint run_heard (s : Panes) (steps : list PaneStep) : Prop :=
  match steps with
  | [] => True
  | step :: steps => step_heard s step /\ run_heard (pane_step s step).1 steps
  end.
Lemma pane_run_ok s steps : panes_ok s -> run_heard s steps -> panes_ok (pane_run s steps).
Proof.
  revert s. induction steps as [|step steps IH]; intros s Hok; [done|].
  intros [Hh Hs]. by apply IH; [apply pane_step_ok|].
Qed.
Lemma default_panes_ok : panes_ok Panes_default.
Proof. by apply fresh_panes_ok; [apply registry_default_ok|..]. Qed.
