(* ===== verification/SubmissionProps.v ===== *)
(** Properties of sending from the composers: the outcome of a submission releases the composer
    that waits for it, a submission is sent once, and what is lost when the active room is
    cleared. *)

From stdpp Require Import base list strings gmap.
From Stdlib Require Import ZArith Lia.
From S2P Require Import Prelude Text AppState Markdown ComposerDocument DraftStore Staging Panes Conversation TimelinePane ThreadPane PaneActions PaneProps.
Local Open Scope string_scope.
Local Open Scope list_scope.

(** * Waiting composers are released *)

(** The notice a failed outcome leaves. *)
Definition notice (outcome : ComposerSubmissionTerminalOutcome) : list AppError :=
  match outcome with
  | Outcome_Failed message =>
      [{| error_code := "send_text_failed"; error_message := message; recoverable := true;
          error_reason := None |}]
  | _ => []
  end.
Definition notice_events (outcome : ComposerSubmissionTerminalOutcome) : list PaneEffect :=
  match outcome with Outcome_Failed _ => [EmitUiEvent ErrorChanged] | _ => [] end.
(** The composer waits for nothing. *)
Definition at_rest (c : ComposerState) : Prop :=
  pending_submission_id c = None /\ pending_transaction_id c = None /\ pending_send_kind c = None.

Lemma released_rests (b : bool) k c :
  at_rest (if b then settle_thread_reply_mode k (release c) else release c).
Proof. destruct b; [|done]. unfold settle_thread_reply_mode. by repeat case_match. Qed.

Lemma settled_twice s r id tx target outcome :
  registry s = remember_settled r id -> handle_settled s id tx target outcome = (s, []).
Proof.
  intros Hr. unfold handle_settled. unfold registry in Hr. rewrite Hr.
  replace (active_matches _ id tx target) with false; [done|]. symmetry. apply not_true_is_false.
  intros H%active_matches_spec. cbn in H. apply list_elem_of_filter in H as [H _]. by apply H.
Qed.

(** C4: In every run of the conversation panes, whatever the order of sends, outcomes, room
    selections, locks, blocks, sign-outs and sign-ins, in which no outcome arrives while a composer
    waits and the session is not ready, a composer that waits for a submission holds the
    transaction under which the submission is registered; and while the session is ready, the
    settled outcome of that submission puts the composer to rest, leaves the other composer alone,
    reports exactly a failed outcome as an error, and cannot settle twice. *)
Theorem waiting_composers_are_released steps :
  run_heard Panes_default steps ->
  let s := pane_run Panes_default steps in
  is_session_ready s = true ->
  (forall room id outcome,
     timeline_room_id (timeline s) = Some room ->
     pending_submission_id (main_composer s) = Some id ->
     exists tx, pending_transaction_id (main_composer s) = Some tx
     /\ let '(s', effects) := handle_settled s id tx (Main room) outcome in
        at_rest (main_composer s') /\ thread s' = thread s
        /\ errors s' = errors s ++ notice outcome
        /\ effects = EmitUiEvent (TimelineChanged room) :: notice_events outcome
        /\ forall outcome', handle_settled s' id tx (Main room) outcome' = (s', []))
  /\ (forall t id outcome,
     thread s = Thread_Open t -> pending_submission_id (thread_composer t) = Some id ->
     exists tx, pending_transaction_id (thread_composer t) = Some tx
     /\ let target := Thread (open_room_id t) (open_root_event_id t) in
        let '(s', effects) := handle_settled s id tx target outcome in
        (exists t', thread s' = Thread_Open t' /\ at_rest (thread_composer t'))
        /\ main_composer s' = main_composer s
        /\ errors s' = errors s ++ notice outcome
        /\ effects = EmitUiEvent ThreadChanged :: notice_events outcome
        /\ forall outcome', handle_settled s' id tx target outcome' = (s', [])).
Proof.
  intros Hrun s Hr. pose proof (pane_run_ok _ steps default_panes_ok Hrun) as Hok.
  fold s in Hok. clearbody s. pose proof Hok as (_ & Hm & Ht). split.
  - intros room id outcome Hroom Hid. unfold main_ok in Hm. rewrite Hroom in Hm.
    destruct (Hm id Hid) as (tx & Htx & Hin). apply active_matches_spec in Hin. exists tx.
    split; [done|].
    destruct (main_waits_under s id tx (Main room) Hok Hin Hid) as (Hp & room' & [= <-] & Hs).
    rewrite (settled_main s id tx room outcome Hin Hr Hs Hp).
    pose proof (released_rests (succeeded outcome) (pending_send_kind (main_composer s)) (main_composer s)) as Hrest.
    destruct outcome as [|m|]; cbn [report_failure notice notice_events]; rewrite ?app_nil_r.
    all: split; [exact Hrest|]; split; [done|]; split; [done|]; split; [done|].
    all: intros outcome'; by apply (settled_twice _ (registry s)).
  - intros t id outcome Et Hid. unfold thread_ok in Ht. rewrite Et in Ht.
    destruct (Ht id Hid) as (tx & Htx & Hin). apply active_matches_spec in Hin. exists tx.
    split; [done|]. intros target.
    destruct (thread_waits_under s id tx target Hok Hin t Et Hid) as (Hp & _).
    unfold target. rewrite (settled_thread s id tx t outcome Hin Hr Et Hp).
    pose proof (released_rests (succeeded outcome) (pending_send_kind (thread_composer t)) (thread_composer t)) as Hrest.
    destruct outcome as [|m|]; cbn [report_failure notice notice_events]; rewrite ?app_nil_r.
    all: split; [eexists; split; [done|exact Hrest]|].
    all: split; [done|]; split; [done|]; split; [done|].
    all: intros outcome'; by apply (settled_twice _ (registry s)).
Qed.

(** ** An example run *)

Definition sample_info : SessionInfo :=
  {| homeserver := "https://example.org"; user_id := "@a:example.org"; device_id := "D";
     authentication_method := Auth_Password |}.
Definition sample_room : PaneRoom :=
  {| room_id := "!r"; thread_unread_count := 0; thread_highlight_count := 0; room_rest := "" |}.
Definition sample_text (t : string) : Document := from_plain_text t.
(** Sign in, show the room, type, and send. *)
Definition sending_steps : list PaneStep :=
  [Step_Ready sample_info [sample_room]; Step_Select "!r";
   Step_Action (ComposerDraftChanged "!r" (sample_text "hello"));
   Step_Action (ComposerSubmissionAccepted "s1" "!r" "t1" "hello")].
Lemma waiting_composers_are_released_witness :
  pending_submission_id (main_composer (pane_run Panes_default sending_steps)) = Some "s1"
  /\ exists tx, pending_transaction_id (main_composer (pane_run Panes_default sending_steps)) = Some tx.
Proof.
  split; [vm_compute; reflexivity|].
  assert (Hrun : run_heard Panes_default sending_steps) by repeat split.
  destruct (proj1 (waiting_composers_are_released sending_steps Hrun ltac:(vm_compute; reflexivity))
              "!r" "s1" Outcome_Succeeded) as (tx & Htx & _).
  - vm_compute. reflexivity.
  - vm_compute. reflexivity.
  - exact (ex_intro _ tx Htx).
Defined.

(** The sync loses its authentication while a message is sent; its outcome arrives before the user
    has signed in again. *)
Definition lost_outcome_steps : list PaneStep :=
  sending_steps ++
  [Step_SyncAuthFailed;
   Step_Action (ComposerSubmissionSettled "s1" "t1" (Main "!r") (Outcome_Failed "refused"));
   Step_Session (Session_Provisional sample_info Phase_CheckingTrust);
   Step_Ready sample_info [sample_room]].
(** The session is ready again, the room is still shown, and its composer waits for a submission
    that no outcome can settle any more. *)
Theorem lost_outcome_strands_the_composer :
  let s := pane_run Panes_default lost_outcome_steps in
  is_session_ready s = true /\ timeline_room_id (timeline s) = Some "!r"
  /\ pending_submission_id (main_composer s) = Some "s1"
  /\ forall tx target outcome, handle_settled s "s1" tx target outcome = (s, []).
Proof.
  intros s. split; [vm_compute; reflexivity|]. split; [vm_compute; reflexivity|].
  split; [vm_compute; reflexivity|]. intros tx target outcome. unfold handle_settled.
  assert (Hr : active_submissions (submission_registry (timeline s)) = []) by (vm_compute; reflexivity).
  unfold active_matches. by rewrite Hr.
Qed.

(** * A submission is sent once *)

(** The submission an action accepts, when accepting it had an effect. *)
Definition accepted_by (a : PaneAction) : option SubmissionId :=
  match a with
  | ComposerSubmissionAccepted id _ _ _ | ComposerSubmissionAcceptedAtRevision id _ _ _ _
  | ThreadSubmissionAccepted id _ _ _ | ThreadSubmissionAcceptedAtRevision id _ _ _ _ => Some id
  | _ => None
  end.
Definition sent_by (s : Panes) (step : PaneStep) : list SubmissionId :=
  match step with
  | Step_Action a =>
      match accepted_by a, (pane_step s step).2 with Some id, _ :: _ => [id] | _, _ => [] end
  | _ => []
  end.
Fixpoint sent_in (s : Panes) (steps : list PaneStep) : list SubmissionId :=
  match steps with
  | [] => []
  | step :: steps => sent_by s step ++ sent_in (pane_step s step).1 steps
  end.
Definition settles (step : PaneStep) : bool :=
  match step with Step_Action (ComposerSubmissionSettled _ _ _ _) => true | _ => false end.
Definition clears (step : PaneStep) : bool :=
  match step with Step_Clear _ | Step_Retire _ => true | _ => false end.

Lemma main_accept_registry s id room tx text r :
  let '(s', effects) := handle_composer_submission_accepted s id room tx text r in
  (registry s' = registry s /\ effects = [])
  \/ (known_submission (registry s) id = false
     /\ registry s' = remember_accepted (registry s) id tx (Main room)).
Proof.
  unfold handle_composer_submission_accepted.
  destruct (is_session_ready s); [|by left]. cbn [negb].
  destruct (known_submission _ id) eqn:Hk; [by left|].
  set (s1 := on_registry _ s).
  assert (Hr : registry s1 = remember_accepted (registry s) id tx (Main room)) by done.
  destruct (checked_successor _ r); [|by right]. destruct (_ || _ || _ || _); [by right|]. cbv zeta.
  destruct (return_main_pane_to_live_for_accepted_send _ room) as [s2 e] eqn:E.
  apply accepted_send_fields in E as (Et & _). right. split; [done|].
  unfold registry. cbn. by rewrite Et.
Qed.
Lemma thread_accept_registry s id room root tx r :
  let '(s', effects) := handle_thread_submission_accepted s id room root tx r in
  (registry s' = registry s /\ effects = [])
  \/ (known_submission (registry s) id = false
     /\ registry s' = remember_accepted (registry s) id tx (Thread room root)).
Proof.
  unfold handle_thread_submission_accepted.
  destruct (is_session_ready s); [|by left]. cbn [negb].
  destruct (known_submission _ id) eqn:Hk; [by left|]. cbv zeta.
  destruct (checked_successor _ r); [|by right]. destruct (open_thread _ room root); [|by right].
  destruct (_ || _ || _); by right.
Qed.

Lemma send_text_submitted_registry s id tx text r :
  registry (handle_send_text_submitted s id tx text r).1 = registry s.
Proof.
  unfold handle_send_text_submitted, registry. repeat (case_match; simplify_eq/=); try done.
  all: match goal with H : return_main_pane_to_live_for_accepted_send _ _ = _ |- _ =>
         apply accepted_send_fields in H as (Ht & _) end; by rewrite ?Ht.
Qed.
Lemma thread_reply_submitted_registry s id root tx r :
  registry (handle_thread_reply_submitted s id root tx r).1 = registry s.
Proof. unfold handle_thread_reply_submitted, registry. by repeat (case_match; simplify_eq/=). Qed.

(** What an action does to the registry. *)
Lemma registry_moves s a :
  let '(s', effects) := reduce_pane_action s a in
  (registry s' = registry s /\ (accepted_by a <> None -> effects = []))
  \/ (exists id tx target, accepted_by a = Some id /\ known_submission (registry s) id = false
        /\ registry s' = remember_accepted (registry s) id tx target)
  \/ (exists id, accepted_by a = None /\ registry s' = remember_queued (registry s) id)
  \/ (exists id, accepted_by a = None /\ settles (Step_Action a) = true
        /\ registry s' = remember_settled (registry s) id).
Proof.
  destruct (reduce_pane_action s a) as [s' effects] eqn:E.
  destruct (quiet a) eqn:Hq.
  { pose proof (quiet_is_calm s a Hq) as (Hr & _). rewrite E in Hr. left. split; [exact Hr|].
    intros Ha. by destruct a. }
  destruct a; try discriminate Hq; cbn [reduce_pane_action] in E.
  all: match type of E with
  | handle_send_text_submitted _ ?i ?t ?x ?r = _ =>
      left; split; [|done]; pose proof (send_text_submitted_registry s i t x r) as Hr;
      by rewrite E in Hr
  | handle_thread_reply_submitted _ ?i ?o ?t ?r = _ =>
      left; split; [|done]; pose proof (thread_reply_submitted_registry s i o t r) as Hr;
      by rewrite E in Hr
  | handle_composer_submission_accepted _ ?d ?i ?t ?x ?r = _ =>
      pose proof (main_accept_registry s d i t x r) as H; rewrite E in H; cbv beta iota in H; 
      destruct H as [[H He]|[Hk H]]; [by left|right; left; by repeat eexists]
  | handle_thread_submission_accepted _ ?d ?i ?o ?t ?r = _ =>
      pose proof (thread_accept_registry s d i o t r) as H; rewrite E in H; cbv beta iota in H; 
      destruct H as [[H He]|[Hk H]]; [by left|right; left; by repeat eexists]
  | handle_queued _ ?d ?t ?g ?r = _ =>
      destruct (active_matches (registry s) d t g) eqn:Ha;
      [ right; right; left; exists d; split; [done|];
        pose proof (queued_is_calm s d t g r Ha) as (Hr & _); by rewrite E in Hr
      | left; split; [|done]; unfold handle_queued in E; unfold registry in Ha; rewrite Ha in E;
        by injection E as <- _ ]
  | handle_settled _ ?d ?t ?g ?o = _ =>
      destruct (active_matches (registry s) d t g) eqn:Ha;
      [ right; right; right; exists d; split; [done|]; split; [done|];
        pose proof (settled_is_calm s d t g o Ha) as (Hr & _); by rewrite E in Hr
      | left; split; [|done]; unfold handle_settled in E; unfold registry in Ha; rewrite Ha in E;
        by injection E as <- _ ]
  end.
Qed.

(** * The panes are well formed *)

Lemma moved_registry_ok s a :
  registry_ok (registry s) -> registry_ok (registry (reduce_pane_action s a).1).
Proof.
  intros Hr. destruct (quiet a) eqn:Hq.
  { pose proof (quiet_is_calm s a Hq) as (E & _). by rewrite E. }
  destruct a; try discriminate Hq; cbn [reduce_pane_action].
  all: lazymatch goal with
  | |- context [handle_send_text_submitted] => by rewrite send_text_submitted_registry
  | |- context [handle_thread_reply_submitted] => by rewrite thread_reply_submitted_registry
  | |- context [handle_composer_submission_accepted ?z ?d ?i ?t ?x ?r] =>
      pose proof (main_accept_registry z d i t x r) as H;
      destruct (handle_composer_submission_accepted z d i t x r) as [s' e]; cbn [fst];
      destruct H as [[-> _]|[Hk ->]]; [done|by apply remember_accepted_ok]
  | |- context [handle_thread_submission_accepted ?z ?d ?i ?o ?t ?r] =>
      pose proof (thread_accept_registry z d i o t r) as H;
      destruct (handle_thread_submission_accepted z d i o t r) as [s' e]; cbn [fst];
      destruct H as [[-> _]|[Hk ->]]; [done|by apply remember_accepted_ok]
  | |- context [handle_queued ?z ?d ?t ?g ?r] =>
      destruct (active_matches (registry z) d t g) eqn:Ha;
      [ pose proof (queued_is_calm z d t g r Ha) as (E & _); rewrite E;
        apply remember_queued_ok; [done|]; apply active_matches_spec in Ha;
        destruct Hr as (Hids & _); change (submission_registry (timeline z)) with (registry z); rewrite Hids;
        apply list_elem_of_fmap; eexists; by split; [|exact Ha]
      | unfold handle_queued; unfold registry in Ha; by rewrite Ha ]
  | |- context [handle_settled ?z ?d ?t ?g ?o] =>
      destruct (active_matches (registry z) d t g) eqn:Ha;
      [ pose proof (settled_is_calm z d t g o Ha) as (E & _); rewrite E;
        by apply remember_settled_ok
      | unfold handle_settled; unfold registry in Ha; by rewrite Ha ]
  end.
Qed.
Lemma step_registry_ok s step :
  registry_ok (registry s) -> registry_ok (registry (pane_step s step).1).
Proof.
  intros Hr. destruct step as [a|id|id|previous| |phase|info l| |info|next|next]; try done.
  - cbn [pane_step]. unfold reduce_panes. pose proof (moved_registry_ok s a Hr) as H.
    destruct (reduce_pane_action s a) as [s' e]. cbn [fst] in *.
    by rewrite (proj1 (markers_are_calm s')).
  - apply registry_default_ok.
  - cbn. unfold retire_ready_session. by destruct (session s).
  - cbn. unfold retire_ready_session. by destruct (session s).
  - unfold registry. cbn [pane_step fst]. by rewrite (proj1 (sync_auth_failed_fields s)).
  - unfold registry. cbn [pane_step fst]. by rewrite (proj1 (capability_blocked_fields s info)).
  - apply registry_default_ok.
  - unfold registry. by rewrite (proj1 (step_session_fields s next)).
Qed.

(** C36: The panes reachable from the initial state by actions, room selections and clears, locks,
    gates, blocks, sign-outs and sign-ins have a well-formed registry: the accepted submission ids
    are those of its active records, without repetition and disjoint from the settled ones, the
    queued ids are among them, and at most 128 queued and 128 settled ids are kept.  In runs in
    which no outcome arrives while a composer waits and the session is not ready, a composer that
    waits is registered under its own target and transaction. *)
Theorem reachable_panes_are_well_formed steps :
  let s := pane_run Panes_default steps in
  registry_ok (registry s) /\ (run_heard Panes_default steps -> main_ok s /\ thread_ok s).
Proof.
  split.
  - assert (H : registry_ok (registry Panes_default)) by apply registry_default_ok.
    revert H. generalize Panes_default. induction steps as [|step steps IH]; [done|].
    intros s Hs. by apply IH, step_registry_ok.
  - intros Hrun. apply (pane_run_ok _ steps default_panes_ok Hrun).
Qed.

Definition known (s : Panes) (id : SubmissionId) : Prop := known_submission (registry s) id = true.

Lemma known_spec r id :
  known_submission r id = true <-> id ∈ accepted_submission_ids r \/ id ∈ settled_submission_ids r.
Proof. unfold known_submission. by rewrite orb_true_iff, !bool_decide_eq_true. Qed.
Lemma remember_accepted_known r id tx target x :
  known_submission r x = true \/ x = id -> known_submission (remember_accepted r id tx target) x = true.
Proof.
  rewrite !known_spec. unfold remember_accepted. case_bool_decide as Ha.
  - by intros [H| ->]; [|left].
  - cbn. intros [[H|H]| ->]; [left; apply elem_of_app; by left|by right|].
    left. apply elem_of_app. right. by apply list_elem_of_singleton.
Qed.
Lemma remember_bounded_keeps ids id x :
  (length ids < 128)%nat -> x ∈ ids -> x ∈ remember_bounded_id ids id.
Proof.
  intros Hl Hx. unfold remember_bounded_id. case_bool_decide; [done|]. apply elem_of_app. left.
  unfold make_room, MAX_ACCEPTED_SUBMISSION_TOMBSTONES.
  by replace (S (length ids) - 128)%nat with 0%nat by lia.
Qed.
Lemma remember_settled_known r id x :
  (length (settled_submission_ids r) < 128)%nat -> known_submission r x = true ->
  known_submission (remember_settled r id) x = true.
Proof.
  rewrite !known_spec. intros Hl [H|H]; cbn; [|right; by apply remember_bounded_keeps].
  destruct (decide (x = id)) as [->|Hne]; [right; apply remember_bounded_in|].
  left. by apply list_elem_of_filter.
Qed.
Lemma remember_bounded_grows ids id : (length (remember_bounded_id ids id) <= S (length ids))%nat.
Proof.
  unfold remember_bounded_id. case_bool_decide; [lia|]. unfold make_room.
  rewrite length_app, length_drop. cbn [length]. lia.
Qed.

Definition settled_count (s : Panes) : nat := length (settled_submission_ids (registry s)).

(** One step: what was known stays known, what it sends was not known and is known after it, and
    only a settlement lengthens the list of settled ids. *)
Lemma step_knows s step :
  clears step = false -> (settles step = true -> (settled_count s < 128)%nat) ->
  let s' := (pane_step s step).1 in
  (forall id, known s id -> known s' id)
  /\ (forall id, id ∈ sent_by s step -> ~ known s id /\ known s' id)
  /\ (settled_count s' <= settled_count s + if settles step then 1 else 0)%nat
  /\ NoDup (sent_by s step).
Proof.
  intros Hc Hb s'.
  assert (Hstill : registry s' = registry s -> sent_by s step = [] ->
    (forall id, known s id -> known s' id)
    /\ (forall id, id ∈ sent_by s step -> ~ known s id /\ known s' id)
    /\ (settled_count s' <= settled_count s + if settles step then 1 else 0)%nat
    /\ NoDup (sent_by s step)).
  { unfold known, settled_count. intros Hr ->. rewrite Hr. split; [done|].
    split; [intros x Hx; by apply not_elem_of_nil in Hx|]. split; [|constructor].
    destruct (settles step); lia. }
  destruct step as [a|id|id|previous| |phase|info l| |info|next|next]; try discriminate Hc;
    try (by apply Hstill).
  all: try (apply Hstill; [|done]; unfold s'; cbn; unfold retire_ready_session; destruct (session s); done).
  2: { apply Hstill; [|done]. unfold s', registry. cbn [pane_step fst].
       by rewrite (proj1 (sync_auth_failed_fields s)). }
  2: { apply Hstill; [|done]. unfold s', registry. cbn [pane_step fst].
       by rewrite (proj1 (capability_blocked_fields s info)). }
  2: { apply Hstill; [|done]. unfold s', registry. by rewrite (proj1 (step_session_fields s next)). }
  clear Hc. pose proof (registry_moves s a) as Hm. unfold s', sent_by in *. clear s'.
  cbn [pane_step] in *. unfold reduce_panes in *. destruct (reduce_pane_action s a) as [s1 e].
  cbn [fst snd] in *. set (s' := sync_assistant_draft_markers s1) in *.
  assert (Hr : registry s' = registry s1) by apply (markers_are_calm s1).
  destruct Hm as [[Hs He]|[(id & tx & t & Ha & Hk & Hs)|[(id & Ha & Hs)|(id & Ha & Hset & Hs)]]].
  - apply Hstill; [congruence|]. destruct (accepted_by a); [|done]. by rewrite He.
  - unfold known, settled_count. rewrite Hr, Hs, Ha. split; [|split; [|split]].
    + intros x Hx. apply remember_accepted_known. by left.
    + intros x Hx. assert (x = id) as ->.
      { destruct e; [by apply not_elem_of_nil in Hx|by apply list_elem_of_singleton in Hx]. }
      split; [congruence|]. apply remember_accepted_known. by right.
    + unfold remember_accepted. case_bool_decide; cbn; lia.
    + destruct e; [constructor|apply NoDup_singleton].
  - unfold known, settled_count. rewrite Hr, Hs, Ha.
    split; [done|]. split; [intros x Hx; by apply not_elem_of_nil in Hx|].
    split; [cbn; lia|constructor].
  - unfold known, settled_count in *. rewrite Hr, Hs, Ha.
    split; [intros x; by apply remember_settled_known, Hb|].
    split; [intros x Hx; by apply not_elem_of_nil in Hx|]. split; [|constructor].
    rewrite Hset. cbn. pose proof (remember_bounded_grows (settled_submission_ids (registry s)) id). lia.
Qed.

Lemma sent_is_new steps : forall s n,
  Forall (fun step => clears step = false) steps ->
  (settled_count s + length (filter (fun step => settles step = true) steps) <= 128)%nat ->
  n = settled_count s ->
  NoDup (sent_in s steps) /\ (forall id, id ∈ sent_in s steps -> ~ known s id).
Proof.
  induction steps as [|step steps IH]; intros s n Hc Hb Hn.
  { split; [constructor|]. intros id Hid. by apply not_elem_of_nil in Hid. }
  apply Forall_cons in Hc as [Hc Hcs]. rewrite filter_cons in Hb.
  assert (Hcount : (settled_count s + (if settles step then 1 else 0)
                    + length (filter (fun step => settles step = true) steps) <= 128)%nat).
  { destruct (settles step); case_decide; cbn [length] in Hb; try done; lia. }
  destruct (step_knows s step Hc) as (Hk & Hsent & Hl & Hnd).
  { intros Hs. rewrite Hs in Hcount. lia. }
  destruct (IH (pane_step s step).1 _ Hcs ltac:(lia) eq_refl)
    as [Hnd' Hnew].
  cbn [sent_in]. split.
  - apply NoDup_app. split; [done|]. split; [|done].
    intros id Hid Hid'. by destruct (Hsent id Hid), (Hnew id Hid').
  - intros id [Hid|Hid]%elem_of_app; [by apply Hsent|].
    intros Hkn. by apply (Hnew id Hid), Hk.
Qed.

(** C5: In a run that never clears the active room nor signs out, and settles at most 128
    submissions, no submission id is sent twice: each id is accepted with an effect at most once,
    across both composers, room selections, locks, gates, blocks and sign-ins. *)
Theorem submission_is_sent_once steps :
  Forall (fun step => clears step = false) steps ->
  (length (filter (fun step => settles step = true) steps) <= 128)%nat ->
  NoDup (sent_in Panes_default steps).
Proof.
  intros Hc Hb. by apply (sent_is_new steps Panes_default 0 Hc).
Qed.
(** The same submission is offered again after its outcome, and in another room. *)
Definition resending_steps : list PaneStep :=
  sending_steps ++
  [Step_Action (ComposerSubmissionAccepted "s1" "!r" "t1" "hello");
   Step_Action (ComposerSubmissionSettled "s1" "t1" (Main "!r") Outcome_Succeeded);
   Step_Action (ComposerSubmissionAccepted "s1" "!r" "t2" "hello");
   Step_Action (ComposerSubmissionAccepted "s2" "!r" "t3" "again")].
Lemma submission_is_sent_once_witness :
  sent_in Panes_default resending_steps = ["s1"; "s2"]
  /\ NoDup (sent_in Panes_default resending_steps).
Proof.
  split; [vm_compute; reflexivity|]. apply submission_is_sent_once.
  - repeat (apply List.Forall_cons; [reflexivity|]). apply List.Forall_nil.
  - vm_compute. lia.
Defined.

(** * Clearing the active room *)

(** Clearing the active room drops the submission registry, which every selection of a room
    carries over: afterwards the queued and the settled outcome of every submission in flight are
    ignored, so a draft that was sent is not cleared and a failed send is never reported; and the
    same submission can be sent a second time. *)
Theorem clearing_a_room_forgets_submissions :
  (forall s previous id tx target revision outcome,
     let s' := (clear_active_room_for_navigation s previous).1 in
     handle_queued s' id tx target revision = (s', [])
     /\ handle_settled s' id tx target outcome = (s', []))
  /\ (forall s room,
     registry (select_active_room_for_navigation s room).1 = registry s
     /\ registry (select_active_room_after_room_list_update s room).1 = registry s)
  /\ sent_in Panes_default
       (sending_steps ++
        [Step_Clear "!r"; Step_Select "!r";
         Step_Action (ComposerSubmissionSettled "s1" "t1" (Main "!r") (Outcome_Failed "refused"));
         Step_Action (ComposerSubmissionAccepted "s1" "!r" "t1" "hello")])
     = ["s1"; "s1"].
Proof. split; [done|]. split; [done|]. vm_compute. reflexivity. Qed.
