(* ===== verification/Profiles.v ===== *)
(** Profiles and the names people are shown under ([koushi-state/src/state/profile.rs]), avatars
    and their downloaded thumbnails ([reducer/avatar.rs] and [update_avatar_thumbnail] of
    [reducer/profile.rs]).

    A [BTreeMap] is a [gmap] and a [BTreeSet] a [gset]; where the code iterates one into a
    list the order is that of [Text.btree_iter]. *)

From stdpp Require Import base list strings gmap.
From Stdlib Require Import ZArith Lia.
From S2P Require Import Prelude Text.
Local Open Scope string_scope.
Local Open Scope list_scope.
Local Open Scope Z_scope.
Local Set Warnings "-clear-no-such-hyp".

(** * Avatars *)

Inductive AvatarThumbnailFailureKind :=
  | Avatar_Network | Avatar_Forbidden | Avatar_Unsupported | Avatar_Sdk | Avatar_Capacity.
Inductive AvatarThumbnailState :=
  | Thumbnail_NotRequested
  | Thumbnail_Loading (request_id : Z)
  | Thumbnail_Ready (source_ref : string) (width height : option Z) (mime_type : option string)
  | Thumbnail_Failed (request_id : Z) (kind : AvatarThumbnailFailureKind).
Record AvatarImage := { avatar_mxc_uri : string; avatar_thumbnail : AvatarThumbnailState }.

#[export] Instance AvatarThumbnailFailureKind_eq : EqDecision AvatarThumbnailFailureKind.
Proof. solve_decision. Defined.
#[export] Instance AvatarThumbnailState_eq : EqDecision AvatarThumbnailState.
Proof. solve_decision. Defined.
#[export] Instance AvatarImage_eq : EqDecision AvatarImage.
Proof. solve_decision. Defined.

#[export] Instance AvatarImage_updatable : Updatable AvatarImage := fun a =>
  {| avatar_mxc_uri := avatar_mxc_uri a; avatar_thumbnail := avatar_thumbnail a |}.

(** The thumbnails the client already downloads or holds, by their source. *)
Abbreviation KnownThumbnails := (gmap string AvatarThumbnailState).

Definition remember_known_avatar_thumbnail (known : KnownThumbnails) (avatar : option AvatarImage)
    : KnownThumbnails :=
  match avatar with
  | Some a => if decide (avatar_thumbnail a = Thumbnail_NotRequested) then known
              else <[avatar_mxc_uri a := avatar_thumbnail a]> known
  | None => known
  end.

Definition preserve_avatar_thumbnail (known : KnownThumbnails) (avatar : option AvatarImage)
    : option AvatarImage :=
  match avatar with
  | Some a =>
      if negb (bool_decide (avatar_thumbnail a = Thumbnail_NotRequested)) then avatar
      else match known !! avatar_mxc_uri a with
           | Some thumbnail => Some (a <| avatar_thumbnail := thumbnail |>)
           | None => avatar
           end
  | None => None
  end.

(** The avatar after the update, and whether it changed. *)
Definition update_avatar_thumbnail (avatar : option AvatarImage) (mxc_uri : string)
    (thumbnail : AvatarThumbnailState) : option AvatarImage * bool :=
  match avatar with
  | Some current =>
      if negb (String.eqb (avatar_mxc_uri current) mxc_uri)
         || bool_decide (avatar_thumbnail current = thumbnail)
      then (avatar, false)
      else (Some (current <| avatar_thumbnail := thumbnail |>), true)
  | None => (None, false)
  end.

(** * Data *)

Record OwnProfile := { own_display_name : option string; own_avatar : option AvatarImage }.
Record UserProfile := {
  prof_user_id : string; prof_display_name : option string; prof_display_label : string;
  prof_original_display_label : string; mention_search_terms : list string;
  prof_avatar : option AvatarImage }.
Inductive LocalUserAliasUpdateState := AliasUpdate_Idle | AliasUpdate_Saving (request_id : Z).
Inductive IgnoredUserUpdateState := IgnoredUpdate_Idle | IgnoredUpdate_Saving (request_id : Z).
Inductive ProfileUpdateState :=
  | ProfileUpdate_Idle
  | SettingDisplayName (request_id : Z) (display_name : option string)
  | SettingAvatar (request_id : Z) (mime_type : string) (byte_count : Z).
Inductive ProfileUpdateRequest :=
  | SetDisplayName (display_name : option string)
  | SetAvatar (mime_type : string) (byte_count : Z).
Record ProfileState := {
  own : OwnProfile; users : gmap string UserProfile;
  room_users : gmap string (gmap string UserProfile); local_aliases : gmap string string;
  local_alias_update : LocalUserAliasUpdateState; ignored_user_ids : gset string;
  ignored_user_update : IgnoredUserUpdateState; profile_update : ProfileUpdateState }.

#[export] Instance OwnProfile_updatable : Updatable OwnProfile := fun p =>
  {| own_display_name := own_display_name p; own_avatar := own_avatar p |}.
#[export] Instance UserProfile_updatable : Updatable UserProfile := fun p =>
  {| prof_user_id := prof_user_id p; prof_display_name := prof_display_name p;
     prof_display_label := prof_display_label p;
     prof_original_display_label := prof_original_display_label p;
     mention_search_terms := mention_search_terms p; prof_avatar := prof_avatar p |}.
#[export] Instance ProfileState_updatable : Updatable ProfileState := fun p =>
  {| own := own p; users := users p; room_users := room_users p;
     local_aliases := local_aliases p; local_alias_update := local_alias_update p;
     ignored_user_ids := ignored_user_ids p; ignored_user_update := ignored_user_update p;
     profile_update := profile_update p |}.

#[export] Instance OwnProfile_eq : EqDecision OwnProfile. Proof. solve_decision. Defined.
#[export] Instance UserProfile_eq : EqDecision UserProfile. Proof. solve_decision. Defined.

Definition ProfileState_default : ProfileState :=
  {| own := {| own_display_name := None; own_avatar := None |}; users := ∅; room_users := ∅;
     local_aliases := ∅; local_alias_update := AliasUpdate_Idle; ignored_user_ids := ∅;
     ignored_user_update := IgnoredUpdate_Idle; profile_update := ProfileUpdate_Idle |}.

Definition alias_update_is_idle (u : LocalUserAliasUpdateState) : bool :=
  match u with AliasUpdate_Idle => true | _ => false end.
Definition alias_update_request_id (u : LocalUserAliasUpdateState) : option Z :=
  match u with AliasUpdate_Idle => None | AliasUpdate_Saving id => Some id end.
Definition ignored_update_is_idle (u : IgnoredUserUpdateState) : bool :=
  match u with IgnoredUpdate_Idle => true | _ => false end.
Definition ignored_update_request_id (u : IgnoredUserUpdateState) : option Z :=
  match u with IgnoredUpdate_Idle => None | IgnoredUpdate_Saving id => Some id end.
Definition profile_update_is_idle (u : ProfileUpdateState) : bool :=
  match u with ProfileUpdate_Idle => true | _ => false end.
Definition profile_update_request_id (u : ProfileUpdateState) : option Z :=
  match u with
  | ProfileUpdate_Idle => None
  | SettingDisplayName id _ | SettingAvatar id _ _ => Some id
  end.

(** * Labels *)

(** [.map(str::trim).filter(|label| !label.is_empty())] *)
Definition nonblank (o : option string) : option string :=
  o ≫= fun label => let t := trim label in if is_empty t then None else Some t.

Definition UNKNOWN_USER : string := "Unknown user".

Inductive ProfileResolutionSource :=
  | Source_LocalAlias | Source_RelevantRoom | Source_SpaceRoom | Source_Payload
  | Source_GlobalCache | Source_LocalHomeserver | Source_Unresolved.
Record ProfileResolutionInput := {
  in_local_alias : option string; relevant_room_label : option string;
  space_room_label : option string; payload_label : option string;
  cached_label : option string; local_homeserver_label : option string }.
Record ProfileResolution := {
  resolution_label : string; resolution_source : ProfileResolutionSource }.

(** The labels in the order in which they are tried. *)
Definition resolution_order (input : ProfileResolutionInput)
    : list (ProfileResolutionSource * option string) :=
  [(Source_LocalAlias, in_local_alias input); (Source_RelevantRoom, relevant_room_label input);
   (Source_SpaceRoom, space_room_label input); (Source_Payload, payload_label input);
   (Source_GlobalCache, cached_label input);
   (Source_LocalHomeserver, local_homeserver_label input)].

Definition resolve_people_label (input : ProfileResolutionInput) : ProfileResolution :=
  match find_map (fun '(source, label) =>
          (fun t => {| resolution_label := t; resolution_source := source |}) <$> nonblank label)
        (resolution_order input) with
  | Some r => r
  | None => {| resolution_label := UNKNOWN_USER; resolution_source := Source_Unresolved |}
  end.

Definition normalize_local_user_alias (alias : option string) : option string := nonblank alias.

Definition is_ignored_user (profile : ProfileState) (user_id : option string) : bool :=
  is_some_and (nonblank user_id) (fun id => bool_decide (id ∈ ignored_user_ids profile)).

(** The own display name, when the user is the account's own. *)
Definition own_label (own_name : option string) (user_id : string) (own_user_id : option string)
    : option string :=
  if bool_decide (own_user_id = Some user_id) then nonblank own_name else None.

Definition resolve_user_display_name_from_parts (aliases : gmap string string)
    (own_name : option string) (user_id : string) (upstream : option string)
    (own_user_id : option string) : string :=
  default user_id
    (or_else (aliases !! user_id ≫= fun alias => if is_empty (trim alias) then None else Some alias)
    (or_else (nonblank upstream) (own_label own_name user_id own_user_id))).

Definition original_user_display_name_from_parts (own_name : option string) (user_id : string)
    (upstream own_user_id : option string) : string :=
  default user_id (or_else (nonblank upstream) (own_label own_name user_id own_user_id)).

Definition cached_display_name (profiles : ProfileState) (user_id : string) : option string :=
  users profiles !! user_id ≫= prof_display_name.

Definition resolve_user_display_name (profiles : ProfileState) (user_id : string)
    (upstream own_user_id : option string) : string :=
  resolve_user_display_name_from_parts (local_aliases profiles) (own_display_name (own profiles))
    user_id (or_else (nonblank upstream) (cached_display_name profiles user_id)) own_user_id.

Definition resolve_optional_user_display_name (profiles : ProfileState) (user_id : string)
    (upstream own_user_id : option string) : option string :=
  or_else (local_aliases profiles !! user_id)
 (or_else (nonblank upstream)
 (or_else (nonblank (cached_display_name profiles user_id))
          (own_label (own_display_name (own profiles)) user_id own_user_id))).

Definition original_user_display_name (profiles : ProfileState) (user_id : string)
    (upstream own_user_id : option string) : string :=
  original_user_display_name_from_parts (own_display_name (own profiles)) user_id
    (or_else (nonblank upstream) (cached_display_name profiles user_id)) own_user_id.

Definition push_unique_search_term (terms : list string) (term : string) : list string :=
  if bool_decide (term ∈ terms) then terms else terms ++ [term].
Definition user_mention_search_terms (display_label original_display_label user_id : string)
    : list string :=
  push_unique_search_term
    (push_unique_search_term (push_unique_search_term [] display_label) original_display_label)
    user_id.

(** One user of [refresh_profile_user_display_projection]. *)
Definition refresh_profile (profiles : ProfileState) (own_user_id : option string)
    (user_id : string) (profile : UserProfile) : UserProfile :=
  let own_name := own_display_name (own profiles) in
  let original :=
    original_user_display_name_from_parts own_name user_id (prof_display_name profile) own_user_id in
  let label :=
    resolve_user_display_name_from_parts (local_aliases profiles) own_name user_id
      (prof_display_name profile) own_user_id in
  profile <| mention_search_terms := user_mention_search_terms label original user_id |>
          <| prof_original_display_label := original |> <| prof_display_label := label |>.

Definition refresh_profile_user_display_projection (profiles : ProfileState)
    (own_user_id : option string) : ProfileState :=
  profiles <| users ::= map_imap (fun id p => Some (refresh_profile profiles own_user_id id p)) |>.

(** [v.dedup()]: equal neighbours are merged. *)
Fixpoint dedup (l : list string) : list string :=
  match l with
  | [] => []
  | x :: l =>
      match dedup l with
      | y :: l' => if String.eqb x y then y :: l' else x :: y :: l'
      | [] => [x]
      end
  end.
(** [values.sort(); values.dedup()] *)
Definition sorted_unique (values : list string) : list string :=
  dedup (sort_by String.leb values).
