(* ===== verification/TimelineItem.v ===== *)
(** Timeline items and their positional updates ([koushi-protocol/src/event/timeline.rs]), with
    the state types they are made of ([koushi-state/src/state/room_interactions.rs]; the
    avatars are in Profiles) and the thread-root rows of [koushi-core/src/threads_list.rs].

    An index into a list of items is a [nat]; timestamps, counters and pixel sizes are [Z].
    Every type derives [Eq] in the source, hence the [EqDecision] instances. *)

From stdpp Require Import base list strings gmap.
From Stdlib Require Import ZArith.
From S2P Require Import Prelude Text Markdown ComposerDocument Panes Profiles.
Local Open Scope string_scope.
Local Open Scope list_scope.

(** * Identity *)

Inductive TimelineItemId :=
  | Event (event_id : string) | Transaction (transaction_id : string) | Synthetic (synthetic_id : string).
#[export] Instance TimelineItemId_eq : EqDecision TimelineItemId.
Proof. solve_decision. Defined.

(** * Message content *)

Inductive TimelineSendFailureReason := Recoverable | Unrecoverable.
Inductive TimelineSendState :=
  | Send_Sending | Send_NotSent (reason : TimelineSendFailureReason) | Send_Cancelled | Send_Sent.
Record TimelineMessageActions := {
  can_copy : bool; can_forward : bool; can_reply : bool; can_pin : bool; can_permalink : bool;
  can_view_source : bool; action_permalink : option string;
  editable_document : option Document }.
Record TimelineCodeBlock := { code_language : option string; code_body : string }.
Record TimelineFormattedBody := {
  formatted_html : string; formatted_plain_text : string; formatted_code_blocks : list TimelineCodeBlock }.
Inductive TimelineMessageKind := Message_Text | Message_Emote | Message_Notice.
Record TimelineSpoilerSpan := {
  spoiler_start_utf16 : Z; spoiler_end_utf16 : Z; spoiler_reason : option string }.
Record TimelineLinkRange := { link_url : string; link_start_utf16 : Z; link_end_utf16 : Z }.
Inductive TimelineNoticeI18nKey :=
  | RoomCreate | RoomPowerLevels | RoomGuestAccess | RoomEncryption | SpaceParent | RoomJoinRules
  | RoomHistoryVisibility | RoomPinnedEvents | RoomPinnedEventPinned | RoomPinnedEventUnpinned
  | ProfileDisplayNameChanged | ProfileAvatarChanged | ProfileDisplayNameAndAvatarChanged
  | ProfileUpdated | RoomNameSet | RoomNameChanged | RoomNameRemoved | RoomNameChangedGeneric
  | RoomTopicSet | RoomTopicChanged | RoomTopicRemoved | RoomAvatarChanged | RoomAvatarRemoved
  | RoomThirdPartyInvite | RoomUpgraded | MalformedEvent | UnsupportedMessage
  | Notice_UnableToDecrypt | Poll | LiveLocation | Call.
Record TimelineNoticeI18n := {
  notice_value : option string; replacement_room_id : option string; notice_key : TimelineNoticeI18nKey;
  old_name : option string; new_name : option string }.

#[export] Instance TimelineSendFailureReason_eq : EqDecision TimelineSendFailureReason.
Proof. solve_decision. Defined.
#[export] Instance TimelineSendState_eq : EqDecision TimelineSendState.
Proof. solve_decision. Defined.
#[export] Instance TimelineMessageActions_eq : EqDecision TimelineMessageActions.
Proof. solve_decision. Defined.
#[export] Instance TimelineCodeBlock_eq : EqDecision TimelineCodeBlock.
Proof. solve_decision. Defined.
#[export] Instance TimelineFormattedBody_eq : EqDecision TimelineFormattedBody.
Proof. solve_decision. Defined.
#[export] Instance TimelineMessageKind_eq : EqDecision TimelineMessageKind.
Proof. solve_decision. Defined.
#[export] Instance TimelineSpoilerSpan_eq : EqDecision TimelineSpoilerSpan.
Proof. solve_decision. Defined.
#[export] Instance TimelineLinkRange_eq : EqDecision TimelineLinkRange.
Proof. solve_decision. Defined.
#[export] Instance TimelineNoticeI18nKey_eq : EqDecision TimelineNoticeI18nKey.
Proof. solve_decision. Defined.
#[export] Instance TimelineNoticeI18n_eq : EqDecision TimelineNoticeI18n.
Proof. solve_decision. Defined.

(** * Reply quotes *)

Inductive ReplyQuoteState :=
  | Quote_Loading | Quote_Ready | Quote_Redacted | Quote_Missing | Quote_Unsupported | Quote_Failed.
Inductive ReplyQuoteMediaKind :=
  | QuoteMedia_Image | QuoteMedia_Sticker | QuoteMedia_Video | QuoteMedia_File | QuoteMedia_Audio.
Record ReplyQuoteMedia := {
  quote_media_kind : ReplyQuoteMediaKind; quote_media_animated : bool; quote_media_width : option Z;
  quote_media_height : option Z; has_thumbnail_source : bool }.
Record ReplyQuoteCodeBlock := { quote_code_language : option string; quote_code_body : string }.
Record ReplyQuoteFormattedBody := {
  quote_html : string; quote_plain_text : string; quote_code_blocks : list ReplyQuoteCodeBlock }.
Record ReplyQuote := {
  quote_event_id : string; quote_sender : option string; quote_sender_label : option string;
  quote_body_preview : option string; quote_formatted : option ReplyQuoteFormattedBody;
  quote_mentioned_user_ids : list string; quote_media : option ReplyQuoteMedia;
  quote_permalink : option string; can_open : bool; quote_state : ReplyQuoteState }.

#[export] Instance ReplyQuoteState_eq : EqDecision ReplyQuoteState.
Proof. solve_decision. Defined.
#[export] Instance ReplyQuoteMediaKind_eq : EqDecision ReplyQuoteMediaKind.
Proof. solve_decision. Defined.
#[export] Instance ReplyQuoteMedia_eq : EqDecision ReplyQuoteMedia.
Proof. solve_decision. Defined.
#[export] Instance ReplyQuoteCodeBlock_eq : EqDecision ReplyQuoteCodeBlock.
Proof. solve_decision. Defined.
#[export] Instance ReplyQuoteFormattedBody_eq : EqDecision ReplyQuoteFormattedBody.
Proof. solve_decision. Defined.
#[export] Instance ReplyQuote_eq : EqDecision ReplyQuote.
Proof. solve_decision. Defined.

(** * Media, previews, reactions *)

Inductive TimelineMediaKind := Media_Image | Media_File | Media_Audio | Media_Video.
Record TimelineMediaSource := {
  media_mxc_uri : string; media_encrypted : bool; encryption_version : option string }.
Record TimelineMediaThumbnail := {
  thumbnail_source : TimelineMediaSource; thumbnail_mimetype : option string;
  thumbnail_size : option Z; thumbnail_width : option Z; thumbnail_height : option Z }.
Record TimelineMedia := {
  media_kind : TimelineMediaKind; media_filename : string; media_source : TimelineMediaSource;
  media_mimetype : option string; media_size : option Z; media_width : option Z;
  media_height : option Z; media_thumbnail : option TimelineMediaThumbnail }.
Inductive LinkPreviewState := Preview_Pending | Preview_Loading | Preview_Ready | Preview_Failed.
Record LinkPreviewImage := {
  preview_image_source : TimelineMediaSource; preview_image_width : option Z;
  preview_image_height : option Z; preview_image_thumbnail : AvatarThumbnailState }.
Record LinkPreview := {
  preview_url : string; preview_title : option string; preview_description : option string;
  preview_image : option LinkPreviewImage; preview_state : LinkPreviewState }.
Record ReactionSender := { reaction_user_id : string; reaction_display_label : option string }.
Record ReactionGroup := {
  reaction_key : string; reaction_count : Z; reacted_by_me : bool;
  my_reaction_event_id : option string; sender_preview : list ReactionSender }.

#[export] Instance TimelineMediaKind_eq : EqDecision TimelineMediaKind.
Proof. solve_decision. Defined.
#[export] Instance TimelineMediaSource_eq : EqDecision TimelineMediaSource.
Proof. solve_decision. Defined.
#[export] Instance TimelineMediaThumbnail_eq : EqDecision TimelineMediaThumbnail.
Proof. solve_decision. Defined.
#[export] Instance TimelineMedia_eq : EqDecision TimelineMedia.
Proof. solve_decision. Defined.
#[export] Instance LinkPreviewState_eq : EqDecision LinkPreviewState.
Proof. solve_decision. Defined.
#[export] Instance LinkPreviewImage_eq : EqDecision LinkPreviewImage.
Proof. solve_decision. Defined.
#[export] Instance LinkPreview_eq : EqDecision LinkPreview.
Proof. solve_decision. Defined.
#[export] Instance ReactionSender_eq : EqDecision ReactionSender.
Proof. solve_decision. Defined.
#[export] Instance ReactionGroup_eq : EqDecision ReactionGroup.
Proof. solve_decision. Defined.

(** * Room-key requests *)

Inductive RoomKeyRequestStage :=
  | Stage_Sent | Stage_Automatic | Stage_StillWaiting | Stage_Withheld | Stage_DecryptionRecovered
  | Stage_SendFailed.
Inductive RoomKeyRequestWithheldCode :=
  | Code_Blacklisted | Code_Unverified | Code_Unauthorised | Code_Unavailable.
Record RoomKeyRequestStateDto := {
  request_stage : RoomKeyRequestStage; withheld_code : option RoomKeyRequestWithheldCode }.
Inductive TimelineUnableToDecryptReason :=
  | Utd_MissingRoomKey | Utd_Withheld | Utd_Malformed | Utd_Unknown.
Record TimelineUnableToDecrypt := {
  utd_session_id : option string; utd_reason : TimelineUnableToDecryptReason;
  can_request_keys : bool; recovery_stage : option string; recovery_guidance : option string }.

#[export] Instance RoomKeyRequestStage_eq : EqDecision RoomKeyRequestStage.
Proof. solve_decision. Defined.
#[export] Instance RoomKeyRequestWithheldCode_eq : EqDecision RoomKeyRequestWithheldCode.
Proof. solve_decision. Defined.
#[export] Instance RoomKeyRequestStateDto_eq : EqDecision RoomKeyRequestStateDto.
Proof. solve_decision. Defined.
#[export] Instance TimelineUnableToDecryptReason_eq : EqDecision TimelineUnableToDecryptReason.
Proof. solve_decision. Defined.
#[export] Instance TimelineUnableToDecrypt_eq : EqDecision TimelineUnableToDecrypt.
Proof. solve_decision. Defined.

(** * Threads and display metadata *)

Record ThreadSummaryDto := {
  reply_count : Z; latest_event_id : option string; latest_sender : option string;
  latest_sender_label : option string; latest_body_preview : option string;
  latest_timestamp_ms : option Z; unread_count : Z }.
Inductive TimelineDisplayKind :=
  | Display_Event | Display_ThreadRoot | Display_ThreadRootPending
  | Display_ThreadRootFailed (failure_kind : OperationFailureKind).
Record TimelineDisplayMetadata := {
  row_id : string; display_kind : TimelineDisplayKind; content_event_id : option string;
  activity_event_id : option string; display_timestamp_ms : option Z }.

#[export] Instance ThreadSummaryDto_eq : EqDecision ThreadSummaryDto.
Proof. solve_decision. Defined.
#[export] Instance TimelineDisplayKind_eq : EqDecision TimelineDisplayKind.
Proof. solve_decision. Defined.
#[export] Instance TimelineDisplayMetadata_eq : EqDecision TimelineDisplayMetadata.
Proof. solve_decision. Defined.

(** * Items *)

Record TimelineItem := {
  item_id : TimelineItemId;
  sender : option string;
  sender_label : option string;
  sender_avatar : option AvatarImage;
  body : option string;
  notice_i18n : option TimelineNoticeI18n;
  message_kind : TimelineMessageKind;
  spoiler_spans : list TimelineSpoilerSpan;
  timestamp_ms : option Z;
  in_reply_to_event_id : option string;
  formatted : option TimelineFormattedBody;
  reply_quote : option ReplyQuote;
  thread_root : option string;
  thread_summary : option ThreadSummaryDto;
  media : option TimelineMedia;
  link_previews : option (list LinkPreview);
  link_ranges : list TimelineLinkRange;
  mentioned_user_ids : list string;
  mentions_room : bool;
  reactions : list ReactionGroup;
  can_react : bool;
  is_redacted : bool;
  is_hidden : bool;
  can_redact : bool;
  is_edited : bool;
  can_edit : bool;
  unable_to_decrypt : option TimelineUnableToDecrypt;
  request_state : option RoomKeyRequestStateDto;
  actions : TimelineMessageActions;
  send_state : option TimelineSendState;
  display_metadata : option TimelineDisplayMetadata }.
#[export] Instance TimelineItem_updatable : Updatable TimelineItem := fun i =>
  {| item_id := item_id i; sender := sender i; sender_label := sender_label i;
     sender_avatar := sender_avatar i; body := body i; notice_i18n := notice_i18n i;
     message_kind := message_kind i; spoiler_spans := spoiler_spans i;
     timestamp_ms := timestamp_ms i; in_reply_to_event_id := in_reply_to_event_id i;
     formatted := formatted i; reply_quote := reply_quote i; thread_root := thread_root i;
     thread_summary := thread_summary i; media := media i; link_previews := link_previews i;
     link_ranges := link_ranges i; mentioned_user_ids := mentioned_user_ids i;
     mentions_room := mentions_room i; reactions := reactions i; can_react := can_react i;
     is_redacted := is_redacted i; is_hidden := is_hidden i; can_redact := can_redact i;
     is_edited := is_edited i; can_edit := can_edit i; unable_to_decrypt := unable_to_decrypt i;
     request_state := request_state i; actions := actions i; send_state := send_state i;
     display_metadata := display_metadata i |}.
#[export] Instance TimelineItem_eq : EqDecision TimelineItem.
Proof. solve_decision. Defined.

(** A positional update of a list of items. *)
Inductive TimelineDiff :=
  | PushFront (item : TimelineItem)
  | PushBack (item : TimelineItem)
  | Insert (index : nat) (item : TimelineItem)
  | SetAt (index : nat) (item : TimelineItem)
  | Remove (index : nat)
  | Truncate (len : nat)
  | Clear
  | Reset (items : list TimelineItem).

(** * The viewport *)

Inductive TimelineBottomArrival := Arrival_User | Arrival_ContentFits | Arrival_Programmatic.
Record TimelineGapId := { topology_revision : Z; gap_ordinal : Z }.
Record TimelineViewportObservation := {
  display_window_revision : option Z;
  first_visible_event_id : option string;
  last_visible_event_id : option string;
  visible_gap_ids : list TimelineGapId;
  at_bottom : bool;
  bottom_arrival : TimelineBottomArrival }.
Record TimelineDisplayWindow := {
  revision : Z; first_event_id : option string; last_event_id : option string;
  window_at_live_end : bool }.

(** * Thread roots *)

Inductive TimelineThreadRootOrder := RootEvent | LatestReply.
Record AuthoritativeThreadAggregate := {
  agg_reply_count : Z; agg_latest_event_id : option string; agg_latest_sender : option string;
  agg_latest_sender_label : option string; agg_latest_body_preview : option string;
  agg_latest_timestamp_ms : option Z }.
Record ThreadRootDisplayData := {
  root_event_id : string;
  root_unread : Z;
  root_activity_event_id : string;
  root_activity_timestamp_ms : option Z;
  root_item : option TimelineItem;
  root_aggregate : AuthoritativeThreadAggregate;
  root_pending : bool;
  root_failure_kind : option OperationFailureKind }.
#[export] Instance TimelineThreadRootOrder_eq : EqDecision TimelineThreadRootOrder.
Proof. solve_decision. Defined.

(** * Published receipts ([koushi-state/src/state/live_signals.rs]) *)

Record LiveEventReceipts (Receipt : Type) := { receipts_event_id : string; receipts : list Receipt }.
Arguments receipts_event_id {Receipt} _.
Arguments receipts {Receipt} _.
Arguments Build_LiveEventReceipts {Receipt} _ _.
