(* ===== verification/DisplayRope.v ===== *)
(** The sparse weighted sequence that carries display membership through an SDK batch
    ([koushi-core/src/timeline/display_projection.rs], [DisplayMembershipRope]).

    The rope is an implicit treap whose nodes cache the canonical, visible and rendered length
    of their subtree and its outermost opaque cells.  Boxes are values; [NoNode] is the [None]
    of a link.  The counters that exist only under [cfg(test)] are llink out.  Lengths are sums
    of lengths of vectors in memory, so the saturating additions are plain ones. *)

From stdpp Require Import base list strings gmap.
From Stdlib Require Import ZArith Lia.
From S2P Require Import Prelude Text TimelineItem.
Local Open Scope string_scope.
Local Open Scope list_scope.
Local Open Scope nat_scope.

(** * Items *)

(** The render identity of a row: its row id, where it has one. *)
Definition timeline_item_render_id (item : TimelineItem) : string :=
  match display_metadata item with
  | Some metadata => row_id metadata
  | None =>
      match item_id item with
      | Event event_id => event_id
      | Transaction transaction_id => "txn:" +:+ transaction_id
      | Synthetic synthetic_id => "syn:" +:+ synthetic_id
      end
  end.

Definition is_none {A} (o : option A) : bool := match o with None => true | Some _ => false end.

(** An item that occupies a displayed row: thread replies are suppressed, hidden items too. *)
Definition item_occupies_display_row (item : TimelineItem) : bool :=
  is_none (thread_root item) && negb (is_hidden item).

(** * The transparent ends of an unrepresented run *)

Record GapEnds := { lead : nat; trail : nat }.
Definition GapEnds_default : GapEnds := {| lead := 0; trail := 0 |}.
#[export] Instance GapEnds_eq : EqDecision GapEnds.
Proof. solve_decision. Defined.

(** [items.insert(index, item)] within bounds. *)
Definition vec_insert {A} (index : nat) (x : A) (l : list A) : list A :=
  take index l ++ x :: drop index l.

(** [iter().take_while(p).count()] *)
Fixpoint take_while_count {A} (p : A -> bool) (l : list A) : nat :=
  match l with [] => 0 | x :: l => if p x then S (take_while_count p l) else 0 end.

Definition GapEnds_of (run : list TimelineItem) : GapEnds :=
  let lead := take_while_count (fun item => negb (item_occupies_display_row item)) run in
  if lead =? length run then {| lead := lead; trail := 0 |}
  else
    {| lead := lead;
       trail := take_while_count (fun item => negb (item_occupies_display_row item)) (rev run) |}.

Record DisplayProjectionSlot := {
  canonical_index : nat; slot_item : TimelineItem; gap_before : GapEnds }.
#[export] Instance DisplayProjectionSlot_updatable : Updatable DisplayProjectionSlot := fun s =>
  {| canonical_index := canonical_index s; slot_item := slot_item s; gap_before := gap_before s |}.

(** * Cells *)

Inductive DisplayMembershipCell :=
  | Gap (len : nat)
  | Suppressed (len : nat)
  | Slot (item : TimelineItem).

Definition cell_hidden (item : TimelineItem) : DisplayMembershipCell :=
  if item_occupies_display_row item then Gap 1 else Suppressed 1.
Definition cell_canonical_len (cell : DisplayMembershipCell) : nat :=
  match cell with Gap len | Suppressed len => len | Slot _ => 1 end.
Definition opaque_visibility (cell : DisplayMembershipCell) : option bool :=
  match cell with Gap _ => Some false | Suppressed _ => None | Slot _ => Some true end.
Definition cell_visible_len (cell : DisplayMembershipCell) : nat :=
  match cell with Slot _ => 1 | Gap _ | Suppressed _ => 0 end.
Definition cell_renderable_len (cell : DisplayMembershipCell) : nat :=
  match cell with
  | Gap _ | Suppressed _ => 0
  | Slot item => if item_occupies_display_row item then 1 else 0
  end.
Definition is_slot (cell : DisplayMembershipCell) : bool :=
  match cell with Slot _ => true | Gap _ | Suppressed _ => false end.

(** * Nodes *)

Inductive DisplayMembershipLink :=
  | NoNode
  | Node (cell : DisplayMembershipCell) (llink rlink : DisplayMembershipLink) (priority : Z)
      (canonical_len visible_len renderable_len : nat) (first_opaque last_opaque : option bool).

Definition display_membership_canonical_len (link : DisplayMembershipLink) : nat :=
  match link with NoNode => 0 | Node _ _ _ _ len _ _ _ _ => len end.
Definition display_membership_visible_len (link : DisplayMembershipLink) : nat :=
  match link with NoNode => 0 | Node _ _ _ _ _ len _ _ _ => len end.
Definition display_membership_renderable_len (link : DisplayMembershipLink) : nat :=
  match link with NoNode => 0 | Node _ _ _ _ _ _ len _ _ => len end.
Definition display_membership_first_opaque (link : DisplayMembershipLink) : option bool :=
  match link with NoNode => None | Node _ _ _ _ _ _ _ first _ => first end.
Definition display_membership_last_opaque (link : DisplayMembershipLink) : option bool :=
  match link with NoNode => None | Node _ _ _ _ _ _ _ _ last => last end.

(** [a.or(b)] *)
Definition opt_or {A} (a b : option A) : option A := match a with Some x => Some x | None => b end.

(** The node of a cell, its children and its priority after [refresh]. *)
Definition refresh (cell : DisplayMembershipCell) (llink rlink : DisplayMembershipLink)
    (priority : Z) : DisplayMembershipLink :=
  let opaque := opaque_visibility cell in
  Node cell llink rlink priority
    (display_membership_canonical_len llink + cell_canonical_len cell
       + display_membership_canonical_len rlink)
    (display_membership_visible_len llink + cell_visible_len cell
       + display_membership_visible_len rlink)
    (display_membership_renderable_len llink + cell_renderable_len cell
       + display_membership_renderable_len rlink)
    (opt_or (opt_or (display_membership_first_opaque llink) opaque)
       (display_membership_first_opaque rlink))
    (opt_or (opt_or (display_membership_last_opaque rlink) opaque)
       (display_membership_last_opaque llink)).

Definition DisplayMembershipNode_new (cell : DisplayMembershipCell) (priority : Z) :
    DisplayMembershipLink :=
  Node cell NoNode NoNode priority (cell_canonical_len cell) (cell_visible_len cell)
    (cell_renderable_len cell) (opaque_visibility cell) (opaque_visibility cell).

(** The visible reply slots in order, as [(canonical_index, thread_root)]; the accumulators are
    the code's [canonical_index] and [replies]. *)
Fixpoint collect_reply_slots (link : DisplayMembershipLink) (acc : nat * list (nat * string)) :
    nat * list (nat * string) :=
  match link with
  | NoNode => acc
  | Node cell llink rlink _ canonical_len visible_len _ _ _ =>
      if visible_len =? 0 then (acc.1 + canonical_len, acc.2)
      else
        let acc := collect_reply_slots llink acc in
        let acc :=
          match cell with
          | Gap len | Suppressed len => (acc.1 + len, acc.2)
          | Slot item =>
              (acc.1 + 1,
               match thread_root item with
               | Some root_event_id => acc.2 ++ [(acc.1, root_event_id)]
               | None => acc.2
               end)
          end in
        collect_reply_slots rlink acc
  end.

(** * The rope *)

Record DisplayMembershipRope := { rope_root : DisplayMembershipLink; next_seed : Z }.
#[export] Instance DisplayMembershipRope_updatable : Updatable DisplayMembershipRope := fun r =>
  {| rope_root := rope_root r; next_seed := next_seed r |}.

Definition rope_empty : DisplayMembershipRope := {| rope_root := NoNode; next_seed := 1 |}.

Fixpoint merge (llink : DisplayMembershipLink) : DisplayMembershipLink -> DisplayMembershipLink :=
  fix merge_left (rlink : DisplayMembershipLink) : DisplayMembershipLink :=
    match llink, rlink with
    | NoNode, _ => rlink
    | _, NoNode => llink
    | Node lcell lleft lright lpriority _ _ _ _ _, Node rcell rleft rright rpriority _ _ _ _ _ =>
        if (rpriority <=? lpriority)%Z
        then refresh lcell lleft (merge lright rlink) lpriority
        else refresh rcell (merge_left rleft) rright rpriority
    end.

(** SplitMix64 over a wrapping counter. *)
Definition u64_wrapping_mul (x y : Z) : Z := ((x * y) mod 2 ^ 64)%Z.
Definition next_priority (seed : Z) : Z * Z :=
  let value := u64_wrapping_add seed 0x9e3779b97f4a7c15 in
  let value := u64_wrapping_mul (Z.lxor value (Z.shiftr value 30)) 0xbf58476d1ce4e5b9 in
  let value := u64_wrapping_mul (Z.lxor value (Z.shiftr value 27)) 0x94d049bb133111eb in
  (Z.lxor value (Z.shiftr value 31), u64_wrapping_add seed 1).

Definition rope_node (seed : Z) (cell : DisplayMembershipCell) : DisplayMembershipLink * Z :=
  let '(priority, seed) := next_priority seed in (DisplayMembershipNode_new cell priority, seed).

(** The cell of a run cut to [len]: a slot has length one and is never cut. *)
Definition cut_run (cell : DisplayMembershipCell) (len : nat) : option DisplayMembershipCell :=
  match cell with
  | Gap _ => Some (Gap len)
  | Suppressed _ => Some (Suppressed len)
  | Slot _ => None
  end.

(** [split]; the two empty links stand for the [unreachable!] of a cut slot. *)
Fixpoint split (seed : Z) (link : DisplayMembershipLink) (index : nat) :
    DisplayMembershipLink * DisplayMembershipLink * Z :=
  match link with
  | NoNode => (NoNode, NoNode, seed)
  | Node cell nleft nright priority _ _ _ _ _ =>
      let left_len := display_membership_canonical_len nleft in
      let cell_len := cell_canonical_len cell in
      if index <? left_len then
        let '(llink, middle, seed) := split seed nleft index in
        (llink, refresh cell middle nright priority, seed)
      else if left_len + cell_len <? index then
        let '(middle, rlink, seed) := split seed nright (index - left_len - cell_len) in
        (refresh cell nleft middle priority, rlink, seed)
      else if index =? left_len then (nleft, refresh cell NoNode nright priority, seed)
      else if index =? left_len + cell_len then (refresh cell nleft NoNode priority, nright, seed)
      else
        let offset := index - left_len in
        match cut_run cell offset, cut_run cell (cell_len - offset) with
        | Some left_run, Some right_run =>
            let '(left_gap, seed) := rope_node seed left_run in
            let '(right_gap, seed) := rope_node seed right_run in
            (merge nleft left_gap, merge right_gap nright, seed)
        | _, _ => (NoNode, NoNode, seed)
        end
  end.

Definition rope_canonical_len (rope : DisplayMembershipRope) : nat :=
  display_membership_canonical_len (rope_root rope).
Definition rope_visible_len (rope : DisplayMembershipRope) : nat :=
  display_membership_visible_len (rope_root rope).
Definition renderable_visible_len (rope : DisplayMembershipRope) : nat :=
  display_membership_renderable_len (rope_root rope).

(** * Positional updates *)

(** Whether an item inserted between two subtrees is shown: the nearest trimmed or displayed
    cell on each side decides; with only suppressed cells around, it is shown. *)
Definition adjacent_visibility (llink rlink : DisplayMembershipLink) : bool :=
  let before := display_membership_last_opaque llink in
  let after := display_membership_first_opaque rlink in
  bool_decide (before = Some true) || bool_decide (after = Some true)
  || (is_none before && is_none after).

Definition rope_insert (rope : DisplayMembershipRope) (index : nat) (item : TimelineItem)
    (include : option bool) : bool * DisplayMembershipRope :=
  if rope_canonical_len rope <? index then (false, rope)
  else
    let '(llink, rlink, seed) := split (next_seed rope) (rope_root rope) index in
    let include := match include with Some b => b | None => adjacent_visibility llink rlink end in
    let cell := if include then Slot item else cell_hidden item in
    let '(middle, seed) := rope_node seed cell in
    (true, {| rope_root := merge (merge llink middle) rlink; next_seed := seed |}).

Record TakenNode := {
  taken_cell : DisplayMembershipCell; taken_left : DisplayMembershipLink;
  taken_right : DisplayMembershipLink; taken_priority : Z }.

(** The node at [index] alone, with the subtrees on its sides, and the rope they were taken
    from: its root is gone unless [index] is out of range. *)
Definition split_one (rope : DisplayMembershipRope) (index : nat) :
    option (DisplayMembershipLink * TakenNode * DisplayMembershipLink) * DisplayMembershipRope :=
  if rope_canonical_len rope <=? index then (None, rope)
  else
    let '(llink, tail, seed) := split (next_seed rope) (rope_root rope) index in
    let '(middle, rlink, seed) := split seed tail 1 in
    let rope := {| rope_root := NoNode; next_seed := seed |} in
    match middle with
    | Node cell mleft mright priority 1 _ _ _ _ =>
        (Some (llink, {| taken_cell := cell; taken_left := mleft; taken_right := mright;
                         taken_priority := priority |}, rlink), rope)
    | _ => (None, rope)
    end.

(** The taken node with a new cell between the subtrees it was taken from. *)
Definition join_around (llink : DisplayMembershipLink) (node : TakenNode)
    (cell : DisplayMembershipCell) (rlink : DisplayMembershipLink) : DisplayMembershipLink :=
  merge (merge llink (refresh cell (taken_left node) (taken_right node) (taken_priority node))) rlink.

Definition rope_set (rope : DisplayMembershipRope) (index : nat) (item : TimelineItem)
    (expected_render_id : string) : bool * DisplayMembershipRope :=
  let '(taken, rope) := split_one rope index in
  match taken with
  | None => (false, rope)
  | Some (llink, node, rlink) =>
      let '(valid, cell) :=
        match taken_cell node with
        | Gap _ | Suppressed _ => (true, cell_hidden item)
        | Slot old_item =>
            (String.eqb (timeline_item_render_id old_item) expected_render_id, Slot item)
        end in
      (valid, rope <| rope_root := join_around llink node cell rlink |>)
  end.

Definition rope_remove (rope : DisplayMembershipRope) (index : nat)
    (expected_render_id : string) : bool * DisplayMembershipRope :=
  let '(taken, rope) := split_one rope index in
  match taken with
  | None => (false, rope)
  | Some (llink, node, rlink) =>
      let valid :=
        match taken_cell node with
        | Gap _ | Suppressed _ => true
        | Slot old_item => String.eqb (timeline_item_render_id old_item) expected_render_id
        end in
      (valid, rope <| rope_root := merge llink rlink |>)
  end.

Definition rope_truncate (rope : DisplayMembershipRope) (length : nat) : DisplayMembershipRope :=
  let '(llink, _, seed) :=
    split (next_seed rope) (rope_root rope) (length `min` rope_canonical_len rope) in
  {| rope_root := llink; next_seed := seed |}.

Definition rope_clear (rope : DisplayMembershipRope) : DisplayMembershipRope :=
  rope <| rope_root := NoNode |>.

(** * Trimming to the live edge *)

(** Hide slots from the oldest on while slots or rows are llink to hide. *)
Fixpoint hide_first_visible (link : DisplayMembershipLink) (remaining : nat * nat) :
    DisplayMembershipLink * (nat * nat) :=
  match link with
  | NoNode => (NoNode, remaining)
  | Node cell llink rlink priority _ visible_len _ _ _ =>
      if ((remaining.1 =? 0) && (remaining.2 =? 0)) || (visible_len =? 0) then (link, remaining)
      else
        let '(llink, remaining) := hide_first_visible llink remaining in
        let '(cell, remaining) :=
          if (0 <? remaining.1) || (0 <? remaining.2) then
            match cell with
            | Slot item =>
                (cell_hidden item,
                 (remaining.1 - 1,
                  if cell_renderable_len cell =? 1 then remaining.2 - 1 else remaining.2))
            | Gap _ | Suppressed _ => (cell, remaining)
            end
          else (cell, remaining) in
        let '(rlink, remaining) := hide_first_visible rlink remaining in
        (refresh cell llink rlink priority, remaining)
  end.

Definition hide_at (rope : DisplayMembershipRope) (index : nat) : DisplayMembershipRope :=
  let '(taken, rope) := split_one rope index in
  match taken with
  | None => rope
  | Some (llink, node, rlink) =>
      let cell := match taken_cell node with Slot item => cell_hidden item | cell => cell end in
      rope <| rope_root := join_around llink node cell rlink |>
  end.

(** For each thread root the ordinal of its newest visible reply. *)
Definition newest_ordinals (replies : list (nat * string)) : gmap string nat :=
  foldl (fun newest (entry : nat * (nat * string)) => <[entry.2.2 := entry.1]> newest) ∅
    (imap pair replies).
(** The canonical indices of the replies that are not the newest visible one of their root. *)
Definition stale_replies (replies : list (nat * string)) : list nat :=
  omap (fun entry : nat * (nat * string) =>
      if bool_decide (newest_ordinals replies !! entry.2.2 = Some entry.1) then None
      else Some entry.2.1)
    (imap pair replies).

Definition retain_newest_reply_per_root (rope : DisplayMembershipRope) : DisplayMembershipRope :=
  let replies := (collect_reply_slots (rope_root rope) (0, [])).2 in
  if length replies <? 2 then rope else foldl hide_at rope (stale_replies replies).

Definition trim_to_live_edge (rope : DisplayMembershipRope) (max_items : option nat) :
    DisplayMembershipRope :=
  match max_items with
  | None => rope
  | Some max_items =>
      let rope := retain_newest_reply_per_root rope in
      let excess_rows := renderable_visible_len rope - max_items in
      let excess_slots := rope_visible_len rope - max_items * 2 in
      rope <| rope_root := (hide_first_visible (rope_root rope) (excess_slots, excess_rows)).1 |>
  end.

(** * Construction *)

(** A node of the arena the initial treap is built in. *)
Record PendingDisplayMembershipNode := {
  pending_cell : option DisplayMembershipCell;
  pending_left : option nat;
  pending_right : option nat;
  pending_priority : Z }.
#[export] Instance PendingDisplayMembershipNode_updatable : Updatable PendingDisplayMembershipNode :=
  fun n => {| pending_cell := pending_cell n; pending_left := pending_left n;
              pending_right := pending_right n; pending_priority := pending_priority n |}.

Definition priority_at (pending : list PendingDisplayMembershipNode) (index : nat) : Z :=
  match pending !! index with Some node => pending_priority node | None => 0%Z end.

(** [while stack.last() has a lower priority { llink = stack.pop() }]; the head of the list is the
    top of the stack. *)
Fixpoint pop_lower (pending : list PendingDisplayMembershipNode) (priority : Z)
    (stack : list nat) (llink : option nat) : list nat * option nat :=
  match stack with
  | index :: stack' =>
      if (priority_at pending index <? priority)%Z
      then pop_lower pending priority stack' (Some index)
      else (stack, llink)
  | [] => ([], llink)
  end.

Definition is_empty_run (cell : DisplayMembershipCell) : bool :=
  match cell with Gap 0 | Suppressed 0 => true | _ => false end.

Definition push_cell (acc : list PendingDisplayMembershipNode * list nat * Z)
    (cell : DisplayMembershipCell) : list PendingDisplayMembershipNode * list nat * Z :=
  let '(pending, stack, seed) := acc in
  if is_empty_run cell then acc
  else
    let '(priority, seed) := next_priority seed in
    let '(stack, llink) := pop_lower pending priority stack None in
    let index := length pending in
    let node := {| pending_cell := Some cell; pending_left := llink; pending_right := None;
                   pending_priority := priority |} in
    let pending := pending ++ [node] in
    let pending :=
      match stack with
      | parent :: _ => alter (fun node => node <| pending_right := Some index |>) parent pending
      | [] => pending
      end in
    (pending, index :: stack, seed).

(** The node at [index], its cell taken out of the arena: [None] when the arena has no such cell
    (the [expect] of the code) or the fuel runs out. *)
Fixpoint build (fuel : nat) (index : nat) (pending : list PendingDisplayMembershipNode) :
    option (DisplayMembershipLink * list PendingDisplayMembershipNode) :=
  match fuel with
  | 0 => None
  | S fuel =>
      node ← pending !! index;
      cell ← pending_cell node;
      let pending := alter (fun node => node <| pending_cell := None |>) index pending in
      let child (link : option nat) pending :=
        match link with
        | None => Some (NoNode, pending)
        | Some child => build fuel child pending
        end in
      '(llink, pending) ← child (pending_left node) pending;
      '(rlink, pending) ← child (pending_right node) pending;
      Some (refresh cell llink rlink (pending_priority node), pending)
  end.

(** [from_cells]: the fuel is the size of the arena ([from_cells_spec] shows it is enough). *)
Definition from_cells (cells : list DisplayMembershipCell) : option DisplayMembershipRope :=
  let '(pending, stack, seed) := foldl push_cell ([], [], 1%Z) cells in
  match last stack with
  | None => Some {| rope_root := NoNode; next_seed := seed |}
  | Some root =>
      '(root, _) ← build (length pending) root pending;
      Some {| rope_root := root; next_seed := seed |}
  end.

(** One unrepresented run, with its transparent ends as suppressed cells. *)
Definition push_run (len : nat) (ends : GapEnds) : list DisplayMembershipCell :=
  let lead := lead ends `min` len in
  if lead =? len then [Suppressed len]
  else
    let trail := trail ends `min` (len - lead) in
    [Suppressed lead; Gap (len - lead - trail); Suppressed trail].

(** The loop over the slots: cells so far, [cursor], [ambiguous], [known]. *)
Definition push_slot (canonical_len : nat)
    (acc : list DisplayMembershipCell * nat * bool * bool) (slot : DisplayProjectionSlot) :
    list DisplayMembershipCell * nat * bool * bool :=
  let '(cells, cursor, ambiguous, known) := acc in
  if (canonical_index slot <? cursor) || (canonical_len <=? canonical_index slot)
  then (cells, cursor, true, false)
  else
    let ends := if known : bool then gap_before slot else GapEnds_default in
    (cells ++ push_run (canonical_index slot - cursor) ends ++ [Slot (slot_item slot)],
     canonical_index slot + 1, ambiguous, true).

Definition projection_cells (canonical_len : nat) (slots : list DisplayProjectionSlot)
    (gap_after : GapEnds) : list DisplayMembershipCell * bool :=
  let '(cells, cursor, ambiguous, known) :=
    foldl (push_slot canonical_len) ([], 0, false, true) slots in
  let ends := if known : bool then gap_after else GapEnds_default in
  (cells ++ push_run (canonical_len - cursor) ends, ambiguous).

(** [from_projection_state], without the effect of taking the slots. *)
Definition from_projection_state (canonical_len : nat) (slots : list DisplayProjectionSlot)
    (gap_after : GapEnds) : option (DisplayMembershipRope * bool) :=
  let '(cells, ambiguous) := projection_cells canonical_len slots gap_after in
  rope ← from_cells cells; Some (rope, ambiguous).

Definition window_cells (canonical_items : list TimelineItem) (window_start window_end : nat) :
    list DisplayMembershipCell :=
  let start := window_start `min` length canonical_items in
  let end_ := (window_end `min` length canonical_items) `max` start in
  [Gap start] ++ (Slot <$> take (end_ - start) (drop start canonical_items))
  ++ [Gap (length canonical_items - end_)].
Definition rope_from_canonical_window (canonical_items : list TimelineItem)
    (window_start window_end : nat) : option DisplayMembershipRope :=
  from_cells (window_cells canonical_items window_start window_end).

(** * Materialization *)

(** [while let Some(node) = cursor { cursor = node.left.take(); pending.push(node) }] *)
Fixpoint push_left_spine (cursor : DisplayMembershipLink)
    (pending : list (DisplayMembershipCell * DisplayMembershipLink)) :
    list (DisplayMembershipCell * DisplayMembershipLink) :=
  match cursor with
  | NoNode => pending
  | Node cell llink rlink _ _ _ _ _ _ => push_left_spine llink ((cell, rlink) :: pending)
  end.

(** The slots so far, [canonical_index], and the run since the last slot. *)
Record Materializing := {
  mat_slots : list DisplayProjectionSlot; mat_index : nat;
  mat_lead : nat; mat_trail : nat; mat_trimmed : bool }.

Definition run_ends (lead trail : nat) (trimmed : bool) : GapEnds :=
  {| lead := lead; trail := if trimmed then trail else 0 |}.

Definition materialize_cell (m : Materializing) (cell : DisplayMembershipCell) : Materializing :=
  match cell with
  | Gap len =>
      {| mat_slots := mat_slots m; mat_index := mat_index m + len; mat_lead := mat_lead m;
         mat_trail := 0; mat_trimmed := mat_trimmed m || (0 <? len) |}
  | Suppressed len =>
      {| mat_slots := mat_slots m; mat_index := mat_index m + len;
         mat_lead := if mat_trimmed m then mat_lead m else mat_lead m + len;
         mat_trail := mat_trail m + len; mat_trimmed := mat_trimmed m |}
  | Slot item =>
      {| mat_slots := mat_slots m ++
           [{| canonical_index := mat_index m; slot_item := item;
               gap_before := run_ends (mat_lead m) (mat_trail m) (mat_trimmed m) |}];
         mat_index := mat_index m + 1; mat_lead := 0; mat_trail := 0; mat_trimmed := false |}
  end.

Fixpoint materialize_loop (fuel : nat) (cursor : DisplayMembershipLink)
    (pending : list (DisplayMembershipCell * DisplayMembershipLink)) (m : Materializing) :
    option Materializing :=
  match push_left_spine cursor pending with
  | [] => Some m
  | (cell, rlink) :: pending =>
      match fuel with
      | 0 => None
      | S fuel => materialize_loop fuel rlink pending (materialize_cell m cell)
      end
  end.

Fixpoint node_count (link : DisplayMembershipLink) : nat :=
  match link with NoNode => 0 | Node _ llink rlink _ _ _ _ _ _ => S (node_count llink + node_count rlink) end.

(** The slots, the run after them and the canonical length; the fuel is the number of nodes
    ([materialize_slots_spec] shows it is enough). *)
Definition materialize_slots (rope : DisplayMembershipRope) :
    option (list DisplayProjectionSlot * GapEnds * nat) :=
  m ← materialize_loop (node_count (rope_root rope)) (rope_root rope) []
        {| mat_slots := []; mat_index := 0; mat_lead := 0; mat_trail := 0; mat_trimmed := false |};
  Some (mat_slots m, run_ends (mat_lead m) (mat_trail m) (mat_trimmed m), mat_index m).
