(* ===== verification/DisplayRopeProps.v ===== *)
(** The display rope is the canonical run, one membership unit per item: every operation of
    [DisplayRope.v] is the list operation of its name, whatever the shape of the treap. *)

From stdpp Require Import base list strings gmap.
From Stdlib Require Import ZArith Lia.
From S2P Require Import Prelude Text TimelineItem DisplayRope.
Local Open Scope list_scope.
Local Open Scope nat_scope.

(** * The abstract sequence *)

(** What the display holds of one canonical item: trimmed, transparent, or a slot. *)
Inductive Membership := Trimmed | Transparent | Shown (item : TimelineItem).

Definition hidden_unit (item : TimelineItem) : Membership :=
  if item_occupies_display_row item then Trimmed else Transparent.
Definition unit_opaque (u : Membership) : option bool :=
  match u with Trimmed => Some false | Transparent => None | Shown _ => Some true end.
Definition unit_slot (u : Membership) : nat := match u with Shown _ => 1 | _ => 0 end.
Definition unit_row (u : Membership) : nat :=
  match u with Shown item => if item_occupies_display_row item then 1 else 0 | _ => 0 end.

Definition expand (cell : DisplayMembershipCell) : list Membership :=
  match cell with
  | Gap len => replicate len Trimmed
  | Suppressed len => replicate len Transparent
  | Slot item => [Shown item]
  end.

Fixpoint cells (link : DisplayMembershipLink) : list DisplayMembershipCell :=
  match link with
  | NoNode => []
  | Node cell llink rlink _ _ _ _ _ _ => cells llink ++ cell :: cells rlink
  end.
Definition expand_all (cs : list DisplayMembershipCell) : list Membership := cs ≫= expand.
Definition contents (link : DisplayMembershipLink) : list Membership := expand_all (cells link).

(** The outermost opaque unit of a sequence. *)
Definition first_opaque_unit (us : list Membership) : option bool := head (omap unit_opaque us).
Definition last_opaque_unit (us : list Membership) : option bool := last (omap unit_opaque us).
Definition slots_in (us : list Membership) : nat := sum_list (unit_slot <$> us).
Definition rows_in (us : list Membership) : nat := sum_list (unit_row <$> us).

(** A link whose caches are right and whose cells are not empty. *)
Fixpoint wf_link (link : DisplayMembershipLink) : Prop :=
  match link with
  | NoNode => True
  | Node cell llink rlink priority _ _ _ _ _ =>
      wf_link llink /\ wf_link rlink /\ 0 < cell_canonical_len cell
      /\ link = refresh cell llink rlink priority
  end.

Lemma expand_all_app cs1 cs2 : expand_all (cs1 ++ cs2) = expand_all cs1 ++ expand_all cs2.
Proof. apply bind_app. Qed.
Lemma expand_all_cons c cs : expand_all (c :: cs) = expand c ++ expand_all cs.
Proof. done. Qed.

Lemma contents_node cell l r p a b c d e :
  contents (Node cell l r p a b c d e) = contents l ++ expand cell ++ contents r.
Proof. unfold contents. cbn [cells]. by rewrite expand_all_app. Qed.
Lemma contents_refresh cell l r p : contents (refresh cell l r p) = contents l ++ expand cell ++ contents r.
Proof. apply contents_node. Qed.

Lemma wf_refresh cell l r p :
  wf_link l -> wf_link r -> 0 < cell_canonical_len cell -> wf_link (refresh cell l r p).
Proof. intros. unfold refresh. cbn [wf_link]. auto. Qed.

Lemma new_is_refresh cell p : DisplayMembershipNode_new cell p = refresh cell NoNode NoNode p.
Proof.
  unfold DisplayMembershipNode_new, refresh. cbn [display_membership_canonical_len
    display_membership_visible_len display_membership_renderable_len
    display_membership_first_opaque display_membership_last_opaque].
  by rewrite !Nat.add_0_r; destruct cell.
Qed.
Lemma contents_new cell p : contents (DisplayMembershipNode_new cell p) = expand cell.
Proof. rewrite new_is_refresh, contents_refresh. apply app_nil_r. Qed.
Lemma wf_leaf cell p : 0 < cell_canonical_len cell -> wf_link (DisplayMembershipNode_new cell p).
Proof. intros. rewrite new_is_refresh. by apply wf_refresh. Qed.

(** * The caches *)

Lemma expand_length cell : length (expand cell) = cell_canonical_len cell.
Proof. destruct cell; cbn; by rewrite ?length_replicate. Qed.

Lemma sum_list_replicate_0 {A} (f : A -> nat) x n : f x = 0 -> sum_list (f <$> replicate n x) = 0.
Proof. intros Hx. induction n as [|n IH]; [done|]. cbn. by rewrite Hx. Qed.
Lemma expand_slots cell : slots_in (expand cell) = cell_visible_len cell.
Proof. destruct cell; unfold slots_in; cbn; rewrite ?sum_list_replicate_0; done. Qed.
Lemma expand_rows cell : rows_in (expand cell) = cell_renderable_len cell.
Proof.
  destruct cell; unfold rows_in; cbn; rewrite ?sum_list_replicate_0; lia || done.
Qed.
Lemma slots_in_app us vs : slots_in (us ++ vs) = slots_in us + slots_in vs.
Proof. unfold slots_in. rewrite fmap_app. induction (unit_slot <$> us); cbn; lia. Qed.
Lemma rows_in_app us vs : rows_in (us ++ vs) = rows_in us + rows_in vs.
Proof. unfold rows_in. rewrite fmap_app. induction (unit_row <$> us); cbn; lia. Qed.

Lemma omap_replicate_None {A B} (f : A -> option B) x n : f x = None -> omap f (replicate n x) = [].
Proof. intros Hx. induction n as [|n IH]; [done|]. csimpl. by rewrite Hx. Qed.
Lemma omap_replicate_Some {A B} (f : A -> option B) x y n :
  f x = Some y -> omap f (replicate n x) = replicate n y.
Proof. intros Hx. induction n as [|n IH]; [done|]. csimpl. rewrite Hx. by f_equal. Qed.
Lemma omap_app' {A B} (f : A -> option B) l k : omap f (l ++ k) = omap f l ++ omap f k.
Proof. induction l as [|x l IH]; [done|]. csimpl. rewrite IH. by destruct (f x). Qed.

Lemma last_replicate_S {A} (x : A) n : last (replicate (S n) x) = Some x.
Proof. rewrite replicate_S_end. by rewrite last_snoc. Qed.

Lemma expand_first cell : 0 < cell_canonical_len cell ->
  first_opaque_unit (expand cell) = opaque_visibility cell.
Proof.
  unfold first_opaque_unit. destruct cell as [n|n|item]; intros Hn; cbn [expand].
  - rewrite (omap_replicate_Some _ _ false) by done. destruct n as [|n]; [cbn in Hn; lia|done].
  - by rewrite omap_replicate_None.
  - done.
Qed.
Lemma expand_last cell : 0 < cell_canonical_len cell ->
  last_opaque_unit (expand cell) = opaque_visibility cell.
Proof.
  unfold last_opaque_unit. destruct cell as [n|n|item]; intros Hn; cbn [expand].
  - rewrite (omap_replicate_Some _ _ false) by done. destruct n as [|n]; [cbn in Hn; lia|].
    apply last_replicate_S.
  - by rewrite omap_replicate_None.
  - done.
Qed.
Lemma first_opaque_app us vs :
  first_opaque_unit (us ++ vs) = opt_or (first_opaque_unit us) (first_opaque_unit vs).
Proof. unfold first_opaque_unit. rewrite omap_app'. by destruct (omap unit_opaque us). Qed.
Lemma last_opaque_app us vs :
  last_opaque_unit (us ++ vs) = opt_or (last_opaque_unit vs) (last_opaque_unit us).
Proof.
  unfold last_opaque_unit. rewrite omap_app', last_app. by destruct (last (omap unit_opaque vs)).
Qed.
Lemma opt_or_assoc {A} (a b c : option A) : opt_or (opt_or a b) c = opt_or a (opt_or b c).
Proof. by destruct a. Qed.

(** The caches of a well-formed link are what they stand for. *)
Record caches_right (link : DisplayMembershipLink) : Prop := {
  cached_len : display_membership_canonical_len link = length (contents link);
  cached_slots : display_membership_visible_len link = slots_in (contents link);
  cached_rows : display_membership_renderable_len link = rows_in (contents link);
  cached_first : display_membership_first_opaque link = first_opaque_unit (contents link);
  cached_last : display_membership_last_opaque link = last_opaque_unit (contents link) }.

Lemma wf_caches link : wf_link link -> caches_right link.
Proof.
  induction link as [|cell l IHl r IHr p]; [done|]. intros (Hl & Hr & Hpos & ->).
  destruct (IHl Hl), (IHr Hr).
  constructor; rewrite contents_refresh;
    cbn [refresh display_membership_canonical_len display_membership_visible_len
         display_membership_renderable_len display_membership_first_opaque
         display_membership_last_opaque].
  - rewrite !length_app, expand_length. lia.
  - rewrite !slots_in_app, expand_slots. lia.
  - rewrite !rows_in_app, expand_rows. lia.
  - rewrite !first_opaque_app, expand_first, opt_or_assoc by done. by rewrite cached_first0, cached_first1.
  - rewrite !last_opaque_app, expand_last by done. by rewrite cached_last0, cached_last1.
Qed.

Lemma wf_len link : wf_link link -> display_membership_canonical_len link = length (contents link).
Proof. intros. by apply cached_len, wf_caches. Qed.

(** * Merging and splitting *)

Lemma merge_NoNode_r l : merge l NoNode = l.
Proof. by destruct l. Qed.

Lemma merge_spec l r :
  wf_link l -> wf_link r ->
  wf_link (merge l r) /\ contents (merge l r) = contents l ++ contents r.
Proof.
  revert r. induction l as [|lc ll _ lr IHlr lp a b c d e]; intros r Hl Hr; [by destruct r|].
  induction r as [|rc rl IHrl rr _ rp a' b' c' d' e'].
  { rewrite merge_NoNode_r, app_nil_r. done. }
  pose proof Hl as (Hll & Hlr & Hlc & _). pose proof Hr as (Hrl & Hrr & Hrc & _).
  cbn [merge]. destruct (rp <=? lp)%Z.
  - destruct (IHlr _ Hlr Hr) as [Hwf Hcont]. split; [by apply wf_refresh|].
    by rewrite contents_refresh, contents_node, Hcont, <-!app_assoc.
  - destruct (IHrl Hrl) as [Hwf Hcont]. split; [by apply wf_refresh|].
    rewrite contents_refresh, (contents_node rc). cbn [merge] in Hcont. rewrite Hcont.
    by rewrite <-!app_assoc.
Qed.

Lemma cut_run_spec cell n :
  0 < n < cell_canonical_len cell ->
  exists r1 r2,
    cut_run cell n = Some r1 /\ cut_run cell (cell_canonical_len cell - n) = Some r2
    /\ cell_canonical_len r1 = n /\ cell_canonical_len r2 = cell_canonical_len cell - n
    /\ expand r1 = take n (expand cell) /\ expand r2 = drop n (expand cell).
Proof.
  intros Hn. destruct cell as [len|len|item]; cbn in *; [| |lia].
  - exists (Gap n), (Gap (len - n)). cbn. rewrite take_replicate, drop_replicate.
    by rewrite Nat.min_l by lia.
  - exists (Suppressed n), (Suppressed (len - n)). cbn. rewrite take_replicate, drop_replicate.
    by rewrite Nat.min_l by lia.
Qed.

Lemma take_app3 {A} (l1 l2 l3 : list A) i :
  take i (l1 ++ l2 ++ l3)
  = take i l1 ++ take (i - length l1) l2 ++ take (i - length l1 - length l2) l3.
Proof. by rewrite !take_app. Qed.
Lemma drop_app3 {A} (l1 l2 l3 : list A) i :
  drop i (l1 ++ l2 ++ l3)
  = drop i l1 ++ drop (i - length l1) l2 ++ drop (i - length l1 - length l2) l3.
Proof. by rewrite !drop_app. Qed.

Lemma split_spec seed link i l r seed' :
  wf_link link -> split seed link i = (l, r, seed') ->
  wf_link l /\ wf_link r
  /\ contents l = take i (contents link) /\ contents r = drop i (contents link).
Proof.
  revert seed i l r seed'.
  induction link as [|cell nl IHl nr IHr p ? ? ? ? ?]; intros seed i l r seed' Hwf Hs.
  { cbn in Hs. simplify_eq. by destruct i. }
  destruct Hwf as (Hl & Hr & Hpos & _). rewrite contents_node. cbn [split] in Hs.
  rewrite (wf_len _ Hl) in Hs. pose proof (expand_length cell) as Hlen.
  rewrite take_app3, drop_app3, Hlen.
  destruct (Nat.ltb_spec i (length (contents nl))) as [H1|H1].
  { destruct (split seed nl i) as [[l' m] s] eqn:E. simplify_eq.
    destruct (IHl _ _ _ _ _ Hl E) as (? & ? & HA & HB).
    split_and!; [done|by apply wf_refresh|..].
    - rewrite HA, !(proj2 (Nat.sub_0_le i _)), Nat.sub_0_l, !take_0, !app_nil_r by lia. done.
    - rewrite contents_refresh, HB, !(proj2 (Nat.sub_0_le i _)), Nat.sub_0_l, !drop_0 by lia. done. }
  destruct (Nat.ltb_spec (length (contents nl) + cell_canonical_len cell) i) as [H2|H2].
  { destruct (split seed nr _) as [[m r'] s] eqn:E. simplify_eq.
    destruct (IHr _ _ _ _ _ Hr E) as (? & ? & HA & HB).
    split_and!; [by apply wf_refresh|done|..].
    - rewrite contents_refresh, HA, (take_ge (contents nl)), (take_ge (expand cell)) by lia. done.
    - rewrite HB. rewrite (drop_ge (contents nl)), (drop_ge (expand cell)) by lia. done. }
  destruct (Nat.eqb_spec i (length (contents nl))) as [->|H3].
  { simplify_eq. rewrite Nat.sub_diag, Nat.sub_0_l, !take_0, take_ge, drop_ge, !drop_0 by lia.
    split_and!; [done|by apply wf_refresh|by rewrite app_nil_r|by rewrite contents_refresh]. }
  destruct (Nat.eqb_spec i (length (contents nl) + cell_canonical_len cell)) as [->|H4].
  { simplify_eq. replace (_ + cell_canonical_len cell - length (contents nl))
      with (cell_canonical_len cell) by lia.
    rewrite Nat.sub_diag, take_0, drop_0.
    rewrite (take_ge (contents nl)), (drop_ge (contents nl)), (take_ge (expand cell)),
      (drop_ge (expand cell)) by lia.
    split; [by apply wf_refresh|]. split; [done|]. split; [by rewrite contents_refresh|done]. }
  destruct (cut_run_spec cell (i - length (contents nl))) as (r1 & r2 & E1 & E2 & L1 & L2 & X1 & X2);
    [lia|].
  rewrite E1, E2 in Hs. unfold rope_node in Hs.
  destruct (next_priority seed) as [p1 s1]. destruct (next_priority s1) as [p2 s2]. simplify_eq.
  destruct (merge_spec nl (DisplayMembershipNode_new r1 p1)) as [? HA]; [done|apply wf_leaf; lia|].
  destruct (merge_spec (DisplayMembershipNode_new r2 p2) nr) as [? HB]; [apply wf_leaf; lia|done|].
  rewrite HA, HB, !contents_new, X1, X2.
  replace (i - length (contents nl) - cell_canonical_len cell) with 0 by lia.
  rewrite (take_ge (contents nl)), (drop_ge (contents nl)), take_0, drop_0, app_nil_r by lia. done.
Qed.

(** * The operations on the sequence *)

Definition wf_rope (rope : DisplayMembershipRope) : Prop := wf_link (rope_root rope).
Definition units (rope : DisplayMembershipRope) : list Membership := contents (rope_root rope).

(** The visibility the neighbours of position [index] give an inserted item. *)
Definition adjacent (us : list Membership) (index : nat) : bool :=
  let before := last_opaque_unit (take index us) in
  let after := first_opaque_unit (drop index us) in
  bool_decide (before = Some true) || bool_decide (after = Some true)
  || (is_none before && is_none after).
Definition inserted_unit (us : list Membership) (index : nat) (item : TimelineItem)
    (include : option bool) : Membership :=
  if default (adjacent us index) include then Shown item else hidden_unit item.
Definition replaced_unit (item : TimelineItem) (u : Membership) : Membership :=
  match u with Shown _ => Shown item | Trimmed | Transparent => hidden_unit item end.
Definition hide_unit (u : Membership) : Membership :=
  match u with Shown item => hidden_unit item | Trimmed | Transparent => u end.
(** The render identity of a slot is the expected one. *)
Definition owner_matches (id : string) (u : Membership) : bool :=
  match u with Shown item => String.eqb (timeline_item_render_id item) id | _ => true end.

Lemma expand_hidden item : expand (cell_hidden item) = [hidden_unit item].
Proof. unfold cell_hidden, hidden_unit. by destruct (item_occupies_display_row item). Qed.
Lemma hidden_len item : cell_canonical_len (cell_hidden item) = 1.
Proof. unfold cell_hidden. by destruct (item_occupies_display_row item). Qed.

Lemma rope_len rope : wf_rope rope -> rope_canonical_len rope = length (units rope).
Proof. apply wf_len. Qed.
Lemma rope_rows rope : wf_rope rope -> renderable_visible_len rope = rows_in (units rope).
Proof. intros Hwf. apply (cached_rows _ (wf_caches _ Hwf)). Qed.
Lemma rope_slots rope : wf_rope rope -> rope_visible_len rope = slots_in (units rope).
Proof. intros Hwf. apply (cached_slots _ (wf_caches _ Hwf)). Qed.

Lemma wf_empty link : wf_link link -> contents link = [] -> link = NoNode.
Proof.
  destruct link as [|cell l r p ? ? ? ? ?]; [done|]. intros (_ & _ & Hpos & _) Hc.
  rewrite contents_node in Hc. apply (f_equal length) in Hc.
  rewrite !length_app, expand_length in Hc. cbn in Hc. lia.
Qed.

Lemma single_node link u :
  wf_link link -> contents link = [u] ->
  exists cell p a b c d, link = Node cell NoNode NoNode p 1 a b c d /\ expand cell = [u].
Proof.
  intros Hwf Hc. pose proof (wf_len _ Hwf) as Hlen. rewrite Hc in Hlen.
  destruct link as [|cell l r p n ? ? ? ?]; [done|]. cbn in Hlen. subst n.
  destruct Hwf as (Hl & Hr & Hpos & _). rewrite contents_node in Hc.
  pose proof (f_equal length Hc) as Hn. rewrite !length_app, expand_length in Hn. cbn in Hn.
  assert (l = NoNode) as ->. { apply wf_empty; [done|]. apply length_zero_iff_nil. lia. }
  assert (r = NoNode) as ->. { apply wf_empty; [done|]. apply length_zero_iff_nil. lia. }
  do 6 eexists. split; [done|]. change (contents NoNode) with (@nil Membership) in Hc.
  by rewrite app_nil_l, app_nil_r in Hc.
Qed.

Lemma split_one_spec rope i :
  wf_rope rope -> i < length (units rope) ->
  exists l node r rope' u,
    split_one rope i = (Some (l, node, r), rope') /\ wf_link l /\ wf_link r
    /\ contents l = take i (units rope) /\ contents r = drop (S i) (units rope)
    /\ units rope !! i = Some u /\ expand (taken_cell node) = [u]
    /\ taken_left node = NoNode /\ taken_right node = NoNode.
Proof.
  intros Hwf Hi. unfold split_one. rewrite rope_len by done.
  rewrite (proj2 (Nat.leb_gt _ _) Hi).
  destruct (split (next_seed rope) (rope_root rope) i) as [[l tl] s1] eqn:E1.
  destruct (split_spec _ _ _ _ _ _ Hwf E1) as (Hl & Htl & Cl & Ctl).
  destruct (split s1 tl 1) as [[m r] s2] eqn:E2.
  destruct (split_spec _ _ _ _ _ _ Htl E2) as (Hm & Hr & Cm & Cr).
  destruct (lookup_lt_is_Some_2 _ _ Hi) as [u Hu].
  assert (contents m = [u]) as Hm1.
  { rewrite Cm, Ctl. change (contents (rope_root rope)) with (units rope).
    by rewrite (drop_S _ _ _ Hu). }
  destruct (single_node m u Hm Hm1) as (cell & p & a & b & c & d & -> & Hcell).
  do 5 eexists. split; [done|]. cbn [taken_cell taken_left taken_right].
  split; [done|]. split; [done|]. split; [done|]. split; [|done].
  rewrite Cr, Ctl, drop_drop. by rewrite Nat.add_1_r.
Qed.

Lemma join_around_spec l node cell r :
  wf_link l -> wf_link r -> taken_left node = NoNode -> taken_right node = NoNode ->
  0 < cell_canonical_len cell ->
  wf_link (join_around l node cell r)
  /\ contents (join_around l node cell r) = contents l ++ expand cell ++ contents r.
Proof.
  intros Hl Hr E1 E2 Hpos. unfold join_around. rewrite E1, E2.
  destruct (merge_spec l (refresh cell NoNode NoNode (taken_priority node))) as [Hw Hc];
    [done|by apply wf_refresh|].
  destruct (merge_spec _ r Hw Hr) as [Hw' Hc']. split; [done|].
  rewrite Hc', Hc, contents_refresh. change (contents NoNode) with (@nil Membership).
  by rewrite app_nil_l, app_nil_r, <-app_assoc.
Qed.

Lemma insert_take_drop' {A} (l : list A) i x :
  i < length l -> <[i := x]> l = take i l ++ x :: drop (S i) l.
Proof. apply insert_take_drop. Qed.

Lemma rope_insert_spec rope i item include :
  wf_rope rope -> i <= length (units rope) ->
  (rope_insert rope i item include).1 = true
  /\ wf_rope (rope_insert rope i item include).2
  /\ units (rope_insert rope i item include).2
     = vec_insert i (inserted_unit (units rope) i item include) (units rope).
Proof.
  intros Hwf Hi. unfold rope_insert. rewrite rope_len by done.
  rewrite (proj2 (Nat.ltb_ge _ _) Hi).
  destruct (split _ _ i) as [[l r] s] eqn:E.
  destruct (split_spec _ _ _ _ _ _ Hwf E) as (Hl & Hr & Cl & Cr).
  assert (adjacent_visibility l r = adjacent (units rope) i) as Hadj.
  { unfold adjacent_visibility, adjacent, units.
    rewrite <-Cl, <-Cr, <-(cached_last _ (wf_caches _ Hl)), <-(cached_first _ (wf_caches _ Hr)). done. }
  rewrite Hadj. unfold rope_node, inserted_unit.
  set (b := match include with Some b => b | None => _ end).
  replace (default (adjacent (units rope) i) include) with b by by destruct include.
  set (cell := if b then Slot item else cell_hidden item).
  assert (cell_canonical_len cell = 1) as Hlen by (unfold cell; destruct b; [done|apply hidden_len]).
  assert (expand cell = [if b then Shown item else hidden_unit item]) as Hcell.
  { unfold cell. destruct b; [done|apply expand_hidden]. }
  destruct (next_priority s) as [p s'].
  destruct (merge_spec l (DisplayMembershipNode_new cell p)) as [Hw Hc]; [done|apply wf_leaf; lia|].
  destruct (merge_spec _ r Hw Hr) as [Hw' Hc']. split_and!; [done|done|].
  unfold units at 1. cbn [rope_root snd]. rewrite Hc', Hc, contents_new, Hcell, Cl, Cr.
  unfold vec_insert, units. by rewrite <-app_assoc.
Qed.

Lemma rope_set_spec rope i item id :
  wf_rope rope -> i < length (units rope) ->
  exists u, units rope !! i = Some u
  /\ (rope_set rope i item id).1 = owner_matches id u
  /\ wf_rope (rope_set rope i item id).2
  /\ units (rope_set rope i item id).2 = <[i := replaced_unit item u]> (units rope).
Proof.
  intros Hwf Hi. destruct (split_one_spec rope i Hwf Hi)
    as (l & node & r & rope' & u & E & Hl & Hr & Cl & Cr & Hu & Hcell & E1 & E2).
  exists u. split; [done|]. unfold rope_set. rewrite E, (insert_take_drop' _ _ _ Hi), <-Cl, <-Cr.
  destruct (taken_cell node) as [n|n|old] eqn:En; cbn [expand] in Hcell.
  - assert (u = Trimmed) as -> by (destruct n as [|[|]]; by simplify_eq/=).
    destruct (join_around_spec l node (cell_hidden item) r) as [Hw Hc]; [..|rewrite hidden_len; lia|]; try done.
    split; [done|]. split; [done|]. unfold units. cbn [rope_root update snd]. rewrite Hc, expand_hidden. done.
  - assert (u = Transparent) as -> by (destruct n as [|[|]]; by simplify_eq/=).
    destruct (join_around_spec l node (cell_hidden item) r) as [Hw Hc]; [..|rewrite hidden_len; lia|]; try done.
    split; [done|]. split; [done|]. unfold units. cbn [rope_root update snd]. rewrite Hc, expand_hidden. done.
  - simplify_eq. destruct (join_around_spec l node (Slot item) r) as [Hw Hc]; [done..|cbn; lia|].
    split; [done|]. split; [done|]. unfold units. cbn [rope_root update snd]. by rewrite Hc.
Qed.

Lemma rope_remove_spec rope i id :
  wf_rope rope -> i < length (units rope) ->
  exists u, units rope !! i = Some u
  /\ (rope_remove rope i id).1 = owner_matches id u
  /\ wf_rope (rope_remove rope i id).2
  /\ units (rope_remove rope i id).2 = delete i (units rope).
Proof.
  intros Hwf Hi. destruct (split_one_spec rope i Hwf Hi)
    as (l & node & r & rope' & u & E & Hl & Hr & Cl & Cr & Hu & Hcell & E1 & E2).
  exists u. split; [done|]. unfold rope_remove. rewrite E, delete_take_drop, <-Cl, <-Cr.
  destruct (merge_spec l r Hl Hr) as [Hw Hc]. split; [|done].
  destruct (taken_cell node) as [n|n|old]; cbn [expand] in Hcell; [..|by simplify_eq];
    destruct n as [|[|]]; by simplify_eq/=.
Qed.

Lemma rope_truncate_spec rope n :
  wf_rope rope ->
  wf_rope (rope_truncate rope n) /\ units (rope_truncate rope n) = take n (units rope).
Proof.
  intros Hwf. unfold rope_truncate. rewrite rope_len by done.
  destruct (split _ _ _) as [[l r] s] eqn:E.
  destruct (split_spec _ _ _ _ _ _ Hwf E) as (Hl & _ & Cl & _). split; [done|].
  unfold units at 1. cbn [rope_root]. rewrite Cl. fold (units rope).
  destruct (decide (n <= length (units rope))).
  - by rewrite Nat.min_l by lia.
  - by rewrite Nat.min_r, !take_ge by lia.
Qed.

Lemma hide_at_spec rope i u :
  wf_rope rope -> units rope !! i = Some u ->
  wf_rope (hide_at rope i) /\ units (hide_at rope i) = <[i := hide_unit u]> (units rope).
Proof.
  intros Hwf Hu. pose proof (lookup_lt_Some _ _ _ Hu) as Hi.
  destruct (split_one_spec rope i Hwf Hi)
    as (l & node & r & rope' & v & E & Hl & Hr & Cl & Cr & Hv & Hcell & E1 & E2).
  assert (v = u) as -> by congruence. unfold hide_at. rewrite E, (insert_take_drop' _ _ _ Hi), <-Cl, <-Cr.
  set (cell := match taken_cell node with Slot item => cell_hidden item | c => c end).
  assert (expand cell = [hide_unit u] /\ 0 < cell_canonical_len cell) as [Hc Hpos].
  { unfold cell. destruct (taken_cell node) as [n|n|old]; cbn [expand] in Hcell.
    - destruct n as [|[|]]; simplify_eq/=. split; [done|lia].
    - destruct n as [|[|]]; simplify_eq/=. split; [done|lia].
    - simplify_eq. rewrite hidden_len, expand_hidden. split; [done|lia]. }
  destruct (join_around_spec l node cell r) as [Hw Hc']; [done..|]. split; [done|].
  unfold units. cbn [rope_root update]. by rewrite Hc', Hc.
Qed.

(** * Trimming *)

(** Hide slots from the oldest on, at least [remaining.1] slots and [remaining.2] rows. *)
Fixpoint hide_units (us : list Membership) (remaining : nat * nat) : list Membership * (nat * nat) :=
  match us with
  | [] => ([], remaining)
  | u :: us =>
      let '(u, remaining) :=
        match u with
        | Shown item =>
            if (0 <? remaining.1) || (0 <? remaining.2) then
              (hidden_unit item,
               (remaining.1 - 1,
                if item_occupies_display_row item then remaining.2 - 1 else remaining.2))
            else (u, remaining)
        | _ => (u, remaining)
        end in
      let '(us, remaining) := hide_units us remaining in (u :: us, remaining)
  end.

Lemma hide_units_app us vs rem :
  hide_units (us ++ vs) rem
  = ((hide_units us rem).1 ++ (hide_units vs (hide_units us rem).2).1,
     (hide_units vs (hide_units us rem).2).2).
Proof.
  revert rem. induction us as [|u us IH]; intros rem; cbn [app hide_units fst snd].
  { by destruct (hide_units vs rem). }
  destruct (match u with Shown _ => _ | _ => _ end) as [u' rem']. rewrite IH.
  by destruct (hide_units us rem').
Qed.
Lemma hide_units_done us : hide_units us (0, 0) = (us, (0, 0)).
Proof. induction us as [|[| |item] us IH]; [done|..]; cbn; by rewrite IH. Qed.
Lemma hide_units_no_slots us rem : slots_in us = 0 -> hide_units us rem = (us, rem).
Proof.
  induction us as [|[| |item] us IH]; [done|..]; intros Hn; cbn in Hn; [..|lia];
    cbn [hide_units]; by rewrite IH by done.
Qed.

Lemma unit_row_hidden item : unit_row (hidden_unit item) = 0.
Proof. unfold hidden_unit. by destruct (item_occupies_display_row item). Qed.
Lemma unit_slot_hidden item : unit_slot (hidden_unit item) = 0.
Proof. unfold hidden_unit. by destruct (item_occupies_display_row item). Qed.
Lemma slots_in_cons u us : slots_in (u :: us) = unit_slot u + slots_in us.
Proof. done. Qed.
Lemma rows_in_cons u us : rows_in (u :: us) = unit_row u + rows_in us.
Proof. done. Qed.

(** Enough is hidden. *)
Lemma hide_units_bounds us rem :
  slots_in (hide_units us rem).1 <= slots_in us - rem.1
  /\ rows_in (hide_units us rem).1 <= rows_in us - rem.2.
Proof.
  revert rem. induction us as [|u us IH]; intros [s r]; [done|]. cbn [hide_units fst snd].
  destruct u as [| |item].
  1,2: destruct (IH (s, r)); destruct (hide_units us (s, r)) as [us' rem'] eqn:E; cbn [fst snd] in *;
    rewrite !slots_in_cons, !rows_in_cons; cbn; lia.
  destruct ((0 <? s) || (0 <? r)) eqn:Hr.
  - set (rem := (s - 1, if item_occupies_display_row item then r - 1 else r)).
    destruct (IH rem) as [H1 H2]. destruct (hide_units us rem) as [us' rem'] eqn:E. cbn [fst snd] in *.
    rewrite !slots_in_cons, !rows_in_cons, unit_row_hidden, unit_slot_hidden. unfold rem in *.
    cbn [unit_slot unit_row fst snd] in *. destruct (item_occupies_display_row item); lia.
  - apply orb_false_iff in Hr as [Hs%Nat.ltb_ge Hr%Nat.ltb_ge].
    replace s with 0 by lia. replace r with 0 by lia. rewrite hide_units_done. cbn [fst].
    rewrite slots_in_cons, rows_in_cons. lia.
Qed.

(** What is hidden is a prefix, and no longer than it has to be. *)
Lemma hide_units_prefix us rem :
  exists c, (hide_units us rem).1 = (hide_unit <$> take c us) ++ drop c us
    /\ (forall c', c' < c -> slots_in (take c' us) < rem.1 \/ rows_in (take c' us) < rem.2).
Proof.
  revert rem. induction us as [|u us IH]; intros [s r].
  { exists 0. split; [done|]. intros c' Hc'. lia. }
  cbn [hide_units]. destruct (decide ((s, r) = (0, 0))) as [[= -> ->]|Hne].
  { exists 0. split; [|intros c' Hc'; lia]. replace (match u with Shown _ => _ | _ => _ end) with (u, (0, 0))
      by by destruct u. by rewrite hide_units_done. }
  assert (0 < s \/ 0 < r) as Hpos.
  { destruct (decide (s = 0)); [right|left; lia]. destruct (decide (r = 0)); [congruence|lia]. }
  destruct u as [| |item].
  1,2: destruct (IH (s, r)) as (c & Hc & Hm); exists (S c); split;
    [destruct (hide_units us (s, r)); cbn [fst] in *; by rewrite Hc|];
    intros [|c'] Hc'; [exact Hpos|]; cbn [take]; rewrite slots_in_cons, rows_in_cons; cbn [unit_slot unit_row];
    apply Hm; lia.
  rewrite (proj2 (orb_true_iff (0 <? _) (0 <? _))) by (cbn [fst snd]; rewrite !Nat.ltb_lt; exact Hpos).
  match goal with |- context [hide_units us ?rem] => destruct (IH rem) as (c & Hc & Hm);
    destruct (hide_units us rem) end.
  exists (S c). cbn [fst snd] in *. split; [by rewrite Hc|].
  intros [|c'] Hc'; [exact Hpos|]. cbn [take]. rewrite slots_in_cons, rows_in_cons. cbn [unit_slot unit_row].
  destruct (Hm c'); [lia|left; lia|right]. destruct (item_occupies_display_row item); lia.
Qed.

Lemma expand_hide cell rem :
  hide_units (expand cell) rem
  = match cell with
    | Slot item =>
        if (0 <? rem.1) || (0 <? rem.2)
        then ([hidden_unit item],
              (rem.1 - 1, if item_occupies_display_row item then rem.2 - 1 else rem.2))
        else ([Shown item], rem)
    | _ => (expand cell, rem)
    end.
Proof.
  destruct cell as [n|n|item].
  - apply hide_units_no_slots. by rewrite expand_slots.
  - apply hide_units_no_slots. by rewrite expand_slots.
  - cbn [expand hide_units]. by destruct ((0 <? rem.1) || (0 <? rem.2)).
Qed.

Lemma hide_first_visible_spec link rem :
  wf_link link ->
  wf_link (hide_first_visible link rem).1
  /\ (contents (hide_first_visible link rem).1, (hide_first_visible link rem).2)
     = hide_units (contents link) rem.
Proof.
  revert rem. induction link as [|cell l IHl r IHr p a b c d e]; intros rem Hwf; [done|].
  pose proof (cached_slots _ (wf_caches _ Hwf)) as Hb. cbn [display_membership_visible_len] in Hb.
  cbn [hide_first_visible].
  destruct (((rem.1 =? 0) && (rem.2 =? 0)) || (b =? 0)) eqn:Hcut.
  { split; [done|]. cbn [fst snd]. apply orb_true_iff in Hcut as [Hz|Hz].
    - apply andb_true_iff in Hz as [H1%Nat.eqb_eq H2%Nat.eqb_eq]. destruct rem as [s q].
      cbn in *. subst. by rewrite hide_units_done.
    - apply Nat.eqb_eq in Hz. rewrite hide_units_no_slots by lia. done. }
  pose proof Hwf as (Hl & Hr & Hpos & _). rewrite contents_node, !hide_units_app.
  destruct (IHl rem Hl) as [Hwl Hcl]. destruct (hide_first_visible l rem) as [l' rem1]. cbn [fst snd] in *.
  rewrite <-Hcl. cbn [fst snd]. rewrite expand_hide.
  set (q := if (0 <? rem1.1) || (0 <? rem1.2) then _ else (cell, rem1)).
  assert (0 < cell_canonical_len q.1 /\ (expand q.1, q.2)
    = match cell with
      | Slot item =>
          if (0 <? rem1.1) || (0 <? rem1.2)
          then ([hidden_unit item],
                (rem1.1 - 1, if item_occupies_display_row item then rem1.2 - 1 else rem1.2))
          else ([Shown item], rem1)
      | _ => (expand cell, rem1)
      end) as [Hq Hexp].
  { unfold q. destruct ((0 <? rem1.1) || (0 <? rem1.2)); destruct cell as [n|n|item]; try done.
    cbn [fst snd cell_renderable_len]. rewrite hidden_len, expand_hidden. split; [lia|].
    by destruct (item_occupies_display_row item). }
  rewrite <-Hexp. destruct q as [cell' rem2]. cbn [fst snd] in *.
  destruct (IHr rem2 Hr) as [Hwr Hcr]. destruct (hide_first_visible r rem2) as [r' rem3]. cbn [fst snd] in *.
  rewrite <-Hcr. cbn [fst snd]. split; [by apply wf_refresh|]. by rewrite contents_refresh.
Qed.

(** * The newest reply of each thread *)

(** The shown replies of a sequence that starts at canonical index [i]. *)
Fixpoint reply_units (us : list Membership) (i : nat) : list (nat * string) :=
  match us with
  | [] => []
  | u :: us =>
      match u with
      | Shown item => match thread_root item with Some root => [(i, root)] | None => [] end
      | _ => []
      end ++ reply_units us (S i)
  end.

Lemma reply_units_app us vs i :
  reply_units (us ++ vs) i = reply_units us i ++ reply_units vs (i + length us).
Proof.
  revert i. induction us as [|u us IH]; intros i; cbn [app reply_units length].
  { by rewrite Nat.add_0_r. }
  rewrite IH, <-app_assoc. by replace (S i + length us) with (i + S (length us)) by lia.
Qed.
Lemma reply_units_none us i : slots_in us = 0 -> reply_units us i = [].
Proof.
  revert i. induction us as [|[| |item] us IH]; intros i Hn; cbn in Hn; try lia; [done|..]; cbn; auto.
Qed.

Lemma collect_reply_slots_spec link acc :
  wf_link link ->
  collect_reply_slots link acc
  = (acc.1 + length (contents link), acc.2 ++ reply_units (contents link) acc.1).
Proof.
  revert acc. induction link as [|cell l IHl r IHr p a b c d e]; intros [i acc] Hwf.
  { cbn. by rewrite Nat.add_0_r, app_nil_r. }
  pose proof (wf_caches _ Hwf) as [Hlen Hslots _ _ _].
  cbn [display_membership_visible_len display_membership_canonical_len] in *.
  cbn [collect_reply_slots]. destruct (Nat.eqb_spec b 0) as [Hb|_].
  { cbn [fst snd]. rewrite reply_units_none, app_nil_r, Hlen by lia. done. }
  destruct Hwf as (Hl & Hr & _ & _). rewrite (IHl _ Hl), contents_node, !reply_units_app, !length_app.
  cbn [fst snd]. pose proof (expand_length cell) as Hce.
  assert (forall n u, slots_in (replicate n u) = 0 -> reply_units (replicate n u) (i + length (contents l)) = [])
    as Hnone by (intros; by apply reply_units_none).
  destruct cell as [n|n|item]; rewrite (IHr _ Hr); cbn [fst snd expand cell_canonical_len] in *.
  - rewrite Hnone by (by apply (expand_slots (Gap n))). rewrite length_replicate, app_nil_l, app_assoc.
    f_equal; lia.
  - rewrite Hnone by (by apply (expand_slots (Suppressed n))). rewrite length_replicate, app_nil_l, app_assoc.
    f_equal; lia.
  - cbn [length reply_units]. rewrite app_nil_r.
    destruct (thread_root item); cbn [app]; rewrite <-?app_assoc; f_equal; lia.
Qed.

Lemma reply_units_lookup us i k c root :
  reply_units us i !! k = Some (c, root) ->
  i <= c /\ exists item, us !! (c - i) = Some (Shown item) /\ thread_root item = Some root.
Proof.
  revert i k. induction us as [|u us IH]; intros i k Hk; [done|]. cbn [reply_units] in Hk.
  apply lookup_app_Some in Hk as [Hk|[_ Hk]].
  - destruct u as [| |item]; try done. destruct (thread_root item) as [t|] eqn:Et; [|done].
    destruct k as [|k]; [|done]. cbn in Hk. simplify_eq. split; [lia|]. rewrite Nat.sub_diag. by exists item.
  - apply IH in Hk as (Hc & item & Hl & Ht). split; [lia|].
    exists item. replace (c - i) with (S (c - S i)) by lia. done.
Qed.
Lemma reply_units_elem us i c item root :
  us !! c = Some (Shown item) -> thread_root item = Some root -> (i + c, root) ∈ reply_units us i.
Proof.
  revert i c. induction us as [|u us IH]; intros i c Hc Ht; [done|]. cbn [reply_units].
  apply elem_of_app. destruct c as [|c]; cbn in Hc.
  - left. simplify_eq. rewrite Ht, Nat.add_0_r. constructor.
  - right. rewrite Nat.add_succ_r. by apply (IH (S i)).
Qed.
(** Replies are listed in canonical order. *)
Lemma reply_units_sorted us i j k c d r s :
  reply_units us i !! j = Some (c, r) -> reply_units us i !! k = Some (d, s) -> j < k <-> c < d.
Proof.
  revert i j k. induction us as [|u us IH]; intros i j k Hj Hk; [done|]. cbn [reply_units] in *.
  set (h := match u with Shown _ => _ | _ => _ end) in *.
  assert (h = [] \/ exists root, h = [(i, root)]) as [Hh|[root Hh]].
  { unfold h. destruct u as [| |item]; auto. destruct (thread_root item); eauto. }
  - rewrite Hh in *. by apply (IH (S i)).
  - rewrite Hh in *. destruct j as [|j], k as [|k]; cbn [app] in *; simplify_eq/=; [lia|..].
    + destruct (reply_units_lookup _ _ _ _ _ Hk). lia.
    + destruct (reply_units_lookup _ _ _ _ _ Hj). lia.
    + rewrite <-(IH (S i) j k Hj Hk). lia.
Qed.

Lemma newest_ordinals_lookup replies root k :
  newest_ordinals replies !! root = Some k ->
  (exists c, replies !! k = Some (c, root))
  /\ forall j c, replies !! j = Some (c, root) -> j <= k.
Proof.
  unfold newest_ordinals. revert k. induction replies as [|[c r] replies IH] using rev_ind; intros k; [done|].
  rewrite imap_app, foldl_app. cbn [imap foldl]. unfold compose. cbn [fst snd]. rewrite Nat.add_0_r.
  rewrite lookup_insert. case_decide as Hr.
  - intros [= <-]. subst r. split.
    + exists c. by rewrite lookup_app_r, Nat.sub_diag.
    + intros j c' Hj. apply lookup_lt_Some in Hj. rewrite length_app in Hj. cbn in Hj. lia.
  - intros Hk. destruct (IH _ Hk) as [[d Hd] Hmax]. split.
    + exists d. by apply lookup_app_l_Some.
    + intros j c' [Hj|[Hj Hj']]%lookup_app_Some; [by eapply Hmax|].
      destruct (j - length replies) as [|]; by simplify_eq/=.
Qed.
Lemma newest_ordinals_some replies j c root :
  replies !! j = Some (c, root) -> is_Some (newest_ordinals replies !! root).
Proof.
  unfold newest_ordinals. revert j. induction replies as [|[d r] replies IH] using rev_ind; intros j; [done|].
  rewrite imap_app, foldl_app. cbn [imap foldl]. unfold compose. cbn [fst snd].
  rewrite lookup_insert. case_decide; [by eexists|].
  intros [Hj|[Hj Hj']]%lookup_app_Some; [by eapply IH|].
  destruct (j - length replies) as [|]; by simplify_eq/=.
Qed.

(** A reply is stale when a later visible one has the same root. *)
Lemma stale_replies_spec us c :
  c ∈ stale_replies (reply_units us 0)
  <-> exists item root, us !! c = Some (Shown item) /\ thread_root item = Some root
      /\ exists d item', c < d /\ us !! d = Some (Shown item') /\ thread_root item' = Some root.
Proof.
  unfold stale_replies. rewrite list_elem_of_omap. setoid_rewrite elem_of_lookup_imap. split.
  - intros ([o [c' root]] & (k & y & Hk & Hy) & Hc). cbn [fst snd] in Hc. simplify_eq.
    case_bool_decide as Hn; simplify_eq.
    destruct (reply_units_lookup _ _ _ _ _ Hy) as (_ & item & Hi & Ht). rewrite Nat.sub_0_r in Hi.
    exists item, root. split; [done|]. split; [done|].
    destruct (newest_ordinals_some _ _ _ _ Hy) as [m Hm].
    destruct (newest_ordinals_lookup _ _ _ Hm) as [[d Hd] Hmax].
    assert (k < m) as Hlt. { pose proof (Hmax _ _ Hy). destruct (decide (k = m)); [congruence|lia]. }
    destruct (reply_units_lookup _ _ _ _ _ Hd) as (_ & item' & Hi' & Ht'). rewrite Nat.sub_0_r in Hi'.
    exists d, item'. split; [|done]. by apply (reply_units_sorted _ _ _ _ _ _ _ _ Hy Hd).
  - intros (item & root & Hc & Ht & d & item' & Hlt & Hd & Ht').
    pose proof (reply_units_elem us 0 _ _ _ Hc Ht) as [k Hk]%list_elem_of_lookup.
    pose proof (reply_units_elem us 0 _ _ _ Hd Ht') as [m Hm]%list_elem_of_lookup.
    exists (k, (c, root)). split; [by exists k, (c, root)|]. cbn [fst snd].
    rewrite bool_decide_eq_false_2; [done|]. intros Hn.
    destruct (newest_ordinals_lookup _ _ _ Hn) as [_ Hmax].
    pose proof (Hmax _ _ Hm). pose proof (proj2 (reply_units_sorted _ _ _ _ _ _ _ _ Hk Hm) Hlt). lia.
Qed.

Definition hide_where (p : nat -> bool) (us : list Membership) : list Membership :=
  imap (fun i u => if p i then hide_unit u else u) us.
(** The sequence with every stale reply hidden. *)
Definition newest_replies_only (us : list Membership) : list Membership :=
  hide_where (fun i => bool_decide (i ∈ stale_replies (reply_units us 0))) us.

Lemma hide_unit_idemp u : hide_unit (hide_unit u) = hide_unit u.
Proof. destruct u as [| |item]; [done..|]. cbn. unfold hidden_unit. by destruct (item_occupies_display_row item). Qed.
Lemma hide_where_length p us : length (hide_where p us) = length us.
Proof. apply length_imap. Qed.
Lemma hide_where_lookup p us i :
  hide_where p us !! i = (fun u => if p i then hide_unit u else u) <$> us !! i.
Proof. apply list_lookup_imap. Qed.
Lemma hide_where_none us p : (forall i, i < length us -> p i = false) -> hide_where p us = us.
Proof.
  intros Hp. apply list_eq. intros i. rewrite hide_where_lookup.
  destruct (us !! i) as [u|] eqn:E; [|done]. cbn. by rewrite Hp by (by eapply lookup_lt_Some).
Qed.

Lemma fold_hide_at rope is_ :
  wf_rope rope -> Forall (fun i => i < length (units rope)) is_ ->
  wf_rope (foldl hide_at rope is_)
  /\ units (foldl hide_at rope is_) = hide_where (fun i => bool_decide (i ∈ is_)) (units rope).
Proof.
  revert rope. induction is_ as [|i is_ IH]; intros rope Hwf Hall.
  { split; [done|]. cbn [foldl]. rewrite hide_where_none; [done|].
    intros j _. apply bool_decide_eq_false_2, not_elem_of_nil. }
  apply Forall_cons in Hall as [Hi Hall]. destruct (lookup_lt_is_Some_2 _ _ Hi) as [u Hu].
  destruct (hide_at_spec rope i u Hwf Hu) as [Hw Hc]. cbn [foldl].
  destruct (IH (hide_at rope i) Hw) as [Hw' Hc'].
  { eapply Forall_impl; [done|]. intros j Hj. by rewrite Hc, length_insert. }
  split; [done|]. rewrite Hc', Hc. apply list_eq. intros j. rewrite !hide_where_lookup.
  destruct (decide (j = i)) as [->|Hne].
  - rewrite list_lookup_insert_eq, Hu by done. cbn.
    rewrite (bool_decide_eq_true_2 (i ∈ i :: is_)) by constructor.
    case_bool_decide; [by rewrite hide_unit_idemp|done].
  - rewrite list_lookup_insert_ne by done. destruct (units rope !! j); [|done]. cbn.
    f_equal. erewrite (bool_decide_ext (j ∈ i :: is_)); [done|].
    rewrite elem_of_cons. split; [by intros [?|?]|by right].
Qed.

Lemma rope_retain_newest_spec rope :
  wf_rope rope ->
  wf_rope (retain_newest_reply_per_root rope)
  /\ units (retain_newest_reply_per_root rope) = newest_replies_only (units rope).
Proof.
  intros Hwf. unfold retain_newest_reply_per_root. rewrite collect_reply_slots_spec by done.
  cbn [fst snd app]. fold (units rope). destruct (Nat.ltb_spec (length (reply_units (units rope) 0)) 2) as [Hlt|_].
  - split; [done|]. unfold newest_replies_only. rewrite hide_where_none; [done|].
    intros i _. apply bool_decide_eq_false_2. intros Hin.
    apply stale_replies_spec in Hin as (item & root & Hc & Ht & d & item' & Hcd & Hd & Ht').
    pose proof (reply_units_elem _ 0 _ _ _ Hc Ht) as [k Hk]%list_elem_of_lookup.
    pose proof (reply_units_elem _ 0 _ _ _ Hd Ht') as [m Hm]%list_elem_of_lookup.
    pose proof (proj2 (reply_units_sorted _ _ _ _ _ _ _ _ Hk Hm) Hcd).
    pose proof (lookup_lt_Some _ _ _ Hm). lia.
  - apply fold_hide_at; [done|]. apply Forall_forall. intros i Hin.
    apply stale_replies_spec in Hin as (item & root & Hc & _). by eapply lookup_lt_Some.
Qed.

Lemma trim_to_live_edge_spec rope m :
  wf_rope rope ->
  wf_rope (trim_to_live_edge rope m)
  /\ units (trim_to_live_edge rope m)
     = match m with
       | None => units rope
       | Some m =>
           let us := newest_replies_only (units rope) in
           (hide_units us (slots_in us - m * 2, rows_in us - m)).1
       end.
Proof.
  intros Hwf. destruct m as [m|]; [|done]. cbn [trim_to_live_edge].
  destruct (rope_retain_newest_spec rope Hwf) as [Hw Hc]. set (r := retain_newest_reply_per_root rope) in *.
  rewrite rope_rows, rope_slots, Hc by done.
  destruct (hide_first_visible_spec (rope_root r)
    (slots_in (newest_replies_only (units rope)) - m * 2, rows_in (newest_replies_only (units rope)) - m) Hw)
    as [Hw' Hc'].
  destruct (hide_first_visible (rope_root r) _) as [root rem]. cbn [fst snd] in *.
  split; [exact Hw'|]. unfold units at 1. cbn [rope_root update]. fold (units r) in Hc'. rewrite Hc in Hc'.
  by rewrite <-Hc'.
Qed.

(** * Construction *)

(** The subtree at [link] of the arena is made of the nodes [lo .. hi-1], in order. *)
Inductive covers (p : list PendingDisplayMembershipNode) : option nat -> nat -> nat -> Prop :=
  | covers_none lo : covers p None lo lo
  | covers_some i lo hi node :
      p !! i = Some node -> covers p (pending_left node) lo i -> covers p (pending_right node) (S i) hi ->
      covers p (Some i) lo hi.

Lemma covers_bounds p link lo hi :
  covers p link lo hi -> lo <= hi /\ forall i, link = Some i -> lo <= i < hi.
Proof.
  induction 1 as [|i lo hi node Hi Hl [IHl _] Hr [IHr _]]; [by split|].
  split; [lia|]. intros j [= <-]. lia.
Qed.

(** The links and priorities of the nodes [lo .. hi-1] are the same. *)
Definition same_links (p q : list PendingDisplayMembershipNode) (lo hi : nat) : Prop :=
  forall i node, lo <= i < hi -> p !! i = Some node -> q !! i = Some node.

Lemma covers_same p q link lo hi : same_links p q lo hi -> covers p link lo hi -> covers q link lo hi.
Proof.
  intros Hs Hc. induction Hc as [|i lo hi node Hi Hl IHl Hr IHr]; [constructor|].
  pose proof (covers_bounds _ _ _ _ Hl) as [? _]. pose proof (covers_bounds _ _ _ _ Hr) as [? _].
  apply (covers_some _ _ _ _ node); [apply Hs; [lia|done]|apply IHl|apply IHr];
    intros j nd Hj; apply Hs; lia.
Qed.

(** The cells of the nodes [lo .. hi-1]. *)
Definition arena_cells (p : list PendingDisplayMembershipNode) (lo hi : nat) : list DisplayMembershipCell :=
  omap pending_cell (take (hi - lo) (drop lo p)).
Definition all_cells (p : list PendingDisplayMembershipNode) : Prop :=
  Forall (fun node => exists cell, pending_cell node = Some cell /\ 0 < cell_canonical_len cell) p.

Lemma take_add_app' {A} n m (l : list A) : take (n + m) l = take n l ++ take m (drop n l).
Proof. revert l. induction n as [|n IH]; intros l; [done|]. destruct l as [|x l]; cbn; [by destruct m|]. by rewrite IH. Qed.
Lemma arena_cells_nil p lo : arena_cells p lo lo = [].
Proof. unfold arena_cells. by rewrite Nat.sub_diag, take_0. Qed.
Lemma arena_cells_split p lo i hi node cell :
  lo <= i < hi -> p !! i = Some node -> pending_cell node = Some cell ->
  arena_cells p lo hi = arena_cells p lo i ++ cell :: arena_cells p (S i) hi.
Proof.
  intros Hi Hp Hc. unfold arena_cells.
  replace (hi - lo) with ((i - lo) + S (hi - S i)) by lia. rewrite take_add_app', omap_app', drop_drop.
  replace (lo + (i - lo)) with i by lia. rewrite (drop_S _ _ _ Hp). cbn [take]. csimpl. by rewrite Hc.
Qed.

Lemma build_spec p :
  all_cells p ->
  forall link lo hi, covers p link lo hi -> forall fuel q, hi - lo <= fuel ->
  same_links p q lo hi ->
  exists t q',
    match link with Some i => build fuel i q | None => Some (NoNode, q) end = Some (t, q')
    /\ wf_link t /\ cells t = arena_cells p lo hi
    /\ forall i, (i < lo \/ hi <= i) -> q' !! i = q !! i.
Proof.
  intros Hall link lo hi Hc. induction Hc as [lo|i lo hi node Hi Hl IHl Hr IHr]; intros fuel q Hfuel Hs.
  { exists NoNode, q. by rewrite arena_cells_nil. }
  pose proof (covers_bounds _ _ _ _ Hl) as [Hlo _]. pose proof (covers_bounds _ _ _ _ Hr) as [Hhi _].
  destruct fuel as [|fuel]; [lia|].
  pose proof (Hs i node ltac:(lia) Hi) as Hq.
  destruct (proj1 (Forall_lookup _ _) Hall i node Hi) as (cell & Hcell & Hpos).
  cbn [build]. rewrite Hq. cbn [mbind option_bind]. rewrite Hcell. cbn [mbind option_bind].
  set (q0 := alter _ i q).
  assert (forall j, j <> i -> q0 !! j = q !! j) as Hq0.
  { intros j Hj. by apply list_lookup_alter_ne. }
  destruct (IHl fuel q0) as (t1 & q1 & E1 & W1 & C1 & K1); [lia|..].
  { intros j nd Hj Hp. rewrite Hq0 by lia. apply Hs; [lia|done]. }
  rewrite E1. cbn [mbind option_bind].
  destruct (IHr fuel q1) as (t2 & q2 & E2 & W2 & C2 & K2); [lia|..].
  { intros j nd Hj Hp. rewrite K1, Hq0 by lia. apply Hs; [lia|done]. }
  rewrite E2. cbn [mbind option_bind].
  do 2 eexists. split; [done|]. split; [by apply wf_refresh|]. split.
  - rewrite (arena_cells_split p lo i hi node cell), <-C1, <-C2 by (done || lia). done.
  - intros j Hj. rewrite K2, K1, Hq0 by lia. done.
Qed.

(** The right spine of the tree under construction, top first: [r] and [lo] are the right link the
    top must have and the first node of the subtree it leads to. *)
Fixpoint spine (p : list PendingDisplayMembershipNode) (stack : list nat) (r : option nat) (lo : nat) : Prop :=
  match stack with
  | [] => lo = 0
  | s :: stack =>
      exists node lo', p !! s = Some node /\ pending_right node = r /\ lo = S s
        /\ covers p (pending_left node) lo' s /\ spine p stack (Some s) lo'
  end.

Lemma spine_same p q stack r lo : same_links p q 0 lo -> spine p stack r lo -> spine q stack r lo.
Proof.
  revert r lo. induction stack as [|s stack IH]; intros r lo Hs; [done|].
  intros (node & lo' & Hp & Hr & -> & Hc & Hsp). pose proof (covers_bounds _ _ _ _ Hc) as [Hlo _].
  exists node, lo'. split; [apply Hs; [lia|done]|]. split; [done|]. split; [done|]. split.
  - eapply covers_same; [|done]. intros i nd Hi. apply Hs. lia.
  - apply IH; [|done]. intros i nd Hi. apply Hs. lia.
Qed.

Lemma pop_lower_spec p priority stack link lo n :
  spine p stack link lo -> covers p link lo n ->
  exists lo', spine p (pop_lower p priority stack link).1 (pop_lower p priority stack link).2 lo'
    /\ covers p (pop_lower p priority stack link).2 lo' n.
Proof.
  revert link lo. induction stack as [|s stack IH]; intros link lo; [by exists lo|].
  intros Hsp Hc. pose proof Hsp as (node & lo' & Hp & Hr & -> & Hl & Hrest). cbn [pop_lower].
  destruct (priority_at p s <? priority)%Z.
  - apply (IH (Some s) lo'); [done|]. apply (covers_some _ _ _ _ node); [done..|]. by rewrite Hr.
  - by exists (S s).
Qed.

Definition arena_ok (acc : list PendingDisplayMembershipNode * list nat * Z)
    (cs : list DisplayMembershipCell) : Prop :=
  spine acc.1.1 acc.1.2 None (length acc.1.1) /\ all_cells acc.1.1
  /\ omap pending_cell acc.1.1 = cs.

Definition nonempty_cells (cs : list DisplayMembershipCell) : list DisplayMembershipCell :=
  List.filter (fun c => negb (is_empty_run c)) cs.

Lemma is_empty_run_false c : is_empty_run c = false -> 0 < cell_canonical_len c.
Proof. destruct c as [[|n]|[|n]|item]; cbn; (done || lia). Qed.

Lemma all_cells_alter p i f :
  (forall node, pending_cell (f node) = pending_cell node) -> all_cells p ->
  all_cells (alter f i p) /\ omap pending_cell (alter f i p) = omap pending_cell p.
Proof.
  intros Hf. revert i. induction p as [|node p IH]; intros i Hall; [done|].
  apply Forall_cons in Hall as [Hn Hall]. destruct i as [|i]; csimpl.
  - rewrite Hf. split; [|done]. constructor; [by rewrite Hf|done].
  - destruct (IH i Hall) as [H1 H2]. split; [by constructor|]. by rewrite H2.
Qed.

Lemma push_cell_ok acc cs cell :
  arena_ok acc cs -> arena_ok (push_cell acc cell) (cs ++ nonempty_cells [cell]).
Proof.
  destruct acc as [[p stack] seed]. intros (Hsp & Hall & Hcs). cbn [fst snd] in *.
  unfold push_cell, nonempty_cells. cbn [List.filter]. destruct (is_empty_run cell) eqn:Hcell; cbn [negb].
  { by rewrite app_nil_r. }
  destruct (next_priority seed) as [priority seed'].
  destruct (pop_lower_spec p priority stack None (length p) (length p) Hsp) as (lo & Hsp' & Hc);
    [constructor|].
  destruct (pop_lower p priority stack None) as [stack' link]. cbn [fst snd] in *.
  set (node := {| pending_cell := Some cell; pending_left := link; pending_right := None;
                  pending_priority := priority |}).
  assert (all_cells (p ++ [node]) /\ omap pending_cell (p ++ [node]) = cs ++ [cell]) as [Ha Hom].
  { split; [|by rewrite omap_app', Hcs]. apply Forall_app. split; [done|]. constructor; [|done].
    exists cell. split; [done|by apply is_empty_run_false]. }
  assert (same_links p (p ++ [node]) 0 (length p)) as Hsame.
  { intros i nd Hi Hp. by apply lookup_app_l_Some. }
  pose proof (covers_bounds _ _ _ _ Hc) as [Hlo _].
  unfold arena_ok. destruct stack' as [|parent stack']; cbn [fst snd].
  - cbn [spine] in Hsp'. subst lo. split; [|done]. rewrite length_app. exists node, 0.
    split; [by rewrite lookup_app_r, Nat.sub_diag|]. split; [done|]. split; [cbn; lia|].
    split; [|done]. by eapply covers_same.
  - destruct Hsp' as (pn & lo' & Hp & Hr & -> & Hl & Hrest). pose proof (covers_bounds _ _ _ _ Hl) as [Hlo' _].
    set (f := fun n => n <| pending_right := Some (length p) |>).
    destruct (all_cells_alter (p ++ [node]) parent f) as [Ha' Hom']; [done..|].
    split; [|by rewrite Hom'].
    assert (forall i, i <> parent -> alter f parent (p ++ [node]) !! i = (p ++ [node]) !! i) as Halt
      by (intros; by apply list_lookup_alter_ne).
    rewrite length_alter, length_app. exists node, (S parent).
    split; [rewrite Halt by lia; by rewrite lookup_app_r, Nat.sub_diag|].
    split; [done|]. split; [cbn; lia|]. split.
    { eapply covers_same; [|done]. intros i nd Hi Hpi. rewrite Halt by lia. by apply lookup_app_l_Some. }
    exists (f pn), lo'. split.
    { rewrite list_lookup_alter_eq, (lookup_app_l_Some _ _ _ _ Hp). done. }
    split; [done|]. split; [done|]. split.
    + eapply covers_same; [|done]. intros i nd Hi Hpi. rewrite Halt by lia. by apply lookup_app_l_Some.
    + eapply spine_same; [|done]. intros i nd Hi Hpi. rewrite Halt by lia. by apply lookup_app_l_Some.
Qed.

Lemma spine_covers p stack link lo n :
  spine p stack link lo -> covers p link lo n ->
  match last stack with None => lo = 0 | Some root => covers p (Some root) 0 n end.
Proof.
  revert link lo. induction stack as [|s stack IH]; intros link lo; [done|].
  intros (node & lo' & Hp & Hr & -> & Hl & Hrest) Hc.
  assert (covers p (Some s) lo' n) as Hs by (apply (covers_some _ _ _ _ node); [done..|by rewrite Hr]).
  specialize (IH _ _ Hrest Hs). destruct stack as [|s' stack].
  { cbn [last] in *. by rewrite IH in Hs. }
  change (last (s :: s' :: stack)) with (last (s' :: stack)).
  destruct (last (s' :: stack)) eqn:E; [done|]. by apply last_None in E.
Qed.

Lemma expand_nonempty cs : expand_all (nonempty_cells cs) = expand_all cs.
Proof.
  induction cs as [|c cs IH]; [done|]. unfold nonempty_cells in *. cbn [List.filter].
  rewrite (expand_all_cons c). destruct (is_empty_run c) eqn:Hc; cbn [negb].
  - rewrite IH. by destruct c as [[|n]|[|n]|item].
  - by rewrite expand_all_cons, IH.
Qed.

Lemma from_cells_spec cs :
  exists rope, from_cells cs = Some rope /\ wf_rope rope /\ units rope = expand_all cs.
Proof.
  unfold from_cells.
  assert (forall acc pre, arena_ok acc pre -> arena_ok (foldl push_cell acc cs) (pre ++ nonempty_cells cs)) as Hfold.
  { induction cs as [|c cs IH]; intros acc pre Hacc; [by rewrite app_nil_r|]. cbn [foldl].
    pose proof (IH _ _ (push_cell_ok _ _ c Hacc)) as H. rewrite <-app_assoc in H.
    replace (nonempty_cells (c :: cs)) with (nonempty_cells [c] ++ nonempty_cells cs); [done|].
    unfold nonempty_cells. cbn [List.filter]. by destruct (negb (is_empty_run c)). }
  specialize (Hfold ([], [], 1%Z) []). destruct (foldl push_cell ([], [], 1%Z) cs) as [[p stack] seed].
  destruct Hfold as (Hsp & Hall & Hcs); [by split; [|split; [constructor|]]|]. cbn [fst snd app] in *.
  rewrite <-(expand_nonempty cs), <-Hcs.
  pose proof (spine_covers _ _ _ _ _ Hsp (covers_none _ _)) as Hroot.
  destruct (last stack) as [root|] eqn:Hlast.
  - destruct (build_spec p Hall _ _ _ Hroot (length p) p) as (t & q & E & Hw & Hc & _); [lia|by intros ??|].
    rewrite E. cbn [mbind option_bind]. eexists. split; [done|]. split; [done|].
    unfold units, contents. cbn [rope_root]. rewrite Hc. unfold arena_cells.
    by rewrite drop_0, Nat.sub_0_r, take_ge by lia.
  - apply last_None in Hlast. subst stack. cbn [spine] in Hsp. apply length_zero_iff_nil in Hsp. subst p.
    by eexists.
Qed.

(** * Materialization *)

Lemma push_left_spine_spec link pending :
  (push_left_spine link pending ≫= (fun e => e.1 :: cells e.2))
  = cells link ++ (pending ≫= (fun e => e.1 :: cells e.2))
  /\ sum_list ((fun e => S (node_count e.2)) <$> push_left_spine link pending)
     = node_count link + sum_list ((fun e => S (node_count e.2)) <$> pending).
Proof.
  revert pending. induction link as [|cell l IHl r _ p ? ? ? ? ?]; intros pending; [done|].
  cbn [push_left_spine]. destruct (IHl ((cell, r) :: pending)) as [H1 H2]. rewrite H1, H2. csimpl.
  cbn [cells node_count]. rewrite <-app_assoc. split; [done|]. lia.
Qed.

Lemma materialize_loop_spec fuel link pending m :
  node_count link + sum_list ((fun e => S (node_count e.2)) <$> pending) <= fuel ->
  materialize_loop fuel link pending m
  = Some (foldl materialize_cell m (cells link ++ (pending ≫= (fun e => e.1 :: cells e.2)))).
Proof.
  revert link pending m. induction fuel as [|fuel IH]; intros link pending m Hf;
    destruct (push_left_spine_spec link pending) as [<- Hsum]; cbn [materialize_loop];
    destruct (push_left_spine link pending) as [|[cell r] rest]; csimpl; try done; cbn in Hsum; [lia|].
  rewrite IH by (cbn in *; lia). done.
Qed.

Lemma materialize_slots_spec rope :
  materialize_slots rope
  = let m := foldl materialize_cell
        {| mat_slots := []; mat_index := 0; mat_lead := 0; mat_trail := 0; mat_trimmed := false |}
        (cells (rope_root rope)) in
    Some (mat_slots m, run_ends (mat_lead m) (mat_trail m) (mat_trimmed m), mat_index m).
Proof.
  unfold materialize_slots. rewrite materialize_loop_spec by (cbn; lia).
  cbn [mbind option_bind]. by rewrite app_nil_r.
Qed.

(** * Runs of operations *)

(** What an SDK batch does with the rope. *)
Inductive RopeOp :=
  | RopeInsert (index : nat) (item : TimelineItem) (include : option bool)
  | RopeSet (index : nat) (item : TimelineItem) (expected_render_id : string)
  | RopeRemove (index : nat) (expected_render_id : string)
  | RopeTruncate (length : nat)
  | RopeClear
  | RopeTrim (max_items : option nat).

Definition rope_step (rope : DisplayMembershipRope) (op : RopeOp) : DisplayMembershipRope * list bool :=
  match op with
  | RopeInsert index item include => let '(b, rope) := rope_insert rope index item include in (rope, [b])
  | RopeSet index item id => let '(b, rope) := rope_set rope index item id in (rope, [b])
  | RopeRemove index id => let '(b, rope) := rope_remove rope index id in (rope, [b])
  | RopeTruncate length => (rope_truncate rope length, [])
  | RopeClear => (rope_clear rope, [])
  | RopeTrim max_items => (trim_to_live_edge rope max_items, [])
  end.

(** Hide the stale replies, then the oldest slots over twice the limit and rows over the limit. *)
Definition trim_units (us : list Membership) (max_items : option nat) : list Membership :=
  match max_items with
  | None => us
  | Some m =>
      let us := newest_replies_only us in (hide_units us (slots_in us - m * 2, rows_in us - m)).1
  end.

(** The same on the sequence of memberships. *)
Definition units_step (us : list Membership) (op : RopeOp) : list Membership * list bool :=
  match op with
  | RopeInsert index item include =>
      if length us <? index then (us, [false])
      else (vec_insert index (inserted_unit us index item include) us, [true])
  | RopeSet index item id =>
      match us !! index with
      | Some u => (<[index := replaced_unit item u]> us, [owner_matches id u])
      | None => (us, [false])
      end
  | RopeRemove index id =>
      match us !! index with
      | Some u => (delete index us, [owner_matches id u])
      | None => (us, [false])
      end
  | RopeTruncate length => (take length us, [])
  | RopeClear => ([], [])
  | RopeTrim max_items => (trim_units us max_items, [])
  end.

Lemma split_one_out_of_range rope i :
  wf_rope rope -> length (units rope) <= i -> split_one rope i = (None, rope).
Proof. intros Hwf Hi. unfold split_one. rewrite rope_len by done. by rewrite (proj2 (Nat.leb_le _ _) Hi). Qed.

Lemma rope_step_spec rope op :
  wf_rope rope ->
  wf_rope (rope_step rope op).1
  /\ (units (rope_step rope op).1, (rope_step rope op).2) = units_step (units rope) op.
Proof.
  intros Hwf. destruct op as [i item include|i item id|i id|n| |m]; cbn [rope_step units_step].
  - destruct (Nat.ltb_spec (length (units rope)) i) as [Hi|Hi].
    + unfold rope_insert. rewrite rope_len, (proj2 (Nat.ltb_lt _ _) Hi) by done. done.
    + destruct (rope_insert_spec rope i item include Hwf Hi) as (E & Hw & Hc).
      destruct (rope_insert rope i item include) as [b rope']. cbn [fst snd] in *. by rewrite E, Hc.
  - destruct (decide (i < length (units rope))) as [Hi|Hi].
    + destruct (rope_set_spec rope i item id Hwf Hi) as (u & -> & E & Hw & Hc).
      destruct (rope_set rope i item id) as [b rope']. cbn [fst snd] in *. by rewrite E, Hc.
    + rewrite (proj2 (lookup_ge_None _ _)) by lia. unfold rope_set. by rewrite split_one_out_of_range by (done || lia).
  - destruct (decide (i < length (units rope))) as [Hi|Hi].
    + destruct (rope_remove_spec rope i id Hwf Hi) as (u & -> & E & Hw & Hc).
      destruct (rope_remove rope i id) as [b rope']. cbn [fst snd] in *. by rewrite E, Hc.
    + rewrite (proj2 (lookup_ge_None _ _)) by lia. unfold rope_remove. by rewrite split_one_out_of_range by (done || lia).
  - destruct (rope_truncate_spec rope n Hwf) as [Hw Hc]. cbn [fst snd]. by rewrite Hc.
  - done.
  - destruct (trim_to_live_edge_spec rope m Hwf) as [Hw Hc]. cbn [fst snd]. split; [done|].
    rewrite Hc. by destruct m.
Qed.

Lemma rope_run_spec rope ops :
  wf_rope rope ->
  wf_rope (run rope_step rope ops).1
  /\ (units (run rope_step rope ops).1, (run rope_step rope ops).2) = run units_step (units rope) ops.
Proof.
  revert rope. induction ops as [|op ops IH]; intros rope Hwf; [done|].
  destruct (rope_step_spec rope op Hwf) as [Hw Hs]. cbn [run]. rewrite <-Hs.
  destruct (rope_step rope op) as [rope' answers]. cbn [fst snd] in *. specialize (IH rope' Hw).
  destruct (run rope_step rope' ops) as [rope'' answers']. cbn [fst snd] in *.
  destruct IH as [IH1 IH2]. by rewrite <-IH2.
Qed.

(** C9: the display rope is the canonical run with one membership per item: built from any cells
    (the Cartesian-tree construction succeeds and loses none) and put through any operations, in
    range or not, it answers as the plain sequence does and holds the same memberships, whatever
    the priorities make of the treap's shape. *)
Theorem rope_refines_the_canonical_run cs ops :
  exists rope, from_cells cs = Some rope /\ units rope = expand_all cs
  /\ (units (run rope_step rope ops).1, (run rope_step rope ops).2)
     = run units_step (expand_all cs) ops.
Proof.
  destruct (from_cells_spec cs) as (rope & E & Hwf & Hc). exists rope. split; [done|]. split; [done|].
  rewrite <-Hc. by apply rope_run_spec.
Qed.

(** C12: trimming to the live edge of [m] rows leaves at most [m] rows and at most [2 * m] slots
    in any rope, and hides exactly what it must: each reply that a newer shown reply of its thread
    outdates ([newest] is the run without them), and then a prefix of the run, the shortest that
    will do — with one more row of it shown, there would be more than [m] rows or more than [2 * m]
    slots; so nothing is hidden when the limits already hold. *)
Theorem live_edge_is_bounded cs ops m :
  exists rope, from_cells cs = Some rope /\
  let before := (run rope_step rope ops).1 in
  let after := trim_to_live_edge before (Some m) in
  renderable_visible_len after <= m /\ rope_visible_len after <= m * 2
  /\ rope_canonical_len after = rope_canonical_len before
  /\ exists c newest,
      units after = (hide_unit <$> take c newest) ++ drop c newest
      /\ (forall c', c' < c -> m < rows_in (drop c' newest) \/ m * 2 < slots_in (drop c' newest))
      /\ length newest = length (units before)
      /\ forall i u, units before !! i = Some u ->
          let outdated := exists item root, u = Shown item /\ thread_root item = Some root
             /\ exists j item', i < j /\ units before !! j = Some (Shown item')
                /\ thread_root item' = Some root in
          (outdated -> newest !! i = Some (hide_unit u)) /\ (~ outdated -> newest !! i = Some u).
Proof.
  destruct (from_cells_spec cs) as (rope & E & Hwf & _). exists rope. split; [done|]. cbn zeta.
  destruct (rope_run_spec rope ops Hwf) as [Hb _]. clear E Hwf.
  set (before := (run rope_step rope ops).1) in *. clearbody before. clear rope.
  destruct (trim_to_live_edge_spec before (Some m) Hb) as [Ha Hu].
  set (after := trim_to_live_edge before (Some m)) in *. clearbody after.
  rewrite !rope_rows, !rope_slots, !rope_len by done. rewrite Hu. cbn zeta.
  set (vs := newest_replies_only (units before)). set (rem := (slots_in vs - m * 2, rows_in vs - m)).
  destruct (hide_units_bounds vs rem) as [H1 H2].
  assert (rem.1 = slots_in vs - m * 2 /\ rem.2 = rows_in vs - m) as [E1 E2] by done.
  split; [lia|]. split; [lia|].
  destruct (hide_units_prefix vs rem) as (c & Hc & Hmin). rewrite Hc. split.
  { rewrite length_app, length_fmap, <-length_app, take_drop. unfold vs, newest_replies_only. by rewrite hide_where_length. }
  exists c, vs. split; [done|]. split; [|split].
  { intros c' Hc'. specialize (Hmin c' Hc'). rewrite E1, E2 in Hmin.
    pose proof (slots_in_app (take c' vs) (drop c' vs)) as S1. pose proof (rows_in_app (take c' vs) (drop c' vs)) as S2.
    rewrite take_drop in S1, S2. lia. }
  { unfold vs, newest_replies_only. by rewrite hide_where_length. }
  intros i u Hiu.
  match goal with |- (?P -> _) /\ _ => set (outdated := P) end.
  unfold vs, newest_replies_only. rewrite hide_where_lookup, Hiu. cbn [fmap option_fmap option_map].
  assert (i ∈ stale_replies (reply_units (units before) 0) <-> outdated) as Hs.
  { rewrite stale_replies_spec. unfold outdated. rewrite Hiu.
    split; intros (item & root & Hi & H); exists item, root; (split; [congruence|exact H]). }
  split; intros Ho.
  - by rewrite bool_decide_eq_true_2 by (by apply Hs).
  - by rewrite bool_decide_eq_false_2 by (by rewrite Hs).
Qed.
