(* ===== verification/DisplayRows.v ===== *)
(** The display projection of a timeline and the rows it publishes
    ([koushi-core/src/timeline/display_projection.rs]): the state, the context, and
    [project_display_items], which places thread roots, hides suppressed replies and appends
    pending sends.

    [decorate_event_item] always gives an item; the [unwrap]s of its callers are left out. *)

From stdpp Require Import base list strings gmap.
From Stdlib Require Import ZArith Lia.
From S2P Require Import Prelude Text Panes TimelineItem DisplayRope.
Local Open Scope string_scope.
Local Open Scope list_scope.
Local Open Scope nat_scope.

Definition ROOM_REPLAY_INITIAL_ITEMS_MAX : nat := 120.

(** * State and context *)

Record DisplayProjectionState := {
  slots : list DisplayProjectionSlot;
  window_revision : Z;
  canonical_len : nat;
  gap_after : GapEnds;
  display_items : list TimelineItem;
  pending_items : list TimelineItem;
  suppressed_transaction_ids : gset string }.
#[export] Instance DisplayProjectionState_updatable : Updatable DisplayProjectionState := fun s =>
  {| slots := slots s; window_revision := window_revision s; canonical_len := canonical_len s;
     gap_after := gap_after s; display_items := display_items s; pending_items := pending_items s;
     suppressed_transaction_ids := suppressed_transaction_ids s |}.

Record DisplayProjectionContext := {
  room_window : bool;
  viewport : TimelineViewportObservation;
  max_live_edge_items : option nat;
  include_append : bool;
  project_thread_roots : bool;
  thread_root_order : TimelineThreadRootOrder;
  thread_roots : list ThreadRootDisplayData }.
#[export] Instance DisplayProjectionContext_updatable : Updatable DisplayProjectionContext := fun c =>
  {| room_window := room_window c; viewport := viewport c;
     max_live_edge_items := max_live_edge_items c; include_append := include_append c;
     project_thread_roots := project_thread_roots c; thread_root_order := thread_root_order c;
     thread_roots := thread_roots c |}.

(** [for_timeline]; [is_room] is [matches!(kind, TimelineKind::Room { .. })]. *)
Definition for_timeline (is_room : bool) (observation : TimelineViewportObservation) :
    DisplayProjectionContext :=
  {| room_window := is_room; viewport := observation;
     max_live_edge_items :=
       if is_room && at_bottom observation then Some ROOM_REPLAY_INITIAL_ITEMS_MAX else None;
     include_append := true; project_thread_roots := is_room; thread_root_order := RootEvent;
     thread_roots := [] |}.
Definition with_thread_roots (context : DisplayProjectionContext) (order : TimelineThreadRootOrder)
    (thread_roots : list ThreadRootDisplayData) : DisplayProjectionContext :=
  {| room_window := room_window context; viewport := viewport context;
     max_live_edge_items := max_live_edge_items context; include_append := include_append context;
     project_thread_roots := project_thread_roots context; thread_root_order := order;
     thread_roots := thread_roots |}.

(** * Rows *)

Definition decorate_event_item (item : TimelineItem) : TimelineItem :=
  let '(content, row) :=
    match item_id item with
    | Event event_id => (Some event_id, event_id)
    | Transaction transaction_id => (None, "txn:" +:+ transaction_id)
    | Synthetic synthetic_id => (None, "syn:" +:+ synthetic_id)
    end in
  item <| display_metadata := Some
    {| row_id := row; display_kind := Display_Event; content_event_id := content;
       activity_event_id := content; display_timestamp_ms := timestamp_ms item |} |>.

(** The row of a thread root.  [get_or_insert] makes a summary where there is none, and every
    field of it is then assigned. *)
Definition root_display_item (root : ThreadRootDisplayData) (fallback : TimelineItem)
    (activity_event_id : string) (display_timestamp_ms : option Z) : TimelineItem :=
  let item := default fallback (root_item root) in
  let aggregate := root_aggregate root in
  let summary :=
    {| reply_count := agg_reply_count aggregate; latest_event_id := agg_latest_event_id aggregate;
       latest_sender := agg_latest_sender aggregate;
       latest_sender_label := agg_latest_sender_label aggregate;
       latest_body_preview := agg_latest_body_preview aggregate;
       latest_timestamp_ms := agg_latest_timestamp_ms aggregate;
       unread_count := root_unread root |} in
  let kind :=
    if root_pending root then Display_ThreadRootPending
    else match root_failure_kind root with
         | Some failure_kind => Display_ThreadRootFailed failure_kind
         | None => Display_ThreadRoot
         end in
  item <| thread_summary := Some summary |>
       <| display_metadata := Some
            {| row_id := "thread-root:" +:+ root_event_id root; display_kind := kind;
               content_event_id := Some (root_event_id root);
               activity_event_id := Some activity_event_id;
               display_timestamp_ms := display_timestamp_ms |} |>.

Definition no_actions : TimelineMessageActions :=
  {| can_copy := false; can_forward := false; can_reply := false; can_pin := false;
     can_permalink := false; can_view_source := false; action_permalink := None;
     editable_document := None |}.

Definition root_placeholder_item (root : ThreadRootDisplayData) : TimelineItem :=
  let aggregate := root_aggregate root in
  let item :=
    {| item_id := Synthetic ("thread-root-slot:" +:+ root_event_id root);
       sender := None; sender_label := None; sender_avatar := None; body := None;
       notice_i18n := None; message_kind := Message_Text; spoiler_spans := [];
       timestamp_ms := None; in_reply_to_event_id := None; formatted := None;
       reply_quote := None; thread_root := None;
       thread_summary := Some
         {| reply_count := agg_reply_count aggregate;
            latest_event_id := agg_latest_event_id aggregate;
            latest_sender := agg_latest_sender aggregate;
            latest_sender_label := agg_latest_sender_label aggregate;
            latest_body_preview := agg_latest_body_preview aggregate;
            latest_timestamp_ms := agg_latest_timestamp_ms aggregate; unread_count := 0 |};
       media := None; link_previews := None; link_ranges := []; mentioned_user_ids := [];
       mentions_room := false; reactions := []; can_react := false; is_redacted := false;
       is_hidden := false; can_redact := false; is_edited := false; can_edit := false;
       unable_to_decrypt := None; request_state := None; actions := no_actions;
       send_state := None; display_metadata := None |} in
  root_display_item root item (root_activity_event_id root) (root_activity_timestamp_ms root).

(** * The gap ends of the slots *)

(** [&items[from..to]] of a range within bounds. *)
Definition run_of (items : list TimelineItem) (from to : nat) : list TimelineItem :=
  take (to - from) (drop from items).

Fixpoint refresh_slot_gaps (canonical : list TimelineItem) (cursor : nat)
    (run : list DisplayProjectionSlot) : list DisplayProjectionSlot * nat :=
  match run with
  | [] => ([], cursor)
  | slot :: run =>
      let start := cursor `min` length canonical in
      let end_ := (canonical_index slot `max` start) `min` length canonical in
      let '(run, cursor) := refresh_slot_gaps canonical (canonical_index slot + 1) run in
      (slot <| gap_before := GapEnds_of (run_of canonical start end_) |> :: run, cursor)
  end.

Definition refresh_gap_ends (state : DisplayProjectionState) (canonical : list TimelineItem) :
    DisplayProjectionState :=
  let '(refreshed, cursor) := refresh_slot_gaps canonical 0 (slots state) in
  state <| slots := refreshed |>
        <| gap_after := GapEnds_of (drop (cursor `min` length canonical) canonical) |>.

(** The two edge runs only. *)
Definition refresh_edge_gap_ends (state : DisplayProjectionState) (canonical : list TimelineItem) :
    DisplayProjectionState :=
  let state :=
    match slots state with
    | first :: rest =>
        let end_ := canonical_index first `min` length canonical in
        state <| slots := first <| gap_before := GapEnds_of (take end_ canonical) |> :: rest |>
    | [] => state
    end in
  let start :=
    match last (slots state) with Some slot => canonical_index slot + 1 | None => 0 end
    `min` length canonical in
  state <| gap_after := GapEnds_of (drop start canonical) |>.

(** The slots of the canonical run [start .. end], without gap ends. *)
Definition bare_slot (canonical : list TimelineItem) (index : nat) : option DisplayProjectionSlot :=
  item ← canonical !! index;
  Some {| canonical_index := index; slot_item := item; gap_before := GapEnds_default |}.
Definition bare_slots (canonical : list TimelineItem) (indices : list nat) :
    list DisplayProjectionSlot := omap (bare_slot canonical) indices.

Definition normalize_display_projection_slots (run : list DisplayProjectionSlot) :
    list TimelineItem :=
  (foldl (fun (acc : gset string * list TimelineItem) slot =>
      let id := timeline_item_render_id (slot_item slot) in
      if bool_decide (id ∈ acc.1) then acc else ({[id]} ∪ acc.1, acc.2 ++ [slot_item slot]))
    (∅, []) run).2.

Definition from_canonical_window (canonical_items : list TimelineItem)
    (window_start window_end : nat) : DisplayProjectionState :=
  let start := window_start `min` length canonical_items in
  let end_ := (window_end `min` length canonical_items) `max` start in
  let run := bare_slots canonical_items (seq start (end_ - start)) in
  refresh_gap_ends
    {| slots := run; window_revision := 0%Z; canonical_len := length canonical_items;
       gap_after := GapEnds_default;
       display_items := decorate_event_item <$> normalize_display_projection_slots run;
       pending_items := []; suppressed_transaction_ids := ∅ |} canonical_items.

Definition first_visible_canonical_index (state : DisplayProjectionState) : option nat :=
  canonical_index <$> head (slots state).
Definition canonical_window_range (state : DisplayProjectionState) (canonical_len : nat) :
    nat * nat :=
  (match head (slots state) with Some slot => canonical_index slot | None => canonical_len - 120 end,
   match last (slots state) with Some slot => canonical_index slot + 1 | None => canonical_len end).

Definition window_reaches_live_end (state : DisplayProjectionState) (canonical_len : nat) : bool :=
  (canonical_len =? 0)
  || is_some_and (last (slots state)) (fun slot => canonical_index slot + 1 =? canonical_len).

(** First canonical index of the live-edge window, sized in displayed rows. *)
Fixpoint live_edge_window_scan (items : list TimelineItem) (max_items : nat)
    (indices : list nat) (rows : nat) : nat :=
  match indices with
  | [] => 0
  | index :: indices =>
      if is_some_and (items !! index) item_occupies_display_row then
        if rows =? max_items then index + 1
        else live_edge_window_scan items max_items indices (rows + 1)
      else live_edge_window_scan items max_items indices rows
  end.
Definition live_edge_window_start (items : list TimelineItem) (max_items : nat) : nat :=
  live_edge_window_scan items max_items (rev (seq 0 (length items))) 0.

(** * Projection *)

Section project.
Context (state : DisplayProjectionState) (context : DisplayProjectionContext).

(** An SDK echo of a suppressed transaction. *)
Definition is_suppressed_transaction (item : TimelineItem) : bool :=
  match item_id item with
  | Transaction transaction_id => bool_decide (transaction_id ∈ suppressed_transaction_ids state)
  | _ => false
  end.

(** Append the rows of [items] whose identity is new. *)
Definition append_pending (skip : TimelineItem -> bool) (rendered items : list TimelineItem) :
    list TimelineItem :=
  (foldl (fun (acc : gset string * list TimelineItem) item =>
      let id := timeline_item_render_id item in
      if skip item || bool_decide (id ∈ acc.1) then acc
      else ({[id]} ∪ acc.1, acc.2 ++ [decorate_event_item item]))
    (list_to_set (timeline_item_render_id <$> rendered), rendered) items).2.

Definition project_plain : list TimelineItem :=
  let rendered :=
    decorate_event_item <$>
      List.filter (fun item => negb (is_suppressed_transaction item)) (slot_item <$> slots state) in
  append_pending (fun _ => false) rendered (pending_items state).

Definition roots_by_id : gmap string ThreadRootDisplayData :=
  foldl (fun roots root => <[root_event_id root := root]> roots) ∅ (thread_roots context).

(** For each root the slot of its activity: the first reply, or the one the root names. *)
Definition add_activity (activity : gmap string (nat * TimelineItem)) (slot : DisplayProjectionSlot) :
    gmap string (nat * TimelineItem) :=
  match item_id (slot_item slot), thread_root (slot_item slot) with
  | Event event_id, Some root_event_id =>
      let entry := (canonical_index slot, slot_item slot) in
      let activity :=
        match activity !! root_event_id with
        | Some _ => activity
        | None => <[root_event_id := entry]> activity
        end in
      match roots_by_id !! root_event_id with
      | Some root =>
          if String.eqb (root_activity_event_id root) event_id
          then <[root_event_id := entry]> activity else activity
      | None => activity
      end
  | _, _ => activity
  end.
Definition activity_slots : gmap string (nat * TimelineItem) :=
  foldl add_activity ∅ (slots state).

(** The rows placed so far, the canonical indices that render nothing, the roots with a row. *)
Record RootPlacement := {
  root_at_index : gmap nat TimelineItem; suppressed : gset nat; scheduled_roots : gset string }.

Definition slot_event_id (slot : DisplayProjectionSlot) : string :=
  match item_id (slot_item slot) with Event event_id => event_id | _ => "" end.

Definition place_slot (acc : RootPlacement) (slot : DisplayProjectionSlot) : RootPlacement :=
  let event_id := slot_event_id slot in
  match thread_root (slot_item slot) with
  | Some _ => acc
  | None =>
      match roots_by_id !! event_id with
      | None =>
          {| root_at_index :=
               <[canonical_index slot := decorate_event_item (slot_item slot)]> (root_at_index acc);
             suppressed := suppressed acc; scheduled_roots := scheduled_roots acc |}
      | Some root =>
          let activity := activity_slots !! event_id in
          let '(display_index, activity_event_id, display_timestamp_ms) :=
            match thread_root_order context with
            | RootEvent => (canonical_index slot, event_id, timestamp_ms (slot_item slot))
            | LatestReply =>
                (match activity with Some (index, _) => index | None => canonical_index slot end,
                 root_activity_event_id root,
                 opt_or (root_activity_timestamp_ms root) (timestamp_ms (slot_item slot)))
            end in
          let item := root_display_item root (slot_item slot) activity_event_id display_timestamp_ms in
          let suppressed :=
            if display_index =? canonical_index slot then suppressed acc
            else {[canonical_index slot]} ∪ suppressed acc in
          {| root_at_index := <[display_index := item]> (root_at_index acc);
             suppressed :=
               match activity, thread_root_order context with
               | Some (activity_index, _), LatestReply => {[activity_index]} ∪ suppressed
               | _, _ => suppressed
               end;
             scheduled_roots := {[event_id]} ∪ scheduled_roots acc |}
      end
  end.

(** A root that has left the window keeps a row at its latest reply. *)
Definition place_retained_root (acc : RootPlacement) (root : ThreadRootDisplayData) : RootPlacement :=
  let root_id := root_event_id root in
  match thread_root_order context, activity_slots !! root_id with
  | LatestReply, Some (activity_index, _) =>
      if bool_decide (root_id ∈ scheduled_roots acc) then acc
      else
        let item :=
          match root_item root with
          | None => root_placeholder_item root
          | Some item =>
              root_display_item root item (root_activity_event_id root)
                (opt_or (root_activity_timestamp_ms root) (timestamp_ms item))
          end in
        {| root_at_index := <[activity_index := item]> (root_at_index acc);
           suppressed := {[activity_index]} ∪ suppressed acc;
           scheduled_roots := {[root_id]} ∪ scheduled_roots acc |}
  | _, _ => acc
  end.

Definition placement : RootPlacement :=
  foldl place_retained_root
    (foldl place_slot {| root_at_index := ∅; suppressed := ∅; scheduled_roots := ∅ |} (slots state))
    (thread_roots context).

(** The rows of the slots: what is left of [root_at_index], the identities, the rows. *)
Record RowEmission := {
  remaining_rows : gmap nat TimelineItem; rendered_ids : gset string; projected : list TimelineItem }.

Definition emit_row (acc : RowEmission) (item : TimelineItem) : RowEmission :=
  let id := timeline_item_render_id item in
  if bool_decide (id ∈ rendered_ids acc) then acc
  else {| remaining_rows := remaining_rows acc; rendered_ids := {[id]} ∪ rendered_ids acc;
          projected := projected acc ++ [item] |}.

Definition emit_slot (suppressed : gset nat) (acc : RowEmission) (slot : DisplayProjectionSlot) :
    RowEmission :=
  if is_suppressed_transaction (slot_item slot) then acc
  else
    match remaining_rows acc !! canonical_index slot with
    | Some item =>
        emit_row {| remaining_rows := delete (canonical_index slot) (remaining_rows acc);
                    rendered_ids := rendered_ids acc; projected := projected acc |} item
    | None =>
        if bool_decide (canonical_index slot ∈ suppressed) then acc
        else
          match thread_root (slot_item slot) with
          | None => emit_row acc (decorate_event_item (slot_item slot))
          | Some _ => acc
          end
    end.

Definition timestamps : list Z := omap (fun slot => timestamp_ms (slot_item slot)) (slots state).
(** [timestamps().min().zip(timestamps().max())] *)
Definition timed_span : option (Z * Z) :=
  match timestamps with
  | [] => None
  | t :: ts => Some (foldl Z.min t ts, foldl Z.max t ts)
  end.
Definition belongs_to_window (timestamp : option Z) : bool :=
  let reaches_live_end := window_reaches_live_end state (canonical_len state) in
  match timestamp, timed_span with
  | Some timestamp, Some (first, last) =>
      ((first <=? timestamp)%Z && ((timestamp <=? last)%Z || reaches_live_end))
  | _, _ => reaches_live_end
  end.

Definition row_timestamp (item : TimelineItem) : option Z :=
  metadata ← display_metadata item; display_timestamp_ms metadata.

(** Roots without a slot in the window whose activity belongs to it. *)
Definition emit_off_window_root (scheduled : gset string) (acc : RowEmission)
    (root : ThreadRootDisplayData) : RowEmission :=
  if bool_decide (root_event_id root ∈ scheduled) then acc
  else
    match root_item root with
    | None =>
        if belongs_to_window (root_activity_timestamp_ms root)
        then {| remaining_rows := remaining_rows acc; rendered_ids := rendered_ids acc;
                projected := projected acc ++ [root_placeholder_item root] |}
        else acc
    | Some item =>
        let activity_timestamp_ms := opt_or (root_activity_timestamp_ms root) (timestamp_ms item) in
        if negb (belongs_to_window activity_timestamp_ms) then acc
        else
          let '(activity_event_id, display_timestamp_ms) :=
            match thread_root_order context with
            | RootEvent => (root_event_id root, opt_or (timestamp_ms item) activity_timestamp_ms)
            | LatestReply => (root_activity_event_id root, activity_timestamp_ms)
            end in
          let projected_item := root_display_item root item activity_event_id display_timestamp_ms in
          let id := timeline_item_render_id projected_item in
          if bool_decide (id ∈ rendered_ids acc) then acc
          else
            let insertion_index :=
              default (length (projected acc))
                (timestamp ← display_timestamp_ms;
                 position (fun current => is_some_and (row_timestamp current) (fun t => timestamp <? t)%Z)
                   (projected acc)) in
            {| remaining_rows := remaining_rows acc; rendered_ids := {[id]} ∪ rendered_ids acc;
               projected := vec_insert insertion_index projected_item (projected acc) |}
    end.

Definition project_roots : list TimelineItem :=
  let placed := placement in
  let emitted :=
    foldl (emit_slot (suppressed placed))
      {| remaining_rows := root_at_index placed; rendered_ids := ∅; projected := [] |}
      (slots state) in
  let emitted := foldl (emit_off_window_root (scheduled_roots placed)) emitted (thread_roots context) in
  append_pending is_suppressed_transaction (projected emitted) (pending_items state).

Definition project_display_items : list TimelineItem :=
  if project_thread_roots context then project_roots else project_plain.

End project.

(** * Receipts *)

(** The row that publishes an event's receipts and the hidden reply a moved root stands for. *)
Definition receipt_row (state : DisplayProjectionState) (event_id : string) :
    string * option string :=
  default (event_id, None)
    (head (omap (fun item =>
        metadata ← display_metadata item;
        content ← content_event_id metadata;
        activity ← activity_event_id metadata;
        if negb (String.eqb content activity)
           && (String.eqb content event_id || String.eqb activity event_id)
        then Some (content, Some activity) else None)
      (display_items state))).

Definition receipts_by_representing_row {Receipt : Type} (state : DisplayProjectionState)
    (receipts_by_event : list (LiveEventReceipts Receipt)) : list (LiveEventReceipts Receipt) :=
  let by_row : gmap string (list Receipt) :=
    foldl (fun by_row entry =>
        let '(row_event_id, _) := receipt_row state (receipts_event_id entry) in
        <[row_event_id := default [] (by_row !! row_event_id) ++ receipts entry]> by_row)
      ∅ receipts_by_event in
  (fun entry => Build_LiveEventReceipts entry.1 entry.2) <$> btree_iter by_row.
