(* ===== verification/DisplayDiffs.v ===== *)
(** The positional updates that turn one published display into the next
    ([koushi-core/src/timeline/display_projection.rs]): building them, checking them, and how the
    canonical list applies them, and the desktop ([apps/desktop/src/domain/timelineStore.ts]).

    A cursor into the updates is the list of those that are left. *)

From stdpp Require Import base list strings gmap.
From Stdlib Require Import ZArith Lia.
From S2P Require Import Prelude Text TimelineItem DisplayRope.
Local Open Scope string_scope.
Local Open Scope list_scope.
Local Open Scope nat_scope.

Abbreviation render_id := timeline_item_render_id.
Abbreviation RenderIndex := (gmap string nat).

(** * Applying *)

(** The canonical list: an index past the end appends, or changes nothing. *)
Definition apply_timeline_diff (items : list TimelineItem) (diff : TimelineDiff) : list TimelineItem :=
  match diff with
  | PushFront item => item :: items
  | PushBack item => items ++ [item]
  | Insert index item => vec_insert (index `min` length items) item items
  | SetAt index item => <[index := item]> items
  | Remove index => delete index items
  | Truncate len => take len items
  | Clear => []
  | Reset reset_items => reset_items
  end.
Definition apply_timeline_diffs_to_items (items : list TimelineItem) (diffs : list TimelineDiff) :
    list TimelineItem := foldl apply_timeline_diff items diffs.

(** * The desktop

    [apps/desktop/src/domain/timelineStore.ts] keeps one row per message, by the id of its item
    and not by its row id.  Its index of timestamps, which only the jump to a date reads, is left
    out. *)

Definition timelineItemDomId (id : TimelineItemId) : string :=
  match id with
  | Event event_id => event_id
  | Transaction transaction_id => "txn:" +:+ transaction_id
  | Synthetic synthetic_id => "syn:" +:+ synthetic_id
  end.
Definition dom_id (item : TimelineItem) : string := timelineItemDomId (item_id item).

Record IndexedTimelineItems := { store_items : list TimelineItem; itemIndexById : RenderIndex }.

Definition indexedTimelineItems (new_items : list TimelineItem) : IndexedTimelineItems :=
  foldl (fun result item =>
      match itemIndexById result !! dom_id item with
      | Some _ => result
      | None =>
          {| store_items := store_items result ++ [item];
             itemIndexById := <[dom_id item := length (store_items result)]> (itemIndexById result) |}
      end) {| store_items := []; itemIndexById := ∅ |} new_items.

Definition reindexItemsFrom (rows : list TimelineItem) (index_by_id : RenderIndex)
    (startIndex : nat) : RenderIndex :=
  foldl (fun index_by_id (entry : nat * TimelineItem) =>
      <[dom_id entry.2 := startIndex + entry.1]> index_by_id)
    index_by_id (imap pair (drop startIndex rows)).

Definition insertTimelineItem (store : IndexedTimelineItems) (item : TimelineItem)
    (preferredIndex : nat) : IndexedTimelineItems :=
  match itemIndexById store !! dom_id item with
  | Some _ => store
  | None =>
      let insertIndex := preferredIndex `min` length (store_items store) in
      let rows := vec_insert insertIndex item (store_items store) in
      {| store_items := rows; itemIndexById := reindexItemsFrom rows (itemIndexById store) insertIndex |}
  end.

(** An update for a message that another row shows goes to that row. *)
Definition setTimelineItem (store : IndexedTimelineItems) (index : nat) (item : TimelineItem) :
    IndexedTimelineItems :=
  match store_items store !! index with
  | None => store
  | Some previous =>
      let put (at_index : nat) (index_by_id : RenderIndex) :=
        {| store_items := <[at_index := item]> (store_items store);
           itemIndexById := <[dom_id item := at_index]> index_by_id |} in
      let here :=
        put index
          (if String.eqb (dom_id previous) (dom_id item) then itemIndexById store
           else delete (dom_id previous) (itemIndexById store)) in
      match itemIndexById store !! dom_id item with
      | Some existingIndex => if existingIndex =? index then here else put existingIndex (itemIndexById store)
      | None => here
      end
  end.

Definition removeTimelineItemAt (store : IndexedTimelineItems) (index : nat) : IndexedTimelineItems :=
  match store_items store !! index with
  | None => store
  | Some removed =>
      let rows := delete index (store_items store) in
      {| store_items := rows;
         itemIndexById := reindexItemsFrom rows (delete (dom_id removed) (itemIndexById store)) index |}
  end.

Definition applyDiffForRender (store : IndexedTimelineItems) (diff : TimelineDiff) : IndexedTimelineItems :=
  match diff with
  | PushFront item => insertTimelineItem store item 0
  | PushBack item => insertTimelineItem store item (length (store_items store))
  | Insert index item => insertTimelineItem store item index
  | SetAt index item => setTimelineItem store index item
  | Remove index => removeTimelineItemAt store index
  | Truncate len => indexedTimelineItems (take len (store_items store))
  | Clear => {| store_items := []; itemIndexById := ∅ |}
  | Reset reset_items => indexedTimelineItems reset_items
  end.
Definition applyDiffsForRender (store : IndexedTimelineItems) (diffs : list TimelineDiff) :
    IndexedTimelineItems := foldl applyDiffForRender store diffs.

(** * Building *)

(** [zip(..).take_while(|(a, b)| a == b).count()] *)
Fixpoint common_len (l k : list TimelineItem) : nat :=
  match l, k with
  | x :: l, y :: k => if bool_decide (x = y) then S (common_len l k) else 0
  | _, _ => 0
  end.

Definition removes (index count : nat) : list TimelineDiff := replicate count (Remove index).
(** Inserts at consecutive indices from [start]. *)
Definition inserts (start : nat) (items : list TimelineItem) : list TimelineDiff :=
  imap (fun offset item => Insert (start + offset) item) items.
(** A set for each position whose row differs. *)
Definition sets (start : nat) (before after : list TimelineItem) : list TimelineDiff :=
  omap (fun entry : nat * (TimelineItem * TimelineItem) =>
      if bool_decide (entry.2.1 = entry.2.2) then None
      else Some (SetAt (start + entry.1) entry.2.2))
    (imap pair (zip before after)).

Definition index_of_ids (items : list TimelineItem) : RenderIndex :=
  foldl (fun index (entry : nat * TimelineItem) => <[render_id entry.2 := entry.1]> index) ∅
    (imap pair items).

(** The longest run of [after] whose identities are consecutive in [before]: the best and the
    current [(before, after, length)] and the previous index in [before]. *)
Definition Run : Type := nat * nat * nat.
Definition run_step (before_index_by_id : RenderIndex) (acc : Run * Run * option nat)
    (entry : nat * TimelineItem) : Run * Run * option nat :=
  let '(best, current, previous_before_index) := acc in
  let '(after_index, item) := entry in
  match before_index_by_id !! render_id item with
  | None => (best, (0, 0, 0), None)
  | Some before_index =>
      let current :=
        if is_some_and previous_before_index (fun previous => previous + 1 =? before_index)
        then (current.1, current.2 + 1)
        else (before_index, after_index, 1) in
      (if best.2 <? current.2 then current else best, current, Some before_index)
  end.
Definition longest_run (before_middle after_middle : list TimelineItem) : Run :=
  (foldl (run_step (index_of_ids before_middle)) ((0, 0, 0), (0, 0, 0), None)
    (imap pair after_middle)).1.1.

Definition build_middle (prefix_len : nat) (before_middle after_middle : list TimelineItem) :
    list TimelineDiff :=
  if negb (length before_middle =? length after_middle) then
    removes prefix_len (length before_middle) ++ inserts prefix_len after_middle
  else
    let before_ids : gset string := list_to_set (render_id <$> before_middle) in
    let positional_sets_are_safe :=
      forallb (fun entry : TimelineItem * TimelineItem =>
          String.eqb (render_id entry.1) (render_id entry.2)
          || negb (bool_decide (render_id entry.2 ∈ before_ids)))
        (zip before_middle after_middle) in
    if positional_sets_are_safe then sets prefix_len before_middle after_middle
    else
      let '(before_keep, after_keep, keep_len) := longest_run before_middle after_middle in
      let kept_end := before_keep + keep_len in
      removes (prefix_len + kept_end) (length before_middle - kept_end)
      ++ removes prefix_len before_keep
      ++ inserts prefix_len (take after_keep after_middle)
      ++ inserts (prefix_len + after_keep + keep_len) (drop (after_keep + keep_len) after_middle)
      ++ sets (prefix_len + after_keep) (take keep_len (drop before_keep before_middle))
           (take keep_len (drop after_keep after_middle)).

Definition build_display_projection_diffs (display_before display_after : list TimelineItem) :
    option (list TimelineDiff) :=
  let unique_after : gset string := list_to_set (render_id <$> display_after) in
  if negb (size unique_after =? length display_after) then None
  else if is_none (head display_after) then
    Some (if is_none (head display_before) then [] else [Clear])
  else
    let common_limit := length display_before `min` length display_after in
    let prefix_len := common_len display_before display_after in
    let suffix_len :=
      common_len (take (common_limit - prefix_len) (rev (drop prefix_len display_before)))
        (rev (drop prefix_len display_after)) in
    let middle (l : list TimelineItem) :=
      take (length l - suffix_len - prefix_len) (drop prefix_len l) in
    Some (build_middle prefix_len (middle display_before) (middle display_after)).

(** * Checking *)

(** Keep the first row of each identity; [seen] is the set of those met. *)
Fixpoint keep_first (seen : gset string) (items : list TimelineItem) : list TimelineItem :=
  match items with
  | [] => []
  | item :: items =>
      if bool_decide (render_id item ∈ seen) then keep_first seen items
      else item :: keep_first ({[render_id item]} ∪ seen) items
  end.

(** [while let Some(PushFront { item })]: the items in the order met, or [None] for a repeated
    identity. *)
Fixpoint take_push_fronts (index_by_id : RenderIndex) (prefix_ids : gset string)
    (diffs : list TimelineDiff) : option (list TimelineItem * list TimelineDiff) :=
  match diffs with
  | PushFront item :: diffs' =>
      if is_some_and (index_by_id !! render_id item) (fun _ => true)
         || bool_decide (render_id item ∈ prefix_ids) then None
      else
        '(prefix, rest) ← take_push_fronts index_by_id ({[render_id item]} ∪ prefix_ids) diffs';
        Some (item :: prefix, rest)
  | _ => Some ([], diffs)
  end.
Fixpoint take_push_backs (items : list TimelineItem) (index_by_id : RenderIndex)
    (diffs : list TimelineDiff) : option (list TimelineItem * RenderIndex * list TimelineDiff) :=
  match diffs with
  | PushBack item :: diffs' =>
      if is_some_and (index_by_id !! render_id item) (fun _ => true) then None
      else take_push_backs (items ++ [item]) (<[render_id item := length items]> index_by_id) diffs'
  | _ => Some (items, index_by_id, diffs)
  end.
(** Inserts at [start + count], [start + count + 1], ... *)
Fixpoint take_inserts (start count : nat) (index_by_id : RenderIndex) (inserted_ids : gset string)
    (diffs : list TimelineDiff) : option (list TimelineItem * list TimelineDiff) :=
  match diffs with
  | Insert index item :: diffs' =>
      if negb (index =? start + count) then Some ([], diffs)
      else if is_some_and (index_by_id !! render_id item) (fun _ => true)
              || bool_decide (render_id item ∈ inserted_ids) then None
      else
        '(inserted, rest) ←
          take_inserts start (count + 1) index_by_id ({[render_id item]} ∪ inserted_ids) diffs';
        Some (item :: inserted, rest)
  | _ => Some ([], diffs)
  end.
Fixpoint take_removes (start : nat) (diffs : list TimelineDiff) : nat * list TimelineDiff :=
  match diffs with
  | Remove index :: diffs' =>
      if index =? start then let '(count, rest) := take_removes start diffs' in (S count, rest)
      else (0, diffs)
  | _ => (0, diffs)
  end.

(** A set moves to the row that has the identity, if another one does. *)
Definition validate_set (items : list TimelineItem) (index_by_id : RenderIndex) (index : nat)
    (item : TimelineItem) : list TimelineItem * RenderIndex :=
  let id := render_id item in
  let target_index :=
    match index_by_id !! id with
    | Some existing_index => if existing_index =? index then index else existing_index
    | None => index
    end in
  let index_by_id :=
    match items !! target_index with
    | Some old =>
        if bool_decide (index_by_id !! render_id old = Some target_index)
        then delete (render_id old) index_by_id else index_by_id
    | None => index_by_id
    end in
  (<[target_index := item]> items, <[id := target_index]> index_by_id).

(** The loop: [Some (Some items)] at the end, [Some None] for [return false], [None] when the fuel
    runs out.  Every group takes at least one update, so their number is enough. *)
Fixpoint validate_loop (fuel : nat) (diffs : list TimelineDiff) (items : list TimelineItem)
    (index_by_id : RenderIndex) : option (option (list TimelineItem)) :=
  match diffs, fuel with
  | [], _ => Some (Some items)
  | _, 0 => None
  | diff :: diffs', S fuel =>
      match diff with
      | PushFront _ =>
          match take_push_fronts index_by_id ∅ diffs with
          | None => Some None
          | Some (prefix, rest) =>
              let items := rev prefix ++ items in
              validate_loop fuel rest items (index_of_ids items)
          end
      | PushBack _ =>
          match take_push_backs items index_by_id diffs with
          | None => Some None
          | Some (items', index_by_id, rest) =>
              if length items' =? length items then Some None
              else validate_loop fuel rest items' index_by_id
          end
      | Insert start _ =>
          if length items <? start then Some None
          else
            match take_inserts start 0 index_by_id ∅ diffs with
            | None => Some None
            | Some ([], _) => Some None
            | Some (inserted, rest) =>
                let items := take start items ++ inserted ++ drop start items in
                validate_loop fuel rest items (index_of_ids items)
            end
      | SetAt index item =>
          if length items <=? index then Some None
          else
            let '(items, index_by_id) := validate_set items index_by_id index item in
            validate_loop fuel diffs' items index_by_id
      | Remove start =>
          let '(count, rest) := take_removes start diffs in
          if (length items <=? start) || (length items - start <? count) then Some None
          else
            let items := take start items ++ drop (start + count) items in
            validate_loop fuel rest items (index_of_ids items)
      | Truncate len =>
          if length items <? len then Some None
          else
            let items := take len items in validate_loop fuel diffs' items (index_of_ids items)
      | Clear => validate_loop fuel diffs' [] ∅
      | Reset reset_items =>
          let items := keep_first ∅ reset_items in
          validate_loop fuel diffs' items (index_of_ids items)
      end
  end.

Definition validate_display_projection_diffs (display_before : list TimelineItem)
    (diffs : list TimelineDiff) (expected_after : list TimelineItem) : bool :=
  match validate_loop (length diffs) diffs display_before (index_of_ids display_before) with
  | Some (Some items) => bool_decide (items = expected_after)
  | _ => false
  end.

(** * Publishing *)

(** The updates to publish, and whether they are the reset fallback. *)
Definition finalize_display_projection_diffs (display_before display_after : list TimelineItem)
    (translation_ambiguous : bool) : list TimelineDiff * bool :=
  let display_diffs := build_display_projection_diffs display_before display_after in
  let incrementally_valid :=
    is_some_and display_diffs
      (fun diffs => validate_display_projection_diffs display_before diffs display_after) in
  let used_reset_fallback := translation_ambiguous || negb incrementally_valid in
  (if used_reset_fallback then [Reset display_after] else default [] display_diffs,
   used_reset_fallback).
