(* ===== verification/DisplayDiffsProps.v ===== *)
(** Publishing a display as positional updates ([DisplayDiffs.v]): the updates that are built are
    always accepted by the checker, and the desktop that applies them shows the new display when no
    message changes its kind of row. *)

From stdpp Require Import base list strings gmap.
From Stdlib Require Import ZArith Lia.
From S2P Require Import Prelude Text TimelineItem DisplayRope DisplayDiffs.
Local Open Scope list_scope.
Local Open Scope nat_scope.

Definition ids (items : list TimelineItem) : list string := render_id <$> items.
(** Every row has an identity of its own. *)
Definition unique_rows (items : list TimelineItem) : Prop := NoDup (ids items).

(** * One update at a time *)

Definition is_row (items : list TimelineItem) (item : TimelineItem) : bool :=
  existsb (fun existing => String.eqb (render_id existing) (render_id item)) items.

(** Where a set lands, and the list after it. *)
Definition set_target (items : list TimelineItem) (index : nat) (item : TimelineItem) : nat :=
  default index (position (fun x => String.eqb (render_id x) (render_id item)) items).
Definition set_row (items : list TimelineItem) (index : nat) (item : TimelineItem) : list TimelineItem :=
  <[set_target items index item := item]> items.

(** The check of one update, as if it stood alone; [strict] asks in addition that a set lands where
    it says and that there is no reset. *)
Definition check_diff (strict : bool) (items : list TimelineItem) (diff : TimelineDiff) : option (list TimelineItem) :=
  match diff with
  | PushFront item => if is_row items item then None else Some (item :: items)
  | PushBack item => if is_row items item then None else Some (items ++ [item])
  | Insert index item =>
      if (length items <? index) || is_row items item then None else Some (vec_insert index item items)
  | SetAt index item =>
      if (length items <=? index) || (strict && negb (set_target items index item =? index)) then None
      else Some (set_row items index item)
  | Remove index => if length items <=? index then None else Some (delete index items)
  | Truncate len => if length items <? len then None else Some (take len items)
  | Clear => Some []
  | Reset reset_items => if strict then None else Some (keep_first ∅ reset_items)
  end.
Fixpoint check_diffs (strict : bool) (items : list TimelineItem) (diffs : list TimelineDiff) : option (list TimelineItem) :=
  match diffs with
  | [] => Some items
  | diff :: diffs => items ← check_diff strict items diff; check_diffs strict items diffs
  end.

Lemma is_row_true items item : is_row items item = true <-> render_id item ∈ ids items.
Proof.
  unfold is_row, ids. rewrite existsb_exists, list_elem_of_fmap. split.
  - intros (x & Hx & E%String.eqb_eq). exists x. split; [done|]. by apply list_elem_of_In.
  - intros (x & E & Hx). exists x. split; [by apply list_elem_of_In|]. by apply String.eqb_eq.
Qed.
Lemma is_row_false items item : is_row items item = false <-> render_id item ∉ ids items.
Proof. rewrite <-is_row_true. by destruct (is_row items item). Qed.

Lemma vec_insert_perm {A} i (x : A) l : vec_insert i x l ≡ₚ x :: l.
Proof. unfold vec_insert. rewrite <-Permutation_middle. by rewrite take_drop. Qed.
Lemma unique_vec_insert i item items :
  unique_rows items -> render_id item ∉ ids items -> unique_rows (vec_insert i item items).
Proof. intros. unfold unique_rows, ids. rewrite vec_insert_perm. by apply NoDup_cons. Qed.

Lemma keep_first_spec seen items :
  NoDup (ids (keep_first seen items)) /\ (forall id, id ∈ ids (keep_first seen items) -> id ∉ seen).
Proof.
  revert seen. induction items as [|item items IH]; intros seen; cbn [keep_first].
  { split; [constructor|]. by intros id ?%elem_of_nil. }
  case_bool_decide as Hin; [apply IH|]. destruct (IH ({[render_id item]} ∪ seen)) as [Hd Hs].
  unfold ids in *. csimpl. split.
  - apply NoDup_cons. split; [|done]. intros Hx. apply (Hs _ Hx). set_solver.
  - intros id [->|Hx]%elem_of_cons; [done|]. specialize (Hs _ Hx). set_solver.
Qed.
Lemma keep_first_id seen items :
  unique_rows items -> (forall id, id ∈ ids items -> id ∉ seen) -> keep_first seen items = items.
Proof.
  revert seen. induction items as [|item items IH]; intros seen Hu Hs; [done|]. cbn [keep_first].
  unfold unique_rows, ids in Hu. rewrite fmap_cons in Hu. apply NoDup_cons in Hu as [Hn Hu].
  rewrite bool_decide_eq_false_2 by (apply Hs; constructor). f_equal. apply IH; [done|].
  intros id Hid. apply not_elem_of_union. split; [|apply Hs; by constructor].
  rewrite elem_of_singleton. by intros ->.
Qed.

Lemma position_id items id k :
  unique_rows items ->
  position (fun x => String.eqb (render_id x) id) items = Some k
  <-> exists x, items !! k = Some x /\ render_id x = id.
Proof.
  intros Hu. split.
  - intros (x & Hx & E%String.eqb_eq & _)%position_Some. by exists x.
  - intros (x & Hx & E). destruct (position _ items) as [j|] eqn:Hp.
    + apply position_Some in Hp as (y & Hy & E'%String.eqb_eq & _). f_equal.
      apply (NoDup_lookup (ids items) _ _ id); [done|..]; unfold ids; rewrite list_lookup_fmap, ?Hx, ?Hy; cbn; by f_equal.
    + apply position_None in Hp. rewrite Forall_lookup in Hp. specialize (Hp _ _ Hx).
      by apply String.eqb_neq in Hp.
Qed.
Lemma position_id_None items id :
  position (fun x => String.eqb (render_id x) id) items = None <-> id ∉ ids items.
Proof.
  rewrite position_None. unfold ids. rewrite list_elem_of_fmap, Forall_forall. split.
  - intros H (x & -> & Hx). specialize (H _ Hx). by apply String.eqb_neq in H.
  - intros H x Hx. apply String.eqb_neq. intros E. apply H. by exists x.
Qed.

Lemma unique_set items index item :
  unique_rows items -> unique_rows (set_row items index item).
Proof.
  intros Hu. unfold set_row. apply NoDup_alt. intros i j id Hi Hj. unfold ids in Hi, Hj.
  rewrite list_lookup_fmap, fmap_Some in Hi, Hj.
  destruct Hi as (x & Hi & ->), Hj as (y & Hj & E).
  set (t := set_target items index item) in *.
  assert (forall k z, k <> t -> items !! k = Some z -> render_id z <> render_id item) as Hother.
  { intros k z Hk Hz Ez. apply Hk. unfold t, set_target.
    by rewrite (proj2 (position_id items (render_id item) k Hu)) by (by exists z). }
  assert (forall k z, <[t := item]> items !! k = Some z -> (k = t /\ z = item) \/ (k <> t /\ items !! k = Some z)) as Hlk.
  { intros k z. rewrite list_lookup_insert_Some. intros [(-> & -> & _)|[? ?]]; [by left|right]. by split. }
  destruct (Hlk _ _ Hi) as [[-> ->]|[Hit Hi']], (Hlk _ _ Hj) as [[-> ->]|[Hjt Hj']]; try done.
  - exfalso. by apply (Hother _ _ Hjt Hj').
  - exfalso. by apply (Hother _ _ Hit Hi').
  - apply (NoDup_lookup (ids items) _ _ (render_id x)); [done|..]; unfold ids; rewrite list_lookup_fmap, ?Hi', ?Hj'; cbn; by f_equal.
Qed.

Lemma check_diff_unique strict items diff items' :
  unique_rows items -> check_diff strict items diff = Some items' -> unique_rows items'.
Proof.
  intros Hu. destruct diff as [item|item|index item|index item|index|len| |reset]; cbn [check_diff].
  - destruct (is_row items item) eqn:E; [done|]. intros [= <-]. apply is_row_false in E. by apply NoDup_cons.
  - destruct (is_row items item) eqn:E; [done|]. intros [= <-]. apply is_row_false in E.
    unfold unique_rows, ids. rewrite fmap_app. cbn. rewrite <-Permutation_cons_append. by apply NoDup_cons.
  - destruct (_ || is_row items item) eqn:E; [done|]. intros [= <-]. apply orb_false_iff in E as [_ E].
    by apply unique_vec_insert, is_row_false.
  - destruct (_ || _); [done|]. intros [= <-]. by apply unique_set.
  - destruct (_ <=? _); [done|]. intros [= <-]. unfold unique_rows, ids. rewrite list_fmap_delete.
    by eapply sublist_NoDup, sublist_delete.
  - destruct (_ <? _); [done|]. intros [= <-]. unfold unique_rows, ids. rewrite fmap_take.
    by eapply sublist_NoDup, sublist_take.
  - intros [= <-]. constructor.
  - destruct strict; [done|]. intros [= <-]. apply keep_first_spec.
Qed.

(** * The checker takes one update at a time *)

Definition consistent (index : RenderIndex) (items : list TimelineItem) : Prop :=
  forall id k, index !! id = Some k <-> exists x, items !! k = Some x /\ render_id x = id.

Lemma index_of_ids_snoc items item :
  index_of_ids (items ++ [item]) = <[render_id item := length items]> (index_of_ids items).
Proof. unfold index_of_ids. rewrite imap_app, foldl_app. cbn [imap foldl]. unfold compose. cbn [fst snd]. by rewrite Nat.add_0_r. Qed.

Lemma consistent_snoc index items item :
  consistent index items -> render_id item ∉ ids items ->
  consistent (<[render_id item := length items]> index) (items ++ [item]).
Proof.
  intros Hc Hn id k. rewrite lookup_insert. case_decide as Hid.
  - split.
    + intros [= <-]. exists item. split; [|done]. by rewrite lookup_app_r, Nat.sub_diag.
    + intros (x & [Hx|[Hk Hx]]%lookup_app_Some & E).
      * exfalso. apply Hn. rewrite Hid, <-E. unfold ids. apply list_elem_of_fmap. exists x.
        split; [done|]. by eapply list_elem_of_lookup_2.
      * apply lookup_lt_Some in Hx. cbn in Hx. f_equal. lia.
  - rewrite (Hc id k). split.
    + intros (x & Hx & E). exists x. split; [by apply lookup_app_l_Some|done].
    + intros (x & [Hx|[Hk Hx]]%lookup_app_Some & E); [by exists x|].
      destruct (k - length items) as [|]; by simplify_eq/=.
Qed.
Lemma index_of_ids_consistent items : unique_rows items -> consistent (index_of_ids items) items.
Proof.
  unfold unique_rows, ids. induction items as [|item items IH] using rev_ind; intros Hu.
  { intros id k. split; [done|]. by intros (x & Hx & _). }
  rewrite fmap_app in Hu. apply NoDup_app in Hu as (Hu & Hd & _). rewrite index_of_ids_snoc.
  apply consistent_snoc; [by apply IH|]. intros Hin. by apply (Hd _ Hin), list_elem_of_singleton.
Qed.
Lemma consistent_is_row index items item :
  consistent index items -> is_some_and (index !! render_id item) (fun _ => true) = is_row items item.
Proof.
  intros Hc. destruct (index !! render_id item) as [k|] eqn:E; cbn.
  - apply (Hc _ _) in E as (x & Hx & E). symmetry. apply is_row_true. unfold ids.
    rewrite <-E. apply list_elem_of_fmap. exists x. split; [done|]. by eapply list_elem_of_lookup_2.
  - symmetry. apply is_row_false. unfold ids. intros (x & Ex & Hx)%list_elem_of_fmap.
    apply list_elem_of_lookup in Hx as [k Hk].
    by rewrite (proj2 (Hc (render_id item) k)) in E by (by exists x).
Qed.

(** [known] holds the identities of [rows]. *)
Definition holds_ids (known : gset string) (rows : list TimelineItem) : Prop :=
  forall id, id ∈ known <-> id ∈ ids rows.
Lemma holds_ids_snoc known rows item :
  holds_ids known rows -> holds_ids ({[render_id item]} ∪ known) (rows ++ [item]).
Proof.
  intros Hk id. rewrite elem_of_union, elem_of_singleton, (Hk id). unfold ids.
  rewrite fmap_app, elem_of_app. csimpl. rewrite list_elem_of_singleton. tauto.
Qed.
(** A row is new to a list that mixes [items] and [pre]. *)
Lemma is_row_mixed index known items pre item all :
  consistent index items -> holds_ids known pre -> all ≡ₚ pre ++ items ->
  is_some_and (index !! render_id item) (fun _ => true) || bool_decide (render_id item ∈ known)
  = is_row all item.
Proof.
  intros Hc Hk Hp. rewrite (consistent_is_row _ _ _ Hc).
  destruct (is_row all item) eqn:E.
  - apply is_row_true in E. unfold ids in E. rewrite Hp, fmap_app, elem_of_app in E.
    destruct E as [E|E]; [|by rewrite (proj2 (is_row_true _ _) E)].
    rewrite (bool_decide_eq_true_2 _ (proj2 (Hk _) E)). apply orb_true_r.
  - apply is_row_false in E. unfold ids in E. rewrite Hp, fmap_app, not_elem_of_app in E.
    destruct E as [E1 E2]. rewrite (proj2 (is_row_false _ _) E2).
    apply bool_decide_eq_false_2. by rewrite (Hk _).
Qed.

Lemma take_push_fronts_spec index known items pre diffs :
  consistent index items -> holds_ids known pre -> unique_rows (rev pre ++ items) ->
  match take_push_fronts index known diffs with
  | None => check_diffs false (rev pre ++ items) diffs = None
  | Some (p, rest) =>
      check_diffs false (rev pre ++ items) diffs = check_diffs false (rev (pre ++ p) ++ items) rest
      /\ unique_rows (rev (pre ++ p) ++ items) /\ length p + length rest = length diffs
  end.
Proof.
  intros Hc. revert known pre. induction diffs as [|d diffs IH]; intros known pre Hk Hu; cbn [take_push_fronts].
  { by rewrite app_nil_r. }
  destruct d; try (by rewrite app_nil_r).
  rewrite (is_row_mixed _ _ _ _ _ (rev pre ++ items) Hc Hk) by (by rewrite <-(Permutation_rev pre)).
  cbn [check_diffs check_diff]. destruct (is_row (rev pre ++ items) item) eqn:E; [done|].
  cbn [mbind option_bind].
  assert (rev (pre ++ [item]) ++ items = item :: rev pre ++ items) as Hrev by (by rewrite rev_app_distr).
  specialize (IH _ (pre ++ [item]) (holds_ids_snoc _ _ item Hk)). rewrite Hrev in IH.
  specialize (IH (proj2 (NoDup_cons _ _) (conj (proj1 (is_row_false _ _) E) Hu))).
  destruct (take_push_fronts _ _ diffs) as [[p rest]|]; [|done].
  destruct IH as (-> & H & Hlen). rewrite <-app_assoc in *. cbn [mbind option_bind].
  split; [done|]. split; [done|]. cbn [length]. lia.
Qed.

Lemma take_push_backs_spec index items diffs :
  consistent index items -> unique_rows items ->
  match take_push_backs items index diffs with
  | None => check_diffs false items diffs = None
  | Some (items', index', rest) =>
      check_diffs false items diffs = check_diffs false items' rest /\ consistent index' items' /\ unique_rows items'
      /\ length items' - length items + length rest = length diffs /\ length items <= length items'
  end.
Proof.
  revert index items. induction diffs as [|d diffs IH]; intros index items Hc Hu; cbn [take_push_backs].
  { rewrite Nat.sub_diag. done. }
  destruct d; try (rewrite Nat.sub_diag; by split_and!).
  rewrite (consistent_is_row _ _ _ Hc). cbn [check_diffs check_diff].
  destruct (is_row items item) eqn:E; [done|]. cbn [mbind option_bind].
  pose proof (proj1 (is_row_false _ _) E) as Hn.
  pose proof (check_diff_unique false items (PushBack item) (items ++ [item]) Hu ltac:(cbn; by rewrite E)) as Hu'.
  specialize (IH _ _ (consistent_snoc _ _ _ Hc Hn) Hu').
  destruct (take_push_backs _ _ diffs) as [[[items' index'] rest]|]; [|done].
  destruct IH as (? & ? & ? & Hlen & Hle). rewrite length_app in *. cbn [length] in *.
  split_and!; [done..|lia|lia].
Qed.

Lemma vec_insert_between {A} start (items pre : list A) x :
  start <= length items ->
  vec_insert (start + length pre) x (take start items ++ pre ++ drop start items)
  = take start items ++ (pre ++ [x]) ++ drop start items.
Proof.
  intros Hs. unfold vec_insert. rewrite app_assoc.
  rewrite take_app_length', drop_app_length' by (rewrite length_app, length_take; lia).
  by rewrite <-!app_assoc.
Qed.

Lemma take_inserts_spec index known items start pre diffs :
  consistent index items -> holds_ids known pre -> start <= length items ->
  unique_rows (take start items ++ pre ++ drop start items) ->
  match take_inserts start (length pre) index known diffs with
  | None => check_diffs false (take start items ++ pre ++ drop start items) diffs = None
  | Some (p, rest) =>
      check_diffs false (take start items ++ pre ++ drop start items) diffs
      = check_diffs false (take start items ++ (pre ++ p) ++ drop start items) rest
      /\ unique_rows (take start items ++ (pre ++ p) ++ drop start items)
      /\ length p + length rest = length diffs
  end.
Proof.
  intros Hc. revert known pre. induction diffs as [|d diffs IH]; intros known pre Hk Hs Hu; cbn [take_inserts].
  { by rewrite app_nil_r. }
  destruct d as [| |ix item| | | | |]; try (by rewrite app_nil_r).
  destruct (Nat.eqb_spec ix (start + length pre)) as [->|]; cbn [negb]; [|by rewrite app_nil_r].
  set (all := take start items ++ pre ++ drop start items) in *.
  assert (all ≡ₚ pre ++ items) as Hp.
  { unfold all. rewrite (Permutation_app_comm pre (drop _ _)), app_assoc, take_drop.
    apply Permutation_app_comm. }
  rewrite (is_row_mixed _ _ _ _ _ all Hc Hk Hp). cbn [check_diffs check_diff].
  assert (length all = length items + length pre) as Hlen.
  { rewrite Hp, length_app. lia. }
  rewrite (proj2 (Nat.ltb_ge _ _)) by lia. cbn [orb].
  destruct (is_row all item) eqn:E; [done|]. cbn [mbind option_bind].
  pose proof (vec_insert_between start items pre item Hs) as Hv. fold all in Hv. rewrite Hv.
  specialize (IH _ (pre ++ [item]) (holds_ids_snoc _ _ item Hk) Hs).
  rewrite <-Hv in IH at 1. specialize (IH (unique_vec_insert _ _ _ Hu (proj1 (is_row_false _ _) E))).
  rewrite length_app in IH. cbn [length] in IH.
  destruct (take_inserts _ _ _ _ diffs) as [[p rest]|]; [|done].
  destruct IH as (-> & H & Hlen'). rewrite <-(app_assoc pre) in *. cbn [mbind option_bind].
  split; [done|]. split; [done|]. cbn [length]. lia.
Qed.

Lemma drop_delete {A} start n (l : list A) :
  start < length l -> take start (delete start l) ++ drop (start + n) (delete start l)
  = take start l ++ drop (start + S n) l.
Proof.
  intros Hs. rewrite delete_take_drop.
  rewrite take_app_length', drop_app_ge by (rewrite length_take; lia).
  rewrite length_take, Nat.min_l by lia. replace (start + n - start) with n by lia.
  rewrite drop_drop. do 2 f_equal. lia.
Qed.

Lemma take_removes_spec start items diffs :
  unique_rows items ->
  let '(count, rest) := take_removes start diffs in
  count + length rest = length diffs
  /\ if (0 <? count) && ((length items <=? start) || (length items - start <? count))
     then check_diffs false items diffs = None
     else check_diffs false items diffs = check_diffs false (take start items ++ drop (start + count) items) rest
       /\ unique_rows (take start items ++ drop (start + count) items).
Proof.
  revert items. induction diffs as [|d diffs IH]; intros items Hu; cbn [take_removes].
  { change (0 <? 0) with false. cbn [andb]. by rewrite (Nat.add_0_r start), take_drop. }
  assert (0 + length (d :: diffs) = length (d :: diffs)
    /\ check_diffs false items (d :: diffs) = check_diffs false (take start items ++ drop (start + 0) items) (d :: diffs)
    /\ unique_rows (take start items ++ drop (start + 0) items)) as Hstop
    by (by rewrite (Nat.add_0_r start), take_drop).
  destruct d as [| | | |ix| | |]; try exact Hstop.
  destruct (Nat.eqb_spec ix start) as [->|]; [|exact Hstop].
  specialize (IH (delete start items)).
  destruct (take_removes start diffs) as [count rest]. cbn [check_diffs check_diff].
  destruct (Nat.leb_spec (length items) start) as [Hle|Hlt].
  { cbn [orb andb Nat.ltb Nat.leb mbind option_bind length]. destruct IH as [Hn _]; [|split; [lia|done]].
    unfold unique_rows, ids. rewrite list_fmap_delete. by eapply sublist_NoDup, sublist_delete. }
  cbn [orb mbind option_bind].
  destruct IH as [Hn IH].
  { unfold unique_rows, ids. rewrite list_fmap_delete. by eapply sublist_NoDup, sublist_delete. }
  split; [cbn [length]; lia|]. change (0 <? S count) with true. cbn [andb].
  rewrite drop_delete in IH by done. rewrite length_delete in IH by (by apply lookup_lt_is_Some_2).
  destruct (Nat.ltb_spec (length items - start) (S count)) as [Hc|Hc].
  - rewrite (proj2 (Nat.ltb_lt 0 count)) in IH by lia. cbn [andb] in IH.
    destruct (Nat.leb_spec (length items - 1) start); cbn [orb] in IH; [done|].
    by rewrite (proj2 (Nat.ltb_lt _ _)) in IH by lia.
  - destruct (Nat.ltb_spec 0 count); cbn [andb] in IH; [|done].
    rewrite (proj2 (Nat.leb_gt _ _)), (proj2 (Nat.ltb_ge _ _)) in IH by lia. done.
Qed.

Lemma validate_set_spec items index_by_id index item :
  consistent index_by_id items -> unique_rows items -> index < length items ->
  let '(items', index') := validate_set items index_by_id index item in
  items' = set_row items index item /\ consistent index' items'.
Proof.
  intros Hc Hu Hi. unfold validate_set.
  assert (match index_by_id !! render_id item with
          | Some e => if e =? index then index else e
          | None => index
          end = set_target items index item) as Ht.
  { unfold set_target. destruct (index_by_id !! render_id item) as [k|] eqn:E.
    - apply (Hc _ _) in E. rewrite (proj2 (position_id items _ k Hu) E). cbn.
      by destruct (Nat.eqb_spec k index) as [->|].
    - destruct (position _ items) as [k|] eqn:Hp; [|done]. apply (position_id items _ k Hu) in Hp.
      apply (Hc (render_id item) k) in Hp. congruence. }
  rewrite Ht. set (t := set_target items index item). unfold set_row.
  split; [done|]. fold t.
  assert (t < length items) as Hlt.
  { unfold t, set_target. destruct (position _ items) as [k|] eqn:Hp; [|done]. cbn.
    apply position_Some in Hp as (x & Hx & _). by eapply lookup_lt_Some. }
  destruct (lookup_lt_is_Some_2 _ _ Hlt) as [old Hold]. rewrite Hold.
  assert (index_by_id !! render_id old = Some t) as Ho by (apply (Hc _ _); by exists old).
  rewrite bool_decide_eq_true_2 by done.
  assert (forall k x, items !! k = Some x -> render_id x = render_id item -> k = t) as Hsame.
  { intros k x Hx E. unfold t, set_target. by rewrite (proj2 (position_id items _ k Hu)) by (by exists x). }
  intros id k. rewrite lookup_insert. case_decide as Hid.
  - subst id. split.
    + intros [= <-]. exists item. split; [|done]. by apply list_lookup_insert_eq.
    + intros (x & Hx & E). f_equal. apply list_lookup_insert_Some in Hx as [(-> & _)|[Hk Hx]]; [done|].
      symmetry. by apply (Hsame _ _ Hx).
  - rewrite lookup_delete. case_decide as Hd.
    + subst id. split; [done|]. intros (x & Hx & E).
      apply list_lookup_insert_Some in Hx as [(-> & -> & _)|[Hk Hx]]; [done|].
      assert (index_by_id !! render_id old = Some k) as Hk' by (apply (Hc _ _); by exists x). congruence.
    + rewrite (Hc id k). split; intros (x & Hx & E).
      * assert (k <> t) by congruence. exists x. split; [|done]. by rewrite list_lookup_insert_ne.
      * apply list_lookup_insert_Some in Hx as [(-> & -> & _)|[Hk Hx]]; [done|]. by exists x.
Qed.

Lemma holds_ids_nil : holds_ids ∅ [].
Proof. intros id. unfold ids. cbn. by rewrite elem_of_empty, elem_of_nil. Qed.

Lemma validate_loop_spec fuel diffs items index_by_id :
  unique_rows items -> consistent index_by_id items -> length diffs <= fuel ->
  validate_loop fuel diffs items index_by_id = Some (check_diffs false items diffs).
Proof.
  revert diffs items index_by_id.
  induction fuel as [|fuel IH]; intros diffs items idx Hu Hc Hf; (destruct diffs as [|d diffs]; [done|]).
  { cbn in Hf. lia. }
  cbn [length] in Hf.
  assert (forall items' diffs', unique_rows items' -> length diffs' <= fuel ->
    validate_loop fuel diffs' items' (index_of_ids items') = Some (check_diffs false items' diffs')) as IH'.
  { intros. apply IH; [done|by apply index_of_ids_consistent|done]. }
  pose proof (fun items' => check_diff_unique false items d items' Hu) as Hone.
  cbn [validate_loop]. destruct d as [item|item|start item|index item|start|len| |reset].
  - pose proof (take_push_fronts_spec idx ∅ items [] (PushFront item :: diffs) Hc holds_ids_nil Hu) as H.
    destruct (take_push_fronts idx ∅ _) as [[p rest]|] eqn:E; [|by rewrite <-H].
    destruct H as (H & Hu' & Hl). cbn [rev app] in H, Hu'. rewrite H. apply IH'; [done|].
    assert (p <> []). { intros ->. cbn [take_push_fronts] in E. destruct (is_some_and _ _ || _); [done|].
      destruct (take_push_fronts _ _ diffs) as [[]|]; by simplify_eq/=. }
    destruct p; [done|]. cbn [length] in *. lia.
  - cbn [take_push_backs check_diffs check_diff] in *. rewrite (consistent_is_row _ _ _ Hc).
    destruct (is_row items item) eqn:E; [done|]. cbn [mbind option_bind].
    pose proof (Hone _ eq_refl) as Hu'.
    pose proof (take_push_backs_spec _ _ diffs
      (consistent_snoc _ _ _ Hc (proj1 (is_row_false _ _) E)) Hu') as H.
    destruct (take_push_backs _ _ diffs) as [[[items' idx'] rest]|]; [|by rewrite H].
    destruct H as (-> & Hc' & Hu'' & Hl & Hle). rewrite length_app in *. cbn [length] in *.
    rewrite (proj2 (Nat.eqb_neq _ _)) by lia. apply IH; [done..|lia].
  - cbn [check_diffs check_diff]. destruct (Nat.ltb_spec (length items) start) as [|Hs]; [done|]. cbn [orb].
    pose proof (take_inserts_spec idx ∅ items start [] (Insert start item :: diffs) Hc holds_ids_nil Hs) as H.
    cbn [app length] in H. rewrite take_drop in H. specialize (H Hu).
    cbn [check_diffs check_diff] in H. rewrite (proj2 (Nat.ltb_ge _ _) Hs) in H. cbn [orb] in H.
    destruct (take_inserts start 0 idx ∅ _) as [[p rest]|] eqn:E; [|by rewrite H].
    destruct H as (H & Hu' & Hl). rewrite H.
    assert (p <> []).
    { intros ->. revert E. cbn [take_inserts]. rewrite Nat.add_0_r, Nat.eqb_refl. cbn [negb].
      destruct (is_some_and _ _ || _); [done|].
      destruct (take_inserts start _ _ _ diffs) as [[? ?]|]; cbn [mbind option_bind]; intros [=]. }
    destruct p; [done|]. apply IH'; [done|]. cbn [length] in *. lia.
  - cbn [check_diffs check_diff] in *. destruct (Nat.leb_spec (length items) index) as [|Hi]; [done|]. cbn [andb orb] in *.
    pose proof (validate_set_spec items idx index item Hc Hu Hi) as H.
    destruct (validate_set items idx index item) as [items' idx']. destruct H as [-> Hc'].
    cbn [mbind option_bind]. pose proof (Hone _ eq_refl) as Hu'. apply IH; [done..|lia].
  - pose proof (take_removes_spec start items (Remove start :: diffs) Hu) as H.
    destruct (take_removes start _) as [count rest] eqn:E. destruct H as [Hl H].
    assert (0 < count) as Hpos.
    { cbn in E. rewrite Nat.eqb_refl in E. destruct (take_removes start diffs). simplify_eq. lia. }
    rewrite (proj2 (Nat.ltb_lt _ _) Hpos) in H. cbn [andb] in H.
    destruct ((length items <=? start) || (length items - start <? count)); [by rewrite H|].
    destruct H as [-> Hu']. apply IH'; [done|]. cbn [length] in *. lia.
  - cbn [check_diffs check_diff] in *. destruct (Nat.ltb_spec (length items) len) as [|Hi]; [done|].
    cbn [mbind option_bind]. pose proof (Hone _ eq_refl) as Hu'. apply IH'; [done|lia].
  - cbn [check_diffs check_diff mbind option_bind]. apply IH; [constructor| |lia].
    intros id k. split; [done|]. by intros (x & Hx & _).
  - cbn [check_diffs check_diff mbind option_bind] in *. pose proof (Hone _ eq_refl) as Hu'.
    apply IH'; [done|lia].
Qed.

Lemma validate_spec before diffs after :
  unique_rows before ->
  validate_display_projection_diffs before diffs after = true
  <-> check_diffs false before diffs = Some after.
Proof.
  intros Hu. unfold validate_display_projection_diffs.
  rewrite validate_loop_spec by (done || by apply index_of_ids_consistent).
  destruct (check_diffs false before diffs) as [items|]; [|done].
  rewrite bool_decide_eq_true. split; [by intros ->|by intros [=]].
Qed.

(** * What is built is accepted *)

Section built.
Context (strict : bool).

Lemma check_diffs_app items d1 d2 :
  check_diffs strict items (d1 ++ d2) = items ← check_diffs strict items d1; check_diffs strict items d2.
Proof.
  revert items. induction d1 as [|d d1 IH]; intros items; [done|]. cbn [app check_diffs].
  destruct (check_diff strict items d); [|done]. apply IH.
Qed.

Lemma check_removes pre mid post :
  check_diffs strict (pre ++ mid ++ post) (removes (length pre) (length mid)) = Some (pre ++ post).
Proof.
  induction mid as [|x mid IH]; [done|]. cbn [length removes replicate check_diffs check_diff].
  rewrite (proj2 (Nat.leb_gt _ _)) by (rewrite length_app; cbn; lia). cbn [mbind option_bind app].
  rewrite delete_middle. exact IH.
Qed.

Lemma imap_pair_cons {A} (x : A) l : imap pair (x :: l) = (0, x) :: ((fun e => (S e.1, e.2)) <$> imap pair l).
Proof.
  rewrite imap_cons. f_equal. apply list_eq. intros i.
  rewrite list_lookup_fmap, !list_lookup_imap. by destruct (l !! i).
Qed.
Lemma inserts_cons start x l : inserts start (x :: l) = Insert start x :: inserts (S start) l.
Proof.
  unfold inserts. rewrite imap_cons, Nat.add_0_r. f_equal. apply imap_ext.
  intros i y _. unfold compose. by rewrite Nat.add_succ_r.
Qed.
Lemma sets_cons start x y l k :
  sets start (x :: l) (y :: k)
  = (if bool_decide (x = y) then [] else [SetAt start y]) ++ sets (S start) l k.
Proof.
  unfold sets. cbn [zip zip_with]. rewrite imap_pair_cons. csimpl.
  assert (forall l' : list (nat * (TimelineItem * TimelineItem)),
    omap (fun e => if bool_decide (e.2.1 = e.2.2) then None else Some (SetAt (start + e.1) e.2.2))
      ((fun e => (S e.1, e.2)) <$> l')
    = omap (fun e => if bool_decide (e.2.1 = e.2.2) then None else Some (SetAt (S start + e.1) e.2.2)) l') as Hs.
  { induction l' as [|e l' IH]; [done|]. csimpl. rewrite IH, Nat.add_succ_r. done. }
  rewrite Hs, Nat.add_0_r. by case_bool_decide.
Qed.

Lemma check_inserts pre mid post :
  unique_rows (pre ++ mid ++ post) ->
  check_diffs strict (pre ++ post) (inserts (length pre) mid) = Some (pre ++ mid ++ post).
Proof.
  revert pre. induction mid as [|x mid IH]; intros pre Hu; [done|]. rewrite inserts_cons.
  cbn [check_diffs check_diff]. rewrite (proj2 (Nat.ltb_ge _ _)) by (rewrite length_app; lia). cbn [orb].
  rewrite (proj2 (is_row_false _ _)).
  - cbn [mbind option_bind].
    replace (vec_insert (length pre) x (pre ++ post)) with ((pre ++ [x]) ++ post)
      by (unfold vec_insert; by rewrite take_app_length, drop_app_length, <-app_assoc).
    replace (pre ++ (x :: mid) ++ post) with ((pre ++ [x]) ++ mid ++ post) in * by (by rewrite <-app_assoc).
    replace (S (length pre)) with (length (pre ++ [x])) by (rewrite length_app; cbn; lia). by apply IH.
  - unfold unique_rows, ids in *. intros Hin. rewrite !fmap_app in *. csimpl in *.
    rewrite <-Permutation_middle in Hu. apply NoDup_cons in Hu as [Hn _]. apply Hn.
    rewrite !elem_of_app in *. tauto.
Qed.

(** A set keeps the identity of its row or brings one that the middle does not have. *)
Definition safe_sets (all before after : list TimelineItem) : Prop :=
  Forall2 (fun x y => render_id x = render_id y \/ render_id y ∉ ids all) before after.

Lemma check_sets all pre before after post :
  safe_sets all before after -> (forall id, id ∈ ids before -> id ∈ ids all) ->
  unique_rows (pre ++ after ++ post) ->
  check_diffs strict (pre ++ before ++ post) (sets (length pre) before after) = Some (pre ++ after ++ post).
Proof.
  intros Hs. revert pre. induction Hs as [|x y before after Hxy Hs IH]; intros pre Hsub Hu; [done|].
  rewrite sets_cons.
  assert (check_diffs strict (pre ++ (y :: before) ++ post) (sets (S (length pre)) before after)
      = Some (pre ++ (y :: after) ++ post)) as Hrest.
  { specialize (IH (pre ++ [y])). rewrite length_app in IH. cbn [length] in IH.
    rewrite Nat.add_1_r, <-!app_assoc in IH. apply IH; [|done].
    intros id Hid. apply Hsub. by right. }
  case_bool_decide as E; [by rewrite E|]. cbn [app check_diffs check_diff].
  rewrite (proj2 (Nat.leb_gt _ _)) by (rewrite length_app; cbn; lia). unfold set_row.
  assert (set_target (pre ++ x :: before ++ post) (length pre) y = length pre) as ->; [|].
  2: { rewrite Nat.eqb_refl, andb_false_r. cbn [orb mbind option_bind]. rewrite insert_app_r_alt, Nat.sub_diag by done. exact Hrest. }
  unfold set_target. destruct (position _ _) as [k|] eqn:Hp; [|done]. cbn.
  apply position_Some in Hp as (z & Hz & Ez%String.eqb_eq & Hmin).
  unfold unique_rows, ids in Hu. rewrite !fmap_app in Hu. csimpl in Hu.
  apply lookup_app_Some in Hz as [Hz|[Hk Hz]].
  { exfalso. apply NoDup_app in Hu as (_ & Hd & _). apply (Hd (render_id z)).
    - apply list_elem_of_fmap. exists z. split; [done|]. by eapply list_elem_of_lookup_2.
    - rewrite Ez. constructor. }
  destruct (k - length pre) as [|k'] eqn:Ek; [lia|]. exfalso. cbn in Hz.
  apply lookup_app_Some in Hz as [Hz|[_ Hz]].
  - assert (render_id z ∈ ids before) as Hin.
    { unfold ids. apply list_elem_of_fmap. exists z. split; [done|]. by eapply list_elem_of_lookup_2. }
    destruct Hxy as [Hxy|Hn]; [|apply Hn; rewrite <-Ez; apply Hsub; by right].
    specialize (Hmin (length pre) x ltac:(lia)). rewrite lookup_app_r, Nat.sub_diag in Hmin by done.
    specialize (Hmin eq_refl). apply String.eqb_neq in Hmin. congruence.
  - apply NoDup_app in Hu as (_ & _ & Hu). apply NoDup_cons in Hu as [Hn _]. apply Hn, elem_of_app. right.
    rewrite <-Ez. apply list_elem_of_fmap. exists z. split; [done|]. by eapply list_elem_of_lookup_2.
Qed.

(** * The longest common run *)

(** [n] rows of [before] from [b] and of [after] from [a] have the same identities. *)
Definition same_ids (before after : list TimelineItem) (run : Run) : Prop :=
  forall j, j < run.2 -> exists x y,
    before !! (run.1.1 + j) = Some x /\ after !! (run.1.2 + j) = Some y /\ render_id x = render_id y.

Lemma longest_run_spec before after :
  unique_rows before ->
  same_ids before after (longest_run before after)
  /\ ((longest_run before after).2 = 0 -> longest_run before after = (0, 0, 0)).
Proof.
  intros Hu. unfold longest_run. pose proof (index_of_ids_consistent _ Hu) as Hc.
  set (step := run_step (index_of_ids before)).
  assert (forall l n acc,
    (forall i x, l !! i = Some x -> after !! (n + i) = Some x) ->
    same_ids before after acc.1.1 -> (acc.1.1.2 = 0 -> acc.1.1 = (0, 0, 0)) ->
    same_ids before after acc.1.2 ->
    (forall k, acc.2 = Some k -> acc.1.2.1.1 + acc.1.2.2 = k + 1 /\ acc.1.2.1.2 + acc.1.2.2 = n) ->
    let run := (foldl step acc ((fun e => (n + e.1, e.2)) <$> imap pair l)).1.1 in
    same_ids before after run /\ (run.2 = 0 -> run = (0, 0, 0))) as H.
  { induction l as [|item l IH]; intros n acc Hl Hb Hz Hcur Hprev; [done|].
    rewrite imap_pair_cons. csimpl. rewrite Nat.add_0_r.
    pose proof (Hl 0 item eq_refl) as Hitem. rewrite Nat.add_0_r in Hitem.
    replace ((fun e : nat * TimelineItem => (n + e.1, e.2)) <$> ((fun e => (S e.1, e.2)) <$> imap pair l))
      with ((fun e : nat * TimelineItem => (S n + e.1, e.2)) <$> imap pair l).
    2: { rewrite <-list_fmap_compose. apply list_fmap_ext. intros _ [i x] _. cbn. by rewrite Nat.add_succ_r. }
    destruct acc as [[best cur] prev]. cbn [fst snd] in *.
    change (step (best, cur, prev) (n, item))
      with (run_step (index_of_ids before) (best, cur, prev) (n, item)).
    unfold run_step.
    destruct (index_of_ids before !! render_id item) as [k|] eqn:Ek.
    - apply (Hc _ _) in Ek as (x & Hx & Ex).
      set (cur' := if is_some_and prev _ then _ else _).
      assert (same_ids before after cur' /\ cur'.1.1 + cur'.2 = k + 1 /\ cur'.1.2 + cur'.2 = S n) as (Hs & E1 & E2).
      { unfold cur'. destruct prev as [q|]; cbn [is_some_and].
        - destruct (Hprev q eq_refl) as [P1 P2]. destruct (Nat.eqb_spec (q + 1) k) as [<-|].
          + cbn [fst snd]. split; [|lia]. intros j Hj. cbn [fst snd] in *.
            destruct (decide (j = cur.2)) as [->|]; [|apply Hcur; lia].
            exists x, item. rewrite P1, P2. by rewrite Hx.
          + cbn [fst snd]. split; [|lia]. intros j Hj. cbn [fst snd] in *. assert (j = 0) as -> by lia.
            rewrite !Nat.add_0_r. by exists x, item.
        - cbn [fst snd]. split; [|lia]. intros j Hj. cbn [fst snd] in *. assert (j = 0) as -> by lia.
          rewrite !Nat.add_0_r. by exists x, item. }
      apply (IH (S n)); cbn [fst snd].
      + intros i y Hy. rewrite <-(Hl (S i) y Hy). f_equal. lia.
      + by destruct (best.2 <? cur'.2).
      + destruct (Nat.ltb_spec best.2 cur'.2); [lia|done].
      + done.
      + intros ? [= <-]. lia.
    - apply (IH (S n)); cbn [fst snd].
      + intros i y Hy. rewrite <-(Hl (S i) y Hy). f_equal. lia.
      + done.
      + done.
      + intros j Hj. cbn in Hj. lia.
      + done. }
  specialize (H after 0 ((0, 0, 0), (0, 0, 0), None)).
  replace ((fun e : nat * TimelineItem => (0 + e.1, e.2)) <$> imap pair after) with (imap pair after) in H
    by (symmetry; rewrite <-(list_fmap_id (imap pair after)) at 2; apply list_fmap_ext; by intros _ [] _).
  apply H; [done|by intros j Hj; cbn in Hj; lia|done|by intros j Hj; cbn in Hj; lia|done].
Qed.

Lemma same_ids_slices before after b a n :
  same_ids before after (b, a, n) ->
  Forall2 (fun x y => render_id x = render_id y) (take n (drop b before)) (take n (drop a after))
  /\ (n = 0 \/ (b + n <= length before /\ a + n <= length after)).
Proof.
  intros H. split.
  - apply Forall2_same_length_lookup_2.
    + destruct n as [|n]; [done|].
      destruct (H n ltac:(cbn; lia)) as (x & y & Hx%lookup_lt_Some & Hy%lookup_lt_Some & _). cbn in *.
      rewrite !length_take, !length_drop. lia.
    + intros i x y Hx Hy. apply lookup_take_Some in Hx as [Hx Hi], Hy as [Hy _].
      rewrite lookup_drop in Hx, Hy. destruct (H i Hi) as (x' & y' & Hx' & Hy' & E). cbn in *. congruence.
  - destruct n as [|n]; [by left|right].
    destruct (H n ltac:(cbn; lia)) as (x & y & Hx%lookup_lt_Some & Hy%lookup_lt_Some & _). cbn in *. lia.
Qed.

(** * The middle of the display *)

Lemma ids_app l k : ids (l ++ k) = ids l ++ ids k.
Proof. apply fmap_app. Qed.
Lemma Forall2_ids l k : Forall2 (fun x y => render_id x = render_id y) l k -> ids l = ids k.
Proof. induction 1 as [|x y l k E _ IH]; [done|]. unfold ids in *. csimpl. by rewrite E, IH. Qed.

Lemma cut3 {A} (l : list A) i n : l = take i l ++ take n (drop i l) ++ drop (i + n) l.
Proof. by rewrite <-drop_drop, !take_drop. Qed.

Lemma forallb_zip_safe before after :
  length before = length after ->
  forallb (fun e : TimelineItem * TimelineItem =>
      String.eqb (render_id e.1) (render_id e.2)
      || negb (bool_decide (render_id e.2 ∈ (list_to_set (ids before) : gset string))))
    (zip before after) = true ->
  safe_sets before before after.
Proof.
  intros Hlen H. apply Forall2_same_length_lookup_2; [done|]. intros i x y Hx Hy.
  rewrite forallb_forall in H. specialize (H (x, y)).
  assert (In (x, y) (zip before after)) as Hin.
  { apply list_elem_of_In, list_elem_of_lookup. exists i. rewrite lookup_zip_with, Hx. cbn. by rewrite Hy. }
  specialize (H Hin). cbn [fst snd] in H. apply orb_true_iff in H as [H%String.eqb_eq|H]; [by left|right].
  apply negb_true_iff, bool_decide_eq_false in H. by rewrite elem_of_list_to_set in H.
Qed.

(** Identity movement around a kept run. *)
Lemma check_move pre B1 K B3 A1 A2 A3 post :
  Forall2 (fun x y => render_id x = render_id y) K A2 ->
  unique_rows (pre ++ (A1 ++ A2 ++ A3) ++ post) ->
  check_diffs strict (pre ++ (B1 ++ K ++ B3) ++ post)
    (removes (length pre + (length B1 + length K)) (length B3)
     ++ removes (length pre) (length B1)
     ++ inserts (length pre) A1
     ++ inserts (length pre + length A1 + length K) A3
     ++ sets (length pre + length A1) K A2)
  = Some (pre ++ (A1 ++ A2 ++ A3) ++ post).
Proof.
  intros HF Ha. rewrite <-!app_assoc in *.
  assert (unique_rows (pre ++ A1 ++ K ++ A3 ++ post)) as HU.
  { unfold unique_rows in *. rewrite !ids_app in *. by rewrite (Forall2_ids _ _ HF). }
  rewrite check_diffs_app.
  replace (length pre + (length B1 + length K)) with (length (pre ++ B1 ++ K)) by (rewrite !length_app; lia).
  replace (pre ++ B1 ++ K ++ B3 ++ post) with ((pre ++ B1 ++ K) ++ B3 ++ post) by (by rewrite <-!app_assoc).
  rewrite check_removes. cbn [mbind option_bind].
  rewrite check_diffs_app, <-!app_assoc, check_removes. cbn [mbind option_bind].
  rewrite check_diffs_app, check_inserts.
  2: { unfold unique_rows in *. rewrite !ids_app in *. eapply sublist_NoDup; [exact HU|].
    do 3 (apply sublist_app; [done|]). by apply sublist_inserts_l. }
  cbn [mbind option_bind]. rewrite check_diffs_app.
  replace (length pre + length A1 + length K) with (length (pre ++ A1 ++ K)) by (rewrite !length_app; lia).
  replace (pre ++ A1 ++ K ++ post) with ((pre ++ A1 ++ K) ++ post) by (by rewrite <-!app_assoc).
  rewrite check_inserts by (by rewrite <-!app_assoc). cbn [mbind option_bind].
  replace (length pre + length A1) with (length (pre ++ A1)) by (by rewrite !length_app).
  replace ((pre ++ A1 ++ K) ++ A3 ++ post) with ((pre ++ A1) ++ K ++ A3 ++ post) by (by rewrite <-!app_assoc).
  rewrite (check_sets K).
  - by rewrite <-!app_assoc.
  - eapply Forall2_impl; [exact HF|]. intros x y E. by left.
  - done.
  - by rewrite <-!app_assoc.
Qed.

Lemma build_middle_accepted pre before after post :
  unique_rows (pre ++ before ++ post) -> unique_rows (pre ++ after ++ post) ->
  check_diffs strict (pre ++ before ++ post) (build_middle (length pre) before after) = Some (pre ++ after ++ post).
Proof.
  intros Hb Ha. unfold build_middle. destruct (Nat.eqb_spec (length before) (length after)) as [Hlen|_]; cbn [negb].
  2: { rewrite check_diffs_app, check_removes. cbn [mbind option_bind]. by apply check_inserts. }
  set (safe := forallb _ _). destruct safe eqn:Hsafe.
  { eapply (check_sets before); [by apply forallb_zip_safe|done|done]. }
  assert (unique_rows before) as Hub.
  { unfold unique_rows in *. rewrite !ids_app in Hb. apply NoDup_app in Hb as (_ & _ & Hb).
    by apply NoDup_app in Hb as (Hb & _). }
  destruct (longest_run_spec before after Hub) as [Hrun Hzero].
  destruct (longest_run before after) as [[b a] n]. cbn [snd] in Hzero.
  destruct (same_ids_slices _ _ _ _ _ Hrun) as [HF Hbounds].
  assert (b + n <= length before /\ a + n <= length after) as [Hbn Han].
  { destruct Hbounds as [->|]; [|done]. specialize (Hzero eq_refl) as [= -> ->]. lia. }
  clear Hbounds Hzero Hrun Hsafe safe.
  rewrite (cut3 after a n) in Ha.
  pose proof (check_move pre (take b before) (take n (drop b before)) (drop (b + n) before)
    (take a after) (take n (drop a after)) (drop (a + n) after) post HF Ha) as H.
  rewrite <-!cut3, !length_take, !length_drop, !Nat.min_l in H by lia. exact H.
Qed.

Lemma common_len_spec l k :
  common_len l k <= length l /\ common_len l k <= length k
  /\ take (common_len l k) l = take (common_len l k) k.
Proof.
  revert k. induction l as [|x l IH]; intros [|y k]; cbn [common_len length]; try (split_and!; [lia|lia|done]).
  case_bool_decide as E; [|by split_and!; [lia|lia|]].
  destruct (IH k) as (? & ? & H). split_and!; [lia|lia|]. cbn [take]. by rewrite E, H.
Qed.

(** Two displays are a common prefix and suffix around their middles. *)
Lemma middles before after :
  let prefix_len := common_len before after in
  let suffix_len :=
    common_len (take (length before `min` length after - prefix_len) (rev (drop prefix_len before)))
      (rev (drop prefix_len after)) in
  let middle (l : list TimelineItem) := take (length l - suffix_len - prefix_len) (drop prefix_len l) in
  exists pre mb ma post, prefix_len = length pre /\ middle before = mb /\ middle after = ma
    /\ before = pre ++ mb ++ post /\ after = pre ++ ma ++ post.
Proof.
  intros p s middle. destruct (common_len_spec before after) as (Hp1 & Hp2 & Hp). fold p in Hp1, Hp2, Hp.
  destruct (common_len_spec (take (length before `min` length after - p) (rev (drop p before)))
    (rev (drop p after))) as (Hs1 & Hs2 & Hs). fold s in Hs1, Hs2, Hs.
  rewrite length_take, length_rev, length_drop in Hs1. rewrite length_rev, length_drop in Hs2.
  rewrite take_take, Nat.min_l in Hs by lia.
  assert (forall l : list TimelineItem, p + s <= length l -> rev (take s (rev (drop p l))) = drop (length l - s) l) as Hsuf.
  { intros l Hl. rewrite <-(rev_involutive (drop (length l - s) l)). f_equal.
    rewrite <-(take_drop (length l - s - p) (drop p l)), rev_app_distr, drop_drop.
    replace (p + (length l - s - p)) with (length l - s) by lia.
    apply take_app_length'. rewrite length_rev, length_drop. lia. }
  exists (take p before), (middle before), (middle after), (rev (take s (rev (drop p before)))).
  split; [rewrite length_take; lia|]. split; [done|]. split; [done|].
  assert (forall l : list TimelineItem, p + s <= length l ->
    l = take p l ++ take (length l - s - p) (drop p l) ++ drop (length l - s) l) as Hcut.
  { intros l Hl. rewrite (cut3 l p (length l - s - p)) at 1. do 3 f_equal. lia. }
  split.
  - rewrite Hsuf by lia. apply Hcut. lia.
  - rewrite Hs, Hsuf, Hp by lia. apply Hcut. lia.
Qed.

Lemma built_diffs_accepted before after :
  unique_rows before -> unique_rows after ->
  exists diffs, build_display_projection_diffs before after = Some diffs
    /\ check_diffs strict before diffs = Some after.
Proof.
  intros Hb Ha. unfold build_display_projection_diffs. rewrite size_list_to_set by done.
  rewrite length_fmap, Nat.eqb_refl. cbn [negb]. destruct after as [|item after]; cbn [head is_none].
  { destruct before as [|x before]; by eexists. }
  destruct (middles before (item :: after)) as (pre & mb & ma & post & Hpre & Hmb & Hma & EB & EA).
  eexists. split; [done|]. rewrite Hmb, Hma, Hpre, EA, EB.
  apply build_middle_accepted; [by rewrite <-EB|by rewrite <-EA].
Qed.

End built.

(** * What the desktop shows *)

Definition dom_ids (rows : list TimelineItem) : list string := dom_id <$> rows.
Definition dom_indexes (index : RenderIndex) (rows : list TimelineItem) : Prop :=
  forall id k, index !! id = Some k <-> exists x, rows !! k = Some x /\ dom_id x = id.
(** The desktop shows [rows], and finds each by the id of its message. *)
Definition renders (store : IndexedTimelineItems) (rows : list TimelineItem) : Prop :=
  store_items store = rows /\ dom_indexes (itemIndexById store) rows.
(** No message has rows of two identities among [rows]. *)
Definition one_row_each (rows : list TimelineItem) : Prop :=
  forall x y, x ∈ rows -> y ∈ rows -> dom_id x = dom_id y -> render_id x = render_id y.

Lemma shows_unique s1 s2 rows : renders s1 rows -> renders s2 rows -> s1 = s2.
Proof.
  destruct s1 as [i1 m1], s2 as [i2 m2]. intros [E1 H1] [E2 H2]. cbn in *. subst. f_equal.
  apply map_eq. intros id. apply option_eq. intros k. by rewrite (H1 id k), (H2 id k).
Qed.
Lemma dom_unique all rows :
  one_row_each all -> rows ⊆ all -> unique_rows rows -> NoDup (dom_ids rows).
Proof.
  intros Ho Hs Hu. apply NoDup_alt. intros i j id Hi Hj. unfold dom_ids in *.
  rewrite list_lookup_fmap, fmap_Some in Hi, Hj. destruct Hi as (x & Hi & ->), Hj as (y & Hj & E).
  apply (NoDup_lookup (ids rows) _ _ (render_id x)); [done|..]; unfold ids; rewrite list_lookup_fmap, ?Hi, ?Hj; [done|].
  cbn. f_equal. symmetry. apply Ho; [by apply Hs, list_elem_of_lookup; exists i|by apply Hs, list_elem_of_lookup; exists j|done].
Qed.
Lemma dom_indexes_in index rows id k : dom_indexes index rows -> index !! id = Some k -> id ∈ dom_ids rows.
Proof.
  intros Hd (x & Hx & <-)%(Hd _ _). apply list_elem_of_fmap. exists x. split; [done|].
  by eapply list_elem_of_lookup_2.
Qed.

Lemma indexed_shows rows : NoDup (dom_ids rows) -> renders (indexedTimelineItems rows) rows.
Proof.
  induction rows as [|item rows IH] using rev_ind; intros Hu.
  { split; [done|]. intros id k. split; [done|]. by intros (x & Hx & _). }
  unfold dom_ids in Hu. rewrite fmap_app in Hu. apply NoDup_app in Hu as (Hu & Hd & _).
  destruct (IH Hu) as [E Hi]. unfold indexedTimelineItems in *. rewrite foldl_app. cbn [foldl].
  set (store := foldl _ _ rows) in *.
  assert (dom_id item ∉ dom_ids rows) as Hn by (intros Hin; by apply (Hd _ Hin), list_elem_of_singleton).
  destruct (itemIndexById store !! dom_id item) eqn:El; [by apply (dom_indexes_in _ _ _ _ Hi) in El|].
  split; cbn; rewrite E; [done|]. intros id k. rewrite lookup_insert. case_decide as Hid.
  - split.
    + intros [= <-]. exists item. split; [|done]. by rewrite lookup_app_r, Nat.sub_diag.
    + intros (x & [Hx|[Hk Hx]]%lookup_app_Some & Ex).
      * exfalso. apply Hn. rewrite Hid, <-Ex. apply list_elem_of_fmap. exists x.
        split; [done|]. by eapply list_elem_of_lookup_2.
      * apply lookup_lt_Some in Hx. cbn in Hx. f_equal. lia.
  - rewrite (Hi id k). split.
    + intros (x & Hx & Ex). exists x. split; [by apply lookup_app_l_Some|done].
    + intros (x & [Hx|[Hk Hx]]%lookup_app_Some & Ex); [by exists x|].
      destruct (k - length rows) as [|]; by simplify_eq/=.
Qed.

Lemma reindex_lookup start rows (index : RenderIndex) id k :
  NoDup (dom_ids rows) ->
  (foldl (fun m (e : nat * TimelineItem) => <[dom_id e.2 := start + e.1]> m) index (imap pair rows)
    : RenderIndex) !! id = Some k
  <-> (exists j x, rows !! j = Some x /\ dom_id x = id /\ k = start + j)
    \/ ((id ∉ dom_ids rows) /\ index !! id = Some k).
Proof.
  induction rows as [|item rows IH] using rev_ind; intros Hu.
  { cbn. split; [right; split; [by apply not_elem_of_nil|done]|]. intros [(j & x & Hx & _)|[_ H]]; [done|exact H]. }
  unfold dom_ids in *. rewrite fmap_app in *. apply NoDup_app in Hu as (Hu & Hd & _). specialize (IH Hu).
  rewrite imap_app, foldl_app. cbn [imap foldl]. unfold compose. cbn [fst snd]. rewrite Nat.add_0_r.
  rewrite lookup_insert. case_decide as Hid.
  - subst id. split.
    + intros [= <-]. left. exists (length rows), item. split; [by rewrite lookup_app_r, Nat.sub_diag|done].
    + intros [(j & x & [Hx|[Hj Hx]]%lookup_app_Some & Ex & ->)|[Hn _]].
      * exfalso. apply (Hd (dom_id item)); [|by apply list_elem_of_singleton].
        rewrite <-Ex. apply list_elem_of_fmap. exists x. split; [done|]. by eapply list_elem_of_lookup_2.
      * apply lookup_lt_Some in Hx. cbn in Hx. f_equal. lia.
      * exfalso. apply Hn, elem_of_app. right. by apply list_elem_of_singleton.
  - rewrite IH. split.
    + intros [(j & x & Hx & Ex & ->)|[Hn H]].
      * left. exists j, x. split; [by apply lookup_app_l_Some|done].
      * right. split; [|done]. rewrite elem_of_app. csimpl. rewrite list_elem_of_singleton. intros [?|?]; by subst.
    + intros [(j & x & [Hx|[Hj Hx]]%lookup_app_Some & Ex & ->)|[Hn H]].
      * left. by exists j, x.
      * destruct (j - length rows); by simplify_eq/=.
      * right. split; [|done]. intros Hin. apply Hn, elem_of_app. by left.
Qed.
Lemma reindex_indexes rows index start :
  NoDup (dom_ids rows) ->
  (forall k x, k < start -> rows !! k = Some x -> index !! dom_id x = Some k) ->
  (forall id k, index !! id = Some k -> id ∈ dom_ids rows) ->
  dom_indexes (reindexItemsFrom rows index start) rows.
Proof.
  intros Hu Hlow Hin id k. unfold reindexItemsFrom. rewrite reindex_lookup.
  2: { unfold dom_ids. rewrite fmap_drop. eapply sublist_NoDup; [exact Hu|]. apply sublist_drop. }
  split.
  - intros [(j & x & Hx & Ex & ->)|[Hn H]].
    + rewrite lookup_drop in Hx. by exists x.
    + apply Hin in H as Hid. apply list_elem_of_fmap in Hid as (x & -> & [j Hj]%list_elem_of_lookup).
      destruct (decide (start <= j)).
      * exfalso. apply Hn, list_elem_of_fmap. exists x. split; [done|]. apply list_elem_of_lookup.
        exists (j - start). rewrite lookup_drop. by replace (start + (j - start)) with j by lia.
      * rewrite (Hlow j x) in H by (done || lia). simplify_eq. by exists x.
  - intros (x & Hx & <-). destruct (decide (start <= k)).
    + left. exists (k - start), x. rewrite lookup_drop. replace (start + (k - start)) with k by lia. done.
    + right. split; [|by apply Hlow; [lia|]]. intros (y & Ey & [j Hj]%list_elem_of_lookup)%list_elem_of_fmap.
      rewrite lookup_drop in Hj.
      pose proof (NoDup_lookup (dom_ids rows) k (start + j) (dom_id x) Hu) as H. unfold dom_ids in H.
      rewrite !list_lookup_fmap, Hx, Hj in H. cbn in H. rewrite Ey in H. specialize (H eq_refl eq_refl). lia.
Qed.

(** The rows an update carries. *)
Definition diff_items (diff : TimelineDiff) : list TimelineItem :=
  match diff with
  | PushFront item | PushBack item | Insert _ item | SetAt _ item => [item]
  | Reset reset_items => reset_items
  | Remove _ | Truncate _ | Clear => []
  end.
Definition carried (diffs : list TimelineDiff) : list TimelineItem := diffs ≫= diff_items.

Lemma dom_new all items item :
  one_row_each all -> item :: items ⊆ all -> is_row items item = false -> dom_id item ∉ dom_ids items.
Proof.
  intros Ho Hs Hn%is_row_false (x & E & Hx)%list_elem_of_fmap. apply Hn, list_elem_of_fmap. exists x.
  split; [|done]. by apply Ho; [apply Hs; left|apply Hs; right|].
Qed.

Lemma insert_shows store items item i :
  renders store items -> dom_id item ∉ dom_ids items -> NoDup (dom_ids (vec_insert i item items)) ->
  i <= length items -> renders (insertTimelineItem store item i) (vec_insert i item items).
Proof.
  intros [E Hi] Hn Hu Hle. unfold insertTimelineItem. rewrite E.
  destruct (itemIndexById store !! dom_id item) eqn:El; [by apply (dom_indexes_in _ _ _ _ Hi) in El|].
  rewrite Nat.min_l by done. split; [done|]. cbn. apply reindex_indexes; [done|..].
  - intros k x Hk Hx. apply (Hi _ _). exists x. split; [|done]. unfold vec_insert in Hx.
    rewrite lookup_app_l in Hx by (rewrite length_take; lia). by apply lookup_take_Some in Hx as [Hx _].
  - intros id k Hid%(dom_indexes_in _ _ _ _ Hi). unfold dom_ids in *.
    rewrite vec_insert_perm. csimpl. by right.
Qed.

Lemma remove_shows store items i :
  renders store items -> NoDup (dom_ids items) ->
  renders (removeTimelineItemAt store i) (delete i items).
Proof.
  intros [E Hi] Hu. unfold removeTimelineItemAt. rewrite E.
  destruct (items !! i) as [removed|] eqn:Er.
  2: { rewrite delete_take_drop, take_ge, drop_ge, app_nil_r by (apply lookup_ge_None_1 in Er; lia). by split. }
  split; [done|]. cbn.
  assert (NoDup (dom_ids (delete i items))) as Hu'.
  { unfold dom_ids. rewrite list_fmap_delete. by eapply sublist_NoDup, sublist_delete. }
  apply reindex_indexes; [done|..].
  - intros k x Hk Hx. rewrite list_lookup_delete_lt in Hx by lia. rewrite lookup_delete_ne.
    + apply (Hi _ _). by exists x.
    + intros Ed. pose proof (NoDup_lookup (dom_ids items) k i (dom_id x) Hu) as H. unfold dom_ids in H.
      rewrite !list_lookup_fmap, Hx, Er in H. cbn in H. rewrite Ed in H. specialize (H eq_refl eq_refl). lia.
  - intros id k [Hne H]%lookup_delete_Some. apply (Hi _ _) in H as (x & Hx & Ex). subst id.
    assert (k <> i) as Hki by (intros ->; congruence).
    apply list_elem_of_fmap. exists x. split; [done|]. apply list_elem_of_lookup.
    destruct (decide (k < i)); [exists k; by rewrite list_lookup_delete_lt|].
    exists (k - 1). rewrite list_lookup_delete_ge by lia. by replace (S (k - 1)) with k by lia.
Qed.

(** A set that lands where it says. *)
Lemma set_shows all store items index item :
  one_row_each all -> item :: items ⊆ all -> unique_rows items -> renders store items ->
  index < length items -> set_target items index item = index ->
  renders (setTimelineItem store index item) (<[index := item]> items).
Proof.
  intros Ho Hs Hu [E Hi] Hlt Ht. unfold setTimelineItem. rewrite E.
  destruct (lookup_lt_is_Some_2 _ _ Hlt) as [previous Hp]. rewrite Hp.
  assert (forall k x, items !! k = Some x -> dom_id x = dom_id item -> k = index) as Hat.
  { intros k x Hx Ex. rewrite <-Ht. unfold set_target.
    rewrite (proj2 (position_id items (render_id item) k Hu)); [done|]. exists x. split; [done|].
    apply Ho; [apply Hs; right; by eapply list_elem_of_lookup_2|apply Hs; by left|done]. }
  assert (renders {| store_items := <[index := item]> items;
      itemIndexById := <[dom_id item := index]>
        (if String.eqb (dom_id previous) (dom_id item) then itemIndexById store
         else delete (dom_id previous) (itemIndexById store)) |} (<[index := item]> items)) as H.
  { split; [done|]. cbn. intros id k. rewrite lookup_insert. case_decide as Hid.
    - subst id. split.
      + intros [= <-]. exists item. split; [|done]. by apply list_lookup_insert_eq.
      + intros (x & [(-> & _)|[Hk Hx]]%list_lookup_insert_Some & Ex); [done|]. f_equal. symmetry. by eapply Hat.
    - transitivity (itemIndexById store !! id = Some k /\ k <> index).
      + destruct (String.eqb_spec (dom_id previous) (dom_id item)) as [Ep|Ep].
        * split; [|tauto]. intros H. split; [done|]. intros ->. apply (Hi _ _) in H as (x & Hx & Ex). congruence.
        * rewrite lookup_delete_Some. split.
          -- intros [Hd H]. split; [done|]. intros ->. apply (Hi _ _) in H as (x & Hx & Ex). congruence.
          -- intros [H Hk]. split; [|done]. intros Hd. apply Hk. subst id.
             rewrite (proj2 (Hi (dom_id previous) index)) in H by (by exists previous). congruence.
      + rewrite (Hi id k). split.
        * intros [(x & Hx & Ex) Hk]. exists x. split; [|done]. by rewrite list_lookup_insert_ne.
        * intros (x & [(-> & -> & _)|[Hk Hx]]%list_lookup_insert_Some & Ex); [done|]. by split; [exists x|]. }
  destruct (itemIndexById store !! dom_id item) as [existing|] eqn:El; [|exact H].
  apply (Hi _ _) in El as (x & Hx & Ex). rewrite (Hat _ _ Hx Ex), Nat.eqb_refl. exact H.
Qed.

Lemma check_diff_shows all store items diff items' :
  one_row_each all -> items ⊆ all -> diff_items diff ⊆ all -> unique_rows items -> renders store items ->
  check_diff true items diff = Some items' -> items' ⊆ all /\ renders (applyDiffForRender store diff) items'.
Proof.
  intros Ho Hs Hd Hu Hsh H. pose proof (check_diff_unique true items diff items' Hu H) as Hu'.
  assert (items' ⊆ all) as Hs'.
  { revert H Hd. destruct diff as [item|item|index item|index item|index|len| |reset]; cbn [check_diff diff_items].
    - destruct (is_row _ _); [done|]. intros [= <-]. set_solver.
    - destruct (is_row _ _); [done|]. intros [= <-]. set_solver.
    - destruct (_ || _); [done|]. intros [= <-] Hd x. rewrite vec_insert_perm. set_solver.
    - destruct (_ || _); [done|]. intros [= <-] Hd x [k Hk]%list_elem_of_lookup. unfold set_row in Hk.
      apply list_lookup_insert_Some in Hk as [(_ & -> & _)|[_ Hk]]; [set_solver|].
      by apply Hs, list_elem_of_lookup; exists k.
    - destruct (_ <=? _); [done|]. intros [= <-] Hd x Hx. by eapply Hs, sublist_subseteq, Hx; apply sublist_delete.
    - destruct (_ <? _); [done|]. intros [= <-] Hd x Hx. by eapply Hs, sublist_subseteq, Hx; apply sublist_take.
    - intros [= <-] _ x Hx%elem_of_nil. done.
    - done. }
  split; [done|]. pose proof (dom_unique _ _ Ho Hs Hu) as Hdom. pose proof (dom_unique _ _ Ho Hs' Hu') as Hdom'.
  pose proof (proj1 Hsh) as Hst.
  destruct diff as [item|item|index item|index item|index|len| |reset]; cbn [check_diff diff_items applyDiffForRender] in *.
  - destruct (is_row items item) eqn:E; [done|]. injection H as <-.
    apply (insert_shows store items item 0); [done| |done|lia]. eapply dom_new; [done|set_solver|done].
  - destruct (is_row items item) eqn:E; [done|]. injection H as <-.
    assert (items ++ [item] = vec_insert (length items) item items) as Ev
      by (unfold vec_insert; by rewrite take_ge, drop_ge by done).
    rewrite Hst, Ev in *. apply insert_shows; [done| |done|lia]. eapply dom_new; [done|set_solver|done].
  - destruct (Nat.ltb_spec (length items) index); [done|]. destruct (is_row items item) eqn:E; [done|].
    injection H as <-. apply insert_shows; [done| |done|lia]. eapply dom_new; [done|set_solver|done].
  - destruct (Nat.leb_spec (length items) index); [done|]. cbn [orb andb] in H.
    destruct (Nat.eqb_spec (set_target items index item) index) as [Ht|]; [|done]. injection H as <-.
    unfold set_row. rewrite Ht. eapply set_shows; [done|set_solver|done..].
  - destruct (_ <=? _); [done|]. injection H as <-. by apply remove_shows.
  - destruct (_ <? _); [done|]. injection H as <-. rewrite Hst. by apply indexed_shows.
  - injection H as <-. split; [done|]. intros id k. split; [done|]. by intros (x & Hx & _).
  - done.
Qed.

Lemma check_diffs_shows all store items diffs items' :
  one_row_each all -> items ⊆ all -> carried diffs ⊆ all -> unique_rows items -> renders store items ->
  check_diffs true items diffs = Some items' -> renders (applyDiffsForRender store diffs) items'.
Proof.
  intros Ho. revert store items. induction diffs as [|diff diffs IH]; intros store items Hs Hd Hu Hsh H.
  { cbn in H. by simplify_eq. }
  cbn [check_diffs] in H. destruct (check_diff true items diff) as [mid|] eqn:E; [|done].
  cbn [mbind option_bind] in H. unfold carried in Hd. rewrite bind_cons in Hd.
  destruct (check_diff_shows all store items diff mid Ho Hs) as [Hm Hsh']; [set_solver|done..|].
  apply (IH _ mid); [done|set_solver|by eapply check_diff_unique|done..].
Qed.

Lemma carried_app d1 d2 : carried (d1 ++ d2) = carried d1 ++ carried d2.
Proof. apply bind_app. Qed.
Lemma carried_removes i n : carried (removes i n) = [].
Proof. induction n as [|n IH]; [done|]. exact IH. Qed.
Lemma carried_inserts start l : carried (inserts start l) = l.
Proof.
  revert start. induction l as [|x l IH]; intros start; [done|]. rewrite inserts_cons.
  unfold carried in *. rewrite bind_cons, IH. done.
Qed.
Lemma carried_sets start l k : carried (sets start l k) ⊆ k.
Proof.
  revert start k. induction l as [|x l IH]; intros start [|y k];
    try (intros z Hz; change (z ∈ ([] : list TimelineItem)) in Hz; by apply elem_of_nil in Hz).
  rewrite sets_cons, carried_app.
  specialize (IH (S start) k). case_bool_decide; unfold carried in *; cbn; set_solver.
Qed.
Lemma sub_slice {A} i n (l : list A) : take n (drop i l) ⊆ l.
Proof. intros x Hx. by eapply sublist_subseteq, Hx; etrans; [apply sublist_take|apply sublist_drop]. Qed.
Lemma carried_middle n before after : carried (build_middle n before after) ⊆ after.
Proof.
  unfold build_middle. destruct (negb _).
  { rewrite carried_app, carried_removes, carried_inserts. done. }
  destruct (forallb _ _); [apply carried_sets|].
  destruct (longest_run before after) as [[b a] k].
  rewrite !carried_app, !carried_removes, !carried_inserts. cbn [app].
  pose proof (carried_sets (n + a) (take k (drop b before)) (take k (drop a after))) as H1.
  pose proof (sub_slice a k after) as H2. pose proof (sub_slice 0 a after) as H3.
  pose proof (sub_slice (a + k) (length after) after) as H4. rewrite drop_0 in H3.
  rewrite (take_ge (drop (a + k) after)) in H4 by (rewrite length_drop; lia). set_solver.
Qed.
Lemma built_carries before after diffs :
  build_display_projection_diffs before after = Some diffs -> carried diffs ⊆ after.
Proof.
  unfold build_display_projection_diffs. destruct (negb _); [done|].
  destruct (is_none (head after)).
  { intros [= <-] z. destruct (is_none (head before)); intros Hz; by apply elem_of_nil in Hz. }
  set (n := common_len before after). set (suffix := common_len _ _). intros [= <-].
  etrans; [apply carried_middle|apply sub_slice].
Qed.

(** The published updates take the desktop from one display to the next. *)
Lemma published_shows before after translation_ambiguous :
  unique_rows before -> unique_rows after -> one_row_each (before ++ after) ->
  let diffs := (finalize_display_projection_diffs before after translation_ambiguous).1 in
  applyDiffsForRender (indexedTimelineItems before) diffs = indexedTimelineItems after
  /\ store_items (indexedTimelineItems after) = after.
Proof.
  intros Hb Ha Ho diffs. set (all := before ++ after) in *.
  assert (before ⊆ all /\ after ⊆ all) as [Sb Sa] by (unfold all; set_solver).
  pose proof (indexed_shows before (dom_unique _ _ Ho Sb Hb)) as Wb.
  pose proof (indexed_shows after (dom_unique _ _ Ho Sa Ha)) as Wa.
  split; [|apply Wa]. apply (shows_unique _ _ after); [|done].
  unfold diffs, finalize_display_projection_diffs. cbn [fst].
  destruct (built_diffs_accepted true before after Hb Ha) as (built & E & Hc).
  destruct (built_diffs_accepted false before after Hb Ha) as (built' & E' & Hc').
  rewrite E in E'. injection E' as <-. rewrite E. cbn [is_some_and from_option default].
  rewrite (proj2 (validate_spec before built after Hb) Hc'). destruct translation_ambiguous; cbn [orb negb]; [done|].
  apply (check_diffs_shows all (indexedTimelineItems before) before); [done|done| |done|exact Wb|exact Hc].
  etrans; [by eapply built_carries|done].
Qed.


(** C11: a display without repeated rows is published faithfully: from one such display to the
    next, whatever moved, the updates that are built are incremental — the reset fallback is used
    exactly when the translation of the SDK's batch was ambiguous.  The desktop, which keeps one row
    per message where the displays keep one per row id, goes from showing exactly the one display to
    showing exactly the other, its index of rows included, as long as no message has rows of two
    identities in the two displays ([one_row_each]): a message that becomes the root of a displayed
    thread is such a message, see [moved_root_is_lost_on_the_desktop]. *)
Theorem published_updates_show_the_display before after translation_ambiguous :
  unique_rows before -> unique_rows after ->
  let '(diffs, used_reset_fallback) :=
    finalize_display_projection_diffs before after translation_ambiguous in
  used_reset_fallback = translation_ambiguous
  /\ (one_row_each (before ++ after) ->
      applyDiffsForRender (indexedTimelineItems before) diffs = indexedTimelineItems after
      /\ store_items (indexedTimelineItems before) = before
      /\ store_items (indexedTimelineItems after) = after).
Proof.
  intros Hb Ha. pose proof (published_shows before after translation_ambiguous Hb Ha) as Hp.
  unfold finalize_display_projection_diffs in *.
  destruct (built_diffs_accepted false before after Hb Ha) as (diffs & E & Hc). rewrite E in *.
  cbn [is_some_and from_option fst default] in *.
  rewrite (proj2 (validate_spec before diffs after Hb) Hc) in *. rewrite orb_false_r in *.
  split; [done|]. intros Ho. destruct (Hp Ho) as [H1 H2]. split; [exact H1|]. split; [|exact H2].
  assert (before ⊆ before ++ after) as Sb by set_solver.
  apply (indexed_shows before (dom_unique _ _ Ho Sb Hb)).
Qed.

(** * A display that changes *)

Definition demo_item (id : TimelineItemId) (root : option string) (hidden : bool) : TimelineItem :=
  {| item_id := id; sender := None; sender_label := None; sender_avatar := None; body := None;
     notice_i18n := None; message_kind := Message_Text; spoiler_spans := []; timestamp_ms := None;
     in_reply_to_event_id := None; formatted := None; reply_quote := None; thread_root := root;
     thread_summary := None; media := None; link_previews := None; link_ranges := [];
     mentioned_user_ids := []; mentions_room := false; reactions := []; can_react := false;
     is_redacted := false; is_hidden := hidden; can_redact := false; is_edited := false;
     can_edit := false; unable_to_decrypt := None; request_state := None;
     actions := {| can_copy := false; can_forward := false; can_reply := false; can_pin := false;
                   can_permalink := false; can_view_source := false; action_permalink := None;
                   editable_document := None |};
     send_state := None; display_metadata := None |}.
Definition demo_row (id : string) : TimelineItem := demo_item (Event id) None false.
Definition demo_before : list TimelineItem :=
  demo_row <$> ["$a"; "$b"; "$c"; "$d"; "$e"; "$f"]%string.
(** [$d] is replaced, [$b] moves behind it, and the count is the same. *)
Definition demo_after : list TimelineItem :=
  demo_row <$> ["$a"; "$c"; "$x"; "$b"; "$e"; "$f"]%string.

Example published_updates_show_the_display_witness :
  finalize_display_projection_diffs demo_before demo_after false
    = ([Remove 3; Remove 1; Insert 2 (demo_row "$x"); Insert 3 (demo_row "$b")], false)
  /\ one_row_each (demo_before ++ demo_after)
  /\ (let '(diffs, used_reset_fallback) := finalize_display_projection_diffs demo_before demo_after false in
      used_reset_fallback = false
      /\ (one_row_each (demo_before ++ demo_after) ->
          applyDiffsForRender (indexedTimelineItems demo_before) diffs = indexedTimelineItems demo_after
          /\ store_items (indexedTimelineItems demo_before) = demo_before
          /\ store_items (indexedTimelineItems demo_after) = demo_after)).
Proof.
  split; [vm_compute; reflexivity|]. split.
  - intros x y Hx Hy. unfold demo_before, demo_after in Hx, Hy. rewrite <-fmap_app in Hx, Hy.
    apply list_elem_of_fmap in Hx as (i & -> & _), Hy as (j & -> & _). exact id.
  - apply (published_updates_show_the_display demo_before demo_after false); unfold unique_rows;
      apply (bool_decide_eq_true_1 (NoDup _)); vm_compute; reflexivity.
Defined.

(** A message that becomes the root of a displayed thread gets a row id of its own while its item
    keeps its id.  The positional sets are safe by row id, and the checker, which goes by row id
    too, accepts them; the desktop finds the message in the row behind, and the second set then
    overwrites it: the root of the thread is not shown. *)
Definition demo_root : TimelineItem :=
  (demo_row "$a") <| display_metadata := Some
    {| row_id := "thread-root:$a"; display_kind := Display_ThreadRoot; content_event_id := Some "$a"%string;
       activity_event_id := Some "$r"%string; display_timestamp_ms := None |} |>.
Lemma moved_root_is_lost_on_the_desktop :
  let before := [demo_row "$x"; demo_row "$a"] in
  let after := [demo_root; demo_row "$y"] in
  let '(diffs, used_reset_fallback) := finalize_display_projection_diffs before after false in
  diffs = [SetAt 0 demo_root; SetAt 1 (demo_row "$y")] /\ used_reset_fallback = false
  /\ unique_rows before /\ unique_rows after
  /\ store_items (applyDiffsForRender (indexedTimelineItems before) diffs)
     = [demo_row "$x"; demo_row "$y"].
Proof.
  split; [vm_compute; reflexivity|]. split; [vm_compute; reflexivity|].
  split; [apply (bool_decide_eq_true_1 (NoDup _)); vm_compute; reflexivity|].
  split; [apply (bool_decide_eq_true_1 (NoDup _)); vm_compute; reflexivity|].
  vm_compute; reflexivity.
Qed.
