(* ===== verification/DisplayRowsProps.v ===== *)
(** The rows of a room's display ([DisplayRows.v]): every message has one row, wherever its
    thread root is shown. *)

From stdpp Require Import base list strings gmap.
From Stdlib Require Import ZArith Lia.
From S2P Require Import Prelude Text TimelineItem DisplayRope DisplayRows DisplayDiffs DisplayDiffsProps.
Local Open Scope string_scope.
Local Open Scope list_scope.
Local Open Scope nat_scope.

(** * Row identities *)

Definition row_identity (item : TimelineItem) : string := timeline_item_render_id (decorate_event_item item).
Definition root_row (root_id : string) : string := "thread-root:" +:+ root_id.

Lemma root_display_identity root fallback activity timestamp :
  timeline_item_render_id (root_display_item root fallback activity timestamp) = root_row (root_event_id root).
Proof. done. Qed.
Lemma root_placeholder_identity root :
  timeline_item_render_id (root_placeholder_item root) = root_row (root_event_id root).
Proof. done. Qed.
Lemma row_identity_plain item :
  display_metadata item = None -> row_identity item = timeline_item_render_id item.
Proof.
  intros H. unfold row_identity, decorate_event_item, timeline_item_render_id. rewrite H.
  by destruct (item_id item).
Qed.
#[export] Instance root_row_inj : Inj (=) (=) root_row.
Proof. intros x y H. by simplify_eq/=. Qed.

(** A slot whose own row could be taken for a root's. *)
Definition no_disguise (slot : DisplayProjectionSlot) : Prop :=
  forall root_id, item_id (slot_item slot) <> Event (root_row root_id).

Lemma row_identity_not_root slot root_id :
  no_disguise slot -> row_identity (slot_item slot) <> root_row root_id.
Proof.
  unfold row_identity, decorate_event_item. intros Hd.
  destruct (item_id (slot_item slot)) as [id| |] eqn:E; cbn; [|done..].
  intros ->. by apply (Hd root_id).
Qed.

Section rows.
Context (state : DisplayProjectionState) (context : DisplayProjectionContext).
Let roots := thread_roots context.
Let root_ids := root_event_id <$> roots.

Lemma roots_by_id_Some id root : roots_by_id context !! id = Some root -> root_event_id root = id /\ id ∈ root_ids.
Proof.
  unfold roots_by_id. subst root_ids. fold roots.
  induction roots as [|r l IH] using rev_ind; [done|].
  rewrite foldl_app, fmap_app, elem_of_app. cbn [foldl]. rewrite lookup_insert_Some.
  intros [[<- <-]|[_ H]]; [split; [done|]; right; cbn; set_solver|]. destruct (IH H). auto.
Qed.
Lemma roots_by_id_None id : roots_by_id context !! id = None <-> id ∉ root_ids.
Proof.
  unfold roots_by_id. subst root_ids. fold roots.
  induction roots as [|r l IH] using rev_ind; [cbn; set_solver|].
  rewrite foldl_app, fmap_app, elem_of_app. cbn [foldl]. rewrite lookup_insert_None, IH. cbn. set_solver.
Qed.

(** * Where a root's activity is *)

Lemma activity_slots_Some root_id index item :
  activity_slots state context !! root_id = Some (index, item) ->
  exists slot, slot ∈ slots state /\ canonical_index slot = index
    /\ thread_root (slot_item slot) = Some root_id /\ exists id, item_id (slot_item slot) = Event id.
Proof.
  unfold activity_slots. induction (slots state) as [|slot l IH] using rev_ind; [done|].
  rewrite foldl_app. cbn [foldl]. unfold add_activity at 1.
  set (before := foldl _ _ _) in *. intros H.
  assert (before !! root_id = Some (index, item)
    \/ ((index, item) = (canonical_index slot, slot_item slot) /\ thread_root (slot_item slot) = Some root_id
        /\ exists id, item_id (slot_item slot) = Event id)) as [Hb|(E & Hr & Hi)].
  { revert H. destruct (item_id (slot_item slot)) as [id| |] eqn:Ei; [|by auto..].
    destruct (thread_root (slot_item slot)) as [r|] eqn:Er; [|by auto].
    set (mid := match before !! r with Some _ => before | None => _ end).
    assert (forall x, mid !! root_id = Some x ->
      before !! root_id = Some x \/ (x = (canonical_index slot, slot_item slot) /\ r = root_id)) as Hmid.
    { intros x. unfold mid. destruct (before !! r); [by auto|]. rewrite lookup_insert_Some. naive_solver. }
    destruct (roots_by_id context !! r); [|intros [?|[? ->]]%Hmid; [by auto|right; by eauto]].
    destruct (String.eqb _ _); [|intros [?|[? ->]]%Hmid; [by auto|right; by eauto]].
    rewrite lookup_insert_Some. intros [[-> <-]|[_ [?|[? ->]]%Hmid]]; [right; by eauto|by auto|right; by eauto]. }
  - destruct (IH Hb) as (s & Hs & ?). exists s. split; [apply elem_of_app; by left|done].
  - simplify_eq. exists slot. split; [apply elem_of_app; right; set_solver|done].
Qed.

(** * What is placed at an index *)

(** The identity of the row a slot's index may carry. *)
Definition expected_identity (slot : DisplayProjectionSlot) : string :=
  match thread_root (slot_item slot) with
  | Some root_id => root_row root_id
  | None =>
      if bool_decide (slot_event_id slot ∈ root_ids) then root_row (slot_event_id slot)
      else row_identity (slot_item slot)
  end.

Context (undisguised : Forall no_disguise (slots state)).

Lemma expected_root slot root_id :
  slot ∈ slots state -> expected_identity slot = root_row root_id ->
  thread_root (slot_item slot) = Some root_id
  \/ (thread_root (slot_item slot) = None /\ slot_event_id slot = root_id /\ root_id ∈ root_ids).
Proof.
  intros Hs. unfold expected_identity. destruct (thread_root _) as [r|]; [intros ->%(inj root_row); by left|].
  case_bool_decide; [intros <-%(inj root_row); by right|]. intros E. exfalso.
  rewrite Forall_forall in undisguised. exact (row_identity_not_root slot root_id (undisguised slot Hs) E).
Qed.

Record placed (acc : RootPlacement) : Prop := {
  placed_expected : forall index item, root_at_index acc !! index = Some item ->
    exists slot, slot ∈ slots state /\ canonical_index slot = index
      /\ timeline_item_render_id item = expected_identity slot;
  placed_scheduled : forall index item root_id, root_at_index acc !! index = Some item ->
    timeline_item_render_id item = root_row root_id -> root_id ∈ scheduled_roots acc }.

(** A placement on the index of [slot] with its expected identity. *)
Lemma placed_insert acc slot item suppressed scheduled :
  placed acc -> slot ∈ slots state -> timeline_item_render_id item = expected_identity slot ->
  scheduled_roots acc ⊆ scheduled ->
  (forall root_id, expected_identity slot = root_row root_id -> root_id ∈ scheduled) ->
  placed {| root_at_index := <[canonical_index slot := item]> (root_at_index acc);
            suppressed := suppressed; scheduled_roots := scheduled |}.
Proof.
  intros [He Hsch] Hs Hid Hsub Hroot. split; cbn [root_at_index scheduled_roots].
  - intros index x [[<- <-]|[_ Hx]]%lookup_insert_Some; [by exists slot|by apply He].
  - intros index x r [[<- <-]|[_ Hx]]%lookup_insert_Some E; [apply Hroot; congruence|].
    apply Hsub. by eapply Hsch.
Qed.

(** The index and the item [place_slot] gives to a known root. *)
Lemma place_slot_placed acc slot :
  slot ∈ slots state -> placed acc -> placed (place_slot state context acc slot).
Proof.
  intros Hs Ha. unfold place_slot. destruct (thread_root (slot_item slot)) eqn:Er; [done|].
  destruct (roots_by_id context !! slot_event_id slot) as [root|] eqn:Eb.
  - apply roots_by_id_Some in Eb as [Eid Hin].
    assert (expected_identity slot = root_row (slot_event_id slot)) as Hx.
    { unfold expected_identity. by rewrite Er, bool_decide_eq_true_2. }
    assert (forall slot' item sup, slot' ∈ slots state -> timeline_item_render_id item = root_row (slot_event_id slot) ->
      expected_identity slot' = root_row (slot_event_id slot) ->
      placed {| root_at_index := <[canonical_index slot' := item]> (root_at_index acc);
                suppressed := sup; scheduled_roots := {[slot_event_id slot]} ∪ scheduled_roots acc |}) as Hput.
    { intros slot' item sup Hs' Hid E. apply placed_insert; [done..|congruence|set_solver|].
      rewrite E. intros r ->%(inj root_row). set_solver. }
    destruct (thread_root_order context).
    + apply Hput; [done|by rewrite root_display_identity, Eid|done].
    + destruct (activity_slots state context !! slot_event_id slot) as [[index item]|] eqn:Ea.
      * destruct (activity_slots_Some _ _ _ Ea) as (s & Hs' & <- & Hr & _).
        apply Hput; [done|by rewrite root_display_identity, Eid|]. unfold expected_identity. by rewrite Hr.
      * apply Hput; [done|by rewrite root_display_identity, Eid|done].
  - apply roots_by_id_None in Eb. fold roots root_ids in Eb.
    assert (expected_identity slot = row_identity (slot_item slot)) as Hx.
    { unfold expected_identity. by rewrite Er, bool_decide_eq_false_2. }
    apply placed_insert; [done..|]. rewrite Hx. intros r E. exfalso.
    rewrite Forall_forall in undisguised. exact (row_identity_not_root slot r (undisguised slot Hs) E).
Qed.
Lemma place_retained_root_placed acc root :
  placed acc -> placed (place_retained_root state context acc root).
Proof.
  intros Ha. unfold place_retained_root. destruct (thread_root_order context); [done|].
  destruct (activity_slots state context !! root_event_id root) as [[index item]|] eqn:Ea; [|done].
  destruct (activity_slots_Some _ _ _ Ea) as (s & Hs & <- & Hr & _).
  assert (expected_identity s = root_row (root_event_id root)) as Hx by (unfold expected_identity; by rewrite Hr).
  case_bool_decide; [done|]. apply placed_insert; [done..| |set_solver|].
  - rewrite Hx. by destruct (root_item root).
  - rewrite Hx. intros r ->%(inj root_row). set_solver.
Qed.

Lemma placement_placed : placed (placement state context).
Proof.
  unfold placement.
  assert (forall run acc, run ⊆ slots state -> placed acc -> placed (foldl (place_slot state context) acc run)) as H1.
  { induction run as [|s run IH]; intros acc Hsub Ha; [done|]. cbn [foldl]. apply IH; [set_solver|].
    apply place_slot_placed; [set_solver|done]. }
  assert (forall l acc, placed acc -> placed (foldl (place_retained_root state context) acc l)) as H2.
  { induction l as [|r l IH]; intros acc Ha; [done|]. cbn [foldl]. by apply IH, place_retained_root_placed. }
  apply H2, H1; [done|]. split; cbn; intros *; by rewrite lookup_empty.
Qed.

(** * What is emitted *)

Record emitted (scheduled : gset string) (acc : RowEmission) : Prop := {
  emitted_unique : unique_rows (projected acc);
  emitted_ids : forall id, id ∈ rendered_ids acc <-> id ∈ ids (projected acc);
  emitted_roots : forall root_id, root_row root_id ∈ ids (projected acc) -> root_id ∈ scheduled }.

Lemma ids_snoc l item : ids (l ++ [item]) = ids l ++ [timeline_item_render_id item].
Proof. unfold ids. by rewrite fmap_app. Qed.
Lemma unique_snoc l item :
  unique_rows l -> timeline_item_render_id item ∉ ids l -> unique_rows (l ++ [item]).
Proof.
  unfold unique_rows. rewrite ids_snoc. intros Hu Hn. apply NoDup_app. split; [done|].
  split; [|apply NoDup_singleton]. intros x Hx ->%list_elem_of_singleton. done.
Qed.

Lemma emit_row_emitted scheduled acc item :
  emitted scheduled acc ->
  (forall root_id, timeline_item_render_id item = root_row root_id -> root_id ∈ scheduled) ->
  emitted scheduled (emit_row acc item)
  /\ timeline_item_render_id item ∈ ids (projected (emit_row acc item))
  /\ ids (projected acc) ⊆ ids (projected (emit_row acc item))
  /\ remaining_rows (emit_row acc item) = remaining_rows acc.
Proof.
  intros [Hu Hi Hr] Hroot. unfold emit_row. case_bool_decide as Hin.
  - split; [done|]. split; [by apply Hi|done].
  - rewrite Hi in Hin. cbn [projected remaining_rows].
    split; [|rewrite ids_snoc; split; [set_solver|split; [set_solver|done]]].
    split; cbn [projected rendered_ids].
    + by apply unique_snoc.
    + intros id. rewrite ids_snoc, elem_of_union, Hi, elem_of_app. set_solver.
    + intros r. rewrite ids_snoc, elem_of_app. intros [?|E%list_elem_of_singleton]; [by apply Hr|].
      by apply Hroot.
Qed.

Lemma emit_slot_emitted scheduled sup acc slot :
  emitted scheduled acc -> slot ∈ slots state ->
  (forall index item root_id, remaining_rows acc !! index = Some item ->
     timeline_item_render_id item = root_row root_id -> root_id ∈ scheduled) ->
  let after := emit_slot state sup acc slot in
  emitted scheduled after /\ ids (projected acc) ⊆ ids (projected after)
  /\ remaining_rows after ⊆ remaining_rows acc
  /\ (forall index, index <> canonical_index slot -> remaining_rows after !! index = remaining_rows acc !! index)
  /\ (forall item, is_suppressed_transaction state (slot_item slot) = false ->
        remaining_rows acc !! canonical_index slot = Some item ->
        timeline_item_render_id item ∈ ids (projected after)).
Proof.
  intros He Hs Hroot. unfold emit_slot. destruct (is_suppressed_transaction _ _); [done|].
  destruct (remaining_rows acc !! canonical_index slot) as [item|] eqn:El; cbn zeta.
  - set (acc' := {| remaining_rows := _ |}).
    destruct (emit_row_emitted scheduled acc' item) as (H1 & H2 & H3 & H4);
      [by destruct He|intros r; by apply (Hroot _ _ r El)|].
    split; [done|]. split; [done|]. rewrite H4. unfold acc'. cbn [remaining_rows].
    split; [apply delete_subseteq|]. split; [intros; by rewrite lookup_delete_ne by congruence|].
    by intros ? _ [= <-].
  - case_bool_decide; [done|]. destruct (thread_root (slot_item slot)); [done|].
    destruct (emit_row_emitted scheduled acc (decorate_event_item (slot_item slot))) as (H1 & H2 & H3 & H4).
    + done.
    + intros r E. exfalso. rewrite Forall_forall in undisguised.
      exact (row_identity_not_root slot r (undisguised slot Hs) E).
    + by rewrite H4.
Qed.

Lemma emit_slots_emitted scheduled sup run acc :
  emitted scheduled acc -> run ⊆ slots state -> NoDup (canonical_index <$> run) ->
  (forall index item root_id, remaining_rows acc !! index = Some item ->
     timeline_item_render_id item = root_row root_id -> root_id ∈ scheduled) ->
  let after := foldl (emit_slot state sup) acc run in
  emitted scheduled after /\ ids (projected acc) ⊆ ids (projected after)
  /\ (forall slot item, slot ∈ run -> is_suppressed_transaction state (slot_item slot) = false ->
        remaining_rows acc !! canonical_index slot = Some item ->
        timeline_item_render_id item ∈ ids (projected after)).
Proof.
  revert acc. induction run as [|s run IH]; intros acc He Hsub Hnd Hroot; cbn [foldl].
  { split; [done|]. split; [done|]. by intros ? ? ?%elem_of_nil. }
  rewrite fmap_cons, NoDup_cons in Hnd. destruct Hnd as [Hn Hnd].
  destruct (emit_slot_emitted scheduled sup acc s He ltac:(set_solver) Hroot) as (H1 & H2 & H3 & H4 & H5).
  destruct (IH (emit_slot state sup acc s) H1 ltac:(set_solver) Hnd) as (I1 & I2 & I3).
  { intros index item r Hx. apply (Hroot index). by eapply lookup_weaken. }
  split; [done|]. split; [by etrans|]. intros slot item [->|Hin]%elem_of_cons Hsup Hx.
  - apply I2. by apply H5.
  - apply (I3 slot); [done..|]. rewrite H4; [done|]. intros E. apply Hn. rewrite <-E.
    by apply list_elem_of_fmap_2.
Qed.

(** * Roots off the window and pending sends *)

Lemma emit_off_window_emitted scheduled acc l :
  NoDup (root_event_id <$> l) -> unique_rows (projected acc) ->
  (forall root_id, root_row root_id ∈ ids (projected acc) ->
     root_id ∈ scheduled \/ root_id ∉ (root_event_id <$> l)) ->
  let after := foldl (emit_off_window_root state context scheduled) acc l in
  unique_rows (projected after) /\ ids (projected acc) ⊆ ids (projected after).
Proof.
  revert acc. induction l as [|root l IH]; intros acc Hnd Hu Hroot; cbn [foldl]; [done|].
  rewrite fmap_cons, NoDup_cons in Hnd. destruct Hnd as [Hn Hnd].
  assert (forall after, unique_rows (projected after) -> ids (projected acc) ⊆ ids (projected after) ->
    (forall root_id, root_row root_id ∈ ids (projected after) ->
       root_row root_id ∈ ids (projected acc) \/ root_id = root_event_id root) ->
    let final := foldl (emit_off_window_root state context scheduled) after l in
    unique_rows (projected final) /\ ids (projected acc) ⊆ ids (projected final)) as Hnext.
  { intros after Hu' Hsub Hnew. destruct (IH after Hnd Hu') as [I1 I2]; [|split; [done|by etrans]].
    intros r Hr. destruct (Hnew r Hr) as [Hr'| ->]; [|by right].
    destruct (Hroot r Hr') as [?|Hno]; [by left|right]. rewrite fmap_cons, not_elem_of_cons in Hno. tauto. }
  assert (root_event_id root ∉ scheduled -> root_row (root_event_id root) ∉ ids (projected acc)) as Hfree.
  { intros Hs Hin. destruct (Hroot _ Hin) as [?|Hno]; [done|]. apply Hno. rewrite fmap_cons. set_solver. }
  unfold emit_off_window_root at 2 4. case_bool_decide as Hs; [apply Hnext; by auto|].
  destruct (root_item root) as [item|].
  - destruct (belongs_to_window _ _); cbn [negb]; [|apply Hnext; by auto].
    destruct (match thread_root_order context with RootEvent => _ | LatestReply => _ end) as [a t].
    set (row := root_display_item root item a t).
    assert (timeline_item_render_id row = root_row (root_event_id root)) as Hid by done.
    case_bool_decide; [apply Hnext; by auto|]. apply Hnext; cbn [projected].
    + apply unique_vec_insert; [done|]. by apply Hfree.
    + unfold ids. rewrite vec_insert_perm. set_solver.
    + intros r. unfold ids. rewrite vec_insert_perm, fmap_cons, elem_of_cons, Hid.
      intros [E%(inj root_row)|?]; auto.
  - destruct (belongs_to_window _ _); [|apply Hnext; by auto]. apply Hnext; cbn [projected].
    + apply unique_snoc; [done|]. by apply Hfree.
    + rewrite ids_snoc. set_solver.
    + intros r. rewrite ids_snoc, elem_of_app, list_elem_of_singleton, root_placeholder_identity.
      intros [?|E%(inj root_row)]; auto.
Qed.

Lemma append_pending_unique skip rendered items :
  unique_rows rendered -> Forall (fun item => display_metadata item = None) items ->
  unique_rows (append_pending skip rendered items) /\ ids rendered ⊆ ids (append_pending skip rendered items).
Proof.
  intros Hu Hp. unfold append_pending. set (acc := (_, rendered)).
  assert (unique_rows acc.2 /\ (forall id, id ∈ acc.1 <-> id ∈ ids acc.2) /\ ids rendered ⊆ ids acc.2) as Hacc.
  { split; [done|]. split; [|done]. intros id. cbn. by rewrite elem_of_list_to_set. }
  clearbody acc. revert acc Hacc. induction Hp as [|item items Hi _ IH]; intros acc (H1 & H2 & H3); [done|].
  cbn [foldl]. apply IH. destruct (skip item || _) eqn:E; [done|].
  apply orb_false_iff in E as [_ Hn%bool_decide_eq_false_1]. rewrite H2 in Hn. cbn [fst snd].
  assert (timeline_item_render_id (decorate_event_item item) = timeline_item_render_id item) as Hid
    by (by apply row_identity_plain).
  rewrite ids_snoc, Hid. split; [apply unique_snoc; by rewrite ?Hid|].
  split; [|set_solver]. intros id. rewrite elem_of_union, H2, elem_of_app. set_solver.
Qed.

(** * Every message finds a place *)

(** An index with a row of the slot's identity, whose own slot is emitted. *)
Definition has_place (slot : DisplayProjectionSlot) (rows : gmap nat TimelineItem) : Prop :=
  exists slot', slot' ∈ slots state /\ is_Some (rows !! canonical_index slot')
    /\ expected_identity slot' = expected_identity slot
    /\ (slot' = slot \/ is_suppressed_transaction state (slot_item slot') = false).

Lemma has_place_insert slot rows index item : has_place slot rows -> has_place slot (<[index := item]> rows).
Proof.
  intros (s & Hs & Hsome & ?). exists s. split; [done|]. split; [|done]. apply lookup_insert_is_Some. 
  destruct (decide (index = canonical_index s)); auto.
Qed.
Lemma place_slot_keeps slot acc s :
  has_place slot (root_at_index acc) -> has_place slot (root_at_index (place_slot state context acc s)).
Proof.
  intros H. unfold place_slot. destruct (thread_root _); [done|].
  destruct (roots_by_id _ !! _); [|by apply has_place_insert].
  destruct (match thread_root_order context with RootEvent => _ | LatestReply => _ end) as [[? ?] ?].
  by apply has_place_insert.
Qed.
Lemma place_retained_root_keeps slot acc root :
  has_place slot (root_at_index acc) ->
  has_place slot (root_at_index (place_retained_root state context acc root)).
Proof.
  intros H. unfold place_retained_root. destruct (thread_root_order context); [done|].
  destruct (activity_slots _ _ !! _) as [[i it]|]; [|done]. case_bool_decide; [done|].
  by apply has_place_insert.
Qed.

Lemma place_slot_gives slot acc :
  slot ∈ slots state -> thread_root (slot_item slot) = None ->
  has_place slot (root_at_index (place_slot state context acc slot)).
Proof.
  intros Hs Hr. unfold place_slot. rewrite Hr.
  assert (forall rows item, has_place slot (<[canonical_index slot := item]> rows)) as Hown.
  { intros rows item. exists slot. split; [done|]. rewrite lookup_insert_eq. split; [done|]. split; [done|by left]. }
  destruct (roots_by_id context !! slot_event_id slot) as [root|] eqn:Eb; [|apply Hown].
  apply roots_by_id_Some in Eb as [_ Hin]. destruct (thread_root_order context); [apply Hown|].
  destruct (activity_slots state context !! slot_event_id slot) as [[index item]|] eqn:Ea; [|apply Hown].
  destruct (activity_slots_Some _ _ _ Ea) as (s & Hs' & <- & Hr' & id & Ei).
  exists s. split; [done|]. cbn [root_at_index]. rewrite lookup_insert_eq. split; [done|].
  split; [|right; unfold is_suppressed_transaction; by rewrite Ei].
  unfold expected_identity. by rewrite Hr', Hr, bool_decide_eq_true_2.
Qed.

Lemma placement_gives slot :
  slot ∈ slots state -> thread_root (slot_item slot) = None ->
  has_place slot (root_at_index (placement state context)).
Proof.
  intros Hs Hr. unfold placement.
  assert (forall l acc, has_place slot (root_at_index acc) ->
    has_place slot (root_at_index (foldl (place_retained_root state context) acc l))) as H2.
  { induction l as [|r l IH]; intros acc Ha; [done|]. cbn [foldl]. by apply IH, place_retained_root_keeps. }
  assert (forall l acc, has_place slot (root_at_index acc) ->
    has_place slot (root_at_index (foldl (place_slot state context) acc l))) as H1.
  { induction l as [|s l IH]; intros acc Ha; [done|]. cbn [foldl]. by apply IH, place_slot_keeps. }
  apply H2. generalize {| root_at_index := ∅; suppressed := ∅; scheduled_roots := ∅ |}.
  assert (forall run acc, slot ∈ run ->
    has_place slot (root_at_index (foldl (place_slot state context) acc run))) as H3; [|by intros; apply H3].
  induction run as [|s run IH]; intros acc; [by intros ?%elem_of_nil|].
  intros [->|Hin]%elem_of_cons; cbn [foldl]; [|by apply IH]. by apply H1, place_slot_gives.
Qed.

Lemma project_roots_ok :
  NoDup root_ids -> NoDup (canonical_index <$> slots state) ->
  Forall (fun item => display_metadata item = None) (pending_items state) ->
  unique_rows (project_roots state context)
  /\ (forall slot, slot ∈ slots state -> thread_root (slot_item slot) = None ->
        is_suppressed_transaction state (slot_item slot) = false ->
        expected_identity slot ∈ ids (project_roots state context)).
Proof.
  intros Hnd Hidx Hpend. unfold project_roots. pose proof placement_placed as [Hex Hsch].
  set (p := placement state context) in *.
  set (acc0 := {| remaining_rows := root_at_index p; rendered_ids := ∅; projected := [] |}).
  destruct (emit_slots_emitted (scheduled_roots p) (suppressed p) (slots state) acc0) as ([E1 _ E2] & _ & E3);
    [|done|done|done|].
  { split; cbn; [constructor|set_solver|set_solver]. }
  set (acc1 := foldl (emit_slot _ _) _ _) in *.
  destruct (emit_off_window_emitted (scheduled_roots p) acc1 (thread_roots context)) as [F1 F2]; [done|done|by left; apply E2|].
  set (acc2 := foldl (emit_off_window_root _ _ _) _ _) in *.
  destruct (append_pending_unique (is_suppressed_transaction state) (projected acc2) (pending_items state) F1 Hpend) as [G1 G2].
  split; [done|]. intros slot Hs Hr Hsup. apply G2, F2.
  destruct (placement_gives slot Hs Hr) as (s & Hs' & [item Hitem] & <- & Hor). fold p in Hitem.
  destruct (Hex _ _ Hitem) as (s'' & Hs'' & Ei & Hid).
  assert (s'' = s) as ->.
  { apply list_elem_of_lookup_1 in Hs' as [i Hi]. apply list_elem_of_lookup_1 in Hs'' as [j Hj].
    assert (i = j) as ->; [|congruence].
    eapply NoDup_lookup; [exact Hidx| |]; rewrite list_lookup_fmap; [by rewrite Hi|rewrite Hj; cbn; congruence]. }
  rewrite <-Hid. eapply (E3 s); [done| |exact Hitem]. destruct Hor as [->|?]; done.
Qed.

End rows.

(** A row stands for a message, or for the thread the message opens. *)
Definition message_identity (context : DisplayProjectionContext) (item : TimelineItem) : string :=
  let own := match item_id item with Event event_id => event_id | _ => "" end in
  if bool_decide (own ∈ root_event_id <$> thread_roots context) then root_row own else row_identity item.

(** C10: a room shows every message once: whichever way threads are ordered, no two rows have one
    identity, and each slot that is not a thread reply — a suppressed echo apart — has its row,
    under its own identity or under its thread's, wherever that row was moved to. *)
Theorem every_message_has_one_row state context :
  project_thread_roots context = true ->
  Forall no_disguise (slots state) -> NoDup (canonical_index <$> slots state) ->
  NoDup (root_event_id <$> thread_roots context) ->
  Forall (fun item => display_metadata item = None) (pending_items state) ->
  unique_rows (project_display_items state context)
  /\ forall slot, slot ∈ slots state -> thread_root (slot_item slot) = None ->
       is_suppressed_transaction state (slot_item slot) = false ->
       message_identity context (slot_item slot) ∈ ids (project_display_items state context).
Proof.
  intros Hroots Hd Hidx Hnd Hpend. unfold project_display_items. rewrite Hroots.
  destruct (project_roots_ok state context Hd Hnd Hidx Hpend) as [H1 H2]. split; [done|].
  intros slot Hs Hr Hsup. specialize (H2 slot Hs Hr Hsup). unfold expected_identity in H2. by rewrite Hr in H2.
Qed.

(** A message [$a] that opened a thread, a message, a reply and a pending send; the thread's row
    stands at the reply. *)
Definition demo_thread_slots : list DisplayProjectionSlot :=
  imap (fun index item => {| canonical_index := index; slot_item := item; gap_before := GapEnds_default |})
    [demo_row "$a"; demo_row "$b"; demo_item (Event "$r") (Some "$a") false].
Definition demo_thread_state : DisplayProjectionState :=
  {| slots := demo_thread_slots; window_revision := 0; canonical_len := 3;
     gap_after := GapEnds_default; display_items := [];
     pending_items := [demo_item (Transaction "t1") None false]; suppressed_transaction_ids := ∅ |}.
Definition demo_thread_root : ThreadRootDisplayData :=
  {| root_event_id := "$a"; root_item := None; root_activity_event_id := "$r";
     root_activity_timestamp_ms := None; root_unread := 0; root_pending := false;
     root_failure_kind := None;
     root_aggregate := {| agg_reply_count := 1; agg_latest_event_id := Some "$r"; agg_latest_sender := None;
       agg_latest_sender_label := None; agg_latest_body_preview := None; agg_latest_timestamp_ms := None |} |}.
Definition demo_thread_context : DisplayProjectionContext :=
  with_thread_roots
    (for_timeline true
       {| display_window_revision := None; first_visible_event_id := None; last_visible_event_id := None;
          visible_gap_ids := []; at_bottom := true; bottom_arrival := Arrival_User |})
    LatestReply [demo_thread_root].

Example every_message_has_one_row_witness :
  ids (project_display_items demo_thread_state demo_thread_context) = ["$b"; "thread-root:$a"; "txn:t1"]
  /\ unique_rows (project_display_items demo_thread_state demo_thread_context)
  /\ forall slot, slot ∈ slots demo_thread_state -> thread_root (slot_item slot) = None ->
       is_suppressed_transaction demo_thread_state (slot_item slot) = false ->
       message_identity demo_thread_context (slot_item slot)
         ∈ ids (project_display_items demo_thread_state demo_thread_context).
Proof.
  split; [vm_compute; reflexivity|].
  apply (every_message_has_one_row demo_thread_state demo_thread_context).
  - reflexivity.
  - repeat constructor; intros r; discriminate.
  - apply (bool_decide_eq_true_1 (NoDup _)); vm_compute; reflexivity.
  - apply (bool_decide_eq_true_1 (NoDup _)); vm_compute; reflexivity.
  - repeat constructor.
Defined.
