(* ===== verification/BoundedWindow.v ===== *)
(** Finite cached-history movement ([koushi-core/src/timeline/display_projection/bounded_window.rs])
    and the other operations of the projection state that choose or refresh its slots
    ([display_projection.rs]).

    A loop over a range is a fold over its indices; a [break] whose condition stays true is a
    guard that leaves the accumulator alone from then on.  Indices into the canonical list are in
    range where the code indexes without a check.  [hash_order] is the order in which a
    [HashSet] of indices is iterated, which may differ from one window revision to the next. *)

From stdpp Require Import base list strings gmap sorting.
From Stdlib Require Import ZArith Lia.
From S2P Require Import Prelude Text TimelineItem DisplayRope DisplayRows DisplayDiffs.
Local Open Scope string_scope.
Local Open Scope list_scope.
Local Open Scope nat_scope.

Definition WINDOW_SLOTS : nat := 240.
Definition PAGE_ROWS : nat := 60.
Definition EDGE_SLOTS : nat := 24.

Inductive PaginationDirection := Backward | Forward.

(** The event a row stands for. *)
Definition event_id (item : TimelineItem) : option string :=
  match display_metadata item with
  | Some display => activity_event_id display
  | None => match item_id item with Event event_id => Some event_id | _ => None end
  end.
Definition has_event_id (activity : string) (item : TimelineItem) : bool :=
  bool_decide (event_id item = Some activity).

Definition rebuild_window_items (state : DisplayProjectionState) (context : DisplayProjectionContext) :
    DisplayProjectionState :=
  state <| display_items := project_display_items state context |>.
Definition bump_revision (state : DisplayProjectionState) : DisplayProjectionState :=
  state <| window_revision ::= fun r => u64_saturating_add r 1 |>.

(** The updates from the display before an operation to the display after it. *)
Definition display_diffs (before after : DisplayProjectionState) : list TimelineDiff :=
  (finalize_display_projection_diffs (display_items before) (display_items after) false).1.

(** * The live window *)

(** The scan from the newest item back: slots (newest first), rows, thread roots met. *)
Fixpoint live_window_scan (canonical : list TimelineItem) (indices : list nat)
    (found : list nat) (rows : nat) (roots : gset string) : list nat :=
  match indices with
  | [] => found
  | index :: indices =>
      match canonical !! index with
      | None => found
      | Some item =>
          let terminal := index + 1 =? length canonical in
          let row := item_occupies_display_row item in
          let '(reply, roots) :=
            match thread_root item with
            | Some root =>
                if (size roots <? ROOM_REPLAY_INITIAL_ITEMS_MAX - 1)
                   && negb (bool_decide (root ∈ roots))
                then (true, {[root]} ∪ roots) else (false, roots)
            | None => (false, roots)
            end in
          let found := if terminal || row || reply then found ++ [index] else found in
          let rows := if row then rows + 1 else rows in
          if (rows =? ROOM_REPLAY_INITIAL_ITEMS_MAX) || (length found =? WINDOW_SLOTS) then found
          else live_window_scan canonical indices found rows roots
      end
  end.

Definition live_window_indices (canonical : list TimelineItem) : list nat :=
  rev (live_window_scan canonical (rev (seq 0 (length canonical))) [] 0 ∅).

Definition return_to_live_window (state : DisplayProjectionState) (canonical : list TimelineItem)
    (context : DisplayProjectionContext) : DisplayProjectionState * list TimelineDiff :=
  let before := state in
  let state := state <| canonical_len := length canonical |>
                     <| slots := bare_slots canonical (live_window_indices canonical) |> in
  let state := rebuild_window_items (bump_revision (refresh_gap_ends state canonical)) context in
  (state, display_diffs before state).

(** * What the viewport observes *)

Definition visible_items (items : list TimelineItem) : list TimelineItem :=
  List.filter (fun item => negb (is_hidden item)) items.

Definition window_metadata (state : DisplayProjectionState) (canonical_len : nat) :
    TimelineDisplayWindow :=
  let event_ids := omap event_id (visible_items (display_items state)) in
  let first := head event_ids in
  {| revision := window_revision state; first_event_id := first;
     last_event_id := opt_or (last (tail event_ids)) first;
     window_at_live_end := window_reaches_live_end state canonical_len |}.

Definition observation_is_current (state : DisplayProjectionState)
    (observation : TimelineViewportObservation) : bool :=
  bool_decide (display_window_revision observation = Some (window_revision state))
  && is_some_and
       (first ← first_visible_event_id observation;
        last ← last_visible_event_id observation;
        first ← position (has_event_id first) (display_items state);
        last ← position (has_event_id last) (display_items state);
        Some (first <=? last))
       (fun b => b).

Definition slot_for_row (state : DisplayProjectionState) (row : TimelineItem) : option nat :=
  opt_or
    (activity ← event_id row;
     position (fun slot => has_event_id activity (slot_item slot)) (slots state))
    (position (fun slot => bool_decide (item_id (slot_item slot) = item_id row)) (slots state)).

(** The slot of an observed event; a row without one borrows its neighbour's. *)
Definition observed_endpoint (state : DisplayProjectionState) (activity : string)
    (prefer_next : bool) : option nat :=
  position ← position (fun row => negb (is_hidden row) && has_event_id activity row)
    (display_items state);
  row ← display_items state !! position;
  match slot_for_row state row with
  | Some index => Some index
  | None =>
      let next :=
        head (omap (slot_for_row state) (visible_items (drop (position + 1) (display_items state)))) in
      let previous :=
        head (omap (slot_for_row state) (visible_items (rev (take position (display_items state))))) in
      if prefer_next then
        opt_or (opt_or next previous) (if is_none (head (slots state)) then None else Some 0)
      else
        opt_or (opt_or previous next)
          (if is_none (head (slots state)) then None else Some (length (slots state) - 1))
  end.

Definition observed_slots (state : DisplayProjectionState)
    (observation : TimelineViewportObservation) : option (nat * nat) :=
  first ← first_visible_event_id observation;
  first ← observed_endpoint state first true;
  last ← last_visible_event_id observation;
  last ← observed_endpoint state last false;
  let '(first, last) := (first `min` last, first `max` last) in
  if last - first <? WINDOW_SLOTS then Some (first, last) else None.

(** * Trimming *)

Definition trim_start (state : DisplayProjectionState) (observation : TimelineViewportObservation)
    (keep_older : bool) : nat :=
  let len := length (slots state) in
  match observed_slots state observation with
  | Some (first, last) =>
      if keep_older then last + 1 - WINDOW_SLOTS else first `min` (len - WINDOW_SLOTS)
  | None => if keep_older then 0 else len - WINDOW_SLOTS
  end.
Definition trim_slots (state : DisplayProjectionState) (context : DisplayProjectionContext)
    (keep_older : bool) : DisplayProjectionState :=
  if length (slots state) <=? WINDOW_SLOTS then state
  else
    let start := trim_start state (viewport context) keep_older in
    state <| slots ::= fun s => drop start (take (start + WINDOW_SLOTS) s) |>.

Definition bound_after_batch (state : DisplayProjectionState) (canonical : list TimelineItem)
    (context : DisplayProjectionContext) : DisplayProjectionState :=
  if negb (room_window context) || (length (slots state) <=? WINDOW_SLOTS) then state
  else
    let state := trim_slots state context (negb (at_bottom (viewport context))) in
    let state := refresh_edge_gap_ends state canonical in
    let state := state <| window_revision ::= fun r => u64_wrapping_add r 1 |> in
    rebuild_window_items state context.

(** * Paging *)

(** The page scan: indices in scan order, rows, reply roots, the last index scanned. *)
Fixpoint page_scan (canonical : list TimelineItem) (indices : list nat) (page : list nat)
    (rows : nat) (reply_roots : gset string) (terminal : option nat) : list nat * option nat :=
  match indices with
  | [] => (page, terminal)
  | index :: indices =>
      match canonical !! index with
      | None => (page, terminal)
      | Some item =>
          let terminal := Some index in
          let '(page, reply_roots) :=
            match thread_root item with
            | Some root =>
                if (size reply_roots <? PAGE_ROWS) && negb (bool_decide (root ∈ reply_roots))
                then (page ++ [index], {[root]} ∪ reply_roots) else (page, reply_roots)
            | None => (page, reply_roots)
            end in
          if item_occupies_display_row item then
            let page := page ++ [index] in
            let rows := rows + 1 in
            if rows =? PAGE_ROWS then (page, terminal)
            else page_scan canonical indices page rows reply_roots terminal
          else page_scan canonical indices page rows reply_roots terminal
      end
  end.

Definition page_indices (canonical : list TimelineItem) (indices : list nat) : list nat :=
  let '(page, terminal) := page_scan canonical indices [] 0 ∅ None in
  match terminal with
  | Some index => if existsb (Nat.eqb index) page then page else page ++ [index]
  | None => page
  end.

Definition reconcile_bounded_window (state : DisplayProjectionState) (canonical : list TimelineItem)
    (observation : TimelineViewportObservation) (context : DisplayProjectionContext)
    (direction : option PaginationDirection) : DisplayProjectionState * list TimelineDiff :=
  if negb (room_window context)
     || negb (bool_decide (display_window_revision observation = Some (window_revision state)))
  then (state, [])
  else
    match observed_slots state observation, direction with
    | None, _ | _, Some Forward => (state, [])
    | Some (first, last_observed), _ =>
        let backwards := match direction with Some _ => first <? EDGE_SLOTS | None => false end in
        let forwards :=
          match direction with
          | None => length (slots state) <=? last_observed + EDGE_SLOTS
          | Some _ => false
          end in
        let start := match head (slots state) with Some slot => canonical_index slot | None => 0 end in
        let end_ := match last (slots state) with Some slot => canonical_index slot + 1 | None => 0 end in
        if (negb backwards && negb forwards)
           || (backwards && (start =? 0)) || (forwards && (length canonical <=? end_))
        then (state, [])
        else
          let before := state in
          let state := state <| canonical_len := length canonical |> in
          let page :=
            page_indices canonical
              (if backwards then rev (seq 0 start) else seq end_ (length canonical - end_)) in
          if is_none (head page) then (state, [])
          else
            let state :=
              if backwards
              then state <| slots ::= fun s => bare_slots canonical (rev page) ++ s |>
              else state <| slots ::= fun s => s ++ bare_slots canonical page |> in
            let state := trim_slots state (context <| viewport := observation |>) backwards in
            let state := refresh_gap_ends state canonical in
            let state := state <| window_revision ::= fun r => u64_wrapping_add r 1 |> in
            let state := rebuild_window_items state context in
            (state, display_diffs before state)
    end.

(** * Replacing the canonical snapshot *)

Section reset.
Context (hash_order : Z -> gset nat -> list nat).

Definition same_positions (state : DisplayProjectionState) (canonical : list TimelineItem) : bool :=
  negb (is_none (head (slots state))) && (length (slots state) <=? WINDOW_SLOTS)
  && forallb (fun slot =>
       is_some_and (canonical !! canonical_index slot)
         (fun item => bool_decide (item_id item = item_id (slot_item slot)))) (slots state).
(** The canonical span of the slots. *)
Definition slot_span (state : DisplayProjectionState) : list nat :=
  match head (slots state), last (slots state) with
  | Some first, Some last =>
      seq (canonical_index first) (canonical_index last + 1 - canonical_index first)
  | _, _ => []
  end.
Definition newly_visible_owner (state : DisplayProjectionState) (canonical : list TimelineItem) : bool :=
  existsb (fun index =>
      is_some_and (canonical !! index) item_occupies_display_row
      && negb (existsb (fun slot => canonical_index slot =? index) (slots state)))
    (slot_span state).

(** Add an index while the window has room. *)
Definition add_index (index : nat) (indices : gset nat) : gset nat :=
  if size indices =? WINDOW_SLOTS then indices else {[index]} ∪ indices.
Definition add_rows (canonical : list TimelineItem) (indices : gset nat) (range : list nat) : gset nat :=
  foldl (fun indices index =>
      if is_some_and (canonical !! index) item_occupies_display_row
      then add_index index indices else indices) indices range.
Definition root_at (canonical : list TimelineItem) (index : nat) : option string :=
  item ← canonical !! index; thread_root item.
Definition add_replies (canonical : list TimelineItem) (indices : gset nat) (retained : list nat) :
    gset nat :=
  foldl (fun indices index =>
      match root_at canonical index with Some _ => add_index index indices | None => indices end)
    indices retained.

(** Keep the latest reply of each thread met between the endpoints. *)
Definition follow_reply (canonical : list TimelineItem) (first last : nat)
    (acc : gset nat * gmap string nat) (index : nat) : gset nat * gmap string nat :=
  match root_at canonical index with
  | None => acc
  | Some root =>
      let '(indices, latest_replies) := acc in
      let indices :=
        match latest_replies !! root with
        | Some previous =>
            if negb (previous =? first) && negb (previous =? last)
               && negb (previous + 1 =? length canonical)
            then indices ∖ {[previous]} else indices
        | None => indices
        end in
      if size indices <? WINDOW_SLOTS
      then ({[index]} ∪ indices, <[root := index]> latest_replies)
      else (indices, latest_replies)
  end.

Definition look_behind (canonical : list TimelineItem) (acc : gset nat * nat) (index : nat) :
    gset nat * nat :=
  let '(indices, lookbehind) := acc in
  if (size indices =? WINDOW_SLOTS) || (lookbehind =? PAGE_ROWS) then acc
  else if is_some_and (canonical !! index) item_occupies_display_row
          && negb (bool_decide (index ∈ indices))
  then ({[index]} ∪ indices, lookbehind + 1) else acc.

(** The indices of the window around the observed endpoints [first <= last]. *)
Definition window_around (revision : Z) (canonical : list TimelineItem) (retained : list nat)
    (first last_index : nat) : list nat :=
  let span := seq first (last_index + 1 - first) in
  let indices : gset nat := {[last_index]} ∪ {[first]} in
  let indices :=
    match last retained with
    | Some index => if index + 1 =? length canonical then {[index]} ∪ indices else indices
    | None => indices
    end in
  let indices := add_rows canonical indices span in
  let indices := add_replies canonical indices retained in
  let latest_replies : gmap string nat :=
    foldl (fun replies index =>
        match root_at canonical index with Some root => <[root := index]> replies | None => replies end)
      ∅ (hash_order revision indices) in
  let '(indices, _) := foldl (follow_reply canonical first last_index) (indices, latest_replies) span in
  let '(indices, _) := foldl (look_behind canonical) (indices, 0) (rev (seq 0 first)) in
  let indices := add_rows canonical indices (seq (last_index + 1) (length canonical - (last_index + 1))) in
  merge_sort le (elements indices).

(** Where an observed event is in the replacement: itself, or the row that stood for it. *)
Definition replacement_endpoint (state : DisplayProjectionState) (canonical : list TimelineItem)
    (activity : option string) : option nat :=
  activity ← activity;
  opt_or (position (has_event_id activity) canonical)
    (row ← find_first (has_event_id activity) (display_items state);
     position (fun item => bool_decide (item_id item = item_id row)) canonical).

(** The canonical indices of items that have a slot now. *)
Definition retained_indices (state : DisplayProjectionState) (canonical : list TimelineItem) : list nat :=
  take WINDOW_SLOTS
    (omap (fun entry : nat * TimelineItem =>
        if existsb (fun slot => bool_decide (item_id (slot_item slot) = item_id entry.2)) (slots state)
        then Some entry.1 else None) (imap pair canonical)).

Definition reset_bounded (state : DisplayProjectionState) (canonical : list TimelineItem)
    (context : DisplayProjectionContext) : DisplayProjectionState :=
  let state := state <| canonical_len := length canonical |> in
  if at_bottom (viewport context) || is_none (head canonical)
  then (return_to_live_window state canonical context).1
  else if same_positions state canonical && negb (newly_visible_owner state canonical) then
    let refreshed :=
      (fun slot => slot <| slot_item ::= fun item => default item (canonical !! canonical_index slot) |>)
        <$> slots state in
    let state := state <| slots := refreshed |> in
    rebuild_window_items (bump_revision (refresh_gap_ends state canonical)) context
  else
    let retained := retained_indices state canonical in
    let first := replacement_endpoint state canonical (first_visible_event_id (viewport context)) in
    let last := replacement_endpoint state canonical (last_visible_event_id (viewport context)) in
    match opt_or (opt_or first last) (head retained) with
    | None => (return_to_live_window state canonical context).1
    | Some anchor =>
        let first_index := default anchor first in
        let last_index := default anchor last in
        let indices :=
          window_around (window_revision state) canonical retained
            (first_index `min` last_index) (first_index `max` last_index) in
        let state := state <| slots := bare_slots canonical indices |> in
        rebuild_window_items (bump_revision (refresh_gap_ends state canonical)) context
    end.

End reset.

(** * A change of the visibility policy *)

(** The reply that owns each root and the other slots. *)
Definition slot_owners (state : DisplayProjectionState) (canonical : list TimelineItem) :
    gmap string nat * gset nat :=
  foldl (fun (acc : gmap string nat * gset nat) slot =>
      let index := canonical_index slot in
      if length canonical <=? index then acc
      else
        match root_at canonical index with
        | Some root => (<[root := index]> acc.1, acc.2)
        | None => (acc.1, {[index]} ∪ acc.2)
        end) (∅, ∅) (slots state).
(** Each known root is owned by its latest visible reply in the span. *)
Definition latest_owners (canonical : list TimelineItem) (replies : gmap string nat)
    (range : list nat) : gmap string nat :=
  foldl (fun (replies : gmap string nat) index =>
      match canonical !! index with
      | Some item =>
          match thread_root item with
          | Some root =>
              if is_some_and (replies !! root) (fun _ => true) && negb (is_hidden item)
              then <[root := index]> replies else replies
          | None => replies
          end
      | None => replies
      end) replies range.
Definition add_new_row (canonical : list TimelineItem) (cursor : option nat)
    (acc : gset nat * nat) (index : nat) : gset nat * nat :=
  let '(ordinary, new_rows) := acc in
  if 240 <=? new_rows then acc
  else if is_some_and (canonical !! index) item_occupies_display_row
          && negb (bool_decide (cursor = Some index)) && negb (bool_decide (index ∈ ordinary))
  then ({[index]} ∪ ordinary, new_rows + 1) else acc.
Definition slot_of_event (state : DisplayProjectionState) (id : option string) : option nat :=
  id ← id;
  canonical_index <$>
    find_first (fun slot => bool_decide (item_id (slot_item slot) = Event id)) (slots state).

(** The indices selected for the window. *)
Definition rehydrated_indices (state : DisplayProjectionState) (canonical : list TimelineItem)
    (context : DisplayProjectionContext) : list nat :=
  let '(range_start, range_end) := canonical_window_range state (length canonical) in
  let range :=
    List.filter (fun index => index <? length canonical) (seq range_start (range_end - range_start)) in
  let '(replies, ordinary) := slot_owners state canonical in
  let cursor :=
    if range_end =? 0 then None
    else if is_some_and (canonical !! (range_end - 1))
              (fun item => is_hidden item || negb (is_none (thread_root item)))
    then Some (range_end - 1) else None in
  let replies := latest_owners canonical replies range in
  let ordinary := match cursor with Some index => ordinary ∖ {[index]} | None => ordinary end in
  let owners := (map_to_list replies).*2 in
  let cursor_extra :=
    match cursor with
    | Some index => if existsb (Nat.eqb index) owners then 0 else 1
    | None => 0
    end in
  let row_budget := 240 - (size replies + cursor_extra) in
  let '(ordinary, _) := foldl (add_new_row canonical cursor) (ordinary, 0) range in
  let candidates := merge_sort le (elements ordinary) in
  let first := slot_of_event state (first_visible_event_id (viewport context)) in
  let last := slot_of_event state (last_visible_event_id (viewport context)) in
  let candidate_position (index : option nat) : option nat :=
    match index with
    | Some index => position (fun candidate => candidate =? index) candidates
    | None => None
    end in
  let first_pos := default 0 (candidate_position first) in
  let start := first_pos - (60 `min` (row_budget / 3)) in
  let start :=
    match candidate_position last with
    | Some last_pos =>
        if (first_pos <=? last_pos) && (last_pos - first_pos <? row_budget)
        then start `max` (last_pos + 1 - row_budget) else start
    | None => start
    end in
  let start := start `min` (length candidates - row_budget) in
  let selected : gset nat := list_to_set (take row_budget (drop start candidates)) in
  let selected := list_to_set owners ∪ selected in
  let selected := match cursor with Some index => {[index]} ∪ selected | None => selected end in
  take 240 (merge_sort le (elements selected)).

Definition rehydrate_bounded_visibility (state : DisplayProjectionState)
    (canonical : list TimelineItem) (context : DisplayProjectionContext) :
    DisplayProjectionState * list TimelineDiff :=
  let before := state in
  let indices := rehydrated_indices state canonical context in
  let state := state <| slots := bare_slots canonical indices |> in
  let state := (refresh_gap_ends state canonical) <| canonical_len := length canonical |> in
  let state := rebuild_window_items (bump_revision state) context in
  (state, display_diffs before state).

(** * Operations that keep the slots *)

Definition reproject (state : DisplayProjectionState) (context : DisplayProjectionContext) :
    DisplayProjectionState * list TimelineDiff :=
  let before := state in
  let state := rebuild_window_items state context in
  (state, display_diffs before state).

Definition rematerialize_window (state : DisplayProjectionState) (canonical_items : list TimelineItem)
    (window_start window_end : nat) (context : DisplayProjectionContext) :
    DisplayProjectionState * list TimelineDiff :=
  let before := state in
  let state := bump_revision state in
  let rebuilt := from_canonical_window canonical_items window_start window_end in
  let state := state <| slots := slots rebuilt |> <| gap_after := gap_after rebuilt |>
                     <| canonical_len := canonical_len rebuilt |> in
  let state := rebuild_window_items state context in
  (state, display_diffs before state).

(** [overlay] edits the pending items and says whether anything changed. *)
Definition overlay_pending_items (state : DisplayProjectionState)
    (overlay : list TimelineItem -> list TimelineItem * bool) (context : DisplayProjectionContext) :
    DisplayProjectionState * list TimelineDiff :=
  let '(items, changed) := overlay (pending_items state) in
  let state := state <| pending_items := items |> in
  if changed : bool then reproject state context else (state, []).

Definition set_pending_inputs (state : DisplayProjectionState) (pending : list TimelineItem)
    (suppressed : gset string) : DisplayProjectionState :=
  state <| pending_items := pending |> <| suppressed_transaction_ids := suppressed |>.

Definition is_transaction (transaction_id : string) (item : TimelineItem) : bool :=
  bool_decide (item_id item = Transaction transaction_id).
Definition update_send_state (state : DisplayProjectionState) (transaction_id : string)
    (new_state : TimelineSendState) (context : DisplayProjectionContext) :
    DisplayProjectionState * list TimelineDiff :=
  let stale slot :=
    is_transaction transaction_id (slot_item slot)
    && negb (bool_decide (send_state (slot_item slot) = Some new_state)) in
  let updated :=
    (fun slot => if stale slot
                 then slot <| slot_item ::= fun item => item <| send_state := Some new_state |> |>
                 else slot) <$> slots state in
  let changed := existsb stale (slots state) in
  let before := state in
  let state := state <| slots := updated |> in
  if changed then
    let state := rebuild_window_items state context in (state, display_diffs before state)
  else (state, []).

Definition replace_pending (state : DisplayProjectionState) (pending : list TimelineItem)
    (suppressed : gset string) (context : DisplayProjectionContext) :
    DisplayProjectionState * list TimelineDiff :=
  let before := state in
  let state := rebuild_window_items (set_pending_inputs state pending suppressed) context in
  (state, display_diffs before state).

(** Item revisions of the actor: the first slot of the canonical index takes the item. *)
Definition revise_slot (state : DisplayProjectionState) (diff : TimelineDiff) : DisplayProjectionState :=
  match diff with
  | SetAt index item =>
      state <| slots ::= update_first (fun slot => canonical_index slot =? index)
                           (fun slot => slot <| slot_item := item |>) |>
  | _ => state
  end.
Definition apply_non_sdk_item_set_diffs_to_display_items (state : DisplayProjectionState)
    (diffs : list TimelineDiff) (context : DisplayProjectionContext) :
    DisplayProjectionState * list TimelineDiff :=
  let before := state in
  let state := rebuild_window_items (foldl revise_slot state diffs) context in
  (state, display_diffs before state).
