(* ===== verification/DisplayBatch.v ===== *)
(** An SDK batch through the display ([koushi-core/src/timeline/display_projection.rs],
    [project_sdk_batch]): the canonical list, the display rope and the display follow one batch of
    positional updates together.

    The fuel-carrying parts of the rope make the functions partial here; [DisplayBatchProps.v]
    shows that they always give a result. *)

From stdpp Require Import base list strings gmap.
From Stdlib Require Import ZArith Lia.
From S2P Require Import Prelude Text TimelineItem DisplayRope DisplayRows DisplayDiffs BoundedWindow.
Local Open Scope list_scope.
Local Open Scope nat_scope.

(** Front insertions are applied to the canonical list in one splice. *)
Definition flush_pending_canonical_push_fronts (canonical_items pending_push_fronts : list TimelineItem) :
    list TimelineItem := rev pending_push_fronts ++ canonical_items.

Definition materialize (rope : DisplayMembershipRope) (display_state : DisplayProjectionState)
    (context : DisplayProjectionContext) : option DisplayProjectionState :=
  '(new_slots, ends, len) ← materialize_slots rope;
  Some (rebuild_window_items
          (display_state <| gap_after := ends |> <| slots := new_slots |> <| canonical_len := len |>)
          context).

(** [from_projection_state] takes the slots out of the state. *)
Definition take_membership (canonical_len : nat) (display_state : DisplayProjectionState) :
    option (DisplayMembershipRope * bool * DisplayProjectionState) :=
  '(rope, ambiguous) ← from_projection_state canonical_len (slots display_state) (gap_after display_state);
  Some (rope, ambiguous, display_state <| slots := [] |>).

Record BatchState := {
  canonical_items : list TimelineItem;
  batch_display : DisplayProjectionState;
  membership : DisplayMembershipRope;
  translation_ambiguous : bool;
  pending_push_fronts : list TimelineItem }.

(** An operation of the rope that answers whether the translation is sound. *)
Definition check_membership (b : BatchState) (items : list TimelineItem)
    (answer : bool * DisplayMembershipRope) : BatchState :=
  {| canonical_items := items; batch_display := batch_display b; membership := answer.2;
     translation_ambiguous := translation_ambiguous b || negb answer.1;
     pending_push_fronts := [] |}.

Section batch.
Context (hash_order : Z -> gset nat -> list nat) (context : DisplayProjectionContext).

Definition mark_ambiguous (b : BatchState) (items : list TimelineItem) : BatchState :=
  {| canonical_items := items; batch_display := batch_display b; membership := membership b;
     translation_ambiguous := true; pending_push_fronts := [] |}.
Definition flag (b : BatchState) (ambiguous : bool) : BatchState :=
  {| canonical_items := canonical_items b; batch_display := batch_display b; membership := membership b;
     translation_ambiguous := translation_ambiguous b || ambiguous;
     pending_push_fronts := pending_push_fronts b |}.
Definition trim_membership (b : BatchState) : BatchState :=
  {| canonical_items := canonical_items b; batch_display := batch_display b;
     membership := trim_to_live_edge (membership b) (max_live_edge_items context);
     translation_ambiguous := translation_ambiguous b;
     pending_push_fronts := pending_push_fronts b |}.

Definition batch_step (b : BatchState) (diff : TimelineDiff) : option BatchState :=
  match diff with
  | PushFront item =>
      let '(inserted, rope) := rope_insert (membership b) 0 item None in
      Some (trim_membership
        {| canonical_items := canonical_items b; batch_display := batch_display b; membership := rope;
           translation_ambiguous := translation_ambiguous b || negb inserted;
           pending_push_fronts := pending_push_fronts b ++ [item] |})
  | _ =>
      let items := flush_pending_canonical_push_fronts (canonical_items b) (pending_push_fronts b) in
      match diff with
      | PushFront _ => None
      | PushBack item =>
          Some (trim_membership (check_membership b (items ++ [item])
            (rope_insert (membership b) (length items) item (Some (include_append context)))))
      | Insert index item =>
          let old_len := length items in
          let canonical_index := index `min` old_len in
          Some (trim_membership (check_membership (flag b (old_len <? index))
            (vec_insert canonical_index item items)
            (rope_insert (membership b) canonical_index item None)))
      | SetAt index item =>
          match items !! index with
          | None => Some (mark_ambiguous b items)
          | Some old_item =>
              Some (trim_membership (check_membership b (<[index := item]> items)
                (rope_set (membership b) index item (timeline_item_render_id old_item))))
          end
      | Remove index =>
          match items !! index with
          | None => Some (mark_ambiguous b items)
          | Some old_item =>
              Some (trim_membership (check_membership b (delete index items)
                (rope_remove (membership b) index (timeline_item_render_id old_item))))
          end
      | Truncate len =>
          Some (trim_membership (check_membership (flag b (length items <? len)) (take len items)
            (true, rope_truncate (membership b) len)))
      | Clear => Some (trim_membership (check_membership b [] (true, rope_clear (membership b))))
      | Reset reset_items =>
          if room_window context then
            let display_state := reset_bounded hash_order (batch_display b) reset_items context in
            '(rebuilt, ambiguous, display_state) ← take_membership (length reset_items) display_state;
            Some (trim_membership
              {| canonical_items := reset_items; batch_display := display_state; membership := rebuilt;
                 translation_ambiguous := translation_ambiguous b || ambiguous;
                 pending_push_fronts := [] |})
          else
            let start :=
              match max_live_edge_items context with
              | Some max => live_edge_window_start reset_items max
              | None => 0
              end in
            rebuilt ← rope_from_canonical_window reset_items start (length reset_items);
            Some (trim_membership (check_membership b reset_items (true, rebuilt)))
      end
  end.

Fixpoint batch_steps (b : BatchState) (diffs : list TimelineDiff) : option BatchState :=
  match diffs with
  | [] => Some b
  | diff :: diffs => b ← batch_step b diff; batch_steps b diffs
  end.

Record DisplayProjectionBatch := {
  display_after : list TimelineItem; batch_diffs : list TimelineDiff; used_reset_fallback : bool }.

(** The new canonical list, the new display state and what is published. *)
Definition project_sdk_batch (items : list TimelineItem) (display_state : DisplayProjectionState)
    (canonical_diffs : list TimelineDiff) :
    option (list TimelineItem * DisplayProjectionState * DisplayProjectionBatch) :=
  let display_before := display_items display_state in
  let display_state :=
    if room_window context && negb (is_none (head canonical_diffs))
    then bump_revision display_state else display_state in
  '(membership, ambiguous, display_state) ← take_membership (length items) display_state;
  b ← batch_steps {| canonical_items := items; batch_display := display_state; membership := membership;
                     translation_ambiguous := ambiguous; pending_push_fronts := [] |} canonical_diffs;
  let items := flush_pending_canonical_push_fronts (canonical_items b) (pending_push_fronts b) in
  let ambiguous :=
    translation_ambiguous b
    || negb (rope_canonical_len (DisplayBatch.membership b) =? length items) in
  display_state ← materialize (DisplayBatch.membership b) (batch_display b) context;
  let display_state := bound_after_batch display_state items context in
  let '(diffs, fallback) :=
    finalize_display_projection_diffs display_before (display_items display_state) ambiguous in
  Some (items, display_state,
        {| display_after := display_items display_state; batch_diffs := diffs;
           used_reset_fallback := fallback |}).

(** Only the live generation of the actor commits: [lease] is what the generation gate gave. *)
Definition commit_sdk_batch_for_generation {Lease R : Type} (lease : option Lease)
    (items : list TimelineItem) (display_state : DisplayProjectionState)
    (canonical_diffs : list TimelineDiff)
    (publish : Lease -> DisplayProjectionBatch -> list TimelineItem -> DisplayProjectionState -> R) :
    option (list TimelineItem * DisplayProjectionState * option R) :=
  match lease with
  | None => Some (items, display_state, None)
  | Some lease =>
      '(items, display_state, projection) ← project_sdk_batch items display_state canonical_diffs;
      Some (items, display_state, Some (publish lease projection items display_state))
  end.

End batch.
