(* ===== verification/BoundedWindowProps.v ===== *)
(** The slots of a display projection stay aligned with the canonical list and bounded, whatever
    operation chose them ([BoundedWindow.v]). *)

From stdpp Require Import base list strings gmap sorting.
From Stdlib Require Import ZArith Lia.
From S2P Require Import Prelude Text TimelineItem DisplayRope DisplayRows DisplayDiffs DisplayDiffsProps BoundedWindow.
Local Open Scope list_scope.
Local Open Scope nat_scope.

(** * Aligned slots *)

Definition no_row (item : TimelineItem) : Prop := item_occupies_display_row item = false.

(** The recorded ends of a run count items that occupy no row. *)
Definition ends_ok (run : list TimelineItem) (ends : GapEnds) : Prop :=
  lead ends <= length run /\ trail ends <= length run
  /\ Forall no_row (take (lead ends) run) /\ Forall no_row (drop (length run - trail ends) run).

(** A slot holds the canonical item of its index; only the delivery state of a send may be newer in
    the display. *)
Definition twins (item shown : TimelineItem) : Prop :=
  item <| send_state := None |> = shown <| send_state := None |>.
Definition shows (items : list TimelineItem) (index : nat) (shown : TimelineItem) : Prop :=
  exists item, items !! index = Some item /\ twins item shown.

#[export] Instance twins_equivalence : Equivalence twins.
Proof.
  split; [done|by intros x y|]. intros x y z H1 H2. unfold twins in *. by rewrite H1.
Qed.
Lemma twins_row item shown :
  twins item shown ->
  item_occupies_display_row item = item_occupies_display_row shown
  /\ timeline_item_render_id item = timeline_item_render_id shown
  /\ thread_root item = thread_root shown /\ item_id item = item_id shown.
Proof.
  intros H. unfold item_occupies_display_row, timeline_item_render_id.
  pose proof (f_equal thread_root H) as H1. pose proof (f_equal is_hidden H) as H2.
  pose proof (f_equal display_metadata H) as H3. pose proof (f_equal item_id H) as H4.
  cbn in H1, H2, H3, H4. by rewrite H1, H2, H3, H4.
Qed.
Lemma shows_lt items index shown : shows items index shown -> index < length items.
Proof. intros (item & Hi & _). by eapply lookup_lt_Some. Qed.
Lemma shows_self items index item : items !! index = Some item -> shows items index item.
Proof. intros. by exists item. Qed.

(** Slots in canonical order from [cursor] on, each with the canonical item of its index and sound
    gap ends; [stop] is the index after the last one. *)
Fixpoint aligned (items : list TimelineItem) (cursor : nat) (run : list DisplayProjectionSlot)
    (stop : nat) : Prop :=
  match run with
  | [] => stop = cursor
  | slot :: run =>
      cursor <= canonical_index slot
      /\ shows items (canonical_index slot) (slot_item slot)
      /\ ends_ok (run_of items cursor (canonical_index slot)) (gap_before slot)
      /\ aligned items (S (canonical_index slot)) run stop
  end.
Definition slots_aligned (items : list TimelineItem) (run : list DisplayProjectionSlot)
    (after : GapEnds) : Prop :=
  exists stop, aligned items 0 run stop /\ stop <= length items /\ ends_ok (drop stop items) after.
Definition display_aligned (items : list TimelineItem) (state : DisplayProjectionState) : Prop :=
  slots_aligned items (slots state) (gap_after state) /\ canonical_len state = length items.

Lemma aligned_app items cursor run1 run2 stop :
  aligned items cursor (run1 ++ run2) stop
  <-> exists mid, aligned items cursor run1 mid /\ aligned items mid run2 stop.
Proof.
  revert cursor. induction run1 as [|s run1 IH]; intros cursor; cbn [app aligned].
  - split; [by exists cursor|]. by intros (mid & -> & H).
  - rewrite IH. split.
    + intros (? & ? & ? & mid & ? & ?). by exists mid.
    + intros (mid & (? & ? & ? & ?) & ?). split_and!; [done..|]. by exists mid.
Qed.
Lemma aligned_bounds items cursor run stop :
  aligned items cursor run stop -> cursor <= stop /\ (cursor <= length items -> stop <= length items).
Proof.
  revert cursor. induction run as [|s run IH]; intros cursor; cbn [aligned].
  { intros ->. lia. }
  intros (? & Hi & _ & H). apply shows_lt in Hi. destruct (IH _ H). lia.
Qed.

(** * Gap ends *)

Lemma take_while_count_le {A} (p : A -> bool) l : take_while_count p l <= length l.
Proof. induction l as [|x l IH]; cbn; [lia|]. destruct (p x); cbn; lia. Qed.
Lemma take_while_count_Forall {A} (p : A -> bool) l : Forall (fun x => p x = true) (take (take_while_count p l) l).
Proof. induction l as [|x l IH]; cbn; [done|]. destruct (p x) eqn:E; cbn; [|done]. by constructor. Qed.

Lemma GapEnds_of_ok run : ends_ok run (GapEnds_of run).
Proof.
  unfold GapEnds_of. set (p := fun item => negb (item_occupies_display_row item)).
  assert (forall l, Forall no_row (take (take_while_count p l) l)) as Hp.
  { intros l. eapply Forall_impl; [apply take_while_count_Forall|]. intros x. unfold no_row, p.
    by rewrite negb_true_iff. }
  pose proof (take_while_count_le p run). pose proof (take_while_count_le p (rev run)) as Hr.
  rewrite length_rev in Hr.
  destruct (Nat.eqb_spec (take_while_count p run) (length run)) as [E|E].
  - repeat split; cbn [lead trail]; [lia|lia|apply Hp|]. by rewrite Nat.sub_0_r, drop_all.
  - repeat split; cbn [lead trail]; [lia|lia|apply Hp|].
    specialize (Hp (rev run)). rewrite firstn_rev in Hp. rewrite <-(rev_involutive (drop _ run)). by apply Forall_rev.
Qed.
Lemma GapEnds_default_ok run : ends_ok run GapEnds_default.
Proof. repeat split; cbn; [lia|lia|done|]. by rewrite Nat.sub_0_r, drop_all. Qed.

(** Canonical indices in order with the canonical items, without a statement on gaps. *)
Fixpoint ordered (items : list TimelineItem) (cursor : nat) (run : list DisplayProjectionSlot) : Prop :=
  match run with
  | [] => True
  | slot :: run =>
      cursor <= canonical_index slot /\ shows items (canonical_index slot) (slot_item slot)
      /\ ordered items (S (canonical_index slot)) run
  end.
Lemma aligned_ordered items cursor run stop : aligned items cursor run stop -> ordered items cursor run.
Proof.
  revert cursor. induction run as [|s run IH]; intros cursor; cbn [aligned ordered]; [done|].
  intros (? & ? & _ & ?). split_and!; [done..|]. by eapply IH.
Qed.

Lemma refresh_slot_gaps_aligned items cursor run :
  cursor <= length items -> ordered items cursor run ->
  let '(run', stop) := refresh_slot_gaps items cursor run in
  aligned items cursor run' stop /\ stop <= length items
  /\ canonical_index <$> run' = canonical_index <$> run.
Proof.
  revert cursor. induction run as [|s run IH]; intros cursor Hc Ho; cbn [refresh_slot_gaps]; [done|].
  destruct Ho as (Hle & Hi & Ho). pose proof (shows_lt _ _ _ Hi) as Hlt.
  specialize (IH (S (canonical_index s)) ltac:(lia) Ho). rewrite Nat.add_1_r.
  destruct (refresh_slot_gaps items (S (canonical_index s)) run) as [run' stop].
  destruct IH as (Ha & Hs & Hm). rewrite !Nat.min_l, Nat.max_l by lia.
  split; [|split; [done|csimpl; by rewrite Hm]]. cbn [aligned].
  split; [done|]. split; [done|]. split; [apply GapEnds_of_ok|done].
Qed.

Lemma refresh_gap_ends_aligned items state :
  ordered items 0 (slots state) ->
  slots_aligned items (slots (refresh_gap_ends state items)) (gap_after (refresh_gap_ends state items))
  /\ canonical_index <$> slots (refresh_gap_ends state items) = canonical_index <$> slots state.
Proof.
  intros Ho. unfold refresh_gap_ends. pose proof (refresh_slot_gaps_aligned items 0 (slots state) ltac:(lia) Ho) as H.
  destruct (refresh_slot_gaps items 0 (slots state)) as [run stop]. destruct H as (Ha & Hs & Hm).
  cbn [slots gap_after update]. split; [|done]. exists stop. split; [done|]. split; [done|].
  rewrite Nat.min_l by done. apply GapEnds_of_ok.
Qed.

Lemma refresh_length items state : length (slots (refresh_gap_ends state items)) = length (slots state).
Proof.
  unfold refresh_gap_ends.
  assert (forall cursor run, length (refresh_slot_gaps items cursor run).1 = length run) as H.
  { intros cursor run. revert cursor. induction run as [|s run IH]; intros cursor; [done|].
    cbn [refresh_slot_gaps]. specialize (IH (canonical_index s + 1)).
    destruct (refresh_slot_gaps items (canonical_index s + 1) run). cbn in *. by f_equal. }
  specialize (H 0 (slots state)). by destruct (refresh_slot_gaps items 0 (slots state)).
Qed.

(** Slots made from increasing indices. *)
Lemma bare_slots_ordered items cursor indices :
  StronglySorted lt indices -> Forall (fun i => cursor <= i) indices -> ordered items cursor (bare_slots items indices).
Proof.
  intros Hs. revert cursor. induction Hs as [|i indices Hs IH Hi]; intros cursor Hc; [done|].
  apply Forall_cons in Hc as [Hci Hc]. unfold bare_slots, bare_slot in *. csimpl.
  destruct (items !! i) as [item|] eqn:E; cbn [mbind option_bind].
  - cbn [ordered canonical_index slot_item]. split; [done|]. split; [by apply shows_self|]. apply IH.
    eapply Forall_impl; [exact Hi|]. intros j Hj. exact Hj.
  - apply IH. exact Hc.
Qed.
Lemma bare_slots_length items indices : length (bare_slots items indices) <= length indices.
Proof.
  unfold bare_slots. induction indices as [|i indices IH]; csimpl; [lia|].
  destruct (bare_slot items i); cbn; lia.
Qed.
Lemma bare_slots_indices items indices :
  Forall (fun i => i < length items) indices -> canonical_index <$> bare_slots items indices = indices.
Proof.
  induction 1 as [|i indices Hi _ IH]; [done|]. unfold bare_slots, bare_slot in *. csimpl.
  destruct (lookup_lt_is_Some_2 _ _ Hi) as [item ->]. cbn [mbind option_bind]. csimpl. by rewrite IH.
Qed.
Lemma ordered_app items cursor run1 run2 :
  ordered items cursor (run1 ++ run2)
  <-> ordered items cursor run1
      /\ ordered items (default cursor ((fun s => S (canonical_index s)) <$> last run1)) run2.
Proof.
  revert cursor. induction run1 as [|s run1 IH]; intros cursor; cbn [app ordered].
  { cbn. naive_solver. }
  rewrite IH. destruct run1 as [|s' run1]; [cbn; naive_solver|].
  change (last (s :: s' :: run1)) with (last (s' :: run1)).
  destruct (last (s' :: run1)) eqn:E; [cbn; naive_solver|]. by apply last_None in E.
Qed.
Lemma ordered_weaken items c c' run : c' <= c -> ordered items c run -> ordered items c' run.
Proof. destruct run as [|s run]; [done|]. cbn. intros ? (? & ? & ?). split_and!; [lia|done..]. Qed.
Lemma ordered_drop items cursor n run : ordered items cursor run -> ordered items cursor (drop n run).
Proof.
  revert cursor n. induction run as [|s run IH]; intros cursor [|n] H; try done. cbn [drop].
  destruct H as (? & ? & H). eapply ordered_weaken; [|by apply IH]. lia.
Qed.
Lemma ordered_take items cursor n run : ordered items cursor run -> ordered items cursor (take n run).
Proof.
  revert cursor n. induction run as [|s run IH]; intros cursor [|n] H; try done. cbn [take ordered].
  destruct H as (? & ? & H). split_and!; [done..|]. by apply IH.
Qed.

(** * Sorted indices *)

Lemma StronglySorted_sublist {A} (R : relation A) l k :
  l `sublist_of` k -> StronglySorted R k -> StronglySorted R l.
Proof.
  induction 1 as [|x l k H IH|x l k H IH]; intros Hs; [done|..].
  - apply StronglySorted_cons in Hs as [Hx Hs]. constructor; [by apply IH|].
    rewrite Forall_forall in *. intros y Hy. apply Hx. by eapply elem_of_sublist.
  - apply StronglySorted_cons in Hs as [_ Hs]. by apply IH.
Qed.

Lemma StronglySorted_rev l : StronglySorted (flip lt) l -> StronglySorted lt (rev l).
Proof.
  induction 1 as [|x l Hs IH Hx]; [constructor|]. cbn [rev]. apply StronglySorted_app. split_and!.
  - intros a b Ha ->%list_elem_of_singleton. rewrite Forall_forall in Hx. apply Hx.
    apply list_elem_of_In in Ha. apply list_elem_of_In. by apply in_rev.
  - done.
  - by repeat constructor.
Qed.
Lemma seq_ascending a n : StronglySorted lt (seq a n).
Proof.
  revert a. induction n as [|n IH]; intros a; cbn; constructor; [done|].
  apply Forall_forall. intros x Hx%elem_of_seq. lia.
Qed.
Lemma rev_seq_descending a n : StronglySorted (flip lt) (rev (seq a n)).
Proof.
  revert a. induction n as [|n IH]; intros a; cbn; [constructor|]. apply StronglySorted_app. split_and!.
  - intros x y Hx ->%list_elem_of_singleton. apply list_elem_of_In, in_rev, list_elem_of_In, elem_of_seq in Hx.
    unfold flip. lia.
  - done.
  - by repeat constructor.
Qed.
Lemma elements_ascending (X : gset nat) : StronglySorted lt (merge_sort le (elements X)).
Proof.
  assert (forall l, StronglySorted le l -> NoDup l -> StronglySorted lt l) as H.
  { induction 1 as [|x l Hs IH Hx]; intros Hd; constructor; apply NoDup_cons in Hd as [Hn Hd]; [by apply IH|].
    rewrite Forall_forall in *. intros y Hy. specialize (Hx y Hy). assert (x <> y) by congruence. lia. }
  apply H; [apply StronglySorted_merge_sort; apply _|]. rewrite merge_sort_Permutation. apply NoDup_elements.
Qed.
Lemma elements_length (X : gset nat) : length (merge_sort le (elements X)) = size X.
Proof. by rewrite merge_sort_Permutation. Qed.

(** * The slots of a run of indices *)

Lemma bare_slots_aligned items state indices :
  StronglySorted lt indices ->
  display_aligned items
    ((refresh_gap_ends (state <| slots := bare_slots items indices |>) items) <| canonical_len := length items |>).
Proof.
  intros Hs. split; [|done].
  destruct (refresh_gap_ends_aligned items (state <| slots := bare_slots items indices |>)) as [Ha _].
  { apply bare_slots_ordered; [done|]. apply Forall_forall. intros. lia. }
  done.
Qed.

(** [display_aligned] looks at the slots, the tail run and the length only. *)
Lemma display_aligned_ext items s1 s2 :
  slots s1 = slots s2 -> gap_after s1 = gap_after s2 -> canonical_len s1 = canonical_len s2 ->
  display_aligned items s1 -> display_aligned items s2.
Proof. unfold display_aligned. by intros -> -> ->. Qed.
Lemma refresh_fields items state :
  canonical_len (refresh_gap_ends state items) = canonical_len state
  /\ window_revision (refresh_gap_ends state items) = window_revision state.
Proof. unfold refresh_gap_ends. by destruct (refresh_slot_gaps items 0 (slots state)). Qed.

(** * The live window *)

Lemma live_window_scan_spec canonical indices found rows roots :
  StronglySorted (flip lt) (found ++ indices) -> length found < WINDOW_SLOTS ->
  exists ext, live_window_scan canonical indices found rows roots = found ++ ext
    /\ StronglySorted (flip lt) (found ++ ext) /\ length (found ++ ext) <= WINDOW_SLOTS
    /\ ext `sublist_of` indices.
Proof.
  revert found rows roots. induction indices as [|i indices IH]; intros found rows roots Hs Hlen.
  { exists []. rewrite app_nil_r in *. split_and!; [done|done|unfold WINDOW_SLOTS in *; lia|done]. }
  assert (StronglySorted (flip lt) found) as Hf by (by apply StronglySorted_app in Hs as (_ & ? & _)).
  assert (exists ext, found = found ++ ext /\ StronglySorted (flip lt) (found ++ ext)
    /\ length (found ++ ext) <= WINDOW_SLOTS /\ ext `sublist_of` i :: indices) as Hstop.
  { exists []. rewrite app_nil_r. split_and!; [done|done|unfold WINDOW_SLOTS in *; lia|apply sublist_nil_l]. }
  cbn [live_window_scan]. destruct (canonical !! i) as [item|]; [|exact Hstop].
  destruct (match thread_root item with Some _ => _ | None => _ end) as [reply roots'].
  destruct ((i + 1 =? length canonical) || item_occupies_display_row item || reply).
  - set (rows' := if item_occupies_display_row item then rows + 1 else rows).
    assert (StronglySorted (flip lt) ((found ++ [i]) ++ indices)) as Hs' by (by rewrite <-app_assoc).
    assert (exists ext, found ++ [i] = found ++ ext /\ StronglySorted (flip lt) (found ++ ext)
      /\ length (found ++ ext) <= WINDOW_SLOTS /\ ext `sublist_of` i :: indices) as Hone.
    { exists [i]. split; [done|]. split; [by apply StronglySorted_app in Hs' as (_ & ? & _)|].
      split; [rewrite length_app; cbn; unfold WINDOW_SLOTS in *; lia|]. by apply sublist_skip, sublist_nil_l. }
    destruct (Nat.eqb_spec (length (found ++ [i])) WINDOW_SLOTS) as [|Hne]; [by rewrite orb_true_r|].
    rewrite orb_false_r. destruct (rows' =? ROOM_REPLAY_INITIAL_ITEMS_MAX); [done|].
    destruct (IH (found ++ [i]) rows' roots' Hs') as (ext & E & H1 & H2 & H3).
    { rewrite length_app in *. cbn [length] in *. lia. }
    exists (i :: ext). rewrite E, <-app_assoc in *. split_and!; [done..|by apply sublist_skip].
  - set (rows' := if item_occupies_display_row item then rows + 1 else rows).
    destruct (Nat.eqb_spec (length found) WINDOW_SLOTS) as [|Hne]; [lia|]. rewrite orb_false_r.
    destruct (rows' =? ROOM_REPLAY_INITIAL_ITEMS_MAX); [exact Hstop|].
    destruct (IH found rows' roots') as (ext & E & H1 & H2 & H3); [|done|].
    { eapply StronglySorted_sublist; [|exact Hs]. apply sublist_app; [done|by apply sublist_cons]. }
    exists ext. split_and!; [done..|by apply sublist_cons].
Qed.

Lemma live_window_indices_spec canonical :
  StronglySorted lt (live_window_indices canonical)
  /\ length (live_window_indices canonical) <= WINDOW_SLOTS
  /\ Forall (fun i => i < length canonical) (live_window_indices canonical).
Proof.
  unfold live_window_indices.
  destruct (live_window_scan_spec canonical (rev (seq 0 (length canonical))) [] 0 ∅) as (ext & E & Hs & Hl & Hsub).
  { apply rev_seq_descending. } { unfold WINDOW_SLOTS. cbn. lia. }
  rewrite E in *. cbn [app] in *. split; [by apply StronglySorted_rev|]. split; [by rewrite length_rev|].
  apply Forall_rev, Forall_forall. intros i Hi. eapply elem_of_sublist in Hsub; [|exact Hi].
  apply list_elem_of_In, in_rev, list_elem_of_In, elem_of_seq in Hsub. lia.
Qed.

(** The live window reaches the live end. *)
Lemma live_window_last canonical :
  canonical <> [] -> last (live_window_indices canonical) = Some (length canonical - 1).
Proof.
  intros Hne. unfold live_window_indices.
  destruct (length canonical) as [|n] eqn:Hn; [by apply length_zero_iff_nil in Hn|].
  rewrite seq_S, rev_app_distr, Nat.add_0_l. cbn [rev app live_window_scan].
  destruct (lookup_lt_is_Some_2 canonical n ltac:(lia)) as [item ->].
  rewrite Hn, (Nat.add_1_r n), Nat.eqb_refl. cbn [orb].
  destruct (match thread_root item with Some _ => _ | None => _ end) as [reply roots].
  set (rows := if item_occupies_display_row item then 0 + 1 else 0). cbn [app].
  assert (exists ext, (if (rows =? ROOM_REPLAY_INITIAL_ITEMS_MAX) || (length [n] =? WINDOW_SLOTS) then [n]
    else live_window_scan canonical (rev (seq 0 n)) [n] rows roots) = n :: ext) as H.
  { destruct (_ || _); [by exists []|].
    destruct (live_window_scan_spec canonical (rev (seq 0 n)) [n] rows roots) as (ext & -> & _).
    - cbn [app]. constructor; [apply rev_seq_descending|]. apply Forall_rev, Forall_forall.
      intros x Hx%elem_of_seq. unfold flip. lia.
    - cbn. unfold WINDOW_SLOTS. lia.
    - by exists ext. }
  destruct H as [ext ->]. cbn [rev]. rewrite last_snoc. f_equal. lia.
Qed.

Lemma return_to_live_aligned state canonical context :
  let state' := (return_to_live_window state canonical context).1 in
  display_aligned canonical state' /\ length (slots state') <= WINDOW_SLOTS
  /\ window_reaches_live_end state' (length canonical) = true.
Proof.
  destruct (live_window_indices_spec canonical) as (Hs & Hl & Hin).
  set (s0 := state <| canonical_len := length canonical |>).
  set (s1 := s0 <| slots := bare_slots canonical (live_window_indices canonical) |>).
  pose proof (bare_slots_aligned canonical s0 _ Hs) as Ha.
  destruct (refresh_gap_ends_aligned canonical s1) as [_ Hidx].
  { apply bare_slots_ordered; [done|]. apply Forall_forall. intros. lia. }
  change (slots s1) with (bare_slots canonical (live_window_indices canonical)) in Hidx.
  rewrite bare_slots_indices in Hidx by done.
  cbn [return_to_live_window fst]. fold s0. fold s1. split; [|split].
  - eapply display_aligned_ext; [..|exact Ha]; try done.
    destruct (refresh_fields canonical s1) as [E _]. symmetry. exact E.
  - change (length (slots (refresh_gap_ends s1 canonical)) <= WINDOW_SLOTS).
    rewrite <-(length_fmap canonical_index), Hidx. done.
  - unfold window_reaches_live_end. destruct (decide (canonical = [])) as [->|Hne]; [done|].
    apply orb_true_iff. right.
    change (is_some_and (last (slots (refresh_gap_ends s1 canonical)))
      (fun slot => canonical_index slot + 1 =? length canonical) = true).
    pose proof (f_equal last Hidx) as H. rewrite live_window_last, fmap_last in H by done.
    destruct (last (slots (refresh_gap_ends s1 canonical))) as [slot|]; [|done]. cbn in H. simplify_eq.
    cbn. apply Nat.eqb_eq. rewrite H. destruct canonical; [done|]. cbn. lia.
Qed.

(** * Trimming *)

Lemma observed_endpoint_lt state activity prefer_next k :
  observed_endpoint state activity prefer_next = Some k -> k < length (slots state).
Proof.
  assert (forall row j, slot_for_row state row = Some j -> j < length (slots state)) as Hrow.
  { intros row j. unfold slot_for_row. destruct (event_id row) as [a|]; cbn [mbind option_bind opt_or].
    - destruct (position _ (slots state)) as [q|] eqn:E; cbn [opt_or]; intros [= <-] || intros H.
      + apply position_Some in E as (x & Hx & _). by eapply lookup_lt_Some.
      + apply position_Some in H as (x & Hx & _). by eapply lookup_lt_Some.
    - intros (x & Hx & _)%position_Some. by eapply lookup_lt_Some. }
  assert (forall rows j, head (omap (slot_for_row state) rows) = Some j -> j < length (slots state)) as Hrows.
  { intros rows j. induction rows as [|row rows IH]; [done|]. csimpl.
    destruct (slot_for_row state row) as [q|] eqn:E; [|done]. intros [= ->]. by eapply Hrow. }
  unfold observed_endpoint. destruct (position _ _) as [p|]; [|done]. cbn [mbind option_bind].
  destruct (display_items state !! p) as [row|]; [|done]. cbn [mbind option_bind].
  destruct (slot_for_row state row) as [q|] eqn:E; [intros [= <-]; by eapply Hrow|].
  assert (forall d, (if is_none (head (slots state)) then None else Some d) = Some k ->
    d < length (slots state) \/ slots state = [] -> k < length (slots state)) as Hd.
  { intros d. destruct (slots state); [done|]. cbn. intros [= ->] [?|?]; done. }
  destruct prefer_next.
  - destruct (head (omap _ (visible_items (drop _ _)))) as [a|] eqn:Ea; cbn [opt_or]; [intros [= <-]; by eapply Hrows|].
    destruct (head (omap _ (visible_items (rev _)))) as [b|] eqn:Eb; cbn [opt_or]; [intros [= <-]; by eapply Hrows|].
    intros H. apply (Hd _ H). destruct (slots state); [by right|left; cbn; lia].
  - destruct (head (omap _ (visible_items (rev _)))) as [b|] eqn:Eb; cbn [opt_or]; [intros [= <-]; by eapply Hrows|].
    destruct (head (omap _ (visible_items (drop _ _)))) as [a|] eqn:Ea; cbn [opt_or]; [intros [= <-]; by eapply Hrows|].
    intros H. apply (Hd _ H). destruct (slots state); [by right|left; cbn; lia].
Qed.
Lemma observed_slots_spec state observation first last :
  observed_slots state observation = Some (first, last) ->
  first <= last /\ last < length (slots state) /\ last - first < WINDOW_SLOTS.
Proof.
  unfold observed_slots.
  destruct (first_visible_event_id observation) as [a|]; [|done]. cbn [mbind option_bind].
  destruct (observed_endpoint state a true) as [p|] eqn:Ep; [|done]. cbn [mbind option_bind].
  destruct (last_visible_event_id observation) as [b|]; [|done]. cbn [mbind option_bind].
  destruct (observed_endpoint state b false) as [q|] eqn:Eq; [|done]. cbn [mbind option_bind].
  apply observed_endpoint_lt in Ep, Eq.
  destruct (Nat.ltb_spec (p `max` q - p `min` q) WINDOW_SLOTS); [|done]. intros [= <- <-]. lia.
Qed.

Lemma trim_slots_length state context keep_older :
  length (slots (trim_slots state context keep_older)) <= WINDOW_SLOTS.
Proof.
  unfold trim_slots. destruct (Nat.leb_spec (length (slots state)) WINDOW_SLOTS); [done|].
  cbn [slots update]. rewrite length_drop, length_take. lia.
Qed.
Lemma trim_slots_slice state context keep_older :
  exists i n, slots (trim_slots state context keep_older) = drop i (take n (slots state))
    /\ gap_after (trim_slots state context keep_older) = gap_after state
    /\ canonical_len (trim_slots state context keep_older) = canonical_len state.
Proof.
  unfold trim_slots. destruct (length (slots state) <=? WINDOW_SLOTS).
  - exists 0, (length (slots state)). by rewrite drop_0, take_ge.
  - by do 2 eexists.
Qed.

Lemma default_last {A} (x y : A) l : default x (last (y :: l)) = default y (last l).
Proof.
  destruct l as [|z l]; [done|]. change (last (y :: z :: l)) with (last (z :: l)).
  destruct (last (z :: l)) eqn:E; [done|]. by apply last_None in E.
Qed.

Lemma refresh_edge_aligned items state :
  ordered items 0 (slots state) ->
  (forall i s, slots state !! S i = Some s -> exists p, slots state !! i = Some p
     /\ ends_ok (run_of items (S (canonical_index p)) (canonical_index s)) (gap_before s)) ->
  slots_aligned items (slots (refresh_edge_gap_ends state items)) (gap_after (refresh_edge_gap_ends state items)).
Proof.
  intros Ho Hgaps. unfold refresh_edge_gap_ends.
  destruct (slots state) as [|first rest] eqn:Es.
  { rewrite Es. cbn [last gap_after slots update]. rewrite Es. exists 0. split; [done|]. split; [lia|].
    rewrite Nat.min_0_l. apply GapEnds_of_ok. }
  cbn [slots update gap_after]. set (first' := first <| gap_before := _ |>).
  destruct Ho as (_ & Hf & Ho). pose proof (shows_lt _ _ _ Hf) as Hlt.
  assert (forall prev run, ordered items (S (canonical_index prev)) run ->
    (forall i s, (prev :: run) !! S i = Some s -> exists p, (prev :: run) !! i = Some p
       /\ ends_ok (run_of items (S (canonical_index p)) (canonical_index s)) (gap_before s)) ->
    canonical_index prev < length items ->
    let stop := S (canonical_index (default prev (last run))) in
    aligned items (S (canonical_index prev)) run stop /\ stop <= length items) as Hrun.
  { intros prev run. revert prev. induction run as [|s run IH]; intros prev Hor Hg Hp; [by cbn|].
    destruct Hor as (Hle & Hs & Hor). pose proof (shows_lt _ _ _ Hs) as Hslt.
    destruct (IH s Hor) as [Ha Hstop]; [|done|].
    { intros i t Ht. destruct (Hg (S i) t Ht) as (p & Hpl & He). by exists p. }
    destruct (Hg 0 s eq_refl) as (p & [= <-] & He).
    cbv zeta. rewrite default_last. split; [|exact Hstop]. cbn [aligned].
    split; [exact Hle|]. split; [exact Hs|]. split; [exact He|exact Ha]. }
  destruct (Hrun first rest Ho) as [Ha Hstop]; [|done|].
  { intros i s Hs. apply Hgaps. exact Hs. }
  exists (S (canonical_index (default first (last rest)))). split; [|split; [done|]].
  - cbn [aligned]. split; [lia|]. split; [exact Hf|]. split; [|exact Ha].
    change (ends_ok (take (canonical_index first - 0) (drop 0 items))
      (GapEnds_of (take (canonical_index first `min` length items) items))).
    rewrite drop_0, Nat.sub_0_r, Nat.min_l by lia. apply GapEnds_of_ok.
  - assert (match last (first' :: rest) with Some slot => canonical_index slot + 1 | None => 0 end
      = S (canonical_index (default first (last rest)))) as ->.
    { pose proof (default_last first first' rest) as H. destruct (last (first' :: rest)) as [d|] eqn:E.
      - change (d = default first' (last rest)) in H. rewrite Nat.add_1_r, H. f_equal. by destruct (last rest).
      - by apply last_None in E. }
    rewrite Nat.min_l by done. apply GapEnds_of_ok.
Qed.

(** Every run but the first records ends of the canonical run before it. *)
Definition inner_gaps_ok (items : list TimelineItem) (run : list DisplayProjectionSlot) : Prop :=
  forall i s, run !! S i = Some s -> exists p, run !! i = Some p
    /\ ends_ok (run_of items (S (canonical_index p)) (canonical_index s)) (gap_before s).
Lemma aligned_inner_gaps items cursor run stop : aligned items cursor run stop -> inner_gaps_ok items run.
Proof.
  revert cursor. induction run as [|p run IH]; intros cursor Ha i s Hs; [done|].
  destruct Ha as (_ & _ & _ & Ha). destruct i as [|i]; cbn in Hs.
  - destruct run as [|q run]; [done|]. cbn in Hs. simplify_eq. exists p. split; [done|]. by destruct Ha as (_ & _ & ? & _).
  - by apply (IH _ Ha).
Qed.
Lemma slice_inner_gaps items run i n : inner_gaps_ok items run -> inner_gaps_ok items (drop i (take n run)).
Proof.
  intros Hg j s Hs. rewrite lookup_drop in Hs. apply lookup_take_Some in Hs as [Hs Hj].
  rewrite Nat.add_succ_r in *. destruct (Hg _ _ Hs) as (p & Hp & He). exists p. split; [|done].
  rewrite lookup_drop. apply lookup_take_Some. split; [done|lia].
Qed.

Lemma bound_after_batch_aligned items state context :
  display_aligned items state ->
  display_aligned items (bound_after_batch state items context)
  /\ (room_window context = true -> length (slots (bound_after_batch state items context)) <= WINDOW_SLOTS).
Proof.
  intros [(stop & Ha & Hstop & Hafter) Hlen]. unfold bound_after_batch.
  destruct (room_window context); cbn [negb orb].
  2: { split; [|done]. split; [by exists stop|done]. }
  destruct (Nat.leb_spec (length (slots state)) WINDOW_SLOTS) as [Hle|_].
  { split; [split; [by exists stop|done]|done]. }
  set (t := trim_slots state context (negb (at_bottom (viewport context)))).
  destruct (trim_slots_slice state context (negb (at_bottom (viewport context)))) as (i & n & Es & _ & El).
  fold t in Es, El.
  assert (canonical_len (refresh_edge_gap_ends t items) = canonical_len t
    /\ length (slots (refresh_edge_gap_ends t items)) = length (slots t)) as [E1 E2].
  { unfold refresh_edge_gap_ends. by destruct (slots t) eqn:E; cbn [slots canonical_len update]; rewrite ?E. }
  split.
  - split; [|change (canonical_len (refresh_edge_gap_ends t items) = length items); by rewrite E1, El].
    apply (refresh_edge_aligned items t); rewrite Es.
    + by apply ordered_drop, ordered_take, (aligned_ordered _ _ _ stop).
    + by eapply slice_inner_gaps, aligned_inner_gaps.
  - intros _. change (length (slots (refresh_edge_gap_ends t items)) <= WINDOW_SLOTS).
    rewrite E2. apply trim_slots_length.
Qed.

(** * Paging *)

Lemma page_scan_spec canonical indices page rows roots terminal :
  let '(page', terminal') := page_scan canonical indices page rows roots terminal in
  exists n ext, page' = page ++ ext /\ ext `sublist_of` take n indices /\ n <= length indices
    /\ terminal' = match n with 0 => terminal | _ => last (take n indices) end
    /\ (forall i, head indices = Some i -> i < length canonical -> 0 < n).
Proof.
  revert page rows roots terminal. induction indices as [|i indices IH]; intros page rows roots terminal.
  { cbn. exists 0, []. by rewrite app_nil_r; split_and!. }
  cbn [page_scan]. destruct (canonical !! i) as [item|] eqn:E.
  2: { exists 0, []. rewrite app_nil_r. split_and!; [done|done|lia|done|]. intros j [= <-] Hj.
    apply lookup_lt_is_Some_2 in Hj as [? ?]. congruence. }
  destruct (match thread_root item with Some _ => _ | None => _ end) as [page1 roots1] eqn:Ep.
  assert (exists e1, page1 = page ++ e1
    /\ (e1 = [] \/ e1 = [i] /\ item_occupies_display_row item = false)) as (e1 & -> & He1).
  { destruct (thread_root item) as [root|] eqn:Er; [|exists []; rewrite app_nil_r; split; [by simplify_eq|by left]].
    destruct (_ && _); simplify_eq; [|exists []; rewrite app_nil_r; by split; [|left]].
    exists [i]. split; [done|right]. split; [done|]. unfold item_occupies_display_row. by rewrite Er. }
  clear Ep.
  assert (forall page2 rows2, (exists e2, page2 = (page ++ e1) ++ e2 /\ (e1 ++ e2 = [] \/ e1 ++ e2 = [i])) ->
    let '(page', terminal') := page_scan canonical indices page2 rows2 roots1 (Some i) in
    exists n ext, page' = page ++ ext /\ ext `sublist_of` take n (i :: indices) /\ n <= length (i :: indices)
      /\ terminal' = match n with 0 => terminal | _ => last (take n (i :: indices)) end
      /\ (forall j, head (i :: indices) = Some j -> j < length canonical -> 0 < n)) as Hrec.
  { intros page2 rows2 (e2 & -> & He). specialize (IH ((page ++ e1) ++ e2) rows2 roots1 (Some i)).
    destruct (page_scan _ _ _ _ _ _) as [page' terminal'].
    destruct IH as (n & ext & -> & Hsub & Hn & Ht & _). exists (S n), (e1 ++ e2 ++ ext).
    split; [by rewrite <-!app_assoc|]. split; [|split; [cbn [length]; lia|split]].
    - rewrite app_assoc. cbn [take]. destruct He as [->| ->]; [by apply sublist_cons|by apply sublist_skip].
    - rewrite Ht. destruct n as [|n]; [done|]. destruct indices as [|j indices]; [cbn in Hn; lia|]. done.
    - intros; lia. }
  destruct (item_occupies_display_row item) eqn:Hrow.
  - assert (e1 = []) as -> by (destruct He1 as [?|[_ ?]]; done). rewrite app_nil_r in *.
    destruct (rows + 1 =? PAGE_ROWS).
    + exists 1, [i]. split; [done|]. split; [by apply sublist_skip, sublist_nil_l|].
      split; [cbn; lia|]. split; [done|]. intros; lia.
    + apply Hrec. exists [i]. by split; [|right].
  - apply Hrec. exists []. rewrite !app_nil_r. split; [done|]. by destruct He1 as [->|[-> _]]; [left|right].
Qed.

Lemma page_indices_spec canonical indices :
  page_indices canonical indices `sublist_of` indices
  /\ (forall i, head indices = Some i -> i < length canonical -> page_indices canonical indices <> []).
Proof.
  unfold page_indices. pose proof (page_scan_spec canonical indices [] 0 ∅ None) as H.
  destruct (page_scan canonical indices [] 0 ∅ None) as [page terminal].
  destruct H as (n & ext & -> & Hsub & Hn & Ht & Hpos). cbn [app].
  assert (take n indices `sublist_of` indices) as Htake by apply sublist_take.
  destruct n as [|n].
  { subst terminal. split; [by etrans|]. intros i Hi Hlt. specialize (Hpos i Hi Hlt). lia. }
  destruct terminal as [t|].
  2: { split; [by etrans|]. intros i Hi _. symmetry in Ht. apply last_None in Ht.
    destruct indices; [done|]. done. }
  destruct (existsb (Nat.eqb t) ext) eqn:Ein.
  - split; [by etrans|]. intros _ _ _. by intros ->.
  - split; [|by intros _ _ _ ?%app_nil; naive_solver].
    symmetry in Ht. apply last_Some in Ht as [front Hf]. rewrite Hf in *.
    etrans; [|exact Htake]. apply sublist_app; [|done].
    apply sublist_app_r in Hsub as (k1 & k2 & -> & H1 & H2).
    apply sublist_cons_r in H2 as [H2|(k & -> & H2)].
    + apply sublist_nil_r in H2 as ->. by rewrite app_nil_r.
    + exfalso. assert (existsb (Nat.eqb t) (k1 ++ t :: k) = true) as Hx; [|congruence].
      apply existsb_exists. exists t. split; [|apply Nat.eqb_refl]. apply in_or_app. right. by left.
Qed.

Lemma ordered_head items c c' run :
  ordered items c run -> (forall s, head run = Some s -> c' <= canonical_index s) -> ordered items c' run.
Proof. destruct run as [|s run]; [done|]. intros (_ & ? & ?) Hh. split; [by apply Hh|done]. Qed.

Lemma bare_slots_last_lt items indices bound s :
  Forall (fun i => i < bound) indices -> last (bare_slots items indices) = Some s -> canonical_index s < bound.
Proof.
  intros Hall Hs. apply last_Some_elem_of in Hs. unfold bare_slots, bare_slot in Hs.
  apply list_elem_of_omap in Hs as (i & Hi & E). destruct (items !! i); [|done]. cbn in E. simplify_eq. cbn.
  rewrite Forall_forall in Hall. by apply Hall.
Qed.

Lemma page_before_ordered items page run start :
  page `sublist_of` rev (seq 0 start) -> ordered items 0 run ->
  (forall s, head run = Some s -> canonical_index s = start) ->
  ordered items 0 (bare_slots items (rev page) ++ run).
Proof.
  intros Hsub Ho Hhead.
  assert (StronglySorted lt (rev page)) as Hs.
  { apply StronglySorted_rev. eapply StronglySorted_sublist; [done|]. apply rev_seq_descending. }
  assert (Forall (fun i => i < start) (rev page)) as Hlt.
  { apply Forall_rev, Forall_forall. intros i Hi. eapply elem_of_sublist in Hsub; [|exact Hi].
    apply list_elem_of_In, in_rev, list_elem_of_In, elem_of_seq in Hsub. lia. }
  apply ordered_app. split; [apply bare_slots_ordered; [done|apply Forall_forall; intros; lia]|].
  eapply ordered_head; [done|]. intros s Hh. rewrite (Hhead s Hh).
  destruct (last (bare_slots items (rev page))) as [t|] eqn:E; cbn; [|lia].
  by eapply bare_slots_last_lt.
Qed.
Lemma page_after_ordered items page run stop n :
  page `sublist_of` seq stop n -> ordered items 0 run ->
  (forall s, last run = Some s -> S (canonical_index s) <= stop) ->
  ordered items 0 (run ++ bare_slots items page).
Proof.
  intros Hsub Ho Hlast. apply ordered_app. split; [done|]. apply bare_slots_ordered.
  - eapply StronglySorted_sublist; [done|]. apply seq_ascending.
  - apply Forall_forall. intros i Hi. eapply elem_of_sublist in Hsub; [|exact Hi].
    apply elem_of_seq in Hsub. destruct (last run) as [s|] eqn:E; cbn; [|lia]. specialize (Hlast s eq_refl). lia.
Qed.

Definition bounded (state : DisplayProjectionState) : Prop := length (slots state) <= WINDOW_SLOTS.

Lemma display_ordered items state : display_aligned items state -> ordered items 0 (slots state).
Proof. intros [(stop & Ha & _) _]. by eapply aligned_ordered. Qed.

(** A refresh after the slots were chosen. *)
Lemma refreshed_aligned items state :
  ordered items 0 (slots state) -> canonical_len state = length items ->
  display_aligned items (refresh_gap_ends state items).
Proof.
  intros Ho Hl. split; [by apply refresh_gap_ends_aligned|]. by rewrite (proj1 (refresh_fields items state)).
Qed.

Lemma paged_aligned items state trim_context keep_older context :
  ordered items 0 (slots state) -> canonical_len state = length items ->
  let state' := rebuild_window_items
    ((refresh_gap_ends (trim_slots state trim_context keep_older) items)
       <| window_revision ::= fun r => u64_wrapping_add r 1 |>) context in
  display_aligned items state' /\ bounded state'.
Proof.
  intros Ho Hl. cbv zeta. set (t := trim_slots state trim_context keep_older).
  destruct (trim_slots_slice state trim_context keep_older) as (i & n & Es & _ & El). fold t in Es, El.
  split.
  - eapply (display_aligned_ext _ (refresh_gap_ends t items)); [done..|].
    apply refreshed_aligned; [|by rewrite El]. rewrite Es. by apply ordered_drop, ordered_take.
  - unfold bounded. change (length (slots (refresh_gap_ends t items)) <= WINDOW_SLOTS).
    rewrite refresh_length. apply trim_slots_length.
Qed.

Lemma reconcile_aligned items state observation context direction :
  display_aligned items state -> bounded state ->
  let state' := (reconcile_bounded_window state items observation context direction).1 in
  display_aligned items state' /\ bounded state'.
Proof.
  intros Ha Hb. cbv zeta. pose proof (display_ordered _ _ Ha) as Ho.
  unfold reconcile_bounded_window. destruct (negb (room_window context) || _); [done|].
  destruct (observed_slots state observation) as [[first last_observed]|]; [|done].
  destruct direction as [[|]|]; [|done|].
  - destruct (first <? EDGE_SLOTS); cbn [negb andb orb]; [|done].
    set (start := match head (slots state) with Some slot => canonical_index slot | None => 0 end).
    destruct (start =? 0); cbn [orb]; [done|].
    set (page := page_indices items (rev (seq 0 start))). destruct (is_none (head page)).
    { split; [split; [apply Ha|done]|done]. }
    cbn [fst]. apply paged_aligned; [|done]. cbn [slots update].
    apply (page_before_ordered _ _ _ start); [apply page_indices_spec|done|].
    intros s Hs. unfold start. by rewrite Hs.
  - destruct (length (slots state) <=? last_observed + EDGE_SLOTS); cbn [negb andb orb]; [|done].
    set (stop := match last (slots state) with Some slot => canonical_index slot + 1 | None => 0 end).
    destruct (length items <=? stop); [done|].
    set (page := page_indices items (seq stop (length items - stop))). destruct (is_none (head page)).
    { split; [split; [apply Ha|done]|done]. }
    cbn [fst]. apply paged_aligned; [|done]. cbn [slots update].
    apply (page_after_ordered _ _ _ stop (length items - stop)); [apply page_indices_spec|done|].
    intros s Hs. unfold stop. rewrite Hs. lia.
Qed.

(** * A replacement snapshot *)

Lemma size_union_le (X Y : gset nat) : size (X ∪ Y) <= size X + size Y.
Proof.
  rewrite size_union_alt. assert (size (Y ∖ X) <= size Y); [|lia]. apply subseteq_size. set_solver.
Qed.
Lemma add_index_size i (X : gset nat) : size X <= WINDOW_SLOTS -> size (add_index i X) <= WINDOW_SLOTS.
Proof.
  intros HX. unfold add_index. destruct (Nat.eqb_spec (size X) WINDOW_SLOTS); [done|].
  pose proof (size_union_le {[i]} X) as H. rewrite size_singleton in H. lia.
Qed.
Lemma grow_size i (X : gset nat) : size X < WINDOW_SLOTS -> size ({[i]} ∪ X) <= WINDOW_SLOTS.
Proof.
  intros HX. pose proof (add_index_size i X ltac:(lia)) as H. unfold add_index in H.
  destruct (Nat.eqb_spec (size X) WINDOW_SLOTS); [lia|done].
Qed.
Lemma fold_size {A} (f : gset nat * A -> nat -> gset nat * A) acc l :
  (forall acc i, size acc.1 <= WINDOW_SLOTS -> size (f acc i).1 <= WINDOW_SLOTS) ->
  size acc.1 <= WINDOW_SLOTS -> size (foldl f acc l).1 <= WINDOW_SLOTS.
Proof. intros Hf. revert acc. induction l as [|i l IH]; intros acc Hacc; [done|]. by apply IH, Hf. Qed.
Lemma add_rows_size items X l : size X <= WINDOW_SLOTS -> size (add_rows items X l) <= WINDOW_SLOTS.
Proof.
  unfold add_rows. revert X. induction l as [|i l IH]; intros X HX; [done|]. cbn [foldl]. apply IH.
  destruct (is_some_and _ _); [by apply add_index_size|done].
Qed.
Lemma add_replies_size items X l : size X <= WINDOW_SLOTS -> size (add_replies items X l) <= WINDOW_SLOTS.
Proof.
  unfold add_replies. revert X. induction l as [|i l IH]; intros X HX; [done|]. cbn [foldl]. apply IH.
  destruct (root_at items i); [by apply add_index_size|done].
Qed.

Lemma window_around_spec hash_order revision items retained first last_index :
  StronglySorted lt (window_around hash_order revision items retained first last_index)
  /\ length (window_around hash_order revision items retained first last_index) <= WINDOW_SLOTS.
Proof.
  unfold window_around.
  set (X0 := match last retained with Some i => _ | None => {[last_index]} ∪ {[first]} end).
  assert (size X0 <= WINDOW_SLOTS) as H0.
  { assert (size ({[last_index]} ∪ {[first]} : gset nat) <= 2) as H1.
    { etrans; [apply size_union_le|]. by rewrite !size_singleton. }
    unfold X0. destruct (last retained) as [i|]; [destruct (_ =? _)|]; unfold WINDOW_SLOTS in *; try lia.
    etrans; [apply size_union_le|]. rewrite size_singleton. lia. }
  set (X1 := add_replies items (add_rows items X0 _) retained).
  assert (size X1 <= WINDOW_SLOTS) as H1 by (by apply add_replies_size, add_rows_size).
  set (replies := foldl _ ∅ (hash_order revision X1)).
  pose proof (fold_size (follow_reply items first last_index) (X1, replies)
    (seq first (last_index + 1 - first))) as H2.
  destruct (foldl (follow_reply items first last_index) (X1, replies) _) as [X2 replies2].
  pose proof (fold_size (look_behind items) (X2, 0) (rev (seq 0 first))) as H3.
  destruct (foldl (look_behind items) (X2, 0) _) as [X3 n].
  split; [apply elements_ascending|]. rewrite elements_length. apply add_rows_size. cbn [fst] in *.
  apply H3.
  - intros [X k] i HX. cbn [fst] in *. unfold look_behind.
    destruct (Nat.eqb_spec (size X) WINDOW_SLOTS); cbn [orb]; [done|].
    destruct (k =? PAGE_ROWS); [done|]. destruct (_ && _); [|done]. cbn [fst]. apply grow_size. lia.
  - apply H2; [|done]. intros [X r] i HX. cbn [fst] in *. unfold follow_reply.
    destruct (root_at items i) as [root|]; [|done].
    set (Y := match r !! root with Some _ => _ | None => X end).
    assert (size Y <= size X) as HY.
    { unfold Y. destruct (r !! root); [|done]. destruct (_ && _); [|done]. apply subseteq_size. set_solver. }
    destruct (Nat.ltb_spec (size Y) WINDOW_SLOTS); cbn [fst]; [by apply grow_size|lia].
Qed.

Lemma ordered_slots_replaced items items' run c :
  ordered items c run ->
  forallb (fun slot => is_some_and (items' !! canonical_index slot)
     (fun item => bool_decide (item_id item = item_id (slot_item slot)))) run = true ->
  ordered items' c
    ((fun slot => slot <| slot_item ::= fun item => default item (items' !! canonical_index slot) |>) <$> run).
Proof.
  revert c. induction run as [|s run IH]; intros c Ho Hs; [done|]. csimpl.
  cbn [forallb] in Hs. apply andb_true_iff in Hs as [Hs Hr]. destruct Ho as (Hle & _ & Ho).
  cbn [ordered canonical_index slot_item update]. split; [done|]. split; [|by apply IH].
  destruct (items' !! canonical_index s) as [item|] eqn:E; [|done]. cbn. by apply shows_self.
Qed.

Lemma reset_bounded_aligned hash_order old items state context :
  ordered old 0 (slots state) ->
  let state' := reset_bounded hash_order state items context in
  display_aligned items state' /\ bounded state'.
Proof.
  intros Ho. cbv zeta. unfold reset_bounded. set (s0 := state <| canonical_len := length items |>).
  assert (display_aligned items (return_to_live_window s0 items context).1
    /\ bounded (return_to_live_window s0 items context).1) as Hlive.
  { destruct (return_to_live_aligned s0 items context) as (? & ? & _). by split. }
  destruct (at_bottom (viewport context) || is_none (head items)); [done|].
  destruct (same_positions s0 items && negb (newly_visible_owner s0 items)) eqn:Hsame.
  - apply andb_true_iff in Hsame as [Hsame _]. unfold same_positions in Hsame.
    apply andb_true_iff in Hsame as [Hsame Hids]. apply andb_true_iff in Hsame as [_ Hlen].
    apply Nat.leb_le in Hlen. set (s1 := s0 <| slots := _ |>).
    split.
    + eapply (display_aligned_ext _ (refresh_gap_ends s1 items)); [done..|]. apply refreshed_aligned; [|done].
      by apply (ordered_slots_replaced old).
    + unfold bounded. change (length (slots (refresh_gap_ends s1 items)) <= WINDOW_SLOTS).
      rewrite refresh_length. cbn [s1 slots update]. by rewrite length_fmap.
  - destruct (opt_or _ _) as [anchor|]; [|done]. set (indices := window_around _ _ _ _ _ _).
    destruct (window_around_spec hash_order (window_revision s0) items (retained_indices s0 items)
      (default anchor (replacement_endpoint s0 items (first_visible_event_id (viewport context)))
       `min` default anchor (replacement_endpoint s0 items (last_visible_event_id (viewport context))))
      (default anchor (replacement_endpoint s0 items (first_visible_event_id (viewport context)))
       `max` default anchor (replacement_endpoint s0 items (last_visible_event_id (viewport context)))))
      as [Hs Hl]. fold indices in Hs, Hl. set (s1 := s0 <| slots := bare_slots items indices |>).
    split.
    + eapply (display_aligned_ext _ (refresh_gap_ends s1 items)); [done..|]. apply refreshed_aligned; [|done].
      apply bare_slots_ordered; [done|]. apply Forall_forall. intros; lia.
    + unfold bounded. change (length (slots (refresh_gap_ends s1 items)) <= WINDOW_SLOTS).
      rewrite refresh_length. cbn [s1 slots update]. etrans; [apply bare_slots_length|done].
Qed.

(** * The other choices of slots *)

Lemma rehydrate_aligned items state context :
  let state' := (rehydrate_bounded_visibility state items context).1 in
  display_aligned items state' /\ bounded state'.
Proof.
  cbv zeta. unfold rehydrate_bounded_visibility. set (indices := rehydrated_indices state items context).
  assert (StronglySorted lt indices /\ length indices <= WINDOW_SLOTS) as [Hs Hl].
  { unfold indices, rehydrated_indices. destruct (canonical_window_range state (length items)).
    destruct (slot_owners state items) as [replies ordinary].
    destruct (foldl (add_new_row _ _) _ _) as [ordinary' n'].
    split; [|rewrite length_take; unfold WINDOW_SLOTS; lia].
    eapply StronglySorted_sublist; [apply sublist_take|apply elements_ascending]. }
  set (s1 := state <| slots := bare_slots items indices |>). cbn [fst].
  split.
  - eapply (display_aligned_ext _ ((refresh_gap_ends s1 items) <| canonical_len := length items |>)); [done..|].
    by apply bare_slots_aligned.
  - unfold bounded. change (length (slots (refresh_gap_ends s1 items)) <= WINDOW_SLOTS).
    rewrite refresh_length. cbn [s1 slots update]. etrans; [apply bare_slots_length|done].
Qed.

Lemma from_canonical_window_aligned items window_start window_end :
  display_aligned items (from_canonical_window items window_start window_end).
Proof.
  unfold from_canonical_window. apply refreshed_aligned; [|done]. cbn [slots].
  apply bare_slots_ordered; [apply seq_ascending|]. apply Forall_forall. intros; lia.
Qed.

Lemma aligned_map_items items cursor run stop f :
  (forall s, canonical_index (f s) = canonical_index s /\ gap_before (f s) = gap_before s
     /\ twins (slot_item s) (slot_item (f s))) ->
  aligned items cursor run stop -> aligned items cursor (f <$> run) stop.
Proof.
  intros Hf. revert cursor. induction run as [|s run IH]; intros cursor; [done|]. csimpl.
  intros (H1 & (item & Hi & Ht) & H3 & H4). destruct (Hf s) as (-> & -> & Hs).
  split; [done|]. split; [exists item; split; [done|by etrans]|]. split; [done|by apply IH].
Qed.

Lemma update_send_state_aligned items state transaction_id new_state context :
  display_aligned items state ->
  display_aligned items (update_send_state state transaction_id new_state context).1.
Proof.
  intros [(stop & Ha & Hs & He) Hl]. unfold update_send_state.
  destruct (existsb _ (slots state)); cbn [fst]; (split; [|done]); exists stop; (split; [|done]);
    cbn [slots update]; (apply aligned_map_items; [|done]);
    intros s; destruct (_ && _); done.
Qed.

Lemma rematerialize_aligned items state window_start window_end context :
  display_aligned items (rematerialize_window state items window_start window_end context).1.
Proof.
  eapply (display_aligned_ext _ (from_canonical_window items window_start window_end)); [done..|].
  apply from_canonical_window_aligned.
Qed.

(** * Revisions of single items *)

Definition same_occupancy (x y : TimelineItem) : Prop :=
  item_occupies_display_row x = item_occupies_display_row y.

Lemma ends_ok_occupancy run run' ends : Forall2 same_occupancy run run' -> ends_ok run ends -> ends_ok run' ends.
Proof.
  intros HF (H1 & H2 & H3 & H4). rewrite (Forall2_length _ _ _ HF) in *.
  assert (forall l l', Forall2 same_occupancy l l' -> Forall no_row l -> Forall no_row l') as Hmap.
  { induction 1 as [|x y l l' Hxy _ IH]; [done|]. rewrite !Forall_cons. unfold no_row, same_occupancy in *.
    intros [? ?]. split; [congruence|auto]. }
  split_and!; [done|done|..].
  - eapply Hmap; [by apply Forall2_take|exact H3].
  - eapply Hmap; [by apply Forall2_drop|exact H4].
Qed.

Lemma insert_occupancy items i item :
  (forall old, items !! i = Some old -> same_occupancy old item) ->
  Forall2 same_occupancy items (<[i := item]> items).
Proof.
  intros Hi. apply Forall2_same_length_lookup_2; [by rewrite length_insert|].
  intros j x y Hx Hy. apply list_lookup_insert_Some in Hy as [(-> & -> & _)|[_ Hy]]; [by apply Hi|].
  assert (x = y) as -> by congruence. done.
Qed.

Lemma update_first_not_found (p : DisplayProjectionSlot -> bool) f run :
  Forall (fun s => p s = false) run -> update_first p f run = run.
Proof. induction 1 as [|s run Hs _ IH]; [done|]. cbn. by rewrite Hs, IH. Qed.

Lemma revise_aligned items cursor run stop i item :
  (forall old, items !! i = Some old -> same_occupancy old item) ->
  aligned items cursor run stop ->
  aligned (<[i := item]> items) cursor
    (update_first (fun s => canonical_index s =? i) (fun s => s <| slot_item := item |>) run) stop.
Proof.
  intros Hi. revert cursor. induction run as [|s run IH]; intros cursor; [done|].
  intros (Hle & Hs & He & Ha). cbn [update_first].
  assert (ends_ok (run_of (<[i := item]> items) cursor (canonical_index s)) (gap_before s)) as He'.
  { eapply ends_ok_occupancy; [|done]. unfold run_of. by apply Forall2_take, Forall2_drop, insert_occupancy. }
  destruct (Nat.eqb_spec (canonical_index s) i) as [<-|Hne].
  - split; [done|]. split; [|split; [exact He'|]].
    + cbn. apply shows_self, list_lookup_insert_eq. by eapply shows_lt.
    + assert (Forall (fun t => (canonical_index t =? canonical_index s) = false) run) as Hrest.
      { clear -Ha. assert (forall c, canonical_index s < c -> aligned items c run stop ->
          Forall (fun t => (canonical_index t =? canonical_index s) = false) run) as H; [|eapply H; [|done]; lia].
        clear Ha. induction run as [|t run IH]; intros c Hc; [done|]. intros (Hle & _ & _ & Ha).
        constructor; [apply Nat.eqb_neq; lia|]. by apply (IH (S (canonical_index t)) ltac:(lia)). }
      specialize (IH _ Ha). rewrite update_first_not_found in IH by done. exact IH.
  - split; [done|]. split; [|split; [exact He'|by apply IH]].
    destruct Hs as (old & Hold & Ht). exists old. split; [|done]. by rewrite list_lookup_insert_ne.
Qed.

(** The items a run of revisions leaves, when each keeps the occupancy of its row. *)
Fixpoint keeps_occupancy (items : list TimelineItem) (diffs : list TimelineDiff) : Prop :=
  match diffs with
  | [] => True
  | SetAt index item :: diffs =>
      (forall old, items !! index = Some old -> same_occupancy old item)
      /\ keeps_occupancy (<[index := item]> items) diffs
  | _ :: _ => False
  end.

Lemma revisions_aligned items state diffs context :
  display_aligned items state -> keeps_occupancy items diffs ->
  display_aligned (apply_timeline_diffs_to_items items diffs)
    (apply_non_sdk_item_set_diffs_to_display_items state diffs context).1.
Proof.
  intros Ha Hk. unfold apply_non_sdk_item_set_diffs_to_display_items. cbn [fst].
  eapply (display_aligned_ext _ (foldl revise_slot state diffs)); [done..|]. revert items state Ha Hk.
  induction diffs as [|d diffs IH]; intros items state Ha Hk; [done|].
  destruct d as [| | |i item| | | |]; try done. destruct Hk as [Hi Hk]. cbn [foldl].
  apply (IH (<[i := item]> items)); [|done]. destruct Ha as [(stop & Ha & Hs & He) Hl].
  split; [|cbn; by rewrite length_insert]. exists stop. cbn [revise_slot slots gap_after update].
  split; [by apply revise_aligned|]. rewrite length_insert. split; [done|].
  eapply ends_ok_occupancy; [|done]. by apply Forall2_drop, insert_occupancy.
Qed.

(** * What is read stays *)

(** The event [activity] is read at slot [k]: a row that is not hidden stands for it, and the slot's
    item is that event, which no other slot's is. *)
Definition reads (state : DisplayProjectionState) (activity : string) (k : nat) : Prop :=
  (exists row, row ∈ display_items state /\ is_hidden row = false /\ event_id row = Some activity)
  /\ (exists slot, slots state !! k = Some slot /\ event_id (slot_item slot) = Some activity)
  /\ forall k' slot, slots state !! k' = Some slot -> event_id (slot_item slot) = Some activity -> k' = k.

Lemma has_event_id_true activity item : has_event_id activity item = true <-> event_id item = Some activity.
Proof. unfold has_event_id. apply bool_decide_eq_true. Qed.

Lemma reads_endpoint state activity k prefer_next :
  reads state activity k -> observed_endpoint state activity prefer_next = Some k.
Proof.
  intros ((row & Hrow & Hshown & He) & (slot & Hslot & Hs) & Honly). unfold observed_endpoint.
  destruct (position _ (display_items state)) as [p|] eqn:Hp.
  2: { apply position_None in Hp. rewrite Forall_forall in Hp. specialize (Hp _ Hrow).
       cbn beta in Hp. by rewrite Hshown, (proj2 (has_event_id_true _ _) He) in Hp. }
  apply position_Some in Hp as (shown & Hl & Hb & _). apply andb_true_iff in Hb as [_ Hb%has_event_id_true].
  cbn [mbind option_bind]. rewrite Hl. cbn [mbind option_bind]. unfold slot_for_row. rewrite Hb.
  cbn [mbind option_bind].
  destruct (position _ (slots state)) as [k'|] eqn:Hk.
  - apply position_Some in Hk as (slot' & Hl' & Hb'%has_event_id_true & _). cbn [opt_or].
    by rewrite (Honly _ _ Hl' Hb').
  - apply position_None in Hk. rewrite Forall_lookup in Hk. specialize (Hk _ _ Hslot).
    cbn beta in Hk. by rewrite (proj2 (has_event_id_true _ _) Hs) in Hk.
Qed.

(** C13: trimming a window to its bound never drops what is being read.  When the viewport names two
    events, each shown by a row and held by a slot of its own, at most 240 slots apart and in either
    order, the trimmed window is a contiguous piece of the slots, in their order, that contains
    every slot from the one to the other, and holds exactly 240 slots when there were more (all of
    them when there were not).  Within that it gives up the side it is asked to: keeping the older
    side it drops old slots only to hold the newest one read, otherwise it drops old slots up to
    the bound or to the oldest one read.  (A reader who spans more than 240 slots cannot be kept
    whole, and rows without a slot of their own are not covered.) *)
Theorem trimming_keeps_what_is_read state context keep_older first_event last_event i j :
  first_visible_event_id (viewport context) = Some first_event ->
  last_visible_event_id (viewport context) = Some last_event ->
  reads state first_event i -> reads state last_event j ->
  i `max` j - i `min` j < WINDOW_SLOTS ->
  exists start,
    slots (trim_slots state context keep_older) = take WINDOW_SLOTS (drop start (slots state))
    /\ length (slots (trim_slots state context keep_older)) = WINDOW_SLOTS `min` length (slots state)
    /\ start <= i `min` j /\ i `max` j < start + WINDOW_SLOTS
    /\ (length (slots state) <= WINDOW_SLOTS -> start = 0)
    /\ (WINDOW_SLOTS < length (slots state) ->
        if keep_older then start = 0 \/ start + WINDOW_SLOTS = i `max` j + 1
        else start + WINDOW_SLOTS = length (slots state) \/ start = i `min` j).
Proof.
  intros Ef El Hi Hj Hspan.
  assert (observed_slots state (viewport context) = Some (i `min` j, i `max` j)) as Ho.
  { unfold observed_slots. rewrite Ef, El. cbn [mbind option_bind].
    rewrite (reads_endpoint _ _ _ true Hi), (reads_endpoint _ _ _ false Hj). cbn [mbind option_bind].
    by rewrite (proj2 (Nat.ltb_lt _ _) Hspan). }
  destruct (observed_slots_spec _ _ _ _ Ho) as (Hfl & Hlast & _).
  unfold trim_slots. destruct (Nat.leb_spec (length (slots state)) WINDOW_SLOTS) as [Hshort|Hlong].
  { exists 0. rewrite drop_0, take_ge by done. split_and!; [done|lia|lia|lia|done|lia]. }
  set (start := trim_start state (viewport context) keep_older).
  assert (start <= i `min` j /\ i `max` j < start + WINDOW_SLOTS
    /\ start + WINDOW_SLOTS <= length (slots state)
    /\ if keep_older then start = 0 \/ start + WINDOW_SLOTS = i `max` j + 1
       else start + WINDOW_SLOTS = length (slots state) \/ start = i `min` j) as (H1 & H2 & H3 & H4).
  { unfold start, trim_start. rewrite Ho. destruct keep_older; lia. }
  exists start. cbn [slots update]. rewrite <-take_drop_commute. split; [done|].
  rewrite length_take, length_drop. split_and!; [lia|done|done|lia|done].
Qed.

(** A room of 300 rows whose reader looks at rows 40 to 50, all of them in the window. *)
Definition demo_id (i : nat) : string :=
  ("$" +:+ String (Ascii.ascii_of_nat (97 + i / 20)) (String (Ascii.ascii_of_nat (97 + i mod 20)) ""))%string.
Definition demo_history (n : nat) : list TimelineItem := (fun i => demo_row (demo_id i)) <$> seq 0 n.
Definition demo_viewport (revision : option Z) (first last : nat) : TimelineViewportObservation :=
  {| display_window_revision := revision; first_visible_event_id := Some (demo_id first);
     last_visible_event_id := Some (demo_id last); visible_gap_ids := []; at_bottom := false;
     bottom_arrival := Arrival_User |}.
Definition demo_context : DisplayProjectionContext := for_timeline true (demo_viewport None 40 50).
Definition demo_window : DisplayProjectionState :=
  rebuild_window_items (from_canonical_window (demo_history 300) 0 300) demo_context.

(** The boolean of [reads]. *)
Definition readsb (state : DisplayProjectionState) (activity : string) (k : nat) : bool :=
  existsb (fun row => negb (is_hidden row) && has_event_id activity row) (display_items state)
  && is_some_and (slots state !! k) (fun slot => has_event_id activity (slot_item slot))
  && forallb (fun entry : nat * DisplayProjectionSlot =>
       negb (has_event_id activity (slot_item entry.2)) || (entry.1 =? k)) (imap pair (slots state)).
Lemma readsb_reads state activity k : readsb state activity k = true -> reads state activity k.
Proof.
  unfold readsb. rewrite !andb_true_iff. intros [[Hrow Hslot] Honly]. split; [|split].
  - apply existsb_exists in Hrow as (row & Hin & Hb). apply andb_true_iff in Hb as [Hh Hb].
    exists row. split; [by apply list_elem_of_In|]. split; [by apply negb_true_iff|by apply has_event_id_true].
  - destruct (slots state !! k) as [slot|]; [|done]. exists slot. split; [done|]. by apply has_event_id_true.
  - intros k' slot Hl He. rewrite forallb_forall in Honly. specialize (Honly (k', slot)). cbn [fst snd] in Honly.
    rewrite (proj2 (has_event_id_true _ _) He) in Honly. cbn [negb orb] in Honly. apply Nat.eqb_eq, Honly.
    apply list_elem_of_In, elem_of_lookup_imap. by exists k', slot.
Qed.

Example trimming_keeps_what_is_read_witness :
  length (slots demo_window) = 300 /\ reads demo_window (demo_id 40) 40 /\ reads demo_window (demo_id 50) 50
  /\ exists start,
    slots (trim_slots demo_window demo_context false) = take WINDOW_SLOTS (drop start (slots demo_window))
    /\ length (slots (trim_slots demo_window demo_context false))
       = WINDOW_SLOTS `min` length (slots demo_window)
    /\ start <= 40 `min` 50 /\ 40 `max` 50 < start + WINDOW_SLOTS
    /\ (length (slots demo_window) <= WINDOW_SLOTS -> start = 0)
    /\ (WINDOW_SLOTS < length (slots demo_window) ->
        start + WINDOW_SLOTS = length (slots demo_window) \/ start = 40 `min` 50).
Proof.
  assert (reads demo_window (demo_id 40) 40) as H1 by (apply readsb_reads; vm_compute; reflexivity).
  assert (reads demo_window (demo_id 50) 50) as H2 by (apply readsb_reads; vm_compute; reflexivity).
  split; [vm_compute; reflexivity|]. split; [exact H1|]. split; [exact H2|].
  apply (trimming_keeps_what_is_read demo_window demo_context false (demo_id 40) (demo_id 50) 40 50);
    [reflexivity|reflexivity|exact H1|exact H2|].
  apply (bool_decide_eq_true_1 (_ < _)). reflexivity.
Defined.
