(* ===== verification/DisplayBatchProps.v ===== *)
(** An SDK batch keeps the canonical list, the rope and the slots in step ([DisplayBatch.v]). *)

From stdpp Require Import base list strings gmap.
From Stdlib Require Import ZArith Lia.
From S2P Require Import Prelude Text TimelineItem DisplayRope DisplayRopeProps DisplayRows DisplayDiffs DisplayDiffsProps BoundedWindow BoundedWindowProps DisplayBatch.
Local Open Scope list_scope.
Local Open Scope nat_scope.

(** * Memberships of a canonical list *)

(** What a membership claims of its item. *)
Definition mirrors_item (item : TimelineItem) (u : Membership) : Prop :=
  match u with Shown shown => twins item shown | Transparent => no_row item | Trimmed => True end.
Definition mirrors (items : list TimelineItem) (us : list Membership) : Prop :=
  Forall2 mirrors_item items us.

Lemma mirrors_hidden item : mirrors_item item (hidden_unit item).
Proof. unfold hidden_unit. by destruct (item_occupies_display_row item) eqn:E. Qed.
Lemma mirrors_hide item u : mirrors_item item u -> mirrors_item item (hide_unit u).
Proof.
  destruct u as [| |shown]; [done..|]. cbn [mirrors_item hide_unit]. intros Ht. unfold hidden_unit.
  destruct (item_occupies_display_row shown) eqn:E; [done|]. cbn. unfold no_row.
  by rewrite (proj1 (twins_row _ _ Ht)).
Qed.
Lemma mirrors_vec_insert i item u items us :
  mirrors_item item u -> mirrors items us -> mirrors (vec_insert i item items) (vec_insert i u us).
Proof.
  intros Hu Hm. unfold vec_insert. apply Forall2_app; [by apply Forall2_take|].
  constructor; [done|by apply Forall2_drop].
Qed.
Lemma mirrors_replicate run u :
  Forall (fun item => mirrors_item item u) run -> mirrors run (replicate (length run) u).
Proof. induction 1 as [|item run Hi _ IH]; [constructor|]. by constructor. Qed.
Lemma mirrors_hide_where p items us : mirrors items us -> mirrors items (hide_where p us).
Proof.
  intros Hm. apply Forall2_same_length_lookup_2; [by rewrite hide_where_length, (Forall2_length _ _ _ Hm)|].
  intros i item u Hi Hu. rewrite hide_where_lookup, fmap_Some in Hu. destruct Hu as (v & Hv & ->).
  pose proof (Forall2_lookup_lr _ _ _ _ _ _ Hm Hi Hv). destruct (p i); [by apply mirrors_hide|done].
Qed.
Lemma mirrors_trim items us m : mirrors items us -> mirrors items (trim_units us m).
Proof.
  intros Hm. destruct m as [m|]; [|done]. cbn [trim_units].
  destruct (hide_units_prefix (newest_replies_only us)
    (slots_in (newest_replies_only us) - m * 2, rows_in (newest_replies_only us) - m)) as (c & -> & _).
  pose proof (mirrors_hide_where (fun i => bool_decide (i ∈ stale_replies (reply_units us 0))) _ _ Hm) as Hn.
  fold (newest_replies_only us) in Hn. rewrite <-(take_drop c items).
  apply Forall2_app; [|by apply Forall2_drop]. apply Forall2_fmap_r.
  eapply Forall2_impl; [by apply Forall2_take|]. intros. by apply mirrors_hide.
Qed.
Lemma mirrors_length items us : mirrors items us -> length us = length items.
Proof. intros H. symmetry. by eapply Forall2_length. Qed.

(** * From slots to the rope *)

Lemma push_run_mirrors run ends : ends_ok run ends -> mirrors run (expand_all (push_run (length run) ends)).
Proof.
  intros (Hl & Ht & Hlead & Htrail). unfold push_run. rewrite Nat.min_l by done.
  destruct (Nat.eqb_spec (lead ends) (length run)) as [E|E].
  - unfold expand_all. cbn. rewrite app_nil_r. apply mirrors_replicate.
    rewrite E, take_ge in Hlead by done. exact Hlead.
  - set (n := lead ends) in *. set (t := trail ends `min` (length run - n)).
    set (g := length run - n - t). unfold expand_all. cbn [mbind list_bind expand]. rewrite app_nil_r.
    assert (length run = n + g + t) as Hlen by lia.
    assert (forall m us k, length us = k -> Forall (fun item => mirrors_item item m) us ->
      Forall2 mirrors_item us (replicate k m)) as Hrep by (intros m us k <-; apply mirrors_replicate).
    rewrite (cut3 run n g). apply Forall2_app; [|apply Forall2_app]; apply Hrep.
    + rewrite length_take. lia.
    + exact Hlead.
    + rewrite length_take, length_drop. lia.
    + by apply Forall_forall.
    + rewrite length_drop. lia.
    + replace (n + g) with ((length run - trail ends) + (trail ends - t)) by lia.
      rewrite <-drop_drop. by apply Forall_drop.
Qed.

Lemma run_of_length (items : list TimelineItem) from to : from <= to <= length items -> length (run_of items from to) = to - from.
Proof. intros. unfold run_of. rewrite length_take, length_drop. lia. Qed.
Lemma take_run (items : list TimelineItem) from to :
  from <= to -> take to items = take from items ++ run_of items from to.
Proof.
  intros Hle. unfold run_of. replace to with (from + (to - from)) at 1 by lia. apply take_add_app'.
Qed.

Lemma push_slots_mirrors items run cursor stop cs :
  aligned items cursor run stop -> cursor <= length items ->
  mirrors (take cursor items) (expand_all cs) ->
  exists cs', foldl (push_slot (length items)) (cs, cursor, false, true) run = (cs', stop, false, true)
    /\ mirrors (take stop items) (expand_all cs').
Proof.
  revert cursor cs. induction run as [|s run IH]; intros cursor cs; cbn [aligned foldl].
  { intros ->. by exists cs. }
  intros (Hle & (item & Hi & Ht) & He & Ha) Hc Hm. pose proof (lookup_lt_Some _ _ _ Hi) as Hlt.
  assert (push_slot (length items) (cs, cursor, false, true) s
    = (cs ++ push_run (canonical_index s - cursor) (gap_before s) ++ [Slot (slot_item s)],
       canonical_index s + 1, false, true)) as ->.
  { unfold push_slot. rewrite (proj2 (Nat.ltb_ge _ _) Hle), (proj2 (Nat.leb_gt _ _) Hlt). done. }
  rewrite Nat.add_1_r. apply IH; [done|lia|].
  rewrite (take_S_r _ _ _ Hi), (take_run items cursor) by done.
  rewrite !expand_all_app, <-app_assoc. apply Forall2_app; [done|]. apply Forall2_app.
  - pose proof (push_run_mirrors _ _ He) as H. by rewrite run_of_length in H by lia.
  - by repeat constructor.
Qed.

Lemma projection_cells_mirrors items run after :
  slots_aligned items run after ->
  exists cs, projection_cells (length items) run after = (cs, false) /\ mirrors items (expand_all cs).
Proof.
  intros (stop & Ha & Hs & He). unfold projection_cells.
  destruct (push_slots_mirrors items run 0 stop [] Ha) as (cs & -> & Hm); [lia|by constructor|].
  eexists. split; [done|]. rewrite expand_all_app. rewrite <-(take_drop stop items) at 1.
  apply Forall2_app; [done|]. pose proof (push_run_mirrors _ _ He) as H. by rewrite length_drop in H.
Qed.

(** * From the rope to slots *)

(** The state of the materialization after the first [n] canonical items. *)
Definition mat_ok (items : list TimelineItem) (m : Materializing) : Prop :=
  exists stop, aligned items 0 (mat_slots m) stop /\ stop <= mat_index m <= length items
  /\ let run := run_of items stop (mat_index m) in
     mat_lead m <= length run /\ mat_trail m <= length run
     /\ Forall no_row (take (mat_lead m) run) /\ Forall no_row (drop (length run - mat_trail m) run)
     /\ (mat_trimmed m = false -> mat_lead m = length run).

Lemma run_ends_ok (run : list TimelineItem) lead trail trimmed :
  lead <= length run -> trail <= length run ->
  Forall no_row (take lead run) -> Forall no_row (drop (length run - trail) run) ->
  ends_ok run (run_ends lead trail trimmed).
Proof.
  intros H1 H2 H3 H4. unfold run_ends. destruct trimmed; [by repeat split|].
  repeat split; cbn [DisplayRope.lead DisplayRope.trail]; [done|lia|done|]. by rewrite Nat.sub_0_r, drop_all.
Qed.

Lemma run_of_extend (items : list TimelineItem) from mid n :
  from <= mid -> run_of items from (mid + n) = run_of items from mid ++ take n (drop mid items).
Proof.
  intros Hle. unfold run_of. replace (mid + n - from) with ((mid - from) + n) by lia.
  rewrite take_add_app', drop_drop. by replace (from + (mid - from)) with mid by lia.
Qed.

Lemma Forall2_replicate_inv (run : list TimelineItem) n u :
  Forall2 mirrors_item run (replicate n u) -> length run = n /\ Forall (fun item => mirrors_item item u) run.
Proof.
  revert run. induction n as [|n IH]; intros run H; cbn in H.
  - apply Forall2_nil_inv_r in H as ->. by split.
  - apply Forall2_cons_inv_r in H as (x & l & Hx & H & ->). destruct (IH _ H) as [<- ?]. split; [done|]. by constructor.
Qed.

Lemma materialize_cell_ok items m cell :
  mat_ok items m ->
  Forall2 mirrors_item (take (cell_canonical_len cell) (drop (mat_index m) items)) (expand cell) ->
  mat_ok items (materialize_cell m cell)
  /\ mat_index (materialize_cell m cell) = mat_index m + cell_canonical_len cell.
Proof.
  intros (stop & Ha & Hs & H1 & H2 & H3 & H4 & H5) Hcell. set (run := run_of items stop (mat_index m)) in *.
  pose proof (Forall2_length _ _ _ Hcell) as Hlen. rewrite expand_length, length_take, length_drop in Hlen.
  destruct cell as [n|n|shown]; cbn [materialize_cell cell_canonical_len expand] in *; (split; [|done]).
  - exists stop. cbn [mat_slots mat_index mat_lead mat_trail mat_trimmed]. split; [done|]. split; [lia|].
    cbv zeta. rewrite run_of_extend by lia. fold run. set (ext := take n (drop (mat_index m) items)) in *.
    assert (length ext = n) as Hext by (unfold ext; rewrite length_take, length_drop; lia).
    rewrite length_app, Hext. split; [lia|]. split; [lia|]. split; [|split].
    + by rewrite take_app_le by lia.
    + rewrite Nat.sub_0_r, drop_ge by (rewrite length_app; lia). done.
    + intros [Ht Hn]%orb_false_iff. apply Nat.ltb_ge in Hn. rewrite (H5 Ht). lia.
  - destruct (Forall2_replicate_inv _ _ _ Hcell) as [Hext Hno].
    exists stop. cbn [mat_slots mat_index mat_lead mat_trail mat_trimmed]. split; [done|]. split; [lia|].
    cbv zeta. rewrite run_of_extend by lia. fold run. set (ext := take n (drop (mat_index m) items)) in *.
    rewrite length_app, Hext. split; [destruct (mat_trimmed m); lia|]. split; [lia|]. split; [|split].
    + destruct (mat_trimmed m) eqn:Et; [by rewrite take_app_le by lia|].
      rewrite (H5 eq_refl), take_ge by (rewrite length_app; lia). apply Forall_app. split; [|exact Hno].
      rewrite (H5 eq_refl), take_ge in H3 by done. exact H3.
    + replace (length run + n - (mat_trail m + n)) with (length run - mat_trail m) by lia.
      rewrite drop_app_le by lia. by apply Forall_app.
    + intros Ht. rewrite Ht, (H5 Ht). done.
  - destruct (drop (mat_index m) items) as [|item rest] eqn:Ed; [apply (f_equal length) in Ed; rewrite length_drop in Ed; cbn [length] in Ed; lia|].
    cbn [take] in Hcell. apply Forall2_cons_1 in Hcell as [Ht _].
    assert (items !! mat_index m = Some item) as Hi by (by rewrite <-(Nat.add_0_r (mat_index m)), <-lookup_drop, Ed).
    pose proof (lookup_lt_Some _ _ _ Hi) as Hlt.
    exists (S (mat_index m)). cbn [mat_slots mat_index mat_lead mat_trail mat_trimmed]. split; [|split; [lia|]].
    + apply aligned_app. exists stop. split; [done|]. cbn [aligned canonical_index slot_item gap_before].
      split; [lia|]. split; [by exists item|]. split; [by apply run_ends_ok|done].
    + cbv zeta. rewrite Nat.add_1_r. unfold run_of. rewrite Nat.sub_diag, take_0. by split_and!.
Qed.

Lemma materialize_cells_ok items m cs :
  mat_ok items m -> Forall2 mirrors_item (drop (mat_index m) items) (expand_all cs) ->
  mat_ok items (foldl materialize_cell m cs) /\ mat_index (foldl materialize_cell m cs) = length items.
Proof.
  revert m. induction cs as [|cell cs IH]; intros m Hok Hm; cbn [foldl].
  - split; [done|]. apply Forall2_nil_inv_r in Hm. destruct Hok as (stop & _ & Hs & _).
    apply (f_equal length) in Hm. rewrite length_drop in Hm. cbn in Hm. lia.
  - rewrite expand_all_cons in Hm. apply Forall2_app_inv_r in Hm as (l1 & l2 & H1 & H2 & Hd).
    pose proof (Forall2_length _ _ _ H1) as Hlen. rewrite expand_length in Hlen.
    destruct (materialize_cell_ok items m cell Hok) as [Hok' Hidx].
    { rewrite Hd, take_app_length' by done. done. }
    apply IH; [done|]. rewrite Hidx, <-drop_drop, Hd, drop_app_length' by done. done.
Qed.

Lemma materialize_aligned items rope state context :
  mirrors items (units rope) ->
  exists state', materialize rope state context = Some state' /\ display_aligned items state'
    /\ window_revision state' = window_revision state.
Proof.
  intros Hm. unfold materialize. rewrite materialize_slots_spec. cbn [mbind option_bind].
  destruct (materialize_cells_ok items
    {| mat_slots := []; mat_index := 0; mat_lead := 0; mat_trail := 0; mat_trimmed := false |}
    (cells (rope_root rope))) as [(stop & Ha & Hs & H1 & H2 & H3 & H4 & H5) Hidx].
  { exists 0. cbn. split; [done|]. split; [lia|]. by split_and!. }
  { exact Hm. }
  eexists. split; [done|]. split; [|done]. split.
  - exists stop. cbn [slots gap_after rebuild_window_items update]. split; [done|]. split; [lia|].
    assert (run_of items stop (mat_index (foldl materialize_cell
      {| mat_slots := []; mat_index := 0; mat_lead := 0; mat_trail := 0; mat_trimmed := false |}
      (cells (rope_root rope)))) = drop stop items) as E.
    { rewrite Hidx. unfold run_of. rewrite take_ge; [done|]. by rewrite length_drop. }
    rewrite E in *. by apply run_ends_ok.
  - exact Hidx.
Qed.

(** * One update of a batch *)

(** An update that addresses an item of a list of [len] items. *)
Definition in_range (len : nat) (diff : TimelineDiff) : bool :=
  match diff with
  | Insert index _ => index <=? len
  | SetAt index _ | Remove index => index <? len
  | Truncate n => n <=? len
  | PushFront _ | PushBack _ | Clear | Reset _ => true
  end.
Fixpoint all_in_range (items : list TimelineItem) (diffs : list TimelineDiff) : bool :=
  match diffs with
  | [] => true
  | diff :: diffs => in_range (length items) diff && all_in_range (apply_timeline_diff items diff) diffs
  end.

(** The canonical list with the front insertions that wait to be spliced. *)
Definition flushed (b : BatchState) : list TimelineItem :=
  flush_pending_canonical_push_fronts (canonical_items b) (pending_push_fronts b).
Record batch_ok (b : BatchState) : Prop := {
  ok_rope : wf_rope (membership b);
  ok_mirrors : mirrors (flushed b) (units (membership b));
  ok_taken : slots (batch_display b) = [] }.

Lemma take_membership_ok items state :
  slots_aligned items (slots state) (gap_after state) ->
  exists rope, take_membership (length items) state = Some (rope, false, state <| slots := [] |>)
    /\ wf_rope rope /\ mirrors items (units rope).
Proof.
  intros Ha. unfold take_membership, from_projection_state.
  destruct (projection_cells_mirrors _ _ _ Ha) as (cs & -> & Hm).
  destruct (from_cells_spec cs) as (rope & -> & Hw & Hc). cbn [mbind option_bind].
  exists rope. split; [done|]. split; [done|]. by rewrite Hc.
Qed.

Lemma window_rope_ok items start :
  exists rope, rope_from_canonical_window items start (length items) = Some rope
    /\ wf_rope rope /\ mirrors items (units rope).
Proof.
  unfold rope_from_canonical_window.
  destruct (from_cells_spec (window_cells items start (length items))) as (rope & E & Hw & Hc).
  exists rope. split; [done|]. split; [done|]. rewrite Hc. unfold window_cells.
  rewrite Nat.min_id. set (s := start `min` length items).
  assert (s <= length items) as Hs by (unfold s; lia).
  rewrite (Nat.max_l _ _ Hs), Nat.sub_diag, !expand_all_app.
  change (expand_all [Gap 0]) with (@nil Membership). rewrite app_nil_r.
  rewrite (take_ge (drop s items)) by (by rewrite length_drop).
  rewrite <-(take_drop s items) at 1. apply Forall2_app.
  - unfold expand_all. cbn. rewrite app_nil_r. replace s with (length (take s items)) at 2
      by (rewrite length_take; lia). by apply mirrors_replicate, Forall_forall.
  - induction (drop s items) as [|x l IH]; [constructor|]. rewrite fmap_cons, expand_all_cons.
    by constructor.
Qed.

Lemma trim_membership_ok context b : batch_ok b -> batch_ok (trim_membership context b).
Proof.
  intros [Hw Hm Ht]. unfold trim_membership.
  destruct (trim_to_live_edge_spec (membership b) (max_live_edge_items context) Hw) as [Hw' Hc'].
  constructor; cbn [membership batch_display]; [done| |done].
  rewrite Hc'. change (mirrors (flushed b) (trim_units (units (membership b)) (max_live_edge_items context))).
  by apply mirrors_trim.
Qed.

(** What a step promises: it succeeds, follows the update, and keeps the invariant. *)
Definition step_ok (context : DisplayProjectionContext) (b : BatchState) (diff : TimelineDiff)
    (result : option BatchState) : Prop :=
  exists b', result = Some b' /\ batch_ok b'
    /\ flushed b' = apply_timeline_diff (flushed b) diff
    /\ translation_ambiguous b' = translation_ambiguous b || negb (in_range (length (flushed b)) diff).

Lemma trimmed_step_ok context b diff b' :
  batch_ok b' -> flushed b' = apply_timeline_diff (flushed b) diff ->
  translation_ambiguous b' = translation_ambiguous b || negb (in_range (length (flushed b)) diff) ->
  step_ok context b diff (Some (trim_membership context b')).
Proof. intros. eexists. split; [done|]. split; [by apply trim_membership_ok|]. by split. Qed.

Lemma owner_of_twin old u :
  mirrors_item old u -> owner_matches (timeline_item_render_id old) u = true.
Proof.
  destruct u as [| |shown]; [done..|]. intros Ht. cbn. apply String.eqb_eq. symmetry. by apply twins_row.
Qed.
Lemma mirrors_replaced item u : mirrors_item item (replaced_unit item u).
Proof. destruct u; [apply mirrors_hidden..|done]. Qed.

Lemma vec_insert_end {A} (x : A) l : vec_insert (length l) x l = l ++ [x].
Proof. unfold vec_insert. by rewrite take_ge, drop_ge by done. Qed.

Lemma insert_step b (items := flushed b) index item include :
  batch_ok b -> index <= length items ->
  let b' := check_membership b (vec_insert index item items)
              (rope_insert (membership b) index item include) in
  batch_ok b' /\ flushed b' = vec_insert index item items
  /\ translation_ambiguous b' = translation_ambiguous b.
Proof.
  intros [Hw Hm Ht] Hi. cbv zeta. pose proof (mirrors_length _ _ Hm) as Hlen. fold items in Hm, Hlen.
  destruct (rope_insert_spec (membership b) index item include Hw) as (E & Hw' & Hc'); [lia|].
  destruct (rope_insert (membership b) index item include) as [answer rope]. cbn [fst snd] in *. subst answer.
  unfold check_membership. cbn [fst snd negb]. rewrite orb_false_r. split; [|done].
  constructor; cbn [membership batch_display]; [done| |done]. rewrite Hc'.
  change (mirrors (vec_insert index item items) (vec_insert index
    (inserted_unit (units (membership b)) index item include) (units (membership b)))).
  apply mirrors_vec_insert; [|done]. unfold inserted_unit. destruct (default _ include); [done|apply mirrors_hidden].
Qed.

Lemma batch_step_ok hash_order context b diff :
  batch_ok b -> step_ok context b diff (batch_step hash_order context b diff).
Proof.
  intros Hok. pose proof Hok as [Hw Hm Ht]. pose proof (mirrors_length _ _ Hm) as Hlen.
  set (items := flushed b) in *. unfold batch_step. fold (flushed b). fold items.
  destruct diff as [item|item|index item|index item|index|len| |reset_items].
  - destruct (rope_insert_spec (membership b) 0 item None Hw) as (E & Hw' & Hc'); [lia|].
    destruct (rope_insert (membership b) 0 item None) as [answer rope]. cbn [fst snd] in *. subst answer.
    set (b' := {| canonical_items := canonical_items b; batch_display := batch_display b; membership := rope;
                  translation_ambiguous := translation_ambiguous b || negb true;
                  pending_push_fronts := pending_push_fronts b ++ [item] |}).
    assert (flushed b' = item :: items) as Hf.
    { unfold b', flushed, flush_pending_canonical_push_fronts. cbn [canonical_items pending_push_fronts].
      by rewrite rev_app_distr. }
    apply trimmed_step_ok; [|exact Hf|done]. constructor; [done| |done]. rewrite Hf. cbn [membership b'].
    rewrite Hc'. apply (mirrors_vec_insert 0); [|done]. unfold inserted_unit.
    destruct (default _ None); [done|apply mirrors_hidden].
  - destruct (insert_step b (length items) item (Some (include_append context)) Hok) as (H1 & H2 & H3); [done|].
    fold items in H1, H2, H3. rewrite vec_insert_end in H1, H2, H3.
    apply trimmed_step_ok; [done|done|]. by rewrite H3, orb_false_r.
  - set (i := index `min` length items).
    destruct (insert_step (flag b (length items <? index)) i item None) as (H1 & H2 & H3);
      [by constructor|exact (Nat.le_min_r index (length items))|].
    change (flushed (flag b (length items <? index))) with items in H1, H2, H3.
    apply trimmed_step_ok; [exact H1|exact H2|]. cbn [in_range]. etrans; [exact H3|].
    cbn [flag translation_ambiguous]. f_equal. by rewrite <-Nat.ltb_antisym.
  - destruct (items !! index) as [old|] eqn:E.
    + pose proof (lookup_lt_Some _ _ _ E) as Hi.
      destruct (rope_set_spec (membership b) index item (timeline_item_render_id old) Hw) as (u & Hu & Ho & Hw' & Hc'); [lia|].
      pose proof (Forall2_lookup_lr _ _ _ _ _ _ Hm E Hu) as Hmu. rewrite (owner_of_twin _ _ Hmu) in Ho.
      destruct (rope_set (membership b) index item _) as [answer rope]. cbn [fst snd] in *. subst answer.
      apply trimmed_step_ok; [|done|].
      * constructor; [done| |done]. cbn [membership check_membership snd]. rewrite Hc'.
        apply Forall2_insert; [done|apply mirrors_replaced].
      * cbn [in_range check_membership translation_ambiguous fst negb]. fold items. by rewrite (proj2 (Nat.ltb_lt _ _) Hi).
    + apply lookup_ge_None in E. eexists. split; [done|]. split; [by constructor|]. split.
      * change (items = <[index := item]> items). by rewrite list_insert_ge.
      * cbn [in_range mark_ambiguous translation_ambiguous]. fold items.
        by rewrite (proj2 (Nat.ltb_ge _ _) E), orb_true_r.
  - destruct (items !! index) as [old|] eqn:E.
    + pose proof (lookup_lt_Some _ _ _ E) as Hi.
      destruct (rope_remove_spec (membership b) index (timeline_item_render_id old) Hw) as (u & Hu & Ho & Hw' & Hc'); [lia|].
      pose proof (Forall2_lookup_lr _ _ _ _ _ _ Hm E Hu) as Hmu. rewrite (owner_of_twin _ _ Hmu) in Ho.
      destruct (rope_remove (membership b) index _) as [answer rope]. cbn [fst snd] in *. subst answer.
      apply trimmed_step_ok; [|done|].
      * constructor; [done| |done]. cbn [membership check_membership snd]. rewrite Hc'.
        by apply Forall2_delete.
      * cbn [in_range check_membership translation_ambiguous fst negb]. fold items. by rewrite (proj2 (Nat.ltb_lt _ _) Hi).
    + apply lookup_ge_None in E. eexists. split; [done|]. split; [by constructor|]. split.
      * change (items = delete index items). rewrite delete_take_drop, take_ge, drop_ge by lia. by rewrite app_nil_r.
      * cbn [in_range mark_ambiguous translation_ambiguous]. fold items.
        by rewrite (proj2 (Nat.ltb_ge _ _) E), orb_true_r.
  - destruct (rope_truncate_spec (membership b) len Hw) as [Hw' Hc'].
    apply trimmed_step_ok; [|done|].
    + constructor; [done| |done]. cbn [membership check_membership snd]. rewrite Hc'. by apply Forall2_take.
    + cbn [in_range check_membership flag translation_ambiguous fst negb]. rewrite orb_false_r.
      f_equal. by rewrite <-Nat.ltb_antisym.
  - apply trimmed_step_ok; [|done|done]. constructor; [done|constructor|done].
  - destruct (room_window context).
    + destruct (reset_bounded_aligned hash_order [] reset_items (batch_display b) context) as [[Ha _] _].
      { by rewrite Ht. }
      destruct (take_membership_ok _ _ Ha) as (rope & -> & Hw' & Hm'). cbn [mbind option_bind].
      apply trimmed_step_ok; [|done|done]. by constructor.
    + set (start := match max_live_edge_items context with Some _ => _ | None => 0 end).
      destruct (window_rope_ok reset_items start) as (rope & -> & Hw' & Hm'). cbn [mbind option_bind].
      apply trimmed_step_ok; [|done|done]. by constructor.
Qed.

Lemma batch_steps_ok hash_order context b diffs :
  batch_ok b ->
  exists b', batch_steps hash_order context b diffs = Some b' /\ batch_ok b'
    /\ flushed b' = apply_timeline_diffs_to_items (flushed b) diffs
    /\ translation_ambiguous b' = translation_ambiguous b || negb (all_in_range (flushed b) diffs).
Proof.
  revert b. induction diffs as [|d diffs IH]; intros b Hok; cbn [batch_steps all_in_range].
  { exists b. by rewrite orb_false_r. }
  destruct (batch_step_ok hash_order context b d Hok) as (b1 & -> & Hok1 & Hf1 & Ha1). cbn [mbind option_bind].
  destruct (IH b1 Hok1) as (b2 & E & Hok2 & Hf2 & Ha2). exists b2. split; [done|]. split; [done|].
  rewrite Hf2, Hf1, Ha2, Ha1, Hf1. split; [done|].
  by rewrite <-orb_assoc, negb_andb.
Qed.

(** * A whole batch *)

Lemma project_sdk_batch_ok hash_order context items state diffs :
  display_aligned items state ->
  exists state' batch,
    project_sdk_batch hash_order context items state diffs
    = Some (apply_timeline_diffs_to_items items diffs, state', batch)
    /\ display_aligned (apply_timeline_diffs_to_items items diffs) state'
    /\ (room_window context = true -> bounded state')
    /\ display_after batch = display_items state'
    /\ (batch_diffs batch, used_reset_fallback batch)
       = finalize_display_projection_diffs (display_items state) (display_items state')
           (negb (all_in_range items diffs)).
Proof.
  intros [Ha Hl]. unfold project_sdk_batch.
  set (s0 := if room_window context && negb (is_none (head diffs)) then bump_revision state else state).
  assert (slots_aligned items (slots s0) (gap_after s0)) as Ha0 by (unfold s0; destruct (_ && _); exact Ha).
  destruct (take_membership_ok _ _ Ha0) as (rope & -> & Hw & Hm). cbn [mbind option_bind].
  set (b0 := {| canonical_items := items; batch_display := s0 <| slots := [] |>; membership := rope;
                translation_ambiguous := false; pending_push_fronts := [] |}).
  destruct (batch_steps_ok hash_order context b0 diffs) as (b & -> & [Hwb Hmb _] & Hf & Hamb); [by constructor|].
  cbn [mbind option_bind]. fold (flushed b). change (flushed b0) with items in Hf, Hamb.
  rewrite Hf in *. set (items' := apply_timeline_diffs_to_items items diffs) in *.
  destruct (materialize_aligned items' (membership b) (batch_display b) context Hmb) as (s1 & -> & Ha1 & _).
  cbn [mbind option_bind].
  destruct (bound_after_batch_aligned items' s1 context Ha1) as [Ha2 Hb2].
  rewrite rope_len, (mirrors_length _ _ Hmb), Nat.eqb_refl, orb_false_r, Hamb by done. cbn [orb translation_ambiguous b0].
  destruct (finalize_display_projection_diffs _ _ _) as [out fallback] eqn:Ef.
  do 2 eexists. split; [done|]. by split_and!.
Qed.

(** C8: an SDK batch never loses the alignment of the display with the room's history: for any
    updates, in range or not, the batch gives a result; the canonical list becomes what the updates
    make of it one by one (the batched front insertions included); every slot of the new display
    holds the canonical item of its index, in canonical order, with gap ends that count only items
    without a row; a room's window holds at most 240 slots; and when neither display repeats a row,
    the desktop is sent a reset exactly when some update was out of range, and, as long as no message
    has rows of two identities in the two displays ([one_row_each], see C11), goes from showing the
    old display to showing the new one in either case. *)
Theorem batch_keeps_the_display_aligned hash_order context items state diffs :
  display_aligned items state ->
  exists state' batch,
    project_sdk_batch hash_order context items state diffs
    = Some (apply_timeline_diffs_to_items items diffs, state', batch)
    /\ display_aligned (apply_timeline_diffs_to_items items diffs) state'
    /\ (room_window context = true -> bounded state')
    /\ (unique_rows (display_items state) -> unique_rows (display_items state') ->
        used_reset_fallback batch = negb (all_in_range items diffs)
        /\ (one_row_each (display_items state ++ display_items state') ->
            applyDiffsForRender (indexedTimelineItems (display_items state)) (batch_diffs batch)
            = indexedTimelineItems (display_items state')
            /\ store_items (indexedTimelineItems (display_items state')) = display_items state')).
Proof.
  intros Ha. destruct (project_sdk_batch_ok hash_order context items state diffs Ha)
    as (s & batch & E & H1 & H2 & _ & Hd).
  exists s, batch. split; [done|]. split; [done|]. split; [done|]. intros Hu Hu'.
  pose proof (published_shows _ _ (negb (all_in_range items diffs)) Hu Hu') as Hp. cbv zeta in Hp.
  rewrite <-Hd in Hp. destruct (built_diffs_accepted false _ _ Hu Hu') as (ds & Eb & Hc).
  pose proof (proj2 (validate_spec _ ds _ Hu) Hc) as Hv.
  unfold finalize_display_projection_diffs in Hd. rewrite Eb in Hd. cbn [is_some_and from_option] in Hd.
  rewrite Hv in Hd. cbn [negb] in Hd. rewrite orb_false_r in Hd. split; [|exact Hp].
  by injection Hd as _ <-.
Qed.

(** * Runs of the display *)

Inductive DisplayOp :=
  | OpBatch (context : DisplayProjectionContext) (diffs : list TimelineDiff)
  | OpReturnToLive (context : DisplayProjectionContext)
  | OpReplace (context : DisplayProjectionContext) (items : list TimelineItem)
  | OpReconcile (observation : TimelineViewportObservation) (context : DisplayProjectionContext)
      (direction : option PaginationDirection)
  | OpRehydrate (context : DisplayProjectionContext)
  | OpReproject (context : DisplayProjectionContext)
  | OpSendState (transaction_id : string) (new_state : TimelineSendState) (context : DisplayProjectionContext)
  | OpReplacePending (pending : list TimelineItem) (suppressed : gset string)
      (context : DisplayProjectionContext).

Section runs.
Context (hash_order : Z -> gset nat -> list nat).

(** One operation on the canonical list and its display; [None] is a stuck computation. *)
Definition display_step (s : list TimelineItem * DisplayProjectionState) (op : DisplayOp) :
    option (list TimelineItem * DisplayProjectionState) :=
  let '(items, state) := s in
  match op with
  | OpBatch context diffs => fst <$> project_sdk_batch hash_order context items state diffs
  | OpReturnToLive context => Some (items, (return_to_live_window state items context).1)
  | OpReplace context items => Some (items, reset_bounded hash_order state items context)
  | OpReconcile observation context direction =>
      Some (items, (reconcile_bounded_window state items observation context direction).1)
  | OpRehydrate context => Some (items, (rehydrate_bounded_visibility state items context).1)
  | OpReproject context => Some (items, (reproject state context).1)
  | OpSendState id new_state context => Some (items, (update_send_state state id new_state context).1)
  | OpReplacePending pending suppressed context =>
      Some (items, (replace_pending state pending suppressed context).1)
  end.
Fixpoint display_run (s : list TimelineItem * DisplayProjectionState) (ops : list DisplayOp) :
    option (list TimelineItem * DisplayProjectionState) :=
  match ops with
  | [] => Some s
  | op :: ops => s ← display_step s op; display_run s ops
  end.

(** Batches of a room carry the room's context. *)
Definition room_op (op : DisplayOp) : Prop :=
  match op with OpBatch context _ => room_window context = true | _ => True end.

Lemma display_step_ok s op :
  room_op op -> display_aligned s.1 s.2 -> bounded s.2 ->
  exists s', display_step s op = Some s' /\ display_aligned s'.1 s'.2 /\ bounded s'.2.
Proof.
  destruct s as [items state]. intros Hroom Ha Hb. cbn [fst snd] in *.
  destruct op as [context diffs|context|context new|obs context dir|context|context|id st context|p sup context];
    cbn [display_step].
  - destruct (project_sdk_batch_ok hash_order context items state diffs Ha) as (s & batch & -> & H1 & H2 & _).
    eexists. split; [done|]. split; [done|]. by apply H2.
  - destruct (return_to_live_aligned state items context) as (H1 & H2 & _). by eexists.
  - destruct (reset_bounded_aligned hash_order items new state context) as [H1 H2];
      [by apply display_ordered|]. by eexists.
  - destruct (reconcile_aligned items state obs context dir Ha Hb) as [H1 H2]. by eexists.
  - destruct (rehydrate_aligned items state context) as [H1 H2]. by eexists.
  - eexists. split; [done|]. split; [by eapply display_aligned_ext; [..|exact Ha]|exact Hb].
  - eexists. split; [done|]. split; [by apply update_send_state_aligned|].
    unfold update_send_state. destruct (existsb _ (slots state)); unfold bounded in *; cbn [fst snd slots rebuild_window_items update];
      by rewrite length_fmap.
  - eexists. split; [done|]. split; [by eapply display_aligned_ext; [..|exact Ha]|exact Hb].
Qed.

(** C7: whatever a room's timeline goes through — SDK batches, returns to the live edge,
    replacement snapshots, paging and viewport moves, visibility changes, delivery reports and
    pending sends, in any order and with any contexts — no computation gets stuck, every slot holds
    the canonical item of its index in canonical order with sound gap ends, and the window never
    holds more than 240 slots. *)
Theorem reachable_displays_are_aligned items context ops :
  Forall room_op ops ->
  exists items' state',
    display_run
      (items, (return_to_live_window (from_canonical_window items 0 (length items)) items context).1) ops
    = Some (items', state')
    /\ display_aligned items' state' /\ length (slots state') <= WINDOW_SLOTS.
Proof.
  intros Hops.
  destruct (return_to_live_aligned (from_canonical_window items 0 (length items)) items context) as (H1 & H2 & _).
  set (s := (items, _)). assert (display_aligned s.1 s.2 /\ bounded s.2) as [Ha Hb] by done.
  clearbody s. clear H1 H2. revert s Ha Hb. induction Hops as [|op ops Hop Hops IH]; intros s Ha Hb.
  { destruct s as [items' state']. by exists items', state'. }
  cbn [display_run]. destruct (display_step_ok s op Hop Ha Hb) as (s' & -> & Ha' & Hb'). cbn [mbind option_bind].
  by apply IH.
Qed.

End runs.

(** * A room that is read while it changes *)

(** An order of iteration. *)
Definition demo_order (revision : Z) (indices : gset nat) : list nat := elements indices.
Definition demo_live : DisplayProjectionState :=
  (return_to_live_window (from_canonical_window (demo_history 10) 0 10) (demo_history 10) demo_context).1.
Definition demo_diffs : list TimelineDiff :=
  [Remove 3; PushFront (demo_row "$x"); PushFront (demo_row "$y"); SetAt 5 (demo_row "$z");
   PushBack (demo_row "$w"); Truncate 9].

Example batch_keeps_the_display_aligned_witness :
  item_id <$> display_items demo_live = Event ∘ demo_id <$> seq 0 10
  /\ exists state' batch,
    project_sdk_batch demo_order demo_context (demo_history 10) demo_live demo_diffs
    = Some (apply_timeline_diffs_to_items (demo_history 10) demo_diffs, state', batch)
    /\ display_aligned (apply_timeline_diffs_to_items (demo_history 10) demo_diffs) state'
    /\ (room_window demo_context = true -> bounded state')
    /\ (unique_rows (display_items demo_live) -> unique_rows (display_items state') ->
        used_reset_fallback batch = negb (all_in_range (demo_history 10) demo_diffs)
        /\ (one_row_each (display_items demo_live ++ display_items state') ->
            applyDiffsForRender (indexedTimelineItems (display_items demo_live)) (batch_diffs batch)
            = indexedTimelineItems (display_items state')
            /\ store_items (indexedTimelineItems (display_items state')) = display_items state')).
Proof.
  split; [vm_compute; reflexivity|].
  apply (batch_keeps_the_display_aligned demo_order demo_context (demo_history 10) demo_live demo_diffs).
  apply return_to_live_aligned.
Defined.

(** A room of 300 rows, read from its live edge back into its history, with a batch and a
    replacement on the way. *)
Definition demo_ops : list DisplayOp :=
  [OpReconcile (demo_viewport (Some 1%Z) 180 185) demo_context (Some Backward);
   OpBatch demo_context demo_diffs; OpReproject demo_context; OpRehydrate demo_context;
   OpReplace demo_context (demo_history 270); OpReturnToLive demo_context].

Example reachable_displays_are_aligned_witness :
  let start :=
    (return_to_live_window (from_canonical_window (demo_history 300) 0 (length (demo_history 300)))
       (demo_history 300) demo_context).1 in
  Forall room_op demo_ops
  /\ exists items' state',
    display_run demo_order (demo_history 300, start) demo_ops = Some (items', state')
    /\ display_aligned items' state' /\ length (slots state') <= WINDOW_SLOTS.
Proof.
  assert (Forall room_op demo_ops) as H by (repeat constructor).
  split; [exact H|]. exact (reachable_displays_are_aligned demo_order (demo_history 300) demo_context demo_ops H).
Defined.
