(* ===== verification/LiveSignals.v ===== *)
(** Receipts, typing and presence of the rooms ([koushi-state/src/state/live_signals.rs]).

    Three scopes of receipt summaries are kept per room; a summary holds at most three readers.
    [receipt_summaries] lists them in the order of the source's iterators. *)

From stdpp Require Import base list strings gmap.
From Stdlib Require Import ZArith Lia.
From S2P Require Import Prelude Text Profiles.
Local Open Scope string_scope.
Local Open Scope list_scope.
Local Open Scope Z_scope.
Local Set Warnings "-clear-no-such-hyp".

(** * Data *)

Inductive PresenceKind := Presence_Online | Presence_Away | Presence_Offline.
Inductive ReceiptScope :=
  | Scope_Main | Scope_Focused (event_id : string) | Scope_Thread (root_event_id : string).

Record LiveTypingUser := { typing_user_id : string; typing_display_label : option string }.
Record LiveReadReceipt := {
  reader_user_id : string; reader_display_name : option string;
  reader_original_display_label : string; reader_avatar : option AvatarImage;
  timestamp_ms : option Z }.
Record LiveEventReceiptSummary := {
  readers : list LiveReadReceipt; total_count : Z; overflow_count : Z }.
Record LiveEventReceipts := { receipts_event_id : string; receipts : list LiveReadReceipt }.
Record LiveEventReceiptSummaryUpdate := {
  update_event_id : string; update_readers : list LiveReadReceipt; update_total_count : Z }.

Abbreviation Summaries := (gmap string LiveEventReceiptSummary).

Record RoomLiveSignals := {
  receipts_by_event : Summaries;
  focused_receipts_by_event : gmap string Summaries;
  thread_receipts_by_event : gmap string Summaries;
  fully_read_event_id : option string;
  typing_user_ids : list string; typing_users : list LiveTypingUser }.
Record LiveSignalsState := {
  signal_rooms : gmap string RoomLiveSignals; presence : gmap string PresenceKind }.
Record LiveRoomSignalUpdate := {
  signal_receipts : list LiveEventReceipts; signal_fully_read : option string;
  signal_typing : list string }.

#[export] Instance LiveTypingUser_updatable : Updatable LiveTypingUser := fun t =>
  {| typing_user_id := typing_user_id t; typing_display_label := typing_display_label t |}.
#[export] Instance LiveReadReceipt_updatable : Updatable LiveReadReceipt := fun r =>
  {| reader_user_id := reader_user_id r; reader_display_name := reader_display_name r;
     reader_original_display_label := reader_original_display_label r;
     reader_avatar := reader_avatar r; timestamp_ms := timestamp_ms r |}.
#[export] Instance LiveEventReceiptSummary_updatable : Updatable LiveEventReceiptSummary := fun s =>
  {| readers := readers s; total_count := total_count s; overflow_count := overflow_count s |}.
#[export] Instance RoomLiveSignals_updatable : Updatable RoomLiveSignals := fun r =>
  {| receipts_by_event := receipts_by_event r;
     focused_receipts_by_event := focused_receipts_by_event r;
     thread_receipts_by_event := thread_receipts_by_event r;
     fully_read_event_id := fully_read_event_id r; typing_user_ids := typing_user_ids r;
     typing_users := typing_users r |}.
#[export] Instance LiveSignalsState_updatable : Updatable LiveSignalsState := fun s =>
  {| signal_rooms := signal_rooms s; presence := presence s |}.
#[export] Instance LiveReadReceipt_eq : EqDecision LiveReadReceipt.
Proof. solve_decision. Defined.

Definition RoomLiveSignals_default : RoomLiveSignals :=
  {| receipts_by_event := ∅; focused_receipts_by_event := ∅; thread_receipts_by_event := ∅;
     fully_read_event_id := None; typing_user_ids := []; typing_users := [] |}.
Definition LiveSignalsState_default : LiveSignalsState :=
  {| signal_rooms := ∅; presence := ∅ |}.

(** * Scopes *)

Definition receipts_for_scope (room : RoomLiveSignals) (scope : ReceiptScope) : option Summaries :=
  match scope with
  | Scope_Main => Some (receipts_by_event room)
  | Scope_Focused id => focused_receipts_by_event room !! id
  | Scope_Thread root => thread_receipts_by_event room !! root
  end.

(** Write through [receipts_for_scope_mut]: the scope's map, created when it is new. *)
Definition update_scope (f : Summaries -> Summaries) (scope : ReceiptScope)
    (room : RoomLiveSignals) : RoomLiveSignals :=
  match scope with
  | Scope_Main => room <| receipts_by_event ::= f |>
  | Scope_Focused id =>
      room <| focused_receipts_by_event ::= fun m => <[id := f (default ∅ (m !! id))]> m |>
  | Scope_Thread root =>
      room <| thread_receipts_by_event ::= fun m => <[root := f (default ∅ (m !! root))]> m |>
  end.

Definition scope_values (m : Summaries) : list LiveEventReceiptSummary := (btree_iter m).*2.
Definition receipt_summaries (room : RoomLiveSignals) : list LiveEventReceiptSummary :=
  scope_values (receipts_by_event room)
  ++ concat (scope_values <$> (btree_iter (focused_receipts_by_event room)).*2)
  ++ concat (scope_values <$> (btree_iter (thread_receipts_by_event room)).*2).
(** Write through [receipt_summaries_mut]. *)
Definition map_receipt_summaries (f : LiveEventReceiptSummary -> LiveEventReceiptSummary)
    (room : RoomLiveSignals) : RoomLiveSignals :=
  room <| receipts_by_event ::= fun m => f <$> m |>
       <| focused_receipts_by_event ::= fun ms => (fun m : Summaries => f <$> m) <$> ms |>
       <| thread_receipts_by_event ::= fun ms => (fun m : Summaries => f <$> m) <$> ms |>.
Definition map_readers (f : LiveReadReceipt -> LiveReadReceipt) (s : LiveEventReceiptSummary)
    : LiveEventReceiptSummary := s <| readers ::= fun rs => f <$> rs |>.

(** * Names of readers *)

Section resolve.
Context (profiles : ProfileState) (relevant : option (gmap string UserProfile))
        (own_user_id : option string).

(** [label.filter(|label| label.trim() != "Unknown user")] *)
Definition known_label (label : option string) : option string :=
  label ≫= fun l => if String.eqb (trim l) UNKNOWN_USER then None else Some l.
Definition own_profile_of (user_id : string) : option OwnProfile :=
  if bool_decide (own_user_id = Some user_id) then Some (own profiles) else None.
Definition relevant_profile (user_id : string) : option UserProfile :=
  relevant ≫= fun room_profiles => room_profiles !! user_id.

Definition resolve_live_receipt_profile (receipt : LiveReadReceipt) : ProfileResolution :=
  let id := reader_user_id receipt in
  resolve_people_label
    {| in_local_alias := local_aliases profiles !! id;
       relevant_room_label := relevant_profile id ≫= prof_display_name;
       space_room_label := None;
       payload_label := known_label (reader_display_name receipt);
       cached_label := users profiles !! id ≫= prof_display_name;
       local_homeserver_label := own_profile_of id ≫= own_display_name |}.

(** The name the reader has apart from local aliases. *)
Definition original_receipt_label (receipt : LiveReadReceipt) : string :=
  let id := reader_user_id receipt in
  let user_name := users profiles !! id ≫= prof_display_name in
  let own_name := own_profile_of id ≫= own_display_name in
  let receipt_original :=
    if String.eqb (trim (reader_original_display_label receipt)) UNKNOWN_USER
    then None else Some (reader_original_display_label receipt) in
  let original_source :=
    or_else (receipt_original ≫= fun l => if is_empty (trim l) then None else Some l)
   (or_else (known_label (reader_display_name receipt))
   (or_else (relevant_profile id ≫= prof_display_name) (or_else user_name own_name))) in
  default UNKNOWN_USER
    (or_else (nonblank original_source) (or_else (nonblank user_name) (nonblank own_name))).

Definition receipt_avatar (receipt : LiveReadReceipt) : option AvatarImage :=
  let id := reader_user_id receipt in
  let profile_avatar :=
    or_else (relevant_profile id ≫= prof_avatar)
   (or_else (own_profile_of id ≫= own_avatar) (users profiles !! id ≫= prof_avatar)) in
  match reader_avatar receipt, profile_avatar with
  | Some a, Some p =>
      if String.eqb (avatar_mxc_uri a) (avatar_mxc_uri p)
         && bool_decide (avatar_thumbnail a = Thumbnail_NotRequested)
      then Some p else Some a
  | None, _ => profile_avatar
  | Some a, None => Some a
  end.

Definition enrich_live_receipt (receipt : LiveReadReceipt) : LiveReadReceipt :=
  receipt <| reader_display_name :=
               Some (resolution_label (resolve_live_receipt_profile receipt)) |>
          <| reader_original_display_label := original_receipt_label receipt |>
          <| reader_avatar := receipt_avatar receipt |>.

(** * Compact summaries *)

Definition COMPACT_RECEIPT_READER_LIMIT : nat := 3.
Definition receipt_time (r : LiveReadReceipt) : Z := default 0 (timestamp_ms r).
Definition receipt_is_newer (candidate existing : LiveReadReceipt) : bool :=
  receipt_time existing <=? receipt_time candidate.
(** The entry API of the loop: one receipt per user, the newest. *)
Definition add_receipt (by_user : gmap string LiveReadReceipt) (receipt : LiveReadReceipt)
    : gmap string LiveReadReceipt :=
  let id := reader_user_id receipt in
  if bool_decide (own_user_id = Some id) then by_user
  else match by_user !! id with
       | Some existing =>
           if receipt_is_newer receipt existing then <[id := receipt]> by_user else by_user
       | None => <[id := receipt]> by_user
       end.
Definition reader_leb (left_ right_ : LiveReadReceipt) : bool :=
  match then_with (receipt_time right_ ?= receipt_time left_)
          (String.compare (reader_user_id left_) (reader_user_id right_)) with
  | Gt => false | _ => true
  end.
Definition saturating_sub (x y : Z) : Z := Z.max (x - y) 0.

Definition normalize_receipts (receipts : list LiveReadReceipt) : LiveEventReceiptSummary :=
  let by_user := foldl add_receipt ∅ receipts in
  let sorted := sort_by reader_leb (btree_iter by_user).*2 in
  let total := Z.of_nat (length sorted) in
  {| readers := enrich_live_receipt <$> take COMPACT_RECEIPT_READER_LIMIT sorted;
     total_count := total;
     overflow_count := saturating_sub total (Z.of_nat COMPACT_RECEIPT_READER_LIMIT) |}.

Definition into_summary_with_profiles (update : LiveEventReceiptSummaryUpdate)
    : LiveEventReceiptSummary :=
  (normalize_receipts (update_readers update))
    <| total_count := update_total_count update |>
    <| overflow_count :=
         saturating_sub (update_total_count update) (Z.of_nat COMPACT_RECEIPT_READER_LIMIT) |>.

(** [into_iter().map(..).collect()]: of two entries for an event the later one stays. *)
Definition normalized_events (updates : list LiveEventReceipts) : Summaries :=
  foldl (fun m e => <[receipts_event_id e := normalize_receipts (receipts e)]> m) ∅ updates.

Definition into_room_signals_with_room_profiles (update : LiveRoomSignalUpdate)
    : RoomLiveSignals :=
  let ids := sorted_unique (signal_typing update) in
  {| receipts_by_event := normalized_events (signal_receipts update);
     focused_receipts_by_event := ∅; thread_receipts_by_event := ∅;
     fully_read_event_id := signal_fully_read update;
     typing_user_ids := ids;
     typing_users := (fun id => {| typing_user_id := id;
       typing_display_label := resolve_optional_user_display_name profiles id None own_user_id |})
       <$> ids |}.

(** * Refreshing what is shown *)

Definition receipt_is_fresh (receipt : LiveReadReceipt) : bool :=
  let enriched := enrich_live_receipt receipt in
  bool_decide (reader_display_name receipt = reader_display_name enriched)
  && String.eqb (reader_original_display_label receipt) (reader_original_display_label enriched)
  && bool_decide (reader_avatar receipt = reader_avatar enriched).
Definition refresh_receipt (receipt : LiveReadReceipt) : LiveReadReceipt :=
  if receipt_is_fresh receipt then receipt else enrich_live_receipt receipt.
Definition refresh_room_receipts (room : RoomLiveSignals) : RoomLiveSignals :=
  map_receipt_summaries (map_readers refresh_receipt) room.
Definition room_receipts_changed (room : RoomLiveSignals) : bool :=
  existsb (fun s => existsb (fun r => negb (receipt_is_fresh r)) (readers s))
    (receipt_summaries room).

(** One row of [refresh_live_typing_user_display_projection]. *)
Definition fresh_typing_label (t : LiveTypingUser) : option string :=
  resolve_optional_user_display_name profiles (typing_user_id t) None own_user_id.
Definition refresh_typing (room : RoomLiveSignals) : RoomLiveSignals :=
  room <| typing_users ::= fun ts =>
    (fun t => t <| typing_display_label := fresh_typing_label t |>) <$> ts |>.
Definition typing_changed (room : RoomLiveSignals) : bool :=
  existsb (fun t => negb (bool_decide (typing_display_label t = fresh_typing_label t)))
    (typing_users room).

End resolve.

Definition refresh_live_receipt_display_projection (live : LiveSignalsState)
    (profiles : ProfileState) (own_user_id : option string) : LiveSignalsState * bool :=
  (live <| signal_rooms ::= map_imap (fun room_id room =>
       Some (refresh_room_receipts profiles (room_users profiles !! room_id) own_user_id room)) |>,
   existsb (fun '(room_id, room) =>
       room_receipts_changed profiles (room_users profiles !! room_id) own_user_id room)
     (btree_iter (signal_rooms live))).

(** The receipts are refreshed only when no typing label changed: [changed || refresh(..)]. *)
Definition refresh_live_typing_user_display_projection (live : LiveSignalsState)
    (profiles : ProfileState) (own_user_id : option string) : LiveSignalsState * bool :=
  let changed :=
    existsb (fun '(_, room) => typing_changed profiles own_user_id room)
      (btree_iter (signal_rooms live)) in
  let live := live <| signal_rooms ::= fun rooms => refresh_typing profiles own_user_id <$> rooms |> in
  if changed then (live, true)
  else refresh_live_receipt_display_projection live profiles own_user_id.
