(* ===== verification/LocaleProfile.v ===== *)
(** The language of the interface ([koushi-state/src/locale_profile.rs]): language tags, the
    catalog they select and the profile the webview renders with.

    The text normalisation of the same file ([normalize_cjk_search_text],
    [cjk_display_sort_key]) calls Unicode crates and is not modelled. *)

From stdpp Require Import base list strings.
From Stdlib Require Import ZArith Lia Ascii.
From S2P Require Import Prelude Text Delivery.
Local Open Scope string_scope.
Local Open Scope list_scope.
Local Set Warnings "-clear-no-such-hyp".

Inductive TextDirectionPreference := Direction_Auto | Direction_Ltr | Direction_Rtl.
Record LocaleSettings := {
  language_tag : option string; text_direction : TextDirectionPreference }.
Inductive LocaleDirection := Ltr | Rtl.
Inductive PseudoLocaleMode := Pseudo_None | Pseudo_Accented | Pseudo_Bidi.
Inductive DisplayPlatform := Platform_Macos | Platform_Windows | Platform_Linux.
Inductive SupportedLanguage :=
  | Language_En | Language_Ja | Language_ZhHans | Language_ZhHant | Language_Ko | Language_Rtl.
Record ParsedLanguage := { primary : SupportedLanguage; pseudo_locale : PseudoLocaleMode }.
Record LocaleDisplayProfile := {
  profile_lang : string; profile_dir : LocaleDirection; profile_catalog : CatalogLocale;
  profile_pseudo : PseudoLocaleMode; profile_platform : DisplayPlatform;
  primary_modifier : string }.

(** * Parsing *)

Definition dash : ascii := ascii_of_nat 45.
Definition underscore : ascii := ascii_of_nat 95.

(** The pieces of [s.split('-')]; there is always one. *)
Fixpoint split_dash (s : string) : string * list string :=
  match s with
  | EmptyString => (EmptyString, [])
  | String a s =>
      let '(x, xs) := split_dash s in
      if Ascii.eqb a dash then (EmptyString, x :: xs) else (String a x, xs)
  end.

Definition eq_ignore_ascii_case (s t : string) : bool :=
  String.eqb (to_ascii_lowercase s) (to_ascii_lowercase t).
Definition is_ascii_alphabetic (a : ascii) : bool := in_range a 65 90 || in_range a 97 122.
Definition is_ascii_alphanumeric (a : ascii) : bool := is_ascii_alphabetic a || is_ascii_digit a.

Definition is_primary_language_subtag (s : string) : bool :=
  (2 <=? String.length s)%nat && (String.length s <=? 3)%nat && all_str is_ascii_alphabetic s.
Definition is_valid_language_subtag (s : string) : bool :=
  (1 <=? String.length s)%nat && (String.length s <=? 8)%nat && all_str is_ascii_alphanumeric s.

(** The first script subtag; without one the region decides. *)
Definition chinese_script (rest : list string) : SupportedLanguage :=
  match find_map (fun s => if eq_ignore_ascii_case s "hant" then Some Language_ZhHant
                           else if eq_ignore_ascii_case s "hans" then Some Language_ZhHans
                           else None) rest with
  | Some language => language
  | None =>
      if existsb (fun s => existsb (eq_ignore_ascii_case s) ["tw"; "hk"; "mo"]) rest
      then Language_ZhHant else Language_ZhHans
  end.

Definition supported_language (primary : string) (rest : list string)
    : option SupportedLanguage :=
  if String.eqb primary "en" then Some Language_En
  else if String.eqb primary "ja" then Some Language_Ja
  else if String.eqb primary "zh" then Some (chinese_script rest)
  else if String.eqb primary "ko" then Some Language_Ko
  else if existsb (String.eqb primary) ["ar"; "dv"; "fa"; "he"; "ps"; "sd"; "ug"; "ur"; "yi"]
  then Some Language_Rtl else None.

Definition parse_language_tag (tag : string) : option ParsedLanguage :=
  let normalized := map_str (fun a => if Ascii.eqb a underscore then dash else a) (trim tag) in
  let '(first, rest) := split_dash normalized in
  let primary := to_ascii_lowercase first in
  if negb (is_primary_language_subtag primary) then None
  else if existsb (fun s => eq_ignore_ascii_case s "x") rest then None
  else if negb (forallb is_valid_language_subtag rest) then None
  else
    let pseudo :=
      if eq_ignore_ascii_case normalized "en-XA" then Pseudo_Accented
      else if eq_ignore_ascii_case normalized "ar-XB" then Pseudo_Bidi else Pseudo_None in
    language ← supported_language primary rest;
    Some {| primary := language; pseudo_locale := pseudo |}.

(** * Resolution *)

Definition catalog_locale (parsed : option ParsedLanguage) : CatalogLocale :=
  match parsed with
  | Some {| primary := language; pseudo_locale := Pseudo_None |} =>
      match language with
      | Language_Ja => Locale_Ja | Language_ZhHans => Locale_ZhHans
      | Language_ZhHant => Locale_ZhHant | Language_Ko => Locale_Ko
      | Language_En | Language_Rtl => Locale_En
      end
  | Some _ => Locale_Pseudo
  | None => Locale_En
  end.

Definition resolve_catalog_locale (settings : LocaleSettings) : CatalogLocale :=
  catalog_locale (language_tag settings ≫= parse_language_tag).

Definition resolved_lang (catalog : CatalogLocale) (pseudo : PseudoLocaleMode) : string :=
  match pseudo with
  | Pseudo_Accented => "en-XA"
  | Pseudo_Bidi => "ar-XB"
  | Pseudo_None =>
      match catalog with
      | Locale_Ja => "ja" | Locale_ZhHans => "zh-Hans" | Locale_ZhHant => "zh-Hant"
      | Locale_Ko => "ko" | Locale_En | Locale_Pseudo => "en"
      end
  end.

Definition auto_direction (parsed : option ParsedLanguage) (pseudo : PseudoLocaleMode)
    : LocaleDirection :=
  match pseudo with
  | Pseudo_Bidi => Rtl
  | _ => match primary <$> parsed with Some Language_Rtl => Rtl | _ => Ltr end
  end.

Definition primary_modifier_label (platform : DisplayPlatform) : string :=
  match platform with Platform_Macos => "Cmd" | Platform_Windows | Platform_Linux => "Ctrl" end.

Definition resolve_locale_display_profile (settings : LocaleSettings) (platform : DisplayPlatform)
    : LocaleDisplayProfile :=
  let parsed := language_tag settings ≫= parse_language_tag in
  let pseudo := default Pseudo_None (pseudo_locale <$> parsed) in
  let catalog := catalog_locale parsed in
  {| profile_lang := resolved_lang catalog pseudo;
     profile_dir := match text_direction settings with
                    | Direction_Ltr => Ltr | Direction_Rtl => Rtl
                    | Direction_Auto => auto_direction parsed pseudo end;
     profile_catalog := catalog; profile_pseudo := pseudo; profile_platform := platform;
     primary_modifier := primary_modifier_label platform |}.

(** The catalog names of the tags: [resolve_catalog_locale] reads each back as itself. *)
Lemma catalog_tags_resolve c :
  c <> Locale_Pseudo ->
  resolve_catalog_locale
    {| language_tag := Some (resolved_lang c Pseudo_None); text_direction := Direction_Auto |} = c.
Proof. destruct c; [reflexivity..|done]. Qed.

(** A tag is read as the same language whether its subtags are joined by dashes or by
    underscores, and whatever surrounds it. *)
Example underscores_and_blanks_are_accepted :
  parse_language_tag " zh_Hant_TW " = parse_language_tag "zh-Hant-TW"
  /\ parse_language_tag "en-x-private" = None.
Proof. by split. Qed.
