(* ===== verification/Rooms.v ===== *)
(** Rooms, spaces and invites as the room list shows them: [koushi-state/src/state/room.rs],
    the settings and member rows they use ([settings.rs], [room_management.rs]), the names the
    profiles give them ([profile.rs]), the remembered activity ([room_activity.rs]) and the
    filtered, sorted list ([navigation.rs]).

    Counters and timestamps are [Z].  [to_lowercase], the Unicode mapping of
    [str::to_lowercase], is a parameter: no proof depends on what it does.  Three types carry
    fields that no modelled handler reads as one opaque string ([.._rest]). *)

From stdpp Require Import base list strings gmap.
From Stdlib Require Import ZArith Lia.
From S2P Require Import Prelude Text AppState Delivery Profiles.
Local Open Scope string_scope.
Local Open Scope list_scope.
Local Open Scope Z_scope.
Local Set Warnings "-clear-no-such-hyp".

(** * Data *)

Inductive RoomNamePlaceholder :=
  | Placeholder_Empty | Placeholder_EmptyWas (previous_names : string).
Inductive ConversationActivitySource :=
  | Activity_Message | Activity_EncryptedMessage | Activity_ThreadReply.
Record ConversationActivity := {
  activity_timestamp_ms : Z; activity_source : ConversationActivitySource }.
Record RoomLatestEventSummary := {
  latest_event_id : string; relation_type : option string; relation_event_id : option string;
  latest_thread_root : option string; latest_sender_id : option string;
  latest_sender_label : option string; latest_sender_avatar : option AvatarImage;
  preview : option string; latest_message_text : option string; latest_timestamp_ms : Z;
  is_redacted : bool }.
Record RoomTagInfo := { tag_order : option string }.
Record RoomTags := { favourite : option RoomTagInfo; low_priority : option RoomTagInfo }.
Inductive RoomTagKind := Tag_Favourite | Tag_LowPriority.

Record RoomSummary := {
  room_id : string; room_display_name : string;
  display_name_placeholder : option RoomNamePlaceholder; display_label : string;
  original_display_label : string; display_label_placeholder : option RoomNamePlaceholder;
  room_avatar : option AvatarImage; is_dm : bool; dm_user_ids : list string; tags : RoomTags;
  unread_count : Z; notification_count : Z; highlight_count : Z;
  thread_unread_count : Z; thread_highlight_count : Z; marked_unread : bool;
  recency_stamp : option Z; conversation_activity : option ConversationActivity;
  latest_event : option RoomLatestEventSummary; room_parent_space_ids : list string;
  dm_space_ids : list string; is_encrypted : bool; joined_members : Z }.

Inductive RoomJoinRule :=
  | Join_Public | Join_Invite | Join_Knock | Join_Restricted | Join_KnockRestricted
  | Join_Private | Join_Unknown.
Record SpaceSummary := {
  space_id : string; raw_name : option string; space_display_name : string;
  space_avatar : option AvatarImage; space_join_rule : option RoomJoinRule;
  space_topic : option string; child_room_ids : list string;
  parent_side_child_room_ids : list string }.
Record InvitePreview := {
  invite_room_id : string; invite_display_name : string;
  invite_placeholder : option RoomNamePlaceholder; invite_avatar : option AvatarImage;
  invite_topic : option string; inviter_display_name : option string;
  inviter_user_id : option string; invite_is_dm : bool; invite_is_space : bool }.

(** [state/errors.rs] *)
Inductive OperationFailureKind :=
  | Op_Forbidden | Op_NotFound | Op_Network | Op_Timeout | Op_Invalid | Op_Sdk
  | Op_UnsupportedPolicyCondition | Op_PolicyNotVerified.

Inductive RoomNotificationMode := Mode_All | Mode_Mentions | Mode_Mute.
Inductive RoomNotificationModeOperation :=
  | ModeOp_Idle | ModeOp_Pending (request_id : Z)
  | ModeOp_Failed (request_id : Z) (failure_kind : OperationFailureKind).
Record RoomNotificationSettings := {
  notification_mode : RoomNotificationMode; mode_operation : RoomNotificationModeOperation }.

Inductive RoomMemberRole := Role_Creator | Role_Administrator | Role_Moderator | Role_User.
Record RoomMemberRoleOption := {
  option_power_level : Z; option_role : RoomMemberRole; requires_confirmation : bool }.
(** The fields after [original_display_label] are [member_rest]. *)
Record RoomMemberSummary := {
  member_user_id : string; member_display_name : option string; member_display_label : string;
  member_original_display_label : string; member_rest : string }.
Record RoomSettingsSnapshot := {
  settings_room_id : string; members : list RoomMemberSummary; settings_rest : string }.

Inductive RoomListFilter :=
  | Filter_Rooms | Filter_Unread | Filter_People | Filter_Favourites | Filter_Invites.
Inductive RoomListSort := Sort_Activity | Sort_RecentFirst | Sort_NormalLocale.
Inductive RoomListEntryKind := Entry_Room | Entry_Invite.
Record RoomListProjectionItem := { item_room_id : string; item_kind : RoomListEntryKind }.
Record RoomListProjection := {
  readiness : RoomListReadiness; active_filter : RoomListFilter; list_sort : RoomListSort;
  items : list RoomListProjectionItem; locally_left_room_ids : gset string }.

#[export] Instance RoomTags_updatable : Updatable RoomTags := fun t =>
  {| favourite := favourite t; low_priority := low_priority t |}.
#[export] Instance RoomSummary_updatable : Updatable RoomSummary := fun r =>
  {| room_id := room_id r; room_display_name := room_display_name r;
     display_name_placeholder := display_name_placeholder r; display_label := display_label r;
     original_display_label := original_display_label r;
     display_label_placeholder := display_label_placeholder r; room_avatar := room_avatar r;
     is_dm := is_dm r; dm_user_ids := dm_user_ids r; tags := tags r;
     unread_count := unread_count r; notification_count := notification_count r;
     highlight_count := highlight_count r; thread_unread_count := thread_unread_count r;
     thread_highlight_count := thread_highlight_count r; marked_unread := marked_unread r;
     recency_stamp := recency_stamp r; conversation_activity := conversation_activity r;
     latest_event := latest_event r; room_parent_space_ids := room_parent_space_ids r;
     dm_space_ids := dm_space_ids r; is_encrypted := is_encrypted r;
     joined_members := joined_members r |}.
#[export] Instance SpaceSummary_updatable : Updatable SpaceSummary := fun s =>
  {| space_id := space_id s; raw_name := raw_name s; space_display_name := space_display_name s;
     space_avatar := space_avatar s; space_join_rule := space_join_rule s;
     space_topic := space_topic s; child_room_ids := child_room_ids s;
     parent_side_child_room_ids := parent_side_child_room_ids s |}.
#[export] Instance InvitePreview_updatable : Updatable InvitePreview := fun i =>
  {| invite_room_id := invite_room_id i; invite_display_name := invite_display_name i;
     invite_placeholder := invite_placeholder i; invite_avatar := invite_avatar i;
     invite_topic := invite_topic i; inviter_display_name := inviter_display_name i;
     inviter_user_id := inviter_user_id i; invite_is_dm := invite_is_dm i;
     invite_is_space := invite_is_space i |}.
#[export] Instance RoomMemberSummary_updatable : Updatable RoomMemberSummary := fun m =>
  {| member_user_id := member_user_id m; member_display_name := member_display_name m;
     member_display_label := member_display_label m;
     member_original_display_label := member_original_display_label m;
     member_rest := member_rest m |}.
#[export] Instance RoomSettingsSnapshot_updatable : Updatable RoomSettingsSnapshot := fun s =>
  {| settings_room_id := settings_room_id s; members := members s;
     settings_rest := settings_rest s |}.
#[export] Instance RoomListProjection_updatable : Updatable RoomListProjection := fun p =>
  {| readiness := readiness p; active_filter := active_filter p; list_sort := list_sort p;
     items := items p; locally_left_room_ids := locally_left_room_ids p |}.

#[export] Instance Placeholder_eq : EqDecision RoomNamePlaceholder. Proof. solve_decision. Defined.
#[export] Instance RoomTagInfo_eq : EqDecision RoomTagInfo. Proof. solve_decision. Defined.
#[export] Instance RoomTags_eq : EqDecision RoomTags. Proof. solve_decision. Defined.
#[export] Instance ActivitySource_eq : EqDecision ConversationActivitySource.
Proof. solve_decision. Defined.
#[export] Instance ConversationActivity_eq : EqDecision ConversationActivity.
Proof. solve_decision. Defined.
#[export] Instance NotificationMode_eq : EqDecision RoomNotificationMode.
Proof. solve_decision. Defined.
#[export] Instance RoomListFilter_eq : EqDecision RoomListFilter. Proof. solve_decision. Defined.
#[export] Instance AttentionKind_eq : EqDecision RoomAttentionKind. Proof. solve_decision. Defined.
#[export] Instance Op_eq : EqDecision OperationFailureKind. Proof. solve_decision. Defined.

(** * Tags *)

Definition tags_set (t : RoomTags) (tag : RoomTagKind) (info : RoomTagInfo) : RoomTags :=
  match tag with
  | Tag_Favourite => t <| favourite := Some info |> <| low_priority := None |>
  | Tag_LowPriority => t <| low_priority := Some info |> <| favourite := None |>
  end.
Definition tags_remove (t : RoomTags) (tag : RoomTagKind) : RoomTags :=
  match tag with
  | Tag_Favourite => t <| favourite := None |>
  | Tag_LowPriority => t <| low_priority := None |>
  end.

(** * Attention *)

Record RoomAttentionSummary := {
  attention_display_name : string; attention_kind : RoomAttentionKind;
  attention_notifications : Z; attention_highlights : Z; attention_unread : Z }.

Definition room_attention_kind (is_dm : bool) (notifications highlights unread : Z)
    : option RoomAttentionKind :=
  if 0 <? highlights then Some Kind_Mention
  else if (notifications =? 0) && (unread =? 0) then None
  else if is_dm then Some Kind_Dm else Some Kind_Message.

Definition private_safe_room_display_name (name : string) : string :=
  if is_empty (trim name) then "Room" else name.

Definition room_attention_summary (name : string) (is_dm : bool)
    (notifications highlights unread : Z) : option RoomAttentionSummary :=
  kind ← room_attention_kind is_dm notifications highlights unread;
  Some {| attention_display_name := private_safe_room_display_name name; attention_kind := kind;
          attention_notifications := notifications; attention_highlights := highlights;
          attention_unread := unread |}.

Definition room_activity_unread_count (room : RoomSummary) : Z :=
  u64_saturating_add (unread_count room) (thread_unread_count room).
Definition highlight_total (room : RoomSummary) : Z :=
  u64_saturating_add (highlight_count room) (thread_highlight_count room).

Record RoomAttentionProjection := {
  projected_unread_count : Z; main_unread_count : Z; projected_thread_unread_count : Z;
  projected_notification_count : Z; projected_highlight_count : Z; has_unread_content : bool;
  is_attention_highlighted : bool; has_unread_mention : bool; is_muted : bool;
  display_count : Z }.

Definition room_attention_projection (room : RoomSummary) (mode : option RoomNotificationMode)
    : RoomAttentionProjection :=
  let muted := bool_decide (mode = Some Mode_Mute) in
  let highlights := highlight_total room in
  let unread := room_activity_unread_count room in
  {| projected_unread_count := unread;
     main_unread_count := unread_count room;
     projected_thread_unread_count := thread_unread_count room;
     projected_notification_count :=
       if muted || (bool_decide (mode = Some Mode_Mentions) && (highlights =? 0)) then 0
       else notification_count room;
     projected_highlight_count := if muted then 0 else highlights;
     has_unread_content := (0 <? unread) || marked_unread room;
     is_attention_highlighted :=
       negb muted && ((0 <? notification_count room) || (0 <? highlights) || marked_unread room);
     has_unread_mention := negb muted && (0 <? highlights);
     is_muted := muted;
     display_count := unread |}.

Definition room_attention_sort_rank (room : option RoomSummary)
    (mode : option RoomNotificationMode) : Z :=
  match room with
  | None => 3
  | Some room =>
      let p := room_attention_projection room mode in
      if negb (is_muted p) && (0 <? projected_unread_count p) then 0
      else if negb (is_muted p) && marked_unread room then 1
      else 3
  end.

(** What a successful local mark-read cleared. *)
Record RoomReadActivity := {
  read_latest_event_id : option string; read_recency_stamp : option Z;
  read_conversation_activity : option ConversationActivity }.
#[export] Instance RoomReadActivity_eq : EqDecision RoomReadActivity.
Proof. solve_decision. Defined.
Definition RoomReadActivity_of (room : RoomSummary) : RoomReadActivity :=
  {| read_latest_event_id := latest_event_id <$> latest_event room;
     read_recency_stamp := recency_stamp room;
     read_conversation_activity := conversation_activity room |}.

(** * Order *)

(** The derived orders of [bool] and [Option<u64>]. *)
Definition bool_cmp (x y : bool) : comparison :=
  match x, y with false, true => Lt | true, false => Gt | _, _ => Eq end.
Definition opt_cmp (x y : option Z) : comparison :=
  match x, y with
  | None, None => Eq | None, Some _ => Lt | Some _, None => Gt
  | Some x, Some y => x ?= y
  end.
Definition is_some {A} (o : option A) : bool := match o with Some _ => true | None => false end.
(** [sort_by(cmp)] as a [sort_by] of [Text]. *)
Definition not_gt {A} (cmp : A -> A -> comparison) (x y : A) : bool :=
  match cmp x y with Gt => false | _ => true end.

Section ordered.
Context (to_lowercase : string -> string).

Definition lower_label (room : option RoomSummary) : string :=
  default "" (to_lowercase ∘ display_label <$> room).

Definition compare_conversation_activity (left_ right_ : option RoomSummary) : comparison :=
  let la := left_ ≫= conversation_activity in
  let ra := right_ ≫= conversation_activity in
  let ls := left_ ≫= recency_stamp in
  let rs := right_ ≫= recency_stamp in
  then_with (bool_cmp (is_some ra) (is_some la))
 (then_with (opt_cmp (activity_timestamp_ms <$> ra) (activity_timestamp_ms <$> la))
 (then_with (then_with (bool_cmp (is_some rs) (is_some ls)) (opt_cmp rs ls))
 (then_with (String.compare (lower_label left_) (lower_label right_))
            (String.compare (default "" (room_id <$> left_)) (default "" (room_id <$> right_)))))).

Definition compare_attention_activity (left_ : option RoomSummary)
    (left_mode : option RoomNotificationMode) (right_ : option RoomSummary)
    (right_mode : option RoomNotificationMode) : comparison :=
  then_with (room_attention_sort_rank left_ left_mode ?= room_attention_sort_rank right_ right_mode)
            (compare_conversation_activity left_ right_).

(** * The room list ([state/navigation.rs], [sidebar.rs], [reducer/mod.rs]) *)

Definition room_listed_at_home (room : RoomSummary) (spaces : list SpaceSummary) : bool :=
  is_dm room
  || negb (existsb (fun s => bool_decide (room_id room ∈ child_room_ids s)) spaces).

Definition room_visible_in_active_space (room : RoomSummary) (active_space_id : option string)
    (children : option (list string)) (spaces : list SpaceSummary) : bool :=
  match active_space_id with
  | None => room_listed_at_home room spaces
  | Some id =>
      if is_dm room then existsb (String.eqb id) (dm_space_ids room)
      else existsb (String.eqb id) (room_parent_space_ids room)
           || is_some_and children (existsb (String.eqb (room_id room)))
  end.

Definition room_passes_filter (filter : RoomListFilter) (room : RoomSummary) : bool :=
  match filter with
  | Filter_Unread => (0 <? room_activity_unread_count room) || marked_unread room
  | Filter_People => is_dm room
  | Filter_Rooms =>
      negb (is_dm room) && negb (is_some (favourite (tags room)))
      && negb (is_some (low_priority (tags room)))
  | Filter_Favourites => is_some (favourite (tags room))
  | Filter_Invites => false
  end.

(** The [HashMap] of the rooms by id: of two rooms with an id the later one. *)
Definition room_by_id (rooms : list RoomSummary) (id : string) : option RoomSummary :=
  find_first (fun r => String.eqb (room_id r) id) (reverse rooms).

Definition list_order (sort : RoomListSort) (rooms : list RoomSummary)
    (settings : gmap string RoomNotificationSettings) (x y : RoomListProjectionItem)
    : comparison :=
  let l := item_room_id x in
  let r := item_room_id y in
  match sort with
  | Sort_Activity =>
      compare_attention_activity (room_by_id rooms l) (notification_mode <$> settings !! l)
        (room_by_id rooms r) (notification_mode <$> settings !! r)
  | Sort_RecentFirst => compare_conversation_activity (room_by_id rooms l) (room_by_id rooms r)
  | Sort_NormalLocale =>
      let label id := to_lowercase (default id (display_label <$> room_by_id rooms id)) in
      then_with (String.compare (label l) (label r)) (String.compare l r)
  end.

Definition compute_room_list_projection (filter : RoomListFilter) (sort : RoomListSort)
    (active_space_id : option string) (spaces : list SpaceSummary) (rooms : list RoomSummary)
    (settings : gmap string RoomNotificationSettings) (invites : list InvitePreview)
    : RoomListProjection :=
  let children := active_space_id ≫= fun id =>
    child_room_ids <$> find_first (fun s => String.eqb (space_id s) id) spaces in
  let unsorted :=
    match filter with
    | Filter_Invites =>
        (fun i => {| item_room_id := invite_room_id i; item_kind := Entry_Invite |}) <$> invites
    | _ =>
        (fun r => {| item_room_id := room_id r; item_kind := Entry_Room |}) <$>
          List.filter (room_passes_filter filter)
            (List.filter (fun r => room_visible_in_active_space r active_space_id children spaces)
               rooms)
    end in
  {| readiness := List_Uninitialized; active_filter := filter; list_sort := sort;
     items := sort_by (not_gt (list_order sort rooms settings)) unsorted;
     locally_left_room_ids := ∅ |}.

End ordered.

Definition visible_invites_for_ignored_users (invites : list InvitePreview)
    (ignored : gset string) : list InvitePreview :=
  List.filter (fun i => is_none_or (inviter_user_id i) (fun id => negb (bool_decide (id ∈ ignored))))
    invites.

(** * Names from the profiles *)

(** The partner of a direct message with one other member. *)
Definition single_dm_partner (room : RoomSummary) : option string :=
  match dm_user_ids room with [id] => if is_dm room then Some id else None | _ => None end.

Definition projected_room_summary_display_labels (room : RoomSummary) (profiles : ProfileState)
    (own_user_id : option string) : string * string * option RoomNamePlaceholder :=
  match single_dm_partner room with
  | Some id =>
      let upstream := match display_name_placeholder room with
                      | None => Some (room_display_name room) | Some _ => None end in
      (resolve_user_display_name profiles id upstream own_user_id,
       original_user_display_name profiles id upstream own_user_id, None)
  | None =>
      let label := if is_empty (trim (room_display_name room)) then room_id room
                   else trim (room_display_name room) in
      (label, label, display_name_placeholder room)
  end.

Definition projected_room_summary_avatar (room : RoomSummary) (profiles : ProfileState)
    : option AvatarImage :=
  match single_dm_partner room ≫= fun id => users profiles !! id with
  | Some profile => or_else (prof_avatar profile) (room_avatar room)
  | None => room_avatar room
  end.

Definition refresh_room_summary (profiles : ProfileState) (own_user_id : option string)
    (room : RoomSummary) : RoomSummary :=
  let '(label, original, placeholder) :=
    projected_room_summary_display_labels room profiles own_user_id in
  room <| display_label := label |> <| original_display_label := original |>
       <| display_label_placeholder := placeholder |>
       <| room_avatar := projected_room_summary_avatar room profiles |>.
Definition room_summary_is_fresh (profiles : ProfileState) (own_user_id : option string)
    (room : RoomSummary) : bool :=
  let '(label, original, placeholder) :=
    projected_room_summary_display_labels room profiles own_user_id in
  String.eqb (display_label room) label && String.eqb (original_display_label room) original
  && bool_decide (display_label_placeholder room = placeholder)
  && bool_decide (room_avatar room = projected_room_summary_avatar room profiles).

Definition refresh_room_summary_display_projection (rooms : list RoomSummary)
    (profiles : ProfileState) (own_user_id : option string) : list RoomSummary * bool :=
  (refresh_room_summary profiles own_user_id <$> rooms,
   existsb (fun r => negb (room_summary_is_fresh profiles own_user_id r)) rooms).

Definition refresh_room_member (profiles : ProfileState) (own_user_id : option string)
    (m : RoomMemberSummary) : RoomMemberSummary :=
  m <| member_display_label :=
         resolve_user_display_name profiles (member_user_id m) (member_display_name m) own_user_id |>
    <| member_original_display_label :=
         original_user_display_name profiles (member_user_id m) (member_display_name m) own_user_id |>.
Definition room_member_is_fresh (profiles : ProfileState) (own_user_id : option string)
    (m : RoomMemberSummary) : bool :=
  let fresh := refresh_room_member profiles own_user_id m in
  String.eqb (member_display_label m) (member_display_label fresh)
  && String.eqb (member_original_display_label m) (member_original_display_label fresh).

Definition refresh_room_settings_member_display_projection (settings : RoomSettingsSnapshot)
    (profiles : ProfileState) (own_user_id : option string) : RoomSettingsSnapshot * bool :=
  (settings <| members ::= fun ms => refresh_room_member profiles own_user_id <$> ms |>,
   existsb (fun m => negb (room_member_is_fresh profiles own_user_id m)) (members settings)).

(** * Remembered conversation activity ([state/room_activity.rs]) *)

(** A [RoomActivityRecord] is a timestamp and a source, like a [ConversationActivity]. *)
Abbreviation RoomActivityState := (gmap string ConversationActivity).

Definition observe_activity (s : RoomActivityState) (id : string) (activity : ConversationActivity)
    : RoomActivityState * bool :=
  match s !! id with
  | Some existing =>
      if activity_timestamp_ms activity <=? activity_timestamp_ms existing then (s, false)
      else (<[id := activity]> s, true)
  | None => (<[id := activity]> s, true)
  end.

Definition merge_into (s : RoomActivityState) (room : RoomSummary) : RoomSummary * bool :=
  match s !! room_id room with
  | None => (room, false)
  | Some remembered =>
      match conversation_activity room with
      | Some live =>
          if activity_timestamp_ms remembered <=? activity_timestamp_ms live then (room, false)
          else (room <| conversation_activity := Some remembered |>, true)
      | None => (room <| conversation_activity := Some remembered |>, true)
      end
  end.

Definition merge_into_rooms (s : RoomActivityState) (rooms : list RoomSummary)
    : list RoomSummary * bool :=
  ((fun r => (merge_into s r).1) <$> rooms, existsb (fun r => (merge_into s r).2) rooms).

Definition retain_activity (s : RoomActivityState) (keep : string -> bool) : RoomActivityState :=
  filter (fun kv => keep kv.1 = true) s.
