(* ===== verification/NativeAttention.v ===== *)
(** What the desktop shows for unread rooms ([koushi-state/src/state/native_attention.rs]): the
    badge, the one alert candidate with its notification, and the rooms the notification
    delivery counts.

    The sums are the source's plain [+=] on [u64], which wraps in a release build.  The
    grapheme clusters of a text come from the [unicode_segmentation] crate, the parameter
    [graphemes] that Delivery takes too. *)

From stdpp Require Import base list strings gmap.
From Stdlib Require Import ZArith Lia.
From S2P Require Import Prelude Text Delivery LocaleProfile Profiles Rooms.
Local Open Scope string_scope.
Local Open Scope list_scope.
Local Open Scope Z_scope.
Local Set Warnings "-clear-no-such-hyp".

(** * Data *)

Record NativeAttentionContext := {
  window_focused : bool; window_focus_observation_generation : Z; alert_sequence : Z }.
Record NativeAttentionDispatchId := { dispatch_connection_id : Z; dispatch_sequence : Z }.
Inductive NativeAttentionCapability := Cap_Available | Cap_Unavailable | Cap_Unknown.
Record NativeAttentionCapabilities := {
  cap_notifications : NativeAttentionCapability; cap_badge : NativeAttentionCapability;
  cap_overlay_icon : NativeAttentionCapability; cap_sound : NativeAttentionCapability;
  cap_tray : NativeAttentionCapability; cap_activation : NativeAttentionCapability }.
Inductive NativeAttentionSuppressionReason :=
  | Suppress_InitialSync | Suppress_Backfill | Suppress_SelfMessage | Suppress_WindowFocused
  | Suppress_RoomMuted | Suppress_LowPriority | Suppress_Duplicate
  | Suppress_CapabilityUnavailable.
Inductive NativeAttentionDispatchState :=
  | Dispatch_Idle
  | Dispatch_Dispatching (dispatch_id : NativeAttentionDispatchId)
  | Dispatch_Delivered (dispatch_id : NativeAttentionDispatchId)
  | Dispatch_Unsupported (dispatch_id : NativeAttentionDispatchId)
  | Dispatch_Suppressed (reason : NativeAttentionSuppressionReason)
  | Dispatch_Failed (dispatch_id : NativeAttentionDispatchId) (kind : OperationFailureKind).
Inductive NativeAttentionSoundOutcome :=
  | Sound_Played | Sound_Unsupported | Sound_Failed | Sound_Skipped.
Inductive NativeAttentionObservationKind :=
  | Observation_Live | Observation_InitialSync | Observation_Backfill | Observation_SelfEvent.

Record NativeAttentionCandidate := {
  cand_name : string; cand_kind : RoomAttentionKind; cand_unread : Z; cand_highlights : Z }.
Record NativeAttentionSummary := {
  sum_unread_count : Z; sum_highlight_count : Z; badge_count : Z; alert_id : option Z;
  candidate : option NativeAttentionCandidate; capabilities : NativeAttentionCapabilities }.
Record NativeNotificationTarget := {
  target_room_id : string; target_event_id : option string; target_thread_root : option string }.
Record NativeNotificationPayload := {
  title : string; payload_body : string; target : NativeNotificationTarget }.
Record NativeAttentionState := {
  summary : NativeAttentionSummary; dispatch : NativeAttentionDispatchState;
  notification : option NativeNotificationPayload }.

Record NativeAttentionProjectionInput := {
  in_rooms : list RoomSummary; in_active_room_id : option string;
  in_muted_room_ids : list string; in_modes : gmap string RoomNotificationMode;
  in_ignored_user_ids : gset string; in_window_focused : bool;
  in_observation : NativeAttentionObservationKind;
  in_previous_candidate : option NativeAttentionCandidate; in_message_previews : bool;
  in_capabilities : NativeAttentionCapabilities; in_locale : CatalogLocale }.
Record NativeAttentionProjection := {
  proj_state : NativeAttentionState; active_room_match : bool; proj_notification_count : Z;
  badge_room_count : Z; badge_excluded_room_count : Z }.
Record NativeAttentionCandidateEntry := {
  entry_room : RoomSummary; is_verified_live_room : bool;
  entry_candidate : NativeAttentionCandidate }.

#[export] Instance NativeAttentionContext_updatable : Updatable NativeAttentionContext := fun c =>
  {| window_focused := window_focused c;
     window_focus_observation_generation := window_focus_observation_generation c;
     alert_sequence := alert_sequence c |}.
#[export] Instance Capabilities_updatable : Updatable NativeAttentionCapabilities := fun c =>
  {| cap_notifications := cap_notifications c; cap_badge := cap_badge c;
     cap_overlay_icon := cap_overlay_icon c; cap_sound := cap_sound c; cap_tray := cap_tray c;
     cap_activation := cap_activation c |}.
#[export] Instance Candidate_updatable : Updatable NativeAttentionCandidate := fun c =>
  {| cand_name := cand_name c; cand_kind := cand_kind c; cand_unread := cand_unread c;
     cand_highlights := cand_highlights c |}.
#[export] Instance Summary_updatable : Updatable NativeAttentionSummary := fun s =>
  {| sum_unread_count := sum_unread_count s; sum_highlight_count := sum_highlight_count s;
     badge_count := badge_count s; alert_id := alert_id s; candidate := candidate s;
     capabilities := capabilities s |}.
#[export] Instance Payload_updatable : Updatable NativeNotificationPayload := fun p =>
  {| title := title p; payload_body := payload_body p; target := target p |}.
#[export] Instance NativeAttentionState_updatable : Updatable NativeAttentionState := fun s =>
  {| summary := summary s; dispatch := dispatch s; notification := notification s |}.
#[export] Instance Projection_updatable : Updatable NativeAttentionProjection := fun p =>
  {| proj_state := proj_state p; active_room_match := active_room_match p;
     proj_notification_count := proj_notification_count p;
     badge_room_count := badge_room_count p;
     badge_excluded_room_count := badge_excluded_room_count p |}.

#[export] Instance DispatchId_eq : EqDecision NativeAttentionDispatchId.
Proof. solve_decision. Defined.
#[export] Instance NativeCapability_eq : EqDecision NativeAttentionCapability.
Proof. solve_decision. Defined.
#[export] Instance NativeCapabilities_eq : EqDecision NativeAttentionCapabilities.
Proof. solve_decision. Defined.
#[export] Instance SuppressionReason_eq : EqDecision NativeAttentionSuppressionReason.
Proof. solve_decision. Defined.
#[export] Instance DispatchState_eq : EqDecision NativeAttentionDispatchState.
Proof. solve_decision. Defined.
#[export] Instance Observation_eq : EqDecision NativeAttentionObservationKind.
Proof. solve_decision. Defined.
#[export] Instance NativeCandidate_eq : EqDecision NativeAttentionCandidate.
Proof. solve_decision. Defined.
#[export] Instance NativeSummary_eq : EqDecision NativeAttentionSummary.
Proof. solve_decision. Defined.
#[export] Instance NativeTarget_eq : EqDecision NativeNotificationTarget.
Proof. solve_decision. Defined.
#[export] Instance NativePayload_eq : EqDecision NativeNotificationPayload.
Proof. solve_decision. Defined.
#[export] Instance NativeAttentionState_eq : EqDecision NativeAttentionState.
Proof. solve_decision. Defined.

Definition NativeAttentionContext_default : NativeAttentionContext :=
  {| window_focused := true; window_focus_observation_generation := 0; alert_sequence := 0 |}.
Definition NativeAttentionCapabilities_default : NativeAttentionCapabilities :=
  {| cap_notifications := Cap_Unknown; cap_badge := Cap_Unknown; cap_overlay_icon := Cap_Unknown;
     cap_sound := Cap_Unknown; cap_tray := Cap_Unknown; cap_activation := Cap_Unknown |}.
Definition NativeAttentionState_default : NativeAttentionState :=
  {| summary := {| sum_unread_count := 0; sum_highlight_count := 0; badge_count := 0;
                   alert_id := None; candidate := None;
                   capabilities := NativeAttentionCapabilities_default |};
     dispatch := Dispatch_Idle; notification := None |}.

Definition with_tray (c : NativeAttentionCapabilities) (tray : NativeAttentionCapability)
    : NativeAttentionCapabilities := c <| cap_tray := tray |>.

Definition native_attention_capabilities_for_platform (platform : DisplayPlatform)
    : NativeAttentionCapabilities :=
  {| cap_notifications := Cap_Available;
     cap_badge := match platform with
                  | Platform_Macos | Platform_Windows => Cap_Available
                  | Platform_Linux => Cap_Unknown end;
     cap_overlay_icon := match platform with
                         | Platform_Windows => Cap_Available
                         | Platform_Macos | Platform_Linux => Cap_Unavailable end;
     cap_sound := match platform with
                  | Platform_Macos | Platform_Windows => Cap_Available
                  | Platform_Linux => Cap_Unavailable end;
     cap_tray := Cap_Unknown; cap_activation := Cap_Unknown |}.

(** * Eligibility *)

(** The guards both projections share. *)
Definition room_mode (input : NativeAttentionProjectionInput) (room : RoomSummary)
    : RoomNotificationMode := default Mode_All (in_modes input !! room_id room).
Definition room_is_silenced (input : NativeAttentionProjectionInput) (room : RoomSummary) : bool :=
  existsb (String.eqb (room_id room)) (in_muted_room_ids input)
  || bool_decide (room_mode input room = Mode_Mute).
Definition is_low_priority (room : RoomSummary) : bool := is_some (low_priority (tags room)).
Definition ignored_user_dm (input : NativeAttentionProjectionInput) (room : RoomSummary) : bool :=
  is_dm room && existsb (fun id => bool_decide (id ∈ in_ignored_user_ids input)) (dm_user_ids room).
Definition effective_unread_count (input : NativeAttentionProjectionInput) (room : RoomSummary) : Z :=
  if bool_decide (room_mode input room = Mode_Mentions) && (highlight_total room =? 0) then 0
  else room_activity_unread_count room.
Definition effective_notification_count (input : NativeAttentionProjectionInput)
    (room : RoomSummary) : Z :=
  if bool_decide (room_mode input room = Mode_Mentions) then 0 else notification_count room.
Definition has_usable_latest_event (room : RoomSummary) : bool :=
  is_some_and (latest_event room)
    (fun e => negb (is_empty (latest_event_id e)) && negb (is_redacted e)).

(** * The notification *)

Section payload.
Context (graphemes : string -> list string).

Definition MAX_NATIVE_NOTIFICATION_PREVIEW_GRAPHEMES : nat := 120.

(** The pieces of [split(pred)]; there is always one. *)
Fixpoint split_on (sep : string -> bool) (cs : list string) : string * list string :=
  match cs with
  | [] => (EmptyString, [])
  | c :: cs =>
      let '(x, xs) := split_on sep cs in
      if sep c then (EmptyString, x :: xs) else (c +:+ x, xs)
  end.
(** White space (U+2028 is white space) and controls separate the words of the preview. *)
Definition flatten_text (t : string) : string :=
  let '(x, xs) := split_on (fun c => is_whitespace c || is_control c) (chars t) in
  join " " (List.filter (fun part => negb (is_empty part)) (x :: xs)).
Definition bounded_preview (flattened : string) : string :=
  let gs := graphemes flattened in
  if (length gs <=? MAX_NATIVE_NOTIFICATION_PREVIEW_GRAPHEMES)%nat then flattened
  else concat_str (take (MAX_NATIVE_NOTIFICATION_PREVIEW_GRAPHEMES - 1) gs) +:+ "…".

Definition verified_native_preview (entry : NativeAttentionCandidateEntry) : option string :=
  if negb (is_verified_live_room entry) then None
  else
    event ← latest_event (entry_room entry);
    if is_redacted event || is_empty (latest_event_id event)
       || bool_decide (relation_type event = Some "m.replace")
       || bool_decide (relation_type event = Some "m.annotation")
    then None
    else
      message ← latest_message_text event;
      let flattened := flatten_text message in
      if is_empty flattened then None else Some (bounded_preview flattened).

Definition native_notification_title (name : string) (kind : RoomAttentionKind)
    (locale : CatalogLocale) : string :=
  notification_text locale
    match kind with
    | Kind_Mention => MentionIn name | Kind_Dm => DirectMessageIn name
    | Kind_Message => MessageIn name
    end.

Definition native_notification_count_body (c : NativeAttentionCandidate) (locale : CatalogLocale)
    : string :=
  let mentions := match cand_kind c with Kind_Mention => cand_highlights c | _ => 0 end in
  notification_counts locale mentions (cand_unread c).

Definition native_notification_payload (entry : NativeAttentionCandidateEntry)
    (c : NativeAttentionCandidate) (previews_allowed : bool) (locale : CatalogLocale)
    : NativeNotificationPayload :=
  let preview := if previews_allowed then verified_native_preview entry else None in
  {| title := native_notification_title (cand_name c) (cand_kind c) locale;
     payload_body := default (native_notification_count_body c locale) preview;
     target := {| target_room_id := room_id (entry_room entry); target_event_id := None;
                  target_thread_root := None |} |}.

Definition refresh_title_for_candidate (p : NativeNotificationPayload) (name : string)
    (kind : RoomAttentionKind) (locale : CatalogLocale) : NativeNotificationPayload :=
  p <| title := native_notification_title name kind locale |>.

(** * The projection *)

Definition native_attention_suppression_reason (input : NativeAttentionProjectionInput)
    (entry : NativeAttentionCandidateEntry) : option NativeAttentionSuppressionReason :=
  match in_observation input with
  | Observation_InitialSync => Some Suppress_InitialSync
  | Observation_Backfill => Some Suppress_Backfill
  | Observation_SelfEvent => Some Suppress_SelfMessage
  | Observation_Live =>
      if in_window_focused input
         && bool_decide (in_active_room_id input = Some (room_id (entry_room entry)))
      then Some Suppress_WindowFocused
      else if bool_decide (cap_notifications (in_capabilities input) = Cap_Unavailable)
      then Some Suppress_CapabilityUnavailable
      else if bool_decide (in_previous_candidate input = Some (entry_candidate entry))
      then Some Suppress_Duplicate
      else None
  end.

(** The locals of the loop over the rooms. *)
Record Totals := {
  t_seen : gset string; t_unread : Z; t_highlight : Z; t_notification : Z; t_badge : Z;
  t_badge_rooms : Z; t_excluded : Z; t_candidates : list NativeAttentionCandidateEntry }.
#[export] Instance Totals_updatable : Updatable Totals := fun t =>
  {| t_seen := t_seen t; t_unread := t_unread t; t_highlight := t_highlight t;
     t_notification := t_notification t; t_badge := t_badge t; t_badge_rooms := t_badge_rooms t;
     t_excluded := t_excluded t; t_candidates := t_candidates t |}.
Definition no_totals : Totals :=
  {| t_seen := ∅; t_unread := 0; t_highlight := 0; t_notification := 0; t_badge := 0;
     t_badge_rooms := 0; t_excluded := 0; t_candidates := [] |}.

(** The candidate a counted room raises. *)
Definition raised_candidate (input : NativeAttentionProjectionInput)
    (live_room_id preview_room_id : option string) (require_live_room : bool) (room : RoomSummary)
    : option NativeAttentionCandidateEntry :=
  let is_live := bool_decide (live_room_id = Some (room_id room)) in
  if (room_activity_unread_count room =? 0)
     || bool_decide (room_mode input room = Mode_Mentions)
     || (require_live_room && negb is_live)
     || negb (has_usable_latest_event room)
  then None
  else
    s ← room_attention_summary (display_label room) (is_dm room) 0 0
          (effective_unread_count input room);
    Some {| entry_room := room;
            is_verified_live_room :=
              require_live_room && is_live
              && bool_decide (preview_room_id = Some (room_id room));
            entry_candidate :=
              {| cand_name := attention_display_name s; cand_kind := attention_kind s;
                 cand_unread := attention_unread s; cand_highlights := 0 |} |}.

Definition project_room (input : NativeAttentionProjectionInput)
    (live_room_id preview_room_id : option string) (require_live_room : bool) (t : Totals)
    (room : RoomSummary) : Totals :=
  if bool_decide (room_id room ∈ t_seen t) then t <| t_excluded ::= fun n => n + 1 |>
  else
    let t := t <| t_seen ::= fun seen => {[room_id room]} ∪ seen |> in
    if room_is_silenced input room || is_low_priority room
    then t <| t_excluded ::= fun n => n + 1 |>
    else
      let t := t <| t_badge_rooms ::= fun n => n + 1 |>
                 <| t_badge ::= fun n => u64_wrapping_add n (room_activity_unread_count room) |> in
      if ignored_user_dm input room then t
      else
        let t :=
          t <| t_unread ::= fun n => u64_wrapping_add n (effective_unread_count input room) |>
            <| t_notification ::=
                 fun n => u64_wrapping_add n (effective_notification_count input room) |>
            <| t_highlight ::= fun n => u64_wrapping_add n (highlight_total room) |> in
        match raised_candidate input live_room_id preview_room_id require_live_room room with
        | Some entry => t <| t_candidates ::= fun l => l ++ [entry] |>
        | None => t
        end.

Definition candidate_cmp (x y : NativeAttentionCandidateEntry) : comparison :=
  let l := entry_candidate x in
  let r := entry_candidate y in
  then_with (attention_kind_priority (cand_kind r) ?= attention_kind_priority (cand_kind l))
 (then_with (cand_highlights r ?= cand_highlights l)
 (then_with (cand_unread r ?= cand_unread l) (String.compare (cand_name l) (cand_name r)))).

Definition native_attention_projection_from_rooms_with_live_room
    (input : NativeAttentionProjectionInput) (live_room_id preview_room_id : option string)
    (require_live_room : bool) : NativeAttentionProjection :=
  let t := foldl (project_room input live_room_id preview_room_id require_live_room) no_totals
             (in_rooms input) in
  let candidate_entry := head (sort_by (not_gt candidate_cmp) (t_candidates t)) in
  let reason := candidate_entry ≫= native_attention_suppression_reason input in
  let chosen := match reason with Some _ => None | None => candidate_entry end in
  let previews :=
    in_message_previews input && bool_decide (in_observation input = Observation_Live) in
  {| proj_state :=
       {| summary :=
            {| sum_unread_count := t_unread t; sum_highlight_count := t_highlight t;
               badge_count :=
                 match cap_badge (in_capabilities input) with
                 | Cap_Unavailable => 0 | Cap_Available | Cap_Unknown => t_badge t end;
               alert_id := None; candidate := entry_candidate <$> chosen;
               capabilities := in_capabilities input |};
          dispatch := match reason with Some r => Dispatch_Suppressed r | None => Dispatch_Idle end;
          notification :=
            (fun e => native_notification_payload e (entry_candidate e) previews (in_locale input))
            <$> chosen |};
     active_room_match :=
       is_some_and candidate_entry
         (fun e => bool_decide (in_active_room_id input = Some (room_id (entry_room e))));
     proj_notification_count := t_notification t; badge_room_count := t_badge_rooms t;
     badge_excluded_room_count := t_excluded t |}.

Definition native_attention_projection_from_rooms (input : NativeAttentionProjectionInput)
    : NativeAttentionProjection :=
  native_attention_projection_from_rooms_with_live_room input None None false.
Definition native_attention_state_from_rooms (input : NativeAttentionProjectionInput)
    : NativeAttentionState := proj_state (native_attention_projection_from_rooms input).

(** * The rooms the notification delivery counts *)

Definition attention_room_candidate (input : NativeAttentionProjectionInput) (room : RoomSummary)
    : option RoomAttentionCandidate :=
  if room_is_silenced input room || is_low_priority room || ignored_user_dm input room then None
  else
    let unread := effective_unread_count input room in
    if unread =? 0 then None
    else
      s ← room_attention_summary (display_label room) (is_dm room)
            (effective_notification_count input room) (highlight_total room) unread;
      Some
        {| Delivery.cand_room_id := room_id room;
           cand_display_label := attention_display_name s;
           Delivery.cand_kind := attention_kind s;
           Delivery.cand_unread := Z.min unread U32_MAX;
           cand_mentions := Z.min (highlight_total room) U32_MAX;
           parent_space_ids := room_parent_space_ids room; parent_space_labels := [];
           newest_message_text :=
             latest_event room ≫= fun e =>
               if is_redacted e then None
               else latest_message_text e ≫= bounded_notification_delivery_message_source graphemes;
           cand_direct_partner :=
             (fun id => {| Delivery.user_id := id; local_alias := None |})
             <$> single_dm_partner room |}.

Definition delivery_cmp (x y : RoomAttentionCandidate) : comparison :=
  then_with (attention_kind_priority (Delivery.cand_kind y)
             ?= attention_kind_priority (Delivery.cand_kind x))
 (then_with (cand_mentions y ?= cand_mentions x)
 (then_with (Delivery.cand_unread y ?= Delivery.cand_unread x)
 (then_with (String.compare (cand_display_label x) (cand_display_label y))
            (String.compare (cand_room_id x) (cand_room_id y))))).

Definition attention_room_candidates (input : NativeAttentionProjectionInput)
    : list RoomAttentionCandidate :=
  sort_by (not_gt delivery_cmp)
    (omap (attention_room_candidate input) (retain_first room_id ∅ (in_rooms input))).

Definition MAX_ATTENTION_PARENT_SPACE_LABELS : nat := 2.
(** What [attention_room_candidates_for_state] adds from the aliases and the spaces. *)
Definition name_candidate (aliases : gmap string string) (spaces : list SpaceSummary)
    (c : RoomAttentionCandidate) : RoomAttentionCandidate :=
  {| Delivery.cand_room_id := cand_room_id c; cand_display_label := cand_display_label c;
     Delivery.cand_kind := Delivery.cand_kind c; Delivery.cand_unread := Delivery.cand_unread c;
     cand_mentions := cand_mentions c; parent_space_ids := parent_space_ids c;
     parent_space_labels :=
       take MAX_ATTENTION_PARENT_SPACE_LABELS
         (List.filter (fun label => negb (is_empty (trim label)))
           (omap (fun id => space_display_name <$>
                              find_first (fun s => String.eqb (space_id s) id) spaces)
             (parent_space_ids c)));
     newest_message_text := newest_message_text c;
     cand_direct_partner :=
       (fun p => {| Delivery.user_id := Delivery.user_id p;
                    local_alias := nonblank (aliases !! Delivery.user_id p) |})
       <$> cand_direct_partner c |}.

End payload.
