(* ===== verification/SpaceMembers.v ===== *)
(** The members of a selected space ([koushi-state/src/state/space_members.rs], and the
    projection helpers of [reducer/space_members.rs]): three lists of entries, one operation at
    a time, and the admission of invites and cancellations.

    [child_room_count] and the like are [usize], a generation is a [u64]; both are [Z]. *)

From stdpp Require Import base list strings gmap.
From Stdlib Require Import ZArith Lia.
From S2P Require Import Prelude Text Profiles Rooms.
Local Open Scope string_scope.
Local Open Scope list_scope.
Local Open Scope Z_scope.
Local Set Warnings "-clear-no-such-hyp".

(** * Data *)

Inductive SpaceMemberMembership := SpaceJoined | SpaceInvited | ChildRoomOnly.

Inductive SpaceMembersCommandRejection :=
  | NoSelectedSpace | WrongSpace | StaleGeneration | InviteAlreadyInFlight
  | CancellationAlreadyInFlight | LoadBlockedByInvite | AlreadyJoined | AlreadyInvited
  | NotInvited | NotChildRoomOnly | RoleUpdateAlreadyInFlight | RoleNotEditable
  | RoleTargetInvalid | RoleOptionUnavailable | RoleRevisionMismatch | RoleCurrentPowerMismatch
  | RoleConfirmationRequired | RoleSessionRequired.

Inductive SpaceMemberRoleFailureKind :=
  | RoleFailure_Forbidden | RoleFailure_Stale | RoleFailure_NotFound | RoleFailure_Network
  | RoleFailure_Timeout | RoleFailure_Invalid | RoleFailure_Sdk.
Inductive SpaceMemberRoleUpdateOutcome :=
  | Role_Succeeded | Role_Failed (kind : SpaceMemberRoleFailureKind).
Inductive SpaceMemberInviteOutcome :=
  | Invite_Invited | Invite_AlreadyInvited | Invite_AlreadyJoined | Invite_Cancelled
  | Invite_NotInvited | Invite_Failed (kind : OperationFailureKind).

Record SpaceMemberEntry := {
  entry_user_id : string; entry_display_name : option string; entry_label : string;
  entry_original_label : string; entry_avatar_url : option string;
  entry_power_level : option Z; entry_role : RoomMemberRole;
  membership : SpaceMemberMembership; entry_child_room_ids : list string;
  invite_pending : bool; role_options : list RoomMemberRoleOption }.

Record SpaceMembersProjection := {
  projection_space_id : string; projection_generation : Z;
  proj_joined : list SpaceMemberEntry; proj_invited : list SpaceMemberEntry;
  proj_child_only : list SpaceMemberEntry;
  proj_child_rooms : Z; proj_complete_rooms : Z; proj_incomplete_rooms : Z;
  proj_revision : option string; proj_can_edit : bool }.

Inductive SpaceMembersOperationState :=
  | Members_Idle
  | Members_Loading (request_id : option Z) (space_id : string) (generation : Z)
  | Members_Inviting (request_id : Z) (space_id user_id : string) (generation : Z)
  | Members_CancellingInvite (request_id : Z) (space_id user_id : string) (generation : Z)
  | Members_Failed (request_id : Z) (space_id : string) (user_id : option string)
      (generation : Z) (kind : OperationFailureKind)
  | Members_UpdatingRole (request_id : Z) (space_id user_id : string) (generation : Z)
      (expected_power_levels_revision : option string) (expected_power_level power_level : Z)
      (confirmed : bool)
  | Members_RoleUpdateFailed (request_id : Z) (space_id user_id : string) (generation : Z)
      (expected_power_levels_revision : option string) (expected_power_level power_level : Z)
      (sent_revision : option string) (kind : SpaceMemberRoleFailureKind).

Record SpaceMembersState := {
  selected_space_id : option string; generation : Z;
  space_joined : list SpaceMemberEntry; space_invited : list SpaceMemberEntry;
  child_room_only : list SpaceMemberEntry;
  child_room_count : Z; complete_child_room_count : Z; incomplete_child_room_count : Z;
  power_levels_revision : option string; can_edit_roles : bool;
  operation : SpaceMembersOperationState }.

#[export] Instance SpaceMemberEntry_updatable : Updatable SpaceMemberEntry := fun e =>
  {| entry_user_id := entry_user_id e; entry_display_name := entry_display_name e;
     entry_label := entry_label e; entry_original_label := entry_original_label e;
     entry_avatar_url := entry_avatar_url e; entry_power_level := entry_power_level e;
     entry_role := entry_role e; membership := membership e;
     entry_child_room_ids := entry_child_room_ids e; invite_pending := invite_pending e;
     role_options := role_options e |}.
#[export] Instance SpaceMembersProjection_updatable : Updatable SpaceMembersProjection := fun p =>
  {| projection_space_id := projection_space_id p; projection_generation := projection_generation p;
     proj_joined := proj_joined p; proj_invited := proj_invited p;
     proj_child_only := proj_child_only p; proj_child_rooms := proj_child_rooms p;
     proj_complete_rooms := proj_complete_rooms p; proj_incomplete_rooms := proj_incomplete_rooms p;
     proj_revision := proj_revision p; proj_can_edit := proj_can_edit p |}.
#[export] Instance SpaceMembersState_updatable : Updatable SpaceMembersState := fun s =>
  {| selected_space_id := selected_space_id s; generation := generation s;
     space_joined := space_joined s; space_invited := space_invited s;
     child_room_only := child_room_only s; child_room_count := child_room_count s;
     complete_child_room_count := complete_child_room_count s;
     incomplete_child_room_count := incomplete_child_room_count s;
     power_levels_revision := power_levels_revision s; can_edit_roles := can_edit_roles s;
     operation := operation s |}.
#[export] Instance Membership_eq : EqDecision SpaceMemberMembership. Proof. solve_decision. Defined.

Definition SpaceMembersState_default : SpaceMembersState :=
  {| selected_space_id := None; generation := 0; space_joined := []; space_invited := [];
     child_room_only := []; child_room_count := 0; complete_child_room_count := 0;
     incomplete_child_room_count := 0; power_levels_revision := None; can_edit_roles := false;
     operation := Members_Idle |}.

Definition all_entries (s : SpaceMembersState) : list SpaceMemberEntry :=
  space_joined s ++ space_invited s ++ child_room_only s.
Definition projection_entries (p : SpaceMembersProjection) : list SpaceMemberEntry :=
  proj_joined p ++ proj_invited p ++ proj_child_only p.
Definition is_incomplete (s : SpaceMembersState) : bool := 0 <? incomplete_child_room_count s.

(** [.iter().any(|entry| entry.user_id == user_id)] *)
Definition has_user (user : string) (l : list SpaceMemberEntry) : bool :=
  existsb (fun e => String.eqb (entry_user_id e) user) l.
Definition find_user (user : string) (l : list SpaceMemberEntry) : option SpaceMemberEntry :=
  find_first (fun e => String.eqb (entry_user_id e) user) l.
(** [.retain(|entry| entry.user_id != user_id)] *)
Definition without_user (user : string) (l : list SpaceMemberEntry) : list SpaceMemberEntry :=
  List.filter (fun e => negb (String.eqb (entry_user_id e) user)) l.

(** * Names *)

Definition resolve_entry (profiles : ProfileState) (entry : SpaceMemberEntry) : SpaceMemberEntry :=
  let cached := nonblank (users profiles !! entry_user_id entry ≫= prof_display_name) in
  let child_only := bool_decide (membership entry = ChildRoomOnly) in
  let resolved := resolve_people_label
    {| in_local_alias := local_aliases profiles !! entry_user_id entry;
       relevant_room_label := if child_only then entry_display_name entry else None;
       space_room_label := if child_only then None else entry_display_name entry;
       payload_label := None; cached_label := cached; local_homeserver_label := None |} in
  entry <| entry_label := resolution_label resolved |>
        <| entry_original_label :=
             default UNKNOWN_USER (or_else (nonblank (entry_display_name entry)) cached) |>
        <| entry_avatar_url ::= fun url =>
             match url with
             | Some _ => url
             | None =>
                 uri ← avatar_mxc_uri <$> (users profiles !! entry_user_id entry ≫= prof_avatar);
                 if is_empty (trim uri) then None else Some uri
             end |>.

Definition resolve_space_members_projection (p : SpaceMembersProjection) (profiles : ProfileState)
    : SpaceMembersProjection :=
  p <| proj_joined ::= fun l => resolve_entry profiles <$> l |>
    <| proj_invited ::= fun l => resolve_entry profiles <$> l |>
    <| proj_child_only ::= fun l => resolve_entry profiles <$> l |>.

Definition entry_is_fresh (profiles : ProfileState) (entry : SpaceMemberEntry) : bool :=
  let resolved := resolve_entry profiles entry in
  String.eqb (entry_label entry) (entry_label resolved)
  && String.eqb (entry_original_label entry) (entry_original_label resolved)
  && bool_decide (entry_avatar_url entry = entry_avatar_url resolved).
Definition refresh_space_member_display_projection (s : SpaceMembersState)
    (profiles : ProfileState) : SpaceMembersState * bool :=
  (s <| space_joined ::= fun l => resolve_entry profiles <$> l |>
     <| space_invited ::= fun l => resolve_entry profiles <$> l |>
     <| child_room_only ::= fun l => resolve_entry profiles <$> l |>,
   existsb (fun e => negb (entry_is_fresh profiles e)) (all_entries s)).

(** * Sorting and merging *)

Definition entry_cmp (x y : SpaceMemberEntry) : comparison :=
  then_with (String.compare (entry_label x) (entry_label y))
            (String.compare (entry_user_id x) (entry_user_id y)).
Definition sort_entries (l : list SpaceMemberEntry) : list SpaceMemberEntry :=
  sort_by (not_gt entry_cmp) l.
Definition sort_projection (p : SpaceMembersProjection) : SpaceMembersProjection :=
  p <| proj_joined ::= sort_entries |> <| proj_invited ::= sort_entries |>
    <| proj_child_only ::= sort_entries |>.

Definition apply_projection (s : SpaceMembersState) (p : SpaceMembersProjection)
    : SpaceMembersState :=
  s <| space_joined := proj_joined p |> <| space_invited := proj_invited p |>
    <| child_room_only := proj_child_only p |> <| child_room_count := proj_child_rooms p |>
    <| complete_child_room_count := proj_complete_rooms p |>
    <| incomplete_child_room_count := proj_incomplete_rooms p |>
    <| power_levels_revision := proj_revision p |> <| can_edit_roles := proj_can_edit p |>.

Definition clear_projection (s : SpaceMembersState) : SpaceMembersState :=
  s <| space_joined := [] |> <| space_invited := [] |> <| child_room_only := [] |>
    <| child_room_count := 0 |> <| complete_child_room_count := 0 |>
    <| incomplete_child_room_count := 0 |> <| power_levels_revision := None |>
    <| can_edit_roles := false |>.

(** Append an entry to the list of its own membership. *)
Definition push_entry (p : SpaceMembersProjection) (e : SpaceMemberEntry)
    : SpaceMembersProjection :=
  match membership e with
  | SpaceJoined => p <| proj_joined ::= fun l => l ++ [e] |>
  | SpaceInvited => p <| proj_invited ::= fun l => l ++ [e] |>
  | ChildRoomOnly => p <| proj_child_only ::= fun l => l ++ [e] |>
  end.
Definition merge_entry (acc : gset string * SpaceMembersProjection) (e : SpaceMemberEntry)
    : gset string * SpaceMembersProjection :=
  let '(observed, next) := acc in
  if bool_decide (entry_user_id e ∈ observed) then (observed, next)
  else ({[entry_user_id e]} ∪ observed, push_entry next e).
Definition merge_incomplete_projection (previous : SpaceMembersState)
    (next : SpaceMembersProjection) : SpaceMembersProjection :=
  (foldl merge_entry (list_to_set (entry_user_id <$> projection_entries next), next)
     (all_entries previous)).2.

Definition remove_projection_entry (p : SpaceMembersProjection) (user : string)
    : SpaceMembersProjection :=
  p <| proj_joined ::= without_user user |> <| proj_invited ::= without_user user |>
    <| proj_child_only ::= without_user user |>.

(** [entries.remove(index)] of the first entry of the user, in the first list that has one. *)
Fixpoint remove_first (user : string) (l : list SpaceMemberEntry) : list SpaceMemberEntry :=
  match l with
  | [] => []
  | e :: l => if String.eqb (entry_user_id e) user then l else e :: remove_first user l
  end.
Definition remove_entry (s : SpaceMembersState) (user : string)
    : SpaceMembersState * option SpaceMemberEntry :=
  match find_user user (space_joined s), find_user user (space_invited s),
        find_user user (child_room_only s) with
  | Some e, _, _ => (s <| space_joined ::= remove_first user |>, Some e)
  | None, Some e, _ => (s <| space_invited ::= remove_first user |>, Some e)
  | None, None, Some e => (s <| child_room_only ::= remove_first user |>, Some e)
  | None, None, None => (s, None)
  end.

Definition fallback_entry (user : string) (m : SpaceMemberMembership) : SpaceMemberEntry :=
  {| entry_user_id := user; entry_display_name := None; entry_label := UNKNOWN_USER;
     entry_original_label := UNKNOWN_USER; entry_avatar_url := None; entry_power_level := None;
     entry_role := Role_User; membership := m; entry_child_room_ids := [];
     invite_pending := false; role_options := [] |}.

(** * Admission *)

Definition admit_space_member_invite (s : SpaceMembersState) (space user : string) (gen : Z)
    : unit + SpaceMembersCommandRejection :=
  match selected_space_id s with
  | None => inr NoSelectedSpace
  | Some selected =>
      if negb (String.eqb selected space) then inr WrongSpace
      else if negb (generation s =? gen) then inr StaleGeneration
      else
        match operation s with
        | Members_Inviting _ _ _ _ | Members_CancellingInvite _ _ _ _
        | Members_UpdatingRole _ _ _ _ _ _ _ _ | Members_RoleUpdateFailed _ _ _ _ _ _ _ _ _ =>
            inr InviteAlreadyInFlight
        | _ =>
            if has_user user (space_joined s) then inr AlreadyJoined
            else if has_user user (space_invited s) then inr AlreadyInvited
            else if negb (has_user user (child_room_only s)) then inr NotChildRoomOnly
            else inl tt
        end
  end.

(** The operation that admits a cancellation: none, or the failed one it retries. *)
Definition cancellation_context_is_retryable (op : SpaceMembersOperationState)
    (space user : string) (gen : Z) : bool :=
  match op with
  | Members_Idle => true
  | Members_Failed _ failed_space (Some failed_user) failed_gen _ =>
      String.eqb failed_space space && String.eqb failed_user user && (failed_gen =? gen)
  | _ => false
  end.

Definition admit_space_member_cancellation (s : SpaceMembersState) (space user : string) (gen : Z)
    : unit + SpaceMembersCommandRejection :=
  match selected_space_id s with
  | None => inr NoSelectedSpace
  | Some selected =>
      if negb (String.eqb selected space) then inr WrongSpace
      else if negb (generation s =? gen) then inr StaleGeneration
      else if negb (cancellation_context_is_retryable (operation s) space user gen)
      then inr CancellationAlreadyInFlight
      else if negb (has_user user (space_invited s)) then inr NotInvited
      else inl tt
  end.
