(* ===== verification/People.v ===== *)
(** The part of [AppState] that people, room summaries and desktop attention live in, and the
    helpers its reducers share ([koushi-state/src/reducer/mod.rs], [reducer/avatar.rs]).

    [People] has the fields of [AppState] that the profile, live-signal, notification-mode,
    desktop-attention and space-member reducers read or write; of the settings it keeps the
    values those reducers read.  The room list compares lower-cased labels ([to_lowercase]),
    the previews count grapheme clusters ([graphemes]): parameters, as in Rooms and Delivery. *)

From stdpp Require Import base list strings gmap.
From Stdlib Require Import ZArith Lia.
From S2P Require Import Prelude Text AppState Delivery LocaleProfile Profiles LiveSignals Rooms NativeAttention SpaceMembers.
Local Open Scope string_scope.
Local Open Scope list_scope.
Local Open Scope Z_scope.
Local Set Warnings "-clear-no-such-hyp".

(** * State *)

(** [RoomPreference] *)
Record RoomPreference := {
  url_previews_enabled_override : option bool;
  preference_mode : option RoomNotificationMode }.
#[export] Instance RoomPreference_updatable : Updatable RoomPreference := fun p =>
  {| url_previews_enabled_override := url_previews_enabled_override p;
     preference_mode := preference_mode p |}.
Definition RoomPreference_default : RoomPreference :=
  {| url_previews_enabled_override := None; preference_mode := None |}.
Definition preference_is_empty (p : RoomPreference) : bool :=
  bool_decide (url_previews_enabled_override p = None) && bool_decide (preference_mode p = None).

(** The settings the reducers of this cluster read. *)
Record SettingsValues := {
  locale : LocaleSettings; room_list_sort : RoomListSort; sound : bool; badges : bool;
  message_previews : bool; url_previews_enabled : bool; encrypted_url_previews_enabled : bool }.

Inductive PinnedEventState := Pinned_Ready | Pinned_UnableToDecrypt | Pinned_Unavailable.
Record PinnedEvent := {
  pinned_event_id : string; pinned_sender : option string; pinned_sender_label : option string;
  body_preview : option string; pinned_redacted : bool; pinned_timestamp : option Z;
  pinned_state : PinnedEventState; pinned_thread_root : option string }.
Inductive PinOp := Pin | Unpin.
Inductive PinOperationState :=
  | PinOp_Idle
  | PinOp_Pending (request_id : Z) (room_id event_id : string) (op : PinOp)
  | PinOp_Failed (room_id event_id : string) (op : PinOp) (recoverable : bool).
Record RoomInteractionState := {
  pinned_events : list PinnedEvent; pin_operation : PinOperationState }.

Record JapaneseCatalogProfile := {
  profile_catalog_locale : string; complete : bool; missing_message_ids : list string }.

Record People := {
  session : SessionState; errors : list AppError; settings : SettingsValues;
  rooms : list RoomSummary; spaces : list SpaceSummary; invites : list InvitePreview;
  active_room_id : option string; active_space_id : option string;
  room_list : RoomListProjection;
  room_notification_settings : gmap string RoomNotificationSettings;
  room_notification_awaiting_echo : gmap string (Z * RoomNotificationMode);
  room_preferences : gmap string RoomPreference; room_overrides : gmap string bool;
  profile : ProfileState; live_signals : LiveSignalsState;
  open_settings : option RoomSettingsSnapshot;
  native_attention : NativeAttentionState; native_attention_context : NativeAttentionContext;
  space_members : SpaceMembersState;
  room_activity : RoomActivityState; locally_read_activity : gmap string RoomReadActivity;
  room_interactions : gmap string RoomInteractionState;
  japanese_catalog : JapaneseCatalogProfile }.

#[export] Instance PinnedEvent_updatable : Updatable PinnedEvent := fun e =>
  {| pinned_event_id := pinned_event_id e; pinned_sender := pinned_sender e;
     pinned_sender_label := pinned_sender_label e; body_preview := body_preview e;
     pinned_redacted := pinned_redacted e; pinned_timestamp := pinned_timestamp e;
     pinned_state := pinned_state e; pinned_thread_root := pinned_thread_root e |}.
#[export] Instance RoomInteractionState_updatable : Updatable RoomInteractionState := fun r =>
  {| pinned_events := pinned_events r; pin_operation := pin_operation r |}.
#[export] Instance RoomNotificationSettings_updatable : Updatable RoomNotificationSettings := fun s =>
  {| notification_mode := notification_mode s; mode_operation := mode_operation s |}.
#[export] Instance People_updatable : Updatable People := fun s =>
  {| session := session s; errors := errors s; settings := settings s; rooms := rooms s;
     spaces := spaces s; invites := invites s; active_room_id := active_room_id s;
     active_space_id := active_space_id s; room_list := room_list s;
     room_notification_settings := room_notification_settings s;
     room_notification_awaiting_echo := room_notification_awaiting_echo s;
     room_preferences := room_preferences s; room_overrides := room_overrides s;
     profile := profile s; live_signals := live_signals s; open_settings := open_settings s;
     native_attention := native_attention s;
     native_attention_context := native_attention_context s; space_members := space_members s;
     room_activity := room_activity s; locally_read_activity := locally_read_activity s;
     room_interactions := room_interactions s; japanese_catalog := japanese_catalog s |}.

#[export] Instance PinnedState_eq : EqDecision PinnedEventState. Proof. solve_decision. Defined.
#[export] Instance PinnedEvent_eq : EqDecision PinnedEvent. Proof. solve_decision. Defined.
#[export] Instance ModeOperation_eq : EqDecision RoomNotificationModeOperation.
Proof. solve_decision. Defined.
#[export] Instance NotificationSettings_eq : EqDecision RoomNotificationSettings.
Proof. solve_decision. Defined.
#[export] Instance JapaneseCatalog_eq : EqDecision JapaneseCatalogProfile.
Proof. solve_decision. Defined.
#[export] Instance ListEntry_eq : EqDecision RoomListEntryKind. Proof. solve_decision. Defined.
#[export] Instance ListItem_eq : EqDecision RoomListProjectionItem. Proof. solve_decision. Defined.
#[export] Instance ListSource_eq : EqDecision RoomListSource. Proof. solve_decision. Defined.
#[export] Instance ListFailure_eq : EqDecision RoomListFailureKind. Proof. solve_decision. Defined.
#[export] Instance ListReadiness_eq : EqDecision RoomListReadiness. Proof. solve_decision. Defined.
#[export] Instance ListSort_eq : EqDecision RoomListSort. Proof. solve_decision. Defined.
#[export] Instance ListProjection_eq : EqDecision RoomListProjection. Proof. solve_decision. Defined.

Definition RoomInteractionState_default : RoomInteractionState :=
  {| pinned_events := []; pin_operation := PinOp_Idle |}.
Definition RoomNotificationSettings_default : RoomNotificationSettings :=
  {| notification_mode := Mode_All; mode_operation := ModeOp_Idle |}.

Definition SettingsValues_default : SettingsValues :=
  {| locale := {| language_tag := None; text_direction := Direction_Auto |};
     room_list_sort := Sort_RecentFirst; sound := true; badges := true; message_previews := false;
     url_previews_enabled := true; encrypted_url_previews_enabled := false |}.
Definition People_default : People :=
  {| session := Session_SignedOut; errors := []; settings := SettingsValues_default; rooms := [];
     spaces := []; invites := []; active_room_id := None; active_space_id := None;
     room_list := {| readiness := List_Uninitialized; active_filter := Filter_Rooms;
                     list_sort := Sort_RecentFirst; items := []; locally_left_room_ids := ∅ |};
     room_notification_settings := ∅; room_notification_awaiting_echo := ∅;
     room_preferences := ∅; room_overrides := ∅; profile := ProfileState_default;
     live_signals := LiveSignalsState_default; open_settings := None;
     native_attention := NativeAttentionState_default;
     native_attention_context := NativeAttentionContext_default;
     space_members := SpaceMembersState_default; room_activity := ∅; locally_read_activity := ∅;
     room_interactions := ∅;
     japanese_catalog := {| profile_catalog_locale := "en"; complete := true;
                            missing_message_ids := [] |} |}.

Inductive PeopleEffect :=
  | EmitUiEvent (event : UiEvent)
  | PersistRoomPreferences (request_id : Z) (preferences : gmap string RoomPreference)
  | RecordNativeAttentionRecomputed (observation : NativeAttentionObservationKind)
      (unread_count notification_count badge_count badge_room_count badge_excluded_room_count : Z)
      (candidate : option RoomAttentionKind)
      (suppression : option NativeAttentionSuppressionReason)
      (window_focused active_room_match : bool).
Abbreviation Reduced := (People * list PeopleEffect)%type.
Definition unchanged (state : People) : Reduced := (state, []).
Definition emit (cond : bool) (event : UiEvent) : list PeopleEffect :=
  if cond then [EmitUiEvent event] else [].

(** * Guards *)

Definition is_session_ready (state : People) : bool :=
  match session state with Session_Ready _ => true | _ => false end.
Definition has_session_projection_context (state : People) : bool :=
  match session state with
  | Session_Ready _ | Session_Locked _ | Session_SwitchingAccount _ => true
  | _ => false
  end.
Definition session_user_id (state : People) : option string :=
  match session state with
  | Session_Ready info | Session_Provisional info _ | Session_AwaitingVerification info _
  | Session_Verifying info _ _ _ _ | Session_AwaitingBootstrapConfirmation info _ _
  | Session_Rejecting info _ | Session_Locked info | Session_CapabilityBlocked info _
  | Session_SwitchingAccount info => Some (AppState.user_id info)
  | Session_SignedOut | Session_Restoring | Session_Authenticating _ _ | Session_LoggingOut => None
  end.
Definition room_exists (state : People) (id : string) : bool :=
  existsb (fun room => String.eqb (room_id room) id) (rooms state).
Definition push_error (state : People) (code message : string) : People :=
  state <| errors ::= fun l => l ++ [{| error_code := code; error_message := message;
                                        recoverable := true; error_reason := None |}] |>.
(** [if let Some(room) = state.rooms.iter_mut().find(..) { .. }] *)
Definition update_room (f : RoomSummary -> RoomSummary) (id : string) (state : People) : People :=
  state <| rooms ::= update_first (fun r => String.eqb (room_id r) id) f |>.
(** [entry(key).or_default()] *)
Definition entry_or {A} (d : A) (m : gmap string A) (k : string) : A := default d (m !! k).

(** * Shared projections ([reducer/mod.rs]) *)

Section shared.
Context (to_lowercase : string -> string).

Definition recompute_room_list_projection (state : People) : People :=
  state <| room_list ::= fun list =>
    (compute_room_list_projection to_lowercase (active_filter list)
       (room_list_sort (settings state)) (active_space_id state) (spaces state) (rooms state)
       (room_notification_settings state)
       (visible_invites_for_ignored_users (invites state) (ignored_user_ids (profile state))))
    <| readiness := readiness list |> <| locally_left_room_ids := locally_left_room_ids list |> |>.

End shared.

Definition refresh_open_room_settings_member_display_projection (state : People)
    (own_user_id : option string) : People * bool :=
  match open_settings state with
  | None => (state, false)
  | Some s =>
      let '(s, changed) :=
        refresh_room_settings_member_display_projection s (profile state) own_user_id in
      (state <| open_settings := Some s |>, changed)
  end.

Definition refresh_open_room_summary_display_projection (state : People)
    (own_user_id : option string) : People * bool :=
  let '(rs, changed) :=
    refresh_room_summary_display_projection (rooms state) (profile state) own_user_id in
  (state <| rooms := rs |>, changed).

(** The label the published candidate should show, when it can be told. *)
Definition candidate_display_label (state : People) : option string :=
  c ← candidate (summary (native_attention state));
  payload ← notification (native_attention state);
  room ← find_first (fun r => String.eqb (room_id r) (target_room_id (target payload))
                               && negb (is_low_priority r)) (rooms state);
  s ← room_attention_summary (display_label room) (is_dm room) (notification_count room)
        (highlight_count room) (unread_count room);
  if bool_decide (attention_kind s = cand_kind c) && (attention_unread s =? cand_unread c)
     && (attention_highlights s =? cand_highlights c)
  then Some (attention_display_name s) else None.

Definition refresh_native_attention_candidate_display_projection (state : People) : People * bool :=
  match candidate_display_label state, candidate (summary (native_attention state)) with
  | Some label, Some c =>
      if String.eqb (cand_name c) label then (state, false)
      else
        let loc := resolve_catalog_locale (locale (settings state)) in
        (state <| native_attention ::= fun a =>
           a <| summary ::= fun s => s <| candidate := Some (c <| cand_name := label |>) |> |>
             <| notification ::= fun o =>
                  (fun p => refresh_title_for_candidate p label (cand_kind c) loc) <$> o |> |>, true)
  | _, _ => (state, false)
  end.

Definition refresh_live_signals (state : People) (own_user_id : option string) : People * bool :=
  let '(live, changed) :=
    refresh_live_typing_user_display_projection (live_signals state) (profile state) own_user_id in
  (state <| live_signals := live |>, changed).

Definition refresh_member_display_projection (state : People) : People * bool :=
  let '(m, changed) :=
    refresh_space_member_display_projection (space_members state) (profile state) in
  (state <| space_members := m |>, changed).

Definition profile_changed_effects (user_ids : list string)
    (room_management room_list native_attention live_signals space_members : bool)
    : list PeopleEffect :=
  EmitUiEvent (ProfileChanged {| AppState.user_ids := user_ids |})
  :: emit room_list RoomListChanged ++ emit room_management RoomManagementChanged
  ++ emit native_attention NativeAttentionChanged ++ emit live_signals LiveSignalsChanged
  ++ emit space_members SpaceMembersChanged.

(** The refreshes every handler that changes a profile ends with. *)
Definition refresh_after_profile_change (state : People) (display_user_ids : list string)
    : Reduced :=
  let own_user_id := session_user_id state in
  let state := state <| profile ::= fun p => refresh_profile_user_display_projection p own_user_id |> in
  let '(state, members_changed) :=
    refresh_open_room_settings_member_display_projection state own_user_id in
  let '(state, list_changed) := refresh_open_room_summary_display_projection state own_user_id in
  let '(state, attention_changed) :=
    if list_changed then refresh_native_attention_candidate_display_projection state
    else (state, false) in
  let '(state, live_changed) := refresh_live_signals state own_user_id in
  let '(state, space_changed) := refresh_member_display_projection state in
  (state, profile_changed_effects display_user_ids members_changed list_changed attention_changed
            live_changed space_changed).

(** * Known thumbnails ([reducer/avatar.rs]) *)

Definition known_avatars (state : People) (include_invites : bool) : list (option AvatarImage) :=
  let profiles := profile state in
  [own_avatar (own profiles)]
  ++ (prof_avatar <$> (btree_iter (users profiles)).*2)
  ++ concat ((fun m => prof_avatar <$> (btree_iter m).*2) <$> (btree_iter (room_users profiles)).*2)
  ++ concat ((fun room => concat ((fun s => reader_avatar <$> readers s) <$> receipt_summaries room))
              <$> (btree_iter (signal_rooms (live_signals state))).*2)
  ++ (room_avatar <$> rooms state) ++ (space_avatar <$> spaces state)
  ++ (if include_invites then invite_avatar <$> invites state else []).
Definition collect_known_avatar_thumbnails (state : People) (include_invites : bool)
    : KnownThumbnails :=
  foldl remember_known_avatar_thumbnail ∅ (known_avatars state include_invites).
