(* ===== verification/ProfileActions.v ===== *)
(** The profile and live-signal reducers ([koushi-state/src/reducer/profile.rs],
    [reducer/live_signals.rs]): own and other profiles, local aliases, ignored users, avatars,
    receipts, typing and presence. *)

From stdpp Require Import base list strings gmap.
From Stdlib Require Import ZArith Lia.
From S2P Require Import Prelude Text AppState Delivery LocaleProfile Profiles LiveSignals Rooms NativeAttention SpaceMembers People.
Local Open Scope string_scope.
Local Open Scope list_scope.
Local Open Scope Z_scope.
Local Set Warnings "-clear-no-such-hyp".

(** [UiEvent::ProfileChanged(Default::default())] *)
Definition profile_changed : PeopleEffect :=
  EmitUiEvent (ProfileChanged {| AppState.user_ids := [] |}).
Definition on_profile (f : ProfileState -> ProfileState) (state : People) : People :=
  state <| profile ::= f |>.
Definition on_live_room (f : RoomLiveSignals -> RoomLiveSignals) (room : string) (state : People)
    : People :=
  state <| live_signals ::= fun l =>
    l <| signal_rooms ::= fun m => <[room := f (entry_or RoomLiveSignals_default m room)]> m |> |>.

(** * Own profile *)

Definition preserve_own_avatar_thumbnail (previous incoming : OwnProfile) : OwnProfile :=
  match own_avatar previous, own_avatar incoming with
  | Some p, Some i =>
      if String.eqb (avatar_mxc_uri p) (avatar_mxc_uri i)
         && bool_decide (avatar_thumbnail i = Thumbnail_NotRequested)
      then incoming <| own_avatar := Some (i <| avatar_thumbnail := avatar_thumbnail p |>) |>
      else incoming
  | _, _ => incoming
  end.
Definition set_own_profile (incoming : OwnProfile) (p : ProfileState) : ProfileState :=
  p <| own := preserve_own_avatar_thumbnail (own p) incoming |>.

Definition handle_own_profile_updated (state : People) (incoming : OwnProfile) : Reduced :=
  if negb (is_session_ready state) then unchanged state
  else refresh_after_profile_change (on_profile (set_own_profile incoming) state)
         (opt_list (session_user_id state)).

Definition handle_profile_update_requested (state : People) (request_id : Z)
    (request : ProfileUpdateRequest) : Reduced :=
  if negb (is_session_ready state) || negb (profile_update_is_idle (profile_update (profile state)))
  then unchanged state
  else
    let update := match request with
                  | SetDisplayName name => SettingDisplayName request_id name
                  | SetAvatar mime bytes => SettingAvatar request_id mime bytes
                  end in
    (on_profile (fun p => p <| profile_update := update |>) state, [profile_changed]).

Definition handle_profile_update_succeeded (state : People) (request_id : Z)
    (incoming : OwnProfile) : Reduced :=
  if negb (bool_decide (profile_update_request_id (profile_update (profile state))
                        = Some request_id))
  then unchanged state
  else refresh_after_profile_change
         (on_profile (fun p => set_own_profile incoming
                                 (p <| profile_update := ProfileUpdate_Idle |>)) state)
         (opt_list (session_user_id state)).

Definition handle_profile_update_failed (state : People) (request_id : Z) (message : string)
    : Reduced :=
  if negb (bool_decide (profile_update_request_id (profile_update (profile state))
                        = Some request_id))
  then unchanged state
  else (push_error (on_profile (fun p => p <| profile_update := ProfileUpdate_Idle |>) state)
          "profile_update_failed" message,
        [profile_changed; EmitUiEvent ErrorChanged]).

(** * Other profiles *)

(** [into_iter().map(|p| (p.user_id.clone(), p)).collect()]: the later of two profiles stays. *)
Definition profiles_by_user (profiles : list UserProfile) : gmap string UserProfile :=
  foldl (fun m p => <[prof_user_id p := p]> m) ∅ profiles.
Definition keep_thumbnail (known : KnownThumbnails) (p : UserProfile) : UserProfile :=
  p <| prof_avatar ::= preserve_avatar_thumbnail known |>.
(** One turn of the loop: an empty name or a missing avatar does not erase what is known. *)
Definition merge_profile (known_users : gmap string UserProfile) (kv : string * UserProfile)
    : gmap string UserProfile :=
  let '(id, p) := kv in
  match known_users !! id with
  | Some existing =>
      <[id := existing
          <| prof_display_name :=
               if is_none_or (prof_display_name p) (fun n => is_empty (trim n))
               then prof_display_name existing else prof_display_name p |>
          <| prof_avatar := or_else (prof_avatar p) (prof_avatar existing) |>]> known_users
  | None => <[id := p]> known_users
  end.

Definition handle_user_profiles_updated (state : People) (profiles : list UserProfile) : Reduced :=
  if negb (is_session_ready state) then unchanged state
  else
    let known := collect_known_avatar_thumbnails state false in
    let incoming := btree_iter (keep_thumbnail known <$> profiles_by_user profiles) in
    refresh_after_profile_change
      (on_profile (fun p => p <| users ::= fun m => foldl merge_profile m incoming |>) state)
      incoming.*1.

(** * Local aliases *)

Definition alias_keys (p : ProfileState) : list string := (btree_iter (local_aliases p)).*1.

Definition handle_local_user_aliases_loaded (state : People) (aliases : gmap string string)
    : Reduced :=
  if negb (is_session_ready state) then unchanged state
  else
    let normalized := omap (fun alias => normalize_local_user_alias (Some alias)) aliases in
    let before := alias_keys (profile state) in
    let state := on_profile (fun p => p <| local_aliases := normalized |>
                                        <| local_alias_update := AliasUpdate_Idle |>) state in
    refresh_after_profile_change state (before ++ alias_keys (profile state)).

Definition handle_local_user_alias_update_requested (state : People) (request_id : Z)
    (user_id : string) (alias : option string) : Reduced :=
  if negb (is_session_ready state)
     || negb (alias_update_is_idle (local_alias_update (profile state)))
  then unchanged state
  else
    let set m := match normalize_local_user_alias alias with
                 | Some alias => <[user_id := alias]> m
                 | None => delete user_id m
                 end in
    refresh_after_profile_change
      (on_profile (fun p => p <| local_aliases ::= set |>
                              <| local_alias_update := AliasUpdate_Saving request_id |>) state)
      [user_id].

Definition alias_update_matches (state : People) (request_id : Z) : bool :=
  bool_decide (alias_update_request_id (local_alias_update (profile state)) = Some request_id).
Definition settle_alias_update (state : People) : People :=
  on_profile (fun p => p <| local_alias_update := AliasUpdate_Idle |>) state.

Definition handle_local_user_alias_update_succeeded (state : People) (request_id : Z) : Reduced :=
  if negb (alias_update_matches state request_id) then unchanged state
  else (settle_alias_update state, [profile_changed]).

Definition handle_local_user_alias_update_failed (state : People) (request_id : Z) : Reduced :=
  if negb (alias_update_matches state request_id) then unchanged state
  else (push_error (settle_alias_update state) "local_user_alias_update_failed"
          "Local user alias could not be saved",
        [profile_changed; EmitUiEvent ErrorChanged]).

(** * Ignored users *)

Section lists.
Context (to_lowercase : string -> string).

(** The invites tab hides the invites of ignored users. *)
Definition recompute_invites (state : People) : Reduced :=
  if bool_decide (active_filter (room_list state) = Filter_Invites)
  then (recompute_room_list_projection to_lowercase state, [EmitUiEvent RoomListChanged])
  else (state, []).
Definition on_presence (f : gmap string PresenceKind -> gmap string PresenceKind) (state : People)
    : People := state <| live_signals ::= fun l => l <| presence ::= f |> |>.

Definition handle_ignored_users_loaded (state : People) (user_ids : gset string) : Reduced :=
  if negb (is_session_ready state) then unchanged state
  else
    let state := on_profile (fun p => p <| ignored_user_ids := user_ids |>
                                        <| ignored_user_update := IgnoredUpdate_Idle |>) state in
    let state := on_presence (filter (fun kv => kv.1 ∉ user_ids)) state in
    let '(state, listed) := recompute_invites state in
    (state, profile_changed :: listed
       ++ emit (negb (bool_decide (presence (live_signals state) = ∅))
                || is_some (session_user_id state)) LiveSignalsChanged).

Definition set_ignored (user_id : string) (ignored : bool) (p : ProfileState) : ProfileState :=
  p <| ignored_user_ids ::= fun ids => if ignored then {[user_id]} ∪ ids else ids ∖ {[user_id]} |>.

Definition handle_ignored_user_update_requested (state : People) (request_id : Z)
    (user_id : string) (ignored : bool) : Reduced :=
  if negb (is_session_ready state)
     || negb (ignored_update_is_idle (ignored_user_update (profile state)))
  then unchanged state
  else
    let state := on_profile (fun p => set_ignored user_id ignored p
                               <| ignored_user_update := IgnoredUpdate_Saving request_id |>) state in
    let state := on_presence (delete user_id) state in
    let '(state, listed) := recompute_invites state in
    (state, profile_changed :: listed ++ [EmitUiEvent LiveSignalsChanged]).

Definition ignored_update_matches (state : People) (request_id : Z) : bool :=
  bool_decide (ignored_update_request_id (ignored_user_update (profile state)) = Some request_id).

Definition handle_ignored_user_update_succeeded (state : People) (request_id : Z) : Reduced :=
  if negb (ignored_update_matches state request_id) then unchanged state
  else (on_profile (fun p => p <| ignored_user_update := IgnoredUpdate_Idle |>) state,
        [profile_changed]).

Definition handle_ignored_user_update_failed (state : People) (request_id : Z) (user_id : string)
    (ignored : bool) : Reduced :=
  if negb (ignored_update_matches state request_id) then unchanged state
  else (push_error
          (on_profile (fun p => set_ignored user_id (negb ignored) p
                                  <| ignored_user_update := IgnoredUpdate_Idle |>) state)
          "ignored_user_update_failed" "Ignored user list could not be updated",
        [profile_changed; EmitUiEvent ErrorChanged]).

(** * A downloaded thumbnail *)

Section thumbnail.
Context (mxc_uri : string) (thumbnail : AvatarThumbnailState).

Definition put_thumbnail (avatar : option AvatarImage) : option AvatarImage :=
  (update_avatar_thumbnail avatar mxc_uri thumbnail).1.
Definition takes_thumbnail (avatar : option AvatarImage) : bool :=
  (update_avatar_thumbnail avatar mxc_uri thumbnail).2.
Definition put_user (p : UserProfile) : UserProfile := p <| prof_avatar ::= put_thumbnail |>.
Definition put_reader (r : LiveReadReceipt) : LiveReadReceipt := r <| reader_avatar ::= put_thumbnail |>.
(** The users of a map whose avatar takes the thumbnail, in key order. *)
Definition taking_users (m : gmap string UserProfile) : list string :=
  prof_user_id <$> List.filter (fun p => takes_thumbnail (prof_avatar p)) (btree_iter m).*2.
Definition taking_readers (room : RoomLiveSignals) : list string :=
  reader_user_id <$> List.filter (fun r => takes_thumbnail (reader_avatar r))
    (concat (readers <$> receipt_summaries room)).

Definition handle_avatar_thumbnail_updated (state : People) : Reduced :=
  if negb (is_session_ready state) then unchanged state
  else
    let p := profile state in
    let own_taken := takes_thumbnail (own_avatar (own p)) in
    let profile_ids :=
      taking_users (users p) ++ concat (taking_users <$> (btree_iter (room_users p)).*2) in
    let reader_ids :=
      concat (taking_readers <$> (btree_iter (signal_rooms (live_signals state))).*2) in
    let profile_changed := own_taken || negb (bool_decide (profile_ids = [])) in
    let live_changed := negb (bool_decide (reader_ids = [])) in
    let list_changed :=
      existsb (fun r => takes_thumbnail (room_avatar r)) (rooms state)
      || existsb (fun s => takes_thumbnail (space_avatar s)) (spaces state)
      || existsb (fun i => takes_thumbnail (invite_avatar i)) (invites state) in
    let changed_user_ids :=
      sorted_unique ((if own_taken then opt_list (session_user_id state) else [])
                     ++ profile_ids ++ reader_ids) in
    let state :=
      state <| profile ::= fun p =>
                 p <| own ::= fun o => o <| own_avatar ::= put_thumbnail |> |>
                   <| users ::= fun m => put_user <$> m |>
                   <| room_users ::= fun ms =>
                        (fun m : gmap string UserProfile => put_user <$> m) <$> ms |> |>
            <| rooms ::= fun l => (fun r => r <| room_avatar ::= put_thumbnail |>) <$> l |>
            <| spaces ::= fun l => (fun s => s <| space_avatar ::= put_thumbnail |>) <$> l |>
            <| invites ::= fun l => (fun i => i <| invite_avatar ::= put_thumbnail |>) <$> l |>
            <| live_signals ::= fun l => l <| signal_rooms ::= fun m =>
                 map_receipt_summaries (map_readers put_reader) <$> m |> |> in
    let state := if list_changed then recompute_room_list_projection to_lowercase state else state in
    (state,
     (if profile_changed || negb (bool_decide (changed_user_ids = []))
      then [EmitUiEvent (ProfileChanged {| AppState.user_ids := changed_user_ids |})] else [])
     ++ emit list_changed RoomListChanged ++ emit live_changed LiveSignalsChanged).

End thumbnail.
End lists.

(** * Live signals *)

(** One turn of the loop of [handle_live_room_profiles_observed]: the map and [changed]. *)
Definition observe_profile (known : KnownThumbnails) (acc : gmap string UserProfile * bool)
    (p : UserProfile) : gmap string UserProfile * bool :=
  let '(m, changed) := acc in
  let p := keep_thumbnail known p in
  match m !! prof_user_id p with
  | Some existing =>
      let p := p <| prof_display_name ::= fun n => or_else n (prof_display_name existing) |>
                 <| prof_avatar ::= fun a => or_else a (prof_avatar existing) |> in
      if bool_decide (existing = p) then (m, changed) else (<[prof_user_id p := p]> m, true)
  | None => (<[prof_user_id p := p]> m, true)
  end.

Definition handle_live_room_profiles_observed (state : People) (room : string)
    (profiles : list UserProfile) : Reduced :=
  if negb (is_session_ready state) then unchanged state
  else
    let known := collect_known_avatar_thumbnails state false in
    let '(m, changed) :=
      foldl (observe_profile known) (entry_or ∅ (room_users (profile state)) room, false) profiles in
    let state := on_profile (fun p => p <| room_users ::= <[room := m]> |>) state in
    if changed then
      (state <| live_signals ::= fun l =>
         (refresh_live_receipt_display_projection l (profile state) (session_user_id state)).1 |>,
       [EmitUiEvent LiveSignalsChanged])
    else unchanged state.

(** A reader without an avatar keeps the one shown for it before. *)
Definition keep_reader_avatar (previous : option (list LiveReadReceipt)) (r : LiveReadReceipt)
    : LiveReadReceipt :=
  match reader_avatar r with
  | Some _ => r
  | None =>
      r <| reader_avatar :=
        l ← previous;
        found ← find_first (fun x => String.eqb (reader_user_id x) (reader_user_id r)) l;
        reader_avatar found |>
  end.

Definition remove_events (events : list string) (m : Summaries) : Summaries :=
  foldl (fun m id => delete id m) m events.
Definition insert_events (entries : list (string * LiveEventReceiptSummary)) (m : Summaries)
    : Summaries := foldl (fun m kv => <[kv.1 := kv.2]> m) m entries.

Definition handle_live_room_receipt_summaries_updated (state : People) (room : string)
    (scope : ReceiptScope) (scoped_event_ids : list string)
    (updates : list LiveEventReceiptSummaryUpdate) : Reduced :=
  if negb (is_session_ready state) then unchanged state
  else
    let p := profile state in
    let previous :=
      signal_rooms (live_signals state) !! room ≫= fun r => receipts_for_scope r scope in
    let summary_of u :=
      let shown := readers <$> (previous ≫= fun m => m !! update_event_id u) in
      let u := {| update_event_id := update_event_id u;
                  update_readers := keep_reader_avatar shown <$> update_readers u;
                  update_total_count := update_total_count u |} in
      (update_event_id u,
       into_summary_with_profiles p (room_users p !! room) (session_user_id state) u) in
    let summaries := summary_of <$> updates in
    (on_live_room (update_scope (fun m => insert_events summaries (remove_events scoped_event_ids m))
                     scope) room state, [EmitUiEvent LiveSignalsChanged]).

Definition preserve_known_receipt_thumbnails (state : People) (updates : list LiveEventReceipts)
    : list LiveEventReceipts :=
  let known := collect_known_avatar_thumbnails state false in
  (fun e => {| receipts_event_id := receipts_event_id e;
               receipts := (fun r => r <| reader_avatar ::= preserve_avatar_thumbnail known |>)
                             <$> receipts e |}) <$> updates.

Definition handle_live_room_receipts_window_reconciled (state : People) (room : string)
    (scope : ReceiptScope) (scoped_event_ids : list string) (updates : list LiveEventReceipts)
    : Reduced :=
  if negb (is_session_ready state) then unchanged state
  else
    let p := profile state in
    let normalized :=
      into_room_signals_with_room_profiles p (room_users p !! room) (session_user_id state)
        {| signal_receipts := preserve_known_receipt_thumbnails state updates;
           signal_fully_read := None; signal_typing := [] |} in
    (on_live_room (update_scope (fun m => receipts_by_event normalized
                                            ∪ remove_events scoped_event_ids m) scope) room state,
     [EmitUiEvent LiveSignalsChanged]).

Definition handle_fully_read_marker_updated (state : People) (room : string)
    (event_id : option string) : Reduced :=
  if negb (is_session_ready state) then unchanged state
  else (on_live_room (fun r => r <| fully_read_event_id := event_id |>) room state,
        [EmitUiEvent LiveSignalsChanged]).

Definition handle_typing_users_updated (state : People) (room : string) (user_ids : list string)
    : Reduced :=
  if negb (is_session_ready state) then unchanged state
  else
    let normalized :=
      into_room_signals_with_room_profiles (profile state) None (session_user_id state)
        {| signal_receipts := []; signal_fully_read := None; signal_typing := user_ids |} in
    (on_live_room (fun r => r <| typing_user_ids := typing_user_ids normalized |>
                              <| typing_users := typing_users normalized |>) room state,
     [EmitUiEvent LiveSignalsChanged]).

Definition handle_presence_updated (state : People) (user_id : string) (p : PresenceKind)
    : Reduced :=
  if negb (is_session_ready state) || bool_decide (user_id ∈ ignored_user_ids (profile state))
  then unchanged state
  else (on_presence (insert user_id p) state, [EmitUiEvent LiveSignalsChanged]).
