(* ===== verification/AttentionActions.v ===== *)
(** The desktop-attention reducers ([koushi-state/src/reducer/native_attention.rs]) and the
    room notification modes that feed them ([reducer/settings.rs]). *)

From stdpp Require Import base list strings gmap.
From Stdlib Require Import ZArith Lia.
From S2P Require Import Prelude Text AppState Delivery LocaleProfile Profiles LiveSignals Rooms NativeAttention SpaceMembers People.
Local Open Scope string_scope.
Local Open Scope list_scope.
Local Open Scope Z_scope.
Local Set Warnings "-clear-no-such-hyp".

Definition attention_changed : PeopleEffect := EmitUiEvent NativeAttentionChanged.
Definition put_attention (a : NativeAttentionState) (state : People) : People :=
  state <| native_attention := a |>.
Definition put_dispatch (d : NativeAttentionDispatchState) (state : People) : People :=
  state <| native_attention ::= fun a => a <| dispatch := d |> |>.

(** * Sound *)

Definition handle_dispatch_started (state : People) (id : NativeAttentionDispatchId) : Reduced :=
  if negb (is_session_ready state) then unchanged state
  else if negb (is_some (candidate (summary (native_attention state))))
          || negb (sound (settings state))
          || negb (bool_decide (dispatch (native_attention state) = Dispatch_Idle))
  then unchanged state
  else (put_dispatch (Dispatch_Dispatching id) state, [attention_changed]).

Definition handle_dispatch_settled (state : People) (id : NativeAttentionDispatchId)
    (outcome : NativeAttentionSoundOutcome) : Reduced :=
  if negb (is_session_ready state) then unchanged state
  else if negb (bool_decide (dispatch (native_attention state) = Dispatch_Dispatching id))
  then unchanged state
  else
    match outcome with
    | Sound_Played => (put_dispatch (Dispatch_Delivered id) state, [attention_changed])
    | Sound_Unsupported => (put_dispatch (Dispatch_Unsupported id) state, [attention_changed])
    | Sound_Failed => (put_dispatch (Dispatch_Failed id Op_Sdk) state, [attention_changed])
    | Sound_Skipped => unchanged state
    end.

Definition zero_badge_when_off (state : People) (a : NativeAttentionState) : NativeAttentionState :=
  if badges (settings state) then a
  else a <| summary ::= fun s => s <| badge_count := 0 |> |>.

Definition handle_native_attention_updated (state : People) (a : NativeAttentionState) : Reduced :=
  if negb (is_session_ready state) then unchanged state
  else
    let a := (zero_badge_when_off state a) <| dispatch := dispatch (native_attention state) |> in
    if bool_decide (native_attention state = a) then unchanged state
    else (put_attention a state, [attention_changed]).

(** * Recomputation *)

Section attention.
Context (to_lowercase : string -> string) (graphemes : string -> list string).

Definition attention_room_notification_modes (state : People) : gmap string RoomNotificationMode :=
  notification_mode <$> room_notification_settings state.

Definition attention_input (state : People) (observation : NativeAttentionObservationKind)
    : NativeAttentionProjectionInput :=
  {| in_rooms := rooms state; in_active_room_id := active_room_id state; in_muted_room_ids := [];
     in_modes := attention_room_notification_modes state;
     in_ignored_user_ids := ignored_user_ids (profile state);
     in_window_focused := window_focused (native_attention_context state);
     in_observation := observation;
     in_previous_candidate := candidate (summary (native_attention state));
     in_message_previews := message_previews (settings state);
     in_capabilities := capabilities (summary (native_attention state));
     in_locale := resolve_catalog_locale (locale (settings state)) |}.

Definition attention_room_candidates_for_state (state : People) : list RoomAttentionCandidate :=
  name_candidate (local_aliases (profile state)) (spaces state)
    <$> attention_room_candidates graphemes (attention_input state Observation_InitialSync).

Definition projected_native_attention_from_rooms (state : People)
    (observation : NativeAttentionObservationKind) (live_room_id preview_room_id : option string)
    : NativeAttentionProjection :=
  (native_attention_projection_from_rooms_with_live_room graphemes
     (attention_input state observation) live_room_id preview_room_id true)
  <| proj_state ::= zero_badge_when_off state |>.

Definition published_candidate (state : People) : option (string * NativeAttentionCandidate) :=
  c ← candidate (summary (native_attention state));
  p ← notification (native_attention state);
  Some (target_room_id (target p), c).

(** The input of the one-room projection that decides whether the published room still counts. *)
Definition attention_room_input (state : People) (room : RoomSummary)
    : NativeAttentionProjectionInput :=
  {| in_rooms := [room]; in_active_room_id := None; in_muted_room_ids := [];
     in_modes := attention_room_notification_modes state;
     in_ignored_user_ids := ignored_user_ids (profile state); in_window_focused := false;
     in_observation := Observation_Live; in_previous_candidate := None;
     in_message_previews := false;
     in_capabilities := capabilities (summary (native_attention state));
     in_locale := resolve_catalog_locale (locale (settings state)) |}.
Definition published_room_still_holds_attention (state : People) (id : string) : bool :=
  match find_first (fun r => String.eqb (room_id r) id) (rooms state) with
  | None => false
  | Some room =>
      is_some (candidate (summary (proj_state
        (native_attention_projection_from_rooms_with_live_room graphemes
           (attention_room_input state room) (Some id) None true))))
  end.

(** An observation that raises nothing leaves the published alert as it is. *)
Definition keep_published (state : People) (a : NativeAttentionState) : NativeAttentionState :=
  if negb (is_some (candidate (summary a))) && bool_decide (dispatch a = Dispatch_Idle)
  then
    match published_candidate state with
    | Some (id, c) =>
        if published_room_still_holds_attention state id
        then a <| summary ::= fun s => s <| candidate := Some c |> |>
               <| notification := notification (native_attention state) |>
               <| dispatch := dispatch (native_attention state) |>
        else a
    | None => a
    end
  else a.

(** The published identity, when the new alert is for the room it was published for. *)
Definition relabelled_alert_id (state : People) (a : NativeAttentionState) : option Z :=
  '(id, _) ← published_candidate state;
  p ← notification a;
  if String.eqb (target_room_id (target p)) id
  then alert_id (summary (native_attention state)) else None.

Definition put_alert_id (id : option Z) (a : NativeAttentionState) : NativeAttentionState :=
  a <| summary ::= fun s => s <| alert_id := id |> |>.

(** Give the alert its identity; a new one advances the sequence. *)
Definition mint_alert_id (state : People) (a : NativeAttentionState) : People * NativeAttentionState :=
  if negb (is_some (candidate (summary a))) then (state, put_alert_id None a)
  else
    match relabelled_alert_id state a with
    | Some id => (state, put_alert_id (Some id) a)
    | None =>
        let published := default 0 (alert_id (summary (native_attention state))) in
        let next :=
          u64_wrapping_add (Z.max (alert_sequence (native_attention_context state)) published) 1 in
        (state <| native_attention_context ::= fun c => c <| alert_sequence := next |> |>,
         put_alert_id (Some next) a)
    end.

Definition recompute_native_attention_from_rooms_for_live_room (state : People)
    (observation : NativeAttentionObservationKind) (live_room_id preview_room_id : option string)
    : People * bool * PeopleEffect :=
  let projection :=
    projected_native_attention_from_rooms state observation live_room_id preview_room_id in
  let '(state, a) := mint_alert_id state (keep_published state (proj_state projection)) in
  let suppression := match dispatch a with Dispatch_Suppressed r => Some r | _ => None end in
  let diagnostic :=
    RecordNativeAttentionRecomputed observation (sum_unread_count (summary a))
      (proj_notification_count projection) (badge_count (summary a)) (badge_room_count projection)
      (badge_excluded_room_count projection) (cand_kind <$> candidate (summary a)) suppression
      (window_focused (native_attention_context state)) (active_room_match projection) in
  let changed := negb (bool_decide (native_attention state = a)) in
  ((if changed then put_attention a state else state), changed, diagnostic).

Definition recompute_native_attention_from_rooms (state : People)
    (observation : NativeAttentionObservationKind) : People * bool * PeopleEffect :=
  recompute_native_attention_from_rooms_for_live_room state observation None None.

(** * Focus, badge setting, catalog *)

Definition handle_native_window_focus_changed (state : People) (focused : bool)
    (observation_generation : Z) : Reduced :=
  let context := native_attention_context state in
  if observation_generation <=? window_focus_observation_generation context
  then unchanged state
  else
    let state := state <| native_attention_context ::= fun c =>
      c <| window_focus_observation_generation := observation_generation |> |> in
    if Bool.eqb (window_focused (native_attention_context state)) focused then unchanged state
    else
      let state := state <| native_attention_context ::= fun c => c <| window_focused := focused |> |> in
      let next :=
        (proj_state (projected_native_attention_from_rooms state Observation_InitialSync None None))
          <| summary ::= fun s => s <| candidate := None |> <| alert_id := None |> |>
          <| dispatch := Dispatch_Idle |> in
      if bool_decide (native_attention state = next) then unchanged state
      else (put_attention next state, [attention_changed]).

Definition apply_badge_setting (state : People) : People * bool :=
  let next :=
    badge_count (summary (proj_state
      (projected_native_attention_from_rooms state Observation_InitialSync None None))) in
  if badge_count (summary (native_attention state)) =? next then (state, false)
  else (state <| native_attention ::= fun a =>
          a <| summary ::= fun s => s <| badge_count := next |> |> |>, true).

Definition handle_japanese_catalog_profile_changed (state : People)
    (incoming : JapaneseCatalogProfile) : Reduced :=
  if bool_decide (japanese_catalog state = incoming) then unchanged state
  else (state <| japanese_catalog := incoming |>, [EmitUiEvent CjkTextPolicyChanged]).

(** * Notification modes ([reducer/settings.rs]) *)

(** Recompute the list and the attention, with the events that announce both. *)
Definition announce_modes (state : People) : Reduced :=
  let state := recompute_room_list_projection to_lowercase state in
  let '(state, changed, diagnostic) :=
    recompute_native_attention_from_rooms state Observation_InitialSync in
  (state, [EmitUiEvent RoomNotificationSettingsChanged; EmitUiEvent RoomListChanged; diagnostic]
          ++ emit changed NativeAttentionChanged).

(** [clear_room_preference_field] *)
Definition clear_room_preference_field (id : string) (clear : RoomPreference -> RoomPreference)
    (prefs : gmap string RoomPreference) : gmap string RoomPreference :=
  match prefs !! id with
  | None => prefs
  | Some p => if preference_is_empty (clear p) then delete id prefs else <[id := clear p]> prefs
  end.
Definition update_room_notification_preference (id : string) (mode : RoomNotificationMode)
    (prefs : gmap string RoomPreference) : gmap string RoomPreference :=
  match mode with
  | Mode_All => clear_room_preference_field id (fun p => p <| preference_mode := None |>) prefs
  | _ => <[id := (entry_or RoomPreference_default prefs id) <| preference_mode := Some mode |>]> prefs
  end.

Definition handle_room_url_preview_override_set (state : People) (request_id : Z) (id : string)
    (enabled : bool) : Reduced :=
  match find_first (fun r => String.eqb (room_id r) id) (rooms state) with
  | None => unchanged state
  | Some room =>
      let default_enabled := if is_encrypted room then encrypted_url_previews_enabled (settings state)
                             else url_previews_enabled (settings state) in
      let state :=
        if Bool.eqb enabled default_enabled then
          state <| room_overrides ::= delete id |>
                <| room_preferences ::= clear_room_preference_field id
                     (fun p => p <| url_previews_enabled_override := None |>) |>
        else
          state <| room_overrides ::= <[id := enabled]> |>
                <| room_preferences ::= fun prefs =>
                     <[id := (entry_or RoomPreference_default prefs id)
                               <| url_previews_enabled_override := Some enabled |>]> prefs |> in
      (state, [PersistRoomPreferences request_id (room_preferences state);
               EmitUiEvent LinkPreviewSettingsChanged])
  end.

Definition room_url_preview_overrides_from_preferences (prefs : gmap string RoomPreference)
    : gmap string bool := omap url_previews_enabled_override prefs.
Definition room_notification_settings_from_preferences (prefs : gmap string RoomPreference)
    : gmap string RoomNotificationSettings :=
  omap (fun p => (fun mode => {| notification_mode := mode; mode_operation := ModeOp_Idle |})
                   <$> preference_mode p) prefs.

Definition handle_room_preferences_loaded (state : People) (prefs : gmap string RoomPreference)
    : Reduced :=
  let overrides := room_url_preview_overrides_from_preferences prefs in
  let modes := room_notification_settings_from_preferences prefs in
  let overrides_changed := negb (bool_decide (overrides = room_overrides state)) in
  let modes_changed := negb (bool_decide (modes = room_notification_settings state)) in
  let state := state <| room_preferences := prefs |> <| room_overrides := overrides |>
                     <| room_notification_settings := modes |> in
  let state := if modes_changed then recompute_room_list_projection to_lowercase state else state in
  let '(state, changed, diagnostic) :=
    recompute_native_attention_from_rooms state Observation_InitialSync in
  (state, emit overrides_changed LinkPreviewSettingsChanged
          ++ (if modes_changed
              then [EmitUiEvent RoomNotificationSettingsChanged; EmitUiEvent RoomListChanged] else [])
          ++ diagnostic :: emit changed NativeAttentionChanged).

Definition on_mode_settings (f : RoomNotificationSettings -> RoomNotificationSettings)
    (id : string) (state : People) : People :=
  state <| room_notification_settings ::= fun m =>
    <[id := f (entry_or RoomNotificationSettings_default m id)]> m |>.

Definition handle_room_notification_mode_set (state : People) (request_id : Z) (id : string)
    (mode : RoomNotificationMode) : Reduced :=
  if negb (is_session_ready state) then unchanged state
  else if negb (room_exists state id
                || existsb (fun i => String.eqb (invite_room_id i) id) (invites state))
  then unchanged state
  else
    let state := state <| room_notification_awaiting_echo ::= <[id := (request_id, mode)]> |> in
    announce_modes
      (on_mode_settings (fun s => s <| notification_mode := mode |>
                                    <| mode_operation := ModeOp_Pending request_id |>) id state).

(** The room's settings while its write [request_id] is pending. *)
Definition pending_mode (state : People) (request_id : Z) (id : string)
    : option RoomNotificationSettings :=
  s ← room_notification_settings state !! id;
  match mode_operation s with
  | ModeOp_Pending pending => if pending =? request_id then Some s else None
  | _ => None
  end.

Definition handle_room_notification_mode_completed (state : People) (request_id : Z) (id : string)
    : Reduced :=
  if negb (is_session_ready state) then unchanged state
  else
    match pending_mode state request_id id with
    | Some s =>
        let state :=
          on_mode_settings (fun s => s <| mode_operation := ModeOp_Idle |>) id state in
        let state := state <| room_preferences ::=
                       update_room_notification_preference id (notification_mode s) |> in
        (state, [PersistRoomPreferences request_id (room_preferences state);
                 EmitUiEvent RoomNotificationSettingsChanged])
    | None => (state, [EmitUiEvent RoomNotificationSettingsChanged])
    end.

Definition handle_room_notification_mode_failed (state : People) (request_id : Z) (id : string)
    (kind : OperationFailureKind) : Reduced :=
  if negb (is_session_ready state) then unchanged state
  else
    let state :=
      match pending_mode state request_id id with
      | Some _ =>
          on_mode_settings (fun s => s <| mode_operation := ModeOp_Failed request_id kind |>) id
            (state <| room_notification_awaiting_echo ::= delete id |>)
      | None => state
      end in
    (state, [EmitUiEvent RoomNotificationSettingsChanged]).

(** [room_list_provisional_matches_current] of [reducer/room.rs] *)
Definition room_list_provisional_matches_current (r : RoomListReadiness) (gen : Z)
    (source : RoomListSource) : bool :=
  match r with
  | List_Uninitialized => bool_decide (source = ListSource_Cache) && (gen =? 0)
  | List_Loading s g | List_Ready s g => (g =? gen) && bool_decide (s = source)
  | List_Failed _ _ _ => false
  end.

(** One observed mode: the state and whether a mode changed. *)
Definition observe_mode (acc : People * bool) (kv : string * RoomNotificationMode)
    : People * bool :=
  let '(state, changed) := acc in
  let '(id, mode) := kv in
  let expected := room_notification_awaiting_echo state !! id in
  if is_some_and expected (fun e => negb (bool_decide (e.2 = mode))) then (state, changed)
  else
    let state := state <| room_notification_awaiting_echo ::= delete id |> in
    let state := on_mode_settings (fun s => s) id state in
    let s := entry_or RoomNotificationSettings_default (room_notification_settings state) id in
    match mode_operation s with
    | ModeOp_Pending _ => (state, changed)
    | _ =>
        if bool_decide (notification_mode s = mode) then (state, changed)
        else (on_mode_settings (fun s => s <| notification_mode := mode |>) id state, true)
    end.

Definition handle_room_notification_modes_observed (state : People) (gen : Z)
    (source : RoomListSource) (modes : gmap string RoomNotificationMode) : Reduced :=
  if negb (is_session_ready state)
     || negb (room_list_provisional_matches_current (readiness (room_list state)) gen source)
  then unchanged state
  else
    let '(state, changed) := foldl observe_mode (state, false) (btree_iter modes) in
    if changed then announce_modes state else unchanged state.

Definition mode_write_is_pending (state : People) (id : string) : bool :=
  is_some_and (room_notification_settings state !! id)
    (fun s => match mode_operation s with ModeOp_Pending _ => true | _ => false end).
Definition handle_room_notification_policy_synced (state : People) (gen : Z) : Reduced :=
  if negb (is_session_ready state)
     || negb (room_list_provisional_matches_current (readiness (room_list state)) gen ListSource_Live)
  then unchanged state
  else unchanged (state <| room_notification_awaiting_echo ::=
                    filter (fun kv => mode_write_is_pending state kv.1 = true) |>).

Definition handle_room_notification_mode_confirmed (state : People) (request_id : Z) (id : string)
    (mode : RoomNotificationMode) : Reduced :=
  if negb (is_session_ready state)
     || is_none_or (room_notification_awaiting_echo state !! id) (fun e => negb (e.1 =? request_id))
  then unchanged state
  else
    let fence := fun s : People =>
      s <| room_notification_awaiting_echo ::= <[id := (request_id, mode)]> |> in
    let state := fence state in
    let '(gen, source) :=
      match readiness (room_list state) with
      | List_Ready s g | List_Loading s g => (g, s)
      | _ => (0, ListSource_Cache)
      end in
    let '(state, effects) :=
      handle_room_notification_modes_observed state gen source {[id := mode]} in
    (fence state, effects).

End attention.
