(* ===== verification/SpaceMemberActions.v ===== *)
(** The space-member reducer ([koushi-state/src/reducer/space_members.rs]) and the admissions
    that read the whole state ([admit_space_member_role], [admit_space_members_load] of
    [state/space_members.rs]): selecting a space, loading its members, inviting, cancelling an
    invite, changing a role, and the projections that arrive while one of those runs. *)

From stdpp Require Import base list strings gmap.
From Stdlib Require Import ZArith Lia.
From S2P Require Import Prelude Text AppState Profiles LiveSignals Rooms NativeAttention SpaceMembers People ProfileActions.
Local Open Scope string_scope.
Local Open Scope list_scope.
Local Open Scope Z_scope.
Local Set Warnings "-clear-no-such-hyp".

Definition members_changed : PeopleEffect := EmitUiEvent SpaceMembersChanged.
Definition on_members (f : SpaceMembersState -> SpaceMembersState) (state : People) : People :=
  state <| space_members ::= f |>.
Definition put_operation (op : SpaceMembersOperationState) : People -> People :=
  on_members (fun s => s <| operation := op |>).
(** [state.space_members.selected_space_id.as_deref() == Some(space)], same generation *)
Definition shows_space (state : People) (space : string) (gen : Z) : bool :=
  bool_decide (selected_space_id (space_members state) = Some space)
  && (generation (space_members state) =? gen).

(** * Admission *)

Definition own_ready_user_id (state : People) : option string :=
  match session state with Session_Ready info => Some (AppState.user_id info) | _ => None end.
(** The operation that admits a role update: none, or the failed one it retries. *)
Definition role_retry_matches (op : SpaceMembersOperationState) (space user : string) (gen level : Z)
    : bool :=
  match op with
  | Members_Idle => true
  | Members_RoleUpdateFailed _ failed_space failed_user failed_gen _ _ failed_level _ _ =>
      String.eqb failed_space space && String.eqb failed_user user && (failed_gen =? gen)
      && (failed_level =? level)
  | _ => false
  end.

Definition admit_space_member_role (state : People) (space user : string) (gen : Z)
    (expected_revision : option string) (expected_level level : Z) (confirmed : bool)
    : unit + SpaceMembersCommandRejection :=
  let m := space_members state in
  if negb (is_session_ready state) then inr RoleSessionRequired
  else if negb (bool_decide (active_space_id state = Some space))
          || negb (bool_decide (selected_space_id m = Some space)) then inr WrongSpace
  else if negb (generation m =? gen) then inr StaleGeneration
  else if negb (role_retry_matches (operation m) space user gen level)
  then inr RoleUpdateAlreadyInFlight
  else if negb (can_edit_roles m) then inr RoleNotEditable
  else if negb (bool_decide (power_levels_revision m = expected_revision))
  then inr RoleRevisionMismatch
  else
    match find_user user (space_joined m) with
    | None => inr RoleTargetInvalid
    | Some entry =>
        if bool_decide (own_ready_user_id state = Some user)
           || negb (bool_decide (membership entry = SpaceJoined))
           || bool_decide (entry_power_level entry = None)
        then inr RoleTargetInvalid
        else if negb (bool_decide (entry_power_level entry = Some expected_level))
        then inr RoleCurrentPowerMismatch
        else
          match find_first (fun o => option_power_level o =? level) (role_options entry) with
          | None => inr RoleOptionUnavailable
          | Some o =>
              if option_power_level o =? expected_level then inr RoleOptionUnavailable
              else if requires_confirmation o && negb confirmed then inr RoleConfirmationRequired
              else inl tt
          end
    end.

Definition admit_space_members_load (state : People) (space : string) (gen : Z)
    : unit + SpaceMembersCommandRejection :=
  let m := space_members state in
  match active_space_id state with
  | None => inr NoSelectedSpace
  | Some active =>
      if negb (String.eqb active space) then inr WrongSpace
      else if is_some_and (selected_space_id m) (fun s => negb (String.eqb s space))
      then inr WrongSpace
      else if is_some_and (selected_space_id m) (fun _ => negb (generation m =? gen))
      then inr StaleGeneration
      else match operation m with
           | Members_Inviting _ _ _ _ | Members_CancellingInvite _ _ _ _
           | Members_UpdatingRole _ _ _ _ _ _ _ _ => inr LoadBlockedByInvite
           | _ => inl tt
           end
  end.

(** * Selecting and loading *)

Definition handle_selected (state : People) (selected : option string) : People * bool :=
  if negb (is_session_ready state)
     || bool_decide (selected_space_id (space_members state) = selected)
  then (state, false)
  else (on_members (fun s =>
          (clear_projection (s <| selected_space_id := selected |>
                               <| generation ::= fun g => u64_wrapping_add g 1 |>))
          <| operation := Members_Idle |>) state, true).

Definition is_updating_role (op : SpaceMembersOperationState) : bool :=
  match op with Members_UpdatingRole _ _ _ _ _ _ _ _ => true | _ => false end.

Definition handle_load_requested (state : People) (request_id : Z) (space : string) (gen : Z)
    : Reduced :=
  let m := space_members state in
  if negb (is_session_ready state) || is_updating_role (operation m) || (gen <? generation m)
     || is_some_and (selected_space_id m) (fun s => negb (String.eqb s space))
  then unchanged state
  else
    let cleared := negb (bool_decide (selected_space_id m = Some space))
                   || negb (generation m =? gen) in
    (on_members (fun s =>
       let s := s <| selected_space_id := Some space |> <| generation := gen |> in
       let s := if cleared then clear_projection s else s in
       s <| operation := Members_Loading (Some request_id) space gen |>) state, [members_changed]).

Definition is_loading_for (op : SpaceMembersOperationState) (request_id : Z) : bool :=
  match op with
  | Members_Loading (Some active) _ _ => active =? request_id
  | _ => false
  end.
Definition projection_matches (state : People) (request_id : Z) (p : SpaceMembersProjection)
    : bool :=
  shows_space state (projection_space_id p) (projection_generation p)
  && is_loading_for (operation (space_members state)) request_id.

Definition operation_request_id (op : SpaceMembersOperationState) : option Z :=
  match op with
  | Members_Loading request_id _ _ => request_id
  | Members_Inviting request_id _ _ _ | Members_CancellingInvite request_id _ _ _
  | Members_UpdatingRole request_id _ _ _ _ _ _ _
  | Members_RoleUpdateFailed request_id _ _ _ _ _ _ _ _ => Some request_id
  | Members_Idle | Members_Failed _ _ _ _ _ => None
  end.
Definition operation_matches_request (state : People) (request_id : Z) : bool :=
  bool_decide (operation_request_id (operation (space_members state)) = Some request_id).

(** The user whose invite is in flight. *)
Definition pending_operation (state : People) : option (Z * string * string * Z) :=
  match operation (space_members state) with
  | Members_Inviting request_id space user gen => Some (request_id, space, user, gen)
  | _ => None
  end.
Definition pending_user (state : People) : option string :=
  (fun '(_, _, user, _) => user) <$> pending_operation state.
Definition pending_entry (state : People) : option SpaceMemberEntry :=
  user ← pending_user state; find_user user (space_invited (space_members state)).

Definition settle_entry (m : SpaceMemberMembership) (pending : bool) (e : SpaceMemberEntry)
    : SpaceMemberEntry := e <| membership := m |> <| invite_pending := pending |>.
Definition update_user (user : string) (f : SpaceMemberEntry -> SpaceMemberEntry)
    (l : list SpaceMemberEntry) : list SpaceMemberEntry :=
  update_first (fun e => String.eqb (entry_user_id e) user) f l.

(** The resolved projection, completed from what was shown when it is incomplete. *)
Definition resolve_and_merge (state : People) (p : SpaceMembersProjection)
    : SpaceMembersProjection :=
  let resolved := resolve_space_members_projection p (profile state) in
  if 0 <? proj_incomplete_rooms resolved
  then merge_incomplete_projection (space_members state) resolved else resolved.
Definition install_projection (p : SpaceMembersProjection) (state : People) : People :=
  on_members (fun s => apply_projection s (sort_projection p)) state.
(** Keep the optimistic invite of [user] in the invited list. *)
Definition keep_pending_entry (p : SpaceMembersProjection) (user : string) (e : SpaceMemberEntry)
    : SpaceMembersProjection :=
  (remove_projection_entry p user)
    <| proj_invited ::= fun l => l ++ [settle_entry SpaceInvited true e] |>.

Definition handle_loaded (state : People) (request_id : Z) (p : SpaceMembersProjection) : Reduced :=
  if negb (is_session_ready state) || negb (projection_matches state request_id p)
  then unchanged state
  else
    let resolved := resolve_and_merge state p in
    let '(resolved, op) :=
      match pending_operation state with
      | None => (resolved, Members_Idle)
      | Some (request_id, space, user, gen) =>
          let inviting := Members_Inviting request_id space user gen in
          if has_user user (proj_joined resolved)
          then (resolved <| proj_joined ::= update_user user (settle_entry SpaceJoined false) |>,
                Members_Idle)
          else if has_user user (proj_invited resolved)
          then (resolved <| proj_invited ::= update_user user (settle_entry SpaceInvited false) |>,
                Members_Idle)
          else match pending_entry state with
               | Some e => (keep_pending_entry resolved user e, inviting)
               | None => (resolved, inviting)
               end
      end in
    (put_operation op (install_projection resolved state), [members_changed]).

Definition handle_load_failed (state : People) (request_id : Z) (space : string) (gen : Z)
    (kind : OperationFailureKind) : Reduced :=
  if negb (is_session_ready state) || negb (shows_space state space gen)
     || negb (is_loading_for (operation (space_members state)) request_id)
  then unchanged state
  else (put_operation (Members_Failed request_id space None gen kind) state, [members_changed]).

(** * Projections that arrive while something runs *)

(** Users the server itself reports as joined or invited. *)
Definition is_authoritative (p : SpaceMembersProjection) (user : string) : bool :=
  has_user user (proj_joined p) || has_user user (proj_invited p).

Definition apply_reconciled_projection_during_invite (state : People) (p : SpaceMembersProjection)
    : People * bool :=
  let authoritative :=
    is_some_and (pending_user state)
      (is_authoritative (resolve_space_members_projection p (profile state))) in
  let merged := resolve_and_merge state p in
  let merged :=
    match pending_user state, pending_entry state with
    | Some user, Some e => if authoritative then merged else keep_pending_entry merged user e
    | _, _ => merged
    end in
  (install_projection merged state, authoritative).

Definition apply_reconciled_projection_during_cancellation (state : People)
    (p : SpaceMembersProjection) : People := install_projection (resolve_and_merge state p) state.
Definition apply_projection_during_role_update (state : People) (p : SpaceMembersProjection)
    : People := install_projection (resolve_and_merge state p) state.

Definition apply_failed_invite_background_projection (state : People) (p : SpaceMembersProjection)
    (failed_user : string) : People * bool :=
  let failed_entry :=
    default (fallback_entry failed_user ChildRoomOnly)
      (find_user failed_user (all_entries (space_members state))) in
  let authoritative :=
    is_authoritative (resolve_space_members_projection p (profile state)) failed_user in
  let merged := resolve_and_merge state p in
  if authoritative then (install_projection merged state, true)
  else
    let merged := (remove_projection_entry merged failed_user)
      <| proj_child_only ::= fun l => l ++ [settle_entry ChildRoomOnly false failed_entry] |> in
    ((refresh_member_display_projection (install_projection merged state)).1, false).

Definition apply_failed_load_background_projection (state : People) (p : SpaceMembersProjection)
    : People * bool :=
  (install_projection (resolve_and_merge state p) state, proj_incomplete_rooms p =? 0).

Definition handle_profiles_observed (state : People) (request_id : Z) (profiles : list UserProfile)
    : Reduced :=
  if negb (is_session_ready state) || negb (operation_matches_request state request_id)
  then unchanged state
  else handle_user_profiles_updated state profiles.

Definition is_cancelling (op : SpaceMembersOperationState) : bool :=
  match op with Members_CancellingInvite _ _ _ _ => true | _ => false end.
Definition is_inviting_for (op : SpaceMembersOperationState) (request_id : Z) : bool :=
  match op with Members_Inviting active _ _ _ => active =? request_id | _ => false end.
Definition cancellation_shows (state : People) (request_id : Z) (p : SpaceMembersProjection) : bool :=
  match operation (space_members state) with
  | Members_CancellingInvite active space _ gen =>
      (active =? request_id) && String.eqb space (projection_space_id p)
      && (gen =? projection_generation p)
      && shows_space state (projection_space_id p) (projection_generation p)
  | _ => false
  end.

Definition handle_projection_reconciled (state : People) (request_id : Z)
    (p : SpaceMembersProjection) (profiles : list UserProfile) : Reduced :=
  if negb (is_session_ready state) || negb (operation_matches_request state request_id)
  then unchanged state
  else if cancellation_shows state request_id p then
    let '(state, effects) := handle_user_profiles_updated state profiles in
    (apply_reconciled_projection_during_cancellation state p, effects ++ [members_changed])
  else if is_cancelling (operation (space_members state)) then unchanged state
  else
    let '(state, effects) := handle_user_profiles_updated state profiles in
    if is_loading_for (operation (space_members state)) request_id then
      let '(state, more) := handle_loaded state request_id p in (state, effects ++ more)
    else if is_inviting_for (operation (space_members state)) request_id then
      ((apply_reconciled_projection_during_invite state p).1, effects ++ [members_changed])
    else (state, effects).

Definition background_reconciliation_operation_matches (op : SpaceMembersOperationState)
    (space : string) (gen : Z) : bool :=
  match op with
  | Members_Idle => true
  | Members_Inviting _ s _ g | Members_CancellingInvite _ s _ g | Members_Failed _ s _ g _
  | Members_UpdatingRole _ s _ g _ _ _ _ | Members_RoleUpdateFailed _ s _ g _ _ _ _ _ =>
      String.eqb s space && (g =? gen)
  | Members_Loading _ _ _ => false
  end.

(** The [match operation] of the background handler. *)
Definition apply_background (state : People) (p : SpaceMembersProjection)
    (op : SpaceMembersOperationState) : People :=
  match op with
  | Members_Idle => (apply_reconciled_projection_during_invite state p).1
  | Members_Inviting _ _ _ _ =>
      let '(state, settled) := apply_reconciled_projection_during_invite state p in
      if settled then put_operation Members_Idle state else state
  | Members_CancellingInvite _ _ _ _ => apply_reconciled_projection_during_cancellation state p
  | Members_Failed _ _ (Some user) _ _ =>
      let '(state, settled) := apply_failed_invite_background_projection state p user in
      if settled then put_operation Members_Idle state else state
  | Members_Failed _ _ None _ _ =>
      let '(state, settled) := apply_failed_load_background_projection state p in
      if settled then put_operation Members_Idle state else state
  | Members_UpdatingRole _ _ _ _ _ _ _ _ => apply_projection_during_role_update state p
  | Members_RoleUpdateFailed _ _ user _ expected_revision _ level _ _ =>
      let state := apply_projection_during_role_update state p in
      let target_matches :=
        existsb (fun e => String.eqb (entry_user_id e) user
                          && bool_decide (entry_power_level e = Some level))
          (space_joined (space_members state)) in
      let revision_is_authoritative :=
        is_some_and (proj_revision p)
          (fun r => negb (bool_decide (Some r = expected_revision))) in
      if target_matches && revision_is_authoritative
      then put_operation Members_Idle state else state
  | Members_Loading _ _ _ => state (* unreachable!: the guard excludes it *)
  end.

Definition handle_background_projection_reconciled (state : People) (request_id : Z)
    (space : string) (gen : Z) (p : SpaceMembersProjection) (profiles : list UserProfile)
    : Reduced :=
  let op := operation (space_members state) in
  if negb (is_session_ready state) || negb (shows_space state space gen)
     || negb (String.eqb (projection_space_id p) space) || negb (projection_generation p =? gen)
     || negb (background_reconciliation_operation_matches op space gen)
  then unchanged state
  else
    let '(state, effects) := handle_user_profiles_updated state profiles in
    (apply_background state p op, effects ++ [members_changed]).

(** * Role updates *)

Definition handle_role_update_requested (state : People) (request_id : Z) (space user : string)
    (gen : Z) (expected_revision : option string) (expected_level level : Z) (confirmed : bool)
    : Reduced :=
  if negb (is_session_ready state) then unchanged state
  else match admit_space_member_role state space user gen expected_revision expected_level level
               confirmed with
       | inr _ => unchanged state
       | inl _ =>
           (put_operation (Members_UpdatingRole request_id space user gen expected_revision
                             expected_level level confirmed) state, [members_changed])
       end.

Definition handle_role_update_settled (state : People) (request_id : Z) (space user : string)
    (gen : Z) (outcome : SpaceMemberRoleUpdateOutcome) (sent_revision : option string)
    (p : option SpaceMembersProjection) : Reduced :=
  match operation (space_members state) with
  | Members_UpdatingRole active active_space active_user active_gen expected_revision
      expected_level level _ =>
      if negb (is_session_ready state) || negb (active =? request_id)
         || negb (String.eqb active_space space) || negb (String.eqb active_user user)
         || negb (active_gen =? gen) || negb (shows_space state space gen)
      then unchanged state
      else
        let state := match p with
                     | Some p => install_projection (resolve_and_merge state p) state
                     | None => state
                     end in
        let op := match outcome with
                  | Role_Succeeded => Members_Idle
                  | Role_Failed kind =>
                      Members_RoleUpdateFailed request_id space user gen expected_revision
                        expected_level level sent_revision kind
                  end in
        (put_operation op state, [members_changed])
  | _ => unchanged state
  end.

(** * Invites *)

Definition invite_is_blocked (op : SpaceMembersOperationState) : bool :=
  match op with
  | Members_Inviting _ _ _ _ | Members_CancellingInvite _ _ _ _
  | Members_UpdatingRole _ _ _ _ _ _ _ _ | Members_RoleUpdateFailed _ _ _ _ _ _ _ _ _ => true
  | _ => false
  end.

Definition handle_invite_requested (state : People) (request_id : Z) (space user : string)
    (gen : Z) : Reduced :=
  let m := space_members state in
  if negb (is_session_ready state) || negb (shows_space state space gen)
     || invite_is_blocked (operation m)
  then unchanged state
  else if has_user user (space_joined m) || has_user user (space_invited m) then unchanged state
  else
    match find_user user (child_room_only m) with
    | None => unchanged state
    | Some e =>
        (put_operation (Members_Inviting request_id space user gen)
           (on_members (fun s =>
              s <| child_room_only ::= without_user user |>
                <| space_invited ::= fun l => sort_entries (l ++ [settle_entry SpaceInvited true e]) |>)
              state), [members_changed])
    end.

Definition invite_in_flight (state : People) (request_id : Z) (space user : string) (gen : Z) : bool :=
  match operation (space_members state) with
  | Members_Inviting active s u g =>
      (active =? request_id) && String.eqb s space && String.eqb u user && (g =? gen)
  | _ => false
  end.
Definition push_settled (m : SpaceMemberMembership) (e : SpaceMemberEntry) (s : SpaceMembersState)
    : SpaceMembersState :=
  let add l := sort_entries (l ++ [settle_entry m false e]) in
  match m with
  | SpaceJoined => s <| space_joined ::= add |>
  | SpaceInvited => s <| space_invited ::= add |>
  | ChildRoomOnly => s <| child_room_only ::= add |>
  end.

Definition handle_invite_settled (state : People) (request_id : Z) (space user : string) (gen : Z)
    (outcome : SpaceMemberInviteOutcome) : Reduced :=
  if negb (is_session_ready state) || negb (invite_in_flight state request_id space user gen)
     || negb (shows_space state space gen)
  then unchanged state
  else
    let '(s, removed) := remove_entry (space_members state) user in
    let e := default (fallback_entry user ChildRoomOnly) removed in
    let '(m, op) :=
      match outcome with
      | Invite_Invited | Invite_AlreadyInvited | Invite_Cancelled | Invite_NotInvited =>
          (SpaceInvited, Members_Idle)
      | Invite_AlreadyJoined => (SpaceJoined, Members_Idle)
      | Invite_Failed kind =>
          (ChildRoomOnly, Members_Failed request_id space (Some user) gen kind)
      end in
    (state <| space_members := (push_settled m e s) <| operation := op |> |>, [members_changed]).

Definition handle_cancellation_requested (state : People) (request_id : Z) (space user : string)
    (gen : Z) : Reduced :=
  let m := space_members state in
  if negb (is_session_ready state) || negb (shows_space state space gen)
     || negb (cancellation_context_is_retryable (operation m) space user gen)
     || negb (has_user user (space_invited m))
  then unchanged state
  else (put_operation (Members_CancellingInvite request_id space user gen) state, [members_changed]).

Definition cancellation_in_flight (state : People) (request_id : Z) (space user : string) (gen : Z)
    : bool :=
  match operation (space_members state) with
  | Members_CancellingInvite active s u g =>
      (active =? request_id) && String.eqb s space && String.eqb u user && (g =? gen)
  | _ => false
  end.
(** A failed cancellation puts a user no list of the space holds back among the invited. *)
Definition restore_invited (user : string) (s : SpaceMembersState) : SpaceMembersState :=
  if has_user user (space_invited s) || has_user user (space_joined s) then s
  else
    let e := default (fallback_entry user SpaceInvited) (find_user user (child_room_only s)) in
    push_settled SpaceInvited e (s <| child_room_only ::= without_user user |>).

Definition handle_cancellation_settled (state : People) (request_id : Z) (space user : string)
    (gen : Z) (outcome : SpaceMemberInviteOutcome) : Reduced :=
  if negb (is_session_ready state) || negb (cancellation_in_flight state request_id space user gen)
     || negb (shows_space state space gen)
  then unchanged state
  else
    let failed kind := Members_Failed request_id space (Some user) gen kind in
    let state :=
      match outcome with
      | Invite_Cancelled =>
          put_operation Members_Idle
            (on_members (fun s => s <| space_invited ::= without_user user |>) state)
      | Invite_NotInvited => put_operation Members_Idle state
      | Invite_Failed kind => put_operation (failed kind) (on_members (restore_invited user) state)
      | Invite_Invited | Invite_AlreadyInvited | Invite_AlreadyJoined =>
          put_operation (failed Op_Sdk) state
      end in
    (state, [members_changed]).

(** * The actions *)

Inductive MembersAction :=
  | Select (space : option string)
  | LoadRequested (request_id : Z) (space : string) (gen : Z)
  | Loaded (request_id : Z) (p : SpaceMembersProjection)
  | LoadFailed (request_id : Z) (space : string) (gen : Z) (kind : OperationFailureKind)
  | ProfilesObserved (request_id : Z) (profiles : list UserProfile)
  | ProjectionReconciled (request_id : Z) (p : SpaceMembersProjection) (profiles : list UserProfile)
  | BackgroundReconciled (request_id : Z) (space : string) (gen : Z) (p : SpaceMembersProjection)
      (profiles : list UserProfile)
  | RoleUpdateRequested (request_id : Z) (space user : string) (gen : Z)
      (expected_revision : option string) (expected_level level : Z) (confirmed : bool)
  | RoleUpdateSettled (request_id : Z) (space user : string) (gen : Z)
      (outcome : SpaceMemberRoleUpdateOutcome) (sent_revision : option string)
      (p : option SpaceMembersProjection)
  | InviteRequested (request_id : Z) (space user : string) (gen : Z)
  | InviteSettled (request_id : Z) (space user : string) (gen : Z)
      (outcome : SpaceMemberInviteOutcome)
  | CancellationRequested (request_id : Z) (space user : string) (gen : Z)
  | CancellationSettled (request_id : Z) (space user : string) (gen : Z)
      (outcome : SpaceMemberInviteOutcome).

(** The arms of [reduce_action]; [Select] is the call the navigation reducers make. *)
Definition reduce_members (state : People) (a : MembersAction) : Reduced :=
  match a with
  | Select space =>
      let '(state, changed) := handle_selected state space in
      (state, emit changed SpaceMembersChanged)
  | LoadRequested r s g => handle_load_requested state r s g
  | Loaded r p => handle_loaded state r p
  | LoadFailed r s g k => handle_load_failed state r s g k
  | ProfilesObserved r ps => handle_profiles_observed state r ps
  | ProjectionReconciled r p ps => handle_projection_reconciled state r p ps
  | BackgroundReconciled r s g p ps => handle_background_projection_reconciled state r s g p ps
  | RoleUpdateRequested r s u g rev el l c => handle_role_update_requested state r s u g rev el l c
  | RoleUpdateSettled r s u g o sent p => handle_role_update_settled state r s u g o sent p
  | InviteRequested r s u g => handle_invite_requested state r s u g
  | InviteSettled r s u g o => handle_invite_settled state r s u g o
  | CancellationRequested r s u g => handle_cancellation_requested state r s u g
  | CancellationSettled r s u g o => handle_cancellation_settled state r s u g o
  end.
