(* ===== verification/SpaceMemberSource.v ===== *)
(** Where the member lists of a space come from: the classification of local memberships
    ([koushi-sdk/src/room_projection.rs]) and its translation to the reducer's projection
    ([koushi-core/src/room/space_members.rs]), and the refresh that reads it again.

    The room members the SDK returns are the inputs of [matrix_space_members_projection]; the
    power levels of the SDK are its enum, whose order is a parameter. *)

From stdpp Require Import base list strings gmap.
From Stdlib Require Import ZArith Lia.
From S2P Require Import Prelude Text AppState Profiles LiveSignals Rooms SpaceMembers.
Local Open Scope string_scope.
Local Open Scope list_scope.
Local Open Scope Z_scope.
Local Set Warnings "-clear-no-such-hyp".

(** * Data *)

Record MatrixRoomMemberRoleOption := {
  sdk_option_level : Z; sdk_option_role : RoomMemberRole; sdk_option_confirm : bool }.
Record MatrixSpaceMemberEntry := {
  sdk_user_id : string; sdk_display_name : option string; sdk_avatar_url : option string;
  sdk_power_level : option Z; sdk_role : RoomMemberRole; sdk_child_room_ids : list string;
  sdk_role_options : list MatrixRoomMemberRoleOption }.
Record MatrixSpaceMembersProjection := {
  sdk_space_id : string; sdk_scope : list string;
  sdk_joined : list MatrixSpaceMemberEntry; sdk_invited : list MatrixSpaceMemberEntry;
  sdk_child_only : list MatrixSpaceMemberEntry; sdk_child_profiles : list MatrixSpaceMemberEntry;
  sdk_child_rooms : Z; sdk_complete_rooms : Z; sdk_incomplete_rooms : Z;
  sdk_revision : option string; sdk_can_edit : bool }.
#[export] Instance MatrixSpaceMemberEntry_updatable : Updatable MatrixSpaceMemberEntry := fun e =>
  {| sdk_user_id := sdk_user_id e; sdk_display_name := sdk_display_name e;
     sdk_avatar_url := sdk_avatar_url e; sdk_power_level := sdk_power_level e;
     sdk_role := sdk_role e; sdk_child_room_ids := sdk_child_room_ids e;
     sdk_role_options := sdk_role_options e |}.

(** * Roles *)

Definition matrix_room_member_role (level : option Z) : RoomMemberRole :=
  match level with
  | None => Role_Creator
  | Some l => if 100 <=? l then Role_Administrator
              else if 50 <=? l then Role_Moderator else Role_User
  end.

(** [UserPowerLevel] of ruma. *)
Inductive UserPowerLevel := Power_Infinite | Power_Int (level : Z).
Definition finite_power_level (p : UserPowerLevel) : option Z :=
  match p with Power_Infinite => None | Power_Int level => Some level end.
Definition matrix_room_member_power_level (p : UserPowerLevel) : option Z :=
  match p with Power_Infinite => None | Power_Int level => Some level end.

Section roles.
Context (power_le : UserPowerLevel -> UserPowerLevel -> bool).

Definition level_below (own : UserPowerLevel) (candidate : Z) : bool :=
  match own with Power_Infinite => true | Power_Int level => candidate <? level end.
Definition role_options_for_powers (own target : UserPowerLevel) (target_is_self can_edit : bool)
    : list MatrixRoomMemberRoleOption :=
  if target_is_self || negb can_edit then []
  else
    match finite_power_level target with
    | None => []
    | Some current =>
        if power_le own target then []
        else
          (fun level => {| sdk_option_level := level;
                           sdk_option_role := matrix_room_member_role (Some level);
                           sdk_option_confirm := (100 <=? current) || (100 <=? level) |})
            <$> List.filter (fun c => negb (c =? current) && level_below own c) [0; 50; 100]
    end.

End roles.

(** * Classification *)

Record SpaceMemberIdFacts := {
  joined_ids : gset string; invited_ids : gset string;
  child_only_ids : list string; child_ids : gmap string (gset string) }.

Definition add_child_member (room : string) (m : gmap string (gset string)) (user : string)
    : gmap string (gset string) := <[user := {[room]} ∪ default ∅ (m !! user)]> m.
Definition rooms_by_user (child_rooms : list (string * list string)) : gmap string (gset string) :=
  foldl (fun m '(room, users) => foldl (add_child_member room) m users) ∅ child_rooms.
(** [classify_space_member_ids]; its counts feed a diagnostic only. *)
Definition classify_space_member_ids (joined invited : list string)
    (child_rooms : list (string * list string)) : SpaceMemberIdFacts :=
  let joined := list_to_set joined in
  let invited := list_to_set invited in
  let by_user := rooms_by_user child_rooms in
  let only :=
    List.filter (fun user => negb (bool_decide (user ∈ joined)) && negb (bool_decide (user ∈ invited)))
      (btree_iter by_user).*1 in
  {| joined_ids := joined; invited_ids := invited; child_only_ids := only;
     child_ids := filter (fun kv => kv.1 ∈ only) by_user |}.

Definition fill_name (e other : MatrixSpaceMemberEntry) : MatrixSpaceMemberEntry :=
  e <| sdk_display_name ::= fun n => or_else n (sdk_display_name other) |>
    <| sdk_avatar_url ::= fun url => or_else url (sdk_avatar_url other) |>.
Definition merge_local_child_member_profile (entries : gmap string MatrixSpaceMemberEntry)
    (e : MatrixSpaceMemberEntry) : gmap string MatrixSpaceMemberEntry :=
  match entries !! sdk_user_id e with
  | None => <[sdk_user_id e := e]> entries
  | Some existing => <[sdk_user_id e := fill_name existing e]> entries
  end.

(** * The SDK projection *)

(** What the local lookup of one child room gives: nothing, or its members and whether they
    are synced. *)
Record ChildLookup := { lookup_room : string; lookup_members : option (list MatrixSpaceMemberEntry * bool) }.
Definition lookup_entries (c : ChildLookup) : list MatrixSpaceMemberEntry :=
  match lookup_members c with
  | Some (members, _) => (fun e => e <| sdk_child_room_ids := [lookup_room c] |>) <$> members
  | None => []
  end.
Definition lookup_is_complete (c : ChildLookup) : bool :=
  match lookup_members c with Some (_, synced) => synced | None => false end.
(** The user ids a room contributes, sorted and deduplicated. *)
Definition lookup_user_ids (c : ChildLookup) : string * list string :=
  (lookup_room c, sorted_unique (sdk_user_id <$> lookup_entries c)).

Definition entries_by_user (l : list MatrixSpaceMemberEntry) : gmap string MatrixSpaceMemberEntry :=
  foldl (fun m e => <[sdk_user_id e := e]> m) ∅ l.

(** The pure tail of [matrix_space_members_projection], once the lookups have answered. *)
Definition matrix_space_members_projection (options_for : string -> list MatrixRoomMemberRoleOption)
    (space : string) (revision : option string) (can_edit : bool)
    (joined invited : list MatrixSpaceMemberEntry) (children : list ChildLookup)
    : MatrixSpaceMembersProjection :=
  let joined_by_user := entries_by_user joined in
  let invited_by_user := entries_by_user invited in
  let profiles := foldl merge_local_child_member_profile ∅ (concat (lookup_entries <$> children)) in
  let facts :=
    classify_space_member_ids (btree_iter joined_by_user).*1 (btree_iter invited_by_user).*1
      (lookup_user_ids <$> children) in
  let shown := omap (fun user => joined_by_user !! user) (btree_set_iter (joined_ids facts)) in
  let only :=
    omap (fun user =>
            (fun e => e <| sdk_child_room_ids :=
                        btree_set_iter (default ∅ (child_ids facts !! user)) |>)
            <$> profiles !! user) (child_only_ids facts) in
  {| sdk_space_id := space; sdk_scope := lookup_room <$> children;
     sdk_joined :=
       if can_edit
       then (fun e => e <| sdk_role_options := options_for (sdk_user_id e) |>) <$> shown else shown;
     sdk_invited := omap (fun user => invited_by_user !! user) (btree_set_iter (invited_ids facts));
     sdk_child_only := only;
     sdk_child_profiles :=
       (btree_iter (filter (fun kv => kv.1 ∉ child_only_ids facts) profiles)).*2;
     sdk_child_rooms := Z.of_nat (length children);
     sdk_complete_rooms := Z.of_nat (length (List.filter lookup_is_complete children));
     sdk_incomplete_rooms :=
       Z.of_nat (length (List.filter (fun c => negb (lookup_is_complete c)) children));
     sdk_revision := revision; sdk_can_edit := can_edit |}.

(** * The reducer's projection *)

Definition state_role_option (o : MatrixRoomMemberRoleOption) : RoomMemberRoleOption :=
  {| option_power_level := sdk_option_level o; option_role := sdk_option_role o;
     requires_confirmation := sdk_option_confirm o |}.
Definition state_space_member_entry (m : SpaceMemberMembership) (e : MatrixSpaceMemberEntry)
    : SpaceMemberEntry :=
  let name := nonblank (sdk_display_name e) in
  let label := default UNKNOWN_USER name in
  {| entry_user_id := sdk_user_id e; entry_display_name := name; entry_label := label;
     entry_original_label := label; entry_avatar_url := sdk_avatar_url e;
     entry_power_level := sdk_power_level e; entry_role := sdk_role e; membership := m;
     entry_child_room_ids := sdk_child_room_ids e; invite_pending := false;
     role_options := state_role_option <$> sdk_role_options e |}.
Definition state_space_members_projection (p : MatrixSpaceMembersProjection) (gen : Z)
    : SpaceMembersProjection :=
  {| projection_space_id := sdk_space_id p; projection_generation := gen;
     proj_joined := state_space_member_entry SpaceJoined <$> sdk_joined p;
     proj_invited := state_space_member_entry SpaceInvited <$> sdk_invited p;
     proj_child_only := state_space_member_entry ChildRoomOnly <$> sdk_child_only p;
     proj_child_rooms := sdk_child_rooms p; proj_complete_rooms := sdk_complete_rooms p;
     proj_incomplete_rooms := sdk_incomplete_rooms p; proj_revision := sdk_revision p;
     proj_can_edit := sdk_can_edit p |}.

Definition avatar_from_mxc_uri (uri : option string) : option AvatarImage :=
  (fun uri => {| avatar_mxc_uri := uri; avatar_thumbnail := Thumbnail_NotRequested |}) <$> uri.
Definition profile_of_entry (e : MatrixSpaceMemberEntry) : option UserProfile :=
  let name := nonblank (sdk_display_name e) in
  match name, sdk_avatar_url e with
  | None, None => None
  | _, _ =>
      let label := default UNKNOWN_USER (sdk_display_name e) in
      Some {| prof_user_id := sdk_user_id e; prof_display_name := name; prof_display_label := label;
              prof_original_display_label := label; mention_search_terms := [];
              prof_avatar := avatar_from_mxc_uri (sdk_avatar_url e) |}
  end.
(** A later observation fills what the first one lacked. *)
Definition observe_member_profile (m : gmap string UserProfile) (next : UserProfile)
    : gmap string UserProfile :=
  <[prof_user_id next :=
      match m !! prof_user_id next with
      | None => next
      | Some p =>
          let p := match prof_display_name p, prof_display_name next with
                   | None, Some _ => p <| prof_display_name := prof_display_name next |>
                                       <| prof_display_label := prof_display_label next |>
                                       <| prof_original_display_label := prof_original_display_label next |>
                   | _, _ => p
                   end in
          p <| prof_avatar ::= fun a => or_else a (prof_avatar next) |>
      end]> m.
Definition user_profiles_from_space_projection (p : MatrixSpaceMembersProjection)
    : list UserProfile :=
  (btree_iter (foldl observe_member_profile ∅
     (omap profile_of_entry
        (sdk_joined p ++ sdk_invited p ++ sdk_child_only p ++ sdk_child_profiles p)))).*2.

(** The invite outcome read back from a fresh projection. *)
Definition reconcile_space_invite_outcome (raw : option MatrixSpaceMembersProjection)
    (user : string) (fallback : SpaceMemberInviteOutcome) : option SpaceMemberInviteOutcome :=
  (fun raw =>
     if existsb (fun e => String.eqb (sdk_user_id e) user) (sdk_joined raw) then Invite_AlreadyJoined
     else if existsb (fun e => String.eqb (sdk_user_id e) user) (sdk_invited raw)
     then Invite_AlreadyInvited else fallback) <$> raw.

(** * Refresh demand *)

Definition space_members_update_affects_demand (space : string) (children : gset string)
    (updated : option (gset string)) : bool :=
  match updated with
  | None => true
  | Some updated =>
      bool_decide (space ∈ updated) || existsb (fun r => bool_decide (r ∈ children)) (elements updated)
  end.

(** * The background refresh

    The part of [RoomActor] in [koushi-core/src/room/space_members.rs] that decides when to read
    the members of the selected space again and which answers to use.  The actor handles one
    message at a time; the lookup it spawns runs beside it and comes back as a message that
    carries the fence it was started with.  The result of a lookup is an input; the actions the
    actor reduces and the lookups it starts are its outputs. *)

Record SpaceMemberDemand := {
  demand_space_id : string; demand_generation : Z; demand_child_rooms : gset string;
  demand_serial : Z }.
(** The request id of a refresh is its own refresh generation on a fixed connection. *)
Record SpaceMemberRefreshFence := {
  fence_session : Z; fence_demand : Z; fence_refresh : Z }.
#[export] Instance Fence_eq : EqDecision SpaceMemberRefreshFence. Proof. solve_decision. Defined.

Record RoomActor := {
  has_session : bool;
  space_member_demand : option SpaceMemberDemand;
  space_member_demand_generation : Z;
  space_member_refresh_sequence : Z;
  space_member_session_generation : Z;
  space_member_refresh_in_flight : option SpaceMemberRefreshFence;
  space_member_refresh_pending : bool }.
#[export] Instance RoomActor_updatable : Updatable RoomActor := fun a =>
  {| has_session := has_session a; space_member_demand := space_member_demand a;
     space_member_demand_generation := space_member_demand_generation a;
     space_member_refresh_sequence := space_member_refresh_sequence a;
     space_member_session_generation := space_member_session_generation a;
     space_member_refresh_in_flight := space_member_refresh_in_flight a;
     space_member_refresh_pending := space_member_refresh_pending a |}.
Definition RoomActor_new : RoomActor :=
  {| has_session := false; space_member_demand := None; space_member_demand_generation := 0;
     space_member_refresh_sequence := 0; space_member_session_generation := 0;
     space_member_refresh_in_flight := None; space_member_refresh_pending := false |}.

(** [wrapping_add(1).max(1)] *)
Definition next_generation (g : Z) : Z := Z.max (u64_wrapping_add g 1) 1.

(** What the actor does: start a lookup, or reduce an action with its result. *)
Inductive RoomOutput :=
  | SpawnLookup (fence : SpaceMemberRefreshFence) (space : string) (gen : Z)
  | ReduceLoaded (request_id : Z) (p : SpaceMembersProjection) (profiles : list UserProfile)
  | ReduceLoadFailed (request_id : Z) (space : string) (gen : Z)
  | ReduceBackground (request_id : Z) (space : string) (gen : Z) (p : SpaceMembersProjection)
      (profiles : list UserProfile).

Definition should_clear_space_member_demand (demand : option SpaceMemberDemand) (space : string)
    (gen : Z) : bool :=
  match demand with
  | Some d => negb (String.eqb (demand_space_id d) space) || negb (demand_generation d =? gen)
  | None => false
  end.
Definition space_members_refresh_is_current (result_space : string) (result_gen : Z)
    (demanded_space : string) (demanded_gen : Z) : bool :=
  String.eqb result_space demanded_space && (result_gen =? demanded_gen).
Definition space_member_refresh_fence_is_current (active : option SpaceMemberRefreshFence)
    (expected : SpaceMemberRefreshFence) (session_gen demand_gen : Z) (result_space : string)
    (result_gen : Z) (demanded_space : string) (demanded_gen : Z) : bool :=
  bool_decide (active = Some expected) && (session_gen =? fence_session expected)
  && (demand_gen =? fence_demand expected)
  && space_members_refresh_is_current result_space result_gen demanded_space demanded_gen.

Definition clear_space_member_demand (a : RoomActor) : RoomActor :=
  a <| space_member_demand := None |> <| space_member_demand_generation ::= next_generation |>
    <| space_member_refresh_in_flight := None |> <| space_member_refresh_pending := false |>
    <| space_member_refresh_sequence := 0 |>.
Definition reset_space_member_session (a : RoomActor) : RoomActor :=
  clear_space_member_demand (a <| space_member_session_generation ::= next_generation |>).
Definition install_space_member_demand (a : RoomActor) (space : string) (gen : Z)
    (children : list string) : RoomActor :=
  let a := a <| space_member_demand_generation ::= next_generation |> in
  a <| space_member_demand :=
         Some {| demand_space_id := space; demand_generation := gen;
                 demand_child_rooms := list_to_set children;
                 demand_serial := space_member_demand_generation a |} |>.

Definition start_space_member_refresh (a : RoomActor) (d : SpaceMemberDemand)
    : RoomActor * list RoomOutput :=
  if negb (has_session a) then (a, [])
  else
    let a := a <| space_member_refresh_sequence ::= next_generation |> in
    let fence := {| fence_session := space_member_session_generation a;
                    fence_demand := demand_serial d;
                    fence_refresh := space_member_refresh_sequence a |} in
    (a <| space_member_refresh_in_flight := Some fence |>,
     [SpawnLookup fence (demand_space_id d) (demand_generation d)]).

(** An explicit load; the actor awaits the lookup before its next message. *)
Definition handle_load_space_members (a : RoomActor) (request_id : Z) (space : string) (gen : Z)
    (result : option MatrixSpaceMembersProjection) : RoomActor * list RoomOutput :=
  let a := if should_clear_space_member_demand (space_member_demand a) space gen
           then clear_space_member_demand a else a in
  if negb (has_session a) then (a, [ReduceLoadFailed request_id space gen])
  else
    match result with
    | Some raw =>
        (install_space_member_demand a space gen (sdk_scope raw),
         [ReduceLoaded request_id (state_space_members_projection raw gen)
            (user_profiles_from_space_projection raw)])
    | None => (a, [ReduceLoadFailed request_id space gen])
    end.

Definition handle_space_membership_changed (a : RoomActor) (updated : option (gset string))
    : RoomActor * list RoomOutput :=
  match space_member_demand a with
  | None => (a, [])
  | Some d =>
      if negb (space_members_update_affects_demand (demand_space_id d) (demand_child_rooms d) updated)
      then (a, [])
      else match space_member_refresh_in_flight a with
           | Some _ => (a <| space_member_refresh_pending := true |>, [])
           | None => start_space_member_refresh a d
           end
  end.

Definition handle_space_members_projection_refreshed (a : RoomActor)
    (fence : SpaceMemberRefreshFence) (space : string) (gen : Z)
    (result : option MatrixSpaceMembersProjection) : RoomActor * list RoomOutput :=
  match space_member_demand a with
  | None => (a, [])
  | Some d =>
      if negb (space_member_refresh_fence_is_current (space_member_refresh_in_flight a) fence
                 (space_member_session_generation a) (demand_serial d) space gen
                 (demand_space_id d) (demand_generation d))
      then (a, [])
      else
        let again := space_member_refresh_pending a in
        let a := a <| space_member_refresh_in_flight := None |>
                   <| space_member_refresh_pending := false |> in
        let '(a, out) :=
          match result with
          | Some raw =>
              (install_space_member_demand a space gen (sdk_scope raw),
               [ReduceBackground (fence_refresh fence) space gen
                  (state_space_members_projection raw gen)
                  (user_profiles_from_space_projection raw)])
          | None => (a, [])
          end in
        match again, space_member_demand a with
        | true, Some d =>
            let '(a, more) := start_space_member_refresh a d in (a, out ++ more)
        | _, _ => (a, out)
        end
  end.

Inductive RoomMessage :=
  | Message_Load (request_id : Z) (space : string) (gen : Z)
      (result : option MatrixSpaceMembersProjection)
  | Message_MembershipChanged (updated : option (gset string))
  | Message_Refreshed (fence : SpaceMemberRefreshFence) (space : string) (gen : Z)
      (result : option MatrixSpaceMembersProjection)
  | Message_SessionReset (present : bool).

(** The arms of the actor's loop that touch this state; a session change resets it and then
    stores the new session, or none. *)
Definition room_actor_step (a : RoomActor) (m : RoomMessage) : RoomActor * list RoomOutput :=
  match m with
  | Message_Load r s g result => handle_load_space_members a r s g result
  | Message_MembershipChanged updated => handle_space_membership_changed a updated
  | Message_Refreshed f s g result => handle_space_members_projection_refreshed a f s g result
  | Message_SessionReset present =>
      (reset_space_member_session a <| has_session := present |>, [])
  end.
