(* ===== verification/SpaceMembersProps.v ===== *)
(** What the space-member lists keep through every operation, and where their well-formedness
    comes from. *)

From stdpp Require Import base list strings gmap.
From Stdlib Require Import ZArith Lia.
From S2P Require Import Prelude Text AppState Profiles LiveSignals Rooms NativeAttention SpaceMembers People ProfileActions SpaceMemberActions SpaceMemberSource.
Local Open Scope string_scope.
Local Open Scope list_scope.
Local Open Scope Z_scope.
Local Set Warnings "-clear-no-such-hyp".

(** * Well-formed lists *)

Abbreviation ids l := (entry_user_id <$> (l : list SpaceMemberEntry)).

(** An entry of the list of membership [m]; only the invite of [inviting] may be pending. *)
Definition listed (inviting : option string) (m : SpaceMemberMembership) (e : SpaceMemberEntry)
    : Prop :=
  membership e = m
  /\ (invite_pending e = true -> m = SpaceInvited /\ inviting = Some (entry_user_id e)).

Record lists_wf (inviting : option string) (joined invited child_only : list SpaceMemberEntry)
    : Prop := {
  wf_unique : NoDup (ids (joined ++ invited ++ child_only));
  wf_joined : Forall (listed inviting SpaceJoined) joined;
  wf_invited : Forall (listed inviting SpaceInvited) invited;
  wf_child_only : Forall (listed inviting ChildRoomOnly) child_only }.

(** Every user is in one list, the list of its membership, and only the user of the running
    invite is pending. *)
Definition inviting_user (op : SpaceMembersOperationState) : option string :=
  match op with Members_Inviting _ _ user _ => Some user | _ => None end.
Definition members_lists_wf (s : SpaceMembersState) : Prop :=
  lists_wf (inviting_user (operation s)) (space_joined s) (space_invited s) (child_room_only s).
Definition projection_wf (p : SpaceMembersProjection) : Prop :=
  lists_wf None (proj_joined p) (proj_invited p) (proj_child_only p).
Definition pwf (o : option string) (p : SpaceMembersProjection) : Prop :=
  lists_wf o (proj_joined p) (proj_invited p) (proj_child_only p).

(** The running operation is for the selected space and its generation. *)
Definition operation_scope (op : SpaceMembersOperationState) : option (string * Z) :=
  match op with
  | Members_Idle => None
  | Members_Loading _ s g | Members_Inviting _ s _ g | Members_CancellingInvite _ s _ g
  | Members_Failed _ s _ g _ | Members_UpdatingRole _ s _ g _ _ _ _
  | Members_RoleUpdateFailed _ s _ g _ _ _ _ _ => Some (s, g)
  end.
Definition in_scope (s : SpaceMembersState) : Prop :=
  forall space gen, operation_scope (operation s) = Some (space, gen) ->
  selected_space_id s = Some space /\ generation s = gen.

Definition members_wf (s : SpaceMembersState) : Prop := members_lists_wf s /\ in_scope s.

Lemma listed_weaken o m e : listed None m e -> listed o m e.
Proof. intros [Hm Hp]. split; [done|]. intros He. by destruct (Hp He). Qed.

Lemma Forall_listed_weaken o m l : Forall (listed None m) l -> Forall (listed o m) l.
Proof. intros Hl. eapply Forall_impl; [exact Hl|]. apply listed_weaken. Qed.

Lemma lists_wf_weaken o j i c : lists_wf None j i c -> lists_wf o j i c.
Proof. intros []. constructor; by try apply Forall_listed_weaken. Qed.

(** Dropping the exemption of a user no list holds. *)
Lemma Forall_listed_gone u m l : u ∉ ids l -> Forall (listed (Some u) m) l -> Forall (listed None m) l.
Proof.
  rewrite !Forall_forall. intros Hu Hl e He. destruct (Hl e He) as [Hm Hp]. split; [done|].
  intros Hpe. destruct (Hp Hpe) as [_ [= ->]]. exfalso. by apply Hu, list_elem_of_fmap_2.
Qed.

Lemma lists_wf_gone u j i c :
  u ∉ ids (j ++ i ++ c) -> lists_wf (Some u) j i c -> lists_wf None j i c.
Proof.
  rewrite !fmap_app, !not_elem_of_app. intros (Hj & Hi & Hc) []. constructor;
    by try (eapply Forall_listed_gone).
Qed.

Lemma lists_wf_nil o : lists_wf o [] [] [].
Proof. by repeat constructor. Qed.

Section mapped.
Context (f : SpaceMemberEntry -> SpaceMemberEntry)
  (Hid : forall e, entry_user_id (f e) = entry_user_id e)
  (Hm : forall e, membership (f e) = membership e)
  (Hp : forall e, invite_pending (f e) = invite_pending e).

Lemma ids_map l : ids (f <$> l) = ids l.
Proof. rewrite <- list_fmap_compose. apply list_fmap_ext. intros ? x ?. apply Hid. Qed.

Lemma Forall_listed_map o m l : Forall (listed o m) l -> Forall (listed o m) (f <$> l).
Proof.
  intros Hl. apply Forall_fmap. eapply Forall_impl; [exact Hl|].
  intros e. unfold compose, listed. by rewrite Hid, Hm, Hp.
Qed.

Lemma lists_wf_map o j i c :
  lists_wf o j i c -> lists_wf o (f <$> j) (f <$> i) (f <$> c).
Proof.
  intros []. constructor; [|by apply Forall_listed_map..].
  by rewrite <- !fmap_app, ids_map.
Qed.
End mapped.

Lemma lists_wf_perm o j i c j' i' c' :
  j' ≡ₚ j -> i' ≡ₚ i -> c' ≡ₚ c -> lists_wf o j i c -> lists_wf o j' i' c'.
Proof. intros Hj Hi Hc []. constructor; by rewrite ?Hj, ?Hi, ?Hc. Qed.

Lemma sort_entries_perm l : sort_entries l ≡ₚ l.
Proof. apply sort_by_Permutation. Qed.

(** ** Lookups and removals *)

Lemma has_user_true u l : has_user u l = true <-> u ∈ ids l.
Proof.
  unfold has_user. rewrite existsb_exists, list_elem_of_fmap.
  setoid_rewrite String.eqb_eq. setoid_rewrite <- list_elem_of_In. naive_solver.
Qed.

Lemma has_user_false u l : has_user u l = false <-> u ∉ ids l.
Proof. rewrite <- has_user_true. by destruct (has_user u l). Qed.

Lemma find_user_Some u l e : find_user u l = Some e -> e ∈ l /\ entry_user_id e = u.
Proof. intros [He Hu]%find_first_elem. by apply String.eqb_eq in Hu. Qed.

Lemma find_user_None u l : find_user u l = None <-> u ∉ ids l.
Proof.
  unfold find_user. rewrite find_first_None, Forall_forall, list_elem_of_fmap.
  setoid_rewrite String.eqb_neq. naive_solver.
Qed.

Lemma without_user_elem u l e : e ∈ without_user u l <-> e ∈ l /\ entry_user_id e <> u.
Proof.
  unfold without_user. rewrite !list_elem_of_In, filter_In, negb_true_iff, String.eqb_neq. done.
Qed.

Lemma without_user_ids u v l : v ∈ ids (without_user u l) <-> v ∈ ids l /\ v <> u.
Proof.
  rewrite !list_elem_of_fmap. setoid_rewrite without_user_elem. naive_solver.
Qed.

Lemma without_user_app u l k : without_user u (l ++ k) = without_user u l ++ without_user u k.
Proof. apply List.filter_app. Qed.

Lemma without_user_sublist u l : without_user u l `sublist_of` l.
Proof.
  induction l as [|e l IH]; simpl; [done|]. case_match; [by constructor|by apply sublist_cons].
Qed.

Lemma without_user_id u l : u ∉ ids l -> without_user u l = l.
Proof.
  induction l as [|e l IH]; simpl; [done|]. rewrite not_elem_of_cons. intros [Hu Hl].
  destruct (String.eqb_spec (entry_user_id e) u); [congruence|]. simpl. by rewrite IH.
Qed.

Lemma remove_first_without u l : NoDup (ids l) -> remove_first u l = without_user u l.
Proof.
  induction l as [|e l IH]; simpl; [done|]. rewrite NoDup_cons. intros [He Hl].
  destruct (String.eqb_spec (entry_user_id e) u) as [<-|Hu]; simpl; [|by rewrite IH].
  by rewrite without_user_id.
Qed.

Lemma Forall_without (P : SpaceMemberEntry -> Prop) u l : Forall P l -> Forall P (without_user u l).
Proof.
  rewrite !Forall_forall. intros Hl e [He _]%without_user_elem. by apply Hl.
Qed.

Lemma lists_wf_without u o j i c :
  lists_wf o j i c -> lists_wf o (without_user u j) (without_user u i) (without_user u c).
Proof.
  intros []. constructor; [|by apply Forall_without..].
  rewrite <- !without_user_app. eapply sublist_NoDup; [done|].
  apply fmap_sublist, without_user_sublist.
Qed.

Lemma without_all_ids u j i c :
  u ∉ ids (without_user u j ++ without_user u i ++ without_user u c).
Proof. rewrite <- !without_user_app, without_user_ids. naive_solver. Qed.

(** Removing the pending user leaves no pending invite. *)
Lemma lists_wf_without_pending u j i c :
  lists_wf (Some u) j i c ->
  lists_wf None (without_user u j) (without_user u i) (without_user u c).
Proof. intros H. eapply lists_wf_gone; [apply without_all_ids|by apply lists_wf_without]. Qed.

(** ** Additions *)

Definition add_to (m : SpaceMemberMembership) (e : SpaceMemberEntry)
    (lists : list SpaceMemberEntry * list SpaceMemberEntry * list SpaceMemberEntry)
    : list SpaceMemberEntry * list SpaceMemberEntry * list SpaceMemberEntry :=
  let '(j, i, c) := lists in
  match m with
  | SpaceJoined => (j ++ [e], i, c)
  | SpaceInvited => (j, i ++ [e], c)
  | ChildRoomOnly => (j, i, c ++ [e])
  end.

Lemma NoDup_ids_perm l k : l ≡ₚ k -> NoDup (ids k) -> NoDup (ids l).
Proof. by intros ->. Qed.

Lemma lists_wf_add o m e j i c :
  entry_user_id e ∉ ids (j ++ i ++ c) -> listed o m e -> lists_wf o j i c ->
  let '(j', i', c') := add_to m e (j, i, c) in lists_wf o j' i' c'.
Proof.
  intros He Hm [Hnd Hj Hi Hc].
  assert (Hnd' : NoDup (ids (e :: j ++ i ++ c))) by (by apply NoDup_cons).
  destruct m; simpl; constructor; try done; try (apply Forall_app; split; [done|by constructor]);
    (eapply NoDup_ids_perm; [|exact Hnd']).
  - rewrite <- app_assoc. simpl. symmetry. apply Permutation_middle.
  - rewrite <- (app_assoc i [e] c). simpl. rewrite (app_assoc j i (e :: c)), (app_assoc j i c).
    symmetry. apply Permutation_middle.
  - rewrite !app_assoc. symmetry. apply Permutation_cons_append.
Qed.

Lemma listed_settle o m pending e :
  (pending = true -> m = SpaceInvited /\ o = Some (entry_user_id e)) ->
  listed o m (settle_entry m pending e).
Proof. by intros H. Qed.

(** ** Merging and resolving *)

Lemma listed_all o j i c e :
  lists_wf o j i c -> e ∈ j ++ i ++ c -> listed o (membership e) e.
Proof.
  intros [_ Hj Hi Hc]. rewrite !elem_of_app. rewrite Forall_forall in Hj, Hi, Hc.
  intros [He|[He|He]]; [pose proof (Hj e He) as H|pose proof (Hi e He) as H
                       |pose proof (Hc e He) as H]; by rewrite (proj1 H).
Qed.

Lemma push_entry_ids p e u :
  u ∈ ids (projection_entries (push_entry p e)) <-> u = entry_user_id e \/ u ∈ ids (projection_entries p).
Proof.
  unfold push_entry, projection_entries.
  destruct (membership e); cbn; rewrite !fmap_app, !elem_of_app; cbn;
    rewrite list_elem_of_singleton; tauto.
Qed.

Lemma push_entry_wf o p e :
  entry_user_id e ∉ ids (projection_entries p) -> listed o (membership e) e -> pwf o p ->
  pwf o (push_entry p e).
Proof.
  intros He Hm Hp. pose proof (lists_wf_add o (membership e) e _ _ _ He Hm Hp) as H.
  unfold push_entry. destruct (membership e); exact H.
Qed.

Lemma merge_entries_wf o l obs next :
  (forall u, u ∈ obs <-> u ∈ ids (projection_entries next)) -> pwf o next ->
  (forall e, e ∈ l -> entry_user_id e ∉ obs -> listed o (membership e) e) ->
  pwf o (foldl merge_entry (obs, next) l).2.
Proof.
  revert obs next. induction l as [|e l IH]; intros obs next Hobs Hnext Hl; [done|]. simpl.
  case_bool_decide as He.
  - apply IH; [done|done|]. intros e' He'. apply Hl. by right.
  - apply IH.
    + intros u. rewrite push_entry_ids, elem_of_union, elem_of_singleton, Hobs. done.
    + apply push_entry_wf; [by rewrite <- Hobs|apply Hl; [by left|done]|done].
    + intros e' He'. rewrite not_elem_of_union. intros [_ ?]. apply Hl; [by right|done].
Qed.

Lemma resolve_entry_id prof e : entry_user_id (resolve_entry prof e) = entry_user_id e.
Proof. done. Qed.
Lemma resolve_entry_membership prof e : membership (resolve_entry prof e) = membership e.
Proof. done. Qed.
Lemma resolve_entry_pending prof e : invite_pending (resolve_entry prof e) = invite_pending e.
Proof. done. Qed.

Lemma resolved_wf o p prof : pwf o p -> pwf o (resolve_space_members_projection p prof).
Proof.
  apply (lists_wf_map (resolve_entry prof)); intros; done.
Qed.

Lemma resolved_ids p prof :
  ids (projection_entries (resolve_space_members_projection p prof)) = ids (projection_entries p).
Proof.
  unfold projection_entries, resolve_space_members_projection. cbn.
  rewrite <- !fmap_app. apply ids_map. intros; done.
Qed.

Lemma resolve_and_merge_wf state p o :
  projection_wf p ->
  (forall e, e ∈ all_entries (space_members state) ->
     entry_user_id e ∉ ids (projection_entries p) -> listed o (membership e) e) ->
  pwf o (resolve_and_merge state p).
Proof.
  intros Hp He. unfold resolve_and_merge.
  assert (Hr : pwf o (resolve_space_members_projection p (profile state)))
    by (apply resolved_wf, lists_wf_weaken; exact Hp).
  case_match; [|done]. apply merge_entries_wf; [|done|].
  - intros u. apply elem_of_list_to_set.
  - intros e Hin Hobs. apply He; [done|]. by rewrite elem_of_list_to_set, resolved_ids in Hobs.
Qed.

Lemma merge_entries_grow l obs next u :
  u ∈ ids (projection_entries next) ->
  u ∈ ids (projection_entries (foldl merge_entry (obs, next) l).2).
Proof.
  revert obs next. induction l as [|e l IH]; intros obs next Hu; [done|]. simpl.
  case_bool_decide; apply IH; [done|]. apply push_entry_ids. by right.
Qed.

Lemma resolve_and_merge_grow state p u :
  u ∈ ids (projection_entries p) -> u ∈ ids (projection_entries (resolve_and_merge state p)).
Proof.
  intros Hu. unfold resolve_and_merge. case_match; [apply merge_entries_grow|];
    by rewrite resolved_ids.
Qed.

(** ** The state around the lists *)

Definition held (o : option string) (state : People) : Prop :=
  lists_wf o (space_joined (space_members state)) (space_invited (space_members state))
    (child_room_only (space_members state)).

Lemma install_held o p state : pwf o p -> held o (install_projection p state).
Proof. apply lists_wf_perm; apply sort_entries_perm. Qed.

Lemma sorted_wf o s j i c :
  lists_wf o j i c -> space_joined s ≡ₚ j -> space_invited s ≡ₚ i -> child_room_only s ≡ₚ c ->
  lists_wf o (space_joined s) (space_invited s) (child_room_only s).
Proof. intros H ???. by eapply lists_wf_perm. Qed.

Lemma put_operation_wf op state :
  held (inviting_user op) state ->
  (forall space gen, operation_scope op = Some (space, gen) ->
   selected_space_id (space_members state) = Some space /\ generation (space_members state) = gen) ->
  members_wf (space_members (put_operation op state)).
Proof. done. Qed.

Lemma shows_space_true state space gen :
  shows_space state space gen = true <->
  selected_space_id (space_members state) = Some space /\ generation (space_members state) = gen.
Proof.
  unfold shows_space. by rewrite andb_true_iff, bool_decide_eq_true, Z.eqb_eq.
Qed.

Lemma refreshed_wf m prof :
  members_wf m -> members_wf (refresh_space_member_display_projection m prof).1.
Proof.
  intros [Hl Hs]. split; [|exact Hs].
  apply (lists_wf_map (resolve_entry prof)); [done..|exact Hl].
Qed.

Lemma refresh_after_members state user_ids :
  space_members (refresh_after_profile_change state user_ids).1
  = (refresh_space_member_display_projection (space_members state)
       (refresh_profile_user_display_projection (profile state) (session_user_id state))).1
  /\ session (refresh_after_profile_change state user_ids).1 = session state.
Proof.
  unfold refresh_after_profile_change, refresh_open_room_settings_member_display_projection,
    refresh_open_room_summary_display_projection,
    refresh_native_attention_candidate_display_projection, refresh_live_signals,
    refresh_member_display_projection.
  repeat (case_match; simplify_eq/=; try done).
Qed.

Lemma profiles_updated_members state profiles :
  space_members (handle_user_profiles_updated state profiles).1 = space_members state
  \/ exists prof, space_members (handle_user_profiles_updated state profiles).1
     = (refresh_space_member_display_projection (space_members state) prof).1.
Proof.
  unfold handle_user_profiles_updated. case_match; [by left|right]. eexists.
  rewrite (proj1 (refresh_after_members _ _)). done.
Qed.

Lemma profiles_updated_wf state profiles :
  members_wf (space_members state) ->
  members_wf (space_members (handle_user_profiles_updated state profiles).1).
Proof.
  intros H. destruct (profiles_updated_members state profiles) as [->|[prof ->]]; [done|].
  by apply refreshed_wf.
Qed.

Lemma profiles_updated_operation state profiles :
  operation (space_members (handle_user_profiles_updated state profiles).1)
  = operation (space_members state).
Proof. by destruct (profiles_updated_members state profiles) as [->|[prof ->]]. Qed.

(** ** Installing projections *)

Lemma keep_pending_wf p user e :
  entry_user_id e = user -> pwf (Some user) p -> pwf (Some user) (keep_pending_entry p user e).
Proof.
  intros <- Hp. pose proof (lists_wf_without (entry_user_id e) _ _ _ _ Hp) as H.
  refine (lists_wf_add _ SpaceInvited (settle_entry SpaceInvited true e) _ _ _ _ _ H).
  - apply without_all_ids.
  - by apply listed_settle.
Qed.

Lemma state_listed state e :
  members_wf (space_members state) -> e ∈ all_entries (space_members state) ->
  listed (inviting_user (operation (space_members state))) (membership e) e.
Proof. intros [Hl _]. by apply listed_all. Qed.

(** A projection that shows the invited user ends the exemption. *)
Lemma merged_settled_wf state p u :
  members_wf (space_members state) -> projection_wf p ->
  inviting_user (operation (space_members state)) = Some u -> u ∈ ids (projection_entries p) ->
  pwf None (resolve_and_merge state p).
Proof.
  intros Hwf Hp Hu Hin. apply resolve_and_merge_wf; [done|]. intros e He Hnot.
  destruct (state_listed _ _ Hwf He) as [Hm Hpe]. split; [done|]. intros Hpend.
  destruct (Hpe Hpend) as [_ Heq]. congruence.
Qed.

Lemma merged_wf state p :
  members_wf (space_members state) -> projection_wf p ->
  pwf (inviting_user (operation (space_members state))) (resolve_and_merge state p).
Proof.
  intros Hwf Hp. apply resolve_and_merge_wf; [done|]. intros e He _. by apply state_listed.
Qed.

Lemma is_authoritative_in p prof u :
  is_authoritative (resolve_space_members_projection p prof) u = true ->
  u ∈ ids (projection_entries p).
Proof.
  unfold is_authoritative. rewrite orb_true_iff, !has_user_true. intros H.
  rewrite <- (resolved_ids p prof). unfold projection_entries. rewrite !fmap_app, !elem_of_app.
  tauto.
Qed.

Lemma pending_user_inviting state :
  pending_user state = inviting_user (operation (space_members state)).
Proof. unfold pending_user, pending_operation. by destruct (operation (space_members state)). Qed.

Lemma pending_entry_id state e :
  pending_entry state = Some e -> pending_user state = Some (entry_user_id e).
Proof.
  unfold pending_entry. destruct (pending_user state) as [u|]; [|done]. cbn.
  by intros [_ ->]%find_user_Some.
Qed.

Lemma reconciled_invite_wf state p :
  members_wf (space_members state) -> projection_wf p ->
  let '(state', settled) := apply_reconciled_projection_during_invite state p in
  held (if settled then None else inviting_user (operation (space_members state))) state'.
Proof.
  intros Hwf Hp. unfold apply_reconciled_projection_during_invite. apply install_held.
  pose proof (merged_wf state p Hwf Hp) as Hm. pose proof (pending_user_inviting state) as Hu.
  destruct (pending_user state) as [u|] eqn:Eu; cbn [is_some_and]; rewrite <- Hu in *; [|exact Hm].
  destruct (is_authoritative _ _) eqn:Ea.
  - apply is_authoritative_in in Ea.
    pose proof (merged_settled_wf state p u Hwf Hp (eq_sym Hu) Ea) as H.
    by destruct (pending_entry state).
  - destruct (pending_entry state) as [e|] eqn:Ee; [|exact Hm].
    apply pending_entry_id in Ee. rewrite Eu in Ee. injection Ee as ->.
    by apply keep_pending_wf.
Qed.

(** * Every handler keeps the lists well formed *)

(** The lists change, the selection and the operation do not. *)
Definition same_scope (s s' : SpaceMembersState) : Prop :=
  selected_space_id s' = selected_space_id s /\ generation s' = generation s
  /\ operation s' = operation s.

Lemma held_wf o state state' :
  members_wf (space_members state) ->
  same_scope (space_members state) (space_members state') ->
  o = inviting_user (operation (space_members state)) -> held o state' ->
  members_wf (space_members state').
Proof.
  intros [_ Hs] (Hsel & Hg & Hop) -> Hl. split; [by unfold members_lists_wf; rewrite Hop|].
  intros space gen. rewrite Hop, Hsel, Hg. apply Hs.
Qed.

Lemma settled_wf op o state state' :
  members_wf (space_members state) ->
  same_scope (space_members state) (space_members state') ->
  held o state' -> inviting_user op = o ->
  operation_scope op = None
  \/ operation_scope op = operation_scope (operation (space_members state)) ->
  members_wf (space_members (put_operation op state')).
Proof.
  intros [_ Hs] (Hsel & Hg & Hop) Hl <- Hsc. apply put_operation_wf; [done|].
  intros space gen Hsg. rewrite Hsel, Hg. destruct Hsc as [E|E]; rewrite E in Hsg; [done|].
  by apply Hs.
Qed.

Lemma on_members_members f state : space_members (on_members f state) = f (space_members state).
Proof. done. Qed.
Lemma on_members_session f state : session (on_members f state) = session state.
Proof. done. Qed.

Lemma cleared_wf s :
  space_joined s = [] -> space_invited s = [] -> child_room_only s = [] -> in_scope s ->
  members_wf s.
Proof.
  intros Hj Hi Hc Hs. split; [|exact Hs]. unfold members_lists_wf. rewrite Hj, Hi, Hc.
  apply lists_wf_nil.
Qed.

Lemma selected_wf state selected :
  members_wf (space_members state) ->
  members_wf (space_members (handle_selected state selected).1).
Proof.
  intros H. unfold handle_selected.
  destruct (negb (is_session_ready state) || _); [exact H|].
  apply cleared_wf; [reflexivity..|]. intros space gen H1.
  change (None = Some (space, gen)) in H1. discriminate.
Qed.

(** A record whose lists and scope are given field by field. *)
Lemma members_wf_fields s o j i c :
  space_joined s = j -> space_invited s = i -> child_room_only s = c ->
  inviting_user (operation s) = o -> lists_wf o j i c -> in_scope s -> members_wf s.
Proof. by intros <- <- <- <-. Qed.

Lemma load_requested_wf state r space gen :
  inviting_user (operation (space_members state)) = None ->
  members_wf (space_members state) ->
  members_wf (space_members (handle_load_requested state r space gen).1).
Proof.
  intros Hi Hwf. unfold handle_load_requested.
  destruct (negb (is_session_ready state) || _ || _ || _); [exact Hwf|].
  destruct Hwf as [Hl _]. unfold members_lists_wf in Hl. rewrite Hi in Hl.
  destruct (negb (bool_decide _) || negb _).
  - eapply members_wf_fields; [reflexivity..|apply lists_wf_nil|].
    intros ?? H. change (Some (space, gen) = Some (space0, gen0)) in H. by simplify_eq.
  - eapply members_wf_fields; [reflexivity..|exact Hl|].
    intros ?? H. change (Some (space, gen) = Some (space0, gen0)) in H. by simplify_eq.
Qed.

Lemma loaded_wf state r p :
  members_wf (space_members state) -> projection_wf p ->
  members_wf (space_members (handle_loaded state r p).1).
Proof.
  intros Hwf Hp. unfold handle_loaded.
  destruct (negb (is_session_ready state) || negb (projection_matches state r p)) eqn:E; [done|].
  apply orb_false_iff in E as [_ E%negb_false_iff].
  unfold projection_matches, is_loading_for in E. apply andb_true_iff in E as [_ E].
  pose proof (merged_wf state p Hwf Hp) as Hm. unfold pending_operation.
  destruct (operation (space_members state)) eqn:Eop; try done.
  eapply settled_wf; [exact Hwf|done|apply install_held, Hm|done|by left].
Qed.

Lemma install_merged_wf state p :
  members_wf (space_members state) -> projection_wf p ->
  members_wf (space_members (install_projection (resolve_and_merge state p) state)).
Proof.
  intros Hwf Hp. eapply held_wf; [exact Hwf|done|done|]. by apply install_held, merged_wf.
Qed.

Lemma reconciled_wf state r p profiles :
  members_wf (space_members state) -> projection_wf p ->
  members_wf (space_members (handle_projection_reconciled state r p profiles).1).
Proof.
  intros Hwf Hp. unfold handle_projection_reconciled. case_match; [done|].
  pose proof (profiles_updated_wf state profiles Hwf) as H1.
  pose proof (profiles_updated_operation state profiles) as Hop.
  destruct (handle_user_profiles_updated state profiles) as [state1 effects]. cbn in H1, Hop.
  destruct (cancellation_shows state r p); [by apply install_merged_wf|].
  destruct (is_cancelling _); [done|].
  destruct (is_loading_for _ r).
  { pose proof (loaded_wf state1 r p H1 Hp) as H2. by destruct (handle_loaded state1 r p). }
  destruct (is_inviting_for _ r) eqn:Ei; [|done].
  pose proof (reconciled_invite_wf state1 p H1 Hp) as H2. cbn [fst].
  destruct (apply_reconciled_projection_during_invite state1 p) as [state2 settled] eqn:E2.
  unfold apply_reconciled_projection_during_invite in E2. injection E2 as <- Es.
  eapply held_wf; [exact H1|done|reflexivity|]. cbn [fst]. destruct settled; [|exact H2].
  by apply lists_wf_weaken.
Qed.

Lemma found_id user m l :
  entry_user_id (default (fallback_entry user m) (find_user user l)) = user.
Proof. destruct (find_user user l) eqn:E; [|done]. by apply find_user_Some in E as [_ ?]. Qed.

Lemma inviting_none_wf state :
  members_wf (space_members state) ->
  inviting_user (operation (space_members state)) = None -> held None state.
Proof. intros [Hl _] H. unfold members_lists_wf in Hl. by rewrite H in Hl. Qed.

Lemma refresh_member_held o state :
  held o state -> held o (refresh_member_display_projection state).1.
Proof.
  intros H. unfold held in H.
  apply (lists_wf_map (resolve_entry (profile state))) in H; [exact H|done..].
Qed.

Lemma put_back_wf p user e :
  entry_user_id e = user -> pwf None p ->
  pwf None ((remove_projection_entry p user)
              <| proj_child_only ::= fun l => l ++ [settle_entry ChildRoomOnly false e] |>).
Proof.
  intros <- Hp. pose proof (lists_wf_without (entry_user_id e) _ _ _ _ Hp) as H.
  refine (lists_wf_add _ ChildRoomOnly (settle_entry ChildRoomOnly false e) _ _ _ _ _ H).
  - apply without_all_ids.
  - by apply listed_settle.
Qed.

Lemma held_pair o state (b : bool) : held o state -> held o (state, b).1.
Proof. done. Qed.

Lemma failed_invite_wf state p user :
  members_wf (space_members state) -> projection_wf p ->
  inviting_user (operation (space_members state)) = None ->
  held None (apply_failed_invite_background_projection state p user).1.
Proof.
  intros Hwf Hp Hi. unfold apply_failed_invite_background_projection.
  pose proof (merged_wf state p Hwf Hp) as Hm. rewrite Hi in Hm.
  destruct (is_authoritative _ user); apply held_pair; [by apply install_held|].
  apply refresh_member_held, install_held, put_back_wf; [apply found_id|exact Hm].
Qed.

Lemma refresh_same_scope m prof :
  same_scope m (refresh_space_member_display_projection m prof).1.
Proof. done. Qed.

Lemma failed_invite_scope state p user :
  same_scope (space_members state)
    (space_members (apply_failed_invite_background_projection state p user).1).
Proof.
  unfold apply_failed_invite_background_projection. by destruct (is_authoritative _ user).
Qed.

Lemma apply_background_wf state p :
  members_wf (space_members state) -> projection_wf p ->
  members_wf (space_members
    (apply_background state p (operation (space_members state)))).
Proof.
  intros Hwf Hp. pose proof (install_merged_wf state p Hwf Hp) as Hm.
  pose proof (reconciled_invite_wf state p Hwf Hp) as Hr.
  assert (Hsc : same_scope (space_members state)
    (space_members (apply_reconciled_projection_during_invite state p).1)) by done.
  unfold apply_background. destruct (operation (space_members state)) eqn:Eop.
  - destruct (apply_reconciled_projection_during_invite state p) as [state1 b]. cbn in *.
    eapply held_wf; [exact Hwf|exact Hsc|reflexivity|]. rewrite Eop. by destruct b.
  - done.
  - destruct (apply_reconciled_projection_during_invite state p) as [state1 b]. cbn in Hr, Hsc.
    destruct b.
    + eapply settled_wf; [exact Hwf|exact Hsc|exact Hr|done|by left].
    + eapply held_wf; [exact Hwf|exact Hsc|reflexivity|]. by rewrite Eop.
  - exact Hm.
  - destruct user_id as [user|].
    + pose proof (failed_invite_wf state p user Hwf Hp) as H. rewrite Eop in H.
      specialize (H eq_refl). pose proof (failed_invite_scope state p user) as Hs.
      destruct (apply_failed_invite_background_projection state p user) as [state1 b].
      cbn [fst] in H, Hs. destruct b.
      * eapply settled_wf; [exact Hwf|exact Hs|exact H|done|by left].
      * eapply held_wf; [exact Hwf|exact Hs|reflexivity|]. by rewrite Eop.
    + unfold apply_failed_load_background_projection.
      destruct (proj_incomplete_rooms p =? 0); [|exact Hm].
      eapply settled_wf; [exact Hwf|done|by apply install_held, merged_wf|by rewrite Eop|by left].
  - exact Hm.
  - cbv zeta. destruct (existsb _ _ && _); [|exact Hm].
    eapply settled_wf; [exact Hwf|done|by apply install_held, merged_wf|by rewrite Eop|by left].
Qed.

Lemma background_wf state r space gen p profiles :
  members_wf (space_members state) -> projection_wf p ->
  members_wf (space_members
    (handle_background_projection_reconciled state r space gen p profiles).1).
Proof.
  intros Hwf Hp. unfold handle_background_projection_reconciled.
  destruct (_ || negb (background_reconciliation_operation_matches _ _ _)); [done|].
  pose proof (profiles_updated_wf state profiles Hwf) as H1.
  pose proof (profiles_updated_operation state profiles) as Hop.
  destruct (handle_user_profiles_updated state profiles) as [state1 effects]. cbn in H1, Hop.
  rewrite <- Hop. by apply apply_background_wf.
Qed.

(** ** Requests and settlements *)

Lemma load_failed_wf state r space gen kind :
  members_wf (space_members state) ->
  members_wf (space_members (handle_load_failed state r space gen kind).1).
Proof.
  intros Hwf. unfold handle_load_failed.
  destruct (_ || _) eqn:E; [done|]. apply orb_false_iff in E as [E El].
  apply orb_false_iff in E as [_ Es]. apply negb_false_iff, shows_space_true in Es.
  apply negb_false_iff in El. apply put_operation_wf.
  - apply inviting_none_wf; [done|]. by destruct (operation (space_members state)).
  - by intros ?? [= <- <-].
Qed.

Lemma role_requested_wf state r space user gen rev expected level confirmed :
  members_wf (space_members state) ->
  members_wf (space_members
    (handle_role_update_requested state r space user gen rev expected level confirmed).1).
Proof.
  intros Hwf. unfold handle_role_update_requested.
  destruct (negb (is_session_ready state)); [done|].
  destruct (admit_space_member_role _ _ _ _ _ _ _ _) eqn:E; [|done].
  unfold admit_space_member_role in E. repeat case_match; simplify_eq.
  rewrite !negb_false_iff, ?orb_false_iff, ?negb_false_iff in *. destruct_and!.
  apply put_operation_wf.
  - apply inviting_none_wf; [done|]. by destruct (operation (space_members state)).
  - intros ?? [= <- <-]. rewrite !bool_decide_eq_true in *. by rewrite !Z.eqb_eq in *.
Qed.

Lemma role_settled_wf state r space user gen outcome sent p :
  members_wf (space_members state) -> (forall q, p = Some q -> projection_wf q) ->
  members_wf (space_members
    (handle_role_update_settled state r space user gen outcome sent p).1).
Proof.
  intros Hwf Hp. unfold handle_role_update_settled.
  destruct (operation (space_members state)) eqn:Eop; try done.
  destruct (_ || _) eqn:E; [done|]. apply orb_false_iff in E as [_ Es].
  apply negb_false_iff, shows_space_true in Es.
  assert (Hi : inviting_user (operation (space_members state)) = None) by by rewrite Eop.
  apply put_operation_wf.
  - replace (inviting_user _) with (@None string) by (by destruct outcome).
    destruct p as [q|]; [|by apply inviting_none_wf].
    apply install_held. rewrite <- Hi. by apply merged_wf, Hp.
  - assert (Hsc : forall s g, operation_scope match outcome with
        | Role_Succeeded => Members_Idle
        | Role_Failed kind => Members_RoleUpdateFailed r space user gen
            expected_power_levels_revision expected_power_level power_level sent kind
        end = Some (s, g) -> s = space /\ g = gen) by (destruct outcome; by intros ?? [= <- <-]).
    intros s g [-> ->]%Hsc. by destruct p.
Qed.

Lemma cancellation_requested_wf state r space user gen :
  members_wf (space_members state) ->
  members_wf (space_members (handle_cancellation_requested state r space user gen).1).
Proof.
  intros Hwf. unfold handle_cancellation_requested.
  destruct (_ || _) eqn:E; [done|]. rewrite !orb_false_iff, !negb_false_iff in E.
  destruct E as (((_ & Es) & Ec) & _). apply shows_space_true in Es. apply put_operation_wf.
  - apply inviting_none_wf; [done|]. by destruct (operation (space_members state)).
  - by intros ?? [= <- <-].
Qed.

(** An entry moves to the list of [m] once no list holds its user. *)
Lemma push_settled_wf o m e s :
  entry_user_id e ∉ ids (all_entries s) ->
  lists_wf o (space_joined s) (space_invited s) (child_room_only s) ->
  lists_wf o (space_joined (push_settled m e s)) (space_invited (push_settled m e s))
    (child_room_only (push_settled m e s)).
Proof.
  intros He H. pose proof (lists_wf_add o m (settle_entry m false e) _ _ _ He
    (listed_settle o m false e ltac:(done)) H) as Ha.
  destruct m; simpl in Ha; (eapply lists_wf_perm; [| | |exact Ha]);
    first [apply sort_entries_perm | reflexivity].
Qed.

Lemma push_settled_scope m e s : same_scope s (push_settled m e s).
Proof. by destruct m. Qed.

(** Taking a user out of the lists, when the lists are well formed. *)
Lemma remove_entry_lists o s user :
  lists_wf o (space_joined s) (space_invited s) (child_room_only s) ->
  let s' := (remove_entry s user).1 in
  same_scope s s' /\ space_joined s' = without_user user (space_joined s)
  /\ space_invited s' = without_user user (space_invited s)
  /\ child_room_only s' = without_user user (child_room_only s).
Proof.
  intros [Hnd _ _ _]. rewrite !fmap_app in Hnd.
  apply NoDup_app in Hnd as (Hj & Hjic & Hic). apply NoDup_app in Hic as (Hi & Hxc & Hc).
  assert (Hgone : forall l, user ∉ ids l -> l = without_user user l)
    by (intros l Hl; by rewrite without_user_id).
  assert (Hsome : forall l e, find_user user l = Some e -> user ∈ ids l)
    by (intros l e [He <-]%find_user_Some; by apply list_elem_of_fmap_2).
  unfold remove_entry. destruct (find_user user (space_joined s)) eqn:Ej.
  { apply Hsome in Ej. pose proof (Hjic _ Ej) as Hn. apply not_elem_of_app in Hn as [??].
    split_and!; try done; [|by apply Hgone..]. cbn. by apply remove_first_without. }
  apply find_user_None in Ej. destruct (find_user user (space_invited s)) eqn:Ei.
  { apply Hsome in Ei. pose proof (Hxc _ Ei) as Hn.
    split_and!; try done; [by apply Hgone| |by apply Hgone]. by apply remove_first_without. }
  apply find_user_None in Ei. destruct (find_user user (child_room_only s)) eqn:Ec.
  { split_and!; try done; [by apply Hgone..|]. by apply remove_first_without. }
  apply find_user_None in Ec. split_and!; try done; by apply Hgone.
Qed.

Lemma remove_entry_id s user m :
  entry_user_id (default (fallback_entry user m) (remove_entry s user).2) = user.
Proof.
  unfold remove_entry. repeat case_match; simpl; try done;
    match goal with H : find_user _ _ = Some _ |- _ => by apply find_user_Some in H as [_ ?] end.
Qed.

Lemma invite_requested_wf state r space user gen :
  members_wf (space_members state) ->
  members_wf (space_members (handle_invite_requested state r space user gen).1).
Proof.
  intros Hwf. unfold handle_invite_requested.
  destruct (_ || invite_is_blocked _) eqn:E; [done|].
  rewrite !orb_false_iff, !negb_false_iff in E. destruct E as [[_ Es] Eb].
  apply shows_space_true in Es.
  destruct (has_user user (space_joined _) || _) eqn:Eh; [done|].
  apply orb_false_iff in Eh as [Ej%has_user_false Ei%has_user_false].
  destruct (find_user user (child_room_only _)) as [e|] eqn:Ef; [|done].
  apply find_user_Some in Ef as [He Hu].
  assert (Hn : held None state)
    by (apply inviting_none_wf; [done|]; by destruct (operation (space_members state))).
  apply put_operation_wf; [|by intros ?? [= <- <-]]. cbn [inviting_user].
  pose proof (lists_wf_weaken (Some user) _ _ _ (lists_wf_without user _ _ _ _ Hn)) as Hw.
  rewrite (without_user_id _ _ Ej), (without_user_id _ _ Ei) in Hw.
  assert (Hnot : entry_user_id e ∉ ids (space_joined (space_members state)
    ++ space_invited (space_members state)
    ++ without_user user (child_room_only (space_members state)))).
  { rewrite Hu, !fmap_app, !elem_of_app, without_user_ids. naive_solver. }
  assert (Hl : listed (Some user) SpaceInvited (settle_entry SpaceInvited true e))
    by (apply listed_settle; by rewrite Hu).
  pose proof (lists_wf_add (Some user) SpaceInvited (settle_entry SpaceInvited true e)
    _ _ _ Hnot Hl Hw) as Ha. simpl in Ha.
  eapply lists_wf_perm; [| | |exact Ha]; first [apply sort_entries_perm | reflexivity].
Qed.

(** The entry a settled invite takes out of the lists, and the list it goes to. *)
Lemma moved_wf state user m op :
  members_wf (space_members state) -> inviting_user op = None ->
  inviting_user (operation (space_members state)) = Some user ->
  (forall space gen, operation_scope op = Some (space, gen) ->
   selected_space_id (space_members state) = Some space /\ generation (space_members state) = gen) ->
  let removed := remove_entry (space_members state) user in
  let s := push_settled m (default (fallback_entry user ChildRoomOnly) removed.2) removed.1 in
  members_wf (s <| operation := op |>).
Proof.
  intros [Hl _] Hop Hi Hsc removed s.
  pose proof (remove_entry_lists _ _ user Hl) as ((Hsel & Hg & _) & Ej & Ei & Ec).
  pose proof (push_settled_scope m
    (default (fallback_entry user ChildRoomOnly) removed.2) removed.1) as (Hsel' & Hg' & _).
  assert (Hs : lists_wf None (space_joined s) (space_invited s) (child_room_only s)).
  { apply push_settled_wf.
    - unfold removed. rewrite remove_entry_id. unfold all_entries. rewrite Ej, Ei, Ec.
      apply without_all_ids.
    - unfold removed. rewrite Ej, Ei, Ec. apply lists_wf_without_pending. by rewrite <- Hi. }
  eapply members_wf_fields; [reflexivity..| |].
  - replace (inviting_user _) with (@None string). exact Hs.
  - intros space gen H. change (operation_scope op = Some (space, gen)) in H.
    destruct (Hsc _ _ H) as [H1 H2].
    change (selected_space_id s = Some space /\ generation s = gen). unfold s.
    rewrite Hsel', Hg'. unfold removed. by rewrite Hsel, Hg.
Qed.

Lemma invite_settled_wf state r space user gen outcome :
  members_wf (space_members state) ->
  members_wf (space_members (handle_invite_settled state r space user gen outcome).1).
Proof.
  intros Hwf. unfold handle_invite_settled.
  destruct (_ || _) eqn:E; [done|]. rewrite !orb_false_iff, !negb_false_iff in E.
  destruct E as [[_ Eo] Es]. apply shows_space_true in Es. unfold invite_in_flight in Eo.
  destruct (operation (space_members state)) as [| |active s u g| | | |] eqn:Eop; try done.
  rewrite !andb_true_iff, !String.eqb_eq in Eo. destruct Eo as [[[_ ->] ->] _].
  assert (Hi : inviting_user (operation (space_members state)) = Some user) by by rewrite Eop.
  pose proof (fun m op => moved_wf state user m op Hwf) as H.
  destruct (remove_entry (space_members state) user) as [s' removed].
  destruct outcome; (apply H; [done|done|]); by intros ?? [= <- <-].
Qed.

Lemma restored_wf s user :
  lists_wf None (space_joined s) (space_invited s) (child_room_only s) ->
  let s' := restore_invited user s in
  same_scope s s' /\ lists_wf None (space_joined s') (space_invited s') (child_room_only s').
Proof.
  intros Hl. unfold restore_invited.
  destruct (has_user user (space_invited s) || _) eqn:Eh; [done|].
  apply orb_false_iff in Eh as [Ei%has_user_false Ej%has_user_false]. cbv zeta.
  set (e := default _ _). assert (He : entry_user_id e = user) by apply found_id.
  pose proof (push_settled_scope SpaceInvited e (s <| child_room_only ::= without_user user |>))
    as Hsc. split; [exact Hsc|].
  pose proof (lists_wf_without user _ _ _ _ Hl) as Hw.
  rewrite (without_user_id _ _ Ej), (without_user_id _ _ Ei) in Hw.
  apply push_settled_wf; [|exact Hw]. rewrite He.
  change (user ∉ ids (space_joined s ++ space_invited s ++ without_user user (child_room_only s))).
  rewrite !fmap_app, !elem_of_app, without_user_ids. naive_solver.
Qed.

Lemma cancellation_settled_wf state r space user gen outcome :
  members_wf (space_members state) ->
  members_wf (space_members (handle_cancellation_settled state r space user gen outcome).1).
Proof.
  intros Hwf. unfold handle_cancellation_settled.
  destruct (_ || _) eqn:E; [done|]. rewrite !orb_false_iff, !negb_false_iff in E.
  destruct E as [[_ Eo] Es]. apply shows_space_true in Es. unfold cancellation_in_flight in Eo.
  assert (Hn : held None state)
    by (apply inviting_none_wf; [done|]; by destruct (operation (space_members state))).
  destruct outcome; cbv zeta; apply put_operation_wf; try exact Hn; try (by intros ?? [= <- <-]).
  - pose proof (lists_wf_without user _ _ _ _ Hn) as Hw. destruct Hn as [Hnd Hj Hi Hc].
    constructor; [|exact Hj|by apply Forall_without|exact Hc].
    eapply sublist_NoDup; [exact Hnd|]. apply fmap_sublist.
    apply sublist_app; [done|]. apply sublist_app; [|done]. apply without_user_sublist.
  - unfold held. rewrite on_members_members. exact (proj2 (restored_wf _ user Hn)).
  - rewrite on_members_members. intros ?? [= <- <-].
    pose proof (restored_wf _ user Hn) as [(Hsel & Hg & _) _]. by rewrite Hsel, Hg.
Qed.

(** * Reachable member lists *)

(** What the core sends: projections it built, and loads it admitted. *)
Definition action_ok (state : People) (a : MembersAction) : Prop :=
  match a with
  | LoadRequested _ space gen => admit_space_members_load state space gen = inl tt
  | Loaded _ p | ProjectionReconciled _ p _ | BackgroundReconciled _ _ _ p _ => projection_wf p
  | RoleUpdateSettled _ _ _ _ _ _ (Some p) => projection_wf p
  | _ => True
  end.

(** The states the reducer reaches.  Between two member actions the rest of the state may
    change, the labels be refreshed and the whole be cleared. *)
Inductive members_reachable : People -> Prop :=
  | reach_cleared state : space_members state = SpaceMembersState_default -> members_reachable state
  | reach_action state a :
      members_reachable state -> action_ok state a -> members_reachable (reduce_members state a).1
  | reach_refreshed state state' profiles :
      members_reachable state ->
      space_members state'
        = (refresh_space_member_display_projection (space_members state) profiles).1 ->
      members_reachable state'
  | reach_elsewhere state state' :
      members_reachable state -> space_members state' = space_members state ->
      members_reachable state'.

Lemma admitted_load_not_inviting state space gen :
  admit_space_members_load state space gen = inl tt ->
  inviting_user (operation (space_members state)) = None.
Proof.
  unfold admit_space_members_load. intros H. repeat case_match; simplify_eq; done.
Qed.

Lemma reduce_members_wf state a :
  members_wf (space_members state) -> action_ok state a ->
  members_wf (space_members (reduce_members state a).1).
Proof.
  intros Hwf Ha. destruct a; cbn [reduce_members].
  - pose proof (selected_wf state space Hwf) as H. by destruct (handle_selected state space).
  - apply load_requested_wf; [|done]. by eapply admitted_load_not_inviting.
  - by apply loaded_wf.
  - by apply load_failed_wf.
  - unfold handle_profiles_observed. destruct (_ || _); [done|]. by apply profiles_updated_wf.
  - by apply reconciled_wf.
  - by apply background_wf.
  - by apply role_requested_wf.
  - apply role_settled_wf; [done|]. by intros q ->.
  - by apply invite_requested_wf.
  - by apply invite_settled_wf.
  - by apply cancellation_requested_wf.
  - by apply cancellation_settled_wf.
Qed.

Lemma reachable_members_wf state : members_reachable state -> members_wf (space_members state).
Proof.
  induction 1 as [state H|state a _ IH Ha|state state' profiles _ IH H|state state' _ IH H].
  - rewrite H. by apply cleared_wf.
  - by apply reduce_members_wf.
  - rewrite H. by apply refreshed_wf.
  - by rewrite H.
Qed.

(** C17: In every reachable state each user is in at most one of the three member lists and at
    most once, every entry is in the list of its membership, an entry whose invite is pending is
    the invited entry of the invite that is running, and the running operation is for the
    selected space and its current generation. *)
Theorem each_member_is_listed_once state :
  members_reachable state ->
  let m := space_members state in
  NoDup (entry_user_id <$> all_entries m)
  /\ Forall (fun e => membership e = SpaceJoined) (space_joined m)
  /\ Forall (fun e => membership e = SpaceInvited) (space_invited m)
  /\ Forall (fun e => membership e = ChildRoomOnly) (child_room_only m)
  /\ (forall e, e ∈ all_entries m -> invite_pending e = true ->
      e ∈ space_invited m
      /\ exists r s g, operation m = Members_Inviting r s (entry_user_id e) g)
  /\ in_scope m.
Proof.
  intros H. destruct (reachable_members_wf _ H) as [Hl Hs]. cbv zeta.
  set (m := space_members state) in *. clearbody m.
  assert (Ht : forall o k l, Forall (listed o k) l -> Forall (fun e => membership e = k) l)
    by (intros o k l Hf; eapply Forall_impl; [exact Hf|]; by intros e [? _]).
  pose proof Hl as [Hnd Hj Hi Hc]. split; [exact Hnd|]. split; [by eapply Ht|].
  split; [by eapply Ht|]. split; [by eapply Ht|]. split; [|exact Hs].
  intros e He Hp. rewrite Forall_forall in Hj, Hi, Hc. unfold all_entries in He.
  rewrite !elem_of_app in He.
  assert (Hx : forall k, listed (inviting_user (operation m)) k e -> k = SpaceInvited
      /\ exists r s g, operation m = Members_Inviting r s (entry_user_id e) g).
  { intros k [_ Hk]. destruct (Hk Hp) as [-> Ho]. split; [done|].
    destruct (operation m); try done. injection Ho as ->. eauto. }
  destruct He as [He|[He|He]];
    [by destruct (Hx _ (Hj _ He))|split; [done|]; by eapply Hx, Hi|by destruct (Hx _ (Hc _ He))].
Qed.

Definition sample_session : SessionInfo :=
  {| homeserver := "https://h.org"; AppState.user_id := "@me:h.org"; device_id := "D";
     authentication_method := Auth_Password |}.
Definition sample_entry (m : SpaceMemberMembership) (user : string) : SpaceMemberEntry :=
  fallback_entry user m.
Definition sample_projection (gen : Z) : SpaceMembersProjection :=
  {| projection_space_id := "!s"; projection_generation := gen;
     proj_joined := [sample_entry SpaceJoined "@a"]; proj_invited := [];
     proj_child_only := [sample_entry ChildRoomOnly "@b"; sample_entry ChildRoomOnly "@c"];
     proj_child_rooms := 1; proj_complete_rooms := 1; proj_incomplete_rooms := 0;
     proj_revision := None; proj_can_edit := false |}.
Definition sample_people : People :=
  People_default <| session := Session_Ready sample_session |> <| active_space_id := Some "!s" |>.
Definition after (a : MembersAction) (state : People) : People := (reduce_members state a).1.
Definition sample_run : People :=
  after (InviteRequested 2 "!s" "@b" 1) (after (Loaded 1 (sample_projection 1))
    (after (LoadRequested 1 "!s" 1) (after (Select (Some "!s")) sample_people))).

Lemma sample_listed m user : listed None m (sample_entry m user).
Proof. split; [done|]. by intros [=]. Qed.

Lemma sample_projection_wf gen : projection_wf (sample_projection gen).
Proof.
  constructor; [apply (bool_decide_eq_true_1 (NoDup _)); vm_compute; reflexivity|..]; cbn;
    repeat (apply Forall_cons; split; [apply sample_listed|]); by apply Forall_nil.
Qed.

Lemma each_member_is_listed_once_witness :
  exists e, e ∈ all_entries (space_members sample_run) /\ entry_user_id e = "@b"
  /\ (e ∈ space_invited (space_members sample_run)
      /\ exists r s g, operation (space_members sample_run) = Members_Inviting r s "@b" g).
Proof.
  assert (H : members_reachable sample_run).
  { unfold sample_run, after. apply (reach_action _ (InviteRequested 2 "!s" "@b" 1)); [|exact I].
    apply (reach_action _ (Loaded 1 (sample_projection 1))); [|apply sample_projection_wf].
    apply (reach_action _ (LoadRequested 1 "!s" 1)); [|reflexivity].
    apply (reach_action _ (Select (Some "!s"))); [|exact I].
    by apply reach_cleared. }
  pose proof (each_member_is_listed_once _ H) as (_ & _ & _ & _ & Hp & _).
  set (e := (resolve_entry ProfileState_default (sample_entry ChildRoomOnly "@b"))
              <| membership := SpaceInvited |> <| invite_pending := true |>).
  assert (He : e ∈ all_entries (space_members sample_run))
    by (vm_compute; right; left).
  exists e. split; [exact He|]. split; [reflexivity|]. exact (Hp e He eq_refl).
Defined.

(** * Where the lists come from *)

Definition keyed (m : gmap string MatrixSpaceMemberEntry) : Prop :=
  map_Forall (fun user e => sdk_user_id e = user) m.

Lemma entries_by_user_keyed l : keyed (entries_by_user l).
Proof.
  unfold entries_by_user. assert (H : keyed ∅) by apply map_Forall_empty. revert H.
  generalize (∅ : gmap string MatrixSpaceMemberEntry) as m.
  induction l as [|e l IH]; intros m Hm; [done|]. apply IH. by apply map_Forall_insert_2.
Qed.

Lemma entries_by_user_keys l u :
  is_Some (entries_by_user l !! u) -> u ∈ sdk_user_id <$> l.
Proof.
  unfold entries_by_user.
  assert (H : forall m : gmap string MatrixSpaceMemberEntry, is_Some (foldl (fun m e => <[sdk_user_id e := e]> m) m l !! u) ->
    is_Some (m !! u) \/ u ∈ sdk_user_id <$> l); [|intros [[x Hx]|]%H; [by rewrite lookup_empty in Hx|done]].
  induction l as [|e l IH]; intros m Hm; [by left|]. cbn in Hm |- *. apply IH in Hm as [Hm|Hm].
  - destruct (decide (u = sdk_user_id e)) as [->|Hne]; [right; by left|].
    rewrite lookup_insert_ne in Hm by done. by left.
  - right. by right.
Qed.

Lemma merged_profiles_keyed l m :
  keyed m -> keyed (foldl merge_local_child_member_profile m l).
Proof.
  revert m. induction l as [|e l IH]; intros m Hm; [done|]. apply IH.
  unfold merge_local_child_member_profile. destruct (m !! sdk_user_id e) as [x|] eqn:E;
    apply map_Forall_insert_2; try done. exact (Hm _ _ E).
Qed.

(** The users of the entries found under some keys are among the keys, in their order. *)
Lemma found_users (g : string -> option MatrixSpaceMemberEntry) (l : list string) :
  (forall u e, g u = Some e -> sdk_user_id e = u) -> (sdk_user_id <$> omap g l) `sublist_of` l.
Proof.
  intros Hg. induction l as [|u l IH]; [done|]. cbn. destruct (g u) as [e|] eqn:E; cbn.
  - rewrite (Hg _ _ E). by constructor.
  - by constructor.
Qed.

Lemma filter_bool_sublist {A} (p : A -> bool) l : List.filter p l `sublist_of` l.
Proof.
  induction l as [|x l IH]; [done|]. cbn. destruct (p x); by constructor.
Qed.

Lemma state_entry_ids k l : ids (state_space_member_entry k <$> l) = sdk_user_id <$> l.
Proof. rewrite <- list_fmap_compose. by apply list_fmap_ext. Qed.

Lemma state_entries_listed k l : Forall (listed None k) (state_space_member_entry k <$> l).
Proof. apply Forall_fmap, Forall_forall. intros e _. split; [done|]. by intros [=]. Qed.

(** The users of the three lists, as sublists of three disjoint runs of keys. *)
Section projected.
Context (options_for : string -> list MatrixRoomMemberRoleOption) (space : string)
  (revision : option string) (can_edit : bool) (joined invited : list MatrixSpaceMemberEntry)
  (children : list ChildLookup).
Let raw := matrix_space_members_projection options_for space revision can_edit joined invited children.
Let facts := classify_space_member_ids (btree_iter (entries_by_user joined)).*1
  (btree_iter (entries_by_user invited)).*1 (lookup_user_ids <$> children).

Lemma joined_users : (sdk_user_id <$> sdk_joined raw) `sublist_of` btree_set_iter (joined_ids facts).
Proof.
  etrans; [|apply (found_users (fun user => entries_by_user joined !! user));
            intros u e; apply (entries_by_user_keyed joined)].
  subst raw. cbn. destruct can_edit; [|done].
  rewrite <- list_fmap_compose. apply reflexive_eq. by apply list_fmap_ext.
Qed.

Lemma invited_users :
  (sdk_user_id <$> sdk_invited raw) `sublist_of` btree_set_iter (invited_ids facts).
Proof.
  apply (found_users (fun user => entries_by_user invited !! user)).
  intros u e. apply (entries_by_user_keyed invited).
Qed.

Lemma child_only_users : (sdk_user_id <$> sdk_child_only raw) `sublist_of` child_only_ids facts.
Proof.
  apply found_users. intros u e' He.
  assert (Hk : keyed (foldl merge_local_child_member_profile ∅ (concat (lookup_entries <$> children))))
    by (apply merged_profiles_keyed, map_Forall_empty).
  apply fmap_Some in He as (e & He & ->). exact (Hk _ _ He).
Qed.

Lemma child_only_spec u :
  u ∈ child_only_ids facts -> (u ∉ joined_ids facts) /\ (u ∉ invited_ids facts).
Proof.
  cbn. rewrite list_elem_of_In, filter_In, andb_true_iff, !negb_true_iff, !bool_decide_eq_false.
  naive_solver.
Qed.

Lemma child_only_NoDup : NoDup (child_only_ids facts).
Proof.
  eapply sublist_NoDup; [|apply filter_bool_sublist]. apply btree_iter_NoDup.
Qed.

Lemma fact_ids u :
  (u ∈ joined_ids facts -> u ∈ sdk_user_id <$> joined)
  /\ (u ∈ invited_ids facts -> u ∈ sdk_user_id <$> invited).
Proof.
  cbn. rewrite !elem_of_list_to_set, !elem_of_btree_keys. split; apply entries_by_user_keys.
Qed.

Lemma built_wf gen :
  (forall u, u ∈ sdk_user_id <$> joined -> u ∉ sdk_user_id <$> invited) ->
  projection_wf (state_space_members_projection raw gen).
Proof.
  intros Hdis. constructor; [|apply state_entries_listed..].
  change (NoDup (ids ((state_space_member_entry SpaceJoined <$> sdk_joined raw)
    ++ (state_space_member_entry SpaceInvited <$> sdk_invited raw)
    ++ (state_space_member_entry ChildRoomOnly <$> sdk_child_only raw)))).
  rewrite !fmap_app, !state_entry_ids.
  pose proof joined_users as Hj. pose proof invited_users as Hi. pose proof child_only_users as Hc.
  eapply sublist_NoDup; [|apply sublist_app; [exact Hj|apply sublist_app; [exact Hi|exact Hc]]].
  apply NoDup_app. split; [apply NoDup_btree_set|]. split.
  - intros u Hu. rewrite elem_of_btree_set in Hu. rewrite not_elem_of_app, elem_of_btree_set.
    split.
    + intros Hu'. apply (Hdis u); by apply fact_ids.
    + intros Hu'. by apply child_only_spec in Hu' as [? _].
  - apply NoDup_app. split; [apply NoDup_btree_set|]. split; [|apply child_only_NoDup].
    intros u Hu Hu'. rewrite elem_of_btree_set in Hu. by apply child_only_spec in Hu' as [_ ?].
Qed.
End projected.

(** The projection the SDK adapter builds from the local memberships, translated for the
    reducer, has every user once, in the list of its membership, with no pending invite,
    provided the joined and the invited members it was given are different users. *)
Theorem built_projections_are_well_formed options_for space revision can_edit joined invited
    children gen :
  (forall u, u ∈ sdk_user_id <$> joined -> u ∉ sdk_user_id <$> invited) ->
  let p := state_space_members_projection
    (matrix_space_members_projection options_for space revision can_edit joined invited children)
    gen in
  NoDup (entry_user_id <$> projection_entries p)
  /\ Forall (fun e => membership e = SpaceJoined /\ invite_pending e = false) (proj_joined p)
  /\ Forall (fun e => membership e = SpaceInvited /\ invite_pending e = false) (proj_invited p)
  /\ Forall (fun e => membership e = ChildRoomOnly /\ invite_pending e = false)
      (proj_child_only p).
Proof.
  intros Hdis. pose proof (built_wf options_for space revision can_edit joined invited children
    gen Hdis) as [Hnd _ _ _]. cbv zeta. split; [exact Hnd|].
  split; [|split]; apply Forall_fmap, Forall_forall; by intros e _.
Qed.

Definition sample_member (user : string) : MatrixSpaceMemberEntry :=
  {| sdk_user_id := user; sdk_display_name := None; sdk_avatar_url := None;
     sdk_power_level := Some 0; sdk_role := Role_User; sdk_child_room_ids := [];
     sdk_role_options := [] |}.
Definition sample_lookup : ChildLookup :=
  {| lookup_room := "!c";
     lookup_members := Some ([sample_member "@c"; sample_member "@a"; sample_member "@c"], true) |}.

Lemma built_projections_are_well_formed_witness :
  let raw := matrix_space_members_projection (fun _ => []) "!s" None true [sample_member "@a"]
    [sample_member "@b"] [sample_lookup] in
  NoDup (entry_user_id <$> projection_entries (state_space_members_projection raw 1))
  /\ (entry_user_id <$> projection_entries (state_space_members_projection raw 1))
     = ["@a"; "@b"; "@c"].
Proof.
  intros raw. split; [|vm_compute; reflexivity].
  apply (built_projections_are_well_formed (fun _ => []) "!s" None true [sample_member "@a"]
    [sample_member "@b"] [sample_lookup] 1).
  intros u Hu Hu'. apply list_elem_of_singleton in Hu, Hu'. subst u. discriminate.
Defined.

(** * Roles *)

(** A role is offered for another member exactly when it is one of the levels 0, 50 and 100,
    it differs from the member's level, the member's level is finite and strictly below one's
    own, and the offered level is below one's own; it needs a confirmation exactly when it or the
    member's level is 100 or more. *)
Theorem offered_roles_are_below_own power_le own target self can_edit o :
  (forall a b, power_le a b
     = match a, b with
       | _, Power_Infinite => true
       | Power_Infinite, Power_Int _ => false
       | Power_Int x, Power_Int y => x <=? y
       end) ->
  o ∈ role_options_for_powers power_le own target self can_edit <->
  self = false /\ can_edit = true
  /\ exists current, target = Power_Int current
     /\ (own = Power_Infinite \/ exists l, own = Power_Int l /\ current < l /\ sdk_option_level o < l)
     /\ sdk_option_level o <> current
     /\ sdk_option_level o ∈ [0; 50; 100]
     /\ sdk_option_role o = matrix_room_member_role (Some (sdk_option_level o))
     /\ (sdk_option_confirm o = true <-> 100 <= current \/ 100 <= sdk_option_level o).
Proof.
  intros Hle. unfold role_options_for_powers.
  destruct self; [cbn; split; [intros []%not_elem_of_nil|naive_solver]|].
  destruct can_edit; [|cbn; split; [intros []%not_elem_of_nil|naive_solver]]. cbn [orb negb].
  destruct target as [|current]; [cbn; split; [intros []%not_elem_of_nil|naive_solver]|].
  cbn [finite_power_level]. rewrite Hle. split.
  - intros H. split; [done|]. split; [done|]. exists current. split; [done|].
    destruct (match own with Power_Infinite => false | Power_Int x => x <=? current end) eqn:E;
      [by apply not_elem_of_nil in H|].
    apply list_elem_of_fmap in H as (l & -> & Hl). cbn [sdk_option_level sdk_option_role sdk_option_confirm].
    rewrite list_elem_of_In, filter_In, andb_true_iff, negb_true_iff, Z.eqb_neq in Hl.
    rewrite <- list_elem_of_In in Hl. destruct Hl as (Hin & Hne & Hb).
    split; [|split; [done|split; [done|split; [done|]]]].
    + destruct own as [|x]; [by left|right]. exists x. cbn in Hb. split; [done|]. lia.
    + rewrite orb_true_iff, !Z.leb_le. done.
  - intros (_ & _ & c & [= <-] & Hown & Hne & Hin & Hr & Hc).
    assert (E : match own with Power_Infinite => false | Power_Int x => x <=? current end = false)
      by (destruct Hown as [->|(x & -> & ? & ?)]; [done|lia]).
    rewrite E. apply list_elem_of_fmap. exists (sdk_option_level o). split.
    + destruct o as [l r b]. cbn in *. f_equal; [done|].
      apply eq_bool_prop_intro. rewrite !Is_true_true, orb_true_iff, !Z.leb_le. done.
    + rewrite list_elem_of_In, filter_In, andb_true_iff, negb_true_iff, Z.eqb_neq.
      rewrite <- list_elem_of_In. split; [done|]. split; [done|].
      destruct Hown as [->|(x & -> & ? & ?)]; [done|]. cbn. lia.
Qed.

Definition sample_power_le (a b : UserPowerLevel) : bool :=
  match a, b with
  | _, Power_Infinite => true
  | Power_Infinite, Power_Int _ => false
  | Power_Int x, Power_Int y => x <=? y
  end.
Lemma offered_roles_are_below_own_witness :
  exists current, Power_Int 0 = Power_Int current
  /\ (Power_Int 100 = Power_Infinite \/ exists l, Power_Int 100 = Power_Int l /\ current < l /\ 50 < l).
Proof.
  assert (H : {| sdk_option_level := 50; sdk_option_role := Role_Moderator; sdk_option_confirm := false |}
    ∈ role_options_for_powers sample_power_le (Power_Int 100) (Power_Int 0) false true)
    by (vm_compute; left).
  apply (offered_roles_are_below_own sample_power_le) in H; [|reflexivity].
  destruct H as (_ & _ & c & Hc & Ho & _). exists c. split; [exact Hc|exact Ho].
Defined.
