(* ===== verification/SpaceMemberRefreshProps.v ===== *)
(** The background refresh of the space members: every lookup has a fence of its own, its
    answer is used at most once, and what a reload during a refresh does. *)

From stdpp Require Import base list strings gmap.
From Stdlib Require Import ZArith Lia.
From S2P Require Import Prelude Text AppState Profiles Rooms SpaceMembers SpaceMemberSource.
Local Open Scope string_scope.
Local Open Scope list_scope.
Local Open Scope Z_scope.
Local Set Warnings "-clear-no-such-hyp".

(** The fences of the lookups a step starts. *)
Definition started (out : list RoomOutput) : list SpaceMemberRefreshFence :=
  omap (fun o => match o with SpawnLookup f _ _ => Some f | _ => None end) out.
(** The fence whose answer a step used. *)
Definition used (a : RoomActor) (m : RoomMessage) : list SpaceMemberRefreshFence :=
  match m, (room_actor_step a m).2 with
  | Message_Refreshed f _ _ _, ReduceBackground _ _ _ _ _ :: _ => [f]
  | _, _ => []
  end.
Fixpoint all_used (a : RoomActor) (msgs : list RoomMessage) : list SpaceMemberRefreshFence :=
  match msgs with
  | [] => []
  | m :: msgs => used a m ++ all_used (room_actor_step a m).1 msgs
  end.

Lemma next_generation_succ g : 0 <= g < U64_MAX -> next_generation g = g + 1.
Proof. intros H. unfold next_generation. rewrite u64_wrapping_add_small; lia. Qed.

(** * Fences are fresh *)

(** The fences of earlier demands are older than [epoch], those of the present one have a
    smaller refresh number. *)
Record fenced (a : RoomActor) (past : list SpaceMemberRefreshFence) (epoch : Z) : Prop := {
  fenced_past : forall f, f ∈ past ->
    fence_demand f <= space_member_demand_generation a
    /\ (fence_demand f < epoch \/ fence_refresh f <= space_member_refresh_sequence a);
  fenced_demand : forall d, space_member_demand a = Some d ->
    epoch <= demand_serial d <= space_member_demand_generation a;
  fenced_epoch : epoch <= space_member_demand_generation a;
  fenced_sequence : 0 <= space_member_refresh_sequence a;
  fenced_generation : 0 <= space_member_demand_generation a }.

(** The answer waited for belongs to a lookup that was started and not used. *)
Record ledger (a : RoomActor) (past done_ : list SpaceMemberRefreshFence) : Prop := {
  ledger_past : NoDup past;
  ledger_done : NoDup done_;
  ledger_subset : forall f, f ∈ done_ -> f ∈ past;
  ledger_flight : forall f, space_member_refresh_in_flight a = Some f -> f ∈ past /\ f ∉ done_ }.

Definition tracked (a : RoomActor) (past done_ : list SpaceMemberRefreshFence) : Prop :=
  (exists epoch, fenced a past epoch) /\ ledger a past done_.

Lemma tracked_clear a past done_ :
  space_member_demand_generation a < U64_MAX -> tracked a past done_ ->
  tracked (clear_space_member_demand a) past done_.
Proof.
  intros Hmax [[e [Hp Hd He Hs Hg]] [Hnd Hdn Hsub _]].
  assert (Hn := next_generation_succ (space_member_demand_generation a) ltac:(lia)).
  split; [exists (space_member_demand_generation a + 1)|by constructor].
  constructor; cbn; try rewrite Hn; try lia.
  - intros f Hf. destruct (Hp f Hf). split; lia.
  - done.
Qed.

Lemma tracked_install a past done_ space gen children :
  space_member_demand_generation a < U64_MAX -> tracked a past done_ ->
  tracked (install_space_member_demand a space gen children) past done_.
Proof.
  intros Hmax [[e [Hp Hd He Hs Hg]] [Hnd Hdn Hsub Hfl]].
  assert (Hn := next_generation_succ (space_member_demand_generation a) ltac:(lia)).
  split; [exists e|by constructor].
  constructor; cbn; try rewrite Hn; try lia.
  - intros f Hf. destruct (Hp f Hf). split; lia.
  - intros d [= <-]. cbn. lia.
Qed.

Lemma tracked_pending a past done_ b :
  tracked a past done_ -> tracked (a <| space_member_refresh_pending := b |>) past done_.
Proof. by intros [[e []] []]; split; [exists e; constructor|constructor]. Qed.

Lemma tracked_landed a past done_ f :
  space_member_refresh_in_flight a = Some f -> tracked a past done_ ->
  tracked (a <| space_member_refresh_in_flight := None |>
             <| space_member_refresh_pending := false |>) past (done_ ++ [f]).
Proof.
  intros Hf [[e []] [Hnd Hdn Hsub Hfl]]. destruct (Hfl _ Hf) as [Hin Hnot].
  split; [exists e; by constructor|]. constructor; [done| | |done].
  - apply NoDup_app. split; [done|]. split; [|apply NoDup_singleton].
    intros g Hg Hg'%list_elem_of_singleton. by subst.
  - intros g [Hg| ->%list_elem_of_singleton]%elem_of_app; [by apply Hsub|done].
Qed.

Lemma tracked_forget a past done_ :
  tracked a past done_ ->
  tracked (a <| space_member_refresh_in_flight := None |>
             <| space_member_refresh_pending := false |>) past done_.
Proof. by intros [[e []] []]; split; [exists e; constructor|constructor]. Qed.

Lemma tracked_start a past done_ d :
  space_member_refresh_sequence a < U64_MAX -> space_member_demand a = Some d ->
  tracked a past done_ ->
  let '(a', out) := start_space_member_refresh a d in
  tracked a' (past ++ started out) done_
  /\ space_member_demand_generation a' = space_member_demand_generation a
  /\ space_member_refresh_sequence a' <= space_member_refresh_sequence a + 1.
Proof.
  intros Hmax Hd Ht. pose proof Ht as [[e [Hp Hde He Hs Hg]] [Hnd Hdn Hsub Hfl]].
  unfold start_space_member_refresh. destruct (has_session a); cbn [negb started omap].
  2: { change (started []) with (@nil SpaceMemberRefreshFence). rewrite app_nil_r. split; [exact Ht|lia]. }
  assert (Hn := next_generation_succ (space_member_refresh_sequence a) ltac:(lia)).
  set (f := {| fence_session := _; fence_demand := _; fence_refresh := _ |}).
  assert (Hfr : fence_refresh f = space_member_refresh_sequence a + 1) by exact Hn.
  assert (Hfd : fence_demand f = demand_serial d) by done.
  destruct (Hde _ Hd) as [Hlo Hhi].
  assert (Hfresh : f ∉ past).
  { intros Hin. destruct (Hp _ Hin) as [_ [H|H]]; lia. }
  split; [|cbn; rewrite Hn; lia]. split.
  - exists e. constructor; cbn; try rewrite Hn; try lia; [|intros d' Hd'; by apply Hde].
    intros g [Hin| ->%list_elem_of_singleton]%elem_of_app; [|lia].
    destruct (Hp _ Hin) as [? [?|?]]; lia.
  - constructor; cbn.
    + apply NoDup_app. split; [done|]. split; [|apply NoDup_singleton].
      intros g Hin Hin'%list_elem_of_singleton. by subst.
    + done.
    + intros g Hin. apply elem_of_app. left. by apply Hsub.
    + intros g [= <-]. split; [apply elem_of_app; right; by left|]. intros Hin. by apply Hfresh, Hsub.
Qed.

Lemma tracked_ext a a' past done_ :
  space_member_demand a' = space_member_demand a ->
  space_member_demand_generation a' = space_member_demand_generation a ->
  space_member_refresh_sequence a' = space_member_refresh_sequence a ->
  space_member_refresh_in_flight a' = space_member_refresh_in_flight a ->
  tracked a past done_ -> tracked a' past done_.
Proof.
  intros Hd Hg Hs Hf [[e []] []]. split; [exists e|]; constructor; rewrite ?Hd, ?Hg, ?Hs, ?Hf; done.
Qed.

(** How far one step moves the two counters. *)
Definition advances (a a' : RoomActor) : Prop :=
  space_member_demand_generation a' <= space_member_demand_generation a + 2
  /\ space_member_refresh_sequence a' <= space_member_refresh_sequence a + 1.

Definition small (a : RoomActor) : Prop :=
  0 <= space_member_demand_generation a /\ space_member_demand_generation a + 2 < U64_MAX
  /\ 0 <= space_member_refresh_sequence a /\ space_member_refresh_sequence a + 1 < U64_MAX.

Lemma load_tracked a past done_ r space gen result :
  small a -> tracked a past done_ ->
  let '(a', out) := handle_load_space_members a r space gen result in
  tracked a' (past ++ started out) done_ /\ advances a a'.
Proof.
  intros (Hg0 & Hg & Hs0 & Hs) Ht. unfold handle_load_space_members.
  set (a1 := if should_clear_space_member_demand _ _ _ then _ else a).
  assert (H1 : tracked a1 past done_
    /\ space_member_demand_generation a1 <= space_member_demand_generation a + 1
    /\ space_member_demand_generation a1 < U64_MAX
    /\ 0 <= space_member_demand_generation a1
    /\ space_member_refresh_sequence a1 <= space_member_refresh_sequence a + 1).
  { subst a1. case_match; [|split; [done|lia]]. split; [apply tracked_clear; [lia|done]|].
    cbn. rewrite next_generation_succ; lia. }
  clearbody a1. destruct H1 as (Ht1 & Hle & Hlt & H0 & Hsq).
  assert (Hnone : forall o : RoomOutput, started [o] = [] -> past ++ started [o] = past)
    by (intros o ->; apply app_nil_r).
  destruct (has_session a1); cbn [negb]; [|rewrite Hnone by done; split; [done|split; lia]].
  destruct result as [raw|]; rewrite Hnone by done; [|split; [done|split; lia]].
  split; [apply tracked_install; [lia|done]|]. unfold advances. cbn.
  rewrite next_generation_succ; lia.
Qed.

Lemma changed_tracked a past done_ updated :
  small a -> tracked a past done_ ->
  let '(a', out) := handle_space_membership_changed a updated in
  tracked a' (past ++ started out) done_ /\ advances a a'.
Proof.
  intros (Hg0 & Hg & Hs0 & Hs) Ht. unfold handle_space_membership_changed.
  assert (Hsame : tracked a (past ++ started []) done_ /\ advances a a)
    by (change (started []) with (@nil SpaceMemberRefreshFence); rewrite app_nil_r;
        split; [done|split; lia]).
  destruct (space_member_demand a) as [d|] eqn:Ed; [|done].
  destruct (negb (space_members_update_affects_demand _ _ _)); [done|].
  destruct (space_member_refresh_in_flight a) eqn:Ef.
  - destruct Hsame as [H1 H2]. split; [by apply tracked_pending|exact H2].
  - pose proof (tracked_start a past done_ d ltac:(lia) Ed Ht) as H.
    destruct (start_space_member_refresh a d) as [a' out]. destruct H as (H1 & H2 & H3).
    split; [done|split; lia].
Qed.

Lemma refreshed_tracked a past done_ f space gen result :
  small a -> tracked a past done_ ->
  let '(a', out) := handle_space_members_projection_refreshed a f space gen result in
  tracked a' (past ++ started out) (done_ ++ used a (Message_Refreshed f space gen result))
  /\ advances a a'.
Proof.
  intros (Hg0 & Hg & Hs0 & Hs) Ht. unfold used. cbn [room_actor_step].
  unfold handle_space_members_projection_refreshed.
  assert (Hsame : tracked a (past ++ started []) (done_ ++ []) /\ advances a a)
    by (change (started []) with (@nil SpaceMemberRefreshFence); rewrite !app_nil_r;
        split; [done|split; lia]).
  destruct (space_member_demand a) as [d|] eqn:Ed; [|done].
  destruct (space_member_refresh_fence_is_current _ _ _ _ _ _ _ _) eqn:Ec; cbn [negb]; [|done].
  unfold space_member_refresh_fence_is_current in Ec.
  rewrite !andb_true_iff, bool_decide_eq_true in Ec. destruct Ec as [[[Ef _] _] _].
  pose proof (tracked_landed _ _ _ _ Ef Ht) as Hl. pose proof (tracked_forget _ _ _ Ht) as Hfo.
  set (a1 := a <| space_member_refresh_in_flight := None |> <| space_member_refresh_pending := false |>) in *.
  assert (Hg1 : space_member_demand_generation a1 = space_member_demand_generation a) by done.
  assert (Hs1 : space_member_refresh_sequence a1 = space_member_refresh_sequence a) by done.
  assert (Hd1 : space_member_demand a1 = Some d) by done.
  clearbody a1. destruct result as [raw|].
  - set (bg := ReduceBackground _ _ _ _ _).
    pose proof (tracked_install a1 past (done_ ++ [f]) space gen (sdk_scope raw) ltac:(lia) Hl) as Hi.
    set (a2 := install_space_member_demand a1 space gen (sdk_scope raw)) in *.
    assert (Hg2 : space_member_demand_generation a2 = space_member_demand_generation a + 1)
      by (cbn; rewrite next_generation_succ; lia).
    assert (Hs2 : space_member_refresh_sequence a2 = space_member_refresh_sequence a) by done.
    clearbody a2. destruct (space_member_refresh_pending a); [|].
    2: { cbn. rewrite app_nil_r. split; [done|split; lia]. }
    destruct (space_member_demand a2) as [d2|] eqn:Ed2;
      [|cbn; rewrite app_nil_r; split; [done|split; lia]].
    pose proof (tracked_start a2 past (done_ ++ [f]) d2 ltac:(lia) Ed2 Hi) as H.
    destruct (start_space_member_refresh a2 d2) as [a3 more]. destruct H as (H1 & H2 & H3).
    cbn. split; [exact H1|split; lia].
  - destruct (space_member_refresh_pending a); cbn [fst snd].
    2: { rewrite !app_nil_r. split; [done|split; lia]. }
    rewrite Hd1. pose proof (tracked_start a1 past done_ d ltac:(lia) Hd1 Hfo) as H.
    destruct (start_space_member_refresh a1 d) as [a3 more] eqn:Es. destruct H as (H1 & H2 & H3).
    assert (Hmore : match more with ReduceBackground _ _ _ _ _ :: _ => [f] | _ => [] end = []).
    { unfold start_space_member_refresh in Es. destruct (negb (has_session a1)); by injection Es as <- <-. }
    cbn. rewrite Hmore, app_nil_r. split; [exact H1|split; lia].
Qed.

Lemma step_tracked a past done_ m :
  small a -> tracked a past done_ ->
  tracked (room_actor_step a m).1 (past ++ started (room_actor_step a m).2) (done_ ++ used a m)
  /\ advances a (room_actor_step a m).1.
Proof.
  intros Hsm Ht. destruct m.
  - cbn [room_actor_step used]. rewrite app_nil_r.
    pose proof (load_tracked a past done_ request_id space gen result Hsm Ht) as H.
    by destruct (handle_load_space_members a request_id space gen result).
  - cbn [room_actor_step used]. rewrite app_nil_r.
    pose proof (changed_tracked a past done_ updated Hsm Ht) as H.
    by destruct (handle_space_membership_changed a updated).
  - pose proof (refreshed_tracked a past done_ fence space gen result Hsm Ht) as H.
    cbn [room_actor_step]. by destruct (handle_space_members_projection_refreshed a fence space gen result).
  - cbn [used fst snd room_actor_step]. change (started []) with (@nil SpaceMemberRefreshFence).
    rewrite !app_nil_r. destruct Hsm as (Hg0 & Hg & Hs0 & Hs). split.
    + eapply (tracked_ext (clear_space_member_demand
        (a <| space_member_session_generation ::= next_generation |>))); [done..|].
      apply tracked_clear; [cbn; lia|]. by eapply tracked_ext; [..|exact Ht].
    + unfold advances. cbn. rewrite next_generation_succ; lia.
Qed.

Lemma started_app out1 out2 : started (out1 ++ out2) = started out1 ++ started out2.
Proof. apply omap_app. Qed.

Lemma run_tracked msgs a past done_ :
  tracked a past done_ ->
  space_member_demand_generation a + 2 * Z.of_nat (length msgs) + 2 < U64_MAX ->
  space_member_refresh_sequence a + Z.of_nat (length msgs) + 1 < U64_MAX ->
  tracked (run room_actor_step a msgs).1 (past ++ started (run room_actor_step a msgs).2)
    (done_ ++ all_used a msgs).
Proof.
  revert a past done_. induction msgs as [|m msgs IH]; intros a past done_ Ht Hg Hs.
  - cbn. change (started []) with (@nil SpaceMemberRefreshFence). by rewrite !app_nil_r.
  - cbn [length] in Hg, Hs. pose proof Ht as [[e Hf] _].
    assert (Hsm : small a)
      by (pose proof (fenced_sequence _ _ _ Hf); pose proof (fenced_generation _ _ _ Hf);
          unfold small; lia).
    destruct (step_tracked a past done_ m Hsm Ht) as [H1 [Hg1 Hs1]].
    rewrite run_cons, run_effects_cons, started_app. cbn [all_used].
    rewrite !app_assoc. apply IH; [done|lia|lia].
Qed.

(** C18: In every run of the room actor, whatever answers arrive, every background lookup of the
    space members is started with a fence of its own, the answer of a lookup is used at most
    once, and only answers of started lookups are used. *)
Theorem each_lookup_is_used_once msgs :
  2 * Z.of_nat (length msgs) + 2 < U64_MAX ->
  NoDup (started (run room_actor_step RoomActor_new msgs).2)
  /\ NoDup (all_used RoomActor_new msgs)
  /\ (forall f, f ∈ all_used RoomActor_new msgs ->
      f ∈ started (run room_actor_step RoomActor_new msgs).2).
Proof.
  intros Hlen.
  assert (H0 : tracked RoomActor_new [] []).
  { split; [exists 0; constructor; cbn; try lia; try done|constructor; try constructor; try done].
    intros f Hf. by apply not_elem_of_nil in Hf. }
  pose proof (run_tracked msgs _ _ _ H0) as [_ [Hnd Hdn Hsub _]]; [cbn; lia..|].
  split; [exact Hnd|]. split; [exact Hdn|exact Hsub].
Qed.

Definition sample_raw : MatrixSpaceMembersProjection :=
  matrix_space_members_projection (fun _ => []) "!s" None true [] [] [].
Definition sample_fence : SpaceMemberRefreshFence :=
  {| fence_session := 1; fence_demand := 2; fence_refresh := 1 |}.
Definition refresh_run : list RoomMessage :=
  [Message_SessionReset true; Message_Load 1 "!s" 1 (Some sample_raw); Message_MembershipChanged None;
   Message_MembershipChanged None; Message_Refreshed sample_fence "!s" 1 (Some sample_raw);
   Message_Refreshed sample_fence "!s" 1 (Some sample_raw)].
Example refresh_run_fences :
  started (run room_actor_step RoomActor_new refresh_run).2
  = [sample_fence; {| fence_session := 1; fence_demand := 3; fence_refresh := 2 |}]
  /\ all_used RoomActor_new refresh_run = [sample_fence].
Proof. split; vm_compute; reflexivity. Qed.

Lemma each_lookup_is_used_once_witness :
  NoDup (started (run room_actor_step RoomActor_new refresh_run).2)
  /\ length (started (run room_actor_step RoomActor_new refresh_run).2) = 2%nat.
Proof.
  split; [|vm_compute; reflexivity].
  apply (each_lookup_is_used_once refresh_run). vm_compute. reflexivity.
Defined.

(** * A reload during a refresh *)

(** Loads stay with the demanded space; the session stays. *)
Definition same_place (space : string) (gen : Z) (m : RoomMessage) : Prop :=
  match m with
  | Message_Load _ s g _ => s = space /\ g = gen
  | Message_MembershipChanged _ | Message_Refreshed _ _ _ _ => True
  | Message_SessionReset _ => False
  end.

(** The lookup in flight was started for an older demand. *)
Definition stranded (space : string) (gen : Z) (f : SpaceMemberRefreshFence) (a : RoomActor) : Prop :=
  space_member_refresh_in_flight a = Some f
  /\ exists d, space_member_demand a = Some d /\ demand_space_id d = space
     /\ demand_generation d = gen /\ fence_demand f < demand_serial d
     /\ demand_serial d <= space_member_demand_generation a
     /\ 0 <= space_member_demand_generation a.

Definition refresh_output (o : RoomOutput) : Prop :=
  match o with SpawnLookup _ _ _ | ReduceBackground _ _ _ _ _ => True | _ => False end.

Lemma stranded_step space gen f a m :
  stranded space gen f a -> same_place space gen m -> space_member_demand_generation a < U64_MAX ->
  stranded space gen f (room_actor_step a m).1
  /\ Forall (fun o => ~ refresh_output o) (room_actor_step a m).2
  /\ space_member_demand_generation (room_actor_step a m).1
     <= space_member_demand_generation a + 1.
Proof.
  intros (Hf & d & Hd & Hsp & Hgn & Hlt & Hle & H0) Hm Hmax. destruct m; cbn [room_actor_step].
  - destruct Hm as [-> ->]. unfold handle_load_space_members, should_clear_space_member_demand.
    rewrite Hd, Hsp, Hgn, String.eqb_refl, Z.eqb_refl. cbn [negb orb].
    assert (Hs : stranded space gen f a) by (split; [done|]; exists d; done).
    assert (Hn : forall r s g, Forall (fun o => ~ refresh_output o) [ReduceLoadFailed r s g])
      by (intros; apply Forall_singleton; by intros []).
    destruct (has_session a); cbn [negb fst snd]; [|split; [exact Hs|split; [apply Hn|lia]]].
    destruct result as [raw|]; [|split; [exact Hs|split; [apply Hn|cbn; lia]]].
    split; [|split; [apply Forall_singleton; by intros []|cbn; rewrite next_generation_succ; lia]].
    split; [done|]. eexists. split; [done|]. cbn.
    rewrite next_generation_succ by lia. split_and!; try done; lia.
  - unfold handle_space_membership_changed. rewrite Hd, Hf.
    assert (Hs : stranded space gen f a) by (split; [done|]; exists d; done).
    destruct (negb _); cbn; split_and!; try done; lia.
  - unfold handle_space_members_projection_refreshed. rewrite Hd, Hf.
    unfold space_member_refresh_fence_is_current.
    assert (Hs : stranded space gen f a) by (split; [done|]; exists d; done).
    assert (E : bool_decide (Some f = Some fence) && (demand_serial d =? fence_demand fence) = false).
    { case_bool_decide as E; [|done]. injection E as <-. cbn. lia. }
    replace (_ && _ && _ && _) with false.
    + cbn. split; [done|split; [done|lia]].
    + destruct (bool_decide (Some f = Some fence)), (demand_serial d =? fence_demand fence);
        try done; by rewrite ?andb_false_r.
  - done.
Qed.

Lemma reload_strands_the_refresh_ok msgs a space gen f :
  stranded space gen f a -> Forall (same_place space gen) msgs ->
  space_member_demand_generation a + Z.of_nat (length msgs) < U64_MAX ->
  stranded space gen f (run room_actor_step a msgs).1
  /\ Forall (fun o => ~ refresh_output o) (run room_actor_step a msgs).2.
Proof.
  revert a. induction msgs as [|m msgs IH]; intros a Ha Hm Hlen; [by split|].
  apply Forall_cons in Hm as [Hm Hms]. cbn [length] in Hlen.
  destruct (stranded_step space gen f a m Ha Hm ltac:(lia)) as (H1 & H2 & H3).
  rewrite run_cons, run_effects_cons. destruct (IH _ H1 Hms ltac:(lia)) as [H4 H5].
  split; [exact H4|]. by apply Forall_app.
Qed.

(** When an explicit load of the demanded space succeeds while a background lookup is in
    flight, that lookup's answer is refused as stale but stays in flight: until the space or the
    session changes, no membership change starts another lookup and no answer updates the lists. *)
Theorem reload_strands_the_refresh msgs a d f r raw :
  has_session a = true -> space_member_demand a = Some d ->
  space_member_refresh_in_flight a = Some f ->
  fence_demand f <= space_member_demand_generation a -> 0 <= space_member_demand_generation a ->
  Forall (same_place (demand_space_id d) (demand_generation d)) msgs ->
  space_member_demand_generation a + Z.of_nat (length msgs) + 1 < U64_MAX ->
  let loaded := (room_actor_step a
    (Message_Load r (demand_space_id d) (demand_generation d) (Some raw))).1 in
  Forall (fun o => ~ refresh_output o) (run room_actor_step loaded msgs).2
  /\ space_member_refresh_in_flight (run room_actor_step loaded msgs).1 = Some f.
Proof.
  intros Hses Hd Hf Hle H0 Hm Hlen loaded.
  assert (Hl : stranded (demand_space_id d) (demand_generation d) f loaded
    /\ space_member_demand_generation loaded = space_member_demand_generation a + 1).
  { subst loaded. cbn [room_actor_step]. unfold handle_load_space_members, should_clear_space_member_demand.
    rewrite Hd, String.eqb_refl, Z.eqb_refl. cbn [negb orb]. rewrite Hses. cbn [negb fst].
    split; [|cbn; rewrite next_generation_succ; lia]. split; [exact Hf|]. eexists.
    split; [reflexivity|]. cbn. rewrite next_generation_succ by lia. split_and!; try done; lia. }
  destruct Hl as [Hl Hg].
  destruct (reload_strands_the_refresh_ok msgs loaded _ _ f Hl Hm ltac:(lia)) as [[H1 _] H2].
  by split.
Qed.

Definition refreshing : RoomActor :=
  (run room_actor_step RoomActor_new
     [Message_SessionReset true; Message_Load 1 "!s" 1 (Some sample_raw);
      Message_MembershipChanged None]).1.
Definition later_messages : list RoomMessage :=
  [Message_Refreshed sample_fence "!s" 1 (Some sample_raw); Message_MembershipChanged None;
   Message_MembershipChanged None].
Lemma reload_strands_the_refresh_witness :
  exists d, space_member_demand refreshing = Some d
  /\ space_member_refresh_in_flight
       (run room_actor_step
          (room_actor_step refreshing
             (Message_Load 2 (demand_space_id d) (demand_generation d) (Some sample_raw))).1
          later_messages).1 = Some sample_fence.
Proof.
  eexists. split; [reflexivity|].
  apply (reload_strands_the_refresh later_messages refreshing _ sample_fence 2 sample_raw);
    [reflexivity|reflexivity|reflexivity|vm_compute; discriminate|vm_compute; discriminate
    |repeat constructor|vm_compute; reflexivity].
Defined.
