(* ===== verification/AttentionProps.v ===== *)
(** Desktop attention: when an alert is raised, how long it keeps its identity, and what the
    badge counts. *)

From stdpp Require Import base list strings gmap.
From Stdlib Require Import ZArith Lia.
From S2P Require Import Prelude Text AppState Delivery LocaleProfile Profiles LiveSignals Rooms NativeAttention SpaceMembers People AttentionActions.
Local Open Scope string_scope.
Local Open Scope list_scope.
Local Open Scope Z_scope.
Local Set Warnings "-clear-no-such-hyp".

(** * The loop over the rooms *)

(** A room the badge counts, and one that can also raise an alert. *)
Definition counted (input : NativeAttentionProjectionInput) (room : RoomSummary) : bool :=
  negb (room_is_silenced input room) && negb (is_low_priority room).
Definition eligible (input : NativeAttentionProjectionInput) (room : RoomSummary) : bool :=
  counted input room && negb (ignored_user_dm input room).

(** The specification of the loop: each room once, the first entry of its id. *)
Definition distinct_rooms (input : NativeAttentionProjectionInput) : list RoomSummary :=
  retain_first room_id ∅ (in_rooms input).
Definition badge_total (rooms : list RoomSummary) : Z :=
  foldr (fun room n => room_activity_unread_count room + n) 0 rooms.

Section loop.
Context (input : NativeAttentionProjectionInput) (live preview : option string) (require : bool).

Lemma project_room_cases t room :
  project_room input live preview require t room
  = if bool_decide (room_id room ∈ t_seen t) then t <| t_excluded ::= fun n => n + 1 |>
    else
      let t := t <| t_seen ::= fun seen => {[room_id room]} ∪ seen |> in
      if negb (counted input room) then t <| t_excluded ::= fun n => n + 1 |>
      else
        let t := t <| t_badge_rooms ::= fun n => n + 1 |>
                   <| t_badge ::= fun n => u64_wrapping_add n (room_activity_unread_count room) |> in
        if negb (eligible input room) then t
        else
          let t :=
            t <| t_unread ::= fun n => u64_wrapping_add n (effective_unread_count input room) |>
              <| t_notification ::=
                   fun n => u64_wrapping_add n (effective_notification_count input room) |>
              <| t_highlight ::= fun n => u64_wrapping_add n (highlight_total room) |> in
          match raised_candidate input live preview require room with
          | Some entry => t <| t_candidates ::= fun l => l ++ [entry] |>
          | None => t
          end.
Proof.
  unfold project_room, eligible, counted. case_bool_decide; [done|].
  destruct (room_is_silenced input room), (is_low_priority room); try done.
  cbn [orb negb andb]. by destruct (ignored_user_dm input room).
Qed.

Lemma loop_badge rooms t :
  0 <= t_badge t < 2 ^ 64 ->
  t_badge (foldl (project_room input live preview require) t rooms)
  = (t_badge t + badge_total (List.filter (counted input) (retain_first room_id (t_seen t) rooms)))
      mod 2 ^ 64.
Proof.
  revert t. induction rooms as [|room rooms IH]; intros t Ht.
  { cbn. rewrite Z.add_0_r. symmetry. by apply Z.mod_small. }
  cbn [foldl retain_first]. rewrite project_room_cases.
  case_bool_decide; [etrans; [apply IH; exact Ht|reflexivity]|]. cbv zeta.
  set (t1 := t <| t_seen ::= fun seen => {[room_id room]} ∪ seen |>).
  cbn [List.filter]. destruct (counted input room) eqn:Ec; cbn [negb];
    [|etrans; [apply IH; exact Ht|reflexivity]].
  set (t2 := t1 <| t_badge_rooms ::= fun n => n + 1 |>
    <| t_badge ::= fun n => u64_wrapping_add n (room_activity_unread_count room) |>).
  assert (H2 : forall t', t_badge t' = t_badge t2 -> t_seen t' = t_seen t2 ->
    t_badge (foldl (project_room input live preview require) t' rooms)
    = (t_badge t + badge_total (room :: List.filter (counted input)
         (retain_first room_id ({[room_id room]} ∪ t_seen t) rooms))) mod 2 ^ 64).
  { intros t' Hb Hs.
    assert (Hb' : t_badge t' = (t_badge t + room_activity_unread_count room) mod 2 ^ 64) by exact Hb.
    rewrite IH by (rewrite Hb'; apply Z.mod_pos_bound; lia).
    rewrite Hb', Hs. change (t_seen t2) with ({[room_id room]} ∪ t_seen t).
    cbn [badge_total foldr]. rewrite Zplus_mod_idemp_l. f_equal. unfold badge_total. lia. }
  destruct (eligible input room); cbn [negb]; [|by apply H2].
  by destruct (raised_candidate input live preview require room); apply H2.
Qed.

Lemma loop_candidates rooms t :
  t_candidates (foldl (project_room input live preview require) t rooms)
  = t_candidates t ++ omap (raised_candidate input live preview require)
      (List.filter (eligible input) (retain_first room_id (t_seen t) rooms)).
Proof.
  revert t. induction rooms as [|room rooms IH]; intros t.
  { cbn. by rewrite app_nil_r. }
  cbn [foldl retain_first]. rewrite project_room_cases.
  case_bool_decide; [etrans; [apply IH|reflexivity]|]. cbv zeta.
  assert (Hle : eligible input room = true -> counted input room = true)
    by (unfold eligible; by intros [? _]%andb_true_iff).
  cbn [List.filter]. destruct (counted input room) eqn:Ec; cbn [negb].
  2: { destruct (eligible input room); [by specialize (Hle eq_refl)|]. by rewrite IH. }
  destruct (eligible input room); cbn [negb]; [|by rewrite IH].
  cbn [omap list_omap]. destruct (raised_candidate input live preview require room); rewrite IH; cbn;
    [by rewrite <- app_assoc|done].
Qed.

Lemma raised_spec room entry :
  raised_candidate input live preview require room = Some entry ->
  entry_room entry = room /\ room_activity_unread_count room <> 0
  /\ room_mode input room <> Mode_Mentions /\ (require = true -> live = Some (room_id room))
  /\ has_usable_latest_event room = true.
Proof.
  unfold raised_candidate. destruct (_ || _) eqn:E; [done|].
  rewrite !orb_false_iff in E. destruct E as [[[E1 E2] E3] E4].
  destruct (room_attention_summary _ _ _ _ _); [|done]. intros [= <-].
  apply Z.eqb_neq in E1. apply bool_decide_eq_false in E2. apply negb_false_iff in E4.
  split; [done|]. split; [done|]. split; [done|]. split; [|done].
  intros ->. apply negb_false_iff, bool_decide_eq_true in E3. done.
Qed.
End loop.

(** * The projection *)

Section projection.
Context (graphemes : string -> list string) (input : NativeAttentionProjectionInput)
  (live preview : option string) (require : bool).
Let p := native_attention_projection_from_rooms_with_live_room graphemes input live preview require.
Let raised := omap (raised_candidate input live preview require)
                (List.filter (eligible input) (distinct_rooms input)).

Lemma projection_cases :
  candidate (summary (proj_state p)) = None /\ notification (proj_state p) = None
  \/ exists entry payload, entry ∈ raised
     /\ native_attention_suppression_reason input entry = None
     /\ candidate (summary (proj_state p)) = Some (entry_candidate entry)
     /\ notification (proj_state p) = Some payload
     /\ target_room_id (target payload) = room_id (entry_room entry).
Proof.
  subst p. unfold native_attention_projection_from_rooms_with_live_room. cbn.
  destruct (head _) as [entry|] eqn:Eh; [|by left]. cbn.
  destruct (native_attention_suppression_reason input entry) eqn:Er; [by left|]. right.
  exists entry. eexists. split; [|done].
  assert (Hin : entry ∈ sort_by (not_gt candidate_cmp)
    (t_candidates (foldl (project_room input live preview require) no_totals (in_rooms input)))).
  { destruct (sort_by _ _); [done|]. injection Eh as ->. by left. }
  rewrite elem_of_sort_by, loop_candidates in Hin. exact Hin.
Qed.

Lemma projection_badge :
  badge_count (summary (proj_state p))
  = match cap_badge (in_capabilities input) with
    | Cap_Unavailable => 0
    | _ => badge_total (List.filter (counted input) (distinct_rooms input)) mod 2 ^ 64
    end.
Proof.
  subst p. cbn. rewrite loop_badge by (cbn; lia). cbn [t_badge t_seen no_totals].
  by destruct (cap_badge (in_capabilities input)).
Qed.

End projection.

Lemma retain_first_subset {A} (key : A -> string) seen l x : x ∈ retain_first key seen l -> x ∈ l.
Proof.
  revert seen. induction l as [|y l IH]; intros seen; cbn; [done|].
  case_bool_decide; [intros H'%IH; by right|].
  rewrite !elem_of_cons. intros [->|H'%IH]; [by left|by right].
Qed.

Lemma retain_first_keys {A} (key : A -> string) seen l :
  NoDup (key <$> retain_first key seen l)
  /\ (forall x, x ∈ retain_first key seen l -> key x ∉ seen).
Proof.
  revert seen. induction l as [|y l IH]; intros seen; cbn; [split; [constructor|by intros ? ?%not_elem_of_nil]|].
  case_bool_decide as Hy; [apply IH|]. destruct (IH ({[key y]} ∪ seen)) as [Hnd Hs]. cbn. split.
  - apply NoDup_cons. split; [|done]. intros (x & Heq & Hx)%list_elem_of_fmap.
    apply Hs in Hx. set_solver.
  - intros x [->|Hx]%elem_of_cons; [done|]. apply Hs in Hx. set_solver.
Qed.

Lemma eligible_spec input room :
  eligible input room = true ->
  room_mode input room <> Mode_Mute /\ low_priority (tags room) = None
  /\ ignored_user_dm input room = false.
Proof.
  unfold eligible, counted, room_is_silenced, is_low_priority.
  rewrite !andb_true_iff, !negb_true_iff, orb_false_iff, bool_decide_eq_false.
  intros [[[_ Hm] Hl] Hi]. split; [done|]. split; [|done]. by destruct (low_priority (tags room)).
Qed.

(** * Recomputation *)

Section recompute.
Context (graphemes : string -> list string).
Abbreviation recompute := (recompute_native_attention_from_rooms_for_live_room graphemes).
Abbreviation published state := (candidate (summary (native_attention state))).
Abbreviation alert state := (alert_id (summary (native_attention state))).

Definition recomputed (state : People) (obs : NativeAttentionObservationKind)
    (live preview : option string) : NativeAttentionState :=
  (mint_alert_id state (keep_published graphemes state
     (proj_state (projected_native_attention_from_rooms graphemes state obs live preview)))).2.

Lemma recompute_attention state obs live preview :
  native_attention (recompute state obs live preview).1.1 = recomputed state obs live preview.
Proof.
  unfold recompute_native_attention_from_rooms_for_live_room, recomputed.
  set (a0 := keep_published _ _ _).
  assert (Hm : native_attention (mint_alert_id state a0).1 = native_attention state)
    by (unfold mint_alert_id; repeat case_match; done).
  destruct (mint_alert_id state a0) as [state1 a]. cbn [fst snd] in *.
  destruct (bool_decide (native_attention state1 = a)) eqn:E; cbn; [|done].
  by apply bool_decide_eq_true in E.
Qed.

(** What is published before the identity is minted: a candidate the projection raised, the one
    that was published, or none; with its notification in each case. *)
Lemma kept_cases state obs live preview :
  let projected := proj_state (projected_native_attention_from_rooms graphemes state obs live preview) in
  let a := keep_published graphemes state projected in
  (candidate (summary a) = candidate (summary projected)
   /\ notification a = notification projected)
  \/ (candidate (summary projected) = None /\ candidate (summary a) = published state
      /\ notification a = notification (native_attention state)
      /\ exists id c, published_candidate state = Some (id, c)
         /\ published_room_still_holds_attention graphemes state id = true).
Proof.
  cbv zeta. set (projected := proj_state _). unfold keep_published.
  destruct (negb (is_some (candidate (summary projected)))
            && bool_decide (dispatch projected = Dispatch_Idle)) eqn:E; [|by left].
  apply andb_true_iff in E as [E _].
  destruct (published_candidate state) as [[id c]|] eqn:Ep; [|by left].
  destruct (published_room_still_holds_attention graphemes state id) eqn:Eh; [|by left].
  right. unfold published_candidate in Ep. destruct (published state) as [c'|] eqn:Ec; [|done].
  cbn in Ep. destruct (notification (native_attention state)) as [n|] eqn:En; [|done].
  cbn in Ep. injection Ep as <- <-. split; [by destruct (candidate (summary projected))|].
  split; [done|]. split; [done|]. eauto.
Qed.

Lemma mint_alert_id_cases state a :
  candidate (summary (mint_alert_id state a).2) = candidate (summary a)
  /\ notification (mint_alert_id state a).2 = notification a
  /\ (candidate (summary a) = None <-> alert_id (summary (mint_alert_id state a).2) = None).
Proof.
  unfold mint_alert_id. destruct (candidate (summary a)) eqn:Ec; cbn [is_some negb]; [|done].
  by destruct (relabelled_alert_id state a); cbn; rewrite Ec.
Qed.

(** After every recomputation an alert is published exactly when it has an identity, and
    exactly when it has a notification. *)
Theorem alerts_come_with_identity_and_text state obs live preview :
  let a := native_attention (recompute state obs live preview).1.1 in
  (candidate (summary a) = None <-> alert_id (summary a) = None)
  /\ (candidate (summary a) = None <-> notification a = None).
Proof.
  cbv zeta. rewrite recompute_attention. unfold recomputed.
  set (a0 := keep_published _ _ _). destruct (mint_alert_id_cases state a0) as (-> & -> & H).
  split; [exact H|]. subst a0.
  destruct (kept_cases state obs live preview) as [[-> ->]|(_ & -> & -> & id & c & Hp & _)].
  - destruct (projection_cases graphemes (attention_input state obs) live preview true)
      as [[H1 H2]|(e & n & _ & _ & H1 & H2 & _)].
    + unfold projected_native_attention_from_rooms, zero_badge_when_off.
      destruct (badges (settings state)); cbn in *; by rewrite ?H1, ?H2.
    + unfold projected_native_attention_from_rooms, zero_badge_when_off.
      destruct (badges (settings state)); cbn in *; by rewrite ?H1, ?H2.
  - unfold published_candidate in Hp. destruct (published state); [|done]. cbn in Hp.
    by destruct (notification (native_attention state)).
Qed.




(** * Identities over a run *)


Abbreviation sequence s := (alert_sequence (native_attention_context s)).
Definition alert_room (s : People) : option string :=
  target_room_id ∘ target <$> notification (native_attention s).



(** C19: A recomputation raises an alert only on a live observation of the alert's room, a known
    room with unread activity and a usable latest event, whose notification mode is All, which is
    neither low priority nor a conversation with an ignored user, which is not the active room of
    a focused window, and only where notifications are not unavailable; an alert that was already
    published otherwise keeps its text. *)
Theorem alerts_are_raised_only_where_wanted state obs live preview c :
  let state' := (recompute state obs live preview).1.1 in
  published state' = Some c ->
  (published state = Some c
   /\ notification (native_attention state') = notification (native_attention state))
  \/ (obs = Observation_Live
      /\ exists room n, room ∈ rooms state /\ live = Some (room_id room)
         /\ notification (native_attention state') = Some n
         /\ target_room_id (target n) = room_id room
         /\ default Mode_All (notification_mode <$> room_notification_settings state !! room_id room)
            = Mode_All
         /\ low_priority (tags room) = None
         /\ (is_dm room = true -> forall user, user ∈ dm_user_ids room ->
             user ∉ ignored_user_ids (profile state))
         /\ room_activity_unread_count room <> 0
         /\ has_usable_latest_event room = true
         /\ ~ (window_focused (native_attention_context state) = true
               /\ active_room_id state = Some (room_id room))
         /\ cap_notifications (capabilities (summary (native_attention state))) <> Cap_Unavailable).
Proof.
  intros state' Hc. subst state'. rewrite recompute_attention in *. unfold recomputed in *.
  set (a0 := keep_published _ _ _) in *. destruct (mint_alert_id_cases state a0) as (Hca & Hno & _).
  rewrite Hca in Hc. rewrite Hno.
  destruct (kept_cases state obs live preview) as [[H1 H2]|(_ & H1 & H2 & _)].
  2: { left. fold a0 in H1, H2. split; congruence. }
  right. fold a0 in H1, H2. rewrite H1 in Hc. rewrite H2.
  set (pr := proj_state _) in *.
  assert (Hpr : candidate (summary pr) = candidate (summary (proj_state
      (native_attention_projection_from_rooms_with_live_room graphemes (attention_input state obs)
         live preview true)))
    /\ notification pr = notification (proj_state
      (native_attention_projection_from_rooms_with_live_room graphemes (attention_input state obs)
         live preview true))).
  { subst pr. unfold projected_native_attention_from_rooms, zero_badge_when_off.
    by destruct (badges (settings state)). }
  destruct Hpr as [Hp1 Hp2]. clearbody pr. rewrite Hp1 in Hc. rewrite Hp2.
  destruct (projection_cases graphemes (attention_input state obs) live preview true)
    as [[H _]|(e & n & Hin & Hsup & _ & Hn & Ht)]; [congruence|].
  apply list_elem_of_omap in Hin as (room & Hroom & Hraised).
  apply raised_spec in Hraised as (<- & Hunread & Hment & Hlive & Huse).
  rewrite list_elem_of_In, filter_In, <- list_elem_of_In in Hroom. destruct Hroom as [Hroom Hel].
  apply retain_first_subset in Hroom. apply eligible_spec in Hel as (Hmute & Hlow & Hign).
  unfold native_attention_suppression_reason in Hsup. cbn [in_observation attention_input] in Hsup.
  destruct obs; try done. split; [done|]. exists (entry_room e), n.
  split; [exact Hroom|]. split; [by apply Hlive|]. split; [done|]. split; [done|].
  split; [|split; [done|split; [|split; [done|split; [done|split]]]]].
  - unfold room_mode, attention_input, attention_room_notification_modes in Hmute, Hment.
    cbn in Hmute, Hment. rewrite lookup_fmap in Hmute, Hment.
    by destruct (default Mode_All _).
  - intros Hdm user Hu Hi. unfold ignored_user_dm in Hign. rewrite Hdm in Hign. cbn in Hign.
    apply not_true_iff_false in Hign. apply Hign, existsb_exists. exists user.
    split; [by apply list_elem_of_In|]. by apply bool_decide_eq_true.
  - intros [Hf Ha]. cbn in Hsup. rewrite Hf, Ha in Hsup. by rewrite bool_decide_true in Hsup.
  - intros Hcap. cbn in Hsup. rewrite Hcap in Hsup. destruct (_ && _); [done|].
    by rewrite bool_decide_true in Hsup.
Qed.
End recompute.

(** * The badge and the delivery channel *)

(** C21: After every recomputation the badge is the sum, over the rooms that are neither muted
    nor low priority and each counted once, of their unread activity, modulo 2^64; it is zero
    when badges are switched off or unavailable. *)
Theorem badge_counts_each_room_once graphemes state obs live preview :
  let input := attention_input state obs in
  badge_count (summary (native_attention
    (recompute_native_attention_from_rooms_for_live_room graphemes state obs live preview).1.1))
  = (if badges (settings state)
     then match cap_badge (capabilities (summary (native_attention state))) with
          | Cap_Unavailable => 0
          | _ => badge_total (List.filter (counted input) (distinct_rooms input)) mod 2 ^ 64
          end
     else 0)
  /\ NoDup (room_id <$> distinct_rooms input).
Proof.
  cbv zeta. split; [|apply retain_first_keys]. rewrite recompute_attention. unfold recomputed.
  set (pr := projected_native_attention_from_rooms _ _ _ _ _).
  assert (H1 : forall s a, badge_count (summary (mint_alert_id s a).2) = badge_count (summary a))
    by (intros s a; unfold mint_alert_id; by repeat case_match).
  assert (H2 : forall s a, badge_count (summary (keep_published graphemes s a)) = badge_count (summary a)).
  { intros s a. unfold keep_published. destruct (_ && _); [|done].
    destruct (published_candidate s) as [[id c]|]; [|done].
    by destruct (published_room_still_holds_attention graphemes s id). }
  rewrite H1, H2. subst pr. unfold projected_native_attention_from_rooms, zero_badge_when_off.
  pose proof (projection_badge graphemes (attention_input state obs) live preview true) as Hb.
  set (q := native_attention_projection_from_rooms_with_live_room _ _ _ _ _) in *. clearbody q.
  by destruct (badges (settings state)).
Qed.

Lemma attention_summary_total name dm notifications highlights unread :
  unread <> 0 -> 0 <= unread ->
  exists s, room_attention_summary name dm notifications highlights unread = Some s.
Proof.
  intros H H0. unfold room_attention_summary, room_attention_kind.
  replace (unread =? 0) with false by lia. rewrite andb_false_r.
  by destruct (0 <? highlights), dm; eexists.
Qed.

Lemma attention_candidate_spec graphemes input room :
  0 <= room_activity_unread_count room ->
  match attention_room_candidate graphemes input room with
  | Some c => Delivery.cand_room_id c = room_id room
              /\ eligible input room = true /\ effective_unread_count input room <> 0
  | None => eligible input room = false \/ effective_unread_count input room = 0
  end.
Proof.
  intros H0. unfold attention_room_candidate, eligible, counted.
  destruct (room_is_silenced input room), (is_low_priority room), (ignored_user_dm input room);
    cbn [orb negb andb]; try (by left).
  destruct (Z.eqb_spec (effective_unread_count input room) 0) as [E|E]; [by right|].
  assert (He : 0 <= effective_unread_count input room)
    by (unfold effective_unread_count; case_match; [lia|done]).
  destruct (attention_summary_total (display_label room) (is_dm room)
    (effective_notification_count input room) (highlight_total room) _ E He) as [s ->]. done.
Qed.

(** The rooms the delivery channel counts are exactly the badge's rooms, less the
    conversations with ignored users and the rooms whose notification mode counts nothing, and
    each of them once. *)
Theorem delivery_counts_the_badge_rooms graphemes input id :
  Forall (fun room => 0 <= room_activity_unread_count room) (in_rooms input) ->
  (id ∈ (Delivery.cand_room_id <$> attention_room_candidates graphemes input) <->
   exists room, room ∈ distinct_rooms input /\ room_id room = id /\ counted input room = true
     /\ ignored_user_dm input room = false /\ effective_unread_count input room <> 0)
  /\ NoDup (Delivery.cand_room_id <$> attention_room_candidates graphemes input).
Proof.
  intros Hpos. unfold attention_room_candidates.
  change (retain_first room_id ∅ (in_rooms input)) with (distinct_rooms input).
  assert (Hspec : forall room, room ∈ distinct_rooms input -> 0 <= room_activity_unread_count room).
  { intros room Hr%retain_first_subset. rewrite Forall_forall in Hpos. by apply Hpos. }
  pose proof (proj1 (retain_first_keys room_id ∅ (in_rooms input))) as Hnd.
  change (retain_first room_id ∅ (in_rooms input)) with (distinct_rooms input) in Hnd.
  clear Hpos. rewrite sort_by_Permutation. split.
  - rewrite list_elem_of_fmap. setoid_rewrite list_elem_of_omap. split.
    + intros (c & -> & room & Hr & Hc).
      pose proof (attention_candidate_spec graphemes input room (Hspec _ Hr)) as H.
      rewrite Hc in H. destruct H as (-> & He & Hu). exists room. unfold eligible in He.
      apply andb_true_iff in He as [He Hi%negb_true_iff]. done.
    + intros (room & Hr & <- & Hc & Hi & Hu).
      pose proof (attention_candidate_spec graphemes input room (Hspec _ Hr)) as H.
      destruct (attention_room_candidate graphemes input room) as [c|] eqn:Ec.
      * exists c. split; [by destruct H|]. eauto.
      * unfold eligible in H. rewrite Hc, Hi in H. by destruct H.
  - assert (Hsub : (Delivery.cand_room_id <$> omap (attention_room_candidate graphemes input)
      (distinct_rooms input)) `sublist_of` (room_id <$> distinct_rooms input)).
    { revert Hspec. generalize (distinct_rooms input) as l. intros l Hl.
      induction l as [|room l IH]; [done|].
      pose proof (attention_candidate_spec graphemes input room (Hl _ ltac:(by left))) as H.
      cbn. destruct (attention_room_candidate graphemes input room) as [c|]; cbn.
      - destruct H as (-> & _). constructor. apply IH. intros r Hr. apply Hl. by right.
      - constructor. apply IH. intros r Hr. apply Hl. by right. }
    by eapply sublist_NoDup.
Qed.

(** * Concrete rooms *)

Definition sample_event : RoomLatestEventSummary :=
  {| latest_event_id := "$e"; relation_type := None; relation_event_id := None;
     latest_thread_root := None; latest_sender_id := None; latest_sender_label := None;
     latest_sender_avatar := None; preview := None; latest_message_text := None;
     latest_timestamp_ms := 1; is_redacted := false |}.
Definition sample_room (id label : string) (main threads : Z) : RoomSummary :=
  {| room_id := id; room_display_name := label; display_name_placeholder := None;
     display_label := label; original_display_label := label; display_label_placeholder := None;
     room_avatar := None; is_dm := false; dm_user_ids := [];
     tags := {| favourite := None; low_priority := None |}; unread_count := main;
     notification_count := 0; highlight_count := 0; thread_unread_count := threads;
     thread_highlight_count := 0; marked_unread := false; recency_stamp := None;
     conversation_activity := None; latest_event := Some sample_event;
     room_parent_space_ids := []; dm_space_ids := []; is_encrypted := false; joined_members := 2 |}.
Definition sample_user : SessionInfo :=
  {| homeserver := "https://h.org"; AppState.user_id := "@me:h.org"; device_id := "D";
     authentication_method := Auth_Password |}.
Definition with_rooms (rs : list RoomSummary) (state : People) : People := state <| rooms := rs |>.
Definition signed_in : People := People_default <| session := Session_Ready sample_user |>.
Definition letters (s : string) : list string := Text.chars s.
(** One unread message in room A was announced; then one arrives in B. *)
Definition announced : People :=
  (recompute_native_attention_from_rooms_for_live_room letters
     (with_rooms [sample_room "!a" "Team" 1 0; sample_room "!b" "Ops" 0 0] signed_in)
     Observation_Live (Some "!a") None).1.1.
Definition next_message : People :=
  with_rooms [sample_room "!a" "Team" 1 0; sample_room "!b" "Ops" 2 0] announced.


Lemma alerts_are_raised_only_where_wanted_witness :
  candidate (summary (native_attention signed_in)) = None
  /\ exists room, room ∈ rooms (with_rooms [sample_room "!a" "Team" 1 0] signed_in)
     /\ room_activity_unread_count room <> 0.
Proof.
  split; [reflexivity|].
  destruct (alerts_are_raised_only_where_wanted letters
    (with_rooms [sample_room "!a" "Team" 1 0] signed_in) Observation_Live (Some "!a") None
    {| NativeAttention.cand_name := "Team"; NativeAttention.cand_kind := Kind_Message;
       NativeAttention.cand_unread := 1; cand_highlights := 0 |})
    as [[H _]|(_ & room & n & Hr & _ & _ & _ & _ & _ & _ & Hu & _)].
  - vm_compute. reflexivity.
  - vm_compute in H. discriminate.
  - exists room. split; [exact Hr|exact Hu].
Defined.

Lemma delivery_counts_the_badge_rooms_witness :
  "!b" ∈ (Delivery.cand_room_id <$>
    attention_room_candidates letters (attention_input next_message Observation_Live)).
Proof.
  apply (delivery_counts_the_badge_rooms letters (attention_input next_message Observation_Live) "!b").
  - repeat constructor; vm_compute; discriminate.
  - exists (sample_room "!b" "Ops" 2 0). split; [vm_compute; right; left|].
    split; [reflexivity|]. split; [reflexivity|]. split; [reflexivity|]. vm_compute. discriminate.
Defined.

(** * Where the code falls short of what it says *)

(** A logout resets the sequence with the rest of the state, so the identities of the session before
    come back for other alerts. *)
Definition next_session : People :=
  with_rooms [sample_room "!b" "Ops" 2 0] (People_default <| session := Session_Ready sample_user |>).
Example reset_restarts_the_identities :
  let again := (recompute_native_attention_from_rooms_for_live_room letters next_session
                  Observation_Live (Some "!b") None).1.1 in
  alert_id (summary (native_attention announced)) = Some 1 /\ alert_room announced = Some "!a"
  /\ alert_id (summary (native_attention again)) = Some 1 /\ alert_room again = Some "!b".
Proof. split; [|split; [|split]]; vm_compute; reflexivity. Qed.

(** A message in another room of the same name and count is taken for the published alert: it is
    suppressed, and the published alert goes with it. *)
Definition same_looking : People :=
  with_rooms [sample_room "!a" "Team" 1 0; sample_room "!b" "Team" 1 0] announced.
Example same_looking_alert_is_lost :
  let state' := (recompute_native_attention_from_rooms_for_live_room letters same_looking
                   Observation_Live (Some "!b") None).1.1 in
  candidate (summary (native_attention announced)) <> None
  /\ candidate (summary (native_attention state')) = None
  /\ notification (native_attention state') = None
  /\ dispatch (native_attention state') = Dispatch_Suppressed Suppress_Duplicate.
Proof. cbv zeta. split; [|split; [|split]]; vm_compute; [discriminate|reflexivity..]. Qed.

(** A renamed room keeps its old name in the published alert once it has unread thread replies:
    the refresh compares the alert with the unread messages of the main timeline alone. *)
Definition announced_thread : People :=
  (recompute_native_attention_from_rooms_for_live_room letters
     (with_rooms [sample_room "!a" "Team" 1 1] signed_in) Observation_Live (Some "!a") None).1.1.
Example thread_unread_freezes_the_label :
  refresh_native_attention_candidate_display_projection
    (with_rooms [sample_room "!a" "Renamed" 1 1] announced_thread)
  = (with_rooms [sample_room "!a" "Renamed" 1 1] announced_thread, false)
  /\ (refresh_native_attention_candidate_display_projection
       (with_rooms [sample_room "!a" "Renamed" 1 0] announced)).2 = true.
Proof. split; vm_compute; reflexivity. Qed.

(** * Notification modes *)

(** What decides a room's mode: its settings and the write it waits for. *)
Definition mode_view (state : People) (id : string)
    : option RoomNotificationSettings * option (Z * RoomNotificationMode) :=
  (room_notification_settings state !! id, room_notification_awaiting_echo state !! id).

Lemma announce_modes_view to_lowercase graphemes state id :
  mode_view (announce_modes to_lowercase graphemes state).1 id = mode_view state id.
Proof.
  unfold announce_modes, recompute_native_attention_from_rooms,
    recompute_native_attention_from_rooms_for_live_room.
  set (s1 := recompute_room_list_projection to_lowercase state).
  assert (H1 : mode_view s1 id = mode_view state id) by done. clearbody s1.
  set (a0 := keep_published _ _ _).
  assert (Hm : mode_view (mint_alert_id s1 a0).1 id = mode_view s1 id)
    by (unfold mint_alert_id; repeat case_match; done).
  destruct (mint_alert_id s1 a0) as [s2 a]. cbn [fst] in Hm.
  transitivity (mode_view s2 id); [by destruct (bool_decide (native_attention s2 = a))|congruence].
Qed.

Lemma observe_mode_other acc k m id :
  k <> id -> mode_view (observe_mode acc (k, m)).1 id = mode_view acc.1 id.
Proof.
  intros Hk. destruct acc as [state changed]. unfold observe_mode, mode_view, on_mode_settings.
  repeat case_match; cbn; by rewrite ?lookup_insert_ne, ?lookup_delete_ne by done.
Qed.

Lemma observe_mode_expected acc id r m other :
  room_notification_awaiting_echo acc.1 !! id = Some (r, m) -> other <> m ->
  observe_mode acc (id, other) = acc.
Proof.
  destruct acc as [state changed]. cbn. intros -> Hne. cbn. by rewrite bool_decide_false.
Qed.

(** While a room waits for the echo of the mode that was set locally, an observation of the
    server's modes that does not carry that mode for the room changes neither the room's settings
    nor what it waits for. *)
Theorem stale_modes_are_ignored to_lowercase graphemes state gen source modes id r m :
  room_notification_awaiting_echo state !! id = Some (r, m) -> modes !! id <> Some m ->
  mode_view (handle_room_notification_modes_observed to_lowercase graphemes state gen source modes).1 id
  = mode_view state id.
Proof.
  intros Hw Hm. unfold handle_room_notification_modes_observed.
  destruct (_ || _); [done|].
  assert (H : forall l acc, (forall k x, (k, x) ∈ l -> k = id -> x <> m) ->
    room_notification_awaiting_echo acc.1 !! id = Some (r, m) ->
    mode_view (foldl observe_mode acc l).1 id = mode_view acc.1 id).
  { induction l as [|[k x] l IH]; intros acc Hl Ha; [done|]. cbn [foldl].
    destruct (decide (k = id)) as [->|Hk].
    - rewrite (observe_mode_expected acc id r m x Ha); [|by apply (Hl id x); [left|]].
      apply IH; [|done]. intros k' x' Hin. apply Hl. by right.
    - pose proof (observe_mode_other acc k x id Hk) as Ho. rewrite <- Ho.
      apply IH; [intros k' x' Hin; apply Hl; by right|].
      unfold mode_view in Ho. injection Ho as _ Ho. by rewrite Ho. }
  specialize (H (btree_iter modes) (state, false)).
  destruct (foldl observe_mode (state, false) (btree_iter modes)) as [state' changed]. cbn in H.
  assert (Hv : mode_view state' id = mode_view state id).
  { apply H; [|done]. intros k x Hin%btree_iter_elem -> ->. by apply Hm. }
  destruct changed; [by rewrite announce_modes_view|done].
Qed.

Definition muted_locally : People :=
  (handle_room_notification_mode_set (fun s => s) letters
     (with_rooms [sample_room "!a" "Team" 0 0] signed_in) 5 "!a" Mode_Mute).1.
Lemma stale_modes_are_ignored_witness :
  (notification_mode <$> (mode_view (handle_room_notification_modes_observed (fun s => s) letters
     muted_locally 0 ListSource_Cache {["!a" := Mode_All]}).1 "!a").1) = Some Mode_Mute.
Proof.
  rewrite (stale_modes_are_ignored (fun s => s) letters muted_locally 0 ListSource_Cache
    {["!a" := Mode_All]} "!a" 5 Mode_Mute); [vm_compute; reflexivity|vm_compute; reflexivity|].
  vm_compute. discriminate.
Defined.
