(* ===== verification/PeopleProps.v ===== *)
(** What is shown of people: the compact receipts of an event, and the labels after a local alias
    has been set. *)

From stdpp Require Import base list strings gmap sorting.
From Stdlib Require Import ZArith Lia.
From S2P Require Import Prelude Text AppState Profiles LiveSignals Rooms NativeAttention SpaceMembers People ProfileActions.
Local Open Scope string_scope.
Local Open Scope list_scope.
Local Open Scope Z_scope.
Local Set Warnings "-clear-no-such-hyp".

(** * Receipts *)

Section receipts.
Context (own_user_id : option string).

Definition from_other (r : LiveReadReceipt) : Prop := own_user_id <> Some (reader_user_id r).
#[local] Instance from_other_dec r : Decision (from_other r).
Proof. unfold from_other. apply _. Defined.

(** The map the loop of [normalize_receipts] builds: the newest receipt of every other user. *)
Definition newest_of (l : list LiveReadReceipt) (m : gmap string LiveReadReceipt) : Prop :=
  (forall id r, m !! id = Some r ->
     r ∈ l /\ reader_user_id r = id /\ from_other r
     /\ forall r', r' ∈ l -> reader_user_id r' = id -> receipt_time r' <= receipt_time r)
  /\ forall r, r ∈ l -> from_other r -> is_Some (m !! reader_user_id r).

Lemma newest_of_add l m r : newest_of l m -> newest_of (l ++ [r]) (add_receipt own_user_id m r).
Proof.
  intros [Hm Hl]. unfold add_receipt. set (id := reader_user_id r).
  assert (Hold : forall id' x, m !! id' = Some x -> (id' <> id \/ receipt_time r <= receipt_time x) ->
    x ∈ l ++ [r] /\ reader_user_id x = id' /\ from_other x
    /\ forall r', r' ∈ l ++ [r] -> reader_user_id r' = id' -> receipt_time r' <= receipt_time x).
  { intros id' x Hx Hid. destruct (Hm id' x Hx) as (Hin & Hxid & Ho & Hmax). split_and!; [set_solver|done..|].
    intros r' [Hr'| ->%list_elem_of_singleton]%elem_of_app Eid; [by apply Hmax|]. by destruct Hid. }
  assert (Hnew : from_other r ->
    (forall x, m !! id = Some x -> receipt_time x <= receipt_time r) ->
    newest_of (l ++ [r]) (<[id := r]> m)).
  { intros Ho Hmax. split.
    - intros id' x Hx. destruct (decide (id' = id)) as [->|Hne].
      + rewrite lookup_insert_eq in Hx. simplify_eq. split_and!; [set_solver|done..|].
        intros r' [Hr'| ->%list_elem_of_singleton]%elem_of_app Eid; [|done].
        destruct (Hl r' Hr') as [y Hy]; [unfold from_other; by rewrite Eid|].
        rewrite Eid in Hy. destruct (Hm _ _ Hy) as (_ & _ & _ & Hy').
        specialize (Hy' r' Hr' Eid). specialize (Hmax y Hy). lia.
      + rewrite lookup_insert_ne in Hx by done. apply Hold; [done|by left].
    - intros x [Hx| ->%list_elem_of_singleton]%elem_of_app Hxo; [|by rewrite lookup_insert_eq].
      destruct (decide (reader_user_id x = id)) as [->|]; [by rewrite lookup_insert_eq|].
      rewrite lookup_insert_ne by done. by apply Hl. }
  case_bool_decide as Ho.
  { split; [intros id' x Hx|intros x Hx Hxo].
    - apply Hold; [done|]. left. destruct (Hm id' x Hx) as (_ & <- & Hxo & _). congruence.
    - apply elem_of_app in Hx as [Hx|Hx]; [by apply Hl|].
      apply list_elem_of_singleton in Hx as ->. by destruct Hxo. }
  destruct (m !! id) as [x|] eqn:Ex.
  - unfold receipt_is_newer. destruct (Z.leb_spec (receipt_time x) (receipt_time r)) as [Hle|Hlt].
    + apply Hnew; [done|]. by intros y [= <-].
    + split; [intros id' y Hy|intros y Hy Hyo].
      * apply Hold; [done|]. destruct (decide (id' = id)) as [->|]; [right|by left]. simplify_eq. lia.
      * apply elem_of_app in Hy as [Hy|Hy]; [by apply Hl|].
        apply list_elem_of_singleton in Hy as ->. by exists x.
  - apply Hnew; [done|]. by intros y [=].
Qed.

Lemma newest_of_fold l : newest_of l (foldl (add_receipt own_user_id) ∅ l).
Proof.
  induction l as [|r l IH] using rev_ind; [split; [by intros ? ? [=]|set_solver]|].
  rewrite foldl_snoc. by apply newest_of_add.
Qed.

(** The receipts of other users. *)
Definition others (l : list LiveReadReceipt) : list LiveReadReceipt := filter from_other l.
Definition reader_ids (l : list LiveReadReceipt) : gset string :=
  list_to_set (reader_user_id <$> others l).

Lemma newest_of_dom l m : newest_of l m -> dom m = reader_ids l.
Proof.
  intros [Hm Hl]. apply set_eq. intros id. unfold reader_ids, others.
  rewrite elem_of_dom, elem_of_list_to_set, list_elem_of_fmap. split.
  - intros [r Hr]. destruct (Hm id r Hr) as (Hin & <- & Ho & _). exists r.
    by rewrite list_elem_of_filter.
  - intros (r & -> & [Ho Hin]%list_elem_of_filter). by apply Hl.
Qed.

End receipts.

(** ** The order of the readers *)

Lemma reader_leb_spec x y :
  reader_leb x y = true <->
  receipt_time y < receipt_time x
  \/ (receipt_time x = receipt_time y /\ String.leb (reader_user_id x) (reader_user_id y) = true).
Proof.
  unfold reader_leb, then_with, String.leb.
  destruct (Z.compare_spec (receipt_time y) (receipt_time x)) as [E|E|E].
  - destruct (String.compare _ _); naive_solver lia.
  - split; [by left|done].
  - split; [done|]. intros [?|[? _]]; lia.
Qed.
Lemma reader_leb_total x y : reader_leb x y = true \/ reader_leb y x = true.
Proof.
  rewrite !reader_leb_spec.
  destruct (string_leb_total (reader_user_id x) (reader_user_id y));
    destruct (Z.lt_total (receipt_time x) (receipt_time y)) as [?|[?|?]]; auto.
Qed.
Lemma reader_leb_trans x y z : reader_leb x y = true -> reader_leb y z = true -> reader_leb x z = true.
Proof.
  rewrite !reader_leb_spec. intros [H1|[H1 H1']] [H2|[H2 H2']]; [left; lia..|right].
  split; [lia|]. by eapply string_leb_trans.
Qed.

(** ** Compact summaries *)

Section compact.
Context (profiles : ProfileState) (relevant : option (gmap string UserProfile))
        (own_user_id : option string) (l : list LiveReadReceipt).

Definition newest_readers : list LiveReadReceipt :=
  sort_by reader_leb (btree_iter (foldl (add_receipt own_user_id) ∅ l)).*2.

Lemma newest_readers_elem r :
  r ∈ newest_readers <->
  r ∈ others own_user_id l
  /\ foldl (add_receipt own_user_id) ∅ l !! reader_user_id r = Some r.
Proof.
  unfold newest_readers. rewrite elem_of_sort_by, list_elem_of_fmap.
  destruct (newest_of_fold own_user_id l) as [Hm _]. unfold others. rewrite list_elem_of_filter. split.
  - intros ([id x] & -> & Hx%btree_iter_elem). cbn. destruct (Hm id x Hx) as (? & <- & ? & _). done.
  - intros [_ H]. exists (reader_user_id r, r). split; [done|]. by apply btree_iter_elem.
Qed.

Lemma newest_readers_ids : NoDup (reader_user_id <$> newest_readers).
Proof.
  unfold newest_readers. rewrite sort_by_Permutation.
  destruct (newest_of_fold own_user_id l) as [Hm _].
  assert (E : reader_user_id <$> (btree_iter (foldl (add_receipt own_user_id) ∅ l)).*2
              = (btree_iter (foldl (add_receipt own_user_id) ∅ l)).*1).
  { rewrite <- list_fmap_compose. apply list_fmap_ext. intros i [id x] Hix. cbn.
    destruct (Hm id x) as (_ & -> & _); [|done].
    apply btree_iter_elem. by eapply list_elem_of_lookup_2. }
  rewrite E. apply btree_iter_NoDup.
Qed.

Lemma newest_readers_length : length newest_readers = size (reader_ids own_user_id l).
Proof.
  unfold newest_readers. rewrite sort_by_Permutation, length_fmap. unfold btree_iter.
  rewrite sort_by_Permutation, length_map_to_list, <- size_dom.
  by rewrite (newest_of_dom own_user_id l _ (newest_of_fold own_user_id l)).
Qed.

Lemma newest_readers_sorted :
  StronglySorted (fun x y => receipt_time y <= receipt_time x) newest_readers.
Proof.
  assert (H : StronglySorted (fun x y => reader_leb x y = true) newest_readers)
    by (apply sort_by_sorted; [apply reader_leb_total|apply reader_leb_trans]).
  induction H as [|r rs Hrs IH Hr]; constructor; [exact IH|].
  eapply Forall_impl; [exact Hr|]. intros x Hx%reader_leb_spec. lia.
Qed.

Definition shown : list LiveReadReceipt := take COMPACT_RECEIPT_READER_LIMIT newest_readers.
Definition enrich : LiveReadReceipt -> LiveReadReceipt :=
  enrich_live_receipt profiles relevant own_user_id.

Lemma normalize_shown :
  normalize_receipts profiles relevant own_user_id l
  = {| readers := enrich <$> shown; total_count := Z.of_nat (length newest_readers);
       overflow_count := saturating_sub (Z.of_nat (length newest_readers)) 3 |}.
Proof. reflexivity. Qed.

Lemma newest_is_shown_or_older r :
  r ∈ newest_readers -> r ∈ shown
  \/ length shown = 3%nat /\ forall r', r' ∈ shown -> receipt_time r <= receipt_time r'.
Proof.
  intros Hr. pose proof newest_readers_sorted as Hs. unfold shown.
  rewrite <- (take_drop COMPACT_RECEIPT_READER_LIMIT newest_readers) in Hr, Hs.
  apply elem_of_app in Hr as [Hr|Hr]; [by left|right]. split.
  - destruct (drop COMPACT_RECEIPT_READER_LIMIT newest_readers) eqn:E; [set_solver|].
    apply (f_equal length) in E. rewrite length_drop in E.
    rewrite length_take. unfold COMPACT_RECEIPT_READER_LIMIT in *. cbn in E. lia.
  - intros r' Hr'. eapply (StronglySorted_app_1_elem_of _ _ _ _ _ Hs); [exact Hr'|exact Hr].
Qed.

End compact.

(** C23: the compact receipts of an event, for any receipts the server reports: at most three
    readers are shown, each once and never the account itself, the most recent first; what is shown
    for a reader is the newest receipt of that user, names and pictures apart; a reader that is not
    shown is not more recent than one that is, and is left out only when three are; the count is
    that of the distinct other users and the overflow is what is not shown. *)
Theorem receipts_are_compact profiles relevant own_user_id l :
  let s := normalize_receipts profiles relevant own_user_id l in
  (length (readers s) <= 3)%nat
  /\ NoDup (reader_user_id <$> readers s)
  /\ StronglySorted (fun x y => receipt_time y <= receipt_time x) (readers s)
  /\ (forall x, x ∈ readers s -> own_user_id <> Some (reader_user_id x)
       /\ exists r, r ∈ l /\ reader_user_id r = reader_user_id x /\ timestamp_ms r = timestamp_ms x
          /\ forall r', r' ∈ l -> reader_user_id r' = reader_user_id x ->
               receipt_time r' <= receipt_time x)
  /\ (forall r, r ∈ l -> own_user_id <> Some (reader_user_id r) ->
       reader_user_id r ∈ reader_user_id <$> readers s
       \/ length (readers s) = 3%nat
          /\ forall x, x ∈ readers s -> receipt_time r <= receipt_time x)
  /\ total_count s = Z.of_nat (size (reader_ids own_user_id l))
  /\ overflow_count s = total_count s - Z.of_nat (length (readers s)).
Proof.
  cbn zeta. rewrite normalize_shown. cbn [readers total_count overflow_count].
  assert (Hids : reader_user_id <$> (enrich profiles relevant own_user_id <$> shown own_user_id l)
                 = reader_user_id <$> shown own_user_id l) by (by rewrite <- list_fmap_compose).
  assert (Hsub : shown own_user_id l ⊆+ newest_readers own_user_id l) by apply submseteq_take.
  assert (Hlen : length (shown own_user_id l) = Nat.min 3 (length (newest_readers own_user_id l)))
    by apply length_take.
  destruct (newest_of_fold own_user_id l) as [Hm Hl].
  rewrite Hids, length_fmap. split_and!.
  - lia.
  - eapply sublist_NoDup; [apply (newest_readers_ids own_user_id l)|]. apply fmap_sublist, sublist_take.
  - apply StronglySorted_fmap with (R1 := fun x y => receipt_time y <= receipt_time x); [done|].
    pose proof (newest_readers_sorted own_user_id l) as H.
    rewrite <- (take_drop 3 (newest_readers own_user_id l)) in H.
    by apply StronglySorted_app in H as (_ & H & _).
  - intros x (r & -> & Hr)%list_elem_of_fmap. apply (elem_of_submseteq _ _ _ Hr) in Hsub.
    apply newest_readers_elem in Hsub as [_ Hr']. destruct (Hm _ _ Hr') as (Hin & _ & Ho & Hmax).
    split; [done|]. by exists r.
  - intros r Hr Ho. destruct (Hl r Hr Ho) as [y Hy].
    destruct (Hm _ _ Hy) as (Hyl & Hid & Hyo & Hmax).
    destruct (newest_is_shown_or_older own_user_id l y) as [Hs|[H3 Hs]].
    + apply newest_readers_elem. unfold others. rewrite list_elem_of_filter, Hid. done.
    + left. rewrite <- Hid. by apply list_elem_of_fmap_2.
    + right. split; [done|]. intros x (x' & -> & Hx')%list_elem_of_fmap.
      specialize (Hs x' Hx'). specialize (Hmax r Hr eq_refl).
      change (receipt_time (enrich profiles relevant own_user_id x')) with (receipt_time x'). lia.
  - by rewrite newest_readers_length.
  - unfold saturating_sub. lia.
Qed.

(** * Local aliases *)

Lemma refresh_after_fields state user_ids :
  let own := session_user_id state in
  let P := refresh_profile_user_display_projection (profile state) own in
  let state' := (refresh_after_profile_change state user_ids).1 in
  profile state' = P
  /\ rooms state' = refresh_room_summary P own <$> rooms state
  /\ open_settings state'
     = (fun s => (refresh_room_settings_member_display_projection s P own).1) <$> open_settings state
  /\ live_signals state' = (refresh_live_typing_user_display_projection (live_signals state) P own).1
  /\ space_members state' = (refresh_space_member_display_projection (space_members state) P).1.
Proof.
  unfold refresh_after_profile_change, refresh_open_room_settings_member_display_projection,
    refresh_open_room_summary_display_projection,
    refresh_native_attention_candidate_display_projection, refresh_live_signals,
    refresh_member_display_projection.
  repeat (case_match; simplify_eq/=; try done).
Qed.

Section alias.
Context (P : ProfileState) (own : option string) (user a : string).
Context (Ha : local_aliases P !! user = Some a) (Htrim : trim a = a) (Hne : is_empty a = false).

Lemma alias_nonblank : nonblank (Some a) = Some a.
Proof using Htrim Hne. unfold nonblank. cbn. by rewrite Htrim, Hne. Qed.

Lemma alias_is_shown upstream : resolve_user_display_name P user upstream own = a.
Proof using All.
  unfold resolve_user_display_name, resolve_user_display_name_from_parts. rewrite Ha. cbn.
  by rewrite Htrim, Hne.
Qed.
Lemma alias_is_shown_if_any upstream : resolve_optional_user_display_name P user upstream own = Some a.
Proof using Ha. unfold resolve_optional_user_display_name. by rewrite Ha. Qed.
Lemma alias_is_resolved input :
  in_local_alias input = Some a -> resolution_label (resolve_people_label input) = a.
Proof using Htrim Hne.
  intros E. unfold resolve_people_label, resolution_order. cbn [find_map]. by rewrite E, alias_nonblank.
Qed.

Lemma alias_in_profile p :
  prof_display_label (refresh_profile P own user p) = a.
Proof using All.
  change (resolve_user_display_name_from_parts (local_aliases P) (own_display_name (Profiles.own P))
            user (prof_display_name p) own = a).
  unfold resolve_user_display_name_from_parts. rewrite Ha. cbn. by rewrite Htrim, Hne.
Qed.
Lemma alias_in_room r :
  single_dm_partner (refresh_room_summary P own r) = Some user ->
  display_label (refresh_room_summary P own r) = a.
Proof using All.
  unfold refresh_room_summary, projected_room_summary_display_labels.
  destruct (single_dm_partner r) as [id|] eqn:E; cbn [display_label].
  - intros H. change (single_dm_partner r = Some user) in H. rewrite E in H. injection H as ->.
    apply alias_is_shown.
  - intros H. change (single_dm_partner r = Some user) in H. congruence.
Qed.
Lemma alias_in_member m :
  member_user_id m = user -> member_display_label (refresh_room_member P own m) = a.
Proof using All.
  intros E. change (resolve_user_display_name P (member_user_id m) (member_display_name m) own = a).
  rewrite E. apply alias_is_shown.
Qed.
Lemma alias_in_entry e : entry_user_id e = user -> entry_label (resolve_entry P e) = a.
Proof using All.
  intros E. unfold resolve_entry. cbn [entry_label]. apply alias_is_resolved. cbn [in_local_alias].
  by rewrite E.
Qed.
Lemma alias_in_receipt relevant r :
  reader_user_id r = user ->
  reader_display_name (refresh_receipt P relevant own r) = Some a.
Proof using All.
  intros Er. assert (H : reader_display_name (enrich_live_receipt P relevant own r) = Some a).
  { change (Some (resolution_label (resolve_live_receipt_profile P relevant own r)) = Some a).
    f_equal. apply alias_is_resolved. cbn [in_local_alias]. by rewrite Er. }
  unfold refresh_receipt. destruct (receipt_is_fresh P relevant own r) eqn:E; [|done].
  unfold receipt_is_fresh in E. apply andb_true_iff in E as [[E%bool_decide_eq_true _]%andb_true_iff _].
  by rewrite E.
Qed.

End alias.

Section typing.
Context (P : ProfileState) (own : option string) (live : LiveSignalsState).

Abbreviation typing_of l := (typing_users <$> signal_rooms l).
Definition refreshed_live : LiveSignalsState :=
  (refresh_live_typing_user_display_projection live P own).1.
Definition typing_is_stale : bool :=
  existsb (fun '(_, room) => typing_changed P own room) (btree_iter (signal_rooms live)).

Lemma refreshed_live_rooms id :
  signal_rooms refreshed_live !! id
  = (fun room => let room := refresh_typing P own room in
                 if typing_is_stale then room
                 else refresh_room_receipts P (room_users P !! id) own room)
      <$> signal_rooms live !! id.
Proof.
  unfold refreshed_live, refresh_live_typing_user_display_projection, typing_is_stale.
  set (stale := existsb _ _). destruct stale; cbn -[refresh_typing refresh_room_receipts].
  - apply lookup_fmap.
  - rewrite map_lookup_imap, lookup_fmap. by destruct (signal_rooms live !! id).
Qed.

Lemma refreshed_typing room :
  typing_users (refresh_typing P own room)
  = (fun t => t <| typing_display_label := fresh_typing_label P own t |>) <$> typing_users room.
Proof. reflexivity. Qed.

Lemma refreshed_typing_users id room' :
  signal_rooms refreshed_live !! id = Some room' ->
  exists room, signal_rooms live !! id = Some room
    /\ typing_users room' = typing_users (refresh_typing P own room).
Proof.
  rewrite refreshed_live_rooms. destruct (signal_rooms live !! id) as [room|]; [|done].
  intros [= <-]. exists room. split; [done|]. by destruct typing_is_stale.
Qed.

(** When no typing label changes the receipts are refreshed. *)
Lemma unchanged_typing_is_current :
  typing_of refreshed_live = typing_of live -> typing_is_stale = false.
Proof.
  intros E. apply not_true_is_false. intros H. pose proof H as H'. unfold typing_is_stale in H'.
  apply existsb_exists in H' as ([id room] & Hin & Hc).
  apply list_elem_of_In, btree_iter_elem in Hin.
  unfold typing_changed in Hc. apply existsb_exists in Hc as (t & Ht & Hne).
  apply list_elem_of_In in Ht. apply negb_true_iff, bool_decide_eq_false in Hne.
  pose proof (f_equal (fun m => m !! id) E) as Eid. cbn beta in Eid.
  rewrite !lookup_fmap, refreshed_live_rooms, Hin, H in Eid.
  change (Some (typing_users (refresh_typing P own room)) = Some (typing_users room)) in Eid.
  apply (inj Some) in Eid. rewrite refreshed_typing in Eid.
  apply list_elem_of_lookup in Ht as [i Hi].
  pose proof (f_equal (fun l => l !! i) Eid) as Ei. cbn beta in Ei.
  rewrite list_lookup_fmap, Hi in Ei. cbn in Ei. injection Ei as Ei. apply Hne. by rewrite <- Ei.
Qed.

Lemma map_summaries_elem f room s :
  s ∈ receipt_summaries (map_receipt_summaries f room) ->
  exists s0, s0 ∈ receipt_summaries room /\ s = f s0.
Proof.
  assert (Hv : forall (m : Summaries) s, s ∈ scope_values (f <$> m) -> exists s0, s0 ∈ scope_values m /\ s = f s0).
  { unfold scope_values. intros m x ([id y] & -> & Hy%btree_iter_elem)%list_elem_of_fmap.
    rewrite lookup_fmap in Hy. destruct (m !! id) as [y0|] eqn:E; [|done]. injection Hy as <-.
    exists y0. split; [|done]. apply list_elem_of_fmap. exists (id, y0). split; [done|].
    by apply btree_iter_elem. }
  assert (Hs : forall (ms : gmap string Summaries) s,
    s ∈ concat (scope_values <$> (btree_iter ((fun m : Summaries => f <$> m) <$> ms)).*2) ->
    exists s0, s0 ∈ concat (scope_values <$> (btree_iter ms).*2) /\ s = f s0).
  { intros ms x Hx. apply list_elem_of_In, in_concat in Hx as (vs & Hvs & Hx).
    apply list_elem_of_In, list_elem_of_fmap in Hvs as (m & -> & ([id m'] & -> & Hm)%list_elem_of_fmap).
    apply btree_iter_elem in Hm. rewrite lookup_fmap in Hm.
    destruct (ms !! id) as [m0|] eqn:E; [|done]. injection Hm as <-.
    apply list_elem_of_In, Hv in Hx as (s0 & Hs0 & ->). exists s0. split; [|done].
    apply list_elem_of_In, in_concat. exists (scope_values m0). split; apply list_elem_of_In; [|done].
    apply list_elem_of_fmap. exists m0. split; [done|]. apply list_elem_of_fmap. exists (id, m0).
    split; [done|]. by apply btree_iter_elem. }
  unfold receipt_summaries. intros [H|[H|H]%elem_of_app]%elem_of_app.
  - apply Hv in H as (s0 & ? & ->). exists s0. set_solver.
  - apply Hs in H as (s0 & ? & ->). exists s0. set_solver.
  - apply Hs in H as (s0 & ? & ->). exists s0. set_solver.
Qed.

Lemma refreshed_receipt id room s r :
  typing_is_stale = false ->
  signal_rooms refreshed_live !! id = Some room -> s ∈ receipt_summaries room -> r ∈ readers s ->
  exists r0, r = refresh_receipt P (room_users P !! id) own r0 /\ reader_user_id r = reader_user_id r0.
Proof.
  intros E Hroom Hs Hr. rewrite refreshed_live_rooms, E in Hroom.
  destruct (signal_rooms live !! id) as [room0|]; [|done]. injection Hroom as <-.
  apply map_summaries_elem in Hs as (s0 & _ & ->).
  change (readers (map_readers _ s0)) with
    (refresh_receipt P (room_users P !! id) own <$> readers s0) in Hr.
  apply list_elem_of_fmap in Hr as (r0 & -> & _). exists r0. split; [done|].
  unfold refresh_receipt. by destruct receipt_is_fresh.
Qed.

End typing.

(** C22: once the user sets a local alias, the trimmed alias is stored and is what every shown
    place calls the person: the profile, the room of a direct conversation with them, the member
    list of the open room settings, the typing line and the member lists of the space; and the
    receipts of every room, unless some typing label changed with it. *)
Theorem alias_shows_everywhere state request_id user alias :
  is_session_ready state = true ->
  alias_update_is_idle (local_alias_update (profile state)) = true ->
  is_empty (trim alias) = false ->
  let a := trim alias in
  let state' := (handle_local_user_alias_update_requested state request_id user (Some alias)).1 in
  local_aliases (profile state') !! user = Some a
  /\ local_alias_update (profile state') = AliasUpdate_Saving request_id
  /\ (forall p, users (profile state') !! user = Some p -> prof_display_label p = a)
  /\ (forall r, r ∈ rooms state' -> single_dm_partner r = Some user -> display_label r = a)
  /\ (forall s m, open_settings state' = Some s -> m ∈ members s -> member_user_id m = user ->
        member_display_label m = a)
  /\ (forall id room t, signal_rooms (live_signals state') !! id = Some room ->
        t ∈ typing_users room -> typing_user_id t = user -> typing_display_label t = Some a)
  /\ (forall e, e ∈ all_entries (space_members state') -> entry_user_id e = user ->
        entry_label e = a)
  /\ (typing_users <$> signal_rooms (live_signals state')
      = typing_users <$> signal_rooms (live_signals state) ->
      forall id room s r, signal_rooms (live_signals state') !! id = Some room ->
        s ∈ receipt_summaries room -> r ∈ readers s -> reader_user_id r = user ->
        reader_display_name r = Some a).
Proof.
  intros Hready Hidle Hne. cbn zeta. unfold handle_local_user_alias_update_requested.
  rewrite Hready, Hidle. cbn [negb orb].
  unfold normalize_local_user_alias, nonblank. cbn [mbind option_bind]. rewrite Hne.
  set (state1 := on_profile _ state). set (own := session_user_id state1).
  destruct (refresh_after_fields state1 [user]) as (Hp & Hr & Ho & Hl & Hs). fold own in Hp, Hr, Ho, Hl, Hs.
  set (P := refresh_profile_user_display_projection (profile state1) own) in *.
  assert (Ha : local_aliases P !! user = Some (trim alias))
    by (change (<[user := trim alias]> (local_aliases (profile state)) !! user = Some (trim alias));
        apply lookup_insert_eq).
  pose proof (trim_trim alias) as Ht.
  rewrite Hp, Hr, Ho, Hl, Hs. clear Hp Hr Ho Hl Hs. split_and!.
  - exact Ha.
  - reflexivity.
  - intros p Hp. change (users P) with (map_imap (fun id p => Some (refresh_profile (profile state1) own id p))
      (users (profile state1))) in Hp.
    rewrite map_lookup_imap in Hp. destruct (users (profile state1) !! user); [|done].
    injection Hp as <-. exact (alias_in_profile P own user _ Ha Ht Hne _).
  - intros r (r0 & -> & _)%list_elem_of_fmap. by apply (alias_in_room P own user _ Ha Ht Hne).
  - intros s m. destruct (open_settings state1) as [s0|]; [|done]. intros [= <-].
    intros (m0 & -> & _)%list_elem_of_fmap E. by apply (alias_in_member P own user _ Ha Ht Hne).
  - intros id room t Hroom Ht' Et. apply refreshed_typing_users in Hroom as (room0 & _ & E).
    rewrite E, refreshed_typing in Ht'. apply list_elem_of_fmap in Ht' as (t0 & -> & _).
    change (typing_user_id t0 = user) in Et. rewrite <- Et in Ha.
    by apply (alias_is_shown_if_any P own (typing_user_id t0) _ Ha).
  - intros e He E. change (all_entries _) with
      ((resolve_entry P <$> space_joined (space_members state1))
       ++ (resolve_entry P <$> space_invited (space_members state1))
       ++ (resolve_entry P <$> child_room_only (space_members state1))) in He.
    rewrite !elem_of_app, !list_elem_of_fmap in He.
    destruct He as [(e0 & -> & _)|[(e0 & -> & _)|(e0 & -> & _)]]; by apply (alias_in_entry P own user _ Ha Ht Hne).
  - intros E%unchanged_typing_is_current id room s r Hroom Hs Hr Er.
    destruct (refreshed_receipt P own (live_signals state1) _ _ _ _ E Hroom Hs Hr) as (r0 & -> & Hid).
    apply (alias_in_receipt P own user (trim alias) Ha Ht Hne). by rewrite <- Hid.
Qed.

(** * A failed request *)

Lemma ProfileState_ext p q :
  own p = own q -> users p = users q -> room_users p = room_users q ->
  local_aliases p = local_aliases q -> local_alias_update p = local_alias_update q ->
  ignored_user_ids p = ignored_user_ids q -> ignored_user_update p = ignored_user_update q ->
  profile_update p = profile_update q -> p = q.
Proof. destruct p, q; cbn. by intros -> -> -> -> -> -> -> ->. Qed.

Lemma set_ignored_back user ignored p :
  bool_decide (user ∈ ignored_user_ids p) = negb ignored ->
  ignored_user_ids (set_ignored user (negb ignored) (set_ignored user ignored p))
  = ignored_user_ids p.
Proof.
  intros H. apply set_eq. intros x. destruct ignored; cbn in *.
  - apply bool_decide_eq_false in H. set_solver.
  - apply bool_decide_eq_true in H. destruct (decide (x = user)); set_solver.
Qed.

Lemma ignored_requested_profile to_lowercase state request_id user ignored :
  is_session_ready state = true ->
  ignored_update_is_idle (ignored_user_update (profile state)) = true ->
  let asked := (handle_ignored_user_update_requested to_lowercase state request_id user ignored).1 in
  profile asked = set_ignored user ignored (profile state)
                    <| ignored_user_update := IgnoredUpdate_Saving request_id |>
  /\ errors asked = errors state /\ is_session_ready asked = true.
Proof.
  intros Hready Hidle. cbn zeta. unfold handle_ignored_user_update_requested.
  rewrite Hready, Hidle. cbn [negb orb]. unfold recompute_invites.
  destruct (bool_decide (active_filter _ = _)); (split_and!; [reflexivity..|exact Hready]).
Qed.

Lemma set_ignored_over user i j p :
  ignored_user_ids (set_ignored user j (set_ignored user i p)) = ignored_user_ids (set_ignored user j p).
Proof.
  apply set_eq. intros x. destruct (decide (x = user)); destruct i, j; cbn; set_solver.
Qed.

(** C24: a request to ignore a user, or to stop ignoring them, that fails reports one error and
    leaves the profile as it was before, but for that user, who is then the opposite of what was
    asked: a request that would have changed something is taken back exactly, while a failed request
    for what was so already undoes that (an ignored user whom it was asked to ignore again is no
    longer ignored).  Until then an answer to another request changes nothing and a second request is
    refused.  The request is one that is taken up: the session is ready and none is pending. *)
Theorem failed_ignore_is_taken_back to_lowercase state request_id user ignored :
  is_session_ready state = true ->
  ignored_update_is_idle (ignored_user_update (profile state)) = true ->
  let asked := (handle_ignored_user_update_requested to_lowercase state request_id user ignored).1 in
  let failed := (handle_ignored_user_update_failed asked request_id user ignored).1 in
  profile failed = set_ignored user (negb ignored) (profile state)
  /\ (bool_decide (user ∈ ignored_user_ids (profile state)) = negb ignored ->
      profile failed = profile state)
  /\ (forall other, other ∈ ignored_user_ids (profile failed)
        <-> if decide (other = user) then ignored = false else other ∈ ignored_user_ids (profile state))
  /\ (exists e, errors failed = errors state ++ [e] /\ error_code e = "ignored_user_update_failed")
  /\ (forall other user' ignored', other <> request_id ->
        handle_ignored_user_update_failed asked other user' ignored' = unchanged asked
        /\ handle_ignored_user_update_succeeded asked other = unchanged asked)
  /\ (forall other user' ignored',
        handle_ignored_user_update_requested to_lowercase asked other user' ignored'
        = unchanged asked).
Proof.
  intros Hready Hidle. cbn zeta.
  destruct (ignored_requested_profile to_lowercase state request_id user ignored Hready Hidle)
    as (Hp & He & Hr).
  set (asked := (handle_ignored_user_update_requested to_lowercase state request_id user ignored).1) in *.
  clearbody asked.
  assert (Hm : forall other, ignored_update_matches asked other = bool_decide (request_id = other)).
  { intros other. unfold ignored_update_matches. rewrite Hp. apply bool_decide_ext.
    change (Some request_id = Some other <-> request_id = other). naive_solver. }
  assert (Hf : profile (handle_ignored_user_update_failed asked request_id user ignored).1
               = set_ignored user (negb ignored) (profile state)).
  { unfold handle_ignored_user_update_failed. rewrite Hm, bool_decide_eq_true_2 by done. cbn [negb].
    change (set_ignored user (negb ignored) (profile asked)
              <| ignored_user_update := IgnoredUpdate_Idle |> = set_ignored user (negb ignored) (profile state)).
    rewrite Hp. pose proof (set_ignored_over user ignored (negb ignored) (profile state)) as E.
    apply ProfileState_ext; [reflexivity..|exact E| |reflexivity].
    cbn. by destruct (ignored_user_update (profile state)). }
  split_and!.
  - exact Hf.
  - intros Hin. rewrite Hf.
    pose proof (set_ignored_back user ignored (profile state) Hin) as E. rewrite set_ignored_over in E.
    apply ProfileState_ext; [reflexivity..|exact E|reflexivity|reflexivity].
  - intros other. rewrite Hf. destruct (decide (other = user)) as [->|]; destruct ignored; cbn; set_solver.
  - unfold handle_ignored_user_update_failed. rewrite Hm, bool_decide_eq_true_2 by done. cbn [negb].
    eexists. split; [rewrite <- He; reflexivity|reflexivity].
  - intros other user' ignored' Hne. unfold handle_ignored_user_update_failed, handle_ignored_user_update_succeeded.
    by rewrite !Hm, bool_decide_eq_false_2.
  - intros other user' ignored'. unfold handle_ignored_user_update_requested. by rewrite Hr, Hp.
Qed.

(** * Concrete runs *)

Definition reader (user : string) (name : option string) (time : Z) : LiveReadReceipt :=
  {| reader_user_id := user; reader_display_name := name; reader_original_display_label := UNKNOWN_USER;
     reader_avatar := None; timestamp_ms := Some time |}.
(** Bob has read an event of a room; whether he is typing there is [typing]. *)
Definition room_signals (typing : bool) : RoomLiveSignals :=
  RoomLiveSignals_default
    <| receipts_by_event := {["$1" := {| readers := [reader "@bob" (Some "Bob") 5];
                                          total_count := 1; overflow_count := 0 |}]} |>
    <| typing_users := if typing then [{| typing_user_id := "@bob"; typing_display_label := Some "Bob" |}]
                       else [] |>.
Definition account : SessionInfo :=
  {| homeserver := "https://h.org"; AppState.user_id := "@me"; device_id := "D";
     authentication_method := Auth_Password |}.
Definition with_bob (typing : bool) : People :=
  People_default <| session := Session_Ready account |>
    <| live_signals := {| signal_rooms := {["!r" := room_signals typing]}; presence := ∅ |} |>.
Definition set_alias (request_id : Z) (alias : option string) (state : People) : People :=
  (handle_local_user_alias_update_requested state request_id "@bob" alias).1.
Definition receipt_names (state : People) : list (option string * string) :=
  (fun r => (reader_display_name r, reader_original_display_label r))
  <$> concat (readers <$> concat (receipt_summaries <$> (btree_iter (signal_rooms (live_signals state))).*2)).

Lemma alias_shows_everywhere_witness :
  is_session_ready (with_bob false) = true
  /\ local_aliases (profile (set_alias 1 (Some " Robert ") (with_bob false))) !! "@bob" = Some "Robert"
  /\ receipt_names (set_alias 1 (Some " Robert ") (with_bob false)) = [(Some "Robert", "Bob")].
Proof.
  split; [reflexivity|split; [|vm_compute; reflexivity]].
  exact (proj1 (alias_shows_everywhere (with_bob false) 1 "@bob" " Robert " eq_refl eq_refl eq_refl)).
Defined.

(** While Bob types, his new alias reaches the typing line and not his receipts. *)
Example typing_user_keeps_old_receipts :
  typing_users <$> signal_rooms (live_signals (set_alias 1 (Some "Robert") (with_bob true))) !! "!r"
  = Some [{| typing_user_id := "@bob"; typing_display_label := Some "Robert" |}]
  /\ receipt_names (set_alias 1 (Some "Robert") (with_bob true)) = [(Some "Bob", UNKNOWN_USER)].
Proof. split; vm_compute; reflexivity. Qed.

(** A cleared alias stays on the receipts: the shown name is read back as the name the receipt
    came with.  For a reader of whom nothing else is known it becomes the original name too. *)
Definition cleared_alias (state : People) : People :=
  set_alias 2 None
    (handle_local_user_alias_update_succeeded (set_alias 1 (Some "Robert") state) 1).1.
Definition with_stranger : People :=
  (with_bob false) <| live_signals := {| signal_rooms := {["!r" := RoomLiveSignals_default
    <| receipts_by_event := {["$1" := {| readers := [reader "@bob" None 5];
                                          total_count := 1; overflow_count := 0 |}]} |>]};
    presence := ∅ |} |>.
Example cleared_alias_stays_on_receipts :
  local_aliases (profile (cleared_alias (with_bob false))) = ∅
  /\ receipt_names (cleared_alias (with_bob false)) = [(Some "Robert", "Bob")]
  /\ receipt_names (cleared_alias with_stranger) = [(Some "Robert", "Robert")].
Proof. split_and!; vm_compute; reflexivity. Qed.

(** A failed request to ignore an inviter takes the id back and leaves the invite hidden. *)
Definition invited : People :=
  recompute_room_list_projection id
    ((with_bob false) <| invites := [{| invite_room_id := "!i"; invite_display_name := "I";
       invite_placeholder := None; invite_avatar := None; invite_topic := None;
       inviter_display_name := None; inviter_user_id := Some "@bob"; invite_is_dm := false;
       invite_is_space := false |}] |>
     <| room_list ::= fun l => l <| active_filter := Filter_Invites |> |>).
Definition failed_ignore : People :=
  (handle_ignored_user_update_failed (handle_ignored_user_update_requested id invited 1 "@bob" true).1
     1 "@bob" true).1.
Example failed_ignore_hides_the_invite :
  items (room_list invited) = [{| item_room_id := "!i"; item_kind := Entry_Invite |}]
  /\ ignored_user_ids (profile failed_ignore) = ∅
  /\ items (room_list failed_ignore) = []
  /\ items (room_list (recompute_room_list_projection id failed_ignore)) = items (room_list invited).
Proof. split_and!; vm_compute; reflexivity. Qed.

(** Asked to ignore Bob a second time, the failure takes him off the list. *)
Definition bob_ignored : People :=
  (handle_ignored_user_update_succeeded
     (handle_ignored_user_update_requested id invited 1 "@bob" true).1 1).1.
Definition failed_again : People :=
  (handle_ignored_user_update_failed (handle_ignored_user_update_requested id bob_ignored 2 "@bob" true).1
     2 "@bob" true).1.
Example failed_repeat_undoes_the_ignore :
  ignored_user_ids (profile bob_ignored) = {["@bob"]} /\ ignored_user_ids (profile failed_again) = ∅.
Proof. split; vm_compute; reflexivity. Qed.

Lemma failed_ignore_is_taken_back_witness :
  is_session_ready invited = true /\ profile failed_ignore = profile invited
  /\ profile failed_again = set_ignored "@bob" false (profile bob_ignored).
Proof.
  split; [reflexivity|]. split.
  - exact (proj1 (proj2 (failed_ignore_is_taken_back id invited 1 "@bob" true eq_refl eq_refl)) eq_refl).
  - exact (proj1 (failed_ignore_is_taken_back id bob_ignored 2 "@bob" true eq_refl eq_refl)).
Defined.
