(* ===== verification/GapRepair.v ===== *)
(** Repair of timeline gaps: the policies of the timeline actor
    ([koushi-core/src/timeline/gap_repair.rs], [live_catchup.rs] and the checkpoint type of
    [koushi-sdk/src/timeline.rs]).

    A gap of the persisted timeline is named by an SDK descriptor, a parameter [Descriptor] with
    its revision and the events on its two sides.  Batches of a repair come back as tagged
    projections; [TimelineGapProjectionCorrelation] matches them with the running operation. *)

From stdpp Require Import base list strings gmap.
From Stdlib Require Import ZArith Lia.
From S2P Require Import Prelude Text LiveTail AccountWork Panes TimelineItem.
Local Open Scope string_scope.
Local Open Scope list_scope.
Local Open Scope Z_scope.
Local Set Warnings "-clear-no-such-hyp".

Definition MAX_TIMELINE_GAP_REPAIR_BATCHES : Z := 32.
Definition MAX_LIVE_EDGE_GAP_REPAIR_BATCHES : Z := 4.

(** * Causal projections *)

Definition historical_causal_projection_operation (serial : Z) : CausalProjectionOperationId :=
  {| cp_domain := HistoricalGap; cp_serial := serial |}.
Definition live_tail_causal_projection_operation (serial : Z) : CausalProjectionOperationId :=
  {| cp_domain := LiveTail; cp_serial := serial |}.
#[export] Instance CausalDomain_eq : EqDecision CausalProjectionDomain.
Proof. solve_decision. Defined.
#[export] Instance CausalOperation_eq : EqDecision CausalProjectionOperationId.
Proof. solve_decision. Defined.

Record CausalProjectionId := {
  projection_actor : Z; projection_operation : CausalProjectionOperationId;
  projection_batch : Z }.

Inductive TimelineGapProjectionCompletion :=
  | Completion_NoDiff | Completion_Pending | Completion_Ready (batch_id : Z).
Record TimelineGapProjectionCorrelation := {
  operation : option (Z * CausalProjectionOperationId);
  observed_batches : gmap Z Z;
  expected_last_projection_batch : option Z }.
Definition no_correlation : TimelineGapProjectionCorrelation :=
  {| operation := None; observed_batches := ∅; expected_last_projection_batch := None |}.

Definition begin (actor : Z) (op : CausalProjectionOperationId)
    : TimelineGapProjectionCorrelation :=
  {| operation := Some (actor, op); observed_batches := ∅;
     expected_last_projection_batch := None |}.
Definition correlates (c : TimelineGapProjectionCorrelation) (actor : Z)
    (op : CausalProjectionOperationId) : bool := bool_decide (operation c = Some (actor, op)).
Definition clear (c : TimelineGapProjectionCorrelation) (actor : Z)
    (op : CausalProjectionOperationId) : TimelineGapProjectionCorrelation :=
  if correlates c actor op then no_correlation else c.
Definition complete (c : TimelineGapProjectionCorrelation) (actor : Z)
    (op : CausalProjectionOperationId) (last_projection_batch : option Z)
    : TimelineGapProjectionCorrelation * TimelineGapProjectionCompletion :=
  if negb (correlates c actor op) then (c, Completion_NoDiff)
  else
    match last_projection_batch with
    | None => (no_correlation, Completion_NoDiff)
    | Some expected =>
        match observed_batches c !! expected with
        | Some batch => (no_correlation, Completion_Ready batch)
        | None => ({| operation := operation c; observed_batches := observed_batches c;
                      expected_last_projection_batch := Some expected |}, Completion_Pending)
        end
    end.
Definition observe (c : TimelineGapProjectionCorrelation) (p : CausalProjectionId) (batch : Z)
    : TimelineGapProjectionCorrelation * option Z :=
  if negb (correlates c (projection_actor p) (projection_operation p)) then (c, None)
  else if bool_decide (expected_last_projection_batch c = Some (projection_batch p))
  then (no_correlation, Some batch)
  else ({| operation := operation c;
           observed_batches := <[projection_batch p := batch]> (observed_batches c);
           expected_last_projection_batch := expected_last_projection_batch c |}, None).
Definition is_pending (c : TimelineGapProjectionCorrelation) : bool :=
  match operation c with Some _ => true | None => false end.

(** The two correlations, and the batches that became ready. *)
Definition observe_causal_projection (historical live : TimelineGapProjectionCorrelation)
    (p : CausalProjectionId) (batch : Z)
    : TimelineGapProjectionCorrelation * TimelineGapProjectionCorrelation * option Z * option Z :=
  match cp_domain (projection_operation p) with
  | HistoricalGap => let '(c, ready) := observe historical p batch in (c, live, ready, None)
  | LiveTail => let '(c, ready) := observe live p batch in (historical, c, None, ready)
  end.

(** * Triggers *)

Inductive TimelineGapRepairTrigger :=
  | Trigger_Automatic | Trigger_LiveEdge | Trigger_LiveTailSnapshot | Trigger_Manual.
#[export] Instance Trigger_eq : EqDecision TimelineGapRepairTrigger.
Proof. solve_decision. Defined.
(** The derived order of the declaration. *)
Definition trigger_rank (t : TimelineGapRepairTrigger) : nat :=
  match t with
  | Trigger_Automatic => 0 | Trigger_LiveEdge => 1 | Trigger_LiveTailSnapshot => 2
  | Trigger_Manual => 3
  end.
Definition trigger_max (a b : TimelineGapRepairTrigger) : TimelineGapRepairTrigger :=
  if (trigger_rank b <=? trigger_rank a)%nat then a else b.

Definition post_diff_gap_inspection_trigger
    (has_live_tail_projection live_tail_completion_published live_edge_target_changed : bool)
    : option TimelineGapRepairTrigger :=
  if live_tail_completion_published then Some Trigger_LiveTailSnapshot
  else if has_live_tail_projection then None
  else if live_edge_target_changed then Some Trigger_LiveEdge else Some Trigger_Automatic.

Definition live_tail_completion_requires_snapshot (o : LiveTailRefreshOutcome) : bool :=
  match o with Unchanged | Advanced _ | Detached _ _ => true | _ => false end.

Inductive MatrixTimelineGapRepairOutcome :=
  | Repair_Stale | Repair_Deferred (cached_chunks_loaded : nat) | Repair_Failed
  | Repair_Progress (events : nat) | Repair_BoundariesJoined (events : nat)
  | Repair_StartReached (events : nat).
Definition timeline_gap_repair_made_progress (o : MatrixTimelineGapRepairOutcome) : bool :=
  match o with
  | Repair_Deferred n | Repair_Progress n => (0 <? n)%nat
  | Repair_BoundariesJoined _ | Repair_StartReached _ => true
  | Repair_Stale | Repair_Failed => false
  end.
Definition gap_repair_continuation_trigger (t : TimelineGapRepairTrigger) (fallback : bool)
    (o : MatrixTimelineGapRepairOutcome) : TimelineGapRepairTrigger :=
  match t, o with
  | Trigger_LiveEdge, (Repair_BoundariesJoined _ | Repair_StartReached _) =>
      if fallback then Trigger_Automatic else t
  | _, _ => t
  end.

Record MatrixTimelineGapRepairBudget := { event_limit : Z; cached_chunk_limit : Z }.
Definition timeline_gap_repair_budget (t : TimelineGapRepairTrigger) (kind : AccountWorkKind)
    : MatrixTimelineGapRepairBudget :=
  {| event_limit := batch_limit (policy kind);
     cached_chunk_limit := match t with Trigger_LiveTailSnapshot => 0 | _ => 1 end |}.

(** * Committed responses *)

Section gaps.
Context {Descriptor : Type} `{!EqDecision Descriptor}
        (revision_of : Descriptor -> Z) (older_of newer_of : Descriptor -> option string).

Record MatrixTimelineGapHandle := { gap_room : string; descriptor : Descriptor }.
(** [MatrixCommittedRoomTimelineCheckpoint]; its observation sequence is only printed. *)
Record MatrixRoomSubscriptionCheckpoint := {
  checkpoint_generation : Z; response_sequence : Z; checkpoint_room : string;
  has_timeline_update : bool; inserted_gap : option Descriptor }.
Definition has_inserted_gap (c : MatrixRoomSubscriptionCheckpoint) : bool :=
  match inserted_gap c with Some _ => true | None => false end.
Definition inserted_gap_handle (c : MatrixRoomSubscriptionCheckpoint)
    : option MatrixTimelineGapHandle :=
  (fun d => {| gap_room := checkpoint_room c; descriptor := d |}) <$> inserted_gap c.
Definition matches_gap (c : MatrixRoomSubscriptionCheckpoint) (g : MatrixTimelineGapHandle) : bool :=
  String.eqb (checkpoint_room c) (gap_room g)
  && bool_decide (inserted_gap c = Some (descriptor g)).
Definition same_response_as (a b : MatrixRoomSubscriptionCheckpoint) : bool :=
  (checkpoint_generation a =? checkpoint_generation b)
  && String.eqb (checkpoint_room a) (checkpoint_room b)
  && (response_sequence a =? response_sequence b).

Definition checkpoint_is_strictly_newer (incoming existing : MatrixRoomSubscriptionCheckpoint)
    : bool :=
  if same_response_as incoming existing then false
  else (checkpoint_generation existing <? checkpoint_generation incoming)
       || ((checkpoint_generation incoming =? checkpoint_generation existing)
           && (response_sequence existing <? response_sequence incoming)).

Abbreviation Held := (option MatrixRoomSubscriptionCheckpoint).

(** The current and the deferred checkpoint, and whether the current one changed. *)
Definition retain_room_subscription_checkpoint (current deferred : Held)
    (incoming : MatrixRoomSubscriptionCheckpoint) : Held * Held * bool :=
  match current with
  | Some existing =>
      if negb (checkpoint_is_strictly_newer incoming existing) then (current, deferred, false)
      else if has_inserted_gap existing
      then (current,
            if is_none_or deferred (checkpoint_is_strictly_newer incoming) then Some incoming
            else deferred, false)
      else (Some incoming, None, true)
  | None => (Some incoming, None, true)
  end.
Definition room_checkpoint_advances_global_fence (current deferred : Held)
    (incoming : MatrixRoomSubscriptionCheckpoint) : bool :=
  is_none_or current (checkpoint_is_strictly_newer incoming)
  && is_none_or deferred (checkpoint_is_strictly_newer incoming).
Definition consume_room_subscription_checkpoint (current deferred : Held)
    (consumed : MatrixRoomSubscriptionCheckpoint) : Held * Held * bool :=
  if negb (is_some_and current (fun c => same_response_as c consumed)) then (current, deferred, false)
  else match deferred with
       | Some next =>
           if checkpoint_is_strictly_newer next consumed then (Some next, None, true)
           else (None, None, false)
       | None => (None, None, false)
       end.

Record GlobalResponseCommit := { core_generation : Z; commit_sequence : Z }.
Definition commit_le (a b : GlobalResponseCommit) : bool :=
  (core_generation a <? core_generation b)
  || ((core_generation a =? core_generation b) && (commit_sequence a <=? commit_sequence b)).
Inductive GlobalCommitDecision :=
  | IgnoredStaleOrDuplicate | CoveredByRoomCheckpoint | InspectNewestLiveEdge.
Record GlobalCommitFence := {
  latest : option GlobalResponseCommit;
  latest_room_checkpoint_response_sequence : option Z;
  pending_inspection : option GlobalResponseCommit }.
Definition new_fence : GlobalCommitFence :=
  {| latest := None; latest_room_checkpoint_response_sequence := None;
     pending_inspection := None |}.
#[export] Instance GlobalCommitFence_updatable : Updatable GlobalCommitFence := fun f =>
  {| latest := latest f;
     latest_room_checkpoint_response_sequence := latest_room_checkpoint_response_sequence f;
     pending_inspection := pending_inspection f |}.
#[export] Instance GlobalResponseCommit_eq : EqDecision GlobalResponseCommit.
Proof. solve_decision. Defined.

Definition note_room_checkpoint_advanced (f : GlobalCommitFence) (sequence : Z)
    : GlobalCommitFence :=
  if is_none_or (latest_room_checkpoint_response_sequence f) (fun l => l <? sequence)
  then f <| latest_room_checkpoint_response_sequence := Some sequence |> else f.
Definition observe_commit (f : GlobalCommitFence) (commit : GlobalResponseCommit)
    : GlobalCommitFence * GlobalCommitDecision :=
  if is_some_and (latest f) (commit_le commit) then (f, IgnoredStaleOrDuplicate)
  else
    let f := f <| latest := Some commit |> in
    if bool_decide (latest_room_checkpoint_response_sequence f = Some (commit_sequence commit))
    then (f, CoveredByRoomCheckpoint)
    else (f <| pending_inspection := Some commit |>, InspectNewestLiveEdge).
Definition restore_pending_inspection (f : GlobalCommitFence) (commit : GlobalResponseCommit)
    : GlobalCommitFence :=
  if bool_decide (latest f = Some commit) && bool_decide (pending_inspection f = None)
  then f <| pending_inspection := Some commit |> else f.

Inductive MissingCommittedGapDecision := Missing_Noop | Missing_Retry | Missing_CloseStale.
Definition missing_committed_gap_decision (checkpoint_has_gap : bool)
    (previous_retry : option (Z * Z)) (retry_key : Z * Z) : MissingCommittedGapDecision :=
  if negb checkpoint_has_gap then Missing_Noop
  else if bool_decide (previous_retry = Some retry_key) then Missing_CloseStale else Missing_Retry.

(** [live_catchup.rs] *)
Inductive LiveCatchupGate :=
  | AwaitingCheckpoint | Gate_Stale | NoTimelineUpdate | NoGap | RepairCheckpointGap
  | InspectCommittedLiveEdge.
Definition classify_live_catchup_gate (expected_generation : option Z)
    (checkpoint : option (Z * bool * bool)) : LiveCatchupGate :=
  match checkpoint with
  | None => AwaitingCheckpoint
  | Some (generation, has_timeline, has_gap) =>
      if is_some_and expected_generation (fun e => negb (generation =? e)) then Gate_Stale
      else if negb has_timeline then NoTimelineUpdate
      else if negb has_gap then NoGap else RepairCheckpointGap
  end.

(** * Which gap to repair *)

#[export] Instance TimelineGapId_eq : EqDecision TimelineGapId. Proof. solve_decision. Defined.
Record TimelineGapPosition := { position_id : TimelineGapId; before_item_index : nat }.
Inductive ProjectedGapRelation := ExplicitVisible | IntersectsViewport | NearestLiveEdge.
Record ProjectedGapCandidate := { candidate_id : TimelineGapId; relation : ProjectedGapRelation }.
#[export] Instance ProjectedGapRelation_eq : EqDecision ProjectedGapRelation.
Proof. solve_decision. Defined.
#[export] Instance ProjectedGapCandidate_eq : EqDecision ProjectedGapCandidate.
Proof. solve_decision. Defined.
Inductive GapRepairViewportWakeDecision :=
  | Wake (candidate : ProjectedGapCandidate) | WakeStaleVisibleDemand | IdleNoCandidate
  | IdleUnchangedCandidate (candidate : ProjectedGapCandidate).

Definition projected_gap_insertion_index (newer older : option nat) : option nat :=
  or_else newer (S <$> older).
Definition projected_gap_id (topology_revision : Z) (ordinal : nat) : TimelineGapId :=
  {| topology_revision := topology_revision; gap_ordinal := Z.min (Z.of_nat ordinal) U32_MAX |}.
Definition projected_gaps_contain_id (projected : list (nat * TimelineGapPosition))
    (id : TimelineGapId) : bool :=
  existsb (fun p => bool_decide (position_id p.2 = id)) projected.
Definition gap_repair_work_kind (t : TimelineGapRepairTrigger)
    (candidate : option ProjectedGapCandidate) : AccountWorkKind :=
  match t, relation <$> candidate with
  | Trigger_Manual, _ => VisibleGapRepair
  | _, Some (ExplicitVisible | IntersectsViewport) => VisibleGapRepair
  | _, _ => OffscreenGapRepair
  end.

(** [.map(..).next_back()] of the positions that satisfy [p]. *)
Definition last_candidate (p : nat * TimelineGapPosition -> bool) (relation : ProjectedGapRelation)
    (projected : list (nat * TimelineGapPosition)) : option ProjectedGapCandidate :=
  (fun q => {| candidate_id := position_id q.2; relation := relation |})
    <$> last (List.filter p projected).
Definition in_range (viewport : nat * nat) (q : nat * TimelineGapPosition) : bool :=
  let '(first, last) := viewport in
  (Nat.min first last <=? before_item_index q.2)%nat
  && (before_item_index q.2 <=? S (Nat.max first last))%nat.
Definition select_projected_gap_candidate (projected : list (nat * TimelineGapPosition))
    (viewport : option (nat * nat)) (visible : list TimelineGapId)
    : option ProjectedGapCandidate :=
  match visible with
  | _ :: _ =>
      last_candidate (fun q => bool_decide (position_id q.2 ∈ visible)) ExplicitVisible projected
  | [] =>
      or_else (viewport ≫= fun v => last_candidate (in_range v) IntersectsViewport projected)
              (last_candidate (fun _ => true) NearestLiveEdge projected)
  end.
Definition evaluate_gap_repair_viewport_wake (projected : list (nat * TimelineGapPosition))
    (viewport : option (nat * nat)) (visible : list TimelineGapId)
    (previous : option ProjectedGapCandidate) : GapRepairViewportWakeDecision :=
  if existsb (fun id => negb (projected_gaps_contain_id projected id)) visible
  then WakeStaleVisibleDemand
  else match select_projected_gap_candidate projected viewport visible with
       | None => IdleNoCandidate
       | Some c => if bool_decide (previous = Some c) then IdleUnchangedCandidate c else Wake c
       end.
Definition projected_gap_identity_matches_descriptor (id : TimelineGapId) (ordinal : nat)
    (revision : Z) : bool :=
  (gap_ordinal id =? Z.of_nat ordinal) && (topology_revision id =? revision).

Inductive UnprojectedGapReason := Reason_LiveEdge | Reason_Foreground | Reason_Manual.
Inductive GapRepairSelection :=
  | Select_None | Select_Projected (id : TimelineGapId) | Select_DirectCommittedResponse
  | Select_Unprojected (ordinal : nat) (reason : UnprojectedGapReason).
Definition global_commit_gap_selection (gap_count : nat) : GapRepairSelection :=
  match gap_count with
  | O => Select_None
  | S ordinal => Select_Unprojected ordinal Reason_LiveEdge
  end.
Definition select_gap_repair_candidate (t : TimelineGapRepairTrigger)
    (projected : list (nat * TimelineGapPosition)) (viewport : option (nat * nat))
    (visible : list TimelineGapId) (gap_count : nat) (has_live_edge_target : bool)
    : GapRepairSelection :=
  match t with
  | Trigger_LiveTailSnapshot => Select_None
  | _ =>
      match select_projected_gap_candidate projected viewport visible with
      | Some c => Select_Projected (candidate_id c)
      | None =>
          match gap_count, t with
          | S ordinal, Trigger_LiveEdge =>
              if has_live_edge_target then Select_Unprojected ordinal Reason_LiveEdge
              else Select_None
          | S ordinal, Trigger_Manual => Select_Unprojected ordinal Reason_Manual
          | _, _ => Select_None
          end
      end
  end.
Inductive UnlocatedGapAction :=
  | Unlocated_None | Unlocated_QueueAutomatic | Unlocated_RepairNewest (ordinal : nat).
Definition unlocated_gap_action (foreground_demand : bool) (t : TimelineGapRepairTrigger)
    (gap_count projected_gap_count : nat) : UnlocatedGapAction :=
  if negb foreground_demand || (0 <? projected_gap_count)%nat then Unlocated_None
  else
    match gap_count, t with
    | S ordinal, Trigger_Automatic => Unlocated_RepairNewest ordinal
    | S _, Trigger_LiveTailSnapshot => Unlocated_QueueAutomatic
    | _, _ => Unlocated_None
    end.

Definition rendered_live_edge_target (items : list TimelineItem) : option string :=
  find_map (fun item => match item_id item with Event id => Some id | _ => None end) (rev items).

(** * The tracker *)

Record LiveEdgeGapSelection := { selection_revision : Z; selection_ordinal : option nat }.
#[export] Instance LiveEdgeGapSelection_eq : EqDecision LiveEdgeGapSelection.
Proof. solve_decision. Defined.
Record TimelineGapRepairTracker := {
  next_serial : Z; active_serial : option Z; pending_trigger : option TimelineGapRepairTrigger;
  gap_count : Z; attempt_gap_id : option TimelineGapId; attempt_demand_revision : option Z;
  attempt_number : Z; demand_revision : Z; batches_processed : Z;
  consecutive_no_progress_batches : Z; projected_gaps : list (nat * TimelineGapPosition);
  last_projected_candidate : option ProjectedGapCandidate; live_edge_target : option string;
  live_edge_batches_processed : Z; last_live_edge_selection : option LiveEdgeGapSelection }.
#[export] Instance Tracker_updatable : Updatable TimelineGapRepairTracker := fun t =>
  {| next_serial := next_serial t; active_serial := active_serial t;
     pending_trigger := pending_trigger t; gap_count := gap_count t;
     attempt_gap_id := attempt_gap_id t; attempt_demand_revision := attempt_demand_revision t;
     attempt_number := attempt_number t; demand_revision := demand_revision t;
     batches_processed := batches_processed t;
     consecutive_no_progress_batches := consecutive_no_progress_batches t;
     projected_gaps := projected_gaps t; last_projected_candidate := last_projected_candidate t;
     live_edge_target := live_edge_target t;
     live_edge_batches_processed := live_edge_batches_processed t;
     last_live_edge_selection := last_live_edge_selection t |}.
Definition new_tracker : TimelineGapRepairTracker :=
  {| next_serial := 0; active_serial := None; pending_trigger := None; gap_count := 0;
     attempt_gap_id := None; attempt_demand_revision := None; attempt_number := 0;
     demand_revision := 0; batches_processed := 0; consecutive_no_progress_batches := 0;
     projected_gaps := []; last_projected_candidate := None; live_edge_target := None;
     live_edge_batches_processed := 0; last_live_edge_selection := None |}.

Definition begin_work (t : TimelineGapRepairTracker) : option (TimelineGapRepairTracker * Z) :=
  match active_serial t with
  | Some _ => None
  | None =>
      (fun serial => (t <| next_serial := serial |> <| active_serial := Some serial |>, serial))
        <$> next_causal_projection_serial (next_serial t)
  end.
Definition begin_repair (t : TimelineGapRepairTracker) (count : Z)
    : option (TimelineGapRepairTracker * Z) :=
  '(t, serial) ← begin_work t; Some (t <| gap_count := count |>, serial).
Definition finish_work (t : TimelineGapRepairTracker) (serial : Z)
    : TimelineGapRepairTracker * bool :=
  if bool_decide (active_serial t = Some serial)
  then (t <| active_serial := None |>, true) else (t, false).
Definition queue_inspection (trigger : TimelineGapRepairTrigger) (t : TimelineGapRepairTracker)
    : TimelineGapRepairTracker :=
  t <| pending_trigger ::= fun o =>
         Some (match o with Some pending => trigger_max pending trigger | None => trigger end) |>.
Definition begin_pending_inspection (t : TimelineGapRepairTracker) (committed : bool)
    : option (TimelineGapRepairTracker * Z * TimelineGapRepairTrigger) :=
  if negb committed || bool_decide (is_Some (active_serial t)) then None
  else
    trigger ← pending_trigger t;
    '(t, serial) ← begin_work t;
    Some (t <| pending_trigger := None |>, serial, trigger).
Definition replace_projected_gaps (t : TimelineGapRepairTracker)
    (projected : list (nat * TimelineGapPosition)) (viewport : option (nat * nat))
    (visible : list TimelineGapId) : TimelineGapRepairTracker :=
  t <| last_projected_candidate := select_projected_gap_candidate projected viewport visible |>
    <| projected_gaps := projected |>.
Definition clear_projected_gaps (t : TimelineGapRepairTracker) : TimelineGapRepairTracker :=
  t <| projected_gaps := [] |> <| last_projected_candidate := None |>.
Definition reset_live_edge (t : TimelineGapRepairTracker) : TimelineGapRepairTracker :=
  t <| live_edge_batches_processed := 0 |> <| last_live_edge_selection := None |>.
Definition observe_live_edge_target (t : TimelineGapRepairTracker) (target : option string)
    : TimelineGapRepairTracker * bool :=
  if bool_decide (live_edge_target t = target) then (t, false)
  else (reset_live_edge (t <| live_edge_target := target |>), true).
Definition evaluate_live_edge_selection (t : TimelineGapRepairTracker) (s : LiveEdgeGapSelection)
    : TimelineGapRepairTracker * bool :=
  if (0 <? live_edge_batches_processed t) && bool_decide (last_live_edge_selection t = Some s)
  then (t, false) else (t <| last_live_edge_selection := Some s |>, true).
Definition advance_demand_revision (t : TimelineGapRepairTracker) : TimelineGapRepairTracker :=
  t <| demand_revision ::= fun r => u64_wrapping_add r 1 |>.
Definition begin_explicit_demand (t : TimelineGapRepairTracker) : TimelineGapRepairTracker :=
  advance_demand_revision t <| last_projected_candidate := None |>.
Definition evaluate_viewport_wake (t : TimelineGapRepairTracker) (viewport : option (nat * nat))
    (visible : list TimelineGapId) : TimelineGapRepairTracker * GapRepairViewportWakeDecision :=
  let decision :=
    evaluate_gap_repair_viewport_wake (projected_gaps t) viewport visible
      (last_projected_candidate t) in
  let t := match decision with
           | Wake {| relation := ExplicitVisible |} => advance_demand_revision t
           | _ => t
           end in
  (t <| last_projected_candidate := match decision with
                                    | Wake c | IdleUnchangedCandidate c => Some c
                                    | _ => None
                                    end |>, decision).

(** A gap or a demand that is new resets the budgets. *)
Definition admit_gap_attempt (t : TimelineGapRepairTracker) (id : TimelineGapId) (demand : Z)
    : TimelineGapRepairTracker :=
  if bool_decide (attempt_gap_id t = Some id)
     && bool_decide (attempt_demand_revision t = Some demand) then t
  else reset_live_edge
    (t <| attempt_number ::= fun n => u64_saturating_add n 1 |> <| attempt_gap_id := Some id |>
       <| attempt_demand_revision := Some demand |> <| batches_processed := 0 |>
       <| consecutive_no_progress_batches := 0 |>).
Definition is_live_edge (t : TimelineGapRepairTrigger) : bool :=
  match t with Trigger_LiveEdge => true | _ => false end.
Definition can_start_batch (t : TimelineGapRepairTracker) (trigger : TimelineGapRepairTrigger)
    : bool :=
  (consecutive_no_progress_batches t <? MAX_TIMELINE_GAP_REPAIR_BATCHES)
  && (negb (is_live_edge trigger)
      || (live_edge_batches_processed t <? MAX_LIVE_EDGE_GAP_REPAIR_BATCHES)).
Definition record_batch (t : TimelineGapRepairTracker) (trigger : TimelineGapRepairTrigger)
    : option TimelineGapRepairTracker :=
  if negb (can_start_batch t trigger) then None
  else
    let t := t <| batches_processed ::= fun n => u32_saturating_add n 1 |> in
    Some (if is_live_edge trigger
          then t <| live_edge_batches_processed ::= fun n => u32_saturating_add n 1 |> else t).
Definition record_batch_error (t : TimelineGapRepairTracker) : TimelineGapRepairTracker :=
  t <| consecutive_no_progress_batches ::= fun n => u32_saturating_add n 1 |>.
Definition record_batch_outcome (t : TimelineGapRepairTracker) (o : MatrixTimelineGapRepairOutcome)
    : TimelineGapRepairTracker :=
  if timeline_gap_repair_made_progress o then t <| consecutive_no_progress_batches := 0 |>
  else record_batch_error t.

End gaps.
Arguments MatrixTimelineGapHandle : clear implicits.
Arguments MatrixRoomSubscriptionCheckpoint : clear implicits.
