(* ===== verification/GapActor.v ===== *)
(** The gap repair of one timeline actor: the handlers of
    [koushi-core/src/timeline/gap_repair.rs] and the arms of [actor.rs], [relay.rs] and
    [navigation.rs] that drive them.

    The actor handles one message at a time.  It spawns inspections and repairs, whose results
    come back as messages with the serial they were started with, and it arms a timer while a
    repaired batch has not come through the relay.  [delivered] says whether the reducer's channel
    accepts the actions of the message, and a [RelayProgress] how far the rest of a batch's
    handling came; diagnostics are not modelled.  Messages that a replaced actor would refuse are
    not steps of this one. *)

From stdpp Require Import base list strings gmap.
From Stdlib Require Import ZArith Lia.
From S2P Require Import Prelude Text LiveTail AccountWork Panes PaneActions TimelineItem GapRepair.
Local Open Scope string_scope.
Local Open Scope list_scope.
Local Open Scope Z_scope.
Local Set Warnings "-clear-no-such-hyp".

Definition TimelineViewportObservation_default : TimelineViewportObservation :=
  {| display_window_revision := None; first_visible_event_id := None;
     last_visible_event_id := None; visible_gap_ids := []; at_bottom := false;
     bottom_arrival := Arrival_Programmatic |}.
Inductive MatrixTimelineContinuity := Matrix_Unknown | Matrix_Gapped | Matrix_Complete.

Section actor.
Context {Descriptor : Type} `{!EqDecision Descriptor}
        (revision_of : Descriptor -> Z) (older_of newer_of : Descriptor -> option string).

Abbreviation Handle := (MatrixTimelineGapHandle Descriptor).
Abbreviation Checkpoint := (MatrixRoomSubscriptionCheckpoint Descriptor).

Record MatrixTimelineGapInspection := {
  continuity : MatrixTimelineContinuity; gaps : list Handle }.
Record MatrixTimelineGapRepairResult := {
  outcome : MatrixTimelineGapRepairOutcome; last_projection_batch : option Z }.

Record PendingTimelineGapProjection := {
  projection_trigger : TimelineGapRepairTrigger; repair_generation : Z;
  projection_gap_count : Z; projection_batches_processed : Z }.
Record PendingLiveTailRefreshCompletion := {
  tail_epoch : Z; tail_operation_generation : Z; tail_outcome : LiveTailRefreshOutcome }.

(** The fields of [TimelineActor] the handlers use. *)
Record GapActor := {
  key_room : string; is_room : bool; actor_generation : Z; initial_projection_committed : bool;
  display_items : list TimelineItem; navigation_items : list TimelineItem;
  viewport_observation : TimelineViewportObservation;
  gap_repair : TimelineGapRepairTracker;
  gap_projection_correlation : TimelineGapProjectionCorrelation;
  pending_gap_projection : option PendingTimelineGapProjection;
  gap_relay_settlement_task : option (Z * TimelineGapRepairTrigger);
  live_tail_refresh : option Z;
  live_tail_projection_correlation : TimelineGapProjectionCorrelation;
  pending_live_tail_projection : option PendingLiveTailRefreshCompletion;
  subscription_generation : option Z;
  room_subscription_checkpoint : option Checkpoint;
  deferred_room_subscription_checkpoint : option Checkpoint;
  global_commit_fence : GlobalCommitFence;
  missing_committed_response_retry : option (Z * Z);
  foreground_gap_demand_active : bool;
  pagination_task : option Z }.
#[export] Instance GapActor_updatable : Updatable GapActor := fun a =>
  {| key_room := key_room a; is_room := is_room a; actor_generation := actor_generation a;
     initial_projection_committed := initial_projection_committed a;
     display_items := display_items a; navigation_items := navigation_items a;
     viewport_observation := viewport_observation a; gap_repair := gap_repair a;
     gap_projection_correlation := gap_projection_correlation a;
     pending_gap_projection := pending_gap_projection a;
     gap_relay_settlement_task := gap_relay_settlement_task a;
     live_tail_refresh := live_tail_refresh a;
     live_tail_projection_correlation := live_tail_projection_correlation a;
     pending_live_tail_projection := pending_live_tail_projection a;
     subscription_generation := subscription_generation a;
     room_subscription_checkpoint := room_subscription_checkpoint a;
     deferred_room_subscription_checkpoint := deferred_room_subscription_checkpoint a;
     global_commit_fence := global_commit_fence a;
     missing_committed_response_retry := missing_committed_response_retry a;
     foreground_gap_demand_active := foreground_gap_demand_active a;
     pagination_task := pagination_task a |}.

(** The fields of a new actor, with the items its timeline starts with. *)
Definition GapActor_new (room : string) (room_timeline : bool) (generation : Z)
    (initial_emitted : bool) (navigation display : list TimelineItem) (subscription : option Z)
    : GapActor :=
  {| key_room := room; is_room := room_timeline; actor_generation := generation;
     initial_projection_committed := initial_emitted; display_items := display;
     navigation_items := navigation; viewport_observation := TimelineViewportObservation_default;
     gap_repair :=
       if room_timeline
       then (observe_live_edge_target new_tracker (rendered_live_edge_target navigation)).1
       else new_tracker;
     gap_projection_correlation := no_correlation; pending_gap_projection := None;
     gap_relay_settlement_task := None; live_tail_refresh := None;
     live_tail_projection_correlation := no_correlation; pending_live_tail_projection := None;
     subscription_generation := subscription; room_subscription_checkpoint := None;
     deferred_room_subscription_checkpoint := None; global_commit_fence := new_fence;
     missing_committed_response_retry := None; foreground_gap_demand_active := false;
     pagination_task := None |}.

Inductive GapOutput :=
  | EmitAction (action : PaneAction)
  | SpawnInspection (serial : Z) (trigger : TimelineGapRepairTrigger)
      (committed : option Checkpoint) (global : option GlobalResponseCommit)
  | SpawnRepair (serial : Z) (trigger : TimelineGapRepairTrigger) (fallback : bool)
      (handle : Handle) (budget : MatrixTimelineGapRepairBudget)
  | GapPositionsUpdated (generation : Z) (positions : list TimelineGapPosition)
  | GapRepairReleased (generation : Z)
  | ScheduleSettlement (generation : Z) (trigger : TimelineGapRepairTrigger)
  | LiveTailRefreshCompleted (completion : PendingLiveTailRefreshCompletion).
Abbreviation Result := (GapActor * list GapOutput)%type.
Definition nothing (a : GapActor) : Result := (a, []).
(** The outputs of [f] on the actor after [r]'s. *)
Definition and_then (r : Result) (f : GapActor -> Result) : Result :=
  let '(b, out) := f r.1 in (b, r.2 ++ out).

Definition on_repair (f : TimelineGapRepairTracker -> TimelineGapRepairTracker) (a : GapActor)
    : GapActor := a <| gap_repair ::= f |>.
Definition queue (t : TimelineGapRepairTrigger) : GapActor -> GapActor :=
  on_repair (queue_inspection t).

(** What [run] queues before its first message; the message starts it. *)
Definition run_initial (a : GapActor) : GapActor :=
  queue (match live_edge_target (gap_repair a) with
         | Some _ => Trigger_LiveEdge | None => Trigger_Automatic end) a.

(** * Positions *)

Definition timeline_event_position (a : GapActor) (event : string) : option nat :=
  position (fun item =>
    is_some_and (display_metadata item) (fun m =>
      bool_decide (content_event_id m = Some event)
      || bool_decide (activity_event_id m = Some event))
    || bool_decide (item_id item = Event event)) (display_items a).
Definition viewport_item_range (a : GapActor) : option (nat * nat) :=
  first ← first_visible_event_id (viewport_observation a) ≫= timeline_event_position a;
  last ← last_visible_event_id (viewport_observation a) ≫= timeline_event_position a;
  Some (first, last).
Definition visible (a : GapActor) : list TimelineGapId := visible_gap_ids (viewport_observation a).

Definition projected_positions (a : GapActor) (gaps : list Handle)
    : list (nat * TimelineGapPosition) :=
  omap (fun '(ordinal, gap) =>
    (fun index => (ordinal, {| position_id := projected_gap_id (revision_of (descriptor gap)) ordinal;
                               before_item_index := index |}))
    <$> projected_gap_insertion_index
          (newer_of (descriptor gap) ≫= timeline_event_position a)
          (older_of (descriptor gap) ≫= timeline_event_position a))
    (imap pair gaps).

(** * Starting an inspection *)

Definition live_catchup_gate (a : GapActor) : LiveCatchupGate :=
  match pending_inspection (global_commit_fence a) with
  | Some _ => InspectCommittedLiveEdge
  | None =>
      classify_live_catchup_gate (subscription_generation a)
        ((fun c => (checkpoint_generation c, has_timeline_update c, has_inserted_gap c))
           <$> room_subscription_checkpoint a)
  end.
(** A live-edge inspection waits for the response its subscription is to commit. *)
Definition awaits_checkpoint (a : GapActor) : bool :=
  bool_decide (pending_trigger (gap_repair a) = Some Trigger_LiveEdge)
  && match live_catchup_gate a with AwaitingCheckpoint | Gate_Stale => true | _ => false end
  && (live_edge_batches_processed (gap_repair a) =? 0).
Definition is_some {A} (o : option A) : bool := match o with Some _ => true | None => false end.
Definition awaits_relay (a : GapActor) : bool :=
  is_pending (gap_projection_correlation a) || is_some (pending_gap_projection a).

Section handlers.
Context (delivered : bool).

Definition emit_action_reliable (action : PaneAction) : list GapOutput :=
  if delivered then [EmitAction action] else [].

Definition start_pending_timeline_gap_inspection (a : GapActor) : Result :=
  if is_some (pagination_task a) || awaits_relay a || awaits_checkpoint a then nothing a
  else
    match begin_pending_inspection (gap_repair a) (initial_projection_committed a) with
    | None => nothing a
    | Some (tracker, serial, trigger) =>
        let fence := global_commit_fence a in
        let global := if is_live_edge trigger then pending_inspection fence else None in
        let committed := if is_live_edge trigger && negb (is_some global)
                         then room_subscription_checkpoint a else None in
        if delivered
        then (a <| gap_repair := tracker |>
                <| global_commit_fence := if is_live_edge trigger
                                          then fence <| pending_inspection := None |> else fence |>,
              [EmitAction (TimelineContinuityInspectionStarted (key_room a) serial);
               SpawnInspection serial trigger committed global])
        else
          (* the work is given back, and the commit that was taken if it is still the latest *)
          (a <| gap_repair := queue_inspection trigger (finish_work tracker serial).1 |>
             <| global_commit_fence :=
                  match global with
                  | Some commit =>
                      restore_pending_inspection (fence <| pending_inspection := None |>) commit
                  | None => fence
                  end |>, [])
    end.

Definition request_timeline_gap_inspection (t : TimelineGapRepairTrigger) (a : GapActor) : Result :=
  if negb (is_room a) then nothing a else start_pending_timeline_gap_inspection (queue t a).

Definition emit_gap_repair_released_if_idle (generation : Z) (a : GapActor) : Result :=
  if is_some (active_serial (gap_repair a)) || is_some (pending_trigger (gap_repair a))
     || awaits_relay a
  then nothing a else (a, [GapRepairReleased generation]).
Definition resume (serial : Z) (a : GapActor) : Result :=
  and_then (start_pending_timeline_gap_inspection a) (emit_gap_repair_released_if_idle serial).

Definition emit_gap_repair_failure_and_resume (serial count : Z)
    (kind : TimelineGapRepairFailureKind) (a : GapActor) : Result :=
  and_then (a, emit_action_reliable (TimelineGapRepairFailed (key_room a) serial count
                                       (batches_processed (gap_repair a)) kind))
           (resume serial).

(** * Starting a repair *)

Definition start_timeline_gap_repair (trigger : TimelineGapRepairTrigger) (fallback : bool)
    (handle : Handle) (count : Z) (a : GapActor) : Result :=
  match begin_repair (gap_repair a) count with
  | None => nothing a
  | Some (tracker, serial) =>
      let idle tracker := a <| gap_repair := (finish_work tracker serial).1 |> in
      let started := emit_action_reliable (TimelineGapRepairStarted (key_room a) serial count) in
      if negb delivered then (idle tracker, started)
      else
        match record_batch tracker trigger with
        | None =>
            (idle tracker, started ++ emit_action_reliable
               (TimelineGapRepairFailed (key_room a) serial count (batches_processed tracker)
                  Gap_Timeout))
        | Some tracker =>
            let kind := gap_repair_work_kind trigger (last_projected_candidate tracker) in
            (a <| gap_repair := tracker |>
               <| gap_projection_correlation :=
                    begin (actor_generation a) (historical_causal_projection_operation serial) |>,
             started ++ [SpawnRepair serial trigger fallback handle
                           (timeline_gap_repair_budget trigger kind)])
        end
  end.

(** * The result of an inspection *)

Definition u32_of (n : nat) : Z := Z.min (Z.of_nat n) U32_MAX.
(** The committed response an inspection was started for has been replaced meanwhile. *)
Definition is_superseded (a : GapActor) (trigger : TimelineGapRepairTrigger)
    (committed : option Checkpoint) : bool :=
  is_live_edge trigger
  && is_some_and committed (fun inspected =>
       is_none_or (room_subscription_checkpoint a) (fun current =>
         negb (same_response_as current inspected))).

(** The gap to repair, and the descriptor of the committed response when that is it. *)
Definition select_gap (a : GapActor) (trigger : TimelineGapRepairTrigger)
    (committed : option Checkpoint) (global : option GlobalResponseCommit)
    (projected : list (nat * TimelineGapPosition)) (count : nat)
    : GapRepairSelection * option Handle :=
  let select := select_gap_repair_candidate trigger projected (viewport_item_range a) (visible a)
                  count in
  match global, trigger with
  | Some _, _ => (global_commit_gap_selection count, None)
  | None, Trigger_LiveEdge =>
      match live_catchup_gate a with
      | RepairCheckpointGap =>
          let handle :=
            current ← room_subscription_checkpoint a;
            inspected ← committed;
            if same_response_as current inspected then inserted_gap_handle current else None in
          (match handle with Some _ => Select_DirectCommittedResponse | None => Select_None end,
           handle)
      | InspectCommittedLiveEdge => (Select_None, None)
      | _ => (if 0 <? live_edge_batches_processed (gap_repair a) then select true else Select_None,
              None)
      end
  | None, _ => (select (bool_decide (is_Some (live_edge_target (gap_repair a)))), None)
  end.

Definition consume_checkpoint (checkpoint : Checkpoint) (a : GapActor) : GapActor :=
  let '(current, deferred, promoted) :=
    consume_room_subscription_checkpoint (room_subscription_checkpoint a)
      (deferred_room_subscription_checkpoint a) checkpoint in
  let a := a <| room_subscription_checkpoint := current |>
             <| deferred_room_subscription_checkpoint := deferred |> in
  if promoted then queue Trigger_LiveEdge a else a.

(** No gap is repaired now. *)
Definition nothing_selected (serial : Z) (committed : option Checkpoint)
    (unlocated : UnlocatedGapAction) (a : GapActor) : Result :=
  let finish a :=
    resume serial (match unlocated with
                   | Unlocated_QueueAutomatic => queue Trigger_Automatic a | _ => a end) in
  match committed with
  | None => finish a
  | Some c =>
      let key := (checkpoint_generation c, response_sequence c) in
      match missing_committed_gap_decision (has_inserted_gap c)
              (missing_committed_response_retry a) key with
      | Missing_Retry =>
          start_pending_timeline_gap_inspection
            (queue Trigger_LiveEdge (a <| missing_committed_response_retry := Some key |>))
      | Missing_CloseStale =>
          finish (consume_checkpoint c (a <| missing_committed_response_retry := None |>))
      | Missing_Noop => finish a
      end
  end.

(** The handle of the selected gap among those the inspection found. *)
Definition selected_handle (gaps : list Handle) (selected : option TimelineGapId)
    (ordinal : option nat) : option Handle :=
  match selected with
  | Some id =>
      snd <$> find_first (fun '(ordinal, gap) =>
        projected_gap_identity_matches_descriptor id ordinal (revision_of (descriptor gap)))
        (imap pair gaps)
  | None => ordinal ≫= fun n => gaps !! n
  end.
Definition repair_selected (serial : Z) (trigger : TimelineGapRepairTrigger) (fallback : bool)
    (committed : option Checkpoint) (gaps : list Handle) (known : Z)
    (direct : option Handle) (selected : option TimelineGapId) (ordinal : option nat)
    (a : GapActor) : Result :=
  match or_else direct (selected_handle gaps selected ordinal) with
  | None => resume serial a
  | Some handle =>
      let revision := revision_of (descriptor handle) in
      let id := or_else selected (projected_gap_id revision <$>
                  or_else ordinal (c ← committed; position (matches_gap c) gaps)) in
      let a := on_repair (fun t => match id with
                                   | Some id => admit_gap_attempt t id (demand_revision t)
                                   | None => t end) a in
      let repair a := and_then (start_timeline_gap_repair trigger fallback handle known a)
                               (resume serial) in
      if is_live_edge trigger
      then
        if negb (can_start_batch (gap_repair a) trigger) then resume serial a
        else
          let '(tracker, fresh) :=
            evaluate_live_edge_selection (gap_repair a)
              {| selection_revision := revision; selection_ordinal := ordinal |} in
          let a := a <| gap_repair := tracker |> in
          if fresh then repair a else resume serial a
      else repair a
  end.

Definition handle_gaps (serial : Z) (trigger : TimelineGapRepairTrigger)
    (committed : option Checkpoint) (global : option GlobalResponseCommit) (gaps : list Handle)
    (projected : list (nat * TimelineGapPosition)) (a : GapActor) : Result :=
  let known := u32_of (length gaps) in
  let a := on_repair (fun t => t <| gap_count := known |>) a in
  let '(selection, direct) := select_gap a trigger committed global projected (length gaps) in
  let unlocated :=
    unlocated_gap_action (foreground_gap_demand_active a) trigger (length gaps)
      (length projected) in
  let selection := match unlocated with
                   | Unlocated_RepairNewest ordinal => Select_Unprojected ordinal Reason_Foreground
                   | _ => selection
                   end in
  let repair fallback := repair_selected serial trigger fallback committed gaps known direct in
  match selection with
  | Select_None => nothing_selected serial committed unlocated a
  | Select_Projected id => repair false (Some id) (Some (Z.to_nat (gap_ordinal id))) a
  | Select_DirectCommittedResponse =>
      let a := a <| missing_committed_response_retry := None |> in
      repair true None None
        (match committed with Some c => consume_checkpoint c a | None => a end)
  | Select_Unprojected ordinal Reason_LiveEdge => repair true None (Some ordinal) a
  | Select_Unprojected ordinal _ => repair false None (Some ordinal) a
  end.

Definition inspection_succeeded (serial : Z) (trigger : TimelineGapRepairTrigger)
    (committed : option Checkpoint) (global : option GlobalResponseCommit)
    (inspection : MatrixTimelineGapInspection) (a : GapActor) : Result :=
  let found := gaps inspection in
  let projected := projected_positions a found in
  let a' := on_repair (fun t =>
              replace_projected_gaps t projected (viewport_item_range a) (visible a)) a in
  let report :=
    match continuity inspection with
    | Matrix_Unknown => Inspection_Unknown
    | Matrix_Gapped => Inspection_Gapped (u32_of (length found))
    | Matrix_Complete => Inspection_Complete
    end in
  and_then (a', GapPositionsUpdated serial (snd <$> projected)
                :: emit_action_reliable (TimelineContinuityInspected (key_room a) serial report))
    (match continuity inspection with
     | Matrix_Gapped => handle_gaps serial trigger committed global found projected
     | _ => fun a => resume serial (on_repair (fun t => reset_live_edge (t <| gap_count := 0 |>)) a)
     end).

(** The gaps known before an inspection failed are reported as a failed repair; the serial it
    takes is there until [2^63] of them are used, where the source panics. *)
Definition inspection_failed (serial : Z) (a : GapActor) : Result :=
  let known := gap_count (gap_repair a) in
  if known =? 0
  then and_then (a, emit_action_reliable
                      (TimelineContinuityInspected (key_room a) serial Inspection_Unknown))
         (resume serial)
  else
    match begin_repair (gap_repair a) known with
    | None => resume serial a
    | Some (tracker, repair) =>
        and_then
          (a <| gap_repair := (finish_work tracker repair).1 |>,
           emit_action_reliable (TimelineGapRepairStarted (key_room a) repair known)
           ++ emit_action_reliable (TimelineGapRepairFailed (key_room a) repair known
                                      (batches_processed tracker) Gap_Sdk))
          (resume serial)
    end.

Definition handle_timeline_gap_inspection_finished (a : GapActor) (serial : Z)
    (trigger : TimelineGapRepairTrigger) (committed : option Checkpoint)
    (global : option GlobalResponseCommit) (result : option MatrixTimelineGapInspection) : Result :=
  let '(tracker, mine) := finish_work (gap_repair a) serial in
  if negb mine then nothing a
  else
    let a := a <| gap_repair := tracker |> in
    if is_superseded a trigger committed
    then start_pending_timeline_gap_inspection (queue Trigger_LiveEdge a)
    else match result with
         | Some inspection => inspection_succeeded serial trigger committed global inspection a
         | None => inspection_failed serial a
         end.

(** * The result of a repair *)

Inductive TimelineGapObservableSettlement := Observable | NoProjection | TimedOut.
(** What the repair task makes of the SDK's answer once it has waited for its last batch to become
    observable. *)
Definition settled_repair (result : option MatrixTimelineGapRepairResult)
    (settlement : TimelineGapObservableSettlement) : option MatrixTimelineGapRepairResult :=
  match result with
  | Some {| outcome := o; last_projection_batch := Some _ |} =>
      match settlement with
      | Observable => result
      | NoProjection => Some {| outcome := o; last_projection_batch := None |}
      | TimedOut => None
      end
  | _ => result
  end.

Definition forget_operation (serial : Z) (a : GapActor) : GapActor :=
  a <| gap_projection_correlation ::= fun c =>
         clear c (actor_generation a) (historical_causal_projection_operation serial) |>.

Definition finish_pending_gap_projection (batch : Z) (a : GapActor) : Result :=
  let a := a <| gap_relay_settlement_task := None |> in
  match pending_gap_projection a with
  | None => nothing a
  | Some p =>
      and_then
        (queue (projection_trigger p) (a <| pending_gap_projection := None |>),
         emit_action_reliable
           (TimelineGapRepairProgressed (key_room a) (repair_generation p) (projection_gap_count p)
              (projection_batches_processed p) (Some batch)))
        start_pending_timeline_gap_inspection
  end.

Definition repair_succeeded (serial : Z) (trigger : TimelineGapRepairTrigger) (fallback : bool)
    (result : MatrixTimelineGapRepairResult) (a : GapActor) : Result :=
  let count := gap_count (gap_repair a) in
  let next := gap_repair_continuation_trigger trigger fallback (outcome result) in
  let waiting :=
    {| projection_trigger := next; repair_generation := serial; projection_gap_count := count;
       projection_batches_processed := batches_processed (gap_repair a) |} in
  let '(correlation, completion) :=
    complete (gap_projection_correlation a) (actor_generation a)
      (historical_causal_projection_operation serial) (last_projection_batch result) in
  let a := a <| gap_projection_correlation := correlation |> in
  match completion with
  | Completion_Ready batch =>
      finish_pending_gap_projection batch (a <| pending_gap_projection := Some waiting |>)
  | Completion_Pending =>
      (a <| pending_gap_projection := Some waiting |>
         <| gap_relay_settlement_task := Some (serial, next) |>,
       [ScheduleSettlement serial next])
  | Completion_NoDiff =>
      and_then
        (a, emit_action_reliable
              (TimelineGapRepairProgressed (key_room a) serial count
                 (batches_processed (gap_repair a)) None))
        (request_timeline_gap_inspection next)
  end.

Definition handle_timeline_gap_repair_finished (a : GapActor) (serial : Z)
    (trigger : TimelineGapRepairTrigger) (fallback : bool)
    (result : option MatrixTimelineGapRepairResult) : Result :=
  let '(tracker, mine) := finish_work (gap_repair a) serial in
  if negb mine then nothing a
  else
    let a := a <| gap_repair := match result with
                                | Some r => record_batch_outcome tracker (outcome r)
                                | None => record_batch_error tracker
                                end |> in
    let fail kind :=
      emit_gap_repair_failure_and_resume serial (gap_count (gap_repair a)) kind
        (forget_operation serial a) in
    match result with
    | None | Some {| outcome := Repair_Failed |} => fail Gap_Sdk
    | Some r =>
        if is_live_edge trigger && negb (timeline_gap_repair_made_progress (outcome r))
        then fail Gap_UnsupportedAnchor
        else repair_succeeded serial trigger fallback r a
    end.

(** * Batches that come through the relay *)

(** [recover_obsolete_gap_settlement] and its caller. *)
Definition release_gap_relay_settlement (actor repair : Z) (trigger : TimelineGapRepairTrigger)
    (a : GapActor) : Result :=
  let op := historical_causal_projection_operation repair in
  if negb (correlates (gap_projection_correlation a) actor op) then nothing a
  else
    let count := match pending_gap_projection a with
                 | Some p => projection_gap_count p | None => gap_count (gap_repair a) end in
    let a := a <| gap_projection_correlation ::= fun c => clear c actor op |>
               <| pending_gap_projection ::= fun o =>
                    o ≫= fun p => if repair_generation p =? repair then None else Some p |>
               <| gap_relay_settlement_task := None |> in
    emit_gap_repair_failure_and_resume repair count Gap_Timeout
      (queue trigger (on_repair (fun t => (finish_work t repair).1) a)).

(** Observe the projections of one batch: the first historical operation that became ready, and
    whether the live-tail one did. *)
Definition observe_one (batch : Z) (acc : GapActor * option Z * bool) (p : CausalProjectionId)
    : GapActor * option Z * bool :=
  let '(a, ready, tail) := acc in
  let '(historical, live, gap_batch, tail_batch) :=
    observe_causal_projection (gap_projection_correlation a) (live_tail_projection_correlation a)
      p batch in
  (a <| gap_projection_correlation := historical |>
     <| live_tail_projection_correlation := live |>,
   or_else ready gap_batch, tail || is_some tail_batch).
Definition observe_batch (projections : list CausalProjectionId) (batch : Z) (a : GapActor)
    : GapActor * option Z * bool := foldl (observe_one batch) (a, None, false) projections.

(** The completion is sent; whether a snapshot of the gaps is due. *)
Definition finish_pending_live_tail_projection (a : GapActor) : GapActor * list GapOutput * bool :=
  match pending_live_tail_projection a with
  | Some c => (a <| pending_live_tail_projection := None |>, [LiveTailRefreshCompleted c],
               live_tail_completion_requires_snapshot (tail_outcome c))
  | None => (a, [], false)
  end.
Definition finish_observed (ready : option Z) (tail : bool) (a : GapActor)
    : GapActor * list GapOutput * bool :=
  let '(a, out) := match ready with
                   | Some batch => finish_pending_gap_projection batch a | None => nothing a end in
  if tail
  then let '(a, sent, snapshot) := finish_pending_live_tail_projection a in
       (a, out ++ sent, snapshot)
  else (a, out, false).

(** How far a batch or a snapshot came: it was not committed, or the handler returned early because
    the reducer or the search index refused it or the actor was replaced, or it was handled. *)
Inductive RelayProgress := NotCommitted | Interrupted | Handled.

Definition in_domain (d : CausalProjectionDomain) (p : CausalProjectionId) : bool :=
  bool_decide (cp_domain (projection_operation p) = d).
(** The newest event may be another one; a batch of a historical repair does not say so. *)
Definition observe_target (projections : list CausalProjectionId) (a : GapActor)
    : GapActor * bool :=
  if is_room a && negb (existsb (in_domain HistoricalGap) projections)
  then let '(tracker, changed) :=
         observe_live_edge_target (gap_repair a) (rendered_live_edge_target (navigation_items a)) in
       (a <| gap_repair := tracker |>, changed)
  else (a, false).
(** The projections of a batch the display accepted. *)
Definition relay_projections (emitted : bool) (projections : list CausalProjectionId) (batch : Z)
    (a : GapActor) : GapActor * list GapOutput * bool :=
  if emitted
  then let '(a, ready, tail) := observe_batch projections batch a in finish_observed ready tail a
  else (a, [], false).

(** The gap part of [handle_diff_batch]: the items after the batch, its projections, and whether
    the display accepted it. *)
Definition handle_diff_batch (a : GapActor) (navigation display : list TimelineItem)
    (projections : list CausalProjectionId) (emitted : bool) (batch : Z)
    (progress : RelayProgress) : Result :=
  let a := a <| navigation_items := navigation |> <| display_items := display |> in
  match progress with
  | NotCommitted => nothing a
  | Interrupted => nothing (observe_target projections a).1
  | Handled =>
      let '(a, target_changed) := observe_target projections a in
      let '(a, out, published) := relay_projections emitted projections batch a in
      match post_diff_gap_inspection_trigger (existsb (in_domain LiveTail) projections) published
              target_changed with
      | Some trigger => and_then (a, out) (request_timeline_gap_inspection trigger)
      | None => (a, out)
      end
  end.

(** The gap part of [handle_relay_overflow]: the items and projections of the snapshot. *)
Definition recover_relay (a : GapActor) (projections : list CausalProjectionId) (emitted : bool)
    (batch : Z) : Result :=
  let accepted p :=
    correlates (gap_projection_correlation a) (projection_actor p) (projection_operation p)
    || correlates (live_tail_projection_correlation a) (projection_actor p)
         (projection_operation p) in
  let projections := List.filter accepted projections in
  let '(b, out, snapshot) :=
    relay_projections (emitted && negb (bool_decide (length projections = 0%nat))) projections
      batch a in
  let observed :=
    if snapshot then and_then (b, out) (request_timeline_gap_inspection Trigger_LiveTailSnapshot)
    else (b, out) in
  and_then observed (fun a =>
    match operation (gap_projection_correlation a) with
    | Some (actor, op) =>
        let trigger := match pending_gap_projection a with
                       | Some p => projection_trigger p | None => Trigger_Automatic end in
        release_gap_relay_settlement actor (cp_serial op) trigger a
    | None => nothing a
    end).
Definition handle_relay_overflow (a : GapActor) (navigation display : list TimelineItem)
    (projections : list CausalProjectionId) (emitted : bool) (batch : Z)
    (progress : RelayProgress) : Result :=
  let committed := on_repair clear_projected_gaps
                     (a <| navigation_items := navigation |> <| display_items := display |>) in
  match progress with
  | NotCommitted => nothing a
  | Interrupted => nothing committed
  | Handled => recover_relay committed projections emitted batch
  end.

Definition handle_gap_relay_settlement_due (a : GapActor) (actor repair : Z)
    (navigation display : list TimelineItem) (projections : list CausalProjectionId)
    (emitted : bool) (batch : Z) (progress : RelayProgress) : Result :=
  if correlates (gap_projection_correlation a) actor (historical_causal_projection_operation repair)
  then handle_relay_overflow (a <| gap_relay_settlement_task := None |>) navigation display
         projections emitted batch progress
  else nothing a.

(** * Live-tail refreshes *)

Definition start_live_tail_refresh (a : GapActor) (operation_generation : Z) : GapActor :=
  if negb (is_room a) || bool_decide (live_tail_refresh a = Some operation_generation) then a
  else
    a <| live_tail_projection_correlation :=
           begin (actor_generation a) (live_tail_causal_projection_operation operation_generation) |>
      <| live_tail_refresh := Some operation_generation |>.
Definition handle_live_tail_refresh_finished (a : GapActor) (actor epoch operation_generation : Z)
    (result : LiveTailRefreshOutcome) (last_batch : option Z) : Result :=
  if negb (actor =? actor_generation a)
     || negb (bool_decide (live_tail_refresh a = Some operation_generation))
  then nothing a
  else
    let a := a <| live_tail_refresh := None |> in
    let c := {| tail_epoch := epoch; tail_operation_generation := operation_generation;
                tail_outcome := result |} in
    let '(correlation, completion) :=
      complete (live_tail_projection_correlation a) actor
        (live_tail_causal_projection_operation operation_generation) last_batch in
    let a := a <| live_tail_projection_correlation := correlation |> in
    match completion with
    | Completion_Pending => nothing (a <| pending_live_tail_projection := Some c |>)
    | _ =>
        if live_tail_completion_requires_snapshot result
        then and_then (a, [LiveTailRefreshCompleted c])
               (request_timeline_gap_inspection Trigger_LiveTailSnapshot)
        else (a, [LiveTailRefreshCompleted c])
    end.
(** Run after every message. *)
Definition finish_ready_causal_projection_handoffs (a : GapActor) : Result :=
  if is_some (pending_live_tail_projection a)
     && negb (is_pending (live_tail_projection_correlation a))
  then
    let '(a, out, snapshot) := finish_pending_live_tail_projection a in
    if snapshot then and_then (a, out) (request_timeline_gap_inspection Trigger_LiveTailSnapshot)
    else (a, out)
  else nothing a.

(** * Committed responses *)

Definition handle_room_subscription_checkpoint (a : GapActor) (c : Checkpoint) : Result :=
  if negb (String.eqb (key_room a) (checkpoint_room c)
           && bool_decide (subscription_generation a = Some (checkpoint_generation c)))
  then nothing a
  else
    let current := room_subscription_checkpoint a in
    let deferred := deferred_room_subscription_checkpoint a in
    let advances := room_checkpoint_advances_global_fence current deferred c in
    let '(current, deferred, changed) :=
      retain_room_subscription_checkpoint current deferred c in
    let a := a <| room_subscription_checkpoint := current |>
               <| deferred_room_subscription_checkpoint := deferred |>
               <| global_commit_fence ::= fun f =>
                    if advances then note_room_checkpoint_advanced f (response_sequence c) else f |> in
    start_pending_timeline_gap_inspection
      (if changed && is_some_and current has_inserted_gap then queue Trigger_LiveEdge a else a).
Definition handle_global_response_committed (a : GapActor) (commit : GlobalResponseCommit)
    : Result :=
  let '(fence, decision) := observe_commit (global_commit_fence a) commit in
  let a := a <| global_commit_fence := fence |> in
  match decision with
  | InspectNewestLiveEdge => start_pending_timeline_gap_inspection (queue Trigger_LiveEdge a)
  | _ => nothing a
  end.

(** * Demand *)

Definition handle_inspect_timeline_gaps (a : GapActor) (trigger : TimelineGapRepairTrigger)
    : Result :=
  request_timeline_gap_inspection trigger
    (match trigger with Trigger_Manual => on_repair begin_explicit_demand a | _ => a end).
Definition handle_viewport_observation (a : GapActor) (o : TimelineViewportObservation)
    (display : list TimelineItem) : Result :=
  let a := a <| display_items := display |> <| viewport_observation := o |> in
  let '(tracker, decision) :=
    evaluate_viewport_wake (gap_repair a) (viewport_item_range a) (visible a) in
  let a := a <| gap_repair := tracker |> in
  match decision with
  | Wake _ | WakeStaleVisibleDemand => request_timeline_gap_inspection Trigger_Automatic a
  | _ => nothing a
  end.
Definition handle_begin_gap_repair_demand (a : GapActor) : Result :=
  let a := on_repair begin_explicit_demand a <| foreground_gap_demand_active := true |> in
  match visible a with
  | [] => nothing a
  | _ => request_timeline_gap_inspection Trigger_Automatic a
  end.
Definition handle_end_gap_repair_demand (a : GapActor) : GapActor :=
  on_repair (fun t => t <| pending_trigger := None |>) (a <| foreground_gap_demand_active := false |>).

(** * Pagination *)

(** The guards of [handle_paginate] that concern gap repair. *)
Definition handle_paginate (a : GapActor) (serial : Z) : GapActor :=
  if is_some (active_serial (gap_repair a)) || awaits_relay a || is_some (pagination_task a) then a
  else a <| pagination_task := Some serial |>.
Definition handle_cancel_pagination (a : GapActor) : GapActor := a <| pagination_task := None |>.
Definition handle_pagination_finished (a : GapActor) (serial : Z) : Result :=
  if bool_decide (pagination_task a = Some serial)
  then start_pending_timeline_gap_inspection (a <| pagination_task := None |>) else nothing a.

(** * Steps *)

Inductive GapMessage :=
  | InspectTimelineGaps (trigger : TimelineGapRepairTrigger)
  | TimelineGapInspectionFinished (serial : Z) (trigger : TimelineGapRepairTrigger)
      (committed : option Checkpoint) (global : option GlobalResponseCommit)
      (result : option MatrixTimelineGapInspection)
  | TimelineGapRepairFinished (serial : Z) (trigger : TimelineGapRepairTrigger) (fallback : bool)
      (result : option MatrixTimelineGapRepairResult)
      (settlement : TimelineGapObservableSettlement)
  | TimelineGapRelaySettlementDue (actor repair : Z) (navigation display : list TimelineItem)
      (projections : list CausalProjectionId) (emitted : bool) (batch : Z) (progress : RelayProgress)
  | RelayBatch (navigation display : list TimelineItem) (projections : list CausalProjectionId)
      (emitted : bool) (batch : Z) (progress : RelayProgress)
  | RelayOverflow (navigation display : list TimelineItem) (projections : list CausalProjectionId)
      (emitted : bool) (batch : Z) (progress : RelayProgress)
  | StartLiveTailRefresh (operation_generation : Z)
  | LiveTailRefreshFinished (actor epoch operation_generation : Z)
      (result : LiveTailRefreshOutcome) (last_batch : option Z)
  | UpdateSubscriptionGeneration (generation : Z)
  | RoomSubscriptionCheckpoint (checkpoint : Checkpoint)
  | GlobalResponseCommitted (commit : GlobalResponseCommit)
  | ObserveViewport (observation : TimelineViewportObservation) (display : list TimelineItem)
  | BeginGapRepairDemand | EndGapRepairDemand
  | Paginate (serial : Z) | CancelPagination | PaginationFinished (serial : Z).

Definition handle_msg (a : GapActor) (m : GapMessage) : Result :=
  match m with
  | InspectTimelineGaps t => handle_inspect_timeline_gaps a t
  | TimelineGapInspectionFinished s t c g r =>
      handle_timeline_gap_inspection_finished a s t c g r
  | TimelineGapRepairFinished s t f r settlement =>
      handle_timeline_gap_repair_finished a s t f (settled_repair r settlement)
  | TimelineGapRelaySettlementDue actor repair n d ps e b p =>
      handle_gap_relay_settlement_due a actor repair n d ps e b p
  | RelayBatch n d ps e b p => handle_diff_batch a n d ps e b p
  | RelayOverflow n d ps e b p => handle_relay_overflow a n d ps e b p
  | StartLiveTailRefresh o => nothing (start_live_tail_refresh a o)
  | LiveTailRefreshFinished actor epoch o r b =>
      handle_live_tail_refresh_finished a actor epoch o r b
  | UpdateSubscriptionGeneration g => nothing (a <| subscription_generation := Some g |>)
  | RoomSubscriptionCheckpoint c => handle_room_subscription_checkpoint a c
  | GlobalResponseCommitted c => handle_global_response_committed a c
  | ObserveViewport o d => handle_viewport_observation a o d
  | BeginGapRepairDemand => handle_begin_gap_repair_demand a
  | EndGapRepairDemand => nothing (handle_end_gap_repair_demand a)
  | Paginate s => nothing (handle_paginate a s)
  | CancelPagination => nothing (handle_cancel_pagination a)
  | PaginationFinished s => handle_pagination_finished a s
  end.
Definition gap_step (a : GapActor) (m : GapMessage) : Result :=
  and_then (handle_msg a m) finish_ready_causal_projection_handoffs.

End handlers.
End actor.
