(* ===== verification/GapProps.v ===== *)
(** The gap repair of a timeline actor has one piece of work at a time, serves what is queued, and
    keeps a committed gap until it is handled. *)

From stdpp Require Import base list strings gmap.
From Stdlib Require Import ZArith Lia.
From S2P Require Import Prelude Text LiveTail AccountWork Panes PaneActions TimelineItem GapRepair GapActor.
Local Open Scope string_scope.
Local Open Scope list_scope.
Local Open Scope Z_scope.
Local Set Warnings "-clear-no-such-hyp".

Section runs.
Context {Descriptor : Type} `{!EqDecision Descriptor}
        (revision_of : Descriptor -> Z) (older_of newer_of : Descriptor -> option string).
Abbreviation Actor := (GapActor (Descriptor := Descriptor)).
Abbreviation Output := (GapOutput (Descriptor := Descriptor)).
Abbreviation Message := (GapMessage (Descriptor := Descriptor)).
Implicit Types (a b : Actor) (out : list Output).

(** * Phases *)

(** The serials of the work that was spawned. *)
Definition spawned out : list Z :=
  omap (fun o => match o with
                 | SpawnInspection s _ _ _ | SpawnRepair s _ _ _ _ => Some s
                 | _ => None
                 end) out.


Abbreviation hist s := (historical_causal_projection_operation s).

(** Whether a last batch is awaited with a timer: it is, but while the timer's own message is
    handled. *)
Context (timed : bool).



Lemma spawned_elem_inspection s t c g out :
  SpawnInspection s t c g ∈ out -> s ∈ spawned out.
Proof. intros H. apply list_elem_of_omap; eauto. Qed.



(** * Handlers that keep the phases *)



Section handlers.
Context (delivered : bool).
Abbreviation start := (start_pending_timeline_gap_inspection delivered).





(** * Inspections that end *)








(** * Repairs that end *)






(** * Batches of the relay *)





(** * Every message *)


End handlers.
End runs.

Section steps.
Context {Descriptor : Type} `{!EqDecision Descriptor}
        (revision_of : Descriptor -> Z) (older_of newer_of : Descriptor -> option string).
Abbreviation Actor := (GapActor (Descriptor := Descriptor)).
Abbreviation Output := (GapOutput (Descriptor := Descriptor)).
Abbreviation Message := (GapMessage (Descriptor := Descriptor)).
Implicit Types (a b : Actor) (out : list Output) (m : Message).
Context (delivered : bool).




End steps.

(** * Runs *)

Section all_runs.
Context {Descriptor : Type} `{!EqDecision Descriptor}
        (revision_of : Descriptor -> Z) (older_of newer_of : Descriptor -> option string).
Abbreviation Actor := (GapActor (Descriptor := Descriptor)).
Abbreviation Output := (GapOutput (Descriptor := Descriptor)).
Abbreviation Message := (GapMessage (Descriptor := Descriptor)).
Implicit Types (a b : Actor) (out : list Output) (m : Message).



(** * What is queued *)

(** The reasons not to start a queued inspection. *)
Definition blocked a : bool :=
  is_some (active_serial (gap_repair a)) || awaits_relay a || is_some (pagination_task a)
  || awaits_checkpoint a || negb (initial_projection_committed a)
  || negb (is_some (next_causal_projection_serial (next_serial (gap_repair a)))).


Abbreviation start := (start_pending_timeline_gap_inspection true).




End all_runs.

(** * Responses that are held *)

Section kept.
Context {Descriptor : Type} `{!EqDecision Descriptor}
        (revision_of : Descriptor -> Z) (older_of newer_of : Descriptor -> option string)
        (delivered : bool).
Abbreviation Actor := (GapActor (Descriptor := Descriptor)).
Abbreviation Output := (GapOutput (Descriptor := Descriptor)).
Abbreviation Checkpoint := (MatrixRoomSubscriptionCheckpoint Descriptor).
Abbreviation start := (start_pending_timeline_gap_inspection delivered).

(** The responses an actor holds, the current and the deferred one. *)
Definition held_of (a : Actor) : option Checkpoint * option Checkpoint :=
  (room_subscription_checkpoint a, deferred_room_subscription_checkpoint a).
Definition keeps_held (f : Actor -> Actor * list Output) : Prop :=
  forall a, held_of (f a).1 = held_of a.

Lemma and_then_held (r : Actor * list Output) f a :
  keeps_held f -> held_of r.1 = held_of a -> held_of (and_then r f).1 = held_of a.
Proof. intros Hf <-. unfold and_then. rewrite <-(Hf r.1). by destruct (f r.1). Qed.
Lemma start_held : keeps_held start.
Proof.
  intros a. unfold start_pending_timeline_gap_inspection. destruct (_ || _); [done|].
  destruct (begin_pending_inspection _ _) as [[[tr s] t]|]; [|done]. by destruct delivered.
Qed.
Lemma request_held t : keeps_held (request_timeline_gap_inspection delivered t).
Proof.
  intros a. unfold request_timeline_gap_inspection. destruct (negb _); [done|]. by rewrite start_held.
Qed.
Lemma resume_held s : keeps_held (resume delivered s).
Proof.
  intros a. apply and_then_held; [|apply start_held]. intros b.
  unfold emit_gap_repair_released_if_idle. by destruct (_ || _).
Qed.
Lemma failure_held s n k : keeps_held (emit_gap_repair_failure_and_resume delivered s n k).
Proof. intros a. by apply and_then_held; [apply resume_held|]. Qed.
Lemma start_repair_held t f h n : keeps_held (start_timeline_gap_repair delivered t f h n).
Proof.
  intros a. unfold start_timeline_gap_repair. destruct (begin_repair _ _) as [[tr s]|]; [|done].
  destruct (negb _); [done|]. by destruct (record_batch _ _).
Qed.
Lemma repair_selected_held s t f c gs n d sel o :
  keeps_held (repair_selected revision_of delivered s t f c gs n d sel o).
Proof.
  intros a. unfold repair_selected. destruct (or_else d _) as [h|]; [|apply resume_held].
  match goal with |- context [on_repair ?g a] => set (b := on_repair g a) end.
  assert (forall b', held_of b' = held_of a ->
    held_of (and_then (start_timeline_gap_repair delivered t f h n b') (resume delivered s)).1 = held_of a) as H.
  { intros b' E. apply and_then_held; [apply resume_held|]. by rewrite start_repair_held. }
  destruct (is_live_edge t); [|by apply H]. destruct (negb (can_start_batch _ _)); [by rewrite resume_held|].
  destruct (evaluate_live_edge_selection _ _) as [tr []]; [by apply H|by rewrite resume_held].
Qed.
Lemma finish_projection_held n : keeps_held (finish_pending_gap_projection delivered n).
Proof.
  intros a. unfold finish_pending_gap_projection.
  destruct (pending_gap_projection _); [|done]. by apply and_then_held; [apply start_held|].
Qed.
Lemma repair_finished_held s t f r :
  keeps_held (fun a => handle_timeline_gap_repair_finished delivered a s t f r).
Proof.
  intros a. unfold handle_timeline_gap_repair_finished.
  destruct (finish_work (gap_repair a) s) as [tr []]; [|done]. cbn [negb].
  match goal with |- context [a <| gap_repair := ?x |>] => set (b := a <| gap_repair := x |>) end.
  assert (held_of b = held_of a) as Hb by done. clearbody b.
  assert (forall r', held_of (repair_succeeded delivered s t f r' b).1 = held_of a) as Hend.
  { intros r'. unfold repair_succeeded. destruct (complete _ _ _ _) as [c []].
    - by apply and_then_held; [apply request_held|].
    - done.
    - by rewrite finish_projection_held. }
  assert (forall n k, held_of (emit_gap_repair_failure_and_resume delivered s n k (forget_operation s b)).1
    = held_of a) as Hfail by (intros; by rewrite failure_held).
  destruct r as [[[] l]|]; [..|apply Hfail]; try (destruct (_ && _)); first [apply Hfail | apply Hend].
Qed.
Lemma release_held actor r t : keeps_held (release_gap_relay_settlement delivered actor r t).
Proof.
  intros a. unfold release_gap_relay_settlement. destruct (negb _); [done|]. by rewrite failure_held.
Qed.
Lemma observe_batch_held ps n a : held_of (observe_batch ps n a).1.1 = held_of a.
Proof.
  unfold observe_batch. change (held_of a) with (held_of (a, @None Z, false).1.1).
  generalize (a, @None Z, false). induction ps as [|p ps IH]; [done|].
  intros x. cbn [foldl]. rewrite IH. destruct x as [[b ready] tail].
  unfold observe_one. by destruct (observe_causal_projection _ _ _ _) as [[[] ] ].
Qed.
Lemma finish_live_tail_held a : held_of (finish_pending_live_tail_projection a).1.1 = held_of a.
Proof. unfold finish_pending_live_tail_projection. by destruct (pending_live_tail_projection a). Qed.
Lemma relay_projections_held e ps n a : held_of (relay_projections delivered e ps n a).1.1 = held_of a.
Proof.
  unfold relay_projections. destruct e; [|done]. pose proof (observe_batch_held ps n a) as H.
  destruct (observe_batch ps n a) as [[d ready] tail]. cbn [fst] in H. unfold finish_observed.
  set (y := match ready with Some _ => _ | None => _ end).
  assert (held_of y.1 = held_of a) as Hy.
  { unfold y. destruct ready; [by rewrite finish_projection_held|done]. }
  clearbody y. destruct y as [c o]. cbn [fst] in Hy. destruct tail; [|done].
  pose proof (finish_live_tail_held c) as Hc.
  destruct (finish_pending_live_tail_projection c) as [[c' sent] snapshot]. cbn [fst] in *. by rewrite Hc.
Qed.
Lemma observe_target_held ps a : held_of (observe_target ps a).1 = held_of a.
Proof.
  unfold observe_target. destruct (_ && _); [|done]. by destruct (observe_live_edge_target _ _).
Qed.
Lemma diff_batch_held nav dis ps e n p :
  keeps_held (fun a => handle_diff_batch delivered a nav dis ps e n p).
Proof.
  intros a. unfold handle_diff_batch.
  set (b := a <| navigation_items := nav |> <| display_items := dis |>).
  pose proof (observe_target_held ps b) as Hw. change (held_of b) with (held_of a) in Hw.
  destruct p; [done|done|]. destruct (observe_target ps b) as [c changed]. cbn [fst] in Hw.
  pose proof (relay_projections_held e ps n c) as Hz.
  destruct (relay_projections delivered e ps n c) as [[d o] published]. cbn [fst] in Hz. rewrite Hw in Hz.
  destruct (post_diff_gap_inspection_trigger _ _ _); [|done]. by apply and_then_held; [apply request_held|].
Qed.
Lemma overflow_held nav dis ps e n p :
  keeps_held (fun a => handle_relay_overflow delivered a nav dis ps e n p).
Proof.
  intros a. unfold handle_relay_overflow. destruct p; [done|done|].
  set (b := on_repair _ _). change (held_of a) with (held_of b). clearbody b. unfold recover_relay.
  set (qs := List.filter _ ps). generalize (e && negb (bool_decide (length qs = 0%nat))). intros e'.
  pose proof (relay_projections_held e' qs n b) as Hz.
  destruct (relay_projections delivered e' qs n b) as [[d o] snapshot]. cbn [fst] in Hz.
  apply and_then_held.
  - intros c. destruct (operation _) as [[actor op]|]; [apply release_held|done].
  - destruct snapshot; [|done]. by apply and_then_held; [apply request_held|].
Qed.
Lemma snapshot_held (a c : Actor) (o : list Output) (b : bool) :
  held_of c = held_of a ->
  held_of (if b then and_then (c, o) (request_timeline_gap_inspection delivered Trigger_LiveTailSnapshot)
           else (c, o)).1 = held_of a.
Proof. intros H. destruct b; [|done]. by apply and_then_held; [apply request_held|]. Qed.
Lemma handoffs_held : keeps_held (finish_ready_causal_projection_handoffs delivered).
Proof.
  intros a. unfold finish_ready_causal_projection_handoffs. destruct (_ && _); [|done].
  pose proof (finish_live_tail_held a) as H.
  destruct (finish_pending_live_tail_projection a) as [[b o] snapshot]. by apply snapshot_held.
Qed.

(** An inspection may have handled the response it was started for. *)
Definition consumed (held : option Checkpoint * option Checkpoint) (c : Checkpoint)
    : option Checkpoint * option Checkpoint :=
  (consume_room_subscription_checkpoint held.1 held.2 c).1.
Definition handles (committed : option Checkpoint) (a b : Actor) : Prop :=
  held_of b = held_of a \/ exists c, committed = Some c /\ held_of b = consumed (held_of a) c.

Lemma handles_from committed a a' b :
  held_of a' = held_of a -> handles committed a' b -> handles committed a b.
Proof. intros E. unfold handles. by rewrite E. Qed.
Lemma handles_to committed a b b' :
  held_of b' = held_of b -> handles committed a b -> handles committed a b'.
Proof. intros E. unfold handles. by rewrite E. Qed.
Lemma and_then_handles committed (r : Actor * list Output) f :
  handles committed r.1 (f r.1).1 -> handles committed r.1 (and_then r f).1.
Proof. unfold and_then. by destruct (f r.1). Qed.
Lemma consume_held c a : held_of (consume_checkpoint c a) = consumed (held_of a) c.
Proof.
  unfold consume_checkpoint, consumed. cbn [held_of fst snd].
  destruct (consume_room_subscription_checkpoint _ _ _) as [[cur def] []]; done.
Qed.
Lemma nothing_selected_handles s committed u a :
  handles committed a (nothing_selected delivered s committed u a).1.
Proof.
  unfold nothing_selected.
  assert (forall b, held_of (resume delivered s
    (match u with Unlocated_QueueAutomatic => queue Trigger_Automatic b | _ => b end)).1 = held_of b) as Hfin.
  { intros b. rewrite resume_held. by destruct u. }
  destruct committed as [c|]; [|left; apply Hfin].
  destruct (missing_committed_gap_decision _ _ _).
  - left. apply Hfin.
  - left. by rewrite start_held.
  - right. exists c. split; [done|]. by rewrite Hfin, consume_held.
Qed.
Lemma handle_gaps_handles s t committed g gs pr a :
  handles committed a (handle_gaps revision_of delivered s t committed g gs pr a).1.
Proof.
  unfold handle_gaps. match goal with |- context [on_repair ?f a] => set (b := on_repair f a) end.
  apply (handles_from _ a b); [done|]. clearbody b. clear a.
  destruct (select_gap _ _ _ _ _ _) as [sel d].
  destruct (match unlocated_gap_action _ _ _ _ with
            | Unlocated_RepairNewest o => Select_Unprojected o Reason_Foreground | _ => sel end)
    as [|id| |o [| |]].
  - apply nothing_selected_handles.
  - left. apply repair_selected_held.
  - destruct committed as [c|]; [right; exists c; split; [done|]|left; by rewrite repair_selected_held].
    by rewrite repair_selected_held, consume_held.
  - left. apply repair_selected_held.
  - left. apply repair_selected_held.
  - left. apply repair_selected_held.
Qed.
Lemma inspection_finished_handles a s t c g r :
  handles c a (handle_timeline_gap_inspection_finished revision_of older_of newer_of delivered a s t c g r).1.
Proof.
  unfold handle_timeline_gap_inspection_finished.
  destruct (finish_work (gap_repair a) s) as [tr []]; [|by left]. cbn [negb].
  match goal with |- context [a <| gap_repair := ?x |>] => set (b := a <| gap_repair := x |>) end.
  apply (handles_from _ a b); [done|]. clearbody b. clear a.
  destruct (is_superseded b t c); [left; by rewrite start_held|]. destruct r as [i|].
  - unfold inspection_succeeded. match goal with |- context [on_repair ?f b] => set (a := on_repair f b) end.
    apply (handles_from _ b a); [done|].
    match goal with |- context [and_then (a, ?o) ?f] => apply (and_then_handles c (a, o) f) end. cbn [fst].
    destruct (continuity i); [left; by rewrite resume_held|apply handle_gaps_handles|left; by rewrite resume_held].
  - left. unfold inspection_failed. destruct (_ =? 0); [by apply and_then_held; [apply resume_held|]|].
    destruct (begin_repair _ _) as [[tr' r]|]; [|apply resume_held].
    by apply and_then_held; [apply resume_held|].
Qed.

(** A response that the room's subscription committed is taken. *)
Definition takes (a : Actor) (c : Checkpoint) : bool :=
  String.eqb (key_room a) (checkpoint_room c)
  && bool_decide (subscription_generation a = Some (checkpoint_generation c)).
(** What a message makes of the responses held. *)
Lemma step_held a m :
  let b := (gap_step revision_of older_of newer_of delivered a m).1 in
  match m with
  | RoomSubscriptionCheckpoint c =>
      held_of b = if takes a c then (retain_room_subscription_checkpoint (held_of a).1 (held_of a).2 c).1
                  else held_of a
  | TimelineGapInspectionFinished _ _ c _ _ => handles c a b
  | _ => held_of b = held_of a
  end.
Proof.
  unfold gap_step. set (r := handle_msg _ _ _ _ a m).
  assert (held_of (and_then r (finish_ready_causal_projection_handoffs delivered)).1 = held_of r.1) as H
    by (by apply and_then_held; [apply handoffs_held|]).
  destruct m; cbv zeta; try rewrite H; unfold r; cbn [handle_msg].
  - unfold handle_inspect_timeline_gaps. rewrite request_held. by destruct trigger.
  - eapply handles_to; [exact H|]. apply inspection_finished_handles.
  - apply repair_finished_held.
  - unfold handle_gap_relay_settlement_due. destruct (correlates _ _ _); [|done]. by rewrite overflow_held.
  - by rewrite diff_batch_held.
  - by rewrite overflow_held.
  - unfold start_live_tail_refresh. by destruct (_ || _).
  - unfold handle_live_tail_refresh_finished. destruct (_ || _); [done|].
    destruct (complete _ _ _ _) as [c []]; [by apply snapshot_held|done|by apply snapshot_held].
  - done.
  - unfold handle_room_subscription_checkpoint, takes. destruct (_ && _); cbn [negb]; [|done].
    cbn [held_of fst snd].
    destruct (retain_room_subscription_checkpoint _ _ _) as [[cur def] changed]. rewrite start_held.
    by destruct (changed && _).
  - unfold handle_global_response_committed. destruct (observe_commit _ _) as [f d].
    destruct d; [done..|]. by rewrite start_held.
  - unfold handle_viewport_observation.
    destruct (evaluate_viewport_wake _ _ _) as [tr d]. destruct d; try done; by rewrite request_held.
  - unfold handle_begin_gap_repair_demand. destruct (visible _); [done|]. by rewrite request_held.
  - done.
  - unfold handle_paginate. by destruct (_ || _).
  - done.
  - unfold handle_pagination_finished. case_bool_decide; [by rewrite start_held|done].
Qed.
End kept.

Section held.
Context {Descriptor : Type} `{!EqDecision Descriptor}.
Abbreviation Checkpoint := (MatrixRoomSubscriptionCheckpoint Descriptor).
Implicit Types (c d : Checkpoint) (cs : list Checkpoint).
Abbreviation newer := checkpoint_is_strictly_newer.

Lemma newer_spec c d :
  newer c d = (checkpoint_generation d <? checkpoint_generation c)
              || ((checkpoint_generation c =? checkpoint_generation d)
                  && (response_sequence d <? response_sequence c)).
Proof.
  unfold checkpoint_is_strictly_newer. destruct (same_response_as c d) eqn:E; [|done].
  unfold same_response_as in E. rewrite !andb_true_iff in E. destruct E as [[E1 _] E2].
  apply Z.eqb_eq in E1, E2. rewrite E1, E2, !Z.ltb_irrefl. by rewrite andb_false_r.
Qed.
Lemma newer_lt c d :
  newer c d = true <->
  checkpoint_generation d < checkpoint_generation c
  \/ (checkpoint_generation c = checkpoint_generation d
      /\ response_sequence d < response_sequence c).
Proof. rewrite newer_spec, orb_true_iff, andb_true_iff, !Z.ltb_lt, Z.eqb_eq. done. Qed.
Lemma newer_not c d :
  newer c d = false <->
  checkpoint_generation c < checkpoint_generation d
  \/ (checkpoint_generation c = checkpoint_generation d
      /\ response_sequence c <= response_sequence d).
Proof. rewrite <- not_true_iff_false, newer_lt. lia. Qed.

(** [n] is the newest of [cs]. *)
Definition newest cs n : Prop := n ∈ cs /\ forall c, c ∈ cs -> newer c n = false.
Lemma newest_snoc_new cs n c : newest cs n -> newer c n = true -> newest (cs ++ [c]) c.
Proof.
  intros [_ Hn] Hc. split; [apply elem_of_app; right; left|].
  intros x [Hx| ->%list_elem_of_singleton]%elem_of_app; [|rewrite newer_not; lia].
  specialize (Hn x Hx). rewrite newer_not in Hn |- *. rewrite newer_lt in Hc. lia.
Qed.
Lemma newest_snoc_old cs n c : newest cs n -> newer c n = false -> newest (cs ++ [c]) n.
Proof.
  intros [Hin Hn] Hc. split; [apply elem_of_app; by left|].
  by intros x [Hx| ->%list_elem_of_singleton]%elem_of_app; [apply Hn|].
Qed.

Definition well_held cs (held : option Checkpoint * option Checkpoint) : Prop :=
  match held with
  | (None, deferred) => deferred = None /\ cs = []
  | (Some c, None) => newest cs c
  | (Some c, Some d) => newest cs d /\ c ∈ cs /\ has_inserted_gap c = true /\ newer d c = true
  end.
Lemma retain_well_held cs held c :
  well_held cs held -> well_held (cs ++ [c]) (retain_room_subscription_checkpoint held.1 held.2 c).1.
Proof.
  destruct held as [[x|] [d|]]; cbn [well_held fst snd]; intros IH;
    unfold retain_room_subscription_checkpoint.
  - destruct IH as (Hn & Hx & Hg & Hd). destruct (newer c x) eqn:E; cbn [negb].
    + rewrite Hg. cbn [is_none_or fst]. destruct (newer c d) eqn:E2.
      * split_and!; [by eapply newest_snoc_new|apply elem_of_app; by left|done|done].
      * split_and!; [by eapply newest_snoc_old|apply elem_of_app; by left|done|done].
    + split_and!; [|apply elem_of_app; by left|done|done]. eapply newest_snoc_old; [done|].
      rewrite newer_not in E |- *. rewrite newer_lt in Hd. lia.
  - destruct (newer c x) eqn:E; cbn [negb]; [|by eapply newest_snoc_old].
    destruct (has_inserted_gap x) eqn:Hg; cbn [is_none_or fst well_held].
    + split_and!; [by eapply newest_snoc_new|apply elem_of_app; left; apply IH|done|done].
    + by eapply newest_snoc_new.
  - by destruct IH.
  - destruct IH as [_ ->]. cbn. split; [left|].
    intros y ->%list_elem_of_singleton. rewrite newer_not. lia.
Qed.
(** The handled response makes room for the deferred one. *)
Lemma consumed_cases cs held c :
  well_held cs held ->
  consumed held c = held
  \/ (is_some_and held.1 (fun current => same_response_as current c) = true
      /\ consumed held c = (held.2, None)).
Proof.
  intros Hw. unfold consumed, consume_room_subscription_checkpoint.
  destruct (is_some_and held.1 _) eqn:E; cbn [negb]; [right|left; by destruct held].
  destruct held as [[x|] [d|]]; cbn [fst snd well_held is_some_and] in *; try done; (split; [done|]).
  - destruct Hw as (_ & _ & _ & Hd).
    assert (newer d c = true) as ->; [|done].
    unfold same_response_as in E. rewrite !andb_true_iff, !Z.eqb_eq in E. destruct E as [[E1 _] E2].
    rewrite newer_lt in Hd |- *. by rewrite <-E1, <-E2.
Qed.

Context (revision_of : Descriptor -> Z) (older_of newer_of : Descriptor -> option string).
Abbreviation Actor := (GapActor (Descriptor := Descriptor)).
Abbreviation Message := (GapMessage (Descriptor := Descriptor)).
Abbreviation step := (gap_step revision_of older_of newer_of).

(** The actor after a message, and the responses it took since it last held none. *)
Definition heard_step (s : Actor * list Checkpoint) (dm : bool * Message) : Actor * list Checkpoint :=
  let '(a, cs) := s in
  let b := (step dm.1 a dm.2).1 in
  (b, match room_subscription_checkpoint b with
      | None => []
      | Some _ =>
          cs ++ match dm.2 with
                | RoomSubscriptionCheckpoint c => if takes a c then [c] else []
                | _ => []
                end
      end).

Lemma heard_step_well_held s dm :
  well_held s.2 (held_of s.1) -> well_held (heard_step s dm).2 (held_of (heard_step s dm).1).
Proof.
  destruct s as [a cs], dm as [d m]. cbn [fst snd]. intros Hw. unfold heard_step. cbn [fst snd].
  pose proof (step_held revision_of older_of newer_of d a m) as Hs. cbv zeta in Hs.
  set (b := (step d a m).1) in *. clearbody b.
  set (taken := match m with RoomSubscriptionCheckpoint c => if takes a c then [c] else [] | _ => [] end).
  assert (well_held (cs ++ taken) (held_of b) \/ held_of b = (None, None)) as H.
  { assert (held_of b = held_of a -> taken = [] -> well_held (cs ++ taken) (held_of b)) as Hsame
      by (intros -> ->; by rewrite app_nil_r).
    destruct m; try (left; by apply Hsame).
    - destruct Hs as [Hs|(c & -> & Hs)]; [left; by apply Hsame|].
      destruct (consumed_cases cs (held_of a) c Hw) as [Hc|[_ Hc]]; rewrite Hc in Hs; [left; by apply Hsame|].
      rewrite Hs. destruct (held_of a) as [[x|] [d'|]]; cbn [fst snd well_held] in *.
      + left. unfold taken. rewrite app_nil_r. apply Hw.
      + by right.
      + by destruct Hw.
      + by right.
    - left. unfold taken. destruct (takes a checkpoint); rewrite Hs; [by apply retain_well_held|by rewrite app_nil_r]. }
  destruct H as [H|H].
  - destruct (room_subscription_checkpoint b) as [x|] eqn:E; [done|].
    unfold held_of in *. rewrite E in *. cbn [well_held] in *. by destruct H.
  - unfold held_of in *. injection H as -> ->. done.
Qed.

(** C16: Whatever messages reach the actor, of the responses of the room's subscription that it took
    since it last held none it holds the newest: as the current one, or behind a current one with a
    gap that has not been handled yet.  Such a gap is never displaced: in any message it stays the
    current one, or the message ends an inspection that was started for it and the newest response
    takes its place at once.  (Once everything held has been handled the actor remembers nothing: a
    response older than a handled one is then taken as new, see [late_response_is_taken].) *)
Theorem held_gap_keeps_the_newest room kind generation emitted navigation display subscription
    messages delivered message :
  let s := foldl heard_step
    (run_initial (GapActor_new room kind generation emitted navigation display subscription), [])
    messages in
  let current := room_subscription_checkpoint s.1 in
  let deferred := deferred_room_subscription_checkpoint s.1 in
  let after := (step delivered s.1 message).1 in
  (match or_else deferred current with Some n => newest s.2 n | None => s.2 = [] end)
  /\ (forall gap, current = Some gap -> has_inserted_gap gap = true ->
        room_subscription_checkpoint after = Some gap
        \/ exists serial trigger inspected global result,
            message = TimelineGapInspectionFinished serial trigger (Some inspected) global result
            /\ same_response_as gap inspected = true
            /\ room_subscription_checkpoint after = deferred
            /\ deferred_room_subscription_checkpoint after = None).
Proof.
  intros s current deferred after.
  assert (well_held s.2 (held_of s.1)) as Hw.
  { unfold s. set (s0 := (_, [])). assert (well_held s0.2 (held_of s0.1)) as H0 by done.
    clearbody s0. clear s current deferred after. revert s0 H0.
    induction messages as [|dm messages IH]; intros s0 H0; [done|]. cbn [foldl].
    by apply IH, heard_step_well_held. }
  assert (held_of s.1 = (current, deferred)) as Hh by done. clearbody current deferred.
  split.
  - rewrite Hh in Hw. destruct current as [c|], deferred as [d|]; cbn [well_held] in Hw; cbn;
      [apply Hw|exact Hw| |]; by destruct Hw.
  - intros gap -> Hg. pose proof (step_held revision_of older_of newer_of delivered s.1 message) as Hs.
    cbv zeta in Hs. fold after in Hs. clearbody after.
    assert (held_of after = held_of s.1 -> room_subscription_checkpoint after = Some gap) as Hsame.
    { rewrite Hh. by intros [= -> _]. }
    destruct message; try (left; by apply Hsame).
    + destruct Hs as [Hs|(c & -> & Hs)]; [left; by apply Hsame|].
      destruct (consumed_cases _ _ c Hw) as [Hc|[He Hc]]; rewrite Hc in Hs; [left; by apply Hsame|].
      right. exists serial, trigger, c, global, result. rewrite Hh in He, Hs. cbn in He. split; [done|].
      split; [done|]. by injection Hs as -> ->.
    + destruct (takes s.1 checkpoint); [|left; by apply Hsame]. left. rewrite Hh in Hs.
      cbn [fst snd] in Hs. unfold retain_room_subscription_checkpoint in Hs.
      destruct (negb (newer checkpoint gap)); [by injection Hs as ->|]. rewrite Hg in Hs.
      by injection Hs as ->.
Qed.
End held.

(** * Concrete runs *)

Section examples.
Abbreviation Actor := (GapActor (Descriptor := Z)).
Abbreviation Message := (GapMessage (Descriptor := Z)).
Abbreviation step := (gap_step (fun d : Z => d) (fun _ => None) (fun _ => None) true).

(** A room's actor whose timeline shows the event [$1]. *)
Definition shown_event : TimelineItem :=
  {| item_id := Event "$1"; sender := None; sender_label := None; sender_avatar := None; body := None;
     notice_i18n := None; message_kind := Message_Text; spoiler_spans := []; timestamp_ms := None;
     in_reply_to_event_id := None; formatted := None; reply_quote := None; thread_root := None;
     thread_summary := None; media := None; link_previews := None; link_ranges := [];
     mentioned_user_ids := []; mentions_room := false; reactions := []; can_react := false;
     is_redacted := false; is_hidden := false; can_redact := false; is_edited := false;
     can_edit := false; unable_to_decrypt := None; request_state := None;
     actions := {| can_copy := false; can_forward := false; can_reply := false; can_pin := false;
                   can_permalink := false; can_view_source := false; action_permalink := None;
                   editable_document := None |};
     send_state := None; display_metadata := None |}.
Definition room_actor : Actor :=
  run_initial (GapActor_new "!room:hs" true 1 true [shown_event] [shown_event] (Some 1)).
Definition inspect_manually : Message := InspectTimelineGaps Trigger_Manual.
(** The room has one gap, which no item is next to. *)
Definition one_gap : Message :=
  TimelineGapInspectionFinished 1 Trigger_Manual None None
    (Some {| continuity := Matrix_Gapped; gaps := [{| gap_room := "!room:hs"; descriptor := 7 |}] |}).
(** The repair made progress; its batch 5 is yet to come through the relay. *)
Definition repaired : Message :=
  TimelineGapRepairFinished 2 Trigger_Manual false
    (Some {| outcome := Repair_Progress 3; last_projection_batch := Some 5 |}) Observable.
Definition batch_5 : Message :=
  RelayBatch [] []
    [{| projection_actor := 1; projection_operation := historical_causal_projection_operation 2;
        projection_batch := 5 |}] true 9 Handled.

(** The actor and its outputs after some messages. *)
Definition after (ms : list Message) : Actor * list (GapOutput (Descriptor := Z)) :=
  foldl (fun '(a, out) m => let r := step a m in (r.1, out ++ r.2)) (room_actor, []) ms.

Example repair_cycle :
  spawned (after [inspect_manually; one_gap; repaired]).2 = [1; 2]
  /\ gap_relay_settlement_task (after [inspect_manually; one_gap; repaired]).1
     = Some (2, Trigger_Manual)
  /\ spawned (after [inspect_manually; one_gap; repaired; batch_5]).2 = [1; 2; 3]
  /\ gap_relay_settlement_task (after [inspect_manually; one_gap; repaired; batch_5]).1 = None.
Proof. vm_compute. done. Qed.

Definition response (generation sequence : Z) (gap : option Z)
    : MatrixRoomSubscriptionCheckpoint Z :=
  {| checkpoint_generation := generation; response_sequence := sequence;
     checkpoint_room := "!room:hs"; has_timeline_update := true; inserted_gap := gap |}.
(** A response with a gap is committed while a page is loaded, and a live-tail refresh ends: the
    snapshot it asks for takes the place of the inspection the gap asked for, and once it has
    ended nothing is queued or under way, with the gap still held. *)
Example snapshot_displaces_committed_gap :
  let committed :=
    after [Paginate 7; RoomSubscriptionCheckpoint (response 1 4 (Some 7)); StartLiveTailRefresh 3] in
  let refreshed := after [Paginate 7; RoomSubscriptionCheckpoint (response 1 4 (Some 7));
                          StartLiveTailRefresh 3; LiveTailRefreshFinished 1 0 3 Unchanged None] in
  let handled := after [Paginate 7; RoomSubscriptionCheckpoint (response 1 4 (Some 7));
                        StartLiveTailRefresh 3; LiveTailRefreshFinished 1 0 3 Unchanged None;
                        PaginationFinished 7;
                        TimelineGapInspectionFinished 1 Trigger_LiveTailSnapshot None None
                          (Some {| continuity := Matrix_Gapped;
                                   gaps := [{| gap_room := "!room:hs"; descriptor := 7 |}] |})] in
  pending_trigger (gap_repair committed.1) = Some Trigger_LiveEdge
  /\ pending_trigger (gap_repair refreshed.1) = Some Trigger_LiveTailSnapshot
  /\ spawned handled.2 = [1] /\ pending_trigger (gap_repair handled.1) = None
  /\ active_serial (gap_repair handled.1) = None
  /\ room_subscription_checkpoint handled.1 = Some (response 1 4 (Some 7)).
Proof. vm_compute. done. Qed.

(** Queued behind a page, an inspection starts when the page has loaded, but not when it is
    cancelled. *)
Example cancelled_page_strands_inspection :
  let queued := after [Paginate 7; inspect_manually] in
  pending_trigger (gap_repair queued.1) = Some Trigger_Manual /\ blocked queued.1 = true
  /\ spawned (step queued.1 (PaginationFinished 7)).2 = [1]
  /\ spawned (step queued.1 CancelPagination).2 = []
  /\ let cancelled := (step queued.1 CancelPagination).1 in
     pending_trigger (gap_repair cancelled) = Some Trigger_Manual /\ blocked cancelled = false.
Proof. vm_compute. done. Qed.

(** A recovery that is refused leaves the awaited batch without its timer. *)
Example refused_recovery_drops_the_timer :
  let awaiting := (after [inspect_manually; one_gap; repaired]).1 in
  let refused := (step awaiting (TimelineGapRelaySettlementDue 1 2 [] [] [] true 6 Interrupted)).1 in
  gap_relay_settlement_task awaiting = Some (2, Trigger_Manual)
  /\ gap_relay_settlement_task refused = None
  /\ pending_gap_projection refused = pending_gap_projection awaiting
  /\ operation (gap_projection_correlation refused) = Some (1, historical_causal_projection_operation 2).
Proof. vm_compute. done. Qed.
(** An inspection that cannot be announced is queued again, and nothing starts it. *)
Example refused_inspection_waits :
  let refused :=
    (gap_step (fun d : Z => d) (fun _ => None) (fun _ => None) false room_actor inspect_manually) in
  spawned refused.2 = [] /\ pending_trigger (gap_repair refused.1) = Some Trigger_Manual
  /\ blocked refused.1 = false.
Proof. vm_compute. done. Qed.



(** The response with a gap is inspected and handled; the newest one takes its place. *)
Definition held_messages : list (bool * Message) :=
  (fun m => (true, m)) <$>
    [RoomSubscriptionCheckpoint (response 1 4 (Some 7)); RoomSubscriptionCheckpoint (response 1 3 None);
     RoomSubscriptionCheckpoint (response 1 6 None); RoomSubscriptionCheckpoint (response 1 5 None)].
Definition gap_7_handled : Message :=
  TimelineGapInspectionFinished 1 Trigger_LiveEdge (Some (response 1 4 (Some 7))) None
    (Some {| continuity := Matrix_Gapped; gaps := [{| gap_room := "!room:hs"; descriptor := 7 |}] |}).
Abbreviation heard := (heard_step (fun d : Z => d) (fun _ => None) (fun _ => None)).
Lemma held_gap_keeps_the_newest_witness :
  let s := foldl heard (room_actor, []) held_messages in
  room_subscription_checkpoint s.1 = Some (response 1 4 (Some 7))
  /\ deferred_room_subscription_checkpoint s.1 = Some (response 1 6 None)
  /\ room_subscription_checkpoint (step s.1 gap_7_handled).1 = Some (response 1 6 None)
  /\ newest s.2 (response 1 6 None).
Proof.
  split; [vm_compute; reflexivity|]. split; [vm_compute; reflexivity|]. split; [vm_compute; reflexivity|].
  pose proof (held_gap_keeps_the_newest (fun d : Z => d) (fun _ => None) (fun _ => None)
    "!room:hs" true 1 true [shown_event] [shown_event] (Some 1) held_messages true gap_7_handled) as H.
  cbv zeta in H. apply proj1 in H. fold room_actor in H. cbv zeta.
  set (s := foldl heard (room_actor, []) held_messages) in *.
  assert (or_else (deferred_room_subscription_checkpoint s.1) (room_subscription_checkpoint s.1)
    = Some (response 1 6 None)) as E by (vm_compute; reflexivity).
  clearbody s. rewrite E in H. exact H.
Defined.

(** After the newest response was handled nothing is held, and an older one that comes late is taken
    as the current one. *)
Example late_response_is_taken :
  let handled := foldl heard (room_actor, [])
    ((fun m => (true, m)) <$>
       [RoomSubscriptionCheckpoint (response 1 4 (Some 7)); gap_7_handled]) in
  let late := heard handled (true, RoomSubscriptionCheckpoint (response 1 3 (Some 7))) in
  room_subscription_checkpoint handled.1 = None /\ handled.2 = []
  /\ room_subscription_checkpoint late.1 = Some (response 1 3 (Some 7)).
Proof. vm_compute. done. Qed.
End examples.
